(* ===== verification/_CoqProject ===== *)
-Q . S2P
Prelude.v
Canonical.v
PythonValues.v
TaskBudgetSchema.v
AgentStore.v
TaskBudgetService.v
TaskBudgetLaws.v
TaskBudgetConcurrency.v
TaskBudgetProperties.v
TaskBudgetLifecycle.v
TaskBudgetWriters.v
ExecutionLease.v
Delegation.v
TaskActivity.v
ExecutionTransitions.v
Kernel.v
ClientLedger.v
CircuitBreaker.v
RetryBudget.v
GameSession.v
ActionScheduler.v
ConnectionRegistry.v
Connection.v
ResumeTicket.v
ResumeWorker.v
Invocation.v
CapabilityCatalog.v
CapabilityRegistration.v
CapabilityCatalogProperties.v
CapabilityRegistrationProperties.v
InvocationStores.v
InvocationProperties.v
ResumeClaimStore.v
ResumeClaimConsume.v
ResumeClaimProperties.v
Reconciliation.v
ResumePlanning.v
ResumePlanningProperties.v
Transcript.v
TranscriptProperties.v
TranscriptWriterProperties.v
CheckpointBackfill.v
CheckpointBackfillProperties.v
WaitingCheckpoint.v
WaitingCheckpointProperties.v
GcDryRun.v
GcExecutor.v
GcProperties.v
GcReachability.v
UserBudget.v
UserBudgetAuthority.v
UserToolQuota.v
UserInferenceQuota.v
CanonicalInjectivity.v
UserBudgetLedger.v
UserBudgetInvariant.v
UserInferenceInvariant.v
UserBudgetTrace.v
UserBudgetProperties.v
StaleLeaseScanner.v
CanonicalPrefix.v
SafePoint.v
RecoveryCommit.v
TaskRecovery.v
SafePointProperties.v
RecoveryControlPlane.v
RecoveryProperties.v
TaskRecoveryProperties.v
RecoveryControlPlaneProperties.v
