(* ===== verification/Prelude.v ===== *)
(** * Verification of the assistant gateway

    The program is an assistant service.  A server (src/se) runs agent executions: it keeps
    tasks, branches, executions and their budgets in a database, leases executions to
    workers, talks to providers behind a retry policy and a circuit breaker, and reaches
    the capabilities of connected clients over websockets.  A client (src/cl) executes
    those capabilities, keeps a ledger of invocations, resumes executions that wait for
    its connection, and automates game windows.  This library models the parts that carry
    the program's own logic and proves what makes them correct.

    ** Files and the sources they model

    - Prelude: results, traces, sorting by a key, generic lemmas, tactics and hints.
    - Canonical, CanonicalInjectivity, CanonicalPrefix: json.dumps with sorted keys and
      SHA-256, for the fingerprints of reservations and policies; objects of strings have
      different texts, and no text of a value is the beginning of another one.
    - TaskBudgetSchema: src/se/src/domain/schemas/task_budget.py and the tables of
      src/se/src/infrastructure/storage/models/sql/agent/task_budget.py.
    - AgentStore: the database as gmaps, with the methods of AgentRepository
      (src/se/src/infrastructure/storage/repositories/agent.py) that the rest uses.
    - TaskBudgetService, TaskBudgetLaws, TaskBudgetConcurrency, TaskBudgetProperties,
      TaskBudgetLifecycle: reservations of TaskBudgetService
      (src/se/src/runtimes/agent/task_budget.py).  One attempt of the reservation loop is
      four steps (begin, replay check, plan, commit); calls interleave at these steps, and
      each transaction may fail.
    - ExecutionLease: the lease and fencing updates of the repository.
    - Delegation, TaskActivity, ExecutionTransitions: the rest of the budget service that
      is modelled: delegation admission, reconciliation of task activity, task transitions
      and execution transitions.
    - Kernel: src/se/src/kernel: dependency order, initialise, start, stop and recover.
    - ClientLedger: src/cl/src/core/client_invocation_ledger.py.
    - CircuitBreaker: src/se/src/circuit_breaker.py.
    - RetryBudget: src/se/src/provider: error classes, retry hints, both retry loops.
    - GameSession, ActionScheduler: src/cl/src/game_automation: sessions, window
      validation, the focus guard, capture, and the scheduler with its executors.
    - ConnectionRegistry, Connection: src/se/src/runtimes/connection: the registries, the
      multiplexers and realtime invocations.
    - ResumeTicket: src/se/src/runtimes/agent/waiting_ticket.py and
      src/cl/src/core/resume_ticket.py, with the calendar of datetime.
    - ResumeWorker: the ticket state machine of src/cl/src/core/client_runtime.py.
    - Invocation, InvocationStores, InvocationProperties:
      src/se/src/runtimes/capability/invocation.py and its contracts; the lifecycle works over
      the interface [InvocationStore], which the in-memory store and the SQL store implement.
    - CapabilityCatalog, CapabilityRegistration and their Properties files: the catalog,
      the routing and authorization policies, the registries of drivers, and the
      registration of a client's capabilities (src/se/src/runtimes/capability).
    - ResumeClaimStore, ResumeClaimConsume, ResumeClaimProperties: plans and claims of
      src/se/src/runtimes/agent/contracts/resume.py, and the claim methods of
      DurableAgentStore (src/se/src/runtimes/agent/persistence.py).
    - Reconciliation: src/se/src/runtimes/capability/reconciliation.py.
    - ResumePlanning, ResumePlanningProperties:
      src/se/src/runtimes/agent/resume_planning.py, over the claims and the reconciliation.
    - Transcript, TranscriptProperties, TranscriptWriterProperties: content-addressed
      transcripts (src/se/src/infrastructure/storage/transcript_representation.py,
      checkpoint_transcript_writer.py and checkpoint_transcript.py of
      src/se/src/runtimes/agent).
    - CheckpointBackfill, CheckpointBackfillProperties: checkpoint_backfill.py.
    - WaitingCheckpoint, WaitingCheckpointProperties: waiting_checkpoint.py and
      DurableAgentStore.commit_waiting_checkpoint.
    - GcDryRun, GcExecutor, GcProperties, GcReachability: gc_dry_run.py and gc_executor.py.
    - UserBudget: the renewable budgets of users: src/se/src/domain/schemas/user_budget.py, the
      tables of src/se/src/infrastructure/storage/models/sql/user_budget.py and the repository
      src/se/src/infrastructure/storage/repositories/user_budget.py.
    - UserBudgetAuthority, UserToolQuota, UserInferenceQuota: user_budget.py (owners,
      enrollment, mirroring of task budgets, reconciliation), user_tool_quota.py and
      user_inference_quota.py of src/se/src/application.
    - UserBudgetLedger, UserBudgetInvariant, UserInferenceInvariant, UserBudgetTrace,
      UserBudgetProperties: counters as sums of reservations, the invariant every operation
      keeps, traces of the transactions of all three services, and their theorems.
    - StaleLeaseScanner: src/se/src/runtimes/agent/stale_lease_scanner.py.
    - SafePoint, SafePointProperties: safe_point_reconstruction.py.
    - RecoveryCommit, RecoveryProperties: commit_recovery_waiting_checkpoint and
      fail_expired_execution_unrecoverable of DurableAgentStore (persistence.py).
    - RecoveryControlPlane, RecoveryControlPlaneProperties: recovery_control_plane.py, which
      scans for expired leases and evacuates the executions that it observes.

    ** How the code is represented

    A method that cannot be interleaved (it holds its lock, or does not suspend, or is one
    transaction) is one function; a method that suspends is a record with a program counter
    or a phase, advanced by events.  A trace is a list of events, and [runs] folds it over
    the state, so a theorem about all traces is a theorem about all interleavings.  Python
    exceptions are the error of [result]; clocks, random identifiers, the answers of
    networks and operating systems and the exceptions they raise are arguments of the
    events.  Integers are unbounded, as in Python; floats of seconds are integers of a
    finer unit.  Strings are ASCII.  SHA-256 is computed where a theorem needs its value;
    the transcripts and the user budgets take the digest as a parameter, and theorems that
    rely on different texts having different digests say so.

    ** What the theorems show

    - Budgets: concurrent reservations are linearizable and each is charged once, limits
      are never exceeded, failed calls leave no trace, a closed budget stays closed, the
      loop terminates, and the admission test is exactly the table's constraint.
    - Leases and transitions: a takeover fences the old owner forever, one owner holds a
      generation, paging over expired leases is complete, a transition of budget, execution
      and reservation is all or nothing, task activity agrees with what the store checks,
      and terminal tasks are not resurrected.
    - Delegation and the kernel: the ancestry walk is sound and total, and the dependency
      order is exactly a topological order, which start and stop follow.
    - Providers: retries of all fallback candidates share one budget; the breaker's states
      keep their invariant, and a success threshold above one makes it stall.
    - Connections: registry well-formedness, connection ids and closed states are final,
      every pending future belongs to one call, results come from the call's own
      connection and invocation, and a disconnect leaves no call waiting.
    - Resume: a published ticket is read back as written, every attempt is permitted when
      it is made, retries keep their request id until an answer, and a ticket whose
      authority was taken or refused is never attempted again.
    - Invocations and claims: both stores implement the interface, outcomes are final,
      a claim is consumed once and only by the plan it holds, a plan that is built is sound
      for its checkpoint and can be consumed when nothing changed.
    - Capabilities: routing picks the least implementation that is permitted and available,
      a registration is all or nothing and fenced by the connection, and a disconnect
      removes exactly its own routes.
    - Transcripts: what is written reads back as written, identities are checked, sharing a
      prefix does not change what is read, the backfill keeps every transcript and ends;
      a waiting checkpoint is committed once and a replay of the commit is verified.
    - Garbage collection: the dry run computes exactly the rows that are reachable, the
      executor deletes exactly the rows of the report or nothing, no reference is left
      dangling, and branches are deleted children first.
    - User budgets: over all traces of the three services the counters of a window are the
      sums of its reservations, call limits are never exceeded, history is never rewritten, a
      tool call is charged once and can always be settled or released, and a mirrored charge
      is replayed and reconciles.
    - Recovery: whatever changes between its pages, the scanner skips no lease that stays
      stale, and undisturbed sweeps find every one; a safe point contains committed results
      only and exactly the calls that are open; a takeover stores that safe point, fences the
      lost owner and is replayed to a caller who asks again; a sweep ends every lease it
      observed or reports the execution as deferred.
    - Client: ledger outcomes are immutable; captures are only published for the current
      binding; an emergency stop, a cancellation and a close end what they promise to end,
      and owned input is tracked and released.

    The Examples at the ends of the files show behaviours the code has and should not.

    ** Fuel and bounds

    The delegation walk has fuel one more than the executions the budget has used, Kahn's
    algorithm the number of runtimes, the retry loop the tokens left plus one, the scan loop
    one turn more than the pages of its policy; each is proved to be enough.  The reservation loop takes four steps per attempt, and the
    attempts are bounded by the service's configuration.

    ** Not modelled

    Of the budget service: starting root executions, the commit of a waiting checkpoint and
    the recovery writers within a task's budget, terminalising tasks, and branch fork, retry,
    adoption and aggregation; they compose the budget, branch and execution updates that are
    modelled.  What the budget service answers to the recovery control plane is therefore an
    argument of the sweep.  The planning and execution of recoveries, the execution runtime
    and the capability runtime drive the modelled operations asynchronously and hold little
    state of their own; storage drivers and the event bus wrap external systems; the write
    lock of SQLite belongs to the driver.  The web UI, the native input and capture backends,
    provider payload conversion and HTTP transport are input and output without state of
    their own. *)

From Stdlib Require Export Ascii.
From Corelib Require Export ssreflect.
From stdpp Require Export base option list gmap strings pretty sets relations.
From Stdlib Require Export Sorting.Sorted ZArith Lia.

#[export] Set Default Goal Selector "!".
#[export] Set Warnings "-register-all,-clear-no-such-hyp".
#[global] Open Scope general_if_scope.
#[global] Open Scope Z_scope.

Declare Scope assistant_scope.
Delimit Scope assistant_scope with assistant.
#[global] Open Scope assistant_scope.

(** ** Results: a Python call that returns or raises *)

Inductive result (E A : Type) : Type :=
  | Ok (a : A)
  | Err (e : E).
Arguments Ok {E A} _.
Arguments Err {E A} _.

#[global] Instance result_ret {E} : MRet (result E) := fun A a => Ok a.
#[global] Instance result_bind {E} : MBind (result E) :=
  fun A B f r => match r with Ok a => f a | Err e => Err e end.

#[global] Instance result_fmap {E} : FMap (result E) :=
  fun A B f r => match r with Ok a => Ok (f a) | Err e => Err e end.

Definition is_ok {E A} (r : result E A) : bool :=
  match r with Ok _ => true | Err _ => false end.

(** [guard_err b e]: the statement [if not b: raise e]. *)
Definition guard_err {E} (b : bool) (e : E) : result E unit :=
  if b then Ok tt else Err e.

(** ** Python truthiness and string helpers *)

(** [bool(s)] of a Python string. *)
Definition truthy (s : string) : bool :=
  match s with EmptyString => false | _ => true end.

Definition is_space (a : Ascii.ascii) : bool :=
  let n := Ascii.nat_of_ascii a in
  ((9 <=? n) && (n <=? 13))%nat || ((28 <=? n) && (n <=? 32))%nat.

Fixpoint lstrip (s : string) : string :=
  match s with
  | EmptyString => EmptyString
  | String a s' => if is_space a then lstrip s' else s
  end.

Fixpoint string_rev_app (s acc : string) : string :=
  match s with
  | EmptyString => acc
  | String a s' => string_rev_app s' (String a acc)
  end.

Definition string_rev (s : string) : string := string_rev_app s EmptyString.

(** [s.strip()] on ASCII text. *)
Definition strip (s : string) : string :=
  string_rev (lstrip (string_rev (lstrip s))).

(** ** Runs of an executable step function *)

(** [runs step s evs] folds the events of a trace over a state. *)
Definition runs {S E : Type} (step : S -> E -> S) (s : S) (evs : list E) : S :=
  fold_left step evs s.
#[global] Arguments runs : simpl never.

(** ** Dicts in insertion order *)

Section Dict.
Context {A : Type}.

Fixpoint dict_get (k : string) (d : list (string * A)) : option A :=
  match d with
  | [] => None
  | (k', v) :: d' => if bool_decide (k = k') then Some v else dict_get k d'
  end.

Fixpoint dict_set (k : string) (v : A) (d : list (string * A)) : list (string * A) :=
  match d with
  | [] => [(k, v)]
  | (k', v') :: d' => if bool_decide (k = k') then (k', v) :: d' else (k', v') :: dict_set k v d'
  end.
End Dict.

(** ** Sorting by a key *)

Section SortBy.
Context {A K : Type} (key : A -> K) (ltb : K -> K -> bool).

Fixpoint insert_by (x : A) (l : list A) : list A :=
  match l with
  | [] => [x]
  | y :: l' => if ltb (key x) (key y) then x :: y :: l' else y :: insert_by x l'
  end.

(** ORDER BY the key, ascending. *)
Definition sort_by (l : list A) : list A := foldr insert_by [] l.
End SortBy.

(** A strict total order given by a boolean test. *)
Class StrictTotalOrderB {K : Type} (ltb : K -> K -> bool) : Prop := {
  ltb_irrefl k : ltb k k = false;
  ltb_trans a b c : ltb a b = true -> ltb b c = true -> ltb a c = true;
  ltb_total a b : a <> b -> ltb a b = true \/ ltb b a = true
}.

(** ** Generic lemmas *)

Section SortByLemmas.
Context {A K : Type} (key : A -> K) (ltb : K -> K -> bool) {HO : StrictTotalOrderB ltb}.

Definition strictly_sorted (l : list A) : Prop :=
  StronglySorted (fun a b => ltb (key a) (key b) = true) l.

Lemma insert_by_perm x l : insert_by key ltb x l ≡ₚ x :: l.
Proof.
  induction l as [|y l IH]; simpl; [done|]. destruct (ltb _ _); [done|].
  rw IH. by rw Permutation_swap.
Qed.

Lemma sort_by_perm l : sort_by key ltb l ≡ₚ l.
Proof.
  induction l as [|x l IH]; simpl; [done|]. by rw insert_by_perm IH.
Qed.

Lemma insert_by_sorted x l :
  key x ∉ map key l -> strictly_sorted l -> strictly_sorted (insert_by key ltb x l).
Proof.
  intros Hx Hs. unfold strictly_sorted in *.
  induction Hs as [|y l Hs IH Hy]; simpl in *; [repeat constructor|].
  apply not_elem_of_cons in Hx as [Hne Hx]. destruct (ltb (key x) (key y)) eqn:E.
  - constructor; [by constructor|]. constructor; [done|].
    eapply Forall_impl; [exact Hy|]. intros z Hz. by eapply ltb_trans.
  - constructor; [by apply IH|]. rw insert_by_perm. constructor; [|done].
    destruct (ltb_total _ _ Hne); congruence.
Qed.

Lemma sort_by_sorted l : NoDup (map key l) -> strictly_sorted (sort_by key ltb l).
Proof.
  induction l as [|x l IH]; simpl; [constructor|]. intros [Hx Hl]%NoDup_cons.
  apply insert_by_sorted; [|by apply IH]. by rw sort_by_perm.
Qed.

(** In a strictly sorted list, the elements after a key are a suffix. *)
Lemma filter_after_key l k x :
  strictly_sorted l -> l !! k = Some x ->
  List.filter (fun y => ltb (key x) (key y)) l = drop (S k) l.
Proof.
  intros Hs. revert k. induction Hs as [|y l Hs IH Hy]; intros k Hk; [done|].
  destruct k as [|k]; simpl in *.
  - injection Hk as ->. rw ltb_irrefl. clear Hs IH.
    induction Hy as [|z l Hz _ IH']; simpl; [done|]. by rw Hz IH'.
  - rw (IH k Hk). destruct (ltb (key x) (key y)) eqn:E; [|done].
    rw Forall_forall in Hy. specialize (Hy x (list_elem_of_lookup_2 _ _ _ Hk)).
    pose proof (ltb_trans _ _ _ E Hy) as F. by rw ltb_irrefl in F.
Qed.
End SortByLemmas.

Lemma ascii_compare_trans a b c :
  Ascii.compare a b = Lt -> Ascii.compare b c = Lt -> Ascii.compare a c = Lt.
Proof.
  unfold Ascii.compare. rw !N.compare_lt_iff. lia.
Qed.

Lemma string_compare_trans a b c :
  String.compare a b = Lt -> String.compare b c = Lt -> String.compare a c = Lt.
Proof.
  revert b c. induction a as [|x a IH]; intros [|y b] [|z c]; simpl; try done.
  destruct (Ascii.compare x y) eqn:E1, (Ascii.compare y z) eqn:E2; intros H1 H2; try done.
  - apply Ascii.compare_eq_iff in E1 as ->. rw E2. eauto.
  - apply Ascii.compare_eq_iff in E1 as ->. by rw E2.
  - apply Ascii.compare_eq_iff in E2 as ->. by rw E1.
  - by rw (ascii_compare_trans _ _ _ E1 E2).
Qed.

Lemma string_compare_refl s : String.compare s s = Eq.
Proof.
  induction s as [|a s IH]; simpl; [done|]. unfold Ascii.compare. by rw N.compare_refl.
Qed.

#[global] Instance string_ltb_order : StrictTotalOrderB String.ltb.
Proof.
  split; unfold String.ltb.
  - intros k. by rw string_compare_refl.
  - intros a b c. destruct (String.compare a b) eqn:E1; try done.
    destruct (String.compare b c) eqn:E2; try done. by rw (string_compare_trans _ _ _ E1 E2).
  - intros a b Hne. rw (String.compare_antisym b a). destruct (String.compare a b) eqn:E; auto.
    by apply String.compare_eq_iff in E.
Qed.

(** Rows in the order of their time, then of their key. *)
Definition key_ltb (a b : Z * string) : bool :=
  (fst a <? fst b) || ((fst a =? fst b) && String.ltb (snd a) (snd b)).

#[global] Instance key_ltb_order : StrictTotalOrderB key_ltb.
Proof.
  split; unfold key_ltb.
  - intros [t s]; simpl. by rw Z.ltb_irrefl Z.eqb_refl ltb_irrefl.
  - intros [t1 s1] [t2 s2] [t3 s3]; simpl. rw !orb_true_iff !andb_true_iff !Z.ltb_lt !Z.eqb_eq.
    intros [?|[-> ?]] [?|[-> ?]]; [left; lia|left; lia|left; lia|right].
    split; [done|]. by eapply ltb_trans.
  - intros [t1 s1] [t2 s2] Hne; simpl. rw !orb_true_iff !andb_true_iff !Z.ltb_lt !Z.eqb_eq.
    destruct (Z.lt_trichotomy t1 t2) as [?|[->|?]]; [by auto| |by auto].
    assert (s1 <> s2) as Hs by congruence. destruct (ltb_total _ _ Hs); auto.
Qed.

(** Rows of a table that are kept have different keys. *)
Lemma NoDup_map_filter {A B} (f : A -> B) (keep : A -> bool) l :
  NoDup (map f l) -> NoDup (map f (List.filter keep l)).
Proof.
  induction l as [|x l IH]; simpl; [done|]. intros [Hn H]%NoDup_cons.
  destruct (keep x); [|by apply IH]. simpl. constructor; [|by apply IH].
  rw !list_elem_of_In !in_map_iff in Hn |- *. intros (y & Hy & Hin). apply Hn. exists y.
  split; [done|]. by apply filter_In in Hin as [? _].
Qed.

(** A sort key that ends in the key of the row. *)
Lemma sort_key_nodup {A} (time : string * A -> Z) (l : list (string * A)) :
  NoDup (map fst l) -> NoDup (map (fun x => (time x, x.1)) l).
Proof.
  intros H. apply (NoDup_fmap_1 snd). rw -list_fmap_compose. erewrite list_fmap_ext; [exact H|done].
Qed.

(** ORDER BY a number: sorted, and nothing to do for rows in order. *)
Lemma insert_leb_sorted {A} (key : A -> Z) x l :
  StronglySorted Z.le (map key l) -> StronglySorted Z.le (map key (insert_by key Z.leb x l)).
Proof.
  induction l as [|y l IH]; simpl; [repeat constructor|].
  intros [Hs Hy]%StronglySorted_inv. destruct (Z.leb_spec (key x) (key y)) as [E|E]; simpl.
  - constructor; [by constructor|]. constructor; [done|]. eapply Forall_impl; [exact Hy|].
    simpl. lia.
  - constructor; [by apply IH|]. rw insert_by_perm. constructor; [lia|done].
Qed.

Lemma sort_leb_sorted {A} (key : A -> Z) l : StronglySorted Z.le (map key (sort_by key Z.leb l)).
Proof. induction l; simpl; [constructor|]. by apply insert_leb_sorted. Qed.

Lemma sort_leb_id {A} (key : A -> Z) l : StronglySorted Z.le (map key l) -> sort_by key Z.leb l = l.
Proof.
  induction l as [|x l IH]; simpl; [done|]. intros [Hs Hx]%StronglySorted_inv. rw (IH Hs).
  destruct l as [|y l]; [done|]. simpl in *. apply Forall_cons in Hx as [Hx _]. apply Z.leb_le in Hx. by rw Hx.
Qed.

Lemma bool_eq_iff (a b : bool) : (a = true <-> b = true) -> a = b.
Proof. destruct a, b; naive_solver. Qed.

(** Inversion of a chain of guards that returned. *)
Lemma guard_bind_ok {E A} (b : bool) (e : E) (k : unit -> result E A) a :
  (guard_err b e ≫= k) = Ok a -> b = true /\ k tt = Ok a.
Proof. unfold guard_err. destruct b; naive_solver. Qed.

Lemma bind_ok {E A B} (r : result E A) (k : A -> result E B) b :
  (r ≫= k) = Ok b -> exists a, r = Ok a /\ k a = Ok b.
Proof. destruct r; simpl; [|done]. intros. eauto. Qed.

Section Generic.
Context {S E : Type}.
Implicit Types (step : S -> E -> S) (s : S) (evs : list E).

Lemma runs_nil step s : runs step s [] = s.
Proof. done. Qed.

Lemma runs_cons step s ev evs :
  runs step s (ev :: evs) = runs step (step s ev) evs.
Proof. done. Qed.

Lemma runs_app step s evs1 evs2 :
  runs step s (evs1 ++ evs2) = runs step (runs step s evs1) evs2.
Proof. unfold runs. by rw fold_left_app. Qed.

(** Rule induction for runs: a one-step invariant holds after any trace. *)
Lemma runs_invariant (I : S -> Prop) step s evs :
  (forall s ev, I s -> I (step s ev)) -> I s -> I (runs step s evs).
Proof.
  intros Hstep. revert s. induction evs as [|ev evs IH]; intros s Hs; [done|].
  rw runs_cons. by apply IH, Hstep.
Qed.

(** The same with a side condition on the events of the trace. *)
Lemma runs_invariant_if (I : S -> Prop) (P : E -> Prop) step s evs :
  (forall s ev, P ev -> I s -> I (step s ev)) ->
  Forall P evs -> I s -> I (runs step s evs).
Proof.
  intros Hstep HP. revert s. induction HP as [|ev evs Hev _ IH]; intros s Hs; [done|].
  rw runs_cons. by apply IH, Hstep.
Qed.
End Generic.

(** Rule induction for step relations: invariants hold in reachable states. *)
Lemma rtc_invariant {A : Type} (R : relation A) (I : A -> Prop) x y :
  (forall a b, I a -> R a b -> I b) -> I x -> rtc R x y -> I y.
Proof. intros Hstep Hx H. revert Hx. induction H; eauto. Qed.

(** ** Proof automation *)

Create HintDb assistant.
Create Rewrite HintDb assistant.
#[export] Hint Rewrite @runs_nil @runs_cons @runs_app : assistant.

(** Turn boolean tests of the code in the context into propositions. *)
Ltac breflect :=
  repeat match goal with
  | H : (_ && _) = true |- _ => apply andb_true_iff in H as [? ?]
  | H : (_ && _) = false |- _ => apply andb_false_iff in H
  | H : (_ || _) = true |- _ => apply orb_true_iff in H
  | H : (_ || _) = false |- _ => apply orb_false_iff in H as [? ?]
  | H : negb _ = true |- _ => apply negb_true_iff in H
  | H : negb _ = false |- _ => apply negb_false_iff in H
  | H : (_ <? _) = true |- _ => apply Z.ltb_lt in H
  | H : (_ <? _) = false |- _ => apply Z.ltb_ge in H
  | H : (_ <=? _) = true |- _ => apply Z.leb_le in H
  | H : (_ <=? _) = false |- _ => apply Z.leb_gt in H
  | H : (_ =? _) = true |- _ => apply Z.eqb_eq in H
  | H : (_ =? _) = false |- _ => apply Z.eqb_neq in H
  | H : bool_decide _ = true |- _ => apply bool_decide_eq_true in H
  | H : bool_decide _ = false |- _ => apply bool_decide_eq_false in H
  end.

(** Case analysis on the innermost match or conditional of the goal. *)
Ltac crush_step :=
  match goal with
  | |- context [match ?x with _ => _ end] =>
      lazymatch x with
      | context [match _ with _ => _ end] => fail
      | _ => let E := fresh "E" in destruct x eqn:E
      end
  end.

Ltac crush_step_in H :=
  match type of H with
  | context [match ?x with _ => _ end] =>
      lazymatch x with
      | context [match _ with _ => _ end] => fail
      | _ => let E := fresh "E" in destruct x eqn:E
      end
  end.

(** ** Lemmas on dicts *)

Section DictLemmas.
Context {A : Type}.
Implicit Types (d : list (string * A)).

Lemma dict_get_set k v d x :
  dict_get x (dict_set k v d) = if bool_decide (x = k) then Some v else dict_get x d.
Proof.
  induction d as [|[k' v'] d IH]; simpl; [done|].
  destruct (bool_decide (k = k')) eqn:E; simpl; breflect.
  - subst k'. by destruct (bool_decide (x = k)).
  - rw IH. destruct (bool_decide (x = k')) eqn:F; [|done]. breflect. subst.
    by rw bool_decide_false.
Qed.

Lemma dict_get_elem k v d : dict_get k d = Some v -> v ∈ map snd d.
Proof.
  induction d as [|[k' v'] d IH]; simpl; [done|]. destruct (bool_decide (k = k')).
  - intros [= ->]. by left.
  - intros ?. right. auto.
Qed.
End DictLemmas.
