(* ===== verification/Canonical.v ===== *)
(** * Canonical JSON and SHA-256

    The identity of a durable request is
    [hashlib.sha256(json.dumps(payload, sort_keys=True, separators=(",", ":"))
    .encode("utf-8")).hexdigest()] throughout the code (the reservation
    fingerprint and the root branch id of src/se/src/runtimes/agent/task_budget.py
    among others).  This file models what those calls use of the Python standard
    library: the JSON encoder with sorted keys and compact separators, with and without
    [ensure_ascii], and SHA-256 on the encoded bytes.  A string is its UTF-8 bytes; with
    [ensure_ascii], strings are ASCII. *)

From S2P Require Import Prelude.

Inductive json :=
  | JNull
  | JBool (b : bool)
  | JInt (z : Z)
  | JStr (s : string)
  | JArr (l : list json)
  | JObj (fields : list (string * json)).

(** [payload.get(key)] of a JSON object. *)
Fixpoint payload_get (p : list (string * json)) (key : string) : option json :=
  match p with
  | [] => None
  | (k, v) :: p' => if bool_decide (k = key) then Some v else payload_get p' key
  end.

(** The columns of a row that are kept in one object: reading one as text, and an UPDATE of
    some of them. *)
Definition json_fields (j : json) : list (string * json) :=
  match j with JObj f => f | _ => [] end.

Definition opt_column (j : json) (key : string) : option string :=
  match dict_get key (json_fields j) with Some (JStr s) => Some s | _ => None end.

Definition text_column (j : json) (key : string) : string := default "" (opt_column j key).

Definition set_columns (j : json) (l : list (string * json)) : json :=
  JObj (foldl (fun d kv => dict_set kv.1 kv.2 d) (json_fields j) l).

(** ** json.dumps *)

Definition hex_digit (n : Z) : Ascii.ascii :=
  Ascii.ascii_of_nat (Z.to_nat (if n <? 10 then 48 + n else 87 + n)).

Definition byte_of (a : Ascii.ascii) : Z := Z.of_nat (Ascii.nat_of_ascii a).

Definition quote_char : Ascii.ascii := Ascii.ascii_of_nat 34.
Definition backslash : Ascii.ascii := Ascii.ascii_of_nat 92.

(** [ascii] is [ensure_ascii]; without it, only control characters, quotes and backslashes
    are escaped. *)
Definition escape_char (ascii : bool) (a : Ascii.ascii) : string :=
  let n := byte_of a in
  let esc (c : Ascii.ascii) := String backslash (String c EmptyString) in
  if n =? 34 then esc quote_char
  else if n =? 92 then esc backslash
  else if n =? 8 then esc "b"%char
  else if n =? 9 then esc "t"%char
  else if n =? 10 then esc "n"%char
  else if n =? 12 then esc "f"%char
  else if n =? 13 then esc "r"%char
  else if (n <? 32) || (ascii && (127 <=? n)) then
    String backslash (String "u"%char (String "0"%char (String "0"%char
      (String (hex_digit (n / 16)) (String (hex_digit (n mod 16)) EmptyString)))))
  else String a EmptyString.

Fixpoint escape_string (ascii : bool) (s : string) : string :=
  match s with
  | EmptyString => EmptyString
  | String a s' => String.append (escape_char ascii a) (escape_string ascii s')
  end.

Definition dumps_string (ascii : bool) (s : string) : string :=
  String quote_char (String.append (escape_string ascii s) (String quote_char EmptyString)).

Definition string_leb (a b : string) : bool := String.leb a b.

(** Stable insertion by key: [sort_keys=True]. *)
Fixpoint insert_field {A} (k : string) (v : A) (l : list (string * A))
    : list (string * A) :=
  match l with
  | [] => [(k, v)]
  | (k', v') :: l' =>
      if string_leb k k' then (k, v) :: (k', v') :: l'
      else (k', v') :: insert_field k v l'
  end.

Fixpoint sort_fields {A} (l : list (string * A)) : list (string * A) :=
  match l with
  | [] => []
  | (k, v) :: l' => insert_field k v (sort_fields l')
  end.

Fixpoint join_comma (l : list string) : string :=
  match l with
  | [] => EmptyString
  | [s] => s
  | s :: l' => String.append s (String ","%char (join_comma l'))
  end.

Fixpoint dumps (ascii : bool) (j : json) : string :=
  match j with
  | JNull => "null"
  | JBool true => "true"
  | JBool false => "false"
  | JInt z => pretty z
  | JStr s => dumps_string ascii s
  | JArr l =>
      String "["%char (String.append (join_comma (map (dumps ascii) l))
        (String "]"%char EmptyString))
  | JObj fields =>
      let encoded := map (fun '(k, v) => (k, dumps ascii v)) fields in
      let items := map (fun '(k, v) =>
        String.append (dumps_string ascii k) (String ":"%char v)) (sort_fields encoded) in
      String "{"%char (String.append (join_comma items) (String "}"%char EmptyString))
  end.

(** With [ensure_ascii], and without. *)
Definition json_dumps (j : json) : string := dumps true j.
Definition json_dumps_utf8 (j : json) : string := dumps false j.

(** ** hashlib.sha256 *)

Definition w32 (z : Z) : Z := z mod 4294967296.
Definition rotr (n x : Z) : Z :=
  w32 (Z.lor (Z.shiftr x n) (Z.shiftl x (32 - n))).

(** FIPS 180-4: the round constants are the first 32 bits of the fractional parts of the
    cube roots of the first 64 primes, the initial state those of the square roots of the
    first 8. *)
Fixpoint cbrt_bits (bits : nat) (root target : Z) : Z :=
  match bits with
  | O => root
  | S i =>
      let candidate := root + 2 ^ Z.of_nat i in
      cbrt_bits i (if candidate ^ 3 <=? target then candidate else root) target
  end.

Definition is_prime (n : nat) : bool :=
  (2 <=? n)%nat && forallb (fun d => negb (n mod d =? 0)%nat) (seq 2 (n - 2)).

Definition primes_below (n : nat) : list Z :=
  map Z.of_nat (List.filter is_prime (seq 0 n)).

Definition sha_k : list Z :=
  Eval vm_compute in map (fun p => w32 (cbrt_bits 36 0 (p * 2 ^ 96))) (primes_below 312).

Definition sha_init : list Z :=
  Eval vm_compute in map (fun p => w32 (Z.sqrt (p * 2 ^ 64))) (primes_below 20).

Fixpoint string_bytes (s : string) : list Z :=
  match s with
  | EmptyString => []
  | String a s' => byte_of a :: string_bytes s'
  end.

Definition be_bytes (len : nat) (z : Z) : list Z :=
  map (fun i => Z.shiftr z (8 * Z.of_nat i) mod 256) (rev (seq 0 len)).

Definition sha_pad (m : list Z) : list Z :=
  let l := Z.of_nat (length m) in
  m ++ [128] ++ replicate (Z.to_nat ((55 - l) mod 64)) 0 ++ be_bytes 8 (8 * l).

Fixpoint be_words (bs : list Z) : list Z :=
  match bs with
  | a :: b :: c :: d :: rest =>
      (Z.shiftl a 24 + Z.shiftl b 16 + Z.shiftl c 8 + d) :: be_words rest
  | _ => []
  end.

Definition nthz (l : list Z) (i : nat) : Z := nth i l 0.

(** The message schedule, newest word first. *)
Fixpoint sha_extend (n : nat) (w : list Z) : list Z :=
  match n with
  | O => w
  | S n' =>
      let w15 := nthz w 14 in
      let w2 := nthz w 1 in
      let s0 := Z.lxor (Z.lxor (rotr 7 w15) (rotr 18 w15)) (Z.shiftr w15 3) in
      let s1 := Z.lxor (Z.lxor (rotr 17 w2) (rotr 19 w2)) (Z.shiftr w2 10) in
      sha_extend n' (w32 (nthz w 15 + s0 + nthz w 6 + s1) :: w)
  end.

Definition sha_round (st : list Z) (kw : Z * Z) : list Z :=
  match st with
  | [a; b; c; d; e; f; g; h] =>
      let s1 := Z.lxor (Z.lxor (rotr 6 e) (rotr 11 e)) (rotr 25 e) in
      let ch := Z.lxor (Z.land e f) (Z.land (4294967295 - e) g) in
      let t1 := h + s1 + ch + fst kw + snd kw in
      let s0 := Z.lxor (Z.lxor (rotr 2 a) (rotr 13 a)) (rotr 22 a) in
      let maj := Z.lxor (Z.lxor (Z.land a b) (Z.land a c)) (Z.land b c) in
      [w32 (t1 + s0 + maj); a; b; c; w32 (d + t1); e; f; g]
  | _ => st
  end.

Definition sha_block (hs : list Z) (block : list Z) : list Z :=
  let w := rev (sha_extend 48 (rev block)) in
  let out := fold_left sha_round (zip sha_k w) hs in
  zip_with (fun x y => w32 (x + y)) hs out.

Fixpoint sha_blocks (fuel : nat) (hs ws : list Z) : list Z :=
  match fuel with
  | O => hs
  | S fuel' =>
      match ws with
      | [] => hs
      | _ => sha_blocks fuel' (sha_block hs (take 16 ws)) (drop 16 ws)
      end
  end.

Definition hex_of_bytes (bs : list Z) : string :=
  fold_right (fun b acc =>
    String (hex_digit (b / 16)) (String (hex_digit (b mod 16)) acc)) EmptyString bs.

Definition sha256_hexdigest (s : string) : string :=
  let ws := be_words (sha_pad (string_bytes s)) in
  hex_of_bytes (List.flat_map (be_bytes 4) (sha_blocks (length ws) sha_init ws)).

(** [hashlib.sha256(json.dumps(j, sort_keys=True, separators=(",", ":"))
    .encode("utf-8")).hexdigest()]. *)
Definition json_fingerprint (j : json) : string := sha256_hexdigest (json_dumps j).

(** The same with [ensure_ascii=False]. *)
Definition json_fingerprint_utf8 (j : json) : string := sha256_hexdigest (json_dumps_utf8 j).

#[global] Arguments sha256_hexdigest : simpl never.
#[global] Arguments dumps : simpl never.
#[global] Arguments json_dumps : simpl never.
#[global] Arguments json_dumps_utf8 : simpl never.
#[global] Arguments json_fingerprint_utf8 : simpl never.
#[global] Arguments json_fingerprint : simpl never.

(** ** Checks against published vectors *)

Example sha256_empty :
  sha256_hexdigest "" =
  "e3b0c44298fc1c149afbf4c8996fb92427ae41e4649b934ca495991b7852b855".
Proof. vm_compute. reflexivity. Qed.

Example sha256_abc :
  sha256_hexdigest "abc" =
  "ba7816bf8f01cfea414140de5dae2223b00361a396177a9cb410ff61f20015ad".
Proof. vm_compute. reflexivity. Qed.

Example sha256_two_blocks :
  sha256_hexdigest "abcdbcdecdefdefgefghfghighijhijkijkljklmklmnlmnomnopnopq" =
  "248d6a61d20638b8e5c026930c3e6039a33ce45964ff2167f6ecedd419db06c1".
Proof. vm_compute. reflexivity. Qed.

Example dumps_sorts_keys :
  json_dumps (JObj [("b", JInt (-3)); ("a", JArr [JNull; JBool true; JStr "x"])]) =
  json_dumps (JObj [("a", JArr [JNull; JBool true; JStr "x"]); ("b", JInt (-3))]).
Proof. vm_compute. reflexivity. Qed.

(** ** The digest is 64 lower-case hexadecimal characters *)

Definition is_hex (a : Ascii.ascii) : bool :=
  let n := byte_of a in
  ((48 <=? n) && (n <=? 57)) || ((97 <=? n) && (n <=? 102)).

Fixpoint string_forallb (f : Ascii.ascii -> bool) (s : string) : bool :=
  match s with
  | EmptyString => true
  | String a s' => f a && string_forallb f s'
  end.

Lemma sha_round_length st kw : length st = 8%nat -> length (sha_round st kw) = 8%nat.
Proof.
  unfold sha_round. intros H.
  do 9 (destruct st as [|? st]; try done).
Qed.

Lemma sha_rounds_length kws st :
  length st = 8%nat -> length (fold_left sha_round kws st) = 8%nat.
Proof.
  revert st. induction kws as [|kw kws IH]; intros st H; simpl; [done|].
  by apply IH, sha_round_length.
Qed.

Lemma sha_block_length hs b : length hs = 8%nat -> length (sha_block hs b) = 8%nat.
Proof.
  intros H. unfold sha_block. rw length_zip_with sha_rounds_length // H //.
Qed.

Lemma sha_blocks_length fuel hs ws :
  length hs = 8%nat -> length (sha_blocks fuel hs ws) = 8%nat.
Proof.
  revert hs ws. induction fuel as [|fuel IH]; intros hs ws H; [done|].
  destruct ws; simpl; [done|]. by apply IH, sha_block_length.
Qed.

Lemma be_bytes_range len z b : In b (be_bytes len z) -> 0 <= b < 256.
Proof.
  unfold be_bytes. rw in_map_iff. intros (i & <- & _). apply Z.mod_pos_bound. lia.
Qed.

Lemma be_bytes_length len z : length (be_bytes len z) = len.
Proof. unfold be_bytes. by rw length_map length_rev length_seq. Qed.

Lemma hex_digit_hex n : 0 <= n < 16 -> is_hex (hex_digit n) = true.
Proof.
  intros H. assert (Hall : forallb (fun k => is_hex (hex_digit (Z.of_nat k))) (seq 0 16) = true)
    by reflexivity.
  rw forallb_forall in Hall. rw -(Z2Nat.id n); [lia|]. apply Hall, in_seq. lia.
Qed.

Lemma hex_of_bytes_spec bs :
  (forall b, In b bs -> 0 <= b < 256) ->
  String.length (hex_of_bytes bs) = (2 * length bs)%nat /\
  string_forallb is_hex (hex_of_bytes bs) = true.
Proof.
  induction bs as [|b bs IH]; intros H; simpl; [done|].
  destruct IH as [IH1 IH2]; [intros; apply H; by right|].
  assert (0 <= b < 256) by (apply H; by left).
  rw IH1 IH2 !hex_digit_hex.
  - split; [apply Z.div_pos; lia|apply Z.div_lt_upper_bound; lia].
  - by apply Z.mod_pos_bound.
  - split; [lia|done].
Qed.

Lemma flat_map_length {A} (k : nat) (f : A -> list Z) (l : list A) :
  (forall a, length (f a) = k) -> length (List.flat_map f l) = (k * length l)%nat.
Proof.
  intros H. induction l as [|a l IH]; simpl; [lia|].
  rw length_app H IH. lia.
Qed.

(** Every digest matches [^[0-9a-f]{64}$]. *)
Lemma sha256_hexdigest_format s :
  String.length (sha256_hexdigest s) = 64%nat /\
  string_forallb is_hex (sha256_hexdigest s) = true.
Proof.
  unfold sha256_hexdigest. cbv zeta. set (ws := be_words _).
  destruct (hex_of_bytes_spec
    (List.flat_map (be_bytes 4) (sha_blocks (length ws) sha_init ws))) as [H1 H2].
  { intros b Hb. apply in_flat_map in Hb as (x & _ & Hb). by eapply be_bytes_range. }
  split; [|done].
  rw H1 (flat_map_length 4); [intros; apply be_bytes_length|].
  rw sha_blocks_length //.
Qed.
