(* ===== verification/PythonValues.v ===== *)
(** * Python's bool(), str() and == on JSON values

    What the code uses of Python's built-in functions on decoded JSON: truth values, the text
    of [str()], and [==], for which [True] and [1] are equal (as are [False] and [0]) and the
    order of the keys of a dict does not matter.  Values have no fractional numbers, and the
    keys of an object are distinct.  [str()] of a string with characters beyond ASCII is the
    string. *)

From S2P Require Import Prelude Canonical.

(** ** bool() *)

(** [bool(value)]. *)
Definition py_bool (v : json) : bool :=
  match v with
  | JNull => false
  | JBool b => b
  | JInt z => negb (z =? 0)
  | JStr s => truthy s
  | JArr l => negb (bool_decide (length l = 0%nat))
  | JObj l => negb (bool_decide (length l = 0%nat))
  end.

(** ** str() *)

Definition single_quote : Ascii.ascii := Ascii.ascii_of_nat 39.

Definition repr_char (q a : Ascii.ascii) : string :=
  let n := byte_of a in
  let esc (c : Ascii.ascii) := String backslash (String c EmptyString) in
  if n =? byte_of q then esc q
  else if n =? 92 then esc backslash
  else if n =? 9 then esc "t"%char
  else if n =? 10 then esc "n"%char
  else if n =? 13 then esc "r"%char
  else if (n <? 32) || (n =? 127) then
    String backslash (String "x"%char
      (String (hex_digit (n / 16)) (String (hex_digit (n mod 16)) EmptyString)))
  else String a EmptyString.

Fixpoint repr_chars (q : Ascii.ascii) (s : string) : string :=
  match s with
  | EmptyString => EmptyString
  | String a s' => String.append (repr_char q a) (repr_chars q s')
  end.

Fixpoint has_char (c : Ascii.ascii) (s : string) : bool :=
  match s with
  | EmptyString => false
  | String a s' => (byte_of a =? byte_of c) || has_char c s'
  end.

Definition repr_string (s : string) : string :=
  let q := if has_char single_quote s && negb (has_char quote_char s) then quote_char else single_quote in
  String q (String.append (repr_chars q s) (String q EmptyString)).

Fixpoint join_items (l : list string) : string :=
  match l with
  | [] => EmptyString
  | [s] => s
  | s :: l' => String.append s (String.append ", " (join_items l'))
  end.

Fixpoint py_repr (j : json) : string :=
  match j with
  | JNull => "None"
  | JBool true => "True"
  | JBool false => "False"
  | JInt z => pretty z
  | JStr s => repr_string s
  | JArr l => String "["%char (String.append (join_items (map py_repr l)) (String "]"%char EmptyString))
  | JObj fields =>
      String "{"%char (String.append
        (join_items (map (fun '(k, v) => String.append (repr_string k) (String.append ": " (py_repr v))) fields))
        (String "}"%char EmptyString))
  end.

Definition py_str (j : json) : string := match j with JStr s => s | _ => py_repr j end.

(** [str(value or "")] of what [dict.get] returned. *)
Definition text_or_empty (o : option json) : string :=
  match o with Some v => if py_bool v then py_str v else "" | None => "" end.

(** ** == *)

#[global] Instance json_eq_dec : EqDecision json.
Proof.
  refine (fix go (x y : json) : Decision (x = y) :=
    let _ : EqDecision json := go in
    match x, y with
    | JNull, JNull => left _
    | JBool a, JBool b => cast_if (decide (a = b))
    | JInt a, JInt b => cast_if (decide (a = b))
    | JStr a, JStr b => cast_if (decide (a = b))
    | JArr a, JArr b => cast_if (decide (a = b))
    | JObj a, JObj b => cast_if (decide (a = b))
    | _, _ => right _
    end); congruence.
Defined.

(** The value with [True] and [False] read as numbers and the keys in order. *)
Fixpoint py_norm (j : json) : json :=
  match j with
  | JBool b => JInt (Z.b2z b)
  | JArr l => JArr (map py_norm l)
  | JObj f => JObj (sort_fields (map (fun '(k, v) => (k, py_norm v)) f))
  | _ => j
  end.

(** [a == b]. *)
Definition py_eq (a b : json) : bool := bool_decide (py_norm a = py_norm b).

Lemma py_eq_true a b : py_eq a b = true <-> py_norm a = py_norm b.
Proof. apply bool_decide_eq_true. Qed.

Lemma py_eq_refl a : py_eq a a = true.
Proof. by apply py_eq_true. Qed.

Example py_eq_numbers : py_eq (JObj [("a", JInt 1); ("b", JStr "x")]) (JObj [("b", JStr "x"); ("a", JBool true)]) = true /\
  py_eq (JStr "1") (JInt 1) = false /\ py_eq JNull (JInt 0) = false.
Proof. by vm_compute. Qed.
