(* ===== verification/TaskBudgetSchema.v ===== *)
(** * TaskBudget domain schema
    (src/se/src/domain/schemas/task_budget.py and the columns and CHECK
    constraints of src/se/src/infrastructure/storage/models/sql/agent/task_budget.py)

    Costs are stored at the schema's quantum of 10^-8 USD, so a normalised cost
    is an integer number of quanta.  Instants are integers.  The bookkeeping
    columns created_at and updated_at are not modelled. *)

From S2P Require Import Prelude Canonical.

(** ** Costs: decimal.Decimal and its quantisation *)

Inductive Decimal :=
  | DFinite (coef exp : Z)          (* coef * 10^exp *)
  | DInfinite
  | DNaN.

Inductive CostError :=
  | CostNotFinite                   (* ValueError *)
  | CostInvalidOperation.           (* decimal.InvalidOperation *)

Definition div_half_even (n d : Z) : Z :=
  let q := n / d in
  let r := n mod d in
  if 2 * r <? d then q
  else if d <? 2 * r then q + 1
  else if Z.even q then q else q + 1.

(** Digits of the default decimal context. *)
Definition decimal_prec : Z := 28.

Definition quantize (coef exp : Z) : result CostError Z :=
  let q := if 0 <=? exp + 8 then coef * 10 ^ (exp + 8)
           else div_half_even coef (10 ^ (- (exp + 8))) in
  if Z.abs q <? 10 ^ decimal_prec then Ok q else Err CostInvalidOperation.

Definition normalize_task_budget_cost (value : Decimal) : result CostError Z :=
  match value with
  | DFinite coef exp => quantize coef exp
  | DInfinite | DNaN => Err CostNotFinite
  end.

(** The stored Decimal of an amount of quanta. *)
Definition of_quanta (q : Z) : Decimal := DFinite q (-8).

(** ** Limits, policy, budget *)

Inductive TaskBudgetState := OPEN | CLOSED.

#[global] Instance TaskBudgetState_eq_dec : EqDecision TaskBudgetState.
Proof. solve_decision. Defined.

Inductive TaskBudgetReservationKind :=
  | NEW_EXECUTION | RESUME_EXECUTION | RELEASE_EXECUTION
  | TOOL_CALL | INFERENCE | USAGE | BRANCH | RELEASE_BRANCH.

#[global] Instance TaskBudgetReservationKind_eq_dec :
  EqDecision TaskBudgetReservationKind.
Proof. solve_decision. Defined.

Definition kind_value (k : TaskBudgetReservationKind) : string :=
  match k with
  | NEW_EXECUTION => "NEW_EXECUTION"
  | RESUME_EXECUTION => "RESUME_EXECUTION"
  | RELEASE_EXECUTION => "RELEASE_EXECUTION"
  | TOOL_CALL => "TOOL_CALL"
  | INFERENCE => "INFERENCE"
  | USAGE => "USAGE"
  | BRANCH => "BRANCH"
  | RELEASE_BRANCH => "RELEASE_BRANCH"
  end.

Definition kind_of_value (s : string) : option TaskBudgetReservationKind :=
  find (fun k => bool_decide (kind_value k = s))
    [NEW_EXECUTION; RESUME_EXECUTION; RELEASE_EXECUTION; TOOL_CALL;
     INFERENCE; USAGE; BRANCH; RELEASE_BRANCH].

#[global] Program Instance TaskBudgetReservationKind_countable :
  Countable TaskBudgetReservationKind :=
  inj_countable kind_value kind_of_value _.
Next Obligation. by intros []. Qed.

Record TaskBudgetLimits := {
  max_total_executions : Z;
  max_active_executions : Z;
  max_active_branches : Z;
  max_parallel_agents : Z;
  max_total_tool_calls : Z;
  max_total_inference_calls : Z;
  max_delegation_depth : Z;
  max_total_tokens : option Z;
  max_total_cost : option Z
}.

Record TaskBudgetPolicy := {
  pol_version : string;
  pol_deny_recursive_agent_cycle : bool
}.

(** The counters of a budget. *)
Record Counters := {
  used_executions : Z;
  active_executions : Z;
  active_branches : Z;
  active_parallel_agents : Z;
  used_tool_calls : Z;
  used_inference_calls : Z;
  used_tokens : Z;
  used_cost : Z
}.

Record TaskBudget := {
  tb_task_id : string;
  tb_revision : Z;
  tb_state : TaskBudgetState;
  tb_limits : TaskBudgetLimits;
  tb_policy_version : string;
  tb_policy_fingerprint : string;
  tb_deny_cycle : bool;
  tb_counters : Counters;
  tb_closed_at : option Z
}.

(** ** Validation *)

Definition positive_opt (o : option Z) : bool :=
  match o with Some z => 0 <? z | None => true end.

(** [Field(gt=0)] on every limit. *)
Definition limits_valid (l : TaskBudgetLimits) : bool :=
  (0 <? max_total_executions l) && (0 <? max_active_executions l) &&
  (0 <? max_active_branches l) && (0 <? max_parallel_agents l) &&
  (0 <? max_total_tool_calls l) && (0 <? max_total_inference_calls l) &&
  (0 <? max_delegation_depth l) && positive_opt (max_total_tokens l) &&
  positive_opt (max_total_cost l).

(** [Field(ge=0)] on every counter. *)
Definition counters_nonneg (c : Counters) : bool :=
  (0 <=? used_executions c) && (0 <=? active_executions c) &&
  (0 <=? active_branches c) && (0 <=? active_parallel_agents c) &&
  (0 <=? used_tool_calls c) && (0 <=? used_inference_calls c) &&
  (0 <=? used_tokens c) && (0 <=? used_cost c).

(** [_validate_budget_invariants]: the bounds of the counters. *)
Definition counters_bounded (l : TaskBudgetLimits) (c : Counters) : bool :=
  (active_executions c <=? used_executions c) &&
  (used_executions c <=? max_total_executions l) &&
  (active_executions c <=? max_active_executions l) &&
  (active_parallel_agents c <=? active_executions c) &&
  (active_parallel_agents c <=? max_parallel_agents l) &&
  (active_branches c <=? max_active_branches l) &&
  (used_tool_calls c <=? max_total_tool_calls l) &&
  (used_inference_calls c <=? max_total_inference_calls l).

Definition closed_at_matches (st : TaskBudgetState) (closed_at : option Z) : bool :=
  match st, closed_at with
  | OPEN, None | CLOSED, Some _ => true
  | _, _ => false
  end.

Definition version_valid (v : string) : bool :=
  let n := Z.of_nat (String.length v) in (1 <=? n) && (n <=? 64).

Definition fingerprint_valid (f : string) : bool :=
  (Z.of_nat (String.length f) =? 64) && string_forallb is_hex f.

Definition budget_valid (b : TaskBudget) : bool :=
  (0 <=? tb_revision b) && limits_valid (tb_limits b) &&
  version_valid (tb_policy_version b) &&
  fingerprint_valid (tb_policy_fingerprint b) &&
  counters_nonneg (tb_counters b) &&
  counters_bounded (tb_limits b) (tb_counters b) &&
  closed_at_matches (tb_state b) (tb_closed_at b).

(** ** Policy fingerprint *)

Definition json_opt_int (o : option Z) : json :=
  match o with Some z => JInt z | None => JNull end.

(** [str] of a normalised cost ([model_dump(mode="json")] renders a Decimal the
    same way): eight fraction digits, in scientific notation when the leading
    digit is below 10^-6. *)
Fixpoint zeros (n : nat) (s : string) : string :=
  match n with O => s | S n' => String "0"%char (zeros n' s) end.

Definition pad_left (n : nat) (s : string) : string := zeros (n - String.length s) s.

Definition decimal_string (q : Z) : string :=
  let a := Z.abs q in
  let body :=
    if a <? 10 then String.append (pretty a) "E-8"
    else if a <? 100 then
      String.append (pretty (a / 10))
        (String "."%char (String.append (pretty (a mod 10)) "E-7"))
    else
      String.append (pretty (a / 10 ^ 8))
        (String "."%char (pad_left 8 (pretty (a mod 10 ^ 8)))) in
  if q <? 0 then String "-"%char body else body.

Definition json_opt_cost (o : option Z) : json :=
  match o with Some q => JStr (decimal_string q) | None => JNull end.

Definition limits_json (l : TaskBudgetLimits) : json := JObj [
  ("max_total_executions", JInt (max_total_executions l));
  ("max_active_executions", JInt (max_active_executions l));
  ("max_active_branches", JInt (max_active_branches l));
  ("max_parallel_agents", JInt (max_parallel_agents l));
  ("max_total_tool_calls", JInt (max_total_tool_calls l));
  ("max_total_inference_calls", JInt (max_total_inference_calls l));
  ("max_delegation_depth", JInt (max_delegation_depth l));
  ("max_total_tokens", json_opt_int (max_total_tokens l));
  ("max_total_cost_usd", json_opt_cost (max_total_cost l))].

Definition policy_json (p : TaskBudgetPolicy) : json := JObj [
  ("version", JStr (pol_version p));
  ("deny_recursive_agent_cycle", JBool (pol_deny_recursive_agent_cycle p))].

Definition task_budget_policy_fingerprint (l : TaskBudgetLimits)
    (p : TaskBudgetPolicy) : string :=
  json_fingerprint (JObj [("limits", limits_json l); ("policy", policy_json p)]).

(** ** The stored row *)

(** The columns of [agent_task_budgets] the domain object mirrors, and the
    repository-owned incarnation generation. *)
Record BudgetRow := {
  row_generation : Z;
  row_budget : TaskBudget
}.

Definition max_generation : Z := 9223372036854775807.

(** The table's CHECK constraints. *)
Definition row_checks (r : BudgetRow) : bool :=
  let b := row_budget r in
  (0 <? row_generation r) && (row_generation r <? max_generation) &&
  (0 <=? tb_revision b) && limits_valid (tb_limits b) &&
  counters_nonneg (tb_counters b) &&
  counters_bounded (tb_limits b) (tb_counters b) &&
  closed_at_matches (tb_state b) (tb_closed_at b).

(** A partial column update: the dictionaries handed to the compare-and-set. *)
Inductive BudgetField :=
  | SetUsedExecutions (z : Z)
  | SetActiveExecutions (z : Z)
  | SetActiveBranches (z : Z)
  | SetActiveParallelAgents (z : Z)
  | SetUsedToolCalls (z : Z)
  | SetUsedInferenceCalls (z : Z)
  | SetUsedTokens (z : Z)
  | SetUsedCost (z : Z)
  | SetState (s : TaskBudgetState)
  | SetClosedAt (t : option Z).

Abbreviation BudgetValues := (list BudgetField).

Definition set_counters (c : Counters) (b : TaskBudget) : TaskBudget := {|
  tb_task_id := tb_task_id b; tb_revision := tb_revision b; tb_state := tb_state b;
  tb_limits := tb_limits b; tb_policy_version := tb_policy_version b;
  tb_policy_fingerprint := tb_policy_fingerprint b; tb_deny_cycle := tb_deny_cycle b;
  tb_counters := c; tb_closed_at := tb_closed_at b |}.

Definition set_lifecycle (rev : Z) (s : TaskBudgetState) (t : option Z)
    (b : TaskBudget) : TaskBudget := {|
  tb_task_id := tb_task_id b; tb_revision := rev; tb_state := s;
  tb_limits := tb_limits b; tb_policy_version := tb_policy_version b;
  tb_policy_fingerprint := tb_policy_fingerprint b; tb_deny_cycle := tb_deny_cycle b;
  tb_counters := tb_counters b; tb_closed_at := t |}.

Definition apply_counter (c : Counters) (f : BudgetField) : Counters :=
  let '(Build_Counters ue ae ab ap ut ui tk co) := c in
  match f with
  | SetUsedExecutions z => Build_Counters z ae ab ap ut ui tk co
  | SetActiveExecutions z => Build_Counters ue z ab ap ut ui tk co
  | SetActiveBranches z => Build_Counters ue ae z ap ut ui tk co
  | SetActiveParallelAgents z => Build_Counters ue ae ab z ut ui tk co
  | SetUsedToolCalls z => Build_Counters ue ae ab ap z ui tk co
  | SetUsedInferenceCalls z => Build_Counters ue ae ab ap ut z tk co
  | SetUsedTokens z => Build_Counters ue ae ab ap ut ui z co
  | SetUsedCost z => Build_Counters ue ae ab ap ut ui tk z
  | SetState _ | SetClosedAt _ => c
  end.

Definition apply_field (b : TaskBudget) (f : BudgetField) : TaskBudget :=
  match f with
  | SetState s => set_lifecycle (tb_revision b) s (tb_closed_at b) b
  | SetClosedAt t => set_lifecycle (tb_revision b) (tb_state b) t b
  | _ => set_counters (apply_counter (tb_counters b) f) b
  end.

(** [UPDATE ... SET values, revision = expected_revision + 1]. *)
Definition apply_values (r : BudgetRow) (values : BudgetValues) (next_revision : Z)
    : BudgetRow :=
  let b := fold_left apply_field values (row_budget r) in
  {| row_generation := row_generation r;
     row_budget := set_lifecycle next_revision (tb_state b) (tb_closed_at b) b |}.

Example decimal_strings :
  map decimal_string [0; 5; 15; 100; 150000000; 1200000007] =
  ["0E-8"; "5E-8"; "1.5E-7"; "0.00000100"; "1.50000000"; "12.00000007"].
Proof. vm_compute. reflexivity. Qed.

(** ** Lemmas *)

Lemma div_half_even_bound n d :
  0 < d -> 2 * Z.abs (n - d * div_half_even n d) <= d.
Proof.
  intros Hd. unfold div_half_even.
  pose proof (Z.div_mod n d ltac:(lia)) as Hn.
  pose proof (Z.mod_pos_bound n d Hd) as Hr.
  set (q := n / d) in *. set (r := n mod d) in *.
  destruct (Z.ltb_spec (2 * r) d); [nia|].
  destruct (Z.ltb_spec d (2 * r)); [nia|].
  destruct (Z.even q); nia.
Qed.

Lemma div_half_even_exact q d : 0 < d -> div_half_even (q * d) d = q.
Proof.
  intros Hd. unfold div_half_even.
  rw Z.div_mul; [lia|]. rw Z.mod_mul; [lia|].
  by rw (proj2 (Z.ltb_lt (2 * 0) d)); [lia|].
Qed.

Lemma normalize_quanta q :
  Z.abs q < 10 ^ decimal_prec -> normalize_task_budget_cost (of_quanta q) = Ok q.
Proof.
  intros Hq. unfold normalize_task_budget_cost, of_quanta, quantize. simpl.
  rw Z.mul_1_r. by rw (proj2 (Z.ltb_lt _ _)).
Qed.

Lemma row_checks_budget_valid r :
  row_checks r = true ->
  version_valid (tb_policy_version (row_budget r)) = true ->
  fingerprint_valid (tb_policy_fingerprint (row_budget r)) = true ->
  budget_valid (row_budget r) = true.
Proof.
  unfold row_checks, budget_valid. intros H Hv Hf. breflect.
  apply Z.leb_le in H4. by rw Hv Hf H4 H3 H2 H1 H0.
Qed.

Lemma policy_fingerprint_valid l p :
  fingerprint_valid (task_budget_policy_fingerprint l p) = true.
Proof.
  unfold fingerprint_valid, task_budget_policy_fingerprint, json_fingerprint.
  destruct (sha256_hexdigest_format (json_dumps
    (JObj [("limits", limits_json l); ("policy", policy_json p)]))) as [H1 H2].
  by rw H1 H2.
Qed.

#[export] Hint Resolve policy_fingerprint_valid : assistant.
