(* ===== verification/AgentStore.v ===== *)
(** * The transactional store of multi-agent state
    (src/se/src/infrastructure/storage/repositories/agent.py, class AgentRepository,
    with the tables of src/se/src/infrastructure/storage/models/sql/agent/)

    The database is a record of tables keyed by primary key.  A repository method
    is a function on the database as its transaction sees it; a method that runs an
    UPDATE ... WHERE returns the new database and the updated row, or no row when
    [rowcount] is not one.  Constraint violations are [IntegrityError]; a caller that
    raises inside a unit of work discards the database it had staged.  Locking reads
    ([FOR UPDATE]) return the same rows as plain reads.  JSON columns that no modelled
    code inspects are one [json] payload per row. *)

From S2P Require Import Prelude Canonical TaskBudgetSchema.

(** ** Rows *)

Record TaskRow := {
  t_id : string;
  t_status : string;
  t_wait_reasons : list string;
  t_revision : Z;
  t_parent_task_id : option string;
  t_task_horizon_at : option Z;
  t_review_horizon_at : option Z;
  t_payload : json
}.

Record ReservationRow := {
  res_generation : Z;
  res_fingerprint : string
}.

(** The primary key of [agent_task_budget_reservations]. *)
Abbreviation ReservationKey := (string * TaskBudgetReservationKind * string)%type.

Record ExecutionRow := {
  e_id : string;
  e_agent_id : string;
  e_task_id : option string;
  e_branch_id : option string;
  e_parent_execution_id : option string;
  e_state : string;
  e_wait_reason : option string;
  e_revision : Z;
  e_owner_instance_id : option string;
  e_lease_expires_at : option Z;
  e_lease_generation : Z;
  e_current_checkpoint_id : option string;
  e_wait_expires_at : option Z;
  e_completed_at : option Z;
  e_error : option string;
  e_payload : json
}.

Record BranchRow := {
  br_id : string;
  br_task_id : string;
  br_parent_branch_id : option string;
  br_base_execution_id : option string;
  br_base_checkpoint_id : option string;
  br_current_execution_id : option string;
  br_resolution_state : string;
  br_revision : Z;
  br_created_at : Z
}.

Record AgentDB := {
  db_tasks : gmap string TaskRow;
  db_budgets : gmap string BudgetRow;
  db_reservations : gmap ReservationKey ReservationRow;
  db_executions : gmap string ExecutionRow;
  db_branches : gmap string BranchRow;
  db_allocator : option Z;
  db_bindings : gset string
}.

Inductive StoreError :=
  | IntegrityError
  | StoreValueError
  | AllocatorExhausted.

(** ** Column updates *)

Inductive ExecField :=
  | SetExecState (s : string)
  | SetWaitReason (o : option string)
  | SetOwner (o : option string)
  | SetLeaseExpiresAt (o : option Z)
  | SetLeaseGeneration (z : Z)
  | SetCheckpoint (o : option string)
  | SetWaitExpiresAt (o : option Z)
  | SetCompletedAt (o : option Z)
  | SetError (o : option string)
  | SetPayload (j : json)
  | SetColumns (l : list (string * json)).

Abbreviation ExecValues := (list ExecField).

Definition apply_exec_field (e : ExecutionRow) (f : ExecField) : ExecutionRow :=
  let '(Build_ExecutionRow i ag t b p st wr rv ow le lg ck we co er pl) := e in
  match f with
  | SetExecState s => Build_ExecutionRow i ag t b p s wr rv ow le lg ck we co er pl
  | SetWaitReason o => Build_ExecutionRow i ag t b p st o rv ow le lg ck we co er pl
  | SetOwner o => Build_ExecutionRow i ag t b p st wr rv o le lg ck we co er pl
  | SetLeaseExpiresAt o => Build_ExecutionRow i ag t b p st wr rv ow o lg ck we co er pl
  | SetLeaseGeneration z => Build_ExecutionRow i ag t b p st wr rv ow le z ck we co er pl
  | SetCheckpoint o => Build_ExecutionRow i ag t b p st wr rv ow le lg o we co er pl
  | SetWaitExpiresAt o => Build_ExecutionRow i ag t b p st wr rv ow le lg ck o co er pl
  | SetCompletedAt o => Build_ExecutionRow i ag t b p st wr rv ow le lg ck we o er pl
  | SetError o => Build_ExecutionRow i ag t b p st wr rv ow le lg ck we co o pl
  | SetPayload j => Build_ExecutionRow i ag t b p st wr rv ow le lg ck we co er j
  | SetColumns l => Build_ExecutionRow i ag t b p st wr rv ow le lg ck we co er (set_columns pl l)
  end.

Definition set_exec_revision (e : ExecutionRow) (r : Z) : ExecutionRow :=
  let '(Build_ExecutionRow i ag t b p st wr _ ow le lg ck we co er pl) := e in
  Build_ExecutionRow i ag t b p st wr r ow le lg ck we co er pl.

Definition apply_exec_values (e : ExecutionRow) (values : ExecValues) : ExecutionRow :=
  fold_left apply_exec_field values e.

(** The CHECK constraints of [agent_executions]. *)
Definition exec_checks (e : ExecutionRow) : bool :=
  bool_decide (is_Some (e_owner_instance_id e) <-> is_Some (e_lease_expires_at e)) &&
  (0 <=? e_lease_generation e) &&
  (bool_decide (e_owner_instance_id e = None) || (0 <? e_lease_generation e)).

(** ** Table writers *)

Definition with_tasks (db : AgentDB) m := {|
  db_tasks := m; db_budgets := db_budgets db; db_reservations := db_reservations db;
  db_executions := db_executions db; db_branches := db_branches db;
  db_allocator := db_allocator db; db_bindings := db_bindings db |}.
Definition with_budgets (db : AgentDB) m := {|
  db_tasks := db_tasks db; db_budgets := m; db_reservations := db_reservations db;
  db_executions := db_executions db; db_branches := db_branches db;
  db_allocator := db_allocator db; db_bindings := db_bindings db |}.
Definition with_reservations (db : AgentDB) m := {|
  db_tasks := db_tasks db; db_budgets := db_budgets db; db_reservations := m;
  db_executions := db_executions db; db_branches := db_branches db;
  db_allocator := db_allocator db; db_bindings := db_bindings db |}.
Definition with_executions (db : AgentDB) m := {|
  db_tasks := db_tasks db; db_budgets := db_budgets db;
  db_reservations := db_reservations db; db_executions := m;
  db_branches := db_branches db; db_allocator := db_allocator db;
  db_bindings := db_bindings db |}.
Definition with_branches (db : AgentDB) m := {|
  db_tasks := db_tasks db; db_budgets := db_budgets db;
  db_reservations := db_reservations db; db_executions := db_executions db;
  db_branches := m; db_allocator := db_allocator db; db_bindings := db_bindings db |}.
Definition with_allocator (db : AgentDB) a := {|
  db_tasks := db_tasks db; db_budgets := db_budgets db;
  db_reservations := db_reservations db; db_executions := db_executions db;
  db_branches := db_branches db; db_allocator := a; db_bindings := db_bindings db |}.

(** ** Tasks *)

Definition get_task (db : AgentDB) (task_id : string) : option TaskRow :=
  db_tasks db !! task_id.

Definition nonneg_opt (o : option Z) : bool :=
  match o with Some z => 0 <=? z | None => true end.

(** The CHECK constraints of [agent_tasks] on modelled columns. *)
Definition task_checks (t : TaskRow) : bool :=
  (0 <=? t_revision t) && nonneg_opt (t_task_horizon_at t) &&
  nonneg_opt (t_review_horizon_at t).

Definition save_task (db : AgentDB) (row : TaskRow) : result StoreError AgentDB :=
  match db_tasks db !! t_id row with
  | Some _ => Err IntegrityError
  | None =>
      if task_checks row then Ok (with_tasks db (<[t_id row := row]> (db_tasks db)))
      else Err IntegrityError
  end.

(** A conditional UPDATE of one task row. *)
Definition update_task_where (db : AgentDB) (task_id : string)
    (where_ : TaskRow -> bool) (set_ : TaskRow -> TaskRow)
    : result StoreError (AgentDB * option TaskRow) :=
  match db_tasks db !! task_id with
  | Some t =>
      if where_ t then
        let t' := set_ t in
        if task_checks t' then
          Ok (with_tasks db (<[task_id := t']> (db_tasks db)), Some t')
        else Err IntegrityError
      else Ok (db, None)
  | None => Ok (db, None)
  end.

Inductive TaskField :=
  | SetStatus (s : string)
  | SetWaitReasons (l : list string)
  | SetTaskPayload (j : json).

Definition apply_task_field (t : TaskRow) (f : TaskField) : TaskRow :=
  let '(Build_TaskRow i st wr rv pt th rh pl) := t in
  match f with
  | SetStatus s => Build_TaskRow i s wr rv pt th rh pl
  | SetWaitReasons l => Build_TaskRow i st l rv pt th rh pl
  | SetTaskPayload j => Build_TaskRow i st wr rv pt th rh j
  end.

Definition set_task_revision (t : TaskRow) (r : Z) : TaskRow :=
  let '(Build_TaskRow i st wr _ pt th rh pl) := t in
  Build_TaskRow i st wr r pt th rh pl.

Definition compare_and_set_task (db : AgentDB) (task_id : string)
    (expected_revision : Z) (values : list TaskField)
    : result StoreError (AgentDB * option TaskRow) :=
  update_task_where db task_id (fun t => t_revision t =? expected_revision)
    (fun t => set_task_revision (fold_left apply_task_field values t)
                (expected_revision + 1)).

(** ** Budgets and their incarnations *)

(** The singleton allocator row, created on first use. *)
Definition ensure_task_budget_incarnation_allocator (db : AgentDB) : AgentDB * Z :=
  match db_allocator db with
  | Some n => (db, n)
  | None => (with_allocator db (Some 1), 1)
  end.

(** The insert, followed by the allocator's advance (by the migration's trigger or
    by the repository itself, to the same value). *)
Definition save_task_budget (db : AgentDB) (b : TaskBudget)
    : result StoreError (AgentDB * BudgetRow) :=
  let (db, generation) := ensure_task_budget_incarnation_allocator db in
  if max_generation <=? generation then Err AllocatorExhausted
  else
    let row := {| row_generation := generation; row_budget := b |} in
    if bool_decide (db_budgets db !! tb_task_id b = None) &&
       bool_decide (is_Some (db_tasks db !! tb_task_id b)) &&
       bool_decide (map_Forall (fun _ r => row_generation r <> generation) (db_budgets db)) &&
       row_checks row
    then
      let db := with_budgets db (<[tb_task_id b := row]> (db_budgets db)) in
      Ok (with_allocator db (Some (generation + 1)), row)
    else Err IntegrityError.

Definition get_task_budget (db : AgentDB) (task_id : string) : option BudgetRow :=
  db_budgets db !! task_id.

Definition generation_matches (expected : option Z) (g : Z) : bool :=
  match expected with Some e => g =? e | None => true end.

(** The revision- and incarnation-fenced UPDATE. *)
Definition compare_and_set_task_budget (db : AgentDB) (task_id : string)
    (expected_revision : Z) (values : BudgetValues) (expected_generation : option Z)
    : result StoreError (AgentDB * option BudgetRow) :=
  match db_budgets db !! task_id with
  | Some r =>
      if (tb_revision (row_budget r) =? expected_revision) &&
         generation_matches expected_generation (row_generation r)
      then
        let r' := apply_values r values (expected_revision + 1) in
        if row_checks r' then
          Ok (with_budgets db (<[task_id := r']> (db_budgets db)), Some r')
        else Err IntegrityError
      else Ok (db, None)
  | None => Ok (db, None)
  end.

(** ** Reservations *)

Definition save_task_budget_reservation (db : AgentDB) (task_id : string)
    (kind : TaskBudgetReservationKind) (key fingerprint : string)
    (supplied_generation : option Z) : result StoreError AgentDB :=
  match db_budgets db !! task_id with
  | None => Err StoreValueError
  | Some budget =>
      if generation_matches supplied_generation (row_generation budget) then
        match db_reservations db !! (task_id, kind, key) with
        | Some _ => Err IntegrityError
        | None =>
            let row := {| res_generation := row_generation budget;
                          res_fingerprint := fingerprint |} in
            Ok (with_reservations db
                  (<[(task_id, kind, key) := row]> (db_reservations db)))
        end
      else Err StoreValueError
  end.

Definition get_task_budget_reservation (db : AgentDB) (task_id : string)
    (kind : TaskBudgetReservationKind) (key : string) (expected_generation : option Z)
    : option ReservationRow :=
  match db_reservations db !! (task_id, kind, key) with
  | Some r => if generation_matches expected_generation (res_generation r)
              then Some r else None
  | None => None
  end.

(** ** Executions *)

Definition has_execution_for_task (db : AgentDB) (task_id : string) : bool :=
  negb (bool_decide (map_Forall (fun _ e => e_task_id e <> Some task_id)
                       (db_executions db))).

Definition get_execution (db : AgentDB) (execution_id : string) : option ExecutionRow :=
  db_executions db !! execution_id.

Definition save_execution (db : AgentDB) (row : ExecutionRow)
    : result StoreError AgentDB :=
  match db_executions db !! e_id row with
  | Some _ => Err IntegrityError
  | None =>
      if exec_checks row then
        Ok (with_executions db (<[e_id row := row]> (db_executions db)))
      else Err IntegrityError
  end.

(** A conditional UPDATE of one execution row. *)
Definition update_execution_where (db : AgentDB) (execution_id : string)
    (where_ : ExecutionRow -> bool) (set_ : ExecutionRow -> ExecutionRow)
    : result StoreError (AgentDB * option ExecutionRow) :=
  match db_executions db !! execution_id with
  | Some e =>
      if where_ e then
        let e' := set_ e in
        if exec_checks e' then
          Ok (with_executions db (<[execution_id := e']> (db_executions db)), Some e')
        else Err IntegrityError
      else Ok (db, None)
  | None => Ok (db, None)
  end.

Definition compare_and_set_execution (db : AgentDB) (execution_id : string)
    (expected_revision : Z) (values : ExecValues)
    : result StoreError (AgentDB * option ExecutionRow) :=
  update_execution_where db execution_id
    (fun e => e_revision e =? expected_revision)
    (fun e => set_exec_revision (apply_exec_values e values) (expected_revision + 1)).

(** The full fence of a resumable waiting execution. *)
Definition compare_and_set_waiting_execution (db : AgentDB) (execution_id : string)
    (expected_revision : Z) (expected_checkpoint_id expected_wait_reason : string)
    (values : ExecValues) : result StoreError (AgentDB * option ExecutionRow) :=
  update_execution_where db execution_id
    (fun e => (e_revision e =? expected_revision) &&
              bool_decide (e_state e = "WAITING") &&
              bool_decide (e_current_checkpoint_id e = Some expected_checkpoint_id) &&
              bool_decide (e_wait_reason e = Some expected_wait_reason))
    (fun e => set_exec_revision (apply_exec_values e values) (expected_revision + 1)).

(** ** Branches *)

Definition get_task_branch (db : AgentDB) (branch_id : string) : option BranchRow :=
  db_branches db !! branch_id.

(** The CHECK constraints of [agent_task_branches]. *)
Definition branch_checks (b : BranchRow) : bool :=
  (0 <=? br_revision b) &&
  bool_decide (br_resolution_state b ∈
    ["OPEN"; "ADOPTED"; "SUPERSEDED"; "DISCARDED"; "CANCELLED"]) &&
  negb (bool_decide (br_parent_branch_id b = Some (br_id b))) &&
  match br_parent_branch_id b, br_base_execution_id b, br_base_checkpoint_id b with
  | None, None, None | Some _, Some _, Some _ => true
  | _, _, _ => false
  end.

(** The insert; the foreign key to the task is checked, those to executions,
    checkpoints and parent branches are the caller's. *)
Definition save_task_branch (db : AgentDB) (row : BranchRow) : result StoreError AgentDB :=
  if bool_decide (db_branches db !! br_id row = None) &&
     bool_decide (is_Some (db_tasks db !! br_task_id row)) && branch_checks row
  then Ok (with_branches db (<[br_id row := row]> (db_branches db)))
  else Err IntegrityError.

(** The two mutable columns of a branch. *)
Inductive BranchField :=
  | SetCurrentExecution (o : option string)
  | SetResolution (s : string).

Definition apply_branch_field (b : BranchRow) (f : BranchField) : BranchRow :=
  let '(Build_BranchRow i t pb be bc cu rs rv cr) := b in
  match f with
  | SetCurrentExecution o => Build_BranchRow i t pb be bc o rs rv cr
  | SetResolution s => Build_BranchRow i t pb be bc cu s rv cr
  end.

Definition set_branch_revision (b : BranchRow) (r : Z) : BranchRow :=
  let '(Build_BranchRow i t pb be bc cu rs _ cr) := b in
  Build_BranchRow i t pb be bc cu rs r cr.

(** [BranchField] has only the mutable columns, so the rejection of others is by type. *)
Definition compare_and_set_task_branch (db : AgentDB) (branch_id : string)
    (expected_revision : Z) (values : list BranchField)
    : result StoreError (AgentDB * option BranchRow) :=
  match db_branches db !! branch_id with
  | Some b =>
      if br_revision b =? expected_revision then
        let b' := set_branch_revision (fold_left apply_branch_field values b)
                    (expected_revision + 1) in
        if branch_checks b' then
          Ok (with_branches db (<[branch_id := b']> (db_branches db)), Some b')
        else Err IntegrityError
      else Ok (db, None)
  | None => Ok (db, None)
  end.

Definition branch_before (a b : BranchRow) : bool :=
  (br_created_at a <? br_created_at b) ||
  ((br_created_at a =? br_created_at b) && String.leb (br_id a) (br_id b)).

Fixpoint insert_branch (b : BranchRow) (l : list BranchRow) : list BranchRow :=
  match l with
  | [] => [b]
  | b' :: l' => if branch_before b b' then b :: b' :: l' else b' :: insert_branch b l'
  end.

(** Ordered by creation time, then branch id. *)
Definition list_task_branches (db : AgentDB) (task_id : string) : list BranchRow :=
  foldr insert_branch []
    (filter (fun b => br_task_id b = task_id) (snd <$> map_to_list (db_branches db))).

(** ** Lemmas: what the writing methods change *)

Lemma cas_budget_some db t rev vals g db' r' :
  compare_and_set_task_budget db t rev vals (Some g) = Ok (db', Some r') ->
  exists r, db_budgets db !! t = Some r /\ tb_revision (row_budget r) = rev /\
    row_generation r = g /\ r' = apply_values r vals (rev + 1) /\
    row_checks r' = true /\ db' = with_budgets db (<[t := r']> (db_budgets db)).
Proof.
  unfold compare_and_set_task_budget. intros H.
  destruct (db_budgets db !! t) as [r|] eqn:Er; [|done].
  destruct (_ && _) eqn:E1; [|done].
  destruct (row_checks _) eqn:E2; [|done].
  simplify_eq. simpl in *. breflect. exists r. done.
Qed.

Lemma cas_budget_win db t r vals g :
  db_budgets db !! t = Some r -> row_generation r = g ->
  row_checks (apply_values r vals (tb_revision (row_budget r) + 1)) = true ->
  compare_and_set_task_budget db t (tb_revision (row_budget r)) vals (Some g) =
  Ok (with_budgets db (<[t := apply_values r vals (tb_revision (row_budget r) + 1)]>
        (db_budgets db)),
      Some (apply_values r vals (tb_revision (row_budget r) + 1))).
Proof.
  intros Hr Hg Hc. unfold compare_and_set_task_budget. rw Hr Z.eqb_refl /=.
  by rw Hg Z.eqb_refl Hc.
Qed.

Lemma save_reservation_ok db t k key fp g db' :
  save_task_budget_reservation db t k key fp g = Ok db' ->
  exists r, db_budgets db !! t = Some r /\
    db_reservations db !! (t, k, key) = None /\
    db' = with_reservations db (<[(t, k, key) :=
      {| res_generation := row_generation r; res_fingerprint := fp |}]>
      (db_reservations db)).
Proof.
  unfold save_task_budget_reservation. intros H.
  destruct (db_budgets db !! t) as [r|]; [|done].
  destruct (generation_matches _ _); [|done].
  destruct (db_reservations db !! _) eqn:E; [done|]. simplify_eq. by exists r.
Qed.

Lemma update_execution_where_some db x w s db' e' :
  update_execution_where db x w s = Ok (db', Some e') ->
  exists e, db_executions db !! x = Some e /\ w e = true /\ e' = s e /\
    exec_checks e' = true /\
    db' = with_executions db (<[x := e']> (db_executions db)).
Proof.
  unfold update_execution_where. intros H.
  destruct (db_executions db !! x) as [e|]; [|done].
  destruct (w e) eqn:Ew; [|done]. destruct (exec_checks _) eqn:Ec; [|done].
  simplify_eq. by exists e.
Qed.

Lemma update_execution_where_none db x w s db' :
  update_execution_where db x w s = Ok (db', None) ->
  db' = db /\ forall e, db_executions db !! x = Some e -> w e = false.
Proof.
  unfold update_execution_where. intros H.
  destruct (db_executions db !! x) as [e|]; [|by simplify_eq].
  destruct (w e) eqn:Ew; [by destruct (exec_checks _)|].
  simplify_eq. split; [done|]. intros; by simplify_eq.
Qed.

Lemma update_task_where_some db x w s db' t' :
  update_task_where db x w s = Ok (db', Some t') ->
  exists t, db_tasks db !! x = Some t /\ w t = true /\ t' = s t /\
    task_checks t' = true /\ db' = with_tasks db (<[x := t']> (db_tasks db)).
Proof.
  unfold update_task_where. intros H.
  destruct (db_tasks db !! x) as [t|]; [|done].
  destruct (w t) eqn:Ew; [|done]. destruct (task_checks _) eqn:Ec; [|done].
  simplify_eq. by exists t.
Qed.

Lemma save_execution_ok db row db' :
  save_execution db row = Ok db' ->
  db_executions db !! e_id row = None /\ exec_checks row = true /\
  db' = with_executions db (<[e_id row := row]> (db_executions db)).
Proof.
  unfold save_execution. destruct (db_executions db !! _); [done|].
  destruct (exec_checks row); naive_solver.
Qed.

Lemma apply_values_generation r vals n :
  row_generation (apply_values r vals n) = row_generation r.
Proof. done. Qed.

Lemma apply_values_revision r vals n :
  tb_revision (row_budget (apply_values r vals n)) = n.
Proof. done. Qed.

#[export] Hint Rewrite apply_values_generation apply_values_revision : assistant.
