(* ===== verification/TaskBudgetService.v ===== *)
(** * TaskBudgetService: idempotent, revision-fenced budget reservations
    (src/se/src/runtimes/agent/task_budget.py)

    Several workers run the service against one database.  An attempt of
    [_mutate_with_reservation] reads the budget row, reads the reservation, and then
    writes (compare-and-set, side effect, reservation) in one transaction; between
    those statements other workers may commit.  The attempt is therefore a program
    counter ([MwrPc]) advanced by [mwr_step], one database interaction at a time, and
    the loop over attempts is part of the counter.  A step also receives the clock and
    an optional database fault ([OperationalError]).

    The service is modelled without an attached user-budget authority's enrolled path
    ([_mutate_enrolled_resource]); the checks that a legacy call makes against that
    authority's bindings are modelled. *)

From S2P Require Import Prelude Canonical TaskBudgetSchema AgentStore.

(** ** Errors *)

Inductive TBError :=
  | TaskBudgetRequired
  | TaskBudgetLegacyUninitialized
  | TaskBudgetClosed
  | TaskBudgetExceeded (what : string)
  | TaskBudgetConflict (what : string)
  | TaskBudgetIncarnationChanged
  | TaskBudgetLegacyBecameEnrolled
  | TaskBudgetUnsupportedLegacyMirror
  | DelegationDepthExceeded
  | AgentDelegationCycle
  | ValueError (what : string)
  | BudgetValidationError
  | CostFailure (e : CostError)
  | StoreFailure (e : StoreError)
  | OperationalFailure.

(** The exception classes that are a [TaskBudgetConflictError]. *)
Definition is_conflict (e : TBError) : bool :=
  match e with
  | TaskBudgetConflict _ | TaskBudgetIncarnationChanged
  | TaskBudgetLegacyBecameEnrolled => true
  | _ => false
  end.

(** Constructor arguments of the service. *)
Record ServiceConfig := {
  cfg_max_conflict_retries : Z;
  cfg_dual_accounting : bool;
  cfg_user_tool_quota_enabled : bool;
  cfg_user_inference_quota_enabled : bool
}.

(** [max(1, int(max_conflict_retries))]. *)
Definition attempts (cfg : ServiceConfig) : nat :=
  Z.to_nat (Z.max 1 (cfg_max_conflict_retries cfg)).

Definition lift_store {A} (r : result StoreError A) : result TBError A :=
  match r with Ok a => Ok a | Err e => Err (StoreFailure e) end.

Definition lift_cost {A} (r : result CostError A) : result TBError A :=
  match r with Ok a => Ok a | Err e => Err (CostFailure e) end.

(** ** Fingerprints and identifiers *)

Definition reservation_fingerprint (kind : TaskBudgetReservationKind)
    (reservation_key : string) (payload : json) : string :=
  json_fingerprint (JObj [
    ("kind", JStr (kind_value kind));
    ("reservation_key", JStr reservation_key);
    ("payload", payload)]).

#[global] Arguments reservation_fingerprint : simpl never.

Definition root_branch_id (task_id : string) : string :=
  String.append "r8_root_" (String.substring 0 40 (sha256_hexdigest task_id)).

(** [f"{execution_id}:{revision}"]. *)
Definition revision_key (execution_id : string) (revision : Z) : string :=
  String.append execution_id (String ":"%char (pretty revision)).

(** ** Budget helpers *)

(** [_budget_from_record]: building the domain object validates it. *)
Definition budget_from_record (r : BudgetRow) : result TBError TaskBudget :=
  if budget_valid (row_budget r) then Ok (row_budget r) else Err BudgetValidationError.

Definition require_open (b : TaskBudget) : result TBError unit :=
  match tb_state b with OPEN => Ok tt | CLOSED => Err TaskBudgetClosed end.

Definition verify_reservation (r : ReservationRow) (fingerprint : string)
    : result TBError unit :=
  guard_err (bool_decide (res_fingerprint r = fingerprint))
    (TaskBudgetConflict "reservation_key was reused with a different payload").

Definition require_same_policy (b : TaskBudget) (p : TaskBudgetPolicy)
    (fingerprint : string) : result TBError unit :=
  guard_err
    (bool_decide (tb_policy_version b = pol_version p) &&
     bool_decide (tb_policy_fingerprint b = fingerprint) &&
     Bool.eqb (tb_deny_cycle b) (pol_deny_recursive_agent_cycle p))
    (TaskBudgetConflict "existing TaskBudget policy/limits are immutable").

Definition zero_counters : Counters := {|
  used_executions := 0; active_executions := 0; active_branches := 0;
  active_parallel_agents := 0; used_tool_calls := 0; used_inference_calls := 0;
  used_tokens := 0; used_cost := 0 |}.

Definition new_budget_values (task_id : string) (l : TaskBudgetLimits)
    (p : TaskBudgetPolicy) (fingerprint : string) : TaskBudget := {|
  tb_task_id := task_id; tb_revision := 0; tb_state := OPEN; tb_limits := l;
  tb_policy_version := pol_version p; tb_policy_fingerprint := fingerprint;
  tb_deny_cycle := pol_deny_recursive_agent_cycle p;
  tb_counters := zero_counters; tb_closed_at := None |}.

(** A missing budget row is reported differently once the task has executions. *)
Definition missing_budget (db : AgentDB) (task_id : string) : TBError :=
  if has_execution_for_task db task_id then TaskBudgetLegacyUninitialized
  else TaskBudgetRequired.

(** ** Recovery fence *)

(** The mapping handed over by recovery; [None] stands for a missing or
    ill-typed entry. *)
Record RecoveryFence := {
  f_owner_instance_id : option string;
  f_lease_generation : option Z;
  f_lease_expires_at : option Z
}.

Definition fence_lost : TBError := TaskBudgetConflict "RECOVERY_ACTIVE_LEASE_FENCE_LOST".

Definition validate_recovery_mutation_authority (execution_id : option string)
    (fence : option RecoveryFence) (generation : option Z) : result TBError unit :=
  match execution_id, fence with
  | None, None => Ok tt
  | _, _ =>
      guard_err
        (truthy (strip (default "" execution_id)) && bool_decide (is_Some fence) &&
         match generation with Some g => 0 <? g | None => false end)
        (TaskBudgetConflict "RECOVERY_TASK_BUDGET_AUTHORITY_INCOMPLETE")
  end.

Definition require_recovery_mutation_fence_now (execution : option ExecutionRow)
    (task_id : string) (fence : RecoveryFence) (now : Z) : result TBError unit :=
  let owner := strip (default "" (f_owner_instance_id fence)) in
  match f_lease_generation fence, f_lease_expires_at fence, execution with
  | Some generation, Some expected_expiry, Some e =>
      guard_err
        (bool_decide (default "" (e_task_id e) = task_id) &&
         bool_decide (e_state e = "RUNNING") &&
         bool_decide (default "" (e_owner_instance_id e) = owner) &&
         (e_lease_generation e =? generation) &&
         bool_decide (e_lease_expires_at e = Some expected_expiry) &&
         (now <? expected_expiry))
        fence_lost
  | _, _, _ => Err fence_lost
  end.

Definition check_fence (execution : option ExecutionRow) (task_id : string)
    (fence : option RecoveryFence) (now : Z) : result TBError unit :=
  match fence with
  | Some f => require_recovery_mutation_fence_now execution task_id f now
  | None => Ok tt
  end.

(** ** _mutate_with_reservation *)

(** The arguments of one logical call. *)
Record MwrRequest := {
  q_task_id : string;
  q_kind : TaskBudgetReservationKind;
  q_reservation_key : string;
  q_payload : json;
  q_mutate : TaskBudget -> result TBError BudgetValues;
  q_side_effect : AgentDB -> result TBError AgentDB;
  q_verify_idempotent : AgentDB -> result TBError unit;
  q_expected_generation : option Z;
  q_require_legacy_unbound : bool;
  q_recovery_execution_id : option string;
  q_recovery_fence : option RecoveryFence
}.

Definition q_fingerprint (q : MwrRequest) : string :=
  reservation_fingerprint (q_kind q) (q_reservation_key q) (q_payload q).

(** [OperationalError]: a locked or busy database is retried, others propagate. *)
Inductive DbFault := LockedOrBusy | OtherOperational.

(** When a transaction raises: nothing of it is stored, or (an uncertain commit) it was
    committed and only the acknowledgement is lost. *)
Inductive StepFault := RolledBack (f : DbFault) | Unacknowledged (f : DbFault).

Definition fault_kind (f : StepFault) : DbFault :=
  match f with RolledBack f | Unacknowledged f => f end.

Inductive MwrPc :=
  | MBegin (attempt : nat) (generation : option Z)
  | MLookup (attempt : nat) (generation : Z) (rec : BudgetRow)
      (locked : option ExecutionRow)
  | MWrite (attempt : nat) (generation : Z) (rec : BudgetRow) (values : BudgetValues)
  | MRecover (attempt : nat) (generation : Z)
  | MDone (r : result TBError TaskBudget).

Section Mwr.
Context (cfg : ServiceConfig).

(** The argument checks before the loop. *)
Definition mwr_start (q : MwrRequest) : MwrPc :=
  if negb (truthy (q_reservation_key q)) then
    MDone (Err (ValueError "reservation_key must be non-empty"))
  else
    match validate_recovery_mutation_authority (q_recovery_execution_id q)
            (q_recovery_fence q) (q_expected_generation q) with
    | Err e => MDone (Err e)
    | Ok _ => MBegin 0 (q_expected_generation q)
    end.

(** [continue], or the end of the loop. *)
Definition next_attempt (attempt : nat) (generation : option Z) : MwrPc :=
  if (S attempt <? attempts cfg)%nat then MBegin (S attempt) generation
  else MDone (Err (TaskBudgetConflict "TaskBudget CAS conflicts exhausted")).

(** Fence lock, legacy binding check, budget read, incarnation check. *)
Definition mwr_begin (q : MwrRequest) (now : Z) (db : AgentDB)
    (generation : option Z)
    : result TBError (Z * BudgetRow * option ExecutionRow) :=
  let locked := match q_recovery_fence q, q_recovery_execution_id q with
                | Some _, Some execution_id => get_execution db execution_id
                | _, _ => None
                end in
  _ ← check_fence locked (q_task_id q) (q_recovery_fence q) now;
  _ ← guard_err (negb (q_require_legacy_unbound q && cfg_dual_accounting cfg &&
                       bool_decide (q_task_id q ∈ db_bindings db)))
        TaskBudgetLegacyBecameEnrolled;
  match get_task_budget db (q_task_id q) with
  | None => Err (missing_budget db (q_task_id q))
  | Some rec =>
      match generation with
      | Some g => if row_generation rec =? g then Ok (g, rec, locked)
                  else Err TaskBudgetIncarnationChanged
      | None => Ok (row_generation rec, rec, locked)
      end
  end.

(** The replay branch: an existing reservation answers without charging. *)
Definition mwr_replay (q : MwrRequest) (now : Z) (db : AgentDB) (rec : BudgetRow)
    (locked : option ExecutionRow) (existing : ReservationRow)
    : result TBError TaskBudget :=
  _ ← verify_reservation existing (q_fingerprint q);
  _ ← q_verify_idempotent q db;
  _ ← check_fence locked (q_task_id q) (q_recovery_fence q) now;
  budget_from_record rec.

(** The charge computed from the row read earlier. *)
Definition mwr_plan (q : MwrRequest) (now : Z) (rec : BudgetRow)
    (locked : option ExecutionRow) : result TBError BudgetValues :=
  budget ← budget_from_record rec;
  values ← q_mutate q budget;
  _ ← check_fence locked (q_task_id q) (q_recovery_fence q) now;
  mret values.

(** Compare-and-set, side effect, reservation insert: [None] when the
    compare-and-set lost. *)
Definition mwr_commit (q : MwrRequest) (db : AgentDB) (generation : Z)
    (rec : BudgetRow) (values : BudgetValues)
    : result TBError (option (AgentDB * TaskBudget)) :=
  cas ← lift_store (compare_and_set_task_budget db (q_task_id q)
          (tb_revision (row_budget rec)) values (Some generation));
  match cas with
  | (_, None) => Ok None
  | (db1, Some updated) =>
      db2 ← q_side_effect q db1;
      db3 ← lift_store (save_task_budget_reservation db2 (q_task_id q) (q_kind q)
              (q_reservation_key q) (q_fingerprint q) (Some generation));
      budget ← budget_from_record updated;
      mret (Some (db3, budget))
  end.

(** [_load_idempotent], called from the [except IntegrityError] handler. *)
Definition load_idempotent (q : MwrRequest) (now : Z) (db : AgentDB) (generation : Z)
    : result TBError (option TaskBudget) :=
  _ ← validate_recovery_mutation_authority (q_recovery_execution_id q)
        (q_recovery_fence q) (Some generation);
  let locked := match q_recovery_fence q, q_recovery_execution_id q with
                | Some _, Some execution_id => get_execution db execution_id
                | _, _ => None
                end in
  _ ← check_fence locked (q_task_id q) (q_recovery_fence q) now;
  _ ← guard_err (negb (q_require_legacy_unbound q && cfg_dual_accounting cfg &&
                       bool_decide (q_task_id q ∈ db_bindings db)))
        TaskBudgetLegacyBecameEnrolled;
  match get_task_budget db (q_task_id q) with
  | None => Err TaskBudgetRequired
  | Some rec =>
      _ ← guard_err (row_generation rec =? generation) TaskBudgetIncarnationChanged;
      match get_task_budget_reservation db (q_task_id q) (q_kind q)
              (q_reservation_key q) (Some generation) with
      | None => Ok None
      | Some existing =>
          budget ← mwr_replay q now db rec locked existing;
          mret (Some budget)
      end
  end.

(** The [except OperationalError] handler. *)
Definition raise_fault (f : DbFault) (attempt : nat) (generation : option Z) : MwrPc :=
  match f with
  | LockedOrBusy => next_attempt attempt generation
  | OtherOperational => MDone (Err OperationalFailure)
  end.

(** One database interaction of the loop.  Only the last one has anything to commit. *)
Definition mwr_step (q : MwrRequest) (now : Z) (fault : option StepFault)
    (pc : MwrPc) (db : AgentDB) : MwrPc * AgentDB :=
  match pc with
  | MDone r => (MDone r, db)
  | MRecover attempt generation =>
      match fault with
      | Some _ => (MDone (Err OperationalFailure), db)
      | None =>
          match load_idempotent q now db generation with
          | Err e => (MDone (Err e), db)
          | Ok (Some budget) => (MDone (Ok budget), db)
          | Ok None => (next_attempt attempt (Some generation), db)
          end
      end
  | MBegin attempt generation =>
      match fault with
      | Some f => (raise_fault (fault_kind f) attempt generation, db)
      | None =>
          match mwr_begin q now db generation with
          | Err e => (MDone (Err e), db)
          | Ok (g, rec, locked) => (MLookup attempt g rec locked, db)
          end
      end
  | MLookup attempt generation rec locked =>
      match fault with
      | Some f => (raise_fault (fault_kind f) attempt (Some generation), db)
      | None =>
          match get_task_budget_reservation db (q_task_id q) (q_kind q)
                  (q_reservation_key q) (Some generation) with
          | Some existing => (MDone (mwr_replay q now db rec locked existing), db)
          | None =>
              match mwr_plan q now rec locked with
              | Err e => (MDone (Err e), db)
              | Ok values => (MWrite attempt generation rec values, db)
              end
          end
      end
  | MWrite attempt generation rec values =>
      match fault with
      | Some (RolledBack f) => (raise_fault f attempt (Some generation), db)
      | _ =>
          match mwr_commit q db generation rec values with
          | Ok (Some (db', budget)) =>
              (match fault with
               | Some f => raise_fault (fault_kind f) attempt (Some generation)
               | None => MDone (Ok budget)
               end, db')
          | Ok None => (next_attempt attempt (Some generation), db)
          | Err (StoreFailure IntegrityError) => (MRecover attempt generation, db)
          | Err e => (MDone (Err e), db)
          end
      end
  end.

(** A worker alone on the database: [n] steps at the given clock readings. *)
Fixpoint mwr_run (q : MwrRequest) (clock : list Z) (pc : MwrPc) (db : AgentDB)
    : MwrPc * AgentDB :=
  match clock with
  | [] => (pc, db)
  | now :: clock' =>
      let (pc', db') := mwr_step q now None pc db in mwr_run q clock' pc' db'
  end.
End Mwr.

(** The reference semantics: the whole call as one isolated transaction. *)
Definition mwr_atomic (q : MwrRequest) (generation : Z) (db : AgentDB)
    : result TBError (AgentDB * TaskBudget) :=
  match get_task_budget db (q_task_id q) with
  | None => Err (missing_budget db (q_task_id q))
  | Some rec =>
      _ ← guard_err (row_generation rec =? generation) TaskBudgetIncarnationChanged;
      match get_task_budget_reservation db (q_task_id q) (q_kind q)
              (q_reservation_key q) (Some generation) with
      | Some existing =>
          _ ← verify_reservation existing (q_fingerprint q);
          _ ← q_verify_idempotent q db;
          budget ← budget_from_record rec;
          mret (db, budget)
      | None =>
          budget ← budget_from_record rec;
          values ← q_mutate q budget;
          committed ← mwr_commit q db generation rec values;
          match committed with
          | Some (db', budget') => mret (db', budget')
          | None => Err (TaskBudgetConflict "compare-and-set lost")
          end
      end
  end.

(** ** The mutations of the public operations *)

Definition bump_if (delegated : bool) (z : Z) : Z := if delegated then z + 1 else z.
Definition drop_if (delegated : bool) (z : Z) : Z := if delegated then z - 1 else z.

(** Capacity for one more active execution. *)
Definition require_active_capacity (delegated : bool) (b : TaskBudget)
    : result TBError unit :=
  let c := tb_counters b in
  let l := tb_limits b in
  _ ← guard_err (negb (max_active_executions l <=? active_executions c))
        (TaskBudgetExceeded "max_active_executions reached");
  guard_err (negb (delegated && (max_parallel_agents l <=? active_parallel_agents c)))
    (TaskBudgetExceeded "max_parallel_agents reached").

Definition mutate_new_execution (delegated : bool) (delegation_depth : Z)
    (b : TaskBudget) : result TBError BudgetValues :=
  let c := tb_counters b in
  let l := tb_limits b in
  _ ← require_open b;
  _ ← guard_err (negb (max_delegation_depth l <? delegation_depth))
        DelegationDepthExceeded;
  _ ← guard_err (negb (max_total_executions l <=? used_executions c))
        (TaskBudgetExceeded "max_total_executions reached");
  _ ← require_active_capacity delegated b;
  mret [SetUsedExecutions (used_executions c + 1);
        SetActiveExecutions (active_executions c + 1);
        SetActiveParallelAgents (bump_if delegated (active_parallel_agents c))].

Definition mutate_resume (delegated : bool) (b : TaskBudget)
    : result TBError BudgetValues :=
  let c := tb_counters b in
  _ ← require_open b;
  _ ← require_active_capacity delegated b;
  mret [SetActiveExecutions (active_executions c + 1);
        SetActiveParallelAgents (bump_if delegated (active_parallel_agents c))].

Definition mutate_release (delegated : bool) (b : TaskBudget)
    : result TBError BudgetValues :=
  let c := tb_counters b in
  _ ← guard_err (negb (active_executions c <=? 0))
        (TaskBudgetConflict "active_executions is already zero");
  _ ← guard_err (negb (delegated && (active_parallel_agents c <=? 0)))
        (TaskBudgetConflict "active_parallel_agents is already zero");
  mret [SetActiveExecutions (active_executions c - 1);
        SetActiveParallelAgents (drop_if delegated (active_parallel_agents c))].

Definition mutate_tool_calls (count : Z) (b : TaskBudget)
    : result TBError BudgetValues :=
  _ ← require_open b;
  let proposed := used_tool_calls (tb_counters b) + count in
  _ ← guard_err (negb (max_total_tool_calls (tb_limits b) <? proposed))
        (TaskBudgetExceeded "max_total_tool_calls exceeded");
  mret [SetUsedToolCalls proposed].

Definition limit_reached (limit : option Z) (used : Z) : bool :=
  match limit with Some m => m <=? used | None => false end.

Definition mutate_inference (cfg : ServiceConfig) (b : TaskBudget)
    : result TBError BudgetValues :=
  let c := tb_counters b in
  let l := tb_limits b in
  _ ← require_open b;
  if cfg_user_inference_quota_enabled cfg then
    mret [SetUsedInferenceCalls
            (Z.min (used_inference_calls c + 1) (max_total_inference_calls l))]
  else
    _ ← guard_err (negb (max_total_inference_calls l <=? used_inference_calls c))
          (TaskBudgetExceeded "max_total_inference_calls reached");
    _ ← guard_err (negb (limit_reached (max_total_tokens l) (used_tokens c)))
          (TaskBudgetExceeded "max_total_tokens reached");
    _ ← guard_err (negb (limit_reached (max_total_cost l) (used_cost c)))
          (TaskBudgetExceeded "max_total_cost_usd reached");
    mret [SetUsedInferenceCalls (used_inference_calls c + 1)].

Definition mutate_usage (tokens cost : Z) (b : TaskBudget)
    : result TBError BudgetValues :=
  let c := tb_counters b in
  total ← lift_cost (normalize_task_budget_cost (of_quanta (used_cost c + cost)));
  mret [SetUsedTokens (used_tokens c + tokens); SetUsedCost total].

Definition mutate_branch (b : TaskBudget) : result TBError BudgetValues :=
  let c := tb_counters b in
  _ ← require_open b;
  _ ← guard_err (negb (max_active_branches (tb_limits b) <=? active_branches c))
        (TaskBudgetExceeded "max_active_branches reached");
  mret [SetActiveBranches (active_branches c + 1)].

Definition mutate_release_branch (b : TaskBudget) : result TBError BudgetValues :=
  let c := tb_counters b in
  _ ← guard_err (negb (active_branches c <=? 0))
        (TaskBudgetConflict "active_branches is already zero");
  mret [SetActiveBranches (active_branches c - 1)].

(** ** Delegated branch checks of reserve_new_execution *)

Definition validate_delegated_branch (task_id : string) (row : ExecutionRow)
    (db : AgentDB) : result TBError unit :=
  match e_parent_execution_id row with
  | None => Ok tt
  | Some parent_id =>
      let branch_id := default "" (e_branch_id row) in
      _ ← guard_err (truthy branch_id)
            (TaskBudgetConflict "Delegated execution requires durable branch_id.");
      _ ← guard_err
            match get_task_branch db branch_id with
            | Some br => bool_decide (br_task_id br = task_id) &&
                         bool_decide (br_resolution_state br = "OPEN")
            | None => false
            end
            (TaskBudgetConflict "Delegated execution requires an OPEN TaskBranch");
      guard_err
        match get_execution db parent_id with
        | Some parent => bool_decide (e_task_id parent = Some task_id) &&
                         bool_decide (e_branch_id parent = Some branch_id)
        | None => false
        end
        (TaskBudgetConflict "Delegated execution parent must belong to the same TaskBranch.")
  end.

Definition new_execution_side_effect (task_id : string) (row : ExecutionRow)
    (db : AgentDB) : result TBError AgentDB :=
  _ ← validate_delegated_branch task_id row db;
  _ ← guard_err (bool_decide (get_execution db (e_id row) = None))
        (TaskBudgetConflict "Execution exists without matching TaskBudget reservation.");
  lift_store (save_execution db row).

Definition new_execution_verify (task_id : string) (row : ExecutionRow)
    (db : AgentDB) : result TBError unit :=
  _ ← validate_delegated_branch task_id row db;
  guard_err
    match get_execution db (e_id row) with
    | Some e => bool_decide (e_task_id e = Some task_id) &&
                (bool_decide (e_parent_execution_id row = None) ||
                 bool_decide (e_branch_id e = e_branch_id row))
    | None => false
    end
    (TaskBudgetConflict "Idempotent execution reservation has no matching execution.").

(** ** Payloads *)

Definition json_opt_str (o : option string) : json :=
  match o with Some s => JStr s | None => JNull end.

(** [to_json_safe(execution_values)]: every column of the row; those without a field of their
    own are in the payload, and instants are integers. *)
Definition execution_json (e : ExecutionRow) : json := JObj [
  ("id", JStr (e_id e));
  ("agent_id", JStr (e_agent_id e));
  ("task_id", json_opt_str (e_task_id e));
  ("branch_id", json_opt_str (e_branch_id e));
  ("parent_execution_id", json_opt_str (e_parent_execution_id e));
  ("state", JStr (e_state e));
  ("wait_reason", json_opt_str (e_wait_reason e));
  ("revision", JInt (e_revision e));
  ("owner_instance_id", json_opt_str (e_owner_instance_id e));
  ("lease_expires_at", json_opt_int (e_lease_expires_at e));
  ("lease_generation", JInt (e_lease_generation e));
  ("current_checkpoint_id", json_opt_str (e_current_checkpoint_id e));
  ("wait_expires_at", json_opt_int (e_wait_expires_at e));
  ("completed_at", json_opt_int (e_completed_at e));
  ("error", json_opt_str (e_error e));
  ("payload", e_payload e)].

Definition delegated_payload (execution_id : string) (delegated : bool) : json := JObj [
  ("execution_id", JStr execution_id); ("delegated", JBool delegated)].

(** ** The public operations *)

Definition no_side_effect (db : AgentDB) : result TBError AgentDB := Ok db.
Definition no_verify (db : AgentDB) : result TBError unit := Ok tt.

(** A call without recovery authority or incarnation expectation. *)
Definition plain_request (task_id : string) (kind : TaskBudgetReservationKind)
    (key : string) (payload : json)
    (mutate : TaskBudget -> result TBError BudgetValues) : MwrRequest := {|
  q_task_id := task_id; q_kind := kind; q_reservation_key := key;
  q_payload := payload; q_mutate := mutate; q_side_effect := no_side_effect;
  q_verify_idempotent := no_verify; q_expected_generation := None;
  q_require_legacy_unbound := false; q_recovery_execution_id := None;
  q_recovery_fence := None |}.

(** The recovery keyword arguments of the inference operations. *)
Record RecoveryArgs := {
  ra_execution_id : option string;
  ra_fence : option RecoveryFence;
  ra_generation : option Z
}.

Definition no_recovery : RecoveryArgs :=
  {| ra_execution_id := None; ra_fence := None; ra_generation := None |}.

Definition recovery_request (task_id : string) (kind : TaskBudgetReservationKind)
    (key : string) (payload : json)
    (mutate : TaskBudget -> result TBError BudgetValues) (ra : RecoveryArgs)
    : MwrRequest := {|
  q_task_id := task_id; q_kind := kind; q_reservation_key := key;
  q_payload := payload; q_mutate := mutate; q_side_effect := no_side_effect;
  q_verify_idempotent := no_verify; q_expected_generation := ra_generation ra;
  q_require_legacy_unbound := false; q_recovery_execution_id := ra_execution_id ra;
  q_recovery_fence := ra_fence ra |}.

Definition reserve_new_execution (task_id execution_id : string) (row : ExecutionRow)
    (delegation_depth : Z) : result TBError MwrRequest :=
  _ ← guard_err (0 <=? delegation_depth)
        (ValueError "delegation_depth must be non-negative");
  _ ← guard_err (bool_decide (e_id row = execution_id))
        (ValueError "execution_values.id must match execution_id");
  _ ← guard_err (bool_decide (e_task_id row = Some task_id))
        (ValueError "execution_values.task_id must match task_id");
  let delegated := bool_decide (is_Some (e_parent_execution_id row)) in
  mret {|
    q_task_id := task_id; q_kind := NEW_EXECUTION; q_reservation_key := execution_id;
    q_payload := JObj [
      ("execution_id", JStr execution_id);
      ("execution_values", execution_json row);
      ("delegated", JBool delegated);
      ("delegation_depth", JInt delegation_depth)];
    q_mutate := mutate_new_execution delegated delegation_depth;
    q_side_effect := new_execution_side_effect task_id row;
    q_verify_idempotent := new_execution_verify task_id row;
    q_expected_generation := None; q_require_legacy_unbound := false;
    q_recovery_execution_id := None; q_recovery_fence := None |}.

Definition reserve_resume_slot (task_id execution_id : string) (source_revision : Z)
    (delegated : bool) : result TBError MwrRequest :=
  _ ← guard_err (0 <=? source_revision)
        (ValueError "source_revision must be non-negative");
  mret (plain_request task_id RESUME_EXECUTION (revision_key execution_id source_revision)
          (delegated_payload execution_id delegated) (mutate_resume delegated)).

Definition release_active_execution (task_id execution_id : string)
    (target_revision : Z) (delegated : bool) : result TBError MwrRequest :=
  _ ← guard_err (0 <=? target_revision)
        (ValueError "target_revision must be non-negative");
  mret (plain_request task_id RELEASE_EXECUTION (revision_key execution_id target_revision)
          (delegated_payload execution_id delegated) (mutate_release delegated)).

(** [_preflight_resource_accounting]: whether the task is enrolled, and the
    incarnation a legacy call owns. *)
Definition preflight_resource_accounting (cfg : ServiceConfig) (db : AgentDB)
    (task_id : string) : result TBError (bool * option Z) :=
  if negb (cfg_dual_accounting cfg) then Ok (false, None)
  else if bool_decide (task_id ∈ db_bindings db) then Ok (true, None)
  else match get_task_budget db task_id with
       | None => Err (missing_budget db task_id)
       | Some rec => Ok (false, Some (row_generation rec))
       end.

(** [preflight] is the result of the preflight read. *)
Definition reserve_tool_calls (cfg : ServiceConfig) (preflight : bool * option Z)
    (task_id reservation_key : string) (count : Z) : result TBError MwrRequest :=
  _ ← guard_err (0 <? count) (ValueError "count must be positive");
  _ ← guard_err (negb (fst preflight)) TaskBudgetUnsupportedLegacyMirror;
  mret {|
    q_task_id := task_id; q_kind := TOOL_CALL; q_reservation_key := reservation_key;
    q_payload := JObj [("count", JInt count)]; q_mutate := mutate_tool_calls count;
    q_side_effect := no_side_effect; q_verify_idempotent := no_verify;
    q_expected_generation := snd preflight;
    q_require_legacy_unbound := cfg_dual_accounting cfg;
    q_recovery_execution_id := None; q_recovery_fence := None |}.

(** Where a resource call goes: through the reservation loop, or to the enrolled
    task's dual accounting. *)
Inductive ResourceRoute :=
  | RouteReservation (q : MwrRequest)
  | RouteEnrolled (task_id : string) (kind : TaskBudgetReservationKind)
      (key : string) (payload : json)
      (mutate : TaskBudget -> result TBError BudgetValues).

(** [_mutate_resource_with_reservation], after its preflight read. *)
Definition mutate_resource_with_reservation (cfg : ServiceConfig)
    (preflight : bool * option Z) (task_id : string)
    (kind : TaskBudgetReservationKind) (key : string) (payload : json)
    (mutate : TaskBudget -> result TBError BudgetValues) : ResourceRoute :=
  if fst preflight then RouteEnrolled task_id kind key payload mutate
  else RouteReservation {|
    q_task_id := task_id; q_kind := kind; q_reservation_key := key;
    q_payload := payload; q_mutate := mutate;
    q_side_effect := no_side_effect; q_verify_idempotent := no_verify;
    q_expected_generation := snd preflight;
    q_require_legacy_unbound := cfg_dual_accounting cfg;
    q_recovery_execution_id := None; q_recovery_fence := None |}.

(** The dispatch shared by [reserve_inference] and [account_usage]. *)
Definition inference_route (cfg : ServiceConfig) (preflight : bool * option Z)
    (task_id : string) (kind : TaskBudgetReservationKind) (key : string)
    (payload : json) (mutate : TaskBudget -> result TBError BudgetValues)
    (ra : RecoveryArgs) : result TBError ResourceRoute :=
  if cfg_user_inference_quota_enabled cfg || negb (cfg_dual_accounting cfg) then
    mret (RouteReservation (recovery_request task_id kind key payload mutate ra))
  else
    _ ← guard_err (bool_decide (ra_fence ra = None))
          (TaskBudgetConflict "RECOVERY_TASK_BUDGET_DUAL_ACCOUNTING_UNSUPPORTED");
    mret (mutate_resource_with_reservation cfg preflight task_id kind key payload mutate).

Definition reserve_inference (cfg : ServiceConfig) (preflight : bool * option Z)
    (task_id request_id : string) (ra : RecoveryArgs) : result TBError ResourceRoute :=
  inference_route cfg preflight task_id INFERENCE request_id (JObj [])
    (mutate_inference cfg) ra.

Definition account_usage (cfg : ServiceConfig) (preflight : bool * option Z)
    (task_id usage_key : string) (tokens : Z) (cost_usd : Decimal)
    (ra : RecoveryArgs) : result TBError ResourceRoute :=
  _ ← guard_err (0 <=? tokens) (ValueError "tokens must be non-negative");
  normalized_cost ← lift_cost (normalize_task_budget_cost cost_usd);
  _ ← guard_err (0 <=? normalized_cost) (ValueError "cost_usd must be non-negative");
  inference_route cfg preflight task_id USAGE usage_key
    (JObj [("tokens", JInt tokens); ("cost_usd", JStr (decimal_string normalized_cost))])
    (mutate_usage tokens normalized_cost) ra.

Definition reserve_branch_slot (task_id reservation_key : string) : MwrRequest :=
  plain_request task_id BRANCH reservation_key (JObj []) mutate_branch.

Definition release_branch_slot (task_id reservation_key : string) : MwrRequest :=
  plain_request task_id RELEASE_BRANCH reservation_key (JObj []) mutate_release_branch.

(** ** Initialisation, close, staged resume capacity *)

Definition get_budget (db : AgentDB) (task_id : string)
    : result TBError (option TaskBudget) :=
  match get_task_budget db task_id with
  | None => Ok None
  | Some rec => budget ← budget_from_record rec; mret (Some budget)
  end.

(** The transaction of [ensure_budget]. *)
Definition ensure_budget_tx (db : AgentDB) (task_id : string) (l : TaskBudgetLimits)
    (p : TaskBudgetPolicy) : result TBError (AgentDB * TaskBudget) :=
  let fingerprint := task_budget_policy_fingerprint l p in
  match get_task_budget db task_id with
  | Some existing =>
      budget ← budget_from_record existing;
      _ ← require_same_policy budget p fingerprint;
      mret (db, budget)
  | None =>
      match get_task db task_id with
      | None => Err TaskBudgetRequired
      | Some task =>
          _ ← guard_err (negb (bool_decide (t_status task = "COMPLETED") ||
                               bool_decide (t_status task = "CANCELLED")))
                TaskBudgetClosed;
          _ ← guard_err (negb (has_execution_for_task db task_id))
                TaskBudgetLegacyUninitialized;
          saved ← lift_store (save_task_budget db
                    (new_budget_values task_id l p fingerprint));
          budget ← budget_from_record (snd saved);
          mret (fst saved, budget)
      end
  end.

(** The handler of [IntegrityError]: reload the winner of a concurrent
    initialisation. *)
Definition ensure_budget_reload (db : AgentDB) (task_id : string)
    (l : TaskBudgetLimits) (p : TaskBudgetPolicy) : result TBError TaskBudget :=
  match get_task_budget db task_id with
  | None => Err (TaskBudgetConflict "Concurrent TaskBudget initialization lost")
  | Some existing =>
      budget ← budget_from_record existing;
      _ ← require_same_policy budget p (task_budget_policy_fingerprint l p);
      mret budget
  end.

(** [ensure_budget] when nothing interleaves between its two transactions. *)
Definition ensure_budget (db : AgentDB) (task_id : string) (l : TaskBudgetLimits)
    (p : TaskBudgetPolicy) : AgentDB * result TBError TaskBudget :=
  match ensure_budget_tx db task_id l p with
  | Ok (db', budget) => (db', Ok budget)
  | Err (StoreFailure IntegrityError) => (db, ensure_budget_reload db task_id l p)
  | Err e => (db, Err e)
  end.

(** One attempt of [close]: [None] when the compare-and-set lost. *)
Definition close_attempt (snapshot db : AgentDB) (task_id : string) (now : Z)
    : result TBError (option (AgentDB * TaskBudget)) :=
  match get_task_budget snapshot task_id with
  | None => Err TaskBudgetRequired
  | Some rec =>
      budget ← budget_from_record rec;
      match tb_state budget with
      | CLOSED => mret (Some (db, budget))
      | OPEN =>
          cas ← lift_store (compare_and_set_task_budget db task_id (tb_revision budget)
                  [SetState CLOSED; SetClosedAt (Some now)] (Some (row_generation rec)));
          match cas with
          | (_, None) => Ok None
          | (db', Some updated) =>
              result ← budget_from_record updated; mret (Some (db', result))
          end
      end
  end.

(** Resume capacity staged inside the caller's transaction. *)
Definition prepare_resume_capacity_in_uow (db : AgentDB) (task_id execution_id : string)
    (source_revision : Z) (delegated : bool) : result TBError (AgentDB * TaskBudget) :=
  _ ← guard_err (0 <=? source_revision)
        (ValueError "source_revision must be non-negative");
  match get_task db task_id with
  | None => Err TaskBudgetRequired
  | Some task =>
      _ ← guard_err (negb (bool_decide (t_status task ∈ ["COMPLETED"; "FAILED"; "CANCELLED"])))
            TaskBudgetClosed;
      match get_task_budget db task_id with
      | None => Err (missing_budget db task_id)
      | Some rec =>
          budget ← budget_from_record rec;
          let generation := row_generation rec in
          _ ← guard_err (bool_decide (tb_state budget = OPEN)) TaskBudgetClosed;
          let key := revision_key execution_id source_revision in
          let payload := JObj [("execution_id", JStr execution_id);
                               ("source_revision", JInt source_revision);
                               ("delegated", JBool delegated)] in
          let fingerprint := reservation_fingerprint RESUME_EXECUTION key payload in
          match get_task_budget_reservation db task_id RESUME_EXECUTION key
                  (Some generation) with
          | Some existing =>
              if bool_decide (res_fingerprint existing = fingerprint) then
                Err (TaskBudgetConflict
                  "resume capacity reservation already exists before execution claim")
              else
                Err (TaskBudgetConflict
                  "resume reservation_key was reused with a different payload")
          | None =>
              _ ← require_active_capacity delegated budget;
              let c := tb_counters budget in
              cas ← lift_store (compare_and_set_task_budget db task_id
                      (tb_revision budget)
                      [SetActiveExecutions (active_executions c + 1);
                       SetActiveParallelAgents (bump_if delegated (active_parallel_agents c))]
                      (Some generation));
              match cas with
              | (_, None) => Err (TaskBudgetConflict "Stale TaskBudget revision during resume")
              | (db1, Some updated) =>
                  db2 ← lift_store (save_task_budget_reservation db1 task_id
                          RESUME_EXECUTION key fingerprint (Some generation));
                  result ← budget_from_record updated;
                  mret (db2, result)
              end
          end
      end
  end.
