(* ===== verification/TaskBudgetLaws.v ===== *)
(** * What the budget operations promise the reservation loop

    [BudgetRequest] is the interface between the operations of the TaskBudgetService
    and the loop that runs them: the side effect stays off the budget and reservation
    tables, a replay's verification accepts what the side effect left, and a charge moves the counters by exactly the amount its reservation kind
    stands for.  Each operation discharges the interface with an
    instance; the theorems on the loop are proved against it. *)

From S2P Require Import Prelude Canonical TaskBudgetSchema AgentStore TaskBudgetService.

(** ** The charge of a reservation kind *)

Definition d_used_executions (k : TaskBudgetReservationKind) : Z :=
  match k with NEW_EXECUTION => 1 | _ => 0 end.

Definition d_active_executions (k : TaskBudgetReservationKind) : Z :=
  match k with
  | NEW_EXECUTION | RESUME_EXECUTION => 1
  | RELEASE_EXECUTION => -1
  | _ => 0
  end.

Definition d_active_branches (k : TaskBudgetReservationKind) : Z :=
  match k with BRANCH => 1 | RELEASE_BRANCH => -1 | _ => 0 end.

Definition d_inference (k : TaskBudgetReservationKind) : Z :=
  match k with INFERENCE => 1 | _ => 0 end.

(** The counters after a charge of kind [k].  With the user inference quota
    enabled the inference counter is a saturated compatibility counter. *)
Record charged (cfg : ServiceConfig) (k : TaskBudgetReservationKind)
    (c c' : Counters) : Prop := {
  ch_used : used_executions c' = used_executions c + d_used_executions k;
  ch_active : active_executions c' = active_executions c + d_active_executions k;
  ch_branches : active_branches c' = active_branches c + d_active_branches k;
  ch_inference : cfg_user_inference_quota_enabled cfg = false ->
    used_inference_calls c' = used_inference_calls c + d_inference k
}.

Definition apply_to_budget (b : TaskBudget) (vals : BudgetValues) : TaskBudget :=
  fold_left apply_field vals b.

Class BudgetRequest (cfg : ServiceConfig) (q : MwrRequest) : Prop := {
  side_effect_frame : forall db db', q_side_effect q db = Ok db' ->
    db_budgets db' = db_budgets db /\ db_reservations db' = db_reservations db /\
    db_bindings db' = db_bindings db /\ db_allocator db' = db_allocator db;
  side_effect_verified : forall db db' db'', q_side_effect q db = Ok db' ->
    db_executions db'' = db_executions db' -> db_branches db'' = db_branches db' ->
    q_verify_idempotent q db'' = Ok tt;
  mutate_charged : forall b vals, q_mutate q b = Ok vals ->
    charged cfg (q_kind q) (tb_counters b) (tb_counters (apply_to_budget b vals))
}.

(** ** Helper lemmas *)

Lemma require_open_ok b : require_open b = Ok tt -> tb_state b = OPEN.
Proof. unfold require_open. by destruct (tb_state b). Qed.

Ltac inv_result :=
  repeat match goal with
  | H : (guard_err _ _ ≫= _) = Ok _ |- _ => apply guard_bind_ok in H as [? H]
  | H : guard_err ?b _ = Ok _ |- _ =>
      let E := fresh "E" in
      assert (b = true) as E by (unfold guard_err in H; destruct b; [done|discriminate]);
      clear H
  | H : (lift_store _ ≫= _) = Ok _ |- _ =>
      let x := fresh "x" in let Hx := fresh "Hx" in apply bind_ok in H as (x & Hx & H)
  | H : (_ ≫= _) = Ok _ |- _ =>
      let x := fresh "x" in let Hx := fresh "Hx" in apply bind_ok in H as (x & Hx & H)
  | H : mret _ = Ok _ |- _ => apply (f_equal (fun r =>
      match r with Ok a => Some a | Err _ => None end)) in H; simpl in H
  | H : Some _ = Some _ |- _ => injection H as H; try subst
  | u : unit |- _ => destruct u
  | H : require_open _ = Ok tt |- _ => apply require_open_ok in H
  end.

Lemma require_active_capacity_ok d b :
  require_active_capacity d b = Ok tt ->
  active_executions (tb_counters b) < max_active_executions (tb_limits b) /\
  (d = true -> active_parallel_agents (tb_counters b) < max_parallel_agents (tb_limits b)).
Proof.
  unfold require_active_capacity. intros H. inv_result.
  split; [breflect; lia|]. intros ->. simpl in *. breflect. lia.
Qed.

(** The validity conditions as propositions. *)
Record budget_ok (b : TaskBudget) : Prop := {
  ok_revision : 0 <= tb_revision b;
  ok_limits : limits_valid (tb_limits b) = true;
  ok_version : version_valid (tb_policy_version b) = true;
  ok_fingerprint : fingerprint_valid (tb_policy_fingerprint b) = true;
  ok_nonneg : counters_nonneg (tb_counters b) = true;
  ok_bounded : counters_bounded (tb_limits b) (tb_counters b) = true;
  ok_closed : closed_at_matches (tb_state b) (tb_closed_at b) = true
}.

Lemma budget_valid_ok b : budget_valid b = true <-> budget_ok b.
Proof.
  unfold budget_valid. split.
  - intros H. breflect. done.
  - intros [H1 H2 H3 H4 H5 H6 H7]. apply Z.leb_le in H1. by rw H1 H2 H3 H4 H5 H6 H7.
Qed.

Lemma budget_ok_counters b :
  budget_ok b ->
  let c := tb_counters b in let l := tb_limits b in
  (0 <= used_executions c /\ 0 <= active_executions c /\ 0 <= active_branches c /\
   0 <= active_parallel_agents c /\ 0 <= used_tool_calls c /\
   0 <= used_inference_calls c /\ 0 <= used_tokens c /\ 0 <= used_cost c) /\
  (active_executions c <= used_executions c /\
   used_executions c <= max_total_executions l /\
   active_executions c <= max_active_executions l /\
   active_parallel_agents c <= active_executions c /\
   active_parallel_agents c <= max_parallel_agents l /\
   active_branches c <= max_active_branches l /\
   used_tool_calls c <= max_total_tool_calls l /\
   used_inference_calls c <= max_total_inference_calls l) /\
  (0 < max_total_inference_calls l /\ 0 < max_total_tool_calls l).
Proof.
  intros [_ Hl _ _ Hn Hb _]. unfold counters_nonneg, counters_bounded, limits_valid in *.
  breflect. simpl. lia.
Qed.

(** ** The charge of each mutation *)

Section Charges.
Context (cfg : ServiceConfig).
Implicit Types (b : TaskBudget) (vals : BudgetValues).

Definition charges (k : TaskBudgetReservationKind)
    (mutate : TaskBudget -> result TBError BudgetValues) : Prop :=
  forall b vals, mutate b = Ok vals ->
    charged cfg k (tb_counters b) (tb_counters (apply_to_budget b vals)).

Ltac solve_charges mutate :=
  let b := fresh "b" in let vals := fresh "vals" in let H := fresh "H" in
  intros b vals H; unfold mutate in H; inv_result;
  destruct b as [? ? ? [] ? ? ? [] ?]; split; simpl; intros; try congruence; lia.

Lemma mutate_new_execution_charges d depth :
  charges NEW_EXECUTION (mutate_new_execution d depth).
Proof. solve_charges mutate_new_execution. Qed.

Lemma mutate_resume_charges d : charges RESUME_EXECUTION (mutate_resume d).
Proof. solve_charges mutate_resume. Qed.

Lemma mutate_release_charges d : charges RELEASE_EXECUTION (mutate_release d).
Proof. solve_charges mutate_release. Qed.

Lemma mutate_tool_calls_charges n : charges TOOL_CALL (mutate_tool_calls n).
Proof. solve_charges mutate_tool_calls. Qed.

Lemma mutate_inference_charges : charges INFERENCE (mutate_inference cfg).
Proof.
  intros b vals H. unfold mutate_inference in H. inv_result.
  destruct (cfg_user_inference_quota_enabled cfg) eqn:E; inv_result;
    destruct b as [? ? ? [] ? ? ? [] ?]; split; simpl; intros; try congruence; lia.
Qed.

Lemma mutate_usage_charges t c : charges USAGE (mutate_usage t c).
Proof. solve_charges mutate_usage. Qed.

Lemma mutate_branch_charges : charges BRANCH mutate_branch.
Proof. solve_charges mutate_branch. Qed.

Lemma mutate_release_branch_charges : charges RELEASE_BRANCH mutate_release_branch.
Proof. solve_charges mutate_release_branch. Qed.

(** ** Instances: the operations discharge the interface *)

Lemma no_side_effect_frame db db' :
  no_side_effect db = Ok db' ->
  db_budgets db' = db_budgets db /\ db_reservations db' = db_reservations db /\
  db_bindings db' = db_bindings db /\ db_allocator db' = db_allocator db.
Proof. unfold no_side_effect. naive_solver. Qed.

Lemma new_execution_side_effect_ok t row db db' :
  new_execution_side_effect t row db = Ok db' ->
  db_executions db !! e_id row = None /\
  db' = with_executions db (<[e_id row := row]> (db_executions db)).
Proof.
  unfold new_execution_side_effect. intros H. inv_result.
  unfold lift_store in H. destruct (save_execution db row) eqn:E; [|done].
  apply save_execution_ok in E as (? & ? & ->). by simplify_eq.
Qed.

Lemma validate_delegated_branch_ext t row db db' :
  (forall p e, get_execution db p = Some e -> get_execution db' p = Some e) ->
  db_branches db' = db_branches db ->
  validate_delegated_branch t row db = Ok tt -> validate_delegated_branch t row db' = Ok tt.
Proof.
  intros He Hb. unfold validate_delegated_branch, get_task_branch.
  destruct (e_parent_execution_id row) as [p|]; [|done]. intros H.
  apply guard_bind_ok in H as [-> H]. apply guard_bind_ok in H as [Hbr H]. simpl.
  rw Hb Hbr /=. destruct (get_execution db p) as [e|] eqn:E; [|done]. by rw (He p e E).
Qed.

(** What [reserve_new_execution] stored passes the verification of a replay. *)
Lemma new_execution_verified t row db db' db'' :
  e_task_id row = Some t ->
  new_execution_side_effect t row db = Ok db' ->
  db_executions db'' = db_executions db' -> db_branches db'' = db_branches db' ->
  new_execution_verify t row db'' = Ok tt.
Proof.
  intros Ht Hs He Hb. pose proof Hs as Hs'.
  apply new_execution_side_effect_ok in Hs as (Hn & ->). simpl in He, Hb.
  unfold new_execution_side_effect in Hs'. apply bind_ok in Hs' as ([] & Hv & _).
  unfold new_execution_verify. rw (validate_delegated_branch_ext t row db db''); [|done..|].
  - intros p e. unfold get_execution. rw He. intros Hp. rw lookup_insert_ne; congruence.
  - simpl. unfold get_execution. rw He lookup_insert_eq Ht.
    rw (bool_decide_true (Some t = _)) // (bool_decide_true (e_branch_id row = _)) //.
    by rw orb_true_r.
Qed.

#[export] Instance plain_request_lawful t k key payload m :
  charges k m -> BudgetRequest cfg (plain_request t k key payload m).
Proof. intros Hm. split; [apply no_side_effect_frame|done|apply Hm]. Qed.

#[export] Instance recovery_request_lawful t k key payload m ra :
  charges k m -> BudgetRequest cfg (recovery_request t k key payload m ra).
Proof. intros Hm. split; [apply no_side_effect_frame|done|apply Hm]. Qed.

Lemma reserve_new_execution_lawful t x row depth q :
  reserve_new_execution t x row depth = Ok q -> BudgetRequest cfg q.
Proof.
  unfold reserve_new_execution. intros H. inv_result. split; simpl.
  - intros db db' Hs. apply new_execution_side_effect_ok in Hs as (_ & ->). done.
  - breflect. intros db db' db''. by apply new_execution_verified.
  - apply mutate_new_execution_charges.
Qed.

Lemma reserve_resume_slot_lawful t x rev d q :
  reserve_resume_slot t x rev d = Ok q -> BudgetRequest cfg q.
Proof.
  unfold reserve_resume_slot. intros H. inv_result.
  apply plain_request_lawful, mutate_resume_charges.
Qed.

Lemma release_active_execution_lawful t x rev d q :
  release_active_execution t x rev d = Ok q -> BudgetRequest cfg q.
Proof.
  unfold release_active_execution. intros H. inv_result.
  apply plain_request_lawful, mutate_release_charges.
Qed.

Lemma reserve_tool_calls_lawful pf t key n q :
  reserve_tool_calls cfg pf t key n = Ok q -> BudgetRequest cfg q.
Proof.
  unfold reserve_tool_calls. intros H. inv_result.
  split; [apply no_side_effect_frame|done|apply mutate_tool_calls_charges].
Qed.

Lemma inference_route_lawful pf t k key payload m ra q :
  charges k m ->
  inference_route cfg pf t k key payload m ra = Ok (RouteReservation q) ->
  BudgetRequest cfg q.
Proof.
  intros Hm. unfold inference_route. destruct (_ || _); intros H.
  - inv_result. simplify_eq. by apply recovery_request_lawful.
  - inv_result. unfold mutate_resource_with_reservation in *.
    destruct (fst pf); simplify_eq. split; [apply no_side_effect_frame|done|apply Hm].
Qed.

Lemma reserve_inference_lawful pf t r ra q :
  reserve_inference cfg pf t r ra = Ok (RouteReservation q) -> BudgetRequest cfg q.
Proof. apply inference_route_lawful, mutate_inference_charges. Qed.

Lemma account_usage_lawful pf t key n cost ra q :
  account_usage cfg pf t key n cost ra = Ok (RouteReservation q) -> BudgetRequest cfg q.
Proof.
  unfold account_usage. intros H. inv_result.
  eapply inference_route_lawful; [|done]. apply mutate_usage_charges.
Qed.

#[export] Instance reserve_branch_slot_lawful t key :
  BudgetRequest cfg (reserve_branch_slot t key).
Proof. apply plain_request_lawful, mutate_branch_charges. Qed.

#[export] Instance release_branch_slot_lawful t key :
  BudgetRequest cfg (release_branch_slot t key).
Proof. apply plain_request_lawful, mutate_release_branch_charges. Qed.
End Charges.
