(* ===== verification/TaskBudgetConcurrency.v ===== *)
(** * Concurrent budget reservations

    Workers run the reservation loop of [TaskBudgetService] against one database; any
    interleaving of their database interactions, faults (uncertain commits among them) and
    clock readings is a [world_step].  The other writers of the budget tables may do what
    [other_write] admits: raise the revision of a row with each change of it, store any
    number of reservations, give capacity back without one, open budgets at fresh
    generations and delete budgets with their reservations.  What they may not do is use an
    execution or an inference call, or occupy capacity, without storing its reservation.
    The file TaskBudgetWriters shows it of the transactions of the program.

    Results: what a worker commits is exactly what the call would have done as one
    isolated transaction on the database at its commit ([mwr_atomic]); and in every
    reachable world the counters of a budget account for its reservations. *)

From S2P Require Import Prelude Canonical TaskBudgetSchema AgentStore TaskBudgetService.
From S2P Require Import TaskBudgetLaws.

(** ** The transactions of the reservation loop *)

Definition row_counters (r : BudgetRow) : Counters := tb_counters (row_budget r).
Definition row_revision (r : BudgetRow) : Z := tb_revision (row_budget r).
Definition next_generation (db : AgentDB) : Z := default 1 (db_allocator db).

Inductive budget_txn (cfg : ServiceConfig) (db db' : AgentDB) : Prop :=
  | txn_charge t k key r r' res
      (Hr : db_budgets db !! t = Some r)
      (Hfresh : db_reservations db !! (t, k, key) = None)
      (Hgen : row_generation r' = row_generation r)
      (Hrev : row_revision r' = row_revision r + 1)
      (Hres : res_generation res = row_generation r)
      (Hch : charged cfg k (row_counters r) (row_counters r'))
      (Hck : row_checks r' = true)
      (Hb : db_budgets db' = <[t := r']> (db_budgets db))
      (Hrs : db_reservations db' = <[(t, k, key) := res]> (db_reservations db))
      (Hal : db_allocator db' = db_allocator db)
  | txn_touch t r r'
      (Hr : db_budgets db !! t = Some r)
      (Hgen : row_generation r' = row_generation r)
      (Hrev : row_revision r' = row_revision r + 1)
      (Hc : row_counters r' = row_counters r)
      (Hck : row_checks r' = true)
      (Hb : db_budgets db' = <[t := r']> (db_budgets db))
      (Hrs : db_reservations db' = db_reservations db)
      (Hal : db_allocator db' = db_allocator db)
  | txn_open t r'
      (Hr : db_budgets db !! t = None)
      (Hgen : row_generation r' = next_generation db)
      (Hc : row_counters r' = zero_counters)
      (Hck : row_checks r' = true)
      (Hb : db_budgets db' = <[t := r']> (db_budgets db))
      (Hrs : db_reservations db' = db_reservations db)
      (Hal : db_allocator db' = Some (row_generation r' + 1))
  | txn_frame
      (Hb : db_budgets db' = db_budgets db)
      (Hrs : db_reservations db' = db_reservations db)
      (Hal : db_allocator db' = db_allocator db).

(** ** Accounting *)

Definition res_of (t : string) (k : TaskBudgetReservationKind)
    (kv : ReservationKey * ReservationRow) : Prop := fst (fst kv) = (t, k).

#[global] Instance res_of_dec t k kv : Decision (res_of t k kv).
Proof. unfold res_of. apply _. Defined.

(** How many reservations of kind [k] the task holds. *)
Definition res_count (db : AgentDB) (t : string) (k : TaskBudgetReservationKind) : Z :=
  Z.of_nat (size (filter (res_of t k) (db_reservations db))).

(** The executions and branches that the reservations of a task leave active. *)
Definition held_executions (db : AgentDB) (t : string) : Z :=
  res_count db t NEW_EXECUTION + res_count db t RESUME_EXECUTION - res_count db t RELEASE_EXECUTION.
Definition held_branches (db : AgentDB) (t : string) : Z :=
  res_count db t BRANCH - res_count db t RELEASE_BRANCH.

(** What was used is what was reserved; what is active was reserved and not released. *)
Record accounted (cfg : ServiceConfig) (db : AgentDB) (t : string) (c : Counters)
    : Prop := {
  acc_used : used_executions c = res_count db t NEW_EXECUTION;
  acc_active : active_executions c <= held_executions db t;
  acc_branches : active_branches c <= held_branches db t;
  acc_inference : cfg_user_inference_quota_enabled cfg = false ->
    used_inference_calls c = res_count db t INFERENCE
}.

(** The counters moved by what the new reservations stand for, or less where capacity was
    given back without a reservation. *)
Record settles (cfg : ServiceConfig) (db db' : AgentDB) (t : string) (c c' : Counters)
    : Prop := {
  st_used : used_executions c' - used_executions c =
    res_count db' t NEW_EXECUTION - res_count db t NEW_EXECUTION;
  st_active : active_executions c' - active_executions c <=
    held_executions db' t - held_executions db t;
  st_branches : active_branches c' - active_branches c <=
    held_branches db' t - held_branches db t;
  st_inference : cfg_user_inference_quota_enabled cfg = false ->
    used_inference_calls c' - used_inference_calls c =
    res_count db' t INFERENCE - res_count db t INFERENCE
}.

(** ** The write discipline *)

Definition same_reservations (db db' : AgentDB) (t : string) : Prop :=
  forall k key, db_reservations db' !! (t, k, key) = db_reservations db !! (t, k, key).

(** A row after a transaction: untouched, changed at a later revision, or newly opened. *)
Inductive row_written (cfg : ServiceConfig) (db db' : AgentDB) (t : string) (r' : BudgetRow)
    : Prop :=
  | row_kept (Hr : db_budgets db !! t = Some r') (Hs : same_reservations db db' t)
  | row_changed r (Hr : db_budgets db !! t = Some r)
      (Hgen : row_generation r' = row_generation r)
      (Hrev : row_revision r < row_revision r')
      (Hs : settles cfg db db' t (row_counters r) (row_counters r'))
  | row_opened (Hgen : next_generation db <= row_generation r')
      (Hc : row_counters r' = zero_counters)
      (Hn : forall k key, db_reservations db' !! (t, k, key) = None).

Record other_write (cfg : ServiceConfig) (db db' : AgentDB) : Prop := {
  ow_row : forall t r', db_budgets db' !! t = Some r' ->
    row_checks r' = true /\ row_generation r' < next_generation db' /\
    row_written cfg db db' t r';
  ow_allocator : next_generation db <= next_generation db';
  ow_reservation : forall t k key res, db_reservations db' !! (t, k, key) = Some res ->
    exists r', db_budgets db' !! t = Some r' /\ res_generation res = row_generation r'
}.

(** ** Worlds *)

Record World := {
  w_db : AgentDB;
  w_procs : gmap nat (MwrRequest * MwrPc)
}.

Inductive world_step (cfg : ServiceConfig) (w : World) : World -> Prop :=
  | WCall i q :
      w_procs w !! i = None -> BudgetRequest cfg q ->
      world_step cfg w
        {| w_db := w_db w; w_procs := <[i := (q, mwr_start q)]> (w_procs w) |}
  | WStep i q pc now fault pc' db' :
      w_procs w !! i = Some (q, pc) ->
      mwr_step cfg q now fault pc (w_db w) = (pc', db') ->
      world_step cfg w {| w_db := db'; w_procs := <[i := (q, pc')]> (w_procs w) |}
  | WReturn i q r :
      w_procs w !! i = Some (q, MDone r) ->
      world_step cfg w {| w_db := w_db w; w_procs := delete i (w_procs w) |}
  | WEnv db' :
      other_write cfg (w_db w) db' ->
      world_step cfg w {| w_db := db'; w_procs := w_procs w |}.

(** The database invariant: rows satisfy their constraints, are older than the next
    generation and account for their reservations, and a reservation belongs to its
    task's current incarnation. *)
Record db_inv (cfg : ServiceConfig) (db : AgentDB) : Prop := {
  inv_checks : forall t r, db_budgets db !! t = Some r -> row_checks r = true;
  inv_generation : forall t r, db_budgets db !! t = Some r -> row_generation r < next_generation db;
  inv_accounted : forall t r, db_budgets db !! t = Some r ->
    accounted cfg db t (row_counters r);
  inv_reservation : forall t k key res, db_reservations db !! (t, k, key) = Some res ->
    exists r, db_budgets db !! t = Some r /\ res_generation res = row_generation r
}.

(** ** History of a row a worker has read *)

(** The row [rec] was read for task [t] earlier: the current row is of the same
    incarnation, not older, and identical when the revision is the same. *)
Definition rec_hist (db : AgentDB) (t : string) (rec : BudgetRow) : Prop :=
  exists r, db_budgets db !! t = Some r /\ row_generation r = row_generation rec /\
    row_revision rec <= row_revision r /\ (row_revision r = row_revision rec -> r = rec).

(** The same, when the budget may have been deleted or replaced by a later incarnation. *)
Definition rec_seen (db : AgentDB) (t : string) (rec : BudgetRow) : Prop :=
  row_generation rec < next_generation db /\
  forall r, db_budgets db !! t = Some r -> row_generation r = row_generation rec ->
    row_revision rec <= row_revision r /\ (row_revision r = row_revision rec -> r = rec).

Definition pc_ok (db : AgentDB) (q : MwrRequest) (pc : MwrPc) : Prop :=
  match pc with
  | MLookup _ g rec _ => row_generation rec = g /\ rec_seen db (q_task_id q) rec
  | MWrite _ g rec vals =>
      row_generation rec = g /\ rec_seen db (q_task_id q) rec /\
      exists b, budget_from_record rec = Ok b /\ q_mutate q b = Ok vals
  | _ => True
  end.

Definition world_inv (cfg : ServiceConfig) (w : World) : Prop :=
  db_inv cfg (w_db w) /\
  forall i q pc, w_procs w !! i = Some (q, pc) ->
    BudgetRequest cfg q /\ pc_ok (w_db w) q pc.

(** ** Lemmas: counting reservations *)

Lemma res_count_ext db db' :
  db_reservations db' = db_reservations db -> res_count db' = res_count db.
Proof. intros H. unfold res_count. by rw H. Qed.

Lemma res_count_insert db db' t k key res t' k' :
  db_reservations db !! (t, k, key) = None ->
  db_reservations db' = <[(t, k, key) := res]> (db_reservations db) ->
  res_count db' t' k' =
  res_count db t' k' + (if decide ((t, k) = (t', k')) then 1 else 0).
Proof.
  intros Hf H. unfold res_count. rw H. case_decide as E.
  - rw (map_filter_insert_True (res_of t' k')); [done|].
    rw map_size_insert_None; [|lia]. apply map_lookup_filter_None. by left.
  - rw (map_filter_insert_not (res_of t' k')); [|lia]. intros y Hy. by apply E.
Qed.

Lemma res_count_zero db t k :
  (forall key, db_reservations db !! (t, k, key) = None) -> res_count db t k = 0.
Proof.
  intros H. unfold res_count.
  assert (filter (res_of t k) (db_reservations db) = ∅) as ->; [|done].
  apply map_empty. intros i. apply map_lookup_filter_None. right.
  destruct i as [[t' k'] key]. intros res Hl E. injection E as -> ->. by rw H in Hl.
Qed.

Lemma res_count_same db db' t k : same_reservations db db' t -> res_count db' t k = res_count db t k.
Proof.
  intros H. unfold res_count. f_equal.
  assert (filter (res_of t k) (db_reservations db') = filter (res_of t k) (db_reservations db)) as ->; [|done].
  apply map_eq. intros [[t' k'] key]. apply option_eq. intros res. rw !map_lookup_filter_Some.
  unfold res_of. simpl. split; intros [H1 [= -> ->]]; split; [|done| |done].
  - by rw -H.
  - by rw H.
Qed.

(** ** The discipline preserves the database invariant *)

Lemma accounted_settles cfg db db' t c c' :
  settles cfg db db' t c c' -> accounted cfg db t c -> accounted cfg db' t c'.
Proof. intros [S1 S2 S3 S4] [A1 A2 A3 A4]. split; [lia|lia|lia|]. intros Hq. specialize (S4 Hq). specialize (A4 Hq). lia. Qed.

Lemma settles_same cfg db db' t c : same_reservations db db' t -> settles cfg db db' t c c.
Proof. intros H. split; unfold held_executions, held_branches; rw !(res_count_same db db' t) //; lia. Qed.

Lemma accounted_none cfg db t :
  (forall k key, db_reservations db !! (t, k, key) = None) -> accounted cfg db t zero_counters.
Proof.
  intros H. split; unfold held_executions, held_branches; rw ?(res_count_zero db t) //;
    intros; apply H.
Qed.

Lemma other_write_inv cfg db db' : db_inv cfg db -> other_write cfg db db' -> db_inv cfg db'.
Proof.
  intros [_ _ Ha _] [Hr _ Hs]. split; [| | |done].
  1-2: intros t r H; by apply (Hr t r).
  intros t r H. destruct (Hr t r H) as (_ & _ & [Hr0 Hsame|r0 Hr0 _ _ Hst|_ Hc Hn]).
  - eapply accounted_settles; [by apply settles_same|by apply Ha].
  - eapply accounted_settles; [done|by apply Ha].
  - rw Hc. by apply accounted_none.
Qed.

(** A charge moves the counters by the reservation it stores. *)
Lemma charged_settles cfg db db' t k key res c c' :
  db_reservations db !! (t, k, key) = None ->
  db_reservations db' = <[(t, k, key) := res]> (db_reservations db) ->
  charged cfg k c c' -> settles cfg db db' t c c'.
Proof.
  intros Hf Hrs [C1 C2 C3 C4].
  assert (forall k', res_count db' t k' = res_count db t k' + if decide (k = k') then 1 else 0)
    as Hc.
  { intros k'. rw (res_count_insert db db' t k key res); [done..|].
    repeat case_decide; naive_solver. }
  split; unfold held_executions, held_branches; rw !Hc; destruct k; simpl in *; intros; try rw C4 //; lia.
Qed.

Lemma same_reservations_eq db db' t :
  db_reservations db' = db_reservations db -> same_reservations db db' t.
Proof. intros H k key. by rw H. Qed.

(** What the reservation loop commits is within the discipline. *)
Lemma budget_txn_write cfg db db' : db_inv cfg db -> budget_txn cfg db db' -> other_write cfg db db'.
Proof.
  intros [Hk Hg Ha Hr] Htxn.
  assert (next_generation db <= next_generation db') as Hal'.
  { destruct Htxn; unfold next_generation in *; rw Hal //; simpl; lia. }
  destruct Htxn.
  - split; [|done|].
    + intros t0 r0. rw Hb lookup_insert. case_decide as Hd; simplify_eq.
      * intros [= <-]. split; [done|]. split; [rw Hgen; eapply Z.lt_le_trans; [by apply (Hg t0)|done]|].
        eapply row_changed; [done|done|lia|by eapply charged_settles].
      * intros H0. split; [by apply (Hk t0)|]. split; [eapply Z.lt_le_trans; [by apply (Hg t0)|done]|].
        apply row_kept; [done|]. intros k0 key0. rw Hrs lookup_insert_ne //. naive_solver.
    + intros t0 k0 key0 res0. rw Hrs Hb !lookup_insert.
      repeat case_decide; simplify_eq; naive_solver congruence.
  - split; [|done|].
    + intros t0 r0. rw Hb lookup_insert. case_decide as Hd; simplify_eq.
      * intros [= <-]. split; [done|]. split; [rw Hgen; eapply Z.lt_le_trans; [by apply (Hg t0)|done]|].
        eapply row_changed; [done|done|lia|]. rw Hc. by apply settles_same, same_reservations_eq.
      * intros H0. split; [by apply (Hk t0)|]. split; [eapply Z.lt_le_trans; [by apply (Hg t0)|done]|].
        apply row_kept; [done|]. by apply same_reservations_eq.
    + intros t0 k0 key0 res0. rw Hrs Hb lookup_insert.
      case_decide; simplify_eq; naive_solver congruence.
  - split; [|done|].
    + intros t0 r0. rw Hb lookup_insert. case_decide as Hd; simplify_eq.
      * intros [= <-]. split; [done|]. split; [unfold next_generation; rw Hal; simpl; lia|].
        apply row_opened; [lia|done|]. intros k key. rw Hrs.
        destruct (db_reservations db !! _) eqn:E; [|done]. naive_solver congruence.
      * intros H0. split; [by apply (Hk t0)|]. split; [eapply Z.lt_le_trans; [by apply (Hg t0)|done]|].
        apply row_kept; [done|]. by apply same_reservations_eq.
    + intros t0 k0 key0 res0. rw Hrs Hb lookup_insert.
      case_decide; simplify_eq; naive_solver congruence.
  - split; [|done|].
    + intros t0 r0. rw Hb. intros H0. split; [by apply (Hk t0)|].
      split; [eapply Z.lt_le_trans; [by apply (Hg t0)|done]|].
      apply row_kept; [done|]. by apply same_reservations_eq.
    + intros t0 k0 key0 res0. rw Hrs Hb. apply Hr.
Qed.

(** ** What a worker has read stays meaningful under the others' steps *)

Lemma rec_hist_refl db t r : db_budgets db !! t = Some r -> rec_hist db t r.
Proof. intros H. exists r. split_and!; [done..|lia|done]. Qed.

Lemma rec_seen_refl cfg db t r : db_inv cfg db -> db_budgets db !! t = Some r -> rec_seen db t r.
Proof. intros [_ Hg _ _] H. split; [by apply (Hg t)|]. intros r' Hr' _. simplify_eq. split; [lia|done]. Qed.

Lemma rec_seen_write cfg db db' t rec :
  other_write cfg db db' -> rec_seen db t rec -> rec_seen db' t rec.
Proof.
  intros [Hr Ha _] [Hg Hs]. split; [lia|]. intros r' Hr' Hg'.
  destruct (Hr t r' Hr') as (_ & _ & [H0 _|r H0 Hgr Hlt _|Hf _ _]).
  - by apply Hs.
  - destruct (Hs r H0) as [Hle _]; [congruence|]. split; [lia|]. intros E. lia.
  - lia.
Qed.

Lemma pc_ok_write cfg db db' q pc : other_write cfg db db' -> pc_ok db q pc -> pc_ok db' q pc.
Proof.
  intros G. destruct pc as [| |a g rec vals| |]; simpl; try done.
  - intros [? ?]. split; [done|]. by eapply rec_seen_write.
  - intros (Hg & Hh & Hp). split_and!; [done|by eapply rec_seen_write|done].
Qed.

(** ** The commit of a worker *)

Lemma mwr_step_db cfg q now fault pc db pc' db' :
  mwr_step cfg q now fault pc db = (pc', db') ->
  db' = db \/
  exists a g rec vals b, pc = MWrite a g rec vals /\
    mwr_commit q db g rec vals = Ok (Some (db', b)) /\
    pc' = match fault with
          | Some f => raise_fault cfg (fault_kind f) a (Some g)
          | None => MDone (Ok b)
          end.
Proof.
  destruct pc as [a g|a g rec lk|a g rec vals|a g|r]; simpl; intros H.
  - left. repeat crush_step_in H; by simplify_eq.
  - left. repeat crush_step_in H; by simplify_eq.
  - destruct fault as [[f|f]|]; [left; by simplify_eq|..];
      (destruct (mwr_commit q db g rec vals) as [[[db1 b1]|]|[]] eqn:E;
       try (left; repeat crush_step_in H; by simplify_eq)); simplify_eq; right; naive_solver.
  - left. repeat crush_step_in H; by simplify_eq.
  - left. by simplify_eq.
Qed.

Lemma mwr_commit_ok cfg q db g rec vals db' b :
  BudgetRequest cfg q -> mwr_commit q db g rec vals = Ok (Some (db', b)) ->
  exists r, db_budgets db !! q_task_id q = Some r /\
    row_revision r = row_revision rec /\ row_generation r = g /\
    row_checks (apply_values r vals (row_revision r + 1)) = true /\
    db_reservations db !! (q_task_id q, q_kind q, q_reservation_key q) = None /\
    budget_from_record (apply_values r vals (row_revision r + 1)) = Ok b /\
    db_allocator db' = db_allocator db /\ db_budgets db' = <[q_task_id q := apply_values r vals (row_revision r + 1)]>
      (db_budgets db) /\
    db_reservations db' = <[(q_task_id q, q_kind q, q_reservation_key q) :=
      {| res_generation := g; res_fingerprint := q_fingerprint q |}]> (db_reservations db).
Proof.
  intros Hq. unfold mwr_commit. intros H. apply bind_ok in H as ([db1 cas] & Hcas & H).
  unfold lift_store in Hcas.
  destruct (compare_and_set_task_budget _ _ _ _ _) as [[dbx cx]|] eqn:E; simplify_eq.
  destruct cas as [upd|]; [|done]. apply cas_budget_some in E as
    (r & Hr & Hrev & Hgen & -> & Hck & ->).
  apply bind_ok in H as (db2 & Hse & H). apply bind_ok in H as (db3 & Hsv & H).
  apply bind_ok in H as (b' & Hb & H). injection H as -> ->.
  apply side_effect_frame in Hse as (F1 & F2 & _ & F3). simpl in F1, F2, F3.
  unfold lift_store in Hsv. destruct (save_task_budget_reservation _ _ _ _ _ _) eqn:Es;
    [|done]. injection Hsv as ->. apply save_reservation_ok in Es as (r2 & Hr2 & Hn & ->).
  rw F1 lookup_insert_eq in Hr2. injection Hr2 as <-. rw F2 in Hn.
  exists r. unfold row_revision. rw Hrev. simpl. rw F1 F2 F3. simpl in *. by rw -Hgen.
Qed.

Lemma apply_values_counters r vals n :
  row_counters (apply_values r vals n) =
  tb_counters (apply_to_budget (row_budget r) vals).
Proof. done. Qed.

Lemma budget_from_record_ok r b : budget_from_record r = Ok b -> b = row_budget r.
Proof. unfold budget_from_record. destruct (budget_valid _); naive_solver. Qed.

(** In a world where the worker's reads are meaningful, its compare-and-set can only
    win against the row it read, so the commit is one charge. *)
Lemma mwr_commit_txn cfg q db a g rec vals db' b :
  BudgetRequest cfg q -> pc_ok db q (MWrite a g rec vals) ->
  mwr_commit q db g rec vals = Ok (Some (db', b)) ->
  db_budgets db !! q_task_id q = Some rec /\ budget_txn cfg db db'.
Proof.
  intros Hq (Hg & [_ Hh] & (b0 & Hb0 & Hm)) Hc.
  destruct (mwr_commit_ok cfg _ _ _ _ _ _ _ Hq Hc) as
    (r & Hr & Hrev & Hgen & Hck & Hn & Hb & Hal & Hdb & Hrs).
  destruct (Hh r Hr) as [_ Heq]; [congruence|]. specialize (Heq Hrev). subst r. split; [done|].
  apply budget_from_record_ok in Hb0 as ->. rw -Hgen in Hrs.
  eapply (txn_charge cfg db db' (q_task_id q) (q_kind q) (q_reservation_key q) rec
    (apply_values rec vals (row_revision rec + 1)) {| res_generation := row_generation rec;
       res_fingerprint := q_fingerprint q |}); try done.
  rw apply_values_counters. by apply mutate_charged.
Qed.

(** ** The world invariant *)

Lemma mwr_begin_ok cfg q now db generation g rec lk :
  mwr_begin cfg q now db generation = Ok (g, rec, lk) ->
  db_budgets db !! q_task_id q = Some rec /\ row_generation rec = g /\
  generation_matches generation g = true.
Proof.
  unfold mwr_begin, get_task_budget. intros H. do 2 apply bind_ok in H as (? & _ & H).
  destruct (db_budgets db !! _) as [r|]; [|done].
  destruct generation as [g'|]; [destruct (_ =? _) eqn:E; [|done]|];
    simplify_eq; breflect; simpl; [rw Z.eqb_refl|]; done.
Qed.

Lemma mwr_plan_ok q now rec lk vals :
  mwr_plan q now rec lk = Ok vals ->
  exists b, budget_from_record rec = Ok b /\ q_mutate q b = Ok vals.
Proof.
  unfold mwr_plan. intros H. apply bind_ok in H as (b & ? & H).
  apply bind_ok in H as (v & ? & H). apply bind_ok in H as (? & _ & H).
  injection H as ->. eauto.
Qed.

Lemma next_attempt_ok cfg db q a g : pc_ok db q (next_attempt cfg a g).
Proof. unfold next_attempt. by destruct (_ <? _)%nat. Qed.

Lemma raise_fault_ok cfg db q f a g : pc_ok db q (raise_fault cfg f a g).
Proof. destruct f; [apply next_attempt_ok|done]. Qed.

Lemma pc_ok_step cfg q now fault pc db pc' :
  db_inv cfg db -> pc_ok db q pc -> mwr_step cfg q now fault pc db = (pc', db) -> pc_ok db q pc'.
Proof.
  destruct pc as [a g|a g rec lk|a g rec vals|a g|r]; simpl; intros Hi Hok H.
  - destruct fault; [injection H as <-; apply raise_fault_ok|].
    destruct (mwr_begin _ _ _ _ _) as [[[g' rec] lk]|] eqn:E; injection H as <-; [|done].
    apply mwr_begin_ok in E as (? & ? & _). split; [done|by eapply rec_seen_refl].
  - destruct fault; [injection H as <-; apply raise_fault_ok|].
    destruct (get_task_budget_reservation _ _ _ _ _); [injection H as <-; done|].
    destruct (mwr_plan _ _ _ _) as [vals|] eqn:E; injection H as <-; [|done].
    destruct Hok as [? ?]. split_and!; try done. by apply mwr_plan_ok in E.
  - destruct fault as [[f|f]|]; [injection H as <-; apply raise_fault_ok|..];
      (destruct (mwr_commit _ _ _ _ _) as [[[db1 b1]|]|[]];
       repeat crush_step_in H; simplify_eq; try done; try apply next_attempt_ok; apply raise_fault_ok).
  - destruct fault; [by injection H as <-|].
    destruct (load_idempotent _ _ _ _ _) as [[]|]; injection H as <-; try done. apply next_attempt_ok.
  - by injection H as <-.
Qed.

Lemma mwr_start_ok db q : pc_ok db q (mwr_start q).
Proof. unfold mwr_start. repeat case_match; done. Qed.

Lemma world_inv_write cfg w db' :
  world_inv cfg w -> other_write cfg (w_db w) db' ->
  world_inv cfg {| w_db := db'; w_procs := w_procs w |}.
Proof.
  intros [Hdb Hp] Ht. split; [by eapply other_write_inv|]. simpl. intros j q' pc' Hj.
  destruct (Hp _ _ _ Hj). split; [done|]. by eapply pc_ok_write.
Qed.

Lemma world_inv_step cfg w w' : world_inv cfg w -> world_step cfg w w' -> world_inv cfg w'.
Proof.
  intros Hw Hs. destruct Hs as [i q Hi Hq|i q pc now fault pc' db' Hi Hs|i q r Hi|db' Ht].
  - destruct Hw as [Hdb Hp]. split; [done|]. simpl. intros j q' pc'. rw lookup_insert.
    case_decide; [|by apply Hp]. intros [= <- <-]. split; [done|apply mwr_start_ok].
  - destruct Hw as [Hdb Hp]. destruct (Hp i q pc Hi) as [Hq Hpc].
    destruct (mwr_step_db cfg q now fault pc (w_db w) pc' db' Hs) as
      [->|(a & g & rec & vals & b & -> & Hc & Hpc')].
    + split; [done|]. simpl. intros j q' pc0. rw lookup_insert. case_decide; [|by apply Hp].
      intros [= <- <-]. split; [done|]. by eapply pc_ok_step.
    + destruct (mwr_commit_txn cfg _ _ _ _ _ _ _ _ Hq Hpc Hc) as [_ Ht].
      destruct (world_inv_write cfg w db' (conj Hdb Hp) (budget_txn_write _ _ _ Hdb Ht)) as [Hi' Hp'].
      split; [done|]. simpl. intros j q' pc0. rw lookup_insert. case_decide; [|by apply Hp'].
      intros [= <- <-]. split; [done|]. rw Hpc'. destruct fault; [apply raise_fault_ok|done].
  - destruct Hw as [Hdb Hp]. split; [done|]. simpl. intros j q' pc'. rw lookup_delete_Some.
    intros [_ Hj]. by apply (Hp j).
  - by apply world_inv_write.
Qed.

(** A world without calls over a consistent database. *)
Definition initial_world (cfg : ServiceConfig) (w : World) : Prop :=
  db_inv cfg (w_db w) /\ w_procs w = ∅.

Definition reachable (cfg : ServiceConfig) (w : World) : Prop :=
  exists w0, initial_world cfg w0 /\ rtc (world_step cfg) w0 w.

Lemma reachable_inv cfg w : reachable cfg w -> world_inv cfg w.
Proof.
  intros (w0 & [Hdb Hp] & Hr). eapply rtc_invariant; [apply world_inv_step| |done].
  split; [done|]. rw Hp. intros i q pc. by rw lookup_empty.
Qed.
