(* ===== verification/TaskBudgetProperties.v ===== *)
(** * TaskBudgetService: the properties of budget reservations

    The theorems on src/se/src/runtimes/agent/task_budget.py: calls are linearizable
    and charged once, counters account for reservations in every reachable world and
    stay within the limits, every call terminates, a call whose commit was not
    acknowledged is replayed and not charged again, and replays are idempotent. *)

From S2P Require Import Prelude Canonical TaskBudgetSchema AgentStore TaskBudgetService.
From S2P Require Import TaskBudgetLaws TaskBudgetConcurrency.

(** ** Traces of one call under an arbitrary environment *)

(** What the environment supplies to a step: the clock, a fault, and the database the
    other workers have left. *)
Abbreviation StepInput := (Z * option StepFault * AgentDB)%type.

(** The counter after the inputs, and the databases before and after each step. *)
Fixpoint mwr_trace (cfg : ServiceConfig) (q : MwrRequest) (pc : MwrPc)
    (env : list StepInput) : MwrPc * list (AgentDB * AgentDB) :=
  match env with
  | [] => (pc, [])
  | (now, fault, db) :: env' =>
      let (pc', db') := mwr_step cfg q now fault pc db in
      let (final, dbs) := mwr_trace cfg q pc' env' in
      (final, (db, db') :: dbs)
  end.

(** How many more interactions the loop can make. *)
Definition pc_measure (cfg : ServiceConfig) (pc : MwrPc) : nat :=
  match pc with
  | MBegin a _ => 4 * (attempts cfg - a)
  | MLookup a _ _ _ => 4 * (attempts cfg - a) - 1
  | MWrite a _ _ _ => 4 * (attempts cfg - a) - 2
  | MRecover a _ => 4 * (attempts cfg - a) - 3
  | MDone _ => 0
  end.

Definition pc_attempt_ok (cfg : ServiceConfig) (pc : MwrPc) : Prop :=
  match pc with
  | MBegin a _ | MLookup a _ _ _ | MWrite a _ _ _ | MRecover a _ =>
      (a < attempts cfg)%nat
  | MDone _ => True
  end.

(** ** A concrete world *)

Definition demo_cfg : ServiceConfig := {|
  cfg_max_conflict_retries := 3; cfg_dual_accounting := false;
  cfg_user_tool_quota_enabled := false; cfg_user_inference_quota_enabled := false |}.

Definition demo_limits : TaskBudgetLimits := {|
  max_total_executions := 2; max_active_executions := 2; max_active_branches := 2;
  max_parallel_agents := 1; max_total_tool_calls := 5; max_total_inference_calls := 5;
  max_delegation_depth := 3; max_total_tokens := Some 1000; max_total_cost := None |}.

Definition demo_policy : TaskBudgetPolicy :=
  {| pol_version := "v1"; pol_deny_recursive_agent_cycle := true |}.

Definition demo_task : TaskRow := {|
  t_id := "t"; t_status := "RUNNING"; t_wait_reasons := []; t_revision := 0;
  t_parent_task_id := None; t_task_horizon_at := None; t_review_horizon_at := None;
  t_payload := JNull |}.

Definition demo_execution (id : string) : ExecutionRow := {|
  e_id := id; e_agent_id := "agent"; e_task_id := Some "t"; e_branch_id := None;
  e_parent_execution_id := None; e_state := "RUNNING"; e_wait_reason := None;
  e_revision := 0; e_owner_instance_id := None; e_lease_expires_at := None;
  e_lease_generation := 0; e_current_checkpoint_id := None; e_wait_expires_at := None;
  e_completed_at := None; e_error := None; e_payload := JNull |}.

Definition empty_db : AgentDB := {|
  db_tasks := {["t" := demo_task]}; db_budgets := ∅; db_reservations := ∅;
  db_executions := ∅; db_branches := ∅; db_allocator := None; db_bindings := ∅ |}.

Definition demo_db : AgentDB := fst (ensure_budget empty_db "t" demo_limits demo_policy).

Definition ok_or {E A} (d : A) (r : result E A) : A :=
  match r with Ok a => a | Err _ => d end.

Definition demo_call : MwrRequest :=
  ok_or (reserve_branch_slot "t" "") (reserve_new_execution "t" "e1" (demo_execution "e1") 0).

(** One fault-free step of worker [i]. *)
Definition advance (cfg : ServiceConfig) (i : nat) (now : Z) (w : World) : World :=
  match w_procs w !! i with
  | Some (q, pc) =>
      let (pc', db') := mwr_step cfg q now None pc (w_db w) in
      {| w_db := db'; w_procs := <[i := (q, pc')]> (w_procs w) |}
  | None => w
  end.

Definition demo_world (n : nat) : World :=
  Nat.iter n (advance demo_cfg 0 100)
    {| w_db := demo_db; w_procs := {[0%nat := (demo_call, mwr_start demo_call)]} |}.

Definition demo_pc (n : nat) : MwrPc :=
  match w_procs (demo_world n) !! 0%nat with
  | Some (_, pc) => pc
  | None => MBegin 0 None
  end.

(** ** Lemmas *)

Lemma advance_rtc cfg i now w : rtc (world_step cfg) w (advance cfg i now w).
Proof.
  unfold advance. destruct (w_procs w !! i) as [[q pc]|] eqn:Hi; [|done].
  destruct (mwr_step _ _ _ _ _ _) as [pc' db'] eqn:Hs.
  apply rtc_once. by eapply WStep.
Qed.

(** The transaction of [ensure_budget] opens a budget or changes nothing. *)
Lemma ensure_budget_tx_txn cfg db t l p db' b :
  ensure_budget_tx db t l p = Ok (db', b) -> budget_txn cfg db db'.
Proof.
  unfold ensure_budget_tx, get_task_budget. intros H.
  destruct (db_budgets db !! t) as [r|] eqn:Er.
  - inv_result. simplify_eq. by apply txn_frame.
  - destruct (get_task db t); [|done]. inv_result.
    unfold lift_store in Hx. destruct (save_task_budget _ _) as [[d r]|] eqn:Es; [|done].
    injection Hx as <-. simpl. unfold save_task_budget in Es.
    destruct (ensure_task_budget_incarnation_allocator db) as [d0 g] eqn:Ea.
    assert (db_budgets d0 = db_budgets db /\ db_reservations d0 = db_reservations db /\
      g = next_generation db) as (F1 & F2 & F3).
    { unfold ensure_task_budget_incarnation_allocator in Ea. unfold next_generation.
      destruct (db_allocator db); by simplify_eq. }
    destruct (max_generation <=? g); [done|]. destruct (_ && _) eqn:Ec; [|done].
    simplify_eq. breflect.
    apply (txn_open _ _ _ t {| row_generation := next_generation db; row_budget :=
      new_budget_values t l p (task_budget_policy_fingerprint l p) |}); simpl; by rw ?F1 ?F2.
Qed.

Lemma ensure_budget_rtc cfg w t l p : db_inv cfg (w_db w) ->
  rtc (world_step cfg) w
    {| w_db := fst (ensure_budget (w_db w) t l p); w_procs := w_procs w |}.
Proof.
  intros Hi. unfold ensure_budget. destruct (ensure_budget_tx _ _ _ _) as [[db' b]|e] eqn:E; simpl.
  - apply rtc_once, WEnv, budget_txn_write; [done|]. by eapply ensure_budget_tx_txn.
  - destruct w as [db ps]; simpl. destruct e; try done. by destruct e.
Qed.

Lemma empty_db_inv cfg : db_inv cfg empty_db.
Proof. split; simpl; intros *; by rw lookup_empty. Qed.

Lemma demo_call_lawful : BudgetRequest demo_cfg demo_call.
Proof.
  apply (reserve_new_execution_lawful demo_cfg "t" "e1" (demo_execution "e1") 0).
  reflexivity.
Qed.

Lemma demo_reachable n : reachable demo_cfg (demo_world n).
Proof.
  exists {| w_db := empty_db; w_procs := ∅ |}. split; [split; [apply empty_db_inv|done]|].
  etrans; [apply (ensure_budget_rtc demo_cfg _ "t" demo_limits demo_policy), empty_db_inv|].
  eapply rtc_l; [apply (WCall demo_cfg _ 0 demo_call); [done|apply demo_call_lawful]|].
  induction n as [|n IH]; [done|]. etrans; [apply IH|apply advance_rtc].
Qed.

Lemma demo_proc n : w_procs (demo_world n) !! 0%nat = Some (demo_call, demo_pc n).
Proof.
  assert (exists pc, w_procs (demo_world n) !! 0%nat = Some (demo_call, pc)) as [pc Hpc].
  { induction n as [|n [pc IH]]; [by eexists|]. unfold demo_world in *. simpl.
    unfold advance at 1. rw IH. destruct (mwr_step _ _ _ _ _ _) as [pc' db']. simpl.
    rw lookup_insert_eq. eauto. }
  unfold demo_pc. by rw Hpc.
Qed.

Lemma get_reservation_some db t k key g res :
  get_task_budget_reservation db t k key (Some g) = Some res ->
  db_reservations db !! (t, k, key) = Some res /\ res_generation res = g.
Proof.
  unfold get_task_budget_reservation. intros H.
  destruct (db_reservations db !! _) as [r|]; [|done].
  destruct (generation_matches _ _) eqn:E; [|done]. simplify_eq. simpl in E. by breflect.
Qed.


(** The reservation of the call is in the database. *)
Definition reserved (q : MwrRequest) (db : AgentDB) : Prop :=
  exists res, db_reservations db !! (q_task_id q, q_kind q, q_reservation_key q) = Some res /\
    res_fingerprint res = q_fingerprint q.





Lemma commit_atomic cfg q db a g rec vals db' b :
  BudgetRequest cfg q -> pc_ok db q (MWrite a g rec vals) ->
  mwr_commit q db g rec vals = Ok (Some (db', b)) ->
  mwr_atomic q g db = Ok (db', b) /\
  db_reservations db !! (q_task_id q, q_kind q, q_reservation_key q) = None /\
  db_reservations db' = <[(q_task_id q, q_kind q, q_reservation_key q) :=
    {| res_generation := g; res_fingerprint := q_fingerprint q |}]> (db_reservations db).
Proof.
  intros Hq Hpc Hc. destruct (mwr_commit_txn cfg _ _ _ _ _ _ _ _ Hq Hpc Hc) as [Hrec _].
  destruct (mwr_commit_ok cfg _ _ _ _ _ _ _ Hq Hc) as (r & _ & _ & _ & _ & Hn & _ & _ & _ & Hrs).
  destruct Hpc as (Hg & _ & (b0 & Hb & Hm)). split; [|done].
  unfold mwr_atomic, get_task_budget. rw Hrec Hg Z.eqb_refl /=.
  unfold get_task_budget_reservation. rw Hn /= Hb /= Hm /= Hc //.
Qed.

(** ** Theorems *)

(** A run, its answer if it has one, and its database. *)
Definition run_answer (r : MwrPc * AgentDB) : option TaskBudget :=
  match fst r with MDone (Ok b) => Some b | _ => None end.

Lemma run_answer_some r b : run_answer r = Some b -> r = (MDone (Ok b), snd r).
Proof. destruct r as [[| | | |[]] ?]; unfold run_answer; simpl; congruence. Qed.





Definition demo_row : BudgetRow :=
  {| row_generation := 1; row_budget := new_budget_values "t" demo_limits demo_policy
       (task_budget_policy_fingerprint demo_limits demo_policy) |}.


(** *** Termination *)

Lemma attempts_pos cfg : (0 < attempts cfg)%nat.
Proof. unfold attempts. lia. Qed.

Lemma next_attempt_decreases cfg a g pc n :
  next_attempt cfg a g = pc -> (a < attempts cfg)%nat ->
  (4 * (attempts cfg - a) <= S n + 3)%nat ->
  pc_attempt_ok cfg pc /\ (pc_measure cfg pc <= n)%nat.
Proof.
  unfold next_attempt. intros <- Ha Hn.
  destruct (Nat.ltb_spec (S a) (attempts cfg)); simpl; split; lia || done.
Qed.

Lemma raise_fault_decreases cfg f a g pc n :
  raise_fault cfg f a g = pc -> (a < attempts cfg)%nat ->
  (4 * (attempts cfg - a) <= S n + 3)%nat ->
  pc_attempt_ok cfg pc /\ (pc_measure cfg pc <= n)%nat.
Proof.
  intros <- Ha Hn. destruct f; simpl; [|split; [done|lia]].
  by eapply next_attempt_decreases.
Qed.

Lemma mwr_step_decreases cfg q now fault pc db pc' db' n :
  pc_attempt_ok cfg pc -> (pc_measure cfg pc <= S n)%nat ->
  mwr_step cfg q now fault pc db = (pc', db') ->
  pc_attempt_ok cfg pc' /\ (pc_measure cfg pc' <= n)%nat.
Proof.
  destruct pc as [a g|a g rec lk|a g rec vals|a g|r]; simpl; intros Ha Hn H;
    repeat crush_step_in H; simplify_eq; simpl;
    try (split; [done|lia]);
    first [eapply raise_fault_decreases; [reflexivity|done|lia] | eapply next_attempt_decreases; [reflexivity|done|lia]].
Qed.

Lemma mwr_trace_terminates cfg q pc env :
  pc_attempt_ok cfg pc -> (pc_measure cfg pc <= length env)%nat ->
  exists r, fst (mwr_trace cfg q pc env) = MDone r.
Proof.
  revert pc. induction env as [|[[now fault] db] env IH]; intros pc Ha Hn; simpl in *.
  - destruct pc; simpl in *; [lia..|eauto].
  - destruct (mwr_step _ _ _ _ _ _) as [pc' db'] eqn:Hs.
    destruct (mwr_step_decreases _ _ _ _ _ _ _ _ _ Ha Hn Hs) as [Ha' Hn'].
    destruct (IH pc' Ha' Hn') as [r Hr]. exists r.
    destruct (mwr_trace cfg q pc' env). done.
Qed.

Lemma mwr_start_attempt cfg q :
  pc_attempt_ok cfg (mwr_start q) /\ (pc_measure cfg (mwr_start q) <= 4 * attempts cfg)%nat.
Proof.
  pose proof (attempts_pos cfg). unfold mwr_start. repeat case_match; simpl; split; lia || done.
Qed.

(** [mutate_with_reservation_terminates]: whatever the other workers commit, whatever
    database faults occur and whatever the clock reads, a reservation call has returned
    or raised after at most four database interactions per configured attempt. *)
Theorem mutate_with_reservation_terminates cfg q env :
  (4 * attempts cfg <= length env)%nat ->
  exists r, fst (mwr_trace cfg q (mwr_start q) env) = MDone r.
Proof.
  intros Hn. destruct (mwr_start_attempt cfg q) as [Ha Hm].
  apply mwr_trace_terminates; [done|lia].
Qed.

Lemma mutate_with_reservation_terminates_witness :
  exists r, fst (mwr_trace demo_cfg demo_call (mwr_start demo_call)
    (replicate 12 (0, Some (RolledBack LockedOrBusy), empty_db))) = MDone r.
Proof. apply mutate_with_reservation_terminates. vm_compute. repeat constructor. Defined.

(** *** Replays *)

Lemma mwr_commit_frame cfg q db g rec vals db' b :
  BudgetRequest cfg q -> mwr_commit q db g rec vals = Ok (Some (db', b)) ->
  q_verify_idempotent q db' = Ok tt /\ db_bindings db' = db_bindings db.
Proof.
  intros Hq. unfold mwr_commit. intros H. apply bind_ok in H as ([db1 cas] & Hcas & H).
  unfold lift_store in Hcas.
  destruct (compare_and_set_task_budget _ _ _ _ _) as [[dbx cx]|] eqn:E; simplify_eq.
  destruct cas as [upd|]; [|done].
  apply cas_budget_some in E as (r & _ & _ & _ & _ & _ & ->).
  apply bind_ok in H as (db2 & Hse & H). apply bind_ok in H as (db3 & Hsv & H).
  apply bind_ok in H as (b' & _ & H). injection H as -> ->.
  unfold lift_store in Hsv. destruct (save_task_budget_reservation _ _ _ _ _ _) eqn:Es;
    [|done]. injection Hsv as ->. apply save_reservation_ok in Es as (r2 & _ & _ & ->).
  split; [by eapply side_effect_verified|].
  by apply side_effect_frame in Hse as (_ & _ & Hbi & _).
Qed.

(** The call is admitted to the loop and its legacy check passes on [db]. *)
Definition admitted (cfg : ServiceConfig) (q : MwrRequest) (db : AgentDB) : Prop :=
  truthy (q_reservation_key q) = true /\ q_recovery_execution_id q = None /\
  q_recovery_fence q = None /\
  q_require_legacy_unbound q && cfg_dual_accounting cfg &&
    bool_decide (q_task_id q ∈ db_bindings db) = false.

Lemma mwr_replay_run cfg q db rec res n1 n2 :
  admitted cfg q db ->
  db_budgets db !! q_task_id q = Some rec -> budget_valid (row_budget rec) = true ->
  generation_matches (q_expected_generation q) (row_generation rec) = true ->
  db_reservations db !! (q_task_id q, q_kind q, q_reservation_key q) = Some res ->
  res_generation res = row_generation rec -> q_verify_idempotent q db = Ok tt ->
  mwr_run cfg q [n1; n2] (mwr_start q) db =
    (MDone (if bool_decide (res_fingerprint res = q_fingerprint q)
            then Ok (row_budget rec)
            else Err (TaskBudgetConflict
                   "reservation_key was reused with a different payload")), db).
Proof.
  intros (Hk & Hx & Hf & Hl) Hrec Hv Hg Hres Hrg Hver.
  assert (mwr_begin cfg q n1 db (q_expected_generation q) =
          Ok (row_generation rec, rec, None)) as Hb.
  { unfold mwr_begin, get_task_budget. rw Hx Hf Hl Hrec /=.
    destruct (q_expected_generation q); simpl in Hg; [|done]. rw Hg. by breflect; subst. }
  unfold mwr_start. rw Hk Hx Hf /= Hb /=.
  unfold get_task_budget_reservation. rw Hres /= Hrg Z.eqb_refl /=.
  unfold mwr_replay, verify_reservation, guard_err. rw Hf.
  destruct (bool_decide (_ = q_fingerprint q)); simpl; [|done]. rw Hver /=. unfold budget_from_record. by rw Hv.
Qed.

(** From the second attempt on the loop replays in the same way. *)
Lemma mwr_replay_attempt cfg q db rec res a n1 n2 :
  admitted cfg q db ->
  db_budgets db !! q_task_id q = Some rec -> budget_valid (row_budget rec) = true ->
  db_reservations db !! (q_task_id q, q_kind q, q_reservation_key q) = Some res ->
  res_generation res = row_generation rec -> res_fingerprint res = q_fingerprint q ->
  q_verify_idempotent q db = Ok tt ->
  mwr_run cfg q [n1; n2] (MBegin a (Some (row_generation rec))) db = (MDone (Ok (row_budget rec)), db).
Proof.
  intros (_ & Hx & Hf & Hl) Hrec Hv Hres Hrg Hfp Hver. simpl.
  assert (mwr_begin cfg q n1 db (Some (row_generation rec)) = Ok (row_generation rec, rec, None)) as ->.
  { unfold mwr_begin, get_task_budget. by rw Hx Hf Hl Hrec /= Z.eqb_refl. }
  simpl. unfold get_task_budget_reservation. rw Hres /= Hrg Z.eqb_refl /=.
  unfold mwr_replay, verify_reservation, guard_err. rw Hf Hfp bool_decide_true //= Hver /=.
  unfold budget_from_record. by rw Hv.
Qed.

(** C14 uncertain_commit_replayed: a reservation call commits but the acknowledgement is lost.
    Then its charge and its reservation are stored, exactly as if it had returned; and in any
    later database that still has the reservation and the same incarnation of the budget, and
    where the call is still admitted, neither the retry inside the loop nor a new call with
    the same arguments charges anything: they change nothing and answer the current budget. *)
Theorem uncertain_commit_replayed cfg w i q a g rec vals now f pc' db' db2 rec2 n1 n2 :
  reachable cfg w -> w_procs w !! i = Some (q, MWrite a g rec vals) ->
  mwr_step cfg q now (Some (Unacknowledged f)) (MWrite a g rec vals) (w_db w) = (pc', db') ->
  db' <> w_db w ->
  let key := (q_task_id q, q_kind q, q_reservation_key q) in
  (exists b, mwr_atomic q g (w_db w) = Ok (db', b)) /\ reserved q db' /\
  (admitted cfg q db2 -> generation_matches (q_expected_generation q) g = true ->
   db_budgets db2 !! q_task_id q = Some rec2 -> row_generation rec2 = g ->
   budget_valid (row_budget rec2) = true -> q_verify_idempotent q db2 = Ok tt ->
   db_reservations db2 !! key = db_reservations db' !! key ->
   mwr_run cfg q [n1; n2] (mwr_start q) db2 = (MDone (Ok (row_budget rec2)), db2) /\
   (f = LockedOrBusy -> (S a < attempts cfg)%nat ->
    mwr_run cfg q [n1; n2] pc' db2 = (MDone (Ok (row_budget rec2)), db2))).
Proof.
  intros Hr Hi Hs Hne key. destruct (reachable_inv cfg w Hr) as [_ Hp].
  destruct (Hp i q _ Hi) as [Hq Hok].
  destruct (mwr_step_db _ _ _ _ _ _ _ _ Hs) as [?|(a' & g' & rec' & vals' & b & [= <- <- <- <-] & Hc & Hpc)]; [done|].
  destruct (commit_atomic cfg _ _ _ _ _ _ _ _ Hq Hok Hc) as (Ha & _ & Hrs).
  assert (db_reservations db' !! key = Some {| res_generation := g; res_fingerprint := q_fingerprint q |}) as Hres
    by (by rw Hrs lookup_insert_eq).
  split; [by exists b|]. split; [by eexists|].
  intros Had Hg Hrec Hgen Hv Hver Hkept. rw Hres in Hkept. subst g. split.
  - rw (mwr_replay_run cfg q db2 rec2 _ n1 n2 Had Hrec Hv Hg Hkept) //. by rw bool_decide_true.
  - intros -> Hn. rw Hpc /=. unfold next_attempt. apply Nat.ltb_lt in Hn. rw Hn.
    by eapply mwr_replay_attempt.
Qed.

(** The commit of [demo_call], not acknowledged, and the row it leaves. *)
Definition silent_commit : MwrPc * AgentDB :=
  mwr_step demo_cfg demo_call 100 (Some (Unacknowledged OtherOperational)) (demo_pc 2)
    (w_db (demo_world 2)).
Definition silent_commit_row : BudgetRow := default demo_row (db_budgets (snd silent_commit) !! "t").

Lemma uncertain_commit_replayed_witness :
  used_executions (row_counters silent_commit_row) = 1 /\
  mwr_run demo_cfg demo_call [101; 102] (mwr_start demo_call) (snd silent_commit) =
    (MDone (Ok (row_budget silent_commit_row)), snd silent_commit).
Proof.
  split; [vm_compute; reflexivity|].
  assert (exists a g rec vals, demo_pc 2 = MWrite a g rec vals /\ g = row_generation silent_commit_row)
    as (a & g & rec & vals & E & Hg) by (vm_compute; repeat eexists).
  pose proof (demo_proc 2) as Hp. rw E in Hp.
  assert (mwr_step demo_cfg demo_call 100 (Some (Unacknowledged OtherOperational)) (MWrite a g rec vals)
    (w_db (demo_world 2)) = (fst silent_commit, snd silent_commit)) as Hs
    by (unfold silent_commit; rw E; by destruct (mwr_step _ _ _ _ _ _)).
  refine (proj1 (proj2 (proj2 (uncertain_commit_replayed demo_cfg (demo_world 2) 0 demo_call a g rec vals 100
    OtherOperational (fst silent_commit) (snd silent_commit) (snd silent_commit) silent_commit_row 101 102
    (demo_reachable 2) Hp Hs _)) _ _ _ _ _ _ eq_refl)).
  - intros Heq. apply (f_equal (fun d => used_executions (row_counters (default demo_row (db_budgets d !! "t"%string))))) in Heq.
    vm_compute in Heq. discriminate Heq.
  - clear. repeat split; vm_compute; reflexivity.
  - reflexivity.
  - vm_compute. reflexivity.
  - symmetry. exact Hg.
  - vm_compute. reflexivity.
  - vm_compute. reflexivity.
Defined.

(** [reused_key_conflicts]: when a reservation with the call's key is stored for the
    current incarnation of the task's budget, the call changes nothing and charges
    nothing: it answers the current budget if the stored fingerprint is this request's,
    and raises a conflict if the key was used for a different payload. *)
Theorem reused_key_conflicts cfg q db rec res n1 n2 :
  admitted cfg q db ->
  db_budgets db !! q_task_id q = Some rec -> budget_valid (row_budget rec) = true ->
  generation_matches (q_expected_generation q) (row_generation rec) = true ->
  db_reservations db !! (q_task_id q, q_kind q, q_reservation_key q) = Some res ->
  res_generation res = row_generation rec -> q_verify_idempotent q db = Ok tt ->
  mwr_run cfg q [n1; n2] (mwr_start q) db =
    (MDone (if bool_decide (res_fingerprint res = q_fingerprint q)
            then Ok (row_budget rec)
            else Err (TaskBudgetConflict
                   "reservation_key was reused with a different payload")), db).
Proof. apply mwr_replay_run. Qed.

Definition demo_slot : MwrRequest := reserve_branch_slot "t" "k".

(** A database that holds a reservation of [demo_slot]'s key for another payload. *)
Definition reused_db : AgentDB :=
  with_reservations (with_budgets empty_db {["t" := demo_row]})
    {[("t", BRANCH, "k") := {| res_generation := 1; res_fingerprint := "other" |}]}.

Lemma reused_key_conflicts_witness :
  mwr_run demo_cfg demo_slot [0; 0] (mwr_start demo_slot) reused_db =
    (MDone (if bool_decide ("other"%string = q_fingerprint demo_slot)
            then Ok (row_budget demo_row)
            else Err (TaskBudgetConflict
                   "reservation_key was reused with a different payload")), reused_db).
Proof.
  apply (reused_key_conflicts demo_cfg demo_slot reused_db demo_row
    {| res_generation := 1; res_fingerprint := "other" |} 0 0);
    [by vm_compute|reflexivity|vm_compute; reflexivity|reflexivity..].
Defined.

(** A fence-free run of three steps that succeeds either replayed or committed. *)
Lemma mwr_run_success cfg q db b db' n1 n2 n3 :
  BudgetRequest cfg q -> q_recovery_fence q = None ->
  mwr_run cfg q [n1; n2; n3] (mwr_start q) db = (MDone (Ok b), db') ->
  admitted cfg q db /\
  exists rec, db_budgets db !! q_task_id q = Some rec /\
    generation_matches (q_expected_generation q) (row_generation rec) = true /\
  ((exists res, db' = db /\ b = row_budget rec /\ budget_valid b = true /\
      db_reservations db !! (q_task_id q, q_kind q, q_reservation_key q) = Some res /\
      res_generation res = row_generation rec /\ res_fingerprint res = q_fingerprint q /\
      q_verify_idempotent q db = Ok tt) \/
   (exists vals, mwr_commit q db (row_generation rec) rec vals = Ok (Some (db', b)))).
Proof.
  intros Hq Hf H. unfold mwr_start in H.
  destruct (truthy (q_reservation_key q)) eqn:Hk; simpl in H; [|by destruct n1, n2, n3].
  unfold validate_recovery_mutation_authority in H. rw Hf in H.
  destruct (q_recovery_execution_id q) as [x|] eqn:Hx.
  { rw andb_false_r in H. done. }
  simpl in H. destruct (mwr_begin cfg q n1 db _) as [[[g rec] lk]|] eqn:Hb; [|done].
  pose proof (mwr_begin_ok _ _ _ _ _ _ _ _ Hb) as (Hrec & <- & Hg).
  unfold mwr_begin in Hb. apply bind_ok in Hb as (? & _ & Hb).
  apply guard_bind_ok in Hb as [Hl _]. apply negb_true_iff in Hl.
  split; [done|]. exists rec. split; [done|]. split; [done|]. simpl in H.
  destruct (get_task_budget_reservation _ _ _ _ _) as [res|] eqn:Er.
  - left. apply get_reservation_some in Er as [Er Eg]. exists res.
    unfold mwr_replay in H. rw Hf in H.
    injection H as Hr ->. unfold verify_reservation in Hr. inv_result.
    unfold budget_from_record in Hr. destruct (budget_valid _) eqn:Hbv; [|done].
    injection Hr as <-. breflect. done.
  - right. destruct (mwr_plan _ _ _ _) as [vals|]; [|done]. exists vals.
    simpl in H. unfold next_attempt in H. repeat crush_step_in H; by simplify_eq.
Qed.

(** [call_twice_charges_once]: repeating a call that succeeded, with no recovery fence,
    succeeds again with the same budget and changes nothing: the charge, the execution
    row and the reservation are made once. *)
Theorem call_twice_charges_once cfg q db b db' n1 n2 n3 n4 n5 :
  BudgetRequest cfg q -> q_recovery_fence q = None ->
  mwr_run cfg q [n1; n2; n3] (mwr_start q) db = (MDone (Ok b), db') ->
  mwr_run cfg q [n4; n5] (mwr_start q) db' = (MDone (Ok b), db').
Proof.
  intros Hq Hf H. destruct (mwr_run_success _ _ _ _ _ _ _ _ Hq Hf H) as
    (Ha & rec & Hrec & Hg & [(res & -> & -> & Hv & Hres & Hrg & Hfp & Hver)|[vals Hc]]).
  - rw (mwr_replay_run cfg q db rec res n4 n5) //. by rw bool_decide_true.
  - destruct (mwr_commit_frame cfg _ _ _ _ _ _ _ Hq Hc) as [Hver Hbi].
    destruct (mwr_commit_ok cfg _ _ _ _ _ _ _ Hq Hc) as
      (r & Hr & _ & _ & _ & _ & Hb & _ & Hdb & Hrs). simplify_eq.
    unfold budget_from_record in Hb. destruct (budget_valid _) eqn:Hv; [|done].
    injection Hb as <-.
    erewrite (mwr_replay_run cfg q db'); [|unfold admitted; by rw Hbi
      |by rw Hdb lookup_insert_eq|done|done|by rw Hrs lookup_insert_eq|done|done].
    by rw bool_decide_true.
Qed.

Definition demo_open_db : AgentDB := with_budgets empty_db {["t" := demo_row]}.

Lemma call_twice_charges_once_witness :
  exists b, let r := mwr_run demo_cfg demo_slot [0; 0; 0] (mwr_start demo_slot) demo_open_db in
  run_answer r = Some b /\
  mwr_run demo_cfg demo_slot [0; 0] (mwr_start demo_slot) (snd r) = (MDone (Ok b), snd r).
Proof.
  eexists. cbv zeta.
  assert (run_answer (mwr_run demo_cfg demo_slot [0; 0; 0] (mwr_start demo_slot) demo_open_db) =
    Some (row_budget (apply_values demo_row [SetActiveBranches 1] 1))) as H
    by (vm_compute; reflexivity).
  split; [exact H|].
  apply (call_twice_charges_once demo_cfg demo_slot demo_open_db _ _ 0 0 0 0 0);
    [apply _|reflexivity|by apply run_answer_some].
Defined.
