(* ===== verification/TaskBudgetLifecycle.v ===== *)
(** * TaskBudget: admission, constraints and lifecycle

    Theorems on the mutations of src/se/src/runtimes/agent/task_budget.py against the
    table constraints of models/sql/agent/task_budget.py, on opening and closing a
    budget, on the staged resume capacity, on the recovery fence, and on the cost
    quantisation of src/se/src/domain/schemas/task_budget.py. *)

From S2P Require Import Prelude Canonical TaskBudgetSchema AgentStore TaskBudgetService.
From S2P Require Import TaskBudgetLaws TaskBudgetConcurrency TaskBudgetProperties.

(** ** Lemmas *)

(** The constraints as propositions. *)
Lemma row_checks_iff r :
  row_checks r = true <->
  0 < row_generation r < max_generation /\ 0 <= row_revision r /\
  limits_valid (tb_limits (row_budget r)) = true /\
  counters_nonneg (row_counters r) = true /\
  counters_bounded (tb_limits (row_budget r)) (row_counters r) = true /\
  closed_at_matches (tb_state (row_budget r)) (tb_closed_at (row_budget r)) = true.
Proof.
  unfold row_checks, row_revision, row_counters. cbv zeta.
  rw !andb_true_iff !Z.ltb_lt Z.leb_le. naive_solver.
Qed.

Lemma limits_valid_iff l :
  limits_valid l = true <->
  0 < max_total_executions l /\ 0 < max_active_executions l /\
  0 < max_active_branches l /\ 0 < max_parallel_agents l /\
  0 < max_total_tool_calls l /\ 0 < max_total_inference_calls l /\
  0 < max_delegation_depth l /\ positive_opt (max_total_tokens l) = true /\
  positive_opt (max_total_cost l) = true.
Proof. unfold limits_valid. rw !andb_true_iff !Z.ltb_lt. naive_solver. Qed.

Lemma counters_nonneg_iff c :
  counters_nonneg c = true <->
  0 <= used_executions c /\ 0 <= active_executions c /\ 0 <= active_branches c /\
  0 <= active_parallel_agents c /\ 0 <= used_tool_calls c /\
  0 <= used_inference_calls c /\ 0 <= used_tokens c /\ 0 <= used_cost c.
Proof. unfold counters_nonneg. rw !andb_true_iff !Z.leb_le. naive_solver. Qed.

Lemma counters_bounded_iff l c :
  counters_bounded l c = true <->
  active_executions c <= used_executions c <= max_total_executions l /\
  active_executions c <= max_active_executions l /\
  active_parallel_agents c <= active_executions c /\
  active_parallel_agents c <= max_parallel_agents l /\
  active_branches c <= max_active_branches l /\
  used_tool_calls c <= max_total_tool_calls l /\
  used_inference_calls c <= max_total_inference_calls l.
Proof. unfold counters_bounded. rw !andb_true_iff !Z.leb_le. naive_solver lia. Qed.

(** Unfold the constraints of a row with concrete columns. *)
Ltac open_checks :=
  repeat match goal with
  | H : row_checks _ = true |- _ => apply row_checks_iff in H
  | H : limits_valid _ = true |- _ => apply limits_valid_iff in H
  | H : counters_nonneg _ = true |- _ => apply counters_nonneg_iff in H
  | H : counters_bounded _ _ = true |- _ => apply counters_bounded_iff in H
  | H : _ /\ _ |- _ => destruct H
  end.

Ltac prove_checks :=
  repeat match goal with H : true = true -> _ |- _ => specialize (H eq_refl) end;
  apply row_checks_iff; unfold row_revision, row_counters in *; simpl in *;
  rw limits_valid_iff counters_nonneg_iff counters_bounded_iff; simpl;
  split_and!; try done; lia.

(** A charge on a row keeps its constraints. *)
Definition keeps_checks (mutate : TaskBudget -> result TBError BudgetValues) : Prop :=
  forall r vals, row_checks r = true -> mutate (row_budget r) = Ok vals ->
    row_checks (apply_values r vals (row_revision r + 1)) = true.

Ltac solve_keeps mutate :=
  let r := fresh "r" in let vals := fresh "vals" in
  let Hr := fresh "Hr" in let H := fresh "H" in
  intros r vals Hr H; unfold mutate in H; inv_result;
  repeat match goal with
  | E : require_active_capacity _ _ = Ok _ |- _ => apply require_active_capacity_ok in E
  end;
  destruct r as [g [? ? ? [] ? ? ? [] ?]]; open_checks;
  unfold row_revision, row_counters, bump_if, drop_if in *; simpl in *; breflect.

Lemma new_execution_keeps d depth : keeps_checks (mutate_new_execution d depth).
Proof. solve_keeps mutate_new_execution. destruct d; prove_checks. Qed.

Lemma tool_calls_keeps n : 0 < n -> keeps_checks (mutate_tool_calls n).
Proof. intros Hn. solve_keeps mutate_tool_calls. prove_checks. Qed.

Lemma inference_keeps cfg : keeps_checks (mutate_inference cfg).
Proof.
  solve_keeps mutate_inference. destruct (cfg_user_inference_quota_enabled cfg);
    inv_result; breflect; prove_checks.
Qed.

Lemma normalize_quanta_ok q q' :
  normalize_task_budget_cost (of_quanta q) = Ok q' -> q' = q.
Proof.
  unfold normalize_task_budget_cost, of_quanta, quantize. simpl. rw Z.mul_1_r.
  destruct (_ <? _); naive_solver.
Qed.

Lemma mutate_usage_ok tokens cost b vals :
  mutate_usage tokens cost b = Ok vals ->
  vals = [SetUsedTokens (used_tokens (tb_counters b) + tokens);
          SetUsedCost (used_cost (tb_counters b) + cost)].
Proof.
  unfold mutate_usage. intros H. inv_result. unfold lift_cost in Hx.
  destruct (normalize_task_budget_cost _) eqn:E; [|done].
  apply normalize_quanta_ok in E as ->. by simplify_eq.
Qed.

Lemma usage_keeps tokens cost :
  0 <= tokens -> 0 <= cost -> keeps_checks (mutate_usage tokens cost).
Proof.
  intros Ht Hc r vals Hr H. apply mutate_usage_ok in H as ->.
  destruct r as [g [? ? ? [] ? ? ? [] ?]]. open_checks. prove_checks.
Qed.

Lemma branch_keeps : keeps_checks mutate_branch.
Proof. solve_keeps mutate_branch. prove_checks. Qed.

Lemma release_branch_keeps : keeps_checks mutate_release_branch.
Proof. solve_keeps mutate_release_branch. prove_checks. Qed.

(** The row after a resume or a release of one execution. *)
Lemma resume_checks r d vals :
  row_checks r = true -> mutate_resume d (row_budget r) = Ok vals ->
  row_checks (apply_values r vals (row_revision r + 1)) =
  (active_executions (row_counters r) <? used_executions (row_counters r)).
Proof.
  intros Hr H. unfold mutate_resume in H. inv_result.
  apply require_active_capacity_ok in Hx0 as [Hcap Hpar].
  destruct r as [g [? ? ? [] ? ? ? [] ?]]; open_checks;
    unfold row_revision, row_counters, bump_if in *; simpl in *.
  destruct (Z.ltb_spec active_executions used_executions).
  - destruct d; prove_checks.
  - apply not_true_iff_false. intros Hc. destruct d; simpl in Hc; open_checks;
      unfold row_counters in *; simpl in *; lia.
Qed.

Lemma release_checks r d vals :
  row_checks r = true -> mutate_release d (row_budget r) = Ok vals ->
  row_checks (apply_values r vals (row_revision r + 1)) =
  (d || (active_parallel_agents (row_counters r) <? active_executions (row_counters r))).
Proof.
  intros Hr H. unfold mutate_release in H. inv_result.
  destruct r as [g [? ? ? [] ? ? ? [] ?]]; open_checks;
    unfold row_revision, row_counters, drop_if in *; simpl in *.
  destruct d; simpl in *; breflect.
  - prove_checks.
  - destruct (Z.ltb_spec active_parallel_agents active_executions); [prove_checks|].
    apply not_true_iff_false. intros Hc. open_checks; unfold row_counters in *; simpl in *; lia.
Qed.

(** ** Theorems *)

(** [charges_keep_constraints]: on a stored row that satisfies the table's CHECK
    constraints, the update computed by a new execution, a tool-call batch, an inference,
    a usage account, a branch slot or a branch release satisfies them too, so these
    updates are never rejected by the database. *)
Theorem charges_keep_constraints cfg d depth n tokens cost :
  0 < n -> 0 <= tokens -> 0 <= cost ->
  keeps_checks (mutate_new_execution d depth) /\ keeps_checks (mutate_tool_calls n) /\
  keeps_checks (mutate_inference cfg) /\ keeps_checks (mutate_usage tokens cost) /\
  keeps_checks mutate_branch /\ keeps_checks mutate_release_branch.
Proof.
  intros. split_and!; auto using new_execution_keeps, tool_calls_keeps, inference_keeps,
    usage_keeps, branch_keeps, release_branch_keeps.
Qed.

Lemma charges_keep_constraints_witness :
  row_checks (apply_values demo_row [SetUsedToolCalls 3] (row_revision demo_row + 1)) = true.
Proof.
  refine (proj1 (proj2 (charges_keep_constraints demo_cfg false 0 3 0 0 _ _ _))
    demo_row _ _ _); [lia|lia|lia|vm_compute; reflexivity|reflexivity].
Defined.

(** [resume_release_constraints_exact]: the update of a resume is accepted by the table
    exactly when some execution of the budget is not active, and the update of a release
    exactly when it is delegated or some active execution is not a parallel agent; the
    service does not check either condition before it writes. *)
Theorem resume_release_constraints_exact r d vals vals' :
  row_checks r = true -> mutate_resume d (row_budget r) = Ok vals ->
  mutate_release d (row_budget r) = Ok vals' ->
  row_checks (apply_values r vals (row_revision r + 1)) =
    (active_executions (row_counters r) <? used_executions (row_counters r)) /\
  row_checks (apply_values r vals' (row_revision r + 1)) =
    (d || (active_parallel_agents (row_counters r) <? active_executions (row_counters r))).
Proof. intros. split; [by eapply resume_checks|by apply release_checks]. Qed.

(** One used and active execution, which is not a parallel agent. *)
Definition busy_row : BudgetRow :=
  apply_values demo_row [SetUsedExecutions 1; SetActiveExecutions 1] 1.

Lemma resume_release_constraints_exact_witness :
  row_checks (apply_values busy_row [SetActiveExecutions 2; SetActiveParallelAgents 0] 2) =
    false /\
  row_checks (apply_values busy_row [SetActiveExecutions 0; SetActiveParallelAgents 0] 2) =
    true.
Proof.
  exact (resume_release_constraints_exact busy_row false _ _
    ltac:(vm_compute; reflexivity) eq_refl eq_refl).
Defined.

(** The counters a new execution would leave. *)
Definition with_new_execution (d : bool) (c : Counters) : Counters := {|
  used_executions := used_executions c + 1; active_executions := active_executions c + 1;
  active_branches := active_branches c;
  active_parallel_agents := bump_if d (active_parallel_agents c);
  used_tool_calls := used_tool_calls c; used_inference_calls := used_inference_calls c;
  used_tokens := used_tokens c; used_cost := used_cost c |}.

(** [new_execution_admission_exact]: on a valid budget a new execution is admitted
    exactly when the budget is open, the delegation depth is allowed, and the counters
    with the execution added still fit the limits: nothing that fits is refused, nothing
    that does not fit is admitted. *)
Theorem new_execution_admission_exact b d depth :
  budget_valid b = true ->
  (is_ok (mutate_new_execution d depth b) = true <->
   tb_state b = OPEN /\ depth <= max_delegation_depth (tb_limits b) /\
   counters_bounded (tb_limits b) (with_new_execution d (tb_counters b)) = true).
Proof.
  intros Hv. apply budget_valid_ok in Hv. apply budget_ok_counters in Hv.
  destruct Hv as (Hn & Hb & _). rw counters_bounded_iff.
  unfold mutate_new_execution, require_active_capacity, require_open, bump_if.
  destruct b as [? ? st [] ? ? ? [] ?]; simpl in *.
  destruct st; simpl; [|naive_solver].
  destruct (Z.ltb_spec max_delegation_depth depth); simpl; [naive_solver lia|].
  destruct (Z.leb_spec max_total_executions used_executions); simpl; [naive_solver lia|].
  destruct (Z.leb_spec max_active_executions active_executions); simpl; [naive_solver lia|].
  destruct d; simpl; [|naive_solver lia].
  destruct (Z.leb_spec max_parallel_agents active_parallel_agents); simpl; naive_solver lia.
Qed.

Lemma new_execution_admission_exact_witness :
  is_ok (mutate_new_execution true 3 (row_budget demo_row)) = true <->
  tb_state (row_budget demo_row) = OPEN /\ 3 <= 3 /\
  counters_bounded demo_limits (with_new_execution true zero_counters) = true.
Proof.
  apply (new_execution_admission_exact (row_budget demo_row) true 3).
  vm_compute. reflexivity.
Defined.

(** *** Closing *)

(** [close] without interference: the loop's attempts read and write the same database. *)
Definition close_alone (db : AgentDB) (task_id : string) (now : Z)
    : result TBError (option (AgentDB * TaskBudget)) := close_attempt db db task_id now.

Lemma close_attempt_ok snapshot db t now db' b :
  close_attempt snapshot db t now = Ok (Some (db', b)) ->
  exists rec, db_budgets snapshot !! t = Some rec /\
  ((tb_state (row_budget rec) = CLOSED /\ db' = db /\ b = row_budget rec) \/
   exists r, tb_state (row_budget rec) = OPEN /\ db_budgets db !! t = Some r /\
     row_revision r = row_revision rec /\ row_generation r = row_generation rec /\
     let r' := apply_values r [SetState CLOSED; SetClosedAt (Some now)] (row_revision r + 1) in
     row_checks r' = true /\ b = row_budget r' /\
     db' = with_budgets db (<[t := r']> (db_budgets db))).
Proof.
  unfold close_attempt, get_task_budget. intros H.
  destruct (db_budgets snapshot !! t) as [rec|] eqn:Er; [|done].
  apply bind_ok in H as (b0 & Hb0 & H). apply budget_from_record_ok in Hb0 as ->.
  exists rec. split; [done|]. destruct (tb_state (row_budget rec)) eqn:Es.
  - right. apply bind_ok in H as ([d c] & Hc & H). unfold lift_store in Hc.
    destruct (compare_and_set_task_budget _ _ _ _ _) as [[d1 c1]|] eqn:E; simplify_eq.
    destruct c as [u|]; [|done]. apply cas_budget_some in E as
      (r & Hr & Hrev & Hg & -> & Hck & ->).
    apply bind_ok in H as (b1 & Hb1 & H). apply budget_from_record_ok in Hb1 as ->.
    injection H as <- <-. exists r. unfold row_revision. rw Hrev. done.
  - left. by injection H as <- <-.
Qed.

(** [close_seals_budget]: once [close] has returned a closed budget, every operation that
    consumes the budget (new execution, resume, tool calls, inference, branch) raises
    TaskBudgetClosed, while the operations that settle outstanding work (release,
    usage) answer exactly as on the open budget; closing charges nothing. *)
Theorem close_seals_budget cfg db t now rec db' b :
  db_budgets db !! t = Some rec -> tb_state (row_budget rec) = OPEN ->
  close_alone db t now = Ok (Some (db', b)) ->
  tb_state b = CLOSED /\ tb_counters b = row_counters rec /\
  (exists rec', db_budgets db' !! t = Some rec' /\ row_budget rec' = b) /\
  (forall d depth, mutate_new_execution d depth b = Err TaskBudgetClosed) /\
  (forall d, mutate_resume d b = Err TaskBudgetClosed) /\
  (forall n, mutate_tool_calls n b = Err TaskBudgetClosed) /\
  mutate_inference cfg b = Err TaskBudgetClosed /\
  mutate_branch b = Err TaskBudgetClosed /\
  (forall d, mutate_release d b = mutate_release d (row_budget rec)) /\
  (forall tokens cost, mutate_usage tokens cost b = mutate_usage tokens cost (row_budget rec)).
Proof.
  intros Hr Ho H. apply close_attempt_ok in H as (rec0 & Hr0 & [(? & _)|H]); simplify_eq;
    [congruence|].
  destruct H as (r & _ & Hr1 & _ & _ & _ & -> & ->). simplify_eq.
  split; [done|]. split; [done|]. split; [|done].
  eexists. simpl. rw lookup_insert_eq. done.
Qed.

Lemma close_seals_budget_witness :
  exists db' b, close_alone demo_open_db "t" 7 = Ok (Some (db', b)) /\
    mutate_branch b = Err TaskBudgetClosed.
Proof.
  destruct (close_alone demo_open_db "t" 7) as [[[db' b]|]|] eqn:E;
    [|exfalso; revert E; vm_compute; discriminate..].
  exists db', b. split; [reflexivity|].
  apply (close_seals_budget demo_cfg demo_open_db "t" 7 demo_row db' b eq_refl eq_refl E).
Defined.

(** *** Opening *)

Lemma save_task_budget_ok db b db' row :
  save_task_budget db b = Ok (db', row) ->
  db_budgets db !! tb_task_id b = None /\ row_budget row = b /\
  row_generation row = default 1 (db_allocator db) /\ row_checks row = true /\
  db' = with_allocator (with_budgets db (<[tb_task_id b := row]> (db_budgets db)))
          (Some (row_generation row + 1)) /\
  map_Forall (fun _ r => row_generation r <> row_generation row) (db_budgets db).
Proof.
  unfold save_task_budget, ensure_task_budget_incarnation_allocator. intros H.
  destruct (db_allocator db) as [g|] eqn:Ea;
    (destruct (max_generation <=? _); [done|]; destruct (_ && _) eqn:Ec; [|done];
     simplify_eq; breflect; done).
Qed.

(** The incarnation allocator is ahead of every stored generation. *)
Definition allocator_ahead (db : AgentDB) : Prop :=
  forall t r, db_budgets db !! t = Some r -> row_generation r < default 1 (db_allocator db).

Lemma ensure_budget_tx_new db t l p db' b :
  db_budgets db !! t = None -> ensure_budget_tx db t l p = Ok (db', b) ->
  exists row, b = row_budget row /\
    save_task_budget db (new_budget_values t l p (task_budget_policy_fingerprint l p)) =
    Ok (db', row).
Proof.
  intros Hn. unfold ensure_budget_tx, get_task_budget. rw Hn. intros H.
  destruct (get_task db t); [|done]. inv_result. unfold lift_store in Hx.
  destruct (save_task_budget _ _) as [[d r]|] eqn:Es; [|done]. injection Hx as <-.
  apply budget_from_record_ok in Hx0. by exists r.
Qed.

(** [ensure_budget_initialises]: initialising the budget of a task that has none stores
    an open budget with zero counters, the given limits and the policy's fingerprint, at
    a generation newer than that of every budget stored, and advances the allocator past
    it; the row satisfies the table's constraints. *)
Theorem ensure_budget_initialises db t l p db' b :
  allocator_ahead db -> db_budgets db !! t = None ->
  ensure_budget_tx db t l p = Ok (db', b) ->
  b = new_budget_values t l p (task_budget_policy_fingerprint l p) /\
  allocator_ahead db' /\
  exists row, db_budgets db' = <[t := row]> (db_budgets db) /\ row_budget row = b /\
    row_checks row = true /\
    forall t0 r0, db_budgets db !! t0 = Some r0 -> row_generation r0 < row_generation row.
Proof.
  intros Ha Hn H. destruct (ensure_budget_tx_new _ _ _ _ _ _ Hn H) as (row & -> & Hs).
  apply save_task_budget_ok in Hs as (_ & Hb & Hg & Hc & -> & _). simpl in *.
  assert (forall t0 r0, db_budgets db !! t0 = Some r0 -> row_generation r0 < row_generation row)
    as Hlt. { intros t0 r0 H0. rw Hg. by apply (Ha t0). }
  split; [done|]. split; [|by exists row].
  intros t0 r0. simpl. rw lookup_insert. case_decide as Hd; [intros [= <-]; lia|].
  intros Hin. specialize (Hlt t0 r0 Hin). lia.
Qed.

Lemma ensure_budget_initialises_witness :
  exists db' b, ensure_budget_tx empty_db "t" demo_limits demo_policy = Ok (db', b) /\
    allocator_ahead db'.
Proof.
  assert (is_ok (ensure_budget_tx empty_db "t" demo_limits demo_policy) = true) as Hok
    by (vm_compute; reflexivity).
  destruct (ensure_budget_tx empty_db "t" demo_limits demo_policy) as [[db' b]|] eqn:E;
    [|discriminate Hok].
  exists db', b. split; [reflexivity|].
  refine (proj1 (proj2 (ensure_budget_initialises empty_db "t" demo_limits demo_policy db' b
    _ eq_refl E))). intros t r. simpl. by rw lookup_empty.
Defined.

(** [ensure_budget_idempotent]: once the task has a budget, initialising it again never
    changes the database; it answers the stored budget when version, fingerprint of the
    limits and policy, and cycle rule agree, and raises a conflict otherwise. *)
Theorem ensure_budget_idempotent db t l p rec :
  db_budgets db !! t = Some rec -> budget_valid (row_budget rec) = true ->
  ensure_budget db t l p =
  (db, if bool_decide (tb_policy_version (row_budget rec) = pol_version p /\
         tb_policy_fingerprint (row_budget rec) = task_budget_policy_fingerprint l p /\
         tb_deny_cycle (row_budget rec) = pol_deny_recursive_agent_cycle p)
       then Ok (row_budget rec)
       else Err (TaskBudgetConflict "existing TaskBudget policy/limits are immutable")).
Proof.
  intros Hr Hv. unfold ensure_budget, ensure_budget_tx, get_task_budget.
  rw Hr. unfold budget_from_record. rw Hv /=. unfold require_same_policy.
  rw !bool_decide_and andb_assoc.
  replace (Bool.eqb _ _) with (bool_decide (tb_deny_cycle (row_budget rec) =
    pol_deny_recursive_agent_cycle p)).
  - by destruct (_ && _).
  - case_bool_decide as E; [by rw E Bool.eqb_reflx|].
    destruct (tb_deny_cycle _), (pol_deny_recursive_agent_cycle p); done.
Qed.

Lemma ensure_budget_idempotent_witness :
  ensure_budget demo_open_db "t" demo_limits demo_policy =
  (demo_open_db, Ok (row_budget demo_row)).
Proof.
  rw (ensure_budget_idempotent demo_open_db "t" demo_limits demo_policy demo_row eq_refl);
    [vm_compute; reflexivity|by rw bool_decide_true].
Defined.

(** *** The other writers of the budget tables *)

Lemma close_attempt_txn cfg snapshot db t now db' b :
  close_attempt snapshot db t now = Ok (Some (db', b)) -> budget_txn cfg db db'.
Proof.
  intros H. apply close_attempt_ok in H as (rec & _ & [(_ & -> & _)|H]).
  - by apply txn_frame.
  - destruct H as (r & _ & Hr & _ & _ & Hc & _ & ->). by apply (txn_touch _ _ _ t r
      (apply_values r [SetState CLOSED; SetClosedAt (Some now)] (row_revision r + 1))).
Qed.

Lemma prepare_resume_ok db t x rev d db' b :
  prepare_resume_capacity_in_uow db t x rev d = Ok (db', b) ->
  exists r vals, db_budgets db !! t = Some r /\ mutate_resume d (row_budget r) = Ok vals /\
    db_reservations db !! (t, RESUME_EXECUTION, revision_key x rev) = None /\
    let r' := apply_values r vals (row_revision r + 1) in
    row_checks r' = true /\ b = row_budget r' /\
    exists fp, db' = with_reservations (with_budgets db (<[t := r']> (db_budgets db)))
      (<[(t, RESUME_EXECUTION, revision_key x rev) :=
         {| res_generation := row_generation r; res_fingerprint := fp |}]>
         (db_reservations db)).
Proof.
  unfold prepare_resume_capacity_in_uow, get_task_budget. intros H.
  apply guard_bind_ok in H as [_ H]. destruct (get_task db t); [|done].
  apply guard_bind_ok in H as [_ H]. destruct (db_budgets db !! t) as [r|] eqn:Er; [|done].
  apply bind_ok in H as (b0 & Hb0 & H). apply budget_from_record_ok in Hb0 as ->.
  apply guard_bind_ok in H as [Ho H].
  destruct (get_task_budget_reservation _ _ _ _ _); [by destruct (bool_decide (res_fingerprint _ = _))|].
  apply bind_ok in H as ([] & Hcap & H). apply bind_ok in H as ([d1 c1] & Hc & H).
  unfold lift_store in Hc.
  destruct (compare_and_set_task_budget _ _ _ _ _) as [[d2 c2]|] eqn:E; simplify_eq.
  destruct c1 as [u|]; [|done]. apply cas_budget_some in E as (r0 & Hr0 & _ & _ & -> & Hck & ->).
  simplify_eq. apply bind_ok in H as (d3 & Hs & H). unfold lift_store in Hs.
  destruct (save_task_budget_reservation _ _ _ _ _ _) eqn:Es; [|done]. injection Hs as ->.
  apply save_reservation_ok in Es as (r1 & Hr1 & Hn & ->). simpl in Hr1, Hn.
  rw lookup_insert_eq in Hr1. injection Hr1 as <-.
  apply bind_ok in H as (b1 & Hb1 & H). apply budget_from_record_ok in Hb1 as ->.
  injection H as <- <-. eexists r, _. split; [done|]. breflect.
  split; [unfold mutate_resume, require_open; rw Ho Hcap; reflexivity|]. naive_solver.
Qed.

Lemma prepare_resume_txn cfg db t x rev d db' b :
  prepare_resume_capacity_in_uow db t x rev d = Ok (db', b) -> budget_txn cfg db db'.
Proof.
  intros H. apply prepare_resume_ok in H as (r & vals & Hr & Hm & Hn & Hc & _ & fp & ->).
  apply (txn_charge cfg _ _ t RESUME_EXECUTION (revision_key x rev) r
    (apply_values r vals (row_revision r + 1))
    {| res_generation := row_generation r; res_fingerprint := fp |}); try done.
  rw apply_values_counters. eapply mutate_resume_charges, Hm.
Qed.

(** [other_writers_disciplined]: the transactions that write the budget tables outside
    the reservation loop (initialisation, close on a possibly stale read, and the
    resume capacity staged in a caller's unit of work) follow the discipline the
    concurrent theorems assume of the environment, so they can be interleaved with
    reservation calls. *)
Theorem other_writers_disciplined cfg db db' :
  (exists t l p b, ensure_budget_tx db t l p = Ok (db', b)) \/
  (exists snapshot t now b, close_attempt snapshot db t now = Ok (Some (db', b))) \/
  (exists t x rev d b, prepare_resume_capacity_in_uow db t x rev d = Ok (db', b)) ->
  budget_txn cfg db db'.
Proof.
  intros [(t & l & p & b & H)|[(s & t & now & b & H)|(t & x & rev & d & b & H)]].
  - by eapply ensure_budget_tx_txn.
  - by eapply close_attempt_txn.
  - by eapply prepare_resume_txn.
Qed.

(** One used execution, none active. *)
Definition idle_row : BudgetRow := apply_values demo_row [SetUsedExecutions 1] 1.
Definition idle_db : AgentDB := with_budgets empty_db {["t" := idle_row]}.

Lemma other_writers_disciplined_witness :
  exists db' b, prepare_resume_capacity_in_uow idle_db "t" "e1" 4 false = Ok (db', b) /\
    budget_txn demo_cfg idle_db db'.
Proof.
  assert (is_ok (prepare_resume_capacity_in_uow idle_db "t" "e1" 4 false) = true) as Hok
    by (vm_compute; reflexivity).
  destruct (prepare_resume_capacity_in_uow idle_db "t" "e1" 4 false) as [[db' b]|] eqn:E;
    [|discriminate Hok].
  exists db', b. split; [reflexivity|].
  apply (other_writers_disciplined demo_cfg idle_db db'). right. right. by repeat eexists.
Defined.

(** *** The recovery fence *)

(** The execution row a fence stands for. *)
Definition lease_matches (e : ExecutionRow) (t : string) (f : RecoveryFence) : Prop :=
  default "" (e_task_id e) = t /\ e_state e = "RUNNING" /\
  default "" (e_owner_instance_id e) = strip (default "" (f_owner_instance_id f)) /\
  f_lease_generation f = Some (e_lease_generation e) /\
  e_lease_expires_at e = f_lease_expires_at f.

Lemma fence_now_ok ex t f now :
  require_recovery_mutation_fence_now ex t f now = Ok tt ->
  exists e expiry, ex = Some e /\ lease_matches e t f /\
    f_lease_expires_at f = Some expiry /\ now < expiry.
Proof.
  unfold require_recovery_mutation_fence_now. cbv zeta. intros H.
  destruct (f_lease_generation f) as [g|] eqn:Eg; [|done].
  destruct (f_lease_expires_at f) as [x|] eqn:Ex; [|done].
  destruct ex as [e|]; [|done]. inv_result. breflect. exists e, x.
  unfold lease_matches. rw Eg Ex. naive_solver.
Qed.

(** [recovery_charge_needs_live_lease]: a charge made on behalf of recovery succeeds only
    while the recovered execution's lease is exactly the one the fence names (same owner,
    generation and expiry, execution still RUNNING for this task), is unexpired at both
    clock readings of the call, and the authority names the execution and a positive
    budget incarnation. *)
Theorem recovery_charge_needs_live_lease cfg q f db b db' n1 n2 n3 :
  q_recovery_fence q = Some f ->
  mwr_run cfg q [n1; n2; n3] (mwr_start q) db = (MDone (Ok b), db') ->
  exists x e expiry g, q_recovery_execution_id q = Some x /\ get_execution db x = Some e /\
    lease_matches e (q_task_id q) f /\ f_lease_expires_at f = Some expiry /\
    n1 < expiry /\ n2 < expiry /\ q_expected_generation q = Some g /\ 0 < g.
Proof.
  intros Hf H. unfold mwr_start in H.
  destruct (truthy (q_reservation_key q)); simpl in H; [|by destruct n1].
  destruct (validate_recovery_mutation_authority _ _ _) as [[]|] eqn:Hv; [|done].
  unfold validate_recovery_mutation_authority in Hv. rw Hf in Hv.
  destruct (q_recovery_execution_id q) as [x|] eqn:Hx; [|done].
  inv_result. breflect. destruct (q_expected_generation q) as [g|] eqn:Hg; [|done].
  simpl in H. destruct (mwr_begin cfg q n1 db _) as [[[g' rec] lk]|] eqn:Hb; [|done].
  unfold mwr_begin in Hb. rw Hf Hx in Hb. simpl in Hb.
  apply bind_ok in Hb as ([] & Hfe & Hb). apply fence_now_ok in Hfe as
    (e & expiry & He & Hm & Hexp & Hn1).
  apply guard_bind_ok in Hb as [_ Hb]. destruct (get_task_budget _ _); [|done].
  destruct (_ =? g); [|done]. injection Hb as <- <- <-. simpl in H.
  exists x, e, expiry, g. breflect. do 5 (split; [done|]). split; [|done].
  enough (check_fence (get_execution db x) (q_task_id q) (Some f) n2 = Ok tt) as Hc.
  { simpl in Hc. apply fence_now_ok in Hc as (? & ? & _ & _ & ? & ?). congruence. }
  destruct (get_task_budget_reservation _ _ _ _ _).
  - unfold mwr_replay in H. rw Hf in H. injection H as H _. by inv_result.
  - destruct (mwr_plan q n2 _ _) eqn:Hp; [|done]. unfold mwr_plan in Hp. rw Hf in Hp.
    by inv_result.
Qed.

Definition leased_execution : ExecutionRow :=
  apply_exec_values (demo_execution "e1")
    [SetOwner (Some "worker"); SetLeaseExpiresAt (Some 50); SetLeaseGeneration 2].
Definition leased_db : AgentDB :=
  with_executions demo_open_db {["e1" := leased_execution]}.
Definition demo_fence : RecoveryFence := {|
  f_owner_instance_id := Some "worker"; f_lease_generation := Some 2;
  f_lease_expires_at := Some 50 |}.
Definition fenced_call : MwrRequest :=
  recovery_request "t" INFERENCE "r1" (JObj []) (mutate_inference demo_cfg)
    {| ra_execution_id := Some "e1"; ra_fence := Some demo_fence; ra_generation := Some 1 |}.

Lemma recovery_charge_needs_live_lease_witness :
  exists x e expiry g, q_recovery_execution_id fenced_call = Some x /\
    get_execution leased_db x = Some e /\ lease_matches e "t" demo_fence /\
    f_lease_expires_at demo_fence = Some expiry /\ 10 < expiry /\ 20 < expiry /\
    q_expected_generation fenced_call = Some g /\ 0 < g.
Proof.
  assert (run_answer (mwr_run demo_cfg fenced_call [10; 20; 30] (mwr_start fenced_call)
    leased_db) = Some (row_budget (apply_values demo_row [SetUsedInferenceCalls 1] 1))) as H
    by (vm_compute; reflexivity).
  eapply (recovery_charge_needs_live_lease demo_cfg fenced_call demo_fence leased_db);
    [reflexivity|by apply run_answer_some].
Defined.

(** *** Costs *)

(** [cost_quantisation]: a finite cost of [coef * 10^exp] dollars is normalised to a whole
    number of quanta of 10^-8 dollars that is exact when the cost has at most eight
    decimals and otherwise off by at most half a quantum; normalising again changes
    nothing; infinities and NaN are refused. *)
Theorem cost_quantisation coef exp q :
  normalize_task_budget_cost (DFinite coef exp) = Ok q ->
  (-8 <= exp -> q = coef * 10 ^ (exp + 8)) /\
  (exp < -8 -> 2 * Z.abs (coef - 10 ^ (- (exp + 8)) * q) <= 10 ^ (- (exp + 8))) /\
  normalize_task_budget_cost (of_quanta q) = Ok q /\
  normalize_task_budget_cost DInfinite = Err CostNotFinite /\
  normalize_task_budget_cost DNaN = Err CostNotFinite.
Proof.
  unfold normalize_task_budget_cost at 1, quantize. cbv zeta.
  destruct (Z.abs _ <? _) eqn:E; [|done]. intros [= <-]. apply Z.ltb_lt in E.
  split; [|split; [|split; [|done]]].
  - intros H. by rw (proj2 (Z.leb_le 0 (exp + 8))); [lia|].
  - intros H. rw (proj2 (Z.leb_gt 0 (exp + 8))); [lia|].
    apply div_half_even_bound. apply Z.pow_pos_nonneg; lia.
  - by apply normalize_quanta.
Qed.

Lemma cost_quantisation_witness :
  2 * Z.abs (12345 - 10 ^ 2 * 123) <= 10 ^ 2.
Proof.
  refine (proj1 (proj2 (cost_quantisation 12345 (-10) 123 _)) _); [reflexivity|lia].
Defined.
