(* ===== verification/TaskBudgetWriters.v ===== *)
(** * The other writers of the budget tables
    (src/se/src/runtimes/agent/task_budget.py and gc_executor.py)

    Beside the reservation loop, the budget row and the reservations of a task are written by
    the admission of root executions, forks, retries and aggregates, by the cancellation and
    termination of tasks, by the resolution of branches, by batches of tool calls, and by
    garbage collection.  For each, the part of its transaction that writes the two tables is
    modelled, from the row it has read to the rows it stores; its reads and its writes to
    other tables are not (a BranchResolutionError is a conflict with its message).  Each is
    shown to obey [other_write], the discipline under which the theorems on concurrent
    reservations hold. *)

From S2P Require Import Prelude Canonical TaskBudgetSchema AgentStore TaskBudgetService.
From S2P Require Import TaskBudgetLaws TaskBudgetConcurrency TaskBudgetProperties TaskBudgetLifecycle.

(** ** The shape of these transactions *)

(** A reservation to store: its kind, key and fingerprint. *)
Record NewReservation := {
  nr_kind : TaskBudgetReservationKind;
  nr_key : string;
  nr_fingerprint : string
}.

Fixpoint save_reservations (db : AgentDB) (task_id : string) (generation : Z) (l : list NewReservation)
    : result TBError AgentDB :=
  match l with
  | [] => Ok db
  | n :: l' =>
      db' ← lift_store (save_task_budget_reservation db task_id (nr_kind n) (nr_key n)
              (nr_fingerprint n) (Some generation));
      save_reservations db' task_id generation l'
  end.

(** The compare-and-set against the row that was read, then the reservations; [None] when the
    compare-and-set lost and the transaction is rolled back. *)
Definition write_budget (db : AgentDB) (task_id : string) (rec : BudgetRow) (values : BudgetValues)
    (l : list NewReservation) : result TBError (option AgentDB) :=
  cas ← lift_store (compare_and_set_task_budget db task_id (tb_revision (row_budget rec)) values
          (Some (row_generation rec)));
  match cas with
  | (_, None) => Ok None
  | (db1, Some _) => db2 ← save_reservations db1 task_id (row_generation rec) l; Ok (Some db2)
  end.

(** ** Admission of executions *)

(** [start_root_task_scoped_execution]: the first branch and its execution. *)
Definition root_admission (db : AgentDB) (task_id : string) (rec : BudgetRow)
    (branch_id branch_fingerprint execution_id execution_fingerprint : string)
    : result TBError (option AgentDB) :=
  budget ← budget_from_record rec;
  _ ← require_open budget;
  let c := tb_counters budget in
  let l := tb_limits budget in
  _ ← guard_err (negb (max_active_branches l <=? active_branches c))
        (TaskBudgetExceeded "max_active_branches reached");
  _ ← guard_err (negb (max_total_executions l <=? used_executions c))
        (TaskBudgetExceeded "max_total_executions reached");
  _ ← guard_err (negb (max_active_executions l <=? active_executions c))
        (TaskBudgetExceeded "max_active_executions reached");
  write_budget db task_id rec
    [SetActiveBranches (active_branches c + 1); SetUsedExecutions (used_executions c + 1);
     SetActiveExecutions (active_executions c + 1)]
    [{| nr_kind := BRANCH; nr_key := branch_id; nr_fingerprint := branch_fingerprint |};
     {| nr_kind := NEW_EXECUTION; nr_key := execution_id; nr_fingerprint := execution_fingerprint |}].

Definition one_more_agent (delegated : bool) (c : Counters) : BudgetValues :=
  if delegated then [SetActiveParallelAgents (active_parallel_agents c + 1)] else [].

(** A fork: a new branch with its execution. *)
Definition fork_admission (db : AgentDB) (task_id : string) (rec : BudgetRow) (delegated : bool)
    (branch_id branch_fingerprint execution_id execution_fingerprint : string)
    : result TBError (option AgentDB) :=
  let c := row_counters rec in
  write_budget db task_id rec
    ([SetActiveBranches (active_branches c + 1); SetUsedExecutions (used_executions c + 1);
      SetActiveExecutions (active_executions c + 1)] ++ one_more_agent delegated c)
    [{| nr_kind := BRANCH; nr_key := branch_id; nr_fingerprint := branch_fingerprint |};
     {| nr_kind := NEW_EXECUTION; nr_key := execution_id; nr_fingerprint := execution_fingerprint |}].

(** A retry, and an aggregate: a new execution on a branch that exists. *)
Definition execution_admission (db : AgentDB) (task_id : string) (rec : BudgetRow) (delegated : bool)
    (execution_id execution_fingerprint : string) : result TBError (option AgentDB) :=
  let c := row_counters rec in
  write_budget db task_id rec
    ([SetUsedExecutions (used_executions c + 1); SetActiveExecutions (active_executions c + 1)] ++
     one_more_agent delegated c)
    [{| nr_kind := NEW_EXECUTION; nr_key := execution_id; nr_fingerprint := execution_fingerprint |}].

(** ** Ends of tasks and branches *)

(** [terminalize_task]. *)
Definition terminal_close (db : AgentDB) (task_id : string) (rec : BudgetRow) (now : Z)
    : result TBError (option AgentDB) :=
  write_budget db task_id rec [SetState CLOSED; SetClosedAt (Some now)] [].

(** [cancel_task]: [dormant] executions were cancelled before they ran, [delegated] of them
    with a parent. *)
Definition cancel_release (db : AgentDB) (task_id : string) (rec : BudgetRow) (now : Z)
    (dormant delegated : nat) : result TBError (option AgentDB) :=
  budget ← budget_from_record rec;
  let c := tb_counters budget in
  _ ← guard_err (negb (active_executions c <? Z.of_nat dormant))
        (TaskBudgetConflict "Dormant execution cancellation would underflow active_executions.");
  _ ← guard_err (negb (active_parallel_agents c <? Z.of_nat delegated))
        (TaskBudgetConflict "Fork cancellation would underflow active_parallel_agents.");
  write_budget db task_id rec
    [SetState CLOSED;
     SetClosedAt (match tb_closed_at budget with Some t => Some t | None => Some now end);
     SetActiveExecutions (active_executions c - Z.of_nat dormant);
     SetActiveParallelAgents (active_parallel_agents c - Z.of_nat delegated)] [].

(** [discard_branch]: [active] and [parallel] are 1 when the head had not run yet. *)
Definition discard_release (db : AgentDB) (task_id : string) (rec : BudgetRow) (active parallel : nat)
    : result TBError (option AgentDB) :=
  let c := row_counters rec in
  _ ← guard_err (negb (active_executions c <? Z.of_nat active))
        (TaskBudgetConflict "DISCARD would underflow active_executions.");
  _ ← guard_err (negb (active_parallel_agents c <? Z.of_nat parallel))
        (TaskBudgetConflict "DISCARD would underflow active_parallel_agents.");
  write_budget db task_id rec
    [SetActiveBranches (active_branches c - 1);
     SetActiveExecutions (active_executions c - Z.of_nat active);
     SetActiveParallelAgents (active_parallel_agents c - Z.of_nat parallel)] [].

(** [adopt_branch]: all branches are resolved and the task ends. *)
Definition adopt_release (db : AgentDB) (task_id : string) (rec : BudgetRow) (now : Z)
    (active parallel : nat) : result TBError (option AgentDB) :=
  let c := row_counters rec in
  _ ← guard_err (negb (active_executions c <? Z.of_nat active))
        (TaskBudgetConflict "ADOPT would underflow active_executions.");
  _ ← guard_err (negb (active_parallel_agents c <? Z.of_nat parallel))
        (TaskBudgetConflict "ADOPT would underflow active_parallel_agents.");
  write_budget db task_id rec
    [SetState CLOSED; SetClosedAt (Some now); SetActiveBranches 0;
     SetActiveExecutions (active_executions c - Z.of_nat active);
     SetActiveParallelAgents (active_parallel_agents c - Z.of_nat parallel)] [].

(** ** Tool calls and collection *)

(** [reserve_tool_call_batch]: [missing] are the calls that had no reservation. *)
Definition tool_batch (cfg : ServiceConfig) (db : AgentDB) (task_id : string) (rec : BudgetRow)
    (missing : list (string * string)) : result TBError (option AgentDB) :=
  budget ← budget_from_record rec;
  _ ← require_open budget;
  let proposed := used_tool_calls (tb_counters budget) + Z.of_nat (length missing) in
  _ ← guard_err (cfg_user_tool_quota_enabled cfg ||
                 negb (max_total_tool_calls (tb_limits budget) <? proposed))
        (TaskBudgetExceeded "max_total_tool_calls exceeded");
  write_budget db task_id rec
    [SetUsedToolCalls (if cfg_user_tool_quota_enabled cfg
                       then Z.min proposed (max_total_tool_calls (tb_limits budget)) else proposed)]
    (map (fun kf => {| nr_kind := TOOL_CALL; nr_key := fst kf; nr_fingerprint := snd kf |}) missing).

(** [_mutate_enrolled_resource]: a charge of a task that is enrolled in a user's budget. *)
Definition enrolled_charge (db : AgentDB) (task_id : string) (rec : BudgetRow)
    (kind : TaskBudgetReservationKind) (reservation_key fingerprint : string)
    (mutate : TaskBudget -> result TBError BudgetValues) : result TBError (option AgentDB) :=
  budget ← budget_from_record rec;
  values ← mutate budget;
  write_budget db task_id rec values
    [{| nr_kind := kind; nr_key := reservation_key; nr_fingerprint := fingerprint |}].

(** The end of the deletion of a task: its reservations, then its budget. *)
Definition collect_budget (db : AgentDB) (task_id : string) : AgentDB :=
  with_budgets
    (with_reservations db (filter (fun kv => fst (fst (fst kv)) <> task_id) (db_reservations db)))
    (delete task_id (db_budgets db)).

(** ** Lemmas *)

Definition count_kind (k : TaskBudgetReservationKind) (l : list NewReservation) : Z :=
  Z.of_nat (length (List.filter (fun n => bool_decide (nr_kind n = k)) l)).

Lemma save_reservations_ok t g l db db' r :
  db_budgets db !! t = Some r ->
  save_reservations db t g l = Ok db' ->
  db_budgets db' = db_budgets db /\ db_allocator db' = db_allocator db /\
  (forall k, res_count db' t k = res_count db t k + count_kind k l) /\
  (forall t' k key, t' <> t -> db_reservations db' !! (t', k, key) = db_reservations db !! (t', k, key)) /\
  (forall k key res, db_reservations db' !! (t, k, key) = Some res ->
     db_reservations db !! (t, k, key) = Some res \/ res_generation res = row_generation r).
Proof.
  revert db. induction l as [|n l IH]; intros db Hr H.
  { injection H as <-. split_and!; try done; [|by left]. intros k. unfold count_kind. simpl. lia. }
  apply bind_ok in H as (db1 & Hs & H). unfold lift_store in Hs.
  destruct (save_task_budget_reservation _ _ _ _ _ _) as [d|] eqn:E; [|done]. injection Hs as ->.
  apply save_reservation_ok in E as (r' & Hr' & Hn & ->). simplify_eq.
  destruct (IH (with_reservations db (<[(t, nr_kind n, nr_key n) :=
    {| res_generation := row_generation r; res_fingerprint := nr_fingerprint n |}]> (db_reservations db))) Hr H)
    as (H1 & H2 & H3 & H4 & H5).
  split_and!; [done|done|..].
  - intros k. rw H3. erewrite (res_count_insert db _ t (nr_kind n) (nr_key n)); [|done|reflexivity].
    unfold count_kind. simpl. destruct (decide (nr_kind n = k)) as [->|Hk].
    + rw decide_True // bool_decide_true //=. lia.
    + rw decide_False; [congruence|]. rw bool_decide_false //. lia.
  - intros t' k key Ht. rw H4 //=. rw lookup_insert_ne //. congruence.
  - intros k key res Hl. destruct (H5 k key res Hl) as [Hl'|]; [|by right]. simpl in Hl'.
    rw lookup_insert in Hl'. case_decide; [|by left]. right. by injection Hl' as <-.
Qed.

(** The values move the counters by what the reservations stand for, or less. *)
Record moves (cfg : ServiceConfig) (c c' : Counters) (l : list NewReservation) : Prop := {
  mv_used : used_executions c' - used_executions c = count_kind NEW_EXECUTION l;
  mv_active : active_executions c' - active_executions c <=
    count_kind NEW_EXECUTION l + count_kind RESUME_EXECUTION l - count_kind RELEASE_EXECUTION l;
  mv_branches : active_branches c' - active_branches c <=
    count_kind BRANCH l - count_kind RELEASE_BRANCH l;
  mv_inference : cfg_user_inference_quota_enabled cfg = false ->
    used_inference_calls c' - used_inference_calls c = count_kind INFERENCE l
}.

Section Writers.
Context (cfg : ServiceConfig) (db : AgentDB) (t : string) (rec : BudgetRow).
Context (Hinv : db_inv cfg db) (Hseen : rec_seen db t rec).

Lemma write_budget_disciplined vals l db' :
  (row_checks rec = true -> moves cfg (row_counters rec) (tb_counters (apply_to_budget (row_budget rec) vals)) l) ->
  write_budget db t rec vals l = Ok (Some db') -> other_write cfg db db'.
Proof.
  intros Hm H. apply bind_ok in H as ([d c] & Hc & H). unfold lift_store in Hc.
  destruct (compare_and_set_task_budget _ _ _ _ _) as [[d1 c1]|] eqn:E; [|done]. injection Hc as -> ->.
  destruct c as [r'|]; [|done]. apply bind_ok in H as (d2 & Hs & H). injection H as <-.
  apply cas_budget_some in E as (r & Hr & Hrev & Hg & Er' & Hck & ->).
  destruct Hseen as [_ Hh]. destruct (Hh r Hr Hg) as [_ Heq]. specialize (Heq Hrev). subst r.
  specialize (Hm (inv_checks _ _ Hinv _ _ Hr)).
  destruct (save_reservations_ok t (row_generation rec) l _ d2 r' (lookup_insert_eq _ _ _) Hs)
    as (Hb & Hal & Hn & Ho & Hres). simpl in Hb, Hal, Ho, Hres.
  assert (row_generation r' = row_generation rec) as Hgr by (by subst r').
  destruct Hinv as [Hk Hgen _ Hr0].
  assert (next_generation d2 = next_generation db) as Hng by (unfold next_generation; by rw Hal).
  split; [|lia|].
  - intros t0 r0. rw Hb Hng lookup_insert. case_decide as Hd.
    + subst t0. intros [= <-]. split; [done|]. split; [rw Hgr; by apply (Hgen t)|].
      eapply row_changed; [exact Hr|done|subst r'; unfold row_revision; simpl; lia|].
      destruct Hm as [M1 M2 M3 M4].
      assert (row_counters r' = tb_counters (apply_to_budget (row_budget rec) vals)) as -> by (by subst r').
      split; unfold held_executions, held_branches; rw !Hn; simpl in *.
      4: intros Hq; specialize (M4 Hq).
      all: change (res_count (with_budgets db _)) with (res_count db); lia.
    + intros H0. split; [by apply (Hk t0)|]. split; [by apply (Hgen t0)|].
      apply row_kept; [done|]. intros k key. by apply Ho.
  - intros t0 k key res H0. rw Hb. destruct (decide (t0 = t)) as [->|Hne].
    + exists r'. rw lookup_insert_eq. split; [done|]. destruct (Hres k key res H0) as [H1|H1]; [|done].
      destruct (Hr0 _ _ _ _ H1) as (r1 & Hr1 & ->). simplify_eq. congruence.
    + rw Ho // in H0. rw lookup_insert_ne //. by apply (Hr0 t0 k key).
Qed.

(** The counters after each kind of update, by computation. *)
Ltac solve_moves :=
  intros Hck; unfold row_counters, apply_to_budget, one_more_agent, row_checks, counters_nonneg in *;
  destruct rec as [g [? ? ? ? ? ? ? [] ?]]; simpl in *; breflect;
  split; unfold count_kind; simpl; intros; lia.

Ltac write_moves H := inv_result; eapply write_budget_disciplined; [|exact H].

Lemma root_admission_disciplined b bf x xf db' :
  root_admission db t rec b bf x xf = Ok (Some db') -> other_write cfg db db'.
Proof.
  unfold root_admission. intros H. apply bind_ok in H as (b0 & Hb & H).
  apply budget_from_record_ok in Hb as ->. write_moves H. solve_moves.
Qed.

Lemma fork_admission_disciplined d b bf x xf db' :
  fork_admission db t rec d b bf x xf = Ok (Some db') -> other_write cfg db db'.
Proof. unfold fork_admission. intros H. write_moves H. destruct d; solve_moves. Qed.

Lemma execution_admission_disciplined d x xf db' :
  execution_admission db t rec d x xf = Ok (Some db') -> other_write cfg db db'.
Proof. unfold execution_admission. intros H. write_moves H. destruct d; solve_moves. Qed.

Lemma terminal_close_disciplined now db' :
  terminal_close db t rec now = Ok (Some db') -> other_write cfg db db'.
Proof. unfold terminal_close. intros H. write_moves H. solve_moves. Qed.

Lemma cancel_release_disciplined now n m db' :
  cancel_release db t rec now n m = Ok (Some db') -> other_write cfg db db'.
Proof.
  unfold cancel_release. intros H. apply bind_ok in H as (b0 & Hb & H).
  apply budget_from_record_ok in Hb as ->. write_moves H. solve_moves.
Qed.

Lemma discard_release_disciplined n m db' :
  discard_release db t rec n m = Ok (Some db') -> other_write cfg db db'.
Proof. unfold discard_release. intros H. write_moves H. solve_moves. Qed.

Lemma adopt_release_disciplined now n m db' :
  adopt_release db t rec now n m = Ok (Some db') -> other_write cfg db db'.
Proof. unfold adopt_release. intros H. write_moves H. solve_moves. Qed.

Lemma count_tool_calls k (l : list (string * string)) : k <> TOOL_CALL ->
  count_kind k (map (fun kf => {| nr_kind := TOOL_CALL; nr_key := fst kf; nr_fingerprint := snd kf |}) l) = 0.
Proof.
  intros Hk. unfold count_kind. induction l as [|x l IH]; [done|]. simpl. by rw bool_decide_false.
Qed.

Lemma tool_batch_disciplined missing db' :
  tool_batch cfg db t rec missing = Ok (Some db') -> other_write cfg db db'.
Proof.
  unfold tool_batch. intros H. apply bind_ok in H as (b0 & Hb & H).
  apply budget_from_record_ok in Hb as ->. write_moves H. intros _.
  unfold row_counters, apply_to_budget. destruct rec as [g [? ? ? ? ? ? ? [] ?]].
  split; simpl; rw ?count_tool_calls //; intros; lia.
Qed.

Lemma enrolled_charge_disciplined k key fp m db' : charges cfg k m ->
  enrolled_charge db t rec k key fp m = Ok (Some db') -> other_write cfg db db'.
Proof.
  unfold enrolled_charge. intros Hc H. apply bind_ok in H as (b0 & Hb & H).
  apply budget_from_record_ok in Hb as ->. apply bind_ok in H as (vals & Hv & H).
  write_moves H. intros _. destruct (Hc _ _ Hv) as [C1 C2 C3 C4]. unfold row_counters.
  split; unfold count_kind; simpl.
  4: intros Hq; specialize (C4 Hq).
  all: destruct k; simpl in *; lia.
Qed.

Lemma collect_budget_disciplined : other_write cfg db (collect_budget db t).
Proof.
  destruct Hinv as [Hk Hgen _ Hr0]. split; simpl.
  - intros t0 r0 [Hne H0]%lookup_delete_Some. split; [by apply (Hk t0)|]. split; [by apply (Hgen t0)|].
    apply row_kept; [done|]. intros k key. simpl. apply option_eq. intros res.
    rw map_lookup_filter_Some. simpl. split; [by intros []|]. intros H. by split.
  - done.
  - intros t0 k key res [H Hne]%map_lookup_filter_Some. simpl in Hne. rw lookup_delete_ne //. by apply (Hr0 t0 k key).
Qed.
End Writers.

(** ** Theorem *)

(** The transaction of a writer that read the row [rec], if any, of task [t]. *)
Inductive program_write (cfg : ServiceConfig) (db : AgentDB) (t : string) : AgentDB -> Prop :=
  | PW_open l p b db' : ensure_budget_tx db t l p = Ok (db', b) -> program_write cfg db t db'
  | PW_close snapshot now b db' : close_attempt snapshot db t now = Ok (Some (db', b)) -> program_write cfg db t db'
  | PW_resume x rev d b db' : prepare_resume_capacity_in_uow db t x rev d = Ok (db', b) -> program_write cfg db t db'
  | PW_root rec b bf x xf db' : rec_seen db t rec ->
      root_admission db t rec b bf x xf = Ok (Some db') -> program_write cfg db t db'
  | PW_fork rec d b bf x xf db' : rec_seen db t rec ->
      fork_admission db t rec d b bf x xf = Ok (Some db') -> program_write cfg db t db'
  | PW_execution rec d x xf db' : rec_seen db t rec ->
      execution_admission db t rec d x xf = Ok (Some db') -> program_write cfg db t db'
  | PW_terminal rec now db' : rec_seen db t rec ->
      terminal_close db t rec now = Ok (Some db') -> program_write cfg db t db'
  | PW_cancel rec now n m db' : rec_seen db t rec ->
      cancel_release db t rec now n m = Ok (Some db') -> program_write cfg db t db'
  | PW_discard rec n m db' : rec_seen db t rec ->
      discard_release db t rec n m = Ok (Some db') -> program_write cfg db t db'
  | PW_adopt rec now n m db' : rec_seen db t rec ->
      adopt_release db t rec now n m = Ok (Some db') -> program_write cfg db t db'
  | PW_tools rec missing db' : rec_seen db t rec ->
      tool_batch cfg db t rec missing = Ok (Some db') -> program_write cfg db t db'
  | PW_enrolled rec k key fp m db' : rec_seen db t rec -> charges cfg k m ->
      enrolled_charge db t rec k key fp m = Ok (Some db') -> program_write cfg db t db'
  | PW_collect : program_write cfg db t (collect_budget db t).

(** [program_writes_disciplined]: the transactions that write the budget tables outside the
    reservation loop may be interleaved with it: each obeys the discipline under which the
    loop is linearizable and its budgets account for their reservations. *)
Theorem program_writes_disciplined cfg db t db' :
  db_inv cfg db -> program_write cfg db t db' -> other_write cfg db db'.
Proof.
  intros Hi H. destruct H.
  - apply budget_txn_write; [done|]. by eapply ensure_budget_tx_txn.
  - apply budget_txn_write; [done|]. by eapply close_attempt_txn.
  - apply budget_txn_write; [done|]. by eapply prepare_resume_txn.
  - by eapply root_admission_disciplined.
  - by eapply fork_admission_disciplined.
  - by eapply execution_admission_disciplined.
  - by eapply terminal_close_disciplined.
  - by eapply cancel_release_disciplined.
  - by eapply discard_release_disciplined.
  - by eapply adopt_release_disciplined.
  - by eapply tool_batch_disciplined.
  - by eapply enrolled_charge_disciplined.
  - by apply collect_budget_disciplined.
Qed.

(** A root admission, then its task is cancelled before the execution ran. *)
Definition rooted_db : AgentDB :=
  ok_or demo_open_db (default demo_open_db <$> root_admission demo_open_db "t" demo_row "b" "bf" "x" "xf").
Definition cancelled_db : AgentDB :=
  ok_or rooted_db (default rooted_db <$> cancel_release rooted_db "t"
    (default demo_row (db_budgets rooted_db !! "t")) 9 1 0).

Example cancel_gives_back :
  (fun r => (used_executions (row_counters r), active_executions (row_counters r))) <$>
    db_budgets cancelled_db !! "t" = Some (1, 0) /\
  res_count cancelled_db "t" NEW_EXECUTION = 1 /\ held_executions cancelled_db "t" = 1.
Proof. repeat split; vm_compute; reflexivity. Qed.
