(* ===== verification/ExecutionLease.v ===== *)
(** * Execution leases and fencing
    (the lease methods of src/se/src/infrastructure/storage/repositories/agent.py)

    A RUNNING execution may be owned by one gateway instance under a lease: owner,
    expiry and a fencing generation.  Leases are acquired when unowned, renewed and
    released by the exact owner and generation, and an expired owner is fenced out by a
    compare-and-set that bumps the generation.  Each method is one conditional UPDATE.
    Instants are integers; a value that is not a UTC-aware datetime is [NotUtc]. *)

From S2P Require Import Prelude Canonical TaskBudgetSchema AgentStore.

Inductive LeaseInstant :=
  | Utc (t : Z)
  | NotUtc.

Inductive LeaseError :=
  | LeaseValueError (what : string)
  | LeaseStoreFailure (e : StoreError).

Definition lift_lease {A} (r : result StoreError A) : result LeaseError A :=
  match r with Ok a => Ok a | Err e => Err (LeaseStoreFailure e) end.

(** ** Argument checks *)

Definition require_lease_utc_datetime (v : LeaseInstant) (field : string)
    : result LeaseError Z :=
  match v with
  | Utc t => Ok t
  | NotUtc => Err (LeaseValueError (String.append field
                     " must be a timezone-aware UTC datetime"))
  end.

Definition require_lease_owner (owner : string) : result LeaseError string :=
  if truthy (strip owner) then Ok owner
  else Err (LeaseValueError "owner_instance_id must be a non-empty string").

Definition require_lease_generation (g : Z) : result LeaseError Z :=
  if 0 <? g then Ok g
  else Err (LeaseValueError "lease_generation must be a positive integer").

(** ** Lease mutations *)

Abbreviation LeaseResult := (result LeaseError (AgentDB * option ExecutionRow)).

Definition running (e : ExecutionRow) : bool := bool_decide (e_state e = "RUNNING").

(** Owner and generation of the row. *)
Definition held_by (owner : string) (generation : Z) (e : ExecutionRow) : bool :=
  running e && bool_decide (e_owner_instance_id e = Some owner) &&
  (e_lease_generation e =? generation).

Definition acquire_execution_lease (db : AgentDB) (execution_id owner_instance_id : string)
    (now_utc lease_expires_at : LeaseInstant) : LeaseResult :=
  owner ← require_lease_owner owner_instance_id;
  now ← require_lease_utc_datetime now_utc "now_utc";
  expiry ← require_lease_utc_datetime lease_expires_at "lease_expires_at";
  _ ← guard_err (now <? expiry)
        (LeaseValueError "lease_expires_at must be later than now_utc");
  lift_lease (update_execution_where db execution_id
    (fun e => running e && bool_decide (e_owner_instance_id e = None) &&
              bool_decide (e_lease_expires_at e = None))
    (fun e => apply_exec_values e
       [SetOwner (Some owner); SetLeaseExpiresAt (Some expiry);
        SetLeaseGeneration (e_lease_generation e + 1)])).

Definition expires_between (lo hi : Z) (e : ExecutionRow) : bool :=
  match e_lease_expires_at e with Some t => (lo <? t) && (t <? hi) | None => false end.

Definition renew_execution_lease (db : AgentDB) (execution_id owner_instance_id : string)
    (lease_generation : Z) (now_utc new_lease_expires_at : LeaseInstant) : LeaseResult :=
  owner ← require_lease_owner owner_instance_id;
  generation ← require_lease_generation lease_generation;
  now ← require_lease_utc_datetime now_utc "now_utc";
  expiry ← require_lease_utc_datetime new_lease_expires_at "new_lease_expires_at";
  _ ← guard_err (now <? expiry)
        (LeaseValueError "new_lease_expires_at must be later than now_utc");
  lift_lease (update_execution_where db execution_id
    (fun e => held_by owner generation e && expires_between now expiry e)
    (fun e => apply_exec_values e [SetLeaseExpiresAt (Some expiry)])).

Definition release_execution_lease (db : AgentDB) (execution_id owner_instance_id : string)
    (lease_generation : Z) : LeaseResult :=
  owner ← require_lease_owner owner_instance_id;
  generation ← require_lease_generation lease_generation;
  lift_lease (update_execution_where db execution_id
    (fun e => held_by owner generation e && bool_decide (is_Some (e_lease_expires_at e)))
    (fun e => apply_exec_values e [SetOwner None; SetLeaseExpiresAt None])).

(** ** Fencing an expired owner *)

(** What the caller observed of the lease it wants to take over. *)
Record Observed := {
  o_owner : string;
  o_generation : Z;
  o_expires_at : LeaseInstant;
  o_takeover_now : LeaseInstant
}.

(** The checks both takeovers make; returns the observed expiry and the clock. *)
Definition require_observed (o : Observed) (expected_revision : Z)
    : result LeaseError (Z * Z) :=
  _ ← require_lease_owner (o_owner o);
  _ ← require_lease_generation (o_generation o);
  expiry ← require_lease_utc_datetime (o_expires_at o) "observed_lease_expires_at";
  now ← require_lease_utc_datetime (o_takeover_now o) "takeover_now_utc";
  _ ← guard_err (0 <=? expected_revision)
        (LeaseValueError "expected_revision must be a non-negative integer");
  mret (expiry, now).

(** The WHERE clause both takeovers share. *)
Definition expired_owner (o : Observed) (expected_revision expiry now : Z)
    (e : ExecutionRow) : bool :=
  (e_revision e =? expected_revision) && held_by (o_owner o) (o_generation o) e &&
  bool_decide (e_lease_expires_at e = Some expiry) && (expiry <=? now).

Definition is_fenced_field (f : ExecField) : bool :=
  match f with
  | SetOwner _ | SetLeaseExpiresAt _ | SetLeaseGeneration _ => true
  | _ => false
  end.

Definition is_state_field (f : ExecField) : bool :=
  match f with SetExecState _ | SetWaitReason _ => true | _ => false end.

Definition fixed_state_ok (f : ExecField) : bool :=
  match f with
  | SetExecState s => bool_decide (s = "WAITING")
  | _ => true
  end.

Definition fixed_reason_ok (f : ExecField) : bool :=
  match f with
  | SetWaitReason r => bool_decide (r = Some "RECOVERY")
  | _ => true
  end.

(** [values.get("current_checkpoint_id") or ""]. *)
Definition checkpoint_value (values : ExecValues) : string :=
  default "" (fold_left (fun acc f => match f with SetCheckpoint o => o | _ => acc end)
                values None).

(** [f"{execution_id}:checkpoint:{revision}"]. *)
Definition checkpoint_identity (execution_id : string) (revision : Z) : string :=
  String.append execution_id (String.append ":checkpoint:" (pretty revision)).

(** The column update of a takeover: the fence is always bumped. *)
Definition fenced_values (values : ExecValues) (generation : Z) : ExecValues :=
  values ++ [SetOwner None; SetLeaseExpiresAt None; SetLeaseGeneration (generation + 1)].

Definition compare_and_set_recovery_waiting_execution (db : AgentDB)
    (execution_id : string) (expected_revision : Z) (o : Observed) (values : ExecValues)
    : LeaseResult :=
  '(expiry, now) ← require_observed o expected_revision;
  _ ← guard_err (forallb (fun f => negb (is_fenced_field f)) values)
        (LeaseValueError "recovery transition values may not override fenced fields");
  _ ← guard_err (forallb fixed_state_ok values)
        (LeaseValueError "recovery state is fixed to WAITING");
  _ ← guard_err (forallb fixed_reason_ok values)
        (LeaseValueError "recovery wait_reason is fixed to RECOVERY");
  let checkpoint_id := checkpoint_value values in
  _ ← guard_err (truthy checkpoint_id)
        (LeaseValueError "recovery transition requires current_checkpoint_id");
  _ ← guard_err (bool_decide (checkpoint_id =
                   checkpoint_identity execution_id (expected_revision + 1)))
        (LeaseValueError "recovery current_checkpoint_id must equal deterministic checkpoint identity");
  let next_values := fenced_values
    (List.filter (fun f => negb (is_state_field f)) values ++
     [SetExecState "WAITING"; SetWaitReason (Some "RECOVERY")]) (o_generation o) in
  lift_lease (update_execution_where db execution_id
    (expired_owner o expected_revision expiry now)
    (fun e => set_exec_revision (apply_exec_values e next_values) (expected_revision + 1))).

Definition is_alnum (a : Ascii.ascii) : bool :=
  let n := byte_of a in
  ((48 <=? n) && (n <=? 57)) || ((65 <=? n) && (n <=? 90)) || ((97 <=? n) && (n <=? 122)).

Fixpoint drop_underscores (s : string) : string :=
  match s with
  | EmptyString => EmptyString
  | String a s' => if byte_of a =? 95 then drop_underscores s'
                   else String a (drop_underscores s')
  end.

(** [reason_code.replace("_", "").isalnum()] of a non-empty ASCII string. *)
Definition reason_token (s : string) : bool :=
  truthy s && truthy (drop_underscores s) && string_forallb is_alnum (drop_underscores s).

Definition compare_and_set_expired_execution_terminal (db : AgentDB)
    (execution_id : string) (expected_revision : Z) (o : Observed)
    (reason_code : string) (terminal_context_state : option json) : LeaseResult :=
  '(expiry, now) ← require_observed o expected_revision;
  _ ← guard_err (reason_token reason_code)
        (LeaseValueError "reason_code must be a non-empty token");
  let context := match terminal_context_state with
                 | Some j => [SetColumns [("context_state"%string, j)]]
                 | None => []
                 end in
  let next_values := fenced_values
    ([SetExecState "FAILED"; SetWaitReason None; SetWaitExpiresAt None;
      SetCompletedAt (Some now);
      SetError (Some (String.append "R12_STALE_RECOVERY_UNRECOVERABLE:" reason_code))] ++
     context) (o_generation o) in
  lift_lease (update_execution_where db execution_id
    (expired_owner o expected_revision expiry now)
    (fun e => set_exec_revision (apply_exec_values e next_values) (expected_revision + 1))).

(** ** Observation *)

Definition unexpired (now : Z) (e : ExecutionRow) : bool :=
  match e_lease_expires_at e with Some t => now <? t | None => false end.

Definition has_active_execution_lease_fence (db : AgentDB)
    (execution_id owner_instance_id : string) (lease_generation : Z)
    (now_utc : LeaseInstant) (expected_lease_expires_at : option LeaseInstant)
    : result LeaseError bool :=
  owner ← require_lease_owner owner_instance_id;
  generation ← require_lease_generation lease_generation;
  now ← require_lease_utc_datetime now_utc "now_utc";
  expected ← match expected_lease_expires_at with
             | None => mret None
             | Some v => t ← require_lease_utc_datetime v "expected_lease_expires_at";
                         mret (Some t)
             end;
  mret match get_execution db execution_id with
       | Some e => held_by owner generation e && unexpired now e &&
                   match expected with
                   | Some t => bool_decide (e_lease_expires_at e = Some t)
                   | None => true
                   end
       | None => false
       end.

Definition MAX_EXPIRED_EXECUTION_LEASE_SCAN_LIMIT : Z := 100.

(** The sort key of an expired lease: expiry, then execution id. *)
Abbreviation LeaseKey := (Z * string)%type.

Definition lease_key (ie : string * ExecutionRow) : LeaseKey :=
  (default 0 (e_lease_expires_at (snd ie)), fst ie).

(** Owned RUNNING executions whose lease expired by the cutoff. *)
Definition expired_lease (cutoff : Z) (ie : string * ExecutionRow) : bool :=
  running (snd ie) && bool_decide (is_Some (e_owner_instance_id (snd ie))) &&
  match e_lease_expires_at (snd ie) with Some t => t <=? cutoff | None => false end.

(** All of them in the order of the query. *)
Definition expired_leases (db : AgentDB) (cutoff : Z) : list (string * ExecutionRow) :=
  sort_by lease_key key_ltb
    (List.filter (expired_lease cutoff) (map_to_list (db_executions db))).

Definition list_expired_execution_leases (db : AgentDB) (cutoff_utc : LeaseInstant)
    (limit : Z) (after_expiry : option LeaseInstant) (after_execution_id : option string)
    : result LeaseError (list (string * ExecutionRow)) :=
  cutoff ← require_lease_utc_datetime cutoff_utc "cutoff_utc";
  _ ← guard_err ((0 <? limit) && (limit <=? MAX_EXPIRED_EXECUTION_LEASE_SCAN_LIMIT))
        (LeaseValueError "limit must be an integer between 1 and 100");
  rows ← match after_expiry, after_execution_id with
         | None, None => mret (expired_leases db cutoff)
         | Some v, Some id =>
             t ← require_lease_utc_datetime v "after_expiry";
             _ ← guard_err (truthy id)
                   (LeaseValueError "after_execution_id must be a non-empty string");
             mret (List.filter (fun ie => key_ltb (t, id) (lease_key ie))
                     (expired_leases db cutoff))
         | _, _ => Err (LeaseValueError
             "after_expiry and after_execution_id must be provided together")
         end;
  mret (take (Z.to_nat limit) rows).

(** ** Histories of lease operations *)

(** Every operation that writes the lease columns, and the writes of execution rows that
    leave them alone. *)
Inductive LeaseOp :=
  | OpAcquire (x owner : string) (now expiry : LeaseInstant)
  | OpRenew (x owner : string) (generation : Z) (now expiry : LeaseInstant)
  | OpRelease (x owner : string) (generation : Z)
  | OpRecover (x : string) (revision : Z) (o : Observed) (values : ExecValues)
  | OpTerminal (x : string) (revision : Z) (o : Observed) (reason : string)
      (context : option json)
  | OpSemantic (x : string) (revision : Z) (values : ExecValues)
  | OpInsert (row : ExecutionRow).

(** The database after a call: unchanged when it raised. *)
Definition committed {E A} (db : AgentDB) (r : result E (AgentDB * A)) : AgentDB :=
  match r with Ok (db', _) => db' | Err _ => db end.

(** A semantic update never carries a lease column. *)
Definition lease_apply (db : AgentDB) (op : LeaseOp) : AgentDB :=
  match op with
  | OpAcquire x owner now expiry =>
      committed db (acquire_execution_lease db x owner now expiry)
  | OpRenew x owner g now expiry =>
      committed db (renew_execution_lease db x owner g now expiry)
  | OpRelease x owner g => committed db (release_execution_lease db x owner g)
  | OpRecover x rev o values =>
      committed db (compare_and_set_recovery_waiting_execution db x rev o values)
  | OpTerminal x rev o reason context =>
      committed db (compare_and_set_expired_execution_terminal db x rev o reason context)
  | OpSemantic x rev values =>
      if forallb (fun f => negb (is_fenced_field f)) values then
        committed db (compare_and_set_execution db x rev values)
      else db
  | OpInsert row => match save_execution db row with Ok db' => db' | Err _ => db end
  end.

(** How the lease of one execution may evolve: the generation never decreases, and while
    it stays the owner stays or leaves. *)
Definition lease_evolves (e e' : ExecutionRow) : Prop :=
  e_lease_generation e < e_lease_generation e' \/
  (e_lease_generation e' = e_lease_generation e /\
   (e_owner_instance_id e' = e_owner_instance_id e \/ e_owner_instance_id e' = None)).

(** ** Lemmas *)

Lemma lift_lease_ok {A} (r : result StoreError A) a : lift_lease r = Ok a -> r = Ok a.
Proof. destruct r; naive_solver. Qed.

Lemma bind_lease_ok {A B} (r : result LeaseError A) (k : A -> result LeaseError B) b :
  (r ≫= k) = Ok b -> exists a, r = Ok a /\ k a = Ok b.
Proof. destruct r; simpl; [|done]. intros. eauto. Qed.

Lemma guard_lease_ok {A} (b : bool) (e : LeaseError) (k : unit -> result LeaseError A) a :
  (guard_err b e ≫= k) = Ok a -> b = true /\ k tt = Ok a.
Proof. unfold guard_err. destruct b; naive_solver. Qed.

(** Inversion of the argument checks. *)
Ltac inv_lease :=
  repeat match goal with
  | H : (guard_err ?b _ ≫= _) = Ok _ |- _ =>
      let E := fresh "E" in apply guard_lease_ok in H as [E H]
  | H : (_ ≫= _) = Ok _ |- _ =>
      let x := fresh "x" in let Hx := fresh "Hx" in apply bind_lease_ok in H as (x & Hx & H)
  | H : lift_lease _ = Ok _ |- _ => apply lift_lease_ok in H
  | H : require_lease_owner _ = Ok _ |- _ =>
      unfold require_lease_owner in H; destruct (truthy _); [injection H as <-|discriminate H]
  | H : require_lease_generation _ = Ok _ |- _ =>
      unfold require_lease_generation in H; destruct (0 <? _); [injection H as <-|discriminate H]
  | H : require_lease_utc_datetime ?v _ = Ok _ |- _ =>
      destruct v; [injection H as <-|discriminate H]
  | H : mret _ = Ok _ |- _ => injection H as <-
  end.

Lemma lease_evolves_refl e : lease_evolves e e.
Proof. right. auto. Qed.

Lemma lease_evolves_trans e1 e2 e3 :
  lease_evolves e1 e2 -> lease_evolves e2 e3 -> lease_evolves e1 e3.
Proof.
  intros [H|[H Ho]] [H'|[H' Ho']]; [left; lia..|].
  right. split; [congruence|]. destruct Ho' as [->|]; auto.
Qed.

Lemma apply_exec_values_app e v1 v2 :
  apply_exec_values e (v1 ++ v2) = apply_exec_values (apply_exec_values e v1) v2.
Proof. unfold apply_exec_values. by rw fold_left_app. Qed.

(** Column updates without lease columns keep the lease. *)
Lemma apply_unfenced e values :
  forallb (fun f => negb (is_fenced_field f)) values = true ->
  let e' := apply_exec_values e values in
  e_lease_generation e' = e_lease_generation e /\
  e_owner_instance_id e' = e_owner_instance_id e /\
  e_lease_expires_at e' = e_lease_expires_at e.
Proof.
  revert e. induction values as [|f values IH]; intros e H; simpl in *; [done|].
  apply andb_true_iff in H as [Hf H]. destruct (IH (apply_exec_field e f) H) as (-> & -> & ->).
  destruct e, f; done.
Qed.

Lemma set_exec_revision_lease e r :
  e_lease_generation (set_exec_revision e r) = e_lease_generation e /\
  e_owner_instance_id (set_exec_revision e r) = e_owner_instance_id e /\
  e_lease_expires_at (set_exec_revision e r) = e_lease_expires_at e /\
  e_state (set_exec_revision e r) = e_state e /\
  e_revision (set_exec_revision e r) = r.
Proof. by destruct e. Qed.

Lemma fenced_values_lease e values g :
  let e' := apply_exec_values e (fenced_values values g) in
  e_lease_generation e' = g + 1 /\ e_owner_instance_id e' = None /\
  e_lease_expires_at e' = None /\ e_state e' = e_state (apply_exec_values e values).
Proof.
  unfold fenced_values. rw apply_exec_values_app.
  by destruct (apply_exec_values e values).
Qed.

Lemma held_by_iff owner g e :
  held_by owner g e = true <->
  e_state e = "RUNNING" /\ e_owner_instance_id e = Some owner /\ e_lease_generation e = g.
Proof.
  unfold held_by, running. rw !andb_true_iff !bool_decide_eq_true Z.eqb_eq. naive_solver.
Qed.

(** A conditional update of a row that respects [lease_evolves]. *)
Lemma update_where_evolves db y w s x e :
  (forall e0, w e0 = true -> lease_evolves e0 (s e0)) ->
  db_executions db !! x = Some e ->
  exists e', db_executions (committed db (update_execution_where db y w s)) !! x = Some e' /\
    lease_evolves e e'.
Proof.
  intros Hw Hx. unfold update_execution_where.
  destruct (db_executions db !! y) as [e0|] eqn:Hy; simpl; [|by eauto using lease_evolves_refl].
  destruct (w e0) eqn:Ew; simpl; [|by eauto using lease_evolves_refl].
  destruct (exec_checks _); simpl; [|by eauto using lease_evolves_refl].
  destruct (decide (y = x)) as [->|].
  - simplify_eq. rw lookup_insert_eq. eauto.
  - rw lookup_insert_ne //. eauto using lease_evolves_refl.
Qed.

Lemma committed_err {E A} db (e : E) : committed (A := A) db (Err e) = db.
Proof. done. Qed.

Lemma committed_lift {A} db (r : result StoreError (AgentDB * A)) :
  committed db (lift_lease r) = committed db r.
Proof. by destruct r. Qed.

(** A lease method is a conditional update that respects [lease_evolves]. *)
Definition evolving_update (db : AgentDB) (y : string) (r : LeaseResult) : Prop :=
  forall db' o, r = Ok (db', o) ->
    exists w s, update_execution_where db y w s = Ok (db', o) /\
      forall e0, w e0 = true -> lease_evolves e0 (s e0).

Lemma evolving_update_row db y r x e :
  evolving_update db y r -> db_executions db !! x = Some e ->
  exists e', db_executions (committed db r) !! x = Some e' /\ lease_evolves e e'.
Proof.
  intros Hr Hx. destruct r as [[db' o]|]; simpl; [|by eauto using lease_evolves_refl].
  destruct (Hr db' o eq_refl) as (w & s & Hu & Hw).
  pose proof (update_where_evolves db y w s x e Hw Hx) as H. by rw Hu in H.
Qed.

Lemma acquire_evolves db x owner now expiry :
  evolving_update db x (acquire_execution_lease db x owner now expiry).
Proof.
  intros db' o H. unfold acquire_execution_lease in H. inv_lease.
  eexists _, _. split; [exact H|]. intros e0 _. left. destruct e0. simpl. lia.
Qed.

Lemma renew_evolves db x owner g now expiry :
  evolving_update db x (renew_execution_lease db x owner g now expiry).
Proof.
  intros db' o H. unfold renew_execution_lease in H. inv_lease.
  eexists _, _. split; [exact H|]. intros e0 _. right. destruct e0. simpl. auto.
Qed.

Lemma release_evolves db x owner g :
  evolving_update db x (release_execution_lease db x owner g).
Proof.
  intros db' o H. unfold release_execution_lease in H. inv_lease.
  eexists _, _. split; [exact H|]. intros e0 _. right. destruct e0. simpl. auto.
Qed.

(** A takeover is an update of a row that matches the observed lease, and bumps it. *)
Lemma takeover_evolves o rev expiry now values e0 :
  expired_owner o rev expiry now e0 = true ->
  lease_evolves e0 (set_exec_revision
    (apply_exec_values e0 (fenced_values values (o_generation o))) (rev + 1)).
Proof.
  unfold expired_owner. intros H. breflect. left.
  match goal with Hh : held_by _ _ _ = true |- _ => apply held_by_iff in Hh as (_ & _ & Hh) end.
  destruct (set_exec_revision_lease
    (apply_exec_values e0 (fenced_values values (o_generation o))) (rev + 1)) as (-> & _).
  destruct (fenced_values_lease e0 values (o_generation o)) as (-> & _). lia.
Qed.

Lemma recover_evolves db x rev o values :
  evolving_update db x (compare_and_set_recovery_waiting_execution db x rev o values).
Proof.
  intros db' r H. unfold compare_and_set_recovery_waiting_execution in H.
  inv_lease. destruct x0 as [expiry now]. inv_lease.
  eexists _, _. split; [exact H|]. intros e0. apply takeover_evolves.
Qed.

Lemma terminal_evolves db x rev o reason ctx :
  evolving_update db x (compare_and_set_expired_execution_terminal db x rev o reason ctx).
Proof.
  intros db' r H. unfold compare_and_set_expired_execution_terminal in H.
  inv_lease. destruct x0 as [expiry now]. inv_lease.
  eexists _, _. split; [exact H|]. intros e0. apply takeover_evolves.
Qed.

Lemma lease_apply_evolves db op x e :
  db_executions db !! x = Some e ->
  exists e', db_executions (lease_apply db op) !! x = Some e' /\ lease_evolves e e'.
Proof.
  intros Hx. destruct op as [y w n t|y w g n t|y w g|y rev o v|y rev o rs c|y rev v|row]; simpl.
  - by eapply evolving_update_row; [apply acquire_evolves|].
  - by eapply evolving_update_row; [apply renew_evolves|].
  - by eapply evolving_update_row; [apply release_evolves|].
  - by eapply evolving_update_row; [apply recover_evolves|].
  - by eapply evolving_update_row; [apply terminal_evolves|].
  - destruct (forallb _ v) eqn:Hv; [|by eauto using lease_evolves_refl].
    apply update_where_evolves; [|done]. intros e0 _. right.
    destruct (set_exec_revision_lease (apply_exec_values e0 v) (rev + 1)) as (-> & -> & _).
    destruct (apply_unfenced e0 v Hv) as (-> & -> & _). auto.
  - destruct (save_execution db row) as [db'|] eqn:E; [|by eauto using lease_evolves_refl].
    apply save_execution_ok in E as (Hn & _ & ->). exists e. simpl.
    rw lookup_insert_ne; [congruence|]. by auto using lease_evolves_refl.
Qed.

Lemma runs_evolves db ops x e :
  db_executions db !! x = Some e ->
  exists e', db_executions (runs lease_apply db ops) !! x = Some e' /\ lease_evolves e e'.
Proof.
  revert db e. induction ops as [|op ops IH]; intros db e Hx.
  - eauto using lease_evolves_refl.
  - rw runs_cons. destruct (lease_apply_evolves db op x e Hx) as (e1 & H1 & V1).
    destruct (IH _ _ H1) as (e2 & H2 & V2). eauto using lease_evolves_trans.
Qed.

(** What an exact owner can still do with generation [g]. *)
Record fenced_out (db : AgentDB) (x : string) (g : Z) : Prop := {
  no_renew : forall owner now expiry db' o,
    renew_execution_lease db x owner g now expiry = Ok (db', o) -> o = None;
  no_release : forall owner db' o,
    release_execution_lease db x owner g = Ok (db', o) -> o = None;
  no_fence : forall owner now expected b,
    has_active_execution_lease_fence db x owner g now expected = Ok b -> b = false
}.

Lemma stale_fenced_out db x e g :
  db_executions db !! x = Some e -> g < e_lease_generation e -> fenced_out db x g.
Proof.
  intros Hx Hg. assert (forall owner, held_by owner g e = false) as Hh.
  { intros owner. apply not_true_iff_false. rw held_by_iff. intros (_ & _ & ?). lia. }
  split.
  - intros owner now expiry db' o H. unfold renew_execution_lease in H. inv_lease.
    unfold update_execution_where in H. rw Hx Hh /= in H. by simplify_eq.
  - intros owner db' o H. unfold release_execution_lease in H. inv_lease.
    unfold update_execution_where in H. rw Hx Hh /= in H. by simplify_eq.
  - intros owner now expected b H. unfold has_active_execution_lease_fence, get_execution in H.
    inv_lease; rw Hx Hh //.
Qed.

Lemma require_observed_ok o rev expiry now :
  require_observed o rev = Ok (expiry, now) ->
  o_expires_at o = Utc expiry /\ o_takeover_now o = Utc now.
Proof.
  unfold require_observed. intros H. do 2 apply bind_lease_ok in H as (? & _ & H).
  destruct (o_expires_at o), (o_takeover_now o); simpl in H; try done.
  apply guard_lease_ok in H as [_ H]. by injection H as <- <-.
Qed.

(** The row a successful takeover leaves. *)
Lemma takeover_row db x rev o expiry now values db' e' :
  update_execution_where db x (expired_owner o rev expiry now)
    (fun e => set_exec_revision
       (apply_exec_values e (fenced_values values (o_generation o))) (rev + 1)) =
  Ok (db', Some e') ->
  db_executions db' !! x = Some e' /\ e_lease_generation e' = o_generation o + 1 /\
  e_owner_instance_id e' = None /\ e_revision e' = rev + 1.
Proof.
  intros H. apply update_execution_where_some in H as (e & _ & _ & -> & _ & ->). simpl.
  rw lookup_insert_eq. destruct (set_exec_revision_lease
    (apply_exec_values e (fenced_values values (o_generation o))) (rev + 1))
    as (-> & -> & _ & _ & ->).
  destruct (fenced_values_lease e values (o_generation o)) as (-> & -> & _). done.
Qed.

(** *** Pages of expired leases *)

Lemma expired_leases_sorted db cutoff :
  strictly_sorted lease_key key_ltb (expired_leases db cutoff).
Proof.
  apply sort_by_sorted; [apply _|].
  by apply sort_key_nodup, NoDup_map_filter, NoDup_fst_map_to_list.
Qed.

(** ** A concrete execution *)

Definition held_execution : ExecutionRow := {|
  e_id := "x"; e_agent_id := "agent"; e_task_id := Some "t"; e_branch_id := None;
  e_parent_execution_id := None; e_state := "RUNNING"; e_wait_reason := None;
  e_revision := 3; e_owner_instance_id := Some "a"; e_lease_expires_at := Some 50;
  e_lease_generation := 2; e_current_checkpoint_id := None; e_wait_expires_at := None;
  e_completed_at := None; e_error := None; e_payload := JNull |}.

Definition held_db : AgentDB := {|
  db_tasks := ∅; db_budgets := ∅; db_reservations := ∅;
  db_executions := {["x" := held_execution]}; db_branches := ∅; db_allocator := None;
  db_bindings := ∅ |}.

Definition observed_a : Observed := {|
  o_owner := "a"; o_generation := 2; o_expires_at := Utc 50; o_takeover_now := Utc 60 |}.

Definition recovery_values : ExecValues := [SetCheckpoint (Some "x:checkpoint:4")].

(** ** Theorems *)

(** C5 takeover_fences_owner_forever: a takeover that succeeds (into WAITING(RECOVERY) or
    FAILED) clears the owner and bumps revision and generation, and whatever lease
    operations, semantic updates and inserts run afterwards, no owner can ever again
    renew, release or pass the active-fence check with the fenced generation. *)
Theorem takeover_fences_owner_forever db x rev o values reason ctx db' e' ops :
  compare_and_set_recovery_waiting_execution db x rev o values = Ok (db', Some e') \/
  compare_and_set_expired_execution_terminal db x rev o reason ctx = Ok (db', Some e') ->
  e_owner_instance_id e' = None /\ e_revision e' = rev + 1 /\
  e_lease_generation e' = o_generation o + 1 /\
  fenced_out (runs lease_apply db' ops) x (o_generation o).
Proof.
  intros H. assert (db_executions db' !! x = Some e' /\
    e_lease_generation e' = o_generation o + 1 /\
    e_owner_instance_id e' = None /\ e_revision e' = rev + 1) as (Hx & Hg & Ho & Hr).
  { destruct H as [H|H]; [unfold compare_and_set_recovery_waiting_execution in H
                         |unfold compare_and_set_expired_execution_terminal in H];
      inv_lease; destruct x0 as [expiry now]; inv_lease; by eapply takeover_row. }
  do 3 (split; [done|]).
  destruct (runs_evolves db' ops x e' Hx) as (e2 & H2 & Hv).
  eapply stale_fenced_out; [done|]. destruct Hv as [?|[? _]]; lia.
Qed.

Lemma takeover_fences_owner_forever_witness :
  exists db' e', fenced_out (runs lease_apply db'
    [OpSemantic "x" 4 [SetExecState "RUNNING"]; OpAcquire "x" "b" (Utc 70) (Utc 90)]) "x" 2 /\
    e_lease_generation e' = 3.
Proof.
  destruct (compare_and_set_recovery_waiting_execution held_db "x" 3 observed_a
    recovery_values) as [[db' [e'|]]|] eqn:E;
    [|exfalso; revert E; vm_compute; discriminate..].
  exists db', e'.
  destruct (takeover_fences_owner_forever held_db "x" 3 observed_a recovery_values "" None
    db' e' [OpSemantic "x" 4 [SetExecState "RUNNING"]; OpAcquire "x" "b" (Utc 70) (Utc 90)]
    (or_introl E)) as (_ & _ & Hg & Hf). split; [exact Hf|exact Hg].
Defined.

(** [one_owner_per_generation]: if owner [a] holds generation [g] of an execution's lease
    now, and after any history of operations some owner passes the fence check with the
    same generation, that owner is [a]: a generation is never shared by two owners. *)
Theorem one_owner_per_generation db ops x a b g now now' ex ex' :
  has_active_execution_lease_fence db x a g now ex = Ok true ->
  has_active_execution_lease_fence (runs lease_apply db ops) x b g now' ex' = Ok true ->
  b = a.
Proof.
  assert (forall db o n f, has_active_execution_lease_fence db x o g n f = Ok true ->
    exists e, db_executions db !! x = Some e /\ e_owner_instance_id e = Some o /\
      e_lease_generation e = g) as Hinv.
  { intros d o n f H. unfold has_active_execution_lease_fence, get_execution in H.
    destruct (db_executions d !! x) as [e|]; [|by inv_lease].
    do 4 (apply bind_lease_ok in H as (? & ? & H)). injection H as H. inv_lease.
    breflect. apply held_by_iff in H as (_ & ? & ?). eauto. }
  intros H1%Hinv H2%Hinv. destruct H1 as (e1 & Hx1 & Ho1 & Hg1), H2 as (e2 & Hx2 & Ho2 & Hg2).
  destruct (runs_evolves db ops x e1 Hx1) as (e3 & Hx3 & [Hv|[_ Hv]]); simplify_eq; [lia|].
  destruct Hv; congruence.
Qed.

Lemma one_owner_per_generation_witness : "a"%string = "a"%string.
Proof.
  apply (one_owner_per_generation held_db [OpRenew "x" "a" 2 (Utc 10) (Utc 99)] "x" "a" "a" 2
    (Utc 10) (Utc 60) None (Some (Utc 99))); reflexivity.
Defined.

(** [renewal_defeats_takeover]: a takeover decided on an expiry that was observed before a
    renewal loses against the renewed row, whatever clock it is attempted at. *)
Theorem renewal_defeats_takeover db x owner g now expiry db1 e1 rev o values db2 r :
  renew_execution_lease db x owner g now expiry = Ok (db1, Some e1) ->
  (forall e t, db_executions db !! x = Some e -> e_lease_expires_at e = Some t ->
     o_expires_at o = Utc t) ->
  compare_and_set_recovery_waiting_execution db1 x rev o values = Ok (db2, r) ->
  r = None /\ db2 = db1.
Proof.
  intros H Ho Ht. unfold renew_execution_lease in H. inv_lease.
  apply update_execution_where_some in H as (e & Hx & Hw & -> & _ & ->). breflect.
  unfold expires_between in *. destruct (e_lease_expires_at e) as [u|] eqn:Et; [|done]. breflect.
  specialize (Ho e u Hx Et). unfold compare_and_set_recovery_waiting_execution in Ht.
  inv_lease. destruct x0 as [exp' now']. inv_lease.
  match goal with Hq : require_observed _ _ = Ok _ |- _ =>
    apply require_observed_ok in Hq as [Hq _]; rw Ho in Hq; injection Hq as <- end.
  unfold update_execution_where in Ht. cbn [db_executions with_executions] in Ht.
  rw lookup_insert_eq in Ht.
  assert (expired_owner o rev u now' (apply_exec_values e [SetLeaseExpiresAt (Some t)]) = false)
    as Hf; [|rw Hf in Ht; by simplify_eq].
  unfold expired_owner. rw (bool_decide_false (e_lease_expires_at _ = _)).
  - destruct e. simpl. intros [= ->]. lia.
  - by rw andb_false_r.
Qed.

Lemma renewal_defeats_takeover_witness :
  exists db1, compare_and_set_recovery_waiting_execution db1 "x" 3 observed_a
    recovery_values = Ok (db1, None).
Proof.
  destruct (renew_execution_lease held_db "x" "a" 2 (Utc 40) (Utc 80)) as [[db1 [e1|]]|] eqn:E;
    [|exfalso; revert E; vm_compute; discriminate..].
  exists db1.
  destruct (compare_and_set_recovery_waiting_execution db1 "x" 3 observed_a recovery_values)
    as [[db2 r]|er] eqn:E2.
  - destruct (renewal_defeats_takeover held_db "x" "a" 2 (Utc 40) (Utc 80) db1 e1 3 observed_a
      recovery_values db2 r E) as [Hr Hd]; [|exact E2|by subst].
    intros e t He Ht. vm_compute in He. injection He as <-. by injection Ht as <-.
  - exfalso. revert E2. vm_compute in E. injection E as <- _. vm_compute. discriminate.
Defined.

(** [expired_pages_complete]: resuming the scan of expired leases from the last row of a
    page returns exactly the rows that follow it in (expiry, id) order, so walking the
    pages of an unchanged table visits every expired lease once and in order. *)
Theorem expired_pages_complete db cutoff limit k id e expiry :
  0 < limit <= MAX_EXPIRED_EXECUTION_LEASE_SCAN_LIMIT -> truthy id = true ->
  expired_leases db cutoff !! k = Some (id, e) -> e_lease_expires_at e = Some expiry ->
  list_expired_execution_leases db (Utc cutoff) limit None None =
    Ok (take (Z.to_nat limit) (expired_leases db cutoff)) /\
  list_expired_execution_leases db (Utc cutoff) limit (Some (Utc expiry)) (Some id) =
    Ok (take (Z.to_nat limit) (drop (S k) (expired_leases db cutoff))) /\
  strictly_sorted lease_key key_ltb (expired_leases db cutoff) /\
  expired_leases db cutoff ≡ₚ
    List.filter (expired_lease cutoff) (map_to_list (db_executions db)).
Proof.
  intros [Hl1 Hl2] Hid Hk He. unfold list_expired_execution_leases. simpl.
  rw (proj2 (Z.ltb_lt 0 limit) Hl1) (proj2 (Z.leb_le limit _) Hl2) /= Hid /=.
  split; [done|]. split; [|split; [apply expired_leases_sorted|apply sort_by_perm]].
  rw -(filter_after_key lease_key key_ltb (expired_leases db cutoff) k (id, e)) //.
  - apply expired_leases_sorted.
  - unfold lease_key at 2. by rw /= He.
Qed.

Lemma expired_pages_complete_witness :
  list_expired_execution_leases held_db (Utc 60) 10 (Some (Utc 50)) (Some "x"%string) = Ok [].
Proof.
  refine (proj1 (proj2 (expired_pages_complete held_db 60 10 0 "x" held_execution 50
    _ eq_refl eq_refl eq_refl))). split; [lia|vm_compute; discriminate].
Defined.
