(* ===== verification/Delegation.v ===== *)
(** * Delegation admission
    (TaskBudgetService.resolve_delegation_admission of
    src/se/src/runtimes/agent/task_budget.py)

    The depth and the agent ancestry of a delegated execution are derived by walking
    [parent_execution_id] through the stored executions.  The loop is a function with fuel;
    [walk_terminates] shows that one more than the budget's used executions is enough on
    any database, because the loop itself gives up beyond that count. *)

From S2P Require Import Prelude Canonical TaskBudgetSchema AgentStore TaskBudgetService.
From S2P Require Import TaskBudgetLaws TaskBudgetConcurrency TaskBudgetProperties.
From S2P Require Import TaskBudgetLifecycle.

Record DelegationAdmission := {
  da_task_id : string;
  da_parent_execution_id : option string;
  da_branch_id : option string;
  da_child_agent_id : string;
  da_delegation_depth : Z;
  da_ancestor_execution_ids : list string;
  da_ancestor_agent_ids : list string
}.

(** The lists the loop appends to, and the branch of the first ancestor. *)
Record Walk := {
  wk_executions : list string;
  wk_agents : list string;
  wk_branch : option string
}.

Definition empty_walk : Walk :=
  {| wk_executions := []; wk_agents := []; wk_branch := None |}.

(** One iteration of the loop at an existing id; [seen_execution_ids] is the list of
    executions walked so far. *)
Definition walk_step (db : AgentDB) (task_id : string) (used : Z) (current : string)
    (wk : Walk) : result TBError (option string * Walk) :=
  _ ← guard_err (negb (bool_decide (current ∈ wk_executions wk)))
        (TaskBudgetConflict "Durable Agent delegation lineage contains an execution-id cycle.");
  match get_execution db current with
  | None => Err (TaskBudgetConflict "Delegation parent execution does not exist")
  | Some e =>
      _ ← guard_err (bool_decide (e_task_id e = Some task_id))
            (TaskBudgetConflict "Delegation parent belongs to a different AgentTask.");
      let branch := default "" (e_branch_id e) in
      _ ← guard_err (truthy branch)
            (TaskBudgetConflict "Delegation parent has no normalized TaskBranch.");
      _ ← guard_err match wk_branch wk with
                    | None => true
                    | Some b => bool_decide (branch = b)
                    end
            (TaskBudgetConflict "Delegation ancestry crosses TaskBranch boundaries.");
      let executions := wk_executions wk ++ [current] in
      _ ← guard_err (negb (used <? Z.of_nat (length executions)))
            (TaskBudgetConflict "Durable Agent delegation lineage exceeds the TaskBudget execution history.");
      mret (e_parent_execution_id e,
            {| wk_executions := executions; wk_agents := wk_agents wk ++ [e_agent_id e];
               wk_branch := Some branch |})
  end.

(** The loop; [None] is out of fuel. *)
Fixpoint walk_lineage (fuel : nat) (db : AgentDB) (task_id : string) (used : Z)
    (current : option string) (wk : Walk) : option (result TBError Walk) :=
  match current with
  | None => Some (Ok wk)
  | Some id =>
      match fuel with
      | O => None
      | S fuel' =>
          match walk_step db task_id used id wk with
          | Err e => Some (Err e)
          | Ok (next, wk') => walk_lineage fuel' db task_id used next wk'
          end
      end
  end.

Definition lineage_fuel (used : Z) : nat := S (Z.to_nat used).

(** The checks after the loop. *)
Definition finish_admission (db : AgentDB) (task_id parent child_agent_id : string)
    (budget : TaskBudget) (wk : Walk) : result TBError DelegationAdmission :=
  let depth := Z.of_nat (length (wk_executions wk)) in
  _ ← guard_err (negb (max_delegation_depth (tb_limits budget) <? depth))
        DelegationDepthExceeded;
  _ ← guard_err (negb (tb_deny_cycle budget &&
                       bool_decide (child_agent_id ∈ wk_agents wk)))
        AgentDelegationCycle;
  match wk_branch wk with
  | None => Err (TaskBudgetConflict "Delegated execution could not resolve durable branch.")
  | Some branch_id =>
      _ ← guard_err
            match get_task_branch db branch_id with
            | Some br => bool_decide (br_task_id br = task_id) &&
                         bool_decide (br_resolution_state br = "OPEN")
            | None => false
            end
            (TaskBudgetConflict "Delegated execution requires an OPEN normalized TaskBranch.");
      mret {| da_task_id := task_id; da_parent_execution_id := Some parent;
              da_branch_id := Some branch_id; da_child_agent_id := child_agent_id;
              da_delegation_depth := depth;
              da_ancestor_execution_ids := wk_executions wk;
              da_ancestor_agent_ids := wk_agents wk |}
  end.

Definition resolve_delegation_admission (db : AgentDB) (task_id : string)
    (parent_execution_id : option string) (child_agent_id : string)
    : option (result TBError DelegationAdmission) :=
  if negb (truthy task_id) then Some (Err TaskBudgetRequired)
  else if negb (truthy child_agent_id) then
    Some (Err (ValueError "child_agent_id must be non-empty"))
  else
    match get_task_budget db task_id with
    | None => Some (Err (missing_budget db task_id))
    | Some rec =>
        match (budget ← budget_from_record rec; _ ← require_open budget; mret budget) with
        | Err e => Some (Err e)
        | Ok budget =>
            match parent_execution_id with
            | None =>
                Some (Ok {| da_task_id := task_id; da_parent_execution_id := None;
                            da_branch_id := None; da_child_agent_id := child_agent_id;
                            da_delegation_depth := 0; da_ancestor_execution_ids := [];
                            da_ancestor_agent_ids := [] |})
            | Some parent =>
                let used := used_executions (tb_counters budget) in
                match walk_lineage (lineage_fuel used) db task_id used (Some parent)
                        empty_walk with
                | None => None
                | Some (Err e) => Some (Err e)
                | Some (Ok wk) =>
                    Some (finish_admission db task_id parent child_agent_id budget wk)
                end
            end
        end
    end.

(** ** What the walk has established *)

(** [chain db t ids agents last]: [ids] are executions of the task linked by
    [parent_execution_id], with their agents; [last] is the parent of the last one. *)
Inductive chain (db : AgentDB) (t branch : string)
    : list string -> list string -> option string -> Prop :=
  | chain_one x e :
      get_execution db x = Some e -> e_task_id e = Some t -> e_branch_id e = Some branch ->
      chain db t branch [x] [e_agent_id e] (e_parent_execution_id e)
  | chain_snoc ids agents x e :
      chain db t branch ids agents (Some x) ->
      get_execution db x = Some e -> e_task_id e = Some t -> e_branch_id e = Some branch ->
      chain db t branch (ids ++ [x]) (agents ++ [e_agent_id e]) (e_parent_execution_id e).

Definition walk_ok (db : AgentDB) (t : string) (used : Z) (parent : string)
    (wk : Walk) (next : option string) : Prop :=
  (wk = empty_walk /\ next = Some parent) \/
  exists branch, wk_branch wk = Some branch /\ truthy branch = true /\
    chain db t branch (wk_executions wk) (wk_agents wk) next /\
    head (wk_executions wk) = Some parent /\ NoDup (wk_executions wk) /\
    Z.of_nat (length (wk_executions wk)) <= used.

(** ** Lemmas *)

Section Walk.
Context (db : AgentDB) (t : string) (used : Z).

Lemma walk_step_ok id wk next wk' :
  walk_step db t used id wk = Ok (next, wk') ->
  exists e branch, get_execution db id = Some e /\ e_task_id e = Some t /\
    e_branch_id e = Some branch /\ truthy branch = true /\
    (forall b, wk_branch wk = Some b -> branch = b) /\ (id ∉ wk_executions wk) /\
    wk' = {| wk_executions := wk_executions wk ++ [id];
             wk_agents := wk_agents wk ++ [e_agent_id e]; wk_branch := Some branch |} /\
    next = e_parent_execution_id e /\
    Z.of_nat (length (wk_executions wk ++ [id])) <= used.
Proof.
  unfold walk_step. intros H. apply guard_bind_ok in H as [Hn H].
  destruct (get_execution db id) as [e|] eqn:He; [|done].
  apply guard_bind_ok in H as [Ht H]. apply guard_bind_ok in H as [Hb H].
  apply guard_bind_ok in H as [Hx H]. apply guard_bind_ok in H as [Hl H].
  injection H as <- <-. breflect.
  destruct (e_branch_id e) as [b|] eqn:Eb; [|done]. simpl in *.
  exists e, b. split_and!; try done. intros b' Hb'. rw Hb' in Hx. by breflect.
Qed.

Lemma walk_step_invariant parent id wk next wk' :
  walk_ok db t used parent wk (Some id) -> walk_step db t used id wk = Ok (next, wk') ->
  walk_ok db t used parent wk' next.
Proof.
  intros Hw Hs. apply walk_step_ok in Hs as
    (e & branch & He & Ht & Hb & Htr & Hsame & Hn & -> & -> & Hl).
  right. exists branch. simpl.
  destruct Hw as [[-> [= ->]]|(b & Hwb & _ & Hc & Hh & Hnd & _)].
  - split_and!; try done; simpl; [by constructor|apply NoDup_singleton].
  - specialize (Hsame b Hwb). subst b. split_and!; try done.
    + by constructor.
    + destruct (wk_executions wk); [done|]. by simpl.
    + apply NoDup_app. split_and!; [done| |apply NoDup_singleton].
      intros x Hx Hin. apply list_elem_of_singleton in Hin. by subst.
Qed.

Lemma walk_lineage_ok fuel parent current wk wk' :
  walk_ok db t used parent wk current ->
  walk_lineage fuel db t used current wk = Some (Ok wk') -> walk_ok db t used parent wk' None.
Proof.
  revert current wk. induction fuel as [|fuel IH]; intros [id|] wk Hw H; simpl in H;
    simplify_eq; try done.
  destruct (walk_step db t used id wk) as [[next wk1]|] eqn:Hs; [|done].
  eapply IH; [|exact H]. by eapply walk_step_invariant.
Qed.

(** Fuel for the executions left, and one more to find out that there are too many. *)
Lemma walk_lineage_fuel fuel current wk :
  (length (wk_executions wk) <= Z.to_nat used)%nat ->
  (Z.to_nat used < fuel + length (wk_executions wk))%nat ->
  is_Some (walk_lineage fuel db t used current wk).
Proof.
  revert current wk. induction fuel as [|fuel IH]; intros [id|] wk Hl Hf; simpl in *; eauto;
    [lia|].
  destruct (walk_step db t used id wk) as [[next wk']|] eqn:Hs; [|by eauto].
  apply walk_step_ok in Hs as (e & b & _ & _ & _ & _ & _ & _ & -> & _ & Hl').
  rw length_app /= in Hl'. apply IH; simpl; rw length_app /=; lia.
Qed.
End Walk.

Lemma lineage_fuel_enough used : (Z.to_nat used < lineage_fuel used)%nat.
Proof. unfold lineage_fuel. lia. Qed.

#[local] Opaque lineage_fuel.

(** ** Theorems *)

(** [delegation_admission_total]: resolving a delegation returns or raises on every
    database, also when the stored lineage is cyclic or longer than the budget's execution
    history: the loop makes at most one iteration more than the budget has used
    executions. *)
Theorem delegation_admission_total db t parent child :
  is_Some (resolve_delegation_admission db t parent child).
Proof.
  unfold resolve_delegation_admission.
  destruct (truthy t), (truthy child); simpl; eauto.
  destruct (get_task_budget db t) as [rec|]; [|by eauto].
  destruct (_ ≫= _) as [b|e]; [|by eauto]. destruct parent as [p|]; [|by eauto].
  destruct (walk_lineage_fuel db t (used_executions (tb_counters b))
    (lineage_fuel (used_executions (tb_counters b))) (Some p) empty_walk) as [r Hr];
    [simpl; lia|simpl; rw Nat.add_0_r; apply lineage_fuel_enough|].
  rw Hr. destruct r; eauto.
Qed.

(** [delegation_admission_sound]: an admitted delegation has a real ancestry: the
    ancestors are distinct stored executions of this task, on one open branch of it,
    linked by parent from the given parent up to a root; the reported depth is their
    number and within the policy's maximum and the executions used; and when the policy
    denies cycles the child's agent is none of the ancestors'. *)
Theorem delegation_admission_sound db t p child a :
  resolve_delegation_admission db t (Some p) child = Some (Ok a) ->
  exists rec branch br, db_budgets db !! t = Some rec /\
    tb_state (row_budget rec) = OPEN /\
    chain db t branch (da_ancestor_execution_ids a) (da_ancestor_agent_ids a) None /\
    head (da_ancestor_execution_ids a) = Some p /\ NoDup (da_ancestor_execution_ids a) /\
    da_delegation_depth a = Z.of_nat (length (da_ancestor_execution_ids a)) /\
    da_delegation_depth a <= max_delegation_depth (tb_limits (row_budget rec)) /\
    da_delegation_depth a <= used_executions (row_counters rec) /\
    da_branch_id a = Some branch /\ get_task_branch db branch = Some br /\
    br_task_id br = t /\ br_resolution_state br = "OPEN" /\
    (tb_deny_cycle (row_budget rec) = true -> child ∉ da_ancestor_agent_ids a).
Proof.
  unfold resolve_delegation_admission, get_task_budget.
  destruct (truthy t), (truthy child); simpl; try done.
  destruct (db_budgets db !! t) as [rec|] eqn:Hr; [|done].
  destruct (_ ≫= _) as [b|e] eqn:Hb; [|done].
  apply bind_ok in Hb as (b0 & Hb0 & Hb). apply bind_ok in Hb as ([] & Ho & Hb).
  injection Hb as <-. apply budget_from_record_ok in Hb0 as ->. apply require_open_ok in Ho.
  destruct (walk_lineage _ _ _ _ _ _) as [[wk|]|] eqn:Hw; try done.
  intros [= Hf]. apply walk_lineage_ok with (parent := p) in Hw; [|by left].
  destruct Hw as [[_ ?]|(branch & Hwb & _ & Hc & Hh & Hnd & Hl)]; [done|].
  unfold finish_admission in Hf. rw Hwb in Hf. inv_result.
  destruct (get_task_branch db branch) as [br|] eqn:Ebr; [|done]. breflect.
  exists rec, branch, br. simpl. split_and!; try done.
  intros Hd. match goal with H : _ \/ _ |- _ => destruct H; breflect; [congruence|done] end.
Qed.

(** *** A concrete lineage *)

Definition root_execution : ExecutionRow := {|
  e_id := "root"; e_agent_id := "planner"; e_task_id := Some "t"; e_branch_id := Some "b";
  e_parent_execution_id := None; e_state := "RUNNING"; e_wait_reason := None;
  e_revision := 1; e_owner_instance_id := None; e_lease_expires_at := None;
  e_lease_generation := 0; e_current_checkpoint_id := None; e_wait_expires_at := None;
  e_completed_at := None; e_error := None; e_payload := JNull |}.

Definition open_branch : BranchRow := {|
  br_id := "b"; br_task_id := "t"; br_parent_branch_id := None;
  br_base_execution_id := None; br_base_checkpoint_id := None;
  br_current_execution_id := Some "root"; br_resolution_state := "OPEN";
  br_revision := 0; br_created_at := 0 |}.

Definition lineage_db : AgentDB :=
  with_branches (with_executions (with_budgets empty_db {["t" := busy_row]})
    {["root" := root_execution]}) {["b" := open_branch]}.

Lemma delegation_admission_sound_witness :
  exists a, resolve_delegation_admission lineage_db "t" (Some "root"%string) "worker" =
      Some (Ok a) /\
    da_delegation_depth a = 1 /\ NoDup (da_ancestor_execution_ids a).
Proof.
  eexists. split; [vm_compute; reflexivity|]. split; [reflexivity|].
  match goal with |- NoDup (da_ancestor_execution_ids ?a) =>
    destruct (delegation_admission_sound lineage_db "t" "root" "worker" a) as
      (_ & _ & _ & _ & _ & _ & _ & H & _); [vm_compute; reflexivity|exact H] end.
Defined.

(** With the default policy a delegation whose child agent is the
    parent's own agent is refused. *)
Example planner_cycle_denied :
  resolve_delegation_admission lineage_db "t" (Some "root"%string) "planner" =
  Some (Err AgentDelegationCycle).
Proof. vm_compute. reflexivity. Qed.
