(* ===== verification/TaskActivity.v ===== *)
(** * Task activity
    (reconcile_multibranch_task_activity_in_uow, TaskBudgetService.transition_task and
    create_task_with_budget of src/se/src/runtimes/agent/task_budget.py, with
    AgentRepository.compare_and_set_task_activity)

    The state of a task with several branches is derived from the executions at the heads
    of its OPEN branches.  The derivation is done in Python on rows read earlier; the
    UPDATE that stores it repeats the condition in SQL on the live rows.  A transaction
    that reads and writes takes two databases: the [snapshot] its reads saw and the [db]
    its UPDATE runs on; they coincide when nothing commits in between. *)

From S2P Require Import Prelude Canonical TaskBudgetSchema AgentStore TaskBudgetService.
From S2P Require Import TaskBudgetLaws TaskBudgetConcurrency.

Definition task_terminal (status : string) : bool :=
  bool_decide (status ∈ ["COMPLETED"; "FAILED"; "CANCELLED"]).

Definition is_active_state (s : string) : bool := bool_decide (s ∈ ["CREATED"; "RUNNING"]).
Definition is_waiting_state (s : string) : bool :=
  bool_decide (s ∈ ["WAITING"; "WAITING_FOR_CONNECTION"]).

(** ** The stored-state condition of compare_and_set_task_activity *)

(** The branches of the task that are OPEN, joined with their current execution. *)
Definition open_heads (db : AgentDB) (task_id : string) : list ExecutionRow :=
  omap (fun b => if bool_decide (br_resolution_state b = "OPEN") then
                   id ← br_current_execution_id b; get_execution db id
                 else None)
       (list_task_branches db task_id).

(** The SQL CASE: a non-empty wait_reason, else CONNECTION for a legacy state, else NULL. *)
Definition normalized_reason (e : ExecutionRow) : option string :=
  match e_wait_reason e with
  | Some r => if truthy r then Some r
              else if bool_decide (e_state e = "WAITING_FOR_CONNECTION")
                   then Some "CONNECTION" else None
  | None => if bool_decide (e_state e = "WAITING_FOR_CONNECTION")
            then Some "CONNECTION" else None
  end.

Definition live_waiting_reasons (heads : list ExecutionRow) : list string :=
  omap normalized_reason (List.filter (fun e => is_waiting_state (e_state e)) heads).

(** [sorted({...})]. *)
Definition sorted_set (l : list string) : list string :=
  sort_by id String.ltb (elements (list_to_set l : gset string)).

Definition compare_and_set_task_activity (db : AgentDB) (task_id : string)
    (expected_revision : Z) (target_state : string) (wait_reasons : list string)
    : result TBError (AgentDB * option TaskRow) :=
  let heads := open_heads db task_id in
  let active := existsb (fun e => is_active_state (e_state e)) heads in
  let waiting := existsb (fun e => is_waiting_state (e_state e)) heads in
  let live := live_waiting_reasons heads in
  let expected := sorted_set wait_reasons in
  let store cond :=
    lift_store (update_task_where db task_id
      (fun t => (t_revision t =? expected_revision) && cond)
      (fun t => set_task_revision
         (fold_left apply_task_field [SetStatus target_state; SetWaitReasons wait_reasons] t)
         (expected_revision + 1))) in
  if bool_decide (target_state = "RUNNING") then store active
  else if bool_decide (target_state = "WAITING") then
    _ ← guard_err (negb (bool_decide (expected = [])))
          (ValueError "WAITING Task activity requires at least one wait reason.");
    store (negb active && waiting &&
           forallb (fun r => bool_decide (r ∈ expected)) live &&
           forallb (fun r => bool_decide (r ∈ live)) expected)
  else Err (ValueError "Task activity target must be RUNNING or WAITING.").

(** ** reconcile_multibranch_task_activity_in_uow *)

(** The current executions of the OPEN branches, with their lineage checked. *)
Fixpoint current_executions (db : AgentDB) (task_id : string) (branches : list BranchRow)
    : result TBError (list ExecutionRow) :=
  match branches with
  | [] => Ok []
  | b :: rest =>
      match br_resolution_state b, br_current_execution_id b with
      | st, Some id =>
          if bool_decide (st = "OPEN") then
            match get_execution db id with
            | Some e =>
                _ ← guard_err (bool_decide (e_task_id e = Some task_id) &&
                               bool_decide (e_branch_id e = Some (br_id b)))
                      (TaskBudgetConflict "TaskBranch current_execution_id has invalid durable lineage.");
                tail ← current_executions db task_id rest;
                mret (e :: tail)
            | None => Err (TaskBudgetConflict "TaskBranch current_execution_id has invalid durable lineage.")
            end
          else current_executions db task_id rest
      | _, None => current_executions db task_id rest
      end
  end.

(** The reason the Python loop adds for one execution, if any. *)
Definition derived_reason (e : ExecutionRow) : option string :=
  if is_waiting_state (e_state e) then
    let reason := default "" (e_wait_reason e) in
    let reason := if negb (truthy reason) && bool_decide (e_state e = "WAITING_FOR_CONNECTION")
                  then "CONNECTION"%string else reason in
    if truthy reason then Some reason else None
  else None.

Definition derive_activity (executions : list ExecutionRow)
    : option (string * list string) :=
  if existsb (fun e => is_active_state (e_state e)) executions then Some ("RUNNING"%string, [])
  else
    let reasons := sorted_set (omap derived_reason executions) in
    if bool_decide (reasons = []) then None else Some ("WAITING"%string, reasons).

(** The task row after reconciliation; [None] when the compare-and-set lost. *)
Definition reconcile_multibranch_task_activity_in_uow (snapshot db : AgentDB)
    (task_id : string) (locked_task : option TaskRow)
    : result TBError (AgentDB * option TaskRow) :=
  let task := match locked_task with
              | Some t => Some t
              | None => get_task snapshot task_id
              end in
  match task with
  | None => Err TaskBudgetRequired
  | Some task =>
      _ ← guard_err (bool_decide (t_id task = task_id))
            (TaskBudgetConflict "Locked AgentTask does not match activity task_id.");
      if task_terminal (t_status task) then mret (db, Some task)
      else
        let branches := list_task_branches snapshot task_id in
        if (length branches <=? 1)%nat then mret (db, Some task)
        else
          executions ← current_executions snapshot task_id branches;
          match derive_activity executions with
          | None => mret (db, Some task)
          | Some (target, reasons) =>
              if bool_decide (t_status task = target) &&
                 bool_decide (sort_by id String.ltb (t_wait_reasons task) = reasons)
              then mret (db, Some task)
              else compare_and_set_task_activity db task_id (t_revision task) target reasons
          end
  end.

(** ** transition_task *)

Inductive TransitionError :=
  | TTBudget (e : TBError)
  | TaskHorizonExpired
  | ReviewRequired.

Definition lift_tb {A} (r : result TBError A) : result TransitionError A :=
  match r with Ok a => Ok a | Err e => Err (TTBudget e) end.

Definition horizon_passed (now : Z) (h : option Z) : bool :=
  match h with Some t => t <=? now | None => false end.

(** The activation check at ASSIGNED -> RUNNING. *)
Definition activation_eligible (task : TaskRow) (target_state : string) (now : Z)
    : result TransitionError unit :=
  if bool_decide (t_status task = "ASSIGNED") && bool_decide (target_state = "RUNNING") then
    _ ← guard_err (negb (horizon_passed now (t_task_horizon_at task))) TaskHorizonExpired;
    guard_err (negb (horizon_passed now (t_review_horizon_at task))) ReviewRequired
  else Ok tt.

(** The arguments; the values may carry other columns besides the status. *)
Record TaskTransition := {
  tt_task_id : string;
  tt_allowed : list string;
  tt_target : string;
  tt_values : list TaskField
}.

Definition transition_task_args (q : TaskTransition) : result TransitionError unit :=
  _ ← guard_err (negb (task_terminal (tt_target q)))
        (TTBudget (ValueError "terminal target requires terminalize_task()"));
  guard_err (negb (bool_decide (tt_allowed q = [])))
    (TTBudget (ValueError "allowed_source_states must not be empty")).

(** One attempt of the loop: the task it answers, or [None] to retry. *)
Definition transition_task_attempt (q : TaskTransition) (now : Z) (snapshot db : AgentDB)
    : result TransitionError (option (AgentDB * TaskRow)) :=
  let id := tt_task_id q in
  let target := tt_target q in
  let winner (r : AgentDB * option TaskRow) :=
    match snd r with Some t => Some (fst r, t) | None => None end in
  match get_task snapshot id with
  | None => Err (TTBudget TaskBudgetRequired)
  | Some task =>
      let current := t_status task in
      if task_terminal current then mret (Some (db, task))
      else
        match get_task_budget snapshot id with
        | None => Err (TTBudget (missing_budget snapshot id))
        | Some rec =>
            budget ← lift_tb (budget_from_record rec);
            _ ← lift_tb (require_open budget);
            _ ← guard_err (bool_decide (current ∈ tt_allowed q) || bool_decide (current = target))
                  (TTBudget (TaskBudgetConflict "AgentTask is in an unexpected state"));
            if bool_decide (target = "RUNNING") && bool_decide (current = target) then
              mret (Some (db, task))
            else
              _ ← activation_eligible task target now;
              if bool_decide (target = "WAITING") &&
                 (1 <? length (list_task_branches snapshot id))%nat then
                r ← lift_tb (reconcile_multibranch_task_activity_in_uow snapshot db id (Some task));
                mret (winner r)
              else if bool_decide (current = target) then mret (Some (db, task))
              else
                r ← lift_tb (lift_store (compare_and_set_task db id (t_revision task)
                      (tt_values q ++ [SetStatus target])));
                mret (winner r)
        end
  end.

(** The loop: per attempt the clock, a fault, the rows read and the rows written. *)
Fixpoint transition_task_loop (q : TaskTransition) (n : nat)
    (env : nat -> Z * option DbFault * AgentDB * AgentDB)
    : result TransitionError (AgentDB * TaskRow) :=
  match n with
  | O => Err (TTBudget (TaskBudgetConflict "AgentTask CAS conflicts exhausted"))
  | S n' =>
      let '(now, fault, snapshot, db) := env n in
      match fault with
      | Some LockedOrBusy => transition_task_loop q n' env
      | Some OtherOperational => Err (TTBudget OperationalFailure)
      | None =>
          match transition_task_attempt q now snapshot db with
          | Err e => Err e
          | Ok (Some r) => Ok r
          | Ok None => transition_task_loop q n' env
          end
      end
  end.

Definition transition_task (cfg : ServiceConfig) (q : TaskTransition)
    (env : nat -> Z * option DbFault * AgentDB * AgentDB)
    : result TransitionError (AgentDB * TaskRow) :=
  _ ← transition_task_args q;
  transition_task_loop q (attempts cfg) env.

(** ** create_task_with_budget, without a user-budget authority *)

Definition create_task_with_budget (db : AgentDB) (row : TaskRow)
    (limits : option TaskBudgetLimits) (policy : option TaskBudgetPolicy)
    : result TBError (AgentDB * TaskRow) :=
  _ ← guard_err (truthy (t_id row)) (ValueError "task_values.id must be non-empty");
  match limits, policy with
  | Some l, Some p =>
      _ ← guard_err match t_parent_task_id row with
                    | Some parent => bool_decide (is_Some (get_task db parent))
                    | None => true
                    end (TaskBudgetConflict "Parent AgentTask not found");
      _ ← guard_err (bool_decide (get_task db (t_id row) = None))
            (TaskBudgetConflict "AgentTask already exists");
      db1 ← lift_store (save_task db row);
      saved ← lift_store (save_task_budget db1 (new_budget_values (t_id row) l p
                (task_budget_policy_fingerprint l p)));
      mret (fst saved, row)
  | _, _ => Err TaskBudgetRequired
  end.

(** ** Lemmas *)

Lemma sorted_set_elem l x : x ∈ sorted_set l <-> x ∈ l.
Proof. unfold sorted_set. rw sort_by_perm elem_of_elements. set_solver. Qed.

Lemma elem_of_forallb {A} (P : A -> bool) l :
  forallb P l = true <-> forall x, x ∈ l -> P x = true.
Proof. rw forallb_forall. setoid_rewrite list_elem_of_In. done. Qed.

Lemma elem_of_existsb {A} (P : A -> bool) l :
  existsb P l = true <-> exists x, x ∈ l /\ P x = true.
Proof. rw existsb_exists. setoid_rewrite list_elem_of_In. done. Qed.

(** The Python derivation of a reason is the SQL one. *)
Lemma derived_reason_normalized e :
  derived_reason e = if is_waiting_state (e_state e) then normalized_reason e else None.
Proof.
  unfold derived_reason, normalized_reason. destruct (is_waiting_state _); [|done].
  destruct (e_wait_reason e) as [r|]; simpl.
  - destruct (truthy r) eqn:Et; simpl; [by rw Et|]. destruct (bool_decide _); simpl; [done|].
    by rw Et.
  - by destruct (bool_decide _).
Qed.

Lemma derived_reasons_live executions :
  omap derived_reason executions = live_waiting_reasons executions.
Proof.
  unfold live_waiting_reasons. induction executions as [|e l IH]; simpl; [done|].
  rw derived_reason_normalized. destruct (is_waiting_state _); simpl; [|exact IH].
  destruct (normalized_reason e); [f_equal|]; exact IH.
Qed.

Lemma current_executions_heads db t branches executions :
  current_executions db t branches = Ok executions ->
  executions = omap (fun b => if bool_decide (br_resolution_state b = "OPEN") then
                       id ← br_current_execution_id b; get_execution db id else None) branches.
Proof.
  revert executions. induction branches as [|b rest IH]; intros executions H; simpl in *;
    [by simplify_eq|].
  destruct (br_current_execution_id b) as [id|]; simpl.
  - destruct (bool_decide _); [|by apply IH]. destruct (get_execution db id) as [e|]; [|done].
    apply guard_bind_ok in H as [_ H]. apply bind_ok in H as (tail & Ht & H).
    injection H as <-. f_equal. by apply IH.
  - destruct (bool_decide _); by apply IH.
Qed.

Lemma derive_waiting executions reasons :
  derive_activity executions = Some ("WAITING"%string, reasons) ->
  existsb (fun e => is_active_state (e_state e)) executions = false /\
  reasons = sorted_set (live_waiting_reasons executions) /\ reasons <> [].
Proof.
  unfold derive_activity. destruct (existsb _ _); [done|]. rw derived_reasons_live.
  case_bool_decide; [done|]. by intros [= <-].
Qed.

Lemma derive_cases executions target reasons :
  derive_activity executions = Some (target, reasons) ->
  (target = "RUNNING" /\ existsb (fun e => is_active_state (e_state e)) executions = true) \/
  target = "WAITING".
Proof.
  unfold derive_activity. destruct (existsb _ _); [intros [= <- <-]; auto|].
  case_bool_decide; [done|]. intros [= <- <-]. auto.
Qed.

Lemma waiting_reason_exists heads r :
  r ∈ live_waiting_reasons heads ->
  existsb (fun e => is_waiting_state (e_state e)) heads = true.
Proof.
  unfold live_waiting_reasons. rw list_elem_of_omap. intros (e & He & _).
  apply list_elem_of_In, filter_In in He as [Hin Hw]. apply existsb_exists. eauto.
Qed.

Lemma update_task_where_hit db id t w s :
  db_tasks db !! id = Some t -> w t = true -> task_checks (s t) = true ->
  update_task_where db id w s = Ok (with_tasks db (<[id := s t]> (db_tasks db)), Some (s t)).
Proof. intros Ht Hw Hc. unfold update_task_where. by rw Ht Hw Hc. Qed.

(** The derived activity of the live rows passes the live condition. *)
Lemma derived_activity_stores db id task executions target reasons :
  db_tasks db !! id = Some task -> task_checks task = true ->
  current_executions db id (list_task_branches db id) = Ok executions ->
  derive_activity executions = Some (target, reasons) ->
  exists db' t', compare_and_set_task_activity db id (t_revision task) target reasons =
      Ok (db', Some t') /\
    db' = with_tasks db (<[id := t']> (db_tasks db)) /\
    t_status t' = target /\ t_wait_reasons t' = reasons /\ t_revision t' = t_revision task + 1.
Proof.
  intros Ht Hck Hx Hd. apply current_executions_heads in Hx. fold (open_heads db id) in Hx.
  subst executions. unfold compare_and_set_task_activity.
  assert (Hck' : task_checks (set_task_revision (fold_left apply_task_field
    [SetStatus target; SetWaitReasons reasons] task) (t_revision task + 1)) = true).
  { unfold task_checks in *. destruct task; simpl in *. breflect.
    rw (proj2 (Z.leb_le _ _)); [lia|]. by rw H1 H0. }
  destruct (derive_cases _ _ _ Hd) as [[-> Ha]| ->].
  - cbv zeta. rw bool_decide_true // Ha. rw (update_task_where_hit db id task) //.
    + by rw Z.eqb_refl.
    + simpl. eexists _, _. split; [done|]. by destruct task.
  - destruct (derive_waiting _ _ Hd) as (Ha & Hr & Hne). cbv zeta.
    rw (bool_decide_false ("WAITING"%string = _)) // (bool_decide_true ("WAITING"%string = _)) //.
    assert (forall x, x ∈ sorted_set reasons <-> x ∈ live_waiting_reasons (open_heads db id))
      as Hs. { intros x. rw sorted_set_elem Hr sorted_set_elem. done. }
    destruct reasons as [|r0 rs]; [done|].
    rw (bool_decide_false (sorted_set _ = [])).
    { intros E. pose proof (proj2 (sorted_set_elem (r0 :: rs) r0)) as F. rw E in F. set_solver. }
    simpl. rw (update_task_where_hit db id task) //.
    + rw Z.eqb_refl Ha /=. rw (waiting_reason_exists _ r0).
      { apply Hs, sorted_set_elem. set_solver. }
      simpl. apply andb_true_iff. split; apply elem_of_forallb; intros x Hx;
        apply bool_decide_eq_true; by apply Hs.
    + simpl. eexists _, _. split; [done|]. by destruct task.
Qed.

Lemma cas_activity_some db id rev target reasons db' t' :
  compare_and_set_task_activity db id rev target reasons = Ok (db', Some t') ->
  exists t, db_tasks db !! id = Some t /\ t_revision t = rev /\
    t_status t' = target /\ t_wait_reasons t' = reasons /\ t_revision t' = rev + 1 /\
    db' = with_tasks db (<[id := t']> (db_tasks db)) /\
    let heads := open_heads db id in
    (target = "RUNNING" /\ existsb (fun e => is_active_state (e_state e)) heads = true \/
     target = "WAITING" /\ existsb (fun e => is_active_state (e_state e)) heads = false /\
     existsb (fun e => is_waiting_state (e_state e)) heads = true /\
     forall r, r ∈ reasons <-> r ∈ live_waiting_reasons heads).
Proof.
  assert (forall cond, lift_store (update_task_where db id
    (fun t => (t_revision t =? rev) && cond)
    (fun t => set_task_revision (fold_left apply_task_field
       [SetStatus target; SetWaitReasons reasons] t) (rev + 1))) = Ok (db', Some t') ->
    cond = true /\ exists t, db_tasks db !! id = Some t /\ t_revision t = rev /\
    t_status t' = target /\ t_wait_reasons t' = reasons /\ t_revision t' = rev + 1 /\
    db' = with_tasks db (<[id := t']> (db_tasks db))) as Hst.
  { intros cond H. unfold lift_store in H. destruct (update_task_where _ _ _ _) as [[d o]|] eqn:E;
      simplify_eq. apply update_task_where_some in E as (t & Ht & Hw & -> & _ & ->).
    breflect. split; [done|]. exists t. destruct t. simpl in *. by subst. }
  unfold compare_and_set_task_activity. cbv zeta. intros H.
  destruct (decide (target = "RUNNING")) as [->|Hr].
  - rw bool_decide_true // in H. apply Hst in H as (Hc & t & H). exists t. naive_solver.
  - rw bool_decide_false // in H. destruct (decide (target = "WAITING")) as [->|Hw].
    + rw bool_decide_true // in H. apply guard_bind_ok in H as [_ H].
      apply Hst in H as (Hc & t & H). exists t.
      apply andb_true_iff in Hc as [Hc Hexp]. apply andb_true_iff in Hc as [Hc Hlive].
      apply andb_true_iff in Hc as [Ha Hwt]. apply negb_true_iff in Ha.
      destruct_and! H. split_and!; try done. right. split_and!; try done.
      intros r. rw -(sorted_set_elem reasons r).
      pose proof (proj1 (elem_of_forallb _ _) Hlive r) as F1.
      pose proof (proj1 (elem_of_forallb _ _) Hexp r) as F2.
      split; intros Hin; [by apply F2 in Hin; breflect|by apply F1 in Hin; breflect].
    + by rw bool_decide_false // in H.
Qed.

(** ** Theorems *)

(** C16 reconcile_agrees_with_store: deriving the activity of a multi-branch task in Python
    and storing it through the SQL condition agree: when the rows read are the rows
    written, reconciliation never loses its compare-and-set, and a task it changes gets
    exactly the derived state and wait reasons and the next revision. *)
Theorem reconcile_agrees_with_store db id task db' r :
  db_tasks db !! id = Some task -> task_checks task = true ->
  reconcile_multibranch_task_activity_in_uow db db id (Some task) = Ok (db', r) ->
  exists t', r = Some t' /\
  ((db' = db /\ t' = task) \/
   exists executions, current_executions db id (list_task_branches db id) = Ok executions /\
     derive_activity executions = Some (t_status t', t_wait_reasons t') /\
     t_revision t' = t_revision task + 1 /\
     db' = with_tasks db (<[id := t']> (db_tasks db))).
Proof.
  intros Ht Hck H. unfold reconcile_multibranch_task_activity_in_uow in H.
  apply guard_bind_ok in H as [_ H].
  destruct (task_terminal _); [injection H as <- <-; eauto|].
  destruct (_ <=? 1)%nat; [injection H as <- <-; eauto|].
  apply bind_ok in H as (executions & Hx & H).
  destruct (derive_activity executions) as [[target reasons]|] eqn:Hd;
    [|injection H as <- <-; eauto].
  destruct (_ && _); [injection H as <- <-; eauto|].
  destruct (derived_activity_stores _ _ _ _ _ _ Ht Hck Hx Hd) as
    (db2 & t' & Hc & -> & Hs & Hw & Hr). rw Hc in H. injection H as <- <-.
  exists t'. split; [done|]. right. exists executions. by rw Hs Hw.
Qed.

(** [activity_write_matches_live_rows]: whatever stale rows a derivation was made from, an
    activity that is stored matches the rows at the moment of the write: RUNNING only if
    some OPEN branch head is CREATED or RUNNING; WAITING only if none is, some head waits,
    and the stored reasons are exactly the reasons of the waiting heads. *)
Theorem activity_write_matches_live_rows snapshot db id task db' t' :
  reconcile_multibranch_task_activity_in_uow snapshot db id (Some task) = Ok (db', Some t') ->
  db' <> db ->
  let heads := open_heads db id in
  (t_status t' = "RUNNING" /\
   existsb (fun e => is_active_state (e_state e)) heads = true) \/
  (t_status t' = "WAITING" /\
   existsb (fun e => is_active_state (e_state e)) heads = false /\
   existsb (fun e => is_waiting_state (e_state e)) heads = true /\
   forall r, r ∈ t_wait_reasons t' <-> r ∈ live_waiting_reasons heads).
Proof.
  intros H Hne. unfold reconcile_multibranch_task_activity_in_uow in H.
  apply guard_bind_ok in H as [_ H].
  destruct (task_terminal _); [by injection H as <- <-|].
  destruct (_ <=? 1)%nat; [by injection H as <- <-|].
  apply bind_ok in H as (executions & _ & H).
  destruct (derive_activity executions) as [[target reasons]|]; [|by injection H as <- <-].
  destruct (_ && _); [by injection H as <- <-|].
  apply cas_activity_some in H as (t & _ & _ & -> & -> & _ & _ & H). naive_solver.
Qed.

(** The rows a transaction read are the stored ones unless the revision moved. *)
Definition task_read_ok (snapshot db : AgentDB) (id : string) : Prop :=
  forall ts td, db_tasks snapshot !! id = Some ts -> db_tasks db !! id = Some td ->
    t_revision ts = t_revision td -> ts = td.

Lemma lift_tb_ok {A} (r : result TBError A) a : lift_tb r = Ok a -> r = Ok a.
Proof. destruct r; naive_solver. Qed.

Lemma cas_task_stale db id rev vals td r :
  db_tasks db !! id = Some td -> t_revision td <> rev ->
  lift_store (compare_and_set_task db id rev vals) = Ok r -> r = (db, None).
Proof.
  intros Hd Hne. unfold compare_and_set_task, update_task_where. rw Hd.
  apply Z.eqb_neq in Hne. rw Hne /=. by intros [= <-].
Qed.

(** A reconciliation of a task read before a concurrent write stores nothing. *)
Lemma reconcile_stale snapshot db id ts td r :
  db_tasks db !! id = Some td -> t_revision td <> t_revision ts ->
  reconcile_multibranch_task_activity_in_uow snapshot db id (Some ts) = Ok r -> fst r = db.
Proof.
  intros Hd Hne H. unfold reconcile_multibranch_task_activity_in_uow in H.
  apply guard_bind_ok in H as [_ H].
  destruct (task_terminal _); [by injection H as <-|].
  destruct (_ <=? 1)%nat; [by injection H as <-|].
  apply bind_ok in H as (executions & _ & H).
  destruct (derive_activity executions) as [[target reasons]|]; [|by injection H as <-].
  destruct (_ && _); [by injection H as <-|].
  destruct r as [db' [t'|]].
  - apply cas_activity_some in H as (t & Ht & Hr & _). congruence.
  - unfold compare_and_set_task_activity, update_task_where in H. cbv zeta in H. rw Hd in H.
    apply Z.eqb_neq in Hne. rw Hne /= in H.
    repeat crush_step_in H; try apply guard_bind_ok in H as [_ H]; by simplify_eq.
Qed.

Lemma attempt_keeps_terminal q now snapshot db td r :
  db_tasks db !! tt_task_id q = Some td -> task_terminal (t_status td) = true ->
  task_read_ok snapshot db (tt_task_id q) ->
  transition_task_attempt q now snapshot db = Ok (Some r) -> fst r = db.
Proof.
  intros Hd Ht Hok H. unfold transition_task_attempt in H.
  destruct (get_task snapshot (tt_task_id q)) as [ts|] eqn:Hs; [|done].
  destruct (task_terminal (t_status ts)) eqn:Ets; [by injection H as <-|].
  assert (t_revision td <> t_revision ts) as Hrev.
  { intros E. rw (Hok ts td Hs Hd) in Ets; [done|]. congruence. }
  destruct (get_task_budget _ _); [|done].
  do 3 apply bind_ok in H as (? & _ & H).
  destruct (_ && _); [by injection H as <-|]. apply bind_ok in H as (? & _ & H).
  destruct (_ && _).
  - apply bind_ok in H as ([db' [t'|]] & Hr & H); [|done]. injection H as <-. simpl.
    apply lift_tb_ok in Hr. by apply (reconcile_stale _ _ _ _ td) in Hr.
  - destruct (bool_decide _); [by injection H as <-|].
    apply bind_ok in H as ([db' o] & Hr & H). apply lift_tb_ok in Hr.
    apply (cas_task_stale _ _ _ _ td) in Hr; [|done..]. by simplify_eq.
Qed.

(** [terminal_task_not_resurrected]: once a task is stored as COMPLETED, FAILED or
    CANCELLED, [transition_task] never changes the database, whatever rows its attempts
    read before, whatever clock they see and however often they are retried. *)
Theorem terminal_task_not_resurrected cfg q env :
  (forall i, let '(_, _, snapshot, db) := env i in
     task_read_ok snapshot db (tt_task_id q) /\
     exists td, db_tasks db !! tt_task_id q = Some td /\ task_terminal (t_status td) = true) ->
  forall db' t, transition_task cfg q env = Ok (db', t) -> exists i, db' = snd (env i).
Proof.
  intros Henv db' t H. unfold transition_task in H. apply bind_ok in H as (? & _ & H).
  revert H. generalize (attempts cfg) as n. induction n as [|n IH]; simpl; [done|].
  specialize (Henv (S n)) as Hi. destruct (env (S n)) as [[[now fault] snapshot] db] eqn:Ee.
  destruct Hi as (Hok & td & Hd & Ht). destruct fault as [[]|]; [exact IH|done|].
  destruct (transition_task_attempt q now snapshot db) as [[r|]|] eqn:Ha; [|exact IH|done].
  intros [= ->]. apply (attempt_keeps_terminal _ _ _ _ td) in Ha; [|done..].
  exists (S n). by rw Ee.
Qed.

Definition finished_task : TaskRow := {|
  t_id := "t"; t_status := "COMPLETED"; t_wait_reasons := []; t_revision := 5;
  t_parent_task_id := None; t_task_horizon_at := None; t_review_horizon_at := None;
  t_payload := JNull |}.

Definition finished_db : AgentDB := {|
  db_tasks := {["t" := finished_task]}; db_budgets := ∅; db_reservations := ∅;
  db_executions := ∅; db_branches := ∅; db_allocator := None; db_bindings := ∅ |}.

Definition start_transition : TaskTransition := {|
  tt_task_id := "t"; tt_allowed := ["ASSIGNED"]; tt_target := "RUNNING"; tt_values := [] |}.

Definition one_retry : ServiceConfig := {|
  cfg_max_conflict_retries := 2; cfg_dual_accounting := false;
  cfg_user_tool_quota_enabled := false; cfg_user_inference_quota_enabled := false |}.

Lemma terminal_task_not_resurrected_witness :
  exists i, finished_db =
    snd ((fun n : nat => (0, if (n =? 2)%nat then Some LockedOrBusy else None,
                          finished_db, finished_db)) i).
Proof.
  apply (terminal_task_not_resurrected one_retry start_transition
    (fun n : nat => (0, if (n =? 2)%nat then Some LockedOrBusy else None,
                     finished_db, finished_db))) with (t := finished_task); [|reflexivity].
  intros i. split; [intros ts td; congruence|]. exists finished_task. done.
Defined.

(** [activation_respects_horizons]: a task stored as ASSIGNED becomes RUNNING only when
    neither its task horizon nor its review horizon has been reached at the clock of the
    winning attempt, only if the caller allowed ASSIGNED, and only while its budget is
    open. *)
Theorem activation_respects_horizons q now db db' task t' :
  db_tasks db !! tt_task_id q = Some task -> t_status task = "ASSIGNED" ->
  tt_target q = "RUNNING" ->
  transition_task_attempt q now db db = Ok (Some (db', t')) ->
  (forall h, t_task_horizon_at task = Some h -> now < h) /\
  (forall h, t_review_horizon_at task = Some h -> now < h) /\
  "ASSIGNED"%string ∈ tt_allowed q /\
  (exists rec, db_budgets db !! tt_task_id q = Some rec /\ tb_state (row_budget rec) = OPEN) /\
  t_status t' = "RUNNING" /\ t_revision t' = t_revision task + 1.
Proof.
  intros Ht Hs Htg H. unfold transition_task_attempt, get_task, get_task_budget in H.
  rw Ht Hs Htg /= in H. destruct (db_budgets db !! _) as [rec|]; [|done].
  apply bind_ok in H as (b & Hb & H). apply lift_tb_ok, budget_from_record_ok in Hb as ->.
  apply bind_ok in H as ([] & Ho & H). apply lift_tb_ok, require_open_ok in Ho.
  apply guard_bind_ok in H as [Hal H]. simpl in H. apply bind_ok in H as ([] & Hel & H).
  unfold activation_eligible in Hel. rw Hs /= in Hel.
  apply guard_bind_ok in Hel as [Hh1 Hel].
  assert (negb (horizon_passed now (t_review_horizon_at task)) = true) as Hh2
    by (unfold guard_err in Hel; destruct (negb (horizon_passed now (t_review_horizon_at task)));
        done). clear Hel.
  apply bind_ok in H as ([d o] & Hc & H). apply lift_tb_ok in Hc. unfold lift_store in Hc.
  destruct (compare_and_set_task _ _ _ _) as [[d2 o2]|] eqn:Ec; [|done]. injection Hc as -> ->.
  simpl in H. destruct o as [tn|]; [|done]. injection H as <- <-.
  apply update_task_where_some in Ec as (t0 & Ht0 & _ & -> & _ & _). simplify_eq.
  unfold horizon_passed in *. split_and!.
  - intros h Eh. rw Eh in Hh1. by breflect.
  - intros h Eh. rw Eh in Hh2. by breflect.
  - apply orb_true_iff in Hal as [?|?]; by breflect.
  - eauto.
  - rw fold_left_app /=. by destruct (fold_left _ _ _).
  - by destruct (fold_left _ _ _).
Qed.

(** *** A task with two branches *)

Definition small_limits : TaskBudgetLimits := {|
  max_total_executions := 4; max_active_executions := 4; max_active_branches := 4;
  max_parallel_agents := 2; max_total_tool_calls := 5; max_total_inference_calls := 5;
  max_delegation_depth := 3; max_total_tokens := None; max_total_cost := None |}.

Definition hex64 : string :=
  "0123456789abcdef0123456789abcdef0123456789abcdef0123456789abcdef".

Definition small_row : BudgetRow := {|
  row_generation := 1;
  row_budget := {| tb_task_id := "t"; tb_revision := 0; tb_state := OPEN;
    tb_limits := small_limits; tb_policy_version := "v1"; tb_policy_fingerprint := hex64;
    tb_deny_cycle := true; tb_counters := zero_counters; tb_closed_at := None |} |}.

Definition task_in (status : string) (horizon : option Z) : TaskRow := {|
  t_id := "t"; t_status := status; t_wait_reasons := []; t_revision := 1;
  t_parent_task_id := None; t_task_horizon_at := horizon; t_review_horizon_at := None;
  t_payload := JNull |}.

Definition head_execution (id branch state : string) (reason : option string)
    : ExecutionRow := {|
  e_id := id; e_agent_id := "agent"; e_task_id := Some "t"; e_branch_id := Some branch;
  e_parent_execution_id := None; e_state := state; e_wait_reason := reason;
  e_revision := 1; e_owner_instance_id := None; e_lease_expires_at := None;
  e_lease_generation := 0; e_current_checkpoint_id := None; e_wait_expires_at := None;
  e_completed_at := None; e_error := None; e_payload := JNull |}.

Definition branch_of (id execution : string) : BranchRow := {|
  br_id := id; br_task_id := "t"; br_parent_branch_id := None;
  br_base_execution_id := None; br_base_checkpoint_id := None;
  br_current_execution_id := Some execution; br_resolution_state := "OPEN";
  br_revision := 0; br_created_at := 0 |}.

Definition branched_db (task : TaskRow) (state1 : string) : AgentDB := {|
  db_tasks := {["t" := task]}; db_budgets := {["t" := small_row]}; db_reservations := ∅;
  db_executions := {["e1" := head_execution "e1" "b1" state1 (Some "TOOL");
                     "e2" := head_execution "e2" "b2" "WAITING_FOR_CONNECTION" None]};
  db_branches := {["b1" := branch_of "b1" "e1"; "b2" := branch_of "b2" "e2"]};
  db_allocator := None; db_bindings := ∅ |}.

Lemma reconcile_agrees_with_store_witness :
  exists db' t', reconcile_multibranch_task_activity_in_uow
      (branched_db (task_in "RUNNING" None) "WAITING")
      (branched_db (task_in "RUNNING" None) "WAITING") "t" (Some (task_in "RUNNING" None)) =
    Ok (db', Some t') /\ t_wait_reasons t' = ["CONNECTION"; "TOOL"].
Proof.
  destruct (reconcile_multibranch_task_activity_in_uow
      (branched_db (task_in "RUNNING" None) "WAITING")
      (branched_db (task_in "RUNNING" None) "WAITING") "t" (Some (task_in "RUNNING" None)))
    as [[db' r]|] eqn:E; [|exfalso; revert E; vm_compute; discriminate].
  destruct (reconcile_agrees_with_store (branched_db (task_in "RUNNING" None) "WAITING") "t"
    (task_in "RUNNING" None) db' r eq_refl eq_refl E) as (t' & -> & H).
  exists db', t'. split; [reflexivity|]. vm_compute in E. injection E as _ <-. reflexivity.
Defined.

Lemma activity_write_matches_live_rows_witness :
  exists db' t', reconcile_multibranch_task_activity_in_uow
      (branched_db (task_in "RUNNING" None) "WAITING")
      (branched_db (task_in "RUNNING" None) "WAITING") "t" (Some (task_in "RUNNING" None)) =
    Ok (db', Some t') /\
    (t_status t' = "RUNNING" \/ t_status t' = "WAITING").
Proof.
  destruct (reconcile_multibranch_task_activity_in_uow
      (branched_db (task_in "RUNNING" None) "WAITING")
      (branched_db (task_in "RUNNING" None) "WAITING") "t" (Some (task_in "RUNNING" None)))
    as [[db' [t'|]]|] eqn:E; [|exfalso; revert E; vm_compute; discriminate..].
  exists db', t'. split; [reflexivity|].
  destruct (activity_write_matches_live_rows (branched_db (task_in "RUNNING" None) "WAITING")
    (branched_db (task_in "RUNNING" None) "WAITING") "t" (task_in "RUNNING" None) db' t' E)
    as [[H _]|[H _]]; [|left; exact H|right; exact H].
  vm_compute in E. injection E as <- _. vm_compute. discriminate.
Defined.

Lemma activation_respects_horizons_witness :
  exists db' t', transition_task_attempt start_transition 10
      (branched_db (task_in "ASSIGNED" (Some 50)) "WAITING")
      (branched_db (task_in "ASSIGNED" (Some 50)) "WAITING") = Ok (Some (db', t')) /\
    t_status t' = "RUNNING".
Proof.
  destruct (transition_task_attempt start_transition 10
      (branched_db (task_in "ASSIGNED" (Some 50)) "WAITING")
      (branched_db (task_in "ASSIGNED" (Some 50)) "WAITING")) as [[[db' t']|]|] eqn:E;
    [|exfalso; revert E; vm_compute; discriminate..].
  exists db', t'. split; [reflexivity|].
  apply (activation_respects_horizons start_transition 10
    (branched_db (task_in "ASSIGNED" (Some 50)) "WAITING") db' (task_in "ASSIGNED" (Some 50)) t'
    eq_refl eq_refl eq_refl E).
Defined.
