(* ===== verification/ExecutionTransitions.v ===== *)
(** * Execution transitions under budget
    (TaskBudgetService._transition_execution_with_budget, resume_task_scoped_execution,
    finish_task_scoped_execution and expire_task_scoped_waiting_execution of
    src/se/src/runtimes/agent/task_budget.py)

    One transaction moves an execution between states and the task's active capacity
    together, fenced by the execution's revision, the budget's revision and incarnation,
    and a reservation that makes a retried transition a replay.  An attempt reads a
    [snapshot] and writes [db]; between the two other workers may commit.  Transitions
    that stage a WAITING checkpoint ([checkpoint_values]) are not modelled. *)

From S2P Require Import Prelude Canonical TaskBudgetSchema AgentStore TaskBudgetService.
From S2P Require Import TaskBudgetLaws TaskBudgetConcurrency TaskActivity.

Record Transition := {
  tr_task_id : string;
  tr_execution_id : string;
  tr_source_revision : Z;
  tr_expected_state : string;
  tr_values : ExecValues;
  tr_kind : TaskBudgetReservationKind;
  tr_key : string;
  tr_payload : json;
  tr_mutate : TaskBudget -> result TBError BudgetValues;
  tr_fence : option RecoveryFence;
  tr_generation : option Z
}.

Definition tr_fingerprint (tr : Transition) : string :=
  reservation_fingerprint (tr_kind tr) (tr_key tr) (tr_payload tr).

#[global] Arguments tr_fingerprint : simpl never.

Definition tr_target (tr : Transition) : Z := tr_source_revision tr + 1.

(** The argument checks before the loop. *)
Definition transition_args (tr : Transition) : result TBError unit :=
  _ ← guard_err (0 <=? tr_source_revision tr)
        (ValueError "source_revision must be non-negative");
  validate_recovery_mutation_authority
    (match tr_fence tr with Some _ => Some (tr_execution_id tr) | None => None end)
    (tr_fence tr) (tr_generation tr).

(** The reads: budget, incarnation, and either a replay of a stored reservation or the
    charge to write. *)
Inductive TransitionPlan :=
  | PlanReplay
  | PlanWrite (generation : Z) (rec : BudgetRow) (values : BudgetValues).

(** Clock readings of one attempt: at the fence lock, before the write and between the
    two compare-and-sets; and a database fault that its writes or its commit meet. *)
Record AttemptClock := {
  ck_lock : Z; ck_plan : Z; ck_write : Z; ck_write_fault : option DbFault
}.

Definition locked_execution (tr : Transition) (snapshot : AgentDB) : option ExecutionRow :=
  get_execution snapshot (tr_execution_id tr).

Definition transition_plan (tr : Transition) (generation : option Z) (ck : AttemptClock)
    (snapshot : AgentDB) : result TBError TransitionPlan :=
  let execution := locked_execution tr snapshot in
  let t := tr_task_id tr in
  _ ← check_fence execution t (tr_fence tr) (ck_lock ck);
  match get_task_budget snapshot t with
  | None => Err (missing_budget snapshot t)
  | Some rec =>
      let actual := row_generation rec in
      _ ← guard_err (generation_matches generation actual) TaskBudgetIncarnationChanged;
      match get_task_budget_reservation snapshot t (tr_kind tr) (tr_key tr) (Some actual) with
      | Some existing =>
          _ ← verify_reservation existing (tr_fingerprint tr);
          _ ← check_fence execution t (tr_fence tr) (ck_plan ck);
          _ ← guard_err
                match execution with
                | Some e => bool_decide (e_task_id e = Some t) &&
                            (tr_target tr <=? e_revision e)
                | None => false
                end
                (TaskBudgetConflict "Durable transition reservation has no matching AgentExecution.");
          mret PlanReplay
      | None =>
          match execution with
          | None => Err (TaskBudgetConflict "Unknown task-scoped execution")
          | Some e =>
              _ ← guard_err (bool_decide (e_task_id e = Some t))
                    (TaskBudgetConflict "Unknown task-scoped execution");
              _ ← guard_err (e_revision e =? tr_source_revision tr)
                    (TaskBudgetConflict "Stale AgentExecution revision");
              _ ← guard_err (bool_decide (e_state e = tr_expected_state tr))
                    (TaskBudgetConflict "AgentExecution is in an unexpected state");
              budget ← budget_from_record rec;
              values ← tr_mutate tr budget;
              _ ← check_fence execution t (tr_fence tr) (ck_plan ck);
              mret (PlanWrite actual rec values)
          end
      end
  end.

(** The writes: budget, then execution, then reservation; [None] when the budget's
    compare-and-set lost. *)
Definition transition_commit (tr : Transition) (ck : AttemptClock) (snapshot db : AgentDB)
    (generation : Z) (rec : BudgetRow) (values : BudgetValues)
    : result TBError (option AgentDB) :=
  let t := tr_task_id tr in
  cas ← lift_store (compare_and_set_task_budget db t (tb_revision (row_budget rec)) values
          (Some generation));
  match cas with
  | (_, None) => Ok None
  | (db1, Some _) =>
      _ ← check_fence (locked_execution tr snapshot) t (tr_fence tr) (ck_write ck);
      upd ← lift_store (compare_and_set_execution db1 (tr_execution_id tr)
              (tr_source_revision tr) (tr_values tr));
      match upd with
      | (_, None) => Err (TaskBudgetConflict "AgentExecution CAS lost during TaskBudget transition.")
      | (db2, Some _) =>
          db3 ← lift_store (save_task_budget_reservation db2 t (tr_kind tr) (tr_key tr)
                  (tr_fingerprint tr) (Some generation));
          mret (Some db3)
      end
  end.

(** What one attempt did. *)
Inductive AttemptOutcome :=
  | Returned (revision : Z) (db : AgentDB)
  | Raised (e : TBError)
  | Again (generation : option Z).

Definition retry_or_raise (generation : option Z) (e : TBError) : AttemptOutcome :=
  match e with StoreFailure IntegrityError => Again generation | _ => Raised e end.

Definition transition_attempt (tr : Transition) (generation : option Z)
    (fault : option DbFault) (ck : AttemptClock) (snapshot db : AgentDB) : AttemptOutcome :=
  match fault with
  | Some LockedOrBusy => Again generation
  | Some OtherOperational => Raised OperationalFailure
  | None =>
      match transition_plan tr generation ck snapshot with
      | Err e => retry_or_raise generation e
      | Ok PlanReplay => Returned (tr_target tr) db
      | Ok (PlanWrite g rec values) =>
          match ck_write_fault ck with
          | Some LockedOrBusy => Again (Some g)
          | Some OtherOperational => Raised OperationalFailure
          | None =>
              match transition_commit tr ck snapshot db g rec values with
              | Err e => retry_or_raise (Some g) e
              | Ok None => Again (Some g)
              | Ok (Some db') => Returned (tr_target tr) db'
              end
          end
      end
  end.

(** The loop; the environment supplies each attempt. *)
Fixpoint transition_loop (tr : Transition) (n : nat) (generation : option Z)
    (env : nat -> option DbFault * AttemptClock * AgentDB * AgentDB)
    : result TBError (Z * AgentDB) :=
  match n with
  | O => Err (TaskBudgetConflict "Execution/TaskBudget transition conflicts exhausted")
  | S n' =>
      let '(fault, ck, snapshot, db) := env n in
      match transition_attempt tr generation fault ck snapshot db with
      | Returned rev db' => Ok (rev, db')
      | Raised e => Err e
      | Again g => transition_loop tr n' g env
      end
  end.

Definition transition_execution_with_budget (cfg : ServiceConfig) (tr : Transition)
    (env : nat -> option DbFault * AttemptClock * AgentDB * AgentDB)
    : result TBError (Z * AgentDB) :=
  _ ← transition_args tr;
  transition_loop tr (attempts cfg) (tr_generation tr) env.

(** ** The public transitions *)

(** The state a transition's values set. *)
Definition state_value (values : ExecValues) : string :=
  fold_left (fun acc f => match f with SetExecState s => s | _ => acc end) values "".

Definition resume_task_scoped_execution (task_id execution_id : string)
    (source_revision : Z) (values : ExecValues) (delegated : bool)
    : result TBError Transition :=
  _ ← guard_err (bool_decide (state_value values = "RUNNING"))
        (ValueError "resume transition must target RUNNING");
  mret {| tr_task_id := task_id; tr_execution_id := execution_id;
          tr_source_revision := source_revision; tr_expected_state := "WAITING";
          tr_values := values; tr_kind := RESUME_EXECUTION;
          tr_key := revision_key execution_id source_revision;
          tr_payload := JObj [("execution_id", JStr execution_id);
                              ("source_revision", JInt source_revision);
                              ("delegated", JBool delegated)];
          tr_mutate := mutate_resume delegated; tr_fence := None; tr_generation := None |}.

Definition finish_task_scoped_execution (task_id execution_id : string)
    (source_revision : Z) (values : ExecValues) (delegated : bool)
    (fence : option RecoveryFence) (generation : option Z) : result TBError Transition :=
  let target_state := state_value values in
  _ ← guard_err (bool_decide (target_state ∈
                   ["WAITING"; "COMPLETED"; "FAILED"; "CANCELLED"; "TIMEOUT"]))
        (ValueError "finish transition must target WAITING or a terminal state");
  mret {| tr_task_id := task_id; tr_execution_id := execution_id;
          tr_source_revision := source_revision; tr_expected_state := "RUNNING";
          tr_values := values; tr_kind := RELEASE_EXECUTION;
          tr_key := revision_key execution_id (source_revision + 1);
          tr_payload := JObj [("execution_id", JStr execution_id);
                              ("target_revision", JInt (source_revision + 1));
                              ("target_state", JStr target_state);
                              ("delegated", JBool delegated);
                              ("checkpoint_id", JNull);
                              ("pending_invocations", JArr [])];
          tr_mutate := mutate_release delegated; tr_fence := fence;
          tr_generation := generation |}.

(** Expiry of a waiting execution: [None] is a lost race, which the caller sees. *)
Inductive ExpiryOutcome :=
  | Expired (revision : Z) (db : AgentDB)
  | NotWaiting (db : AgentDB)
  | ExpiryRaised (e : TBError)
  | ExpiryAgain.

Definition expire_attempt (task_id execution_id : string) (source_revision : Z)
    (values : ExecValues) (snapshot db : AgentDB) : ExpiryOutcome :=
  match get_task snapshot task_id with
  | None => ExpiryRaised TaskBudgetRequired
  | Some task =>
      match get_execution snapshot execution_id with
      | None => ExpiryRaised (TaskBudgetConflict "Unknown AgentExecution")
      | Some e =>
          if negb (bool_decide (e_task_id e = Some task_id)) then
            ExpiryRaised (TaskBudgetConflict "AgentExecution belongs to a different AgentTask.")
          else if negb (bool_decide (e_state e = "WAITING") && (e_revision e =? source_revision))
          then NotWaiting db
          else
            match compare_and_set_execution db execution_id source_revision values with
            | Err er => ExpiryRaised (StoreFailure er)
            | Ok (_, None) => NotWaiting db
            | Ok (db1, Some _) =>
                match reconcile_multibranch_task_activity_in_uow db1 db1 task_id (Some task) with
                | Err er => ExpiryRaised er
                | Ok (_, None) => ExpiryAgain
                | Ok (db2, Some _) => Expired (source_revision + 1) db2
                end
            end
      end
  end.

Fixpoint expire_loop (task_id execution_id : string) (source_revision : Z)
    (values : ExecValues) (n : nat) (env : nat -> option DbFault * AgentDB * AgentDB)
    : result TBError (option Z * AgentDB) :=
  match n with
  | O => Err (TaskBudgetConflict "Task-scoped WAITING expiry activity conflicts exhausted")
  | S n' =>
      let '(fault, snapshot, db) := env n in
      match fault with
      | Some LockedOrBusy => expire_loop task_id execution_id source_revision values n' env
      | Some OtherOperational => Err OperationalFailure
      | None =>
          match expire_attempt task_id execution_id source_revision values snapshot db with
          | Expired rev db' => Ok (Some rev, db')
          | NotWaiting db' => Ok (None, db')
          | ExpiryRaised e => Err e
          | ExpiryAgain => expire_loop task_id execution_id source_revision values n' env
          end
      end
  end.

Definition expire_task_scoped_waiting_execution (cfg : ServiceConfig)
    (task_id execution_id : string) (source_revision : Z) (values : ExecValues)
    (env : nat -> option DbFault * AgentDB * AgentDB) : result TBError (option Z * AgentDB) :=
  _ ← guard_err (bool_decide (state_value values = "TIMEOUT"))
        (ValueError "waiting expiry transition must target TIMEOUT");
  expire_loop task_id execution_id source_revision values (attempts cfg) env.

(** ** Lemmas *)

(** Any operation's charge, as the budget laws state it. *)
Class LawfulTransition (cfg : ServiceConfig) (tr : Transition) : Prop :=
  transition_charged : charges cfg (tr_kind tr) (tr_mutate tr).

Lemma resume_lawful cfg t x rev vals d tr :
  resume_task_scoped_execution t x rev vals d = Ok tr -> LawfulTransition cfg tr.
Proof.
  unfold resume_task_scoped_execution. intros H. inv_result. simplify_eq.
  apply mutate_resume_charges.
Qed.

Lemma finish_lawful cfg t x rev vals d f g tr :
  finish_task_scoped_execution t x rev vals d f g = Ok tr -> LawfulTransition cfg tr.
Proof.
  unfold finish_task_scoped_execution. intros H. inv_result. simplify_eq.
  apply mutate_release_charges.
Qed.

Lemma lift_store_ok {A} (r : result StoreError A) a : lift_store r = Ok a -> r = Ok a.
Proof. destruct r; naive_solver. Qed.

Lemma transition_commit_ok tr ck snapshot db g rec values db' :
  transition_commit tr ck snapshot db g rec values = Ok (Some db') ->
  exists r e, db_budgets db !! tr_task_id tr = Some r /\
    row_revision r = row_revision rec /\ row_generation r = g /\
    row_checks (apply_values r values (row_revision r + 1)) = true /\
    db_executions db !! tr_execution_id tr = Some e /\
    e_revision e = tr_source_revision tr /\
    db_reservations db !! (tr_task_id tr, tr_kind tr, tr_key tr) = None /\
    check_fence (locked_execution tr snapshot) (tr_task_id tr) (tr_fence tr) (ck_write ck)
      = Ok tt /\
    db' = {| db_tasks := db_tasks db;
             db_budgets := <[tr_task_id tr :=
               apply_values r values (row_revision r + 1)]> (db_budgets db);
             db_reservations := <[(tr_task_id tr, tr_kind tr, tr_key tr) :=
               {| res_generation := g; res_fingerprint := tr_fingerprint tr |}]>
               (db_reservations db);
             db_executions := <[tr_execution_id tr :=
               set_exec_revision (apply_exec_values e (tr_values tr)) (tr_target tr)]>
               (db_executions db);
             db_branches := db_branches db; db_allocator := db_allocator db;
             db_bindings := db_bindings db |}.
Proof.
  unfold transition_commit. intros H. apply bind_ok in H as ([db1 o1] & Hc & H).
  apply lift_store_ok in Hc. destruct o1 as [u|]; [|done].
  apply cas_budget_some in Hc as (r & Hr & Hrev & Hg & -> & Hck & ->).
  apply bind_ok in H as ([] & Hf & H). apply bind_ok in H as ([db2 o2] & Hx & H).
  apply lift_store_ok in Hx. destruct o2 as [e'|]; [|done].
  apply update_execution_where_some in Hx as (e & He & Hw & -> & _ & ->).
  apply bind_ok in H as (db3 & Hs & H). apply lift_store_ok in Hs. injection H as <-.
  apply save_reservation_ok in Hs as (r2 & Hr2 & Hn & ->). simpl in *.
  rw lookup_insert_eq in Hr2. injection Hr2 as <-. breflect.
  exists r, e. unfold row_revision. rw Hrev. split_and!; try done.
  unfold tr_target. by rw -Hg.
Qed.

Lemma transition_plan_write tr generation ck snapshot g rec values :
  transition_plan tr generation ck snapshot = Ok (PlanWrite g rec values) ->
  exists e, db_budgets snapshot !! tr_task_id tr = Some rec /\ row_generation rec = g /\
    locked_execution tr snapshot = Some e /\ e_task_id e = Some (tr_task_id tr) /\
    e_revision e = tr_source_revision tr /\ e_state e = tr_expected_state tr /\
    tr_mutate tr (row_budget rec) = Ok values.
Proof.
  unfold transition_plan, get_task_budget. intros H. apply bind_ok in H as ([] & _ & H).
  destruct (db_budgets snapshot !! _) as [r|] eqn:Hr; [|done].
  apply guard_bind_ok in H as [_ H].
  destruct (get_task_budget_reservation _ _ _ _ _).
  { do 3 apply bind_ok in H as (? & _ & H). done. }
  destruct (locked_execution tr snapshot) as [e|] eqn:He; [|done].
  apply guard_bind_ok in H as [Ht H]. apply guard_bind_ok in H as [Hv H].
  apply guard_bind_ok in H as [Hs H]. apply bind_ok in H as (b & Hb & H).
  apply budget_from_record_ok in Hb as ->. apply bind_ok in H as (v & Hm & H).
  apply bind_ok in H as (? & _ & H). injection H as <- <- <-. breflect. by exists e.
Qed.

Lemma transition_plan_replay tr generation ck snapshot :
  transition_plan tr generation ck snapshot = Ok PlanReplay ->
  exists res e, db_reservations snapshot !! (tr_task_id tr, tr_kind tr, tr_key tr) = Some res /\
    res_fingerprint res = tr_fingerprint tr /\
    get_execution snapshot (tr_execution_id tr) = Some e /\ tr_target tr <= e_revision e.
Proof.
  unfold transition_plan. intros H. apply bind_ok in H as ([] & _ & H).
  destruct (get_task_budget snapshot _) as [r|]; [|done]. apply guard_bind_ok in H as [_ H].
  unfold get_task_budget_reservation in H.
  destruct (db_reservations snapshot !! _) as [res|].
  - destruct (generation_matches (Some _) _).
    + unfold verify_reservation in H. apply guard_bind_ok in H as [Hf H].
      apply bind_ok in H as ([] & _ & H). unfold locked_execution in H.
      destruct (get_execution snapshot _) as [e|]; [|done].
      apply guard_bind_ok in H as [Hr _]. breflect. by exists res, e.
    + repeat crush_step_in H; try done. repeat apply bind_ok in H as (? & _ & H). done.
  - repeat crush_step_in H; try done. repeat apply bind_ok in H as (? & _ & H). done.
Qed.


Lemma apply_exec_state values e :
  e_state (apply_exec_values e values) =
  fold_left (fun acc f => match f with SetExecState s => s | _ => acc end) values (e_state e).
Proof.
  unfold apply_exec_values. revert e. induction values as [|f values IH]; intros e; simpl; [done|].
  rw IH. f_equal. by destruct e, f.
Qed.

Lemma state_fold_cases (values : ExecValues) :
  let go := fold_left (fun acc f => match f with SetExecState s => s | _ => acc end) values in
  (forall a, go a = a) \/ (exists s, forall a, go a = s).
Proof.
  induction values as [|f values IH]; simpl; [by left|].
  destruct f as [s| | | | | | | | | |]; try exact IH.
  right. destruct IH as [IH|[s' IH]]; [exists s|exists s']; intros _; apply IH.
Qed.

Lemma state_value_applied values e :
  state_value values <> ""%string -> e_state (apply_exec_values e values) = state_value values.
Proof.
  intros Hne. rw apply_exec_state. unfold state_value in *.
  destruct (state_fold_cases values) as [H|[s H]]; [by rw H in Hne|by rw !H].
Qed.

(** A read budget row is the stored one unless the revision moved on. *)
Definition budget_read_ok (snapshot db : AgentDB) (t : string) : Prop :=
  forall rec, db_budgets snapshot !! t = Some rec -> rec_hist db t rec.

Lemma transition_attempt_returned tr generation fault ck snapshot db rev db' :
  transition_attempt tr generation fault ck snapshot db = Returned rev db' ->
  rev = tr_target tr /\
  ((db' = db /\ transition_plan tr generation ck snapshot = Ok PlanReplay) \/
   exists g rec values, transition_plan tr generation ck snapshot = Ok (PlanWrite g rec values) /\
     transition_commit tr ck snapshot db g rec values = Ok (Some db')).
Proof.
  unfold transition_attempt, retry_or_raise. intros H.
  destruct fault as [[]|]; [done..|].
  destruct (transition_plan tr generation ck snapshot) as [[|g rec values]|e];
    [by simplify_eq; auto| |by repeat crush_step_in H].
  destruct (ck_write_fault ck) as [[]|]; [done..|].
  destruct (transition_commit _ _ _ _ _ _ _) as [[db1|]|e] eqn:Hc;
    [|done|by repeat crush_step_in H].
  simplify_eq. split; [done|]. right. eauto.
Qed.

Lemma transition_commit_txn cfg tr ck snapshot db generation g rec values db' :
  LawfulTransition cfg tr -> budget_read_ok snapshot db (tr_task_id tr) ->
  transition_plan tr generation ck snapshot = Ok (PlanWrite g rec values) ->
  transition_commit tr ck snapshot db g rec values = Ok (Some db') ->
  db_budgets db !! tr_task_id tr = Some rec /\ budget_txn cfg db db'.
Proof.
  intros Hl Hok Hp Hc. apply transition_plan_write in Hp as (e & Hrec & Hg & _ & _ & _ & _ & Hm).
  apply transition_commit_ok in Hc as (r & e' & Hr & Hrev & Hg' & Hck & _ & _ & Hn & _ & ->).
  destruct (Hok rec Hrec) as (r0 & Hr0 & _ & _ & Heq). simplify_eq. specialize (Heq Hrev). subst.
  split; [done|].
  apply (txn_charge cfg _ _ (tr_task_id tr) (tr_kind tr) (tr_key tr) rec
    (apply_values rec values (row_revision rec + 1))
    {| res_generation := row_generation rec; res_fingerprint := tr_fingerprint tr |}); try done.
  rw apply_values_counters. by apply (transition_charged (cfg := cfg)).
Qed.

(** ** Theorems *)

(** C15 transition_all_or_nothing: an attempt that returns either changed nothing and answers
    for a transition already stored with this fingerprint and reached by the execution, or
    made all three writes at once: the execution went from the source revision to the next
    with the transition's state, the budget took exactly the charge of its kind (within the
    discipline the accounting theorems rely on), and the reservation was stored; tasks and
    branches are untouched.  The revision returned is the source revision plus one. *)
Theorem transition_all_or_nothing cfg tr generation fault ck snapshot db rev db' :
  LawfulTransition cfg tr -> budget_read_ok snapshot db (tr_task_id tr) ->
  transition_attempt tr generation fault ck snapshot db = Returned rev db' ->
  rev = tr_source_revision tr + 1 /\ db_tasks db' = db_tasks db /\
  db_branches db' = db_branches db /\
  ((db' = db /\ exists res e,
      db_reservations snapshot !! (tr_task_id tr, tr_kind tr, tr_key tr) = Some res /\
      res_fingerprint res = tr_fingerprint tr /\
      get_execution snapshot (tr_execution_id tr) = Some e /\
      tr_source_revision tr < e_revision e) \/
   (budget_txn cfg db db' /\ exists e e',
      db_executions db !! tr_execution_id tr = Some e /\ e_revision e = tr_source_revision tr /\
      db_executions db' = <[tr_execution_id tr := e']> (db_executions db) /\
      e_revision e' = tr_source_revision tr + 1 /\
      (state_value (tr_values tr) <> ""%string -> e_state e' = state_value (tr_values tr)) /\
      db_reservations db !! (tr_task_id tr, tr_kind tr, tr_key tr) = None /\
      exists res, db_reservations db' =
        <[(tr_task_id tr, tr_kind tr, tr_key tr) := res]> (db_reservations db) /\
        res_fingerprint res = tr_fingerprint tr)).
Proof.
  intros Hl Hok H. apply transition_attempt_returned in H as
    [-> [[-> Hp]|(g & rec & values & Hp & Hc)]].
  - split; [done|]. split; [done|]. split; [done|]. left. split; [done|].
    apply transition_plan_replay in Hp as (res & e & ? & ? & ? & Ht). exists res, e.
    unfold tr_target in Ht. split_and!; try done. lia.
  - destruct (transition_commit_txn cfg _ _ _ _ _ _ _ _ _ Hl Hok Hp Hc) as [_ Htx].
    apply transition_commit_ok in Hc as (r & e & _ & _ & _ & _ & He & Hrev & Hn & _ & ->).
    split; [done|]. split; [done|]. split; [done|]. right. split; [done|]. simpl.
    eexists e, _. split; [done|]. split; [done|]. split; [done|].
    split; [by destruct (apply_exec_values e (tr_values tr))|].
    split; [|split; [done|by eexists]]. intros Hne.
    rw -(state_value_applied _ e Hne). by destruct (apply_exec_values e (tr_values tr)).
Qed.

(** *** A running execution *)

Definition running_row : BudgetRow :=
  apply_values small_row [SetUsedExecutions 1; SetActiveExecutions 1] 1.

Definition running_db : AgentDB := {|
  db_tasks := {["t" := task_in "RUNNING" None]}; db_budgets := {["t" := running_row]};
  db_reservations := ∅;
  db_executions := {["e1" := head_execution "e1" "b1" "RUNNING" None]};
  db_branches := ∅; db_allocator := None; db_bindings := ∅ |}.

Definition finish_values : ExecValues := [SetExecState "WAITING"; SetWaitReason (Some "TOOL")].

(** The transition [finish_task_scoped_execution] builds for it. *)
Definition finish_e1 : Transition := {|
  tr_task_id := "t"; tr_execution_id := "e1"; tr_source_revision := 1;
  tr_expected_state := "RUNNING"; tr_values := finish_values;
  tr_kind := RELEASE_EXECUTION; tr_key := revision_key "e1" 2;
  tr_payload := JObj [("execution_id", JStr "e1"); ("target_revision", JInt 2);
    ("target_state", JStr "WAITING"); ("delegated", JBool false);
    ("checkpoint_id", JNull); ("pending_invocations", JArr [])];
  tr_mutate := mutate_release false; tr_fence := None; tr_generation := None |}.

Lemma finish_e1_built :
  finish_task_scoped_execution "t" "e1" 1 finish_values false None None = Ok finish_e1.
Proof. reflexivity. Qed.

Definition no_clock : AttemptClock := {| ck_lock := 0; ck_plan := 0; ck_write := 0; ck_write_fault := None |}.

Lemma same_read_ok db t : budget_read_ok db db t.
Proof. intros rec H. by apply rec_hist_refl. Qed.

(** How many reservations the database of an attempt that returned holds. *)
Definition written (o : AttemptOutcome) : nat :=
  match o with Returned _ db => size (db_reservations db) | _ => 0%nat end.

Lemma transition_all_or_nothing_witness :
  exists db', transition_attempt finish_e1 None None no_clock running_db running_db =
      Returned 2 db' /\ db_tasks db' = db_tasks running_db.
Proof.
  assert (written (transition_attempt finish_e1 None None no_clock running_db running_db) =
    1%nat) as Hw by (vm_compute; reflexivity).
  destruct (transition_attempt finish_e1 None None no_clock running_db running_db)
    as [rev db'| |] eqn:E; [|discriminate Hw..].
  destruct (transition_all_or_nothing one_retry finish_e1 None None no_clock running_db
    running_db rev db' (finish_lawful one_retry _ _ _ _ _ _ _ _ finish_e1_built)
    (same_read_ok running_db "t") E) as (-> & Ht & _).
  exists db'. split; [reflexivity|exact Ht].
Defined.

Lemma verify_reservation_same g fp :
  verify_reservation {| res_generation := g; res_fingerprint := fp |} fp = Ok tt.
Proof. unfold verify_reservation. by rw bool_decide_true. Qed.

(** [transition_replay_idempotent]: after a fence-free transition was written, repeating it
    against the resulting database (a retry after an uncertain commit) returns the same
    revision and writes nothing, in whatever state the target database is by then. *)
Theorem transition_replay_idempotent tr generation ck ck' snapshot db rev db' db2 :
  tr_fence tr = None -> tr_generation tr = None ->
  (forall e, get_execution db (tr_execution_id tr) = Some e ->
     e_task_id e = Some (tr_task_id tr)) ->
  db_reservations db !! (tr_task_id tr, tr_kind tr, tr_key tr) = None -> db' <> db ->
  transition_attempt tr generation None ck snapshot db = Returned rev db' ->
  transition_attempt tr None None ck' db' db2 = Returned rev db2.
Proof.
  intros Hf Hgn Htask Hn Hne H. apply transition_attempt_returned in H as
    [-> [[-> _]|(g & rec & values & Hp & Hc)]]; [done|].
  apply transition_commit_ok in Hc as (r & e & Hr & _ & Hg & _ & He & _ & _ & _ & Hdb).
  specialize (Htask e He).
  assert (Hb : db_budgets db' !! tr_task_id tr =
    Some (apply_values r values (row_revision r + 1))).
  { subst db'. simpl. by rw lookup_insert_eq. }
  assert (Hres : db_reservations db' !! (tr_task_id tr, tr_kind tr, tr_key tr) =
    Some {| res_generation := g; res_fingerprint := tr_fingerprint tr |}).
  { subst db'. simpl. by rw lookup_insert_eq. }
  assert (Hex : get_execution db' (tr_execution_id tr) = Some
    (set_exec_revision (apply_exec_values e (tr_values tr)) (tr_target tr))).
  { subst db'. unfold get_execution. simpl. by rw lookup_insert_eq. }
  assert (Het : e_task_id (set_exec_revision (apply_exec_values e (tr_values tr))
    (tr_target tr)) = Some (tr_task_id tr)).
  { rw -Htask. clear. unfold apply_exec_values.
    assert (forall e' r, e_task_id (set_exec_revision e' r) = e_task_id e') as -> by by intros [].
    revert e. induction (tr_values tr) as [|f l IH]; intros e; simpl; [done|].
    rw IH. by destruct e, f. }
  unfold transition_attempt, transition_plan, locked_execution. rw Hf /=.
  unfold get_task_budget. rw Hb /=. unfold get_task_budget_reservation. rw Hres /=.
  rw Hg Z.eqb_refl verify_reservation_same Hex (bool_decide_true (e_task_id _ = _)) //.
  rw (proj2 (Z.leb_le _ _)) //. by destruct (apply_exec_values e (tr_values tr)).
Qed.

Lemma transition_replay_idempotent_witness :
  exists db', transition_attempt finish_e1 None None no_clock db' db' = Returned 2 db'.
Proof.
  assert (written (transition_attempt finish_e1 None None no_clock running_db running_db) =
    1%nat) as Hw by (vm_compute; reflexivity).
  destruct (transition_attempt finish_e1 None None no_clock running_db running_db)
    as [rev db'| |] eqn:E; [|discriminate Hw..].
  exists db'. pose proof (transition_attempt_returned _ _ _ _ _ _ _ _ E) as [Hrev _].
  change (tr_target finish_e1) with 2 in Hrev. subst rev.
  apply (transition_replay_idempotent finish_e1 None no_clock no_clock running_db running_db 2
    db' db' eq_refl eq_refl); [|reflexivity| |exact E].
  - intros e He. injection He as <-. reflexivity.
  - intros Heq. rw Heq in Hw. discriminate Hw.
Defined.

(** [finish_resume_balanced]: releasing the capacity of an execution and reacquiring it
    with the same delegation flag leaves the counters of the task's budget as they were:
    waiting costs no capacity and resuming takes exactly what was released. *)
Theorem finish_resume_balanced d b vals vals' :
  mutate_release d b = Ok vals ->
  mutate_resume d (apply_to_budget b vals) = Ok vals' ->
  tb_counters (apply_to_budget (apply_to_budget b vals) vals') = tb_counters b /\
  tb_limits (apply_to_budget (apply_to_budget b vals) vals') = tb_limits b.
Proof.
  unfold mutate_release, mutate_resume. intros H1 H2. inv_result.
  destruct b as [? ? ? [] ? ? ? [ue ae ab ap ut ui tk co] ?]; simpl in *.
  unfold bump_if, drop_if. split; [|done]. destruct d; f_equal; lia.
Qed.

Lemma finish_resume_balanced_witness :
  tb_counters (apply_to_budget (apply_to_budget (row_budget running_row)
    [SetActiveExecutions 0; SetActiveParallelAgents 0])
    [SetActiveExecutions 1; SetActiveParallelAgents 0]) = row_counters running_row.
Proof.
  apply (finish_resume_balanced false (row_budget running_row)
    [SetActiveExecutions 0; SetActiveParallelAgents 0]
    [SetActiveExecutions 1; SetActiveParallelAgents 0]); reflexivity.
Defined.

Lemma reconcile_frame snapshot db id locked db' r :
  reconcile_multibranch_task_activity_in_uow snapshot db id locked = Ok (db', Some r) ->
  db_budgets db' = db_budgets db /\ db_reservations db' = db_reservations db /\
  db_executions db' = db_executions db.
Proof.
  intros H. unfold reconcile_multibranch_task_activity_in_uow in H.
  destruct (match locked with Some t => _ | None => _ end) as [task|]; [|done].
  apply guard_bind_ok in H as [_ H].
  destruct (task_terminal _); [by injection H as <- <-|].
  destruct (_ <=? 1)%nat; [by injection H as <- <-|].
  apply bind_ok in H as (executions & _ & H).
  destruct (derive_activity executions) as [[target reasons]|]; [|by injection H as <- <-].
  destruct (_ && _); [by injection H as <- <-|].
  apply cas_activity_some in H as (t & _ & _ & _ & _ & _ & -> & _). done.
Qed.

(** [expiry_is_budget_neutral]: expiring a waiting execution never touches budgets or
    reservations, whatever the interleaving; when it reports a new revision the execution
    was at the source revision, is now at the next one in state TIMEOUT, and was the only
    execution changed; when it reports none, nothing was written. *)
Theorem expiry_is_budget_neutral cfg t x rev values env o db' :
  expire_task_scoped_waiting_execution cfg t x rev values env = Ok (o, db') ->
  exists i, let db := snd (env i) in
    db_budgets db' = db_budgets db /\ db_reservations db' = db_reservations db /\
    match o with
    | None => db' = db
    | Some rev' => rev' = rev + 1 /\ exists e e', db_executions db !! x = Some e /\
        e_revision e = rev /\ e_state e' = "TIMEOUT" /\ e_revision e' = rev + 1 /\
        db_executions db' = <[x := e']> (db_executions db)
    end.
Proof.
  unfold expire_task_scoped_waiting_execution. intros H.
  apply guard_bind_ok in H as [Hv H]. apply bool_decide_eq_true in Hv.
  revert H. generalize (attempts cfg) as n. induction n as [|n IH]; simpl; [done|].
  destruct (env (S n)) as [[fault snapshot] db] eqn:Ee. destruct fault as [[]|]; [exact IH|done|].
  unfold expire_attempt. destruct (get_task snapshot t) as [task|]; [|done].
  destruct (get_execution snapshot x) as [e0|]; [|done]. destruct (negb _); [done|].
  destruct (negb _).
  { intros [= <- <-]. exists (S n). by rw Ee. }
  destruct (compare_and_set_execution db x rev values) as [[db1 [e'|]]|] eqn:Hc; [| |done].
  - destruct (reconcile_multibranch_task_activity_in_uow _ _ _ _) as [[db2 [r|]]|] eqn:Hr;
      [|exact IH|done]. intros [= <- <-]. exists (S n). rw Ee. simpl.
    apply reconcile_frame in Hr as (-> & -> & ->).
    apply update_execution_where_some in Hc as (e & He & Hw & -> & _ & ->). simpl.
    split_and!; try done. breflect.
    exists e, (set_exec_revision (apply_exec_values e values) (rev + 1)).
    split; [done|]. split; [done|].
    split; [|split; [by destruct (apply_exec_values e values)|done]].
    rw -Hv -(state_value_applied values e) ?Hv //. by destruct (apply_exec_values e values).
  - intros [= <- <-]. exists (S n). by rw Ee.
Qed.

Definition waiting_db : AgentDB := {|
  db_tasks := {["t" := task_in "RUNNING" None]}; db_budgets := {["t" := running_row]};
  db_reservations := ∅;
  db_executions := {["e1" := head_execution "e1" "b1" "WAITING" (Some "TOOL")]};
  db_branches := ∅; db_allocator := None; db_bindings := ∅ |}.

Lemma expiry_is_budget_neutral_witness :
  exists db', expire_task_scoped_waiting_execution one_retry "t" "e1" 1
      [SetExecState "TIMEOUT"] (fun _ => (None, waiting_db, waiting_db)) = Ok (Some 2, db') /\
    db_budgets db' = db_budgets waiting_db.
Proof.
  destruct (expire_task_scoped_waiting_execution one_retry "t" "e1" 1
      [SetExecState "TIMEOUT"] (fun _ => (None, waiting_db, waiting_db))) as [[o db']|] eqn:E;
    [|exfalso; revert E; vm_compute; discriminate].
  destruct (expiry_is_budget_neutral one_retry "t" "e1" 1 [SetExecState "TIMEOUT"]
    (fun _ => (None, waiting_db, waiting_db)) o db' E) as (i & Hb & _ & Ho).
  exists db'. split; [|exact Hb].
  destruct o as [rev|]; [by destruct Ho as [-> _]|].
  exfalso. revert E. vm_compute. discriminate.
Defined.
