(* ===== verification/Kernel.v ===== *)
(** * Runtime kernel: dependency order and lifecycle
    (src/se/src/kernel/registry.py, lifecycle.py, base.py, kernel.py)

    Runtimes are registered under unique ids and started in an order computed by Kahn's
    algorithm on their dependency lists.  The bodies of [initialize], [start], [stop] and
    [dispose] are the runtimes' own code: a [Hooks] value says which of them raise, and a
    log records the calls the kernel makes.  The health monitor's timer and the runtime
    context are not modelled. *)

From S2P Require Import Prelude.

Record RuntimeManifest := {
  man_id : string;
  man_dependencies : list string
}.

Inductive LifecycleState :=
  | CREATED | INITIALIZED | STARTED | RUNNING | PAUSED | STOPPING | STOPPED | DISPOSED
  | FAILED.

#[global] Instance LifecycleState_eq_dec : EqDecision LifecycleState.
Proof. solve_decision. Defined.

(** The registry's dictionary, in registration order. *)
Abbreviation Registry := (list RuntimeManifest).

Inductive KernelError :=
  | DuplicateRuntime (id : string)
  | MissingDependency (dep by_ : string)
  | CircularDependency
  | HookRaised (id : string).

Definition register (reg : Registry) (m : RuntimeManifest) : result KernelError Registry :=
  if bool_decide (man_id m ∈ map man_id reg) then Err (DuplicateRuntime (man_id m))
  else Ok (reg ++ [m]).

(** ** DependencyResolver.resolve_order *)

Abbreviation InDegree := (gmap string Z).

Definition degree (deg : InDegree) (id : string) : Z := default 0 (deg !! id).

(** The edges [graph[dep].append(r_id)], in the order the loops create them. *)
Definition edges (runtimes : Registry) : list (string * string) :=
  List.flat_map (fun m => map (fun dep => (dep, man_id m)) (man_dependencies m)) runtimes.

(** [graph[dep]]. *)
Definition neighbors (runtimes : Registry) (dep : string) : list string :=
  map snd (List.filter (fun e => bool_decide (fst e = dep)) (edges runtimes)).

(** The first missing dependency in loop order. *)
Definition missing_dependency (runtimes : Registry) : option (string * string) :=
  List.find (fun e => negb (bool_decide (fst e ∈ map man_id runtimes))) (edges runtimes).

Definition initial_degrees (runtimes : Registry) : InDegree :=
  fold_left (fun deg m => <[man_id m := Z.of_nat (length (man_dependencies m))]> deg)
    runtimes ∅.

(** [for neighbor in graph[curr]]: the degrees, and the nodes whose degree reached 0. *)
Fixpoint relax (deg : InDegree) (ns : list string) : InDegree * list string :=
  match ns with
  | [] => (deg, [])
  | n :: ns' =>
      let deg := <[n := degree deg n - 1]> deg in
      let (deg', ready) := relax deg ns' in
      (deg', if degree deg n =? 0 then n :: ready else ready)
  end.

(** The while loop; [None] is out of fuel. *)
Fixpoint kahn (fuel : nat) (runtimes : Registry) (queue order : list string)
    (deg : InDegree) : option (list string) :=
  match queue with
  | [] => Some order
  | curr :: rest =>
      match fuel with
      | O => None
      | S fuel' =>
          let (deg', ready) := relax deg (neighbors runtimes curr) in
          kahn fuel' runtimes (rest ++ ready) (order ++ [curr]) deg'
      end
  end.

Definition initial_queue (runtimes : Registry) : list string :=
  List.filter (fun id => degree (initial_degrees runtimes) id =? 0) (map man_id runtimes).

Definition resolve_order (runtimes : Registry) : option (result KernelError (list string)) :=
  match missing_dependency runtimes with
  | Some (dep, id) => Some (Err (MissingDependency dep id))
  | None =>
      match kahn (length runtimes) runtimes (initial_queue runtimes) []
              (initial_degrees runtimes) with
      | None => None
      | Some order =>
          Some (if (length order =? length runtimes)%nat then Ok order
                else Err CircularDependency)
      end
  end.

(** ** Lifecycle *)

(** Which hook calls return. *)
Record Hooks := {
  init_returns : string -> bool;
  start_returns : string -> bool;
  stop_returns : string -> bool;
  dispose_returns : string -> bool
}.

Inductive KernelCall :=
  | CallInitialize (id : string)
  | CallStart (id : string)
  | CallStop (id : string)
  | CallDispose (id : string).

(** The runtimes' states and the calls made so far. *)
Record KernelState := {
  ks_states : gmap string LifecycleState;
  ks_log : list KernelCall
}.

Definition state_of (ks : KernelState) (id : string) : LifecycleState :=
  default CREATED (ks_states ks !! id).

Definition set_state (ks : KernelState) (id : string) (s : LifecycleState) : KernelState :=
  {| ks_states := <[id := s]> (ks_states ks); ks_log := ks_log ks |}.

Definition log_call (ks : KernelState) (c : KernelCall) : KernelState :=
  {| ks_states := ks_states ks; ks_log := ks_log ks ++ [c] |}.

(** A sequence of per-runtime steps that stops at the first exception. *)
Fixpoint for_each (step : string -> KernelState -> KernelState * option KernelError)
    (ids : list string) (ks : KernelState) : KernelState * option KernelError :=
  match ids with
  | [] => (ks, None)
  | id :: ids' =>
      match step id ks with
      | (ks', None) => for_each step ids' ks'
      | (ks', Some e) => (ks', Some e)
      end
  end.

Definition raised_if (returns : bool) (id : string) : option KernelError :=
  if returns then None else Some (HookRaised id).

Definition initialize_one (h : Hooks) (id : string) (ks : KernelState)
    : KernelState * option KernelError :=
  let ks := log_call ks (CallInitialize id) in
  if init_returns h id then (set_state ks id INITIALIZED, None)
  else (ks, Some (HookRaised id)).

Definition start_one (h : Hooks) (id : string) (ks : KernelState)
    : KernelState * option KernelError :=
  if bool_decide (state_of ks id = INITIALIZED) then
    let ks := log_call ks (CallStart id) in
    if start_returns h id then (set_state ks id RUNNING, None)
    else (ks, Some (HookRaised id))
  else (ks, None).

Definition stoppable (s : LifecycleState) : bool :=
  match s with RUNNING | STARTED | PAUSED => true | _ => false end.

(** [try: stop() finally: state = STOPPED; dispose()]; [dispose] of the base class sets
    DISPOSED. *)
Definition stop_one (h : Hooks) (id : string) (ks : KernelState)
    : KernelState * option KernelError :=
  if stoppable (state_of ks id) then
    let ks := log_call (set_state ks id STOPPING) (CallStop id) in
    let ks := log_call (set_state ks id STOPPED) (CallDispose id) in
    if dispose_returns h id then
      (set_state ks id DISPOSED, raised_if (stop_returns h id) id)
    else (ks, Some (HookRaised id))
  else (ks, None).

(** The phases; the registry is unchanged while they run. *)
Definition in_order (reg : Registry)
    (run : list string -> KernelState * option KernelError) (ks : KernelState)
    : option (KernelState * option KernelError) :=
  match resolve_order reg with
  | None => None
  | Some (Err e) => Some (ks, Some e)
  | Some (Ok order) => Some (run order)
  end.

Definition initialize_all (h : Hooks) (reg : Registry) (ks : KernelState) :=
  in_order reg (fun order => for_each (initialize_one h) order ks) ks.

Definition start_all (h : Hooks) (reg : Registry) (ks : KernelState) :=
  in_order reg (fun order => for_each (start_one h) order ks) ks.

Definition stop_all (h : Hooks) (reg : Registry) (ks : KernelState) :=
  in_order reg (fun order => for_each (stop_one h) (reverse order) ks) ks.

(** [bootstrap] up to the health monitor. *)
Definition bootstrap (h : Hooks) (reg : Registry) (ks : KernelState)
    : option (KernelState * option KernelError) :=
  match initialize_all h reg ks with
  | Some (ks', None) => start_all h reg ks'
  | r => r
  end.

(** [recover_runtime], called once bootstrap has created the context: a restart; any
    exception leaves the runtime FAILED. *)
Definition recover_runtime (h : Hooks) (reg : Registry) (id : string) (ks : KernelState)
    : KernelState :=
  if bool_decide (id ∈ map man_id reg) then
    let must_stop := match state_of ks id with
                     | RUNNING | STARTED | PAUSED | FAILED => true
                     | _ => false
                     end in
    let ks := if must_stop then log_call ks (CallStop id) else ks in
    if must_stop && negb (stop_returns h id) then set_state ks id FAILED
    else
      let ks := log_call (set_state ks id STOPPED) (CallInitialize id) in
      if init_returns h id then
        let ks := log_call (set_state ks id INITIALIZED) (CallStart id) in
        if start_returns h id then set_state ks id RUNNING else set_state ks id FAILED
      else set_state ks id FAILED
  else ks.

(** ** Lemmas on the resolver *)

Definition count (x : string) (l : list string) : nat := count_occ String.string_dec l x.

#[global] Arguments count : simpl never.

Lemma count_cons x n l : count x (n :: l) = ((if decide (n = x) then 1 else 0) + count x l)%nat.
Proof. unfold count. simpl. destruct (String.string_dec n x), (decide (n = x)); done. Qed.

Lemma count_pos x l : (0 < count x l)%nat <-> x ∈ l.
Proof. unfold count. rw list_elem_of_In. split; apply count_occ_In. Qed.

Lemma count_zero x l : count x l = 0%nat <-> x ∉ l.
Proof. rw -count_pos. lia. Qed.

(** Decrementing the degrees of a list of neighbours. *)
Lemma degree_insert deg n z x :
  degree (<[n := z]> deg) x = if decide (n = x) then z else degree deg x.
Proof. unfold degree. rw lookup_insert. by case_decide. Qed.

Lemma relax_spec ns deg :
  (forall x, Z.of_nat (count x ns) <= degree deg x) ->
  let '(deg', ready) := relax deg ns in
  (forall x, degree deg' x = degree deg x - Z.of_nat (count x ns)) /\ NoDup ready /\
  (forall x, x ∈ ready <-> x ∈ ns /\ degree deg x = Z.of_nat (count x ns)).
Proof.
  revert deg. induction ns as [|n ns IH]; intros deg Hle; simpl.
  { split_and!; [intros; unfold count; simpl; lia|constructor|set_solver]. }
  set (deg1 := <[n := degree deg n - 1]> deg).
  assert (forall x, degree deg1 x = degree deg x - (if decide (n = x) then 1 else 0)) as Hd1.
  { intros x. unfold deg1. rw degree_insert. case_decide; subst; lia. }
  specialize (IH deg1). destruct (relax deg1 ns) as [deg' ready].
  destruct IH as (Hdeg & Hnd & Hin).
  { intros x. specialize (Hle x). rw count_cons in Hle. rw Hd1. case_decide; lia. }
  assert (Z.of_nat (count n ns) <= degree deg1 n) as Hn.
  { specialize (Hle n). rw count_cons in Hle. rw Hd1. case_decide; [lia|done]. }
  assert (forall x, x ∈ ready <-> x ∈ ns /\ degree deg x =
    Z.of_nat (count x (n :: ns))) as Hin'.
  { intros x. rw Hin Hd1 count_cons. case_decide; split; intros [? ?]; split; auto; lia. }
  split; [|split].
  - intros x. rw Hdeg Hd1 count_cons. case_decide; lia.
  - destruct (Z.eqb_spec (degree deg1 n) 0) as [E|E]; [|done].
    apply NoDup_cons. split; [|done]. rw Hin. intros [Hns _].
    apply count_pos in Hns. lia.
  - intros x. destruct (Z.eqb_spec (degree deg1 n) 0) as [E|E].
    + rw !elem_of_cons Hin'. split.
      * intros [->|[? ?]]; [|by auto]. split; [by left|]. rw count_cons.
        rw Hd1 in E, Hn. repeat case_decide; try done. lia.
      * intros [[->|?] ?]; [by left|right; by split].
    + rw Hin' elem_of_cons. split; [naive_solver|]. intros [[->|?] Hc]; [|done].
      split; [|done]. apply count_pos. rw count_cons in Hc. rw Hd1 in E.
      repeat case_decide; try done. lia.
Qed.

(** Dependencies of [x] that are not yet in [order], with multiplicity. *)
Definition pending (es : list (string * string)) (order : list string) (x : string) : nat :=
  length (List.filter (fun e => bool_decide (snd e = x) && negb (bool_decide (fst e ∈ order))) es).

Lemma pending_snoc es order curr x :
  curr ∉ order ->
  (pending es (order ++ [curr]) x +
   count x (map snd (List.filter (fun e => bool_decide (fst e = curr)) es)) =
   pending es order x)%nat.
Proof.
  intros Hn. unfold pending. induction es as [|[d y] es IH]; simpl; [done|].
  destruct (decide (d = curr)) as [->|Hd].
  - rw (bool_decide_true (curr = curr)) //= (bool_decide_true (curr ∈ _)); [set_solver|].
    rw (bool_decide_false (curr ∈ order)) //= count_cons andb_false_r /=.
    destruct (decide (y = x)) as [->|].
    + rw bool_decide_true //=. lia.
    + rw bool_decide_false //=.
  - rw (bool_decide_false (d = curr)) //.
    rw (bool_decide_ext (d ∈ order ++ [curr]) (d ∈ order)); [set_solver|].
    destruct (_ && _); simpl; lia.
Qed.

Lemma pending_zero es order x :
  pending es order x = 0%nat <-> forall d, (d, x) ∈ es -> d ∈ order.
Proof.
  unfold pending. induction es as [|[d y] es IH]; simpl; [set_solver|].
  destruct (bool_decide (y = x) && negb (bool_decide (d ∈ order))) eqn:E; simpl.
  - breflect. subst. split; [done|]. intros H. destruct H0. apply H. by left.
  - rw IH. split; intros H d' Hin.
    + apply elem_of_cons in Hin as [[= -> ->]|Hin]; [|by apply H].
      apply andb_false_iff in E as [E|E]; breflect; done.
    + apply H. by right.
Qed.

Lemma initial_degrees_lookup rs x :
  NoDup (map man_id rs) ->
  degree (initial_degrees rs) x = Z.of_nat (pending (edges rs) [] x).
Proof.
  intros Hnd. unfold initial_degrees.
  assert (forall deg, (forall m, m ∈ rs -> deg !! man_id m = None) ->
    degree (fold_left (fun deg m => <[man_id m := Z.of_nat (length (man_dependencies m))]> deg)
      rs deg) x = degree deg x + Z.of_nat (pending (edges rs) [] x)) as H.
  2: { rw H; [set_solver|]. unfold degree at 1. by rw lookup_empty. }
  induction rs as [|m rs IH]; intros deg Hdeg; simpl; [unfold pending; simpl; lia|].
  apply NoDup_cons in Hnd as [Hn Hnd]. rw IH //.
  { intros m' Hm'. rw lookup_insert_ne; [|apply Hdeg; by right].
    intros E. apply Hn. rw E. apply list_elem_of_In, in_map_iff. exists m'.
    by rw -list_elem_of_In. }
  rw degree_insert. unfold pending. unfold edges at 2. simpl. fold (edges rs).
  rw List.filter_app length_app Nat2Z.inj_add.
  assert (length (List.filter (fun e : string * string => bool_decide (snd e = x) && true) (map (fun dep => (dep, man_id m))
    (man_dependencies m))) = if decide (man_id m = x) then length (man_dependencies m) else 0%nat)
    as ->.
  { induction (man_dependencies m) as [|d l IHl]; simpl; [by case_decide|].
    case_decide as Ex.
    - rw bool_decide_true //= IHl //.
    - rw bool_decide_false //= IHl //. }
  assert (degree deg (man_id m) = 0) as H0.
  { unfold degree. rw Hdeg //. by left. }
  case_decide; subst; lia.
Qed.

Section Resolver.
Context (rs : Registry).
Hypothesis Hnd : NoDup (map man_id rs).
Hypothesis Hdeps : missing_dependency rs = None.

Let ids := map man_id rs.
Let es := edges rs.

Lemma edge_ids d x : (d, x) ∈ es -> d ∈ ids /\ x ∈ ids.
Proof.
  intros He. split.
  - unfold missing_dependency in Hdeps. pose proof (find_none _ _ Hdeps (d, x)) as H.
    apply list_elem_of_In in He. specialize (H He). simpl in H. by breflect.
  - unfold es, edges in He. apply list_elem_of_In, in_flat_map in He as (m & Hm & He).
    apply in_map_iff in He as (d' & [= -> <-] & _). apply list_elem_of_In, in_map_iff. eauto.
Qed.

Lemma neighbors_edge curr x : x ∈ neighbors rs curr <-> (curr, x) ∈ es.
Proof.
  unfold neighbors, es. rw list_elem_of_In in_map_iff. split.
  - intros ([d y] & <- & Hin). apply filter_In in Hin as [Hin Hd]. simpl in *. breflect.
    subst. by apply list_elem_of_In.
  - intros Hin. exists (curr, x). split; [done|]. apply filter_In.
    rw -list_elem_of_In. simpl. by rw bool_decide_true.
Qed.

Record kahn_inv (order queue : list string) (deg : InDegree) : Prop := {
  ki_degree : forall x, degree deg x = Z.of_nat (pending es order x);
  ki_nodup : NoDup (order ++ queue);
  ki_ready : forall x, x ∈ order ++ queue <-> x ∈ ids /\ pending es order x = 0%nat;
  ki_sorted : forall i x d, order !! i = Some x -> (d, x) ∈ es -> d ∈ take i order
}.

Lemma kahn_inv_init : kahn_inv [] (initial_queue rs) (initial_degrees rs).
Proof.
  assert (forall x, degree (initial_degrees rs) x = Z.of_nat (pending es [] x)) as Hdeg
    by (intros; by apply initial_degrees_lookup).
  split; [done| | |done].
  - simpl. unfold initial_queue. apply NoDup_ListNoDup, List.NoDup_filter, NoDup_ListNoDup, Hnd.
  - intros x. simpl. unfold initial_queue. rw list_elem_of_In filter_In Z.eqb_eq Hdeg.
    rw -list_elem_of_In. fold ids. split; intros [? ?]; split; auto; lia.
Qed.

Lemma kahn_inv_step order curr rest deg deg' ready :
  kahn_inv order (curr :: rest) deg -> relax deg (neighbors rs curr) = (deg', ready) ->
  kahn_inv (order ++ [curr]) (rest ++ ready) deg'.
Proof.
  intros [K1 K2 K3 K4] Hr.
  assert (curr ∉ order) as Hc.
  { apply NoDup_app in K2 as (_ & K2 & _). intros H. apply (K2 _ H). by left. }
  assert (forall x, (pending es (order ++ [curr]) x + count x (neighbors rs curr) =
    pending es order x)%nat) as Hp by (intros; by apply pending_snoc).
  pose proof (relax_spec (neighbors rs curr) deg) as Hs. rw Hr in Hs.
  destruct Hs as (Hdeg & Hnr & Hin). { intros x. rw K1 -Hp. lia. }
  assert (forall x, x ∈ ready <-> (curr, x) ∈ es /\ pending es (order ++ [curr]) x = 0%nat)
    as Hready.
  { intros x. rw Hin neighbors_edge K1 -Hp. split; intros [? ?]; split; auto; lia. }
  assert (forall x, x ∈ ready -> x ∉ order ++ curr :: rest) as Hdisj.
  { intros x Hx Hold. apply K3 in Hold as [_ Hz]. apply Hready in Hx as [He _].
    apply neighbors_edge, count_pos in He. specialize (Hp x). lia. }
  split.
  - intros x. rw Hdeg K1 -Hp. lia.
  - rw -app_assoc /= app_comm_cons app_assoc. apply NoDup_app. split_and!; [done| |done].
    intros x Hx Hrd. by apply (Hdisj x Hrd).
  - intros x. rw -app_assoc /= app_comm_cons app_assoc elem_of_app K3 Hready. split.
    + intros [[Hx Hz]|[He Hz]]; [split; [done|]; specialize (Hp x); lia|].
      split; [by apply edge_ids in He as [_ ?]|done].
    + intros [Hx Hz]. destruct (pending es order x) as [|p] eqn:Ep; [by left|right].
      split; [|done]. apply neighbors_edge, count_pos. specialize (Hp x). lia.
  - intros i x d Hi He. destruct (decide (i < length order)%nat) as [Hl|Hl].
    + rw lookup_app_l // in Hi. rw take_app_le; [lia|]. by eapply K4.
    + rw lookup_app_r in Hi; [lia|].
      destruct (i - length order)%nat as [|k] eqn:Ek; [|by destruct k].
      injection Hi as <-. replace i with (length order) by lia. rw take_app_length.
      apply (proj1 (pending_zero es order curr)); [|done].
      apply K3. set_solver.
Qed.

Lemma kahn_inv_length order queue deg :
  kahn_inv order queue deg -> (length (order ++ queue) <= length rs)%nat.
Proof.
  intros [_ K2 K3 _]. rw -(length_map man_id rs). apply submseteq_length.
  apply NoDup_submseteq; [done|]. intros x Hx. by apply K3.
Qed.

Lemma kahn_run fuel order queue deg :
  kahn_inv order queue deg -> (length order + fuel = length rs)%nat ->
  exists order' deg', kahn fuel rs queue order deg = Some order' /\ kahn_inv order' [] deg'.
Proof.
  revert order queue deg. induction fuel as [|fuel IH]; intros order [|curr rest] deg Hk Hf; simpl.
  - eauto.
  - pose proof (kahn_inv_length _ _ _ Hk) as Hl. rw length_app /= in Hl. lia.
  - eauto.
  - destruct (relax deg (neighbors rs curr)) as [deg' ready] eqn:Hr.
    apply (IH _ _ deg'); [by eapply kahn_inv_step|]. rw length_app /=. lia.
Qed.

(** An order that covers every runtime once. *)
Lemma kahn_covers order deg :
  kahn_inv order [] deg -> length order = length rs -> order ≡ₚ ids.
Proof.
  intros [_ K2 K3 _] Hl. rw app_nil_r in K2, K3.
  apply submseteq_length_Permutation; [|by unfold ids; rw length_map -Hl].
  apply NoDup_submseteq; [done|]. intros x Hx. by apply K3.
Qed.

(** Acyclicity: a rank that every dependency edge increases. *)
Lemma kahn_complete order deg (rank : string -> nat) :
  kahn_inv order [] deg -> (forall d x, (d, x) ∈ es -> (rank d < rank x)%nat) ->
  length order = length rs.
Proof.
  intros [_ K2 K3 _] Hrank. rw app_nil_r in K2, K3.
  assert (forall n x, rank x = n -> x ∈ ids -> x ∈ order) as Hall.
  { intros n. induction (lt_wf n) as [n _ IH]. intros x <- Hx. apply K3. split; [done|].
    apply pending_zero. intros d He. destruct (edge_ids d x He) as [Hd _].
    apply (IH (rank d)); [by apply Hrank|done|done]. }
  rw -(length_map man_id rs). fold ids. apply Permutation_length.
  apply NoDup_Permutation; [done|done|]. intros x. split; [|by eauto]. intros Hx. by apply K3.
Qed.
End Resolver.

(** A runtime of the order comes after everything it depends on. *)
Definition respects (rs : Registry) (order : list string) : Prop :=
  forall m i, m ∈ rs -> order !! i = Some (man_id m) ->
    forall d, d ∈ man_dependencies m -> d ∈ take i order.

Lemma edges_dep rs m d : m ∈ rs -> d ∈ man_dependencies m -> (d, man_id m) ∈ edges rs.
Proof.
  intros Hm Hd. apply list_elem_of_In, in_flat_map. exists m.
  split; [by apply list_elem_of_In|]. apply in_map_iff. exists d.
  split; [done|]. by apply list_elem_of_In.
Qed.

Lemma resolve_order_ok rs order :
  NoDup (map man_id rs) -> resolve_order rs = Some (Ok order) ->
  order ≡ₚ map man_id rs /\ respects rs order.
Proof.
  intros Hnd H. unfold resolve_order in H.
  destruct (missing_dependency rs) as [[d x]|] eqn:Hm; [done|].
  destruct (kahn_run rs Hnd Hm (length rs) [] _ _ (kahn_inv_init rs Hnd)) as
    (o & deg & Hk & Hi); [done|]. rw Hk in H.
  destruct (Nat.eqb_spec (length o) (length rs)) as [E|E]; [|done]. injection H as <-.
  split; [by eapply kahn_covers|]. intros m i Hin Ho d Hd.
  eapply (ki_sorted _ _ _ _ Hi); [done|]. by apply edges_dep.
Qed.

(** ** Lemmas on the phases *)

(** A phase step on a runtime whose state satisfies [Pre]: it makes its calls, touches
    only that runtime, and leaves it in [post] when it returns. *)
Definition phase_step (step : string -> KernelState -> KernelState * option KernelError)
    (Pre : LifecycleState -> Prop) (calls : string -> list KernelCall)
    (post : LifecycleState) : Prop :=
  forall id ks, Pre (state_of ks id) ->
    let '(ks', e) := step id ks in
    ks_log ks' = ks_log ks ++ calls id /\
    (forall x, x <> id -> state_of ks' x = state_of ks x) /\
    (e = None -> state_of ks' id = post).

Lemma for_each_phase step Pre calls post ids ks ks' e :
  phase_step step Pre calls post -> NoDup ids -> (forall x, x ∈ ids -> Pre (state_of ks x)) ->
  for_each step ids ks = (ks', e) ->
  exists k, ks_log ks' = ks_log ks ++ List.flat_map calls (take k ids) /\
    (forall x, x ∉ take k ids -> state_of ks' x = state_of ks x) /\
    (e = None -> k = length ids /\ forall x, x ∈ ids -> state_of ks' x = post).
Proof.
  intros Hstep. revert ks. induction ids as [|id ids IH]; intros ks Hnd Hpre H; simpl in H.
  { injection H as <- <-. exists 0%nat. simpl. rw app_nil_r. split_and!; [done|done|set_solver]. }
  apply NoDup_cons in Hnd as [Hn Hnd].
  specialize (Hstep id ks (Hpre id ltac:(by left))) as Hs.
  destruct (step id ks) as [ks1 [er|]].
  - injection H as <- <-. destruct Hs as (Hl & Hf & _). exists 1%nat. simpl.
    rw app_nil_r. split_and!; [done| |done]. intros x Hx. apply Hf. set_solver.
  - destruct Hs as (Hl & Hf & Hp). specialize (Hp eq_refl).
    destruct (IH ks1 Hnd) as (k & Hlog & Hfr & Hok); [|exact H|].
    { intros x Hx. rw Hf; [set_solver|]. apply Hpre. by right. }
    exists (S k). simpl. rw Hlog Hl -app_assoc. split_and!; [done| |].
    + intros x Hx. rw Hfr; [set_solver|]. apply Hf. set_solver.
    + intros He. destruct (Hok He) as [-> Hall]. split; [done|].
      intros x [->|Hx]%elem_of_cons; [|by apply Hall]. rw Hfr //.
      intros Ht. apply Hn. by eapply elem_of_take in Ht as (i & ? & _); eapply list_elem_of_lookup_2.
Qed.

Lemma state_of_set ks id s x :
  state_of (set_state ks id s) x = if decide (id = x) then s else state_of ks x.
Proof. unfold state_of, set_state. simpl. rw lookup_insert. by case_decide. Qed.

Lemma initialize_phase h :
  phase_step (initialize_one h) (fun _ => True) (fun id => [CallInitialize id]) INITIALIZED.
Proof.
  intros id ks _. unfold initialize_one. destruct (init_returns h id); simpl.
  - split; [done|]. split; intros; rw state_of_set; by case_decide.
  - done.
Qed.

Lemma start_phase h :
  phase_step (start_one h) (fun s => s = INITIALIZED) (fun id => [CallStart id]) RUNNING.
Proof.
  intros id ks Hs. unfold start_one. rw bool_decide_true //.
  destruct (start_returns h id); simpl.
  - split; [done|]. split; intros; rw state_of_set; by case_decide.
  - done.
Qed.

Lemma stop_phase h :
  phase_step (stop_one h) (fun s => s = RUNNING) (fun id => [CallStop id; CallDispose id])
    DISPOSED.
Proof.
  intros id ks Hs. unfold stop_one. rw Hs /=.
  destruct (dispose_returns h id); simpl.
  - rw -app_assoc. split; [done|].
    split; [|intros _; rw state_of_set; by case_decide].
    intros x Hx. unfold state_of, set_state, log_call. simpl. rw !lookup_insert_ne //.
  - rw -app_assoc. split; [done|]. split; [|done].
    intros x Hx. unfold state_of, set_state, log_call. simpl. rw !lookup_insert_ne //.
Qed.

(** In a prefix of the calls, what precedes an element of the order was called earlier. *)
Lemma prefix_call_before (call : string -> KernelCall) order k i x d :
  (forall a b, call a = call b -> a = b) -> NoDup order ->
  map call (take k order) !! i = Some (call x) ->
  (forall j, order !! j = Some x -> d ∈ take j order) ->
  exists j, (j < i)%nat /\ map call (take k order) !! j = Some (call d).
Proof.
  intros Hinj Hnd Hi Hd. apply list_lookup_fmap_Some in Hi as (y & Hy & Hi).
  apply Hinj in Hy as <-. apply lookup_take_Some in Hi as [Hi Hk].
  specialize (Hd i Hi). apply list_elem_of_lookup in Hd as [j Hj].
  apply lookup_take_Some in Hj as [Hj Hl]. exists j. split; [done|].
  apply list_lookup_fmap_Some. exists d. split; [done|]. apply lookup_take_Some. split; [done|lia].
Qed.

Lemma flat_map_single {A B} (f : A -> B) l : List.flat_map (fun x => [f x]) l = map f l.
Proof. induction l; simpl; [done|]. by f_equal. Qed.

(** ** Theorems *)

(** C12 resolve_order_correct: for uniquely named runtimes the resolver always answers: with
    an order that contains every runtime once and after all its dependencies; or with the
    missing dependency of some runtime; or with a circular-dependency error, and then
    every dependency is registered and no numbering of the runtimes puts dependencies
    before dependents.  In particular an acyclic, complete registry is never refused. *)
Theorem resolve_order_correct rs :
  NoDup (map man_id rs) ->
  exists r, resolve_order rs = Some r /\
  match r with
  | Ok order => order ≡ₚ map man_id rs /\ respects rs order
  | Err (MissingDependency d x) =>
      (d ∉ map man_id rs) /\ exists m, m ∈ rs /\ man_id m = x /\ d ∈ man_dependencies m
  | Err CircularDependency =>
      (forall m d, m ∈ rs -> d ∈ man_dependencies m -> d ∈ map man_id rs) /\
      ~ exists rank : string -> nat, forall m d, m ∈ rs -> d ∈ man_dependencies m ->
          (rank d < rank (man_id m))%nat
  | Err _ => False
  end.
Proof.
  intros Hnd. pose proof (resolve_order_ok rs) as Hok. unfold resolve_order in *.
  destruct (missing_dependency rs) as [[d x]|] eqn:Hm.
  - eexists. split; [done|]. simpl. unfold missing_dependency in Hm.
    apply find_some in Hm as [Hin Hd]. simpl in Hd. breflect. split; [done|].
    apply in_flat_map in Hin as (m & Hin & He). apply in_map_iff in He as (d' & [= -> <-] & He).
    exists m. by rw !list_elem_of_In.
  - destruct (kahn_run rs Hnd Hm (length rs) [] _ _ (kahn_inv_init rs Hnd)) as
      (o & deg & Hk & Hi); [done|]. rw Hk in Hok |- *. eexists. split; [done|].
    destruct (Nat.eqb_spec (length o) (length rs)) as [E|E]; [by apply Hok|]. split.
    + intros m d Hin Hd. by apply (edge_ids rs Hm d (man_id m)), edges_dep.
    + intros [rank Hrank]. apply E. apply (kahn_complete rs Hnd Hm o deg rank Hi).
      intros d x He. apply list_elem_of_In, in_flat_map in He as (m & Hin & He).
      apply in_map_iff in He as (d' & [= -> <-] & He). by apply Hrank; apply list_elem_of_In.
Qed.

Definition demo_registry : Registry := [
  {| man_id := "agent"; man_dependencies := ["provider"; "capability"] |};
  {| man_id := "capability"; man_dependencies := ["connection"] |};
  {| man_id := "connection"; man_dependencies := [] |};
  {| man_id := "provider"; man_dependencies := [] |}].

Lemma resolve_order_correct_witness :
  exists order, resolve_order demo_registry = Some (Ok order) /\
    order = ["connection"; "provider"; "capability"; "agent"] /\ respects demo_registry order.
Proof.
  destruct (resolve_order_correct demo_registry) as (r & Hr & H).
  - apply (bool_decide_unpack _). vm_compute. exact I.
  - eexists. split; [vm_compute; reflexivity|]. split; [reflexivity|].
    assert (r = Ok ["connection"; "provider"; "capability"; "agent"]%string) as -> by
      (apply (f_equal (fun o => default r o)) in Hr; symmetry; exact Hr).
    exact (proj2 H).
Defined.

Lemma init_not_start l i x : map CallInitialize l !! i <> Some (CallStart x).
Proof. intros (y & [=] & _)%list_lookup_fmap_Some. Qed.

Lemma start_after_init order l i x :
  (map CallInitialize order ++ map CallStart l) !! i = Some (CallStart x) ->
  (length order <= i)%nat /\ map CallStart l !! (i - length order)%nat = Some (CallStart x).
Proof.
  intros [Hi|[Hlen Hi]]%lookup_app_Some; [by apply init_not_start in Hi|].
  by rw length_map in Hlen, Hi.
Qed.

(** The log of a bootstrap: initialize calls, then the calls that started. *)
Lemma bootstrap_log h rs ks e :
  NoDup (map man_id rs) -> bootstrap h rs {| ks_states := ∅; ks_log := [] |} = Some (ks, e) ->
  (exists l, ks_log ks = map CallInitialize l /\ e <> None) \/
  exists order k, order ≡ₚ map man_id rs /\ respects rs order /\
    ks_log ks = map CallInitialize order ++ map CallStart (take k order) /\
    (e = None -> k = length order /\ forall x, x ∈ order -> state_of ks x = RUNNING).
Proof.
  intros Hnd H. unfold bootstrap, initialize_all, start_all, in_order in H.
  destruct (resolve_order rs) as [[order|er]|] eqn:Ho; [| |done].
  2: { injection H as <- <-. left. by exists []. }
  destruct (resolve_order_ok rs order Hnd Ho) as [Hperm Hresp].
  assert (NoDup order) as Hndo by by rw Hperm.
  destruct (for_each (initialize_one h) order _) as [ks1 e1] eqn:H1.
  destruct (for_each_phase _ _ _ _ _ _ _ _ (initialize_phase h) Hndo (fun _ _ => I) H1) as
    (k1 & Hl1 & _ & Hok1). simpl in Hl1. rw flat_map_single in Hl1.
  destruct e1 as [er|]; [injection H as <- <-; left; by exists (take k1 order)|].
  destruct (Hok1 eq_refl) as [-> Hinit]. rw take_ge // in Hl1.
  destruct (for_each (start_one h) order ks1) as [ks2 e2] eqn:H2. injection H as <- <-.
  destruct (for_each_phase _ _ _ _ _ _ _ _ (start_phase h) Hndo Hinit H2) as
    (k2 & Hl2 & _ & Hok2). rw flat_map_single Hl1 in Hl2. right. by exists order, k2.
Qed.

(** [bootstrap_starts_dependencies_first]: whichever hooks raise, the kernel starts a
    runtime only after it has started all its dependencies and after it has initialised
    every runtime; and when bootstrap succeeds every runtime was initialised and started
    once and is RUNNING. *)
Theorem bootstrap_starts_dependencies_first h rs ks e :
  NoDup (map man_id rs) ->
  bootstrap h rs {| ks_states := ∅; ks_log := [] |} = Some (ks, e) ->
  (forall m i d, m ∈ rs -> ks_log ks !! i = Some (CallStart (man_id m)) ->
     d ∈ man_dependencies m ->
     exists j, (j < i)%nat /\ ks_log ks !! j = Some (CallStart d)) /\
  (forall m i, m ∈ rs -> ks_log ks !! i = Some (CallStart (man_id m)) ->
     forall m', m' ∈ rs -> exists j, (j < i)%nat /\
       ks_log ks !! j = Some (CallInitialize (man_id m'))) /\
  (e = None -> (forall m, m ∈ rs -> state_of ks (man_id m) = RUNNING) /\
     exists order, order ≡ₚ map man_id rs /\
       ks_log ks = map CallInitialize order ++ map CallStart order).
Proof.
  intros Hnd H. destruct (bootstrap_log h rs ks e Hnd H) as
    [(l & Hl & He)|(order & k & Hperm & Hresp & Hl & Hrun)]; rw Hl.
  { split_and!; [| |done]; intros m i; intros; by apply init_not_start in H1. }
  assert (NoDup order) as Hndo by by rw Hperm.
  assert (Hin : forall m, m ∈ rs -> man_id m ∈ order).
  { intros m Hm. rw Hperm. apply list_elem_of_In, in_map_iff. exists m. by rw -list_elem_of_In. }
  split_and!.
  - intros m i d Hm [Hlen Hi]%start_after_init Hd.
    destruct (prefix_call_before CallStart order k _ (man_id m) d
      ltac:(congruence) Hndo Hi) as (j & Hj & Hlk); [intros j Hj; by eapply Hresp|].
    exists (length order + j)%nat. split; [lia|]. rw lookup_app_r length_map; [lia|].
    by replace (length order + j - length order)%nat with j by lia.
  - intros m i Hm [Hlen _]%start_after_init m' Hm'.
    apply Hin, list_elem_of_lookup in Hm' as [j Hj]. pose proof (lookup_lt_Some _ _ _ Hj).
    exists j. split; [lia|]. rw lookup_app_l ?length_map //.
    apply list_lookup_fmap_Some. by exists (man_id m').
  - intros He. destruct (Hrun He) as [-> Hr]. split; [by intros m Hm; apply Hr, Hin|].
    exists order. by rw take_ge.
Qed.

Definition good_hooks : Hooks := {|
  init_returns := fun _ => true; start_returns := fun _ => true;
  stop_returns := fun _ => true; dispose_returns := fun _ => true |}.

Lemma demo_registry_nodup : NoDup (map man_id demo_registry).
Proof. apply (bool_decide_unpack _). vm_compute. exact I. Qed.

Lemma bootstrap_starts_dependencies_first_witness :
  exists ks, bootstrap good_hooks demo_registry {| ks_states := ∅; ks_log := [] |} =
      Some (ks, None) /\ forall m, m ∈ demo_registry -> state_of ks (man_id m) = RUNNING.
Proof.
  destruct (bootstrap good_hooks demo_registry {| ks_states := ∅; ks_log := [] |})
    as [[ks [er|]]|] eqn:E; [exfalso; revert E; vm_compute; discriminate
                            | |exfalso; revert E; vm_compute; discriminate].
  exists ks. split; [reflexivity|].
  apply (bootstrap_starts_dependencies_first good_hooks demo_registry ks None
    demo_registry_nodup E); reflexivity.
Defined.

(** In the reversed order a dependency comes after its dependents. *)
Lemma reverse_respects rs o m i x :
  NoDup (map man_id rs) -> o ≡ₚ map man_id rs -> respects rs o -> m ∈ rs ->
  reverse o !! i = Some x -> x ∈ man_dependencies m -> man_id m ∈ take i (reverse o).
Proof.
  intros Hnd Hperm Hresp Hm Hi Hx. apply reverse_lookup_Some in Hi as [Hi Hlen].
  assert (man_id m ∈ o) as Hin.
  { rw Hperm. apply list_elem_of_In, in_map_iff. exists m. by rw -list_elem_of_In. }
  apply list_elem_of_lookup in Hin as [p Hp]. pose proof (lookup_lt_Some _ _ _ Hp).
  pose proof (Hresp m p Hm Hp x Hx) as Hxp. apply list_elem_of_lookup in Hxp as [q Hq].
  apply lookup_take_Some in Hq as [Hq Hqp].
  assert (NoDup o) as Hndo by by rw Hperm.
  pose proof (proj1 (NoDup_alt _) Hndo _ _ _ Hi Hq) as Heq.
  apply list_elem_of_lookup. exists (length o - S p)%nat. apply lookup_take_Some.
  split; [|lia]. apply reverse_lookup_Some. split; [|lia].
  by replace (length o - S (length o - S p))%nat with p by lia.
Qed.

(** [shutdown_stops_dependents_first]: stopping a running kernel goes through the runtimes
    in reverse dependency order: the log of stop and dispose calls is a sequence in which
    a runtime comes only after every runtime that depends on it, all of it when no hook
    raises (and every runtime is then DISPOSED); when a hook raises the sequence ends
    there and the runtimes not yet reached are still RUNNING. *)
Theorem shutdown_stops_dependents_first h rs ks ks' e :
  NoDup (map man_id rs) -> ks_log ks = [] ->
  (forall m, m ∈ rs -> state_of ks (man_id m) = RUNNING) ->
  is_Some (resolve_order rs ≫= fun r => match r with Ok o => Some o | Err _ => None end) ->
  stop_all h rs ks = Some (ks', e) ->
  exists stopped rest, stopped ++ rest ≡ₚ map man_id rs /\
    ks_log ks' = List.flat_map (fun x => [CallStop x; CallDispose x]) stopped /\
    (forall x, x ∈ rest -> state_of ks' x = RUNNING) /\
    (forall m i x, m ∈ rs -> stopped !! i = Some x -> x ∈ man_dependencies m ->
       man_id m ∈ take i stopped) /\
    (e = None -> rest = [] /\ forall x, x ∈ stopped -> state_of ks' x = DISPOSED).
Proof.
  intros Hnd Hlog Hrun [o Ho] H. unfold stop_all, in_order in H.
  destruct (resolve_order rs) as [[order|er]|] eqn:Hr; simpl in Ho; simplify_eq.
  destruct (resolve_order_ok rs o Hnd Hr) as [Hperm Hresp].
  assert (NoDup (reverse o)) as Hndo by (by rw reverse_Permutation Hperm).
  assert (forall x, x ∈ reverse o -> state_of ks x = RUNNING) as Hpre.
  { intros x. rw elem_of_reverse Hperm list_elem_of_In in_map_iff. intros (m & <- & Hm).
    apply Hrun. by apply list_elem_of_In. }
  destruct (for_each_phase _ _ _ _ _ _ _ _ (stop_phase h) Hndo Hpre H) as
    (k & Hl & Hfr & Hok). rw Hlog /= in Hl.
  exists (take k (reverse o)), (drop k (reverse o)). split_and!.
  - by rw take_drop reverse_Permutation.
  - done.
  - intros x Hx. rw Hfr.
    + intros Ht. rw -(take_drop k (reverse o)) in Hndo.
      apply NoDup_app in Hndo as (_ & Hd & _). by apply (Hd x).
    + apply Hpre. rw -(take_drop k (reverse o)). set_solver.
  - intros m i x Hm [Hi Hk]%lookup_take_Some Hx. rw take_take.
    replace (i `min` k)%nat with i by lia. by eapply reverse_respects.
  - intros He. destruct (Hok He) as [-> Hd]. rw drop_ge // take_ge //.
Qed.

Definition running_kernel : KernelState := {|
  ks_states := {["agent" := RUNNING; "capability" := RUNNING; "connection" := RUNNING;
                 "provider" := RUNNING]}; ks_log := [] |}.

Lemma shutdown_stops_dependents_first_witness :
  exists ks', stop_all good_hooks demo_registry running_kernel = Some (ks', None) /\
    exists stopped, ks_log ks' =
      List.flat_map (fun x => [CallStop x; CallDispose x]) stopped.
Proof.
  destruct (stop_all good_hooks demo_registry running_kernel)
    as [[ks' [er|]]|] eqn:E; [exfalso; revert E; vm_compute; discriminate
                             | |exfalso; revert E; vm_compute; discriminate].
  exists ks'. split; [reflexivity|].
  destruct (shutdown_stops_dependents_first good_hooks demo_registry running_kernel ks' None
    demo_registry_nodup eq_refl) as (stopped & rest & _ & Hl & _); [| |exact E|].
  - intros m Hm. unfold demo_registry in Hm.
    repeat (apply elem_of_cons in Hm as [->|Hm]; [reflexivity|]). by apply not_elem_of_nil in Hm.
  - by eexists.
  - by exists stopped.
Defined.
