(* ===== verification/ClientLedger.v ===== *)
(** * Client invocation ledger (src/cl/src/core/client_invocation_ledger.py)

    The client records every remote invocation before it runs it, so that a reconnecting
    server can be told what happened instead of running it again.  Every method is one
    transaction under the ledger's lock ([BEGIN IMMEDIATE] for the writers), so it is one
    step on the table.  A stored payload is the canonical JSON text of its object; reading
    it back and encoding it again gives the same text, so the row keeps the object and
    payloads are compared by their text.  Clock readings are integers. *)

From S2P Require Import Prelude Canonical.

Inductive ClientInvocationLedgerState := PREPARED | RUNNING | TERMINAL.

#[global] Instance ledger_state_eq_dec : EqDecision ClientInvocationLedgerState.
Proof. solve_decision. Defined.

Record ClientInvocationRecord := {
  lr_capability_id : string;
  lr_capability_version : string;
  lr_request_fingerprint : string;
  lr_idempotency : string;
  lr_state : ClientInvocationLedgerState;
  lr_terminal_type : option string;
  lr_terminal_payload : option (list (string * json));
  lr_created_at : Z;
  lr_updated_at : Z;
  lr_expires_at : Z
}.

(** The primary key: client, principal, invocation. *)
Abbreviation LedgerKey := (string * string * string)%type.
Abbreviation Ledger := (gmap LedgerKey ClientInvocationRecord).

Inductive LedgerError :=
  | LedgerConflict (what : string)
  | LedgerLookupError
  | LedgerValueError (what : string).

Definition require_identity (k : LedgerKey) : result LedgerError unit :=
  let '(client_id, principal_id, invocation_id) := k in
  guard_err (truthy client_id && truthy principal_id && truthy invocation_id)
    (LedgerValueError "client_id, principal_id and invocation_id are required.").

Definition require_record (l : Ledger) (k : LedgerKey)
    : result LedgerError ClientInvocationRecord :=
  match l !! k with Some r => Ok r | None => Err LedgerLookupError end.

Record Semantics := {
  sem_capability_id : string;
  sem_capability_version : string;
  sem_request_fingerprint : string;
  sem_idempotency : string
}.

Definition record_semantics (r : ClientInvocationRecord) : Semantics := {|
  sem_capability_id := lr_capability_id r;
  sem_capability_version := lr_capability_version r;
  sem_request_fingerprint := lr_request_fingerprint r;
  sem_idempotency := lr_idempotency r |}.

#[global] Instance semantics_eq_dec : EqDecision Semantics.
Proof. solve_decision. Defined.

Definition validate_semantics (existing : ClientInvocationRecord) (s : Semantics)
    : result LedgerError unit :=
  guard_err (bool_decide (record_semantics existing = s))
    (LedgerConflict "invocation_id is already bound to different request semantics.").

Definition encode_payload (payload : list (string * json)) : string :=
  json_dumps_utf8 (JObj payload).

Section Ledger.
Context (terminal_ttl : Z).

Definition prepare (l : Ledger) (k : LedgerKey) (s : Semantics) (now : Z)
    : result LedgerError (Ledger * ClientInvocationRecord) :=
  _ ← require_identity k;
  match l !! k with
  | Some existing =>
      _ ← validate_semantics existing s;
      mret (l, existing)
  | None =>
      let r := {| lr_capability_id := sem_capability_id s;
                  lr_capability_version := sem_capability_version s;
                  lr_request_fingerprint := sem_request_fingerprint s;
                  lr_idempotency := sem_idempotency s;
                  lr_state := PREPARED; lr_terminal_type := None;
                  lr_terminal_payload := None; lr_created_at := now;
                  lr_updated_at := now; lr_expires_at := now + terminal_ttl |} in
      mret (<[k := r]> l, r)
  end.

Definition with_state (r : ClientInvocationRecord) (s : ClientInvocationLedgerState)
    (tt : option string) (tp : option (list (string * json))) (upd exp : Z)
    : ClientInvocationRecord := {|
  lr_capability_id := lr_capability_id r; lr_capability_version := lr_capability_version r;
  lr_request_fingerprint := lr_request_fingerprint r; lr_idempotency := lr_idempotency r;
  lr_state := s; lr_terminal_type := tt; lr_terminal_payload := tp;
  lr_created_at := lr_created_at r; lr_updated_at := upd; lr_expires_at := exp |}.

Definition mark_running (l : Ledger) (k : LedgerKey) (now : Z)
    : result LedgerError (Ledger * ClientInvocationRecord) :=
  existing ← require_record l k;
  match lr_state existing with
  | TERMINAL => Err (LedgerConflict "Terminal invocation cannot return to RUNNING.")
  | PREPARED =>
      let r := with_state existing RUNNING (lr_terminal_type existing)
                 (lr_terminal_payload existing) now (lr_expires_at existing) in
      mret (<[k := r]> l, r)
  | RUNNING => mret (l, existing)
  end.

Definition commit_terminal (l : Ledger) (k : LedgerKey) (terminal_type : string)
    (terminal_payload : list (string * json)) (now : Z)
    : result LedgerError (Ledger * ClientInvocationRecord) :=
  _ ← guard_err (bool_decide (terminal_type ∈ ["result"; "error"; "cancelled"]))
        (LedgerValueError "Unsupported terminal_type.");
  existing ← require_record l k;
  match lr_state existing with
  | TERMINAL =>
      _ ← guard_err
            (bool_decide (lr_terminal_type existing = Some terminal_type) &&
             bool_decide (encode_payload (default [] (lr_terminal_payload existing)) =
                          encode_payload terminal_payload))
            (LedgerConflict "Terminal invocation outcome is immutable.");
      mret (l, existing)
  | PREPARED | RUNNING =>
      let r := with_state existing TERMINAL (Some terminal_type) (Some terminal_payload)
                 now (now + terminal_ttl) in
      mret (<[k := r]> l, r)
  end.

Definition ledger_get (l : Ledger) (k : LedgerKey) : option ClientInvocationRecord :=
  match require_identity k with Ok _ => l !! k | Err _ => None end.

(** Rows to delete: terminal and expired. *)
Definition purgeable (cutoff : Z) (r : ClientInvocationRecord) : Prop :=
  lr_state r = TERMINAL /\ lr_expires_at r <= cutoff.

#[global] Instance purgeable_dec cutoff r : Decision (purgeable cutoff r).
Proof. unfold purgeable. apply _. Defined.

Definition purge_expired (l : Ledger) (cutoff : Z) : Ledger * nat :=
  let kept := filter (fun kr => ~ purgeable cutoff (snd kr)) l in
  (kept, (size l - size kept)%nat).

(** ** Histories *)

Inductive LedgerOp :=
  | OpPrepare (k : LedgerKey) (s : Semantics) (now : Z)
  | OpRunning (k : LedgerKey) (now : Z)
  | OpCommit (k : LedgerKey) (terminal_type : string) (payload : list (string * json)) (now : Z)
  | OpPurge (cutoff : Z).

Definition ledger_after {A : Type} (l : Ledger) (r : result LedgerError (Ledger * A)) : Ledger :=
  match r with Ok (l', _) => l' | Err _ => l end.

Definition ledger_apply (l : Ledger) (op : LedgerOp) : Ledger :=
  match op with
  | OpPrepare k s now => ledger_after l (prepare l k s now)
  | OpRunning k now => ledger_after l (mark_running l k now)
  | OpCommit k ty p now => ledger_after l (commit_terminal l k ty p now)
  | OpPurge cutoff => fst (purge_expired l cutoff)
  end.

Definition state_rank (s : ClientInvocationLedgerState) : nat :=
  match s with PREPARED => 0 | RUNNING => 1 | TERMINAL => 2 end.

(** How a record may change: never what it was asked to do, never backwards, and a
    terminal record not at all. *)
Definition record_evolves (r r' : ClientInvocationRecord) : Prop :=
  record_semantics r' = record_semantics r /\ lr_created_at r' = lr_created_at r /\
  (state_rank (lr_state r) <= state_rank (lr_state r'))%nat /\
  (lr_state r = TERMINAL -> r' = r).

Lemma record_evolves_refl r : record_evolves r r.
Proof. by split_and!. Qed.

Lemma record_evolves_trans r1 r2 r3 :
  record_evolves r1 r2 -> record_evolves r2 r3 -> record_evolves r1 r3.
Proof.
  intros (A1 & A2 & A3 & A4) (B1 & B2 & B3 & B4). split_and!; [congruence|congruence|lia|].
  intros H. specialize (A4 H). subst r2. by apply B4.
Qed.

(** A single-row write that respects [record_evolves]. *)
Lemma write_evolves (l : Ledger) k k0 r r0 r1 :
  l !! k = Some r -> l !! k0 = Some r0 -> record_evolves r0 r1 ->
  exists r', <[k0 := r1]> l !! k = Some r' /\ record_evolves r r'.
Proof.
  intros Hk Hk0 Hv. destruct (decide (k0 = k)) as [->|].
  - simplify_eq. rw lookup_insert_eq. eauto.
  - rw lookup_insert_ne //. eauto using record_evolves_refl.
Qed.

(** The operation does not purge [k]'s record: purges come before [bound], and a commit
    made for it keeps it until [bound]. *)
Definition op_safe (bound : Z) (k : LedgerKey) (op : LedgerOp) : Prop :=
  match op with
  | OpPurge cutoff => cutoff < bound
  | OpCommit k0 _ _ now => k0 = k -> bound <= now + terminal_ttl
  | _ => True
  end.

Definition kept_until (bound : Z) (r : ClientInvocationRecord) : Prop :=
  lr_state r = TERMINAL -> bound <= lr_expires_at r.

Lemma prepare_evolves l k r k0 s now :
  l !! k = Some r -> ledger_after l (prepare l k0 s now) !! k = Some r.
Proof.
  intros Hk. unfold prepare. destruct (require_identity k0); simpl; [|done].
  destruct (l !! k0) as [r0|] eqn:Hk0.
  - by destruct (validate_semantics r0 s).
  - simpl. rw lookup_insert_ne; congruence.
Qed.

Lemma mark_running_evolves l k r k0 now :
  l !! k = Some r ->
  exists r', ledger_after l (mark_running l k0 now) !! k = Some r' /\ record_evolves r r' /\
    (lr_state r' = TERMINAL -> r' = r).
Proof.
  intros Hk. unfold mark_running, require_record.
  destruct (l !! k0) as [r0|] eqn:Hk0; simpl; [|eauto using record_evolves_refl].
  destruct (lr_state r0) eqn:Hs; simpl; try by eauto using record_evolves_refl.
  destruct (decide (k0 = k)) as [->|].
  - simplify_eq. rw lookup_insert_eq. eexists. split; [done|].
    split; [split_and!; simpl; rw ?Hs /=; (done || lia)|done].
  - rw lookup_insert_ne //. eauto using record_evolves_refl.
Qed.

Lemma commit_terminal_evolves l k r k0 ty p now :
  l !! k = Some r ->
  exists r', ledger_after l (commit_terminal l k0 ty p now) !! k = Some r' /\
    record_evolves r r' /\
    (r' = r \/ k0 = k /\ lr_expires_at r' = now + terminal_ttl).
Proof.
  intros Hk. unfold commit_terminal, require_record.
  destruct (guard_err _ _); simpl; [|eauto using record_evolves_refl].
  destruct (l !! k0) as [r0|] eqn:Hk0; simpl; [|eauto using record_evolves_refl].
  assert (lr_state r0 <> TERMINAL -> exists r', <[k0 := with_state r0 TERMINAL (Some ty)
    (Some p) now (now + terminal_ttl)]> l !! k = Some r' /\ record_evolves r r' /\
    (r' = r \/ k0 = k /\ lr_expires_at r' = now + terminal_ttl)) as Hw.
  { intros Hs. destruct (decide (k0 = k)) as [->|].
    - simplify_eq. rw lookup_insert_eq. eexists. split; [done|].
      split; [|right; done]. split_and!; simpl; [done|done| |done].
      destruct (lr_state r); simpl; lia.
    - rw lookup_insert_ne //. eauto using record_evolves_refl. }
  destruct (lr_state r0) eqn:Hs; simpl; [by apply Hw..|].
  destruct (guard_err _ _); simpl; eauto using record_evolves_refl.
Qed.

Lemma purge_keeps l k r cutoff :
  l !! k = Some r -> ~ purgeable cutoff r -> fst (purge_expired l cutoff) !! k = Some r.
Proof. intros Hk Hp. simpl. by apply map_lookup_filter_Some. Qed.

Lemma ledger_apply_evolves l k r bound op :
  l !! k = Some r -> kept_until bound r -> op_safe bound k op ->
  exists r', ledger_apply l op !! k = Some r' /\ record_evolves r r' /\ kept_until bound r'.
Proof.
  intros Hk Hb Hs. destruct op as [k0 s now|k0 now|k0 ty p now|cutoff]; simpl.
  - exists r. split; [by apply prepare_evolves|]. auto using record_evolves_refl.
  - destruct (mark_running_evolves l k r k0 now Hk) as (r' & ? & ? & Ht).
    exists r'. split_and!; try done. intros Hx. specialize (Ht Hx). subst r'. auto.
  - destruct (commit_terminal_evolves l k r k0 ty p now Hk) as (r' & ? & ? & Ht).
    exists r'. split_and!; try done. intros Hx. destruct Ht as [->|[-> ->]]; auto.
  - exists r. split; [|auto using record_evolves_refl]. apply (purge_keeps l k r cutoff Hk).
    intros [Ht He]. specialize (Hb Ht). simpl in Hs. lia.
Qed.

Lemma ledger_runs_evolves ops : forall l k r bound,
  l !! k = Some r -> kept_until bound r -> Forall (op_safe bound k) ops ->
  exists r', runs ledger_apply l ops !! k = Some r' /\ record_evolves r r'.
Proof.
  induction ops as [|op ops IH]; intros l k r bound Hk Hb Hs.
  - eauto using record_evolves_refl.
  - apply Forall_cons in Hs as [Hop Hs]. rw runs_cons.
    destruct (ledger_apply_evolves l k r bound op Hk Hb Hop) as (r1 & H1 & V1 & B1).
    destruct (IH _ _ _ _ H1 B1 Hs) as (r2 & H2 & V2). eauto using record_evolves_trans.
Qed.
End Ledger.

(** ** Theorems *)

(** C17 ledger_outcome_immutable: a recorded invocation keeps its request semantics, never
    moves backwards through PREPARED, RUNNING, TERMINAL, and once TERMINAL keeps its exact
    outcome, through any sequence of prepares, starts, commits and purges on any keys, as
    long as no purge reaches the record's expiry. *)
Theorem ledger_outcome_immutable ttl l k r bound ops :
  l !! k = Some r -> kept_until bound r -> Forall (op_safe ttl bound k) ops ->
  exists r', runs (ledger_apply ttl) l ops !! k = Some r' /\
    record_semantics r' = record_semantics r /\
    (state_rank (lr_state r) <= state_rank (lr_state r'))%nat /\
    (lr_state r = TERMINAL -> r' = r).
Proof.
  intros Hk Hb Hs. destruct (ledger_runs_evolves ttl ops l k r bound Hk Hb Hs) as
    (r' & H & H1 & _ & H2 & H3). by exists r'.
Qed.

Definition demo_key : LedgerKey := ("client", "user", "inv-1")%string.
Definition demo_semantics : Semantics := {|
  sem_capability_id := "file.read"; sem_capability_version := "1";
  sem_request_fingerprint := "fp"; sem_idempotency := "IDEMPOTENT" |}.
Definition demo_record : ClientInvocationRecord := {|
  lr_capability_id := "file.read"; lr_capability_version := "1";
  lr_request_fingerprint := "fp"; lr_idempotency := "IDEMPOTENT"; lr_state := TERMINAL;
  lr_terminal_type := Some "result"; lr_terminal_payload := Some [];
  lr_created_at := 0; lr_updated_at := 5; lr_expires_at := 105 |}.

Lemma ledger_outcome_immutable_witness :
  exists r', runs (ledger_apply 100) {[demo_key := demo_record]}
    [OpPurge 50; OpCommit demo_key "error" [] 60; OpRunning demo_key 70;
     OpPrepare demo_key demo_semantics 80] !! demo_key = Some r' /\ r' = demo_record.
Proof.
  destruct (ledger_outcome_immutable 100 {[demo_key := demo_record]} demo_key demo_record 105
    [OpPurge 50; OpCommit demo_key "error" [] 60; OpRunning demo_key 70;
     OpPrepare demo_key demo_semantics 80]) as (r' & H & _ & _ & Ht).
  - reflexivity.
  - intros _. simpl. lia.
  - repeat constructor; simpl; lia.
  - exists r'. split; [exact H|]. apply Ht. reflexivity.
Defined.

(** An operation that does not commit an outcome for [k]. *)
Definition no_commit_for (k : LedgerKey) (op : LedgerOp) : Prop :=
  match op with OpCommit k0 _ _ _ => k0 <> k | _ => True end.

Lemma unfinished_step ttl l k r op :
  l !! k = Some r -> lr_state r <> TERMINAL -> no_commit_for k op ->
  exists r', ledger_apply ttl l op !! k = Some r' /\ record_evolves r r' /\
    lr_state r' <> TERMINAL.
Proof.
  intros Hk Ht Hn. destruct op as [k0 s now|k0 now|k0 ty p now|cutoff]; simpl.
  - exists r. split; [by apply prepare_evolves|]. auto using record_evolves_refl.
  - destruct (mark_running_evolves l k r k0 now Hk) as (r' & ? & ? & He).
    exists r'. split_and!; try done. intros Hx. apply Ht. by rw -(He Hx).
  - destruct (commit_terminal_evolves ttl l k r k0 ty p now Hk) as (r' & ? & ? & [->|[? _]]);
      [|done]. eauto.
  - exists r. split; [|auto using record_evolves_refl]. apply (purge_keeps l k r cutoff Hk).
    by intros [? _].
Qed.

(** [crash_evidence_kept]: an invocation that was prepared or started but whose outcome was
    never committed stays in the ledger, with its semantics and at least its state, through
    any other operations and any purge whatever its cutoff; preparing it again answers the
    stored record and changes nothing, and preparing it with other semantics raises. *)
Theorem crash_evidence_kept ttl l k r ops s now :
  l !! k = Some r -> lr_state r <> TERMINAL -> Forall (no_commit_for k) ops ->
  require_identity k = Ok tt ->
  exists r', runs (ledger_apply ttl) l ops !! k = Some r' /\
    record_semantics r' = record_semantics r /\ lr_state r' <> TERMINAL /\
    (state_rank (lr_state r) <= state_rank (lr_state r'))%nat /\
    prepare ttl (runs (ledger_apply ttl) l ops) k s now =
      (if bool_decide (record_semantics r = s)
       then Ok (runs (ledger_apply ttl) l ops, r')
       else Err (LedgerConflict
              "invocation_id is already bound to different request semantics.")).
Proof.
  intros Hk Ht Hn Hid. assert (exists r', runs (ledger_apply ttl) l ops !! k = Some r' /\
    record_evolves r r' /\ lr_state r' <> TERMINAL) as (r' & Hr & Hv & Hs).
  { revert l r Hk Ht. induction Hn as [|op ops Hop _ IH]; intros l r Hk Ht.
    - exists r. auto using record_evolves_refl.
    - rw runs_cons. destruct (unfinished_step ttl l k r op Hk Ht Hop) as (r1 & H1 & V1 & T1).
      destruct (IH _ _ H1 T1) as (r2 & H2 & V2 & T2). eauto using record_evolves_trans. }
  exists r'. destruct Hv as (Hsem & _ & Hrank & _). split_and!; try done.
  unfold prepare. rw Hid Hr /=. unfold validate_semantics, guard_err. rw Hsem.
  by destruct (bool_decide _).
Qed.

Definition started_record : ClientInvocationRecord :=
  with_state demo_record RUNNING None None 1 100.

Lemma crash_evidence_kept_witness :
  exists r', runs (ledger_apply 100) {[demo_key := started_record]} [OpPurge 100000] !! demo_key
      = Some r' /\ lr_state r' <> TERMINAL.
Proof.
  destruct (crash_evidence_kept 100 {[demo_key := started_record]} demo_key started_record
    [OpPurge 100000] demo_semantics 7) as (r' & H & _ & Ht & _);
    [reflexivity|discriminate|repeat constructor|reflexivity|].
  exists r'. split; [exact H|exact Ht].
Defined.
