(* ===== verification/CircuitBreaker.v ===== *)
(** * Circuit breaker state machine (src/se/src/circuit_breaker.py)

    One breaker guards one provider.  Every method of the class runs without
    suspending between reading and writing its fields (the critical sections
    contain no [await], and the half-open lock is only acquired after
    [locked()] returned false), so each method is one atomic step.  Monotonic
    clock readings are integers in clock ticks; [reset_timeout] is in the same
    unit.  Log calls are not modelled. *)

From S2P Require Import Prelude.

Inductive CircuitBreakerState := OPEN | HALF_OPEN | CLOSED.

#[global] Instance CircuitBreakerState_eq_dec : EqDecision CircuitBreakerState.
Proof. solve_decision. Defined.

(** The [_metrics] dictionary. *)
Record Metrics := {
  open_transitions : Z;
  reopen_transitions : Z;
  half_open_transitions : Z;
  close_transitions : Z;
  blocked_requests : Z;
  half_open_trials : Z
}.

(** The constructor's thresholds. *)
Record BreakerConfig := {
  failure_threshold : Z;
  reset_timeout : Z;
  success_threshold : Z
}.

Record CircuitBreaker := {
  cb_state : CircuitBreakerState;
  cb_failure_count : Z;
  cb_success_count : Z;
  cb_last_failure_time : Z;
  cb_metrics : Metrics;
  cb_half_open_locked : bool
}.

Inductive CircuitBreakerOpenError :=
  | CircuitOpen
  | TrialInProgress.

Definition init_breaker : CircuitBreaker := {|
  cb_state := CLOSED;
  cb_failure_count := 0;
  cb_success_count := 0;
  cb_last_failure_time := 0;
  cb_metrics := {| open_transitions := 0; reopen_transitions := 0;
                   half_open_transitions := 0; close_transitions := 0;
                   blocked_requests := 0; half_open_trials := 0 |};
  cb_half_open_locked := false
|}.

Definition bump_blocked (m : Metrics) : Metrics := {|
  open_transitions := open_transitions m;
  reopen_transitions := reopen_transitions m;
  half_open_transitions := half_open_transitions m;
  close_transitions := close_transitions m;
  blocked_requests := blocked_requests m + 1;
  half_open_trials := half_open_trials m
|}.

Definition bump_half_open (m : Metrics) : Metrics := {|
  open_transitions := open_transitions m;
  reopen_transitions := reopen_transitions m;
  half_open_transitions := half_open_transitions m + 1;
  close_transitions := close_transitions m;
  blocked_requests := blocked_requests m;
  half_open_trials := half_open_trials m
|}.

Definition with_metrics (m : Metrics) (b : CircuitBreaker) : CircuitBreaker := {|
  cb_state := cb_state b;
  cb_failure_count := cb_failure_count b;
  cb_success_count := cb_success_count b;
  cb_last_failure_time := cb_last_failure_time b;
  cb_metrics := m;
  cb_half_open_locked := cb_half_open_locked b
|}.

Definition is_reset_timeout_expired (c : BreakerConfig) (now : Z)
    (b : CircuitBreaker) : bool :=
  reset_timeout c <? now - cb_last_failure_time b.

(** The [state] property: OPEN becomes HALF_OPEN once the timeout expired. *)
Definition read_state (c : BreakerConfig) (now : Z) (b : CircuitBreaker)
    : CircuitBreaker * CircuitBreakerState :=
  if bool_decide (cb_state b = OPEN) && is_reset_timeout_expired c now b then
    ({| cb_state := HALF_OPEN;
        cb_failure_count := cb_failure_count b;
        cb_success_count := 0;
        cb_last_failure_time := cb_last_failure_time b;
        cb_metrics := bump_half_open (cb_metrics b);
        cb_half_open_locked := cb_half_open_locked b |}, HALF_OPEN)
  else (b, cb_state b).

Definition before_request (c : BreakerConfig) (now : Z) (b : CircuitBreaker)
    : CircuitBreaker * result CircuitBreakerOpenError unit :=
  let (b, current_state) := read_state c now b in
  match current_state with
  | OPEN => (with_metrics (bump_blocked (cb_metrics b)) b, Err CircuitOpen)
  | HALF_OPEN =>
      if negb (cb_half_open_locked b) then
        ({| cb_state := cb_state b;
            cb_failure_count := cb_failure_count b;
            cb_success_count := cb_success_count b;
            cb_last_failure_time := cb_last_failure_time b;
            cb_metrics := bump_blocked (cb_metrics b);
            cb_half_open_locked := true |}, Ok tt)
      else (b, Err TrialInProgress)
  | CLOSED => (b, Ok tt)
  end.

Definition on_success (c : BreakerConfig) (b : CircuitBreaker) : CircuitBreaker :=
  match cb_state b with
  | HALF_OPEN =>
      let success_count := cb_success_count b + 1 in
      if success_threshold c <=? success_count then
        {| cb_state := CLOSED;
           cb_failure_count := 0;
           cb_success_count := 0;
           cb_last_failure_time := cb_last_failure_time b;
           cb_metrics := bump_blocked (cb_metrics b);
           cb_half_open_locked := false |}
      else
        {| cb_state := HALF_OPEN;
           cb_failure_count := cb_failure_count b;
           cb_success_count := success_count;
           cb_last_failure_time := cb_last_failure_time b;
           cb_metrics := cb_metrics b;
           cb_half_open_locked := cb_half_open_locked b |}
  | CLOSED =>
      {| cb_state := CLOSED;
         cb_failure_count := 0;
         cb_success_count := cb_success_count b;
         cb_last_failure_time := cb_last_failure_time b;
         cb_metrics := cb_metrics b;
         cb_half_open_locked := cb_half_open_locked b |}
  | OPEN => b
  end.

Definition on_failure (c : BreakerConfig) (now : Z) (b : CircuitBreaker)
    : CircuitBreaker :=
  match cb_state b with
  | HALF_OPEN =>
      {| cb_state := OPEN;
         cb_failure_count := cb_failure_count b;
         cb_success_count := cb_success_count b;
         cb_last_failure_time := now;
         cb_metrics := bump_blocked (cb_metrics b);
         cb_half_open_locked := false |}
  | CLOSED =>
      let failure_count := cb_failure_count b + 1 in
      if failure_threshold c <=? failure_count then
        {| cb_state := OPEN;
           cb_failure_count := failure_count;
           cb_success_count := cb_success_count b;
           cb_last_failure_time := now;
           cb_metrics := bump_blocked (cb_metrics b);
           cb_half_open_locked := cb_half_open_locked b |}
      else
        {| cb_state := CLOSED;
           cb_failure_count := failure_count;
           cb_success_count := cb_success_count b;
           cb_last_failure_time := cb_last_failure_time b;
           cb_metrics := cb_metrics b;
           cb_half_open_locked := cb_half_open_locked b |}
  | OPEN => b
  end.

Definition is_open (c : BreakerConfig) (now : Z) (b : CircuitBreaker)
    : CircuitBreaker * bool :=
  let (b, current_state) := read_state c now b in
  (b, bool_decide (current_state = OPEN)).

(** The calls a client can make on a breaker. *)
Inductive BreakerCall :=
  | CallState (now : Z)
  | CallBefore (now : Z)
  | CallSuccess
  | CallFailure (now : Z)
  | CallIsOpen (now : Z).

Definition breaker_step (c : BreakerConfig) (b : CircuitBreaker) (e : BreakerCall)
    : CircuitBreaker :=
  match e with
  | CallState now => fst (read_state c now b)
  | CallBefore now => fst (before_request c now b)
  | CallSuccess => on_success c b
  | CallFailure now => on_failure c now b
  | CallIsOpen now => fst (is_open c now b)
  end.

(** ** The manager: one breaker per provider *)

(** [CircuitBreakerSettings]: a default and per-provider overrides. *)
Record CircuitBreakerSettings := {
  cbs_default : BreakerConfig;
  cbs_providers : gmap string BreakerConfig
}.

(** A breaker object together with the thresholds it was built with; the
    dictionary key is the reference other components hold. *)
Record ManagedBreaker := {
  mb_config : BreakerConfig;
  mb_breaker : CircuitBreaker
}.

Definition get_breaker (s : CircuitBreakerSettings)
    (breakers : gmap string ManagedBreaker) (provider_name : string)
    : gmap string ManagedBreaker * ManagedBreaker :=
  match breakers !! provider_name with
  | Some mb => (breakers, mb)
  | None =>
      let settings := default (cbs_default s) (cbs_providers s !! provider_name) in
      let mb := {| mb_config := settings; mb_breaker := init_breaker |} in
      (<[provider_name := mb]> breakers, mb)
  end.

Record BreakerStatus := {
  st_state : CircuitBreakerState;
  st_failure_count : Z;
  st_success_count : Z;
  st_last_failure_time : Z
}.

Definition breaker_status (mb : ManagedBreaker) : BreakerStatus := {|
  st_state := cb_state (mb_breaker mb);
  st_failure_count := cb_failure_count (mb_breaker mb);
  st_success_count := cb_success_count (mb_breaker mb);
  st_last_failure_time := cb_last_failure_time (mb_breaker mb)
|}.

Definition get_all_statuses (breakers : gmap string ManagedBreaker)
    : gmap string BreakerStatus := breaker_status <$> breakers.

(** ** Invariant *)

Definition config_ok (c : BreakerConfig) : Prop :=
  1 <= failure_threshold c /\ 1 <= success_threshold c.

(** The half-open lock is only held in HALF_OPEN, and the counters stay below
    the threshold that would already have moved the breaker on. *)
Record breaker_wf (c : BreakerConfig) (b : CircuitBreaker) : Prop := {
  wf_lock : cb_half_open_locked b = true -> cb_state b = HALF_OPEN;
  wf_failures : 0 <= cb_failure_count b;
  wf_successes : 0 <= cb_success_count b;
  wf_closed : cb_state b = CLOSED -> cb_failure_count b < failure_threshold c;
  wf_half_open : cb_state b = HALF_OPEN -> cb_success_count b < success_threshold c
}.

(** Calls that only observe the breaker or ask for admission. *)
Definition probe (e : BreakerCall) : Prop :=
  match e with CallSuccess | CallFailure _ => False | _ => True end.

(** Calls made no later than [t]. *)
Definition called_by (t : Z) (e : BreakerCall) : Prop :=
  match e with
  | CallState now | CallBefore now | CallIsOpen now => now <= t
  | _ => True
  end.

Section Breaker.
Context (c : BreakerConfig).
Implicit Types b : CircuitBreaker.

Ltac cb_cases b :=
  destruct b as [[] fc sc lf m [] ]; simpl in *.

Lemma read_state_wf now b :
  config_ok c -> breaker_wf c b -> breaker_wf c (fst (read_state c now b)).
Proof.
  intros [Hf Hs] [H1 H2 H3 H4 H5]. unfold read_state.
  case_match; [|done]. split; simpl; try done; lia.
Qed.

Lemma before_request_state now b :
  let b1 := fst (read_state c now b) in
  let b2 := fst (before_request c now b) in
  cb_state b2 = cb_state b1 /\ cb_failure_count b2 = cb_failure_count b1 /\
  cb_success_count b2 = cb_success_count b1 /\
  cb_last_failure_time b2 = cb_last_failure_time b1 /\
  snd (read_state c now b) = cb_state b1.
Proof.
  unfold before_request, read_state.
  destruct (bool_decide _ && _) eqn:E; simpl; [by case_match|].
  destruct (cb_state b) eqn:Es; simpl; auto. case_match; simpl; auto.
Qed.

Lemma breaker_step_wf b e :
  config_ok c -> breaker_wf c b -> breaker_wf c (breaker_step c b e).
Proof.
  intros Hc Hwf. pose proof Hc as [Hf Hs].
  destruct e as [now|now| |now|now]; simpl.
  - by apply read_state_wf.
  - pose proof (read_state_wf now b Hc Hwf) as [W1 W2 W3 W4 W5].
    pose proof (before_request_state now b) as (E1 & E2 & E3 & _ & E5).
    simpl in *. split; rw ?E1 ?E2 ?E3; try done.
    unfold before_request.
    destruct (read_state c now b) as [b1 s1]; simpl in *; subst s1.
    destruct (cb_state b1) eqn:Es; simpl in *; [done| |done].
    by case_match.
  - destruct Hwf as [H1 H2 H3 H4 H5]. unfold on_success.
    destruct (cb_state b) eqn:Es; [split; rw ?Es; done| |].
    + case_match; breflect; split; simpl; try done; lia.
    + split; simpl; try done; lia.
  - destruct Hwf as [H1 H2 H3 H4 H5]. unfold on_failure.
    destruct (cb_state b) eqn:Es; [split; rw ?Es; done| |].
    + split; simpl; done.
    + case_match; breflect; split; simpl; try done; try lia;
        intros Hl; by specialize (H1 Hl).
  - pose proof (read_state_wf now b Hc Hwf) as W. unfold is_open.
    by destruct (read_state c now b).
Qed.

Lemma init_breaker_wf : config_ok c -> breaker_wf c init_breaker.
Proof. intros [??]. split; simpl; try done; lia. Qed.

(** While a trial holds the lock, probing calls change nothing. *)
Lemma trial_probe_stable b e :
  cb_state b = HALF_OPEN -> cb_half_open_locked b = true -> probe e ->
  breaker_step c b e = b.
Proof.
  intros Hs Hl Hp.
  assert (Hr : forall now, read_state c now b = (b, HALF_OPEN)).
  { intros now. unfold read_state. rw Hs. by rw bool_decide_false. }
  destruct e; try done; simpl; unfold before_request, is_open; rw Hr; simpl;
    rw ?Hl; done.
Qed.

Lemma trial_probe_runs b evs :
  cb_state b = HALF_OPEN -> cb_half_open_locked b = true -> Forall probe evs ->
  runs (breaker_step c) b evs = b.
Proof.
  intros Hs Hl Hp. induction Hp as [|e evs He _ IH]; [done|].
  rw runs_cons trial_probe_stable //.
Qed.

Lemma trial_rejects b now :
  cb_state b = HALF_OPEN -> cb_half_open_locked b = true ->
  before_request c now b = (b, Err TrialInProgress).
Proof.
  intros Hs Hl. unfold before_request, read_state. rw Hs bool_decide_false //=.
  by rw Hl.
Qed.

(** An admission in HALF_OPEN leaves the lock held. *)
Lemma admitted_trial_locked now b b' :
  before_request c now b = (b', Ok tt) -> cb_state b' <> CLOSED ->
  cb_state b' = HALF_OPEN /\ cb_half_open_locked b' = true.
Proof.
  unfold before_request. destruct (read_state c now b) as [b1 s1] eqn:Er.
  assert (s1 = cb_state b1) as ->.
  { revert Er. unfold read_state. case_match; naive_solver. }
  destruct (cb_state b1) eqn:E1; simpl; [naive_solver| |naive_solver].
  destruct (cb_half_open_locked b1); simpl; naive_solver.
Qed.

Lemma on_success_partial b :
  cb_state b = HALF_OPEN -> cb_success_count b + 1 < success_threshold c ->
  cb_state (on_success c b) = HALF_OPEN /\
  cb_half_open_locked (on_success c b) = cb_half_open_locked b.
Proof.
  intros Hs Hlt. unfold on_success. rw Hs.
  rw (proj2 (Z.leb_gt _ _)) //.
Qed.

Lemma open_step b e :
  cb_state b = OPEN -> called_by (cb_last_failure_time b + reset_timeout c) e ->
  cb_state (breaker_step c b e) = OPEN /\
  cb_last_failure_time (breaker_step c b e) = cb_last_failure_time b.
Proof.
  intros Hs Hc.
  assert (Hr : forall now, now <= cb_last_failure_time b + reset_timeout c ->
                read_state c now b = (b, OPEN)).
  { intros now Hn. unfold read_state, is_reset_timeout_expired. rw Hs.
    rw bool_decide_true //= (proj2 (Z.ltb_ge _ _)) //. lia. }
  destruct e; simpl in *; unfold before_request, is_open, on_success, on_failure;
    rw ?Hr ?Hs //.
Qed.

Lemma open_failures b (ts : list Z) :
  cb_state b = OPEN -> runs (breaker_step c) b (CallFailure <$> ts) = b.
Proof.
  revert b. induction ts as [|t ts IH]; intros b Hs; [done|].
  simpl. rw runs_cons. simpl. unfold on_failure at 1. rw Hs. by apply IH.
Qed.

Lemma failures_run b (ts : list Z) :
  config_ok c -> cb_state b = CLOSED -> 0 <= cb_failure_count b < failure_threshold c ->
  let b' := runs (breaker_step c) b (CallFailure <$> ts) in
  let n := cb_failure_count b + Z.of_nat (length ts) in
  if n <? failure_threshold c then
    cb_state b' = CLOSED /\ cb_failure_count b' = n
  else
    cb_state b' = OPEN /\
    ts !! Z.to_nat (failure_threshold c - cb_failure_count b - 1)
      = Some (cb_last_failure_time b').
Proof.
  intros [Hf _]. revert b. induction ts as [|t ts IH]; intros b Hs Hc b' n.
  { subst b' n. simpl. rw (proj2 (Z.ltb_lt _ _)); [lia|]. rw runs_nil. split; [done|lia]. }
  subst b'. simpl. rw runs_cons. simpl.
  remember (on_failure c t b) as b1 eqn:Hb1. unfold on_failure in Hb1. rw Hs in Hb1.
  destruct (failure_threshold c <=? cb_failure_count b + 1) eqn:E; breflect; subst b1.
  - rw (proj2 (Z.ltb_ge _ _)); [simpl in n; lia|].
    rw open_failures //. simpl. replace (Z.to_nat _) with 0%nat by lia. done.
  - specialize (IH {| cb_state := CLOSED; cb_failure_count := cb_failure_count b + 1;
      cb_success_count := cb_success_count b;
      cb_last_failure_time := cb_last_failure_time b;
      cb_metrics := cb_metrics b;
      cb_half_open_locked := cb_half_open_locked b |} eq_refl).
    simpl in IH. specialize (IH ltac:(lia)).
    replace (cb_failure_count b + 1 + Z.of_nat (length ts)) with n in IH by (simpl in n; lia).
    destruct (n <? failure_threshold c) eqn:E2; [done|].
    replace (Z.to_nat (failure_threshold c - cb_failure_count b - 1)) with
      (S (Z.to_nat (failure_threshold c - (cb_failure_count b + 1) - 1))) by lia.
    done.
Qed.
End Breaker.

(** ** Properties *)

(** [breaker_invariant]: with thresholds of at least one, after any sequence of
    calls at any times the half-open lock is held only in HALF_OPEN, a CLOSED
    breaker has seen fewer consecutive failures than its threshold and a
    HALF_OPEN one fewer successes than its threshold. *)
Theorem breaker_invariant (c : BreakerConfig) (evs : list BreakerCall) :
  config_ok c -> breaker_wf c (runs (breaker_step c) init_breaker evs).
Proof.
  intros Hc. apply runs_invariant; [|by apply init_breaker_wf].
  intros b e. by apply breaker_step_wf.
Qed.

(** [trips_after_threshold]: from a freshly closed breaker a run of failures
    leaves it CLOSED while fewer than [failure_threshold] happened; otherwise it
    is OPEN and [last_failure_time] is the time of the failure that reached the
    threshold (later failures do not extend the open period). *)
Theorem trips_after_threshold (c : BreakerConfig) (ts : list Z) :
  config_ok c ->
  let b := runs (breaker_step c) init_breaker (CallFailure <$> ts) in
  if Z.of_nat (length ts) <? failure_threshold c then
    cb_state b = CLOSED /\ cb_failure_count b = Z.of_nat (length ts)
  else
    cb_state b = OPEN /\
    ts !! Z.to_nat (failure_threshold c - 1) = Some (cb_last_failure_time b).
Proof.
  intros Hc. pose proof (failures_run c init_breaker ts Hc eq_refl) as H.
  simpl in H. rw Z.sub_0_r in H. apply H. destruct Hc. lia.
Qed.

(** [open_blocks_until_timeout]: once OPEN, as long as every call is made no
    later than [last_failure_time + reset_timeout], whatever else is called,
    every admission request is rejected as open. *)
Theorem open_blocks_until_timeout (c : BreakerConfig) (b : CircuitBreaker)
    (evs : list BreakerCall) (now : Z) :
  cb_state b = OPEN ->
  Forall (called_by (cb_last_failure_time b + reset_timeout c)) evs ->
  now <= cb_last_failure_time b + reset_timeout c ->
  snd (before_request c now (runs (breaker_step c) b evs)) = Err CircuitOpen.
Proof.
  intros Hs Hevs Hnow.
  pose (I b' := cb_state b' = OPEN /\ cb_last_failure_time b' = cb_last_failure_time b).
  assert (I (runs (breaker_step c) b evs)) as [Hs' Ht'].
  { apply (runs_invariant_if I (called_by (cb_last_failure_time b + reset_timeout c)));
      [|done|done].
    intros b' e He [H1 H2]. rw -H2 in He. destruct (open_step c b' e H1 He) as [H3 H4].
    split; [done|by rw H4]. }
  unfold before_request, read_state, is_reset_timeout_expired.
  rw Hs' Ht' bool_decide_true // (proj2 (Z.ltb_ge _ _)); [lia|done].
Qed.

(** [half_open_single_trial]: an admission granted outside CLOSED is an
    exclusive trial: until its outcome is reported, any sequence of admission
    requests and observations at any times leaves every later request rejected
    because a trial is in progress. *)
Theorem half_open_single_trial (c : BreakerConfig) (b b' : CircuitBreaker)
    (now now' : Z) (evs : list BreakerCall) :
  before_request c now b = (b', Ok tt) -> cb_state b' <> CLOSED ->
  Forall probe evs ->
  before_request c now' (runs (breaker_step c) b' evs) = (b', Err TrialInProgress).
Proof.
  intros Hb Hn Hp. destruct (admitted_trial_locked c now b b' Hb Hn) as [Hs Hl].
  rw trial_probe_runs //. by apply trial_rejects.
Qed.

(** [half_open_stalls]: with a success threshold above one, a successful trial
    that does not reach the threshold keeps the trial lock, so from then on every
    admission request is rejected at every time: the breaker never leaves
    HALF_OPEN through its own admission protocol. *)
Theorem half_open_stalls (c : BreakerConfig) (b b' : CircuitBreaker)
    (now now' : Z) (evs : list BreakerCall) :
  before_request c now b = (b', Ok tt) -> cb_state b' <> CLOSED ->
  cb_success_count b' + 1 < success_threshold c ->
  Forall probe evs ->
  before_request c now' (runs (breaker_step c) (on_success c b') evs)
    = (on_success c b', Err TrialInProgress).
Proof.
  intros Hb Hn Hlt Hp. destruct (admitted_trial_locked c now b b' Hb Hn) as [Hs Hl].
  destruct (on_success_partial c b' Hs Hlt) as [Hs' Hl']. rw Hl in Hl'.
  rw trial_probe_runs //. by apply trial_rejects.
Qed.

(** The configuration of the default settings and a breaker it has opened. *)
Definition default_config : BreakerConfig :=
  {| failure_threshold := 3; reset_timeout := 10; success_threshold := 1 |}.

Definition two_success_config : BreakerConfig :=
  {| failure_threshold := 1; reset_timeout := 10; success_threshold := 2 |}.

Definition tripped (c : BreakerConfig) : CircuitBreaker :=
  runs (breaker_step c) init_breaker [CallFailure 1; CallFailure 2; CallFailure 3].

Lemma breaker_invariant_witness :
  breaker_wf default_config (runs (breaker_step default_config) init_breaker
    [CallFailure 1; CallFailure 2; CallFailure 3; CallBefore 20; CallSuccess]).
Proof. apply breaker_invariant. unfold config_ok, default_config; simpl; lia. Defined.

Lemma trips_after_threshold_witness :
  cb_state (tripped default_config) = OPEN /\
  Some 3 = Some (cb_last_failure_time (tripped default_config)).
Proof.
  refine (trips_after_threshold default_config [1; 2; 3] _).
  unfold config_ok, default_config; simpl; lia.
Defined.

Lemma open_blocks_until_timeout_witness :
  snd (before_request default_config 13
    (runs (breaker_step default_config) (tripped default_config)
       [CallBefore 4; CallSuccess; CallFailure 5; CallIsOpen 6])) = Err CircuitOpen.
Proof.
  apply open_blocks_until_timeout; [reflexivity| |vm_compute; congruence].
  repeat constructor; vm_compute; congruence.
Defined.

Lemma half_open_single_trial_witness :
  snd (before_request default_config 22
    (runs (breaker_step default_config)
       (fst (before_request default_config 20 (tripped default_config)))
       [CallBefore 21; CallIsOpen 30])) = Err TrialInProgress.
Proof.
  rw (half_open_single_trial default_config (tripped default_config) _ 20 22) //;
    repeat constructor.
Defined.

Lemma half_open_stalls_witness :
  snd (before_request two_success_config 1000
    (runs (breaker_step two_success_config)
       (on_success two_success_config
          (fst (before_request two_success_config 20 (tripped two_success_config))))
       [CallBefore 30; CallBefore 100])) = Err TrialInProgress.
Proof.
  rw (half_open_stalls two_success_config (tripped two_success_config) _ 20 1000) //;
    repeat constructor.
Defined.
