(* ===== verification/RetryBudget.v ===== *)
(** * Provider retries under one logical call budget
    (src/se/src/provider/retry_contracts.py, policies/retry.py and the error
    normalisation of exceptions.py)

    A logical provider call owns one [ProviderCallBudget], a deadline and a number of
    retry tokens, which every fallback candidate shares.  [apply_budgeted] is the retry
    loop of one candidate.  What a loop iteration receives from outside is an
    [Iteration]: the clock readings, the outcome of the awaited provider call, the random
    jitter, cancellation, and the tokens that other users of the same budget take while
    this one is suspended.  Durations and clock readings are integers in microseconds,
    where the code has floats; log calls and error messages are not modelled.  The texts
    of the two retry hints of a 429 response arrive parsed. *)

From S2P Require Import Prelude.

(** ** retry_contracts.py *)

Inductive ProviderRetryHintSource := RETRY_AFTER | GOOGLE_RPC_RETRY_INFO.

Record ProviderRetryHint := {
  retry_after_seconds : Z;
  hint_source : ProviderRetryHintSource
}.

Inductive RetryError := ValueError.

(** [ProviderRetryHint.__post_init__]. *)
Definition make_hint (delay : Z) (src : ProviderRetryHintSource)
  : result RetryError ProviderRetryHint :=
  guard_err (0 <=? delay) ValueError ≫= fun _ =>
  Ok {| retry_after_seconds := delay; hint_source := src |}.

Record ProviderCallBudget := {
  deadline_monotonic : Z;
  max_retries : Z;
  retries_used : Z
}.

Definition new_call_budget (deadline retries : Z) : result RetryError ProviderCallBudget :=
  guard_err (0 <=? retries) ValueError ≫= fun _ =>
  Ok {| deadline_monotonic := deadline; max_retries := retries; retries_used := 0 |}.

Definition from_timeout (now timeout retries : Z) : result RetryError ProviderCallBudget :=
  guard_err (0 <? timeout) ValueError ≫= fun _ => new_call_budget (now + timeout) retries.

Definition retries_remaining (b : ProviderCallBudget) : Z := max_retries b - retries_used b.

Definition remaining_seconds (b : ProviderCallBudget) (now : Z) : Z :=
  Z.max 0 (deadline_monotonic b - now).

Definition try_consume_retry (b : ProviderCallBudget) : ProviderCallBudget * bool :=
  if max_retries b <=? retries_used b then (b, false)
  else ({| deadline_monotonic := deadline_monotonic b; max_retries := max_retries b;
           retries_used := retries_used b + 1 |}, true).

(** ** Errors and their normalisation *)

Inductive ProviderErrorClass :=
  | ProviderError
  | ProviderFallbackExhaustedError
  | NoAvailableProviderError
  | ProviderAuthenticationError
  | ProviderRateLimitError
  | ProviderUnavailableError
  | ProviderModelUnavailableError
  | ResponseValidationError
  | ProviderDeadlineExceededError.

#[global] Instance ProviderErrorClass_eq_dec : EqDecision ProviderErrorClass.
Proof. solve_decision. Defined.

(** What a provider call can raise ([asyncio.CancelledError] apart). *)
Inductive CallError :=
  | HTTPStatusError (status_code : Z) (retry_after google : option ProviderRetryHint)
  | TimeoutException
  | ConnectError
  | OtherRequestError
  | Provider (cls : ProviderErrorClass) (hint : option ProviderRetryHint)
  | CircuitBreakerOpenError
  | OtherException.

(** [max(valid_hints, key=retry_after_seconds)]: the first hint wins a tie. *)
Definition extract_rate_limit_retry_hint (status : Z) (retry_after google : option ProviderRetryHint)
  : option ProviderRetryHint :=
  if negb (status =? 429) then None else
  match retry_after, google with
  | Some a, Some g => if retry_after_seconds a <? retry_after_seconds g then Some g else Some a
  | Some a, None => Some a
  | None, g => g
  end.

Definition wrap_provider_exception (e : CallError) : CallError :=
  match e with
  | Provider _ _ => e
  | HTTPStatusError status ra g =>
      let hint := extract_rate_limit_retry_hint status ra g in
      if (status =? 401) || (status =? 403) then Provider ProviderAuthenticationError None
      else if status =? 429 then Provider ProviderRateLimitError hint
      else if (status =? 408) || ((500 <=? status) && (status <? 600))
      then Provider ProviderUnavailableError None
      else Provider ProviderError None
  | TimeoutException | ConnectError | OtherRequestError =>
      Provider ProviderUnavailableError None
  | CircuitBreakerOpenError | OtherException => Provider ProviderError None
  end.

(** ** RetryPolicy *)

Definition retryable_status (status : Z) : bool :=
  (status =? 429) || ((500 <=? status) && (status <? 600)).

Definition is_retryable (e : CallError) : bool :=
  match e with
  | TimeoutException | ConnectError => true
  | Provider ProviderRateLimitError _ => true
  | Provider ProviderUnavailableError _ => true
  | HTTPStatusError status _ _ => retryable_status status
  | CircuitBreakerOpenError => false
  | Provider _ _ => false
  | OtherRequestError | OtherException => false
  end.

Definition normalize_error (raw : CallError) : CallError :=
  match raw with
  | Provider _ _ | HTTPStatusError _ _ _
  | TimeoutException | ConnectError | OtherRequestError => wrap_provider_exception raw
  | CircuitBreakerOpenError | OtherException => raw
  end.

Definition legacy_retryable (raw normalized : CallError) : bool :=
  match raw with
  | HTTPStatusError status _ _ => retryable_status status
  | TimeoutException | ConnectError => true
  | OtherRequestError => false
  | Provider _ _ | CircuitBreakerOpenError | OtherException => is_retryable normalized
  end.

(** [getattr(error, "retry_after_seconds", None)], with [None] read as no delay. *)
Definition requested_delay (e : CallError) : Z :=
  match e with Provider _ (Some h) => retry_after_seconds h | _ => 0 end.

Inductive Awaited (A : Type) := Returns (a : A) | Raises (e : CallError) | IsCancelled.
Arguments Returns {A} _. Arguments Raises {A} _. Arguments IsCancelled {A}.

(** How an [apply] ends. [Implicit] is the [None] a function returns at its end. *)
Inductive Outcome (A : Type) :=
  | Returned (a : A)
  | RaisedCurrent (raw normalized : CallError)
  | DeadlineExceeded
  | Cancelled
  | Implicit.
Arguments Returned {A} _. Arguments RaisedCurrent {A} _ _. Arguments DeadlineExceeded {A}.
Arguments Cancelled {A}. Arguments Implicit {A}.

Definition second : Z := 1000000.

Record Iteration (A : Type) := {
  it_start : Z;                (* clock before the attempt *)
  it_call : Awaited A;         (* what the awaited call did *)
  it_taken_in_call : nat;      (* tokens taken by others during the call *)
  it_jitter : Z;               (* random.uniform(0, 1) *)
  it_failed : Z;               (* clock after the failure *)
  it_sleep_cancelled : bool;
  it_taken_in_sleep : nat;     (* tokens taken by others during the sleep *)
  it_woken : Z                 (* clock after the sleep *)
}.
Arguments it_start {A} _. Arguments it_call {A} _. Arguments it_taken_in_call {A} _.
Arguments it_jitter {A} _. Arguments it_failed {A} _. Arguments it_sleep_cancelled {A} _.
Arguments it_taken_in_sleep {A} _. Arguments it_woken {A} _.

(** [n] calls of [try_consume_retry] by other users of the budget. *)
Definition taken_by_others (n : nat) (b : ProviderCallBudget) : ProviderCallBudget :=
  Nat.iter n (fun b => (try_consume_retry b).1) b.

Definition effective_delay (retry_index : nat) (jitter : Z) (e : CallError) : Z :=
  Z.max (2 ^ Z.of_nat retry_index * second + jitter) (requested_delay e).

Section Apply.
Context {A : Type}.
Implicit Types (env : nat -> Iteration A) (b : ProviderCallBudget).

(** [_apply_budgeted]: the loop from its [i]-th iteration, with the clock readings at
    which its attempts started.  [None]: out of fuel. *)
Fixpoint apply_budgeted (fuel : nat) env (i : nat) b (starts : list Z)
  : option (Outcome A * ProviderCallBudget * list Z) :=
  match fuel with
  | O => None
  | S fuel =>
      let it := env i in
      if remaining_seconds b (it_start it) <=? 0 then Some (DeadlineExceeded, b, starts)
      else
        let starts := starts ++ [it_start it] in
        let b := taken_by_others (it_taken_in_call it) b in
        match it_call it with
        | Returns a => Some (Returned a, b, starts)
        | IsCancelled => Some (Cancelled, b, starts)
        | Raises raw =>
            let error := normalize_error raw in
            if negb (legacy_retryable raw error) then Some (RaisedCurrent raw error, b, starts)
            else if retries_remaining b <=? 0 then Some (RaisedCurrent raw error, b, starts)
            else
              let delay := effective_delay i (it_jitter it) error in
              let remaining := remaining_seconds b (it_failed it) in
              if (remaining <=? 0) || (remaining <=? delay)
              then Some (RaisedCurrent raw error, b, starts)
              else if it_sleep_cancelled it
              then Some (Cancelled, taken_by_others (it_taken_in_sleep it) b, starts)
              else
                let b := taken_by_others (it_taken_in_sleep it) b in
                if remaining_seconds b (it_woken it) <=? 0
                then Some (DeadlineExceeded, b, starts)
                else
                  match try_consume_retry b with
                  | (b, false) => Some (RaisedCurrent raw error, b, starts)
                  | (b, true) => apply_budgeted fuel env (S i) b starts
                  end
        end
  end.

(** [_apply_legacy]: [for attempt in range(max_retries + 1)] from iteration [attempt],
    with the attempts made. *)
Fixpoint apply_legacy (rest : nat) (retries : Z) env (attempt : nat) : Outcome A * nat :=
  match rest with
  | O => (Implicit, attempt)
  | S rest =>
      let it := env attempt in
      match it_call it with
      | Returns a => (Returned a, S attempt)
      | IsCancelled => (Cancelled, S attempt)
      | Raises raw =>
          let error := normalize_error raw in
          if negb (legacy_retryable raw error) || (retries <=? Z.of_nat attempt)
          then (RaisedCurrent raw error, S attempt)
          else if it_sleep_cancelled it then (Cancelled, S attempt)
          else apply_legacy rest retries env (S attempt)
      end
  end.

(** Enough iterations for the loop: one per token left, and the first attempt. *)
Definition budget_fuel b : nat := S (Z.to_nat (retries_remaining b)).

(** [RetryPolicy.apply]: the outcome, the shared budget after it, and the attempts made. *)
Definition apply (policy_retries : Z) env (call_budget : option ProviderCallBudget)
  : option (Outcome A * option ProviderCallBudget * nat) :=
  match call_budget with
  | None =>
      let '(o, n) := apply_legacy (Z.to_nat (policy_retries + 1)) policy_retries env 0 in
      Some (o, None, n)
  | Some b =>
      match apply_budgeted (budget_fuel b) env 0 b [] with
      | None => None
      | Some (o, b', starts) => Some (o, Some b', length starts)
      end
  end.
End Apply.

(** ** BaseExecutionHandler._new_call_budget (handlers/base.py) *)

(** The caller's deadline: absent, a finite number, or anything else. *)
Inductive CallerDeadline := NoDeadline | Deadline (at_monotonic : Z) | InvalidDeadline.

(** [None]: ProviderDeadlineExceededError.  [policy_retries] is the policy's
    [max_retries] when it is an integer. *)
Definition new_logical_budget (timeout now : Z) (caller : CallerDeadline)
    (policy_retries : option Z) : option ProviderCallBudget :=
  if timeout <=? 0 then None
  else
    match caller with
    | InvalidDeadline => None
    | NoDeadline | Deadline _ =>
        let effective :=
          match caller with Deadline d => Z.min (now + timeout) d | _ => now + timeout end in
        if effective <=? now then None
        else
          let retries := match policy_retries with
                         | Some r => if r <? 0 then 0 else r | None => 0 end in
          match new_call_budget effective retries with Ok b => Some b | Err _ => None end
    end.

(** The candidates of a fallback chain run one after another on the one budget, as the
    handlers do; a result, a deadline or a cancellation ends the chain.  With the clock
    readings at which provider calls started. *)
Fixpoint run_candidates {A} (chain : list (nat -> Iteration A)) (b : ProviderCallBudget)
  : option (ProviderCallBudget * list Z) :=
  match chain with
  | [] => Some (b, [])
  | env :: chain =>
      match apply_budgeted (budget_fuel b) env 0 b [] with
      | None => None
      | Some (RaisedCurrent _ _, b', starts) =>
          match run_candidates chain b' with
          | None => None
          | Some (b'', starts') => Some (b'', starts ++ starts')
          end
      | Some (_, b', starts) => Some (b', starts)
      end
  end.

(** ** Lemmas *)

(** The budget is within its tokens. *)
Definition budget_ok (b : ProviderCallBudget) : Prop :=
  0 <= retries_used b <= max_retries b.

(** [b'] is [b] after tokens were taken. *)
Definition spends (b b' : ProviderCallBudget) : Prop :=
  deadline_monotonic b' = deadline_monotonic b /\ max_retries b' = max_retries b /\
  retries_used b <= retries_used b' /\ budget_ok b'.

#[local] Instance spends_trans : Transitive spends.
Proof. unfold spends. intros x y z (? & ? & ? & ?) (? & ? & ? & ?). split_and!; congruence || lia || done. Qed.

Lemma spends_refl b : budget_ok b -> spends b b.
Proof. intros H. unfold spends. by split_and!. Qed.

Lemma try_consume_spends b : budget_ok b -> spends b (try_consume_retry b).1.
Proof.
  unfold try_consume_retry, spends, budget_ok. intros H.
  destruct (_ <=? _) eqn:E; breflect; simpl; split_and!; done || lia.
Qed.

Lemma try_consume_true b b' :
  try_consume_retry b = (b', true) -> retries_used b' = retries_used b + 1.
Proof. unfold try_consume_retry. destruct (_ <=? _); by intros [= <-]. Qed.

Lemma try_consume_false b b' :
  try_consume_retry b = (b', false) -> retries_remaining b' <= 0.
Proof.
  unfold try_consume_retry, retries_remaining.
  destruct (max_retries b <=? retries_used b) eqn:E; intros [= <-]. breflect. lia.
Qed.

Lemma taken_by_others_spends n b : budget_ok b -> spends b (taken_by_others n b).
Proof.
  intros H. induction n as [|n IH]; [by apply spends_refl|]. simpl.
  etrans; [exact IH|]. by apply try_consume_spends, IH.
Qed.

(** A reading with time remaining is before the deadline. *)
Lemma remaining_positive b t : (remaining_seconds b t <=? 0) = false -> t < deadline_monotonic b.
Proof. unfold remaining_seconds. intros ?. breflect. lia. Qed.

#[export] Hint Resolve try_consume_spends taken_by_others_spends spends_refl : assistant.

(** What a run of the loop that started with budget [b] and ended with [b'] promises. *)
Definition run_bounded (b b' : ProviderCallBudget) (starts new_starts : list Z) : Prop :=
  spends b b' /\
  exists added, new_starts = starts ++ added /\
    Z.of_nat (length added) <= 1 + (retries_used b' - retries_used b) /\
    Forall (fun t => t < deadline_monotonic b) added.

Lemma bounded_stop b b' starts t :
  spends b b' -> t < deadline_monotonic b -> run_bounded b b' starts (starts ++ [t]).
Proof.
  intros H Ht. split; [done|]. exists [t]. destruct H as (_ & _ & ? & _).
  split_and!; [done|simpl; lia|by constructor].
Qed.

Lemma bounded_more b b1 b2 starts t l :
  spends b b1 -> retries_used b + 1 <= retries_used b1 -> t < deadline_monotonic b ->
  run_bounded b1 b2 (starts ++ [t]) l -> run_bounded b b2 starts l.
Proof.
  intros H1 Hu Ht [H2 (added & -> & Hlen & Hall)]. split; [by etrans|].
  exists (t :: added). destruct H1 as (Hd & _). split_and!.
  - by rw -app_assoc.
  - simpl. lia.
  - constructor; [done|]. by rw Hd in Hall.
Qed.

Lemma bounded_none b b' starts : spends b b' -> run_bounded b b' starts starts.
Proof.
  intros H. split; [done|]. exists []. destruct H as (_ & _ & ? & _).
  split_and!; [by rw app_nil_r|simpl; lia|constructor].
Qed.

(** A retryable error is only passed on when no token is left, or when the wait it asks
    for does not end before the deadline. *)
Definition gives_up_for_cause {A} (env : nat -> Iteration A) (b' : ProviderCallBudget)
    (o : Outcome A) : Prop :=
  match o with
  | RaisedCurrent raw error =>
      error = normalize_error raw /\
      (legacy_retryable raw error = true ->
       retries_remaining b' <= 0 \/
       exists i, it_call (env i) = Raises raw /\
         deadline_monotonic b' <= it_failed (env i) + effective_delay i (it_jitter (env i)) error)
  | DeadlineExceeded =>
      exists i, deadline_monotonic b' <= it_start (env i) \/ deadline_monotonic b' <= it_woken (env i)
  | Returned a => exists i, it_call (env i) = Returns a
  | Cancelled => exists i, it_call (env i) = IsCancelled \/ it_sleep_cancelled (env i) = true
  | Implicit => False
  end.

Lemma remaining_zero b t : (remaining_seconds b t <=? 0) = true -> deadline_monotonic b <= t.
Proof. unfold remaining_seconds. intros ?. breflect. lia. Qed.

(** The loop waits only when it wakes up in time. *)
Lemma delay_overruns b t i jitter e :
  0 <= jitter ->
  (remaining_seconds b t <=? 0) || (remaining_seconds b t <=? effective_delay i jitter e) = true ->
  deadline_monotonic b <= t + effective_delay i jitter e.
Proof.
  intros Hj H. assert (0 < 2 ^ Z.of_nat i) by (apply Z.pow_pos_nonneg; lia).
  unfold effective_delay, remaining_seconds, second in *. breflect.
  destruct H; breflect; lia.
Qed.

(** The loop stops after an attempt. *)
Ltac stops := do 3 eexists; split; [done|]; split; [by apply bounded_stop|].

Lemma apply_budgeted_bounded {A} fuel (env : nat -> Iteration A) i b starts :
  budget_ok b -> (Z.to_nat (retries_remaining b) < fuel)%nat ->
  (forall j, 0 <= it_jitter (env j)) ->
  exists o b' l, apply_budgeted fuel env i b starts = Some (o, b', l) /\
    run_bounded b b' starts l /\ gives_up_for_cause env b' o.
Proof.
  intros Hb Hf Hj. revert i b starts Hb Hf.
  induction fuel as [|fuel IH]; intros i b starts Hb Hf; [lia|]. simpl.
  destruct (remaining_seconds b (it_start (env i)) <=? 0) eqn:Hstart.
  { do 3 eexists. split; [done|]. split; [by apply bounded_none, spends_refl|].
    exists i. left. by apply remaining_zero. }
  apply remaining_positive in Hstart.
  pose proof (taken_by_others_spends (it_taken_in_call (env i)) b Hb) as S1.
  set (b1 := taken_by_others _ b) in *.
  destruct (it_call (env i)) as [a|raw|] eqn:Hcall.
  { stops. by exists i. }
  2: { stops. exists i. by left. }
  destruct (legacy_retryable raw (normalize_error raw)) eqn:Hretry; simpl.
  2: { stops. split; [done|]. by rw Hretry. }
  destruct (retries_remaining b1 <=? 0) eqn:Hleft.
  { stops. split; [done|]. intros _. left. breflect. lia. }
  destruct (_ || _) eqn:Hfit.
  { stops. split; [done|]. intros _. right. exists i. split; [done|].
    by apply delay_overruns. }
  pose proof (taken_by_others_spends (it_taken_in_sleep (env i)) b1 ltac:(apply S1)) as S2.
  set (b2 := taken_by_others _ b1) in *.
  pose proof (transitivity S1 S2) as S12.
  destruct (it_sleep_cancelled (env i)) eqn:Hc.
  { stops. exists i. by right. }
  destruct (remaining_seconds b2 (it_woken (env i)) <=? 0) eqn:Hwoken.
  { stops. exists i. right. by apply remaining_zero. }
  pose proof (try_consume_spends b2 ltac:(apply S12)) as S3.
  pose proof (transitivity S12 S3) as S123.
  destruct (try_consume_retry b2) as [b3 []] eqn:Ht; simpl in S3, S123.
  - apply try_consume_true in Ht.
    destruct (IH (S i) b3 (starts ++ [it_start (env i)])) as (o & b' & l & E & Hbd & Hg).
    + apply S3.
    + destruct S12 as (_ & ? & ? & _), S123 as (_ & ? & ? & [? ?]).
      unfold retries_remaining, budget_ok in *. lia.
    + exists o, b', l. split; [exact E|]. split; [|exact Hg].
      eapply bounded_more; [exact S123| |exact Hstart|exact Hbd].
      destruct S12 as (_ & _ & ? & _). lia.
  - stops. split; [done|]. intros _. left. by apply try_consume_false in Ht.
Qed.

Lemma new_logical_budget_ok timeout now caller retries b :
  new_logical_budget timeout now caller retries = Some b ->
  budget_ok b /\ retries_used b = 0 /\ deadline_monotonic b <= now + timeout /\
  match caller with Deadline d => deadline_monotonic b <= d | _ => True end.
Proof.
  unfold new_logical_budget, new_call_budget, guard_err, budget_ok. intros H.
  repeat crush_step_in H; simplify_eq; simpl in *; repeat crush_step_in H; simplify_eq/=;
    breflect; split_and!; lia || done.
Qed.

Lemma run_candidates_bounded {A} (chain : list (nat -> Iteration A)) b :
  budget_ok b -> Forall (fun env => forall j, 0 <= it_jitter (env j)) chain ->
  exists b' starts, run_candidates chain b = Some (b', starts) /\ spends b b' /\
    Z.of_nat (length starts) <= Z.of_nat (length chain) + (retries_used b' - retries_used b) /\
    Forall (fun t => t < deadline_monotonic b) starts.
Proof.
  intros Hb Hc. revert b Hb. induction Hc as [|env chain He _ IH]; intros b Hb; cbn [run_candidates].
  { exists b, []. split_and!; [done|by apply spends_refl|simpl; lia|constructor]. }
  destruct (apply_budgeted_bounded (budget_fuel b) env 0 b [] Hb) as
    (o & b1 & l & E & [S1 (l' & -> & Hlen & Hall)] & _); [unfold budget_fuel; lia|done|].
  rw E. destruct (IH b1) as (b2 & l2 & E2 & S2 & Hlen2 & Hall2); [apply S1|].
  destruct o; [|rw E2| | |]; simpl.
  2: { exists b2, (l' ++ l2). split_and!; [done|by etrans|rw length_app; lia|].
       apply Forall_app. split; [done|]. destruct S1 as (Hd & _). by rw Hd in Hall2. }
  all: exists b1, l'; split_and!; [done|done|lia|done].
Qed.

(** ** Properties *)

(** C40 retry_budget_shared: a logical provider call that gets a budget from
    [_new_call_budget] and runs a chain of fallback candidates on it, whatever the
    candidates raise, however long they take and whoever else takes tokens of the same
    budget, ends; it makes at most one provider call per candidate plus [max_retries]
    in total, starts none at or after the effective deadline, and leaves the budget with
    no more than [max_retries] tokens used and its deadline unchanged. *)
Theorem retry_budget_shared {A} timeout now caller retries b
    (chain : list (nat -> Iteration A)) :
  new_logical_budget timeout now caller retries = Some b ->
  Forall (fun env => forall j, 0 <= it_jitter (env j)) chain ->
  exists b' starts, run_candidates chain b = Some (b', starts) /\
    Z.of_nat (length starts) <= Z.of_nat (length chain) + max_retries b /\
    Forall (fun t => t < deadline_monotonic b) starts /\
    deadline_monotonic b <= now + timeout /\
    match caller with Deadline d => deadline_monotonic b <= d | _ => True end /\
    0 <= retries_used b' <= max_retries b /\ deadline_monotonic b' = deadline_monotonic b.
Proof.
  intros Hb Hc. destruct (new_logical_budget_ok _ _ _ _ _ Hb) as (Hok & H0 & Hd & Hdc).
  destruct (run_candidates_bounded chain b Hok Hc) as
    (b' & l & E & (Hdl & Hm & _ & Hok') & Hlen & Hall).
  unfold budget_ok in *. rw Hm in Hok'. exists b', l. split_and!; done || lia.
Qed.

(** An attempt of a demonstration candidate: rate limited, with a hint of 3 seconds. *)
Definition limited_attempt (start : Z) : Iteration string := {|
  it_start := start;
  it_call := Raises (HTTPStatusError 429
    (Some {| retry_after_seconds := 3 * second; hint_source := RETRY_AFTER |}) None);
  it_taken_in_call := 0; it_jitter := 0; it_failed := start + second;
  it_sleep_cancelled := false; it_taken_in_sleep := 0; it_woken := start + 4 * second |}.

Definition limited_candidate (from : Z) (i : nat) : Iteration string :=
  limited_attempt (from + Z.of_nat i * 4 * second).

Lemma retry_budget_shared_witness :
  exists b' starts,
    run_candidates [limited_candidate 0; limited_candidate (8 * second)]
      {| deadline_monotonic := 20 * second; max_retries := 1; retries_used := 0 |}
      = Some (b', starts) /\ Z.of_nat (length starts) <= 2 + 1.
Proof.
  destruct (retry_budget_shared (60 * second) 0 (Deadline (20 * second)) (Some 1)
    {| deadline_monotonic := 20 * second; max_retries := 1; retries_used := 0 |}
    [limited_candidate 0; limited_candidate (8 * second)]) as (b' & l & E & H & _).
  - vm_compute. reflexivity.
  - repeat constructor; intros; vm_compute; discriminate.
  - exists b', l. split; [exact E|exact H].
Defined.

(** The chain above makes exactly the three calls the bound allows. *)
Example limited_chain_runs :
  run_candidates [limited_candidate 0; limited_candidate (8 * second)]
    {| deadline_monotonic := 20 * second; max_retries := 1; retries_used := 0 |}
  = Some ({| deadline_monotonic := 20 * second; max_retries := 1; retries_used := 1 |},
          [0; 4 * second; 8 * second]).
Proof. vm_compute. reflexivity. Qed.
