(* ===== verification/GameSession.v ===== *)
(** * Game session, native window validation, focus guard and frame capture
    (src/cl/src/game_automation/session/game_session.py, session/window_manager.py,
    actions/focus_guard.py and capture/window_capture.py)

    A [GameSession] is one object under its own lock: each method is one step on it.  The
    operating system is a parameter: a [NativeView] gives the answers of the window
    backend during one validation (each may raise), and the foreground window and the
    captured pixels are further inputs.  A call that reads the session several times
    without holding its lock takes the session as each read sees it.  Times and native
    handles are integers; titles and executables are kept but, as in the code, never
    decide anything but identity. *)

From stdpp Require Import sorting.
From S2P Require Import Prelude.

(** ** Session data *)

Inductive GameSessionState := UNBOUND | BOUND | CLOSED.

#[global] Instance GameSessionState_eq_dec : EqDecision GameSessionState.
Proof. solve_decision. Defined.

Record GameWindowIdentity := {
  hwnd : Z;
  process_id : Z;
  process_start_time : Z;
  title : string;
  executable : option string
}.

#[global] Instance GameWindowIdentity_eq_dec : EqDecision GameWindowIdentity.
Proof. solve_decision. Defined.

(** [GameWindowIdentity.__post_init__]. *)
Definition identity_valid (i : GameWindowIdentity) : bool :=
  (0 <? hwnd i) && (0 <? process_id i) && (0 <=? process_start_time i).

Record GameWindowBinding := {
  bound_identity : GameWindowIdentity;
  bound_generation : Z
}.

Record CaptureContext := {
  ctx_session_id : string;
  ctx_generation : Z;
  ctx_identity : GameWindowIdentity
}.

#[global] Instance CaptureContext_eq_dec : EqDecision CaptureContext.
Proof. solve_decision. Defined.

Record GameSession := {
  gs_id : string;
  gs_state : GameSessionState;
  gs_generation : Z;
  gs_binding : option GameWindowBinding;
  gs_frame_sequence : Z
}.

Inductive GameSessionError :=
  | SessionClosedError
  | UnboundSessionError
  | StaleCaptureContextError
  | SessionValueError.

Definition new_session (id : string) : result GameSessionError GameSession :=
  guard_err (truthy id) SessionValueError ≫= fun _ =>
  Ok {| gs_id := id; gs_state := UNBOUND; gs_generation := 0; gs_binding := None;
        gs_frame_sequence := 0 |}.

Definition require_not_closed (s : GameSession) : result GameSessionError unit :=
  guard_err (negb (bool_decide (gs_state s = CLOSED))) SessionClosedError.

(** The identity argument is a constructed [GameWindowIdentity], hence valid. *)
Definition bind (s : GameSession) (i : GameWindowIdentity)
    : result GameSessionError (GameSession * GameWindowBinding) :=
  _ ← require_not_closed s;
  let b := {| bound_identity := i; bound_generation := gs_generation s + 1 |} in
  mret ({| gs_id := gs_id s; gs_state := BOUND; gs_generation := gs_generation s + 1;
           gs_binding := Some b; gs_frame_sequence := 0 |}, b).

Definition unbind (s : GameSession) : result GameSessionError (GameSession * Z) :=
  _ ← require_not_closed s;
  mret ({| gs_id := gs_id s; gs_state := UNBOUND; gs_generation := gs_generation s + 1;
           gs_binding := None; gs_frame_sequence := 0 |}, gs_generation s + 1).

Definition close_session (s : GameSession) : GameSession * Z :=
  if bool_decide (gs_state s = CLOSED) then (s, gs_generation s)
  else ({| gs_id := gs_id s; gs_state := CLOSED; gs_generation := gs_generation s + 1;
           gs_binding := None; gs_frame_sequence := 0 |}, gs_generation s + 1).

Definition current_capture_context (s : GameSession)
    : result GameSessionError CaptureContext :=
  match gs_state s, gs_binding s with
  | CLOSED, _ => Err SessionClosedError
  | BOUND, Some b => Ok {| ctx_session_id := gs_id s; ctx_generation := bound_generation b;
                           ctx_identity := bound_identity b |}
  | _, _ => Err UnboundSessionError
  end.

Definition is_current (s : GameSession) (c : CaptureContext) : bool :=
  match gs_state s, gs_binding s with
  | BOUND, Some b =>
      bool_decide (ctx_session_id c = gs_id s) &&
      (ctx_generation c =? bound_generation b) &&
      bool_decide (ctx_identity c = bound_identity b)
  | _, _ => false
  end.

Definition assert_current (s : GameSession) (c : CaptureContext)
    : result GameSessionError unit :=
  guard_err (is_current s c) StaleCaptureContextError.

Definition reserve_frame_sequence (s : GameSession) (c : CaptureContext)
    : result GameSessionError (GameSession * Z) :=
  _ ← assert_current s c;
  mret ({| gs_id := gs_id s; gs_state := gs_state s; gs_generation := gs_generation s;
           gs_binding := gs_binding s; gs_frame_sequence := gs_frame_sequence s + 1 |},
        gs_frame_sequence s + 1).

(** ** GameWindowManager *)

Record CaptureGeometry := { left_ : Z; top : Z; width : Z; height : Z }.

#[global] Instance CaptureGeometry_eq_dec : EqDecision CaptureGeometry.
Proof. solve_decision. Defined.

(** One backend call: an answer, [UnsupportedPlatformError], or another exception. *)
Inductive Native (A : Type) := Answers (a : A) | Unsupported | NativeRaises.
Arguments Answers {A} _. Arguments Unsupported {A}. Arguments NativeRaises {A}.

Inductive WindowTargetError := UnsupportedPlatformError | WindowTargetUnavailableError.

(** The answers of the backend during one validation. *)
Record NativeView := {
  nv_is_window : Z -> Native bool;
  nv_is_visible : Z -> Native bool;
  nv_is_minimized : Z -> Native bool;
  nv_process_id : Z -> Native Z;
  nv_process_start_time : Z -> Native Z;
  nv_client_geometry : Z -> Native CaptureGeometry
}.

(** A backend call inside the [try] of the manager's methods. *)
Definition native {A B} (n : Native A) (k : A -> result WindowTargetError B)
    : result WindowTargetError B :=
  match n with
  | Answers a => k a
  | Unsupported => Err UnsupportedPlatformError
  | NativeRaises => Err WindowTargetUnavailableError
  end.

Definition unavailable_unless (b : bool) : result WindowTargetError unit :=
  guard_err b WindowTargetUnavailableError.

Definition validate_binding (nv : NativeView) (i : GameWindowIdentity)
    : result WindowTargetError CaptureGeometry :=
  native (nv_is_window nv (hwnd i)) (fun w =>
  _ ← unavailable_unless w;
  native (nv_is_visible nv (hwnd i)) (fun v =>
  _ ← unavailable_unless v;
  native (nv_is_minimized nv (hwnd i)) (fun m =>
  _ ← unavailable_unless (negb m);
  native (nv_process_id nv (hwnd i)) (fun pid =>
  _ ← unavailable_unless (pid =? process_id i);
  native (nv_process_start_time nv pid) (fun started =>
  _ ← unavailable_unless (started =? process_start_time i);
  match nv_client_geometry nv (hwnd i) with
  | Answers g =>
      _ ← unavailable_unless ((0 <? width g) && (0 <? height g));
      mret g
  | _ => Err WindowTargetUnavailableError
  end))))).

(** ** FocusGuard.validate *)

Inductive FocusGuardError := TargetLostError | TargetNotForegroundError | MouseCoordinateError
  | ForegroundUnsupported.

Record GuardedTarget := {
  gt_context : CaptureContext;
  gt_geometry : CaptureGeometry;
  gt_screen : option (Z * Z)
}.

(** The session as the four reads of [validate] see it, the backend's answers and the
    foreground window ([None]: the query raises). *)
Record GuardView := {
  gv_at_context : GameSession;
  gv_before_native : GameSession;
  gv_after_native : GameSession;
  gv_at_end : GameSession;
  gv_native : NativeView;
  gv_foreground : option Z
}.

Definition lost_unless (b : bool) : result FocusGuardError unit := guard_err b TargetLostError.

(** The coordinates are given together or not at all, as the scheduler passes them. *)
Definition guard_validate (gv : GuardView) (session_id : string) (generation : Z)
    (xy : option (Z * Z)) : result FocusGuardError GuardedTarget :=
  match current_capture_context (gv_at_context gv) with
  | Err _ => Err TargetLostError
  | Ok c =>
      _ ← lost_unless (bool_decide (ctx_session_id c = session_id) &&
                       (ctx_generation c =? generation));
      _ ← lost_unless (is_current (gv_before_native gv) c);
      match validate_binding (gv_native gv) (ctx_identity c) with
      | Err _ => Err TargetLostError
      | Ok g =>
          _ ← lost_unless (is_current (gv_after_native gv) c);
          match gv_foreground gv with
          | None => Err ForegroundUnsupported
          | Some f =>
              _ ← guard_err (f =? hwnd (ctx_identity c)) TargetNotForegroundError;
              _ ← lost_unless (is_current (gv_at_end gv) c);
              match xy with
              | None => mret {| gt_context := c; gt_geometry := g; gt_screen := None |}
              | Some (x, y) =>
                  _ ← guard_err (negb ((x <? 0) || (y <? 0) || (width g <=? x) ||
                                       (height g <=? y))) MouseCoordinateError;
                  mret {| gt_context := c; gt_geometry := g;
                          gt_screen := Some (left_ g + x, top g + y) |}
              end
          end
      end
  end.

(** ** WindowCapture.capture_once *)

Record NativeFrame := {
  nf_width : Z; nf_height : Z; nf_stride : Z; nf_pixel_format : string; nf_pixels : list Z
}.

(** [NativeFrame.__post_init__]. *)
Definition native_frame_valid (f : NativeFrame) : bool :=
  (0 <? nf_width f) && (0 <? nf_height f) && (0 <? nf_stride f) && truthy (nf_pixel_format f) &&
  (nf_stride f * nf_height f <=? Z.of_nat (length (nf_pixels f))).

Record FrameObservation := {
  fo_session_id : string;
  fo_generation : Z;
  fo_frame_sequence : Z;
  fo_captured_ns : Z;
  fo_frame : NativeFrame
}.

(** [FrameObservation.__post_init__]. *)
Definition observation_valid (o : FrameObservation) : bool :=
  truthy (fo_session_id o) && (0 <? fo_generation o) && (0 <? fo_frame_sequence o) &&
  (0 <? fo_captured_ns o) && native_frame_valid (fo_frame o).

Inductive CaptureError :=
  | CaptureSession (e : GameSessionError)
  | CaptureUnsupportedPlatform
  | FrameCaptureUnavailableError
  | StaleFrameError
  | CaptureValueError.

(** The checks around the native capture: the context and the frame to publish.
    [at_context] and [at_assert] are the session at the first read and at
    [assert_current]. *)
Definition capture_fenced (at_context at_assert : GameSession) (before after : NativeView)
    (captured : CaptureGeometry -> Native NativeFrame)
    : result CaptureError (CaptureContext * NativeFrame) :=
  match current_capture_context at_context with
  | Err e => Err (CaptureSession e)
  | Ok c =>
      match validate_binding before (ctx_identity c) with
      | Err _ => Err FrameCaptureUnavailableError
      | Ok g =>
          match captured g with
          | Unsupported => Err CaptureUnsupportedPlatform
          | NativeRaises => Err FrameCaptureUnavailableError
          | Answers f =>
              match validate_binding after (ctx_identity c) with
              | Err _ => Err StaleFrameError
              | Ok g' =>
                  _ ← guard_err (bool_decide (g' = g)) StaleFrameError;
                  _ ← guard_err (is_current at_assert c) StaleFrameError;
                  mret (c, f)
              end
          end
      end
  end.

(** [s] is the session at the reservation; it is returned with the outcome, because a
    frame that fails its own validation has used a sequence number. *)
Definition capture_once (at_context at_assert s : GameSession) (before after : NativeView)
    (captured : CaptureGeometry -> Native NativeFrame) (now_ns : Z)
    : GameSession * result CaptureError FrameObservation :=
  match capture_fenced at_context at_assert before after captured with
  | Err e => (s, Err e)
  | Ok (c, f) =>
      match reserve_frame_sequence s c with
      | Err _ => (s, Err StaleFrameError)
      | Ok (s', seq) =>
          let o := {| fo_session_id := ctx_session_id c; fo_generation := ctx_generation c;
                      fo_frame_sequence := seq; fo_captured_ns := now_ns; fo_frame := f |} in
          (s', if observation_valid o then Ok o else Err CaptureValueError)
      end
  end.

(** ** Histories of a session *)

(** The operations other code performs on a session; [OpPublish] is the reservation a
    capture ends with. *)
Inductive SessionOp :=
  | OpBind (i : GameWindowIdentity)
  | OpUnbind
  | OpClose
  | OpPublish (c : CaptureContext).

(** A session and the (generation, sequence) pairs it has handed out, latest last. *)
Definition SessionHistory : Type := GameSession * list (Z * Z).

Definition session_step (h : SessionHistory) (op : SessionOp) : SessionHistory :=
  let '(s, frames) := h in
  match op with
  | OpBind i => match bind s i with Ok (s', _) => (s', frames) | Err _ => h end
  | OpUnbind => match unbind s with Ok (s', _) => (s', frames) | Err _ => h end
  | OpClose => ((close_session s).1, frames)
  | OpPublish c =>
      match reserve_frame_sequence s c with
      | Ok (s', seq) => (s', frames ++ [(ctx_generation c, seq)])
      | Err _ => h
      end
  end.

(** ** Lemmas *)

Definition session_ok (s : GameSession) : Prop :=
  0 <= gs_generation s /\ 0 <= gs_frame_sequence s /\
  match gs_binding s with
  | Some b => gs_state s = BOUND /\ bound_generation b = gs_generation s
  | None => gs_state s <> BOUND
  end.

Definition frame_lt (a b : Z * Z) : Prop := a.1 < b.1 \/ (a.1 = b.1 /\ a.2 < b.2).

(** Every frame handed out precedes the next one the session can hand out. *)
Definition history_ok (h : SessionHistory) : Prop :=
  session_ok h.1 /\ StronglySorted frame_lt h.2 /\
  Forall (fun f => frame_lt f (gs_generation h.1, gs_frame_sequence h.1 + 1)) h.2.

Lemma is_current_spec s c :
  is_current s c = true <->
  gs_state s = BOUND /\ exists b, gs_binding s = Some b /\ ctx_session_id c = gs_id s /\
    ctx_generation c = bound_generation b /\ ctx_identity c = bound_identity b.
Proof.
  unfold is_current.
  destruct (gs_state s), (gs_binding s) as [b|]; try (split; [done|naive_solver]).
  split; [intros ?; breflect; eauto 10|].
  intros (_ & b' & [= <-] & -> & -> & ->). by rw !bool_decide_true // Z.eqb_refl.
Qed.

Lemma current_generation s c :
  session_ok s -> is_current s c = true -> ctx_generation c = gs_generation s.
Proof.
  intros (_ & _ & Hb) (_ & b & Eb & _ & -> & _)%is_current_spec.
  rw Eb in Hb. by destruct Hb.
Qed.

(** Every operation keeps the session well formed and never lowers its generation; the
    generation moves only with the binding. *)
Lemma session_step_ok s frames op :
  session_ok s ->
  let s' := (session_step (s, frames) op).1 in
  session_ok s' /\ gs_id s' = gs_id s /\
  (gs_generation s' = gs_generation s + 1 /\ gs_frame_sequence s' = 0 \/
   gs_generation s' = gs_generation s /\ gs_binding s' = gs_binding s /\
   gs_state s' = gs_state s /\ gs_frame_sequence s <= gs_frame_sequence s').
Proof.
  unfold session_ok. intros (Hg & Hf & Hb). destruct op as [i| | |c]; simpl.
  - unfold bind, require_not_closed, guard_err. destruct (bool_decide _); simpl; naive_solver lia.
  - unfold unbind, require_not_closed, guard_err. destruct (bool_decide _); simpl; naive_solver lia.
  - unfold close_session. destruct (bool_decide _); simpl; naive_solver lia.
  - unfold reserve_frame_sequence, assert_current, guard_err.
    destruct (is_current s c); simpl; naive_solver lia.
Qed.

(** A context that is not current, and not from the future, is not made current by a step. *)
Lemma stale_step c s frames op :
  session_ok s -> is_current s c = false -> ctx_generation c <= gs_generation s ->
  let s' := (session_step (s, frames) op).1 in
  is_current s' c = false /\ ctx_generation c <= gs_generation s'.
Proof.
  intros Hok Hc Hg s'. destruct (session_step_ok s frames op Hok) as (Hok' & Hid & H).
  fold s' in Hok', Hid, H. split; [|lia]. destruct (is_current s' c) eqn:Hc'; [|done].
  pose proof (current_generation _ _ Hok' Hc').
  destruct H as [H|(_ & Hb & Hs & _)]; [lia|].
  assert (is_current s c = true); [|congruence].
  apply is_current_spec. apply is_current_spec in Hc' as (? & b & ? & ? & ? & ?).
  split; [congruence|]. exists b. by rw -Hb -Hid.
Qed.

(** What a step adds to the history: nothing, or the next frame of the current binding. *)
Lemma session_step_frames s frames op :
  session_ok s ->
  let h := session_step (s, frames) op in
  h.2 = frames \/
  h.2 = frames ++ [(gs_generation s, gs_frame_sequence s + 1)] /\
  gs_generation h.1 = gs_generation s /\ gs_frame_sequence h.1 = gs_frame_sequence s + 1.
Proof.
  intros Hok. destruct op as [i| | |c]; simpl; [by case_match; [case_match|]; left..|by left|].
  unfold reserve_frame_sequence, assert_current, guard_err.
  destruct (is_current s c) eqn:Hc; simpl; [|by left].
  right. by rw (current_generation _ _ Hok Hc).
Qed.

Lemma history_step h op : history_ok h -> history_ok (session_step h op).
Proof.
  destruct h as [s frames]. intros (Hok & Hs & Hf).
  destruct (session_step_ok s frames op Hok) as (Hok' & _ & H).
  split; [exact Hok'|]. revert H.
  destruct (session_step_frames s frames op Hok) as [->|(-> & -> & ->)]; intros H.
  - split; [done|]. eapply Forall_impl; [exact Hf|]. unfold frame_lt. cbn [fst snd]. intros. lia.
  - rw StronglySorted_app Forall_app. rw Forall_forall in Hf. split_and!; [|done| | |].
    + intros x y Hx ->%list_elem_of_singleton. by apply Hf.
    + repeat constructor.
    + apply Forall_forall. intros x Hx. specialize (Hf x Hx). unfold frame_lt in *. simpl in *. lia.
    + constructor; [|done]. unfold frame_lt. simpl. lia.
Qed.

Lemma validate_binding_ok nv i g :
  validate_binding nv i = Ok g ->
  nv_is_window nv (hwnd i) = Answers true /\ nv_is_visible nv (hwnd i) = Answers true /\
  nv_is_minimized nv (hwnd i) = Answers false /\
  nv_process_id nv (hwnd i) = Answers (process_id i) /\
  nv_process_start_time nv (process_id i) = Answers (process_start_time i) /\
  nv_client_geometry nv (hwnd i) = Answers g /\ 0 < width g /\ 0 < height g.
Proof.
  unfold validate_binding, native, unavailable_unless, guard_err. intros H.
  repeat (crush_step_in H; simpl in H; try discriminate).
  injection H as <-. breflect. subst. split_and!; done.
Qed.

(** What the focus guard promises of a target: the session's binding at the requested
    generation, its window alive and in the foreground, and screen coordinates inside it. *)
Definition target_ok (gv : GuardView) (session_id : string) (generation : Z)
    (t : GuardedTarget) : Prop :=
  let c := gt_context t in
  let g := gt_geometry t in
  current_capture_context (gv_at_context gv) = Ok c /\
  ctx_session_id c = session_id /\ ctx_generation c = generation /\
  is_current (gv_at_end gv) c = true /\
  validate_binding (gv_native gv) (ctx_identity c) = Ok g /\
  gv_foreground gv = Some (hwnd (ctx_identity c)) /\
  match gt_screen t with
  | Some (sx, sy) => left_ g <= sx < left_ g + width g /\ top g <= sy < top g + height g
  | None => True
  end.

Lemma guard_validate_ok gv session_id generation xy t :
  guard_validate gv session_id generation xy = Ok t -> target_ok gv session_id generation t.
Proof.
  unfold guard_validate, lost_unless, guard_err. intros H.
  repeat (crush_step_in H; simpl in H; try discriminate);
    injection H as <-; unfold target_ok; simpl; breflect; subst; split_and!; done || lia.
Qed.

(** ** Properties *)

(** [stale_context_forever]: once a capture context has stopped being the session's
    current one, no sequence of binds (even to the same window), unbinds, closes and frame
    reservations makes it current again, so evidence taken under an old binding is never
    accepted. *)
Theorem stale_context_forever c s frames ops :
  session_ok s -> is_current s c = false -> ctx_generation c <= gs_generation s ->
  is_current (runs session_step (s, frames) ops).1 c = false.
Proof.
  intros Hok Hc Hg.
  apply (runs_invariant (fun h => session_ok h.1 /\ is_current h.1 c = false /\
                                  ctx_generation c <= gs_generation h.1)); [|done].
  clear. intros [s frames] op (Hok & Hc & Hg).
  split; [apply session_step_ok|apply stale_step]; done.
Qed.

(** [frame_identities_unique]: whatever happens to a session after its creation, the
    (generation, sequence) identities of the frames it publishes are strictly increasing,
    so no two published frames share one, and every one is positive. *)
Theorem frame_identities_unique id s ops :
  new_session id = Ok s ->
  let h := runs session_step (s, []) ops in
  StronglySorted frame_lt h.2 /\ NoDup h.2 /\ session_ok h.1 /\
  Forall (fun f => frame_lt f (gs_generation h.1, gs_frame_sequence h.1 + 1)) h.2.
Proof.
  intros E h. assert (H : history_ok h).
  { apply (runs_invariant history_ok); [apply history_step|].
    unfold new_session, guard_err in E. destruct (truthy id); simplify_eq/=.
    by repeat constructor. }
  destruct H as (Hok & Hs & Hf). split_and!; try done.
  clear -Hs. induction Hs as [|x l _ IH Hx]; constructor; [|done].
  rw Forall_forall in Hx. intros Hin. specialize (Hx x Hin). unfold frame_lt in Hx. lia.
Qed.

(** [capture_publishes_current]: a capture that publishes a frame did so for the binding
    that was current both when it started and at the moment of publication; the bound
    window was the same visible process instance with the same rectangle before and after
    the pixels were read; and the frame has the next sequence number of that binding. *)
Theorem capture_publishes_current at_context at_assert s before after captured now s' o :
  session_ok at_context -> session_ok s ->
  capture_once at_context at_assert s before after captured now = (s', Ok o) ->
  exists c g, current_capture_context at_context = Ok c /\ is_current s c = true /\
    fo_generation o = gs_generation s /\ gs_generation at_context = gs_generation s /\
    validate_binding before (ctx_identity c) = Ok g /\
    validate_binding after (ctx_identity c) = Ok g /\
    captured g = Answers (fo_frame o) /\
    nv_process_start_time after (process_id (ctx_identity c)) =
      Answers (process_start_time (ctx_identity c)) /\
    fo_frame_sequence o = gs_frame_sequence s + 1 /\ gs_frame_sequence s' = fo_frame_sequence o.
Proof.
  intros Hok0 Hok H. unfold capture_once, capture_fenced in H.
  destruct (current_capture_context at_context) as [c|] eqn:Ec; [|done].
  destruct (validate_binding before _) as [g|] eqn:Hb; [|done].
  destruct (captured g) as [f| |] eqn:Hf; [|done..].
  destruct (validate_binding after _) as [g'|] eqn:Ha; [|done].
  unfold reserve_frame_sequence, assert_current, guard_err in H.
  destruct (bool_decide (g' = g)) eqn:Eg; [|done]; simpl in H.
  destruct (is_current at_assert c); [|done]; simpl in H.
  destruct (is_current s c) eqn:Hc; [|done]; simpl in H.
  case_match; [|done]. simplify_eq/=. breflect. subst g'.
  exists c, g. pose proof (current_generation _ _ Hok Hc) as Hg.
  apply validate_binding_ok in Ha as Ha'. split_and!; try done; [|apply Ha'].
  rw -Hg. unfold current_capture_context in Ec. destruct Hok0 as (_ & _ & Hb0).
  destruct (gs_state at_context), (gs_binding at_context) as [b|]; simplify_eq/=. by destruct Hb0.
Qed.

(** ** Witnesses *)

Definition demo_window : GameWindowIdentity := {|
  hwnd := 10; process_id := 20; process_start_time := 30; title := "game"; executable := None |}.

(** A session bound for the [g]-th time. *)
Definition bound_session (g : Z) : GameSession := {|
  gs_id := "auto"; gs_state := BOUND; gs_generation := g;
  gs_binding := Some {| bound_identity := demo_window; bound_generation := g |};
  gs_frame_sequence := 0 |}.

Definition demo_context (g : Z) : CaptureContext := {|
  ctx_session_id := "auto"; ctx_generation := g; ctx_identity := demo_window |}.

Definition demo_geometry : CaptureGeometry := {| left_ := 100; top := 50; width := 4; height := 2 |}.

Definition demo_native : NativeView := {|
  nv_is_window := fun _ => Answers true; nv_is_visible := fun _ => Answers true;
  nv_is_minimized := fun _ => Answers false; nv_process_id := fun _ => Answers 20;
  nv_process_start_time := fun _ => Answers 30;
  nv_client_geometry := fun _ => Answers demo_geometry |}.

Definition demo_frame : NativeFrame := {|
  nf_width := 4; nf_height := 2; nf_stride := 4; nf_pixel_format := "BGRX32";
  nf_pixels := repeat 7 8 |}.

Lemma stale_context_forever_witness :
  is_current (runs session_step (bound_session 2, [])
    [OpBind demo_window; OpUnbind; OpBind demo_window]).1 (demo_context 1) = false.
Proof.
  apply stale_context_forever.
  - repeat split; simpl; lia.
  - vm_compute. reflexivity.
  - simpl. lia.
Defined.

Lemma frame_identities_unique_witness :
  NoDup (runs session_step
    ({| gs_id := "auto"; gs_state := UNBOUND; gs_generation := 0; gs_binding := None;
        gs_frame_sequence := 0 |}, [])
    [OpBind demo_window; OpPublish (demo_context 1); OpPublish (demo_context 1);
     OpBind demo_window; OpPublish (demo_context 1); OpPublish (demo_context 2)]).2.
Proof.
  refine (proj1 (proj2 (frame_identities_unique "auto" _ _ _))). reflexivity.
Defined.

Lemma capture_publishes_current_witness :
  exists s' o, capture_once (bound_session 1) (bound_session 1) (bound_session 1) demo_native
      demo_native (fun _ => Answers demo_frame) 5 = (s', Ok o) /\
    fo_frame_sequence o = 1 /\ gs_frame_sequence s' = 1.
Proof.
  do 2 eexists. split; [vm_compute; reflexivity|].
  destruct (capture_publishes_current (bound_session 1) (bound_session 1) (bound_session 1)
    demo_native demo_native (fun _ => Answers demo_frame) 5 _ _
    ltac:(repeat split; simpl; lia) ltac:(repeat split; simpl; lia)
    ltac:(vm_compute; reflexivity)) as (c & g & _ & _ & _ & _ & _ & _ & _ & _ & Hs & Hs').
  split; [exact Hs|]. rw Hs'. exact Hs.
Defined.
