(* ===== verification/ActionScheduler.v ===== *)
(** * The game action scheduler
    (src/cl/src/game_automation/actions/scheduler.py with action.py, cancellation.py,
    keyboard.py and mouse.py)

    One scheduler performs the input actions of one game session.  [execute] runs one
    action at a time (the execute lock); [cancel_current], [emergency_stop] and [close]
    come from other threads at any moment.  The model is a state machine: [sched_step]
    advances one thread by one lock section or one unlocked statement, and a trace is any
    interleaving.  The transition lock is held across the statements of a controller
    ([sc_ctl]); a guarded transition of the action runs inside it in one step, because
    every flag it reads changes only under that lock, while the session it validates
    first may still change until [hold_current] takes the session's own lock: the first
    validation therefore sees arbitrary sessions, the second the current one.

    Clock readings, the operating system's answers, failing backend calls and the set of
    releases that fail are inputs of a step.  [sc_log] records the input events the
    backend performed.  Reason texts are not modelled.  The wait function is the default
    [wait_interruptibly], whose loop is the [Waiting] instruction: it ends when a flag is
    set or the clock has reached its end. *)

From S2P Require Import Prelude GameSession.

(** ** Actions *)

Inductive ActionKind := KEY_TAP | KEY_HOLD | MOUSE_MOVE | MOUSE_CLICK | MOUSE_HOLD.

Inductive ActionStatus :=
  | SUCCEEDED | CANCELLED | EMERGENCY_STOPPED | DEADLINE_EXCEEDED | TARGET_LOST | FAILED.

#[global] Instance ActionStatus_eq_dec : EqDecision ActionStatus.
Proof. solve_decision. Defined.

Record ActionIntent := {
  ai_action_id : string;
  ai_session_id : string;
  ai_generation : Z;
  ai_kind : ActionKind;
  ai_key : option string;
  ai_button : option string;
  ai_x : option Z;
  ai_y : option Z;
  ai_hold_seconds : Z;
  ai_deadline : option Z;
  ai_cooldown_key : option string;
  ai_cooldown_seconds : Z
}.

Definition nonblank (s : option string) : bool :=
  match s with Some s => truthy (strip s) | None => false end.

Definition keyboard_fields (i : ActionIntent) : bool :=
  nonblank (ai_key i) && bool_decide (ai_button i = None) &&
  bool_decide (ai_x i = None) && bool_decide (ai_y i = None).

Definition has_coordinates (i : ActionIntent) : bool :=
  bool_decide (is_Some (ai_x i)) && bool_decide (is_Some (ai_y i)).

(** [ActionIntent.__post_init__]. *)
Definition intent_valid (i : ActionIntent) : bool :=
  nonblank (Some (ai_action_id i)) && nonblank (Some (ai_session_id i)) &&
  (0 <? ai_generation i) && (0 <=? ai_hold_seconds i) &&
  match ai_deadline i with Some d => 0 <? d | None => true end &&
  (0 <=? ai_cooldown_seconds i) &&
  negb ((0 <? ai_cooldown_seconds i) && negb (truthy (default "" (ai_cooldown_key i)))) &&
  match ai_cooldown_key i with Some k => truthy (strip k) | None => true end &&
  match ai_kind i with
  | KEY_TAP => keyboard_fields i && (ai_hold_seconds i =? 0)
  | KEY_HOLD => keyboard_fields i && (0 <? ai_hold_seconds i)
  | MOUSE_MOVE =>
      bool_decide (ai_key i = None) && has_coordinates i && bool_decide (ai_button i = None) &&
      (ai_hold_seconds i =? 0)
  | MOUSE_CLICK =>
      bool_decide (ai_key i = None) && has_coordinates i && nonblank (ai_button i) &&
      (ai_hold_seconds i =? 0)
  | MOUSE_HOLD =>
      bool_decide (ai_key i = None) && has_coordinates i && nonblank (ai_button i) &&
      (0 <? ai_hold_seconds i)
  end.

(** ** Instructions of an action *)

(** What a guarded transition asks of the input backends. *)
Inductive Press :=
  | PressKey (key : string)
  | MoveMouse
  | PressButton (button : string).

Inductive Instr :=
  | CheckClosed | CheckEmergency | CheckToken | CheckDeadline
  | Pacing
  | WaitBegin (duration : Z)
  | Waiting (until : Z) (limited : bool)
  | Transition (p : Press) (xy : option (Z * Z))
  | ValidateOnly (xy : option (Z * Z))
  | ReleaseKey (key : string)
  | ReleaseButton (button : string)
  | Unsupported_kind.

(** [_raise_if_stopped] outside the transition lock: four reads in order. *)
Definition raise_if_stopped : list Instr :=
  [CheckClosed; CheckEmergency; CheckToken; CheckDeadline].

(** [_wait_duration]. *)
Definition wait_duration (d : Z) : list Instr :=
  raise_if_stopped ++ (if d <=? 0 then [] else [WaitBegin d]).

Definition client_xy (i : ActionIntent) : option (Z * Z) :=
  match ai_x i, ai_y i with Some x, Some y => Some (x, y) | _, _ => None end.

(** [_perform]. *)
Definition perform (i : ActionIntent) : list Instr :=
  let xy := client_xy i in
  match ai_kind i, ai_key i, ai_button i with
  | KEY_TAP, Some k, _ =>
      [Transition (PressKey k) None; ValidateOnly None; ReleaseKey k] ++ raise_if_stopped
  | KEY_HOLD, Some k, _ =>
      [Transition (PressKey k) None] ++ wait_duration (ai_hold_seconds i) ++
      [ValidateOnly None; ReleaseKey k] ++ raise_if_stopped
  | MOUSE_MOVE, _, _ => [Transition MoveMouse xy]
  | MOUSE_CLICK, _, Some b =>
      [Transition MoveMouse xy; Transition (PressButton b) xy; ValidateOnly xy;
       ReleaseButton b] ++ raise_if_stopped
  | MOUSE_HOLD, _, Some b =>
      [Transition MoveMouse xy; Transition (PressButton b) xy] ++
      wait_duration (ai_hold_seconds i) ++ [ValidateOnly xy; ReleaseButton b] ++
      raise_if_stopped
  | _, _, _ => [Unsupported_kind]
  end.

(** The [try] block of [execute]. *)
Definition action_body (i : ActionIntent) : list Instr :=
  raise_if_stopped ++ [Pacing] ++ raise_if_stopped ++ perform i.

(** Exceptions of the body, by the handler that catches them. *)
Inductive ActionExn :=
  | EmergencyStoppedError | ActionCancelledError | ActionDeadlineExceeded | FocusLost
  | OtherException.

Definition status_of (x : ActionExn) : ActionStatus :=
  match x with
  | EmergencyStoppedError => EMERGENCY_STOPPED
  | ActionCancelledError => CANCELLED
  | ActionDeadlineExceeded => DEADLINE_EXCEEDED
  | FocusLost => TARGET_LOST
  | OtherException => FAILED
  end.

(** ** State *)

(** Input events performed by the backends. *)
Inductive InputEvent :=
  | KeyDown (key : string) | KeyUp (key : string)
  | MovedTo (x y : Z)
  | ButtonDown (button : string) | ButtonUp (button : string).

Inductive RunPc :=
  | Body (is_ : list Instr)
  | CleanKeys (status : ActionStatus)
  | CleanButtons (status : ActionStatus) (failed : bool)
  | Finalize (status : ActionStatus) (completed : Z).

Record Run := { r_intent : ActionIntent; r_token : nat; r_pc : RunPc }.

Inductive CtlKind := CtlCancel | CtlEmergency | CtlClose.

(** A controller inside the transition lock: which cleanup comes next. *)
Inductive Ctl := CtlKeys (k : CtlKind) | CtlButtons (k : CtlKind).

(** The first closer after it released the transition lock. *)
Inductive Drain := DrainWait | DrainButtons.

(** The keyboard and mouse executors: what they own, and the events performed. *)
Record InputState := {
  owned_keys : gset string;
  owned_buttons : gset string;
  in_log : list InputEvent
}.

(** The flags that stop an action.  Tokens are numbered by the actions they belong to. *)
Record StopState := {
  st_emergency : bool;
  st_closed : bool;
  st_current : option nat;
  st_cancelled : gset nat;
  st_next_token : nat
}.

Record PaceState := {
  last_completed : option Z;
  cooldown_until : gmap string Z
}.

Record Sched := {
  sc_session : GameSession;
  sc_input : InputState;
  sc_stop : StopState;
  sc_pace : PaceState;
  sc_run : option Run;
  sc_ctl : option Ctl;
  sc_drain : option Drain;
  sc_leased : bool;
  sc_outcomes : list (nat * ActionStatus)
}.

Definition with_session (s : Sched) (x : GameSession) : Sched :=
  {| sc_session := x; sc_input := sc_input s; sc_stop := sc_stop s; sc_pace := sc_pace s;
     sc_run := sc_run s; sc_ctl := sc_ctl s; sc_drain := sc_drain s;
     sc_leased := sc_leased s; sc_outcomes := sc_outcomes s |}.
Definition with_input (s : Sched) (x : InputState) : Sched :=
  {| sc_session := sc_session s; sc_input := x; sc_stop := sc_stop s; sc_pace := sc_pace s;
     sc_run := sc_run s; sc_ctl := sc_ctl s; sc_drain := sc_drain s;
     sc_leased := sc_leased s; sc_outcomes := sc_outcomes s |}.
Definition with_stop (s : Sched) (x : StopState) : Sched :=
  {| sc_session := sc_session s; sc_input := sc_input s; sc_stop := x; sc_pace := sc_pace s;
     sc_run := sc_run s; sc_ctl := sc_ctl s; sc_drain := sc_drain s;
     sc_leased := sc_leased s; sc_outcomes := sc_outcomes s |}.
Definition with_run (s : Sched) (x : option Run) : Sched :=
  {| sc_session := sc_session s; sc_input := sc_input s; sc_stop := sc_stop s;
     sc_pace := sc_pace s; sc_run := x; sc_ctl := sc_ctl s; sc_drain := sc_drain s;
     sc_leased := sc_leased s; sc_outcomes := sc_outcomes s |}.
Definition with_ctl (s : Sched) (x : option Ctl) (d : option Drain) : Sched :=
  {| sc_session := sc_session s; sc_input := sc_input s; sc_stop := sc_stop s;
     sc_pace := sc_pace s; sc_run := sc_run s; sc_ctl := x; sc_drain := d;
     sc_leased := sc_leased s; sc_outcomes := sc_outcomes s |}.

Definition with_pc (s : Sched) (r : Run) (pc : RunPc) : Sched :=
  with_run s (Some {| r_intent := r_intent r; r_token := r_token r; r_pc := pc |}).

(** Scheduler options. *)
Record SchedConfig := { base_action_delay : Z; min_inter_action_interval : Z }.

Definition config_valid (cfg : SchedConfig) : bool :=
  (0 <=? base_action_delay cfg) && (0 <=? min_inter_action_interval cfg).

(** The constructor; [registry] is the class-wide set of active sessions. *)
Definition new_scheduler (cfg : SchedConfig) (registry : gset string) (s : GameSession)
    : option (gset string * Sched) :=
  if negb (config_valid cfg) then None
  else if bool_decide (gs_id s ∈ registry) then None
  else Some ({[gs_id s]} ∪ registry,
    {| sc_session := s;
       sc_input := {| owned_keys := ∅; owned_buttons := ∅; in_log := [] |};
       sc_stop := {| st_emergency := false; st_closed := false; st_current := None;
                     st_cancelled := ∅; st_next_token := 0 |};
       sc_pace := {| last_completed := None; cooldown_until := ∅ |};
       sc_run := None; sc_ctl := None; sc_drain := None; sc_leased := true;
       sc_outcomes := [] |}).

(** ** KeyboardExecutor and MouseExecutor *)

(** A backend call may raise; the flags say which calls return.  The boolean of a result
    says whether the executor's method returned. *)
Definition key_down (inp : InputState) (key : string) (returns : bool) : InputState * bool :=
  if negb (truthy key) || bool_decide (key ∈ owned_keys inp) || negb returns then (inp, false)
  else ({| owned_keys := {[key]} ∪ owned_keys inp; owned_buttons := owned_buttons inp;
           in_log := in_log inp ++ [KeyDown key] |}, true).

Definition key_up (inp : InputState) (key : string) (returns : bool) : InputState * bool :=
  if negb (bool_decide (key ∈ owned_keys inp)) then (inp, true)
  else if negb returns then (inp, false)
  else ({| owned_keys := owned_keys inp ∖ {[key]}; owned_buttons := owned_buttons inp;
           in_log := in_log inp ++ [KeyUp key] |}, true).

Definition move_to (inp : InputState) (xy : Z * Z) (returns : bool) : InputState * bool :=
  if returns then
    ({| owned_keys := owned_keys inp; owned_buttons := owned_buttons inp;
        in_log := in_log inp ++ [MovedTo xy.1 xy.2] |}, true)
  else (inp, false).

Definition button_down_at (inp : InputState) (button : string) (xy : Z * Z)
    (move_returns down_returns : bool) : InputState * bool :=
  if negb (truthy button) || bool_decide (button ∈ owned_buttons inp) then (inp, false)
  else
    match move_to inp xy move_returns with
    | (inp, false) => (inp, false)
    | (inp, true) =>
        if negb down_returns then (inp, false)
        else ({| owned_keys := owned_keys inp;
                 owned_buttons := {[button]} ∪ owned_buttons inp;
                 in_log := in_log inp ++ [ButtonDown button] |}, true)
    end.

Definition button_up (inp : InputState) (button : string) (returns : bool)
    : InputState * bool :=
  if negb (bool_decide (button ∈ owned_buttons inp)) then (inp, true)
  else if negb returns then (inp, false)
  else ({| owned_keys := owned_keys inp; owned_buttons := owned_buttons inp ∖ {[button]};
           in_log := in_log inp ++ [ButtonUp button] |}, true).

(** [KeyboardExecutor.cleanup]: [fails] are the keys whose release raises.  The boolean
    says whether some release failed. *)
Definition keyboard_cleanup (inp : InputState) (fails : gset string) : InputState * bool :=
  let released := owned_keys inp ∖ fails in
  ({| owned_keys := owned_keys inp ∖ released; owned_buttons := owned_buttons inp;
      in_log := in_log inp ++ map KeyUp (elements released) |},
   negb (bool_decide (owned_keys inp ∩ fails = ∅))).

Definition mouse_cleanup (inp : InputState) (fails : gset string) : InputState * bool :=
  let released := owned_buttons inp ∖ fails in
  ({| owned_keys := owned_keys inp; owned_buttons := owned_buttons inp ∖ released;
      in_log := in_log inp ++ map ButtonUp (elements released) |},
   negb (bool_decide (owned_buttons inp ∩ fails = ∅))).

#[global] Arguments key_down : simpl never.
#[global] Arguments key_up : simpl never.
#[global] Arguments button_down_at : simpl never.
#[global] Arguments button_up : simpl never.
#[global] Arguments keyboard_cleanup : simpl never.
#[global] Arguments mouse_cleanup : simpl never.

(** ** Guarded transitions *)

(** What one step of the body receives from outside. *)
Record BodyEnv := {
  be_now : Z;                    (* clock at the (first) reading of the step *)
  be_now2 : Z;                   (* clock at the second reading *)
  be_now3 : Z;                   (* clock at the third reading *)
  be_first : GuardView;          (* the validation before the session is held *)
  be_native : NativeView;        (* the backend during the second validation *)
  be_foreground : option Z;
  be_move_returns : bool;
  be_press_returns : bool
}.

Definition deadline_passed (i : ActionIntent) (now : Z) : bool :=
  match ai_deadline i with Some d => d <=? now | None => false end.

(** [_raise_if_stopped] inside the transition lock, where the flags are stable. *)
Definition stopped_by (st : StopState) (i : ActionIntent) (token : nat) (now : Z)
    : option ActionExn :=
  if st_closed st then Some OtherException
  else if st_emergency st then Some EmergencyStoppedError
  else if bool_decide (token ∈ st_cancelled st) then Some ActionCancelledError
  else if deadline_passed i now then Some ActionDeadlineExceeded
  else None.

Definition guard_exn (e : FocusGuardError) : ActionExn :=
  match e with ForegroundUnsupported => OtherException | _ => FocusLost end.

(** The second validation, with the session's lock held. *)
Definition held_view (s : Sched) (be : BodyEnv) : GuardView := {|
  gv_at_context := sc_session s; gv_before_native := sc_session s;
  gv_after_native := sc_session s; gv_at_end := sc_session s;
  gv_native := be_native be; gv_foreground := be_foreground be |}.

Definition press (inp : InputState) (p : Press) (screen : option (Z * Z)) (be : BodyEnv)
    : InputState * bool :=
  match p, screen with
  | PressKey k, _ => key_down inp k (be_press_returns be)
  | MoveMouse, Some xy => move_to inp xy (be_move_returns be)
  | PressButton b, Some xy => button_down_at inp b xy (be_move_returns be) (be_press_returns be)
  | _, None => (inp, false)
  end.

(** [_transition]. *)
Definition transition (s : Sched) (r : Run) (p : Press) (xy : option (Z * Z)) (be : BodyEnv)
    : InputState * option ActionExn :=
  let i := r_intent r in
  let inp := sc_input s in
  let stopped := stopped_by (sc_stop s) i (r_token r) in
  match stopped (be_now be) with
  | Some x => (inp, Some x)
  | None =>
      match guard_validate (be_first be) (ai_session_id i) (ai_generation i) xy with
      | Err e => (inp, Some (guard_exn e))
      | Ok first =>
          match stopped (be_now2 be) with
          | Some x => (inp, Some x)
          | None =>
              if negb (is_current (sc_session s) (gt_context first)) then (inp, Some FocusLost)
              else
                match guard_validate (held_view s be) (ai_session_id i) (ai_generation i) xy with
                | Err e => (inp, Some (guard_exn e))
                | Ok target =>
                    match stopped (be_now3 be) with
                    | Some x => (inp, Some x)
                    | None =>
                        match press inp p (gt_screen target) be with
                        | (inp', true) => (inp', None)
                        | (inp', false) => (inp', Some OtherException)
                        end
                    end
                end
          end
      end
  end.

(** [_validate_only]. *)
Definition validate_only (s : Sched) (r : Run) (xy : option (Z * Z)) (be : BodyEnv)
    : option ActionExn :=
  let i := r_intent r in
  match stopped_by (sc_stop s) i (r_token r) (be_now be) with
  | Some x => Some x
  | None =>
      match guard_validate (be_first be) (ai_session_id i) (ai_generation i) xy with
      | Err e => Some (guard_exn e)
      | Ok _ => stopped_by (sc_stop s) i (r_token r) (be_now2 be)
      end
  end.

(** ** The statements of [execute] *)

Definition raises (s : Sched) (r : Run) (x : ActionExn) : Sched :=
  with_pc s r (CleanKeys (status_of x)).

Definition goes_on (s : Sched) (r : Run) (is_ : list Instr) : Sched :=
  with_pc s r match is_ with [] => CleanKeys SUCCEEDED | _ => Body is_ end.

Definition raise_when (b : bool) (x : ActionExn) (s : Sched) (r : Run) (rest : list Instr)
    : Sched :=
  if b then raises s r x else goes_on s r rest.

(** [_wait_for_pacing] up to its wait: how long to wait at clock [now]. *)
Definition pacing_delay (cfg : SchedConfig) (ps : PaceState) (i : ActionIntent) (now : Z) : Z :=
  let earliest := now + base_action_delay cfg in
  let earliest :=
    match last_completed ps with
    | Some t => Z.max earliest (t + min_inter_action_interval cfg)
    | None => earliest
    end in
  let earliest :=
    match ai_cooldown_key i with
    | Some k => Z.max earliest (default now (cooldown_until ps !! k))
    | None => earliest
    end in
  Z.max 0 (earliest - now).

(** [_wait_duration] between its stop check and the wait: the end of the wait, and whether
    the deadline cuts it short.  [None]: the deadline has passed. *)
Definition wait_until (i : ActionIntent) (duration now now2 : Z) : option (Z * bool) :=
  match ai_deadline i with
  | None => Some (now2 + duration, false)
  | Some d =>
      let remaining := d - now in
      if remaining <=? 0 then None
      else if remaining <? duration then Some (now2 + remaining, true)
      else Some (now2 + duration, false)
  end.

Definition body_step (cfg : SchedConfig) (s : Sched) (r : Run) (ins : Instr)
    (rest : list Instr) (be : BodyEnv) : Sched :=
  let st := sc_stop s in
  let i := r_intent r in
  match ins with
  | CheckClosed => raise_when (st_closed st) OtherException s r rest
  | CheckEmergency => raise_when (st_emergency st) EmergencyStoppedError s r rest
  | CheckToken =>
      raise_when (bool_decide (r_token r ∈ st_cancelled st)) ActionCancelledError s r rest
  | CheckDeadline => raise_when (deadline_passed i (be_now be)) ActionDeadlineExceeded s r rest
  | Pacing => goes_on s r (wait_duration (pacing_delay cfg (sc_pace s) i (be_now be)) ++ rest)
  | WaitBegin d =>
      match wait_until i d (be_now be) (be_now2 be) with
      | None => raises s r ActionDeadlineExceeded
      | Some (until, limited) => goes_on s r (Waiting until limited :: rest)
      end
  | Waiting until limited =>
      if st_emergency st then raises s r EmergencyStoppedError
      else if bool_decide (r_token r ∈ st_cancelled st) then raises s r ActionCancelledError
      else if until - be_now be <=? 0 then
        (if limited then raises s r ActionDeadlineExceeded
         else goes_on s r (raise_if_stopped ++ rest))
      else s
  | Transition p xy =>
      match sc_ctl s with
      | Some _ => s
      | None =>
          match transition s r p xy be with
          | (inp, None) => goes_on (with_input s inp) r rest
          | (inp, Some x) => raises (with_input s inp) r x
          end
      end
  | ValidateOnly xy =>
      match sc_ctl s with
      | Some _ => s
      | None =>
          match validate_only s r xy be with
          | None => goes_on s r rest
          | Some x => raises s r x
          end
      end
  | ReleaseKey k =>
      match key_up (sc_input s) k (be_press_returns be) with
      | (inp, true) => goes_on (with_input s inp) r rest
      | (inp, false) => raises (with_input s inp) r OtherException
      end
  | ReleaseButton b =>
      match button_up (sc_input s) b (be_press_returns be) with
      | (inp, true) => goes_on (with_input s inp) r rest
      | (inp, false) => raises (with_input s inp) r OtherException
      end
  | Unsupported_kind => raises s r OtherException
  end.

(** The status [_finalize_outcome] commits at clock [now]. *)
Definition final_status (st : StopState) (i : ActionIntent) (token : nat)
    (status : ActionStatus) (now : Z) : ActionStatus :=
  if st_emergency st then EMERGENCY_STOPPED
  else if bool_decide (token ∈ st_cancelled st) then CANCELLED
  else if bool_decide (status = SUCCEEDED) then
    match stopped_by st i token now with
    | Some x => status_of x
    | None => SUCCEEDED
    end
  else status.

Definition finalize_outcome (s : Sched) (r : Run) (status : ActionStatus) (completed now : Z)
    : Sched :=
  let st := sc_stop s in
  let i := r_intent r in
  let status := final_status st i (r_token r) status now in
  let cooldown :=
    match ai_cooldown_key i with
    | Some k =>
        if bool_decide (status = SUCCEEDED) && (0 <? ai_cooldown_seconds i)
        then <[k := completed + ai_cooldown_seconds i]> (cooldown_until (sc_pace s))
        else cooldown_until (sc_pace s)
    | None => cooldown_until (sc_pace s)
    end in
  {| sc_session := sc_session s; sc_input := sc_input s;
     sc_stop := {| st_emergency := st_emergency st; st_closed := st_closed st;
                   st_current := if bool_decide (st_current st = Some (r_token r)) then None
                                 else st_current st;
                   st_cancelled := st_cancelled st; st_next_token := st_next_token st |};
     sc_pace := {| last_completed := Some completed; cooldown_until := cooldown |};
     sc_run := None; sc_ctl := sc_ctl s; sc_drain := sc_drain s; sc_leased := sc_leased s;
     sc_outcomes := sc_outcomes s ++ [(r_token r, status)] |}.

(** The start of [execute], once it has the execute lock. *)
Definition begin_execute (s : Sched) (i : ActionIntent) : Sched :=
  let st := sc_stop s in
  if negb (bool_decide (ai_session_id i = gs_id (sc_session s))) || st_closed st then s
  else
    let token := st_next_token st in
    with_run
      (with_stop s {| st_emergency := st_emergency st; st_closed := st_closed st;
                      st_current := Some token; st_cancelled := st_cancelled st;
                      st_next_token := S token |})
      (Some {| r_intent := i; r_token := token; r_pc := Body (action_body i) |}).

(** ** cancel_current, emergency_stop and close *)

Definition cancel_token (st : StopState) (token : nat) : StopState :=
  {| st_emergency := st_emergency st; st_closed := st_closed st; st_current := st_current st;
     st_cancelled := {[token]} ∪ st_cancelled st; st_next_token := st_next_token st |}.

(** The flag part of [cancel_current], with its return value. *)
Definition cancel_current (s : Sched) : Sched * bool :=
  match st_current (sc_stop s) with
  | None => (s, false)
  | Some token =>
      (with_ctl (with_stop s (cancel_token (sc_stop s) token)) (Some (CtlKeys CtlCancel))
         (sc_drain s),
       negb (bool_decide (token ∈ st_cancelled (sc_stop s))))
  end.

Definition emergency_stop (s : Sched) : Sched * bool :=
  let st := sc_stop s in
  (with_ctl (with_stop s {| st_emergency := true; st_closed := st_closed st;
                            st_current := st_current st; st_cancelled := st_cancelled st;
                            st_next_token := st_next_token st |})
     (Some (CtlKeys CtlEmergency)) (sc_drain s),
   negb (st_emergency st)).

(** The first closer; a later caller only waits. *)
Definition close (s : Sched) : Sched :=
  let st := sc_stop s in
  if st_closed st then s
  else
    let st := {| st_emergency := st_emergency st; st_closed := true;
                 st_current := st_current st; st_cancelled := st_cancelled st;
                 st_next_token := st_next_token st |} in
    let st := match st_current st with Some t => cancel_token st t | None => st end in
    with_ctl (with_stop s st) (Some (CtlKeys CtlClose)) (sc_drain s).

(** ** Traces *)

Inductive SchedEvent :=
  | EvExecute (i : ActionIntent)
  | EvBody (be : BodyEnv)
  | EvCleanKeys (fails : gset string)
  | EvCleanButtons (fails : gset string) (completed : Z)
  | EvFinalize (now : Z)
  | EvCancel | EvEmergency | EvClose
  | EvCtlKeys (fails : gset string)
  | EvCtlButtons (fails : gset string)
  | EvDrainKeys (fails : gset string)
  | EvDrainButtons (fails : gset string)
  | EvSession (op : SessionOp).

(** One step; an event whose thread is blocked or absent changes nothing. *)
Definition sched_step (cfg : SchedConfig) (s : Sched) (ev : SchedEvent) : Sched :=
  match ev, sc_run s, sc_ctl s, sc_drain s with
  | EvExecute i, None, _, d =>
      match d with Some DrainButtons => s | _ => begin_execute s i end
  | EvBody be, Some r, _, _ =>
      match r_pc r with
      | Body (ins :: rest) => body_step cfg s r ins rest be
      | _ => s
      end
  | EvCleanKeys fails, Some r, _, _ =>
      match r_pc r with
      | CleanKeys status =>
          let cleaned := keyboard_cleanup (sc_input s) fails in
          with_pc (with_input s cleaned.1) r (CleanButtons status cleaned.2)
      | _ => s
      end
  | EvCleanButtons fails completed, Some r, _, _ =>
      match r_pc r with
      | CleanButtons status failed =>
          let cleaned := mouse_cleanup (sc_input s) fails in
          with_pc (with_input s cleaned.1) r
            (Finalize (if (failed || cleaned.2) && bool_decide (status = SUCCEEDED)
                       then FAILED else status) completed)
      | _ => s
      end
  | EvFinalize now, Some r, None, _ =>
      match r_pc r with
      | Finalize status completed => finalize_outcome s r status completed now
      | _ => s
      end
  | EvCancel, _, None, _ => (cancel_current s).1
  | EvEmergency, _, None, _ => (emergency_stop s).1
  | EvClose, _, None, _ => close s
  | EvCtlKeys fails, _, Some (CtlKeys k), d =>
      with_ctl (with_input s (keyboard_cleanup (sc_input s) fails).1) (Some (CtlButtons k)) d
  | EvCtlButtons fails, _, Some (CtlButtons k), d =>
      with_ctl (with_input s (mouse_cleanup (sc_input s) fails).1) None
        match k with CtlClose => Some DrainWait | _ => d end
  | EvDrainKeys fails, None, c, Some DrainWait =>
      with_ctl (with_input s (keyboard_cleanup (sc_input s) fails).1) c (Some DrainButtons)
  | EvDrainButtons fails, None, c, Some DrainButtons =>
      let s' := with_ctl (with_input s (mouse_cleanup (sc_input s) fails).1) c None in
      {| sc_session := sc_session s'; sc_input := sc_input s'; sc_stop := sc_stop s';
         sc_pace := sc_pace s'; sc_run := sc_run s'; sc_ctl := sc_ctl s';
         sc_drain := sc_drain s'; sc_leased := false; sc_outcomes := sc_outcomes s' |}
  | EvSession op, _, _, _ =>
      with_session s (session_step (sc_session s, []) op).1
  | _, _, _, _ => s
  end.

(** ** Lemmas *)

(** A release of input that the executors own. *)
Definition owned_release (inp : InputState) (e : InputEvent) : Prop :=
  match e with
  | KeyUp k => k ∈ owned_keys inp
  | ButtonUp b => b ∈ owned_buttons inp
  | _ => False
  end.

(** The step only released input that was owned, each key and button once, and gave up the
    ownership of exactly what it released. *)
Definition releases_only (inp inp' : InputState) : Prop :=
  exists rel, in_log inp' = in_log inp ++ rel /\ NoDup rel /\ Forall (owned_release inp) rel /\
    forall e, owned_release inp' e <-> owned_release inp e /\ (e ∉ rel).

Lemma releases_none inp : releases_only inp inp.
Proof. exists []. rw app_nil_r. split_and!; [done|constructor|constructor|]. intros e. set_solver. Qed.

Lemma releases_trans a b c : releases_only a b -> releases_only b c -> releases_only a c.
Proof.
  intros (r1 & L1 & N1 & F1 & O1) (r2 & L2 & N2 & F2 & O2). exists (r1 ++ r2). rw L2 L1 app_assoc.
  rw Forall_forall in F2. split_and!; [done| | |].
  - apply NoDup_app. split_and!; [done| |done]. intros e He He2. by destruct (proj1 (O1 e) (F2 e He2)).
  - apply Forall_app. split; [done|]. apply Forall_forall. intros e He. apply O1, F2, He.
  - intros e. rw O2 O1 not_elem_of_app. tauto.
Qed.

Lemma releases_key inp k : k ∈ owned_keys inp ->
  releases_only inp {| owned_keys := owned_keys inp ∖ {[k]}; owned_buttons := owned_buttons inp;
                       in_log := in_log inp ++ [KeyUp k] |}.
Proof.
  intros Hk. exists [KeyUp k]. split_and!; [done|apply NoDup_singleton|by constructor|].
  intros []; simpl; set_solver.
Qed.

Lemma releases_button inp b : b ∈ owned_buttons inp ->
  releases_only inp {| owned_keys := owned_keys inp; owned_buttons := owned_buttons inp ∖ {[b]};
                       in_log := in_log inp ++ [ButtonUp b] |}.
Proof.
  intros Hb. exists [ButtonUp b]. split_and!; [done|apply NoDup_singleton|by constructor|].
  intros []; simpl; set_solver.
Qed.

Lemma key_up_releases inp k ret : releases_only inp (key_up inp k ret).1.
Proof.
  unfold key_up. destruct (bool_decide (k ∈ owned_keys inp)) eqn:E; simpl; [|apply releases_none].
  destruct ret; simpl; [|apply releases_none]. breflect. by apply releases_key.
Qed.

Lemma button_up_releases inp b ret : releases_only inp (button_up inp b ret).1.
Proof.
  unfold button_up. destruct (bool_decide (b ∈ owned_buttons inp)) eqn:E; simpl; [|apply releases_none].
  destruct ret; simpl; [|apply releases_none]. breflect. by apply releases_button.
Qed.

Lemma keyboard_cleanup_releases inp fails : releases_only inp (keyboard_cleanup inp fails).1.
Proof.
  eexists. split; [done|]. split_and!.
  - apply NoDup_fmap_2; [intros x y E; by injection E|apply NoDup_elements].
  - apply Forall_map, Forall_forall. intros k Hk. simpl. set_solver.
  - intros []; simpl; rw ?list_elem_of_fmap; set_solver.
Qed.

Lemma mouse_cleanup_releases inp fails : releases_only inp (mouse_cleanup inp fails).1.
Proof.
  eexists. split; [done|]. split_and!.
  - apply NoDup_fmap_2; [intros x y E; by injection E|apply NoDup_elements].
  - apply Forall_map, Forall_forall. intros k Hk. simpl. set_solver.
  - intros []; simpl; rw ?list_elem_of_fmap; set_solver.
Qed.

(** The instruction a running action is at. *)
Definition at_instr (s : Sched) (r : Run) (ins : Instr) (rest : list Instr) : Prop :=
  sc_run s = Some r /\ r_pc r = Body (ins :: rest).

Lemma goes_on_parts s r is_ :
  sc_input (goes_on s r is_) = sc_input s /\ sc_stop (goes_on s r is_) = sc_stop s.
Proof. done. Qed.

(** A statement of the body performs a guarded transition or only releases. *)
Lemma body_step_input cfg s r ins rest be :
  releases_only (sc_input s) (sc_input (body_step cfg s r ins rest be)) \/
  exists p xy, ins = Transition p xy /\ sc_ctl s = None /\
    sc_input (body_step cfg s r ins rest be) = (transition s r p xy be).1.
Proof.
  destruct ins; simpl; unfold raise_when; try (left; repeat case_match; apply releases_none).
  - destruct (sc_ctl s); [left; apply releases_none|]. right.
    exists p, xy. destruct (transition s r p xy be) as [inp []]; by split_and!.
  - left. pose proof (key_up_releases (sc_input s) key (be_press_returns be)) as H.
    by destruct (key_up _ _ _) as [inp []].
  - left. pose proof (button_up_releases (sc_input s) button (be_press_returns be)) as H.
    by destruct (button_up _ _ _) as [inp []].
Qed.

(** Input other than releases comes from a guarded transition of the running action. *)
Lemma step_input cfg s ev :
  releases_only (sc_input s) (sc_input (sched_step cfg s ev)) \/
  exists r p xy rest be, ev = EvBody be /\ at_instr s r (Transition p xy) rest /\
    sc_ctl s = None /\ sc_input (sched_step cfg s ev) = (transition s r p xy be).1.
Proof.
  destruct ev; simpl.
  2: { destruct (sc_run s) as [r|] eqn:Hr; [|left; apply releases_none].
       destruct (r_pc r) as [[|ins rest]| | |] eqn:Hpc; try (left; apply releases_none).
       destruct (body_step_input cfg s r ins rest be) as [H|(p & xy & -> & Hc & E)]; [by left|].
       right. by exists r, p, xy, rest, be. }
  all: left; unfold begin_execute, finalize_outcome, cancel_current, close;
    repeat case_match;
    first [apply releases_none | apply (keyboard_cleanup_releases _ fails)
          | apply (mouse_cleanup_releases _ fails)].
Qed.

(** A transition of a stopped action does nothing. *)
Lemma transition_stopped s r p xy be :
  (forall now, stopped_by (sc_stop s) (r_intent r) (r_token r) now <> None) ->
  (transition s r p xy be).1 = sc_input s.
Proof. intros H. unfold transition. by destruct (stopped_by _ _ _ (be_now be)) eqn:E; [|destruct (H _ E)]. Qed.

Lemma emergency_stops st i token now : st_emergency st = true -> stopped_by st i token now <> None.
Proof. unfold stopped_by. intros ->. by destruct (st_closed st). Qed.

(** The emergency latch has no reset. *)
Lemma step_emergency cfg s ev :
  st_emergency (sc_stop s) = true -> st_emergency (sc_stop (sched_step cfg s ev)) = true.
Proof.
  intros H. destruct ev; simpl; unfold body_step, begin_execute, finalize_outcome, cancel_current,
    close, raise_when, cancel_token, raises, goes_on; repeat case_match; simpl; done.
Qed.

(** Outcomes are committed by [finalize_outcome] only. *)
Lemma step_outcomes cfg s ev :
  sc_outcomes (sched_step cfg s ev) = sc_outcomes s \/
  exists r status completed now, ev = EvFinalize now /\ sc_run s = Some r /\
    r_pc r = Finalize status completed /\
    sc_outcomes (sched_step cfg s ev) =
      sc_outcomes s ++ [(r_token r, final_status (sc_stop s) (r_intent r) (r_token r) status now)].
Proof.
  destruct ev; simpl.
  5: { destruct (sc_run s) as [r|] eqn:Hr; [|by left]. destruct (sc_ctl s); [by left|].
       destruct (r_pc r) eqn:Hpc; try by left. right. by eexists r, _, _, now. }
  all: left; unfold body_step, begin_execute, cancel_current, close, raise_when, raises, goes_on;
    repeat case_match; done.
Qed.

(** *** Held input *)

(** The keys and buttons that are down after a log of events. *)
Definition held_keys (log : list InputEvent) : gset string :=
  fold_left (fun acc e => match e with
                          | KeyDown k => {[k]} ∪ acc | KeyUp k => acc ∖ {[k]} | _ => acc
                          end) log ∅.

Definition held_buttons (log : list InputEvent) : gset string :=
  fold_left (fun acc e => match e with
                          | ButtonDown b => {[b]} ∪ acc | ButtonUp b => acc ∖ {[b]} | _ => acc
                          end) log ∅.

(** The executors own exactly what is down. *)
Definition input_ok (inp : InputState) : Prop :=
  owned_keys inp = held_keys (in_log inp) /\ owned_buttons inp = held_buttons (in_log inp).

Lemma held_keys_app l l' :
  held_keys (l ++ l') =
  fold_left (fun acc e => match e with
                          | KeyDown k => {[k]} ∪ acc | KeyUp k => acc ∖ {[k]} | _ => acc
                          end) l' (held_keys l).
Proof. unfold held_keys. by rw fold_left_app. Qed.

Lemma held_buttons_app l l' :
  held_buttons (l ++ l') =
  fold_left (fun acc e => match e with
                          | ButtonDown b => {[b]} ∪ acc | ButtonUp b => acc ∖ {[b]} | _ => acc
                          end) l' (held_buttons l).
Proof. unfold held_buttons. by rw fold_left_app. Qed.

Lemma held_keys_released log l :
  held_keys (log ++ map KeyUp l) = held_keys log ∖ list_to_set l /\
  held_buttons (log ++ map KeyUp l) = held_buttons log.
Proof.
  rw held_keys_app held_buttons_app. split.
  - generalize (held_keys log) as acc. induction l as [|k l IH]; intros acc; simpl; [set_solver|].
    rw IH. set_solver.
  - generalize (held_buttons log) as acc. by induction l.
Qed.

Lemma held_buttons_released log l :
  held_buttons (log ++ map ButtonUp l) = held_buttons log ∖ list_to_set l /\
  held_keys (log ++ map ButtonUp l) = held_keys log.
Proof.
  rw held_keys_app held_buttons_app. split.
  - generalize (held_buttons log) as acc. induction l as [|k l IH]; intros acc; simpl; [set_solver|].
    rw IH. set_solver.
  - generalize (held_keys log) as acc. by induction l.
Qed.

Lemma keyboard_cleanup_ok inp fails : input_ok inp -> input_ok (keyboard_cleanup inp fails).1.
Proof.
  intros [Hk Hb]. unfold input_ok, keyboard_cleanup. simpl.
  destruct (held_keys_released (in_log inp) (elements (owned_keys inp ∖ fails))) as [-> ->].
  rw list_to_set_elements_L -Hk. split; [set_solver|done].
Qed.

Lemma mouse_cleanup_ok inp fails : input_ok inp -> input_ok (mouse_cleanup inp fails).1.
Proof.
  intros [Hk Hb]. unfold input_ok, mouse_cleanup. simpl.
  destruct (held_buttons_released (in_log inp) (elements (owned_buttons inp ∖ fails))) as [-> ->].
  rw list_to_set_elements_L -Hb. split; [done|set_solver].
Qed.

Lemma event_ok inp keys buttons e :
  input_ok inp ->
  held_keys (in_log inp ++ [e]) = keys -> held_buttons (in_log inp ++ [e]) = buttons ->
  input_ok {| owned_keys := keys; owned_buttons := buttons; in_log := in_log inp ++ [e] |}.
Proof. by split. Qed.

Ltac one_event :=
  apply event_ok; [done|rw held_keys_app; simpl|rw held_buttons_app; simpl]; congruence.

Lemma key_up_ok inp k ret : input_ok inp -> input_ok (key_up inp k ret).1.
Proof. intros H. pose proof H as [Hk Hb]. unfold key_up. repeat case_match; try done. one_event. Qed.

Lemma button_up_ok inp b ret : input_ok inp -> input_ok (button_up inp b ret).1.
Proof. intros H. pose proof H as [Hk Hb]. unfold button_up. repeat case_match; try done. one_event. Qed.

Lemma move_to_ok inp xy ret : input_ok inp -> input_ok (move_to inp xy ret).1.
Proof. intros H. pose proof H as [Hk Hb]. unfold move_to. repeat case_match; try done. one_event. Qed.

Lemma press_ok inp p screen be : input_ok inp -> input_ok (press inp p screen be).1.
Proof.
  intros H. pose proof H as [Hk Hb]. unfold press, key_down, button_down_at.
  destruct p, screen as [xy|]; try (repeat case_match; done || one_event); [by apply move_to_ok|].
  case_match; [done|]. pose proof (move_to_ok inp xy (be_move_returns be) H) as [Hk' Hb'].
  destruct (move_to _ _ _) as [inp' []]; [|done]. case_match; [done|].
  apply event_ok; [done|rw held_keys_app; simpl|rw held_buttons_app; simpl]; simpl in *; congruence.
Qed.

Lemma transition_ok s r p xy be : input_ok (sc_input s) -> input_ok (transition s r p xy be).1.
Proof.
  intros H. unfold transition. repeat case_match; try done;
    match goal with E : press ?i ?p ?sc ?be = _ |- _ =>
      pose proof (press_ok i p sc be H) as Hp; by rw E in Hp end.
Qed.

Lemma step_input_ok cfg s ev : input_ok (sc_input s) -> input_ok (sc_input (sched_step cfg s ev)).
Proof.
  intros H. destruct ev; simpl.
  2: { unfold body_step, raise_when, raises, goes_on.
       repeat case_match; simpl; try done;
       first [ match goal with E : transition ?s ?r ?p ?xy ?be = _ |- _ =>
                 pose proof (transition_ok s r p xy be H) as Hp; by rw E in Hp end
             | match goal with E : key_up ?i ?k ?b = _ |- _ =>
                 pose proof (key_up_ok i k b H) as Hp; by rw E in Hp end
             | match goal with E : button_up ?i ?k ?b = _ |- _ =>
                 pose proof (button_up_ok i k b H) as Hp; by rw E in Hp end ]. }
  all: unfold begin_execute, finalize_outcome, cancel_current, close; repeat case_match;
    first [exact H | apply (keyboard_cleanup_ok _ fails H) | apply (mouse_cleanup_ok _ fails H)].
Qed.

(** *** Tokens and outcomes *)

(** Tokens are used once: the current token is that of the running action, whose outcome
    is still open; what was committed as SUCCEEDED was never cancelled. *)
Record tokens_ok (s : Sched) : Prop := {
  to_run r : sc_run s = Some r -> (r_token r < st_next_token (sc_stop s))%nat;
  to_current t : st_current (sc_stop s) = Some t -> exists r, sc_run s = Some r /\ r_token r = t;
  to_open t status r : (t, status) ∈ sc_outcomes s -> sc_run s = Some r -> r_token r <> t;
  to_old t status : (t, status) ∈ sc_outcomes s -> (t < st_next_token (sc_stop s))%nat;
  to_success t : (t, SUCCEEDED) ∈ sc_outcomes s -> t ∉ st_cancelled (sc_stop s)
}.

(** The statements of a running action keep its token, the flags and the outcomes. *)
Lemma body_step_keeps cfg s r ins rest be :
  sc_run s = Some r ->
  let s' := body_step cfg s r ins rest be in
  sc_stop s' = sc_stop s /\ sc_outcomes s' = sc_outcomes s /\
  exists r', sc_run s' = Some r' /\ r_token r' = r_token r /\ r_intent r' = r_intent r.
Proof.
  intros Hr. destruct ins; simpl; unfold raise_when, raises, goes_on;
    repeat case_match; simpl; split_and!; try done; eexists; split_and!; done.
Qed.

Lemma tokens_same s s' :
  tokens_ok s -> sc_stop s' = sc_stop s -> sc_outcomes s' = sc_outcomes s ->
  (forall r', sc_run s' = Some r' -> exists r, sc_run s = Some r /\ r_token r' = r_token r) ->
  (forall r, sc_run s = Some r -> exists r', sc_run s' = Some r' /\ r_token r' = r_token r) ->
  tokens_ok s'.
Proof.
  intros [H1 H2 H3 H4 H5] Es Eo Hback Hforth. split; rw ?Es ?Eo.
  - intros r' (r & Hr & ->)%Hback. by apply H1.
  - intros t (r & Hr & <-)%H2. destruct (Hforth r Hr) as (r' & ? & ?). eauto.
  - intros t status r' Hin (r & Hr & ->)%Hback. by eapply H3.
  - exact H4.
  - exact H5.
Qed.

Lemma cancel_token_ok s t x d :
  tokens_ok s -> st_current (sc_stop s) = Some t -> forall st,
  st_current st = st_current (sc_stop s) -> st_next_token st = st_next_token (sc_stop s) ->
  st_cancelled st = {[t]} ∪ st_cancelled (sc_stop s) ->
  tokens_ok (with_ctl (with_stop s st) x d).
Proof.
  intros [H1 H2 H3 H4 H5] Ht st Ec En Ex. split; simpl; rw ?Ec ?En ?Ex; try done.
  intros t' Hin. specialize (H5 t' Hin). destruct (H2 t Ht) as (r & Hr & <-).
  specialize (H3 t' SUCCEEDED r Hin Hr). set_solver.
Qed.

Lemma flags_ok s x d st :
  tokens_ok s -> st_current st = st_current (sc_stop s) ->
  st_next_token st = st_next_token (sc_stop s) ->
  st_cancelled st = st_cancelled (sc_stop s) -> tokens_ok (with_ctl (with_stop s st) x d).
Proof. intros [H1 H2 H3 H4 H5] Ec En Ex. split; simpl; rw ?Ec ?En ?Ex; done. Qed.

Lemma final_status_succeeded st i token status now :
  final_status st i token status now = SUCCEEDED ->
  st_emergency st = false /\ (token ∉ st_cancelled st) /\ status = SUCCEEDED /\
  st_closed st = false /\ deadline_passed i now = false.
Proof.
  unfold final_status, stopped_by. intros H.
  repeat (crush_step_in H; simplify_eq/=); breflect; simplify_eq/=; split_and!; try done.
  all: by destruct (st_closed st).
Qed.

Lemma finalize_tokens s r status completed now :
  tokens_ok s -> sc_run s = Some r -> tokens_ok (finalize_outcome s r status completed now).
Proof.
  intros [H1 H2 H3 H4 H5] Hr. split; simpl; try done.
  - intros t. case_bool_decide as E; [done|]. intros Ht. destruct (H2 t Ht) as (r' & Hr' & <-).
    by simplify_eq.
  - intros t st [Hin|[= -> ->]%list_elem_of_singleton]%elem_of_app; [by eapply H4|by apply H1].
  - intros t [Hin|[= -> E]%list_elem_of_singleton]%elem_of_app; [by apply H5|].
    by apply eq_sym, final_status_succeeded in E as (_ & ? & _).
Qed.

Lemma begin_tokens s i : tokens_ok s -> sc_run s = None -> tokens_ok (begin_execute s i).
Proof.
  intros H Hr. unfold begin_execute. case_match; [done|].
  destruct H as [H1 H2 H3 H4 H5]. split; simpl; try done.
  - intros r [= <-]. simpl. lia.
  - intros t [= <-]. eauto.
  - intros t status r Hin [= <-]. simpl. apply H4 in Hin. lia.
  - intros t status Hin%H4. lia.
Qed.

Lemma step_tokens cfg s ev : tokens_ok s -> tokens_ok (sched_step cfg s ev).
Proof.
  intros H. destruct ev; simpl.
  - destruct (sc_run s) eqn:Hr; [done|]. repeat case_match; try done; by apply begin_tokens.
  - destruct (sc_run s) as [r|] eqn:Hr; [|done]. destruct (r_pc r) as [[|ins rest]| | |]; try done.
    destruct (body_step_keeps cfg s r ins rest be Hr) as (? & ? & r' & ? & ? & _).
    eapply tokens_same; try done; naive_solver.
  - repeat case_match; try done; eapply tokens_same; try done; naive_solver.
  - repeat case_match; try done; eapply tokens_same; try done; naive_solver.
  - repeat case_match; try done; by apply finalize_tokens.
  - unfold cancel_current. repeat case_match; try done;
      eapply cancel_token_ok; done.
  - repeat case_match; try done; by apply flags_ok.
  - unfold close. repeat case_match; try done;
      first [eapply cancel_token_ok; done | by apply flags_ok].
  - repeat case_match; try done; eapply tokens_same; try done; naive_solver.
  - repeat case_match; try done; eapply tokens_same; try done; naive_solver.
  - repeat case_match; try done; eapply tokens_same; try done; naive_solver.
  - repeat case_match; try done; eapply tokens_same; try done; naive_solver.
  - eapply tokens_same; try done; naive_solver.
Qed.

(** *** Release of owned input *)

(** Nothing an action pressed is left down, as far as it has been cleaned up. *)
Definition released_so_far (s : Sched) : Prop :=
  match sc_run s with
  | None => owned_keys (sc_input s) = ∅ /\ owned_buttons (sc_input s) = ∅
  | Some r =>
      match r_pc r with
      | Body _ | CleanKeys _ => True
      | CleanButtons _ _ => owned_keys (sc_input s) = ∅
      | Finalize _ _ => owned_keys (sc_input s) = ∅ /\ owned_buttons (sc_input s) = ∅
      end
  end.

(** The releases of a cleanup all return. *)
Definition releases_return (ev : SchedEvent) : Prop :=
  match ev with
  | EvCleanKeys f | EvCleanButtons f _ | EvCtlKeys f | EvCtlButtons f
  | EvDrainKeys f | EvDrainButtons f => f = ∅
  | _ => True
  end.

Lemma keyboard_cleanup_all inp :
  owned_keys (keyboard_cleanup inp ∅).1 = ∅ /\
  owned_buttons (keyboard_cleanup inp ∅).1 = owned_buttons inp.
Proof. unfold keyboard_cleanup. simpl. split; [set_solver|done]. Qed.

Lemma mouse_cleanup_all inp :
  owned_buttons (mouse_cleanup inp ∅).1 = ∅ /\
  owned_keys (mouse_cleanup inp ∅).1 = owned_keys inp.
Proof. unfold mouse_cleanup. simpl. split; [set_solver|done]. Qed.

Lemma body_step_pc cfg s r ins rest be :
  sc_run s = Some r -> r_pc r = Body (ins :: rest) ->
  exists r', sc_run (body_step cfg s r ins rest be) = Some r' /\
    ((exists is_, r_pc r' = Body is_) \/ exists status, r_pc r' = CleanKeys status).
Proof.
  intros Hr Hpc. destruct ins; simpl; unfold raise_when, raises, goes_on;
    repeat case_match; simpl; eexists; (split; [done|]); simpl; eauto.
Qed.

(** Other threads only release. *)
Lemma released_mono s s' :
  sc_run s' = sc_run s -> owned_keys (sc_input s') ⊆ owned_keys (sc_input s) ->
  owned_buttons (sc_input s') ⊆ owned_buttons (sc_input s) ->
  released_so_far s -> released_so_far s'.
Proof.
  unfold released_so_far. intros -> Hk Hb. destruct (sc_run s) as [r|]; [destruct (r_pc r)|];
    set_solver.
Qed.

Lemma controller_released cfg s ev :
  match ev with
  | EvExecute _ | EvBody _ | EvCleanKeys _ | EvCleanButtons _ _ | EvFinalize _ => False
  | _ => True
  end ->
  released_so_far s -> released_so_far (sched_step cfg s ev).
Proof.
  intros Hev. apply released_mono; destruct ev; try done; simpl;
    unfold cancel_current, close, keyboard_cleanup, mouse_cleanup;
    repeat case_match; simpl; try done; set_solver.
Qed.

Lemma step_released cfg s ev :
  releases_return ev -> released_so_far s -> released_so_far (sched_step cfg s ev).
Proof.
  intros Hev H. destruct ev; try by apply controller_released. all: simpl in Hev; subst; simpl.
  - destruct (sc_run s) eqn:Hr; [done|]. unfold begin_execute.
    destruct (sc_drain s) as [[]|]; try done; by case_match.
  - destruct (sc_run s) as [r|] eqn:Hr; [|done].
    destruct (r_pc r) as [[|ins rest]| | |] eqn:Hpc; try done.
    destruct (body_step_pc cfg s r ins rest be) as (r' & Hr' & Hpc'); [done..|].
    unfold released_so_far. rw Hr'. by destruct Hpc' as [[? ->]|[? ->]].
  - destruct (sc_run s) as [r|] eqn:Hr; [|done]. destruct (r_pc r); try done.
    apply keyboard_cleanup_all.
  - destruct (sc_run s) as [r|] eqn:Hr; [|done]. destruct (r_pc r) eqn:Hpc; try done.
    unfold released_so_far in *. rw Hr Hpc in H.
    destruct (mouse_cleanup_all (sc_input s)) as [Hb Hk]. split; [by rw -H|exact Hb].
  - destruct (sc_run s) as [r|] eqn:Hr; [|done]. destruct (sc_ctl s); [done|].
    destruct (r_pc r) eqn:Hpc; try done. unfold released_so_far in *. by rw Hr Hpc in H.
Qed.

(** *** Pressing *)

(** The events a press adds, for a guarded target. *)
Lemma press_events inp p t be :
  exists new, in_log (press inp p (gt_screen t) be).1 = in_log inp ++ new /\
    forall x y, MovedTo x y ∈ new -> gt_screen t = Some (x, y).
Proof.
  assert (Hnil : exists new, in_log inp = in_log inp ++ new /\
    forall x y, MovedTo x y ∈ new -> gt_screen t = Some (x, y)).
  { exists []. rw app_nil_r. split; [done|]. intros x y Hin. by apply not_elem_of_nil in Hin. }
  unfold press, key_down, button_down_at, move_to.
  destruct p, (gt_screen t) as [[sx sy]|]; repeat case_match; simplify_eq/=; try exact Hnil;
    rw -?app_assoc; eexists; (split; [done|]); intros x y Hin; simpl in Hin;
    repeat (apply elem_of_cons in Hin as [Hin|Hin]; simplify_eq; try done);
    by apply not_elem_of_nil in Hin.
Qed.

(** Whatever a transition adds to the log was added on a guarded target, unstopped. *)
Lemma transition_events s r p xy be :
  (transition s r p xy be).1 = sc_input s \/
  exists t new, in_log (transition s r p xy be).1 = in_log (sc_input s) ++ new /\
    target_ok (held_view s be) (ai_session_id (r_intent r)) (ai_generation (r_intent r)) t /\
    stopped_by (sc_stop s) (r_intent r) (r_token r) (be_now3 be) = None /\
    forall x y, MovedTo x y ∈ new -> gt_screen t = Some (x, y).
Proof.
  unfold transition. repeat (case_match; try by left). all: right.
  all: match goal with
       | E : press ?i ?p (gt_screen ?t) ?be = _ |- _ =>
           destruct (press_events i p t be) as (new & Hl & Hm); rw E in Hl; exists t, new
       end.
  all: split_and!; [done| |done|exact Hm]; by eapply guard_validate_ok.
Qed.

(** ** Properties *)

(** C38 emergency_stop_final: from the moment the emergency stop is latched, whatever the
    running action, later actions, other controllers and the session do, in whatever
    interleaving, the scheduler performs no further key press, button press or mouse
    movement: the only events are releases of keys and buttons it owned at that moment, each at
    most once, and it still owns exactly the others.  Every action that ends afterwards is
    reported EMERGENCY_STOPPED. *)
Theorem emergency_stop_final cfg s evs :
  sc_ctl s = None ->
  let s0 := sched_step cfg s EvEmergency in
  let s1 := runs (sched_step cfg) s0 evs in
  releases_only (sc_input s) (sc_input s1) /\
  exists ended, sc_outcomes s1 = sc_outcomes s ++ ended /\
    Forall (fun o => o.2 = EMERGENCY_STOPPED) ended.
Proof.
  intros Hc s0 s1.
  assert (H : st_emergency (sc_stop s1) = true /\ releases_only (sc_input s) (sc_input s1) /\
    exists ended, sc_outcomes s1 = sc_outcomes s ++ ended /\
      Forall (fun o => o.2 = EMERGENCY_STOPPED) ended); [|by destruct H].
  apply (runs_invariant (fun s1 => st_emergency (sc_stop s1) = true /\
    releases_only (sc_input s) (sc_input s1) /\
    exists ended, sc_outcomes s1 = sc_outcomes s ++ ended /\
      Forall (fun o => o.2 = EMERGENCY_STOPPED) ended)).
  - clear. intros s1 ev (He & Hrel & ended & Ho & Hend).
    split; [by apply step_emergency|]. split.
    + destruct (step_input cfg s1 ev) as [Hl|(r & p & xy & rest & be & _ & _ & _ & ->)].
      * by eapply releases_trans.
      * rw transition_stopped; [intros; by apply emergency_stops|done].
    + destruct (step_outcomes cfg s1 ev) as [->|(r & st & c & now & _ & _ & _ & ->)]; [by exists ended|].
      exists (ended ++ [(r_token r, EMERGENCY_STOPPED)]). unfold final_status. rw He Ho -app_assoc.
      split; [done|]. apply Forall_app. split; [done|by constructor].
  - unfold s0. simpl. rw Hc. repeat case_match; (split; [done|]); simpl;
      (split; [apply releases_none|exists []; by rw app_nil_r]).
Qed.

(** [cancelled_never_succeeds]: in every reachable state, an action whose token was
    cancelled (by [cancel_current] or by closing the scheduler) has no SUCCEEDED outcome,
    and [cancel_current] reports true only for an action whose outcome is still open: a
    cancellation that was accepted is never overtaken by success. *)
Theorem cancelled_never_succeeds cfg registry sess reg' s0 evs :
  new_scheduler cfg registry sess = Some (reg', s0) ->
  let s := runs (sched_step cfg) s0 evs in
  (forall t, t ∈ st_cancelled (sc_stop s) -> (t, SUCCEEDED) ∉ sc_outcomes s) /\
  ((cancel_current s).2 = true ->
   exists r, sc_run s = Some r /\ st_current (sc_stop s) = Some (r_token r) /\
     r_token r ∈ st_cancelled (sc_stop (cancel_current s).1) /\
     forall status, (r_token r, status) ∉ sc_outcomes s).
Proof.
  intros E s. assert (H : tokens_ok s).
  { apply (runs_invariant tokens_ok); [apply step_tokens|].
    unfold new_scheduler in E. repeat case_match; simplify_eq.
    split; simpl; try done; intros * Hin; by apply not_elem_of_nil in Hin. }
  destruct H as [H1 H2 H3 H4 H5]. split; [intros t Ht Hin; by apply (H5 t)|].
  unfold cancel_current. destruct (st_current (sc_stop s)) as [t|] eqn:Ht; [|done].
  intros _. destruct (H2 t eq_refl) as (r & Hr & <-). exists r. split_and!; try done.
  - simpl. set_solver.
  - intros status Hin. by eapply H3.
Qed.

(** [owned_input_released]: the executors own exactly the keys and buttons that are down
    by the events performed, in every reachable state; and if the releases of the cleanups
    return, nothing is left down whenever no action is running, whatever was cancelled,
    stopped, closed, lost or failed before. *)
Theorem owned_input_released cfg registry sess reg' s0 evs :
  new_scheduler cfg registry sess = Some (reg', s0) ->
  let s := runs (sched_step cfg) s0 evs in
  input_ok (sc_input s) /\
  (Forall releases_return evs -> sc_run s = None ->
   held_keys (in_log (sc_input s)) = ∅ /\ held_buttons (in_log (sc_input s)) = ∅).
Proof.
  intros E s. unfold new_scheduler in E. repeat case_match; simplify_eq.
  assert (Hok : input_ok (sc_input s)).
  { apply (runs_invariant (fun s => input_ok (sc_input s))); [intros; by apply step_input_ok|done]. }
  split; [exact Hok|]. intros Hret Hrun.
  assert (Hrel : released_so_far s).
  { apply (runs_invariant_if released_so_far releases_return); [|done|done].
    intros; by apply step_released. }
  unfold released_so_far in Hrel. rw Hrun in Hrel. destruct Hok as [<- <-]. exact Hrel.
Qed.

(** [presses_are_guarded]: every event a step adds to the input log is a release of owned
    input, or was performed by the running action at a moment when the scheduler was not
    closed, not emergency-stopped, the action neither cancelled nor past its deadline, the
    session's current binding was the one the action names, its window alive and in the
    foreground; and a mouse position is inside that window's client area. *)
Theorem presses_are_guarded cfg s ev :
  releases_only (sc_input s) (sc_input (sched_step cfg s ev)) \/
  exists r be t new,
    sc_run s = Some r /\ ev = EvBody be /\
    in_log (sc_input (sched_step cfg s ev)) = in_log (sc_input s) ++ new /\
    target_ok (held_view s be) (ai_session_id (r_intent r)) (ai_generation (r_intent r)) t /\
    stopped_by (sc_stop s) (r_intent r) (r_token r) (be_now3 be) = None /\
    forall x y, MovedTo x y ∈ new ->
      left_ (gt_geometry t) <= x < left_ (gt_geometry t) + width (gt_geometry t) /\
      top (gt_geometry t) <= y < top (gt_geometry t) + height (gt_geometry t).
Proof.
  destruct (step_input cfg s ev) as [H|(r & p & xy & rest & be & -> & [Hr _] & _ & E)]; [by left|].
  rw E. destruct (transition_events s r p xy be) as [->|(t & new & Hl & Ht & Hs & Hm)];
    [left; apply releases_none|].
  right. exists r, be, t, new. split_and!; try done. intros x y Hin%Hm.
  destruct Ht as (_ & _ & _ & _ & _ & _ & Hxy). by rw Hin in Hxy.
Qed.

(** ** Demonstrations and witnesses *)

Definition no_delay : SchedConfig := {| base_action_delay := 0; min_inter_action_interval := 0 |}.

Definition tap_w : ActionIntent := {|
  ai_action_id := "a1"; ai_session_id := "auto"; ai_generation := 1; ai_kind := KEY_TAP;
  ai_key := Some "w"%string; ai_button := None; ai_x := None; ai_y := None;
  ai_hold_seconds := 0; ai_deadline := None; ai_cooldown_key := None;
  ai_cooldown_seconds := 0 |}.

(** Everything answers and the bound window is in the foreground. *)
Definition good_env : BodyEnv := {|
  be_now := 5; be_now2 := 5; be_now3 := 5;
  be_first := {| gv_at_context := bound_session 1; gv_before_native := bound_session 1;
                 gv_after_native := bound_session 1; gv_at_end := bound_session 1;
                 gv_native := demo_native; gv_foreground := Some 10 |};
  be_native := demo_native; be_foreground := Some 10;
  be_move_returns := true; be_press_returns := true |}.

Definition idle_sched : Sched := {|
  sc_session := bound_session 1;
  sc_input := {| owned_keys := ∅; owned_buttons := ∅; in_log := [] |};
  sc_stop := {| st_emergency := false; st_closed := false; st_current := None;
                st_cancelled := ∅; st_next_token := 0 |};
  sc_pace := {| last_completed := None; cooldown_until := ∅ |};
  sc_run := None; sc_ctl := None; sc_drain := None; sc_leased := true; sc_outcomes := [] |}.

(** The statements of a tap up to the release, and the rest of its execution. *)
Definition tap_trace (body : nat) (fails : gset string) : list SchedEvent :=
  [EvExecute tap_w] ++ repeat (EvBody good_env) body ++
  [EvCleanKeys fails; EvCleanButtons ∅ 7; EvFinalize 8].

(** An undisturbed tap presses and releases its key and succeeds. *)
Example tap_succeeds :
  let s := runs (sched_step no_delay) idle_sched (tap_trace 20 ∅) in
  in_log (sc_input s) = [KeyDown "w"; KeyUp "w"] /\ sc_outcomes s = [(0%nat, SUCCEEDED)] /\
  sc_run s = None /\ intent_valid tap_w = true.
Proof. vm_compute. repeat split. Qed.

(** The lease of a closed scheduler can be gone while [emergency_stop] still emits input:
    a key whose release failed in every cleanup before is released then. *)
Example released_lease_still_emits :
  let fails : gset string := {["w"%string]} in
  let s := runs (sched_step no_delay) idle_sched
    ([EvExecute tap_w] ++ repeat (EvBody good_env) 14 ++
     [EvClose; EvCtlKeys fails; EvCtlButtons ∅; EvBody good_env; EvCleanKeys fails;
      EvCleanButtons ∅ 7; EvFinalize 8; EvDrainKeys fails; EvDrainButtons ∅]) in
  sc_leased s = false /\ sc_run s = None /\ in_log (sc_input s) = [KeyDown "w"] /\
  in_log (sc_input (runs (sched_step no_delay) s [EvEmergency; EvCtlKeys ∅])) =
    [KeyDown "w"; KeyUp "w"].
Proof. vm_compute. repeat split. Qed.

Lemma emergency_stop_final_witness :
  let s := runs (sched_step no_delay) idle_sched ([EvExecute tap_w] ++ repeat (EvBody good_env) 14) in
  let s1 := runs (sched_step no_delay) (sched_step no_delay s EvEmergency)
    [EvBody good_env; EvCtlKeys ∅; EvCtlButtons ∅; EvBody good_env] in
  releases_only (sc_input s) (sc_input s1).
Proof.
  refine (proj1 (emergency_stop_final no_delay _ _ _)). vm_compute. reflexivity.
Defined.

Lemma cancelled_never_succeeds_witness :
  let s := runs (sched_step no_delay) idle_sched
    ([EvExecute tap_w] ++ repeat (EvBody good_env) 14 ++ [EvCancel; EvCtlKeys ∅; EvCtlButtons ∅] ++
     [EvBody good_env; EvCleanKeys ∅; EvCleanButtons ∅ 7; EvFinalize 8]) in
  0%nat ∈ st_cancelled (sc_stop s) /\ ((0%nat, SUCCEEDED) ∉ sc_outcomes s).
Proof.
  assert (Hc : bool_decide (0%nat ∈ st_cancelled (sc_stop (runs (sched_step no_delay) idle_sched
    ([EvExecute tap_w] ++ repeat (EvBody good_env) 14 ++ [EvCancel; EvCtlKeys ∅; EvCtlButtons ∅] ++
     [EvBody good_env; EvCleanKeys ∅; EvCleanButtons ∅ 7; EvFinalize 8])))) = true)
    by (vm_compute; reflexivity).
  apply bool_decide_eq_true in Hc. split; [exact Hc|].
  refine (proj1 (cancelled_never_succeeds no_delay ∅ (bound_session 1) {["auto"%string]}
    idle_sched _ _) 0%nat Hc).
  vm_compute. reflexivity.
Defined.

Lemma owned_input_released_witness :
  let s := runs (sched_step no_delay) idle_sched
    ([EvExecute tap_w] ++ repeat (EvBody good_env) 14 ++ [EvCancel; EvCtlKeys ∅; EvCtlButtons ∅] ++
     [EvBody good_env; EvCleanKeys ∅; EvCleanButtons ∅ 7; EvFinalize 8]) in
  held_keys (in_log (sc_input s)) = ∅ /\ held_buttons (in_log (sc_input s)) = ∅.
Proof.
  refine (proj2 (owned_input_released no_delay ∅ (bound_session 1) {["auto"%string]}
    idle_sched _ _) _ _).
  - vm_compute. reflexivity.
  - repeat constructor.
  - vm_compute. reflexivity.
Defined.
