(* ===== verification/ConnectionRegistry.v ===== *)
(** * Connection lifecycle and registry
    (src/se/src/runtimes/connection/: contracts.py, lifecycle.py and registry.py)

    The lifecycle registry is the source of truth for connection states; the connection
    registry keeps the sockets and the session indexes beside it.  Every method holds the
    lock or does not suspend, so a method is one step.  Clock readings are integers and
    sockets are opaque names. *)

From S2P Require Import Prelude Canonical.

(** ** contracts.py *)

Inductive ConnectionState := REGISTERED | ACTIVE | STALE | DISCONNECTED | REMOVED.

#[global] Instance ConnectionState_eq_dec : EqDecision ConnectionState.
Proof. solve_decision. Defined.

Inductive ConnError :=
  | ConnectionIdReused
  | ConnectionNotFound
  | ConnectionStateTransition
  | ConnectionNotActive
  | ConnectionSocketUnavailable
  | DuplicateInvocation
  | ConnValueError
  | ConnTimeout.

Record ConnectionSnapshot := {
  cs_connection_id : string;
  cs_session_id : string;
  cs_user_id : string;
  cs_state : ConnectionState;
  cs_connected_at : Z;
  cs_last_heartbeat_at : Z;
  cs_stale_after : Z;
  cs_metadata : list (string * json)
}.

Definition allowed_transition (from to : ConnectionState) : bool :=
  match from, to with
  | REGISTERED, (ACTIVE | DISCONNECTED | REMOVED) => true
  | ACTIVE, (STALE | DISCONNECTED | REMOVED) => true
  | STALE, (ACTIVE | DISCONNECTED | REMOVED) => true
  | DISCONNECTED, REMOVED => true
  | _, _ => false
  end.

(** ** ConnectionLifecycleRegistry *)

Record Lifecycle := {
  lc_stale_after : Z;
  lc_connections : gmap string ConnectionSnapshot
}.

(** The constructor. *)
Definition new_lifecycle (stale_after : Z) : result ConnError Lifecycle :=
  _ ← guard_err (0 <? stale_after) ConnValueError;
  mret {| lc_stale_after := stale_after; lc_connections := ∅ |}.

Definition put (l : Lifecycle) (id : string) (c : ConnectionSnapshot) : Lifecycle :=
  {| lc_stale_after := lc_stale_after l; lc_connections := <[id := c]> (lc_connections l) |}.

Definition set_state (c : ConnectionSnapshot) (st : ConnectionState) (heartbeat : Z)
    : ConnectionSnapshot :=
  {| cs_connection_id := cs_connection_id c; cs_session_id := cs_session_id c;
     cs_user_id := cs_user_id c; cs_state := st; cs_connected_at := cs_connected_at c;
     cs_last_heartbeat_at := heartbeat; cs_stale_after := cs_stale_after c;
     cs_metadata := cs_metadata c |}.

Definition lookup_connection (l : Lifecycle) (id : string) : result ConnError ConnectionSnapshot :=
  match lc_connections l !! id with Some c => Ok c | None => Err ConnectionNotFound end.

Definition lifecycle_register (l : Lifecycle) (id session user : string)
    (metadata : list (string * json)) (now : Z)
    : result ConnError (Lifecycle * ConnectionSnapshot) :=
  match lc_connections l !! id with
  | Some _ => Err ConnectionIdReused
  | None =>
      let c := {| cs_connection_id := id; cs_session_id := session; cs_user_id := user;
                  cs_state := REGISTERED; cs_connected_at := now; cs_last_heartbeat_at := now;
                  cs_stale_after := lc_stale_after l; cs_metadata := metadata |} in
      mret (put l id c, c)
  end.

(** [_transition]: the same state is a no-op. *)
Definition checked_transition (c : ConnectionSnapshot) (st : ConnectionState)
    : result ConnError ConnectionSnapshot :=
  if bool_decide (cs_state c = st) then Ok c
  else
    _ ← guard_err (allowed_transition (cs_state c) st) ConnectionStateTransition;
    mret (set_state c st (cs_last_heartbeat_at c)).

(** [transition]; [now] is given only by callers that refresh the heartbeat. *)
Definition lifecycle_transition (l : Lifecycle) (id : string) (st : ConnectionState)
    (now : option Z) : result ConnError (Lifecycle * ConnectionSnapshot) :=
  c ← lookup_connection l id;
  c' ← checked_transition c st;
  let c' := match now with
            | Some t => if bool_decide (st = ACTIVE) then set_state c' (cs_state c') t else c'
            | None => c'
            end in
  mret (put l id c', c').

Definition lifecycle_activate (l : Lifecycle) (id : string) (now : option Z) :=
  lifecycle_transition l id ACTIVE now.

Definition lifecycle_heartbeat (l : Lifecycle) (id : string) (now : Z)
    : result ConnError (Lifecycle * ConnectionSnapshot) :=
  c ← lookup_connection l id;
  _ ← guard_err (bool_decide (cs_state c = ACTIVE) || bool_decide (cs_state c = STALE))
        ConnectionStateTransition;
  let c' := set_state c ACTIVE now in
  mret (put l id c', c').

Definition mark_stale (l : Lifecycle) (id : string) := lifecycle_transition l id STALE None.
Definition lifecycle_disconnect (l : Lifecycle) (id : string) :=
  lifecycle_transition l id DISCONNECTED None.
Definition lifecycle_remove (l : Lifecycle) (id : string) :=
  lifecycle_transition l id REMOVED None.

Definition is_active (l : Lifecycle) (id : string) : result ConnError bool :=
  c ← lookup_connection l id;
  mret (bool_decide (cs_state c = ACTIVE)).

(** The connections [evict_stale] marks at [now]. *)
Definition expired (now : Z) (c : ConnectionSnapshot) : bool :=
  bool_decide (cs_state c = ACTIVE) && (cs_stale_after c <=? now - cs_last_heartbeat_at c).

Definition lifecycle_evict_stale (l : Lifecycle) (now : Z) : Lifecycle * gset string :=
  ({| lc_stale_after := lc_stale_after l;
      lc_connections := (fun c => if expired now c
                                  then set_state c STALE (cs_last_heartbeat_at c) else c)
                        <$> lc_connections l |},
   dom (filter (fun kc => expired now kc.2 = true) (lc_connections l))).

(** ** ConnectionRegistry *)

Record Registry := {
  rg_lifecycle : Lifecycle;
  rg_sockets : gmap string string;
  rg_session_to_connection : gmap string string;
  rg_connection_to_session : gmap string string
}.

Definition with_lifecycle (r : Registry) (l : Lifecycle) : Registry :=
  {| rg_lifecycle := l; rg_sockets := rg_sockets r;
     rg_session_to_connection := rg_session_to_connection r;
     rg_connection_to_session := rg_connection_to_session r |}.

Definition with_sockets (r : Registry) (s : gmap string string) : Registry :=
  {| rg_lifecycle := rg_lifecycle r; rg_sockets := s;
     rg_session_to_connection := rg_session_to_connection r;
     rg_connection_to_session := rg_connection_to_session r |}.

(** The id is the caller's, or the one generated for it. *)
Definition registry_register (r : Registry) (session user : string) (socket : option string)
    (metadata : list (string * json)) (id : string) (now : Z)
    : result ConnError (Registry * ConnectionSnapshot) :=
  lc ← lifecycle_register (rg_lifecycle r) id session user metadata now;
  mret ({| rg_lifecycle := lc.1;
           rg_sockets := match socket with
                         | Some s => <[id := s]> (rg_sockets r) | None => rg_sockets r end;
           rg_session_to_connection := <[session := id]> (rg_session_to_connection r);
           rg_connection_to_session := <[id := session]> (rg_connection_to_session r) |}, lc.2).

Definition registry_activate (r : Registry) (id : string)
    : result ConnError (Registry * ConnectionSnapshot) :=
  lc ← lifecycle_activate (rg_lifecycle r) id None;
  mret (with_lifecycle r lc.1, lc.2).

Definition registry_heartbeat (r : Registry) (id : string) (now : Z)
    : result ConnError (Registry * ConnectionSnapshot) :=
  lc ← lifecycle_heartbeat (rg_lifecycle r) id now;
  mret (with_lifecycle r lc.1, lc.2).

Definition registry_disconnect (r : Registry) (id : string)
    : result ConnError (Registry * ConnectionSnapshot) :=
  lc ← lifecycle_disconnect (rg_lifecycle r) id;
  mret (with_sockets (with_lifecycle r lc.1) (delete id (rg_sockets r)), lc.2).

Definition unregister (r : Registry) (id : string)
    : result ConnError (Registry * ConnectionSnapshot) :=
  lc ← lifecycle_remove (rg_lifecycle r) id;
  mret ({| rg_lifecycle := lc.1; rg_sockets := delete id (rg_sockets r);
           rg_session_to_connection :=
             match rg_connection_to_session r !! id with
             | Some session => delete session (rg_session_to_connection r)
             | None => rg_session_to_connection r
             end;
           rg_connection_to_session := delete id (rg_connection_to_session r) |}, lc.2).

Definition get_socket (r : Registry) (identifier : string) : option string :=
  match rg_sockets r !! identifier with
  | Some s => Some s
  | None => rg_sockets r !! default identifier (rg_session_to_connection r !! identifier)
  end.

Definition require_active_socket (r : Registry) (id : string) : result ConnError string :=
  active ← is_active (rg_lifecycle r) id;
  _ ← guard_err active ConnectionNotActive;
  match rg_sockets r !! id with Some s => Ok s | None => Err ConnectionSocketUnavailable end.

Definition registry_evict_stale (r : Registry) (now : Z) : Registry * gset string :=
  let (l, stale) := lifecycle_evict_stale (rg_lifecycle r) now in
  (with_sockets (with_lifecycle r l) (filter (fun kv => kv.1 ∉ stale) (rg_sockets r)), stale).

Definition resolve_connection_id (r : Registry) (session : string) : option string :=
  rg_session_to_connection r !! session.

(** The constructor of the registry. *)
Definition new_registry (stale_after : Z) : result ConnError Registry :=
  l ← new_lifecycle stale_after;
  mret {| rg_lifecycle := l; rg_sockets := ∅; rg_session_to_connection := ∅;
          rg_connection_to_session := ∅ |}.

(** One operation of the registry that succeeded. *)
Inductive registry_step : Registry -> Registry -> Prop :=
  | step_register r session user socket metadata id now r' c :
      registry_register r session user socket metadata id now = Ok (r', c) ->
      registry_step r r'
  | step_activate r id r' c : registry_activate r id = Ok (r', c) -> registry_step r r'
  | step_heartbeat r id now r' c :
      registry_heartbeat r id now = Ok (r', c) -> registry_step r r'
  | step_disconnect r id r' c : registry_disconnect r id = Ok (r', c) -> registry_step r r'
  | step_unregister r id r' c : unregister r id = Ok (r', c) -> registry_step r r'
  | step_evict r now : registry_step r (registry_evict_stale r now).1.

(** ** What the theorems speak of *)

Definition connection (r : Registry) (id : string) : option ConnectionSnapshot :=
  lc_connections (rg_lifecycle r) !! id.

Definition open_state (st : ConnectionState) : bool :=
  match st with REGISTERED | ACTIVE => true | _ => false end.

Definition closed_state (st : ConnectionState) : bool :=
  match st with DISCONNECTED | REMOVED => true | _ => false end.

(** The part of a snapshot no operation changes. *)
Definition same_connection (c c' : ConnectionSnapshot) : Prop :=
  cs_connection_id c' = cs_connection_id c /\ cs_session_id c' = cs_session_id c /\
  cs_user_id c' = cs_user_id c /\ cs_connected_at c' = cs_connected_at c /\
  cs_stale_after c' = cs_stale_after c /\ cs_metadata c' = cs_metadata c.

(** Well-formed registries: the snapshots carry their own id; only a connection that is
    registered or active has a socket; the session of a connection is the one of its snapshot,
    which is not removed; and the connection of a session is one of that session.  A connection
    may have a session whose entry is gone, or names a newer connection. *)
Record registry_ok (r : Registry) : Prop := {
  ok_ids id c : connection r id = Some c -> cs_connection_id c = id;
  ok_sockets id s : rg_sockets r !! id = Some s ->
    exists c, connection r id = Some c /\ open_state (cs_state c) = true;
  ok_sessions id session : rg_connection_to_session r !! id = Some session ->
    exists c, connection r id = Some c /\ cs_session_id c = session /\ cs_state c <> REMOVED;
  ok_index session id : rg_session_to_connection r !! session = Some id ->
    rg_connection_to_session r !! id = Some session
}.

(** ** Lemmas *)

(** A transition of a connection: the same snapshot, or a legal change of state. *)
Definition moves (c c' : ConnectionSnapshot) : Prop :=
  same_connection c c' /\
  (cs_state c' = cs_state c \/ allowed_transition (cs_state c) (cs_state c') = true).

Lemma same_connection_refl c : same_connection c c.
Proof. by unfold same_connection. Qed.

Lemma same_connection_trans a b c :
  same_connection a b -> same_connection b c -> same_connection a c.
Proof. unfold same_connection. naive_solver congruence. Qed.

Lemma set_state_same c st hb : same_connection c (set_state c st hb).
Proof. by unfold same_connection. Qed.

#[export] Hint Resolve same_connection_refl set_state_same : assistant.

Lemma checked_transition_ok c st c' :
  checked_transition c st = Ok c' -> moves c c' /\ cs_state c' = st.
Proof.
  unfold checked_transition, moves. case_bool_decide as E.
  - intros [= <-]. auto with assistant.
  - intros [Ha [= <-]]%guard_bind_ok. simpl. auto with assistant.
Qed.

Lemma lookup_connection_ok l id c :
  lookup_connection l id = Ok c -> lc_connections l !! id = Some c.
Proof. unfold lookup_connection. destruct (_ !! _); naive_solver. Qed.

Lemma lifecycle_transition_ok l id st now l' c' :
  lifecycle_transition l id st now = Ok (l', c') ->
  exists c, lc_connections l !! id = Some c /\ l' = put l id c' /\ moves c c' /\ cs_state c' = st.
Proof.
  unfold lifecycle_transition. intros (c & Hc%lookup_connection_ok & H)%bind_ok.
  apply bind_ok in H as (c1 & [[Hs Hm] <-]%checked_transition_ok & H).
  exists c. destruct now as [t|]; [case_bool_decide|]; injection H as <- <-; by split_and!.
Qed.

Lemma lifecycle_heartbeat_ok l id now l' c' :
  lifecycle_heartbeat l id now = Ok (l', c') ->
  exists c, lc_connections l !! id = Some c /\ l' = put l id c' /\ moves c c' /\
    cs_state c' = ACTIVE /\ closed_state (cs_state c) = false.
Proof.
  unfold lifecycle_heartbeat. intros (c & Hc%lookup_connection_ok & H)%bind_ok.
  apply guard_bind_ok in H as [Hst H]. injection H as <- <-. exists c.
  apply orb_true_iff in Hst as [Hst|Hst]; breflect; rw Hst; split_and!; try done;
    unfold moves; rw Hst; auto with assistant.
Qed.

(** The connections of a registry after each kind of step: one moves, or one is added, or
    the expired ones become stale. *)
Lemma put_lookup l id c id' :
  lc_connections (put l id c) !! id' =
  if bool_decide (id' = id) then Some c else lc_connections l !! id'.
Proof.
  simpl. case_bool_decide; [subst; apply lookup_insert_eq|by apply lookup_insert_ne].
Qed.

Lemma evict_lookup r now id :
  connection (registry_evict_stale r now).1 id =
  (fun c => if expired now c then set_state c STALE (cs_last_heartbeat_at c) else c)
    <$> connection r id.
Proof. unfold connection, registry_evict_stale. simpl. by rw lookup_fmap. Qed.

Lemma evict_moves now c :
  moves c (if expired now c then set_state c STALE (cs_last_heartbeat_at c) else c).
Proof.
  unfold moves. destruct (expired now c) eqn:E; [|auto with assistant].
  unfold expired in E. breflect. simpl. rw H. auto with assistant.
Qed.

Lemma moves_refl c : moves c c.
Proof. unfold moves. auto with assistant. Qed.

(** No step loses or renames a connection, and states only move along the table. *)
Lemma registry_step_moves r r' id c :
  registry_step r r' -> connection r id = Some c ->
  exists c', connection r' id = Some c' /\ moves c c'.
Proof.
  unfold connection. intros Hs Hc.
  assert (Hput : forall l id' c0 c1, lc_connections (rg_lifecycle r) !! id' = Some c0 ->
    l = put (rg_lifecycle r) id' c1 -> moves c0 c1 ->
    exists c', lc_connections l !! id = Some c' /\ moves c c').
  { intros l id' c0 c1 H0 -> Hm. rw put_lookup. case_bool_decide; [subst; simplify_eq; eauto|].
    eauto using moves_refl. }
  destruct Hs as [r session user socket metadata id' now r' c0 H|r id' r' c0 H|r id' now r' c0 H
                 |r id' r' c0 H|r id' r' c0 H|r now];
    [|apply bind_ok in H as ([l c1] & Hl & [= <- <-])..|]; simpl.
  - apply bind_ok in H as ([l c1] & Hl & [= <- <-]). unfold lifecycle_register in Hl. simpl.
    destruct (_ !! id') eqn:E; [done|]. injection Hl as <- <-. rw put_lookup.
    case_bool_decide; [congruence|]. eauto using moves_refl.
  - apply lifecycle_transition_ok in Hl as (c0 & ? & ? & ? & _). eauto.
  - apply lifecycle_heartbeat_ok in Hl as (c0 & ? & ? & ? & _). eauto.
  - apply lifecycle_transition_ok in Hl as (c0 & ? & ? & ? & _). eauto.
  - apply lifecycle_transition_ok in Hl as (c0 & ? & ? & ? & _). eauto.
  - rw lookup_fmap Hc. simpl. eauto using evict_moves.
Qed.

(** A step that moves one connection, and keeps of its socket and index entries what the
    new state allows, keeps the registry well formed. *)
Lemma put_ok r id c c' sockets index sessions :
  registry_ok r -> connection r id = Some c -> moves c c' ->
  sockets ⊆ rg_sockets r -> (is_Some (sockets !! id) -> open_state (cs_state c') = true) ->
  sessions ⊆ rg_connection_to_session r -> (is_Some (sessions !! id) -> cs_state c' <> REMOVED) ->
  (forall session id', index !! session = Some id' -> sessions !! id' = Some session) ->
  registry_ok {| rg_lifecycle := put (rg_lifecycle r) id c'; rg_sockets := sockets;
                 rg_session_to_connection := index; rg_connection_to_session := sessions |}.
Proof.
  intros [Hids Hsock Hsess Hidx] Hc [Hsame _] Hs Ho Hss Hr Hi.
  assert (Hconn : forall id', connection {| rg_lifecycle := put (rg_lifecycle r) id c';
      rg_sockets := sockets; rg_session_to_connection := index;
      rg_connection_to_session := sessions |} id' =
    if bool_decide (id' = id) then Some c' else connection r id').
  { intros id'. apply put_lookup. }
  destruct Hsame as (Eid & Esess & _).
  split; [intros id' c1|intros id' s; simpl|intros id' session; simpl|by apply Hi];
    rw Hconn; case_bool_decide; subst; try (by apply Hids).
  - intros [= <-]. rw Eid. by apply Hids.
  - intros Hin. exists c'. split; [done|]. apply Ho. by eexists.
  - intros Hin. eapply Hsock, lookup_weaken; eauto.
  - intros Hin. exists c'. split; [done|]. split; [|apply Hr; by eexists].
    rw Esess. destruct (Hsess id session) as (c1 & Hc1 & Hs1 & _); [by eapply lookup_weaken|].
    congruence.
  - intros Hin. eapply Hsess, lookup_weaken; eauto.
Qed.

Lemma register_ok r session user socket metadata id now r' c :
  registry_ok r -> registry_register r session user socket metadata id now = Ok (r', c) ->
  registry_ok r'.
Proof.
  intros [Hids Hsock Hsess Hidx] ([l c1] & Hl & [= <- <-])%bind_ok. unfold lifecycle_register in Hl.
  destruct (_ !! id) eqn:E; [done|]. injection Hl as <- <-. simpl.
  set (c := {| cs_connection_id := id |}).
  match goal with |- registry_ok ?x => set (r1 := x) end.
  assert (Hconn : forall id', connection r1 id' =
    if bool_decide (id' = id) then Some c else connection r id') by (intros; apply put_lookup).
  split.
  - intros id' c1. rw Hconn. case_bool_decide; [by subst; intros [= <-]|apply Hids].
  - intros id' s. rw Hconn. case_bool_decide; [by eexists|]. intros Hs. apply (Hsock id' s).
    simpl in Hs. destruct socket; [by rw lookup_insert_ne in Hs|done].
  - intros id' s. rw Hconn. simpl. rw lookup_insert_Some.
    intros [[<- <-]|[Hne Hs]]; [rw bool_decide_true //; by exists c|].
    rw bool_decide_false //. by apply Hsess.
  - intros s id'. simpl. rw lookup_insert_Some.
    intros [[<- <-]|[Hne Hs]]; [apply lookup_insert_eq|]. rw lookup_insert_ne; [|by apply Hidx].
    intros <-. destruct (Hsess _ _ (Hidx _ _ Hs)) as (c1 & Hc1 & _). unfold connection in Hc1.
    congruence.
Qed.

Lemma evict_ok r now : registry_ok r -> registry_ok (registry_evict_stale r now).1.
Proof.
  intros [Hids Hsock Hsess Hidx]. split; try apply Hidx.
  - intros id c. rw evict_lookup. intros (c0 & Hc & ->)%fmap_Some_1.
    destruct (expired now c0); by apply (Hids id c0).
  - intros id s. rw evict_lookup. simpl. rw map_lookup_filter_Some. simpl. intros [Hs Hn].
    destruct (Hsock id s Hs) as (c & Hc & Ho). rw Hc. simpl. exists c. split; [|done].
    destruct (expired now c) eqn:E; [|done]. destruct Hn.
    apply elem_of_dom. exists c. by apply map_lookup_filter_Some.
  - intros id s. rw evict_lookup. simpl. intros Hs. destruct (Hsess id s Hs) as (c & Hc & <- & Hr).
    rw Hc. simpl. eexists. split; [done|]. by destruct (expired now c).
Qed.

Lemma unregister_index r id session id' :
  registry_ok r ->
  (match rg_connection_to_session r !! id with
   | Some s => delete s (rg_session_to_connection r)
   | None => rg_session_to_connection r
   end) !! session = Some id' ->
  delete id (rg_connection_to_session r) !! id' = Some session.
Proof.
  intros H Hs. assert (Hs' : rg_session_to_connection r !! session = Some id').
  { destruct (_ !! id); [|done]. by apply lookup_delete_Some in Hs as [_ ?]. }
  pose proof (ok_index _ H _ _ Hs') as Hi. rw lookup_delete_Some. split; [|done].
  intros <-. rw Hi lookup_delete_eq // in Hs.
Qed.

Lemma registry_step_ok r r' : registry_ok r -> registry_step r r' -> registry_ok r'.
Proof.
  intros H Hs.
  destruct Hs as [r session user socket metadata id now r' c Hr|r id r' c Hr|r id now r' c Hr
                 |r id r' c Hr|r id r' c Hr|r now]; [by eapply register_ok|..|by apply evict_ok];
    apply bind_ok in Hr as ([l c1] & Hl & [= <- <-]);
    [apply lifecycle_transition_ok in Hl as (c0 & Hc & -> & Hm & Hst)
    |apply lifecycle_heartbeat_ok in Hl as (c0 & Hc & -> & Hm & Hst & _)
    |apply lifecycle_transition_ok in Hl as (c0 & Hc & -> & Hm & Hst)..];
    eapply put_ok; eauto; rw ?Hst ?lookup_delete_eq; simpl;
    try (by intros []); try apply delete_subseteq; try apply (ok_index _ H); try done.
  by intros; apply unregister_index.
Qed.

(** Reachable states of a connection. *)
Lemma registry_steps_moves r r' id c :
  rtc registry_step r r' -> connection r id = Some c ->
  exists c', connection r' id = Some c' /\ same_connection c c' /\
    rtc (fun a b => allowed_transition a b = true) (cs_state c) (cs_state c').
Proof.
  intros Hs. revert c. induction Hs as [r|r r1 r' Hstep _ IH]; intros c Hc.
  { exists c. split_and!; auto using rtc_refl with assistant. }
  destruct (registry_step_moves _ _ _ _ Hstep Hc) as (c1 & Hc1 & Hsame & Hm).
  destruct (IH c1 Hc1) as (c' & Hc' & Hsame' & Hrtc). exists c'. split; [done|]. split.
  - by eapply same_connection_trans.
  - destruct Hm as [<-|Hm]; [done|]. by eapply rtc_l.
Qed.

Lemma closed_stays a b :
  closed_state a = true -> rtc (fun a b => allowed_transition a b = true) a b ->
  closed_state b = true.
Proof. intros Ha. apply (rtc_invariant _ (fun st => closed_state st = true)); [by intros [] []|done]. Qed.

Lemma new_registry_ok stale r : new_registry stale = Ok r -> registry_ok r.
Proof.
  unfold new_registry, new_lifecycle. intros (l & Hl & [= <-])%bind_ok.
  apply guard_bind_ok in Hl as [_ [= <-]]. split; unfold connection; simpl; intros *;
    by rw lookup_empty.
Qed.

(** ** Theorems *)

(** C39 registry_wf: whatever operations have run since the registry was created, each
    snapshot is filed under its own connection id, only REGISTERED or ACTIVE connections
    have a socket, the session recorded for a connection is the one of its snapshot, which is
    not REMOVED, and the connection that a session resolves to is recorded for that session.
    (The converse of the last does not hold: a connection may be recorded for a session that
    resolves to a newer connection, or to none.) *)
Theorem registry_wf stale r r' :
  new_registry stale = Ok r -> rtc registry_step r r' -> registry_ok r'.
Proof.
  intros Hn%new_registry_ok. apply rtc_invariant; [apply registry_step_ok|done].
Qed.

(** [connection_lifecycle]: once registered, a connection id keeps its session, user,
    connect time, staleness bound and metadata, it can never be registered again, and its
    state only moves along the transition table; a DISCONNECTED or REMOVED connection never
    becomes usable for an invocation again. *)
Theorem connection_lifecycle r r' id c :
  connection r id = Some c -> rtc registry_step r r' ->
  exists c', connection r' id = Some c' /\ same_connection c c' /\
    rtc (fun a b => allowed_transition a b = true) (cs_state c) (cs_state c') /\
    (forall session user socket metadata now,
       registry_register r' session user socket metadata id now = Err ConnectionIdReused) /\
    (closed_state (cs_state c) = true ->
       require_active_socket r' id = Err ConnectionNotActive).
Proof.
  intros Hc Hs. destruct (registry_steps_moves _ _ _ _ Hs Hc) as (c' & Hc' & Hsame & Hrtc).
  exists c'. split_and!; try done; unfold connection in Hc'.
  - intros *. unfold registry_register, lifecycle_register. by rw Hc'.
  - intros Hcl. pose proof (closed_stays _ _ Hcl Hrtc).
    unfold require_active_socket, is_active, lookup_connection. rw Hc'. simpl.
    by destruct (cs_state c').
Qed.

(** ** Examples *)

Definition empty_registry : Registry :=
  {| rg_lifecycle := {| lc_stale_after := 90; lc_connections := ∅ |}; rg_sockets := ∅;
     rg_session_to_connection := ∅; rg_connection_to_session := ∅ |}.

Definition state_of {A} (d : A) (r : result ConnError (A * ConnectionSnapshot)) : A :=
  match r with Ok x => x.1 | Err _ => d end.

(** One session with two connections, the first active. *)
Definition two_connections : Registry :=
  let r1 := state_of empty_registry
    (registry_register empty_registry "s" "u" (Some "socket1") [] "c1" 0) in
  let r2 := state_of r1 (registry_activate r1 "c1") in
  state_of r2 (registry_register r2 "s" "u" (Some "socket2") [] "c2" 10).

Lemma two_connections_reachable : rtc registry_step empty_registry two_connections.
Proof.
  eapply rtc_l; [by eapply (step_register _ "s" "u" (Some "socket1") [] "c1" 0)|].
  eapply rtc_l; [by eapply (step_activate _ "c1")|].
  apply rtc_once. by eapply (step_register _ "s" "u" (Some "socket2") [] "c2" 10).
Qed.

Lemma registry_wf_witness :
  registry_ok two_connections /\ bool_decide (is_Some (rg_sockets two_connections !! "c1")) = true.
Proof.
  split; [|by vm_compute].
  exact (registry_wf 90 empty_registry two_connections eq_refl two_connections_reachable).
Defined.

(** A heartbeat makes an evicted connection ACTIVE again, without a socket. *)
Definition revived : Registry :=
  let r1 := (registry_evict_stale two_connections 100).1 in
  state_of r1 (registry_heartbeat r1 "c1" 101).

Lemma revived_reachable : rtc registry_step two_connections revived.
Proof.
  eapply rtc_l; [apply (step_evict _ 100)|]. apply rtc_once. by eapply (step_heartbeat _ "c1" 101).
Qed.

Lemma connection_lifecycle_witness :
  exists c', connection revived "c1" = Some c' /\ cs_state c' = ACTIVE /\ cs_session_id c' = "s".
Proof.
  assert (Hc : exists c, connection two_connections "c1" = Some c /\ cs_session_id c = "s").
  { by eexists. }
  destruct Hc as (c & Hc & Hsess).
  destruct (connection_lifecycle _ _ _ _ Hc revived_reachable) as (c' & Hc' & (_ & E & _) & _).
  exists c'. split_and!; [exact Hc'| |congruence].
  assert (Ha : cs_state <$> connection revived "c1" = Some ACTIVE) by reflexivity.
  rw Hc' in Ha. by injection Ha.
Defined.

Example revived_without_socket :
  is_active (rg_lifecycle revived) "c1" = Ok true /\
  require_active_socket revived "c1" = Err ConnectionSocketUnavailable.
Proof. by vm_compute. Qed.

(** Unregistering the older connection of a session also drops the session's index entry,
    which names the newer connection: the session no longer resolves. *)
Example unregister_drops_newer_connection :
  resolve_connection_id two_connections "s" = Some "c2" /\
  let r := state_of two_connections (unregister two_connections "c1") in
  resolve_connection_id r "s" = None /\ get_socket r "s" = None /\
  get_socket r "c2" = Some "socket2".
Proof. by vm_compute. Qed.
