(* ===== verification/Connection.v ===== *)
(** * Connections and realtime invocations
    (src/se/src/runtimes/connection/: contracts.py, lifecycle.py, registry.py,
    multiplexer.py, protocol.py, realtime.py and runtime.py)

    The connection registry tracks transport connections and their sockets; the two
    multiplexers correlate pending remote invocations with asyncio futures.  Methods that
    do not suspend are one step ([async with] on the multiplexer's lock never suspends:
    no holder awaits).  [invoke] and [reconcile] suspend while they send and while they
    wait, so a call is a record with a phase, and a trace of [ConnEvent]s is any
    interleaving of calls, inbound messages and connection events.  A future is an index
    into the list of futures.  Clock readings are integers; message payloads are JSON
    objects; the sockets are opaque names.  The registration service of the capability
    runtime and logging are not modelled. *)

From S2P Require Import Prelude Canonical ConnectionRegistry.

(** ** protocol.py *)

Inductive MessageType :=
  | connection_register | connection_registered | connection_heartbeat | connection_state
  | capability_register | capability_registered | capability_unregister
  | capability_invoke | capability_progress | capability_result | capability_error
  | capability_cancel | capability_cancelled | capability_reconcile
  | capability_reconciliation
  | assistant_delta | assistant_completed | assistant_error
  | execution_waiting | execution_resume | execution_resume_preflight
  | execution_resume_accepted | execution_resume_rejected | execution_resume_failed.

#[global] Instance MessageType_eq_dec : EqDecision MessageType.
Proof. solve_decision. Defined.

Record RealtimeEnvelope := {
  env_type : MessageType;
  env_message_id : string;
  env_session_id : option string;
  env_connection_id : option string;
  env_execution_id : option string;
  env_invocation_id : option string;
  env_payload : list (string * json)
}.

Definition invocation_required (t : MessageType) : bool :=
  match t with
  | capability_invoke | capability_progress | capability_result | capability_error
  | capability_cancel | capability_cancelled | capability_reconcile
  | capability_reconciliation => true
  | _ => false
  end.

Definition connection_required (t : MessageType) : bool :=
  invocation_required t ||
  match t with
  | connection_register | capability_register | capability_registered | execution_waiting
  | execution_resume | execution_resume_preflight | execution_resume_accepted
  | execution_resume_rejected | execution_resume_failed => true
  | _ => false
  end.

Definition truthy_opt (s : option string) : bool := truthy (default "" s).

(** [validate_correlation_contract]. *)
Definition envelope_valid (e : RealtimeEnvelope) : bool :=
  negb (invocation_required (env_type e) && negb (truthy_opt (env_invocation_id e))) &&
  negb (connection_required (env_type e) && negb (truthy_opt (env_connection_id e))).

(** ** ConnectionMultiplexer *)

Inductive CallFailure :=
  | RemoteConnectionLost (connection_id invocation_id : string)
  | RemoteCapabilityError (payload : list (string * json))
  | DisconnectError.

Inductive FutureState :=
  | FPending
  | FResult (v : json)
  | FException (e : CallFailure)
  | FCancelled.

Definition done (f : FutureState) : bool := match f with FPending => false | _ => true end.

(** [_pending]: the connection an invocation is bound to and its future. *)
Abbreviation Mux := (gmap string (option string * nat)).
Abbreviation Futures := (list FutureState).

Definition mux_register (m : Mux) (fs : Futures) (inv : string) (conn : option string)
    : result ConnError (Mux * Futures * nat) :=
  match m !! inv with
  | Some _ => Err DuplicateInvocation
  | None => Ok (<[inv := (conn, length fs)]> m, fs ++ [FPending], length fs)
  end.

(** The locked part of [resolve], [reject] and [cancel]: pop the entry unless it is bound
    to another connection. *)
Definition mux_pop (m : Mux) (inv : string) (conn : option string) : Mux * option nat :=
  match m !! inv with
  | None => (m, None)
  | Some (bound, f) =>
      match conn with
      | Some _ => if bool_decide (bound = conn) then (delete inv m, Some f) else (m, None)
      | None => (delete inv m, Some f)
      end
  end.

(** [set_result], [set_exception] or [cancel] on a future that is not done. *)
Definition settle (fs : Futures) (f : option nat) (st : FutureState) : Futures * bool :=
  match f with
  | None => (fs, false)
  | Some f =>
      match fs !! f with
      | Some FPending => (<[f := st]> fs, true)
      | _ => (fs, false)
      end
  end.

(** [resolve], [reject] and [cancel] differ in what they set. *)
Definition mux_finish (m : Mux) (fs : Futures) (inv : string) (conn : option string)
    (st : FutureState) : Mux * Futures * bool :=
  let (m', f) := mux_pop m inv conn in
  let (fs', b) := settle fs f st in
  (m', fs', b).

Definition mux_resolve m fs inv v conn := mux_finish m fs inv conn (FResult v).
Definition mux_reject m fs inv e conn := mux_finish m fs inv conn (FException e).
Definition mux_cancel m fs inv conn := mux_finish m fs inv conn FCancelled.

Definition bound_to (conn : string) (e : string * (option string * nat)) : Prop :=
  e.2.1 = Some conn.

#[global] Instance bound_to_dec conn e : Decision (bound_to conn e).
Proof. unfold bound_to. apply _. Defined.

(** [fail_connection]; without an explicit error each future gets its own
    [RemoteConnectionLost]. *)
Definition fail_connection (m : Mux) (fs : Futures) (conn : string) (error : option CallFailure)
    : Mux * Futures :=
  let mine := map_to_list (filter (bound_to conn) m) in
  (filter (fun e => ~ bound_to conn e) m,
   fold_left (fun fs e =>
     (settle fs (Some e.2.2) (FException (default (RemoteConnectionLost conn e.1) error))).1)
     mine fs).

Definition fail_all (m : Mux) (fs : Futures) (error : CallFailure) : Mux * Futures :=
  (∅, fold_left (fun fs e => (settle fs (Some e.2.2) (FException error)).1)
        (map_to_list m) fs).

Definition pending_count (m : Mux) (conn : option string) : nat :=
  match conn with
  | None => size m
  | Some c => size (filter (bound_to c) m)
  end.

Definition connection_for_invocation (m : Mux) (inv : string) : option string :=
  match m !! inv with Some (c, _) => c | None => None end.

(** ** RealtimeMultiplexer *)

Definition reconciliation_correlation_id (invocation_id connection_id : string) : string :=
  String.append (pretty (String.length connection_id))
    (String ":"%char (String.append connection_id invocation_id)).

Inductive CallKind := Execution | Reconciliation.

#[global] Instance CallKind_eq_dec : EqDecision CallKind.
Proof. solve_decision. Defined.

Inductive CallOutcome :=
  | CallReturned (v : json)
  | CallRaised (e : CallFailure)
  | CallTimedOut
  | CallCancelled.

Inductive CallPhase :=
  | Sending
  | Awaiting
  | SendingCancel (o : CallOutcome)      (* capability.cancel is being sent *)
  | Ended (o : CallOutcome).

Record Call := {
  cl_kind : CallKind;
  cl_connection : string;
  cl_invocation : string;
  cl_phase : CallPhase
}.

(** The correlation key of a call in its multiplexer. *)
Definition call_key (c : Call) : string :=
  match cl_kind c with
  | Execution => cl_invocation c
  | Reconciliation => reconciliation_correlation_id (cl_invocation c) (cl_connection c)
  end.

(** Calls and futures have the same index.  [rt_wire] is what was sent to sockets. *)
Record Realtime := {
  rt_registry : Registry;
  rt_exec : Mux;
  rt_recon : Mux;
  rt_futures : Futures;
  rt_calls : list Call;
  rt_wire : list (string * MessageType * string)
}.

Definition mux_of (rt : Realtime) (k : CallKind) : Mux :=
  match k with Execution => rt_exec rt | Reconciliation => rt_recon rt end.

Definition with_mux (rt : Realtime) (k : CallKind) (m : Mux) (fs : Futures) : Realtime :=
  {| rt_registry := rt_registry rt;
     rt_exec := match k with Execution => m | Reconciliation => rt_exec rt end;
     rt_recon := match k with Execution => rt_recon rt | Reconciliation => m end;
     rt_futures := fs; rt_calls := rt_calls rt; rt_wire := rt_wire rt |}.

Definition with_registry (rt : Realtime) (r : Registry) : Realtime :=
  {| rt_registry := r; rt_exec := rt_exec rt; rt_recon := rt_recon rt;
     rt_futures := rt_futures rt; rt_calls := rt_calls rt; rt_wire := rt_wire rt |}.

Definition set_phase (c : Call) (p : CallPhase) : Call :=
  {| cl_kind := cl_kind c; cl_connection := cl_connection c;
     cl_invocation := cl_invocation c; cl_phase := p |}.

Definition with_phase (rt : Realtime) (f : nat) (p : CallPhase) : Realtime :=
  {| rt_registry := rt_registry rt; rt_exec := rt_exec rt; rt_recon := rt_recon rt;
     rt_futures := rt_futures rt;
     rt_calls := alter (fun c => set_phase c p) f (rt_calls rt); rt_wire := rt_wire rt |}.

Definition sends (rt : Realtime) (conn : string) (t : MessageType) (inv : string) : Realtime :=
  {| rt_registry := rt_registry rt; rt_exec := rt_exec rt; rt_recon := rt_recon rt;
     rt_futures := rt_futures rt; rt_calls := rt_calls rt;
     rt_wire := rt_wire rt ++ [(conn, t, inv)] |}.

(** The start of [invoke] and [reconcile], up to the send. *)
Definition start_call (rt : Realtime) (k : CallKind) (e : RealtimeEnvelope) (timeout : Z)
    : result ConnError (Realtime * nat) :=
  _ ← guard_err (bool_decide (env_type e = match k with
                   | Execution => capability_invoke | Reconciliation => capability_reconcile
                   end)) ConnValueError;
  _ ← guard_err (truthy_opt (env_connection_id e)) ConnValueError;
  _ ← guard_err (truthy_opt (env_invocation_id e)) ConnValueError;
  _ ← guard_err (0 <? timeout) ConnTimeout;
  let conn := default "" (env_connection_id e) in
  let c := {| cl_kind := k; cl_connection := conn;
              cl_invocation := default "" (env_invocation_id e); cl_phase := Sending |} in
  _ ← require_active_socket (rt_registry rt) conn;
  reg ← mux_register (mux_of rt k) (rt_futures rt) (call_key c) (Some conn);
  let '(m, fs, f) := reg in
  let rt' := with_mux rt k m fs in
  mret ({| rt_registry := rt_registry rt'; rt_exec := rt_exec rt'; rt_recon := rt_recon rt';
           rt_futures := rt_futures rt'; rt_calls := rt_calls rt' ++ [c];
           rt_wire := rt_wire rt' |}, f).

(** [_abandon_pending], then the exception leaves the call. *)
Definition abandon (rt : Realtime) (f : nat) (c : Call) (o : CallOutcome) : Realtime :=
  let '(m, fs, _) := mux_cancel (mux_of rt (cl_kind c)) (rt_futures rt) (call_key c)
                       (Some (cl_connection c)) in
  with_phase (with_mux rt (cl_kind c) m (settle fs (Some f) FCancelled).1) f (Ended o).

(** [cancel] up to its send: the invocation is cancelled whatever connection it is bound
    to; the boolean says whether capability.cancel is sent next. *)
Definition cancel_remote (rt : Realtime) (conn inv : string) : Realtime * bool :=
  let '(m, fs, cancelled) := mux_cancel (rt_exec rt) (rt_futures rt) inv None in
  (with_mux rt Execution m fs,
   cancelled && bool_decide (is_Some (get_socket (rt_registry rt) conn)) &&
   match is_active (rt_registry rt).(rg_lifecycle) conn with Ok b => b | Err _ => false end).

(** Timeout or cancellation of a waiting call: [_cancel_remote_and_abandon] for an
    execution, [_abandon_pending] for a reconciliation. *)
Definition quit_call (rt : Realtime) (f : nat) (c : Call) (o : CallOutcome) : Realtime :=
  match cl_kind c with
  | Reconciliation => abandon rt f c o
  | Execution =>
      let (rt', sending) := cancel_remote rt (cl_connection c) (cl_invocation c) in
      if sending then with_phase rt' f (SendingCancel o) else abandon rt' f c o
  end.

(** ** Inbound messages and disconnection *)

Definition correlated (t : MessageType) : bool :=
  match t with
  | capability_result | capability_error | capability_cancelled | capability_progress
  | capability_reconciliation => true
  | _ => false
  end.

(** [handle_inbound] on an envelope from the transport [conn]; [has_progress] says whether
    a progress handler is installed. *)
Definition handle_inbound (rt : Realtime) (conn : string) (e : RealtimeEnvelope) (now : Z)
    (has_progress : bool) : result ConnError (Realtime * bool) :=
  _ ← guard_err (negb (correlated (env_type e) &&
                       negb (bool_decide (env_connection_id e = Some conn)))) ConnValueError;
  let inv := default "" (env_invocation_id e) in
  match env_type e with
  | capability_result =>
      let '(m, fs, b) := mux_resolve (rt_exec rt) (rt_futures rt) inv
                           (default JNull (payload_get (env_payload e) "output")) (Some conn) in
      mret (with_mux rt Execution m fs, b)
  | capability_error =>
      let '(m, fs, b) := mux_reject (rt_exec rt) (rt_futures rt) inv
                           (RemoteCapabilityError (env_payload e)) (Some conn) in
      mret (with_mux rt Execution m fs, b)
  | capability_cancelled =>
      let '(m, fs, b) := mux_cancel (rt_exec rt) (rt_futures rt) inv (Some conn) in
      mret (with_mux rt Execution m fs, b)
  | capability_reconciliation =>
      let '(m, fs, b) := mux_resolve (rt_recon rt) (rt_futures rt)
                           (reconciliation_correlation_id inv conn)
                           (JObj (env_payload e)) (Some conn) in
      mret (with_mux rt Reconciliation m fs, b)
  | capability_progress =>
      mret (rt, has_progress &&
                bool_decide (connection_for_invocation (rt_exec rt) inv = Some conn))
  | connection_heartbeat =>
      r ← registry_heartbeat (rt_registry rt) conn now;
      mret (with_registry rt r.1, true)
  | _ => mret (rt, false)
  end.

(** [RealtimeMultiplexer.disconnect]. *)
Definition realtime_disconnect (rt : Realtime) (conn : string) (error : option CallFailure)
    : Realtime :=
  let (m, fs) := fail_connection (rt_exec rt) (rt_futures rt) conn error in
  let rt := with_mux rt Execution m fs in
  let (m, fs) := fail_connection (rt_recon rt) (rt_futures rt) conn error in
  with_mux rt Reconciliation m fs.

(** [ConnectionRuntime.disconnect_connection]. *)
Definition disconnect_connection (rt : Realtime) (conn : string) : result ConnError Realtime :=
  r ← registry_disconnect (rt_registry rt) conn;
  mret (realtime_disconnect (with_registry rt r.1) conn None).

(** ** Traces *)

Inductive ConnEvent :=
  | EvRegister (session user : string) (socket : option string)
      (metadata : list (string * json)) (id : string) (now : Z)
  | EvActivate (id : string)
  | EvHeartbeat (id : string) (now : Z)
  | EvDisconnect (id : string)
  | EvUnregister (id : string)
  | EvEvict (now : Z)
  | EvCall (k : CallKind) (e : RealtimeEnvelope) (timeout : Z)
  | EvSent (f : nat)
  | EvSendFailed (f : nat)
  | EvSendCancelled (f : nat)
  | EvTimeout (f : nat)
  | EvCallerCancelled (f : nat)
  | EvCancelSent (f : nat) (delivered : bool)
  | EvCancelInterrupted (f : nat)
  | EvReturn (f : nat)
  | EvCancelRequest (conn inv : string) (delivered : bool)
  | EvInbound (conn : string) (e : RealtimeEnvelope) (now : Z).

Definition or_keep {A} (rt : Realtime) (r : result ConnError A) (f : A -> Realtime) : Realtime :=
  match r with Ok a => f a | Err _ => rt end.

(** The step of a call at its current phase. *)
Definition call_step (rt : Realtime) (f : nat) (c : Call) (ev : ConnEvent) : Realtime :=
  let wire_type := match cl_kind c with
                   | Execution => capability_invoke | Reconciliation => capability_reconcile end in
  match ev, cl_phase c with
  | EvSent _, Sending =>
      with_phase (sends rt (cl_connection c) wire_type (cl_invocation c)) f Awaiting
  | EvSendFailed _, Sending =>
      abandon rt f c (CallRaised (RemoteConnectionLost (cl_connection c) (cl_invocation c)))
  | EvSendCancelled _, Sending => abandon rt f c CallCancelled
  | EvTimeout _, Awaiting => quit_call rt f c CallTimedOut
  | EvCallerCancelled _, Awaiting => quit_call rt f c CallCancelled
  | EvCancelSent _ delivered, SendingCancel o =>
      let rt' := if delivered
                 then sends rt (cl_connection c) capability_cancel (cl_invocation c) else rt in
      abandon rt' f c o
  | EvCancelInterrupted _, SendingCancel _ => abandon rt f c CallCancelled
  | EvReturn _, Awaiting =>
      match rt_futures rt !! f with
      | Some (FResult v) => with_phase rt f (Ended (CallReturned v))
      | Some (FException x) => with_phase rt f (Ended (CallRaised x))
      | Some FCancelled => quit_call rt f c CallCancelled
      | _ => rt
      end
  | _, _ => rt
  end.

Definition conn_step (rt : Realtime) (ev : ConnEvent) : Realtime :=
  let r := rt_registry rt in
  match ev with
  | EvRegister session user socket metadata id now =>
      or_keep rt (registry_register r session user socket metadata id now)
        (fun x => with_registry rt x.1)
  | EvActivate id => or_keep rt (registry_activate r id) (fun x => with_registry rt x.1)
  | EvHeartbeat id now => or_keep rt (registry_heartbeat r id now) (fun x => with_registry rt x.1)
  | EvDisconnect id => or_keep rt (disconnect_connection rt id) (fun x => x)
  | EvUnregister id => or_keep rt (unregister r id) (fun x => with_registry rt x.1)
  | EvEvict now => with_registry rt (registry_evict_stale r now).1
  | EvCall k e timeout => or_keep rt (start_call rt k e timeout) fst
  | EvSent f | EvSendFailed f | EvSendCancelled f | EvTimeout f | EvCallerCancelled f
  | EvCancelSent f _ | EvCancelInterrupted f | EvReturn f =>
      match rt_calls rt !! f with Some c => call_step rt f c ev | None => rt end
  | EvCancelRequest conn inv delivered =>
      let (rt', sending) := cancel_remote rt conn inv in
      if sending && delivered then sends rt' conn capability_cancel inv else rt'
  | EvInbound conn e now =>
      if envelope_valid e then or_keep rt (handle_inbound rt conn e now false) fst else rt
  end.

(** ** Lemmas *)

(** *** The correlation id is a netstring *)

Fixpoint has_colon (s : string) : bool :=
  match s with
  | EmptyString => false
  | String a s' => bool_decide (a = ":"%char) || has_colon s'
  end.

Lemma pretty_go_no_colon x s : has_colon s = false -> has_colon (pretty_N_go x s) = false.
Proof.
  revert s. induction (N.lt_wf_0 x) as [x _ IH]; intros s Hs.
  assert (x = 0 \/ 0 < x)%N as [->|Hx] by lia; [done|].
  rw pretty_N_go_step //. apply IH; [by apply N.div_lt|]. simpl. rw Hs orb_false_r.
  unfold pretty_N_char. by repeat case_match.
Qed.

Lemma pretty_nat_no_colon (n : nat) : has_colon (pretty n) = false.
Proof.
  unfold pretty, pretty_nat, pretty, pretty_N. case_decide; [done|]. by apply pretty_go_no_colon.
Qed.

Lemma append_colon_inj a a' b b' :
  has_colon a = false -> has_colon a' = false ->
  String.append a (String ":"%char b) = String.append a' (String ":"%char b') ->
  a = a' /\ b = b'.
Proof.
  revert a'. induction a as [|x a IH]; intros [|x' a'] Ha Ha' H; simpl in *.
  - by injection H.
  - injection H as <- _. by rw bool_decide_true in Ha'.
  - injection H as -> _. by rw bool_decide_true in Ha.
  - injection H as <- H. apply orb_false_iff in Ha as [_ Ha], Ha' as [_ Ha'].
    by destruct (IH a' Ha Ha' H) as [-> ->].
Qed.

Lemma append_length_inj a a' b b' :
  String.length a = String.length a' -> String.append a b = String.append a' b' ->
  a = a' /\ b = b'.
Proof.
  revert a'. induction a as [|x a IH]; intros [|x' a'] Hl H; simpl in *; try done.
  injection H as <- H. injection Hl as Hl. by destruct (IH a' Hl H) as [-> ->].
Qed.

Lemma correlation_id_inj inv conn inv' conn' :
  reconciliation_correlation_id inv conn = reconciliation_correlation_id inv' conn' ->
  inv = inv' /\ conn = conn'.
Proof.
  unfold reconciliation_correlation_id. intros H.
  apply append_colon_inj in H as [Hl H]; [|apply pretty_nat_no_colon..].
  apply (inj pretty) in Hl. by apply append_length_inj in H as [-> ->].
Qed.

(** Two open calls of one kind with the same key are the same logical call. *)
Lemma call_key_inj c c' :
  cl_kind c = cl_kind c' -> cl_connection c = cl_connection c' -> call_key c = call_key c' ->
  cl_invocation c = cl_invocation c'.
Proof.
  unfold call_key. intros Hk _ H. rw Hk in H. destruct (cl_kind c'); [done|].
  by apply correlation_id_inj in H as [? _].
Qed.

(** *** Pending entries and unsettled futures *)

(** The call [f] and its state, up to its phase. *)
Definition call_at (rt : Realtime) (f : nat) (k : CallKind) (conn key : string) : Prop :=
  exists c, rt_calls rt !! f = Some c /\ cl_kind c = k /\ cl_connection c = conn /\
    call_key c = key.

(** A multiplexer entry is the unsettled future of the call it was made for, and every
    unsettled future can be found under its key. *)
Record rt_ok (rt : Realtime) : Prop := {
  ok_lengths : length (rt_calls rt) = length (rt_futures rt);
  ok_entry k key bound f : mux_of rt k !! key = Some (bound, f) ->
    rt_futures rt !! f = Some FPending /\ exists conn, bound = Some conn /\ call_at rt f k conn key;
  ok_pending f : rt_futures rt !! f = Some FPending ->
    exists k conn key, call_at rt f k conn key /\ mux_of rt k !! key = Some (Some conn, f)
}.

Lemma settle_none fs st : settle fs None st = (fs, false).
Proof. done. Qed.

Lemma settle_length fs f st : length (settle fs f st).1 = length fs.
Proof. unfold settle. repeat case_match; simpl; rw ?length_insert; done. Qed.

(** Settling changes the future if it was pending, and no other. *)
Lemma settle_same fs f st :
  fs !! f = Some FPending -> (settle fs (Some f) st).1 !! f = Some st.
Proof.
  intros E. unfold settle. rw E. simpl. apply list_lookup_insert_eq. by eapply lookup_lt_Some.
Qed.

Lemma settle_other fs f st g : g <> f -> (settle fs (Some f) st).1 !! g = fs !! g.
Proof. intros H. unfold settle. repeat case_match; simpl; try done. by apply list_lookup_insert_ne. Qed.

Lemma settle_done fs f st g s :
  fs !! g = Some s -> s <> FPending -> (settle fs f st).1 !! g = Some s.
Proof.
  intros Hg Hs. unfold settle. destruct f as [f|]; [|done].
  destruct (fs !! f) as [[]|] eqn:E; try done. simpl.
  destruct (decide (g = f)) as [->|]; [congruence|]. by rw list_lookup_insert_ne.
Qed.

(** What is left pending was pending. *)
Lemma settle_pending fs f st g :
  st <> FPending -> (settle fs f st).1 !! g = Some FPending ->
  fs !! g = Some FPending /\ f <> Some g.
Proof.
  intros Hst H. destruct f as [f|]; [|done]. destruct (decide (g = f)) as [->|Hne].
  - destruct (fs !! f) as [[]|] eqn:E; try (by rw (settle_done _ _ _ _ _ E) in H).
    + rw settle_same // in H. congruence.
    + unfold settle in H. rw E /= in H. congruence.
  - rw settle_other // in H. split; [done|]. congruence.
Qed.

(** Popping removes at most the entry of the key, and says which future it held. *)
Lemma mux_pop_spec m key conn :
  match (mux_pop m key conn).2 with
  | Some f => exists bound, m !! key = Some (bound, f) /\ (mux_pop m key conn).1 = delete key m /\
      match conn with Some _ => bound = conn | None => True end
  | None => (mux_pop m key conn).1 = m /\
      match m !! key with Some (bound, _) => conn <> None /\ bound <> conn | None => True end
  end.
Proof.
  unfold mux_pop. destruct (m !! key) as [[bound f]|] eqn:E; simpl; [|done].
  destruct conn as [c|]; simpl; [|eauto].
  case_bool_decide; simpl; [eauto|]. done.
Qed.

(** The calls up to their phases. *)
Definition identities (rt : Realtime) : list Call :=
  map (fun c => set_phase c Sending) (rt_calls rt).

Lemma call_at_identities rt rt' f k conn key :
  identities rt' = identities rt -> call_at rt f k conn key -> call_at rt' f k conn key.
Proof.
  unfold identities. intros H (c & Hc & Hk & Hconn & Hkey).
  assert (Hm : map (fun c => set_phase c Sending) (rt_calls rt') !! f = Some (set_phase c Sending))
    by (rw H list_lookup_fmap Hc //).
  rw list_lookup_fmap in Hm. destruct (rt_calls rt' !! f) as [c'|] eqn:Hc'; [|done].
  injection Hm as E1 E2 E3. exists c'. unfold call_key in *. rw E1 E2 E3. by split_and!.
Qed.

(** An inbound message that may put a result under a key. *)
Definition delivers (ev : ConnEvent) (k : CallKind) (key : string) (conn : option string)
    (v : json) : Prop :=
  exists c e now, ev = EvInbound c e now /\ envelope_valid e = true /\ conn = Some c /\
    env_connection_id e = Some c /\
    match k with
    | Execution => env_type e = capability_result /\ key = default "" (env_invocation_id e) /\
        v = default JNull (payload_get (env_payload e) "output")
    | Reconciliation => env_type e = capability_reconciliation /\
        key = reconciliation_correlation_id (default "" (env_invocation_id e)) c /\
        v = JObj (env_payload e)
    end.

(** The primitive effects a step is made of. *)
Inductive effect (ev : ConnEvent) : Realtime -> Realtime -> Prop :=
  | effect_quiet rt rt' :
      rt_exec rt' = rt_exec rt -> rt_recon rt' = rt_recon rt ->
      rt_futures rt' = rt_futures rt -> identities rt' = identities rt -> effect ev rt rt'
  | effect_finish rt k key conn st :
      st <> FPending -> (forall v, st = FResult v -> delivers ev k key conn v) ->
      let r := mux_finish (mux_of rt k) (rt_futures rt) key conn st in
      effect ev rt (with_mux rt k r.1.1 r.1.2)
  | effect_fail rt k conn error :
      let r := fail_connection (mux_of rt k) (rt_futures rt) conn error in
      effect ev rt (with_mux rt k r.1 r.2)
  | effect_start rt k e timeout rt' f :
      ev = EvCall k e timeout -> start_call rt k e timeout = Ok (rt', f) -> effect ev rt rt'.

(** *** Primitive effects keep the invariant *)

Lemma call_at_fun rt f k conn key k' conn' key' :
  call_at rt f k conn key -> call_at rt f k' conn' key' -> k = k' /\ conn = conn' /\ key = key'.
Proof. intros (c & Hc & <- & <- & <-) (c' & Hc' & <- & <- & <-). by simplify_eq. Qed.

Lemma mux_of_with rt k m fs k' :
  mux_of (with_mux rt k m fs) k' = if bool_decide (k' = k) then m else mux_of rt k'.
Proof. by destruct k, k'. Qed.

(** Removing entries and settling exactly their futures. *)
Lemma remove_ok rt k m fs :
  rt_ok rt -> length fs = length (rt_futures rt) -> m ⊆ mux_of rt k ->
  (forall g, fs !! g = Some FPending <->
     rt_futures rt !! g = Some FPending /\
     ~ exists key bound, mux_of rt k !! key = Some (bound, g) /\ m !! key = None) ->
  rt_ok (with_mux rt k m fs).
Proof.
  intros [HL HE HP] Hlen Hsub Hfs. split; simpl.
  - congruence.
  - intros k' key bound f. rw mux_of_with. intros Hf.
    assert (Hold : mux_of rt k' !! key = Some (bound, f)).
    { case_bool_decide; [subst; by eapply lookup_weaken|done]. }
    destruct (HE _ _ _ _ Hold) as (Hp & conn & -> & Hc). split; [|by exists conn].
    apply Hfs. split; [done|]. intros (key' & bound' & Hin & Hnone).
    destruct (HE _ _ _ _ Hin) as (_ & conn' & -> & Hc').
    destruct (call_at_fun _ _ _ _ _ _ _ _ Hc Hc') as (-> & _ & ->).
    rw bool_decide_true // in Hf. congruence.
  - intros f (Hp & Hn)%Hfs. destruct (HP f Hp) as (k' & conn & key & Hc & Hm).
    exists k', conn, key. split; [done|]. rw mux_of_with. case_bool_decide; [subst|done].
    destruct (m !! key) as [[b g]|] eqn:E.
    + by rw -(lookup_weaken _ _ _ _ E Hsub) Hm.
    + destruct Hn. eauto.
Qed.

Lemma finish_ok rt k key conn st :
  rt_ok rt -> st <> FPending ->
  let r := mux_finish (mux_of rt k) (rt_futures rt) key conn st in
  rt_ok (with_mux rt k r.1.1 r.1.2).
Proof.
  intros H Hst. unfold mux_finish. pose proof (mux_pop_spec (mux_of rt k) key conn) as Hpop.
  destruct (mux_pop (mux_of rt k) key conn) as [m [f|]]; simpl in Hpop.
  - destruct Hpop as (bound & Hf & -> & _).
    destruct (ok_entry _ H _ _ _ _ Hf) as (Hp & conn' & -> & Hc).
    destruct (settle _ _ _) as [fs b] eqn:Es. simpl.
    assert (Hfs : fs = (settle (rt_futures rt) (Some f) st).1) by (by rw Es).
    apply remove_ok; [done|by rw Hfs settle_length|apply delete_subseteq|].
    intros g. rw Hfs. split.
    + intros (Hg & Hne)%settle_pending; [|done]. split; [done|]. intros (key' & b' & Hin & Hnone).
      apply lookup_delete_None in Hnone as [<-|Hnone]; congruence.
    + intros (Hg & Hn). rw settle_other //. intros ->. apply Hn.
      exists key, (Some conn'). split; [done|]. apply lookup_delete_eq.
  - destruct Hpop as [-> _]. simpl. apply remove_ok; [done..|]. intros g. split; [|by intros []].
    intros Hg. split; [done|]. intros (key' & bound & E1 & E2). congruence.
Qed.

(** A list of futures settled one after the other. *)
Lemma settle_all {B} (fut : B -> nat) (st : B -> FutureState) l fs g :
  (forall x, st x <> FPending) ->
  let fs' := fold_left (fun fs x => (settle fs (Some (fut x)) (st x)).1) l fs in
  length fs' = length fs /\
  (fs' !! g = Some FPending <-> fs !! g = Some FPending /\ ~ exists x, x ∈ l /\ fut x = g).
Proof.
  intros Hst. revert fs. induction l as [|x l IH]; intros fs; cbn [fold_left].
  { split; [done|]. split; [|by intros []]. intros Hg. split; [done|]. intros (? & Hin & _).
    by apply not_elem_of_nil in Hin. }
  destruct (IH (settle fs (Some (fut x)) (st x)).1) as [E1 E2]. split; [rw E1; apply settle_length|]. rw E2. split.
  - intros [(Hg & Hne)%settle_pending Hn]; [|done]. split; [done|].
    intros (y & [->|Hy]%elem_of_cons & Hf); [congruence|eauto].
  - intros [Hg Hn]. split.
    + rw settle_other //. intros ->. apply Hn. exists x. by split; [left|].
    + intros (y & Hy & Hf). apply Hn. exists y. by split; [right|].
Qed.

Lemma fail_connection_spec m fs conn error g :
  let r := fail_connection m fs conn error in
  length r.2 = length fs /\
  (r.2 !! g = Some FPending <->
   fs !! g = Some FPending /\ ~ exists key, m !! key = Some (Some conn, g)).
Proof.
  simpl. pose proof (settle_all (fun e : string * (option string * nat) => e.2.2)
    (fun e => FException (default (RemoteConnectionLost conn e.1) error))
    (map_to_list (filter (bound_to conn) m)) fs g ltac:(done)) as [Hlen Hiff].
  split; [exact Hlen|]. rw Hiff. apply and_iff_compat_l, not_iff_compat. split.
  - intros ([key [b f]] & Hin & <-). simpl. apply elem_of_map_to_list in Hin.
    apply map_lookup_filter_Some in Hin as [Hin Hb]. unfold bound_to in Hb. simpl in Hb.
    exists key. congruence.
  - intros (key & Hin). exists (key, (Some conn, g)). split; [|done].
    apply elem_of_map_to_list, map_lookup_filter_Some. by split.
Qed.

Lemma fail_ok rt k conn error :
  rt_ok rt ->
  let r := fail_connection (mux_of rt k) (rt_futures rt) conn error in
  rt_ok (with_mux rt k r.1 r.2).
Proof.
  intros H r. apply remove_ok; [done| | |].
  - by apply (fail_connection_spec _ _ conn error 0).
  - apply map_filter_subseteq.
  - intros g. destruct (fail_connection_spec (mux_of rt k) (rt_futures rt) conn error g) as [_ Hiff].
    unfold r. rw Hiff. apply and_iff_compat_l, not_iff_compat. split.
    + intros (key & Hin). exists key, (Some conn). split; [done|].
      apply map_lookup_filter_None_2. right. intros x Hx. simplify_eq. by intros [].
    + intros (key & b & Hin & Hnone). exists key.
      apply map_lookup_filter_None_1 in Hnone as [Hnone|Hnone]; [congruence|].
      specialize (Hnone _ Hin). unfold bound_to in Hnone. simpl in Hnone.
      destruct (decide (b = Some conn)) as [->|]; [done|]. by destruct Hnone.
Qed.

(** What [start_call] does when it succeeds. *)
Lemma start_call_ok rt k e timeout rt' f :
  start_call rt k e timeout = Ok (rt', f) ->
  exists c, cl_kind c = k /\ cl_phase c = Sending /\ f = length (rt_futures rt) /\
    mux_of rt k !! call_key c = None /\
    is_active (rg_lifecycle (rt_registry rt)) (cl_connection c) = Ok true /\
    rt_calls rt' = rt_calls rt ++ [c] /\ rt_futures rt' = rt_futures rt ++ [FPending] /\
    (forall k', mux_of rt' k' = if bool_decide (k' = k)
                                then <[call_key c := (Some (cl_connection c), f)]> (mux_of rt k)
                                else mux_of rt k').
Proof.
  unfold start_call, require_active_socket, mux_register. intros H.
  do 4 apply guard_bind_ok in H as [_ H]. apply bind_ok in H as (socket & Hs & H).
  apply bind_ok in Hs as (active & Ha & Hs). apply guard_bind_ok in Hs as [-> _].
  apply bind_ok in H as ([[m fs] f'] & Hm & H). crush_step_in Hm; [done|].
  injection Hm as <- <- <-. injection H as <- <-.
  eexists {| cl_kind := k; cl_connection := _; cl_invocation := _; cl_phase := Sending |}.
  split_and!; try done. intros []; by destruct k.
Qed.

Lemma call_at_app rt rt' c f k conn key :
  rt_calls rt' = rt_calls rt ++ [c] -> call_at rt f k conn key -> call_at rt' f k conn key.
Proof.
  intros H (c0 & Hc & Hrest). exists c0. split; [|done]. rw H. by apply lookup_app_l_Some.
Qed.

Lemma start_ok rt k e timeout rt' f :
  rt_ok rt -> start_call rt k e timeout = Ok (rt', f) -> rt_ok rt'.
Proof.
  intros [HL HE HP] (c & Hk & _ & -> & Hnone & _ & Hcalls & Hfs & Hmux)%start_call_ok.
  assert (Hnew : call_at rt' (length (rt_futures rt)) k (cl_connection c) (call_key c)).
  { exists c. split; [|done]. rw Hcalls -HL. by apply list_lookup_middle. }
  split.
  - rw Hcalls Hfs !length_app HL //.
  - intros k' key bound g. rw Hmux. case_bool_decide as E; [subst k'; rw lookup_insert_Some|].
    + intros [[<- [= <- <-]]|[_ Hg]]; [split; [rw Hfs; by apply list_lookup_middle|eauto]|].
      destruct (HE _ _ _ _ Hg) as (Hp & conn & Hb & Hc). split.
      * rw Hfs. by apply lookup_app_l_Some.
      * eauto using call_at_app.
    + intros Hg. destruct (HE _ _ _ _ Hg) as (Hp & conn & Hb & Hc). split.
      * rw Hfs. by apply lookup_app_l_Some.
      * eauto using call_at_app.
  - intros g. rw Hfs lookup_app_Some. intros [Hg|[Hlen Hg]].
    + destruct (HP g Hg) as (k' & conn & key & Hc & Hm). exists k', conn, key.
      split; [by eapply call_at_app|]. rw Hmux. case_bool_decide; [subst k'|done].
      rw lookup_insert_ne //. congruence.
    + apply list_lookup_singleton_Some in Hg as [Hg _].
      assert (g = length (rt_futures rt)) as -> by lia.
      exists k, (cl_connection c), (call_key c). split; [done|].
      rw Hmux bool_decide_true // lookup_insert_eq //.
Qed.

Lemma quiet_ok rt rt' :
  rt_exec rt' = rt_exec rt -> rt_recon rt' = rt_recon rt -> rt_futures rt' = rt_futures rt ->
  identities rt' = identities rt -> rt_ok rt -> rt_ok rt'.
Proof.
  intros E1 E2 E3 E4 [HL HE HP].
  assert (Hm : forall k, mux_of rt' k = mux_of rt k) by (by intros []).
  split.
  - rw E3 -HL. apply (f_equal length) in E4. unfold identities in E4. by rw !length_map in E4.
  - intros k key bound f. rw Hm E3. intros (Hp & conn & Hb & Hc)%HE.
    split; [done|]. exists conn. split; [done|]. by eapply call_at_identities.
  - intros f. rw E3. intros (k & conn & key & Hc & Hk)%HP. exists k, conn, key. rw Hm.
    split; [|done]. by eapply call_at_identities.
Qed.

Lemma effect_ok ev rt rt' : rt_ok rt -> effect ev rt rt' -> rt_ok rt'.
Proof.
  intros H He. destruct He.
  - by eapply quiet_ok.
  - by apply finish_ok.
  - by apply fail_ok.
  - by eapply start_ok.
Qed.

(** *** Every step is a sequence of primitive effects *)

Lemma settle_noop fs f st : fs !! f <> Some FPending -> (settle fs (Some f) st).1 = fs.
Proof. intros H. unfold settle. by destruct (fs !! f) as [[]|]. Qed.

Lemma effect_phase ev rt f p : effect ev rt (with_phase rt f p).
Proof.
  apply effect_quiet; try done. unfold identities. simpl. apply list_eq. intros i.
  rw !list_lookup_fmap. destruct (decide (f = i)) as [->|Hne].
  - rw list_lookup_alter_eq. by destruct (rt_calls rt !! i).
  - by rw list_lookup_alter_ne.
Qed.

Lemma effect_registry ev rt r : effect ev rt (with_registry rt r).
Proof. by apply effect_quiet. Qed.

Lemma effect_sends ev rt conn t inv : effect ev rt (sends rt conn t inv).
Proof. by apply effect_quiet. Qed.

Lemma effect_cancel ev rt k key conn :
  let r := mux_cancel (mux_of rt k) (rt_futures rt) key conn in
  effect ev rt (with_mux rt k r.1.1 r.1.2).
Proof. by apply effect_finish. Qed.

Lemma mux_finish_pop m fs key conn st : (mux_finish m fs key conn st).1.1 = (mux_pop m key conn).1.
Proof. unfold mux_finish. destruct (mux_pop _ _ _), (settle _ _ _); done. Qed.

(** A call that was cancelled under its own key and connection is not pending. *)
Lemma cancelled_not_pending rt f c :
  rt_ok rt -> rt_calls rt !! f = Some c ->
  (mux_cancel (mux_of rt (cl_kind c)) (rt_futures rt) (call_key c) (Some (cl_connection c))).1.2
    !! f <> Some FPending.
Proof.
  intros H Hc Hp.
  pose proof (finish_ok rt (cl_kind c) (call_key c) (Some (cl_connection c)) FCancelled H
    ltac:(done)) as H'. cbn zeta in H'.
  destruct (ok_pending _ H' f Hp) as (k & conn & key & Hat & Hm).
  assert (Hat' : call_at (with_mux rt (cl_kind c)
    (mux_finish (mux_of rt (cl_kind c)) (rt_futures rt) (call_key c) (Some (cl_connection c))
       FCancelled).1.1
    (mux_finish (mux_of rt (cl_kind c)) (rt_futures rt) (call_key c) (Some (cl_connection c))
       FCancelled).1.2) f (cl_kind c) (cl_connection c) (call_key c)) by (by exists c).
  destruct (call_at_fun _ _ _ _ _ _ _ _ Hat Hat') as (-> & -> & ->).
  rw mux_of_with bool_decide_true // mux_finish_pop in Hm.
  pose proof (mux_pop_spec (mux_of rt (cl_kind c)) (call_key c) (Some (cl_connection c))) as Hpop.
  destruct (mux_pop _ _ _) as [m [g|]]; simpl in Hpop, Hm.
  - destruct Hpop as (bound & _ & -> & _). by rw lookup_delete_eq in Hm.
  - destruct Hpop as [-> Hpop]. by rw Hm in Hpop; destruct Hpop.
Qed.

Lemma abandon_effects ev rt f c o :
  rt_ok rt -> rt_calls rt !! f = Some c -> rtc (effect ev) rt (abandon rt f c o).
Proof.
  intros H Hc. pose proof (cancelled_not_pending rt f c H Hc) as Hn.
  pose proof (effect_cancel ev rt (cl_kind c) (call_key c) (Some (cl_connection c))) as He.
  unfold abandon. destruct (mux_cancel _ _ _ _) as [[m fs] b]. simpl in Hn, He.
  rw settle_noop //. eapply rtc_l; [exact He|]. apply rtc_once, effect_phase.
Qed.

Lemma cancel_remote_effect ev rt conn inv : effect ev rt (cancel_remote rt conn inv).1.
Proof.
  pose proof (effect_cancel ev rt Execution inv None) as He. unfold cancel_remote.
  simpl mux_of in He. by destruct (mux_cancel _ _ _ _) as [[m fs] b].
Qed.

Lemma cancel_remote_calls rt conn inv : rt_calls (cancel_remote rt conn inv).1 = rt_calls rt.
Proof. unfold cancel_remote. by destruct (mux_cancel _ _ _ _) as [[m fs] b]. Qed.

Lemma quit_call_effects ev rt f c o :
  rt_ok rt -> rt_calls rt !! f = Some c -> rtc (effect ev) rt (quit_call rt f c o).
Proof.
  intros H Hc. unfold quit_call. destruct (cl_kind c); [|by apply abandon_effects].
  pose proof (cancel_remote_effect ev rt (cl_connection c) (cl_invocation c)) as He.
  pose proof (cancel_remote_calls rt (cl_connection c) (cl_invocation c)) as Hcalls.
  destruct (cancel_remote _ _ _) as [rt' sending]. simpl in He, Hcalls.
  eapply rtc_l; [exact He|]. destruct sending.
  - apply rtc_once, effect_phase.
  - apply abandon_effects; [by eapply effect_ok|]. by rw Hcalls.
Qed.

Lemma call_step_effects rt f c ev :
  rt_ok rt -> rt_calls rt !! f = Some c -> rtc (effect ev) rt (call_step rt f c ev).
Proof.
  intros H Hc. unfold call_step.
  destruct ev; try apply rtc_refl; destruct (cl_phase c); try apply rtc_refl;
    eauto using abandon_effects, quit_call_effects.
  - eapply rtc_l; [apply effect_sends|]. apply rtc_once, effect_phase.
  - destruct delivered; [|by apply abandon_effects].
    eapply rtc_l; [apply effect_sends|]. apply abandon_effects; [|done].
    eapply effect_ok; [done|apply (effect_sends (EvSent f))].
  - destruct (rt_futures rt !! _) as [[]|];
      eauto using rtc_refl, rtc_once, effect_phase, quit_call_effects.
Qed.

Lemma inbound_effects rt conn e now h rt' b :
  envelope_valid e = true -> handle_inbound rt conn e now h = Ok (rt', b) ->
  effect (EvInbound conn e now) rt rt'.
Proof.
  intros Hv. unfold handle_inbound. intros H. apply guard_bind_ok in H as [Hg H].
  assert (Hc : correlated (env_type e) = true -> env_connection_id e = Some conn).
  { intros Hc. rw Hc /= negb_involutive in Hg. by breflect. }
  set (inv := default "" (env_invocation_id e)) in *.
  destruct (env_type e) eqn:Et; try (injection H as <- <-; by apply effect_quiet).
  - apply bind_ok in H as (r & _ & H). injection H as <- <-. apply effect_registry.
  - pose proof (effect_finish (EvInbound conn e now) rt Execution inv (Some conn)
      (FResult (default JNull (payload_get (env_payload e) "output"))) ltac:(done)) as He.
    cbn zeta in He. unfold mux_resolve in H. simpl mux_of in He.
    destruct (mux_finish _ _ _ _ _) as [[m fs] b']. injection H as <- <-. apply He.
    intros v [= <-]. exists conn, e, now. rw Et. by split_and!; auto.
  - pose proof (effect_finish (EvInbound conn e now) rt Execution inv (Some conn)
      (FException (RemoteCapabilityError (env_payload e))) ltac:(done) ltac:(done)) as He.
    cbn zeta in He. unfold mux_reject in H. simpl mux_of in He.
    destruct (mux_finish _ _ _ _ _) as [[m fs] b']. by injection H as <- <-.
  - pose proof (effect_cancel (EvInbound conn e now) rt Execution inv (Some conn)) as He.
    cbn zeta in He. simpl mux_of in He.
    destruct (mux_cancel _ _ _ _) as [[m fs] b']. by injection H as <- <-.
  - pose proof (effect_finish (EvInbound conn e now) rt Reconciliation
      (reconciliation_correlation_id inv conn) (Some conn)
      (FResult (JObj (env_payload e))) ltac:(done)) as He.
    cbn zeta in He. unfold mux_resolve in H. simpl mux_of in He.
    destruct (mux_finish _ _ _ _ _) as [[m fs] b']. injection H as <- <-. apply He.
    intros v [= <-]. exists conn, e, now. rw Et. by split_and!; auto.
Qed.

Lemma disconnect_effects ev rt conn rt' :
  disconnect_connection rt conn = Ok rt' -> rtc (effect ev) rt rt'.
Proof.
  unfold disconnect_connection. intros H. apply bind_ok in H as (r & _ & H). injection H as <-.
  eapply rtc_l; [apply (effect_registry _ _ r.1)|]. unfold realtime_disconnect.
  pose proof (effect_fail ev (with_registry rt r.1) Execution conn None) as He1. simpl mux_of in He1.
  cbn zeta in He1. destruct (fail_connection _ _ _ _) as [m1 fs1]. eapply rtc_l; [exact He1|].
  pose proof (effect_fail ev (with_mux (with_registry rt r.1) Execution m1 fs1)
    Reconciliation conn None) as He2. simpl mux_of in He2. cbn zeta in He2.
  change (rt_recon (with_mux (with_registry rt r.1) Execution m1 fs1)) with (rt_recon rt).
  simpl rt_futures in *. destruct (fail_connection (rt_recon rt) _ _ _) as [m2 fs2].
  by apply rtc_once.
Qed.

Lemma conn_step_effects rt ev : rt_ok rt -> rtc (effect ev) rt (conn_step rt ev).
Proof.
  intros H.
  assert (Hreg : forall (x : result ConnError (Registry * ConnectionSnapshot)),
    rtc (effect ev) rt (or_keep rt x (fun y => with_registry rt y.1))).
  { intros [y|]; [apply rtc_once, effect_registry|apply rtc_refl]. }
  assert (Hcall : forall f, rtc (effect ev) rt
    match rt_calls rt !! f with Some c => call_step rt f c ev | None => rt end).
  { intros f. destruct (rt_calls rt !! f) eqn:E; [by apply call_step_effects|apply rtc_refl]. }
  destruct ev; simpl; auto.
  - destruct (disconnect_connection rt id) eqn:E; [by eapply disconnect_effects|apply rtc_refl].
  - apply rtc_once, effect_registry.
  - destruct (start_call rt k e timeout) as [[rt' f]|] eqn:E; [|apply rtc_refl].
    by eapply rtc_once, effect_start.
  - pose proof (cancel_remote_effect (EvCancelRequest conn inv delivered) rt conn inv) as He.
    destruct (cancel_remote rt conn inv) as [rt' sending]. eapply rtc_l; [exact He|].
    destruct (sending && delivered); [apply rtc_once, effect_sends|apply rtc_refl].
  - destruct (envelope_valid e) eqn:Ev; [|apply rtc_refl].
    destruct (handle_inbound rt conn e now false) as [[rt' b]|] eqn:E; [|apply rtc_refl].
    by eapply rtc_once, inbound_effects.
Qed.

Lemma effects_ok ev rt rt' : rt_ok rt -> rtc (effect ev) rt rt' -> rt_ok rt'.
Proof. apply rtc_invariant. intros. by eapply effect_ok. Qed.

Lemma conn_step_ok rt ev : rt_ok rt -> rt_ok (conn_step rt ev).
Proof. intros H. by eapply effects_ok, conn_step_effects. Qed.

(** *** Futures along effects *)

Lemma effect_call_at ev rt rt' f k conn key :
  effect ev rt rt' -> call_at rt f k conn key -> call_at rt' f k conn key.
Proof.
  intros He Hc. destruct He; try done.
  - by eapply call_at_identities.
  - destruct (start_call_ok _ _ _ _ _ _ H0) as (c & _ & _ & _ & _ & _ & Hcalls & _).
    by eapply call_at_app.
Qed.

Lemma fold_settle_done {B} (fut : B -> nat) (st : B -> FutureState) l fs g s :
  fs !! g = Some s -> s <> FPending ->
  fold_left (fun fs x => (settle fs (Some (fut x)) (st x)).1) l fs !! g = Some s.
Proof.
  intros Hg Hs. revert fs Hg. induction l as [|x l IH]; intros fs Hg; cbn [fold_left]; [done|].
  by apply IH, settle_done.
Qed.

(** Settled futures never change. *)
Lemma effect_settled ev rt rt' f s :
  effect ev rt rt' -> rt_futures rt !! f = Some s -> s <> FPending ->
  rt_futures rt' !! f = Some s.
Proof.
  intros He Hf Hs. destruct He; simpl.
  - congruence.
  - unfold r, mux_finish. destruct (mux_pop _ _ _) as [m g].
    pose proof (settle_done (rt_futures rt) g st f s Hf Hs) as E. by destruct (settle _ _ _).
  - by apply (fold_settle_done (fun e : string * (option string * nat) => e.2.2)
      (fun e => FException (default (RemoteConnectionLost conn e.1) error))).
  - destruct (start_call_ok _ _ _ _ _ _ H0) as (c & _ & _ & _ & _ & _ & _ & Hfs & _).
    rw Hfs. by apply lookup_app_l_Some.
Qed.

(** A future an exception or a cancellation settles has no result. *)
Lemma fold_settle_result {B} (fut : B -> nat) (st : B -> FutureState) l fs g v :
  (forall x, st x <> FResult v) ->
  fold_left (fun fs x => (settle fs (Some (fut x)) (st x)).1) l fs !! g = Some (FResult v) ->
  fs !! g = Some (FResult v).
Proof.
  intros Hst. revert fs. induction l as [|x l IH]; intros fs; cbn [fold_left]; [done|].
  intros H%IH. unfold settle in H. destruct (fs !! fut x) as [[]|] eqn:E; try done. simpl in H.
  apply list_lookup_insert_Some in H as [(_ & Hv & _)|[_ H]]; [|done].
  by destruct (Hst x).
Qed.

(** A result arrives by an inbound message for the call, while the call is pending. *)
Lemma effect_result ev rt rt' f v :
  rt_ok rt -> effect ev rt rt' -> rt_futures rt' !! f = Some (FResult v) ->
  rt_futures rt !! f = Some (FResult v) \/
  rt_futures rt !! f = Some FPending /\
  exists k conn key, call_at rt f k conn key /\ delivers ev k key (Some conn) v.
Proof.
  intros H He. destruct He; simpl; intros Hf.
  - left. congruence.
  - unfold r, mux_finish in Hf. pose proof (mux_pop_spec (mux_of rt k) key conn) as Hpop.
    destruct (mux_pop _ _ _) as [m [g|]]; simpl in Hpop; [|by left].
    destruct Hpop as (bound & Hm & _ & Hb).
    destruct (ok_entry _ H _ _ _ _ Hm) as (Hp & conn' & -> & Hc).
    destruct (decide (f = g)) as [->|Hne].
    + pose proof (settle_same _ _ st Hp) as E. destruct (settle _ _ _). simpl in E, Hf.
      assert (st = FResult v) as -> by congruence. right. split; [done|].
      specialize (H1 v eq_refl) as Hd. assert (conn = Some conn') as ->.
      { destruct conn; [done|]. by destruct Hd as (? & ? & ? & _ & _ & ? & _). }
      by exists k, conn', key.
    + pose proof (settle_other (rt_futures rt) g st f Hne) as E. destruct (settle _ _ _).
      simpl in E, Hf. left. congruence.
  - left. by eapply (fold_settle_result (fun e : string * (option string * nat) => e.2.2)
      (fun e => FException (default (RemoteConnectionLost conn e.1) error))).
  - destruct (start_call_ok _ _ _ _ _ _ H1) as (c & _ & _ & _ & _ & _ & _ & Hfs & _).
    rw Hfs lookup_app_Some in Hf. destruct Hf as [Hf|[_ Hf]]; [by left|].
    by apply list_lookup_singleton_Some in Hf as [_ ?].
Qed.

(** Pending futures were pending, unless the step starts a call. *)
Lemma effect_pending ev rt rt' f :
  effect ev rt rt' -> rt_futures rt' !! f = Some FPending ->
  rt_futures rt !! f = Some FPending \/ exists k e timeout, ev = EvCall k e timeout.
Proof.
  intros He Hf. destruct (rt_futures rt !! f) as [s|] eqn:E.
  - destruct s; [by left|..]; by rw (effect_settled _ _ _ _ _ He E) in Hf.
  - destruct He; [|exfalso..|right; eauto].
    + left. congruence.
    + simpl in Hf. assert (Hlen : length r.1.2 = length (rt_futures rt)).
      { unfold r, mux_finish. destruct (mux_pop _ _ _) as [m g].
        pose proof (settle_length (rt_futures rt) g st) as El. by destruct (settle _ _ _). }
      apply lookup_ge_None in E. apply lookup_lt_Some in Hf. lia.
    + destruct (fail_connection_spec (mux_of rt k) (rt_futures rt) conn error f) as [_ [Hiff _]].
      by destruct (Hiff Hf) as [? _]; simplify_eq.
Qed.

Lemma effects_settled ev rt rt' f s :
  rtc (effect ev) rt rt' -> rt_futures rt !! f = Some s -> s <> FPending ->
  rt_futures rt' !! f = Some s.
Proof. intros H Hf Hs. induction H; eauto using effect_settled. Qed.

Lemma effects_call_at ev rt rt' f k conn key :
  rtc (effect ev) rt rt' -> call_at rt f k conn key -> call_at rt' f k conn key.
Proof. induction 1; eauto using effect_call_at. Qed.

Lemma effects_result ev rt rt' f v :
  rt_ok rt -> rtc (effect ev) rt rt' -> rt_futures rt' !! f = Some (FResult v) ->
  rt_futures rt !! f = Some (FResult v) \/
  rt_futures rt !! f = Some FPending /\
  exists k conn key, call_at rt f k conn key /\ delivers ev k key (Some conn) v.
Proof.
  intros H He Hf. revert H. induction He as [rt|rt rt1 rt' Hstep He IH]; intros H; [by left|].
  destruct (IH Hf (effect_ok _ _ _ H Hstep)) as [Hr|(Hp & k & conn & key & Hc & Hd)].
  { by eapply effect_result. }
  right. destruct (effect_pending _ _ _ _ Hstep Hp) as [Hp'|(k' & e & t & ->)];
    [|by destruct Hd as (? & ? & ? & ? & _)].
  split; [done|]. destruct (ok_pending _ H f Hp') as (k' & conn' & key' & Hc' & _).
  destruct (call_at_fun _ _ _ _ _ _ _ _ (effect_call_at _ _ _ _ _ _ _ Hstep Hc') Hc)
    as (-> & -> & ->). by exists k, conn, key.
Qed.

(** *** The registry along steps *)

Lemma abandon_registry rt f c o : rt_registry (abandon rt f c o) = rt_registry rt.
Proof. unfold abandon. by destruct (mux_cancel _ _ _ _) as [[? ?] ?]. Qed.

Lemma cancel_remote_registry rt conn inv :
  rt_registry (cancel_remote rt conn inv).1 = rt_registry rt.
Proof. unfold cancel_remote. by destruct (mux_cancel _ _ _ _) as [[? ?] ?]. Qed.

Lemma quit_call_registry rt f c o : rt_registry (quit_call rt f c o) = rt_registry rt.
Proof.
  unfold quit_call. destruct (cl_kind c); [|apply abandon_registry].
  pose proof (cancel_remote_registry rt (cl_connection c) (cl_invocation c)) as E.
  destruct (cancel_remote _ _ _) as [rt' []]; [done|]. by rw abandon_registry.
Qed.

Lemma call_step_registry rt f c ev : rt_registry (call_step rt f c ev) = rt_registry rt.
Proof.
  unfold call_step. destruct ev; try done; destruct (cl_phase c); try done;
    rw ?abandon_registry ?quit_call_registry //.
  - by destruct delivered.
  - destruct (rt_futures rt !! _) as [[]|]; rw ?quit_call_registry //.
Qed.

Lemma start_call_registry rt k e timeout rt' f :
  start_call rt k e timeout = Ok (rt', f) -> rt_registry rt' = rt_registry rt.
Proof.
  unfold start_call. intros H. do 4 apply guard_bind_ok in H as [_ H].
  do 2 apply bind_ok in H as (? & _ & H). destruct x0 as [[? ?] ?]. by injection H as <- <-.
Qed.

Lemma realtime_disconnect_registry rt conn e :
  rt_registry (realtime_disconnect rt conn e) = rt_registry rt.
Proof. unfold realtime_disconnect. by repeat destruct (fail_connection _ _ _ _). Qed.

Lemma inbound_registry rt conn e now h rt' b :
  handle_inbound rt conn e now h = Ok (rt', b) ->
  rtc registry_step (rt_registry rt) (rt_registry rt').
Proof.
  unfold handle_inbound. intros [_ H]%guard_bind_ok.
  destruct (env_type e); try (injection H as <- <-; apply rtc_refl);
    try (by repeat destruct (mux_resolve _ _ _ _ _) as [[? ?] ?];
         repeat destruct (mux_reject _ _ _ _ _) as [[? ?] ?];
         repeat destruct (mux_cancel _ _ _ _) as [[? ?] ?]; injection H as <- <-; apply rtc_refl).
  apply bind_ok in H as ([r c] & Hr & [= <- <-]). by eapply rtc_once, step_heartbeat.
Qed.

Lemma conn_step_registry rt ev :
  rtc registry_step (rt_registry rt) (rt_registry (conn_step rt ev)).
Proof.
  assert (Hcall : forall f, rtc registry_step (rt_registry rt)
    (rt_registry match rt_calls rt !! f with Some c => call_step rt f c ev | None => rt end)).
  { intros f. destruct (rt_calls rt !! f); rw ?call_step_registry; apply rtc_refl. }
  destruct ev; cbn [conn_step]; auto.
  - destruct (registry_register _ _ _ _ _ _ _) as [[r c]|] eqn:E;
      [by eapply rtc_once, step_register|apply rtc_refl].
  - destruct (registry_activate _ _) as [[r c]|] eqn:E;
      [by eapply rtc_once, step_activate|apply rtc_refl].
  - destruct (registry_heartbeat _ _ _) as [[r c]|] eqn:E;
      [by eapply rtc_once, step_heartbeat|apply rtc_refl].
  - destruct (disconnect_connection rt id) as [rt'|] eqn:E; [|apply rtc_refl].
    unfold disconnect_connection in E. apply bind_ok in E as ([r c] & Hr & [= <-]).
    simpl or_keep. rw realtime_disconnect_registry. by eapply rtc_once, step_disconnect.
  - destruct (unregister _ _) as [[r c]|] eqn:E;
      [by eapply rtc_once, step_unregister|apply rtc_refl].
  - apply rtc_once, step_evict.
  - destruct (start_call rt k e timeout) as [[rt' f]|] eqn:E; [|apply rtc_refl].
    simpl. rw (start_call_registry _ _ _ _ _ _ E). apply rtc_refl.
  - pose proof (cancel_remote_registry rt conn inv) as E.
    destruct (cancel_remote rt conn inv) as [rt' sending]. simpl in E.
    destruct (sending && delivered); simpl; rw E; apply rtc_refl.
  - destruct (envelope_valid e); [|apply rtc_refl].
    destruct (handle_inbound rt conn e now false) as [[rt' b]|] eqn:E; [|apply rtc_refl].
    by eapply inbound_registry.
Qed.

Lemma conn_runs_registry rt evs :
  rtc registry_step (rt_registry rt) (rt_registry (runs conn_step rt evs)).
Proof.
  revert rt. induction evs as [|ev evs IH]; intros rt; [apply rtc_refl|].
  rw runs_cons. by etrans; [apply conn_step_registry|].
Qed.

(** *** Closed connections and delivered results *)

Definition new_realtime (r : Registry) : Realtime :=
  {| rt_registry := r; rt_exec := ∅; rt_recon := ∅; rt_futures := []; rt_calls := [];
     rt_wire := [] |}.

Lemma new_realtime_ok r : rt_ok (new_realtime r).
Proof. split; [done|intros []; simpl; intros *; by rw lookup_empty|done]. Qed.

Lemma conn_runs_ok r evs : rt_ok (runs conn_step (new_realtime r) evs).
Proof. apply runs_invariant; [apply conn_step_ok|apply new_realtime_ok]. Qed.

Lemma effects_pending ev rt rt' f :
  rtc (effect ev) rt rt' -> rt_futures rt' !! f = Some FPending ->
  rt_futures rt !! f = Some FPending \/ exists k e timeout, ev = EvCall k e timeout.
Proof.
  intros He Hf. induction He as [|rt rt1 rt' Hstep _ IH]; [by left|].
  destruct (IH Hf) as [Hp|]; [by eapply effect_pending|by right].
Qed.

(** The connection is closed and none of its calls is pending. *)
Record quiesced (id : string) (rt : Realtime) : Prop := {
  q_ok : rt_ok rt;
  q_closed : exists c, connection (rt_registry rt) id = Some c /\ closed_state (cs_state c) = true;
  q_settled f k key : call_at rt f k id key -> rt_futures rt !! f <> Some FPending
}.

Lemma closed_inactive r id c :
  connection r id = Some c -> closed_state (cs_state c) = true ->
  is_active (rg_lifecycle r) id = Ok false.
Proof.
  unfold connection, is_active, lookup_connection. intros -> Hc. simpl. by destruct (cs_state c).
Qed.

Lemma old_pending_settled id rt rt' ev f k key :
  quiesced id rt -> rtc (effect ev) rt rt' -> call_at rt' f k id key ->
  rt_futures rt !! f <> Some FPending.
Proof.
  intros [H _ Hq] He Hc Hp. destruct (ok_pending _ H f Hp) as (k' & conn & key' & Hc' & _).
  destruct (call_at_fun _ _ _ _ _ _ _ _ (effects_call_at _ _ _ _ _ _ _ He Hc') Hc) as (_ & -> & _).
  by eapply Hq.
Qed.

Lemma quiesced_step id rt ev : quiesced id rt -> quiesced id (conn_step rt ev).
Proof.
  intros Hq. pose proof (conn_step_effects rt ev (q_ok _ _ Hq)) as He.
  destruct (q_closed _ _ Hq) as (c & Hc & Hcl).
  split; [apply conn_step_ok, Hq| |].
  - destruct (registry_steps_moves _ _ _ _ (conn_step_registry rt ev) Hc) as (c' & Hc' & _ & Hr).
    exists c'. split; [done|]. by eapply closed_stays.
  - intros f k key Hat Hp. pose proof (old_pending_settled _ _ _ _ _ _ _ Hq He Hat) as Hn.
    destruct (effects_pending _ _ _ _ He Hp) as [|(k' & e & t & ->)]; [done|].
    simpl in Hp, Hat. destruct (start_call rt k' e t) as [[rt' g]|] eqn:E; [|done].
    simpl in Hp, Hat. apply start_call_ok in E as (c1 & _ & _ & _ & _ & Ha & Hcalls & Hfs & _).
    rw Hfs lookup_app_Some in Hp. destruct Hp as [|[Hlen Hp]]; [done|].
    apply list_lookup_singleton_Some in Hp as [Hp _].
    destruct Hat as (c2 & Hc2 & _ & <- & _). rw Hcalls lookup_app_Some in Hc2.
    rw -(ok_lengths _ (q_ok _ _ Hq)) in Hlen, Hp.
    destruct Hc2 as [Hc2%lookup_lt_Some|[_ Hc2]]; [lia|]. rw Hp in Hc2. simplify_eq/=.
    by rw (closed_inactive _ _ _ Hc Hcl) in Ha.
Qed.

Lemma fail_connection_unbound m fs conn error key e :
  (fail_connection m fs conn error).1 !! key = Some e -> e.1 <> Some conn.
Proof. simpl. by intros [_ Hn]%map_lookup_filter_Some. Qed.

Lemma disconnect_quiesces rt id rt' :
  rt_ok rt -> disconnect_connection rt id = Ok rt' -> quiesced id rt'.
Proof.
  intros H Hd. pose proof (effects_ok _ _ _ H (disconnect_effects (EvDisconnect id) _ _ _ Hd)) as H'.
  unfold disconnect_connection in Hd. apply bind_ok in Hd as ([r c] & Hr & [= <-]).
  split; [done| |].
  - rw realtime_disconnect_registry. simpl. apply bind_ok in Hr as ([l c1] & Hl & [= <- <-]).
    apply lifecycle_transition_ok in Hl as (c0 & _ & -> & _ & Hst). exists c1.
    split; [apply lookup_insert_eq|]. by rw Hst.
  - intros f k key Hat Hp. destruct (ok_pending _ H' f Hp) as (k' & conn & key' & Hc & Hm).
    destruct (call_at_fun _ _ _ _ _ _ _ _ Hat Hc) as (<- & <- & <-). clear - Hm.
    unfold realtime_disconnect in Hm. destruct (fail_connection (rt_exec _) _ _ _) as [m1 f1] eqn:E1.
    destruct (fail_connection (rt_recon _) _ _ _) as [m2 f2] eqn:E2.
    destruct k; simpl in Hm.
    + rw -[m1]/((m1, f1).1) -E1 in Hm. by apply fail_connection_unbound in Hm.
    + rw -[m2]/((m2, f2).1) -E2 in Hm. by apply fail_connection_unbound in Hm.
Qed.

(** The message a result came with. *)
Definition carries (c : Call) (e : RealtimeEnvelope) (v : json) : Prop :=
  env_connection_id e = Some (cl_connection c) /\ env_invocation_id e = Some (cl_invocation c) /\
  match cl_kind c with
  | Execution => env_type e = capability_result /\
      v = default JNull (payload_get (env_payload e) "output")
  | Reconciliation => env_type e = capability_reconciliation /\ v = JObj (env_payload e)
  end.

Lemma delivers_carries ev c v :
  delivers ev (cl_kind c) (call_key c) (Some (cl_connection c)) v ->
  exists e now, ev = EvInbound (cl_connection c) e now /\ carries c e v.
Proof.
  intros (conn & e & now & -> & Hv & [= <-] & He & Hk). exists e, now. split; [done|].
  assert (Hinv : invocation_required (env_type e) = true ->
    env_invocation_id e = Some (default "" (env_invocation_id e))).
  { intros Hr. unfold envelope_valid in Hv. rw Hr /= in Hv. breflect.
    by destruct (env_invocation_id e). }
  unfold carries, call_key in *. destruct (cl_kind c).
  - destruct Hk as (Ht & -> & ->). rw Ht in Hinv. by rw -Hinv.
  - destruct Hk as (Ht & Hkey & ->). rw Ht in Hinv. apply correlation_id_inj in Hkey as [-> _].
    by rw -Hinv.
Qed.

Lemma call_at_self rt f c :
  rt_calls rt !! f = Some c -> call_at rt f (cl_kind c) (cl_connection c) (call_key c).
Proof. intros H. by exists c. Qed.

Lemma effects_same_call ev rt rt' f c c' :
  rtc (effect ev) rt rt' -> rt_calls rt !! f = Some c -> rt_calls rt' !! f = Some c' ->
  cl_kind c' = cl_kind c /\ cl_connection c' = cl_connection c /\ cl_invocation c' = cl_invocation c.
Proof.
  intros He Hc Hc'. destruct (effects_call_at _ _ _ _ _ _ _ He (call_at_self _ _ _ Hc))
    as (c1 & E & Hk & Hconn & Hkey). simplify_eq. split_and!; try done. by apply call_key_inj.
Qed.

Lemma conn_runs_settled rt evs f s :
  rt_ok rt -> rt_futures rt !! f = Some s -> s <> FPending ->
  rt_futures (runs conn_step rt evs) !! f = Some s.
Proof.
  intros H Hf Hs. revert rt H Hf. induction evs as [|ev evs IH]; intros rt H Hf; [done|].
  rw runs_cons. apply IH; [by apply conn_step_ok|]. by eapply effects_settled, Hs; first apply conn_step_effects.
Qed.

Lemma call_exists rt f s :
  rt_ok rt -> rt_futures rt !! f = Some s -> exists c, rt_calls rt !! f = Some c.
Proof.
  intros H Hf. apply lookup_lt_is_Some. rw (ok_lengths _ H). by eapply lookup_lt_Some.
Qed.

(** Where a result came from. *)
Lemma result_origin r evs f c v :
  rt_calls (runs conn_step (new_realtime r) evs) !! f = Some c ->
  rt_futures (runs conn_step (new_realtime r) evs) !! f = Some (FResult v) ->
  exists before e now after,
    evs = before ++ EvInbound (cl_connection c) e now :: after /\ carries c e v /\
    rt_futures (runs conn_step (new_realtime r) before) !! f = Some FPending /\
    rt_futures (conn_step (runs conn_step (new_realtime r) before)
      (EvInbound (cl_connection c) e now)) !! f = Some (FResult v).
Proof.
  revert c. induction evs as [|ev evs IH] using rev_ind; intros c Hc Hf; [done|].
  rw runs_app runs_cons runs_nil in Hc, Hf. set (rt := runs conn_step _ evs) in *.
  pose proof (conn_runs_ok r evs : rt_ok rt) as H.
  pose proof (conn_step_effects rt ev H) as He.
  assert (Hold : exists s, rt_futures rt !! f = Some s).
  { destruct (effects_result _ _ _ _ _ H He Hf) as [?|[? _]]; eauto. }
  destruct Hold as [s Hs]. destruct (call_exists _ _ _ H Hs) as [c0 Hc0].
  destruct (effects_same_call _ _ _ _ _ _ He Hc0 Hc) as (Ek & Ec & Ei).
  destruct (effects_result _ _ _ _ _ H He Hf) as [Hr|(Hp & k & conn & key & Hat & Hd)].
  - destruct (IH c0 Hc0 Hr) as (before & e & now & after & -> & Hcar & Hp & Hd).
    exists before, e, now, (after ++ [ev]). unfold carries in *. rw Ek Ec Ei.
    split; [by rw -app_assoc|done].
  - destruct (call_at_fun _ _ _ _ _ _ _ _ (effects_call_at _ _ _ _ _ _ _ He Hat)
      (call_at_self _ _ _ Hc)) as (-> & -> & ->).
    apply delivers_carries in Hd as (e & now & -> & Hcar). by exists evs, e, now, [].
Qed.

(** *** What a call ends with *)

(** The future behind the outcome of a call. *)
Definition outcome_ok (rt : Realtime) (f : nat) (c : Call) : Prop :=
  match cl_phase c with
  | Ended (CallReturned v) => rt_futures rt !! f = Some (FResult v)
  | Ended (CallRaised x) => rt_futures rt !! f = Some (FException x) \/
      x = RemoteConnectionLost (cl_connection c) (cl_invocation c)
  | SendingCancel o => o = CallTimedOut \/ o = CallCancelled
  | _ => True
  end.

Definition outcomes_ok (rt : Realtime) : Prop := forall f c, rt_calls rt !! f = Some c -> outcome_ok rt f c.

(** The calls after a step of call [f]: that call may be in another phase. *)
Definition phase_moved (rt rt' : Realtime) (f : nat) (p : CallPhase) : Prop :=
  rt_calls rt' = alter (fun c => set_phase c p) f (rt_calls rt).

Lemma abandon_moved rt f c o : phase_moved rt (abandon rt f c o) f (Ended o).
Proof. unfold phase_moved, abandon. by destruct (mux_cancel _ _ _ _) as [[? ?] ?]. Qed.

Lemma quit_moved rt f c o :
  phase_moved rt (quit_call rt f c o) f (SendingCancel o) \/ phase_moved rt (quit_call rt f c o) f (Ended o).
Proof.
  unfold quit_call. destruct (cl_kind c); [|right; apply abandon_moved].
  pose proof (cancel_remote_calls rt (cl_connection c) (cl_invocation c)) as E.
  destruct (cancel_remote _ _ _) as [rt' []]; simpl in E; unfold phase_moved; rw -E;
    [by left|right; apply abandon_moved].
Qed.

Lemma moved_outcomes rt rt' f c p : rt_ok rt -> outcomes_ok rt -> rt_calls rt !! f = Some c ->
  (forall g s, rt_futures rt !! g = Some s -> s <> FPending -> rt_futures rt' !! g = Some s) ->
  phase_moved rt rt' f p -> outcome_ok rt' f (set_phase c p) -> outcomes_ok rt'.
Proof.
  intros H Ho Hc Hs Hp Hf g d Hd. rw Hp in Hd. destruct (decide (g = f)) as [->|Hne].
  - rw list_lookup_alter_eq Hc in Hd. by injection Hd as <-.
  - rw list_lookup_alter_ne in Hd; [done|]. specialize (Ho g d Hd). unfold outcome_ok in *.
    destruct (cl_phase d) as [| |o|[v|x| |]]; try done; [by eapply Hs in Ho|].
    destruct Ho as [Ho|?]; [left; by eapply Hs in Ho|by right].
Qed.

Lemma kept_outcomes rt rt' : outcomes_ok rt ->
  (forall g s, rt_futures rt !! g = Some s -> s <> FPending -> rt_futures rt' !! g = Some s) ->
  (forall g c, rt_calls rt' !! g = Some c -> rt_calls rt !! g = Some c \/ cl_phase c = Sending) -> outcomes_ok rt'.
Proof.
  intros Ho Hs Hc g c Hg. destruct (Hc g c Hg) as [Hd|Hd]; [|unfold outcome_ok; by rw Hd].
  specialize (Ho g c Hd). unfold outcome_ok in *.
  destruct (cl_phase c) as [| |o|[v|x| |]]; try done; [by eapply Hs in Ho|].
  destruct Ho as [Ho|?]; [left; by eapply Hs in Ho|by right].
Qed.

Lemma call_step_outcomes rt f c ev : rt_ok rt -> outcomes_ok rt -> rt_calls rt !! f = Some c ->
  outcomes_ok (call_step rt f c ev).
Proof.
  intros H Ho Hc.
  assert (forall g s, rt_futures rt !! g = Some s -> s <> FPending ->
    rt_futures (call_step rt f c ev) !! g = Some s) as Hs
    by (intros g s Hg Hn; by eapply effects_settled, Hn; [by apply (call_step_effects rt f c ev)|]).
  assert (forall o, (o = CallTimedOut \/ o = CallCancelled) -> call_step rt f c ev = quit_call rt f c o ->
    outcomes_ok (call_step rt f c ev)) as Hq.
  { intros o Hor E. destruct (quit_moved rt f c o) as [Hm|Hm]; rw -E in Hm; eapply moved_outcomes; try done.
    by destruct Hor as [->| ->]. }
  assert (forall p, phase_moved rt (call_step rt f c ev) f p -> outcome_ok (call_step rt f c ev) f (set_phase c p) ->
    outcomes_ok (call_step rt f c ev)) as Hm by (intros p Hp Hout; by eapply moved_outcomes).
  assert (call_step rt f c ev = rt -> outcomes_ok (call_step rt f c ev)) as Hk by (by intros ->).
  pose proof (Ho f c Hc) as Hoc. unfold outcome_ok in Hoc. unfold call_step in *.
  destruct ev; try (by apply Hk); destruct (cl_phase c) as [| |o|o] eqn:Ep; try (by apply Hk).
  - by eapply Hm.
  - eapply Hm; [apply abandon_moved|]. by right.
  - by eapply Hm; [apply abandon_moved|].
  - by eapply Hq; [left|].
  - by eapply Hq; [right|].
  - apply (Hm (Ended o)); [|by destruct Hoc as [->| ->]]. destruct delivered; exact (abandon_moved _ f c o).
  - by eapply Hm; [apply abandon_moved|].
  - destruct (rt_futures rt !! f) as [[|v|x|]|] eqn:Ef; [by apply Hk| | |by eapply Hq; [right|]|by apply Hk].
    + by eapply Hm.
    + eapply Hm; [done|]. by left.
Qed.

Lemma inbound_calls rt conn e now h rt' b :
  handle_inbound rt conn e now h = Ok (rt', b) -> rt_calls rt' = rt_calls rt.
Proof.
  unfold handle_inbound. intros [_ H]%guard_bind_ok.
  destruct (env_type e); try (by injection H as <- <-);
    try (by repeat destruct (mux_resolve _ _ _ _ _) as [[? ?] ?];
         repeat destruct (mux_reject _ _ _ _ _) as [[? ?] ?];
         repeat destruct (mux_cancel _ _ _ _) as [[? ?] ?]; injection H as <- <-).
  by apply bind_ok in H as ([r c] & Hr & [= <- <-]).
Qed.

Lemma conn_step_outcomes rt ev : rt_ok rt -> outcomes_ok rt -> outcomes_ok (conn_step rt ev).
Proof.
  intros H Ho.
  assert (forall g s, rt_futures rt !! g = Some s -> s <> FPending ->
    rt_futures (conn_step rt ev) !! g = Some s) as Hs
    by (intros g s Hg Hn; by eapply effects_settled, Hn; [by apply conn_step_effects|]).
  assert (forall f, outcomes_ok match rt_calls rt !! f with Some c => call_step rt f c ev | None => rt end) as Hcall
    by (intros f; destruct (rt_calls rt !! f) eqn:E; [by apply call_step_outcomes|done]).
  destruct ev; try (by apply Hcall); (eapply kept_outcomes; [done|done|]); intros g c; cbn [conn_step].
  - destruct (registry_register _ _ _ _ _ _ _); by left.
  - destruct (registry_activate _ _); by left.
  - destruct (registry_heartbeat _ _ _); by left.
  - destruct (disconnect_connection rt id) as [rt'|] eqn:E; [|by left]. simpl. unfold disconnect_connection in E.
    apply bind_ok in E as ([r d] & _ & [= <-]). unfold realtime_disconnect.
    repeat destruct (fail_connection _ _ _ _). by left.
  - destruct (unregister _ _); by left.
  - by left.
  - destruct (start_call rt k e timeout) as [[rt' f]|] eqn:E; [|by left]. simpl.
    apply start_call_ok in E as (c1 & H1 & H2 & H3 & H4 & Ha & Hcalls & _). rw Hcalls lookup_app_Some.
    intros [?|[_ Hl]]; [by left|right]. apply list_lookup_singleton_Some in Hl as [_ <-]. done.
  - pose proof (cancel_remote_calls rt conn inv) as E. destruct (cancel_remote rt conn inv) as [rt' sending]. simpl in E.
    destruct (sending && delivered); simpl; rw E; by left.
  - destruct (envelope_valid e); [|by left].
    destruct (handle_inbound rt conn e now false) as [[rt' b]|] eqn:E; [|by left]. simpl.
    rw (inbound_calls _ _ _ _ _ _ _ E). by left.
Qed.

Lemma conn_runs_outcomes r evs : outcomes_ok (runs conn_step (new_realtime r) evs).
Proof.
  assert (rt_ok (runs conn_step (new_realtime r) evs) /\ outcomes_ok (runs conn_step (new_realtime r) evs)) as [_ ?]; [|done].
  apply (runs_invariant (fun rt => rt_ok rt /\ outcomes_ok rt)).
  - intros rt ev [H Ho]. split; [by apply conn_step_ok|by apply conn_step_outcomes].
  - split; [apply new_realtime_ok|]. intros f c Hc. done.
Qed.

(** ** Theorems *)

(** [futures_tracked]: after any interleaving of calls, inbound messages, timeouts,
    cancellations and connection events, a multiplexer entry is the unsettled future of the
    call it was registered for, bound to that call's connection, and every unsettled future
    is still filed under its call's key: none leaks and none is shared. *)
Theorem futures_tracked r evs : rt_ok (runs conn_step (new_realtime r) evs).
Proof. apply conn_runs_ok. Qed.

(** [disconnect_final]: once a connection has been disconnected, no call bound to it is
    left waiting, then or ever after: the pending ones are settled by the disconnect and
    no later call can be started on it. *)
Theorem disconnect_final r evs id rt later f c :
  disconnect_connection (runs conn_step (new_realtime r) evs) id = Ok rt ->
  rt_calls (runs conn_step rt later) !! f = Some c -> cl_connection c = id ->
  exists s, rt_futures (runs conn_step rt later) !! f = Some s /\ s <> FPending.
Proof.
  intros Hd Hc <-. assert (Hq : quiesced (cl_connection c) (runs conn_step rt later)).
  { apply runs_invariant; [apply quiesced_step|]. eapply disconnect_quiesces, Hd. apply conn_runs_ok. }
  pose proof (q_settled _ _ Hq f _ _ (call_at_self _ _ _ Hc)) as Hn.
  destruct (rt_futures _ !! f) as [s|] eqn:E; [exists s; split; congruence|].
  apply lookup_ge_None in E. apply lookup_lt_Some in Hc. rw (ok_lengths _ (q_ok _ _ Hq)) in Hc. lia.
Qed.

(** C19 results_correlated: after any interleaving, a call that has returned a value holds
    exactly the payload of the result its future was settled with, and that result came with a
    message over the call's own connection, addressed to its own invocation id and of the type
    its kind of call answers with, which arrived while the future was pending; a call that has
    raised holds the exception of its future, or could not send.  A waiting call whose future
    has a result returns that result when it goes on.  And a settled future, whatever it was
    settled with, never changes. *)
Theorem results_correlated r evs f c :
  let rt := runs conn_step (new_realtime r) evs in
  rt_calls rt !! f = Some c ->
  (forall v, cl_phase c = Ended (CallReturned v) -> rt_futures rt !! f = Some (FResult v)) /\
  (forall x, cl_phase c = Ended (CallRaised x) -> rt_futures rt !! f = Some (FException x) \/
     x = RemoteConnectionLost (cl_connection c) (cl_invocation c)) /\
  (forall v, rt_futures rt !! f = Some (FResult v) ->
     (cl_phase c = Awaiting ->
      rt_calls (conn_step rt (EvReturn f)) !! f = Some (set_phase c (Ended (CallReturned v)))) /\
     exists before e now after,
       evs = before ++ EvInbound (cl_connection c) e now :: after /\ carries c e v /\
       rt_futures (runs conn_step (new_realtime r) before) !! f = Some FPending) /\
  (forall s later, rt_futures rt !! f = Some s -> s <> FPending ->
     rt_futures (runs conn_step rt later) !! f = Some s).
Proof.
  intros rt Hc. pose proof (conn_runs_outcomes r evs f c Hc) as Ho. unfold outcome_ok in Ho. split_and!.
  - intros v E. by rw E in Ho.
  - intros x E. by rw E in Ho.
  - intros v Hf. split.
    + intros E. cbn [conn_step]. rw Hc. unfold call_step. rw E Hf. cbn [with_phase rt_calls]. by rw list_lookup_alter_eq Hc.
    + destruct (result_origin _ _ _ _ _ Hc Hf) as (before & e & now & after & E & Hcar & Hp & _).
      by exists before, e, now, after.
  - intros s later. apply conn_runs_settled. apply conn_runs_ok.
Qed.

(** ** Examples *)

Definition invoke_envelope (k : CallKind) (conn inv : string) : RealtimeEnvelope :=
  {| env_type := match k with Execution => capability_invoke
                 | Reconciliation => capability_reconcile end;
     env_message_id := "m"; env_session_id := Some "s"; env_connection_id := Some conn;
     env_execution_id := None; env_invocation_id := Some inv; env_payload := [] |}.

Definition result_envelope (conn inv : string) (output : json) : RealtimeEnvelope :=
  {| env_type := capability_result; env_message_id := "m"; env_session_id := Some "s";
     env_connection_id := Some conn; env_execution_id := None; env_invocation_id := Some inv;
     env_payload := [("output", output)] |}.

(** One call on an active connection, answered. *)
Definition answered_call : list ConnEvent :=
  [EvRegister "s" "u" (Some "socket1") [] "c1" 0; EvActivate "c1";
   EvCall Execution (invoke_envelope Execution "c1" "i") 60; EvSent 0;
   EvInbound "c1" (result_envelope "c1" "i" (JInt 7)) 5; EvReturn 0].

Definition pending_calls : list ConnEvent :=
  [EvRegister "s" "u" (Some "socket1") [] "c1" 0; EvActivate "c1";
   EvCall Execution (invoke_envelope Execution "c1" "i") 60; EvSent 0;
   EvCall Reconciliation (invoke_envelope Reconciliation "c1" "i") 60; EvSent 1].

Lemma results_correlated_witness :
  rt_futures (runs conn_step (new_realtime empty_registry) answered_call) !! 0%nat = Some (FResult (JInt 7)) /\
  exists before e now after,
    answered_call = before ++ EvInbound "c1" e now :: after /\
    env_type e = capability_result /\ env_invocation_id e = Some "i".
Proof.
  destruct (results_correlated empty_registry answered_call 0
    {| cl_kind := Execution; cl_connection := "c1"; cl_invocation := "i";
       cl_phase := Ended (CallReturned (JInt 7)) |} eq_refl) as (H1 & _ & H2 & _).
  pose proof (H1 (JInt 7) eq_refl) as Hf. split; [exact Hf|].
  destruct (H2 (JInt 7) Hf) as (_ & before & e & now & after & E & (_ & Hi & Ht & _) & _).
  by exists before, e, now, after.
Defined.

Lemma disconnect_final_witness :
  exists rt s, disconnect_connection (runs conn_step (new_realtime empty_registry) pending_calls)
      "c1" = Ok rt /\ rt_futures rt !! 0%nat = Some s /\ s <> FPending.
Proof.
  destruct (disconnect_connection (runs conn_step (new_realtime empty_registry) pending_calls) "c1")
    as [rt|] eqn:E; [|by vm_compute in E].
  assert (Hc : exists c, rt_calls rt !! 0%nat = Some c /\ cl_connection c = "c1").
  { vm_compute in E. injection E as <-. by eexists. }
  destruct Hc as (c & Hc & Hconn).
  destruct (disconnect_final empty_registry pending_calls "c1" rt [] 0 c E Hc Hconn) as (s & Hs & Hn).
  by exists rt, s.
Defined.

(** An execution and a reconciliation of one invocation wait side by side, and the
    disconnect fails both. *)
Example disconnect_fails_both :
  rt_futures (conn_step (runs conn_step (new_realtime empty_registry) pending_calls)
                (EvDisconnect "c1")) =
  [FException (RemoteConnectionLost "c1" "i"); FException (RemoteConnectionLost "c1" "2:c1i")].
Proof. by vm_compute. Qed.

(** A timed-out call that is still sending capability.cancel cancels a newer call with the
    same invocation id when the send ends. *)
Example late_cleanup_cancels_newer_call :
  let evs := firstn 4 pending_calls ++
    [EvTimeout 0; EvCall Execution (invoke_envelope Execution "c1" "i") 60; EvSent 1] in
  rt_futures (runs conn_step (new_realtime empty_registry) evs) = [FCancelled; FPending] /\
  rt_futures (runs conn_step (new_realtime empty_registry) (evs ++ [EvCancelSent 0 true])) =
    [FCancelled; FCancelled].
Proof. by vm_compute. Qed.
