(* ===== verification/ResumeTicket.v ===== *)
(** * Resume tickets on the wire
    (src/se/src/runtimes/agent/waiting_ticket.py and src/cl/src/core/resume_ticket.py)

    The server projects a WAITING execution into a JSON ticket; the client parses tickets
    and the outcomes of its resume requests.  The datetimes of the standard library are
    modelled with their calendar: a datetime is a civil date and time with an optional
    offset in seconds.  [fromisoformat] is defined on the form that [isoformat] writes; on
    the other ISO 8601 forms it is the parameter [other_iso], about which nothing is
    assumed.  Exceptions are a sum: the client's callers tell ValueError from
    OverflowError. *)

From S2P Require Import Prelude Canonical PythonValues.

(** ** datetime *)

Record datetime := {
  dt_year : Z; dt_month : Z; dt_day : Z;
  dt_hour : Z; dt_minute : Z; dt_second : Z; dt_micro : Z;
  dt_tz : option Z
}.

#[global] Instance datetime_eq_dec : EqDecision datetime.
Proof. solve_decision. Defined.

Definition leap (y : Z) : bool :=
  (y mod 4 =? 0) && (negb (y mod 100 =? 0) || (y mod 400 =? 0)).

Definition days_in_month (y m : Z) : Z :=
  if m =? 2 then (if leap y then 29 else 28)
  else if (m =? 4) || (m =? 6) || (m =? 9) || (m =? 11) then 30 else 31.

Definition date_valid (y m d : Z) : bool :=
  (1 <=? y) && (y <=? 9999) && (1 <=? m) && (m <=? 12) && (1 <=? d) &&
  (d <=? days_in_month y m).

Definition time_valid (h mi s us : Z) : bool :=
  (0 <=? h) && (h <=? 23) && (0 <=? mi) && (mi <=? 59) && (0 <=? s) && (s <=? 59) &&
  (0 <=? us) && (us <=? 999999).

(** What the constructor of datetime accepts. *)
Definition datetime_valid (t : datetime) : bool :=
  date_valid (dt_year t) (dt_month t) (dt_day t) &&
  time_valid (dt_hour t) (dt_minute t) (dt_second t) (dt_micro t) &&
  match dt_tz t with Some o => (-86400 <? o) && (o <? 86400) | None => true end.

Definition next_day (y m d : Z) : Z * Z * Z :=
  if d <? days_in_month y m then (y, m, d + 1)
  else if m <? 12 then (y, m + 1, 1) else (y + 1, 1, 1).

Definition prev_day (y m d : Z) : Z * Z * Z :=
  if 1 <? d then (y, m, d - 1)
  else if 1 <? m then (y, m - 1, days_in_month y (m - 1)) else (y - 1, 12, 31).

Inductive TicketError := TicketValueError | TicketOverflowError.

(** [value.replace(tzinfo=utc)] when naive, then [value.astimezone(timezone.utc)]. *)
Definition to_utc (t : datetime) : result TicketError datetime :=
  let secs := dt_hour t * 3600 + dt_minute t * 60 + dt_second t - default 0 (dt_tz t) in
  let '(y, m, d) :=
    if secs <? 0 then prev_day (dt_year t) (dt_month t) (dt_day t)
    else if 86400 <=? secs then next_day (dt_year t) (dt_month t) (dt_day t)
    else (dt_year t, dt_month t, dt_day t) in
  let secs := secs mod 86400 in
  _ ← guard_err ((1 <=? y) && (y <=? 9999)) TicketOverflowError;
  mret {| dt_year := y; dt_month := m; dt_day := d; dt_hour := secs / 3600;
          dt_minute := secs / 60 mod 60; dt_second := secs mod 60; dt_micro := dt_micro t;
          dt_tz := Some 0 |}.

(** ** isoformat and fromisoformat *)

Definition digit (n : Z) : ascii := ascii_of_nat (Z.to_nat (48 + n)).

Definition digit_value (a : ascii) : option Z :=
  let n := Z.of_nat (nat_of_ascii a) - 48 in
  if (0 <=? n) && (n <=? 9) then Some n else None.

(** Zero-padded decimal of [w] digits. *)
Fixpoint pad (w : nat) (n : Z) : string :=
  match w with
  | O => EmptyString
  | S w' => String (digit (n / 10 ^ Z.of_nat w')) (pad w' (n mod 10 ^ Z.of_nat w'))
  end.

(** [w] digits, then the rest of the text. *)
Fixpoint take_digits (w : nat) (acc : Z) (s : string) : option (Z * string) :=
  match w, s with
  | O, _ => Some (acc, s)
  | S w', String a s' =>
      match digit_value a with Some d => take_digits w' (acc * 10 + d) s' | None => None end
  | S _, EmptyString => None
  end.

(** [isoformat()] of a UTC datetime. *)
Definition isoformat_utc (t : datetime) : string :=
  (pad 4 (dt_year t) +:+ "-" +:+ pad 2 (dt_month t) +:+ "-" +:+ pad 2 (dt_day t) +:+ "T" +:+
   pad 2 (dt_hour t) +:+ ":" +:+ pad 2 (dt_minute t) +:+ ":" +:+ pad 2 (dt_second t) +:+
   (if (dt_micro t =? 0)%Z then "" else "." +:+ pad 6 (dt_micro t)) +:+ "+00:00")%string.

(** One literal character. *)
Definition expect (a : ascii) (s : string) : option string :=
  match s with
  | String b s' => if bool_decide (a = b) then Some s' else None
  | EmptyString => None
  end.

Definition parse_micro (s : string) : option (Z * string) :=
  match expect "."%char s with
  | Some s' => take_digits 6 0 s'
  | None => Some (0, s)
  end.

(** Nothing, or a signed HH:MM. *)
Definition parse_offset (s : string) : option (option Z) :=
  match s with
  | EmptyString => Some None
  | String sign s =>
      sg ← (if bool_decide (sign = "+"%char) then Some 1
            else if bool_decide (sign = "-"%char) then Some (-1) else None);
      '(h, s) ← take_digits 2 0 s; s ← expect ":"%char s;
      '(m, s) ← take_digits 2 0 s;
      if bool_decide (s = "") && (h <=? 23) && (m <=? 59)
      then Some (Some (sg * (h * 3600 + m * 60))) else None
  end.

(** The extended form with seconds. *)
Definition parse_extended (s : string) : option datetime :=
  '(y, s) ← take_digits 4 0 s; s ← expect "-"%char s;
  '(m, s) ← take_digits 2 0 s; s ← expect "-"%char s;
  '(d, s) ← take_digits 2 0 s; s ← expect "T"%char s;
  '(h, s) ← take_digits 2 0 s; s ← expect ":"%char s;
  '(mi, s) ← take_digits 2 0 s; s ← expect ":"%char s;
  '(se, s) ← take_digits 2 0 s; '(us, s) ← parse_micro s;
  tz ← parse_offset s;
  let t := {| dt_year := y; dt_month := m; dt_day := d; dt_hour := h; dt_minute := mi;
              dt_second := se; dt_micro := us; dt_tz := tz |} in
  if datetime_valid t then Some t else None.

(** [text.replace("Z", "+00:00")]. *)
Fixpoint replace_z (s : string) : string :=
  match s with
  | EmptyString => EmptyString
  | String a s' => if bool_decide (a = "Z"%char) then ("+00:00" +:+ replace_z s')%string
                   else String a (replace_z s')
  end.

Section Iso.
(** [datetime.fromisoformat] on the forms [isoformat] does not write. *)
Context (other_iso : string -> option datetime).

Definition fromisoformat (s : string) : result TicketError datetime :=
  match parse_extended s with
  | Some t => Ok t
  | None => match other_iso s with Some t => Ok t | None => Err TicketValueError end
  end.

(** [str(value)] of a JSON value that is not a container. *)
Definition scalar_str (v : json) : option string :=
  match v with
  | JNull => Some "None"
  | JBool b => Some (if b then "True" else "False")%string
  | JInt z => Some (pretty z)
  | JStr s => Some s
  | JArr _ | JObj _ => None
  end.

(** [_parse_datetime]; the text of a list or a dict is never a date. *)
Definition parse_datetime (v : json) : result TicketError (option datetime) :=
  match v with
  | JNull => mret None
  | JStr EmptyString => mret None
  | _ =>
      match scalar_str v with
      | None => Err TicketValueError
      | Some s =>
          t ← fromisoformat (replace_z s);
          t ← to_utc t;
          mret (Some t)
      end
  end.

(** ** PendingResumeTicket *)

Record PendingResumeTicket := {
  tk_execution_id : string;
  tk_checkpoint_id : string;
  tk_revision : Z;
  tk_wait_reason : string;
  tk_pending_capability_ids : list string;
  tk_origin_client_id : option string;
  tk_wait_expires_at : option datetime;
  tk_auto_resume_allowed : bool
}.

(** [isinstance(value, str) and value.strip()]. *)
Definition nonblank (v : option json) : result TicketError string :=
  match v with
  | Some (JStr s) => if truthy (strip s) then Ok s else Err TicketValueError
  | _ => Err TicketValueError
  end.

(** The loop over pending_capability_ids. *)
Fixpoint client_capabilities (seen : list string) (l : list json)
    : result TicketError (list string) :=
  match l with
  | [] => mret []
  | item :: l' =>
      s ← nonblank (Some item);
      if bool_decide (strip s ∈ seen) then client_capabilities seen l'
      else
        rest ← client_capabilities (strip s :: seen) l';
        mret (strip s :: rest)
  end.

Definition from_payload (p : list (string * json)) : result TicketError PendingResumeTicket :=
  execution_id ← nonblank (payload_get p "execution_id");
  checkpoint_id ← nonblank (payload_get p "checkpoint_id");
  revision ← match payload_get p "revision" with
             | Some (JInt r) => if r <? 0 then Err TicketValueError else Ok r
             | _ => Err TicketValueError
             end;
  wait_reason ← nonblank (payload_get p "wait_reason");
  pending ← match payload_get p "pending_capability_ids" with
            | None => mret []
            | Some v =>
                if py_bool v
                then match v with
                     | JArr l => client_capabilities [] l
                     | _ => Err TicketValueError
                     end
                else mret []
            end;
  wait_expires_at ← parse_datetime (default JNull (payload_get p "wait_expires_at"));
  origin ← match payload_get p "origin_client_id" with
           | None | Some JNull => mret None
           | v => s ← nonblank v; mret (Some (strip s))
           end;
  auto ← match payload_get p "auto_resume_allowed" with
         | None => mret false
         | Some (JBool b) => mret b
         | Some _ => Err TicketValueError
         end;
  mret {| tk_execution_id := strip execution_id; tk_checkpoint_id := strip checkpoint_id;
          tk_revision := revision; tk_wait_reason := strip wait_reason;
          tk_pending_capability_ids := pending; tk_origin_client_id := origin;
          tk_wait_expires_at := wait_expires_at; tk_auto_resume_allowed := auto |}.

Definition ticket_key (t : PendingResumeTicket) : string * string :=
  (tk_execution_id t, tk_checkpoint_id t).

(** ** ResumeProtocolOutcome *)

Inductive OutcomeKind := KAccepted | KRejected | KFailed.

Definition outcome_kind (type : string) : option OutcomeKind :=
  if bool_decide (type = "execution.resume.accepted") then Some KAccepted
  else if bool_decide (type = "execution.resume.rejected") then Some KRejected
  else if bool_decide (type = "execution.resume.failed") then Some KFailed
  else None.

(** The fields the runtime reads. *)
Record ResumeProtocolOutcome := {
  oc_kind : OutcomeKind;
  oc_execution_id : string;
  oc_checkpoint_id : string;
  oc_resume_request_id : string;
  oc_code : option string;
  oc_retryable : bool;
  oc_claim_id : option string;
  oc_accepted_revision : option Z;
  oc_recovery_revision : option Z
}.

Definition optional_int (v : option json) : result TicketError (option Z) :=
  match v with
  | None | Some JNull => mret None
  | Some (JInt z) => mret (Some z)
  | Some _ => Err TicketValueError
  end.

Definition optional_str (v : option json) : result TicketError (option string) :=
  match v with
  | None | Some JNull => mret None
  | Some (JStr s) => mret (Some s)
  | Some _ => Err TicketValueError
  end.

(** [from_envelope]; the wire schema makes the payload an object or null. *)
Definition from_envelope (e : list (string * json)) : result TicketError ResumeProtocolOutcome :=
  kind ← match payload_get e "type" with
         | Some (JStr t) =>
             match outcome_kind t with Some k => mret k | None => Err TicketValueError end
         | _ => Err TicketValueError
         end;
  p ← match payload_get e "payload" with
      | Some (JObj p) => mret p
      | None => mret []
      | Some v => if py_bool v then Err TicketValueError else mret []
      end;
  let execution := match payload_get p "execution_id" with
                   | Some v => if py_bool v then Some v else payload_get e "execution_id"
                   | None => payload_get e "execution_id"
                   end in
  execution_id ← nonblank execution;
  checkpoint_id ← nonblank (payload_get p "checkpoint_id");
  resume_request_id ← nonblank (payload_get p "resume_request_id");
  retryable ← match payload_get p "retryable" with
              | None => mret false
              | Some (JBool b) => mret b
              | Some _ => Err TicketValueError
              end;
  code ← optional_str (payload_get p "code");
  claim_id ← optional_str (payload_get p "claim_id");
  accepted ← optional_int (payload_get p "accepted_revision");
  recovery ← optional_int (match payload_get p "recovery_revision" with
                           | Some v => Some v | None => payload_get p "revision" end);
  mret {| oc_kind := kind; oc_execution_id := strip execution_id;
          oc_checkpoint_id := strip checkpoint_id;
          oc_resume_request_id := strip resume_request_id; oc_code := code;
          oc_retryable := retryable; oc_claim_id := claim_id;
          oc_accepted_revision := accepted; oc_recovery_revision := recovery |}.
End Iso.

#[global] Instance PendingResumeTicket_eq_dec : EqDecision PendingResumeTicket.
Proof. solve_decision. Defined.

(** ** build_waiting_ticket_payload *)

Record WaitingExecution := {
  we_id : option string;
  we_execution_id : string;
  we_state : string;
  we_current_checkpoint_id : option string;
  we_revision : Z;
  we_wait_reason : option string;
  we_wait_expires_at : option datetime
}.

Record WaitingCheckpoint := {
  wc_checkpoint_id : string;
  wc_execution_revision : Z;
  wc_wait_reason : option string;
  wc_origin_client_id : option string;
  wc_wait_expires_at : option datetime
}.

(** [str(a or "")] of an optional string, and [a or b]. *)
Definition text (a : option string) : string := default "" a.
Definition first_text (a : option string) (b : string) : string :=
  if truthy (text a) then text a else b.

(** The loop over the pending invocations. *)
Fixpoint server_capabilities (seen : list string) (l : list (option string)) : list string :=
  match l with
  | [] => []
  | c :: l' =>
      if truthy (text c) && negb (bool_decide (text c ∈ seen))
      then text c :: server_capabilities (text c :: seen) l'
      else server_capabilities seen l'
  end.

Definition iso_utc (t : option datetime) : result TicketError json :=
  match t with
  | None => mret JNull
  | Some t => u ← to_utc t; mret (JStr (isoformat_utc u))
  end.

Definition opt_json (s : option string) : json :=
  match s with Some s => JStr s | None => JNull end.

Definition build_waiting_ticket_payload (execution : option WaitingExecution)
    (checkpoint : option WaitingCheckpoint) (pending : list (option string))
    : result TicketError (list (string * json)) :=
  match execution, checkpoint with
  | Some ex, Some cp =>
      _ ← guard_err (bool_decide (we_state ex = "WAITING")) TicketValueError;
      let execution_id := first_text (we_id ex) (we_execution_id ex) in
      let checkpoint_id := wc_checkpoint_id cp in
      _ ← guard_err (truthy execution_id && truthy checkpoint_id &&
                     bool_decide (text (we_current_checkpoint_id ex) = checkpoint_id))
            TicketValueError;
      _ ← guard_err (wc_execution_revision cp =? we_revision ex) TicketValueError;
      let wait_reason := text (we_wait_reason ex) in
      _ ← guard_err (truthy wait_reason && bool_decide (wait_reason = text (wc_wait_reason cp)))
            TicketValueError;
      let capability_ids := server_capabilities [] pending in
      let wait_expires_at := match wc_wait_expires_at cp with
                             | Some t => Some t | None => we_wait_expires_at ex end in
      expires ← iso_utc wait_expires_at;
      mret [("execution_id", JStr execution_id); ("checkpoint_id", JStr checkpoint_id);
            ("revision", JInt (we_revision ex)); ("wait_reason", JStr wait_reason);
            ("wait_expires_at", expires); ("origin_client_id", opt_json (wc_origin_client_id cp));
            ("pending_capability_ids", JArr (map JStr capability_ids));
            ("auto_resume_allowed",
             JBool (bool_decide (wait_reason = "CONNECTION") &&
                    truthy (text (wc_origin_client_id cp)) &&
                    negb (bool_decide (length capability_ids = 0%nat))))]
  | _, _ => Err TicketValueError
  end.

(** ** Lemmas: dates *)

Lemma digit_round n : 0 <= n <= 9 -> digit_value (digit n) = Some n.
Proof.
  intros H. unfold digit_value, digit. rw nat_ascii_embedding; [lia|].
  assert (E : Z.of_nat (Z.to_nat (48 + n)) - 48 = n) by lia. rw E.
  destruct (0 <=? n) eqn:E1, (n <=? 9) eqn:E2; breflect; simpl; try done; lia.
Qed.

Lemma append_cons a s r : (String a s +:+ r = String a (s +:+ r))%string.
Proof. done. Qed.

Lemma append_assoc a b c : (a +:+ (b +:+ c) = (a +:+ b) +:+ c)%string.
Proof. induction a as [|x a IH]; [done|]. by rw !append_cons IH. Qed.

Lemma take_pad w acc n rest :
  0 <= n < 10 ^ Z.of_nat w ->
  take_digits w acc (pad w n +:+ rest) = Some (acc * 10 ^ Z.of_nat w + n, rest).
Proof.
  revert acc n. induction w as [|w IH]; intros acc n Hn; cbn [pad take_digits].
  { f_equal. f_equal. change (10 ^ Z.of_nat 0) with 1 in *. lia. }
  assert (Hp : 0 < 10 ^ Z.of_nat w) by (apply Z.pow_pos_nonneg; lia).
  assert (Hs : 10 ^ Z.of_nat (S w) = 10 * 10 ^ Z.of_nat w)
    by (rw Nat2Z.inj_succ Z.pow_succ_r; lia).
  pose proof (Z.div_mod n (10 ^ Z.of_nat w) ltac:(lia)) as Hdm.
  pose proof (Z.mod_pos_bound n (10 ^ Z.of_nat w) Hp) as Hm.
  rw append_cons digit_round; [split; [apply Z.div_pos; lia|]|].
  { assert (n / 10 ^ Z.of_nat w < 10) by (apply Z.div_lt_upper_bound; lia). lia. }
  rw IH //. f_equal. f_equal. nia.
Qed.

Lemma take_pad_0 w n rest :
  0 <= n < 10 ^ Z.of_nat w -> take_digits w 0 (pad w n +:+ rest) = Some (n, rest).
Proof. intros H. by rw take_pad. Qed.

Lemma expect_same a s : expect a (String a s) = Some s.
Proof. simpl. by rw bool_decide_true. Qed.

Lemma days_in_month_bounds y m : 28 <= days_in_month y m <= 31.
Proof. unfold days_in_month. repeat case_match; lia. Qed.

Record datetime_ok (t : datetime) : Prop := {
  ok_year : 1 <= dt_year t <= 9999;
  ok_month : 1 <= dt_month t <= 12;
  ok_day : 1 <= dt_day t <= days_in_month (dt_year t) (dt_month t);
  ok_hour : 0 <= dt_hour t <= 23;
  ok_minute : 0 <= dt_minute t <= 59;
  ok_second : 0 <= dt_second t <= 59;
  ok_micro : 0 <= dt_micro t <= 999999;
  ok_tz : forall o, dt_tz t = Some o -> -86400 < o < 86400
}.

Lemma datetime_valid_iff t : datetime_valid t = true <-> datetime_ok t.
Proof.
  unfold datetime_valid, date_valid, time_valid. split.
  - intros H. breflect. split; try lia. intros o E. rw E in H0. breflect. lia.
  - intros []. destruct (dt_tz t) as [o|]; [specialize (ok_tz0 o eq_refl)|];
      repeat (apply andb_true_intro; split); try (apply Z.leb_le; lia); try (apply Z.ltb_lt; lia);
      done.
Qed.

Lemma prev_day_ok y m d :
  1 <= m <= 12 -> 1 <= d <= days_in_month y m ->
  let '(y', m', d') := prev_day y m d in
  1 <= m' <= 12 /\ 1 <= d' <= days_in_month y' m'.
Proof.
  intros Hm Hd. unfold prev_day. destruct (1 <? d) eqn:E1; [breflect; lia|].
  destruct (1 <? m) eqn:E2; breflect.
  - pose proof (days_in_month_bounds y (m - 1)). lia.
  - change (days_in_month (y - 1) 12) with 31. lia.
Qed.

Lemma next_day_ok y m d :
  1 <= m <= 12 -> 1 <= d <= days_in_month y m ->
  let '(y', m', d') := next_day y m d in
  1 <= m' <= 12 /\ 1 <= d' <= days_in_month y' m'.
Proof.
  intros Hm Hd. unfold next_day. destruct (d <? _) eqn:E1; [breflect; lia|].
  destruct (m <? 12) eqn:E2; breflect.
  - pose proof (days_in_month_bounds y (m + 1)). lia.
  - change (days_in_month (y + 1) 1) with 31. lia.
Qed.

(** A conversion to UTC that does not overflow gives a valid UTC datetime. *)
Lemma to_utc_ok t u :
  datetime_ok t -> to_utc t = Ok u -> datetime_ok u /\ dt_tz u = Some 0.
Proof.
  intros [] H. unfold to_utc in H.
  set (secs := _ - default 0 (dt_tz t)) in H. set (date := if secs <? 0 then _ else _) in H.
  assert (Hdate : let '(y, m, d) := date in 1 <= m <= 12 /\ 1 <= d <= days_in_month y m).
  { unfold date. destruct (secs <? 0); [by apply prev_day_ok|].
    destruct (86400 <=? secs); [by apply next_day_ok|]. lia. }
  destruct date as [[y m] d]. apply guard_bind_ok in H as [Hy H]. injection H as <-.
  pose proof (Z.mod_pos_bound secs 86400 ltac:(lia)). breflect.
  split; [split; simpl; try lia|done].
  - split; [apply Z.div_pos; lia|]. assert (secs mod 86400 / 3600 < 24); [|lia].
    apply Z.div_lt_upper_bound; lia.
  - pose proof (Z.mod_pos_bound (secs mod 86400 / 60) 60). lia.
  - pose proof (Z.mod_pos_bound (secs mod 86400) 60). lia.
  - intros o [= <-]. lia.
Qed.

(** A UTC datetime is its own conversion. *)
Lemma to_utc_id u : datetime_ok u -> dt_tz u = Some 0 -> to_utc u = Ok u.
Proof.
  intros [] E. unfold to_utc. rw E /=.
  set (secs := dt_hour u * 3600 + dt_minute u * 60 + dt_second u - 0).
  assert (Hs : 0 <= secs < 86400) by (unfold secs; lia).
  rw (proj2 (Z.ltb_ge _ _)); [lia|]. rw (proj2 (Z.leb_gt _ _)); [lia|].
  rw (proj2 (andb_true_iff _ _)); [split; apply Z.leb_le; lia|]. simpl.
  rw Z.mod_small //. unfold mret, result_ret. f_equal. destruct u. simpl in *. subst. f_equal.
  - symmetry. apply (Z.div_unique _ _ _ (dt_minute0 * 60 + dt_second0)); lia.
  - rw -(Z.div_unique secs 60 (dt_hour0 * 60 + dt_minute0) dt_second0); [lia..|].
    symmetry. apply (Z.mod_unique _ _ dt_hour0); lia.
  - symmetry. apply (Z.mod_unique _ _ (dt_hour0 * 60 + dt_minute0)); lia.
Qed.

Lemma expect_append a s : (expect a (String a "" +:+ s) = Some s)%string.
Proof. rw append_cons. apply expect_same. Qed.

Lemma parse_micro_round us :
  0 <= us <= 999999 ->
  parse_micro ((if (us =? 0)%Z then "" else "." +:+ pad 6 us) +:+ "+00:00")%string = Some (us, "+00:00").
Proof.
  intros H. unfold parse_micro. destruct (us =? 0) eqn:E; breflect; [by subst|].
  change (("." +:+ pad 6 us) +:+ "+00:00")%string with (String "." "" +:+ (pad 6 us +:+ "+00:00"))%string.
  rw expect_append. apply take_pad_0. simpl. lia.
Qed.

(** [fromisoformat] reads what [isoformat] writes. *)
Lemma parse_isoformat u :
  datetime_ok u -> dt_tz u = Some 0 -> parse_extended (isoformat_utc u) = Some u.
Proof.
  intros Hu E. pose proof (proj2 (datetime_valid_iff u) Hu) as Hv. destruct Hu as [].
  pose proof (days_in_month_bounds (dt_year u) (dt_month u)).
  unfold parse_extended, isoformat_utc.
  do 5 (rw take_pad_0; [simpl; lia|]; cbn [mbind option_bind]; rw expect_append;
        cbn [mbind option_bind]).
  rw take_pad_0; [simpl; lia|]. cbn [mbind option_bind]. rw parse_micro_round //.
  cbn [mbind option_bind]. assert (Ho : parse_offset "+00:00" = Some (Some 0)) by reflexivity.
  rw Ho. cbn [mbind option_bind]. destruct u. cbn [dt_tz] in E. subst. by rw Hv.
Qed.

(** Digits and separators are not "Z". *)
Lemma replace_z_append s r : (replace_z (s +:+ r) = replace_z s +:+ replace_z r)%string.
Proof.
  induction s as [|a s IH]; [done|]. rw append_cons. cbn [replace_z]. rw IH.
  case_bool_decide; [|done]. by rw append_assoc.
Qed.

Lemma digit_not_z n : 0 <= n <= 9 -> digit n <> "Z"%char.
Proof.
  intros H E. apply (f_equal digit_value) in E. by rw digit_round in E.
Qed.

Lemma replace_z_pad w n : 0 <= n < 10 ^ Z.of_nat w -> replace_z (pad w n) = pad w n.
Proof.
  revert n. induction w as [|w IH]; intros n Hn; [done|]. cbn [pad replace_z].
  assert (Hp : 0 < 10 ^ Z.of_nat w) by (apply Z.pow_pos_nonneg; lia).
  assert (Hs : 10 ^ Z.of_nat (S w) = 10 * 10 ^ Z.of_nat w)
    by (rw Nat2Z.inj_succ Z.pow_succ_r; lia).
  rw bool_decide_false; [apply digit_not_z; split; [apply Z.div_pos; lia|]|].
  { assert (n / 10 ^ Z.of_nat w < 10) by (apply Z.div_lt_upper_bound; lia). lia. }
  rw IH //. by apply Z.mod_pos_bound.
Qed.

Lemma replace_z_isoformat u : datetime_ok u -> replace_z (isoformat_utc u) = isoformat_utc u.
Proof.
  intros []. pose proof (days_in_month_bounds (dt_year u) (dt_month u)).
  unfold isoformat_utc. rw !replace_z_append !replace_z_pad; try (simpl; lia).
  destruct (dt_micro u =? 0); [done|]. rw replace_z_append replace_z_pad //. simpl. lia.
Qed.

(** ** Lemmas: the fields of a ticket *)

(** A non-empty string with no white space around it. *)
Definition clean (s : string) : Prop := truthy s = true /\ strip s = s.

Lemma nonblank_clean s : clean s -> nonblank (Some (JStr s)) = Ok s.
Proof. intros [H E]. simpl. by rw E H. Qed.

Lemma nonblank_ok v s : nonblank v = Ok s -> v = Some (JStr s) /\ truthy (strip s) = true.
Proof.
  destruct v as [[]|]; try done. simpl. destruct (truthy (strip s0)) eqn:E; naive_solver.
Qed.

Lemma server_capabilities_spec seen l c :
  c ∈ server_capabilities seen l <-> truthy c = true /\ Some c ∈ l /\ c ∉ seen.
Proof.
  revert seen. induction l as [|x l IH]; intros seen; simpl.
  { split; [by intros ?%not_elem_of_nil|]. by intros (_ & ?%not_elem_of_nil & _). }
  assert (Hx : forall c, truthy c = true -> Some c = x <-> text x = c).
  { intros c0 Hc0. unfold text. destruct x; simpl; [naive_solver|]. split; [done|]. by intros <-. }
  destruct (truthy (text x) && negb (bool_decide (text x ∈ seen))) eqn:E.
  - breflect. rw elem_of_cons IH !elem_of_cons. split.
    + intros [->|(Ht & Hl & Hn)]; [|tauto]. split; [done|]. split; [|done]. left. by apply Hx.
    + intros (Ht & [Hc|Hl] & Hs); [left; symmetry; by apply Hx|].
      destruct (decide (c = text x)); [by left|right]. tauto.
  - rw IH elem_of_cons. split; [tauto|]. intros (Ht & [Hc|Hl] & Hs); [|done].
    apply Hx in Hc; [|done]. subst c. rw Ht bool_decide_false // in E.
Qed.

Lemma server_capabilities_nodup seen l : NoDup (server_capabilities seen l).
Proof.
  revert seen. induction l as [|x l IH]; intros seen; simpl; [constructor|].
  case_match; [|done]. constructor; [|done]. intros (_ & _ & Hn)%server_capabilities_spec.
  apply Hn. by left.
Qed.

Lemma client_capabilities_clean seen l :
  NoDup l -> Forall clean l -> (forall c, c ∈ l -> c ∉ seen) ->
  client_capabilities seen (map JStr l) = Ok l.
Proof.
  intros Hd Hc. revert seen. induction Hd as [|x l Hx Hd IH]; intros seen Hs; [done|].
  apply Forall_cons in Hc as [Hx' Hc]. cbn [map client_capabilities]. rw nonblank_clean //.
  destruct Hx' as [_ E]. simpl. rw E bool_decide_false; [apply Hs; by left|].
  rw IH //. intros c Hin. rw not_elem_of_cons. split; [by intros ->|]. apply Hs. by right.
Qed.

Lemma parse_iso_utc other_iso t u :
  datetime_ok t -> to_utc t = Ok u ->
  parse_datetime other_iso (JStr (isoformat_utc u)) = Ok (Some u).
Proof.
  intros Ht Hu. destruct (to_utc_ok _ _ Ht Hu) as [Hok E]. unfold parse_datetime, scalar_str.
  destruct (isoformat_utc u) eqn:Ei; [done|]. rw -Ei replace_z_isoformat //.
  unfold fromisoformat. rw parse_isoformat //. cbn [mbind result_bind]. by rw to_utc_id.
Qed.

Lemma iso_utc_round other_iso d j :
  iso_utc d = Ok j -> (forall t, d = Some t -> datetime_ok t) ->
  exists o, parse_datetime other_iso j = Ok o /\
    match d with Some t => exists u, to_utc t = Ok u /\ o = Some u | None => o = None end.
Proof.
  destruct d as [t|]; simpl; intros H Ht.
  - apply bind_ok in H as (u & Hu & [= <-]). exists (Some u). split; [|eauto].
    by apply (parse_iso_utc _ t); [apply Ht|].
  - injection H as <-. by exists None.
Qed.

Definition origin_of (o : json) : result TicketError (option string) :=
  match o with JNull => mret None | v => s ← nonblank (Some v); mret (Some (strip s)) end.

Lemma origin_round o : (forall s, o = Some s -> clean s) -> origin_of (opt_json o) = Ok o.
Proof.
  destruct o as [s|]; [|done]. intros H. specialize (H s eq_refl). unfold origin_of, opt_json.
  rw nonblank_clean //. destruct H as [_ E]. simpl. by rw E.
Qed.

(** [from_payload] on the fields the server writes. *)
Lemma from_payload_written other_iso e c r w x o caps b :
  clean e -> clean c -> clean w -> 0 <= r ->
  from_payload other_iso
    [("execution_id", JStr e); ("checkpoint_id", JStr c); ("revision", JInt r);
     ("wait_reason", JStr w); ("wait_expires_at", x); ("origin_client_id", o);
     ("pending_capability_ids", JArr caps); ("auto_resume_allowed", JBool b)] =
  (pending ← client_capabilities [] caps;
   expires ← parse_datetime other_iso x;
   origin ← origin_of o;
   mret {| tk_execution_id := e; tk_checkpoint_id := c; tk_revision := r; tk_wait_reason := w;
           tk_pending_capability_ids := pending; tk_origin_client_id := origin;
           tk_wait_expires_at := expires; tk_auto_resume_allowed := b |}).
Proof.
  intros He Hc Hw Hr. unfold from_payload.
  change (payload_get _ "execution_id") with (Some (JStr e)).
  change (payload_get _ "checkpoint_id") with (Some (JStr c)).
  change (payload_get _ "wait_reason") with (Some (JStr w)).
  change (payload_get _ "revision") with (Some (JInt r)).
  rw !nonblank_clean //. cbn [mbind result_bind]. rw (proj2 (Z.ltb_ge _ _)) //.
  cbn [mbind result_bind]. destruct He as [_ ->], Hc as [_ ->], Hw as [_ ->].
  change (payload_get _ "pending_capability_ids") with (Some (JArr caps)).
  change (payload_get _ "wait_expires_at") with (Some x).
  change (payload_get _ "origin_client_id") with (Some o).
  change (payload_get _ "auto_resume_allowed") with (Some (JBool b)).
  by destruct caps, o.
Qed.

(** ** Theorems *)

(** [ticket_roundtrip]: the client reads from a published ticket what the server wrote:
    for identifiers without surrounding white space and a valid deadline, [from_payload]
    accepts the payload, the ticket's key, revision, reason and origin are those of the
    execution and its checkpoint, the capability ids are those of the pending invocations
    without repetition, the deadline is the same instant in UTC, and automatic resumption
    is allowed exactly for a CONNECTION wait with an origin and a pending capability. *)
Theorem ticket_roundtrip other_iso ex cp pending payload :
  build_waiting_ticket_payload (Some ex) (Some cp) pending = Ok payload ->
  clean (first_text (we_id ex) (we_execution_id ex)) -> clean (wc_checkpoint_id cp) ->
  clean (text (we_wait_reason ex)) -> 0 <= we_revision ex ->
  Forall (fun c => truthy (text c) = true -> clean (text c)) pending ->
  (forall o, wc_origin_client_id cp = Some o -> clean o) ->
  (forall t, wc_wait_expires_at cp = Some t \/ we_wait_expires_at ex = Some t -> datetime_ok t) ->
  exists t, from_payload other_iso payload = Ok t /\
    ticket_key t = (first_text (we_id ex) (we_execution_id ex), wc_checkpoint_id cp) /\
    tk_revision t = wc_execution_revision cp /\ tk_wait_reason t = text (wc_wait_reason cp) /\
    NoDup (tk_pending_capability_ids t) /\
    (forall c, c ∈ tk_pending_capability_ids t <-> truthy c = true /\ Some c ∈ pending) /\
    tk_origin_client_id t = wc_origin_client_id cp /\
    match (match wc_wait_expires_at cp with Some d => Some d | None => we_wait_expires_at ex end) with
    | Some d => exists u, to_utc d = Ok u /\ tk_wait_expires_at t = Some u
    | None => tk_wait_expires_at t = None
    end /\
    (tk_auto_resume_allowed t = true <->
     tk_wait_reason t = "CONNECTION" /\ (exists o, tk_origin_client_id t = Some o) /\
     tk_pending_capability_ids t <> []).
Proof.
  intros Hb He Hc Hw Hr Hp Ho Hd. unfold build_waiting_ticket_payload in Hb.
  apply guard_bind_ok in Hb as [_ Hb]. apply guard_bind_ok in Hb as [Hg Hb].
  apply guard_bind_ok in Hb as [Hrev Hb]. apply guard_bind_ok in Hb as [Hwr Hb].
  apply bind_ok in Hb as (expires & Hx & [= <-]). breflect.
  set (caps := server_capabilities [] pending) in *.
  set (deadline := match wc_wait_expires_at cp with Some d => Some d | None => _ end) in *.
  assert (Hcaps : client_capabilities [] (map JStr caps) = Ok caps).
  { apply client_capabilities_clean; [apply server_capabilities_nodup| |by intros ? _ ?%not_elem_of_nil].
    apply Forall_forall. intros c (Ht & Hin & _)%server_capabilities_spec.
    rw Forall_forall in Hp. by apply (Hp (Some c) Hin). }
  destruct (iso_utc_round other_iso _ _ Hx) as (o & Hpd & Hdl).
  { intros t Et. apply Hd. unfold deadline in Et. destruct (wc_wait_expires_at cp); auto. }
  eexists. split.
  { rw from_payload_written // Hcaps. cbn [mbind result_bind]. rw Hpd. cbn [mbind result_bind].
    rw origin_round //. }
  cbn [ticket_key tk_execution_id tk_checkpoint_id tk_revision tk_wait_reason
       tk_pending_capability_ids tk_origin_client_id tk_wait_expires_at tk_auto_resume_allowed].
  split_and!; try done.
  - apply server_capabilities_nodup.
  - intros c. unfold caps. rw server_capabilities_spec. set_solver.
  - rw !andb_true_iff bool_decide_eq_true negb_true_iff bool_decide_eq_false length_zero_iff_nil.
    destruct (wc_origin_client_id cp) as [s|]; simpl; [|naive_solver].
    destruct (Ho s eq_refl) as [Hs _]. rw Hs. naive_solver.
Qed.

(** ** Examples *)

Definition no_other_iso : string -> option datetime := fun _ => None.

(** Half past midnight on New Year's Day, one hour east of Greenwich. *)
Definition new_year : datetime :=
  {| dt_year := 2025; dt_month := 1; dt_day := 1; dt_hour := 0; dt_minute := 30; dt_second := 0;
     dt_micro := 250; dt_tz := Some 3600 |}.

Example new_year_utc :
  iso_utc (Some new_year) = Ok (JStr "2024-12-31T23:30:00.000250+00:00").
Proof. by vm_compute. Qed.

Definition sample_execution : WaitingExecution :=
  {| we_id := Some "e1"; we_execution_id := ""; we_state := "WAITING";
     we_current_checkpoint_id := Some "c1"; we_revision := 3; we_wait_reason := Some "CONNECTION";
     we_wait_expires_at := None |}.

Definition sample_checkpoint : WaitingCheckpoint :=
  {| wc_checkpoint_id := "c1"; wc_execution_revision := 3; wc_wait_reason := Some "CONNECTION";
     wc_origin_client_id := Some "client"; wc_wait_expires_at := Some new_year |}.

Definition sample_pending : list (option string) := [Some "tool.a"; None; Some "tool.b"; Some "tool.a"].

Lemma new_year_ok : datetime_ok new_year.
Proof. by apply datetime_valid_iff. Qed.

Lemma ticket_roundtrip_witness :
  exists payload t,
    build_waiting_ticket_payload (Some sample_execution) (Some sample_checkpoint) sample_pending
      = Ok payload /\
    from_payload no_other_iso payload = Ok t /\ ticket_key t = ("e1", "c1").
Proof.
  destruct (ticket_roundtrip no_other_iso sample_execution sample_checkpoint sample_pending _ eq_refl)
    as (t & Ht & Hk & _).
  1-4: done.
  1:{ repeat constructor; done. }
  1:{ by intros o [= <-]. }
  1:{ intros d [[= <-]|[=]]. apply new_year_ok. }
  eexists _, t. split; [reflexivity|]. split; [exact Ht|exact Hk].
Defined.

(** A deadline whose UTC date is before year one overflows: not a ValueError. *)
Example deadline_overflows :
  parse_datetime no_other_iso (JStr "0001-01-01T00:30:00+01:00") = Err TicketOverflowError.
Proof. by vm_compute. Qed.
