(* ===== verification/ResumeWorker.v ===== *)
(** * The client's resume tickets
    (src/cl/src/core/client_runtime.py and PendingResumeEntry of
    src/cl/src/core/resume_ticket.py)

    The client runtime keeps the tickets of WAITING executions, decides which may be
    resumed, and runs resume attempts from a worker thread or on request.  Everything under
    the runtime's lock is one step; an attempt is claimed in one step and its answer is
    applied in a later one, so a trace of [ClientEvent]s interleaves attempts, published
    tickets, disconnects, restarts and changes of identity.  Clock readings, fresh request
    and connection ids and the answers of the gateway are arguments of the events.  The
    tickets are a dict whose iteration order only matters where it is sorted.  The
    dispatcher, the gateway client and the session store are not part of the model, nor are
    the sleeps. *)

From S2P Require Import Prelude Canonical PythonValues ResumeTicket.

(** ** PendingResumeEntry *)

Inductive ResumeTicketState :=
  | OBSERVED | BLOCKED | ELIGIBLE | IN_FLIGHT | RETRY_SAME_REQUEST | WAIT_REFRESH
  | ACCEPTED | REJECTED | FAILED | EXPIRED | SUPERSEDED | CONFLICT.

#[global] Instance ResumeTicketState_eq_dec : EqDecision ResumeTicketState.
Proof. solve_decision. Defined.

Definition terminal_state (s : ResumeTicketState) : bool :=
  match s with
  | ACCEPTED | REJECTED | FAILED | EXPIRED | SUPERSEDED | CONFLICT => true
  | _ => false
  end.

Record PendingResumeEntry := {
  en_ticket : PendingResumeTicket;
  en_principal_id : option string;
  en_state : ResumeTicketState;
  en_active_resume_request_id : option string;
  en_attempt_generation : option Z;
  en_attempt_connection_id : option string;
  en_last_outcome_code : option string;
  en_freshness_epoch : Z
}.

Definition new_entry (t : PendingResumeTicket) (principal : option string) : PendingResumeEntry :=
  {| en_ticket := t; en_principal_id := principal; en_state := OBSERVED;
     en_active_resume_request_id := None; en_attempt_generation := None;
     en_attempt_connection_id := None; en_last_outcome_code := None; en_freshness_epoch := 0 |}.

Definition terminal (e : PendingResumeEntry) : bool := terminal_state (en_state e).

Definition set_entry_state (e : PendingResumeEntry) (s : ResumeTicketState) : PendingResumeEntry :=
  {| en_ticket := en_ticket e; en_principal_id := en_principal_id e; en_state := s;
     en_active_resume_request_id := en_active_resume_request_id e;
     en_attempt_generation := en_attempt_generation e;
     en_attempt_connection_id := en_attempt_connection_id e;
     en_last_outcome_code := en_last_outcome_code e;
     en_freshness_epoch := en_freshness_epoch e |}.

Definition set_outcome_code (e : PendingResumeEntry) (c : option string) : PendingResumeEntry :=
  {| en_ticket := en_ticket e; en_principal_id := en_principal_id e; en_state := en_state e;
     en_active_resume_request_id := en_active_resume_request_id e;
     en_attempt_generation := en_attempt_generation e;
     en_attempt_connection_id := en_attempt_connection_id e; en_last_outcome_code := c;
     en_freshness_epoch := en_freshness_epoch e |}.

Definition refreshed (e : PendingResumeEntry) : PendingResumeEntry :=
  {| en_ticket := en_ticket e; en_principal_id := en_principal_id e; en_state := en_state e;
     en_active_resume_request_id := en_active_resume_request_id e;
     en_attempt_generation := en_attempt_generation e;
     en_attempt_connection_id := en_attempt_connection_id e;
     en_last_outcome_code := en_last_outcome_code e;
     en_freshness_epoch := en_freshness_epoch e + 1 |}.

(** [ensure_resume_request_id]; [fresh] is what the factory would make. *)
Definition ensure_resume_request_id (e : PendingResumeEntry) (fresh : string) : string :=
  default fresh (en_active_resume_request_id e).

Definition clear_resume_request_for_new_attempt (e : PendingResumeEntry) : PendingResumeEntry :=
  {| en_ticket := en_ticket e; en_principal_id := en_principal_id e; en_state := en_state e;
     en_active_resume_request_id := None; en_attempt_generation := None;
     en_attempt_connection_id := None; en_last_outcome_code := en_last_outcome_code e;
     en_freshness_epoch := en_freshness_epoch e |}.

(** ** ClientRuntime *)

Inductive ClientRuntimeState :=
  | STOPPED | AUTH_READY | CONNECTING | REGISTERING_CAPABILITIES | READY | DISCONNECTED
  | BACKOFF | DRAINING.

#[global] Instance ClientRuntimeState_eq_dec : EqDecision ClientRuntimeState.
Proof. solve_decision. Defined.

Abbreviation key := (string * string)%type.

(** An attempt that was claimed; [at_done] once its answer was applied. *)
Record Attempt := {
  at_key : key;
  at_ticket : PendingResumeTicket;
  at_request : string;
  at_generation : Z;
  at_done : bool
}.

Record Client := {
  cr_owner_id : option string;
  cr_client_id : string;
  cr_state : ClientRuntimeState;
  cr_ready : bool;
  cr_generation : Z;
  cr_generation_started : bool;
  cr_connection_id : string;
  cr_stopping : bool;
  cr_suppress_reconnect : bool;
  cr_worker_stop : bool;
  cr_confirmed : gset string;
  cr_tickets : gmap key PendingResumeEntry;
  cr_watermarks : gmap string Z;
  cr_conflicts : gmap string Z;
  cr_last_key : option key;
  cr_attempts : list Attempt
}.

(** The assignments the methods make. *)
Definition set_run (c : Client) (owner : option string) (s : ClientRuntimeState) (ready : bool)
    (confirmed : gset string) : Client :=
  {| cr_owner_id := owner; cr_client_id := cr_client_id c; cr_state := s; cr_ready := ready;
     cr_generation := cr_generation c; cr_generation_started := cr_generation_started c;
     cr_connection_id := cr_connection_id c; cr_stopping := cr_stopping c;
     cr_suppress_reconnect := cr_suppress_reconnect c; cr_worker_stop := cr_worker_stop c;
     cr_confirmed := confirmed; cr_tickets := cr_tickets c; cr_watermarks := cr_watermarks c;
     cr_conflicts := cr_conflicts c; cr_last_key := cr_last_key c; cr_attempts := cr_attempts c |}.

Definition set_flags (c : Client) (stopping suppress worker_stop : bool) : Client :=
  {| cr_owner_id := cr_owner_id c; cr_client_id := cr_client_id c; cr_state := cr_state c;
     cr_ready := cr_ready c; cr_generation := cr_generation c;
     cr_generation_started := cr_generation_started c; cr_connection_id := cr_connection_id c;
     cr_stopping := stopping; cr_suppress_reconnect := suppress; cr_worker_stop := worker_stop;
     cr_confirmed := cr_confirmed c; cr_tickets := cr_tickets c;
     cr_watermarks := cr_watermarks c; cr_conflicts := cr_conflicts c;
     cr_last_key := cr_last_key c; cr_attempts := cr_attempts c |}.

Definition set_transport (c : Client) (generation : Z) (started : bool) (conn : string)
    (confirmed : gset string) : Client :=
  {| cr_owner_id := cr_owner_id c; cr_client_id := cr_client_id c; cr_state := cr_state c;
     cr_ready := cr_ready c; cr_generation := generation; cr_generation_started := started;
     cr_connection_id := conn; cr_stopping := cr_stopping c;
     cr_suppress_reconnect := cr_suppress_reconnect c; cr_worker_stop := cr_worker_stop c;
     cr_confirmed := confirmed; cr_tickets := cr_tickets c; cr_watermarks := cr_watermarks c;
     cr_conflicts := cr_conflicts c; cr_last_key := cr_last_key c; cr_attempts := cr_attempts c |}.

Definition set_resume (c : Client) (tickets : gmap key PendingResumeEntry)
    (watermarks conflicts : gmap string Z) (last : option key) (attempts : list Attempt) : Client :=
  {| cr_owner_id := cr_owner_id c; cr_client_id := cr_client_id c; cr_state := cr_state c;
     cr_ready := cr_ready c; cr_generation := cr_generation c;
     cr_generation_started := cr_generation_started c; cr_connection_id := cr_connection_id c;
     cr_stopping := cr_stopping c; cr_suppress_reconnect := cr_suppress_reconnect c;
     cr_worker_stop := cr_worker_stop c; cr_confirmed := cr_confirmed c; cr_tickets := tickets;
     cr_watermarks := watermarks; cr_conflicts := conflicts; cr_last_key := last;
     cr_attempts := attempts |}.

Definition set_tickets (c : Client) (tickets : gmap key PendingResumeEntry) : Client :=
  set_resume c tickets (cr_watermarks c) (cr_conflicts c) (cr_last_key c) (cr_attempts c).

(** *** Watermarks and classification *)

Definition behind (execution : string) (revision : Z) (e : PendingResumeEntry) : bool :=
  bool_decide (tk_execution_id (en_ticket e) = execution) &&
  (tk_revision (en_ticket e) <? revision) && negb (terminal e).

(** Comparisons of a revision with a recorded one, if any. *)
Definition reached (recorded : option Z) (revision : Z) : bool :=
  match recorded with Some w => revision <=? w | None => false end.
Definition below (recorded : option Z) (revision : Z) : bool :=
  match recorded with Some w => revision <? w | None => false end.

(** [_advance_resume_watermark_locked]. *)
Definition advance_resume_watermark (c : Client) (execution : string) (revision : Z) : Client :=
  if reached (cr_watermarks c !! execution) revision then c
  else
    set_resume c
      ((fun e => if behind execution revision e then set_entry_state e SUPERSEDED else e)
         <$> cr_tickets c)
      (<[execution := revision]> (cr_watermarks c))
      (match cr_conflicts c !! execution with
       | Some r => if r <? revision then delete execution (cr_conflicts c) else cr_conflicts c
       | None => cr_conflicts c
       end)
      (cr_last_key c) (cr_attempts c).

(** The order of UTC datetimes. *)
Definition dt_rank (t : datetime) : Z :=
  (((((dt_year t * 13 + dt_month t) * 32 + dt_day t) * 24 + dt_hour t) * 60 + dt_minute t) * 60
   + dt_second t) * 1000000 + dt_micro t.

Definition ticket_expired (t : PendingResumeTicket) (now : datetime) : bool :=
  match tk_wait_expires_at t with
  | None => false
  | Some x => dt_rank x <=? dt_rank now
  end.

(** The ticket may be resumed by this client as far as the ticket itself says. *)
Definition authorized (c : Client) (e : PendingResumeEntry) : bool :=
  let t := en_ticket e in
  bool_decide (cr_watermarks c !! tk_execution_id t = Some (tk_revision t)) &&
  bool_decide (en_principal_id e = cr_owner_id c) &&
  bool_decide (tk_origin_client_id t = Some (cr_client_id c)) &&
  bool_decide (tk_wait_reason t = "CONNECTION") &&
  tk_auto_resume_allowed t &&
  negb (bool_decide (length (tk_pending_capability_ids t) = 0%nat)).

(** The transport is ready and has the capabilities the ticket waits for. *)
Definition capable (c : Client) (e : PendingResumeEntry) : bool :=
  cr_ready c && bool_decide (cr_state c = READY) &&
  bool_decide (Forall (fun x => x ∈ cr_confirmed c) (tk_pending_capability_ids (en_ticket e))).

(** [_classify_resume_entry_locked]. *)
Definition classify (c : Client) (now : datetime) (e : PendingResumeEntry) : PendingResumeEntry :=
  if terminal e then e
  else if ticket_expired (en_ticket e) now && bool_decide (en_active_resume_request_id e = None)
  then set_entry_state e EXPIRED
  else if negb (authorized c e) then set_entry_state e BLOCKED
  else if negb (capable c e) then set_entry_state e BLOCKED
  else match en_state e with
       | IN_FLIGHT | RETRY_SAME_REQUEST | WAIT_REFRESH => e
       | _ => set_entry_state e ELIGIBLE
       end.

Definition runnable (e : PendingResumeEntry) : bool :=
  match en_state e with ELIGIBLE | RETRY_SAME_REQUEST => true | _ => false end.

(** [_ensure_resume_worker_locked]; [alive] says whether the old thread still runs. *)
Definition ensure_resume_worker (c : Client) (alive : bool) : Client :=
  if alive then c else set_flags c (cr_stopping c) (cr_suppress_reconnect c) false.

(** *** Published tickets *)

(** Another checkpoint of the same execution at the same revision. *)
Definition rival (t : PendingResumeTicket) (e : PendingResumeEntry) : bool :=
  bool_decide (tk_execution_id (en_ticket e) = tk_execution_id t) &&
  (tk_revision (en_ticket e) =? tk_revision t) &&
  negb (bool_decide (tk_checkpoint_id (en_ticket e) = tk_checkpoint_id t)) &&
  negb (terminal e).

(** The body of [_ingest_waiting_payload] on a parsed ticket. *)
Definition ingest_ticket (c : Client) (t : PendingResumeTicket) (now : datetime) (alive : bool)
    : Client * bool :=
  let x := tk_execution_id t in
  let watermark := cr_watermarks c !! x in
  if below watermark (tk_revision t) then (c, false)
  else if reached (cr_conflicts c !! x) (tk_revision t) then (c, false)
  else if bool_decide (map_Exists (fun _ e => rival t e = true) (cr_tickets c)) then
    (set_resume c
       ((fun e => if rival t e then set_entry_state e CONFLICT else e) <$> cr_tickets c)
       (cr_watermarks c) (<[x := tk_revision t]> (cr_conflicts c)) (cr_last_key c)
       (cr_attempts c), false)
  else
    let c := if reached watermark (tk_revision t) then c
             else advance_resume_watermark c x (tk_revision t) in
    match cr_tickets c !! ticket_key t with
    | Some e =>
        if bool_decide (en_ticket e = t) then
          let e := refreshed e in
          let e := if bool_decide (en_state e = WAIT_REFRESH) then set_entry_state e OBSERVED
                   else e in
          (set_tickets c (<[ticket_key t := classify c now e]> (cr_tickets c)), true)
        else (set_tickets c (<[ticket_key t := set_entry_state e CONFLICT]> (cr_tickets c)), false)
    | None =>
        let e := new_entry t (cr_owner_id c) in
        (ensure_resume_worker
           (set_tickets c (<[ticket_key t := classify c now e]> (cr_tickets c))) alive, true)
    end.

(** *** Claims *)

Definition key_ltb (a b : key) : bool :=
  String.ltb a.1 b.1 || (bool_decide (a.1 = b.1) && String.ltb a.2 b.2).

Definition sorted_keys (tickets : gmap key PendingResumeEntry) : list key :=
  sort_by (fun k => k) key_ltb (map fst (map_to_list tickets)).

(** [_next_resume_key_locked]; [clock] is the reading when each entry is classified. *)
Definition next_resume_key (c : Client) (clock : key -> datetime) : Client * option key :=
  if negb (cr_ready c && bool_decide (cr_state c = READY)) then (c, None)
  else
    let tickets := map_imap (fun k e => Some (classify c (clock k) e)) (cr_tickets c) in
    let eligible := List.filter (fun k => match tickets !! k with
                                          | Some e => runnable e | None => false end)
                      (sorted_keys (cr_tickets c)) in
    (set_tickets c tickets,
     match cr_last_key c with
     | None => head eligible
     | Some last =>
         match List.filter (key_ltb last) eligible with
         | k :: _ => Some k
         | [] => head eligible
         end
     end).

(** [_claim_resume_attempt_locked]. *)
Definition claim_resume_attempt (c : Client) (k : key) (fresh : string) (now : datetime)
    : Client * option Attempt :=
  match cr_tickets c !! k with
  | None => (c, None)
  | Some e =>
      let e := classify c now e in
      if runnable e then
        let request := ensure_resume_request_id e fresh in
        let e' := {| en_ticket := en_ticket e; en_principal_id := en_principal_id e;
                     en_state := IN_FLIGHT; en_active_resume_request_id := Some request;
                     en_attempt_generation := Some (cr_generation c);
                     en_attempt_connection_id := Some (cr_connection_id c);
                     en_last_outcome_code := en_last_outcome_code e;
                     en_freshness_epoch := en_freshness_epoch e |} in
        let a := {| at_key := k; at_ticket := en_ticket e; at_request := request;
                    at_generation := cr_generation c; at_done := false |} in
        (set_resume c (<[k := e']> (cr_tickets c)) (cr_watermarks c) (cr_conflicts c) (Some k)
           (cr_attempts c ++ [a]), Some a)
      else (set_tickets c (<[k := e]> (cr_tickets c)), None)
  end.

(** One round of [_resume_worker_loop]: the search and the claim hold the lock together. *)
Definition worker_round (c : Client) (clock : key -> datetime) (fresh : string) (now : datetime)
    : Client :=
  if cr_worker_stop c then c
  else
    let (c, k) := next_resume_key c clock in
    match k with
    | Some k => (claim_resume_attempt c k fresh now).1
    | None => c
    end.

(** [resume_execution]: the same state machine on request. *)
Definition resume_execution (c : Client) (k : key) (fresh : string) (now1 now2 : datetime)
    : Client * option Attempt :=
  if cr_ready c then
    match cr_tickets c !! k with
    | Some e =>
        if terminal e then (c, None)
        else
          let e := classify c now1 e in
          let e := if bool_decide (en_state e = WAIT_REFRESH) then set_entry_state e ELIGIBLE
                   else e in
          claim_resume_attempt (set_tickets c (<[k := e]> (cr_tickets c))) k fresh now2
    | None => (c, None)
    end
  else (c, None).

(** *** Answers *)

(** [_apply_resume_outcome_locked] on the entry [e] filed under [k]. *)
Definition apply_resume_outcome (c : Client) (k : key) (e : PendingResumeEntry)
    (o : ResumeProtocolOutcome) (now : datetime) : Client :=
  let t := en_ticket e in
  let store c e := set_tickets c (<[k := e]> (cr_tickets c)) in
  if negb (bool_decide (oc_execution_id o = tk_execution_id t) &&
           bool_decide (oc_checkpoint_id o = tk_checkpoint_id t) &&
           bool_decide (Some (oc_resume_request_id o) = en_active_resume_request_id e))
  then store c (set_entry_state e CONFLICT)
  else
    let floor := tk_revision t + 1 in
    match oc_kind o with
    | KAccepted =>
        match oc_accepted_revision o with
        | None =>
            store (advance_resume_watermark c (tk_execution_id t) floor)
              (set_entry_state (set_outcome_code e (Some "RESUME_PROTOCOL_CONFLICT")) CONFLICT)
        | Some r =>
            let c := advance_resume_watermark c (tk_execution_id t) (Z.max floor r) in
            set_tickets c (delete (ticket_key t) (cr_tickets c))
        end
    | KFailed =>
        let floor := match oc_recovery_revision o with
                     | Some r => Z.max floor r | None => floor end in
        let c := advance_resume_watermark c (tk_execution_id t) floor in
        set_tickets c (delete (ticket_key t) (cr_tickets c))
    | KRejected =>
        let e := set_outcome_code e (oc_code o) in
        if bool_decide (oc_code o = Some "RESUME_CONFLICT") && oc_retryable o &&
           bool_decide (oc_claim_id o <> None)
        then store c (set_entry_state e RETRY_SAME_REQUEST)
        else
          let e := clear_resume_request_for_new_attempt e in
          if bool_decide (oc_code o = Some "CLAIM_EXPIRED")
          then store c (classify c now (set_entry_state e OBSERVED))
          else if oc_retryable o then store c (set_entry_state e WAIT_REFRESH)
          else store c (set_entry_state e REJECTED)
    end.

Definition finish_attempt (c : Client) (i : nat) : Client :=
  set_resume c (cr_tickets c) (cr_watermarks c) (cr_conflicts c) (cr_last_key c)
    (alter (fun a => {| at_key := at_key a; at_ticket := at_ticket a; at_request := at_request a;
                        at_generation := at_generation a; at_done := true |}) i (cr_attempts c)).

(** What [realtime.resume_execution] did. *)
Inductive Answer :=
  | Raised
  | Message (envelope : list (string * json)).

(** [_execute_resume_attempt] after the call. *)
Definition complete_attempt (c : Client) (a : Attempt) (r : Answer) (now : datetime) : Client :=
  match cr_tickets c !! at_key a with
  | None => c
  | Some e =>
      if bool_decide (en_active_resume_request_id e = Some (at_request a)) then
        match r with
        | Raised =>
            if terminal e then c
            else set_tickets c (<[at_key a := set_entry_state e RETRY_SAME_REQUEST]> (cr_tickets c))
        | Message m =>
            match from_envelope m with
            | Err _ =>
                set_tickets c
                  (<[at_key a := set_entry_state
                                   (set_outcome_code e (Some "RESUME_PROTOCOL_CONFLICT")) CONFLICT]>
                     (cr_tickets c))
            | Ok o => apply_resume_outcome c (at_key a) e o now
            end
        end
      else c
  end.

(** *** Starting, disconnecting and draining *)

(** [_confirmed_from_registration_ack]. *)
Definition confirmed_capability (item : json) : option string :=
  match item with
  | JObj f =>
      match payload_get f "state", payload_get f "capability_id" with
      | Some (JStr s), Some v =>
          if (bool_decide (s = "ENABLED") || bool_decide (s = "DEGRADED")) && py_bool v
          then scalar_str v else None
      | _, _ => None
      end
  | _ => None
  end.

Definition confirmed_from_ack (ack : list (string * json)) : gset string :=
  match payload_get ack "payload" with
  | Some (JObj p) =>
      match payload_get p "capabilities" with
      | Some (JArr l) => list_to_set (omap confirmed_capability l)
      | _ => ∅
      end
  | _ => ∅
  end.

(** [_replace_realtime_generation]. *)
Definition replace_realtime_generation (c : Client) (conn : string) : Client :=
  set_transport c (cr_generation c + 1) (cr_generation_started c) conn ∅.

(** How far [connect] and [register] get. *)
Inductive StartNet :=
  | ConnectRaises
  | RegisterRaises
  | Registered (ack : list (string * json)).

(** [start] holds the lock throughout; [identity] is the owner the gateway reports when the
    client has none, [conn] a fresh connection id. *)
Definition start (c : Client) (identity : option string) (conn : string) (net : StartNet)
    (alive : bool) : Client :=
  if cr_ready c then c
  else
    let c := set_flags c false false (cr_worker_stop c) in
    let owner := match cr_owner_id c with
                 | Some o => if truthy o then Some o else identity
                 | None => identity
                 end in
    if negb (truthy (default "" owner))
    then set_run c owner (cr_state c) (cr_ready c) (cr_confirmed c)
    else
      let c := set_run c owner AUTH_READY (cr_ready c) (cr_confirmed c) in
      let c := if cr_generation_started c then replace_realtime_generation c conn
               else set_transport c (cr_generation c) true (cr_connection_id c) (cr_confirmed c) in
      match net with
      | ConnectRaises => set_run c owner CONNECTING (cr_ready c) (cr_confirmed c)
      | RegisterRaises => set_run c owner REGISTERING_CAPABILITIES (cr_ready c) (cr_confirmed c)
      | Registered ack =>
          let c := set_run c owner READY true (confirmed_from_ack ack) in
          ensure_resume_worker
            (set_tickets c
               ((fun e => if bool_decide (en_state e = WAIT_REFRESH) then set_entry_state e OBSERVED
                          else e) <$> cr_tickets c)) alive
      end.

(** [_handle_disconnect] for a transport of the given generation. *)
Definition handle_disconnect (c : Client) (generation : Z) : Client :=
  if bool_decide (generation = cr_generation c) then
    let c := set_run c (cr_owner_id c) DISCONNECTED false ∅ in
    set_tickets c
      ((fun e => if bool_decide (en_state e = IN_FLIGHT) then set_entry_state e RETRY_SAME_REQUEST
                 else e) <$> cr_tickets c)
  else c.

(** [_drain_current_generation] before the lock. *)
Definition drain_begin (c : Client) : Client :=
  set_flags (set_run c (cr_owner_id c) DRAINING (cr_ready c) (cr_confirmed c))
    (cr_stopping c) true (cr_worker_stop c).

(** The locked part, with [_invalidate_resume_state_locked], and the finally clause. *)
Definition drain_invalidate (c : Client) : Client :=
  set_flags
    (set_resume (set_run c (cr_owner_id c) (cr_state c) false ∅) ∅ ∅ ∅ None (cr_attempts c))
    (cr_stopping c) false (cr_worker_stop c).

(** The locked part of [stop]. *)
Definition stop (c : Client) : Client :=
  set_flags (set_run c (cr_owner_id c) STOPPED false ∅) true true true.

(** *** Traces *)

Inductive ClientEvent :=
  | EvStart (identity : option string) (conn : string) (net : StartNet) (alive : bool)
  | EvDisconnect (generation : Z)
  | EvBackoff
  | EvDrainBegin
  | EvDrain
  | EvSetOwner (owner : option string)
  | EvStop
  | EvWaiting (generation : option Z) (payload : list (string * json)) (now : datetime)
      (alive : bool)
  | EvWorker (clock : key -> datetime) (fresh : string) (now : datetime)
  | EvResume (k : key) (fresh : string) (now1 now2 : datetime)
  | EvAnswer (i : nat) (r : Answer) (now : datetime).

Section Traces.
Context (other_iso : string -> option datetime).

(** [_handle_realtime_message] and [chat] on a WAITING payload; a payload that does not
    parse is ignored, and one that raises leaves the state as it is. *)
Definition ingest_waiting_payload (c : Client) (payload : list (string * json)) (now : datetime)
    (alive : bool) : Client :=
  match from_payload other_iso payload with
  | Ok t => (ingest_ticket c t now alive).1
  | Err _ => c
  end.

Definition client_step (c : Client) (ev : ClientEvent) : Client :=
  match ev with
  | EvStart identity conn net alive => start c identity conn net alive
  | EvDisconnect g => handle_disconnect c g
  | EvBackoff => if cr_stopping c then c
                 else set_run c (cr_owner_id c) BACKOFF (cr_ready c) (cr_confirmed c)
  | EvDrainBegin => drain_begin c
  | EvDrain => drain_invalidate c
  | EvSetOwner owner => set_run c owner (cr_state c) (cr_ready c) (cr_confirmed c)
  | EvStop => stop c
  | EvWaiting g payload now alive =>
      if match g with Some g => bool_decide (g = cr_generation c) | None => true end
      then ingest_waiting_payload c payload now alive else c
  | EvWorker clock fresh now => worker_round c clock fresh now
  | EvResume k fresh now1 now2 => (resume_execution c k fresh now1 now2).1
  | EvAnswer i r now =>
      match cr_attempts c !! i with
      | Some a => if at_done a then c else finish_attempt (complete_attempt c a r now) i
      | None => c
      end
  end.
End Traces.

(** The constructor. *)
Definition new_client (owner : option string) (client_id conn : string) : Client :=
  {| cr_owner_id := owner; cr_client_id := client_id; cr_state := STOPPED; cr_ready := false;
     cr_generation := 0; cr_generation_started := false; cr_connection_id := conn;
     cr_stopping := false; cr_suppress_reconnect := false; cr_worker_stop := false;
     cr_confirmed := ∅; cr_tickets := ∅; cr_watermarks := ∅; cr_conflicts := ∅;
     cr_last_key := None; cr_attempts := [] |}.

(** ** What the theorems speak of *)

(** The answer of an attempt is applied to the entry of [k]. *)
Definition settles (c : Client) (ev : ClientEvent) (k : key) : bool :=
  match ev with
  | EvAnswer i (Message _) _ =>
      match cr_attempts c !! i with
      | Some a =>
          negb (at_done a) && bool_decide (at_key a = k) &&
          match cr_tickets c !! k with
          | Some e => bool_decide (en_active_resume_request_id e = Some (at_request a))
          | None => false
          end
      | None => false
      end
  | _ => false
  end.

Definition drains (ev : ClientEvent) : bool := match ev with EvDrain => true | _ => false end.

(** A condition on each event and the state it happens in. *)
Fixpoint along other_iso (ok : Client -> ClientEvent -> bool) (c : Client)
    (evs : list ClientEvent) : bool :=
  match evs with
  | [] => true
  | ev :: evs => ok c ev && along other_iso ok (client_step other_iso c ev) evs
  end.

(** No change of identity, and no answer for [k], happens along the trace. *)
Definition same_identity (c : Client) (ev : ClientEvent) : bool := negb (drains ev).
Definition undisturbed (k : key) (c : Client) (ev : ClientEvent) : bool :=
  negb (drains ev) && negb (settles c ev k).

(** The clock reading of a claim. *)
Definition claim_time (ev : ClientEvent) : option datetime :=
  match ev with
  | EvWorker _ _ now => Some now
  | EvResume _ _ _ now => Some now
  | _ => None
  end.

(** The attempt [a] may be made in the state [c]: its ticket is at the execution's
    watermark, belongs to the current owner and to this client, asks for a connection, and
    its capabilities are confirmed on a ready transport; a new request id is only used
    before the deadline. *)
Definition permitted (c : Client) (a : Attempt) (now : datetime) : Prop :=
  exists e, cr_tickets c !! at_key a = Some e /\ en_ticket e = at_ticket a /\
    terminal e = false /\ authorized c e = true /\ capable c e = true /\
    match en_active_resume_request_id e with
    | Some r => at_request a = r
    | None => ticket_expired (at_ticket a) now = false
    end.

(** ** Lemmas *)

(** What every step but an answer preserves of an entry. *)
Definition keeps (e e' : PendingResumeEntry) : Prop :=
  en_ticket e' = en_ticket e /\ en_principal_id e' = en_principal_id e /\
  (forall r, en_active_resume_request_id e = Some r -> en_active_resume_request_id e' = Some r) /\
  (terminal e = true ->
     terminal e' = true /\ en_active_resume_request_id e' = en_active_resume_request_id e).

Lemma keeps_refl e : keeps e e.
Proof. by unfold keeps. Qed.

Lemma keeps_trans e1 e2 e3 : keeps e1 e2 -> keeps e2 e3 -> keeps e1 e3.
Proof.
  intros (T1 & P1 & R1 & E1) (T2 & P2 & R2 & E2). split_and!; [congruence..|by eauto|].
  intros [Ht Ha]%E1. destruct (E2 Ht) as [? ?]. split; congruence.
Qed.

Lemma keeps_set_state e s :
  (terminal e = true -> terminal_state s = true) -> keeps e (set_entry_state e s).
Proof. intros H. unfold keeps. split_and!; try done. intros Ht. split; [by apply H|done]. Qed.

#[export] Hint Resolve keeps_refl : assistant.

Lemma classify_terminal c now e : terminal e = true -> classify c now e = e.
Proof. unfold classify. by intros ->. Qed.

Lemma classify_fields c now e :
  en_ticket (classify c now e) = en_ticket e /\
  en_principal_id (classify c now e) = en_principal_id e /\
  en_active_resume_request_id (classify c now e) = en_active_resume_request_id e.
Proof. unfold classify. repeat case_match; done. Qed.

Lemma classify_keeps c now e : keeps e (classify c now e).
Proof.
  destruct (classify_fields c now e) as (Ht & Hp & Ha). split_and!; try done; [congruence|].
  intros H. by rw classify_terminal.
Qed.

#[export] Hint Resolve classify_keeps : assistant.

(** Classification only lets through what is permitted. *)
Lemma classify_runnable c now e :
  runnable (classify c now e) = true ->
  terminal e = false /\ authorized c e = true /\ capable c e = true /\
  (en_active_resume_request_id e = None -> ticket_expired (en_ticket e) now = false).
Proof.
  unfold classify. destruct (terminal e) eqn:Ht.
  { unfold terminal, runnable in *. by destruct (en_state e). }
  destruct (_ && _) eqn:Hx; [done|]. destruct (authorized c e); [|done].
  destruct (capable c e); [|done]. intros _. split_and!; try done.
  intros E. rw E in Hx. by rw andb_true_r in Hx.
Qed.

(** Updates of all entries, and of one. *)
Lemma fmap_keeps (f : PendingResumeEntry -> PendingResumeEntry) (m : gmap key PendingResumeEntry) k e :
  (forall e, keeps e (f e)) -> m !! k = Some e -> exists e', (f <$> m) !! k = Some e' /\ keeps e e'.
Proof. intros Hf Hk. exists (f e). by rw lookup_fmap Hk. Qed.

Lemma insert_keeps (m : gmap key PendingResumeEntry) k e k' e0 e1 :
  m !! k' = Some e0 -> keeps e0 e1 -> m !! k = Some e ->
  exists e', <[k' := e1]> m !! k = Some e' /\ keeps e e'.
Proof.
  intros H0 Hk He. destruct (decide (k = k')) as [->|Hne].
  - rw lookup_insert_eq. simplify_eq. eauto.
  - rw lookup_insert_ne //. eauto with assistant.
Qed.

(** Entries, and the map as a whole. *)
Definition entries_keep (c c' : Client) : Prop :=
  forall k e, cr_tickets c !! k = Some e ->
    exists e', cr_tickets c' !! k = Some e' /\ keeps e e'.

Lemma entries_keep_refl c c' : cr_tickets c' = cr_tickets c -> entries_keep c c'.
Proof. intros E k e H. exists e. rw E. auto with assistant. Qed.

Lemma entries_keep_trans c1 c2 c3 :
  entries_keep c1 c2 -> entries_keep c2 c3 -> entries_keep c1 c3.
Proof.
  intros H1 H2 k e H. destruct (H1 k e H) as (e' & H' & K').
  destruct (H2 k e' H') as (e'' & H'' & K''). eauto using keeps_trans.
Qed.

Lemma entries_keep_fmap c c' f :
  cr_tickets c' = f <$> cr_tickets c -> (forall e, keeps e (f e)) -> entries_keep c c'.
Proof. intros E Hf k e H. rw E. by apply fmap_keeps. Qed.

Lemma entries_keep_insert c c' k e e1 :
  cr_tickets c' = <[k := e1]> (cr_tickets c) -> cr_tickets c !! k = Some e -> keeps e e1 ->
  entries_keep c c'.
Proof. intros E Hk Hke k' e' H. rw E. by eapply insert_keeps. Qed.

Lemma advance_keeps c x r : entries_keep c (advance_resume_watermark c x r).
Proof.
  unfold advance_resume_watermark. destruct (reached _ _).
  { by apply entries_keep_refl. }
  eapply entries_keep_fmap; [done|]. intros e. unfold behind. destruct (_ && _) eqn:E;
    [|apply keeps_refl]. breflect. by apply keeps_set_state.
Qed.

Lemma ensure_worker_tickets c alive : cr_tickets (ensure_resume_worker c alive) = cr_tickets c.
Proof. by destruct alive. Qed.

Lemma ingest_keeps c t now alive : entries_keep c (ingest_ticket c t now alive).1.
Proof.
  unfold ingest_ticket. destruct (below _ _); [by apply entries_keep_refl|].
  destruct (reached (cr_conflicts c !! _) _); [by apply entries_keep_refl|].
  case_bool_decide.
  { eapply entries_keep_fmap; [done|]. intros e. unfold rival. destruct (_ && _) eqn:E;
      [|apply keeps_refl]. by apply keeps_set_state. }
  set (c1 := if reached _ _ then c else _).
  assert (H1 : entries_keep c c1).
  { unfold c1. destruct (reached _ _); [by apply entries_keep_refl|apply advance_keeps]. }
  destruct (cr_tickets c1 !! ticket_key t) as [e|] eqn:Ek.
  - case_bool_decide; (eapply entries_keep_trans; [exact H1|]);
      (eapply entries_keep_insert; [done|exact Ek|]); [|by apply keeps_set_state].
    eapply keeps_trans; [|apply classify_keeps]. case_bool_decide as Es; [|done].
    unfold keeps, terminal. simpl in *. by rw Es.
  - eapply entries_keep_trans; [exact H1|]. intros k e He. cbn [fst]. rw ensure_worker_tickets /=.
    rw lookup_insert_ne; [congruence|]. eauto with assistant.
Qed.

Lemma next_key_keeps c clock : entries_keep c (next_resume_key c clock).1.
Proof.
  unfold next_resume_key. destruct (negb _); [by apply entries_keep_refl|]. intros k e H. simpl.
  rw map_lookup_imap H /=. eauto with assistant.
Qed.

Lemma claim_keeps c k fresh now : entries_keep c (claim_resume_attempt c k fresh now).1.
Proof.
  unfold claim_resume_attempt. destruct (cr_tickets c !! k) as [e|] eqn:E;
    [|by apply entries_keep_refl].
  destruct (runnable (classify c now e)) eqn:Er.
  - eapply entries_keep_insert; [done|exact E|]. apply classify_runnable in Er as (Ht & _).
    destruct (classify_fields c now e) as (Et & Ep & Ea). unfold keeps. simpl.
    rw Et Ep Ht. split_and!; try done. intros r Hr. unfold ensure_resume_request_id. by rw Ea Hr.
  - eapply entries_keep_insert; [done|exact E|apply classify_keeps].
Qed.

Lemma worker_keeps c clock fresh now : entries_keep c (worker_round c clock fresh now).
Proof.
  unfold worker_round. destruct (cr_worker_stop c); [by apply entries_keep_refl|].
  pose proof (next_key_keeps c clock) as H. destruct (next_resume_key c clock) as [c1 [k|]]; [|done].
  eapply entries_keep_trans; [exact H|apply claim_keeps].
Qed.

Lemma resume_keeps c k fresh now1 now2 :
  entries_keep c (resume_execution c k fresh now1 now2).1.
Proof.
  unfold resume_execution. destruct (cr_ready c); [|by apply entries_keep_refl].
  destruct (cr_tickets c !! k) as [e|] eqn:E; [|by apply entries_keep_refl].
  destruct (terminal e) eqn:Ht; [by apply entries_keep_refl|].
  eapply entries_keep_trans; [|apply claim_keeps]. eapply entries_keep_insert; [done|exact E|].
  eapply keeps_trans; [apply classify_keeps|]. case_bool_decide as Es; [|apply keeps_refl].
  apply keeps_set_state. unfold terminal. by rw Es.
Qed.

Lemma start_keeps c identity conn net alive : entries_keep c (start c identity conn net alive).
Proof.
  unfold start. destruct (cr_ready c); [by apply entries_keep_refl|].
  destruct (negb _); [by apply entries_keep_refl|].
  destruct net; [destruct (cr_generation_started _); by apply entries_keep_refl..|].
  eapply (entries_keep_fmap _ _ (fun e => if bool_decide (en_state e = WAIT_REFRESH)
                                          then set_entry_state e OBSERVED else e)).
  - rw ensure_worker_tickets. by destruct (cr_generation_started _).
  - intros e. case_bool_decide as Es; [|apply keeps_refl]. apply keeps_set_state.
    unfold terminal. by rw Es.
Qed.

(** *** Every entry is filed under its ticket's key *)

Definition keys_ok (c : Client) : Prop :=
  map_Forall (fun k e => ticket_key (en_ticket e) = k) (cr_tickets c).

Lemma keys_fmap (f : PendingResumeEntry -> PendingResumeEntry) (m : gmap key PendingResumeEntry) :
  (forall e, en_ticket (f e) = en_ticket e) ->
  map_Forall (fun k e => ticket_key (en_ticket e) = k) m ->
  map_Forall (fun k e => ticket_key (en_ticket e) = k) (f <$> m).
Proof.
  intros Hf H k e. rw lookup_fmap. intros (e0 & He0 & ->)%fmap_Some_1. rw Hf. by apply H.
Qed.

Lemma advance_keys c x r : keys_ok c -> keys_ok (advance_resume_watermark c x r).
Proof.
  intros H. unfold advance_resume_watermark, keys_ok. destruct (reached _ _); [done|]. simpl.
  apply keys_fmap; [|done]. intros e. by destruct (behind x r e).
Qed.

Lemma keys_insert c k e :
  keys_ok c -> ticket_key (en_ticket e) = k ->
  map_Forall (fun k e => ticket_key (en_ticket e) = k) (<[k := e]> (cr_tickets c)).
Proof. intros H He. by apply map_Forall_insert_2. Qed.

Lemma classify_ticket c now e : en_ticket (classify c now e) = en_ticket e.
Proof. apply classify_fields. Qed.

Lemma ingest_keys c t now alive : keys_ok c -> keys_ok (ingest_ticket c t now alive).1.
Proof.
  intros H. unfold ingest_ticket, keys_ok. destruct (below _ _); [done|].
  destruct (reached (cr_conflicts c !! _) _); [done|]. case_bool_decide.
  { simpl. apply keys_fmap; [|done]. intros e. by destruct (rival t e). }
  set (c1 := if reached _ _ then c else _).
  assert (H1 : keys_ok c1) by (unfold c1; destruct (reached _ _); [done|by apply advance_keys]).
  destruct (cr_tickets c1 !! ticket_key t) as [e|] eqn:Ek.
  - case_bool_decide as Et; simpl; (apply keys_insert; [done|]).
    + rw classify_ticket. case_bool_decide; by rw /= Et.
    + simpl. by apply H1.
  - cbn [fst]. rw ensure_worker_tickets. simpl. apply keys_insert; [done|]. by rw classify_ticket.
Qed.

Lemma claim_keys c k fresh now : keys_ok c -> keys_ok (claim_resume_attempt c k fresh now).1.
Proof.
  intros H. unfold claim_resume_attempt, keys_ok. destruct (cr_tickets c !! k) as [e|] eqn:E; [|done].
  destruct (runnable _); simpl; (apply keys_insert; [done|]); simpl; rw classify_ticket; by apply H.
Qed.

Lemma next_key_keys c clock : keys_ok c -> keys_ok (next_resume_key c clock).1.
Proof.
  intros H. unfold next_resume_key, keys_ok. destruct (negb _); [done|]. intros k e. simpl.
  rw map_lookup_imap. destruct (cr_tickets c !! k) as [e0|] eqn:E; [|done]. intros [= <-].
  rw classify_ticket. by apply H.
Qed.

Lemma apply_outcome_keys c k e o now :
  keys_ok c -> cr_tickets c !! k = Some e -> keys_ok (apply_resume_outcome c k e o now).
Proof.
  intros H He. unfold apply_resume_outcome, keys_ok.
  assert (Hk : ticket_key (en_ticket e) = k) by (by apply H).
  assert (Hdel : forall c1, keys_ok c1 ->
    map_Forall (fun k e => ticket_key (en_ticket e) = k) (delete (ticket_key (en_ticket e)) (cr_tickets c1))).
  { intros c1 H1. by apply map_Forall_delete. }
  destruct (negb _); [by apply keys_insert|]. destruct (oc_kind o).
  - destruct (oc_accepted_revision o); simpl; [by apply Hdel, advance_keys|].
    by apply keys_insert; [apply advance_keys|].
  - destruct (bool_decide (oc_code o = Some "RESUME_CONFLICT") && oc_retryable o && _);
      [by apply keys_insert|].
    destruct (bool_decide (oc_code o = Some "CLAIM_EXPIRED")).
    + apply keys_insert; [done|]. by rw classify_ticket.
    + destruct (oc_retryable o); by apply keys_insert.
  - simpl. by apply Hdel, advance_keys.
Qed.

(** *** Answers, watermarks and attempts *)

(** An answer changes the entry of its own key; of the others at most the state. *)
Lemma apply_outcome_other c k e o now k' e' :
  keys_ok c -> cr_tickets c !! k = Some e -> k' <> k -> cr_tickets c !! k' = Some e' ->
  exists e1, cr_tickets (apply_resume_outcome c k e o now) !! k' = Some e1 /\ keeps e' e1.
Proof.
  intros H He Hne He'. assert (Hk : ticket_key (en_ticket e) = k) by (by apply H).
  assert (Hstore : forall c1 e2, entries_keep c c1 ->
    exists e1, <[k := e2]> (cr_tickets c1) !! k' = Some e1 /\ keeps e' e1).
  { intros c1 e2 H1. rw lookup_insert_ne //. by apply H1. }
  assert (Hdel : forall c1, entries_keep c c1 ->
    exists e1, delete (ticket_key (en_ticket e)) (cr_tickets c1) !! k' = Some e1 /\ keeps e' e1).
  { intros c1 H1. rw Hk lookup_delete_ne //. by apply H1. }
  assert (Hrefl : entries_keep c c) by (by apply entries_keep_refl).
  unfold apply_resume_outcome. destruct (negb _); [by apply Hstore|]. destruct (oc_kind o).
  - destruct (oc_accepted_revision o); [apply Hdel|apply Hstore]; apply advance_keeps.
  - destruct (bool_decide (oc_code o = Some "RESUME_CONFLICT") && oc_retryable o && _);
      [by apply Hstore|].
    destruct (bool_decide (oc_code o = Some "CLAIM_EXPIRED")); [by apply Hstore|].
    destruct (oc_retryable o); by apply Hstore.
  - apply Hdel, advance_keeps.
Qed.

Definition watermarks_grow (c c' : Client) : Prop :=
  forall x w, cr_watermarks c !! x = Some w -> exists w', cr_watermarks c' !! x = Some w' /\ w <= w'.

Lemma watermarks_same c c' : cr_watermarks c' = cr_watermarks c -> watermarks_grow c c'.
Proof. intros E x w H. exists w. rw E. split; [done|lia]. Qed.

Lemma advance_grows c x r : watermarks_grow c (advance_resume_watermark c x r).
Proof.
  intros y w H. unfold advance_resume_watermark. destruct (reached _ r) eqn:E; simpl.
  { exists w. split; [done|lia]. }
  destruct (decide (y = x)) as [->|Hne].
  - rw lookup_insert_eq. exists r. split; [done|]. rw H /= in E. breflect. lia.
  - rw lookup_insert_ne //. exists w. split; [done|lia].
Qed.

(** After an advance the watermark is at least the revision. *)
Lemma advance_reaches c x r :
  exists w, cr_watermarks (advance_resume_watermark c x r) !! x = Some w /\ r <= w.
Proof.
  unfold advance_resume_watermark. destruct (reached _ r) eqn:E; simpl.
  - unfold reached in E. destruct (_ !! x) as [w|]; [|done]. exists w. breflect. done.
  - rw lookup_insert_eq. exists r. split; [done|lia].
Qed.

Lemma ingest_grows c t now alive : watermarks_grow c (ingest_ticket c t now alive).1.
Proof.
  unfold ingest_ticket. destruct (below _ _); [by apply watermarks_same|].
  destruct (reached (cr_conflicts c !! _) _); [by apply watermarks_same|].
  case_bool_decide; [by apply watermarks_same|].
  set (c1 := if reached _ _ then c else _).
  assert (H1 : watermarks_grow c c1).
  { unfold c1. destruct (reached _ _); [by apply watermarks_same|apply advance_grows]. }
  destruct (cr_tickets c1 !! ticket_key t) as [e|]; [case_bool_decide; exact H1|].
  by destruct alive.
Qed.

Lemma apply_outcome_grows c k e o now : watermarks_grow c (apply_resume_outcome c k e o now).
Proof.
  unfold apply_resume_outcome. destruct (negb _); [by apply watermarks_same|]. destruct (oc_kind o).
  - destruct (oc_accepted_revision o); apply advance_grows.
  - destruct (bool_decide (oc_code o = Some "RESUME_CONFLICT") && oc_retryable o && _);
      [by apply watermarks_same|].
    destruct (bool_decide (oc_code o = Some "CLAIM_EXPIRED")); [by apply watermarks_same|].
    destruct (oc_retryable o); by apply watermarks_same.
  - apply advance_grows.
Qed.

(** A claim adds at most one attempt, and only a permitted one. *)
Definition claims (c c' : Client) (now : datetime) : Prop :=
  cr_attempts c' = cr_attempts c \/
  exists a, cr_attempts c' = cr_attempts c ++ [a] /\ permitted c a now.

Lemma claim_attempts c k fresh now : claims c (claim_resume_attempt c k fresh now).1 now.
Proof.
  unfold claim_resume_attempt. destruct (cr_tickets c !! k) as [e|] eqn:E; [|by left].
  destruct (runnable (classify c now e)) eqn:Er; [|by left]. right. eexists. split; [done|].
  apply classify_runnable in Er as (Ht & Ha & Hc & Hx).
  destruct (classify_fields c now e) as (Et & Ep & Er). exists e.
  unfold ensure_resume_request_id. simpl. rw Et Er. split_and!; try done.
  destruct (en_active_resume_request_id e); [done|]. by apply Hx.
Qed.

(** Reclassifying the entries first makes no difference to what is permitted. *)
Lemma permitted_before c m a now :
  (forall e1, m !! at_key a = Some e1 -> exists e, cr_tickets c !! at_key a = Some e /\ keeps e e1 /\
     en_active_resume_request_id e1 = en_active_resume_request_id e) ->
  permitted (set_tickets c m) a now -> permitted c a now.
Proof.
  intros Hm (e1 & H1 & Et & Ht & Ha & Hc & Hr). destruct (Hm e1 H1) as (e & He & (Kt & Kp & _ & Kx) & Ka).
  exists e. split; [done|]. rw -Kt -Ka. split_and!; try done.
  - destruct (terminal e) eqn:E; [|done]. destruct (Kx eq_refl). congruence.
  - unfold authorized in *. rw -Kt -Kp. exact Ha.
  - unfold capable in *. rw -Kt. exact Hc.
Qed.

Lemma worker_attempts c clock fresh now : claims c (worker_round c clock fresh now) now.
Proof.
  unfold worker_round. destruct (cr_worker_stop c); [by left|]. unfold next_resume_key.
  destruct (negb _); [by left|]. destruct (match cr_last_key c with Some _ => _ | None => _ end) as [k|];
    [|by left].
  match goal with |- claims _ (claim_resume_attempt ?x _ _ _).1 _ =>
    destruct (claim_attempts x k fresh now) as [E|(a & E & Hp)] end; [by left|].
  right. exists a. split; [done|]. eapply permitted_before, Hp. intros e1.
  rw map_lookup_imap. destruct (cr_tickets c !! at_key a) as [e|] eqn:Ee; [|done].
  intros [= <-]. exists e. split_and!; [done|apply classify_keeps|apply classify_fields].
Qed.

Lemma resume_attempts c k fresh now1 now2 :
  claims c (resume_execution c k fresh now1 now2).1 now2.
Proof.
  unfold resume_execution. destruct (cr_ready c); [|by left].
  destruct (cr_tickets c !! k) as [e|] eqn:Ee; [|by left]. destruct (terminal e); [by left|].
  match goal with |- claims _ (claim_resume_attempt ?x _ _ _).1 _ =>
    destruct (claim_attempts x k fresh now2) as [E|(a & E & Hp)] end; [by left|].
  right. exists a. split; [done|]. eapply permitted_before, Hp. intros e1.
  rw lookup_insert_Some. intros [[<- <-]|[Hne H1]]; [exists e|exists e1; auto with assistant].
  destruct (classify_fields c now1 e) as (_ & _ & Ea). split; [done|]. case_bool_decide as Es.
  - split; [|done]. eapply keeps_trans; [apply classify_keeps|]. apply keeps_set_state.
    unfold terminal. by rw Es.
  - split; [apply classify_keeps|done].
Qed.

Section Steps.
Context (other_iso : string -> option datetime).
Implicit Types (c : Client) (ev : ClientEvent).

Lemma client_step_keys c ev : keys_ok c -> keys_ok (client_step other_iso c ev).
Proof.
  intros H. destruct ev; simpl; try done.
  - unfold start. destruct (cr_ready c); [done|]. destruct (negb _); [done|].
    destruct net; [by destruct (cr_generation_started _)..|]. unfold keys_ok.
    rw ensure_worker_tickets. simpl. apply keys_fmap; [intros e; by case_bool_decide|].
    by destruct (cr_generation_started _).
  - unfold handle_disconnect. case_bool_decide; [|done]. unfold keys_ok. simpl.
    apply keys_fmap; [|done]. intros e. by case_bool_decide.
  - by destruct (cr_stopping c).
  - destruct (match generation with Some _ => _ | None => _ end); [|done].
    unfold ingest_waiting_payload. destruct (from_payload _ _); [by apply ingest_keys|done].
  - unfold worker_round. destruct (cr_worker_stop c); [done|].
    pose proof (next_key_keys c clock H). destruct (next_resume_key c clock) as [c1 [k|]]; [|done].
    by apply claim_keys.
  - unfold resume_execution. destruct (cr_ready c); [|done].
    destruct (cr_tickets c !! k) as [e|] eqn:E; [|done]. destruct (terminal e); [done|].
    apply claim_keys. unfold keys_ok. simpl. apply keys_insert; [done|].
    case_bool_decide; simpl; rw classify_ticket; by apply H.
  - destruct (cr_attempts c !! i) as [a|]; [|done]. destruct (at_done a); [done|].
    unfold finish_attempt, complete_attempt, keys_ok. cbn [cr_tickets set_resume].
    destruct (cr_tickets c !! at_key a) as [e|] eqn:E; [|done]. case_bool_decide; [|done].
    assert (Hk : ticket_key (en_ticket e) = at_key a) by (by apply H).
    destruct r as [|m]; [destruct (terminal e); [done|]; by apply keys_insert|].
    destruct (from_envelope m); [by apply apply_outcome_keys|]. by apply keys_insert.
Qed.

Lemma client_step_keeps c ev k e :
  keys_ok c -> drains ev = false -> settles c ev k = false -> cr_tickets c !! k = Some e ->
  exists e', cr_tickets (client_step other_iso c ev) !! k = Some e' /\ keeps e e'.
Proof.
  intros H Hd Hs He. destruct ev; simpl; try (by eauto with assistant).
  - by apply start_keeps.
  - unfold handle_disconnect. case_bool_decide; [|eauto with assistant].
    eapply fmap_keeps; [|exact He]. intros e0. case_bool_decide as E; [|apply keeps_refl].
    apply keeps_set_state. unfold terminal. by rw E.
  - destruct (cr_stopping c); eauto with assistant.
  - destruct (match generation with Some _ => _ | None => _ end); [|eauto with assistant].
    unfold ingest_waiting_payload. destruct (from_payload _ _); [by apply ingest_keeps|].
    eauto with assistant.
  - by apply worker_keeps.
  - by apply resume_keeps.
  - unfold settles in Hs. destruct (cr_attempts c !! i) as [a|]; [|eauto with assistant].
    destruct (at_done a); [eauto with assistant|]. unfold finish_attempt, complete_attempt.
    cbn [cr_tickets set_resume]. destruct (cr_tickets c !! at_key a) as [e0|] eqn:E0;
      [|eauto with assistant].
    destruct (bool_decide (en_active_resume_request_id e0 = Some (at_request a))) eqn:Er;
      [|eauto with assistant]. destruct r as [|m].
    { destruct (terminal e0) eqn:Et; [eauto with assistant|].
      eapply insert_keeps; [exact E0| |done]. apply keeps_set_state. congruence. }
    assert (Hne : k <> at_key a).
    { intros ->. rw E0 Er bool_decide_true // in Hs. }
    destruct (from_envelope m); [by eapply apply_outcome_other|].
    cbn [cr_tickets set_tickets set_resume]. rw lookup_insert_ne //. eauto with assistant.
Qed.

Lemma client_step_grows c ev :
  drains ev = false -> watermarks_grow c (client_step other_iso c ev).
Proof.
  intros Hd. destruct ev; simpl; try (by apply watermarks_same); try done.
  - unfold start. destruct (cr_ready c); [by apply watermarks_same|].
    destruct (negb _); [by apply watermarks_same|].
    destruct net; [..|destruct alive]; by destruct (cr_generation_started _); apply watermarks_same.
  - unfold handle_disconnect. case_bool_decide; by apply watermarks_same.
  - destruct (cr_stopping c); by apply watermarks_same.
  - destruct (match generation with Some _ => _ | None => _ end); [|by apply watermarks_same].
    unfold ingest_waiting_payload. destruct (from_payload _ _); [apply ingest_grows|].
    by apply watermarks_same.
  - unfold worker_round. destruct (cr_worker_stop c); [by apply watermarks_same|].
    unfold next_resume_key. destruct (negb _); [by apply watermarks_same|].
    destruct (match cr_last_key c with Some _ => _ | None => _ end) as [k|];
      [|by apply watermarks_same].
    apply watermarks_same. unfold claim_resume_attempt. by repeat case_match.
  - apply watermarks_same. unfold resume_execution, claim_resume_attempt. by repeat case_match.
  - destruct (cr_attempts c !! i) as [a|]; [|by apply watermarks_same].
    destruct (at_done a); [by apply watermarks_same|]. unfold complete_attempt.
    destruct (cr_tickets c !! at_key a) as [e0|]; [|by apply watermarks_same].
    case_bool_decide; [|by apply watermarks_same].
    destruct r; [destruct (terminal e0); by apply watermarks_same|].
    destruct (from_envelope _); [apply apply_outcome_grows|by apply watermarks_same].
Qed.

(** The attempts of a state, up to the mark of completion. *)
Definition same_attempt (a a' : Attempt) : Prop :=
  at_key a' = at_key a /\ at_ticket a' = at_ticket a /\ at_request a' = at_request a.

Lemma client_step_attempts c ev i a :
  cr_attempts (client_step other_iso c ev) !! i = Some a ->
  (exists a0, cr_attempts c !! i = Some a0 /\ same_attempt a0 a) \/
  i = length (cr_attempts c) /\ exists now, claim_time ev = Some now /\ permitted c a now.
Proof.
  intros H.
  assert (Hsame : cr_attempts (client_step other_iso c ev) = cr_attempts c ->
    exists a0, cr_attempts c !! i = Some a0 /\ same_attempt a0 a).
  { intros E. rw E in H. by exists a. }
  assert (Hclaim : forall now, claim_time ev = Some now ->
    claims c (client_step other_iso c ev) now ->
    (exists a0, cr_attempts c !! i = Some a0 /\ same_attempt a0 a) \/
    i = length (cr_attempts c) /\ exists now, claim_time ev = Some now /\ permitted c a now).
  { intros now Hn [E|(b & E & Hp)]; [by left; apply Hsame|]. rw E lookup_app_Some in H.
    destruct H as [H|[Hlen H]]; [left; by exists a|]. right.
    apply list_lookup_singleton_Some in H as [Hi <-]. split; [lia|eauto]. }
  destruct ev; try (by left; apply Hsame); simpl in *.
  - left. apply Hsame. unfold start. destruct (cr_ready c); [done|]. destruct (negb _); [done|].
    destruct net; [..|destruct alive]; by destruct (cr_generation_started _).
  - left. apply Hsame. unfold handle_disconnect. by case_bool_decide.
  - left. apply Hsame. by destruct (cr_stopping c).
  - left. apply Hsame. destruct (match generation with Some _ => _ | None => _ end); [|done].
    unfold ingest_waiting_payload. destruct (from_payload _ _); [|done].
    unfold ingest_ticket, advance_resume_watermark, ensure_resume_worker. by repeat case_match.
  - by eapply Hclaim, worker_attempts.
  - by eapply Hclaim, resume_attempts.
  - left. destruct (cr_attempts c !! i0) as [b|] eqn:Eb; [|by apply Hsame].
    destruct (at_done b); [by apply Hsame|].
    assert (E : cr_attempts (complete_attempt c b r now) = cr_attempts c).
    { unfold complete_attempt, apply_resume_outcome, advance_resume_watermark. by repeat case_match. }
    simpl in H. rw E in H. destruct (decide (i0 = i)) as [->|Hne].
    + rw list_lookup_alter_eq Eb /= in H. injection H as <-. by exists b.
    + rw list_lookup_alter_ne // in H. by exists a.
Qed.

Lemma same_attempt_trans a1 a2 a3 : same_attempt a1 a2 -> same_attempt a2 a3 -> same_attempt a1 a3.
Proof. unfold same_attempt. naive_solver congruence. Qed.

Lemma client_step_attempts_length c ev :
  (length (cr_attempts c) <= length (cr_attempts (client_step other_iso c ev)))%nat.
Proof.
  assert (Hclaim : forall c' now, claims c c' now -> (length (cr_attempts c) <= length (cr_attempts c'))%nat).
  { intros c' now [->|(a & -> & _)]; [done|]. rw length_app. lia. }
  destruct ev; simpl; try done.
  - unfold start, ensure_resume_worker. by repeat case_match.
  - unfold handle_disconnect. by case_bool_decide.
  - by destruct (cr_stopping c).
  - destruct (match generation with Some _ => _ | None => _ end); [|done].
    unfold ingest_waiting_payload. destruct (from_payload _ _); [|done].
    unfold ingest_ticket, advance_resume_watermark, ensure_resume_worker. by repeat case_match.
  - eapply Hclaim, worker_attempts.
  - eapply Hclaim, resume_attempts.
  - destruct (cr_attempts c !! i) as [b|]; [|done]. destruct (at_done b); [done|]. simpl.
    rw length_alter. unfold complete_attempt, apply_resume_outcome, advance_resume_watermark.
    by repeat case_match.
Qed.

Lemma client_step_attempt_kept c ev i a :
  cr_attempts c !! i = Some a ->
  exists a', cr_attempts (client_step other_iso c ev) !! i = Some a' /\ same_attempt a a'.
Proof.
  intros H. pose proof (client_step_attempts_length c ev) as Hlen.
  destruct (lookup_lt_is_Some_2 (cr_attempts (client_step other_iso c ev)) i) as [a' Ha'].
  { apply lookup_lt_Some in H. lia. }
  exists a'. split; [done|]. apply lookup_lt_Some in H as Hi.
  destruct (client_step_attempts _ _ _ _ Ha') as [(a0 & H0 & Hs)|[-> _]]; [by simplify_eq|lia].
Qed.

Lemma runs_attempt_kept c evs i a :
  cr_attempts c !! i = Some a ->
  exists a', cr_attempts (runs (client_step other_iso) c evs) !! i = Some a' /\ same_attempt a a'.
Proof.
  revert c a. induction evs as [|ev evs IH]; intros c a H; [by exists a|].
  destruct (client_step_attempt_kept c ev i a H) as (a1 & H1 & S1).
  destruct (IH _ _ H1) as (a2 & H2 & S2). exists a2. split; [done|]. by eapply same_attempt_trans.
Qed.

(** What an invariant of the trace says of the attempts made along it. *)
Lemma later_attempts (ok : Client -> ClientEvent -> bool) (I : Client -> Prop) (Q : Attempt -> Prop) :
  (forall c ev, ok c ev = true -> I c -> I (client_step other_iso c ev)) ->
  (forall c a now, I c -> permitted c a now -> Q a) ->
  (forall a a', same_attempt a a' -> Q a -> Q a') ->
  forall evs c i a, along other_iso ok c evs = true -> I c -> (length (cr_attempts c) <= i)%nat ->
    cr_attempts (runs (client_step other_iso) c evs) !! i = Some a -> Q a.
Proof.
  intros Hstep Hperm Hsame. induction evs as [|ev evs IH]; intros c i a Hok HI Hi Ha.
  { rw runs_nil in Ha. apply lookup_lt_Some in Ha. lia. }
  cbn [along] in Hok. apply andb_true_iff in Hok as [Hok Hoks]. rw runs_cons in Ha.
  destruct (decide (length (cr_attempts (client_step other_iso c ev)) <= i)%nat) as [Hle|Hlt].
  { by eapply IH; [|apply Hstep| |]. }
  destruct (lookup_lt_is_Some_2 (cr_attempts (client_step other_iso c ev)) i) as [a0 Ha0]; [lia|].
  destruct (runs_attempt_kept _ evs _ _ Ha0) as (a1 & Ha1 & Hs).
  assert (a1 = a) as -> by (rw Ha1 in Ha; congruence). apply (Hsame a0); [done|].
  destruct (client_step_attempts _ _ _ _ Ha0) as [(b & Hb & _)|[_ (now & _ & Hp)]].
  - apply lookup_lt_Some in Hb. lia.
  - by eapply Hperm.
Qed.

Lemma runs_keys owner client_id conn evs :
  keys_ok (runs (client_step other_iso) (new_client owner client_id conn) evs).
Proof. apply runs_invariant; [apply client_step_keys|]. apply map_Forall_empty. Qed.

(** A tombstone: a terminal entry with no request id. *)
Definition tombstone (k : key) (c : Client) : Prop :=
  keys_ok c /\ exists e, cr_tickets c !! k = Some e /\ terminal e = true /\
    en_active_resume_request_id e = None.

Lemma tombstone_step k c ev :
  drains ev = false -> tombstone k c -> tombstone k (client_step other_iso c ev).
Proof.
  intros Hd (Hk & e & He & Ht & Ha).
  assert (Hs : settles c ev k = false).
  { unfold settles. destruct ev; try done. destruct r; [done|].
    destruct (cr_attempts c !! i); [|done]. rw He Ha (bool_decide_false (None = _)) // andb_false_r //. }
  destruct (client_step_keeps c ev k e Hk Hd Hs He) as (e' & He' & _ & _ & _ & Hterm).
  destruct (Hterm Ht) as [Ht' Ha']. split; [by apply client_step_keys|].
  exists e'. split_and!; try done. congruence.
Qed.

(** The answer [o] of the attempt [b] reaches the entry [e] it was made for. *)
Definition answers (c : Client) (j : nat) (b : Attempt) (e : PendingResumeEntry)
    (m : list (string * json)) (o : ResumeProtocolOutcome) : Prop :=
  cr_attempts c !! j = Some b /\ at_done b = false /\ cr_tickets c !! at_key b = Some e /\
  en_active_resume_request_id e = Some (at_request b) /\ from_envelope m = Ok o /\
  oc_execution_id o = tk_execution_id (en_ticket e) /\
  oc_checkpoint_id o = tk_checkpoint_id (en_ticket e) /\ oc_resume_request_id o = at_request b.

(** An answer that took authority moves the watermark past the ticket. *)
Lemma answer_advances c j b e m o now :
  answers c j b e m o -> oc_kind o <> KRejected ->
  exists w, cr_watermarks (client_step other_iso c (EvAnswer j (Message m) now))
      !! tk_execution_id (en_ticket e) = Some w /\ tk_revision (en_ticket e) < w.
Proof.
  intros (Hb & Hd & He & Hr & Ho & Ex & Ec & Er) Ek.
  cbn [client_step]. rw Hb Hd. unfold complete_attempt. rw He bool_decide_true // Ho.
  unfold apply_resume_outcome. rw Ex Ec Er Hr. do 3 (rw bool_decide_true //). cbn [negb andb].
  assert (Hadv : forall z, tk_revision (en_ticket e) < z -> exists w,
    cr_watermarks (advance_resume_watermark c (tk_execution_id (en_ticket e)) z)
      !! tk_execution_id (en_ticket e) = Some w /\ tk_revision (en_ticket e) < w).
  { intros z Hz. destruct (advance_reaches c (tk_execution_id (en_ticket e)) z) as (w & Hw & Hle).
    exists w. split; [exact Hw|lia]. }
  destruct (oc_kind o); [|done|].
  - destruct (oc_accepted_revision o); apply Hadv; lia.
  - apply Hadv. destruct (oc_recovery_revision o); lia.
Qed.

(** A final rejection leaves a tombstone. *)
Lemma answer_rejects c j b e m o now :
  answers c j b e m o -> oc_kind o = KRejected -> oc_retryable o = false ->
  oc_code o <> Some "CLAIM_EXPIRED" ->
  exists e', cr_tickets (client_step other_iso c (EvAnswer j (Message m) now)) !! at_key b = Some e' /\
    terminal e' = true /\ en_active_resume_request_id e' = None.
Proof.
  intros (Hb & Hd & He & Hr & Ho & Ex & Ec & Er) Ek Ert Ecode.
  cbn [client_step]. rw Hb Hd. unfold complete_attempt. rw He bool_decide_true // Ho.
  unfold apply_resume_outcome. rw Ex Ec Er Hr. do 3 (rw bool_decide_true //). cbn [negb andb].
  rw Ek Ert andb_false_r (bool_decide_false (oc_code o = Some "CLAIM_EXPIRED")) //.
  eexists. split; [apply lookup_insert_eq|done].
Qed.

(** ** Theorems *)

Implicit Types (owner : option string) (client_id conn : string).

(** [attempts_permitted]: every resume attempt a client ever makes was permitted when it
    was claimed: the ticket's revision is the execution's watermark, the ticket belongs to
    the current owner and to this client and waits for a connection, the transport is ready
    with all its capabilities confirmed, and a request id that was not issued before is
    only issued before the deadline. *)
Theorem attempts_permitted owner client_id conn evs i a :
  cr_attempts (runs (client_step other_iso) (new_client owner client_id conn) evs) !! i = Some a ->
  exists before ev after now a0, evs = before ++ ev :: after /\ same_attempt a0 a /\
    claim_time ev = Some now /\
    permitted (runs (client_step other_iso) (new_client owner client_id conn) before) a0 now.
Proof.
  revert a. induction evs as [|ev evs IH] using rev_ind; intros a; [done|].
  rw runs_app runs_cons runs_nil.
  intros [(a0 & H0 & Hs)|[_ (now & Hn & Hp)]]%client_step_attempts.
  - destruct (IH a0 H0) as (before & ev' & after & now & a1 & -> & Hs1 & Hn & Hp).
    exists before, ev', (after ++ [ev]), now, a1. split_and!; try done.
    + by rw -app_assoc.
    + by eapply same_attempt_trans.
  - by exists evs, ev, [], now, a.
Qed.

(** [retry_same_request]: from the moment a request id has been issued for a ticket until
    an answer to it is applied or the client changes identity, every further attempt for
    that ticket, whatever disconnects, restarts, timeouts and publications happen in
    between, uses the same request id. *)
Theorem retry_same_request owner client_id conn before k e r evs i a :
  let c := runs (client_step other_iso) (new_client owner client_id conn) before in
  cr_tickets c !! k = Some e -> en_active_resume_request_id e = Some r ->
  along other_iso (undisturbed k) c evs = true ->
  (length (cr_attempts c) <= i)%nat ->
  cr_attempts (runs (client_step other_iso) c evs) !! i = Some a -> at_key a = k ->
  at_request a = r.
Proof.
  intros c He Hr Hok Hi Ha. revert Ha.
  apply (later_attempts (undisturbed k)
    (fun c => keys_ok c /\ exists e, cr_tickets c !! k = Some e /\ en_active_resume_request_id e = Some r)
    (fun a => at_key a = k -> at_request a = r)); try done.
  - intros c1 ev (Hd & Hs)%andb_true_iff (Hk & e1 & He1 & Hr1). breflect.
    destruct (client_step_keeps c1 ev k e1 Hk Hd Hs He1) as (e2 & He2 & _ & _ & Hact & _).
    split; [by apply client_step_keys|]. eauto.
  - intros c1 b now (_ & e1 & He1 & Hr1) (e2 & He2 & _ & _ & _ & _ & Hreq) Hb. subst k.
    simplify_eq. by rw Hr1 in Hreq.
  - intros a1 a2 (Ek & _ & Er) Hq Hk. rw Er. apply Hq. congruence.
  - split; [apply runs_keys|]. eauto.
Qed.

(** C18 authority_not_reused: once the server has answered that a resume attempt took
    authority (accepted, or failed after acceptance), no later attempt of this identity is
    made for the same execution at the answered ticket's revision or below, even if the
    same WAITING ticket is published again. *)
Theorem authority_not_reused c j b e m o now evs i a :
  answers c j b e m o -> oc_kind o <> KRejected ->
  let c1 := client_step other_iso c (EvAnswer j (Message m) now) in
  along other_iso same_identity c1 evs = true -> (length (cr_attempts c1) <= i)%nat ->
  cr_attempts (runs (client_step other_iso) c1 evs) !! i = Some a ->
  tk_execution_id (at_ticket a) = tk_execution_id (en_ticket e) ->
  tk_revision (en_ticket e) < tk_revision (at_ticket a).
Proof.
  intros Hans Hk c1 Hok Hi Ha. set (x := tk_execution_id (en_ticket e)).
  revert Ha. apply (later_attempts same_identity
    (fun c => exists w, cr_watermarks c !! x = Some w /\ tk_revision (en_ticket e) < w)
    (fun a => tk_execution_id (at_ticket a) = x -> tk_revision (en_ticket e) < tk_revision (at_ticket a)));
    try done.
  - intros c2 ev Hd%negb_true_iff (w & Hw & Hlt).
    destruct (client_step_grows c2 ev Hd x w Hw) as (w' & Hw' & Hle). exists w'. split; [done|lia].
  - intros c2 b2 now2 (w & Hw & Hlt) (e2 & _ & Et & _ & Hauth & _) Hx.
    unfold authorized in Hauth. rw Et Hx in Hauth. breflect. simplify_eq. lia.
  - intros a1 a2 (_ & Et & _). by rw Et.
  - by eapply answer_advances.
Qed.

(** [rejection_is_final]: a ticket whose attempt the server has rejected for good (not
    retryable, and not merely an expired claim) is never attempted again by this identity,
    however often it is published. *)
Theorem rejection_is_final c j b e m o now evs i a :
  keys_ok c -> answers c j b e m o -> oc_kind o = KRejected -> oc_retryable o = false ->
  oc_code o <> Some "CLAIM_EXPIRED" ->
  let c1 := client_step other_iso c (EvAnswer j (Message m) now) in
  along other_iso same_identity c1 evs = true -> (length (cr_attempts c1) <= i)%nat ->
  cr_attempts (runs (client_step other_iso) c1 evs) !! i = Some a -> at_key a <> at_key b.
Proof.
  intros Hkeys Hans Hk Hr Hcode c1 Hok Hi.
  apply (later_attempts same_identity (tombstone (at_key b)) (fun a => at_key a <> at_key b)); try done.
  - intros c2 ev Hd%negb_true_iff. by apply tombstone_step.
  - intros c2 b2 now2 (_ & e2 & He2 & Ht & _) (e3 & He3 & _ & Ht3 & _) E. rw E in He3. congruence.
  - intros a1 a2 (-> & _). done.
  - split; [by apply client_step_keys|]. by eapply answer_rejects.
Qed.
End Steps.

(** ** Examples *)

Definition noon : datetime :=
  {| dt_year := 2024; dt_month := 6; dt_day := 1; dt_hour := 12; dt_minute := 0; dt_second := 0;
     dt_micro := 0; dt_tz := Some 0 |}.

Definition waiting_payload (checkpoint : string) (revision : Z) : list (string * json) :=
  [("execution_id", JStr "e1"); ("checkpoint_id", JStr checkpoint); ("revision", JInt revision);
   ("wait_reason", JStr "CONNECTION"); ("wait_expires_at", JStr "2024-12-31T00:00:00+00:00");
   ("origin_client_id", JStr "client"); ("pending_capability_ids", JArr [JStr "tool.a"]);
   ("auto_resume_allowed", JBool true)].

Definition ack : list (string * json) :=
  [("payload", JObj [("capabilities", JArr [JObj [("capability_id", JStr "tool.a");
                                                  ("state", JStr "ENABLED")]])])].

Definition answer (type request : string) (extra : list (string * json)) : Answer :=
  Message [("type", JStr type);
           ("payload", JObj ([("execution_id", JStr "e1"); ("checkpoint_id", JStr "c1");
                              ("resume_request_id", JStr request)] ++ extra))].

Abbreviation run evs :=
  (runs (client_step no_other_iso) (new_client (Some "user") "client" "cl-0") evs).

(** A ready client, one ticket, and its first attempt. *)
Definition first_attempt : list ClientEvent :=
  [EvStart None "cl-1" (Registered ack) false; EvWaiting (Some 0) (waiting_payload "c1" 3) noon false;
   EvWorker (fun _ => noon) "rr-1" noon].

(** The acknowledgement is lost, the transport reconnects and the worker retries. *)
Definition lost_ack : list ClientEvent :=
  [EvDisconnect 0; EvAnswer 0 Raised noon; EvStart None "cl-2" (Registered ack) true;
   EvWorker (fun _ => noon) "rr-2" noon].

Definition summary (c : Client) : list (string * Z) :=
  map (fun a => (at_request a, tk_revision (at_ticket a))) (cr_attempts c).

Example lost_ack_retries_same_request :
  summary (run (first_attempt ++ lost_ack)) = [("rr-1", 3); ("rr-1", 3)].
Proof. by vm_compute. Qed.

Definition ticket1 : PendingResumeTicket :=
  {| tk_execution_id := "e1"; tk_checkpoint_id := "c1"; tk_revision := 3;
     tk_wait_reason := "CONNECTION"; tk_pending_capability_ids := ["tool.a"];
     tk_origin_client_id := Some "client";
     tk_wait_expires_at := Some {| dt_year := 2024; dt_month := 12; dt_day := 31; dt_hour := 0;
       dt_minute := 0; dt_second := 0; dt_micro := 0; dt_tz := Some 0 |};
     tk_auto_resume_allowed := true |}.

Definition attempt1 : Attempt :=
  {| at_key := ("e1", "c1"); at_ticket := ticket1; at_request := "rr-1"; at_generation := 0;
     at_done := false |}.

Definition entry1 : PendingResumeEntry :=
  {| en_ticket := ticket1; en_principal_id := Some "user"; en_state := IN_FLIGHT;
     en_active_resume_request_id := Some "rr-1"; en_attempt_generation := Some 0;
     en_attempt_connection_id := Some "cl-0"; en_last_outcome_code := None;
     en_freshness_epoch := 0 |}.

Lemma first_attempt_made : cr_attempts (run first_attempt) = [attempt1].
Proof. vm_compute. reflexivity. Qed.

Lemma first_attempt_entry : cr_tickets (run first_attempt) !! ("e1", "c1") = Some entry1.
Proof. vm_compute. reflexivity. Qed.

Lemma lost_ack_attempts :
  cr_attempts (runs (client_step no_other_iso) (run first_attempt) lost_ack) !! 1%nat =
  Some {| at_key := ("e1", "c1"); at_ticket := ticket1; at_request := "rr-1"; at_generation := 1;
          at_done := false |}.
Proof. vm_compute. reflexivity. Qed.

Lemma lost_ack_undisturbed :
  along no_other_iso (undisturbed ("e1", "c1")) (run first_attempt) lost_ack = true.
Proof. vm_compute. reflexivity. Qed.

Lemma attempts_permitted_witness :
  exists before ev after now a0, first_attempt = before ++ ev :: after /\
    same_attempt a0 attempt1 /\ claim_time ev = Some now /\ permitted (run before) a0 now.
Proof.
  apply (attempts_permitted no_other_iso (Some "user") "client" "cl-0" first_attempt 0 attempt1).
  rw first_attempt_made. reflexivity.
Defined.

Lemma retry_same_request_witness :
  exists a, cr_attempts (runs (client_step no_other_iso) (run first_attempt) lost_ack) !! 1%nat
    = Some a /\ at_request a = "rr-1".
Proof.
  eexists. split; [exact lost_ack_attempts|].
  apply (retry_same_request no_other_iso (Some "user") "client" "cl-0" first_attempt ("e1", "c1")
      entry1 "rr-1" lost_ack 1 _ first_attempt_entry eq_refl lost_ack_undisturbed);
    [rw first_attempt_made; apply le_n|exact lost_ack_attempts|reflexivity].
Defined.

(** Accepted, published again at the same revision, then at a higher one. *)
Definition after_accepted : list ClientEvent :=
  [EvWaiting None (waiting_payload "c1" 3) noon true; EvWorker (fun _ => noon) "rr-2" noon;
   EvWaiting None (waiting_payload "c2" 5) noon true; EvWorker (fun _ => noon) "rr-3" noon].

Definition accepted : Answer :=
  answer "execution.resume.accepted" "rr-1" [("accepted_revision", JInt 4)].

Example accepted_ticket_not_revived :
  summary (run (first_attempt ++ EvAnswer 0 accepted noon :: after_accepted)) = [("rr-1", 3); ("rr-3", 5)].
Proof. by vm_compute. Qed.

Definition message_of (r : Answer) : list (string * json) :=
  match r with Message m => m | Raised => [] end.

Definition accepted_outcome : ResumeProtocolOutcome :=
  {| oc_kind := KAccepted; oc_execution_id := "e1"; oc_checkpoint_id := "c1";
     oc_resume_request_id := "rr-1"; oc_code := None; oc_retryable := false; oc_claim_id := None;
     oc_accepted_revision := Some 4; oc_recovery_revision := None |}.

Definition rejected : Answer :=
  answer "execution.resume.rejected" "rr-1" [("code", JStr "RESUME_NOT_ALLOWED")].

Definition rejected_outcome : ResumeProtocolOutcome :=
  {| oc_kind := KRejected; oc_execution_id := "e1"; oc_checkpoint_id := "c1";
     oc_resume_request_id := "rr-1"; oc_code := Some "RESUME_NOT_ALLOWED"; oc_retryable := false;
     oc_claim_id := None; oc_accepted_revision := None; oc_recovery_revision := None |}.

Lemma first_attempt_answers r o :
  from_envelope (message_of r) = Ok o -> oc_execution_id o = "e1" -> oc_checkpoint_id o = "c1" ->
  oc_resume_request_id o = "rr-1" ->
  answers (run first_attempt) 0 attempt1 entry1 (message_of r) o.
Proof.
  intros Ho H1 H2 H3. unfold answers. rw first_attempt_made first_attempt_entry.
  split_and!; try exact Ho; try reflexivity; [exact H1|exact H2|exact H3].
Qed.

Lemma after_accepted_state :
  let c1 := client_step no_other_iso (run first_attempt) (EvAnswer 0 accepted noon) in
  along no_other_iso same_identity c1 after_accepted = true /\ length (cr_attempts c1) = 1%nat /\
  tk_execution_id <$> (at_ticket <$> (cr_attempts (runs (client_step no_other_iso) c1 after_accepted)
    !! 1%nat)) = Some "e1".
Proof. vm_compute. repeat split. Qed.

Lemma authority_not_reused_witness :
  exists a, cr_attempts (runs (client_step no_other_iso)
      (client_step no_other_iso (run first_attempt) (EvAnswer 0 accepted noon)) after_accepted)
      !! 1%nat = Some a /\ 3 < tk_revision (at_ticket a).
Proof.
  destruct after_accepted_state as (Hok & Hlen & Hx).
  destruct (cr_attempts (runs _ _ after_accepted) !! 1%nat) as [a|] eqn:Ea; [|discriminate Hx].
  exists a. split; [reflexivity|]. injection Hx as Hx.
  apply (authority_not_reused no_other_iso (run first_attempt) 0 attempt1 entry1 (message_of accepted)
    accepted_outcome noon after_accepted 1 a); [|discriminate|exact Hok| |exact Ea|exact Hx].
  - apply first_attempt_answers; reflexivity.
  - rw Hlen. apply le_n.
Defined.

Lemma after_rejected_state :
  let c1 := client_step no_other_iso (run first_attempt) (EvAnswer 0 rejected noon) in
  along no_other_iso same_identity c1 after_accepted = true /\ length (cr_attempts c1) = 1%nat /\
  at_request <$> (cr_attempts (runs (client_step no_other_iso) c1 after_accepted) !! 1%nat) =
    Some "rr-3".
Proof. vm_compute. repeat split. Qed.

Lemma rejection_is_final_witness :
  exists a, cr_attempts (runs (client_step no_other_iso)
      (client_step no_other_iso (run first_attempt) (EvAnswer 0 rejected noon)) after_accepted)
      !! 1%nat = Some a /\ at_key a <> ("e1", "c1").
Proof.
  destruct after_rejected_state as (Hok & Hlen & Hsome).
  destruct (cr_attempts (runs _ _ after_accepted) !! 1%nat) as [a|] eqn:Ha; [|discriminate Hsome].
  exists a. split; [reflexivity|].
  apply (rejection_is_final no_other_iso (run first_attempt) 0 attempt1 entry1 (message_of rejected)
    rejected_outcome noon after_accepted 1 a); [apply runs_keys| |reflexivity|reflexivity|discriminate
    |exact Hok|rw Hlen; apply le_n|exact Ha].
  apply first_attempt_answers; reflexivity.
Defined.

(** Two checkpoints published at one revision are a conflict: the ticket in flight becomes
    terminal.  A retryable answer to that attempt makes it live again, and the next
    generation attempts it although the conflict is still on record. *)
Definition conflict_then_answer : list ClientEvent :=
  [EvWaiting None (waiting_payload "c2" 3) noon true;
   EvAnswer 0 (answer "execution.resume.rejected" "rr-1" [("retryable", JBool true)]) noon;
   EvDisconnect 0; EvStart None "cl-2" (Registered ack) true; EvWorker (fun _ => noon) "rr-2" noon].

Example conflicting_ticket_revived :
  let c1 := run (first_attempt ++ firstn 1 conflict_then_answer) in
  let c2 := run (first_attempt ++ conflict_then_answer) in
  terminal <$> (cr_tickets c1 !! ("e1", "c1")) = Some true /\
  cr_conflicts c2 !! "e1" = Some 3 /\ summary c2 = [("rr-1", 3); ("rr-2", 3)].
Proof. vm_compute. repeat split. Qed.

(** The reconnect thread marks BACKOFF without looking at the state: after a start from
    another thread the runtime is ready but not READY, and no ticket is eligible. *)
Example backoff_hides_ready :
  let evs := [EvStart None "cl-1" (Registered ack) false; EvDisconnect 0;
              EvStart None "cl-2" (Registered ack) false; EvBackoff;
              EvStart None "cl-3" (Registered ack) false;
              EvWaiting None (waiting_payload "c1" 3) noon false;
              EvWorker (fun _ => noon) "rr-1" noon] in
  cr_ready (run evs) = true /\ cr_state (run evs) = BACKOFF /\ cr_attempts (run evs) = [].
Proof. vm_compute. repeat split. Qed.
