(* ===== verification/Invocation.v ===== *)
(** * Capability invocations
    (src/se/src/runtimes/capability/invocation.py and contracts/invocation.py)

    An invocation is a durable record with a revision; workers hold copies of it and change
    it through [CapabilityInvocationLifecycle], which writes with a compare-and-set on the
    revision.  The store is an interface, [InvocationStore], with the promises
    [InvocationStoreLaws]; the two stores of the program implement it in the file
    InvocationStores.  A worker's copy is a Python object that [transition] and
    [update_remote_outcome] mutate before they know whether the write succeeds: the objects
    are the handles of a [World], and a trace of [LifecycleEvent]s interleaves any number
    of workers.  Times are integers; targets are compared by their canonical payload, here
    its text.  Events that are published are not modelled. *)

From S2P Require Import Prelude Canonical.

(** ** contracts/invocation.py *)

Inductive CapabilityInvocationState :=
  | CREATED | DISPATCHING | RUNNING | WAITING | RETRYING | COMPLETED | FAILED | CANCELLED
  | TIMED_OUT.

#[global] Instance CapabilityInvocationState_eq_dec : EqDecision CapabilityInvocationState.
Proof. solve_decision. Defined.

Inductive CapabilityWaitReason :=
  | WAIT_CONNECTION | HUMAN_APPROVAL | DEPENDENCY | RETRY_BACKOFF | RESOURCE.

#[global] Instance CapabilityWaitReason_eq_dec : EqDecision CapabilityWaitReason.
Proof. solve_decision. Defined.

Inductive RemoteOutcomeState :=
  | NOT_DISPATCHED | IN_FLIGHT | OUTCOME_UNKNOWN | TERMINAL_COMMITTED.

#[global] Instance RemoteOutcomeState_eq_dec : EqDecision RemoteOutcomeState.
Proof. solve_decision. Defined.

Definition terminal_invocation (s : CapabilityInvocationState) : bool :=
  match s with COMPLETED | FAILED | CANCELLED | TIMED_OUT => true | _ => false end.

Inductive CapabilityIdempotency := IDEMPOTENT | DEDUPLICATED | NON_IDEMPOTENT | IDEMPOTENCY_UNKNOWN.

#[global] Instance CapabilityIdempotency_eq_dec : EqDecision CapabilityIdempotency.
Proof. solve_decision. Defined.

(** The fields that are set when the invocation is created; [d_rest] holds those that no
    modelled code reads. *)
Record InvocationDetails := {
  d_capability_version : option string;
  d_request_fingerprint : option string;
  d_idempotency : CapabilityIdempotency;
  d_owner_user_id : option string;
  d_origin_client_id : option string;
  d_rest : json
}.

Record CapabilityInvocation := {
  iv_id : string;
  iv_capability_id : string;
  iv_target : option string;
  iv_execution_id : option string;
  iv_tool_call_id : option string;
  iv_details : InvocationDetails;
  iv_implementation_id : option string;
  iv_driver_kind : option string;
  iv_connection_id : option string;
  iv_state : CapabilityInvocationState;
  iv_wait_reason : option CapabilityWaitReason;
  iv_remote_outcome : option RemoteOutcomeState;
  iv_attempt : Z;
  iv_max_attempts : Z;
  iv_output : json;
  iv_error : option json;
  iv_started_at : option Z;
  iv_updated_at : Z;
  iv_completed_at : option Z;
  iv_revision : Z
}.

Record CapabilityInvocationAttempt := {
  ia_id : string;
  ia_invocation_id : string;
  ia_number : Z;
  ia_implementation_id : string;
  ia_driver_kind : string;
  ia_connection_id : option string;
  ia_state : CapabilityInvocationState;
  ia_started_at : option Z;
  ia_completed_at : option Z;
  ia_error : option json;
  ia_metadata : json
}.

(** ** Transitions *)

Definition invocation_transition (from to : CapabilityInvocationState) : bool :=
  match from, to with
  | CREATED, (DISPATCHING | CANCELLED | TIMED_OUT | FAILED) => true
  | DISPATCHING, (RUNNING | WAITING | FAILED | CANCELLED | TIMED_OUT) => true
  | RUNNING, (COMPLETED | FAILED | CANCELLED | TIMED_OUT | RETRYING | WAITING) => true
  | WAITING, (DISPATCHING | COMPLETED | FAILED | CANCELLED | TIMED_OUT) => true
  | RETRYING, (DISPATCHING | WAITING | FAILED | CANCELLED | TIMED_OUT) => true
  | _, _ => false
  end.

Definition remote_outcome_transition (from : option RemoteOutcomeState) (to : RemoteOutcomeState)
    : bool :=
  match from, to with
  | None, NOT_DISPATCHED => true
  | Some NOT_DISPATCHED, (IN_FLIGHT | OUTCOME_UNKNOWN | TERMINAL_COMMITTED) => true
  | Some IN_FLIGHT, (NOT_DISPATCHED | OUTCOME_UNKNOWN | TERMINAL_COMMITTED) => true
  | Some OUTCOME_UNKNOWN, TERMINAL_COMMITTED => true
  | _, _ => false
  end.

(** The same outcome is not a transition. *)
Definition remote_outcome_allowed (from : option RemoteOutcomeState) (to : RemoteOutcomeState)
    : bool :=
  bool_decide (from = Some to) || remote_outcome_transition from to.

(** The arguments of a transition. *)
Record Changes := {
  ch_state : CapabilityInvocationState;
  ch_wait_reason : option CapabilityWaitReason;
  ch_output : json;
  ch_error : option json;
  ch_remote_outcome : option RemoteOutcomeState
}.

Definition changes_to (s : CapabilityInvocationState) : Changes :=
  {| ch_state := s; ch_wait_reason := None; ch_output := JNull; ch_error := None;
     ch_remote_outcome := None |}.

(** [transition_invocation]; [None]: InvalidInvocationTransition, the object is untouched. *)
Definition transition_invocation (i : CapabilityInvocation) (ch : Changes) (now : Z)
    : option CapabilityInvocation :=
  if negb (invocation_transition (iv_state i) (ch_state ch)) then None
  else if bool_decide (ch_state ch = WAITING) && bool_decide (ch_wait_reason ch = None) then None
  else if negb (bool_decide (ch_state ch = WAITING)) && negb (bool_decide (ch_wait_reason ch = None))
  then None
  else if match ch_remote_outcome ch with
          | Some o => negb (remote_outcome_allowed (iv_remote_outcome i) o)
          | None => false
          end then None
  else
    let ended := terminal_invocation (ch_state ch) in
    Some {| iv_id := iv_id i; iv_capability_id := iv_capability_id i; iv_target := iv_target i;
            iv_execution_id := iv_execution_id i; iv_tool_call_id := iv_tool_call_id i;
            iv_details := iv_details i; iv_implementation_id := iv_implementation_id i;
            iv_driver_kind := iv_driver_kind i; iv_connection_id := iv_connection_id i;
            iv_state := ch_state ch; iv_wait_reason := ch_wait_reason ch;
            iv_remote_outcome := match ch_remote_outcome ch with
                                 | Some o => Some o | None => iv_remote_outcome i end;
            iv_attempt := iv_attempt i; iv_max_attempts := iv_max_attempts i;
            iv_output := if ended then ch_output ch else iv_output i;
            iv_error := if ended then ch_error ch else iv_error i;
            iv_started_at := if bool_decide (ch_state ch = RUNNING) &&
                                bool_decide (iv_started_at i = None)
                             then Some now else iv_started_at i;
            iv_updated_at := now;
            iv_completed_at := if ended then Some now else iv_completed_at i;
            iv_revision := iv_revision i + 1 |}.

(** The assignment of [update_remote_outcome]. *)
Definition set_remote_outcome (i : CapabilityInvocation) (o : RemoteOutcomeState) (now : Z)
    : CapabilityInvocation :=
  {| iv_id := iv_id i; iv_capability_id := iv_capability_id i; iv_target := iv_target i;
     iv_execution_id := iv_execution_id i; iv_tool_call_id := iv_tool_call_id i;
     iv_details := iv_details i; iv_implementation_id := iv_implementation_id i;
     iv_driver_kind := iv_driver_kind i; iv_connection_id := iv_connection_id i;
     iv_state := iv_state i; iv_wait_reason := iv_wait_reason i; iv_remote_outcome := Some o;
     iv_attempt := iv_attempt i; iv_max_attempts := iv_max_attempts i; iv_output := iv_output i;
     iv_error := iv_error i; iv_started_at := iv_started_at i; iv_updated_at := now;
     iv_completed_at := iv_completed_at i; iv_revision := iv_revision i + 1 |}.

(** The assignments of a worker to its copy: where the next attempt runs. *)
Definition route (i : CapabilityInvocation) (impl driver conn : option string)
    (attempt max_attempts : Z) : CapabilityInvocation :=
  {| iv_id := iv_id i; iv_capability_id := iv_capability_id i; iv_target := iv_target i;
     iv_execution_id := iv_execution_id i; iv_tool_call_id := iv_tool_call_id i;
     iv_details := iv_details i; iv_implementation_id := impl; iv_driver_kind := driver;
     iv_connection_id := conn; iv_state := iv_state i; iv_wait_reason := iv_wait_reason i;
     iv_remote_outcome := iv_remote_outcome i; iv_attempt := attempt;
     iv_max_attempts := max_attempts; iv_output := iv_output i; iv_error := iv_error i;
     iv_started_at := iv_started_at i; iv_updated_at := iv_updated_at i;
     iv_completed_at := iv_completed_at i; iv_revision := iv_revision i |}.

Definition set_attempt_state (a : CapabilityInvocationAttempt) (s : CapabilityInvocationState)
    : CapabilityInvocationAttempt :=
  {| ia_id := ia_id a; ia_invocation_id := ia_invocation_id a; ia_number := ia_number a;
     ia_implementation_id := ia_implementation_id a; ia_driver_kind := ia_driver_kind a;
     ia_connection_id := ia_connection_id a; ia_state := s; ia_started_at := ia_started_at a;
     ia_completed_at := ia_completed_at a; ia_error := ia_error a; ia_metadata := ia_metadata a |}.

(** ** CapabilityInvocationStore *)

(** The operations of a store; [None] and [false] say that the store refused. *)
Class InvocationStore (S : Type) := {
  get_invocation : S -> string -> option CapabilityInvocation;
  get_attempt : S -> string -> option CapabilityInvocationAttempt;
  create_invocation : S -> CapabilityInvocation -> option S;
  compare_and_set : S -> CapabilityInvocation -> Z -> S * bool;
  begin_initial : S -> CapabilityInvocation -> Z -> CapabilityInvocationAttempt -> S * bool;
  start_initial : S -> CapabilityInvocation -> Z -> CapabilityInvocationAttempt -> S * bool;
  begin_continuation : S -> CapabilityInvocation -> Z -> CapabilityInvocationAttempt -> S * bool;
  start_continuation : S -> CapabilityInvocation -> Z -> CapabilityInvocationAttempt -> S * bool;
  save_attempt : S -> CapabilityInvocationAttempt -> option S;
  update_attempt : S -> CapabilityInvocationAttempt -> option S
}.

Section Interface.
Context {S : Type} `{InvocationStore S}.

(** Reads after a write. *)
Definition wrote (s s' : S) (i : CapabilityInvocation) : Prop :=
  forall id, get_invocation s' id = if bool_decide (id = iv_id i) then Some i else get_invocation s id.

Definition same_invocations (s s' : S) : Prop :=
  forall id, get_invocation s' id = get_invocation s id.

Definition wrote_attempt (s s' : S) (a : CapabilityInvocationAttempt) : Prop :=
  forall x, get_attempt s' x = if bool_decide (x = ia_id a) then Some a else get_attempt s x.

Definition same_attempts (s s' : S) : Prop := forall x, get_attempt s' x = get_attempt s x.

(** No attempt of the invocation is open. *)
Definition all_ended (s : S) (id : string) : Prop :=
  forall x a, get_attempt s x = Some a -> ia_invocation_id a = id ->
    terminal_invocation (ia_state a) = true.

(** The record the write was based on. *)
Definition current_at (s : S) (i : CapabilityInvocation) (revision : Z) : Prop :=
  exists cur, get_invocation s (iv_id i) = Some cur /\ iv_revision cur = revision.
End Interface.

(** What a store promises its clients. *)
Class InvocationStoreLaws (S : Type) `{InvocationStore S} : Prop := {
  create_law s i s' : create_invocation s i = Some s' ->
    get_invocation s (iv_id i) = None /\ wrote s s' i /\ same_attempts s s';
  cas_law s i r : let (s', b) := compare_and_set s i r in
    if b then current_at s i r /\ wrote s s' i /\ same_attempts s s' else s' = s;
  begin_initial_law s i r a : let (s', b) := begin_initial s i r a in
    if b then current_at s i r /\ wrote s s' i /\ wrote_attempt s s' a /\
              get_attempt s (ia_id a) = None /\ ia_invocation_id a = iv_id i /\ all_ended s (iv_id i)
    else s' = s;
  begin_continuation_law s i r a : ia_invocation_id a = iv_id i ->
    let (s', b) := begin_continuation s i r a in
    if b then current_at s i r /\ wrote s s' i /\ wrote_attempt s s' a /\
              get_attempt s (ia_id a) = None /\ all_ended s (iv_id i)
    else s' = s;
  start_initial_law s i r a : let (s', b) := start_initial s i r a in
    if b then current_at s i r /\ wrote s s' i /\
              exists a0 a1, get_attempt s (ia_id a) = Some a0 /\ ia_state a0 = DISPATCHING /\
                ia_invocation_id a0 = iv_id i /\ wrote_attempt s s' a1 /\ ia_id a1 = ia_id a /\
                (ia_invocation_id a = iv_id i -> ia_invocation_id a1 = iv_id i)
    else s' = s;
  start_continuation_law s i r a : let (s', b) := start_continuation s i r a in
    if b then current_at s i r /\ wrote s s' i /\
              exists a0 a1, get_attempt s (ia_id a) = Some a0 /\ ia_state a0 = DISPATCHING /\
                ia_invocation_id a0 = iv_id i /\ wrote_attempt s s' a1 /\ ia_id a1 = ia_id a /\
                (ia_invocation_id a = iv_id i -> ia_invocation_id a1 = iv_id i)
    else s' = s;
  save_attempt_law s a s' : save_attempt s a = Some s' ->
    same_invocations s s' /\ wrote_attempt s s' a /\ get_attempt s (ia_id a) = None;
  update_attempt_law s a s' : update_attempt s a = Some s' ->
    same_invocations s s' /\ (wrote_attempt s s' a \/ same_attempts s s')
}.

(** ** CapabilityInvocationLifecycle *)

(** A worker's object; [h_fresh] is false once a write based on it was refused. *)
Record Handle := { h_invocation : CapabilityInvocation; h_fresh : bool }.

(** The store, the workers' objects, and the writes that succeeded: the invocation and the
    revision each was based on. *)
Record World (S : Type) := {
  w_store : S;
  w_handles : list Handle;
  w_attempts : list CapabilityInvocationAttempt;
  w_log : list (string * Z)
}.
Arguments w_store {S} _.
Arguments w_handles {S} _.
Arguments w_attempts {S} _.
Arguments w_log {S} _.

Inductive LifecycleEvent :=
  | EvCreate (i : CapabilityInvocation)
  | EvLoad (id : string)
  | EvRoute (h : nat) (impl driver conn : option string) (attempt max_attempts : Z)
  | EvTransition (h : nat) (ch : Changes) (now : Z)
  | EvRemoteOutcome (h : nat) (o : RemoteOutcomeState) (now : Z)
  | EvBeginInitial (h : nat) (impl driver : string) (conn : option string) (fresh : string) (now : Z)
  | EvStartInitial (h a : nat) (now : Z)
  | EvBeginContinuation (h : nat) (impl driver : string) (conn : option string) (mode fresh : string)
      (now : Z)
  | EvStartContinuation (h a : nat) (now : Z)
  | EvStartAttempt (h : nat) (impl driver : string) (conn : option string) (fresh : string) (now : Z)
  | EvFinishAttempt (a : nat) (state : CapabilityInvocationState) (error : option json) (now : Z).

Section Lifecycle.
Context {S : Type} `{InvocationStore S}.
Implicit Types (w : World S) (s : S).

Definition set_store w s : World S :=
  {| w_store := s; w_handles := w_handles w; w_attempts := w_attempts w; w_log := w_log w |}.

Definition set_handle w (h : nat) (i : CapabilityInvocation) (fresh : bool) : World S :=
  {| w_store := w_store w; w_handles := <[h := {| h_invocation := i; h_fresh := fresh |}]> (w_handles w);
     w_attempts := w_attempts w; w_log := w_log w |}.

Definition new_handle w (i : CapabilityInvocation) : World S :=
  {| w_store := w_store w; w_handles := w_handles w ++ [{| h_invocation := i; h_fresh := true |}];
     w_attempts := w_attempts w; w_log := w_log w |}.

Definition new_attempt w (a : CapabilityInvocationAttempt) : World S :=
  {| w_store := w_store w; w_handles := w_handles w; w_attempts := w_attempts w ++ [a];
     w_log := w_log w |}.

Definition logged w (id : string) (revision : Z) : World S :=
  {| w_store := w_store w; w_handles := w_handles w; w_attempts := w_attempts w;
     w_log := w_log w ++ [(id, revision)] |}.

(** [create]. *)
Definition lifecycle_create w (i : CapabilityInvocation) : World S :=
  match create_invocation (w_store w) i with
  | Some s => new_handle (set_store w s) i
  | None => w
  end.

(** The write of an object that was mutated in place. *)
Definition write_in_place w (h : nat) (i : CapabilityInvocation) (expected : Z) : World S :=
  let (s, b) := compare_and_set (w_store w) i expected in
  let w' := set_handle (set_store w s) h i b in
  if b then logged w' (iv_id i) expected else w'.

(** [transition]: an invalid transition raises before the object is touched. *)
Definition lifecycle_transition w (h : nat) (i : CapabilityInvocation) (ch : Changes) (now : Z)
    : World S :=
  match transition_invocation i ch now with
  | None => w
  | Some i' => write_in_place w h i' (iv_revision i)
  end.

(** [update_remote_outcome]. *)
Definition update_remote_outcome w (h : nat) (i : CapabilityInvocation) (o : RemoteOutcomeState)
    (now : Z) : World S :=
  if bool_decide (iv_remote_outcome i = Some o) then w
  else if negb (remote_outcome_allowed (iv_remote_outcome i) o) then w
  else write_in_place w h (set_remote_outcome i o now) (iv_revision i).

(** The attempt a begin operation inserts. *)
Definition dispatching_attempt (i : CapabilityInvocation) (impl driver : string)
    (conn : option string) (fresh : string) (metadata : json) (now : Z)
    : CapabilityInvocationAttempt :=
  {| ia_id := fresh; ia_invocation_id := iv_id i; ia_number := iv_attempt i;
     ia_implementation_id := impl; ia_driver_kind := driver; ia_connection_id := conn;
     ia_state := DISPATCHING; ia_started_at := Some now; ia_completed_at := None;
     ia_error := None; ia_metadata := metadata |}.

Definition outcome_json (o : option RemoteOutcomeState) : json :=
  match o with
  | None => JNull
  | Some NOT_DISPATCHED => JStr "NOT_DISPATCHED"
  | Some IN_FLIGHT => JStr "IN_FLIGHT"
  | Some OUTCOME_UNKNOWN => JStr "OUTCOME_UNKNOWN"
  | Some TERMINAL_COMMITTED => JStr "TERMINAL_COMMITTED"
  end.

(** [begin_initial_attempt]: works on a copy; the worker goes on with the copy. *)
Definition begin_initial_attempt w (i : CapabilityInvocation) (impl driver : string)
    (conn : option string) (fresh : string) (now : Z) : World S :=
  if bool_decide (iv_state i = CREATED) && (iv_attempt i =? 0) then
    let candidate := route i (Some impl) (Some driver) conn 1 (iv_max_attempts i) in
    match transition_invocation candidate (changes_to DISPATCHING) now with
    | None => w
    | Some candidate =>
        let a := dispatching_attempt candidate impl driver conn fresh
                   (JObj [("initial_attempt", JBool true); ("source_revision", JInt (iv_revision i))])
                   now in
        let (s, b) := begin_initial (w_store w) candidate (iv_revision i) a in
        if b then logged (new_attempt (new_handle (set_store w s) candidate) a) (iv_id i) (iv_revision i)
        else set_store w s
    end
  else w.

(** [begin_continuation_attempt]. *)
Definition begin_continuation_attempt w (i : CapabilityInvocation) (impl driver : string)
    (conn : option string) (mode fresh : string) (now : Z) : World S :=
  if bool_decide (iv_state i = WAITING) then
    let candidate := route i (Some impl) (Some driver) conn (iv_attempt i + 1)
                       (Z.max (iv_max_attempts i) (iv_attempt i + 1)) in
    match transition_invocation candidate (changes_to DISPATCHING) now with
    | None => w
    | Some candidate =>
        let a := dispatching_attempt candidate impl driver conn fresh
                   (JObj [("continuation_mode", JStr mode); ("source_revision", JInt (iv_revision i));
                          ("source_remote_outcome_state", outcome_json (iv_remote_outcome i))]) now in
        let (s, b) := begin_continuation (w_store w) candidate (iv_revision i) a in
        if b then logged (new_attempt (new_handle (set_store w s) candidate) a) (iv_id i) (iv_revision i)
        else set_store w s
    end
  else w.

(** [start_initial_attempt] and [start_continuation_attempt]: [start] is the operation of
    the store. *)
Definition start_with (start : S -> CapabilityInvocation -> Z -> CapabilityInvocationAttempt -> S * bool)
    w (i : CapabilityInvocation) (a : CapabilityInvocationAttempt) (now : Z) : World S :=
  match transition_invocation i (changes_to RUNNING) now with
  | None => w
  | Some candidate =>
      let running := set_attempt_state a RUNNING in
      let (s, b) := start (w_store w) candidate (iv_revision i) running in
      if b then logged (new_attempt (new_handle (set_store w s) candidate) running)
                  (iv_id i) (iv_revision i)
      else set_store w s
  end.

Definition start_initial_attempt w (i : CapabilityInvocation) (a : CapabilityInvocationAttempt)
    (now : Z) : World S :=
  if bool_decide (iv_state i = DISPATCHING) && (iv_attempt i =? 1) && (ia_number a =? 1)
  then start_with start_initial w i a now else w.

Definition start_continuation_attempt w (i : CapabilityInvocation) (a : CapabilityInvocationAttempt)
    (now : Z) : World S :=
  if bool_decide (iv_state i = DISPATCHING) then start_with start_continuation w i a now else w.

(** [start_attempt]: an attempt that is running from the start, outside the invocation's
    compare-and-set. *)
Definition start_attempt w (i : CapabilityInvocation) (impl driver : string)
    (conn : option string) (fresh : string) (now : Z) : World S :=
  let a := {| ia_id := fresh; ia_invocation_id := iv_id i; ia_number := iv_attempt i;
              ia_implementation_id := impl; ia_driver_kind := driver; ia_connection_id := conn;
              ia_state := RUNNING; ia_started_at := Some now; ia_completed_at := None;
              ia_error := None; ia_metadata := JObj [] |} in
  match save_attempt (w_store w) a with
  | Some s => new_attempt (set_store w s) a
  | None => w
  end.

(** [finish_attempt] mutates the worker's attempt and writes it. *)
Definition finish_attempt w (n : nat) (a : CapabilityInvocationAttempt)
    (state : CapabilityInvocationState) (error : option json) (now : Z) : World S :=
  if terminal_invocation state then
    let a' := {| ia_id := ia_id a; ia_invocation_id := ia_invocation_id a; ia_number := ia_number a;
                 ia_implementation_id := ia_implementation_id a; ia_driver_kind := ia_driver_kind a;
                 ia_connection_id := ia_connection_id a; ia_state := state;
                 ia_started_at := ia_started_at a; ia_completed_at := Some now; ia_error := error;
                 ia_metadata := ia_metadata a |} in
    let w' := {| w_store := w_store w; w_handles := w_handles w;
                 w_attempts := <[n := a']> (w_attempts w); w_log := w_log w |} in
    match update_attempt (w_store w) a' with
    | Some s => set_store w' s
    | None => w'
    end
  else w.

Definition with_handle w (h : nat) (f : CapabilityInvocation -> World S) : World S :=
  match w_handles w !! h with Some x => f (h_invocation x) | None => w end.

Definition with_attempt w (n : nat) (f : CapabilityInvocationAttempt -> World S) : World S :=
  match w_attempts w !! n with Some a => f a | None => w end.

Definition lifecycle_step w (ev : LifecycleEvent) : World S :=
  match ev with
  | EvCreate i => lifecycle_create w i
  | EvLoad id => match get_invocation (w_store w) id with Some i => new_handle w i | None => w end
  | EvRoute h impl driver conn attempt max_attempts =>
      match w_handles w !! h with
      | Some x => set_handle w h (route (h_invocation x) impl driver conn attempt max_attempts) (h_fresh x)
      | None => w
      end
  | EvTransition h ch now => with_handle w h (fun i => lifecycle_transition w h i ch now)
  | EvRemoteOutcome h o now => with_handle w h (fun i => update_remote_outcome w h i o now)
  | EvBeginInitial h impl driver conn fresh now =>
      with_handle w h (fun i => begin_initial_attempt w i impl driver conn fresh now)
  | EvStartInitial h n now =>
      with_handle w h (fun i => with_attempt w n (fun a => start_initial_attempt w i a now))
  | EvBeginContinuation h impl driver conn mode fresh now =>
      with_handle w h (fun i => begin_continuation_attempt w i impl driver conn mode fresh now)
  | EvStartContinuation h n now =>
      with_handle w h (fun i => with_attempt w n (fun a => start_continuation_attempt w i a now))
  | EvStartAttempt h impl driver conn fresh now =>
      with_handle w h (fun i => start_attempt w i impl driver conn fresh now)
  | EvFinishAttempt n state error now =>
      with_attempt w n (fun a => finish_attempt w n a state error now)
  end.

Definition new_world s : World S :=
  {| w_store := s; w_handles := []; w_attempts := []; w_log := [] |}.

(** The object an event works on was not refused before. *)
Definition uses (ev : LifecycleEvent) : option nat :=
  match ev with
  | EvRoute h _ _ _ _ _ | EvTransition h _ _ | EvRemoteOutcome h _ _ | EvBeginInitial h _ _ _ _ _
  | EvStartInitial h _ _ | EvBeginContinuation h _ _ _ _ _ _ | EvStartContinuation h _ _
  | EvStartAttempt h _ _ _ _ _ => Some h
  | _ => None
  end.

Definition disciplined w (ev : LifecycleEvent) : bool :=
  match uses ev with
  | Some h => match w_handles w !! h with Some x => h_fresh x | None => true end
  | None => true
  end.

Fixpoint all_disciplined w (evs : list LifecycleEvent) : bool :=
  match evs with
  | [] => true
  | ev :: evs => disciplined w ev && all_disciplined (lifecycle_step w ev) evs
  end.
End Lifecycle.
