(* ===== verification/CapabilityCatalog.v ===== *)
(** * Capability catalog, routing and the driver registries
    (src/se/src/runtimes/capability/: contracts/definition.py, contracts/implementation.py,
    contracts/target.py, catalog.py, policy.py, registry.py and driver_registry.py)

    The catalog holds the logical definitions and their implementations; the routing policy
    picks an implementation for a request; the registries hold the drivers of the server.
    Every method holds the lock, so a method is one step.  Whether a JSON schema is valid is
    jsonschema's answer, an argument of the definitions.  A set of effects or scopes is a
    finite set, metadata is a JSON object, drivers are opaque names. *)

From S2P Require Import Prelude Canonical PythonValues Invocation.

(** ** contracts *)

Inductive CapabilityKind := TOOL | SKILL | AGENT_KIND.
#[global] Instance CapabilityKind_eq_dec : EqDecision CapabilityKind.
Proof. solve_decision. Defined.

Inductive CapabilityExecutionMode := CONTEXT_ONLY | ONE_SHOT | STREAMING | LONG_RUNNING.
#[global] Instance CapabilityExecutionMode_eq_dec : EqDecision CapabilityExecutionMode.
Proof. solve_decision. Defined.

Inductive CapabilityEffect := READ | WRITE | EXECUTE | EXTERNAL_SIDE_EFFECT | PRIVILEGED.
#[global] Instance CapabilityEffect_eq_dec : EqDecision CapabilityEffect.
Proof. solve_decision. Defined.

Definition effect_code (e : CapabilityEffect) : nat :=
  match e with READ => 0 | WRITE => 1 | EXECUTE => 2 | EXTERNAL_SIDE_EFFECT => 3 | PRIVILEGED => 4 end.
Definition effect_of (n : nat) : option CapabilityEffect :=
  [READ; WRITE; EXECUTE; EXTERNAL_SIDE_EFFECT; PRIVILEGED] !! n.

#[global] Program Instance CapabilityEffect_countable : Countable CapabilityEffect :=
  inj_countable effect_code effect_of _.
Next Obligation. by intros []. Qed.

(** Equality of JSON values as Python compares them: by content, whatever the order of keys. *)
Definition same_json (a b : json) : bool := bool_decide (json_dumps a = json_dumps b).

Record CapabilityDefinition := {
  cd_id : option string;
  cd_version : string;
  cd_name : string;
  cd_description : string;
  cd_input_schema : json;
  cd_output_schema : json;
  cd_source : string;
  cd_execution_kind : string;
  cd_kind : CapabilityKind;
  cd_execution_mode : CapabilityExecutionMode;
  cd_idempotency : CapabilityIdempotency;
  cd_effects : gset CapabilityEffect;
  cd_require_auth : bool;
  cd_required_scopes : list string;
  cd_metadata : list (string * json)
}.

Definition capability_id (d : CapabilityDefinition) : string :=
  match cd_id d with Some i => if truthy i then i else cd_name d | None => cd_name d end.

Definition same_definition (a b : CapabilityDefinition) : bool :=
  bool_decide (cd_id a = cd_id b) && bool_decide (cd_version a = cd_version b) &&
  bool_decide (cd_name a = cd_name b) && bool_decide (cd_description a = cd_description b) &&
  same_json (cd_input_schema a) (cd_input_schema b) && same_json (cd_output_schema a) (cd_output_schema b) &&
  bool_decide (cd_source a = cd_source b) && bool_decide (cd_execution_kind a = cd_execution_kind b) &&
  bool_decide (cd_kind a = cd_kind b) && bool_decide (cd_execution_mode a = cd_execution_mode b) &&
  bool_decide (cd_idempotency a = cd_idempotency b) && bool_decide (cd_effects a = cd_effects b) &&
  Bool.eqb (cd_require_auth a) (cd_require_auth b) &&
  bool_decide (cd_required_scopes a = cd_required_scopes b) &&
  same_json (JObj (cd_metadata a)) (JObj (cd_metadata b)).

Inductive CapabilityExecutionLocation := LOC_SERVER | LOC_CLIENT | LOC_MCP | LOC_DECLARATIVE.
#[global] Instance CapabilityExecutionLocation_eq_dec : EqDecision CapabilityExecutionLocation.
Proof. solve_decision. Defined.

Inductive CapabilityImplementationState :=
  | IMPL_REGISTERED | IMPL_ENABLED | IMPL_DEGRADED | IMPL_UNAVAILABLE | IMPL_DISABLED | IMPL_REMOVED.
#[global] Instance CapabilityImplementationState_eq_dec : EqDecision CapabilityImplementationState.
Proof. solve_decision. Defined.

Inductive CapabilityOwnerType := OWN_SYSTEM | OWN_USER | OWN_CLIENT | OWN_WORKSPACE.
#[global] Instance CapabilityOwnerType_eq_dec : EqDecision CapabilityOwnerType.
Proof. solve_decision. Defined.

Record CapabilityImplementation := {
  ci_implementation_id : string;
  ci_capability_id : string;
  ci_version : string;
  ci_location : CapabilityExecutionLocation;
  ci_driver_kind : string;
  ci_owner_id : option string;
  ci_connection_id : option string;
  ci_owner_type : CapabilityOwnerType;
  ci_state : CapabilityImplementationState;
  ci_metadata : list (string * json)
}.

Definition with_impl_state (m : CapabilityImplementation) (st : CapabilityImplementationState)
    : CapabilityImplementation :=
  let '(Build_CapabilityImplementation i c v l d o cn ot _ md) := m in
  Build_CapabilityImplementation i c v l d o cn ot st md.

(** ** CapabilityCatalog *)

Inductive CatalogError :=
  | InvalidCapabilitySchemaError
  | CapabilityDefinitionConflictError
  | CapabilityImplementationConflictError
  | CapabilityNotFoundError
  | CapabilityImplementationNotFoundError
  | InvalidCapabilityBindingError
  | InvalidCapabilityStateTransitionError
  | CapabilityVersionError
  | CatalogKeyError.

Record CapabilityCatalog := {
  cc_definitions : gmap string CapabilityDefinition;
  cc_implementations : gmap string CapabilityImplementation;
  cc_by_capability : gmap string (gset string)
}.

Definition empty_catalog : CapabilityCatalog :=
  {| cc_definitions := ∅; cc_implementations := ∅; cc_by_capability := ∅ |}.

Definition routable (s : CapabilityImplementationState) : bool :=
  match s with IMPL_ENABLED | IMPL_DEGRADED => true | _ => false end.

Definition impl_transition_allowed (from to : CapabilityImplementationState) : bool :=
  match from, to with
  | IMPL_REGISTERED, (IMPL_ENABLED | IMPL_DISABLED | IMPL_REMOVED) => true
  | IMPL_ENABLED, (IMPL_DEGRADED | IMPL_DISABLED | IMPL_UNAVAILABLE | IMPL_REMOVED) => true
  | IMPL_DEGRADED, (IMPL_ENABLED | IMPL_DISABLED | IMPL_UNAVAILABLE | IMPL_REMOVED) => true
  | IMPL_UNAVAILABLE, (IMPL_ENABLED | IMPL_DEGRADED | IMPL_DISABLED | IMPL_REMOVED) => true
  | IMPL_DISABLED, (IMPL_ENABLED | IMPL_DEGRADED | IMPL_REMOVED) => true
  | _, _ => false
  end.

Definition ids_of (c : CapabilityCatalog) (cap : string) : gset string := default ∅ (cc_by_capability c !! cap).

Section Catalog.
Context (schema_ok : json -> bool).

Definition register_definition (c : CapabilityCatalog) (d : CapabilityDefinition) (allow_update : bool)
    : result CatalogError (CapabilityCatalog * CapabilityDefinition) :=
  _ ← guard_err (schema_ok (cd_input_schema d)) InvalidCapabilitySchemaError;
  let cap := capability_id d in
  let store :=
    {| cc_definitions := <[cap := d]> (cc_definitions c); cc_implementations := cc_implementations c;
       cc_by_capability := cc_by_capability c |} in
  match cc_definitions c !! cap with
  | Some existing =>
      if same_definition existing d then mret (c, existing)
      else if allow_update then mret (store, d)
      else Err CapabilityDefinitionConflictError
  | None =>
      mret ({| cc_definitions := cc_definitions store; cc_implementations := cc_implementations c;
               cc_by_capability := <[cap := ids_of c cap]> (cc_by_capability c) |}, d)
  end.
End Catalog.

Definition get_definition (c : CapabilityCatalog) (cap : string) : result CatalogError CapabilityDefinition :=
  match cc_definitions c !! cap with Some d => Ok d | None => Err CapabilityNotFoundError end.

Definition validate_binding (m : CapabilityImplementation) : result CatalogError unit :=
  _ ← (if bool_decide (ci_location m = LOC_CLIENT) then
         _ ← guard_err (bool_decide (ci_owner_type m = OWN_CLIENT)) InvalidCapabilityBindingError;
         _ ← guard_err (truthy (default "" (ci_owner_id m))) InvalidCapabilityBindingError;
         guard_err (truthy (default "" (ci_connection_id m))) InvalidCapabilityBindingError
       else mret tt);
  guard_err (negb (bool_decide (ci_location m = LOC_SERVER) && bool_decide (is_Some (ci_connection_id m))))
    InvalidCapabilityBindingError.

Definition register_implementation (c : CapabilityCatalog) (m : CapabilityImplementation) (allow_update : bool)
    : result CatalogError (CapabilityCatalog * CapabilityImplementation) :=
  match cc_definitions c !! ci_capability_id m with
  | None => Err CapabilityNotFoundError
  | Some d =>
      _ ← guard_err (bool_decide (ci_version m = cd_version d)) CapabilityVersionError;
      _ ← validate_binding m;
      _ ← guard_err (negb (bool_decide (is_Some (cc_implementations c !! ci_implementation_id m)) && negb allow_update))
            CapabilityImplementationConflictError;
      mret ({| cc_definitions := cc_definitions c;
               cc_implementations := <[ci_implementation_id m := m]> (cc_implementations c);
               cc_by_capability := <[ci_capability_id m := ids_of c (ci_capability_id m) ∪ {[ci_implementation_id m]}]>
                                     (cc_by_capability c) |}, m)
  end.

Definition get_implementation (c : CapabilityCatalog) (id : string) : result CatalogError CapabilityImplementation :=
  match cc_implementations c !! id with Some m => Ok m | None => Err CapabilityImplementationNotFoundError end.

(** In the order of the implementation ids; a dangling id is a KeyError. *)
Definition list_implementations (c : CapabilityCatalog) (cap : string) (routable_only : bool)
    : result CatalogError (list CapabilityImplementation) :=
  match cc_definitions c !! cap with
  | None => Err CapabilityNotFoundError
  | Some _ =>
      match mapM (fun id => cc_implementations c !! id) (sort_by (fun x => x) String.ltb (elements (ids_of c cap))) with
      | None => Err CatalogKeyError
      | Some l => Ok (if routable_only then List.filter (fun m => routable (ci_state m)) l else l)
      end
  end.

Definition list_implementations_for_connection (c : CapabilityCatalog) (conn : string)
    : list CapabilityImplementation :=
  sort_by ci_implementation_id String.ltb
    (List.filter (fun m => bool_decide (ci_connection_id m = Some conn))
       (map snd (map_to_list (cc_implementations c)))).

Definition transition_implementation (c : CapabilityCatalog) (id : string) (st : CapabilityImplementationState)
    : result CatalogError (CapabilityCatalog * CapabilityImplementation) :=
  current ← get_implementation c id;
  if bool_decide (ci_state current = st) then mret (c, current)
  else
    _ ← guard_err (impl_transition_allowed (ci_state current) st) InvalidCapabilityStateTransitionError;
    mret ({| cc_definitions := cc_definitions c;
             cc_implementations := <[id := with_impl_state current st]> (cc_implementations c);
             cc_by_capability := cc_by_capability c |}, with_impl_state current st).

Definition remove_implementation (c : CapabilityCatalog) (id : string) :=
  transition_implementation c id IMPL_REMOVED.

Definition contains_definition (c : CapabilityCatalog) (cap : string) : bool :=
  bool_decide (is_Some (cc_definitions c !! cap)).
Definition contains_implementation (c : CapabilityCatalog) (id : string) : bool :=
  bool_decide (is_Some (cc_implementations c !! id)).

Definition list_definitions (c : CapabilityCatalog) : list CapabilityDefinition :=
  map snd (sort_by fst String.ltb (map_to_list (cc_definitions c))).

(** ** policy.py *)

Inductive CapabilityAccessProfile := ACCESS_NONE | DIRECT_READ_ONLY | AGENT_POLICY.

(** Which definitions a model may see. *)
Definition allows (d : CapabilityDefinition) (profile : CapabilityAccessProfile) : bool :=
  match profile with
  | ACCESS_NONE => false
  | AGENT_POLICY => true
  | DIRECT_READ_ONLY =>
      if bool_decide (cd_kind d = AGENT_KIND) then false
      else if bool_decide (cd_execution_mode d = CONTEXT_ONLY) || bool_decide (cd_execution_mode d = LONG_RUNNING)
      then false
      else negb (bool_decide (cd_effects d = ∅)) && bool_decide (cd_effects d ⊆ {[READ]})
  end.

Inductive ResourceScope := SANDBOX | CLIENT_LOCAL | ASSET | EXTERNAL | INTERNAL_TRUSTED.
#[global] Instance ResourceScope_eq_dec : EqDecision ResourceScope.
Proof. solve_decision. Defined.

Definition scope_value (s : ResourceScope) : string :=
  match s with
  | SANDBOX => "SANDBOX" | CLIENT_LOCAL => "CLIENT_LOCAL" | ASSET => "ASSET" | EXTERNAL => "EXTERNAL"
  | INTERNAL_TRUSTED => "INTERNAL_TRUSTED"
  end.

Inductive FallbackPolicy := FALLBACK_NONE | SEMANTICALLY_EQUIVALENT_ONLY.
#[global] Instance FallbackPolicy_eq_dec : EqDecision FallbackPolicy.
Proof. solve_decision. Defined.

Definition fallback_value (f : FallbackPolicy) : string :=
  match f with FALLBACK_NONE => "NONE" | SEMANTICALLY_EQUIVALENT_ONLY => "SEMANTICALLY_EQUIVALENT_ONLY" end.

Record CapabilityInvocationTarget := {
  tg_resource_scope : ResourceScope;
  tg_resource_ref : option string;
  tg_stable_client_id : option string;
  tg_fallback_policy : FallbackPolicy
}.

(** [_canonical_optional_string] and [_validate_client_local]. *)
Definition canonical_text (o : option string) : bool :=
  match o with Some s => truthy s && bool_decide (s = strip s) | None => true end.

Definition target_valid (t : CapabilityInvocationTarget) : bool :=
  canonical_text (tg_resource_ref t) && canonical_text (tg_stable_client_id t) &&
  negb (bool_decide (tg_resource_scope t = CLIENT_LOCAL) && bool_decide (tg_stable_client_id t = None)).

(** [str(metadata.get(key) or "")]. *)
Definition meta_text (md : list (string * json)) (key : string) : string := text_or_empty (dict_get key md).

(** [{str(value) for value in declared}], or [None] when the value cannot be iterated. *)
Definition declared_scopes (md : list (string * json)) : option (list string) :=
  match dict_get "resource_scopes" md with
  | None => Some []
  | Some (JStr s) => Some [s]
  | Some (JArr l) => Some (map py_str l)
  | Some (JObj f) => Some (map fst f)
  | Some _ => None
  end.

Definition implementation_supports_target (m : CapabilityImplementation) (target : option CapabilityInvocationTarget)
    : bool :=
  match target with
  | None => true
  | Some t =>
      let client_id := meta_text (ci_metadata m) "client_id" in
      if bool_decide (tg_resource_scope t = CLIENT_LOCAL)
      then bool_decide (ci_location m = LOC_CLIENT) && truthy client_id &&
           bool_decide (Some client_id = tg_stable_client_id t)
      else
        match tg_stable_client_id t with
        | Some s => bool_decide (ci_location m = LOC_CLIENT) && bool_decide (client_id = s)
        | None => true
        end &&
        match declared_scopes (ci_metadata m) with
        | Some l => bool_decide (scope_value (tg_resource_scope t) ∈ l)
        | None => false
        end
  end.

Record CapabilityRequestContext := {
  rc_owner_id : option string;
  rc_connection_id : option string;
  rc_scopes : gset string;
  rc_target : option CapabilityInvocationTarget
}.

(** [available]: the connection lifecycle, when the policy has one. *)
Definition authorize (m : CapabilityImplementation) (required_scopes : list string) (ctx : CapabilityRequestContext)
    (available : option (string -> bool)) : bool :=
  (if bool_decide (ci_location m = LOC_CLIENT) then
     truthy (default "" (ci_owner_id m)) && truthy (default "" (ci_connection_id m)) &&
     bool_decide (rc_owner_id ctx = ci_owner_id m) &&
     match rc_target ctx with
     | None => bool_decide (rc_connection_id ctx = ci_connection_id m)
     | Some t => implementation_supports_target m (Some t)
     end &&
     match available with
     | None => false
     | Some active => active (default "" (ci_connection_id m))
     end
   else true) &&
  forallb (fun s => bool_decide (s ∈ rc_scopes ctx)) required_scopes.

(** A client implementation of the request's own connection. *)
Definition same_connection_client (ctx : CapabilityRequestContext) (m : CapabilityImplementation) : bool :=
  bool_decide (ci_location m = LOC_CLIENT) && bool_decide (ci_connection_id m = rc_connection_id ctx).

(** The candidates in the order of preference, before authorization. *)
Definition fallback_forbidden (ctx : CapabilityRequestContext) : bool :=
  match rc_target ctx with Some t => bool_decide (tg_fallback_policy t = FALLBACK_NONE) | None => false end.

Definition order_by_connection (ctx : CapabilityRequestContext) (l : list CapabilityImplementation)
    : list CapabilityImplementation :=
  match rc_target ctx, rc_connection_id ctx with
  | Some _, Some _ =>
      let same := List.filter (same_connection_client ctx) l in
      same ++ List.filter (fun m => negb (bool_decide (ci_implementation_id m ∈ map ci_implementation_id same))) l
  | None, Some _ =>
      List.filter (same_connection_client ctx) l ++
      List.filter (fun m => negb (bool_decide (ci_location m = LOC_CLIENT))) l
  | _, None => l
  end.

Definition order_by_preference (ctx : CapabilityRequestContext) (preferred : option string)
    (l : list CapabilityImplementation) : list CapabilityImplementation :=
  match preferred with
  | None => l
  | Some p =>
      let chosen := List.filter (fun m => bool_decide (ci_implementation_id m = p)) l in
      if fallback_forbidden ctx then chosen
      else chosen ++ List.filter (fun m => negb (bool_decide (ci_implementation_id m = p))) l
  end.

Definition candidates (ctx : CapabilityRequestContext) (preferred : option string) (excluded : gset string)
    (l : list CapabilityImplementation) : list CapabilityImplementation :=
  let l := List.filter (fun m => negb (bool_decide (ci_implementation_id m ∈ excluded))) l in
  let l := List.filter (fun m => implementation_supports_target m (rc_target ctx)) l in
  let l := if fallback_forbidden ctx && negb (bool_decide (excluded = ∅)) then [] else l in
  order_by_preference ctx preferred (order_by_connection ctx l).

Inductive RouteError := RouteCatalog (e : CatalogError) | RoutePermissionError.

Definition select (available : option (string -> bool)) (c : CapabilityCatalog) (cap : string)
    (ctx : CapabilityRequestContext) (preferred : option string) (excluded : gset string)
    : result RouteError CapabilityImplementation :=
  match get_definition c cap, list_implementations c cap true with
  | Ok d, Ok l =>
      match List.find (fun m => authorize m (cd_required_scopes d) ctx available) (candidates ctx preferred excluded l) with
      | Some m => Ok m
      | None => Err RoutePermissionError
      end
  | Err e, _ => Err (RouteCatalog e)
  | _, Err e => Err (RouteCatalog e)
  end.

(** ** CapabilityRegistry: the executable capabilities of the server, in insertion order *)

Inductive CapabilityState :=
  | CAP_DISCOVERED | CAP_REGISTERED | CAP_ENABLED | CAP_DISABLED | CAP_DEGRADED | CAP_UNAVAILABLE | CAP_REMOVED.
#[global] Instance CapabilityState_eq_dec : EqDecision CapabilityState.
Proof. solve_decision. Defined.

Definition cap_transition_allowed (from to : CapabilityState) : bool :=
  bool_decide (from = to) ||
  match from, to with
  | CAP_DISCOVERED, CAP_REGISTERED => true
  | CAP_REGISTERED, (CAP_ENABLED | CAP_DISABLED | CAP_REMOVED) => true
  | CAP_ENABLED, (CAP_DEGRADED | CAP_UNAVAILABLE | CAP_DISABLED | CAP_REMOVED) => true
  | CAP_DEGRADED, (CAP_ENABLED | CAP_UNAVAILABLE | CAP_DISABLED | CAP_REMOVED) => true
  | CAP_UNAVAILABLE, (CAP_ENABLED | CAP_DEGRADED | CAP_DISABLED | CAP_REMOVED) => true
  | CAP_DISABLED, (CAP_ENABLED | CAP_REMOVED) => true
  | _, _ => false
  end.

Record CapabilityRecord := {
  cr_definition : CapabilityDefinition;
  cr_driver : option string;
  cr_state : CapabilityState
}.

Definition executable (r : CapabilityRecord) : bool :=
  bool_decide (is_Some (cr_driver r)) &&
  match cr_state r with CAP_DISABLED | CAP_UNAVAILABLE | CAP_REMOVED => false | _ => true end.

Abbreviation CapabilityRegistry := (list (string * CapabilityRecord)).

(** [schema or {"type": "object"}]. *)
Definition schema_or_object (j : json) : json :=
  match j with JObj [] => JObj [("type"%string, JStr "object")] | _ => j end.

Inductive RegistryError := RegistrySchemaError | RegistryTransitionError | RegistryNoDriver.

Definition register_capability (schema_ok : json -> bool) (r : CapabilityRegistry) (d : CapabilityDefinition)
    (driver : string) : result RegistryError (CapabilityRegistry * CapabilityRecord) :=
  _ ← guard_err (schema_ok (schema_or_object (cd_input_schema d))) RegistrySchemaError;
  let record := {| cr_definition := d; cr_driver := Some driver; cr_state := CAP_ENABLED |} in
  mret (dict_set (capability_id d) record r, record).

Definition set_state (r : CapabilityRegistry) (name : string) (st : CapabilityState)
    : result RegistryError (CapabilityRegistry * option CapabilityRecord) :=
  match dict_get name r with
  | None => mret (r, None)
  | Some record =>
      _ ← guard_err (cap_transition_allowed (cr_state record) st) RegistryTransitionError;
      _ ← guard_err (negb ((bool_decide (st = CAP_ENABLED) || bool_decide (st = CAP_DEGRADED)) &&
                           bool_decide (cr_driver record = None))) RegistryNoDriver;
      let updated := {| cr_definition := cr_definition record; cr_driver := cr_driver record; cr_state := st |} in
      mret (dict_set name updated r, Some updated)
  end.

Definition discover_definition (schema_ok : json -> bool) (r : CapabilityRegistry) (d : CapabilityDefinition)
    : result RegistryError (CapabilityRegistry * CapabilityRecord) :=
  _ ← guard_err (schema_ok (schema_or_object (cd_input_schema d))) RegistrySchemaError;
  let record := {| cr_definition := d; cr_driver := None; cr_state := CAP_DISCOVERED |} in
  match dict_get (capability_id d) r with
  | Some existing =>
      if bool_decide (is_Some (cr_driver existing)) then mret (r, existing)
      else mret (dict_set (capability_id d) record r, record)
  | None => mret (dict_set (capability_id d) record r, record)
  end.

Definition get_driver (r : CapabilityRegistry) (name : string) : option string :=
  match dict_get name r with Some record => if executable record then cr_driver record else None | None => None end.

Definition get_all_drivers (r : CapabilityRegistry) : list string :=
  omap (fun kv => if executable kv.2 then cr_driver kv.2 else None) r.

Definition unregister_capability (r : CapabilityRegistry) (name : string)
    : CapabilityRegistry * option CapabilityRecord :=
  (List.filter (fun kv => negb (bool_decide (kv.1 = name))) r, dict_get name r).

(** ** CapabilityDriverRegistry *)

(** Drivers are compared by identity. *)
Definition bind_driver (r : gmap string string) (implementation_id driver : string) (replace : bool)
    : option (gmap string string) :=
  if negb (truthy (strip implementation_id)) then None
  else
    match r !! implementation_id with
    | Some existing => if negb (bool_decide (existing = driver)) && negb replace then None
                       else Some (<[implementation_id := driver]> r)
    | None => Some (<[implementation_id := driver]> r)
    end.

Definition unbind_driver (r : gmap string string) (implementation_id : string)
    : gmap string string * option string := (delete implementation_id r, r !! implementation_id).
