(* ===== verification/CapabilityRegistration.v ===== *)
(** * Client capability registration
    (src/se/src/runtimes/capability/registration.py and contracts/registration.py)

    An active client advertises its local capabilities in one batch.  The batch is validated
    against the catalog and the connection registry, its names are reserved in the durable
    authority when there is one (other work goes on meanwhile), validated again, and committed
    to the catalog.  A request is a value: the deep copies of the code are the identity. *)

From S2P Require Import Prelude Canonical PythonValues Invocation CapabilityCatalog ConnectionRegistry.

Record CapabilityRegistration := {
  rn_definition : CapabilityDefinition;
  rn_location : CapabilityExecutionLocation;
  rn_driver_kind : string;
  rn_owner_type : CapabilityOwnerType;
  rn_owner_id : option string;
  rn_connection_id : option string;
  rn_implementation_id : string;
  rn_metadata : list (string * json)
}.

Record ClientCapabilityRegistration := {
  rq_connection_id : string;
  rq_client_id : string;
  rq_owner_id : string;
  rq_capabilities : list CapabilityRegistration
}.

Inductive RegistrationError :=
  | ClientRegistrationError (message : string)
  | RegistrationPermissionError (message : string)
  | RegistrationBindingError
  | RegistrationCatalog (e : CatalogError)
  | ReservationError.

(** Keys that describe one physical source of a definition. *)
Definition PROVENANCE_KEYS : list string :=
  ["client_id"; "physical_tool"; "physical_version"; "bind"; "binding_action"; "manifest_version";
   "metadata_version"; "local_name"; "connection_id"; "implementation_id"; "driver_kind"]%string.

Definition sort_texts (l : list string) : list string := sort_by (fun x => x) String.ltb l.

(** [metadata[key] = sorted(metadata[key] or [])] of a list of texts. *)
Definition sorted_value (j : json) : json :=
  match j with
  | JArr l => JArr (map JStr (sort_texts (omap (fun x => match x with JStr s => Some s | _ => None end) l)))
  | _ => JArr []
  end.

Definition contract_metadata (md : list (string * json)) : list (string * json) :=
  map (fun kv => if bool_decide (kv.1 ∈ ["required_permissions"; "danger_patterns"]%string)
                 then (kv.1, sorted_value kv.2) else kv)
    (List.filter (fun kv => negb (bool_decide (kv.1 ∈ PROVENANCE_KEYS))) md).

(** [_logical_definition_contract(a) == _logical_definition_contract(b)]. *)
Definition same_contract (a b : CapabilityDefinition) : bool :=
  bool_decide (capability_id a = capability_id b) && bool_decide (cd_version a = cd_version b) &&
  bool_decide (cd_name a = cd_name b) && bool_decide (cd_description a = cd_description b) &&
  same_json (cd_input_schema a) (cd_input_schema b) && same_json (cd_output_schema a) (cd_output_schema b) &&
  bool_decide (cd_kind a = cd_kind b) && bool_decide (cd_execution_mode a = cd_execution_mode b) &&
  bool_decide (cd_idempotency a = cd_idempotency b) && bool_decide (cd_effects a = cd_effects b) &&
  Bool.eqb (cd_require_auth a) (cd_require_auth b) &&
  bool_decide (sort_texts (cd_required_scopes a) = sort_texts (cd_required_scopes b)) &&
  same_json (JObj (contract_metadata (cd_metadata a))) (JObj (contract_metadata (cd_metadata b))).

(** [_implementation_contract(a) == _implementation_contract(b)]: all but the state. *)
Definition same_implementation (a b : CapabilityImplementation) : bool :=
  bool_decide (ci_implementation_id a = ci_implementation_id b) &&
  bool_decide (ci_capability_id a = ci_capability_id b) && bool_decide (ci_version a = ci_version b) &&
  bool_decide (ci_location a = ci_location b) && bool_decide (ci_driver_kind a = ci_driver_kind b) &&
  bool_decide (ci_owner_id a = ci_owner_id b) && bool_decide (ci_connection_id a = ci_connection_id b) &&
  bool_decide (ci_owner_type a = ci_owner_type b) &&
  same_json (JObj (ci_metadata a)) (JObj (ci_metadata b)).

(** The manifest of the physical source. *)
Definition manifest_ok (rn : CapabilityRegistration) : result RegistrationError unit :=
  match dict_get "manifest_version" (rn_metadata rn) with
  | None | Some JNull => mret tt
  | Some (JStr v) =>
      _ ← guard_err (bool_decide (v = "2.0"))
            (ClientRegistrationError "Unsupported client capability manifest_version");
      _ ← guard_err (bool_decide (cd_source (rn_definition rn) = "LOCAL") &&
                     bool_decide (cd_execution_kind (rn_definition rn) = "PYTHON"))
            (ClientRegistrationError "Canonical Metadata V2 client definitions require source=LOCAL and execution_kind=PYTHON");
      guard_err (forallb (fun kv => negb (bool_decide (kv.1 ∈ PROVENANCE_KEYS))) (cd_metadata (rn_definition rn)))
        (ClientRegistrationError "Canonical Metadata V2 definition metadata cannot contain implementation provenance")
  | Some _ => Err (ClientRegistrationError "Unsupported client capability manifest_version")
  end%string.

Definition build_implementation (rq : ClientCapabilityRegistration) (rn : CapabilityRegistration)
    : result RegistrationError CapabilityImplementation :=
  _ ← guard_err (bool_decide (rn_location rn = LOC_CLIENT)) RegistrationBindingError;
  _ ← manifest_ok rn;
  _ ← guard_err (bool_decide (rn_owner_type rn = OWN_CLIENT)) RegistrationBindingError;
  _ ← guard_err (bool_decide (rn_driver_kind rn = "REMOTE_CLIENT")) RegistrationBindingError;
  _ ← guard_err (bool_decide (rn_owner_id rn = None) || bool_decide (rn_owner_id rn = Some (rq_owner_id rq)))
        (RegistrationPermissionError "owner mismatch");
  _ ← guard_err (bool_decide (rn_connection_id rn = None) ||
                 bool_decide (rn_connection_id rn = Some (rq_connection_id rq)))
        (RegistrationPermissionError "connection mismatch");
  _ ← guard_err (truthy (strip (rn_implementation_id rn)))
        (ClientRegistrationError "Client registration requires non-empty implementation_id");
  mret {| ci_implementation_id := rn_implementation_id rn; ci_capability_id := capability_id (rn_definition rn);
          ci_version := cd_version (rn_definition rn); ci_location := rn_location rn;
          ci_driver_kind := rn_driver_kind rn; ci_owner_id := Some (rq_owner_id rq);
          ci_connection_id := Some (rq_connection_id rq); ci_owner_type := OWN_CLIENT;
          ci_state := IMPL_REGISTERED;
          ci_metadata := dict_set "client_id" (JStr (rq_client_id rq)) (rn_metadata rn) |}.

Definition validate_batch (rq : ClientCapabilityRegistration) (l : list CapabilityImplementation)
    : result RegistrationError unit :=
  _ ← guard_err (bool_decide (NoDup (map ci_implementation_id l)))
        (ClientRegistrationError "Client registration contains duplicate implementation_id values");
  guard_err (bool_decide (NoDup (map (fun rn => capability_id (rn_definition rn)) (rq_capabilities rq))))
    (ClientRegistrationError "Client registration contains duplicate capability_id values").

Definition validate_existing_definitions (c : CapabilityCatalog) (ds : list CapabilityDefinition)
    : result RegistrationError unit :=
  guard_err (forallb (fun d => match cc_definitions c !! capability_id d with
                               | Some existing => same_contract existing d
                               | None => true
                               end) ds)
    (RegistrationCatalog CapabilityDefinitionConflictError).

Definition validate_existing_implementations (c : CapabilityCatalog) (l : list CapabilityImplementation)
    : result RegistrationError unit :=
  guard_err (forallb (fun m => match cc_implementations c !! ci_implementation_id m with
                               | Some existing => negb (bool_decide (ci_state existing = IMPL_REMOVED)) &&
                                                  same_implementation existing m
                               | None => true
                               end) l)
    (RegistrationCatalog CapabilityImplementationConflictError).

(** The connection is usable and belongs to the owner and the client of the request. *)
Definition check_connection (r : Registry) (rq : ClientCapabilityRegistration)
    : result RegistrationError ConnectionSnapshot :=
  match connection r (rq_connection_id rq) with
  | None => Err (ClientRegistrationError "Connection is not ACTIVE")
  | Some s =>
      _ ← guard_err (bool_decide (cs_state s = ACTIVE)) (ClientRegistrationError "Connection is not ACTIVE");
      _ ← guard_err (bool_decide (cs_user_id s = rq_owner_id rq))
            (RegistrationPermissionError "Connection is not owned by the owner");
      let client := meta_text (cs_metadata s) "client_id" in
      _ ← guard_err (negb (truthy client) || bool_decide (client = rq_client_id rq))
            (RegistrationPermissionError "Connection is not owned by the client");
      mret s
  end.

Definition request_definitions (rq : ClientCapabilityRegistration) : list CapabilityDefinition :=
  map rn_definition (rq_capabilities rq).

Definition mapR {E A B} (f : A -> result E B) : list A -> result E (list B) :=
  fix go l := match l with [] => Ok [] | x :: l' => y ← f x; ys ← go l'; mret (y :: ys) end.

(** No mutation of the catalog. *)
Definition preflight (c : CapabilityCatalog) (r : Registry) (rq : ClientCapabilityRegistration)
    : result RegistrationError (list CapabilityDefinition * list CapabilityImplementation) :=
  _ ← guard_err (truthy (strip (rq_client_id rq)) && truthy (strip (rq_owner_id rq)))
        (ClientRegistrationError "Client registration requires non-empty client_id and owner_id");
  _ ← check_connection r rq;
  l ← mapR (build_implementation rq) (rq_capabilities rq);
  _ ← validate_batch rq l;
  _ ← validate_existing_definitions c (request_definitions rq);
  _ ← validate_existing_implementations c l;
  mret (request_definitions rq, l).

(** ** Commit: what was written before an error stays *)

Section Registration.
Context (schema_ok : json -> bool).

Fixpoint commit_definitions (c : CapabilityCatalog) (ds : list CapabilityDefinition)
    : CapabilityCatalog * result RegistrationError unit :=
  match ds with
  | [] => (c, Ok tt)
  | d :: rest =>
      if contains_definition c (capability_id d) then commit_definitions c rest
      else
        match register_definition schema_ok c d false with
        | Ok (c1, _) => commit_definitions c1 rest
        | Err e => (c, Err (RegistrationCatalog e))
        end
  end.

Definition commit_implementation (c : CapabilityCatalog) (m : CapabilityImplementation)
    : CapabilityCatalog * result RegistrationError CapabilityImplementation :=
  if contains_implementation c (ci_implementation_id m) then
    match get_implementation c (ci_implementation_id m) with
    | Ok x => (c, Ok x)
    | Err e => (c, Err (RegistrationCatalog e))
    end
  else
    match register_implementation c m false with
    | Err e => (c, Err (RegistrationCatalog e))
    | Ok (c1, _) =>
        match transition_implementation c1 (ci_implementation_id m) IMPL_ENABLED with
        | Ok (c2, x) => (c2, Ok x)
        | Err e => (c1, Err (RegistrationCatalog e))
        end
    end.

Fixpoint commit_implementations (c : CapabilityCatalog) (l : list CapabilityImplementation)
    : CapabilityCatalog * result RegistrationError (list CapabilityImplementation) :=
  match l with
  | [] => (c, Ok [])
  | m :: rest =>
      match commit_implementation c m with
      | (c1, Err e) => (c1, Err e)
      | (c1, Ok x) =>
          match commit_implementations c1 rest with
          | (c2, Ok xs) => (c2, Ok (x :: xs))
          | (c2, Err e) => (c2, Err e)
          end
      end
  end.

Definition commit (c : CapabilityCatalog) (ds : list CapabilityDefinition) (l : list CapabilityImplementation)
    : CapabilityCatalog * result RegistrationError (list CapabilityImplementation) :=
  match commit_definitions c ds with
  | (c1, Ok _) => commit_implementations c1 l
  | (c1, Err e) => (c1, Err e)
  end.

(** The local registration. *)
Definition register (c : CapabilityCatalog) (r : Registry) (rq : ClientCapabilityRegistration)
    : CapabilityCatalog * result RegistrationError (list CapabilityImplementation) :=
  match preflight c r rq with
  | Ok (ds, l) => commit c ds l
  | Err e => (c, Err e)
  end.

(** The reservation of the names in the durable authority: its answer, and the work of others
    while it is awaited. *)
Record Reservation := {
  rv_granted : bool;
  rv_catalog : CapabilityCatalog -> CapabilityCatalog;
  rv_connections : Registry -> Registry
}.

(** The connection is still the one the request came over. *)
Definition same_link (r0 r1 : Registry) (conn : string) : bool :=
  match connection r0 conn, connection r1 conn with
  | Some a, Some b => (cs_connected_at b =? cs_connected_at a) && bool_decide (cs_session_id b = cs_session_id a) &&
                      bool_decide (get_socket r1 conn = get_socket r0 conn)
  | _, _ => false
  end.

Definition register_durable (configured : bool) (authority : option Reservation) (user_id : option string)
    (c : CapabilityCatalog) (r : Registry) (rq : ClientCapabilityRegistration)
    : CapabilityCatalog * Registry * result RegistrationError (list CapabilityImplementation) :=
  let owner := strip (default "" user_id) in
  if negb (truthy owner && bool_decide (owner = rq_owner_id rq))
  then (c, r, Err (RegistrationPermissionError "Authenticated user does not own capability registration."))
  else
    match preflight c r rq with
    | Err e => (c, r, Err e)
    | Ok (ds, l) =>
        match authority, ds with
        | None, _ =>
            if configured
            then (c, r, Err (ClientRegistrationError
                   "Configured durable capability namespace authority is unavailable."))
            else let (c1, res) := commit c ds l in (c1, r, res)
        | Some _, [] => let (c1, res) := commit c ds l in (c1, r, res)
        | Some rv, _ =>
            let c1 := rv_catalog rv c in
            let r1 := rv_connections rv r in
            if negb (rv_granted rv) then (c1, r1, Err ReservationError)
            else
              match preflight c1 r1 rq with
              | Err e => (c1, r1, Err e)
              | Ok (ds1, l1) =>
                  if same_link r r1 (rq_connection_id rq)
                  then let (c2, res) := commit c1 ds1 l1 in (c2, r1, res)
                  else (c1, r1, Err (ClientRegistrationError
                         "Connection changed during durable capability reservation."))
              end
        end
    end.

(** Every implementation of a connection that ended. *)
Fixpoint remove_all (c : CapabilityCatalog) (l : list CapabilityImplementation)
    : result CatalogError CapabilityCatalog :=
  match l with
  | [] => Ok c
  | m :: rest => x ← remove_implementation c (ci_implementation_id m); remove_all x.1 rest
  end.

Definition unregister_connection (c : CapabilityCatalog) (conn : string) : result CatalogError (CapabilityCatalog * nat) :=
  let l := list_implementations_for_connection c conn in
  c1 ← remove_all c l; mret (c1, length l).
End Registration.
