(* ===== verification/CapabilityCatalogProperties.v ===== *)
(** * Properties of the catalog and of routing (file CapabilityCatalog)

    A consistent catalog ([catalog_ok]) stays consistent and only grows ([extends_catalog]);
    routing picks the least element, in the order of preference, of the implementations that
    may serve a request. *)

From S2P Require Import Prelude Canonical Invocation CapabilityCatalog.

(** ** The catalog *)

(** Definitions and implementations are stored under their ids, an implementation has the
    version of its definition and a valid binding, and the index is exact. *)
Record catalog_ok (c : CapabilityCatalog) : Prop := {
  ok_definition cap d : cc_definitions c !! cap = Some d -> capability_id d = cap;
  ok_keyed id m : cc_implementations c !! id = Some m -> ci_implementation_id m = id;
  ok_defined id m : cc_implementations c !! id = Some m ->
    exists d, cc_definitions c !! ci_capability_id m = Some d /\ ci_version m = cd_version d;
  ok_bound id m : cc_implementations c !! id = Some m -> validate_binding m = Ok tt;
  ok_index cap id : id ∈ ids_of c cap <-> exists m, cc_implementations c !! id = Some m /\ ci_capability_id m = cap
}.

(** The same implementation in a later state; removal is final. *)
Definition later (m m' : CapabilityImplementation) : Prop :=
  m' = with_impl_state m (ci_state m') /\ (ci_state m = IMPL_REMOVED -> m' = m).

#[export] Instance later_preorder : PreOrder later.
Proof.
  split.
  - intros []. by split.
  - intros a b d [E1 F1] [E2 F2]. split.
    + destruct a, b, d. simpl in *. congruence.
    + intros H. pose proof (F1 H) as ->. by apply F2.
Qed.

Record extends_catalog (c c' : CapabilityCatalog) : Prop := {
  ex_definitions cap d : cc_definitions c !! cap = Some d -> cc_definitions c' !! cap = Some d;
  ex_implementations id m : cc_implementations c !! id = Some m ->
    exists m', cc_implementations c' !! id = Some m' /\ later m m'
}.

#[export] Instance extends_preorder : PreOrder extends_catalog.
Proof.
  split.
  - intros c. split; [done|]. intros id m E. exists m. by split.
  - intros a b c [D1 I1] [D2 I2]. split; [by eauto|]. intros id m E.
    destruct (I1 _ _ E) as (m1 & E1 & L1). destruct (I2 _ _ E1) as (m2 & E2 & L2). exists m2. split; [done|by etrans].
Qed.

Lemma ids_insert c d i cap' s cap :
  ids_of {| cc_definitions := d; cc_implementations := i; cc_by_capability := <[cap' := s]> (cc_by_capability c) |} cap =
  if bool_decide (cap = cap') then s else ids_of c cap.
Proof.
  unfold ids_of. simpl. destruct (decide (cap = cap')) as [->|Hne].
  - by rw lookup_insert_eq bool_decide_true.
  - by rw lookup_insert_ne // bool_decide_false.
Qed.

Section Laws.
Context (schema_ok : json -> bool).

Lemma register_definition_ok c d c' x : catalog_ok c -> register_definition schema_ok c d false = Ok (c', x) ->
  catalog_ok c' /\ extends_catalog c c' /\ cc_implementations c' = cc_implementations c /\
  is_Some (cc_definitions c' !! capability_id d) /\
  (cc_definitions c !! capability_id d = None -> cc_definitions c' !! capability_id d = Some d).
Proof.
  intros K H. unfold register_definition in H. apply guard_bind_ok in H as [_ H].
  destruct (cc_definitions c !! capability_id d) as [old|] eqn:E.
  { destruct (same_definition old d); [|done]. injection H as <- <-. split_and!; try done. }
  injection H as <- <-. simpl. assert (X : extends_catalog c {| cc_definitions := <[capability_id d := d]> (cc_definitions c);
    cc_implementations := cc_implementations c; cc_by_capability := <[capability_id d := ids_of c (capability_id d)]> (cc_by_capability c) |}).
  { split; simpl; [|intros id m Em; exists m; by split].
    intros cap d' Ed. rw lookup_insert_ne; [|done]. intros <-. by rw E in Ed. }
  split_and!; [|done|done|by rw lookup_insert_eq|by rw lookup_insert_eq]. destruct K as [K1 K2 K3 K4 K5]. split; simpl; try done.
  - intros cap d'. rw lookup_insert_Some. intros [[<- <-]|[_ Ed]]; [done|by apply K1].
  - intros id m Em. destruct (K3 _ _ Em) as (d' & Ed & Hv). exists d'. split; [|done]. by apply (ex_definitions _ _ X).
  - intros cap id. rw ids_insert. destruct (bool_decide (cap = capability_id d)) eqn:B; breflect; [subst cap|]; apply K5.
Qed.

Lemma register_definition_other c d c' x cap : register_definition schema_ok c d false = Ok (c', x) ->
  cap <> capability_id d -> cc_definitions c' !! cap = cc_definitions c !! cap.
Proof.
  intros H Hne. unfold register_definition in H. apply guard_bind_ok in H as [_ H].
  destruct (cc_definitions c !! capability_id d) as [old|].
  - destruct (same_definition old d); [|done]. by injection H as <- <-.
  - injection H as <- <-. simpl. by rw lookup_insert_ne.
Qed.

Lemma register_implementation_ok c m c' x : catalog_ok c -> register_implementation c m false = Ok (c', x) ->
  catalog_ok c' /\ extends_catalog c c' /\ cc_implementations c !! ci_implementation_id m = None /\
  cc_definitions c' = cc_definitions c /\
  cc_implementations c' = <[ci_implementation_id m := m]> (cc_implementations c).
Proof.
  intros K H. unfold register_implementation in H.
  destruct (cc_definitions c !! ci_capability_id m) as [d|] eqn:Ed; [|done].
  apply guard_bind_ok in H as [Hv H]. apply bind_ok in H as ([] & Hb & H). apply guard_bind_ok in H as [Hn H].
  breflect. destruct Hn as [Hn|?]; [|done]. breflect. apply eq_None_not_Some in Hn. injection H as <- _.
  split_and!; [|split; simpl|done|done|done].
  - destruct K as [K1 K2 K3 K4 K5]. split; simpl; try done.
    + intros id y. rw lookup_insert_Some. intros [[<- <-]|[_ E]]; [done|by apply K2].
    + intros id y. rw lookup_insert_Some. intros [[<- <-]|[_ E]]; [by eauto|by eapply K3].
    + intros id y. rw lookup_insert_Some. intros [[<- <-]|[_ E]]; [done|by eapply K4].
    + intros cap id. rw ids_insert. destruct (bool_decide (cap = ci_capability_id m)) eqn:B; breflect.
      * subst cap. rw elem_of_union elem_of_singleton K5. split.
        -- intros [(y & E & Hy)| ->]; [|exists m; by rw lookup_insert_eq]. exists y. rw lookup_insert_ne; [|done].
           intros <-. by rw Hn in E.
        -- intros (y & E & Hy). apply lookup_insert_Some in E as [[<- _]|[_ E]]; [by right|]. left. by exists y.
      * rw K5. split; intros (y & E & Hy); exists y; (split; [|done]).
        -- rw lookup_insert_ne; [|done]. intros <-. by rw Hn in E.
        -- apply lookup_insert_Some in E as [[_ <-]|[_ E]]; [|done]. by destruct B.
  - done.
  - intros id y E. exists y. split; [|done]. rw lookup_insert_ne; [|done]. intros <-. by rw Hn in E.
Qed.

Lemma with_state_fields m st : let m' := with_impl_state m st in
  ci_implementation_id m' = ci_implementation_id m /\ ci_capability_id m' = ci_capability_id m /\
  ci_version m' = ci_version m /\ validate_binding m' = validate_binding m /\ ci_state m' = st /\
  ci_connection_id m' = ci_connection_id m.
Proof. by destruct m. Qed.

Lemma impl_transition_ok c id st c' x : catalog_ok c -> transition_implementation c id st = Ok (c', x) ->
  catalog_ok c' /\ extends_catalog c c' /\ cc_definitions c' = cc_definitions c /\
  cc_implementations c' !! id = Some x /\ ci_state x = st /\
  forall id', id' <> id -> cc_implementations c' !! id' = cc_implementations c !! id'.
Proof.
  intros K H. unfold transition_implementation, get_implementation in H.
  destruct (cc_implementations c !! id) as [m|] eqn:E; [|done]. simpl in H.
  destruct (bool_decide (ci_state m = st)) eqn:B; breflect.
  { injection H as <- <-. by split_and!. }
  apply guard_bind_ok in H as [Ha H]. injection H as <- <-.
  destruct (with_state_fields m st) as (F1 & F2 & F3 & F4 & F5 & _). simpl. split_and!; try done.
  - destruct K as [K1 K2 K3 K4 K5]. split; simpl; try done.
    + intros id' y. rw lookup_insert_Some. intros [[<- <-]|[_ Ey]]; [rw F1; by apply K2|by apply K2].
    + intros id' y. rw lookup_insert_Some. intros [[<- <-]|[_ Ey]]; [rw F2 F3; by eapply K3|by eapply K3].
    + intros id' y. rw lookup_insert_Some. intros [[<- <-]|[_ Ey]]; [rw F4; by eapply K4|by eapply K4].
    + intros cap id'. unfold ids_of. simpl. fold (ids_of c cap). rw K5.
      destruct (decide (id' = id)) as [->|Hne]; [rw lookup_insert_eq E|by rw lookup_insert_ne].
      split; intros (y & Ey & Hy); injection Ey as <-; eexists; (split; [done|]); congruence.
  - split; simpl; [done|]. intros id' y Ey. destruct (decide (id' = id)) as [->|Hne].
    + rw E in Ey. injection Ey as <-. exists (with_impl_state m st). rw lookup_insert_eq. split; [done|].
      split; [by rw F5|]. intros Hr. rw Hr in Ha. by destruct st.
    + rw lookup_insert_ne; [done|]. by exists y.
  - by rw lookup_insert_eq.
  - intros id' Hne. by rw lookup_insert_ne.
Qed.

(** One call that does not ask for an update. *)
Inductive catalog_step : CapabilityCatalog -> CapabilityCatalog -> Prop :=
  | StepDefinition c d c' x : register_definition schema_ok c d false = Ok (c', x) -> catalog_step c c'
  | StepImplementation c m c' x : register_implementation c m false = Ok (c', x) -> catalog_step c c'
  | StepTransition c id st c' x : transition_implementation c id st = Ok (c', x) -> catalog_step c c'.

Lemma step_ok c c' : catalog_step c c' -> catalog_ok c -> catalog_ok c' /\ extends_catalog c c'.
Proof.
  destruct 1 as [c d c' x H|c m c' x H|c id st c' x H]; intros K.
  - by destruct (register_definition_ok _ _ _ _ K H) as (? & ? & _).
  - by destruct (register_implementation_ok _ _ _ _ K H) as (? & ? & _).
  - by destruct (impl_transition_ok _ _ _ _ _ K H) as (? & ? & _).
Qed.

(** [catalog_sound]: whatever is registered and however states change (without asking for an
    update), the catalog stays consistent: its index is exact, every implementation has a
    definition of its version and a valid binding; definitions never change, an implementation
    only changes its state, and a removed one stays removed. *)
Theorem catalog_sound c c' : rtc catalog_step c c' -> catalog_ok c -> catalog_ok c' /\ extends_catalog c c'.
Proof.
  induction 1 as [c|a b c Hs _ IH]; intros K; [done|]. destruct (step_ok _ _ Hs K) as [K' X].
  destruct (IH K'). split; [done|by etrans].
Qed.
End Laws.

(** ** Routing: the best of the implementations that may serve the request *)

(** [f] decides first, then [R]. *)
Definition lexi {A} (f : A -> bool) (R : A -> A -> Prop) (a b : A) : Prop :=
  (f a = true /\ f b = false) \/ (f a = f b /\ R a b).

Lemma filter_strongly {A} (R : A -> A -> Prop) (f : A -> bool) l :
  StronglySorted R l -> StronglySorted R (List.filter f l).
Proof.
  induction 1 as [|x l Hs IH Hx]; simpl; [constructor|]. destruct (f x); [|done]. constructor; [done|].
  rw Forall_forall in Hx. apply Forall_forall. intros y Hy. apply Hx. rw !list_elem_of_In in Hy |- *.
  by apply filter_In in Hy as [? _].
Qed.

Lemma strongly_app {A} (R : A -> A -> Prop) l1 l2 :
  StronglySorted R l1 -> StronglySorted R l2 -> (forall a b, a ∈ l1 -> b ∈ l2 -> R a b) -> StronglySorted R (l1 ++ l2).
Proof.
  intros H1 H2 H. induction H1 as [|x l Hs IH Hx]; simpl; [done|]. constructor.
  - apply IH. intros a b Ha Hb. apply H; [by right|done].
  - apply Forall_app. split; [done|]. apply Forall_forall. intros b Hb. apply H; [by left|done].
Qed.

Lemma strongly_impl {A} (R R' : A -> A -> Prop) l :
  (forall a b, a ∈ l -> b ∈ l -> R a b -> R' a b) -> StronglySorted R l -> StronglySorted R' l.
Proof.
  intros H S. induction S as [|x l Hs IH Hx]; [constructor|]. constructor.
  - apply IH. intros a b Ha Hb. apply H; by right.
  - rw Forall_forall in Hx. apply Forall_forall. intros y Hy. apply H; [by left|by right|by apply Hx].
Qed.

Lemma elem_filter {A} (f : A -> bool) l x : x ∈ List.filter f l <-> x ∈ l /\ f x = true.
Proof. by rw !list_elem_of_In filter_In. Qed.

(** Those that [f] selects, then a part of the others. *)
Lemma partition_sorted {A} (R : A -> A -> Prop) (f g : A -> bool) l :
  StronglySorted R l -> (forall x, x ∈ l -> g x = true -> f x = false) ->
  StronglySorted (lexi f R) (List.filter f l ++ List.filter g l).
Proof.
  intros S Hg. apply strongly_app.
  - eapply strongly_impl; [|by apply filter_strongly]. intros a b [_ Ha]%elem_filter [_ Hb]%elem_filter.
    right. split; [congruence|done].
  - eapply strongly_impl; [|by apply filter_strongly]. intros a b [Ia Ha]%elem_filter [Ib Hb]%elem_filter.
    right. split; [|done]. by rw (Hg a) // (Hg b).
  - intros a b [_ Ha]%elem_filter [Ib Hb]%elem_filter. left. split; [done|by apply Hg].
Qed.

(** When [f] tells nothing apart. *)
Lemma lexi_constant {A} (R : A -> A -> Prop) (f : A -> bool) v l :
  StronglySorted R l -> (forall x, x ∈ l -> f x = v) -> StronglySorted (lexi f R) l.
Proof. intros S Hf. eapply strongly_impl; [|exact S]. intros a b Ha Hb HR. right. by rw (Hf a) // (Hf b). Qed.

Lemma find_first {A} (R : A -> A -> Prop) (f : A -> bool) l :
  StronglySorted R l ->
  match List.find f l with
  | Some x => x ∈ l /\ f x = true /\ forall y, y ∈ l -> f y = true -> y = x \/ R x y
  | None => forall y, y ∈ l -> f y = false
  end.
Proof.
  induction 1 as [|x l Hs IH Hx]; simpl; [by intros y ?%elem_of_nil|]. destruct (f x) eqn:E.
  - split_and!; [by left|done|]. intros y [->|Hy]%elem_of_cons _; [by left|]. right.
    rw Forall_forall in Hx. by apply Hx.
  - destruct (List.find f l) as [z|].
    + destruct IH as (Hz & Ez & Hmin). split_and!; [by right|done|].
      intros y [->|Hy]%elem_of_cons Ey; [congruence|by apply Hmin].
    + intros y [->|Hy]%elem_of_cons; [done|by apply IH].
Qed.

(** The preferred one first, then the clients of the request's own connection, then by id. *)
Definition by_id (a b : CapabilityImplementation) : Prop :=
  String.ltb (ci_implementation_id a) (ci_implementation_id b) = true.
Definition is_preferred (preferred : option string) (m : CapabilityImplementation) : bool :=
  bool_decide (Some (ci_implementation_id m) = preferred).
Definition prefers (ctx : CapabilityRequestContext) (preferred : option string) :=
  lexi (is_preferred preferred) (lexi (same_connection_client ctx) by_id).

(** An implementation that may serve the request. *)
Record admissible (available : option (string -> bool)) (c : CapabilityCatalog) (cap : string)
    (ctx : CapabilityRequestContext) (preferred : option string) (excluded : gset string)
    (d : CapabilityDefinition) (m : CapabilityImplementation) : Prop := {
  ad_listed : cc_implementations c !! ci_implementation_id m = Some m;
  ad_capability : ci_capability_id m = cap;
  ad_routable : routable (ci_state m) = true;
  ad_excluded : ci_implementation_id m ∉ excluded;
  ad_target : implementation_supports_target m (rc_target ctx) = true;
  ad_authorized : authorize m (cd_required_scopes d) ctx available = true;
  ad_fallback : fallback_forbidden ctx = true ->
    excluded = ∅ /\ (preferred = None \/ is_preferred preferred m = true)
}.

Lemma list_implementations_sorted c cap d b : catalog_ok c -> cc_definitions c !! cap = Some d ->
  exists l, list_implementations c cap b = Ok l /\ StronglySorted by_id l /\
  forall m, m ∈ l <-> cc_implementations c !! ci_implementation_id m = Some m /\ ci_capability_id m = cap /\
                      (b = true -> routable (ci_state m) = true).
Proof.
  intros K Ed. unfold list_implementations. rw Ed.
  pose proof (sort_by_sorted (fun x => x) String.ltb (elements (ids_of c cap))) as S.
  rw map_id in S. specialize (S (NoDup_elements _)).
  assert (P : forall id, id ∈ sort_by (fun x => x) String.ltb (elements (ids_of c cap)) <-> id ∈ ids_of c cap).
  { intros id. by rw sort_by_perm elem_of_elements. }
  revert S P. generalize (sort_by (fun x => x) String.ltb (elements (ids_of c cap))). intros ids S P.
  destruct (mapM (fun id => cc_implementations c !! id) ids) as [l|] eqn:E.
  2: { exfalso. apply mapM_None_1 in E. apply Exists_exists in E as (id & Hid & En).
       apply P, (ok_index _ K) in Hid as (m & Em & _). by rw Em in En. }
  apply mapM_Some in E. assert (Q : StronglySorted by_id l /\ map ci_implementation_id l = ids).
  { clear P. induction E as [|id m ids l Em E IH]; [by split; [constructor|]|].
    apply StronglySorted_inv in S as [S Hs]. destruct (IH S) as [S' <-]. simpl. rw (ok_keyed _ K _ _ Em).
    split; [|done]. constructor; [done|]. unfold by_id. rw (ok_keyed _ K _ _ Em). by rw Forall_fmap in Hs. }
  destruct Q as [Q1 Q2]. assert (M : forall m, m ∈ l <-> cc_implementations c !! ci_implementation_id m = Some m /\ ci_capability_id m = cap).
  { intros m. split.
    - intros Hm. destruct (list_elem_of_lookup_1 _ _ Hm) as [i Hi]. destruct (Forall2_lookup_r _ _ _ _ _ E Hi) as (id & Hid & Em).
      pose proof (ok_keyed _ K _ _ Em) as <-. split; [done|]. apply list_elem_of_lookup_2, P, (ok_index _ K) in Hid as (y & Ey & Hy). congruence.
    - intros [Em Hc]. assert (I : ci_implementation_id m ∈ ids) by (apply P, (ok_index _ K); by exists m).
      destruct (list_elem_of_lookup_1 _ _ I) as [i Hi]. destruct (Forall2_lookup_l _ _ _ _ _ E Hi) as (y & Hy & Ey).
      rw Em in Ey. injection Ey as ->. by eapply list_elem_of_lookup_2. }
  eexists. split; [done|]. destruct b; (split; [by try apply filter_strongly|]); intros m.
  - rw elem_filter M. naive_solver.
  - rw M. naive_solver.
Qed.

(** A client implementation of the catalog has a connection. *)
Lemma bound_client m : validate_binding m = Ok tt -> ci_location m = LOC_CLIENT ->
  truthy (default "" (ci_owner_id m)) = true /\ truthy (default "" (ci_connection_id m)) = true.
Proof.
  unfold validate_binding. intros H Hl. rw (bool_decide_true _ Hl) in H.
  apply bind_ok in H as ([] & H & _). apply guard_bind_ok in H as [_ H]. apply guard_bind_ok in H as [Ho H].
  split; [done|]. by destruct (truthy (default "" (ci_connection_id m))).
Qed.


Section Order.
Context (ctx : CapabilityRequestContext) (l : list CapabilityImplementation).
Context (Hs : StronglySorted by_id l) (Hbound : forall m, m ∈ l -> validate_binding m = Ok tt).

Lemma by_id_unique (a b : CapabilityImplementation) :
  a ∈ l -> b ∈ l -> ci_implementation_id a = ci_implementation_id b -> a = b.
Proof using Hs.
  intros Ha Hb E. clear Hbound. induction Hs as [|x l' Hs' IH Hx]; [by apply elem_of_nil in Ha|].
  rw Forall_forall in Hx. apply elem_of_cons in Ha as [->|Ha], Hb as [->|Hb]; [done| | |by apply IH].
  - specialize (Hx _ Hb). unfold by_id in Hx. by rw E ltb_irrefl in Hx.
  - specialize (Hx _ Ha). unfold by_id in Hx. by rw E ltb_irrefl in Hx.
Qed.

Lemma no_connection_no_client m : m ∈ l -> rc_connection_id ctx = None -> same_connection_client ctx m = false.
Proof using Hbound.
  intros Hm E. unfold same_connection_client. destruct (bool_decide (ci_location m = LOC_CLIENT)) eqn:B; [|done]. breflect.
  destruct (bound_client _ (Hbound _ Hm) B) as [_ T]. rw E. destruct (ci_connection_id m); [done|by simpl in T].
Qed.

(** Kept: without a target, a request over a connection does not see other clients. *)
Definition visible (m : CapabilityImplementation) : Prop :=
  rc_target ctx = None -> is_Some (rc_connection_id ctx) ->
  same_connection_client ctx m = true \/ ci_location m <> LOC_CLIENT.

Lemma order_by_connection_spec :
  StronglySorted (lexi (same_connection_client ctx) by_id) (order_by_connection ctx l) /\
  forall m, m ∈ order_by_connection ctx l <-> m ∈ l /\ visible m.
Proof using Hs Hbound.
  unfold order_by_connection, visible. destruct (rc_connection_id ctx) as [conn|] eqn:Ec.
  2: { assert (R : forall A (x : A), match rc_target ctx with Some _ | _ => x end = x) by (by destruct (rc_target ctx)).
       split; [rw R; eapply lexi_constant; [done|]; intros; by apply no_connection_no_client|].
       intros m. rw R. split; [|by intros [? _]]. intros Hm. split; [done|]. by intros _ [? ?]. }
  destruct (rc_target ctx) as [t|].
  - set (same := List.filter (same_connection_client ctx) l).
    assert (X : forall m, m ∈ l ->
      negb (bool_decide (ci_implementation_id m ∈ map ci_implementation_id same)) = negb (same_connection_client ctx m)).
    { intros m Hm. f_equal. apply bool_eq_iff. rw bool_decide_eq_true. split.
      - intros (y & E & Hy)%list_elem_of_fmap. apply elem_filter in Hy as [Iy Sy]. by rw (by_id_unique m y Hm Iy E).
      - intros Sm. apply list_elem_of_fmap. exists m. split; [done|]. by apply elem_filter. }
    split.
    + apply partition_sorted; [done|]. intros m Hm E. rw X // in E. by apply negb_true_iff in E.
    + intros m. rw elem_of_app !elem_filter. split; [naive_solver|]. intros [Hm _]. rw X //. destruct (same_connection_client ctx m); auto.
  - split.
    + apply partition_sorted; [done|]. intros m Hm E. breflect. unfold same_connection_client. by rw bool_decide_false.
    + intros m. rw elem_of_app !elem_filter. split.
      * intros [[Hm E]|[Hm E]]; (split; [done|]); intros _ _; [by left|right]. by breflect.
      * intros [Hm V]. destruct (V eq_refl) as [E|E]; [by eexists|by left|right]. by rw bool_decide_false.
Qed.
End Order.

Lemma order_by_preference_spec ctx preferred R l :
  StronglySorted R l ->
  StronglySorted (lexi (is_preferred preferred) R) (order_by_preference ctx preferred l) /\
  forall m, m ∈ order_by_preference ctx preferred l <->
            m ∈ l /\ (fallback_forbidden ctx = true -> preferred = None \/ is_preferred preferred m = true).
Proof.
  intros S. unfold order_by_preference. destruct preferred as [p|].
  2: { split; [by apply (lexi_constant _ _ false)|]. intros m. naive_solver. }
  assert (F : forall m, bool_decide (ci_implementation_id m = p) = is_preferred (Some p) m).
  { intros m. unfold is_preferred. apply bool_decide_ext. naive_solver. }
  rw (filter_ext _ _ F). rw (filter_ext (fun m => negb (bool_decide (ci_implementation_id m = p))) (fun m => negb (is_preferred (Some p) m))).
  { intros m. by rw F. }
  destruct (fallback_forbidden ctx).
  - split.
    + eapply lexi_constant; [by apply filter_strongly|]. intros m [_ E]%elem_filter. exact E.
    + intros m. rw elem_filter. naive_solver.
  - split; [apply partition_sorted; [done|]; intros m _ E; by apply negb_true_iff in E|].
    intros m. rw elem_of_app !elem_filter. destruct (is_preferred (Some p) m); naive_solver.
Qed.

Lemma authorized_visible m scopes ctx available : authorize m scopes ctx available = true -> visible ctx m.
Proof.
  unfold authorize, visible, same_connection_client. intros [A _]%andb_true_iff Et _.
  rw Et in A. destruct (bool_decide (ci_location m = LOC_CLIENT)) eqn:B; breflect; [left|by right].
  by rw bool_decide_true.
Qed.

(** The selected implementation is the least admissible one. *)
Lemma select_least available c cap ctx preferred excluded d :
  catalog_ok c -> cc_definitions c !! cap = Some d ->
  match select available c cap ctx preferred excluded with
  | Ok m => admissible available c cap ctx preferred excluded d m /\
            forall y, admissible available c cap ctx preferred excluded d y -> y = m \/ prefers ctx preferred m y
  | Err e => e = RoutePermissionError /\ forall m, ~ admissible available c cap ctx preferred excluded d m
  end.
Proof.
  intros K Ed. unfold select, get_definition. rw Ed. destruct (list_implementations_sorted c cap d true K Ed) as (l & -> & S & M).
  unfold candidates. set (l1 := List.filter _ l). set (l2 := List.filter (fun m => implementation_supports_target _ _) l1).
  set (l3 := if fallback_forbidden ctx && _ then [] else l2).
  assert (S3 : StronglySorted by_id l3).
  { subst l3. destruct (_ && _); [constructor|]. by do 2 apply filter_strongly. }
  assert (M3 : forall m, m ∈ l3 <-> m ∈ l /\ (ci_implementation_id m ∉ excluded) /\
     implementation_supports_target m (rc_target ctx) = true /\ (fallback_forbidden ctx = true -> excluded = ∅)).
  { intros m. subst l3. destruct (fallback_forbidden ctx && negb (bool_decide (excluded = ∅))) eqn:B.
    - breflect. rw elem_of_nil. naive_solver.
    - unfold l2, l1. rw !elem_filter. apply andb_false_iff in B. split.
      + intros [[Hm E1] E2]. breflect. split_and!; try done. intros Hf. destruct B as [B|B]; [congruence|]. by breflect.
      + intros (Hm & E1 & E2 & E3). rw bool_decide_false //. }
  assert (B3 : forall m, m ∈ l3 -> validate_binding m = Ok tt).
  { intros m (Hm & _)%M3. apply M in Hm as (E & _). by eapply ok_bound. }
  destruct (order_by_connection_spec ctx l3 S3 B3) as [S4 M4].
  destruct (order_by_preference_spec ctx preferred _ _ S4) as [S5 M5].
  assert (A : forall m, admissible available c cap ctx preferred excluded d m <->
    m ∈ order_by_preference ctx preferred (order_by_connection ctx l3) /\ authorize m (cd_required_scopes d) ctx available = true).
  { intros m. rw M5 M4 M3 M. split.
    - intros [? ? ? ? ? ? F]. split_and!; try done; [by intros Hf; apply F|by eapply authorized_visible|by intros Hf; apply F].
    - intros (((((? & ? & R) & ? & ? & F1) & _) & F2) & ?). split; try done; [by apply R|by auto]. }
  pose proof (find_first _ (fun m => authorize m (cd_required_scopes d) ctx available) _ S5) as F.
  destruct (List.find _ _) as [m|].
  - destruct F as (Hm & Ha & Hmin). split; [by apply A|]. intros y [Hy Hay]%A. by apply Hmin.
  - split; [done|]. intros m [Hm Hf]%A. by rw F in Hf.
Qed.

(** C32 route_exact: routing answers with the best implementation that may serve the request:
    the preferred one if it may, else a client of the request's own connection, else the one
    with the smallest id; it refuses only when no implementation may serve it. *)
Theorem route_exact available c cap ctx preferred excluded d :
  catalog_ok c -> cc_definitions c !! cap = Some d ->
  match select available c cap ctx preferred excluded with
  | Ok m => admissible available c cap ctx preferred excluded d m /\
            forall y, admissible available c cap ctx preferred excluded d y -> y = m \/ prefers ctx preferred m y
  | Err e => e = RoutePermissionError /\ forall m, ~ admissible available c cap ctx preferred excluded d m
  end.
Proof. by apply select_least. Qed.

(** ** Witnesses *)

Lemma empty_catalog_ok : catalog_ok empty_catalog.
Proof.
  split; unfold empty_catalog; simpl; try (intros ? ?; by rw lookup_empty).
  intros cap id. unfold ids_of. simpl. rw lookup_empty /= elem_of_empty. split; [done|]. intros (m & E & _). by rw lookup_empty in E.
Qed.

Definition any_schema : json -> bool := fun _ => true.

Definition search_definition : CapabilityDefinition :=
  {| cd_id := Some "search"; cd_version := "1"; cd_name := "search"; cd_description := ""; cd_input_schema := JObj [];
     cd_output_schema := JObj []; cd_source := "LOCAL"; cd_execution_kind := "PYTHON"; cd_kind := TOOL;
     cd_execution_mode := ONE_SHOT; cd_idempotency := IDEMPOTENT; cd_effects := {[READ]}; cd_require_auth := false;
     cd_required_scopes := ["files"%string]; cd_metadata := [] |}%string.

Definition search_on (id conn : string) : CapabilityImplementation :=
  {| ci_implementation_id := id; ci_capability_id := "search"; ci_version := "1"; ci_location := LOC_CLIENT;
     ci_driver_kind := "REMOTE_CLIENT"; ci_owner_id := Some "U1"; ci_connection_id := Some conn; ci_owner_type := OWN_CLIENT;
     ci_state := IMPL_ENABLED; ci_metadata := [("client_id"%string, JStr "C1")] |}%string.

Definition catalog_of (steps : list CapabilityImplementation) : CapabilityCatalog :=
  fold_left (fun c m => match register_implementation c m false with Ok (c', _) => c' | Err _ => c end) steps
    (match register_definition any_schema empty_catalog search_definition false with Ok (c', _) => c' | Err _ => empty_catalog end).

Lemma catalog_of_steps steps : rtc (catalog_step any_schema) empty_catalog (catalog_of steps).
Proof.
  unfold catalog_of. set (c0 := match register_definition _ _ _ _ with Ok _ => _ | _ => _ end).
  assert (R0 : rtc (catalog_step any_schema) empty_catalog c0).
  { apply rtc_once. eapply StepDefinition. reflexivity. }
  revert R0. generalize c0. clear c0. induction steps as [|m steps IH]; simpl; intros c R; [done|]. apply IH.
  destruct (register_implementation c m false) as [[c' x]|] eqn:E; [|done].
  eapply rtc_r; [exact R|]. by eapply StepImplementation.
Qed.

Definition two_clients : CapabilityCatalog := catalog_of [search_on "i1" "K1"; search_on "i2" "K2"].

Lemma two_clients_ok : catalog_ok two_clients.
Proof.
  pose proof (catalog_of_steps [search_on "i1" "K1"; search_on "i2" "K2"]) as H. fold two_clients in H.
  pose proof empty_catalog_ok as K0. revert H K0. generalize two_clients empty_catalog. intros c' c H.
  induction H as [|a b c Hs _ IH]; intros K; [done|]. apply IH. by apply (step_ok _ _ _ Hs).
Qed.

Definition request_on (conn : string) : CapabilityRequestContext :=
  {| rc_owner_id := Some "U1"; rc_connection_id := Some conn; rc_scopes := {["files"%string]}; rc_target := None |}%string.

Lemma catalog_sound_witness :
  catalog_ok two_clients /\ extends_catalog empty_catalog two_clients /\
  size (cc_implementations two_clients) = 2%nat.
Proof.
  pose proof (catalog_sound any_schema empty_catalog two_clients (catalog_of_steps _) empty_catalog_ok) as [K X].
  split; [exact K|]. split; [exact X|]. vm_compute. reflexivity.
Defined.

Lemma route_exact_witness :
  exists m, select (Some (fun _ => true)) two_clients "search" (request_on "K2") None ∅ = Ok m /\
            ci_implementation_id m = "i2" /\
            admissible (Some (fun _ => true)) two_clients "search" (request_on "K2") None ∅ search_definition m.
Proof.
  assert (E : select (Some (fun _ => true)) two_clients "search" (request_on "K2") None ∅ = Ok (search_on "i2" "K2")) by (vm_compute; reflexivity).
  assert (Ed : cc_definitions two_clients !! "search"%string = Some search_definition) by (vm_compute; reflexivity).
  pose proof (route_exact (Some (fun _ => true)) two_clients "search" (request_on "K2") None ∅ search_definition two_clients_ok Ed) as H.
  rw E in H. exists (search_on "i2" "K2"). split; [exact E|]. split; [reflexivity|]. exact (proj1 H).
Defined.

(** Moving an implementation to another capability with [allow_update] leaves its id in the
    index of the old one, so that the old capability routes to it. *)
Definition fetch_definition : CapabilityDefinition :=
  {| cd_id := Some "fetch"; cd_version := "1"; cd_name := "fetch"; cd_description := ""; cd_input_schema := JObj [];
     cd_output_schema := JObj []; cd_source := "LOCAL"; cd_execution_kind := "PYTHON"; cd_kind := TOOL;
     cd_execution_mode := ONE_SHOT; cd_idempotency := IDEMPOTENT; cd_effects := {[READ]}; cd_require_auth := false;
     cd_required_scopes := []; cd_metadata := [] |}%string.

Definition moved_search : CapabilityImplementation :=
  {| ci_implementation_id := "i2"; ci_capability_id := "fetch"; ci_version := "1"; ci_location := LOC_CLIENT;
     ci_driver_kind := "REMOTE_CLIENT"; ci_owner_id := Some "U1"; ci_connection_id := Some "K2"; ci_owner_type := OWN_CLIENT;
     ci_state := IMPL_ENABLED; ci_metadata := [] |}%string.

Example update_leaves_stale_index :
  exists c c', register_definition any_schema two_clients fetch_definition false = Ok (c, fetch_definition) /\
    register_implementation c moved_search true = Ok (c', moved_search) /\
    select (Some (fun _ => true)) c' "search" (request_on "K2") None ∅ = Ok moved_search /\
    ci_capability_id moved_search = "fetch".
Proof. by do 2 eexists. Qed.
