(* ===== verification/CapabilityRegistrationProperties.v ===== *)
(** * Properties of client registration (file CapabilityRegistration)

    A batch is registered as a whole or not at all, over a connection that is active and owned
    by the client; what it registered can be routed to, until the connection ends. *)

From S2P Require Import Prelude Canonical PythonValues Invocation CapabilityCatalog CapabilityCatalogProperties.
From S2P Require Import ConnectionRegistry CapabilityRegistration.

(** ** Building the batch *)

Lemma mapR_ok {E A B} (f : A -> result E B) l l' : mapR f l = Ok l' -> Forall2 (fun x y => f x = Ok y) l l'.
Proof.
  revert l'. induction l as [|x l IH]; simpl; intros l' H; [by injection H as <-|].
  apply bind_ok in H as (y & E1 & H). apply bind_ok in H as (ys & E2 & H). injection H as <-. constructor; [done|by apply IH].
Qed.

(** The implementation a registration asks for: bound to the owner and the connection. *)
Record built (rq : ClientCapabilityRegistration) (rn : CapabilityRegistration) (m : CapabilityImplementation) : Prop := {
  bu_id : ci_implementation_id m = rn_implementation_id rn;
  bu_capability : ci_capability_id m = capability_id (rn_definition rn);
  bu_version : ci_version m = cd_version (rn_definition rn);
  bu_location : ci_location m = LOC_CLIENT;
  bu_owner : ci_owner_id m = Some (rq_owner_id rq);
  bu_connection : ci_connection_id m = Some (rq_connection_id rq);
  bu_owner_type : ci_owner_type m = OWN_CLIENT
}.

Lemma build_ok rq rn m : build_implementation rq rn = Ok m -> built rq rn m /\ ci_state m = IMPL_REGISTERED.
Proof.
  unfold build_implementation. intros H. apply guard_bind_ok in H as [Hl H]. apply bind_ok in H as ([] & _ & H).
  do 5 apply guard_bind_ok in H as [_ H]. injection H as <-. breflect. done.
Qed.

Lemma same_built rq rn m old : built rq rn m -> same_implementation old m = true -> built rq rn old.
Proof. intros [] H. unfold same_implementation in H. breflect. split; congruence. Qed.

Lemma Forall2_in_left {A B} (P : A -> B -> Prop) l k : Forall2 P l k -> Forall2 (fun x y => x ∈ l /\ P x y) l k.
Proof.
  induction 1 as [|x y l k H F IH]; constructor; [by split; [left|]|].
  eapply Forall2_impl; [exact IH|]. simpl. intros a b [? ?]. split; [by right|done].
Qed.

(** What a successful validation says. *)
Record validated (c : CapabilityCatalog) (r : Registry) (rq : ClientCapabilityRegistration)
    (l : list CapabilityImplementation) : Prop := {
  va_owner : truthy (strip (rq_owner_id rq)) = true;
  va_connection : exists s, check_connection r rq = Ok s;
  va_built : Forall2 (fun rn m => built rq rn m /\ ci_state m = IMPL_REGISTERED) (rq_capabilities rq) l;
  va_ids : NoDup (map ci_implementation_id l);
  va_capabilities : NoDup (map capability_id (request_definitions rq));
  va_definitions d old : d ∈ request_definitions rq -> cc_definitions c !! capability_id d = Some old ->
    cd_version old = cd_version d;
  va_implementations m old : m ∈ l -> cc_implementations c !! ci_implementation_id m = Some old ->
    ci_state old <> IMPL_REMOVED /\ same_implementation old m = true
}.

Lemma preflight_ok c r rq ds l : preflight c r rq = Ok (ds, l) -> ds = request_definitions rq /\ validated c r rq l.
Proof.
  unfold preflight. intros H. apply guard_bind_ok in H as [Ho H]. apply bind_ok in H as (s & Hs & H).
  apply bind_ok in H as (l' & Hl & H). apply bind_ok in H as ([] & Hb & H). apply bind_ok in H as ([] & Hd & H).
  apply bind_ok in H as ([] & Hi & H). injection H as <- <-. split; [done|]. breflect.
  apply guard_bind_ok in Hb as [Hn1 Hn2]. unfold validate_existing_definitions, validate_existing_implementations, guard_err in *.
  destruct (bool_decide (NoDup (map _ (rq_capabilities rq)))) eqn:Hn3; [|done].
  destruct (forallb _ (request_definitions rq)) eqn:Fd; [|done]. destruct (forallb _ l') eqn:Fi; [|done]. breflect.
  rw forallb_forall in Fd. rw forallb_forall in Fi. split; try done; [by eexists| | | |].
  - eapply Forall2_impl; [exact (mapR_ok _ _ _ Hl)|]. intros. by apply build_ok.
  - unfold request_definitions. by rw map_map.
  - intros d old Hd' E. apply list_elem_of_In in Hd'. specialize (Fd _ Hd'). rw E in Fd. unfold same_contract in Fd. by breflect.
  - intros m old Hm E. apply list_elem_of_In in Hm. specialize (Fi _ Hm). rw E in Fi. by breflect.
Qed.

(** ** The commit *)

Section Commit.
Context (schema_ok : json -> bool).

Lemma commit_definitions_ok c ds : catalog_ok c ->
  (forall d, d ∈ ds -> schema_ok (cd_input_schema d) = true) -> NoDup (map capability_id ds) ->
  (forall d old, d ∈ ds -> cc_definitions c !! capability_id d = Some old -> cd_version old = cd_version d) ->
  exists c', commit_definitions schema_ok c ds = (c', Ok tt) /\ catalog_ok c' /\ extends_catalog c c' /\
    cc_implementations c' = cc_implementations c /\
    forall d, d ∈ ds -> exists d', cc_definitions c' !! capability_id d = Some d' /\ cd_version d' = cd_version d.
Proof.
  revert c. induction ds as [|d ds IH]; simpl; intros c K Hsch Hnd Hv.
  { exists c. split_and!; try done. by intros d ?%elem_of_nil. }
  apply NoDup_cons in Hnd as [Hn Hnd].
  assert (Hsch' : forall d', d' ∈ ds -> schema_ok (cd_input_schema d') = true) by (intros; apply Hsch; by right).
  unfold contains_definition. destruct (cc_definitions c !! capability_id d) as [old|] eqn:E.
  - rw bool_decide_true; [done|]. destruct (IH c K Hsch' Hnd) as (c' & Hc & K' & X & I & D); [intros; eapply Hv; [by right|done]|].
    exists c'. split_and!; try done. intros y [->|Hy]%elem_of_cons; [|by apply D]. exists old.
    split; [by apply (ex_definitions _ _ X)|]. apply (Hv d); [by left|done].
  - rw bool_decide_false; [by intros []|].
    destruct (register_definition schema_ok c d false) as [[c1 x]|e] eqn:R.
    2: { exfalso. unfold register_definition in R. rw (Hsch d) in R; [by left|]. by rw /= E in R. }
    destruct (register_definition_ok _ _ _ _ _ K R) as (K1 & X1 & I1 & _ & D1). specialize (D1 E).
    assert (Hv1 : forall d' old, d' ∈ ds -> cc_definitions c1 !! capability_id d' = Some old -> cd_version old = cd_version d').
    { intros d' old Hd' E'. apply (Hv d'); [by right|]. rw (register_definition_other _ _ _ _ _ _ R) in E'; [|done].
      intros Heq. apply Hn. rw -Heq. by apply list_elem_of_fmap_2. }
    destruct (IH c1 K1 Hsch' Hnd Hv1) as (c' & Hc & K' & X & I & D).
    exists c'. split_and!; try done; [by etrans|congruence|]. intros y [->|Hy]%elem_of_cons; [|by apply D].
    exists d. split; [|done]. by apply (ex_definitions _ _ X).
Qed.

(** [m] is bound in the catalog: as it was, or newly enabled. *)
Definition bound_in (c0 c : CapabilityCatalog) (id : string) (x : CapabilityImplementation) : Prop :=
  cc_implementations c !! id = Some x /\
  match cc_implementations c0 !! id with Some old => x = old | None => ci_state x = IMPL_ENABLED end.

Lemma commit_implementation_ok c m d : catalog_ok c -> validate_binding m = Ok tt ->
  cc_definitions c !! ci_capability_id m = Some d -> cd_version d = ci_version m ->
  (cc_implementations c !! ci_implementation_id m = None -> ci_state m = IMPL_REGISTERED) ->
  exists c' x, commit_implementation c m = (c', Ok x) /\ catalog_ok c' /\ extends_catalog c c' /\
    cc_definitions c' = cc_definitions c /\ bound_in c c' (ci_implementation_id m) x /\
    (cc_implementations c !! ci_implementation_id m = None -> x = with_impl_state m IMPL_ENABLED) /\
    forall id, id <> ci_implementation_id m -> cc_implementations c' !! id = cc_implementations c !! id.
Proof.
  intros K Hb Ed Hv Hst. unfold commit_implementation, contains_implementation, bound_in, get_implementation.
  destruct (cc_implementations c !! ci_implementation_id m) as [old|] eqn:E.
  { rw bool_decide_true; [done|]. exists c, old. by split_and!. }
  rw bool_decide_false; [by intros []|]. specialize (Hst eq_refl).
  destruct (register_implementation c m false) as [[c1 x]|e] eqn:R.
  2: { exfalso. unfold register_implementation in R. rw Ed in R. rw (bool_decide_true (ci_version m = cd_version d)) in R; [done|].
       rw /= Hb /= E in R. done. }
  destruct (register_implementation_ok _ _ _ _ K R) as (K1 & X1 & _ & D1 & I1).
  destruct (transition_implementation c1 (ci_implementation_id m) IMPL_ENABLED) as [[c2 y]|e] eqn:T;
    pose proof T as T'; unfold transition_implementation, get_implementation in T'; rw I1 lookup_insert_eq /= Hst /= in T'; [|done].
  injection T' as <- <-. destruct (impl_transition_ok _ _ _ _ _ K1 T) as (K2 & X2 & D2 & I2 & S2 & F2). eexists _, _.
  split_and!; try done; [by etrans|]. intros id Hne. by rw (F2 _ Hne) I1 lookup_insert_ne.
Qed.

Lemma commit_implementations_ok c l : catalog_ok c -> NoDup (map ci_implementation_id l) ->
  (forall m, m ∈ l -> validate_binding m = Ok tt /\ ci_state m = IMPL_REGISTERED /\
     exists d, cc_definitions c !! ci_capability_id m = Some d /\ cd_version d = ci_version m) ->
  exists c' xs, commit_implementations c l = (c', Ok xs) /\ catalog_ok c' /\ extends_catalog c c' /\
    Forall2 (fun m x => bound_in c c' (ci_implementation_id m) x /\
               (cc_implementations c !! ci_implementation_id m = None -> x = with_impl_state m IMPL_ENABLED)) l xs /\
    forall id, id ∉ map ci_implementation_id l -> cc_implementations c' !! id = cc_implementations c !! id.
Proof.
  revert c. induction l as [|m l IH]; simpl; intros c K Hnd Hm.
  { exists c, []. by split_and!. }
  apply NoDup_cons in Hnd as [Hn Hnd]. destruct (Hm m) as (Hb & Hst & d & Ed & Hv); [by left|].
  destruct (commit_implementation_ok c m d K Hb Ed Hv) as (c1 & x & -> & K1 & X1 & D1 & B1 & N1 & F1); [done|].
  destruct (IH c1 K1 Hnd) as (c' & xs & -> & K' & X' & B' & F').
  { intros y Hy. rw D1. apply Hm. by right. }
  assert (O : forall y, y ∈ l -> ci_implementation_id y <> ci_implementation_id m).
  { intros y Hy E. apply Hn. rw -E. by apply list_elem_of_fmap_2. }
  exists c', (x :: xs). split_and!; try done; [by etrans| |].
  - constructor.
    + destruct B1 as [B1 B2]. repeat split; try done. by rw F'.
    + eapply Forall2_impl; [exact (Forall2_in_left _ _ _ B')|]. simpl. intros y z [Hy B]. unfold bound_in in *. by rw (F1 _ (O _ Hy)) in B.
  - intros id [Hne Hid]%not_elem_of_cons. by rw F' // F1.
Qed.

(** The whole batch of a request is in the catalog, and nothing else changed. *)
Record registered (c0 c : CapabilityCatalog) (rq : ClientCapabilityRegistration)
    (xs : list CapabilityImplementation) : Prop := {
  re_ok : catalog_ok c;
  re_extends : extends_catalog c0 c;
  re_batch : Forall2 (fun rn x => built rq rn x /\ bound_in c0 c (rn_implementation_id rn) x) (rq_capabilities rq) xs;
  re_others id : id ∉ map rn_implementation_id (rq_capabilities rq) ->
    cc_implementations c !! id = cc_implementations c0 !! id
}.

Lemma built_binding rq rn m : built rq rn m -> truthy (strip (rq_owner_id rq)) = true ->
  truthy (rq_connection_id rq) = true -> validate_binding m = Ok tt.
Proof.
  intros [] Ho Hc. unfold validate_binding. rw bu_location0 bu_owner0 bu_connection0 bu_owner_type0 /= Hc.
  by destruct (rq_owner_id rq).
Qed.

Lemma batch_ids rq l : Forall2 (fun rn m => built rq rn m /\ ci_state m = IMPL_REGISTERED) (rq_capabilities rq) l ->
  map ci_implementation_id l = map rn_implementation_id (rq_capabilities rq).
Proof. induction 1 as [|rn m rns l [B _] F IH]; simpl; [done|]. by rw IH (bu_id _ _ _ B). Qed.

Lemma Forall2_and {A B} (P Q : A -> B -> Prop) l k :
  Forall2 P l k -> Forall2 Q l k -> Forall2 (fun x y => P x y /\ Q x y) l k.
Proof. intros HP HQ. induction HP; inversion HQ; constructor; auto. Qed.

Lemma Forall2_trans_in {A B C} (P : A -> B -> Prop) (Q : B -> C -> Prop) (R : A -> C -> Prop) l k h :
  (forall x y z, y ∈ k -> P x y -> Q y z -> R x z) -> Forall2 P l k -> Forall2 Q k h -> Forall2 R l h.
Proof.
  intros H HP. revert h. induction HP as [|x y l k Hxy F IH]; intros h HQ; inversion HQ; subst; constructor.
  - eapply H; [by left|done|done].
  - apply IH; [|done]. intros a b d Hb. apply H. by right.
Qed.

Lemma commit_ok c r rq l : catalog_ok c -> truthy (rq_connection_id rq) = true ->
  (forall d, d ∈ request_definitions rq -> schema_ok (cd_input_schema d) = true) -> validated c r rq l ->
  exists c' xs, commit schema_ok c (request_definitions rq) l = (c', Ok xs) /\ registered c c' rq xs.
Proof.
  intros K Hc Hsch [Vo _ Vb Vi Vc Vd Ve]. unfold commit.
  destruct (commit_definitions_ok c _ K Hsch Vc Vd) as (c1 & -> & K1 & X1 & I1 & D1).
  destruct (commit_implementations_ok c1 l K1 Vi) as (c2 & xs & -> & K2 & X2 & B2 & F2).
  { intros m Hm. destruct (list_elem_of_lookup_1 _ _ Hm) as [i Hi].
    destruct (Forall2_lookup_r _ _ _ _ _ Vb Hi) as (rn & Hrn & B & St). split_and!; [by eapply built_binding|done|].
    destruct (D1 (rn_definition rn)) as (d & Ed & Hv).
    { apply list_elem_of_fmap_2. by eapply list_elem_of_lookup_2. }
    exists d. destruct B. by rw bu_capability0 bu_version0. }
  exists c2, xs. split; [done|]. split; [done|by etrans| |].
  - eapply Forall2_trans_in; [|exact Vb|exact B2]. simpl. intros rn m x Hm [B St] [Hx N]. unfold bound_in in *. rw I1 in Hx N.
    rw -(bu_id _ _ _ B). split; [|done]. destruct Hx as [_ Hx].
    destruct (cc_implementations c !! ci_implementation_id m) as [old|] eqn:E.
    + subst x. eapply same_built; [exact B|]. by apply (Ve m old Hm E).
    + rw N; [done|]. destruct m, B. by split.
  - intros id Hid. rw F2; [by rw (batch_ids _ _ Vb)|]. by rw I1.
Qed.

(** The registration came over a live connection of its owner: the connection is known and
    ACTIVE, belongs to the owner, and, when it names a client, names this one. *)
Record over_own_connection (r : Registry) (rq : ClientCapabilityRegistration) (s : ConnectionSnapshot) : Prop := {
  oc_known : connection r (rq_connection_id rq) = Some s;
  oc_active : cs_state s = ACTIVE;
  oc_owner : cs_user_id s = rq_owner_id rq;
  oc_client : meta_text (cs_metadata s) "client_id" <> ""%string ->
    meta_text (cs_metadata s) "client_id" = rq_client_id rq
}.

Lemma check_connection_ok r rq s : check_connection r rq = Ok s -> over_own_connection r rq s.
Proof.
  unfold check_connection. destruct (connection r (rq_connection_id rq)) as [s'|] eqn:E; [|done]. intros H.
  apply guard_bind_ok in H as [H1 H]. apply guard_bind_ok in H as [H2 H]. apply guard_bind_ok in H as [H3 H].
  injection H as <-. breflect. split; try done. intros Hn.
  destruct H3 as [H3|H3]; breflect; [|done]. by destruct (meta_text _ _).
Qed.

(** C33 registration_atomic: a client's batch (with valid schemas) is registered as a whole, every
    new implementation enabled and bound to its owner and connection, or it leaves the catalog
    as it was.  It is registered only when the connection is known and ACTIVE, its user is the
    owner, and the client it was opened for is the one of the batch; a connection whose
    metadata name no client is accepted for any client of its owner. *)
Theorem registration_atomic c r rq :
  catalog_ok c -> truthy (rq_connection_id rq) = true ->
  (forall d, d ∈ request_definitions rq -> schema_ok (cd_input_schema d) = true) ->
  match register schema_ok c r rq with
  | (c', Ok xs) => registered c c' rq xs /\ exists s, over_own_connection r rq s
  | (c', Err _) => c' = c
  end.
Proof.
  intros K Hc Hs. unfold register. destruct (preflight c r rq) as [[ds l]|e] eqn:P; [|done].
  apply preflight_ok in P as [-> V]. destruct (commit_ok c r rq l K Hc Hs V) as (c' & xs & -> & R).
  split; [done|]. destruct (va_connection _ _ _ _ V) as [s H]. exists s. by apply check_connection_ok.
Qed.

(** [durable_registration_fenced]: a durable registration only succeeds when the authenticated
    user owns the request, the authority granted the names, and the connection after the wait
    is the one the request came over and still active; otherwise the catalog is the one the
    others left. *)
Theorem durable_registration_fenced configured authority user c r rq c' r' res :
  let c0 := match authority, rq_capabilities rq with Some rv, _ :: _ => rv_catalog rv c | _, _ => c end in
  catalog_ok c -> catalog_ok c0 -> truthy (rq_connection_id rq) = true ->
  (forall d, d ∈ request_definitions rq -> schema_ok (cd_input_schema d) = true) ->
  register_durable schema_ok configured authority user c r rq = (c', r', res) ->
  match res with
  | Ok xs => registered c0 c' rq xs /\ strip (default "" user) = rq_owner_id rq /\
             (exists s, over_own_connection r' rq s) /\ (configured = true -> is_Some authority) /\
             (forall rv, authority = Some rv -> rq_capabilities rq <> [] ->
                rv_granted rv = true /\ same_link r r' (rq_connection_id rq) = true)
  | Err _ => c' = c \/ c' = c0
  end.
Proof.
  intros c0 K K0 Hc Hs H. unfold register_durable in H.
  destruct (truthy (strip (default "" user)) && _) eqn:Ho; simpl in H; [|injection H as <- <- <-; by left].
  breflect. destruct (preflight c r rq) as [[ds l]|e] eqn:P; [|injection H as <- <- <-; by left].
  apply preflight_ok in P as [-> V].
  assert (exists s, over_own_connection r rq s) as Vc
    by (destruct (va_connection _ _ _ _ V) as [s Hk]; exists s; by apply check_connection_ok).
  unfold c0, request_definitions in *.
  destruct authority as [rv|].
  2: { destruct configured; [injection H as <- <- <-; by left|].
       destruct (commit_ok c r rq l K Hc Hs V) as (c1 & xs & E & R). unfold request_definitions in E. rw E in H.
       injection H as <- <- <-. by split_and!. }
  destruct (rq_capabilities rq) as [|rn rns] eqn:Er; simpl in H.
  { destruct (commit_ok c r rq l K Hc) as (c1 & xs & E & R); [intros d; rw /request_definitions Er; by apply Hs|done|].
    rw /request_definitions Er /= in E. rw E in H. injection H as <- <- <-. by split_and!. }
  destruct (rv_granted rv) eqn:G; simpl in H; [|injection H as <- <- <-; by right].
  destruct (preflight (rv_catalog rv c) (rv_connections rv r) rq) as [[ds1 l1]|e] eqn:P1; [|injection H as <- <- <-; by right].
  apply preflight_ok in P1 as [-> V1].
  assert (exists s, over_own_connection (rv_connections rv r) rq s) as Vc1
    by (destruct (va_connection _ _ _ _ V1) as [s Hk]; exists s; by apply check_connection_ok).
  destruct (same_link _ _ _) eqn:L; [|injection H as <- <- <-; by right].
  destruct (commit_ok _ (rv_connections rv r) rq l1 K0 Hc) as (c1 & xs & E & R); [intros d; rw /request_definitions Er; by apply Hs|done|].
  rw E in H. injection H as <- <- <-. split_and!; try done. intros rv' Erv _. by injection Erv as <-.
Qed.
End Commit.

(** ** The end of a connection *)

Lemma removal_ok c id m : catalog_ok c -> cc_implementations c !! id = Some m ->
  exists c' x, remove_implementation c id = Ok (c', x) /\ catalog_ok c' /\ extends_catalog c c' /\
    (exists m', cc_implementations c' !! id = Some m' /\ ci_state m' = IMPL_REMOVED) /\
    forall id', id' <> id -> cc_implementations c' !! id' = cc_implementations c !! id'.
Proof.
  intros K E. destruct (remove_implementation c id) as [[c' x]|e] eqn:R.
  - destruct (impl_transition_ok _ _ _ _ _ K R) as (? & ? & _ & ? & ? & ?). exists c', x. split_and!; try done. by eexists.
  - exfalso. unfold remove_implementation, transition_implementation, get_implementation in R. rw E /= in R.
    destruct (bool_decide (ci_state m = IMPL_REMOVED)) eqn:B; [done|]. breflect. by destruct (ci_state m).
Qed.

Lemma remove_all_ok c l : catalog_ok c ->
  (forall m, m ∈ l -> is_Some (cc_implementations c !! ci_implementation_id m)) ->
  exists c', remove_all c l = Ok c' /\ catalog_ok c' /\ extends_catalog c c' /\
    (forall m, m ∈ l -> exists m', cc_implementations c' !! ci_implementation_id m = Some m' /\ ci_state m' = IMPL_REMOVED) /\
    forall id, id ∉ map ci_implementation_id l -> cc_implementations c' !! id = cc_implementations c !! id.
Proof.
  revert c. induction l as [|m l IH]; simpl; intros c K H.
  { exists c. split_and!; try done. by intros m ?%elem_of_nil. }
  destruct (H m) as [y Ey]; [by left|]. destruct (removal_ok c _ y K Ey) as (c1 & x & -> & K1 & X1 & (m1 & E1 & S1) & F1). simpl.
  destruct (IH c1 K1) as (c' & -> & K' & X' & R' & F').
  { intros z Hz. destruct (H z) as [w Ew]; [by right|]. destruct (ex_implementations _ _ X1 _ _ Ew) as (w' & -> & _). by eexists. }
  exists c'. split_and!; try done; [by etrans| |].
  - intros z [->|Hz]%elem_of_cons; [|by apply R']. destruct (ex_implementations _ _ X' _ _ E1) as (m' & E' & _ & L).
    exists m'. split; [done|]. by rw L.
  - intros id [Hne Hid]%not_elem_of_cons. by rw F' // F1.
Qed.

(** [disconnect_unroutes]: ending a connection removes every implementation bound to it for
    good, touches no other one, and none of the connection's can be routed to any more. *)
Theorem disconnect_unroutes c conn :
  catalog_ok c ->
  exists c' n, unregister_connection c conn = Ok (c', n) /\ catalog_ok c' /\ extends_catalog c c' /\
    (forall id m, cc_implementations c' !! id = Some m -> ci_connection_id m = Some conn -> ci_state m = IMPL_REMOVED) /\
    (forall id m, cc_implementations c !! id = Some m -> ci_connection_id m <> Some conn -> cc_implementations c' !! id = Some m) /\
    forall available cap ctx preferred excluded m,
      select available c' cap ctx preferred excluded = Ok m -> ci_connection_id m <> Some conn.
Proof.
  intros K. unfold unregister_connection. set (l := list_implementations_for_connection c conn).
  assert (M : forall m, m ∈ l <-> cc_implementations c !! ci_implementation_id m = Some m /\ ci_connection_id m = Some conn).
  { intros m. subst l. unfold list_implementations_for_connection. rw sort_by_perm elem_filter bool_decide_eq_true.
    rw list_elem_of_fmap. split.
    - intros [((id & y) & -> & E%elem_of_map_to_list) ?]. simpl in *. by rw (ok_keyed _ K _ _ E).
    - intros [E ?]. split; [|done]. exists (ci_implementation_id m, m). split; [done|]. by apply elem_of_map_to_list. }
  destruct (remove_all_ok c l K) as (c' & -> & K' & X' & R & F).
  { intros m [E _]%M. by eexists. }
  assert (G : forall id m, cc_implementations c' !! id = Some m -> ci_connection_id m = Some conn -> ci_state m = IMPL_REMOVED).
  { intros id m E Hm. destruct (decide (id ∈ map ci_implementation_id l)) as [Hin|Hout].
    - apply list_elem_of_fmap in Hin as (y & -> & Hy). destruct (R y Hy) as (m' & E' & S'). congruence.
    - rw F // in E. exfalso. apply Hout. rw -(ok_keyed _ K _ _ E). apply list_elem_of_fmap_2, M. by rw (ok_keyed _ K _ _ E). }
  exists c', (length l). split_and!; try done.
  - intros id m E Hm. rw F; [|done]. intros (y & -> & Hy)%list_elem_of_fmap. apply M in Hy as [Ey Hc]. congruence.
  - intros available cap ctx preferred excluded m S Hm. unfold select, get_definition in S.
    destruct (cc_definitions c' !! cap) as [d|] eqn:Ed; [|done].
    pose proof (select_least available c' cap ctx preferred excluded d K' Ed) as L. unfold select, get_definition in L. rw Ed S in L.
    destruct L as [[E _ Rt _ _ _ _] _]. by rw (G _ _ E Hm) in Rt.
Qed.

(** [registered_capability_routed]: what a client just registered can be used: a request of
    its owner over the same connection, with the required scopes, is routed to it. *)
Theorem registered_capability_routed schema_ok c r rq c' xs rn ctx available d :
  catalog_ok c -> truthy (rq_connection_id rq) = true ->
  (forall d, d ∈ request_definitions rq -> schema_ok (cd_input_schema d) = true) ->
  register schema_ok c r rq = (c', Ok xs) -> rn ∈ rq_capabilities rq ->
  cc_implementations c !! rn_implementation_id rn = None ->
  cc_definitions c' !! capability_id (rn_definition rn) = Some d ->
  rc_owner_id ctx = Some (rq_owner_id rq) -> rc_connection_id ctx = Some (rq_connection_id rq) -> rc_target ctx = None ->
  (forall s, s ∈ cd_required_scopes d -> s ∈ rc_scopes ctx) -> available (rq_connection_id rq) = true ->
  exists m, select (Some available) c' (capability_id (rn_definition rn)) ctx (Some (rn_implementation_id rn)) ∅ = Ok m /\
            built rq rn m /\ ci_state m = IMPL_ENABLED.
Proof.
  intros K Hc Hs H Hrn Hnew Ed Ho Hcn Ht Hsc Hav. unfold register in H.
  destruct (preflight c r rq) as [[ds l]|e] eqn:P; [|done]. apply preflight_ok in P as [-> V].
  destruct (commit_ok schema_ok c r rq l K Hc Hs V) as (c1 & xs1 & E & R). rw E in H. injection H as -> ->.
  destruct (list_elem_of_lookup_1 _ _ Hrn) as [i Hi].
  destruct (Forall2_lookup_l _ _ _ _ _ (re_batch _ _ _ _ R) Hi) as (m & Hm & B & Em & St). rw Hnew in St.
  assert (A : admissible (Some available) c' (capability_id (rn_definition rn)) ctx (Some (rn_implementation_id rn)) ∅ d m).
  { destruct B as [B1 B2 B3 B4 B5 B6 B7]. split; [by rw B1|done|by rw St|by apply not_elem_of_empty|by rw Ht| |].
    - unfold authorize. rw B4 B5 B6 Ho Hcn Ht /= Hc Hav !bool_decide_true // !andb_true_r. pose proof (va_owner _ _ _ _ V) as T.
      destruct (rq_owner_id rq); [done|]. simpl. apply forallb_forall. intros sc Hin. apply bool_decide_true, Hsc. by apply list_elem_of_In.
    - intros _. split; [done|]. right. unfold is_preferred. by rw B1 bool_decide_true. }
  pose proof (select_least (Some available) c' _ ctx (Some (rn_implementation_id rn)) ∅ d (re_ok _ _ _ _ R) Ed) as L.
  destruct (select _ _ _ _ _ _) as [y|e]; [|by destruct (proj2 L m)]. destruct L as [Ay L].
  assert (P : is_preferred (Some (rn_implementation_id rn)) m = true) by (by rw /is_preferred (bu_id _ _ _ B) bool_decide_true).
  exists m. split; [|done]. destruct (L m A) as [->|[[_ F]|[F _]]]; [done|congruence|]. rw P /is_preferred in F. breflect.
  injection F as F. pose proof (ad_listed _ _ _ _ _ _ _ _ Ay) as Ey. rw F Em in Ey. by injection Ey as ->.
Qed.

(** ** Witnesses *)

Definition active_connection (id user : string) : Registry :=
  {| rg_lifecycle := {| lc_stale_after := 60; lc_connections := {[ id :=
       {| cs_connection_id := id; cs_session_id := "S1"; cs_user_id := user; cs_state := ACTIVE; cs_connected_at := 1;
          cs_last_heartbeat_at := 1; cs_stale_after := 60; cs_metadata := [("client_id"%string, JStr "C1")] |} ]} |};
     rg_sockets := {[ id := "socket"%string ]}; rg_session_to_connection := ∅; rg_connection_to_session := ∅ |}%string.

Definition advertise (d : CapabilityDefinition) (id : string) : CapabilityRegistration :=
  {| rn_definition := d; rn_location := LOC_CLIENT; rn_driver_kind := "REMOTE_CLIENT"; rn_owner_type := OWN_CLIENT;
     rn_owner_id := None; rn_connection_id := None; rn_implementation_id := id; rn_metadata := [] |}%string.

Definition client_batch (l : list CapabilityRegistration) : ClientCapabilityRegistration :=
  {| rq_connection_id := "K3"; rq_client_id := "C1"; rq_owner_id := "U1"; rq_capabilities := l |}%string.

Definition one_search := client_batch [advertise search_definition "i3"].

Lemma any_schema_batch rq d : d ∈ request_definitions rq -> any_schema (cd_input_schema d) = true.
Proof. done. Qed.

Lemma registration_atomic_witness :
  exists c' xs, register any_schema two_clients (active_connection "K3" "U1") one_search = (c', Ok xs) /\
                registered two_clients c' one_search xs /\ length xs = 1%nat.
Proof.
  pose proof (registration_atomic any_schema two_clients (active_connection "K3" "U1") one_search two_clients_ok eq_refl (any_schema_batch _)) as H.
  destruct (register any_schema two_clients (active_connection "K3" "U1") one_search) as [c' [xs|e]] eqn:E.
  - exists c', xs. split; [reflexivity|]. split; [exact (proj1 H)|]. vm_compute in E. injection E as <- <-. reflexivity.
  - vm_compute in E. discriminate E.
Defined.

(** Granted, while another client's implementation is removed. *)
Definition namespace_granted : Reservation :=
  {| rv_granted := true;
     rv_catalog := fun c => match remove_implementation c "i1" with Ok (c', _) => c' | Err _ => c end;
     rv_connections := fun r => r |}.

Lemma granted_ok : catalog_ok (rv_catalog namespace_granted two_clients).
Proof.
  simpl. destruct (remove_implementation two_clients "i1") as [[c' x]|e] eqn:E; [|apply two_clients_ok].
  by destruct (impl_transition_ok _ _ _ _ _ two_clients_ok E) as (? & _).
Qed.

Lemma durable_registration_fenced_witness :
  exists c' xs, register_durable any_schema true (Some namespace_granted) (Some "U1"%string) two_clients (active_connection "K3" "U1") one_search
                = (c', active_connection "K3" "U1", Ok xs) /\
                registered (rv_catalog namespace_granted two_clients) c' one_search xs.
Proof.
  destruct (register_durable any_schema true (Some namespace_granted) (Some "U1"%string) two_clients (active_connection "K3" "U1") one_search)
    as [[c' r'] res] eqn:E.
  pose proof (durable_registration_fenced any_schema true (Some namespace_granted) (Some "U1"%string) two_clients (active_connection "K3" "U1")
    one_search c' r' res two_clients_ok granted_ok eq_refl (any_schema_batch _) E) as H.
  destruct res as [xs|e]; [|vm_compute in E; discriminate E].
  exists c', xs. split; [|exact (proj1 H)]. f_equal. f_equal. unfold register_durable in E. vm_compute in E. injection E as <- <- <-. reflexivity.
Defined.

Lemma disconnect_unroutes_witness :
  exists c' n, unregister_connection two_clients "K2" = Ok (c', n) /\ n = 1%nat /\
    forall available cap ctx preferred excluded m,
      select available c' cap ctx preferred excluded = Ok m -> ci_connection_id m <> Some "K2"%string.
Proof.
  destruct (disconnect_unroutes two_clients "K2" two_clients_ok) as (c' & n & E & _ & _ & _ & _ & S).
  exists c', n. split; [exact E|]. split; [|exact S]. vm_compute in E. injection E as _ <-. reflexivity.
Defined.

Lemma registered_capability_routed_witness :
  exists c' m, select (Some (fun _ => true)) c' "search" (request_on "K3") (Some "i3"%string) ∅ = Ok m /\
               ci_implementation_id m = "i3".
Proof.
  destruct (register any_schema two_clients (active_connection "K3" "U1") one_search) as [c' [xs|e]] eqn:E.
  2: { vm_compute in E. discriminate E. }
  assert (Ed : cc_definitions c' !! "search"%string = Some search_definition).
  { vm_compute in E. injection E as <- _. vm_compute. reflexivity. }
  destruct (registered_capability_routed any_schema two_clients (active_connection "K3" "U1") one_search c' xs
    (advertise search_definition "i3") (request_on "K3") (fun _ => true) search_definition two_clients_ok eq_refl (any_schema_batch _) E)
    as (m & Hs & B & _); [left|vm_compute; reflexivity|exact Ed|reflexivity|reflexivity|reflexivity|set_solver|reflexivity|].
  exists c', m. split; [exact Hs|exact (bu_id _ _ _ B)].
Defined.

(** The validation does not look at the input schemas: when the second definition of a batch
    has an invalid one, the first stays registered although the call failed. *)
Definition named_types (j : json) : bool :=
  match j with JObj f => match dict_get "type"%string f with Some (JStr _) | None => true | _ => false end | _ => false end.

Definition broken_definition : CapabilityDefinition :=
  {| cd_id := Some "broken"; cd_version := "1"; cd_name := "broken"; cd_description := ""; cd_input_schema := JObj [("type"%string, JInt 5)];
     cd_output_schema := JObj []; cd_source := "LOCAL"; cd_execution_kind := "PYTHON"; cd_kind := TOOL;
     cd_execution_mode := ONE_SHOT; cd_idempotency := IDEMPOTENT; cd_effects := {[READ]}; cd_require_auth := false;
     cd_required_scopes := []; cd_metadata := [] |}%string.

Example invalid_schema_half_registered :
  exists c', register named_types empty_catalog (active_connection "K3" "U1")
               (client_batch [advertise search_definition "i3"; advertise broken_definition "i4"]) =
             (c', Err (RegistrationCatalog InvalidCapabilitySchemaError)) /\
             cc_definitions c' !! "search"%string = Some search_definition /\ cc_implementations c' = ∅.
Proof. eexists. split; [reflexivity|]. by split. Qed.
