(* ===== verification/InvocationStores.v ===== *)
(** * The two stores of capability invocations

    [MemoryStore] is InMemoryCapabilityInvocationStore of
    src/se/src/runtimes/capability/invocation.py; [SqlStore] is SqlCapabilityInvocationStore
    of src/se/src/infrastructure/storage/repositories/capability_invocations.py over the
    tables of models/sql/capability/invocation.py.  Each operation is one transaction; a
    dict keeps its insertion order.  Both stores discharge [InvocationStoreLaws], so the
    theorems of the file InvocationProperties hold for both. *)

From S2P Require Import Prelude Canonical Invocation.

(** The attempts of one invocation, in the order of their numbers. *)
Definition of_invocation (id : string) (a : CapabilityInvocationAttempt) : bool :=
  bool_decide (ia_invocation_id a = id).

(** Stable: attempts with equal numbers keep their order. *)
Definition by_number (l : list CapabilityInvocationAttempt) : list CapabilityInvocationAttempt :=
  sort_by ia_number Z.leb l.

(** ** InMemoryCapabilityInvocationStore *)

Module Memory.

Record MemoryStore := {
  items : list (string * CapabilityInvocation);
  attempts : list (string * CapabilityInvocationAttempt)
}.

Definition empty : MemoryStore := {| items := []; attempts := [] |}.

Implicit Types (s : MemoryStore) (i : CapabilityInvocation) (a : CapabilityInvocationAttempt).

Definition put s i : MemoryStore :=
  {| items := dict_set (iv_id i) i (items s); attempts := attempts s |}.

Definition put_attempt s a : MemoryStore :=
  {| items := items s; attempts := dict_set (ia_id a) a (attempts s) |}.

Definition get s (id : string) : option CapabilityInvocation := dict_get id (items s).

Definition stored_attempt s (id : string) : option CapabilityInvocationAttempt :=
  dict_get id (attempts s).

(** Duplicate ids raise. *)
Definition create s i : option MemoryStore :=
  match get s (iv_id i) with Some _ => None | None => Some (put s i) end.

Definition compare_and_set s i (expected_revision : Z) : MemoryStore * bool :=
  match get s (iv_id i) with
  | Some current => if iv_revision current =? expected_revision then (put s i, true) else (s, false)
  | None => (s, false)
  end.

Definition save_attempt s a : option MemoryStore :=
  match stored_attempt s (ia_id a) with Some _ => None | None => Some (put_attempt s a) end.

Definition existing_attempts s (id : string) : list CapabilityInvocationAttempt :=
  List.filter (of_invocation id) (map snd (attempts s)).

Definition is_some {A} (o : option A) : bool := match o with Some _ => true | None => false end.

Definition begin_initial_attempt s i (expected_revision : Z) a : MemoryStore * bool :=
  match get s (iv_id i) with
  | None => (s, false)
  | Some current =>
      if negb (iv_revision current =? expected_revision)
         || negb (bool_decide (iv_state current = CREATED))
         || negb (iv_attempt current =? 0)
         || negb (bool_decide (iv_state i = DISPATCHING))
         || negb (iv_attempt i =? 1)
         || negb (bool_decide (ia_invocation_id a = iv_id i))
         || negb (ia_number a =? 1)
         || negb (bool_decide (ia_state a = DISPATCHING))
         || is_some (stored_attempt s (ia_id a))
         || existsb (of_invocation (iv_id i)) (map snd (attempts s))
      then (s, false)
      else (put_attempt (put s i) a, true)
  end.

Definition start_initial_attempt s i (expected_revision : Z) a : MemoryStore * bool :=
  match get s (iv_id i), stored_attempt s (ia_id a) with
  | Some current, Some stored =>
      if negb (iv_revision current =? expected_revision)
         || negb (bool_decide (iv_state current = DISPATCHING))
         || negb (iv_attempt current =? 1)
         || negb (bool_decide (iv_state i = RUNNING))
         || negb (iv_attempt i =? 1)
         || negb (bool_decide (ia_invocation_id stored = iv_id i))
         || negb (ia_number stored =? 1)
         || negb (bool_decide (ia_state stored = DISPATCHING))
         || negb (bool_decide (ia_state a = RUNNING))
      then (s, false)
      else (put_attempt (put s i) a, true)
  | _, _ => (s, false)
  end.

Definition high_water (l : list CapabilityInvocationAttempt) : Z :=
  match map ia_number l with [] => 0 | n :: ns => foldl Z.max n ns end.

Definition begin_continuation_attempt s i (expected_revision : Z) a : MemoryStore * bool :=
  match get s (iv_id i) with
  | None => (s, false)
  | Some current =>
      if negb (iv_revision current =? expected_revision)
         || negb (bool_decide (iv_state current = WAITING))
      then (s, false)
      else
        let existing := existing_attempts s (iv_id i) in
        if negb (iv_attempt current =? high_water existing)
           || existsb (fun x => negb (terminal_invocation (ia_state x))) existing
           || negb (ia_number a =? iv_attempt current + 1)
           || negb (iv_attempt i =? ia_number a)
           || is_some (stored_attempt s (ia_id a))
           || existsb (fun x => of_invocation (iv_id i) x && (ia_number x =? ia_number a))
                (map snd (attempts s))
        then (s, false)
        else (put_attempt (put s i) a, true)
  end.

Definition start_continuation_attempt s i (expected_revision : Z) a : MemoryStore * bool :=
  match get s (iv_id i), stored_attempt s (ia_id a) with
  | Some current, Some stored =>
      if negb (iv_revision current =? expected_revision)
         || negb (bool_decide (iv_state current = DISPATCHING))
         || negb (bool_decide (ia_invocation_id stored = iv_id i))
         || negb (ia_number stored =? iv_attempt i)
         || negb (bool_decide (ia_state stored = DISPATCHING))
         || negb (bool_decide (iv_state i = RUNNING))
         || negb (bool_decide (ia_state a = RUNNING))
      then (s, false)
      else (put_attempt (put s i) a, true)
  | _, _ => (s, false)
  end.

(** A missing attempt raises. *)
Definition update_attempt s a : option MemoryStore :=
  match stored_attempt s (ia_id a) with Some _ => Some (put_attempt s a) | None => None end.

Definition list_attempts s (id : string) : list CapabilityInvocationAttempt :=
  by_number (existing_attempts s id).

End Memory.

#[export] Instance memory_store : InvocationStore Memory.MemoryStore := {|
  get_invocation := Memory.get;
  get_attempt := Memory.stored_attempt;
  create_invocation := Memory.create;
  compare_and_set := Memory.compare_and_set;
  begin_initial := Memory.begin_initial_attempt;
  start_initial := Memory.start_initial_attempt;
  begin_continuation := Memory.begin_continuation_attempt;
  start_continuation := Memory.start_continuation_attempt;
  save_attempt := Memory.save_attempt;
  update_attempt := Memory.update_attempt |}.

(** ** SqlCapabilityInvocationStore *)

Module Sql.

(** The identity an AgentToolCall row gives an invocation. *)
Record ToolCallBinding := {
  tb_execution_id : string;
  tb_tool_call_id : string;
  tb_capability_id : string
}.

(** The tables, keyed by their primary keys, the tool calls bound to an invocation id, and
    whether the dialect enforces foreign keys (PostgreSQL does; SQLite does not unless it is
    told to, which this program does not do). *)
Record SqlStore := {
  items : gmap string CapabilityInvocation;
  attempts : gmap string CapabilityInvocationAttempt;
  bindings : gmap string (list ToolCallBinding);
  foreign_keys : bool
}.

Definition empty (fk : bool) : SqlStore :=
  {| items := ∅; attempts := ∅; bindings := ∅; foreign_keys := fk |}.

Implicit Types (s : SqlStore) (i : CapabilityInvocation) (a : CapabilityInvocationAttempt).

Definition put s i : SqlStore :=
  {| items := <[iv_id i := i]> (items s); attempts := attempts s; bindings := bindings s;
     foreign_keys := foreign_keys s |}.

Definition put_attempt s a : SqlStore :=
  {| items := items s; attempts := <[ia_id a := a]> (attempts s); bindings := bindings s;
     foreign_keys := foreign_keys s |}.

Definition get s (id : string) : option CapabilityInvocation := items s !! id.

Definition stored_attempt s (id : string) : option CapabilityInvocationAttempt := attempts s !! id.

Definition all_attempts s : list CapabilityInvocationAttempt := map snd (map_to_list (attempts s)).

Definition list_attempts s (id : string) : list CapabilityInvocationAttempt :=
  by_number (List.filter (of_invocation id) (all_attempts s)).

Definition record_target_matches (existing : CapabilityInvocation) i : bool :=
  bool_decide (iv_target existing = iv_target i).

Definition binding_matches (b : ToolCallBinding) i : bool :=
  bool_decide (iv_execution_id i = Some (tb_execution_id b))
  && bool_decide (iv_tool_call_id i = Some (tb_tool_call_id b))
  && bool_decide (iv_capability_id i = tb_capability_id b).

Definition create s i : option SqlStore :=
  match get s (iv_id i) with
  | Some _ => None
  | None =>
      match default [] (bindings s !! iv_id i) with
      | [] => Some (put s i)
      | [b] => if binding_matches b i then Some (put s i) else None
      | _ => None
      end
  end.

Definition compare_and_set s i (expected_revision : Z) : SqlStore * bool :=
  match get s (iv_id i) with
  | Some existing =>
      if (iv_revision existing =? expected_revision) && record_target_matches existing i
      then (put s i, true) else (s, false)
  | None => (s, false)
  end.

(** The constraints of the attempts table on the row [a]: the pair of invocation and number
    is unique, and the invocation exists. *)
Definition attempt_constraints s a : bool :=
  negb (existsb (fun x => negb (bool_decide (ia_id x = ia_id a))
                          && of_invocation (ia_invocation_id a) x && (ia_number x =? ia_number a))
          (all_attempts s))
  && (negb (foreign_keys s) || bool_decide (is_Some (get s (ia_invocation_id a)))).

(** INSERT; [None]: IntegrityError. *)
Definition insert_attempt s a : option SqlStore :=
  match stored_attempt s (ia_id a) with
  | Some _ => None
  | None => if attempt_constraints s a then Some (put_attempt s a) else None
  end.

Definition save_attempt s a : option SqlStore := insert_attempt s a.

(** No row is no error. *)
Definition update_attempt s a : option SqlStore :=
  match stored_attempt s (ia_id a) with
  | Some _ => if attempt_constraints s a then Some (put_attempt s a) else None
  | None => Some s
  end.

Definition begin_initial_attempt s i (expected_revision : Z) a : SqlStore * bool :=
  if negb (bool_decide (iv_state i = DISPATCHING))
     || negb (iv_attempt i =? 1)
     || negb (bool_decide (ia_invocation_id a = iv_id i))
     || negb (ia_number a =? 1)
     || negb (bool_decide (ia_state a = DISPATCHING))
  then (s, false)
  else
    match get s (iv_id i) with
    | None => (s, false)
    | Some existing =>
        if negb (iv_revision existing =? expected_revision)
           || negb (bool_decide (iv_state existing = CREATED))
           || negb (iv_attempt existing =? 0)
           || negb (record_target_matches existing i)
           || existsb (of_invocation (iv_id i)) (all_attempts s)
        then (s, false)
        else
          match insert_attempt (put s i) a with
          | Some s' => (s', true)
          | None => (s, false)
          end
    end.

(** UPDATE of the attempt's state, if the row is the one expected. *)
Definition run_attempt s i (number : Z) a : option SqlStore :=
  match stored_attempt s (ia_id a) with
  | Some stored =>
      if bool_decide (ia_id stored = ia_id a)
         && bool_decide (ia_invocation_id stored = iv_id i) && (ia_number stored =? number)
         && bool_decide (ia_state stored = DISPATCHING)
      then Some {| items := items s;
                   attempts := <[ia_id a := set_attempt_state stored RUNNING]> (attempts s);
                   bindings := bindings s; foreign_keys := foreign_keys s |}
      else None
  | None => None
  end.

Definition start_numbered s i (expected_revision : Z) (number : Z) a : SqlStore * bool :=
  match get s (iv_id i) with
  | None => (s, false)
  | Some existing =>
      if negb (iv_revision existing =? expected_revision)
         || negb (bool_decide (iv_state existing = DISPATCHING))
         || negb (iv_attempt existing =? number)
         || negb (record_target_matches existing i)
      then (s, false)
      else
        match run_attempt (put s i) i number a with
        | Some s' => (s', true)
        | None => (s, false)
        end
  end.

Definition start_initial_attempt s i (expected_revision : Z) a : SqlStore * bool :=
  if negb (bool_decide (iv_state i = RUNNING))
     || negb (iv_attempt i =? 1)
     || negb (bool_decide (ia_state a = RUNNING))
     || negb (bool_decide (ia_invocation_id a = iv_id i))
     || negb (ia_number a =? 1)
  then (s, false)
  else start_numbered s i expected_revision 1 a.

Definition begin_continuation_attempt s i (expected_revision : Z) a : SqlStore * bool :=
  let expected_attempt := ia_number a - 1 in
  if (expected_attempt <? 0)
     || negb (iv_attempt i =? ia_number a)
     || negb (bool_decide (iv_state i = DISPATCHING))
  then (s, false)
  else
    match get s (iv_id i) with
    | None => (s, false)
    | Some existing =>
        if negb (iv_revision existing =? expected_revision)
           || negb (bool_decide (iv_state existing = WAITING))
           || negb (iv_attempt existing =? expected_attempt)
           || negb (record_target_matches existing i)
        then (s, false)
        else
          let prior := list_attempts s (iv_id i) in
          if negb (bool_decide (map ia_number prior = seqZ 1 expected_attempt))
             || existsb (fun x => negb (terminal_invocation (ia_state x))) prior
          then (s, false)
          else
            match insert_attempt (put s i) a with
            | Some s' => (s', true)
            | None => (s, false)
            end
    end.

Definition start_continuation_attempt s i (expected_revision : Z) a : SqlStore * bool :=
  if negb (bool_decide (iv_state i = RUNNING))
     || negb (bool_decide (ia_state a = RUNNING))
     || negb (bool_decide (ia_invocation_id a = iv_id i))
     || negb (ia_number a =? iv_attempt i)
  then (s, false)
  else start_numbered s i expected_revision (iv_attempt i) a.

End Sql.

#[export] Instance sql_store : InvocationStore Sql.SqlStore := {|
  get_invocation := Sql.get;
  get_attempt := Sql.stored_attempt;
  create_invocation := Sql.create;
  compare_and_set := Sql.compare_and_set;
  begin_initial := Sql.begin_initial_attempt;
  start_initial := Sql.start_initial_attempt;
  begin_continuation := Sql.begin_continuation_attempt;
  start_continuation := Sql.start_continuation_attempt;
  save_attempt := Sql.save_attempt;
  update_attempt := Sql.update_attempt |}.

(** ** The stores keep their promises *)

(** Reads of a store from which a list of attempts was taken. *)
Lemma existsb_none {A} (p : A -> bool) l x : existsb p l = false -> x ∈ l -> p x = false.
Proof.
  intros H Hx. apply not_true_is_false. intros Hp. assert (existsb p l = true); [|congruence].
  apply existsb_exists. exists x. by rw -list_elem_of_In.
Qed.

Lemma filter_elem {A} (p : A -> bool) l x : p x = true -> x ∈ l -> x ∈ List.filter p l.
Proof. rw !list_elem_of_In. intros ? ?. by apply filter_In. Qed.

Lemma elem_by_number l x : x ∈ by_number l <-> x ∈ l.
Proof. unfold by_number. by rw sort_by_perm. Qed.

Lemma of_invocation_true a : of_invocation (ia_invocation_id a) a = true.
Proof. unfold of_invocation. by rw bool_decide_true. Qed.

(** Case analysis on the guards of an operation; the refused cases return the store. *)
Ltac refuse := first [reflexivity | discriminate].
Ltac by_guards :=
  repeat (crush_step; try refuse); breflect; subst; try refuse.

Section MemoryLaws.
Import Memory.
Implicit Types (s : MemoryStore).

Lemma put_wrote s i : wrote s (put s i) i.
Proof. intros id. apply dict_get_set. Qed.

Lemma put_both s i a : wrote s (put_attempt (put s i) a) i /\ wrote_attempt s (put_attempt (put s i) a) a.
Proof. split; intros ?; apply dict_get_set. Qed.

Lemma stored_elem s x a : stored_attempt s x = Some a -> a ∈ map snd (attempts s).
Proof. apply dict_get_elem. Qed.

Lemma memory_current s i r c : get s (iv_id i) = Some c -> iv_revision c = r -> current_at s i r.
Proof. intros. by exists c. Qed.

Lemma memory_none_ended s id :
  existsb (of_invocation id) (map snd (attempts s)) = false -> all_ended s id.
Proof.
  intros H x a Hx <-. pose proof (existsb_none _ _ a H (stored_elem _ _ _ Hx)) as F.
  by rw of_invocation_true in F.
Qed.

Lemma memory_all_ended s id :
  existsb (fun x => negb (terminal_invocation (ia_state x))) (existing_attempts s id) = false ->
  all_ended s id.
Proof.
  intros H x a Hx <-. pose proof (existsb_none _ _ a H) as F. simpl in F.
  apply negb_false_iff, F, filter_elem; [apply of_invocation_true|by eapply stored_elem].
Qed.

Lemma is_some_false {A} (o : option A) : is_some o = false -> o = None.
Proof. by destruct o. Qed.
End MemoryLaws.

#[export] Instance memory_laws : InvocationStoreLaws Memory.MemoryStore.
Proof.
  split; simpl.
  - intros s i s'. unfold Memory.create. destruct (Memory.get _ _); [done|]. intros [= <-].
    split_and!; [done|apply put_wrote|done].
  - intros s i r. unfold Memory.compare_and_set. by_guards.
    split_and!; [by eapply memory_current|apply put_wrote|done].
  - intros s i r a. unfold Memory.begin_initial_attempt. by_guards.
    pose proof (put_both s i a) as [? ?]. split_and!; try done.
    + by eapply memory_current.
    + by apply is_some_false.
    + by apply memory_none_ended.
  - intros s i r a Ha. unfold Memory.begin_continuation_attempt. by_guards.
    pose proof (put_both s i a) as [? ?]. split_and!; try done.
    + by eapply memory_current.
    + by apply is_some_false.
    + by apply memory_all_ended.
  - intros s i r a. unfold Memory.start_initial_attempt. by_guards.
    pose proof (put_both s i a) as [? ?]. split_and!; [by eapply memory_current|done|].
    eexists _, a. eauto 10.
  - intros s i r a. unfold Memory.start_continuation_attempt. by_guards.
    pose proof (put_both s i a) as [? ?]. split_and!; [by eapply memory_current|done|].
    eexists _, a. eauto 10.
  - intros s a s'. unfold Memory.save_attempt. destruct (Memory.stored_attempt _ _) eqn:E; [done|].
    intros [= <-]. split_and!; [done| |done]. intros x. apply dict_get_set.
  - intros s a s'. unfold Memory.update_attempt. destruct (Memory.stored_attempt _ _) eqn:E; [|done].
    intros [= <-]. split; [done|]. left. intros x. apply dict_get_set.
Qed.

Section SqlLaws.
Import Sql.
Implicit Types (s : SqlStore).

Lemma sql_put_wrote s i : wrote s (put s i) i.
Proof.
  intros id. unfold get_invocation; simpl. unfold get; simpl. destruct (bool_decide (id = iv_id i)) eqn:E;
    breflect; [subst; apply lookup_insert_eq|by apply lookup_insert_ne].
Qed.

Lemma sql_attempt_wrote s s' a :
  attempts s' = <[ia_id a := a]> (attempts s) -> wrote_attempt s s' a.
Proof.
  intros E x. unfold get_attempt; simpl. unfold stored_attempt. rw E.
  destruct (bool_decide (x = ia_id a)) eqn:F; breflect;
    [subst; apply lookup_insert_eq|by apply lookup_insert_ne].
Qed.

Lemma sql_stored_elem s x a : stored_attempt s x = Some a -> a ∈ all_attempts s.
Proof.
  intros H. unfold all_attempts. apply list_elem_of_fmap. exists (x, a). split; [done|].
  by apply elem_of_map_to_list.
Qed.

Lemma sql_current s i r c : get s (iv_id i) = Some c -> iv_revision c = r -> current_at s i r.
Proof. intros. by exists c. Qed.

Lemma sql_none_ended s id :
  existsb (of_invocation id) (all_attempts s) = false -> all_ended s id.
Proof.
  intros H x a Hx <-. pose proof (existsb_none _ _ a H (sql_stored_elem _ _ _ Hx)) as F.
  by rw of_invocation_true in F.
Qed.

Lemma sql_all_ended s id :
  existsb (fun x => negb (terminal_invocation (ia_state x))) (list_attempts s id) = false ->
  all_ended s id.
Proof.
  intros H x a Hx <-. pose proof (existsb_none _ _ a H) as F. simpl in F.
  apply negb_false_iff, F. unfold list_attempts. rw elem_by_number.
  apply filter_elem; [apply of_invocation_true|by eapply sql_stored_elem].
Qed.

Lemma insert_attempt_ok s a s' :
  insert_attempt s a = Some s' -> stored_attempt s (ia_id a) = None /\ s' = put_attempt s a.
Proof.
  unfold insert_attempt. destruct (stored_attempt _ _); [done|].
  destruct (attempt_constraints _ _); naive_solver.
Qed.

Lemma inserted_both s i a s' :
  insert_attempt (put s i) a = Some s' ->
  wrote s s' i /\ wrote_attempt s s' a /\ stored_attempt s (ia_id a) = None.
Proof.
  intros [? ->]%insert_attempt_ok.
  split_and!; [apply (sql_put_wrote s i)|by apply sql_attempt_wrote|done].
Qed.

Lemma start_numbered_ok s i r n a s' :
  start_numbered s i r n a = (s', true) ->
  current_at s i r /\ wrote s s' i /\
  exists a0 a1, stored_attempt s (ia_id a) = Some a0 /\ ia_state a0 = DISPATCHING /\
    ia_invocation_id a0 = iv_id i /\ wrote_attempt s s' a1 /\ ia_id a1 = ia_id a /\
    ia_invocation_id a1 = iv_id i.
Proof.
  unfold start_numbered, run_attempt. intros H. repeat (crush_step_in H; try discriminate H).
  simplify_eq. breflect. subst. split_and!; [by eapply sql_current|apply (sql_put_wrote s i)|].
  match goal with Hst : stored_attempt _ _ = Some ?a0 |- _ =>
    exists a0, (set_attempt_state a0 RUNNING) end.
  split_and!; try done.
  apply sql_attempt_wrote. simpl. congruence.
Qed.

Lemma start_numbered_refused s i r n a s' : start_numbered s i r n a = (s', false) -> s' = s.
Proof.
  unfold start_numbered. intros H. repeat (crush_step_in H; try discriminate H); naive_solver.
Qed.

Lemma start_law s i r n a :
  let (s', b) := start_numbered s i r n a in
  if b then current_at s i r /\ wrote s s' i /\
            exists a0 a1, stored_attempt s (ia_id a) = Some a0 /\ ia_state a0 = DISPATCHING /\
              ia_invocation_id a0 = iv_id i /\ wrote_attempt s s' a1 /\ ia_id a1 = ia_id a /\
              (ia_invocation_id a = iv_id i -> ia_invocation_id a1 = iv_id i)
  else s' = s.
Proof.
  destruct (start_numbered s i r n a) as [s' []] eqn:E; [|by apply start_numbered_refused in E].
  apply start_numbered_ok in E as (? & ? & a0 & a1 & ?). split_and!; [done|done|].
  exists a0, a1. naive_solver.
Qed.
End SqlLaws.

#[export] Instance sql_laws : InvocationStoreLaws Sql.SqlStore.
Proof.
  split; simpl.
  - intros s i s'. unfold Sql.create. intros H. repeat (crush_step_in H; try discriminate H);
      injection H as <-; (split_and!; [done|apply sql_put_wrote|done]).
  - intros s i r. unfold Sql.compare_and_set. by_guards.
    split_and!; [by eapply sql_current|apply sql_put_wrote|done].
  - intros s i r a. unfold Sql.begin_initial_attempt. by_guards.
    rename select (Sql.insert_attempt _ _ = _) into Hi. apply inserted_both in Hi as (? & ? & ?).
    split_and!; try done; [by eapply sql_current|by apply sql_none_ended].
  - intros s i r a Ha. unfold Sql.begin_continuation_attempt. by_guards.
    rename select (Sql.insert_attempt _ _ = _) into Hi. apply inserted_both in Hi as (? & ? & ?).
    split_and!; try done; [by eapply sql_current|by apply sql_all_ended].
  - intros s i r a. unfold Sql.start_initial_attempt. crush_step; [done|]. apply start_law.
  - intros s i r a. unfold Sql.start_continuation_attempt. crush_step; [done|]. apply start_law.
  - intros s a s' [? ->]%insert_attempt_ok. split_and!; [done|by apply sql_attempt_wrote|done].
  - intros s a s'. unfold Sql.update_attempt. intros H. repeat (crush_step_in H; try discriminate H);
      injection H as <-; (split; [done|]); [left; by apply sql_attempt_wrote|by right].
Qed.
