(* ===== verification/InvocationProperties.v ===== *)
(** * Workers sharing a capability invocation

    What the lifecycle of the file Invocation guarantees to any number of interleaved
    workers over any store that keeps the promises of [InvocationStoreLaws]; the witnesses
    are runs over the two stores of the program.  The abstract object is a record with one
    sequence of versions, each made from the one before by an allowed [moves]. *)

From stdpp Require Import sorting.
From S2P Require Import Prelude Canonical Invocation InvocationStores.

(** ** The abstract object *)

(** One allowed change of a record; the fields that say where an attempt runs are the
    worker's choice. *)
Definition moves (i i' : CapabilityInvocation) : Prop :=
  exists impl driver conn attempt max_attempts,
    let j := route i impl driver conn attempt max_attempts in
    (exists ch now, transition_invocation j ch now = Some i') \/
    (exists o now, remote_outcome_transition (iv_remote_outcome i) o = true /\
                   i' = set_remote_outcome j o now).

(** The same version, up to those fields. *)
Definition agrees (i c : CapabilityInvocation) : Prop :=
  route i None None None 0 0 = route c None None None 0 0.

(** What a finished invocation reports. *)
Definition report (i : CapabilityInvocation) :=
  (iv_state i, iv_output i, iv_error i, iv_started_at i, iv_completed_at i).

(** What no operation changes. *)
Definition identity (i : CapabilityInvocation) :=
  (iv_id i, iv_capability_id i, iv_target i, (iv_execution_id i, iv_tool_call_id i, iv_details i)).

Lemma route_own i :
  route i (iv_implementation_id i) (iv_driver_kind i) (iv_connection_id i) (iv_attempt i)
    (iv_max_attempts i) = i.
Proof. by destruct i. Qed.

Lemma route_route i a b c d e a' b' c' d' e' :
  route (route i a b c d e) a' b' c' d' e' = route i a' b' c' d' e'.
Proof. done. Qed.

Lemma agrees_route i c a b d e f : agrees i c -> route i a b d e f = route c a b d e f.
Proof.
  intros H. rw -(route_route i None None None 0 0) H. done.
Qed.

Lemma transition_some i ch now i' :
  transition_invocation i ch now = Some i' ->
  invocation_transition (iv_state i) (ch_state ch) = true /\ iv_state i' = ch_state ch /\
  iv_revision i' = iv_revision i + 1 /\ identity i' = identity i.
Proof.
  unfold transition_invocation. intros H. destruct (invocation_transition _ _); [|done].
  simpl in H. repeat (crush_step_in H; try discriminate H); by injection H as <-.
Qed.

Lemma terminal_stays s s' : terminal_invocation s = true -> invocation_transition s s' = false.
Proof. by destruct s, s'. Qed.

Lemma moves_step i i' : moves i i' -> iv_revision i' = iv_revision i + 1 /\ identity i' = identity i.
Proof.
  intros (?&?&?&?&?&[(?&?&H)|(?&?&?&->)]); [|done]. by apply transition_some in H as (?&?&?&?).
Qed.

Lemma moves_id i i' : moves i i' -> iv_id i' = iv_id i.
Proof. intros [_ H]%moves_step. by injection H. Qed.

(** A finished invocation keeps its report. *)
Lemma moves_terminal i i' :
  terminal_invocation (iv_state i) = true -> moves i i' -> report i' = report i.
Proof.
  intros Ht (?&?&?&?&?&[(?&?&H)|(?&?&?&->)]); [|done].
  apply transition_some in H as (H&_). simpl in H. by rw terminal_stays in H.
Qed.

Lemma moves_agrees i c i' : agrees i c -> moves i i' -> moves c i'.
Proof.
  intros Ha (a&b&d&e&f&H). exists a, b, d, e, f. rw -(agrees_route _ _ _ _ _ _ _ Ha).
  assert (iv_remote_outcome c = iv_remote_outcome i) as ->; [|done].
  by apply (f_equal iv_remote_outcome) in Ha.
Qed.

Lemma own_moves i i' :
  (exists ch now, transition_invocation i ch now = Some i') \/
  (exists o now, remote_outcome_transition (iv_remote_outcome i) o = true /\
                 i' = set_remote_outcome i o now) -> moves i i'.
Proof.
  exists (iv_implementation_id i), (iv_driver_kind i), (iv_connection_id i), (iv_attempt i),
    (iv_max_attempts i). by rw route_own.
Qed.

Lemma transition_moves i ch now i' : transition_invocation i ch now = Some i' -> moves i i'.
Proof. intros H. apply own_moves. left. eauto. Qed.

Lemma routed_moves i a b c d e ch now i' :
  transition_invocation (route i a b c d e) ch now = Some i' -> moves i i'.
Proof. intros H. exists a, b, c, d, e. left. eauto. Qed.

Lemma outcome_moves i o now :
  iv_remote_outcome i <> Some o -> remote_outcome_allowed (iv_remote_outcome i) o = true ->
  moves i (set_remote_outcome i o now).
Proof.
  unfold remote_outcome_allowed. intros Hne Ho. rw bool_decide_false in Ho; [done|].
  apply own_moves. right. eauto.
Qed.

(** ** The effect of one step *)

Section Steps.
Context {S : Type} `{InvocationStoreLaws S}.
Implicit Types (w : World S) (s : S) (ev : LifecycleEvent).

Inductive effect w ev : World S -> Prop :=
  | EffNone w' :
      same_invocations (w_store w) (w_store w') -> w_log w' = w_log w ->
      w_handles w' = w_handles w -> effect w ev w'
  | EffLoad w' id i :
      same_invocations (w_store w) (w_store w') -> w_log w' = w_log w ->
      get_invocation (w_store w) id = Some i ->
      w_handles w' = w_handles w ++ [{| h_invocation := i; h_fresh := true |}] -> effect w ev w'
  | EffRoute w' h x a b c d e :
      same_invocations (w_store w) (w_store w') -> w_log w' = w_log w ->
      w_handles w !! h = Some x ->
      w_handles w' = <[h := {| h_invocation := route (h_invocation x) a b c d e;
                               h_fresh := h_fresh x |}]> (w_handles w) -> effect w ev w'
  | EffRefused w' h i :
      same_invocations (w_store w) (w_store w') -> w_log w' = w_log w ->
      w_handles w' = <[h := {| h_invocation := i; h_fresh := false |}]> (w_handles w) ->
      effect w ev w'
  | EffCreate w' i :
      get_invocation (w_store w) (iv_id i) = None -> wrote (w_store w) (w_store w') i ->
      w_log w' = w_log w ->
      w_handles w' = w_handles w ++ [{| h_invocation := i; h_fresh := true |}] -> effect w ev w'
  | EffMove w' h x i :
      uses ev = Some h -> w_handles w !! h = Some x -> moves (h_invocation x) i ->
      current_at (w_store w) i (iv_revision (h_invocation x)) ->
      wrote (w_store w) (w_store w') i ->
      w_log w' = w_log w ++ [(iv_id i, iv_revision (h_invocation x))] ->
      (w_handles w' = <[h := {| h_invocation := i; h_fresh := true |}]> (w_handles w) \/
       w_handles w' = w_handles w ++ [{| h_invocation := i; h_fresh := true |}]) ->
      effect w ev w'.

Lemma effect_same w ev : effect w ev w.
Proof. by apply EffNone. Qed.

Lemma write_in_place_effect w ev h x i :
  uses ev = Some h -> w_handles w !! h = Some x -> moves (h_invocation x) i ->
  effect w ev (write_in_place w h i (iv_revision (h_invocation x))).
Proof.
  intros Hu Hx Hm. unfold write_in_place.
  pose proof (cas_law (w_store w) i (iv_revision (h_invocation x))) as L.
  destruct (compare_and_set _ _ _) as [s []].
  - destruct L as (Hc & Hw & _). by eapply EffMove; eauto.
  - subst s. by eapply EffRefused.
Qed.

(** A write that returns a copy: [b] says whether the store took it. *)
Lemma write_copy_effect w ev h x i s (b : bool) a :
  uses ev = Some h -> w_handles w !! h = Some x -> moves (h_invocation x) i ->
  (if b then current_at (w_store w) i (iv_revision (h_invocation x)) /\ wrote (w_store w) s i
   else s = w_store w) ->
  effect w ev (if b then logged (new_attempt (new_handle (set_store w s) i) a)
                           (iv_id (h_invocation x)) (iv_revision (h_invocation x))
               else set_store w s).
Proof.
  intros Hu Hx Hm. destruct b; [intros [Hc Hw]|intros ->; by apply EffNone].
  rw -(moves_id _ _ Hm). eapply EffMove; eauto.
Qed.

Lemma start_with_effect w ev h x a now
    (start : S -> CapabilityInvocation -> Z -> CapabilityInvocationAttempt -> S * bool) :
  (forall s i r a, let (s', b) := start s i r a in
     if b then current_at s i r /\ wrote s s' i else s' = s) ->
  uses ev = Some h -> w_handles w !! h = Some x ->
  effect w ev (start_with start w (h_invocation x) a now).
Proof.
  intros L Hu Hx. unfold start_with. destruct (transition_invocation _ _ _) as [i|] eqn:E; [|apply effect_same].
  specialize (L (w_store w) i (iv_revision (h_invocation x)) (set_attempt_state a RUNNING)).
  destruct (start _ _ _ _) as [s b]. eapply write_copy_effect; eauto. by eapply transition_moves.
Qed.

(** The invocation's part of the promises on attempts. *)
Lemma start_initial_write s i r a :
  let (s', b) := start_initial s i r a in
  if b then current_at s i r /\ wrote s s' i else s' = s.
Proof.
  pose proof (start_initial_law s i r a). destruct (start_initial s i r a) as [? []]; naive_solver.
Qed.

Lemma start_continuation_write s i r a :
  let (s', b) := start_continuation s i r a in
  if b then current_at s i r /\ wrote s s' i else s' = s.
Proof.
  pose proof (start_continuation_law s i r a).
  destruct (start_continuation s i r a) as [? []]; naive_solver.
Qed.

Lemma begin_initial_effect w ev h x impl driver conn fresh now :
  uses ev = Some h -> w_handles w !! h = Some x ->
  effect w ev (begin_initial_attempt w (h_invocation x) impl driver conn fresh now).
Proof.
  intros Hu Hx. unfold begin_initial_attempt. destruct (_ && _); [|apply effect_same].
  destruct (transition_invocation _ _ _) as [i|] eqn:E; [|apply effect_same].
  set (a := dispatching_attempt _ _ _ _ _ _ _).
  pose proof (begin_initial_law (w_store w) i (iv_revision (h_invocation x)) a) as L.
  destruct (begin_initial (w_store w) i (iv_revision (h_invocation x)) a) as [s b].
  eapply write_copy_effect; eauto; [by eapply routed_moves|destruct b; naive_solver].
Qed.

Lemma begin_continuation_effect w ev h x impl driver conn mode fresh now :
  uses ev = Some h -> w_handles w !! h = Some x ->
  effect w ev (begin_continuation_attempt w (h_invocation x) impl driver conn mode fresh now).
Proof.
  intros Hu Hx. unfold begin_continuation_attempt. destruct (bool_decide _); [|apply effect_same].
  destruct (transition_invocation _ _ _) as [i|] eqn:E; [|apply effect_same].
  set (a := dispatching_attempt _ _ _ _ _ _ _).
  pose proof (begin_continuation_law (w_store w) i (iv_revision (h_invocation x)) a eq_refl) as L.
  destruct (begin_continuation (w_store w) i (iv_revision (h_invocation x)) a) as [s b].
  eapply write_copy_effect; eauto; [by eapply routed_moves|destruct b; naive_solver].
Qed.

Lemma start_attempt_effect w ev i impl driver conn fresh now :
  effect w ev (start_attempt w i impl driver conn fresh now).
Proof.
  unfold start_attempt. set (a := {| ia_id := fresh |}).
  destruct (save_attempt _ _) as [s|] eqn:E; [|apply effect_same].
  apply save_attempt_law in E as (? & _). by apply EffNone.
Qed.

Lemma finish_attempt_effect w ev n a state error now :
  effect w ev (finish_attempt w n a state error now).
Proof.
  unfold finish_attempt. destruct (terminal_invocation _); [|apply effect_same].
  destruct (update_attempt _ _) as [s|] eqn:E; [|by apply EffNone].
  apply update_attempt_law in E as (? & _). by apply EffNone.
Qed.

Lemma step_effect w ev : effect w ev (lifecycle_step w ev).
Proof.
  destruct ev; simpl; unfold with_handle, with_attempt;
    try (destruct (w_handles w !! h) as [x|] eqn:Hx; [|apply effect_same]);
    try (destruct (w_attempts w !! a) as [at_|] eqn:Ha; [|apply effect_same]).
  - unfold lifecycle_create. destruct (create_invocation _ _) as [s|] eqn:E; [|apply effect_same].
    apply create_law in E as (? & ? & _). by eapply EffCreate.
  - destruct (get_invocation _ _) as [i|] eqn:E; [|apply effect_same]. by eapply EffLoad.
  - by eapply EffRoute.
  - unfold lifecycle_transition. destruct (transition_invocation _ _ _) eqn:E; [|apply effect_same].
    apply write_in_place_effect; [done..|by eapply transition_moves].
  - unfold update_remote_outcome. destruct (bool_decide _) eqn:E1; [apply effect_same|].
    destruct (remote_outcome_allowed _ _) eqn:E2; [|apply effect_same]. breflect.
    eapply (write_in_place_effect w _ h x (set_remote_outcome _ _ _)); [done..|by apply outcome_moves].
  - by eapply begin_initial_effect.
  - unfold start_initial_attempt. destruct (_ && _); [|apply effect_same].
    eapply start_with_effect; [exact start_initial_write|done..].
  - by eapply begin_continuation_effect.
  - unfold start_continuation_attempt. destruct (bool_decide _); [|apply effect_same].
    eapply start_with_effect; [exact start_continuation_write|done..].
  - apply start_attempt_effect.
  - apply finish_attempt_effect.
Qed.

(** ** Acknowledged writes *)

(** The writes of one invocation that were acknowledged. *)
Definition acknowledged (id : string) (log : list (string * Z)) : list (string * Z) :=
  List.filter (fun p => bool_decide (p.1 = id)) log.

Definition log_below w : Prop :=
  NoDup (w_log w) /\
  forall id r, (id, r) ∈ w_log w ->
    exists c, get_invocation (w_store w) id = Some c /\ r < iv_revision c.

Lemma log_below_step w ev : log_below w -> log_below (lifecycle_step w ev).
Proof.
  assert (Hsame : forall w', same_invocations (w_store w) (w_store w') -> w_log w' = w_log w ->
                         log_below w -> log_below w').
  { intros w' Hs Hl [Hn Hb]. unfold log_below. rw Hl. split; [done|]. intros id r Hr. rw Hs. eauto. }
  intros HI. destruct (step_effect w ev); eauto; destruct HI as [Hn Hb].
  - rename select (wrote _ _ _) into Hw. rename select (w_log _ = _) into Hl.
    unfold log_below. rw Hl. split; [done|]. intros id r [c [Hc Hr]]%Hb.
    rw Hw bool_decide_false; [congruence|eauto].
  - rename select (wrote _ _ _) into Hw. rename select (w_log _ = _) into Hl.
    rename select (current_at _ _ _) into Hc. destruct Hc as (cur & Hc & Hr).
    pose proof (moves_step _ _ ltac:(eassumption)) as [Hrev _]. unfold log_below. rw Hl. split.
    + apply NoDup_app. split_and!; [done| |apply NoDup_singleton].
      intros [id r] Hin Heq%list_elem_of_singleton. injection Heq as -> ->.
      apply Hb in Hin as (c & Hc' & ?). simplify_eq. lia.
    + intros id r [(c & Hc' & ?)%Hb|Heq%list_elem_of_singleton]%elem_of_app; rw Hw.
      * destruct (bool_decide (id = iv_id i)) eqn:E; breflect; [|eauto]. exists i.
        subst id. simplify_eq. split; [done|lia].
      * injection Heq as -> ->. rw bool_decide_true; [done|]. exists i. split; [done|lia].
Qed.

(** The stored revision counts them, from [base]. *)
Definition counted (id : string) (base : Z) w : Prop :=
  exists c, get_invocation (w_store w) id = Some c /\
            iv_revision c = base + Z.of_nat (length (acknowledged id (w_log w))).

Lemma counted_step id base w ev : counted id base w -> counted id base (lifecycle_step w ev).
Proof.
  intros (c & Hc & Hn). unfold counted.
  destruct (step_effect w ev); rename select (w_log _ = _) into Hl; rw Hl;
    try (rename select (same_invocations _ _) into Hs; rw Hs; by eauto);
    rename select (wrote _ _ _) into Hw; rw Hw.
  - rw bool_decide_false; [congruence|eauto].
  - rename select (current_at _ _ _) into Hcur. destruct Hcur as (cur & Hcur & Hr).
    pose proof (moves_step _ _ ltac:(eassumption)) as [Hrev _].
    unfold acknowledged. rw List.filter_app length_app /=.
    destruct (bool_decide (id = iv_id i)) eqn:E; breflect.
    + subst id. rw (bool_decide_true (iv_id i = iv_id i)); [done|]. simplify_eq. exists i. simpl.
      unfold acknowledged in Hn. split; [done|lia].
    + rw bool_decide_false; [congruence|]. exists c. unfold acknowledged in Hn. simpl. split; [done|lia].
Qed.

(** ** Versions *)

Definition keyed s : Prop := forall id c, get_invocation s id = Some c -> iv_id c = id.

(** An object that no write refused is the stored version, or older. *)
Definition in_sync s (i : CapabilityInvocation) : Prop :=
  exists c, get_invocation s (iv_id i) = Some c /\
    (iv_revision i < iv_revision c \/ (iv_revision i = iv_revision c /\ agrees i c)).

Definition synced w : Prop :=
  keyed (w_store w) /\
  Forall (fun x => h_fresh x = true -> in_sync (w_store w) (h_invocation x)) (w_handles w).

Lemma keyed_wrote s s' i : keyed s -> wrote s s' i -> keyed s'.
Proof.
  intros Hk Hw id c. rw Hw. destruct (bool_decide (id = iv_id i)) eqn:E; breflect; [|by apply Hk].
  by intros [= ->].
Qed.

Lemma keyed_same s s' : keyed s -> same_invocations s s' -> keyed s'.
Proof. intros Hk Hs id c. rw Hs. apply Hk. Qed.

Lemma in_sync_same s s' i : same_invocations s s' -> in_sync s i -> in_sync s' i.
Proof. intros Hs (c & Hc & ?). exists c. by rw Hs. Qed.

Lemma in_sync_wrote s s' i : wrote s s' i -> in_sync s' i.
Proof. intros Hw. exists i. rw Hw bool_decide_true; [done|]. split; [done|]. by right. Qed.

Lemma in_sync_created s s' i j :
  get_invocation s (iv_id i) = None -> wrote s s' i -> in_sync s j -> in_sync s' j.
Proof.
  intros Hn Hw (c & Hc & Hj). exists c. rw Hw bool_decide_false; [congruence|done].
Qed.

Lemma in_sync_moved s s' i r j :
  current_at s i r -> wrote s s' i -> iv_revision i = r + 1 -> in_sync s j -> in_sync s' j.
Proof.
  intros (cur & Hcur & Hr) Hw Hrev (c & Hc & Hj). unfold in_sync. rw Hw.
  destruct (bool_decide (iv_id j = iv_id i)) eqn:E; breflect; [|eauto].
  rw E in Hc. simplify_eq. exists i. split; [done|]. left. lia.
Qed.

Lemma in_sync_route s i a b c d e : in_sync s i -> in_sync s (route i a b c d e).
Proof. intros (x & Hx & Hi). by exists x. Qed.

Lemma synced_step w ev : synced w -> synced (lifecycle_step w ev).
Proof.
  intros [Hk Hf]. unfold synced. rw Forall_forall in Hf.
  destruct (step_effect w ev) as [w' Hs _ Hh|w' id i Hs _ Hi Hh|w' h x a b c d e Hs _ Hx Hh
    |w' h i Hs _ Hh|w' i Hn Hw _ Hh|w' h x i _ Hx Hm Hc Hw _ Hh];
    (split; [eauto using keyed_same, keyed_wrote|]);
    try (assert (Hold : Forall (fun x => h_fresh x = true -> in_sync (w_store w') (h_invocation x)) (w_handles w));
         [rw Forall_forall; intros y Hy Hfr; specialize (Hf y Hy Hfr)|]);
    eauto using in_sync_same, in_sync_created.
  - by rw Hh.
  - rw Hh. apply Forall_app. split; [done|]. constructor; [|done]. intros _. simpl.
    exists i. rw (Hk _ _ Hi) Hs Hi. split; [done|]. by right.
  - rw Hh. apply Forall_insert; [done|]. simpl. intros Hfr. apply in_sync_route.
    eapply in_sync_same; [done|]. apply Hf; [by eapply list_elem_of_lookup_2|done].
  - rw Hh. by apply Forall_insert.
  - rw Hh. apply Forall_app. split; [done|]. constructor; [|done]. intros _.
    by eapply in_sync_wrote.
  - eapply in_sync_moved; [done..|by apply moves_step|done].
  - destruct Hh as [-> | ->].
    + apply Forall_insert; [done|]. intros _. by eapply in_sync_wrote.
    + apply Forall_app. split; [done|]. constructor; [|done]. intros _. by eapply in_sync_wrote.
Qed.

(** A step of a worker whose object is fresh makes at most one allowed change. *)
Lemma disciplined_step w ev id c :
  synced w -> disciplined w ev = true -> get_invocation (w_store w) id = Some c ->
  exists c', get_invocation (w_store (lifecycle_step w ev)) id = Some c' /\ (c' = c \/ moves c c').
Proof.
  intros [Hk Hf] Hd Hg. rw Forall_forall in Hf.
  destruct (step_effect w ev) as [w' Hs|w' ? ? Hs|w' ? ? ? ? ? ? ? Hs|w' ? ? Hs|w' i Hn Hw _ Hh
    |w' h x i Hu Hx Hm Hc Hw _ Hh]; try (rw Hs; by eauto); rw Hw.
  - rw bool_decide_false; [congruence|eauto].
  - destruct (bool_decide (id = iv_id i)) eqn:E; breflect; [|by eauto]. subst id.
    exists i. split; [done|]. right. unfold disciplined in Hd. rw Hu Hx in Hd.
    destruct Hc as (cur & Hcur & Hr). simplify_eq.
    destruct (Hf x ltac:(by eapply list_elem_of_lookup_2) Hd) as (c' & Hc' & Hv).
    rw -(moves_id _ _ Hm) Hg in Hc'. simplify_eq. destruct Hv as [Hlt|[_ Ha]]; [lia|].
    by eapply moves_agrees.
Qed.

Lemma synced_runs s evs : keyed s -> synced (runs lifecycle_step (new_world s) evs).
Proof.
  intros Hk. apply runs_invariant; [intros; by apply synced_step|]. split; [done|constructor].
Qed.

Lemma all_disciplined_app w evs1 evs2 :
  all_disciplined w (evs1 ++ evs2) =
  all_disciplined w evs1 && all_disciplined (runs lifecycle_step w evs1) evs2.
Proof.
  revert w. induction evs1 as [|ev evs1 IH]; intros w; simpl; [done|]. by rw IH andb_assoc.
Qed.

(** A run of fresh workers is a sequence of allowed changes. *)
Lemma disciplined_run w evs id c :
  synced w -> all_disciplined w evs = true -> get_invocation (w_store w) id = Some c ->
  exists c', get_invocation (w_store (runs lifecycle_step w evs)) id = Some c' /\ rtc moves c c'.
Proof.
  revert w c. induction evs as [|ev evs IH]; intros w c HI Hd Hg; [by exists c|].
  simpl in Hd. apply andb_true_iff in Hd as [Hd Hds].
  destruct (disciplined_step w ev id c HI Hd Hg) as (c1 & Hg1 & Hm).
  destruct (IH _ _ (synced_step _ _ HI) Hds Hg1) as (c' & Hg' & Hr).
  exists c'. split; [done|]. destruct Hm as [-> |Hm]; [done|]. by eapply rtc_l.
Qed.
End Steps.

(** ** Attempts *)

Section Attempts.
Context {S : Type} `{InvocationStoreLaws S}.
Implicit Types (w : World S) (s : S) (ev : LifecycleEvent) (a : CapabilityInvocationAttempt).

Definition open_attempt a : bool := negb (terminal_invocation (ia_state a)).

(** At most one attempt of an invocation is open. *)
Definition one_open s : Prop :=
  forall x y a b, get_attempt s x = Some a -> get_attempt s y = Some b ->
    ia_invocation_id a = ia_invocation_id b -> open_attempt a = true -> open_attempt b = true ->
    x = y.

(** A worker's attempt is stored, for the same invocation. *)
Definition tracked s a : Prop :=
  exists a0, get_attempt s (ia_id a) = Some a0 /\ ia_invocation_id a0 = ia_invocation_id a.

Definition attempts_ok w : Prop := one_open (w_store w) /\ Forall (tracked (w_store w)) (w_attempts w).

(** [start_attempt] does not go through the invocation's compare-and-set: the worker calls
    it when the attempts before have ended. *)
Definition starts_clear w ev : Prop :=
  match ev with
  | EvStartAttempt h _ _ _ _ _ =>
      forall x, w_handles w !! h = Some x -> all_ended (w_store w) (iv_id (h_invocation x))
  | _ => True
  end.

Fixpoint attempts_sequenced w (evs : list LifecycleEvent) : Prop :=
  match evs with
  | [] => True
  | ev :: evs => starts_clear w ev /\ attempts_sequenced (lifecycle_step w ev) evs
  end.

(** Writing an attempt over one of the same invocation, or a new one, keeps workers' attempts
    stored. *)
Lemma tracked_wrote s s' a b :
  wrote_attempt s s' a ->
  (forall a0, get_attempt s (ia_id a) = Some a0 -> ia_invocation_id a0 = ia_invocation_id a) ->
  tracked s b -> tracked s' b.
Proof.
  intros Hw Ha (b0 & Hb & Hi). unfold tracked. rw Hw.
  destruct (bool_decide (ia_id b = ia_id a)) eqn:E; breflect; [|eauto].
  exists a. split; [done|]. rw E in Hb. rw -Hi. symmetry. by apply Ha.
Qed.

Lemma tracked_self s s' a : wrote_attempt s s' a -> tracked s' a.
Proof. intros Hw. exists a. by rw Hw bool_decide_true. Qed.

Lemma tracked_same s s' b : same_attempts s s' -> tracked s b -> tracked s' b.
Proof. intros Hs. unfold tracked. by rw Hs. Qed.

(** A write keeps one attempt open if no other attempt of the invocation is. *)
Lemma one_open_wrote s s' a :
  wrote_attempt s s' a -> one_open s ->
  (open_attempt a = true -> forall x b, get_attempt s x = Some b ->
     ia_invocation_id b = ia_invocation_id a -> open_attempt b = true -> x = ia_id a) ->
  one_open s'.
Proof.
  intros Hw Ho Ha x y b c. rw !Hw.
  destruct (bool_decide (x = ia_id a)) eqn:E, (bool_decide (y = ia_id a)) eqn:F; breflect; subst;
    intros Hx Hy Hi Hb Hc; simplify_eq; try done; try (symmetry; eapply Ha; by eauto); eauto.
Qed.

Lemma one_open_inserted s s' a :
  wrote_attempt s s' a -> all_ended s (ia_invocation_id a) -> one_open s -> one_open s'.
Proof.
  intros Hw He Ho. eapply one_open_wrote; [done..|]. intros _ x b Hx Hi Hb.
  unfold open_attempt in Hb. by rw (He _ _ Hx Hi) in Hb.
Qed.

Lemma one_open_replaced s s' a a0 :
  wrote_attempt s s' a -> get_attempt s (ia_id a) = Some a0 -> open_attempt a0 = true ->
  ia_invocation_id a0 = ia_invocation_id a -> one_open s -> one_open s'.
Proof.
  intros Hw Ha Hop Hi Ho. eapply one_open_wrote; [done..|]. intros _ x b Hx Hb Hopb.
  eapply Ho; eauto. congruence.
Qed.

Lemma one_open_ended s s' a :
  wrote_attempt s s' a -> open_attempt a = false -> one_open s -> one_open s'.
Proof. intros Hw Ha Ho. eapply one_open_wrote; [done..|]. congruence. Qed.

Lemma attempts_ok_same w w' :
  same_attempts (w_store w) (w_store w') -> w_attempts w' = w_attempts w ->
  attempts_ok w -> attempts_ok w'.
Proof.
  intros Hs Ha [Ho Hf]. split.
  - intros x y a b. rw !Hs. apply Ho.
  - rw Ha. eapply Forall_impl; [exact Hf|]. intros a. by apply tracked_same.
Qed.

(** A new attempt was inserted. *)
Lemma attempts_ok_inserted w w' a :
  wrote_attempt (w_store w) (w_store w') a -> get_attempt (w_store w) (ia_id a) = None ->
  all_ended (w_store w) (ia_invocation_id a) -> w_attempts w' = w_attempts w ++ [a] ->
  attempts_ok w -> attempts_ok w'.
Proof.
  intros Hw Hn He Ha [Ho Hf]. split; [by eapply one_open_inserted|]. rw Ha. apply Forall_app.
  split; [|constructor; [by eapply tracked_self|done]].
  eapply Forall_impl; [exact Hf|]. intros b. apply (tracked_wrote _ _ a); [done|].
  intros a0. by rw Hn.
Qed.

(** A dispatched attempt was started. *)
Lemma attempts_ok_started w w' a a0 a1 :
  get_attempt (w_store w) (ia_id a) = Some a0 -> ia_state a0 = DISPATCHING ->
  wrote_attempt (w_store w) (w_store w') a1 -> ia_id a1 = ia_id a ->
  ia_invocation_id a1 = ia_invocation_id a0 -> ia_invocation_id a = ia_invocation_id a0 ->
  w_attempts w' = w_attempts w ++ [a] ->
  attempts_ok w -> attempts_ok w'.
Proof.
  intros Hg Hd Hw Hid Hi Hia Ha [Ho Hf]. split.
  - eapply one_open_replaced; [done|by rw Hid|by rw /open_attempt Hd|done|done].
  - rw Ha. apply Forall_app. split; [|constructor; [|done]].
    + eapply Forall_impl; [exact Hf|]. intros b. apply (tracked_wrote _ _ a1); [done|].
      intros a2. rw Hid Hg. congruence.
    + exists a1. rw Hw bool_decide_true; [done|]. split; [done|]. congruence.
Qed.

(** What the two start operations promise of the attempt. *)
Definition starts (start : S -> CapabilityInvocation -> Z -> CapabilityInvocationAttempt -> S * bool)
    : Prop :=
  forall s i r a, let (s', b) := start s i r a in
    if b then exists a0 a1, get_attempt s (ia_id a) = Some a0 /\ ia_state a0 = DISPATCHING /\
                ia_invocation_id a0 = iv_id i /\ wrote_attempt s s' a1 /\ ia_id a1 = ia_id a /\
                (ia_invocation_id a = iv_id i -> ia_invocation_id a1 = iv_id i)
    else s' = s.

Lemma start_initial_starts : starts start_initial.
Proof.
  intros s i r a. pose proof (start_initial_law s i r a).
  destruct (start_initial s i r a) as [? []]; naive_solver.
Qed.

Lemma start_continuation_starts : starts start_continuation.
Proof.
  intros s i r a. pose proof (start_continuation_law s i r a).
  destruct (start_continuation s i r a) as [? []]; naive_solver.
Qed.

Lemma start_with_attempts w i a now start :
  starts start -> tracked (w_store w) a -> attempts_ok w -> attempts_ok (start_with start w i a now).
Proof.
  intros L (a0 & Hg & Hi) HI. unfold start_with.
  destruct (transition_invocation _ _ _) as [c|]; [|done].
  specialize (L (w_store w) c (iv_revision i) (set_attempt_state a RUNNING)).
  destruct (start _ _ _ _) as [s []]; [|by subst s; eapply attempts_ok_same].
  destruct L as (a0' & a1 & Hg' & Hd & Hi' & Hw & Hid & Hinv). simpl in *. simplify_eq.
  eapply (attempts_ok_started w _ (set_attempt_state a RUNNING)); try done; simpl; try congruence.
  rw Hinv; [congruence|congruence].
Qed.

Lemma begin_initial_attempts w i impl driver conn fresh now :
  attempts_ok w -> attempts_ok (begin_initial_attempt w i impl driver conn fresh now).
Proof.
  intros HI. unfold begin_initial_attempt. destruct (_ && _); [|done].
  destruct (transition_invocation _ _ _) as [c|]; [|done]. set (a := dispatching_attempt _ _ _ _ _ _ _).
  pose proof (begin_initial_law (w_store w) c (iv_revision i) a) as L.
  destruct (begin_initial (w_store w) c (iv_revision i) a) as [s []];
    [|by subst s; eapply attempts_ok_same].
  destruct L as (_ & _ & Hw & Hn & _ & He). by eapply (attempts_ok_inserted w _ a).
Qed.

Lemma begin_continuation_attempts w i impl driver conn mode fresh now :
  attempts_ok w -> attempts_ok (begin_continuation_attempt w i impl driver conn mode fresh now).
Proof.
  intros HI. unfold begin_continuation_attempt. destruct (bool_decide _); [|done].
  destruct (transition_invocation _ _ _) as [c|]; [|done]. set (a := dispatching_attempt _ _ _ _ _ _ _).
  pose proof (begin_continuation_law (w_store w) c (iv_revision i) a eq_refl) as L.
  destruct (begin_continuation (w_store w) c (iv_revision i) a) as [s []];
    [|by subst s; eapply attempts_ok_same].
  destruct L as (_ & _ & Hw & Hn & He). by eapply (attempts_ok_inserted w _ a).
Qed.

Lemma start_attempt_attempts w i impl driver conn fresh now :
  all_ended (w_store w) (iv_id i) ->
  attempts_ok w -> attempts_ok (start_attempt w i impl driver conn fresh now).
Proof.
  intros He HI. unfold start_attempt. set (a := {| ia_id := fresh |}).
  destruct (save_attempt _ _) as [s|] eqn:E; [|done].
  apply save_attempt_law in E as (_ & Hw & Hn). by eapply (attempts_ok_inserted w _ a).
Qed.

Lemma finish_attempt_attempts w n a state error now :
  w_attempts w !! n = Some a ->
  attempts_ok w -> attempts_ok (finish_attempt w n a state error now).
Proof.
  intros Hn [Ho Hf]. unfold finish_attempt. destruct (terminal_invocation state) eqn:Ht; [|done].
  set (a' := {| ia_id := ia_id a |}).
  assert (Hta : tracked (w_store w) a') by (rw Forall_forall in Hf; apply (Hf a); by eapply list_elem_of_lookup_2).
  destruct (update_attempt _ _) as [s|] eqn:E; [|split; [done|by apply Forall_insert]].
  apply update_attempt_law in E as (_ & [Hw|Hs]).
  - split; [eapply one_open_ended; [done| |done]; by rw /open_attempt /= Ht|].
    apply Forall_insert; [|by eapply tracked_self]. eapply Forall_impl; [exact Hf|]. intros b.
    apply (tracked_wrote _ _ a'); [done|]. destruct Hta as (? & ? & ?). naive_solver.
  - split; [intros x y b c; simpl; rw !Hs; apply Ho|]. apply Forall_insert; [|by eapply tracked_same].
    eapply Forall_impl; [exact Hf|]. intros b. by apply tracked_same.
Qed.

Lemma write_in_place_attempts w h i r : attempts_ok w -> attempts_ok (write_in_place w h i r).
Proof.
  intros HI. unfold write_in_place. pose proof (cas_law (w_store w) i r) as L.
  destruct (compare_and_set _ _ _) as [s []]; [|by subst s; eapply attempts_ok_same].
  destruct L as (_ & _ & ?). by eapply attempts_ok_same.
Qed.

Lemma attempts_step w ev : starts_clear w ev -> attempts_ok w -> attempts_ok (lifecycle_step w ev).
Proof.
  intros Hc HI. destruct ev; simpl; unfold with_handle, with_attempt;
    try (destruct (w_handles w !! h) as [x|] eqn:Hx; [|done]);
    try (destruct (w_attempts w !! a) as [at_|] eqn:Ha; [|done]);
    try (assert (tracked (w_store w) at_) by
           (destruct HI as [_ Hf]; rw Forall_forall in Hf; apply Hf; by eapply list_elem_of_lookup_2)).
  - unfold lifecycle_create. destruct (create_invocation _ _) as [s|] eqn:E; [|done].
    apply create_law in E as (_ & _ & ?). by eapply attempts_ok_same.
  - destruct (get_invocation _ _); [by eapply attempts_ok_same|done].
  - by eapply attempts_ok_same.
  - unfold lifecycle_transition. destruct (transition_invocation _ _ _); [|done].
    by apply write_in_place_attempts.
  - unfold update_remote_outcome. destruct (bool_decide _); [done|].
    destruct (negb _); [done|]. by apply write_in_place_attempts.
  - by apply begin_initial_attempts.
  - unfold start_initial_attempt. destruct (_ && _); [|done].
    by apply start_with_attempts; [exact start_initial_starts| |].
  - by apply begin_continuation_attempts.
  - unfold start_continuation_attempt. destruct (bool_decide _); [|done].
    by apply start_with_attempts; [exact start_continuation_starts| |].
  - apply start_attempt_attempts; [by apply Hc|done].
  - by apply finish_attempt_attempts.
Qed.

Definition plain_start ev : bool := match ev with EvStartAttempt _ _ _ _ _ _ => true | _ => false end.

Lemma no_plain_start w evs : forallb (fun ev => negb (plain_start ev)) evs = true -> attempts_sequenced w evs.
Proof.
  revert w. induction evs as [|ev evs IH]; intros w; simpl; [done|].
  intros [He Hes]%andb_true_iff. split; [by destruct ev|by apply IH].
Qed.

Lemma attempts_runs w evs :
  attempts_sequenced w evs -> attempts_ok w -> attempts_ok (runs lifecycle_step w evs).
Proof.
  revert w. induction evs as [|ev evs IH]; intros w; [done|]. intros [Hc Hs] HI. rw runs_cons.
  apply IH; [done|]. by apply attempts_step.
Qed.
End Attempts.

(** ** Numbers of attempts *)

Section Numbers.
Import Sql.

Lemma by_number_sorted l : StronglySorted Z.le (map ia_number (by_number l)).
Proof. apply sort_leb_sorted. Qed.

Lemma seqZ_sorted m n : StronglySorted Z.le (seqZ m n).
Proof.
  destruct (Z_le_gt_dec n 0); [by rw seqZ_nil; [lia|constructor]|].
  assert (exists k, n = Z.of_nat k) as [k ->] by (exists (Z.to_nat n); lia).
  clear. revert m. induction k as [|k IH]; intros m; [constructor|].
  rw seqZ_cons; [lia|]. constructor.
  - replace (Z.pred _) with (Z.of_nat k) by lia. apply IH.
  - apply Forall_forall. intros x. rw elem_of_seqZ. lia.
Qed.

Lemma filter_perm {A} (p : A -> bool) l l' : l ≡ₚ l' -> List.filter p l ≡ₚ List.filter p l'.
Proof.
  induction 1; simpl; repeat destruct (p _); try done; try by constructor.
  by etrans.
Qed.

(** After the insertion of an attempt its number is added. *)
Lemma inserted_numbers s i a s' :
  ia_invocation_id a = iv_id i -> insert_attempt (put s i) a = Some s' ->
  list_attempts s' (iv_id i) ≡ₚ a :: list_attempts s (iv_id i).
Proof.
  intros Ha [Hn ->]%insert_attempt_ok. unfold list_attempts, by_number. rw !sort_by_perm.
  assert (Hp : all_attempts (put_attempt (put s i) a) ≡ₚ a :: all_attempts s).
  { unfold all_attempts. simpl. rw map_to_list_insert; [exact Hn|done]. }
  rw (filter_perm _ _ _ Hp). simpl. by rw -Ha of_invocation_true.
Qed.

Lemma no_attempts_listed s id :
  existsb (of_invocation id) (all_attempts s) = false -> list_attempts s id = [].
Proof.
  intros H. unfold list_attempts, by_number.
  destruct (List.filter _ (all_attempts s)) as [|x l] eqn:E; [done|].
  assert (x ∈ List.filter (of_invocation id) (all_attempts s)) as Hx by (rw E; by left).
  apply list_elem_of_In, filter_In in Hx as [Hx Ho]. apply list_elem_of_In in Hx.
  by rw (existsb_none _ _ _ H Hx) in Ho.
Qed.

Lemma numbered_unique s id n :
  map ia_number (list_attempts s id) ≡ₚ seqZ 1 n -> map ia_number (list_attempts s id) = seqZ 1 n.
Proof. apply (StronglySorted_unique Z.le); [apply by_number_sorted|apply seqZ_sorted]. Qed.
End Numbers.

(** ** The theorems *)

Section Theorems.
Context {S : Type} `{InvocationStoreLaws S}.

(** [acknowledged_writes_counted]: over any store that keeps its promises and for any
    interleaving of workers, whatever they do after a refusal, no two acknowledged writes
    of an invocation were based on the same revision, and the stored revision is the
    initial one plus the number of acknowledged writes: none is lost and none counts
    twice. *)
Theorem acknowledged_writes_counted (s : S) evs :
  let w := runs lifecycle_step (new_world s) evs in
  NoDup (w_log w) /\
  (forall id r, (id, r) ∈ w_log w ->
     exists c, get_invocation (w_store w) id = Some c /\ r < iv_revision c) /\
  (forall id c0, get_invocation s id = Some c0 ->
     exists c, get_invocation (w_store w) id = Some c /\
       iv_revision c = iv_revision c0 + Z.of_nat (length (acknowledged id (w_log w)))).
Proof.
  assert (log_below (runs lifecycle_step (new_world s) evs)) as [? ?].
  { apply runs_invariant; [intros; by apply log_below_step|]. split; [constructor|].
    intros id r Hr. by apply not_elem_of_nil in Hr. }
  split_and!; [done..|]. intros id c0 Hc0.
  apply (runs_invariant (counted id (iv_revision c0))); [intros; by apply counted_step|].
  exists c0. simpl. split; [done|lia].
Qed.

(** C20 versions_linear: if no worker goes on with an object after a write of it was refused,
    then between any two points of an interleaving the stored record of an invocation
    changes only by a sequence of allowed changes, each applied to the stored version
    before it: the workers together behave like one sequential record. *)
Theorem versions_linear (s : S) evs evs' id c :
  keyed s -> all_disciplined (new_world s) (evs ++ evs') = true ->
  get_invocation (w_store (runs lifecycle_step (new_world s) evs)) id = Some c ->
  exists c', get_invocation (w_store (runs lifecycle_step (new_world s) (evs ++ evs'))) id = Some c' /\
             rtc moves c c'.
Proof.
  intros Hk Hd Hg. rw all_disciplined_app in Hd. apply andb_true_iff in Hd as [_ Hd].
  rw runs_app. eapply disciplined_run; [|done|done]. by apply synced_runs.
Qed.

(** [terminal_report_final]: under the same discipline a finished invocation keeps its
    state, output, error and times, and its identity, whatever the other workers do
    afterwards; only the certainty about the remote outcome can still change. *)
Theorem terminal_report_final (s : S) evs evs' id c :
  keyed s -> all_disciplined (new_world s) (evs ++ evs') = true ->
  get_invocation (w_store (runs lifecycle_step (new_world s) evs)) id = Some c ->
  terminal_invocation (iv_state c) = true ->
  exists c', get_invocation (w_store (runs lifecycle_step (new_world s) (evs ++ evs'))) id = Some c' /\
             report c' = report c /\ identity c' = identity c.
Proof.
  intros Hk Hd Hg Ht. rw all_disciplined_app in Hd. apply andb_true_iff in Hd as [_ Hd].
  rw runs_app. destruct (disciplined_run _ _ id c (synced_runs _ evs Hk) Hd Hg) as (c' & Hg' & Hm).
  exists c'. split; [done|]. clear Hg Hg' Hd. induction Hm as [|c c1 c' Hm _ IH]; [done|].
  pose proof (moves_terminal _ _ Ht Hm) as Hr. pose proof (moves_step _ _ Hm) as [_ Hi].
  rw -Hr -Hi. apply IH. by injection Hr as ->.
Qed.

(** C21 one_open_attempt: if the plain [start_attempt] is only called when the attempts before
    have ended, then at most one attempt of an invocation is open at any time, however
    begin, start and finish operations of several workers interleave. *)
Theorem one_open_attempt (s : S) evs :
  one_open s -> attempts_sequenced (new_world s) evs ->
  one_open (w_store (runs lifecycle_step (new_world s) evs)).
Proof. intros Ho Hs. by apply (attempts_runs (new_world s) evs Hs). Qed.
End Theorems.

(** [sql_attempts_numbered]: an acknowledged begin operation of the SQL store leaves the
    attempts of the invocation numbered from one to the attempt counter of the record,
    without gaps or duplicates. *)
Theorem sql_attempts_numbered s i r a s' :
  Sql.begin_initial_attempt s i r a = (s', true) \/
  (ia_invocation_id a = iv_id i /\ Sql.begin_continuation_attempt s i r a = (s', true)) ->
  map ia_number (Sql.list_attempts s' (iv_id i)) = seqZ 1 (iv_attempt i).
Proof.
  intros [H|[Ha H]].
  - unfold Sql.begin_initial_attempt in H. repeat (crush_step_in H; try discriminate H).
    injection H as <-. breflect. rename select (Sql.insert_attempt _ _ = _) into Hi.
    apply inserted_numbers in Hi; [|done]. apply numbered_unique. rw Hi.
    rw no_attempts_listed; [done|]. simpl.
    do 2 match goal with E : _ = 1 |- _ => rw E; clear E end. done.
  - unfold Sql.begin_continuation_attempt in H. repeat (crush_step_in H; try discriminate H).
    injection H as <-. breflect. rename select (Sql.insert_attempt _ _ = _) into Hi.
    apply inserted_numbers in Hi; [|done]. apply numbered_unique. rw Hi. simpl.
    rename select (map ia_number _ = _) into Hp. rw Hp.
    replace (iv_attempt i) with ((ia_number a - 1) + 1) by lia.
    rw seqZ_app; [lia..|]. rw Permutation_cons_append.
    replace (1 + (ia_number a - 1)) with (ia_number a) by lia. done.
Qed.

(** ** Runs over the stores of the program *)

Definition demo_details : InvocationDetails :=
  {| d_capability_version := Some "1"; d_request_fingerprint := Some "fp";
     d_idempotency := IDEMPOTENT; d_owner_user_id := Some "user";
     d_origin_client_id := Some "client"; d_rest := JNull |}.

Definition demo_invocation : CapabilityInvocation :=
  {| iv_id := "inv"; iv_capability_id := "cap"; iv_target := None; iv_execution_id := None;
     iv_tool_call_id := None; iv_details := demo_details; iv_implementation_id := None;
     iv_driver_kind := None; iv_connection_id := None; iv_state := CREATED;
     iv_wait_reason := None; iv_remote_outcome := Some NOT_DISPATCHED; iv_attempt := 0;
     iv_max_attempts := 1; iv_output := JNull; iv_error := None; iv_started_at := None;
     iv_updated_at := 0; iv_completed_at := None; iv_revision := 0 |}.

Definition to_waiting : Changes :=
  {| ch_state := WAITING; ch_wait_reason := Some WAIT_CONNECTION; ch_output := JNull;
     ch_error := None; ch_remote_outcome := None |}.

(** Two workers: the second loads the record before the first begins, and its cancellation
    is refused. *)
Definition demo_events : list LifecycleEvent :=
  [EvCreate demo_invocation; EvLoad "inv"; EvBeginInitial 0 "impl" "remote" None "a1" 1;
   EvStartInitial 2 0 2; EvTransition 1 (changes_to CANCELLED) 3;
   EvTransition 3 to_waiting 4; EvFinishAttempt 1 FAILED None 4;
   EvBeginContinuation 3 "impl" "remote" None "REPLAY_SAFE" "a2" 5; EvStartContinuation 4 2 6;
   EvTransition 5 (changes_to COMPLETED) 7; EvFinishAttempt 3 COMPLETED None 7].

(** The same from a record that is already stored. *)
Definition demo_store : Sql.SqlStore := Sql.put (Sql.empty true) demo_invocation.

Definition demo_loaded : list LifecycleEvent := EvLoad "inv" :: tail demo_events.

Definition demo_late : list LifecycleEvent :=
  [EvLoad "inv"; EvTransition 6 (changes_to CANCELLED) 8; EvRemoteOutcome 6 TERMINAL_COMMITTED 9].

Lemma demo_keyed : keyed demo_store.
Proof.
  intros id c. unfold get_invocation; simpl. unfold Sql.get; simpl.
  rw lookup_insert_Some lookup_empty. naive_solver.
Qed.

Lemma demo_disciplined : all_disciplined (new_world demo_store) (demo_loaded ++ demo_late) = true.
Proof. vm_compute. reflexivity. Qed.

Lemma acknowledged_writes_counted_witness :
  exists c, get_invocation (w_store (runs lifecycle_step (new_world demo_store) demo_loaded)) "inv" = Some c
            /\ iv_revision c = 6.
Proof.
  destruct (acknowledged_writes_counted demo_store demo_loaded) as (_ & _ & Hc).
  destruct (Hc "inv" demo_invocation eq_refl) as (c & Hg & Hr). exists c. split; [exact Hg|].
  rw Hr. vm_compute. reflexivity.
Defined.

Lemma versions_linear_witness :
  exists c', get_invocation (w_store (runs lifecycle_step (new_world demo_store)
                                        ([] ++ (demo_loaded ++ demo_late)))) "inv" = Some c' /\
             rtc moves demo_invocation c'.
Proof.
  apply (versions_linear demo_store [] (demo_loaded ++ demo_late) "inv" demo_invocation);
    [exact demo_keyed|exact demo_disciplined|reflexivity].
Defined.

Lemma terminal_report_final_witness :
  exists c c', iv_state c = COMPLETED /\
    get_invocation (w_store (runs lifecycle_step (new_world demo_store) (demo_loaded ++ demo_late))) "inv"
      = Some c' /\
    iv_revision c < iv_revision c' /\ report c' = report c /\ identity c' = identity c.
Proof.
  set (c := default demo_invocation
              (get_invocation (w_store (runs lifecycle_step (new_world demo_store) demo_loaded)) "inv")).
  destruct (terminal_report_final demo_store demo_loaded demo_late "inv" c demo_keyed demo_disciplined)
    as (c' & Hg & Hr & Hi); [vm_compute; reflexivity..|].
  exists c, c'. split_and!; [vm_compute; reflexivity|exact Hg| |exact Hr|exact Hi].
  vm_compute in Hg. injection Hg as <-. vm_compute. reflexivity.
Defined.

Lemma one_open_attempt_witness :
  one_open (w_store (runs lifecycle_step (new_world Memory.empty) demo_events)).
Proof.
  apply (one_open_attempt Memory.empty demo_events).
  - intros x y a b Hx. discriminate Hx.
  - apply no_plain_start. reflexivity.
Defined.

Lemma sql_attempts_numbered_witness :
  exists s i, map ia_number (Sql.list_attempts s (iv_id i)) = [1].
Proof.
  set (i := default demo_invocation
              (transition_invocation (route demo_invocation (Some "impl") (Some "remote") None 1 1)
                 (changes_to DISPATCHING) 1)).
  set (a := dispatching_attempt i "impl" "remote" None "a1" JNull 1).
  exists (Sql.begin_initial_attempt demo_store i 0 a).1, i.
  apply (sql_attempts_numbered demo_store i 0 a). left. vm_compute. reflexivity.
Defined.

(** An object that was refused and is used again: the write of the remote outcome by the
    worker loses against a cancellation, but the object's revision went up with it, so the
    handler's next write is taken for one based on the cancelled record and undoes it. *)
Definition overwriting_events : list LifecycleEvent :=
  [EvCreate demo_invocation; EvBeginInitial 0 "impl" "remote" None "a1" 1; EvStartInitial 1 0 2;
   EvLoad "inv"; EvTransition 3 (changes_to CANCELLED) 3;
   EvRemoteOutcome 2 IN_FLIGHT 4; EvRemoteOutcome 2 OUTCOME_UNKNOWN 5;
   EvTransition 2 (changes_to FAILED) 6].

Example refused_object_overwrites :
  map (fun n => option_map iv_state
         (get_invocation (w_store (runs lifecycle_step (new_world (Sql.empty true))
                                     (take n overwriting_events))) "inv")) [5; 6; 7; 8]%nat
  = [Some CANCELLED; Some CANCELLED; Some RUNNING; Some FAILED] /\
  all_disciplined (new_world (Sql.empty true)) (take 6 overwriting_events) = true /\
  all_disciplined (new_world (Sql.empty true)) (take 7 overwriting_events) = false.
Proof. vm_compute. auto. Qed.
