(* ===== verification/ResumeClaimStore.v ===== *)
(** * Resume claims: plans, claims and their store
    (src/se/src/runtimes/agent/contracts/resume.py, DurableAgentStore.get_or_create_resume_claim,
    rebind_created_resume_claim and record_resume_claim_handoff of
    src/se/src/runtimes/agent/persistence.py, with the claim methods of AgentRepository and the
    tables agent_resume_claims, agent_execution_checkpoints,
    agent_checkpoint_pending_invocations, agent_tool_calls and agent_tool_results)

    A claim is the durable intent of a client to resume a waiting execution; only its
    consumption (file ResumeClaimConsume) gives authority.  The database is the agent tables
    of AgentStore with the tables of this protocol.  The columns of executions and tasks that
    AgentStore keeps in one object are read by name.  Times and seconds are integers
    (microseconds), also inside a fingerprint; strings of free text are only codes. *)

From S2P Require Import Prelude Canonical TaskBudgetSchema AgentStore TaskBudgetService.
From S2P Require Import TaskActivity Invocation InvocationStores.

(** ** contracts/resume.py *)

Inductive ToolResultCommitState := PROVISIONAL | COMMITTED_RESULT.

#[global] Instance ToolResultCommitState_eq_dec : EqDecision ToolResultCommitState.
Proof. solve_decision. Defined.

Inductive ResumeInvocationActionKind := REUSE_COMMITTED | DISPATCH_NOT_DISPATCHED | REPLAY_SAFE.

#[global] Instance ResumeInvocationActionKind_eq_dec : EqDecision ResumeInvocationActionKind.
Proof. solve_decision. Defined.

Inductive ResumeClaimState := CLAIM_CREATED | CLAIM_CONSUMED | CLAIM_REJECTED | CLAIM_EXPIRED.

#[global] Instance ResumeClaimState_eq_dec : EqDecision ResumeClaimState.
Proof. solve_decision. Defined.

Inductive ResumeTriggerType :=
  | CLIENT_RECONNECT | SERVER_RECOVERY | MANUAL | DEPENDENCY_READY | RESOURCE_READY.

#[global] Instance ResumeTriggerType_eq_dec : EqDecision ResumeTriggerType.
Proof. solve_decision. Defined.

(** A float column of seconds. *)
Inductive Seconds := Finite (us : Z) | NotFinite.

#[global] Instance Seconds_eq_dec : EqDecision Seconds.
Proof. solve_decision. Defined.

(** A message of a transcript; only the role and the tool call are looked at. *)
Record TranscriptMessage := {
  ms_role : string;
  ms_tool_call_id : option string;
  ms_outward : json
}.

Record DurableExecutionCheckpoint := {
  ck_id : string;
  ck_execution_id : string;
  ck_execution_revision : Z;
  ck_session_id : string;
  ck_iteration : Z;
  ck_wait_reason : string;
  ck_task_id : option string;
  ck_branch_id : option string;
  ck_remaining : option Seconds;
  ck_wait_expires_at : option Z;
  ck_origin_client_id : option string;
  ck_origin_connection_id : option string;
  ck_transcript : list TranscriptMessage;
  ck_trace_id : option string;
  ck_request_id : option string
}.

Record CheckpointPendingInvocation := {
  pd_ordinal : Z;
  pd_invocation_id : string;
  pd_invocation_revision : Z;
  pd_tool_call_id : string;
  pd_capability_id : string;
  pd_capability_version : option string;
  pd_request_fingerprint : option string;
  pd_idempotency : CapabilityIdempotency;
  pd_observed : option RemoteOutcomeState;
  pd_origin_client_id : option string;
  pd_origin_connection_id : option string
}.

Record ResumeInvocationAction := {
  ac_invocation_id : string;
  ac_tool_call_id : string;
  ac_ordinal : Z;
  ac_capability_id : string;
  ac_capability_version : string;
  ac_request_fingerprint : string;
  ac_idempotency : CapabilityIdempotency;
  ac_expected_revision : Z;
  ac_expected_state : CapabilityInvocationState;
  ac_expected_outcome : option RemoteOutcomeState;
  ac_action : ResumeInvocationActionKind
}.

Record ResumePlan := {
  pl_execution_id : string;
  pl_checkpoint_id : string;
  pl_expected_execution_revision : Z;
  pl_plan_fingerprint : string;
  pl_agent_id : string;
  pl_session_id : string;
  pl_task_id : option string;
  pl_branch_id : option string;
  pl_parent_execution_id : option string;
  pl_retry_of_execution_id : option string;
  pl_base_execution_id : option string;
  pl_base_checkpoint_id : option string;
  pl_correlation_id : option string;
  pl_trace_id : option string;
  pl_request_id : option string;
  pl_iteration : Z;
  pl_ordered_tool_call_ids : list string;
  pl_transcript_snapshot : list json;
  pl_remaining : Z;
  pl_wait_expires_at : option Z;
  pl_target_user_id : string;
  pl_target_client_id : option string;
  pl_target_connection_id : option string;
  pl_actions : list ResumeInvocationAction
}.

(** [.value] of the enumerations in a fingerprint. *)
Definition idempotency_value (i : CapabilityIdempotency) : string :=
  match i with
  | IDEMPOTENT => "IDEMPOTENT" | DEDUPLICATED => "DEDUPLICATED"
  | NON_IDEMPOTENT => "NON_IDEMPOTENT" | IDEMPOTENCY_UNKNOWN => "UNKNOWN"
  end.

Definition invocation_state_value (s : CapabilityInvocationState) : string :=
  match s with
  | CREATED => "CREATED" | DISPATCHING => "DISPATCHING" | RUNNING => "RUNNING"
  | WAITING => "WAITING" | RETRYING => "RETRYING" | COMPLETED => "COMPLETED"
  | FAILED => "FAILED" | CANCELLED => "CANCELLED" | TIMED_OUT => "TIMED_OUT"
  end.

Definition action_value (k : ResumeInvocationActionKind) : string :=
  match k with
  | REUSE_COMMITTED => "REUSE_COMMITTED"
  | DISPATCH_NOT_DISPATCHED => "DISPATCH_NOT_DISPATCHED"
  | REPLAY_SAFE => "REPLAY_SAFE"
  end.

Definition text_or_null (o : option string) : json :=
  match o with Some s => JStr s | None => JNull end.
Definition int_or_null (o : option Z) : json :=
  match o with Some z => JInt z | None => JNull end.

Definition action_payload (a : ResumeInvocationAction) : json :=
  JObj [("invocation_id", JStr (ac_invocation_id a)); ("tool_call_id", JStr (ac_tool_call_id a));
        ("ordinal", JInt (ac_ordinal a)); ("capability_id", JStr (ac_capability_id a));
        ("capability_version", JStr (ac_capability_version a));
        ("request_fingerprint", JStr (ac_request_fingerprint a));
        ("idempotency", JStr (idempotency_value (ac_idempotency a)));
        ("expected_invocation_revision", JInt (ac_expected_revision a));
        ("expected_invocation_state", JStr (invocation_state_value (ac_expected_state a)));
        ("expected_remote_outcome_state", outcome_json (ac_expected_outcome a));
        ("action", JStr (action_value (ac_action a)))].

Definition plan_payload (p : ResumePlan) : json :=
  JObj [("execution_id", JStr (pl_execution_id p)); ("checkpoint_id", JStr (pl_checkpoint_id p));
        ("expected_execution_revision", JInt (pl_expected_execution_revision p));
        ("agent_id", JStr (pl_agent_id p)); ("session_id", JStr (pl_session_id p));
        ("task_id", text_or_null (pl_task_id p)); ("branch_id", text_or_null (pl_branch_id p));
        ("parent_execution_id", text_or_null (pl_parent_execution_id p));
        ("retry_of_execution_id", text_or_null (pl_retry_of_execution_id p));
        ("base_execution_id", text_or_null (pl_base_execution_id p));
        ("base_checkpoint_id", text_or_null (pl_base_checkpoint_id p));
        ("correlation_id", text_or_null (pl_correlation_id p));
        ("trace_id", text_or_null (pl_trace_id p)); ("request_id", text_or_null (pl_request_id p));
        ("iteration", JInt (pl_iteration p));
        ("ordered_tool_call_ids", JArr (map JStr (pl_ordered_tool_call_ids p)));
        ("transcript_snapshot", JArr (pl_transcript_snapshot p));
        ("remaining_active_budget_seconds", JInt (pl_remaining p));
        ("wait_expires_at", int_or_null (pl_wait_expires_at p));
        ("target_user_id", JStr (pl_target_user_id p));
        ("target_client_id", text_or_null (pl_target_client_id p));
        ("target_connection_id", text_or_null (pl_target_connection_id p));
        ("invocation_actions", JArr (map action_payload (pl_actions p)))].

Definition resume_plan_fingerprint (p : ResumePlan) : string := json_fingerprint_utf8 (plan_payload p).
#[global] Arguments resume_plan_fingerprint : simpl never.

(** [dataclasses.replace(plan, target_connection_id=..., plan_fingerprint="")]. *)
Definition with_connection (p : ResumePlan) (conn : string) : ResumePlan :=
  let '(Build_ResumePlan ei ci er _ ag se ta br pe re be bc co tr rq it ids sn rm we us cl _ acs) := p in
  Build_ResumePlan ei ci er "" ag se ta br pe re be bc co tr rq it ids sn rm we us cl (Some conn) acs.

Record ResumeClaimIntent := {
  in_resume_request_id : string;
  in_execution_id : string;
  in_checkpoint_id : string;
  in_expected_execution_revision : Z;
  in_plan_fingerprint : string;
  in_user_id : string;
  in_wait_reason : string;
  in_trigger_type : ResumeTriggerType;
  in_claim_expires_at : Z;
  in_client_id : option string;
  in_connection_id : option string;
  in_metadata : list (string * json)
}.

Record ResumeClaim := {
  cl_id : string;
  cl_execution_id : string;
  cl_checkpoint_id : string;
  cl_resume_request_id : string;
  cl_expected_execution_revision : Z;
  cl_user_id : string;
  cl_client_id : option string;
  cl_connection_id : option string;
  cl_wait_reason : string;
  cl_trigger_type : ResumeTriggerType;
  cl_state : ResumeClaimState;
  cl_revision : Z;
  cl_plan_fingerprint : string;
  cl_rejection_code : option string;
  cl_metadata : list (string * json);
  cl_expires_at : Z;
  cl_consumed_at : option Z;
  cl_rejected_at : option Z;
  cl_expired_at : option Z;
  cl_consumed_execution_revision : option Z
}.

(** ** Tables *)

Record ToolCallRow := { tc_invocation_id : string; tc_capability_id : string }.

Record ToolResultRow := {
  rs_invocation_id : string;
  rs_capability_id : string;
  rs_success : bool;
  rs_output : json;
  rs_error_code : option string;
  rs_error_message : option string;
  rs_retryable : bool;
  rs_commit_state : ToolResultCommitState
}.

(** The tables; pending invocations are listed by ordinal, tool calls and results are keyed by
    execution and call, iterations by execution and number (with their tool calls), and the
    invocations are those of the SQL store. *)
Record ResumeDB := {
  rd_agents : AgentDB;
  rd_claims : gmap string ResumeClaim;
  rd_checkpoints : gmap string DurableExecutionCheckpoint;
  rd_pending : gmap string (list CheckpointPendingInvocation);
  rd_iterations : gmap (string * Z) (list string);
  rd_tool_calls : gmap (string * string) ToolCallRow;
  rd_tool_results : gmap (string * string) ToolResultRow;
  rd_store : Sql.SqlStore
}.

Definition rd_invocations (db : ResumeDB) : gmap string CapabilityInvocation := Sql.items (rd_store db).
Definition rd_foreign_keys (db : ResumeDB) : bool := Sql.foreign_keys (rd_store db).

Definition with_agents (db : ResumeDB) (a : AgentDB) : ResumeDB :=
  {| rd_agents := a; rd_claims := rd_claims db; rd_checkpoints := rd_checkpoints db;
     rd_pending := rd_pending db; rd_iterations := rd_iterations db; rd_tool_calls := rd_tool_calls db;
     rd_tool_results := rd_tool_results db; rd_store := rd_store db |}.

Definition with_claims (db : ResumeDB) m : ResumeDB :=
  {| rd_agents := rd_agents db; rd_claims := m; rd_checkpoints := rd_checkpoints db;
     rd_pending := rd_pending db; rd_iterations := rd_iterations db; rd_tool_calls := rd_tool_calls db;
     rd_tool_results := rd_tool_results db; rd_store := rd_store db |}.

Definition with_tool_results (db : ResumeDB) m : ResumeDB :=
  {| rd_agents := rd_agents db; rd_claims := rd_claims db; rd_checkpoints := rd_checkpoints db;
     rd_pending := rd_pending db; rd_iterations := rd_iterations db; rd_tool_calls := rd_tool_calls db;
     rd_tool_results := m; rd_store := rd_store db |}.

Definition with_store (db : ResumeDB) (s : Sql.SqlStore) : ResumeDB :=
  {| rd_agents := rd_agents db; rd_claims := rd_claims db; rd_checkpoints := rd_checkpoints db;
     rd_pending := rd_pending db; rd_iterations := rd_iterations db; rd_tool_calls := rd_tool_calls db;
     rd_tool_results := rd_tool_results db; rd_store := s |}.

(** Columns of executions and tasks that AgentStore does not name. *)
Definition e_session_id (e : ExecutionRow) : string := text_column (e_payload e) "session_id".
Definition e_column (e : ExecutionRow) (key : string) : option string := opt_column (e_payload e) key.
Definition t_session_id (t : TaskRow) : string := text_column (t_payload t) "session_id".
Definition t_created_by (t : TaskRow) : string := text_column (t_payload t) "created_by".

(** ** Claim methods of AgentRepository *)

(** The CHECK constraints of [agent_resume_claims]. *)
Definition claim_checks (c : ResumeClaim) : bool :=
  (0 <=? cl_revision c) && (0 <=? cl_expected_execution_revision c) &&
  nonneg_opt (cl_consumed_execution_revision c) &&
  (if bool_decide (cl_state c = CLAIM_CONSUMED)
   then negb (bool_decide (cl_consumed_at c = None)) &&
        negb (bool_decide (cl_consumed_execution_revision c = None))
   else bool_decide (cl_consumed_at c = None) &&
        bool_decide (cl_consumed_execution_revision c = None)) &&
  Bool.eqb (bool_decide (cl_state c = CLAIM_REJECTED)) (negb (bool_decide (cl_rejected_at c = None))) &&
  Bool.eqb (bool_decide (cl_state c = CLAIM_EXPIRED)) (negb (bool_decide (cl_expired_at c = None))).

Definition get_resume_claim (db : ResumeDB) (claim_id : string) : option ResumeClaim :=
  rd_claims db !! claim_id.

(** [scalar_one_or_none] on a column that is unique. *)
Definition get_resume_claim_by_request_id (db : ResumeDB) (request_id : string) : option ResumeClaim :=
  head (List.filter (fun c => bool_decide (cl_resume_request_id c = request_id))
          (map snd (map_to_list (rd_claims db)))).

Definition save_resume_claim (db : ResumeDB) (c : ResumeClaim) : result StoreError ResumeDB :=
  if bool_decide (rd_claims db !! cl_id c = None) &&
     bool_decide (get_resume_claim_by_request_id db (cl_resume_request_id c) = None) &&
     claim_checks c &&
     (negb (rd_foreign_keys db) ||
      (bool_decide (is_Some (get_execution (rd_agents db) (cl_execution_id c))) &&
       bool_decide (is_Some (rd_checkpoints db !! cl_checkpoint_id c))))
  then Ok (with_claims db (<[cl_id c := c]> (rd_claims db)))
  else Err IntegrityError.

Inductive ClaimField :=
  | ToRejected (code : string) (at_ : Z)
  | ToExpired (at_ : Z)
  | ToConsumed (at_ : Z) (execution_revision : Z)
  | ToConnection (conn fingerprint : string)
  | ToMetadata (m : list (string * json)).

Definition apply_claim_field (c : ResumeClaim) (revision : Z) (f : ClaimField) : ResumeClaim :=
  let '(Build_ResumeClaim i e ck rq er us cl co wr tg st _ fp rj md ex ca ra ea cr) := c in
  match f with
  | ToRejected code t =>
      Build_ResumeClaim i e ck rq er us cl co wr tg CLAIM_REJECTED revision fp (Some code) md ex ca (Some t) ea cr
  | ToExpired t =>
      Build_ResumeClaim i e ck rq er us cl co wr tg CLAIM_EXPIRED revision fp rj md ex ca ra (Some t) cr
  | ToConsumed t r =>
      Build_ResumeClaim i e ck rq er us cl co wr tg CLAIM_CONSUMED revision fp rj md ex (Some t) ra ea (Some r)
  | ToConnection conn fp' =>
      Build_ResumeClaim i e ck rq er us cl (Some conn) wr tg st revision fp' rj md ex ca ra ea cr
  | ToMetadata m =>
      Build_ResumeClaim i e ck rq er us cl co wr tg st revision fp rj m ex ca ra ea cr
  end.

Definition compare_and_set_resume_claim (db : ResumeDB) (claim_id : string) (expected_revision : Z)
    (expected_state : ResumeClaimState) (values : ClaimField)
    : result StoreError (ResumeDB * option ResumeClaim) :=
  match rd_claims db !! claim_id with
  | Some c =>
      if (cl_revision c =? expected_revision) && bool_decide (cl_state c = expected_state) then
        let c' := apply_claim_field c (expected_revision + 1) values in
        if claim_checks c' then Ok (with_claims db (<[claim_id := c']> (rd_claims db)), Some c')
        else Err IntegrityError
      else Ok (db, None)
  | None => Ok (db, None)
  end.

(** ** Outcomes of one transaction *)

Inductive Outcome (A : Type) :=
  | Done (a : A)
  | Rejected (code : string)
  | Deferred (code : string)
  | Raised (e : TBError)
  | Again.
Arguments Done {A} _.
Arguments Rejected {A} _.
Arguments Deferred {A} _.
Arguments Raised {A} _.
Arguments Again {A}.

(** ** get_or_create_resume_claim *)

Definition claim_intent_matches (c : ResumeClaim) (i : ResumeClaimIntent) : bool :=
  bool_decide (cl_execution_id c = in_execution_id i) &&
  bool_decide (cl_checkpoint_id c = in_checkpoint_id i) &&
  (cl_expected_execution_revision c =? in_expected_execution_revision i) &&
  bool_decide (cl_plan_fingerprint c = in_plan_fingerprint i) &&
  bool_decide (cl_user_id c = in_user_id i) &&
  bool_decide (cl_client_id c = in_client_id i) &&
  bool_decide (cl_connection_id c = in_connection_id i) &&
  bool_decide (cl_wait_reason c = in_wait_reason i) &&
  bool_decide (cl_trigger_type c = in_trigger_type i).

Definition new_claim (fresh : string) (i : ResumeClaimIntent) : ResumeClaim :=
  {| cl_id := fresh; cl_execution_id := in_execution_id i; cl_checkpoint_id := in_checkpoint_id i;
     cl_resume_request_id := in_resume_request_id i;
     cl_expected_execution_revision := in_expected_execution_revision i;
     cl_user_id := in_user_id i; cl_client_id := in_client_id i;
     cl_connection_id := in_connection_id i; cl_wait_reason := in_wait_reason i;
     cl_trigger_type := in_trigger_type i; cl_state := CLAIM_CREATED; cl_revision := 0;
     cl_plan_fingerprint := in_plan_fingerprint i; cl_rejection_code := None;
     cl_metadata := in_metadata i; cl_expires_at := in_claim_expires_at i; cl_consumed_at := None;
     cl_rejected_at := None; cl_expired_at := None; cl_consumed_execution_revision := None |}.

Definition intent_args (i : ResumeClaimIntent) : result TBError unit :=
  _ ← guard_err (truthy (in_resume_request_id i)) (ValueError "resume_request_id must be non-empty");
  _ ← guard_err (truthy (in_execution_id i) && truthy (in_checkpoint_id i))
        (ValueError "execution_id/checkpoint_id must be non-empty");
  guard_err (0 <=? in_expected_execution_revision i)
    (ValueError "expected_execution_revision must be non-negative").

(** A claim that is stored under the request: a conflict, an answer, or an open claim. *)
Definition existing_claim (existing : option ResumeClaim) (i : ResumeClaimIntent)
    : option (Outcome ResumeClaim) :=
  match existing with
  | None => None
  | Some c =>
      if negb (claim_intent_matches c i) then Some (Rejected "RESUME_REQUEST_CONFLICT")
      else if negb (bool_decide (cl_state c = CLAIM_CREATED)) then Some (Done c)
      else None
  end.

(** The read-only transaction that finds the task, or answers. *)
Definition locate_intent (loc : ResumeDB) (i : ResumeClaimIntent)
    : Outcome ResumeClaim + option string :=
  match existing_claim (get_resume_claim_by_request_id loc (in_resume_request_id i)) i with
  | Some answer => inl answer
  | None =>
      match get_execution (rd_agents loc) (in_execution_id i) with
      | None => inl (Rejected "STALE_RESUME_CLAIM")
      | Some e => inr (e_task_id e)
      end
  end.

(** The branch of an execution is open and the execution is its head. *)
Definition branch_current (a : AgentDB) (task_id : option string) (branch_id execution_id : string)
    : bool :=
  match get_task_branch a branch_id with
  | Some b => bool_decide (Some (br_task_id b) = task_id) &&
              bool_decide (br_resolution_state b = "OPEN") &&
              bool_decide (br_current_execution_id b = Some execution_id)
  | None => false
  end.

(** The locked task is terminal; the branch of its execution is not open. *)
Definition task_ended (task : option TaskRow) : bool :=
  match task with Some t => task_terminal (t_status t) | None => false end.

Definition branch_closed (a : AgentDB) (task : option TaskRow) (e : ExecutionRow) : bool :=
  match task, e_branch_id e with
  | Some _, Some b => negb (branch_current a (e_task_id e) b (e_id e))
  | _, _ => false
  end.

(** Reject a CREATED claim because its task ended; a lost compare-and-set retries. *)
Definition reject_task_resolved (db : ResumeDB) (c : ResumeClaim) (now : Z)
    : ResumeDB * Outcome ResumeClaim :=
  match compare_and_set_resume_claim db (cl_id c) (cl_revision c) CLAIM_CREATED
          (ToRejected "TASK_RESOLVED" now) with
  | Ok (db', Some _) => (db', Rejected "TASK_TERMINAL")
  | Ok (_, None) => (db, Again)
  | Err e => (db, Raised (StoreFailure e))
  end.

(** The transaction that holds the task's writer fence. *)
Definition create_in_uow (db : ResumeDB) (i : ResumeClaimIntent) (located : option string)
    (fresh : string) (now : Z) : ResumeDB * Outcome ResumeClaim :=
  let task := match located with Some t => get_task (rd_agents db) t | None => None end in
  if bool_decide (is_Some located) && bool_decide (task = None)
  then (db, Rejected "TASK_TERMINAL")
  else
    let existing := get_resume_claim_by_request_id db (in_resume_request_id i) in
    match existing_claim existing i with
    | Some answer => (db, answer)
    | None =>
        match get_execution (rd_agents db) (in_execution_id i) with
        | None => (db, Rejected "STALE_RESUME_CLAIM")
        | Some e =>
            if negb (bool_decide (e_task_id e = located)) then (db, Rejected "STALE_RESUME_CLAIM")
            else if task_ended task then
              match existing with
              | Some c => reject_task_resolved db c now
              | None => (db, Rejected "TASK_TERMINAL")
              end
            else if branch_closed (rd_agents db) task e then (db, Rejected "BRANCH_NOT_OPEN")
            else
              match existing with
              | Some c => (db, Done c)
              | None =>
                  match save_resume_claim db (new_claim fresh i) with
                  | Ok db' => (db', Done (new_claim fresh i))
                  | Err e => (db, Raised (StoreFailure e))
                  end
              end
        end
    end.

Definition create_attempt (loc db : ResumeDB) (i : ResumeClaimIntent) (fresh : string) (now : Z)
    : ResumeDB * Outcome ResumeClaim :=
  match locate_intent loc i with
  | inl answer => (db, answer)
  | inr located => create_in_uow db i located fresh now
  end.

(** The loop: per attempt a database fault, the rows its locator transaction saw, the rows its
    writing transaction works on, a fresh id and the clock.  A violated constraint, the unique
    request id above all, starts over. *)
Record ClaimEnv := {
  ce_fault : option DbFault;
  ce_located : ResumeDB;
  ce_db : ResumeDB;
  ce_fresh : string;
  ce_now : Z
}.

Fixpoint create_loop (n : nat) (env : nat -> ClaimEnv) (db : ResumeDB) (i : ResumeClaimIntent)
    : ResumeDB * Outcome ResumeClaim :=
  match n with
  | O => (db, Deferred "RESUME_CONFLICT")
  | S n' =>
      let e := env n in
      match ce_fault e with
      | Some LockedOrBusy => create_loop n' env db i
      | Some OtherOperational => (ce_db e, Raised OperationalFailure)
      | None =>
          match create_attempt (ce_located e) (ce_db e) i (ce_fresh e) (ce_now e) with
          | (_, Again) | (_, Raised (StoreFailure IntegrityError)) => create_loop n' env (ce_db e) i
          | r => r
          end
      end
  end.

Definition get_or_create_resume_claim (env : nat -> ClaimEnv) (db : ResumeDB) (i : ResumeClaimIntent)
    : ResumeDB * Outcome ResumeClaim :=
  match intent_args i with
  | Err e => (db, Raised e)
  | Ok _ => create_loop 8 env db i
  end.

(** ** rebind_created_resume_claim *)

Definition is_text (o : option string) : bool := match o with Some s => truthy s | None => false end.

Definition created_claim_can_rebind_to_plan (c : ResumeClaim) (p : ResumePlan) (request_id : string)
    : bool :=
  bool_decide (cl_resume_request_id c = request_id) &&
  bool_decide (cl_execution_id c = pl_execution_id p) &&
  bool_decide (cl_checkpoint_id c = pl_checkpoint_id p) &&
  (cl_expected_execution_revision c =? pl_expected_execution_revision p) &&
  bool_decide (cl_user_id c = pl_target_user_id p) &&
  bool_decide (cl_client_id c = pl_target_client_id p) &&
  bool_decide (cl_wait_reason c = "CONNECTION") &&
  bool_decide (cl_trigger_type c = CLIENT_RECONNECT) &&
  is_text (cl_connection_id c) && is_text (pl_target_connection_id p) &&
  bool_decide (cl_plan_fingerprint c =
               resume_plan_fingerprint (with_connection p (default "" (cl_connection_id c)))).

(** The checks of a reconnect plan that come before any transaction. *)
Definition plan_args (p : ResumePlan) : option string :=
  if negb (truthy (pl_target_user_id p)) then Some "FOREIGN_PRINCIPAL"
  else if negb (is_text (pl_target_client_id p)) then Some "FOREIGN_CLIENT"
  else if negb (is_text (pl_target_connection_id p)) then Some "CONNECTION_NOT_READY"
  else None.

(** What both transactions check of the claim itself: an answer, or the CREATED claim. *)
Definition rebindable (c : option ResumeClaim) (p : ResumePlan) (request_id : string)
    : Outcome ResumeClaim + ResumeClaim :=
  match c with
  | None => inl (Rejected "STALE_RESUME_CLAIM")
  | Some c =>
      if negb (bool_decide (cl_state c = CLAIM_CREATED)) then inl (Done c)
      else if negb (created_claim_can_rebind_to_plan c p request_id)
      then inl (Rejected "RESUME_REQUEST_CONFLICT")
      else inr c
  end.

Definition locate_rebind (loc : ResumeDB) (claim_id : string) (p : ResumePlan) (request_id : string)
    : Outcome ResumeClaim + option string :=
  match rebindable (get_resume_claim loc claim_id) p request_id with
  | inl answer => inl answer
  | inr c =>
      match get_execution (rd_agents loc) (cl_execution_id c) with
      | None => inl (Rejected "STALE_RESUME_CLAIM")
      | Some e =>
          if bool_decide (e_task_id e = pl_task_id p) then inr (e_task_id e)
          else inl (Rejected "RESUME_REQUEST_CONFLICT")
      end
  end.

Definition rebind_in_uow (db : ResumeDB) (claim_id : string) (p : ResumePlan) (request_id : string)
    (located : option string) (now : Z) : ResumeDB * Outcome ResumeClaim :=
  let task := match located with Some t => get_task (rd_agents db) t | None => None end in
  if bool_decide (is_Some located) && bool_decide (task = None)
  then (db, Rejected "TASK_TERMINAL")
  else
    match rebindable (get_resume_claim db claim_id) p request_id with
    | inl answer => (db, answer)
    | inr c =>
        match get_execution (rd_agents db) (cl_execution_id c) with
        | None => (db, Rejected "RESUME_REQUEST_CONFLICT")
        | Some e =>
            if negb (bool_decide (e_id e = pl_execution_id p) && bool_decide (e_task_id e = located))
            then (db, Rejected "RESUME_REQUEST_CONFLICT")
            else if task_ended task
            then reject_task_resolved db c now
            else if bool_decide (cl_connection_id c = pl_target_connection_id p) &&
                    bool_decide (cl_plan_fingerprint c = pl_plan_fingerprint p)
            then (db, Done c)
            else
              match compare_and_set_resume_claim db claim_id (cl_revision c) CLAIM_CREATED
                      (ToConnection (default "" (pl_target_connection_id p)) (pl_plan_fingerprint p)) with
              | Ok (db', Some c') => (db', Done c')
              | Ok (_, None) => (db, Again)
              | Err e => (db, Raised (StoreFailure e))
              end
        end
    end.

Definition rebind_attempt (loc db : ResumeDB) (claim_id : string) (p : ResumePlan)
    (request_id : string) (now : Z) : ResumeDB * Outcome ResumeClaim :=
  match locate_rebind loc claim_id p request_id with
  | inl answer => (db, answer)
  | inr located => rebind_in_uow db claim_id p request_id located now
  end.

(** A loop over attempts that only busy databases and lost compare-and-sets repeat. *)
Fixpoint claim_loop (n : nat) (env : nat -> ClaimEnv) (db : ResumeDB)
    (attempt : ClaimEnv -> ResumeDB * Outcome ResumeClaim) : ResumeDB * Outcome ResumeClaim :=
  match n with
  | O => (db, Deferred "RESUME_CONFLICT")
  | S n' =>
      let e := env n in
      match ce_fault e with
      | Some LockedOrBusy => claim_loop n' env db attempt
      | Some OtherOperational => (ce_db e, Raised OperationalFailure)
      | None =>
          match attempt e with
          | (_, Again) => claim_loop n' env (ce_db e) attempt
          | r => r
          end
      end
  end.

Definition rebind_created_resume_claim (env : nat -> ClaimEnv) (db : ResumeDB) (claim_id : string)
    (p : ResumePlan) (request_id : string) : ResumeDB * Outcome ResumeClaim :=
  match plan_args p with
  | Some code => (db, Rejected code)
  | None =>
      if negb (bool_decide (resume_plan_fingerprint p = pl_plan_fingerprint p))
      then (db, Rejected "STALE_RESUME_PLAN")
      else claim_loop 8 env db (fun e => rebind_attempt (ce_located e) (ce_db e) claim_id p request_id (ce_now e))
  end.

(** ** record_resume_claim_handoff *)

(** Equality of JSON values: the same canonical text. *)
Definition same_json (a b : json) : bool := bool_decide (json_dumps a = json_dumps b).

Definition handoff_key : string := "r7_g_handoff".

Definition handoff_value (status : string) (payload : list (string * json)) : json :=
  JObj (foldl (fun d kv => dict_set kv.1 kv.2 d) [("status", JStr status)] payload).

Definition handoff_attempt (db : ResumeDB) (claim_id : string) (handoff : json)
    : ResumeDB * Outcome ResumeClaim :=
  match get_resume_claim db claim_id with
  | None => (db, Rejected "STALE_RESUME_CLAIM")
  | Some c =>
      if negb (bool_decide (cl_state c = CLAIM_CONSUMED)) then (db, Rejected "STALE_RESUME_CLAIM")
      else
        match dict_get handoff_key (cl_metadata c) with
        | None | Some JNull =>
            match compare_and_set_resume_claim db claim_id (cl_revision c) CLAIM_CONSUMED
                    (ToMetadata (dict_set handoff_key handoff (cl_metadata c))) with
            | Ok (db', Some c') => (db', Done c')
            | Ok (_, None) => (db, Again)
            | Err e => (db, Raised (StoreFailure e))
            end
        | Some existing =>
            if same_json existing handoff then (db, Done c) else (db, Rejected "RESUME_REQUEST_CONFLICT")
        end
  end.

(** [status] is upper-cased by the source before it is tested; here it is given in upper case. *)
Definition record_resume_claim_handoff (env : nat -> ClaimEnv) (db : ResumeDB)
    (claim_id status : string) (payload : list (string * json)) : ResumeDB * Outcome ResumeClaim :=
  if bool_decide (status ∈ ["ACCEPTED"; "FAILED"]) then
    claim_loop 8 env db (fun e => handoff_attempt (ce_db e) claim_id (handoff_value status payload))
  else (db, Raised (ValueError "handoff status must be ACCEPTED or FAILED")).
