(* ===== verification/ResumeClaimConsume.v ===== *)
(** * Consumption of a resume claim
    (DurableAgentStore._consume_resume_claim_once and consume_resume_claim of
    src/se/src/runtimes/agent/persistence.py)

    One transaction checks a plan again, reacquires the task's capacity, moves the execution
    from WAITING to RUNNING and the claim from CREATED to CONSUMED.  Its plain reads see a
    [snapshot]; its locking reads and its writes work on [db], which other transactions may
    have changed since.  A transaction that is rolled back returns [db]. *)

From S2P Require Import Prelude Canonical TaskBudgetSchema AgentStore TaskBudgetService.
From S2P Require Import TaskActivity Invocation InvocationStores ResumeClaimStore.

Record ResumeClaimConsumeSpec := {
  sp_plan : ResumePlan;
  sp_claim_id : string;
  sp_resume_request_id : string;
  sp_expected_claim_revision : Z;
  sp_now : Z
}.

Record ResumeClaimConsumeResult := {
  cr_claim_id : string;
  cr_resume_request_id : string;
  cr_execution_id : string;
  cr_checkpoint_id : string;
  cr_source_execution_revision : Z;
  cr_consumed_execution_revision : Z;
  cr_remaining : Z;
  cr_bound_client_id : option string;
  cr_bound_connection_id : option string;
  cr_already_consumed : bool
}.

Definition claim_matches_plan (c : ResumeClaim) (sp : ResumeClaimConsumeSpec) : bool :=
  let p := sp_plan sp in
  bool_decide (cl_resume_request_id c = sp_resume_request_id sp) &&
  bool_decide (cl_execution_id c = pl_execution_id p) &&
  bool_decide (cl_checkpoint_id c = pl_checkpoint_id p) &&
  (cl_expected_execution_revision c =? pl_expected_execution_revision p) &&
  bool_decide (cl_plan_fingerprint c = pl_plan_fingerprint p) &&
  bool_decide (cl_user_id c = pl_target_user_id p) &&
  bool_decide (cl_client_id c = pl_target_client_id p) &&
  bool_decide (cl_connection_id c = pl_target_connection_id p) &&
  bool_decide (cl_wait_reason c = "CONNECTION") &&
  bool_decide (cl_trigger_type c = CLIENT_RECONNECT).

Definition reject_created_claim_in_uow (db : ResumeDB) (c : ResumeClaim) (code : string) (now : Z)
    : ResumeDB * Outcome ResumeClaimConsumeResult :=
  match compare_and_set_resume_claim db (cl_id c) (cl_revision c) CLAIM_CREATED
          (ToRejected code now) with
  | Ok (db', Some _) => (db', Rejected code)
  | Ok (_, None) => (db, Rejected "STALE_RESUME_CLAIM")
  | Err e => (db, Raised (StoreFailure e))
  end.

Definition already_consumed (c : ResumeClaim) (p : ResumePlan) (revision : Z)
    : ResumeClaimConsumeResult :=
  {| cr_claim_id := cl_id c; cr_resume_request_id := cl_resume_request_id c;
     cr_execution_id := cl_execution_id c; cr_checkpoint_id := cl_checkpoint_id c;
     cr_source_execution_revision := cl_expected_execution_revision c;
     cr_consumed_execution_revision := revision; cr_remaining := pl_remaining p;
     cr_bound_client_id := cl_client_id c; cr_bound_connection_id := cl_connection_id c;
     cr_already_consumed := true |}.

Definition expire_claim (db : ResumeDB) (c : ResumeClaim) (now : Z)
    : ResumeDB * Outcome ResumeClaimConsumeResult :=
  match compare_and_set_resume_claim db (cl_id c) (cl_revision c) CLAIM_CREATED (ToExpired now) with
  | Ok (db', Some _) => (db', Rejected "CLAIM_EXPIRED")
  | Ok (_, None) => (db, Rejected "STALE_RESUME_CLAIM")
  | Err e => (db, Raised (StoreFailure e))
  end.

(** ** The checks of the claim itself *)

(** An outcome, or the CREATED claim to go on with. *)
Definition consume_entry (snapshot db : ResumeDB) (sp : ResumeClaimConsumeSpec)
    : (ResumeDB * Outcome ResumeClaimConsumeResult) + ResumeClaim :=
  let p := sp_plan sp in
  let now := sp_now sp in
  match get_resume_claim snapshot (sp_claim_id sp) with
  | None => inl (db, Rejected "STALE_RESUME_CLAIM")
  | Some c =>
      if negb (claim_matches_plan c sp) then inl (db, Rejected "RESUME_REQUEST_CONFLICT")
      else if negb (bool_decide (resume_plan_fingerprint p = pl_plan_fingerprint p)) then
        inl (if bool_decide (cl_state c = CLAIM_CREATED)
             then reject_created_claim_in_uow db c "STALE_RESUME_CLAIM" now
             else (db, Rejected "STALE_RESUME_CLAIM"))
      else
        match cl_state c with
        | CLAIM_CONSUMED =>
            inl (db, match cl_consumed_execution_revision c with
                     | None => Rejected "STALE_RESUME_CLAIM"
                     | Some r => Done (already_consumed c p r)
                     end)
        | CLAIM_EXPIRED => inl (db, Rejected "CLAIM_EXPIRED")
        | CLAIM_REJECTED =>
            inl (db, Rejected (match cl_rejection_code c with
                               | Some code => if truthy code then code else "STALE_RESUME_CLAIM"
                               | None => "STALE_RESUME_CLAIM"
                               end))
        | CLAIM_CREATED =>
            if negb (cl_revision c =? sp_expected_claim_revision sp)
            then inl (db, Rejected "STALE_RESUME_CLAIM")
            else if cl_expires_at c <=? now then inl (expire_claim db c now)
            else inr c
        end
  end.

(** ** The checks of the execution, its checkpoint and its task *)

Definition same_lineage (e : ExecutionRow) (p : ResumePlan) : bool :=
  bool_decide (e_session_id e = pl_session_id p) &&
  bool_decide (e_agent_id e = pl_agent_id p) &&
  bool_decide (e_task_id e = pl_task_id p) &&
  bool_decide (e_branch_id e = pl_branch_id p) &&
  bool_decide (e_parent_execution_id e = pl_parent_execution_id p) &&
  bool_decide (e_column e "retry_of_execution_id" = pl_retry_of_execution_id p) &&
  bool_decide (e_column e "base_execution_id" = pl_base_execution_id p) &&
  bool_decide (e_column e "base_checkpoint_id" = pl_base_checkpoint_id p) &&
  bool_decide (e_column e "correlation_id" = pl_correlation_id p).

Definition checkpoint_current (k : DurableExecutionCheckpoint) (e : ExecutionRow) (p : ResumePlan)
    : bool :=
  bool_decide (ck_execution_id k = pl_execution_id p) &&
  (ck_execution_revision k =? e_revision e) &&
  bool_decide (ck_session_id k = pl_session_id p) &&
  bool_decide (ck_task_id k = pl_task_id p) &&
  bool_decide (ck_branch_id k = pl_branch_id p) &&
  (ck_iteration k =? pl_iteration p) &&
  bool_decide (Some (ck_wait_reason k) = e_wait_reason e).

(** The locked task, budget and branch of a task-scoped plan; [Err] is the rejection code. *)
Definition lock_task (db : ResumeDB) (p : ResumePlan) : result string (option TaskRow) :=
  match pl_task_id p with
  | None => Ok None
  | Some task_id =>
      match get_task (rd_agents db) task_id with
      | None => Err "TASK_TERMINAL"
      | Some t =>
          _ ← guard_err (bool_decide (t_session_id t = pl_session_id p) &&
                         bool_decide (t_created_by t = pl_target_user_id p)) "TASK_TERMINAL";
          _ ← guard_err (negb (task_terminal (t_status t))) "TASK_TERMINAL";
          _ ← guard_err match get_task_budget (rd_agents db) task_id with
                        | Some b => bool_decide (tb_state (row_budget b) = OPEN)
                        | None => false
                        end "TASK_TERMINAL";
          _ ← guard_err match pl_branch_id p with
                        | Some b => branch_current (rd_agents db) (pl_task_id p) b (pl_execution_id p)
                        | None => true
                        end "BRANCH_NOT_OPEN";
          mret (Some t)
      end
  end.

(** The execution and the checkpoint as read, with the locked task. *)
Definition check_authority (snapshot db : ResumeDB) (p : ResumePlan)
    : result string (ExecutionRow * DurableExecutionCheckpoint * option TaskRow) :=
  match get_execution (rd_agents snapshot) (pl_execution_id p) with
  | None => Err "RESUME_CONFLICT"
  | Some e =>
      _ ← guard_err (bool_decide (e_state e = "WAITING") &&
                     (e_revision e =? pl_expected_execution_revision p)) "RESUME_CONFLICT";
      _ ← guard_err (same_lineage e p) "RESUME_CONFLICT";
      _ ← guard_err (bool_decide (e_current_checkpoint_id e = Some (pl_checkpoint_id p)) &&
                     bool_decide (e_wait_reason e = Some "CONNECTION")) "STALE_CHECKPOINT";
      match rd_checkpoints snapshot !! pl_checkpoint_id p with
      | None => Err "STALE_CHECKPOINT"
      | Some k =>
          _ ← guard_err (checkpoint_current k e p) "STALE_CHECKPOINT";
          _ ← guard_err match ck_remaining k with
                        | Some (Finite us) => (0 <? us) && (us =? pl_remaining p)
                        | _ => false
                        end "RESUME_CONFLICT";
          _ ← guard_err (bool_decide (e_wait_expires_at e = ck_wait_expires_at k) &&
                         bool_decide (ck_wait_expires_at k = pl_wait_expires_at p)) "STALE_CHECKPOINT";
          t ← lock_task db p;
          mret (e, k, t)
      end
  end.

(** ** The checks of the invocations *)

Definition same_set (a b : list string) : bool :=
  forallb (fun x => bool_decide (x ∈ b)) a && forallb (fun x => bool_decide (x ∈ a)) b.

(** The checkpoint's pending invocations are those of the actions. *)
Definition pending_matches (pending : list CheckpointPendingInvocation)
    (actions : list ResumeInvocationAction) : bool :=
  (length pending =? length actions)%nat &&
  same_set (map pd_invocation_id pending) (map ac_invocation_id actions) &&
  same_set (map pd_tool_call_id pending) (map ac_tool_call_id actions) &&
  bool_decide (NoDup (map ac_invocation_id actions)) &&
  bool_decide (NoDup (map ac_tool_call_id actions)).

(** A tool call without an action has a committed result of its own invocation. *)
Definition covered (db : ResumeDB) (p : ResumePlan) (call : string) : bool :=
  bool_decide (call ∈ map ac_tool_call_id (pl_actions p)) ||
  match rd_tool_calls db !! (pl_execution_id p, call), rd_tool_results db !! (pl_execution_id p, call) with
  | Some c, Some r => bool_decide (rs_commit_state r = COMMITTED_RESULT) &&
                      bool_decide (rs_invocation_id r = tc_invocation_id c) &&
                      bool_decide (rs_capability_id r = tc_capability_id c)
  | _, _ => false
  end.

(** A dict built from rows with equal keys keeps the last. *)
Definition pending_by_invocation (pending : list CheckpointPendingInvocation) (id : string)
    : option CheckpointPendingInvocation :=
  last (List.filter (fun x => bool_decide (pd_invocation_id x = id)) pending).

Definition snapshot_matches (x : CheckpointPendingInvocation) (a : ResumeInvocationAction)
    (p : ResumePlan) : bool :=
  (pd_ordinal x =? ac_ordinal a) &&
  bool_decide (pd_tool_call_id x = ac_tool_call_id a) &&
  bool_decide (pd_capability_id x = ac_capability_id a) &&
  bool_decide (pd_capability_version x = Some (ac_capability_version a)) &&
  bool_decide (pd_request_fingerprint x = Some (ac_request_fingerprint a)) &&
  bool_decide (pd_idempotency x = ac_idempotency a) &&
  bool_decide (pd_origin_client_id x = pl_target_client_id p).

Definition invocation_matches (i : CapabilityInvocation) (a : ResumeInvocationAction) (p : ResumePlan)
    : bool :=
  bool_decide (iv_execution_id i = Some (pl_execution_id p)) &&
  bool_decide (iv_tool_call_id i = Some (ac_tool_call_id a)) &&
  bool_decide (iv_capability_id i = ac_capability_id a) &&
  bool_decide (d_capability_version (iv_details i) = Some (ac_capability_version a)) &&
  bool_decide (d_request_fingerprint (iv_details i) = Some (ac_request_fingerprint a)) &&
  bool_decide (d_idempotency (iv_details i) = ac_idempotency a) &&
  bool_decide (d_owner_user_id (iv_details i) = Some (pl_target_user_id p)) &&
  bool_decide (d_origin_client_id (iv_details i) = pl_target_client_id p) &&
  (iv_revision i =? ac_expected_revision a) &&
  bool_decide (iv_state i = ac_expected_state a) &&
  bool_decide (iv_remote_outcome i = ac_expected_outcome a).

Definition safe_replay (i : CapabilityIdempotency) : bool :=
  match i with IDEMPOTENT | DEDUPLICATED => true | _ => false end.

(** The action may be carried out. *)
Definition action_permitted (db : ResumeDB) (p : ResumePlan) (a : ResumeInvocationAction)
    (i : CapabilityInvocation) : bool :=
  let parked := bool_decide (iv_state i = WAITING) &&
                bool_decide (iv_wait_reason i = Some WAIT_CONNECTION) in
  match ac_action a with
  | REUSE_COMMITTED =>
      terminal_invocation (iv_state i) &&
      bool_decide (iv_remote_outcome i = Some TERMINAL_COMMITTED) &&
      match rd_tool_results db !! (pl_execution_id p, ac_tool_call_id a) with
      | Some r => bool_decide (rs_commit_state r = COMMITTED_RESULT) &&
                  bool_decide (rs_invocation_id r = ac_invocation_id a) &&
                  bool_decide (rs_capability_id r = ac_capability_id a)
      | None => false
      end
  | DISPATCH_NOT_DISPATCHED => parked && bool_decide (iv_remote_outcome i = Some NOT_DISPATCHED)
  | REPLAY_SAFE =>
      parked &&
      (bool_decide (iv_remote_outcome i = Some IN_FLIGHT) ||
       bool_decide (iv_remote_outcome i = Some OUTCOME_UNKNOWN)) &&
      safe_replay (d_idempotency (iv_details i))
  end.

Fixpoint check_actions (db : ResumeDB) (p : ResumePlan) (pending : list CheckpointPendingInvocation)
    (actions : list ResumeInvocationAction) : result string unit :=
  match actions with
  | [] => Ok tt
  | a :: rest =>
      _ ← guard_err match pending_by_invocation pending (ac_invocation_id a) with
                    | Some x => snapshot_matches x a p
                    | None => false
                    end "STALE_CHECKPOINT"%string;
      _ ← guard_err match rd_invocations db !! ac_invocation_id a with
                    | Some i => invocation_matches i a p && action_permitted db p a i
                    | None => false
                    end "STALE_RECONCILIATION_SNAPSHOT"%string;
      check_actions db p pending rest
  end.

Definition check_invocations (db : ResumeDB) (p : ResumePlan) (k : DurableExecutionCheckpoint)
    : result string unit :=
  let pending := default [] (rd_pending db !! pl_checkpoint_id p) in
  _ ← guard_err (bool_decide (ck_origin_client_id k = pl_target_client_id p)) "FOREIGN_CLIENT";
  _ ← guard_err (negb (is_text (ck_origin_connection_id k) &&
                       bool_decide (ck_origin_connection_id k = pl_target_connection_id p)))
        "CONNECTION_NOT_READY";
  _ ← guard_err (pending_matches pending (pl_actions p)) "STALE_CHECKPOINT";
  _ ← guard_err (forallb (covered db p) (pl_ordered_tool_call_ids p)) "STALE_RECONCILIATION_SNAPSHOT";
  check_actions db p pending (pl_actions p).

(** ** The writes *)

(** A write transaction: the new database, or how it was rolled back. *)
Abbreviation Write A := (result (Outcome ResumeClaimConsumeResult) A).

Definition staged {A} (r : result TBError A) : Write A :=
  match r with Ok a => Ok a | Err e => Err (Raised e) end.

Definition won {A} (lost : Outcome ResumeClaimConsumeResult) (o : option A) : Write A :=
  match o with Some a => Ok a | None => Err lost end.

(** The task's activity after the execution moved. *)
Definition reconcile_activity (a : AgentDB) (p : ResumePlan) (t : option TaskRow) : Write AgentDB :=
  match pl_task_id p with
  | None => Ok a
  | Some task_id =>
      r ← staged (reconcile_multibranch_task_activity_in_uow a a task_id t);
      _ ← won (Deferred "RESUME_CONFLICT") (snd r);
      mret (fst r)
  end.

(** The columns an expired and a resumed execution get. *)
Definition timeout_values (p : ResumePlan) (now : Z) : ExecValues :=
  [SetExecState "TIMEOUT"; SetWaitReason None; SetWaitExpiresAt None;
   SetColumns [("remaining_active_budget_seconds", JInt (pl_remaining p))];
   SetError (Some "WAIT_TTL_EXPIRED"%string); SetCompletedAt (Some now)].

Definition running_values (p : ResumePlan) (now : Z) : ExecValues :=
  [SetExecState "RUNNING"; SetWaitReason None; SetWaitExpiresAt None;
   SetColumns [("bound_client_id", text_or_null (pl_target_client_id p));
               ("bound_connection_id", text_or_null (pl_target_connection_id p));
               ("started_at", JInt now)]].

Definition expire_wait (db : ResumeDB) (c : ResumeClaim) (p : ResumePlan) (t : option TaskRow)
    (now : Z) : Write ResumeDB :=
  r ← staged (lift_store (compare_and_set_waiting_execution (rd_agents db) (pl_execution_id p)
        (pl_expected_execution_revision p) (pl_checkpoint_id p) "CONNECTION"
        (timeout_values p now)));
  _ ← won (Rejected "RESUME_CONFLICT") (snd r);
  q ← staged (lift_store (compare_and_set_resume_claim (with_agents db (fst r)) (cl_id c)
        (cl_revision c) CLAIM_CREATED (ToRejected "WAIT_EXPIRED" now)));
  _ ← won (Rejected "STALE_RESUME_CLAIM") (snd q);
  a ← reconcile_activity (rd_agents (fst q)) p t;
  mret (with_agents (fst q) a).

(** The activity epoch and the capacity of a task-scoped plan. *)
Definition stage_capacity (a : AgentDB) (p : ResumePlan) (t : option TaskRow)
    : Write (AgentDB * option TaskRow) :=
  match pl_task_id p, t with
  | Some task_id, Some t =>
      r ← staged (lift_store (compare_and_set_task a task_id (t_revision t)
            [SetStatus (t_status t); SetWaitReasons (t_wait_reasons t)]));
      t' ← won (Deferred "RESUME_CONFLICT") (snd r);
      q ← staged (prepare_resume_capacity_in_uow (fst r) task_id (pl_execution_id p)
            (pl_expected_execution_revision p) (bool_decide (is_Some (pl_parent_execution_id p))));
      mret (fst q, Some t')
  | _, _ => mret (a, t)
  end.

Definition grant (db : ResumeDB) (c : ResumeClaim) (p : ResumePlan) (t : option TaskRow) (now : Z)
    : Write ResumeDB :=
  s ← stage_capacity (rd_agents db) p t;
  r ← staged (lift_store (compare_and_set_waiting_execution (fst s) (pl_execution_id p)
        (pl_expected_execution_revision p) (pl_checkpoint_id p) "CONNECTION"
        (running_values p now)));
  _ ← won (Rejected "RESUME_CONFLICT") (snd r);
  a ← reconcile_activity (fst r) p (snd s);
  q ← staged (lift_store (compare_and_set_resume_claim (with_agents db a) (cl_id c) (cl_revision c)
        CLAIM_CREATED (ToConsumed now (pl_expected_execution_revision p + 1))));
  _ ← won (Rejected "STALE_RESUME_CLAIM") (snd q);
  mret (fst q).

Definition granted (c : ResumeClaim) (p : ResumePlan) : ResumeClaimConsumeResult :=
  {| cr_claim_id := cl_id c; cr_resume_request_id := cl_resume_request_id c;
     cr_execution_id := pl_execution_id p; cr_checkpoint_id := pl_checkpoint_id p;
     cr_source_execution_revision := pl_expected_execution_revision p;
     cr_consumed_execution_revision := pl_expected_execution_revision p + 1;
     cr_remaining := pl_remaining p; cr_bound_client_id := pl_target_client_id p;
     cr_bound_connection_id := pl_target_connection_id p; cr_already_consumed := false |}.

(** ** _consume_resume_claim_once *)

Definition wait_expired (e : ExecutionRow) (now : Z) : bool :=
  match e_wait_expires_at e with Some t => t <=? now | None => false end.

Definition consume_resume_claim_once (snapshot db : ResumeDB) (sp : ResumeClaimConsumeSpec)
    : ResumeDB * Outcome ResumeClaimConsumeResult :=
  let p := sp_plan sp in
  let now := sp_now sp in
  match plan_args p with
  | Some code => (db, Rejected code)
  | None =>
      match consume_entry snapshot db sp with
      | inl answer => answer
      | inr c =>
          match check_authority snapshot db p with
          | Err code => reject_created_claim_in_uow db c code now
          | Ok (e, k, t) =>
              if wait_expired e now then
                match expire_wait db c p t now with
                | Ok db' => (db', Rejected "WAIT_EXPIRED")
                | Err o => (db, o)
                end
              else
                match check_invocations snapshot p k with
                | Err code => reject_created_claim_in_uow db c code now
                | Ok _ =>
                    match grant db c p t now with
                    | Ok db' => (db', Done (granted c p))
                    | Err o => (db, o)
                    end
                end
          end
      end
  end.

(** ** consume_resume_claim *)

(** Per attempt a database fault, the rows its plain reads see, and the live rows. *)
Record ConsumeEnv := { xe_fault : option DbFault; xe_snapshot : ResumeDB; xe_db : ResumeDB }.

Fixpoint consume_loop (n : nat) (env : nat -> ConsumeEnv) (db : ResumeDB)
    (sp : ResumeClaimConsumeSpec) : ResumeDB * Outcome ResumeClaimConsumeResult :=
  match n with
  | O => (db, Deferred "RESUME_CONFLICT")
  | S n' =>
      let x := env n in
      match xe_fault x with
      | Some LockedOrBusy => consume_loop n' env db sp
      | Some OtherOperational => (xe_db x, Raised OperationalFailure)
      | None =>
          match consume_resume_claim_once (xe_snapshot x) (xe_db x) sp with
          | (_, Deferred _) | (_, Raised (StoreFailure IntegrityError)) =>
              consume_loop n' env (xe_db x) sp
          | r => r
          end
      end
  end.

Definition consume_resume_claim (env : nat -> ConsumeEnv) (db : ResumeDB)
    (sp : ResumeClaimConsumeSpec) : ResumeDB * Outcome ResumeClaimConsumeResult :=
  consume_loop 8 env db sp.
