(* ===== verification/ResumeClaimProperties.v ===== *)
(** * What resume claims guarantee

    The protocol of the files ResumeClaimStore and ResumeClaimConsume as a transition system:
    transactions of any number of servers and clients on one database, in any order, each with
    a possibly stale snapshot, mixed with other transactions that keep the discipline
    [other_ok].  A consumption that grants authority is logged with the execution and the
    revision it was granted for. *)

From S2P Require Import Prelude Canonical TaskBudgetSchema AgentStore TaskBudgetService.
From S2P Require Import TaskBudgetLaws TaskBudgetConcurrency TaskBudgetProperties TaskBudgetLifecycle.
From S2P Require Import TaskActivity ExecutionTransitions Invocation InvocationStores.
From S2P Require Import ResumeClaimStore ResumeClaimConsume.

(** ** Claims *)

(** What no transaction changes of a claim: its subject, its owner and its deadline. *)
Definition claim_identity (c : ResumeClaim) :=
  (cl_id c, cl_execution_id c, cl_checkpoint_id c, cl_resume_request_id c,
   (cl_expected_execution_revision c, cl_user_id c, cl_client_id c, cl_wait_reason c,
    cl_trigger_type c, cl_expires_at c)).

(** What is fixed once a claim is decided. *)
Definition claim_decision (c : ResumeClaim) :=
  (cl_state c, cl_connection_id c, cl_plan_fingerprint c, cl_rejection_code c,
   (cl_consumed_at c, cl_rejected_at c, cl_expired_at c, cl_consumed_execution_revision c)).

(** The recorded handoff, if there is one. *)
Definition handoff (c : ResumeClaim) : option json :=
  match dict_get handoff_key (cl_metadata c) with
  | None | Some JNull => None
  | Some h => Some h
  end.

(** The history of a claim. *)
Record claim_evolves (c c' : ResumeClaim) : Prop := {
  ev_identity : claim_identity c' = claim_identity c;
  ev_revision : cl_revision c <= cl_revision c';
  ev_decided : cl_state c <> CLAIM_CREATED -> claim_decision c' = claim_decision c;
  ev_handoff h : cl_state c = CLAIM_CONSUMED -> handoff c = Some h -> handoff c' = Some h
}.

Lemma claim_evolves_refl c : claim_evolves c c.
Proof. split; auto with lia. Qed.

Lemma claim_evolves_trans c1 c2 c3 : claim_evolves c1 c2 -> claim_evolves c2 c3 -> claim_evolves c1 c3.
Proof.
  intros [I1 R1 D1 H1] [I2 R2 D2 H2]. split; [congruence|lia| |].
  - intros Hs. rw -(D1 Hs). apply D2. pose proof (D1 Hs) as E. by injection E as -> _.
  - intros h Hs Hh. assert (cl_state c2 = CLAIM_CONSUMED) as E2.
    { assert (claim_decision c2 = claim_decision c1) as E by (apply D1; congruence).
      by injection E as -> _. }
    eauto.
Qed.

(** One successful compare-and-set of a claim. *)
Lemma cas_claim_some db id rev st f db' c' :
  compare_and_set_resume_claim db id rev st f = Ok (db', Some c') ->
  exists c, rd_claims db !! id = Some c /\ cl_revision c = rev /\ cl_state c = st /\
    c' = apply_claim_field c (rev + 1) f /\ claim_checks c' = true /\
    db' = with_claims db (<[id := c']> (rd_claims db)).
Proof.
  unfold compare_and_set_resume_claim. destruct (rd_claims db !! id) as [c|]; [|done].
  destruct (_ && _) eqn:E; [|done]. destruct (claim_checks _) eqn:Ec; [|done].
  intros [= <- <-]. breflect. by exists c.
Qed.

Lemma cas_claim_none db id rev st f db' :
  compare_and_set_resume_claim db id rev st f = Ok (db', None) -> db' = db.
Proof.
  unfold compare_and_set_resume_claim. destruct (rd_claims db !! id) as [c|]; [|naive_solver].
  destruct (_ && _); [by destruct (claim_checks _)|naive_solver].
Qed.

(** The kinds of writes the code makes: a decision or a rebinding of a CREATED claim, and the
    first handoff of a consumed one. *)
Definition write_allowed (c : ResumeClaim) (f : ClaimField) : Prop :=
  match f with
  | ToMetadata m => cl_state c = CLAIM_CONSUMED /\ handoff c = None
  | _ => cl_state c = CLAIM_CREATED
  end.

Lemma apply_field_evolves c f :
  write_allowed c f -> claim_evolves c (apply_claim_field c (cl_revision c + 1) f).
Proof.
  destruct c, f; simpl; intros H; subst; split; simpl; try done; try lia; try congruence.
  destruct H as [_ H]. intros h _. unfold handoff in *. simpl in *. congruence.
Qed.

(** ** Transactions on the claims table *)

Definition claims_evolve (db db' : ResumeDB) : Prop :=
  forall id c, rd_claims db !! id = Some c ->
    exists c', rd_claims db' !! id = Some c' /\ claim_evolves c c'.

(** At most one claim changes, by an allowed write, and nothing else. *)
Definition claim_write (db db' : ResumeDB) : Prop :=
  db' = db \/
  exists id c f, rd_claims db !! id = Some c /\ write_allowed c f /\
    db' = with_claims db (<[id := apply_claim_field c (cl_revision c + 1) f]> (rd_claims db)).

(** A claim is inserted under a request that had none. *)
Definition claim_insert (db db' : ResumeDB) : Prop :=
  exists c, rd_claims db !! cl_id c = None /\
    get_resume_claim_by_request_id db (cl_resume_request_id c) = None /\
    db' = with_claims db (<[cl_id c := c]> (rd_claims db)).

(** The primary key is the row's id, and requests are unique. *)
Record claims_ok (db : ResumeDB) : Prop := {
  co_keyed id c : rd_claims db !! id = Some c -> cl_id c = id;
  co_unique id id' c c' : rd_claims db !! id = Some c -> rd_claims db !! id' = Some c' ->
    cl_resume_request_id c = cl_resume_request_id c' -> id = id'
}.

Lemma claims_evolve_refl db : claims_evolve db db.
Proof. intros id c Hc. exists c. split; [done|apply claim_evolves_refl]. Qed.

Lemma claims_evolve_trans db1 db2 db3 :
  claims_evolve db1 db2 -> claims_evolve db2 db3 -> claims_evolve db1 db3.
Proof.
  intros H1 H2 id c Hc. destruct (H1 _ _ Hc) as (c2 & Hc2 & E2).
  destruct (H2 _ _ Hc2) as (c3 & Hc3 & E3). exists c3. split; [done|]. by eapply claim_evolves_trans.
Qed.

Lemma field_identity c r f : claim_identity (apply_claim_field c r f) = claim_identity c.
Proof. by destruct c, f. Qed.

Lemma field_request c r f : cl_resume_request_id (apply_claim_field c r f) = cl_resume_request_id c.
Proof. by destruct c, f. Qed.

Lemma field_id c r f : cl_id (apply_claim_field c r f) = cl_id c.
Proof. by destruct c, f. Qed.

Lemma claim_write_evolves db db' : claim_write db db' -> claims_evolve db db'.
Proof.
  intros [-> |(id & c & f & Hc & Hf & ->)]; [apply claims_evolve_refl|].
  intros x d Hd. simpl. destruct (decide (x = id)) as [-> |Hne].
  - rw lookup_insert_eq. simplify_eq. eexists. split; [done|]. by apply apply_field_evolves.
  - rw lookup_insert_ne; [done|]. exists d. split; [done|apply claim_evolves_refl].
Qed.

Lemma claim_insert_evolves db db' : claim_insert db db' -> claims_evolve db db'.
Proof.
  intros (c & Hn & _ & ->) x d Hd. simpl. rw lookup_insert_ne; [congruence|].
  exists d. split; [done|apply claim_evolves_refl].
Qed.

Lemma claim_write_ok db db' : claim_write db db' -> claims_ok db -> claims_ok db'.
Proof.
  intros [-> |(id & c & f & Hc & _ & ->)] [Hk Hu]; [done|]. split; simpl.
  - intros x d. rw lookup_insert_Some. intros [[<- <-]|[_ Hd]]; [|by apply Hk].
    rw field_id. by apply Hk.
  - intros x y d d' Hd Hd'.
    apply lookup_insert_Some in Hd as [[<- <-]|[? Hd]];
    apply lookup_insert_Some in Hd' as [[<- <-]|[? Hd']]; rw ?field_request; eauto.
Qed.

Lemma request_unused db r : get_resume_claim_by_request_id db r = None ->
  forall id c, rd_claims db !! id = Some c -> cl_resume_request_id c <> r.
Proof.
  unfold get_resume_claim_by_request_id. intros H id c Hc Hr.
  destruct (List.filter _ _) as [|x l] eqn:E; [|done].
  assert (In c []) as []. rw -E. apply filter_In. split; [|by rw bool_decide_true].
  apply list_elem_of_In, list_elem_of_fmap. exists (id, c). split; [done|]. by apply elem_of_map_to_list.
Qed.

Lemma request_found db r c : get_resume_claim_by_request_id db r = Some c ->
  exists id, rd_claims db !! id = Some c /\ cl_resume_request_id c = r.
Proof.
  unfold get_resume_claim_by_request_id. intros H.
  destruct (List.filter _ _) as [|x l] eqn:E; [done|]. injection H as ->.
  assert (In c (List.filter (fun c => bool_decide (cl_resume_request_id c = r))
                  (map snd (map_to_list (rd_claims db))))) as Hin by (rw E; by left).
  apply filter_In in Hin as [Hin Hr]. breflect.
  apply list_elem_of_In, list_elem_of_fmap in Hin as ([id c'] & -> & Hin).
  apply elem_of_map_to_list in Hin. by exists id.
Qed.

Lemma claim_insert_ok db db' : claim_insert db db' -> claims_ok db -> claims_ok db'.
Proof.
  intros (c & Hn & Hr & ->) [Hk Hu]. pose proof (request_unused _ _ Hr) as Hf. split; simpl.
  - intros x d. rw lookup_insert_Some. intros [[<- <-]|[_ Hd]]; [done|by apply Hk].
  - intros x y d d' Hd Hd'.
    apply lookup_insert_Some in Hd as [[<- <-]|[? Hd]];
    apply lookup_insert_Some in Hd' as [[<- <-]|[? Hd']]; eauto.
    + intros E. by destruct (Hf _ _ Hd').
    + intros E. by destruct (Hf _ _ Hd).
Qed.

(** Every compare-and-set of the protocol is an allowed write. *)
Lemma cas_claim_write db id rev st f db' o :
  compare_and_set_resume_claim db id rev st f = Ok (db', o) ->
  (forall c, rd_claims db !! id = Some c -> cl_state c = st -> cl_revision c = rev ->
             write_allowed c f) ->
  claim_write db db'.
Proof.
  intros H Hf. destruct o as [c'|]; [|by left; eapply cas_claim_none].
  apply cas_claim_some in H as (c & Hc & Hr & Hs & -> & _ & ->). right.
  exists id, c, f. rw Hr. eauto.
Qed.

Lemma created_write db id rev f db' o :
  compare_and_set_resume_claim db id rev CLAIM_CREATED f = Ok (db', o) ->
  (forall m, f <> ToMetadata m) -> claim_write db db'.
Proof.
  intros H Hf. eapply cas_claim_write; [exact H|]. intros c _ Hs _. destruct f; try done.
  by destruct (Hf m).
Qed.

Lemma reject_task_resolved_write db c now db' o :
  reject_task_resolved db c now = (db', o) -> claim_write db db'.
Proof.
  unfold reject_task_resolved. destruct (compare_and_set_resume_claim _ _ _ _ _) as [[d [x|]]|] eqn:E;
    intros [= <- <-]; [by eapply created_write|by left..].
Qed.

Lemma create_in_uow_effect db i located fresh now db' o :
  create_in_uow db i located fresh now = (db', o) -> claim_write db db' \/ claim_insert db db'.
Proof.
  unfold create_in_uow. intros H. destruct (_ && _); [injection H as <- <-; by left; left|].
  destruct (existing_claim _ _); [injection H as <- <-; by left; left|].
  destruct (get_execution _ _) as [e|]; [|injection H as <- <-; by left; left].
  destruct (negb _); [injection H as <- <-; by left; left|].
  destruct (task_ended _).
  { destruct (get_resume_claim_by_request_id _ _);
      [left; by eapply reject_task_resolved_write|injection H as <- <-; by left; left]. }
  destruct (branch_closed _ _ _); [injection H as <- <-; by left; left|].
  destruct (get_resume_claim_by_request_id _ _) eqn:Er; [injection H as <- <-; by left; left|].
  unfold save_resume_claim in H. destruct (_ && _) eqn:Ec; [|injection H as <- <-; by left; left].
  injection H as <- <-. right. exists (new_claim fresh i). breflect. done.
Qed.

Lemma create_attempt_effect loc db i fresh now db' o :
  create_attempt loc db i fresh now = (db', o) -> claim_write db db' \/ claim_insert db db'.
Proof.
  unfold create_attempt. destruct (locate_intent loc i); [intros [= <- <-]; by left; left|].
  apply create_in_uow_effect.
Qed.

Lemma rebind_attempt_effect loc db id p rq now db' o :
  rebind_attempt loc db id p rq now = (db', o) -> claim_write db db'.
Proof.
  unfold rebind_attempt, rebind_in_uow. destruct (locate_rebind loc id p rq); [intros [= <- <-]; by left|].
  destruct (_ && _); [intros [= <- <-]; by left|]. destruct (rebindable _ _ _) as [|c]; [intros [= <- <-]; by left|].
  destruct (get_execution _ _) as [e|]; [|intros [= <- <-]; by left].
  destruct (negb _); [intros [= <- <-]; by left|].
  destruct (task_ended _); [apply reject_task_resolved_write|].
  destruct (_ && _); [intros [= <- <-]; by left|].
  destruct (compare_and_set_resume_claim _ _ _ _ _) as [[d [x|]]|] eqn:E;
    intros [= <- <-]; [by eapply created_write|by left..].
Qed.

Lemma handoff_attempt_effect db id h db' o : handoff_attempt db id h = (db', o) -> claim_write db db'.
Proof.
  unfold handoff_attempt. destruct (get_resume_claim db id) as [c|] eqn:Ec; [|intros [= <- <-]; by left].
  destruct (negb _); [intros [= <- <-]; by left|].
  destruct (dict_get handoff_key (cl_metadata c)) as [j|] eqn:Ed.
  - destruct j; try (destruct (same_json _ _); intros [= <- <-]; by left).
    destruct (compare_and_set_resume_claim _ _ _ _ _) as [[d [x|]]|] eqn:E;
      intros [= <- <-]; try by left.
    eapply cas_claim_write; [exact E|]. intros c' Hc' Hs _. unfold get_resume_claim in Ec.
    simplify_eq. split; [done|]. unfold handoff. by rw Ed.
  - destruct (compare_and_set_resume_claim _ _ _ _ _) as [[d [x|]]|] eqn:E;
      intros [= <- <-]; try by left.
    eapply cas_claim_write; [exact E|]. intros c' Hc' Hs _. unfold get_resume_claim in Ec.
    simplify_eq. split; [done|]. unfold handoff. by rw Ed.
Qed.

(** ** The write transactions of a consumption *)

Lemma staged_ok {A} (r : result TBError A) a : staged r = Ok a -> r = Ok a.
Proof. destruct r; naive_solver. Qed.

Lemma won_ok {A} lost (o : option A) a : won lost o = Ok a -> o = Some a.
Proof. destruct o; naive_solver. Qed.

Lemma cas_waiting_some db x rev ck wr vals db' e' :
  compare_and_set_waiting_execution db x rev ck wr vals = Ok (db', Some e') ->
  exists e, db_executions db !! x = Some e /\ e_revision e = rev /\ e_state e = "WAITING" /\
    e_current_checkpoint_id e = Some ck /\ e_wait_reason e = Some wr /\
    e' = set_exec_revision (apply_exec_values e vals) (rev + 1) /\
    db' = with_executions db (<[x := e']> (db_executions db)).
Proof.
  intros (e & He & Hw & -> & _ & ->)%update_execution_where_some. breflect. by exists e.
Qed.

Lemma reconcile_activity_frame a p t a' :
  reconcile_activity a p t = Ok a' ->
  db_executions a' = db_executions a /\ db_budgets a' = db_budgets a /\
  db_reservations a' = db_reservations a.
Proof.
  unfold reconcile_activity. destruct (pl_task_id p); [|naive_solver]. intros H.
  apply bind_ok in H as ([d r] & Hr & H). apply staged_ok in Hr.
  apply bind_ok in H as (t' & Ht & H). apply won_ok in Ht. simpl in *. subst r.
  injection H as <-. apply reconcile_frame in Hr. naive_solver.
Qed.

(** The capacity that was reacquired: one slot, under a reservation for this revision. *)
Definition capacity_charged (a a' : AgentDB) (p : ResumePlan) : Prop :=
  match pl_task_id p with
  | None => db_budgets a' = db_budgets a /\ db_reservations a' = db_reservations a
  | Some t =>
      exists r vals fp, db_budgets a !! t = Some r /\ tb_state (row_budget r) = OPEN /\
        mutate_resume (bool_decide (is_Some (pl_parent_execution_id p))) (row_budget r) = Ok vals /\
        let r' := apply_values r vals (row_revision r + 1) in
        let key := (t, RESUME_EXECUTION, revision_key (pl_execution_id p) (pl_expected_execution_revision p)) in
        row_checks r' = true /\ db_budgets a' = <[t := r']> (db_budgets a) /\
        db_reservations a !! key = None /\
        db_reservations a' = <[key := {| res_generation := row_generation r; res_fingerprint := fp |}]>
                               (db_reservations a)
  end.

Lemma mutate_resume_open d b vals : mutate_resume d b = Ok vals -> tb_state b = OPEN.
Proof.
  unfold mutate_resume, require_open. intros H. apply bind_ok in H as ([] & H & _).
  by destruct (tb_state b).
Qed.

Lemma stage_capacity_ok a p t a' t' :
  (pl_task_id p = None <-> t = None) -> stage_capacity a p t = Ok (a', t') ->
  db_executions a' = db_executions a /\ capacity_charged a a' p.
Proof.
  unfold stage_capacity, capacity_charged. intros Ht H. destruct (pl_task_id p) as [id|].
  - destruct t as [t|]; [|by destruct Ht as [_ Ht]; specialize (Ht eq_refl)].
    apply bind_ok in H as ([d o] & Hc & H). apply staged_ok, lift_store_ok in Hc.
    apply bind_ok in H as (t1 & Ho & H). apply won_ok in Ho. simpl in *. subst o.
    apply update_task_where_some in Hc as (t0 & Ht0 & _ & -> & _ & ->).
    apply bind_ok in H as ([d b] & Hp & H). apply staged_ok in Hp. injection H as <- <-.
    apply prepare_resume_ok in Hp as (r & vals & Hr & Hm & Hn & Hk & _ & fp & ->). simpl in *.
    split; [done|]. exists r, vals, fp. split_and!; try done. by eapply mutate_resume_open.
  - injection H as <- <-. done.
Qed.

(** The execution moved from WAITING to the next revision. *)
Definition execution_moved (a a' : AgentDB) (p : ResumePlan) (values : ExecValues) : Prop :=
  let rev := pl_expected_execution_revision p in
  exists e, db_executions a !! pl_execution_id p = Some e /\ e_revision e = rev /\
    e_state e = "WAITING" /\ e_current_checkpoint_id e = Some (pl_checkpoint_id p) /\
    e_wait_reason e = Some "CONNECTION"%string /\
    db_executions a' = <[pl_execution_id p := set_exec_revision (apply_exec_values e values) (rev + 1)]>
                         (db_executions a).

(** The claim was CREATED and is decided now. *)
Definition claim_decided (db db' : ResumeDB) (c : ResumeClaim) (f : ClaimField) : Prop :=
  exists c0, rd_claims db !! cl_id c = Some c0 /\ cl_state c0 = CLAIM_CREATED /\
    cl_revision c0 = cl_revision c /\
    rd_claims db' = <[cl_id c := apply_claim_field c0 (cl_revision c0 + 1) f]> (rd_claims db).

Lemma grant_ok db c p t now db' :
  (pl_task_id p = None <-> t = None) -> grant db c p t now = Ok db' ->
  execution_moved (rd_agents db) (rd_agents db') p (running_values p now) /\
  capacity_charged (rd_agents db) (rd_agents db') p /\
  claim_decided db db' c (ToConsumed now (pl_expected_execution_revision p + 1)).
Proof.
  intros Ht H. unfold grant in H. apply bind_ok in H as ([a1 t1] & Hs & H).
  apply stage_capacity_ok in Hs as [Hx1 Hc1]; [|done].
  apply bind_ok in H as ([a2 o] & Hw & H). apply staged_ok, lift_store_ok in Hw.
  apply bind_ok in H as (e' & Ho & H). apply won_ok in Ho. cbn [fst snd rd_agents rd_claims with_agents with_claims db_executions with_executions] in *. subst o.
  apply cas_waiting_some in Hw as (e & He & Hr & Hst & Hck & Hwr & -> & ->).
  apply bind_ok in H as (a3 & Ha & H). apply reconcile_activity_frame in Ha as (Hx & Hb & Hres).
  apply bind_ok in H as ([d q] & Hq & H). apply staged_ok, lift_store_ok in Hq.
  apply bind_ok in H as (c' & Ho & H). apply won_ok in Ho. cbn [fst snd rd_agents rd_claims with_agents with_claims db_executions with_executions] in *. subst q. injection H as <-.
  apply cas_claim_some in Hq as (c0 & Hc0 & Hrev & Hcs & -> & _ & ->). cbn [fst snd rd_agents rd_claims with_agents with_claims db_executions with_executions] in *.
  rw Hx1 in He. rw Hx1 in Hx. split_and!.
  - exists e. done.
  - unfold capacity_charged in *. by rw Hb Hres.
  - exists c0. by rw Hrev.
Qed.

Lemma expire_wait_ok db c p t now db' :
  expire_wait db c p t now = Ok db' ->
  execution_moved (rd_agents db) (rd_agents db') p (timeout_values p now) /\
  db_budgets (rd_agents db') = db_budgets (rd_agents db) /\
  db_reservations (rd_agents db') = db_reservations (rd_agents db) /\
  claim_decided db db' c (ToRejected "WAIT_EXPIRED" now).
Proof.
  intros H. unfold expire_wait in H.
  apply bind_ok in H as ([a2 o] & Hw & H). apply staged_ok, lift_store_ok in Hw.
  apply bind_ok in H as (e' & Ho & H). apply won_ok in Ho. cbn [fst snd rd_agents rd_claims with_agents with_claims db_executions with_executions] in *. subst o.
  apply cas_waiting_some in Hw as (e & He & Hr & Hst & Hck & Hwr & -> & ->).
  apply bind_ok in H as ([d q] & Hq & H). apply staged_ok, lift_store_ok in Hq.
  apply bind_ok in H as (c' & Ho & H). apply won_ok in Ho. cbn [fst snd rd_agents rd_claims with_agents with_claims db_executions with_executions] in *. subst q.
  apply cas_claim_some in Hq as (c0 & Hc0 & Hrev & Hcs & -> & _ & ->). cbn [fst snd rd_agents rd_claims with_agents with_claims db_executions with_executions] in *.
  apply bind_ok in H as (a3 & Ha & H). apply reconcile_activity_frame in Ha as (Hx & Hb & Hres).
  injection H as <-. cbn [fst snd rd_agents rd_claims with_agents with_claims db_executions with_executions] in *. split_and!; [|done|done|].
  - exists e. done.
  - exists c0. by rw Hrev.
Qed.

(** What a consumption did. *)
Inductive consume_effect (snapshot db : ResumeDB) (sp : ResumeClaimConsumeSpec)
    : ResumeDB -> Outcome ResumeClaimConsumeResult -> Prop :=
  | CeClaim db' o :
      claim_write db db' -> (forall r, o = Done r -> cr_already_consumed r = true) ->
      consume_effect snapshot db sp db' o
  | CeTimeout db' c t :
      expire_wait db c (sp_plan sp) t (sp_now sp) = Ok db' ->
      consume_effect snapshot db sp db' (Rejected "WAIT_EXPIRED")
  | CeGrant db' c e k t :
      consume_entry snapshot db sp = inr c ->
      check_authority snapshot db (sp_plan sp) = Ok (e, k, t) ->
      wait_expired e (sp_now sp) = false ->
      check_invocations snapshot (sp_plan sp) k = Ok tt ->
      grant db c (sp_plan sp) t (sp_now sp) = Ok db' ->
      consume_effect snapshot db sp db' (Done (granted c (sp_plan sp))).

Lemma reject_created_write db c code now db' o :
  reject_created_claim_in_uow db c code now = (db', o) ->
  claim_write db db' /\ forall r, o <> Done r.
Proof.
  unfold reject_created_claim_in_uow.
  destruct (compare_and_set_resume_claim _ _ _ _ _) as [[d [x|]]|] eqn:E;
    intros [= <- <-]; (split; [|done]); [by eapply created_write|by left..].
Qed.

Lemma expire_claim_write db c now db' o :
  expire_claim db c now = (db', o) -> claim_write db db' /\ forall r, o <> Done r.
Proof.
  unfold expire_claim.
  destruct (compare_and_set_resume_claim _ _ _ _ _) as [[d [x|]]|] eqn:E;
    intros [= <- <-]; (split; [|done]); [by eapply created_write|by left..].
Qed.

Lemma consume_entry_answer snapshot db sp db' o :
  consume_entry snapshot db sp = inl (db', o) ->
  claim_write db db' /\ forall r, o = Done r -> cr_already_consumed r = true.
Proof.
  unfold consume_entry. destruct (get_resume_claim _ _) as [c|]; [|intros [= <- <-]; split; [by left|done]].
  destruct (negb _); [intros [= <- <-]; split; [by left|done]|].
  destruct (negb (bool_decide (resume_plan_fingerprint _ = _))).
  { destruct (bool_decide _).
    - intros [= H]. apply reject_created_write in H as [? Hn]. split; [done|]. intros r ->. by destruct (Hn r).
    - intros [= <- <-]; split; [by left|done]. }
  destruct (cl_state c); try (intros [= <- <-]; split; [by left|done]).
  - destruct (negb _); [intros [= <- <-]; split; [by left|done]|].
    destruct (_ <=? _); [|done]. intros [= H]. apply expire_claim_write in H as [? Hn].
    split; [done|]. intros r ->. by destruct (Hn r).
  - intros [= <- <-]. split; [by left|]. destruct (cl_consumed_execution_revision c); [|done].
    by intros r [= <-].
Qed.

(** A write that is rolled back never answers with a result. *)
Lemma bind_err {E A B} (r : result E A) (k : A -> result E B) e :
  (r ≫= k) = Err e -> r = Err e \/ exists a, r = Ok a /\ k a = Err e.
Proof. destruct r; simpl; [naive_solver|]. intros [= ->]. by left. Qed.

Lemma staged_err {A} (r : result TBError A) o : staged r = Err o -> forall x, o <> Done x.
Proof. destruct r; naive_solver. Qed.

Lemma won_err {A} code (v : option A) o :
  won (Rejected code) v = Err o \/ won (Deferred code) v = Err o -> forall x, o <> Done x.
Proof. destruct v; naive_solver. Qed.

Ltac rolled_back H :=
  apply bind_err in H as [H|(? & _ & H)];
  [first [exact (staged_err _ _ H) | exact (won_err _ _ _ (or_introl H))
         | exact (won_err _ _ _ (or_intror H))]|].

Lemma reconcile_activity_err a p t o : reconcile_activity a p t = Err o -> forall x, o <> Done x.
Proof.
  unfold reconcile_activity. destruct (pl_task_id p); [|done]. intros H. do 2 rolled_back H. done.
Qed.

Lemma stage_capacity_err a p t o : stage_capacity a p t = Err o -> forall x, o <> Done x.
Proof.
  unfold stage_capacity. destruct (pl_task_id p), t; try done. intros H. do 3 rolled_back H. done.
Qed.

Lemma grant_err db c p t now o : grant db c p t now = Err o -> forall x, o <> Done x.
Proof.
  unfold grant. intros H. apply bind_err in H as [H|(? & _ & H)]; [by eapply stage_capacity_err|].
  do 2 rolled_back H. apply bind_err in H as [H|(? & _ & H)]; [by eapply reconcile_activity_err|].
  do 2 rolled_back H. done.
Qed.

Lemma expire_wait_err db c p t now o : expire_wait db c p t now = Err o -> forall x, o <> Done x.
Proof.
  unfold expire_wait. intros H. do 4 rolled_back H.
  apply bind_err in H as [H|(? & _ & H)]; [by eapply reconcile_activity_err|done].
Qed.

Lemma no_result_claim snapshot db sp db' o :
  claim_write db db' -> (forall r, o <> Done r) -> consume_effect snapshot db sp db' o.
Proof. intros Hw Hn. apply CeClaim; [done|]. intros r ->. by destruct (Hn r). Qed.

Lemma consume_once_effect snapshot db sp db' o :
  consume_resume_claim_once snapshot db sp = (db', o) -> consume_effect snapshot db sp db' o.
Proof.
  unfold consume_resume_claim_once. destruct (plan_args _); [intros [= <- <-]; by apply CeClaim; [left|]|].
  destruct (consume_entry _ _ _) as [[d o']|c] eqn:Ee.
  { intros [= <- <-]. apply consume_entry_answer in Ee as [? ?]. by apply CeClaim. }
  destruct (check_authority _ _ _) as [[[e k] t]|code] eqn:Ea.
  - destruct (wait_expired _ _) eqn:Ew.
    + destruct (expire_wait _ _ _ _ _) as [d|o'] eqn:Ex; intros [= <- <-]; [by eapply CeTimeout|].
      apply no_result_claim; [by left|by eapply expire_wait_err].
    + destruct (check_invocations _ _ _) as [[]|code] eqn:Ei.
      * destruct (grant _ _ _ _ _) as [d|o'] eqn:Eg; intros [= <- <-]; [by eapply CeGrant|].
        apply no_result_claim; [by left|by eapply grant_err].
      * intros H. apply reject_created_write in H as [? ?]. by apply no_result_claim.
  - intros H. apply reject_created_write in H as [? ?]. by apply no_result_claim.
Qed.

(** ** The protocol as a transition system *)

(** A grant: the execution and the revision it was waiting at. *)
Definition grant_of (o : Outcome ResumeClaimConsumeResult) : list (string * Z) :=
  match o with
  | Done r => if cr_already_consumed r then [] else [(cr_execution_id r, cr_source_execution_revision r)]
  | _ => []
  end.

Record Protocol := { pr_db : ResumeDB; pr_log : list (string * Z) }.

Definition execs_evolve (db db' : ResumeDB) : Prop :=
  forall x e, db_executions (rd_agents db) !! x = Some e ->
    exists e', db_executions (rd_agents db') !! x = Some e' /\ e_revision e <= e_revision e'.

(** Other transactions of the program: revisions of executions do not go back, and claims only
    move along their history. *)
Record other_ok (db db' : ResumeDB) : Prop := {
  ot_executions : execs_evolve db db';
  ot_claims : claims_evolve db db';
  ot_ok : claims_ok db -> claims_ok db'
}.

Inductive proto_step : Protocol -> Protocol -> Prop :=
  | PsCreate db log loc i fresh now db' o :
      create_attempt loc db i fresh now = (db', o) ->
      proto_step {| pr_db := db; pr_log := log |} {| pr_db := db'; pr_log := log |}
  | PsRebind db log loc id p rq now db' o :
      rebind_attempt loc db id p rq now = (db', o) ->
      proto_step {| pr_db := db; pr_log := log |} {| pr_db := db'; pr_log := log |}
  | PsHandoff db log id h db' o :
      handoff_attempt db id h = (db', o) ->
      proto_step {| pr_db := db; pr_log := log |} {| pr_db := db'; pr_log := log |}
  | PsConsume db log snapshot sp db' o :
      consume_resume_claim_once snapshot db sp = (db', o) ->
      proto_step {| pr_db := db; pr_log := log |} {| pr_db := db'; pr_log := log ++ grant_of o |}
  | PsOther db log db' :
      other_ok db db' ->
      proto_step {| pr_db := db; pr_log := log |} {| pr_db := db'; pr_log := log |}.

Lemma execs_evolve_same db db' :
  db_executions (rd_agents db') = db_executions (rd_agents db) -> execs_evolve db db'.
Proof. intros E x e He. exists e. rw E. split; [done|lia]. Qed.

Lemma claim_write_agents db db' : claim_write db db' -> rd_agents db' = rd_agents db.
Proof. by intros [-> |(? & ? & ? & _ & _ & ->)]. Qed.

Lemma moved_evolves db db' p values :
  execution_moved (rd_agents db) (rd_agents db') p values -> execs_evolve db db'.
Proof.
  intros (e & He & Hr & _ & _ & _ & Hx) x e0 He0. rw Hx.
  destruct (decide (x = pl_execution_id p)) as [-> |Hne].
  - rw lookup_insert_eq. simplify_eq. eexists. split; [done|]. destruct (apply_exec_values _ _). simpl. lia.
  - rw lookup_insert_ne; [done|]. exists e0. split; [done|lia].
Qed.

Lemma decided_write db db' c f :
  (forall m, f <> ToMetadata m) -> claim_decided db db' c f -> claims_evolve db db' /\ (claims_ok db -> claims_ok db').
Proof.
  intros Hf (c0 & Hc0 & Hs & _ & E).
  assert (W : claim_write db (with_claims db (rd_claims db'))).
  { right. exists (cl_id c), c0, f. split_and!; [done| |by rw E]. by destruct f; try done; destruct (Hf m). }
  split; [intros id c1 Hc1; by apply (claim_write_evolves _ _ W id c1 Hc1)|].
  intros Hok. apply (claim_write_ok _ _ W) in Hok as [Hk Hu]. by split.
Qed.

Lemma lock_task_iff db p t : lock_task db p = Ok t -> (pl_task_id p = None <-> t = None).
Proof.
  unfold lock_task. destruct (pl_task_id p); [|by intros [= <-]].
  destruct (get_task _ _); [|done]. intros H. do 4 apply guard_bind_ok in H as [_ H].
  by injection H as <-.
Qed.

Lemma check_authority_ok snapshot db p e k t :
  check_authority snapshot db p = Ok (e, k, t) -> lock_task db p = Ok t.
Proof.
  unfold check_authority. destruct (get_execution _ _); [|done]. intros H.
  do 3 apply guard_bind_ok in H as [_ H]. destruct (rd_checkpoints _ !! _); [|done].
  do 3 apply guard_bind_ok in H as [_ H]. apply bind_ok in H as (t' & Ht & H).
  by injection H as <- <- <-.
Qed.

Lemma consume_grant_ok snapshot db sp c e k t db' :
  check_authority snapshot db (sp_plan sp) = Ok (e, k, t) ->
  grant db c (sp_plan sp) t (sp_now sp) = Ok db' ->
  execution_moved (rd_agents db) (rd_agents db') (sp_plan sp) (running_values (sp_plan sp) (sp_now sp)) /\
  capacity_charged (rd_agents db) (rd_agents db') (sp_plan sp) /\
  claim_decided db db' c (ToConsumed (sp_now sp) (pl_expected_execution_revision (sp_plan sp) + 1)).
Proof. intros Ha Hg. eapply grant_ok; [|exact Hg]. by eapply lock_task_iff, check_authority_ok. Qed.

(** Every transaction of the protocol keeps the discipline it asks of the others. *)
Lemma write_other db db' : claim_write db db' -> other_ok db db'.
Proof.
  intros W. split; [|by apply claim_write_evolves|by apply claim_write_ok].
  apply execs_evolve_same. by rw (claim_write_agents _ _ W).
Qed.

Lemma insert_other db db' : claim_insert db db' -> other_ok db db'.
Proof.
  intros W. split; [|by apply claim_insert_evolves|by apply claim_insert_ok].
  apply execs_evolve_same. by destruct W as (c & _ & _ & ->).
Qed.

Lemma consume_other snapshot db sp db' o : consume_effect snapshot db sp db' o -> other_ok db db'.
Proof.
  intros [d o' W _|d c t Hx|d c e k t _ Ha _ _ Hg]; [by apply write_other| |].
  - apply expire_wait_ok in Hx as (Hm & _ & _ & Hd).
    apply decided_write in Hd as [? ?]; [|done]. split; [by eapply moved_evolves|done|done].
  - destruct (consume_grant_ok _ _ _ _ _ _ _ _ Ha Hg) as (Hm & _ & Hd).
    apply decided_write in Hd as [? ?]; [|done]. split; [by eapply moved_evolves|done|done].
Qed.

Lemma proto_other s s' : proto_step s s' -> other_ok (pr_db s) (pr_db s').
Proof.
  intros [? ? ? ? ? ? ? ? H|? ? ? ? ? ? ? ? ? H|? ? ? ? ? ? H|? ? ? ? ? ? H|]; simpl; [| | | |done].
  - apply create_attempt_effect in H as [?|?]; [by apply write_other|by apply insert_other].
  - by eapply write_other, rebind_attempt_effect.
  - by eapply write_other, handoff_attempt_effect.
  - by eapply consume_other, consume_once_effect.
Qed.

(** ** Invariants of the protocol *)

(** Every grant is for a revision the execution has left. *)
Definition log_spent (s : Protocol) : Prop :=
  NoDup (pr_log s) /\
  forall x r, (x, r) ∈ pr_log s ->
    exists e, db_executions (rd_agents (pr_db s)) !! x = Some e /\ r < e_revision e.

Lemma spent_evolves db db' log :
  execs_evolve db db' -> log_spent {| pr_db := db; pr_log := log |} ->
  log_spent {| pr_db := db'; pr_log := log |}.
Proof.
  intros He [Hn Hs]. split; [done|]. intros x r Hin. apply Hs in Hin as (e & Hx & Hr). simpl in *.
  destruct (He _ _ Hx) as (e' & He' & Hle). exists e'. split; [done|lia].
Qed.

Lemma spent_step s s' : proto_step s s' -> log_spent s -> log_spent s'.
Proof.
  intros Hs. pose proof (proto_other _ _ Hs) as [Hev _ _].
  destruct Hs as [db log ? ? ? ? db' o H|db log ? ? ? ? ? db' o H|db log ? ? db' o H
    |db log snapshot sp db' o H|db log db' _]; simpl in Hev;
    try (intros HI; exact (spent_evolves db db' log Hev HI)).
  intros HI. apply consume_once_effect in H. pose proof (spent_evolves _ _ _ Hev HI) as [Hn Hp].
  destruct HI as [_ Hold].
  destruct H as [d o W Hr|d c t Hx|d c e k t _ Ha _ _ Hg].
  - destruct o as [r|?|?|?|]; simpl; rw ?app_nil_r; try done. rw (Hr r eq_refl) app_nil_r. done.
  - simpl. by rw app_nil_r.
  - apply (consume_grant_ok _ _ _ _ _ _ _ _ Ha) in Hg as (Hm & _ & _).
    destruct Hm as (e0 & He0 & Hrev & _ & _ & _ & E). simpl. split; simpl.
    + apply NoDup_app. split_and!; [done| |apply NoDup_singleton].
      intros [x r] Hin Heq%list_elem_of_singleton. injection Heq as -> ->.
      apply Hold in Hin as (e1 & He1 & Hlt). simpl in He1. simplify_eq. lia.
    + intros x r [Hin|Heq%list_elem_of_singleton]%elem_of_app; [by apply Hp|].
      injection Heq as -> ->. rw E lookup_insert_eq. eexists. split; [done|].
      destruct (apply_exec_values _ _). simpl. lia.
Qed.

Lemma rtc_other s s' : rtc proto_step s s' -> other_ok (pr_db s) (pr_db s').
Proof.
  induction 1 as [s|s1 s2 s3 Hs _ IH].
  - split; [by apply execs_evolve_same|apply claims_evolve_refl|done].
  - apply proto_other in Hs as [E1 C1 O1]. destruct IH as [E2 C2 O2]. split; [|by eapply claims_evolve_trans|auto].
    intros x e He. destruct (E1 _ _ He) as (e2 & He2 & ?). destruct (E2 _ _ He2) as (e3 & He3 & ?).
    exists e3. split; [done|lia].
Qed.

(** What a loop answers is what one of its attempts did. *)
Lemma consume_loop_done n env db sp db' r :
  consume_loop n env db sp = (db', Done r) ->
  exists k, (1 <= k <= n)%nat /\
    consume_resume_claim_once (xe_snapshot (env k)) (xe_db (env k)) sp = (db', Done r).
Proof.
  revert db. induction n as [|n IH]; intros db; simpl; [done|].
  assert (Hrec : forall d, consume_loop n env d sp = (db', Done r) -> exists k, (1 <= k <= S n)%nat /\
    consume_resume_claim_once (xe_snapshot (env k)) (xe_db (env k)) sp = (db', Done r)).
  { intros d Hd. apply IH in Hd as (k & ? & ?). exists k. split; [lia|done]. }
  destruct (xe_fault (env (S n))) as [[]|]; [by apply Hrec|done|].
  destruct (consume_resume_claim_once _ _ _) as [d o] eqn:E.
  destruct o as [r'|?|?|[]|]; try done; try by apply Hrec.
  - intros [= <- <-]. exists (S n). split; [lia|done].
  - destruct e; try done. by apply Hrec.
Qed.

(** The condition under which a resumed execution may go on with an invocation. *)
Definition action_safe (db : ResumeDB) (p : ResumePlan) (a : ResumeInvocationAction) : Prop :=
  exists i, rd_invocations db !! ac_invocation_id a = Some i /\
    iv_revision i = ac_expected_revision a /\ iv_execution_id i = Some (pl_execution_id p) /\
    d_owner_user_id (iv_details i) = Some (pl_target_user_id p) /\
    d_origin_client_id (iv_details i) = pl_target_client_id p /\
    match ac_action a with
    | REUSE_COMMITTED =>
        terminal_invocation (iv_state i) = true /\ iv_remote_outcome i = Some TERMINAL_COMMITTED /\
        exists r, rd_tool_results db !! (pl_execution_id p, ac_tool_call_id a) = Some r /\
          rs_commit_state r = COMMITTED_RESULT /\ rs_invocation_id r = ac_invocation_id a
    | DISPATCH_NOT_DISPATCHED =>
        iv_state i = WAITING /\ iv_remote_outcome i = Some NOT_DISPATCHED
    | REPLAY_SAFE =>
        iv_state i = WAITING /\
        (d_idempotency (iv_details i) = IDEMPOTENT \/ d_idempotency (iv_details i) = DEDUPLICATED)
    end.

Lemma permitted_safe db p a i :
  rd_invocations db !! ac_invocation_id a = Some i ->
  invocation_matches i a p = true -> action_permitted db p a i = true -> action_safe db p a.
Proof.
  intros Hi Hm Ha. unfold invocation_matches in Hm. breflect. exists i. split_and!; try done.
  unfold action_permitted in Ha. destruct (ac_action a).
  - destruct (rd_tool_results db !! _) as [r|] eqn:Er; [|breflect; discriminate]. breflect. eauto 10.
  - by breflect.
  - breflect. split; [done|]. unfold safe_replay in *. destruct (d_idempotency _); auto; discriminate.
Qed.

Lemma check_actions_ok db p pending actions :
  check_actions db p pending actions = Ok tt -> Forall (action_safe db p) actions.
Proof.
  induction actions as [|a rest IH]; simpl; [constructor|]. intros H.
  do 2 apply guard_bind_ok in H as [? H]. constructor; [|by apply IH].
  destruct (rd_invocations db !! ac_invocation_id a) as [i|] eqn:Ei; [|done]. breflect.
  by eapply permitted_safe.
Qed.

Lemma check_invocations_ok db p k :
  check_invocations db p k = Ok tt ->
  Forall (action_safe db p) (pl_actions p) /\
  Forall (fun call => covered db p call = true) (pl_ordered_tool_call_ids p).
Proof.
  unfold check_invocations. intros H. do 4 apply guard_bind_ok in H as [? H].
  split; [by eapply check_actions_ok|]. by apply Forall_forall, elem_of_forallb.
Qed.

Lemma consume_entry_claim snapshot db sp c :
  consume_entry snapshot db sp = inr c ->
  get_resume_claim snapshot (sp_claim_id sp) = Some c /\ claim_matches_plan c sp = true /\
  resume_plan_fingerprint (sp_plan sp) = pl_plan_fingerprint (sp_plan sp) /\
  cl_revision c = sp_expected_claim_revision sp /\ sp_now sp < cl_expires_at c.
Proof.
  unfold consume_entry. destruct (get_resume_claim _ _) as [d|]; [|done].
  destruct (claim_matches_plan d sp) eqn:Em; [|done].
  destruct (bool_decide (resume_plan_fingerprint _ = _)) eqn:Ef; simpl;
    [|by destruct (bool_decide _)].
  destruct (cl_state d); try done.
  destruct (_ =? _) eqn:Er; [|done]. simpl. destruct (_ <=? _) eqn:Ee; [done|]. intros [= <-]. by breflect.
Qed.

(** ** The theorems *)

(** C22 resume_granted_once: in every interleaving of claim creation, rebinding, handoff,
    consumption with arbitrary (stale) snapshots, and other transactions that never take the
    revision of an execution back, authority to resume an execution at a given revision is
    granted at most once, and only for revisions the execution has left. *)
Theorem resume_granted_once s s' :
  rtc proto_step s s' -> pr_log s = [] ->
  NoDup (pr_log s') /\
  forall x r, (x, r) ∈ pr_log s' ->
    exists e, db_executions (rd_agents (pr_db s')) !! x = Some e /\ r < e_revision e.
Proof.
  intros Hs Hl. apply (rtc_invariant proto_step log_spent s s'); [|split|done].
  - intros a b HI Hab. by eapply spent_step.
  - rw Hl. constructor.
  - intros x r. rw Hl. by intros ?%not_elem_of_nil.
Qed.

(** C23 resume_grant_exact: when consume_resume_claim grants authority, then in the transaction
    of one of its attempts the execution was WAITING on CONNECTION at the plan's revision and
    checkpoint and became RUNNING at the next revision, the task's budget was open and gave
    one slot under a reservation that did not exist before, and the CREATED claim of this
    request, which matches the plan and has not expired, became CONSUMED; every action of the
    plan is safe for the invocation rows it was checked against, and every other tool call of
    the batch has a committed result. *)
Theorem resume_grant_exact env db0 sp db' r :
  (forall k, claims_ok (xe_snapshot (env k))) ->
  consume_resume_claim env db0 sp = (db', Done r) -> cr_already_consumed r = false ->
  exists k c, (1 <= k <= 8)%nat /\
    let db := xe_db (env k) in
    let p := sp_plan sp in
    execution_moved (rd_agents db) (rd_agents db') p (running_values p (sp_now sp)) /\
    capacity_charged (rd_agents db) (rd_agents db') p /\
    claim_decided db db' c (ToConsumed (sp_now sp) (pl_expected_execution_revision p + 1)) /\
    cl_id c = sp_claim_id sp /\ claim_matches_plan c sp = true /\ sp_now sp < cl_expires_at c /\
    Forall (action_safe (xe_snapshot (env k)) p) (pl_actions p) /\
    Forall (fun call => covered (xe_snapshot (env k)) p call = true) (pl_ordered_tool_call_ids p).
Proof.
  intros Hok H Hr. apply consume_loop_done in H as (k & Hk & H). apply consume_once_effect in H.
  inversion H as [? ? W Hd|? ? ? Hx|? c e ck t Hc Ha _ Hi Hg]; subst; [by rw Hd in Hr|].
  exists k, c. destruct (consume_grant_ok _ _ _ _ _ _ _ _ Ha Hg) as (? & ? & ?).
  apply consume_entry_claim in Hc as (Hc & ? & _ & _ & ?). apply check_invocations_ok in Hi as [? ?].
  split; [lia|]. cbv zeta. split_and!; try done. by eapply (co_keyed _ (Hok k)).
Qed.

(** [decided_claims_final]: whatever happens after, a claim keeps its subject, owner and
    deadline, and once it is consumed, rejected or expired it keeps that decision, with its
    plan and connection; a recorded handoff is never replaced. *)
Theorem decided_claims_final s s' id c :
  rtc proto_step s s' -> rd_claims (pr_db s) !! id = Some c ->
  exists c', rd_claims (pr_db s') !! id = Some c' /\ claim_evolves c c'.
Proof. intros Hs. apply (rtc_other _ _ Hs). Qed.

Lemma create_done_stored loc db i fresh now db' c :
  create_in_uow db i loc fresh now = (db', Done c) ->
  exists id, rd_claims db' !! id = Some c /\ cl_resume_request_id c = in_resume_request_id i.
Proof.
  unfold create_in_uow. destruct (_ && _); [done|].
  destruct (existing_claim _ _) as [o|] eqn:Ex.
  - intros [= <- ->]. unfold existing_claim in Ex.
    destruct (get_resume_claim_by_request_id _ _) as [d|] eqn:Er; [|done].
    destruct (negb _); [done|]. destruct (negb _); [|done]. injection Ex as ->. by apply request_found.
  - destruct (get_execution _ _) as [e|]; [|done]. destruct (negb _); [done|].
    destruct (task_ended _).
    { destruct (get_resume_claim_by_request_id _ _); [|done]. unfold reject_task_resolved.
      by destruct (compare_and_set_resume_claim _ _ _ _ _) as [[? []]|]. }
    destruct (branch_closed _ _ _); [done|].
    destruct (get_resume_claim_by_request_id _ _) as [d|] eqn:Er.
    + intros [= <- ->]. by apply request_found.
    + unfold save_resume_claim. destruct (_ && _); [|done]. intros [= <- <-]. simpl.
      exists fresh. by rw lookup_insert_eq.
Qed.

(** [one_claim_per_request]: two calls with the same request id that return a claim, however
    far apart and with whatever transactions in between, return the same claim: a retried
    request does not make a second one and does not extend the deadline. *)
Theorem one_claim_per_request db log s' i i' fresh fresh' now now' loc loc' db1 c1 db2 c2 :
  claims_ok db -> in_resume_request_id i = in_resume_request_id i' ->
  create_in_uow db i loc fresh now = (db1, Done c1) ->
  rtc proto_step {| pr_db := db1; pr_log := log |} s' ->
  create_in_uow (pr_db s') i' loc' fresh' now' = (db2, Done c2) ->
  claim_identity c2 = claim_identity c1.
Proof.
  intros Hok Hi H1 Hs H2. pose proof (create_done_stored _ _ _ _ _ _ _ H1) as (id1 & Hc1 & Hr1).
  pose proof (create_done_stored _ _ _ _ _ _ _ H2) as (id2 & Hc2 & Hr2).
  assert (claims_ok db1) as Hok1.
  { apply create_in_uow_effect in H1 as [W|W]; [by eapply claim_write_ok|by eapply claim_insert_ok]. }
  apply rtc_other in Hs as [_ Hev Hk]. specialize (Hk Hok1). simpl in Hev.
  assert (other_ok (pr_db s') db2) as [_ Hev2 Hk2].
  { apply create_in_uow_effect in H2 as [W|W]; [by apply write_other|by apply insert_other]. }
  destruct (Hev _ _ Hc1) as (c & Hc & E1). destruct (Hev2 _ _ Hc) as (c' & Hc' & E2).
  pose proof (ev_identity _ _ E1) as I1. pose proof (ev_identity _ _ E2) as I2.
  assert (id1 = id2) as ->.
  { eapply (co_unique _ (Hk2 Hk)); [exact Hc'|exact Hc2|]. rw Hr2 -Hi -Hr1.
    apply (f_equal (fun x => snd (fst x))) in I1, I2. simpl in *. congruence. }
  rw Hc2 in Hc'. injection Hc' as <-. by rw I2 I1.
Qed.

(** [refused_consumption_harmless]: a consumption that does not grant authority changes no
    task, budget, reservation, branch or execution, and at most the claim, except that a
    waiting execution whose deadline has passed is moved to TIMEOUT at the next revision,
    without touching budgets, and the claim is rejected with it. *)
Theorem refused_consumption_harmless snapshot db sp db' o :
  consume_resume_claim_once snapshot db sp = (db', o) -> grant_of o = [] ->
  (claim_write db db' /\ rd_agents db' = rd_agents db) \/
  (o = Rejected "WAIT_EXPIRED" /\
   execution_moved (rd_agents db) (rd_agents db') (sp_plan sp) (timeout_values (sp_plan sp) (sp_now sp)) /\
   db_budgets (rd_agents db') = db_budgets (rd_agents db) /\
   db_reservations (rd_agents db') = db_reservations (rd_agents db) /\
   exists c, claim_decided db db' c (ToRejected "WAIT_EXPIRED" (sp_now sp))).
Proof.
  intros H Hg. apply consume_once_effect in H. revert Hg.
  destruct H as [d o' W _|d c t Hx|d c e k t _ _ _ _ _]; intros Hg; [| |discriminate Hg].
  - left. split; [done|by apply claim_write_agents].
  - right. apply expire_wait_ok in Hx as (? & ? & ? & ?). eauto 10.
Qed.

(** ** A run *)

Definition waiting_execution : ExecutionRow := {|
  e_id := "e1"; e_agent_id := "agent"; e_task_id := Some "t"; e_branch_id := None;
  e_parent_execution_id := None; e_state := "WAITING"; e_wait_reason := Some "CONNECTION";
  e_revision := 4; e_owner_instance_id := None; e_lease_expires_at := None;
  e_lease_generation := 0; e_current_checkpoint_id := Some "k"; e_wait_expires_at := Some 100;
  e_completed_at := None; e_error := None; e_payload := JObj [("session_id", JStr "s")] |}.

Definition owned_task : TaskRow := {|
  t_id := "t"; t_status := "RUNNING"; t_wait_reasons := []; t_revision := 0;
  t_parent_task_id := None; t_task_horizon_at := None; t_review_horizon_at := None;
  t_payload := JObj [("session_id", JStr "s"); ("created_by", JStr "user")] |}.

Definition waiting_checkpoint : DurableExecutionCheckpoint := {|
  ck_id := "k"; ck_execution_id := "e1"; ck_execution_revision := 4; ck_session_id := "s";
  ck_iteration := 0; ck_wait_reason := "CONNECTION"; ck_task_id := Some "t"; ck_branch_id := None;
  ck_remaining := Some (Finite 50); ck_wait_expires_at := Some 100;
  ck_origin_client_id := Some "client"; ck_origin_connection_id := Some "K1";
  ck_transcript := []; ck_trace_id := None; ck_request_id := None |}.

Definition pending_call : CheckpointPendingInvocation := {|
  pd_ordinal := 0; pd_invocation_id := "inv"; pd_invocation_revision := 3; pd_tool_call_id := "call";
  pd_capability_id := "cap"; pd_capability_version := Some "1"; pd_request_fingerprint := Some "fp";
  pd_idempotency := IDEMPOTENT; pd_observed := Some IN_FLIGHT;
  pd_origin_client_id := Some "client"; pd_origin_connection_id := Some "K1" |}.

Definition parked_invocation : CapabilityInvocation := {|
  iv_id := "inv"; iv_capability_id := "cap"; iv_target := None; iv_execution_id := Some "e1";
  iv_tool_call_id := Some "call";
  iv_details := {| d_capability_version := Some "1"; d_request_fingerprint := Some "fp";
                   d_idempotency := IDEMPOTENT; d_owner_user_id := Some "user";
                   d_origin_client_id := Some "client"; d_rest := JNull |};
  iv_implementation_id := None; iv_driver_kind := None; iv_connection_id := Some "K1";
  iv_state := WAITING; iv_wait_reason := Some WAIT_CONNECTION;
  iv_remote_outcome := Some OUTCOME_UNKNOWN; iv_attempt := 1; iv_max_attempts := 1;
  iv_output := JNull; iv_error := None; iv_started_at := None; iv_updated_at := 0;
  iv_completed_at := None; iv_revision := 4 |}.

Definition replay_action : ResumeInvocationAction := {|
  ac_invocation_id := "inv"; ac_tool_call_id := "call"; ac_ordinal := 0; ac_capability_id := "cap";
  ac_capability_version := "1"; ac_request_fingerprint := "fp"; ac_idempotency := IDEMPOTENT;
  ac_expected_revision := 4; ac_expected_state := WAITING;
  ac_expected_outcome := Some OUTCOME_UNKNOWN; ac_action := REPLAY_SAFE |}.

Definition demo_plan_at (fingerprint : string) : ResumePlan := {|
  pl_execution_id := "e1"; pl_checkpoint_id := "k"; pl_expected_execution_revision := 4;
  pl_plan_fingerprint := fingerprint; pl_agent_id := "agent"; pl_session_id := "s";
  pl_task_id := Some "t"; pl_branch_id := None; pl_parent_execution_id := None;
  pl_retry_of_execution_id := None; pl_base_execution_id := None; pl_base_checkpoint_id := None;
  pl_correlation_id := None; pl_trace_id := None; pl_request_id := None; pl_iteration := 0;
  pl_ordered_tool_call_ids := ["call"]; pl_transcript_snapshot := []; pl_remaining := 50;
  pl_wait_expires_at := Some 100; pl_target_user_id := "user"; pl_target_client_id := Some "client";
  pl_target_connection_id := Some "K2"; pl_actions := [replay_action] |}.

Definition demo_fingerprint : string := Eval vm_compute in resume_plan_fingerprint (demo_plan_at "").
Definition demo_plan : ResumePlan := demo_plan_at demo_fingerprint.

Definition demo_intent : ResumeClaimIntent := {|
  in_resume_request_id := "rq"; in_execution_id := "e1"; in_checkpoint_id := "k";
  in_expected_execution_revision := 4; in_plan_fingerprint := pl_plan_fingerprint demo_plan;
  in_user_id := "user"; in_wait_reason := "CONNECTION"; in_trigger_type := CLIENT_RECONNECT;
  in_claim_expires_at := 60; in_client_id := Some "client"; in_connection_id := Some "K2";
  in_metadata := [] |}.

Definition resume_db : ResumeDB := {|
  rd_agents := {| db_tasks := {["t" := owned_task]}; db_budgets := {["t" := idle_row]};
                  db_reservations := ∅; db_executions := {["e1" := waiting_execution]};
                  db_branches := ∅; db_allocator := None; db_bindings := ∅ |};
  rd_claims := ∅; rd_checkpoints := {["k" := waiting_checkpoint]};
  rd_pending := {["k" := [pending_call]]}; rd_iterations := {[("e1", 0) := ["call"]]};
  rd_tool_calls := ∅; rd_tool_results := ∅;
  rd_store := Sql.put (Sql.empty true) parked_invocation |}.

Definition claim_created := create_in_uow resume_db demo_intent (Some "t") "claim" 1.
Definition claimed_db : ResumeDB := claim_created.1.

Definition demo_spec : ResumeClaimConsumeSpec := {|
  sp_plan := demo_plan; sp_claim_id := "claim"; sp_resume_request_id := "rq";
  sp_expected_claim_revision := 0; sp_now := 10 |}.

(** The claim is consumed, and consumed again by a server whose snapshot is stale. *)
Definition consumed := consume_resume_claim_once claimed_db claimed_db demo_spec.
Definition consumed_late := consume_resume_claim_once claimed_db consumed.1 demo_spec.

Definition demo_start : Protocol := {| pr_db := resume_db; pr_log := [] |}.
Definition demo_claimed : Protocol := {| pr_db := claimed_db; pr_log := [] |}.
Definition demo_end : Protocol :=
  {| pr_db := consumed_late.1; pr_log := ([] ++ grant_of consumed.2) ++ grant_of consumed_late.2 |}.

Lemma claimed_run : proto_step demo_start demo_claimed.
Proof.
  apply (PsCreate resume_db [] resume_db demo_intent "claim" 1 claimed_db claim_created.2).
  apply surjective_pairing.
Qed.

Lemma demo_run : rtc proto_step demo_claimed demo_end.
Proof.
  refine (rtc_l _ _ _ _ _ (rtc_l _ _ _ _ _ (rtc_refl _ _))).
  - exact (PsConsume claimed_db [] claimed_db demo_spec consumed.1 consumed.2 (surjective_pairing _)).
  - exact (PsConsume consumed.1 ([] ++ grant_of consumed.2) claimed_db demo_spec consumed_late.1
             consumed_late.2 (surjective_pairing _)).
Qed.

Lemma resume_db_ok : claims_ok resume_db.
Proof. split; intros *; by rw lookup_empty. Qed.

Lemma claimed_db_ok : claims_ok claimed_db.
Proof. by apply (proto_other _ _ claimed_run), resume_db_ok. Qed.

Lemma resume_granted_once_witness :
  NoDup (pr_log demo_end) /\ pr_log demo_end = [("e1"%string, 4)].
Proof.
  split; [|vm_compute; reflexivity].
  exact (proj1 (resume_granted_once demo_start demo_end (rtc_l _ _ _ _ claimed_run demo_run) eq_refl)).
Defined.

(** The fifth attempt gets through; the ones before it meet a busy database. *)
Definition busy_env (k : nat) : ConsumeEnv :=
  {| xe_fault := if (k <=? 4)%nat then None else Some LockedOrBusy;
     xe_snapshot := claimed_db; xe_db := claimed_db |}.

Lemma busy_env_grants :
  (consume_resume_claim busy_env claimed_db demo_spec).2 = Done (granted (new_claim "claim" demo_intent) demo_plan).
Proof. vm_compute. reflexivity. Qed.

Lemma resume_grant_exact_witness :
  exists db' k, (1 <= k <= 8)%nat /\
    execution_moved (rd_agents (xe_db (busy_env k))) (rd_agents db') demo_plan (running_values demo_plan 10) /\
    Forall (action_safe (xe_snapshot (busy_env k)) demo_plan) (pl_actions demo_plan).
Proof.
  destruct (resume_grant_exact busy_env claimed_db demo_spec
              (consume_resume_claim busy_env claimed_db demo_spec).1
              (granted (new_claim "claim" demo_intent) demo_plan)) as (k & c & Hk & Hm & _ & _ & _ & _ & _ & Ha & _).
  - intros k. exact claimed_db_ok.
  - rw -busy_env_grants. apply surjective_pairing.
  - reflexivity.
  - exists (consume_resume_claim busy_env claimed_db demo_spec).1, k. split_and!; [lia..|exact Hm|exact Ha].
Defined.

Lemma decided_claims_final_witness :
  exists c', rd_claims (pr_db demo_end) !! "claim"%string = Some c' /\
             claim_evolves (new_claim "claim" demo_intent) c'.
Proof.
  apply (decided_claims_final demo_claimed demo_end "claim" (new_claim "claim" demo_intent)).
  - exact demo_run.
  - vm_compute. reflexivity.
Defined.

Lemma one_claim_per_request_witness :
  exists db2 c2, create_in_uow (pr_db demo_claimed) demo_intent (Some "t") "claim2" 50 = (db2, Done c2) /\
    claim_identity c2 = claim_identity (new_claim "claim" demo_intent).
Proof.
  assert (exists c2, (create_in_uow (pr_db demo_claimed) demo_intent (Some "t") "claim2" 50).2 = Done c2) as [c2 Hc2]
    by (eexists; vm_compute; reflexivity).
  exists (create_in_uow (pr_db demo_claimed) demo_intent (Some "t") "claim2" 50).1, c2.
  assert (create_in_uow (pr_db demo_claimed) demo_intent (Some "t") "claim2" 50 =
          ((create_in_uow (pr_db demo_claimed) demo_intent (Some "t") "claim2" 50).1, Done c2)) as E
    by (rw -Hc2; apply surjective_pairing).
  split; [exact E|].
  apply (one_claim_per_request resume_db [] demo_claimed demo_intent demo_intent "claim" "claim2" 1 50
           (Some "t") (Some "t") claimed_db (new_claim "claim" demo_intent)
           (create_in_uow (pr_db demo_claimed) demo_intent (Some "t") "claim2" 50).1 c2 resume_db_ok eq_refl).
  - assert (claim_created.2 = Done (new_claim "claim" demo_intent)) as <- by (vm_compute; reflexivity).
    apply surjective_pairing.
  - apply rtc_refl.
  - exact E.
Defined.

(** A claim whose plan is for an older revision is rejected. *)
Definition stale_db : ResumeDB :=
  with_agents claimed_db (with_executions (rd_agents claimed_db)
    {["e1" := set_exec_revision waiting_execution 5]}).

Lemma refused_consumption_harmless_witness :
  exists db', consume_resume_claim_once stale_db stale_db demo_spec = (db', Rejected "RESUME_CONFLICT") /\
    rd_agents db' = rd_agents stale_db.
Proof.
  assert (consume_resume_claim_once stale_db stale_db demo_spec =
    ((consume_resume_claim_once stale_db stale_db demo_spec).1, Rejected "RESUME_CONFLICT")) as E.
  { assert ((consume_resume_claim_once stale_db stale_db demo_spec).2 = Rejected "RESUME_CONFLICT") as <-
      by (vm_compute; reflexivity). apply surjective_pairing. }
  eexists. split; [exact E|].
  destruct (refused_consumption_harmless _ _ _ _ _ E eq_refl) as [[_ H]|[H _]]; [exact H|discriminate H].
Defined.
