(* ===== verification/Reconciliation.v ===== *)
(** * Reconciliation of a remote invocation
    (src/se/src/runtimes/capability/reconciliation.py and contracts/reconciliation.py)

    The server asks the client that ran an invocation what became of it, and commits the
    answer.  The store is any [InvocationStore]; the connections are the lifecycle registry of
    the file ConnectionRegistry; the client's answer is an argument, and [later] is what other
    transactions did to the store while the server waited for it. *)

From S2P Require Import Prelude Canonical Invocation InvocationStores ConnectionRegistry.
From S2P Require Import InvocationProperties.

Inductive RemoteReconciliationStatus := REC_RUNNING | REC_TERMINAL | REC_UNKNOWN | REC_NOT_FOUND | REC_CONFLICT.

#[global] Instance RemoteReconciliationStatus_eq_dec : EqDecision RemoteReconciliationStatus.
Proof. solve_decision. Defined.

Inductive RemoteTerminalType := T_RESULT | T_ERROR | T_CANCELLED.

Record RemoteReconciliationResult := {
  rr_invocation_id : string;
  rr_status : RemoteReconciliationStatus;
  rr_capability_id : string;
  rr_capability_version : string;
  rr_request_fingerprint : string;
  rr_terminal_type : option RemoteTerminalType;
  rr_terminal_payload : option (list (string * json))
}.

(** How a call ends: a result, a CapabilityError with its code, a lost connection or a timeout,
    or another exception. *)
Inductive ReconcileOutcome :=
  | Reconciled (r : RemoteReconciliationResult)
  | CapabilityErr (code : string)
  | Unreachable
  | Failed (what : string).

(** What the client sent: its payload, or no answer. *)
Inductive RemoteAnswer := Answered (r : RemoteReconciliationResult) | NoAnswer.

Definition text_of (o : option string) : string := default "" o.

(** The client that a connection belongs to. *)
Definition connection_client (c : ConnectionSnapshot) : string :=
  text_column (JObj (cs_metadata c)) "client_id".

(** Fields without which the client cannot be asked. *)
Definition reconciliation_snapshot (i : CapabilityInvocation) : bool :=
  let d := iv_details i in
  truthy (text_of (d_capability_version d)) && truthy (text_of (d_request_fingerprint d)) &&
  truthy (text_of (d_owner_user_id d)) && truthy (text_of (d_origin_client_id d)).

Definition response_identity (i : CapabilityInvocation) (r : RemoteReconciliationResult) : bool :=
  let d := iv_details i in
  bool_decide (rr_capability_id r = iv_capability_id i) &&
  bool_decide (Some (rr_capability_version r) = d_capability_version d) &&
  bool_decide (Some (rr_request_fingerprint r) = d_request_fingerprint d).

Definition error_fields (e : option json) : list (string * json) :=
  match e with Some j => json_fields j | None => [] end.

(** [_local_terminal]: the answer is already durable. *)
Definition local_terminal (i : CapabilityInvocation) : option RemoteReconciliationResult :=
  let d := iv_details i in
  let answer t payload :=
    Some {| rr_invocation_id := iv_id i; rr_status := REC_TERMINAL;
            rr_capability_id := iv_capability_id i;
            rr_capability_version := text_of (d_capability_version d);
            rr_request_fingerprint := text_of (d_request_fingerprint d);
            rr_terminal_type := Some t; rr_terminal_payload := Some payload |} in
  if negb (bool_decide (iv_remote_outcome i = Some TERMINAL_COMMITTED)) then None
  else if negb (truthy (text_of (d_capability_version d)) && truthy (text_of (d_request_fingerprint d)))
  then None
  else match iv_state i with
       | COMPLETED => answer T_RESULT [("output", iv_output i)]
       | FAILED => answer T_ERROR (error_fields (iv_error i))
       | CANCELLED => answer T_CANCELLED []
       | _ => None
       end.

(** The transition that stores a terminal answer. *)
Definition terminal_changes (t : RemoteTerminalType) (payload : list (string * json)) : Changes :=
  let change s output error :=
    {| ch_state := s; ch_wait_reason := None; ch_output := output; ch_error := error;
       ch_remote_outcome := Some TERMINAL_COMMITTED |} in
  match t with
  | T_RESULT => change COMPLETED (default JNull (dict_get "output" payload)) None
  | T_ERROR => change FAILED JNull (Some (JObj payload))
  | T_CANCELLED =>
      change CANCELLED JNull
        (Some (JObj [("code", JStr "CAPABILITY_CANCELLED");
                     ("message", JStr "Remote capability reported cancellation.");
                     ("details", JObj payload)]))
  end.

Section Reconcile.
Context {S : Type} `{InvocationStore S}.

Definition commit_terminal (s : S) (i : CapabilityInvocation) (r : RemoteReconciliationResult) (now : Z)
    : S * ReconcileOutcome :=
  if negb (bool_decide (iv_state i = WAITING))
  then (s, CapabilityErr "REMOTE_RESULT_RECONCILIATION_REQUIRED")
  else
    match rr_terminal_type r, rr_terminal_payload r with
    | Some t, Some payload =>
        match transition_invocation i (terminal_changes t payload) now with
        | None => (s, Failed "InvalidInvocationTransition")
        | Some i' =>
            let (s', b) := compare_and_set s i' (iv_revision i) in
            (s', if b then Reconciled r else Failed "Concurrent invocation update rejected")
        end
    | _, _ => (s, CapabilityErr "REMOTE_INVOCATION_CONFLICT")
    end.

Definition reconcile (s : S) (later : S -> S) (connections : Lifecycle) (invocation_id connection_id : string)
    (answer : RemoteAnswer) (now : Z) : S * ReconcileOutcome :=
  match get_invocation s invocation_id with
  | None => (s, Failed "KeyError")
  | Some i =>
      match local_terminal i with
      | Some r => (s, Reconciled r)
      | None =>
          if negb (reconciliation_snapshot i)
          then (s, CapabilityErr "REMOTE_RESULT_RECONCILIATION_REQUIRED")
          else
            match lookup_connection connections connection_id with
            | Err _ => (s, Failed "ConnectionNotFoundError")
            | Ok c =>
                if negb (bool_decide (Some (cs_user_id c) = d_owner_user_id (iv_details i)))
                then (s, CapabilityErr "CAPABILITY_UNAUTHORIZED")
                else if negb (bool_decide (Some (connection_client c) = d_origin_client_id (iv_details i)))
                then (s, CapabilityErr "CAPABILITY_UNAUTHORIZED")
                else
                  match answer with
                  | NoAnswer => (later s, Unreachable)
                  | Answered r =>
                      if negb (response_identity i r)
                      then (later s, CapabilityErr "REMOTE_INVOCATION_CONFLICT")
                      else
                        match rr_status r with
                        | REC_CONFLICT => (later s, CapabilityErr "REMOTE_INVOCATION_CONFLICT")
                        | REC_TERMINAL => commit_terminal (later s) i r now
                        | _ => (later s, Reconciled r)
                        end
                  end
            end
      end
  end.
End Reconcile.

(** ** What a terminal answer stands for *)

(** The record holds the outcome the answer reports. *)
Definition reports (c : CapabilityInvocation) (r : RemoteReconciliationResult) : Prop :=
  iv_remote_outcome c = Some TERMINAL_COMMITTED /\
  exists payload, rr_terminal_payload r = Some payload /\
    match rr_terminal_type r with
    | Some T_RESULT => iv_state c = COMPLETED /\ iv_output c = default JNull (dict_get "output" payload)
    | Some T_ERROR => iv_state c = FAILED /\ error_fields (iv_error c) = payload
    | Some T_CANCELLED => iv_state c = CANCELLED
    | None => False
    end.

Lemma local_terminal_reports i r : local_terminal i = Some r -> reports i r.
Proof.
  unfold local_terminal. destruct (bool_decide _) eqn:E; [|done]. breflect. simpl.
  destruct (_ && _); [|done]. unfold reports. destruct (iv_state i); try done; intros [= <-]; simpl;
    (split; [done|]); eexists; eauto.
Qed.

Lemma local_terminal_status i r : local_terminal i = Some r -> rr_status r = REC_TERMINAL.
Proof.
  unfold local_terminal. destruct (negb _); [done|]. destruct (negb _); [done|].
  destruct (iv_state i); naive_solver.
Qed.

Lemma committed_reports i t payload now i' r :
  transition_invocation i (terminal_changes t payload) now = Some i' ->
  rr_terminal_type r = Some t -> rr_terminal_payload r = Some payload -> reports i' r.
Proof.
  unfold transition_invocation. intros H Ht Hp. repeat (crush_step_in H; try discriminate H);
    injection H as <-; unfold reports; rw Ht Hp; destruct t; simpl in *; try done;
    (split; [done|]); eexists; eauto.
Qed.

Lemma reports_terminal c r : reports c r -> terminal_invocation (iv_state c) = true.
Proof.
  intros (_ & p & _ & H). destruct (rr_terminal_type r) as [[]|]; [| | |done].
  - by destruct H as [-> _].
  - by destruct H as [-> _].
  - by rw H.
Qed.

Section Durable.
Context {S : Type} `{InvocationStoreLaws S}.

(** The ways a call ends: the answer was durable already; it was written; it was not terminal;
    or there is none. *)
Inductive ReconcileCase (s s' : S) (later : S -> S) (id : string) : ReconcileOutcome -> Prop :=
  | CaseLocal r i : get_invocation s id = Some i -> local_terminal i = Some r -> s' = s ->
      ReconcileCase s s' later id (Reconciled r)
  | CaseWritten r i' : rr_status r = REC_TERMINAL -> iv_id i' = id ->
      current_at (later s) i' (iv_revision i' - 1) -> wrote (later s) s' i' -> reports i' r -> ReconcileCase s s' later id (Reconciled r)
  | CaseOpen r : rr_status r <> REC_TERMINAL -> s' = later s ->
      ReconcileCase s s' later id (Reconciled r)
  | CaseNone o : (forall r, o <> Reconciled r) -> s' = s \/ s' = later s ->
      ReconcileCase s s' later id o.

Lemma commit_terminal_cases (s0 s s' : S) later id i r now o :
  s = later s0 -> iv_id i = id -> rr_status r = REC_TERMINAL ->
  commit_terminal s i r now = (s', o) -> ReconcileCase s0 s' later id o.
Proof.
  intros -> Hid Hs. unfold commit_terminal.
  destruct (negb _); [intros [= <- <-]; apply CaseNone; [done|by right]|].
  destruct (rr_terminal_type r) as [t|] eqn:Ett; [|intros [= <- <-]; apply CaseNone; [done|by right]].
  destruct (rr_terminal_payload r) as [payload|] eqn:Ep; [|intros [= <- <-]; apply CaseNone; [done|by right]].
  destruct (transition_invocation _ _ _) as [i'|] eqn:Etr; [|intros [= <- <-]; apply CaseNone; [done|by right]].
  pose proof (cas_law (later s0) i' (iv_revision i)) as L.
  destruct (compare_and_set _ _ _) as [s2 []]; intros [= <- <-]; [|apply CaseNone; [done|by right]].
  destruct L as (Hcur & Hw & _). pose proof (transition_some _ _ _ _ Etr) as (_ & _ & Hrev & Hi).
  eapply CaseWritten; [done| | |done|by eapply committed_reports].
  - rw -Hid. by injection Hi.
  - by replace (iv_revision i' - 1) with (iv_revision i) by lia.
Qed.

Lemma reconcile_cases (s s' : S) later connections id conn answer now o :
  keyed s -> reconcile s later connections id conn answer now = (s', o) ->
  ReconcileCase s s' later id o.
Proof.
  intros Hk. unfold reconcile.
  destruct (get_invocation s id) as [i|] eqn:Ei; [|intros [= <- <-]; apply CaseNone; [done|by left]].
  destruct (local_terminal i) as [r|] eqn:El; [intros [= <- <-]; by eapply CaseLocal|].
  destruct (negb _); [intros [= <- <-]; apply CaseNone; [done|by left]|].
  destruct (lookup_connection _ _) as [c|]; [|intros [= <- <-]; apply CaseNone; [done|by left]].
  do 2 (destruct (negb _); [intros [= <- <-]; apply CaseNone; [done|by left]|]).
  destruct answer as [r|]; [|intros [= <- <-]; apply CaseNone; [done|by right]].
  destruct (negb _); [intros [= <- <-]; apply CaseNone; [done|by right]|].
  destruct (rr_status r) eqn:Est;
    try (intros [= <- <-]; first [apply CaseOpen; [congruence|done] | apply CaseNone; [done|by right]]).
  by apply (commit_terminal_cases s (later s)); [|apply Hk|].
Qed.

(** [reconciled_terminal_durable]: when reconciliation answers that an invocation has ended,
    whatever other transactions did in between, the stored record of the invocation has ended
    with the remote outcome committed, and its state, output and error are those of the
    answer; otherwise the call changed nothing itself. *)
Theorem reconciled_terminal_durable (s s' : S) later connections id conn answer now o :
  keyed s -> reconcile s later connections id conn answer now = (s', o) ->
  match o with
  | Reconciled r =>
      if bool_decide (rr_status r = REC_TERMINAL) then
        exists c, get_invocation s' id = Some c /\ terminal_invocation (iv_state c) = true /\ reports c r
      else s' = later s
  | _ => s' = s \/ s' = later s
  end.
Proof.
  intros Hk Hr. destruct (reconcile_cases _ _ _ _ _ _ _ _ _ Hk Hr)
    as [r i Hi Hl ->|r i' Hs Hid _ Hw Hrep|r Hs ->|o Hn Hs].
  - rw (local_terminal_status _ _ Hl). pose proof (local_terminal_reports _ _ Hl).
    exists i. split_and!; eauto using reports_terminal.
  - rw Hs. exists i'. split_and!; eauto using reports_terminal. by rw Hw bool_decide_true.
  - by rw bool_decide_false.
  - destruct o; try done. by destruct (Hn r).
Qed.
End Durable.

(** ** Example: a waiting invocation whose client reports a result *)

Definition waiting_invocation : CapabilityInvocation :=
  {| iv_id := "inv"; iv_capability_id := "cap"; iv_target := None; iv_execution_id := Some "e";
     iv_tool_call_id := Some "c"; iv_details := demo_details; iv_implementation_id := Some "impl";
     iv_driver_kind := Some "remote"; iv_connection_id := None; iv_state := WAITING;
     iv_wait_reason := Some WAIT_CONNECTION; iv_remote_outcome := Some OUTCOME_UNKNOWN; iv_attempt := 1;
     iv_max_attempts := 1; iv_output := JNull; iv_error := None; iv_started_at := Some 1;
     iv_updated_at := 2; iv_completed_at := None; iv_revision := 3 |}.

Definition waiting_store : Sql.SqlStore := Sql.put (Sql.empty true) waiting_invocation.

Definition new_connection : Lifecycle :=
  {| lc_stale_after := 30;
     lc_connections := {[ "conn" := {| cs_connection_id := "conn"; cs_session_id := "s"; cs_user_id := "user";
                                       cs_state := ACTIVE; cs_connected_at := 5; cs_last_heartbeat_at := 5;
                                       cs_stale_after := 30; cs_metadata := [("client_id", JStr "client")] |} ]} |}.

Definition client_report : RemoteReconciliationResult :=
  {| rr_invocation_id := "inv"; rr_status := REC_TERMINAL; rr_capability_id := "cap";
     rr_capability_version := "1"; rr_request_fingerprint := "fp"; rr_terminal_type := Some T_RESULT;
     rr_terminal_payload := Some [("output", JInt 7)] |}.

Lemma reconciled_terminal_durable_witness :
  exists c, get_invocation (fst (reconcile waiting_store id new_connection "inv" "conn"
                                   (Answered client_report) 6)) "inv" = Some c /\
            iv_state c = COMPLETED /\ iv_output c = JInt 7.
Proof.
  assert (Hk : keyed waiting_store).
  { intros j c. unfold get_invocation; simpl. unfold Sql.get; simpl.
    rw lookup_insert_Some lookup_empty. naive_solver. }
  destruct (reconcile waiting_store id new_connection "inv" "conn" (Answered client_report) 6)
    as [s' o] eqn:E.
  pose proof (reconciled_terminal_durable _ _ _ _ _ _ _ _ _ Hk E) as Hr.
  assert (o = Reconciled client_report) as ->
    by (transitivity (snd (s', o)); [done|rw -E; vm_compute; reflexivity]).
  destruct Hr as (c & Hc & _ & _ & payload & [= <-] & Hs & Ho). by exists c.
Defined.
