(* ===== verification/ResumePlanning.v ===== *)
(** * Resume planning
    (src/se/src/runtimes/agent/resume_planning.py, with the loads of DurableAgentStore it
    uses: load_current_checkpoint, load_checkpoint_pending_invocations,
    load_committed_tool_result and load_committed_checkpoint_transcript)

    The planner turns a waiting execution into a [ResumePlan].  Every load is a transaction of
    its own, and other transactions run in between: the planner is a program in a small monad
    that threads the database and numbers its accesses, and before access [n] the database is
    changed by [sr_db] of the surroundings [env n], which also give the connections, the
    catalog, the clock and the client's answer at that moment.  The messages of a transcript
    are taken as materialised, and a database that fails ends the planner with the exception. *)

From S2P Require Import Prelude Canonical PythonValues ResumeTicket TaskBudgetSchema AgentStore.
From S2P Require Import TaskBudgetService TaskActivity ConnectionRegistry Invocation CapabilityCatalog InvocationStores.
From S2P Require Import ResumeClaimStore ResumeClaimConsume Reconciliation.

(** ** The capability tables of the database as an invocation store *)

Definition lift_store_op (f : Sql.SqlStore -> Sql.SqlStore * bool) (db : ResumeDB) : ResumeDB * bool :=
  let (s, b) := f (rd_store db) in (with_store db s, b).

Definition lift_store_opt (f : Sql.SqlStore -> option Sql.SqlStore) (db : ResumeDB) : option ResumeDB :=
  match f (rd_store db) with Some s => Some (with_store db s) | None => None end.

#[export] Instance resume_db_store : InvocationStore ResumeDB := {|
  get_invocation db := Sql.get (rd_store db);
  get_attempt db := Sql.stored_attempt (rd_store db);
  create_invocation db i := lift_store_opt (fun s => Sql.create s i) db;
  compare_and_set db i r := lift_store_op (fun s => Sql.compare_and_set s i r) db;
  begin_initial db i r a := lift_store_op (fun s => Sql.begin_initial_attempt s i r a) db;
  start_initial db i r a := lift_store_op (fun s => Sql.start_initial_attempt s i r a) db;
  begin_continuation db i r a := lift_store_op (fun s => Sql.begin_continuation_attempt s i r a) db;
  start_continuation db i r a := lift_store_op (fun s => Sql.start_continuation_attempt s i r a) db;
  save_attempt db a := lift_store_opt (fun s => Sql.save_attempt s a) db;
  update_attempt db a := lift_store_opt (fun s => Sql.update_attempt s a) db |}.

(** ** The planning monad *)

Inductive PlanError :=
  | PlanRejected (code : string)
  | PlanDeferred (code : string)
  | PlanFailed (what : string).

Record Surroundings := {
  sr_db : ResumeDB -> ResumeDB;
  sr_connections : option Lifecycle;
  sr_has_store : bool;
  sr_catalog : option CapabilityCatalog;
  sr_answer : RemoteAnswer;
  sr_later : ResumeDB -> ResumeDB;
  sr_now : Z
}.

Definition Plan (A : Type) : Type :=
  (nat -> Surroundings) -> nat -> ResumeDB -> nat * ResumeDB * result PlanError A.

#[export] Instance plan_ret : MRet Plan := fun A a env n db => (n, db, Ok a).
#[export] Instance plan_bind : MBind Plan := fun A B k m env n db =>
  match m env n db with
  | (n', db', Ok a) => k a env n' db'
  | (n', db', Err e) => (n', db', Err e)
  end.

(** An access to the surroundings. *)
Definition access {A} (f : Surroundings -> ResumeDB -> ResumeDB * result PlanError A) : Plan A :=
  fun env n db => let sr := env n in let (db', r) := f sr (sr_db sr db) in (S n, db', r).

Definition load {A} (f : ResumeDB -> A) : Plan A := access (fun _ db => (db, Ok (f db))).

Definition observe {A} (f : Surroundings -> result PlanError A) : Plan A :=
  access (fun sr db => (db, f sr)).

(** A computation that touches nothing. *)
Definition pure_plan {A} (r : result PlanError A) : Plan A := fun env n db => (n, db, r).

Definition reject_unless (b : bool) (code : string) : Plan unit := pure_plan (guard_err b (PlanRejected code)).
Definition defer_unless (b : bool) (code : string) : Plan unit := pure_plan (guard_err b (PlanDeferred code)).
Definition reject_plan {A} (code : string) : Plan A := pure_plan (Err (PlanRejected code)).
Definition defer_plan {A} (code : string) : Plan A := pure_plan (Err (PlanDeferred code)).

(** [if value is None: raise]. *)
Definition require_some {A} (o : option A) (code : string) : Plan A :=
  match o with Some a => mret a | None => reject_plan code end.

(** ** Loads of the durable store *)

(** The projection of a terminal invocation: success, output, error code, error message and
    whether it may be retried. *)
Definition error_text (fields : list (string * json)) (first second : string) : option string :=
  match dict_get first fields with
  | Some (JStr s) => if truthy s then Some s else
      match dict_get second fields with Some (JStr s) => Some s | _ => None end
  | _ => match dict_get second fields with Some (JStr s) => Some s | _ => None end
  end.

Definition terminal_projection (i : CapabilityInvocation)
    : bool * json * option string * option string * bool :=
  let error := error_fields (iv_error i) in
  let succeeded := bool_decide (iv_state i = COMPLETED) in
  (succeeded, iv_output i,
   if succeeded then None else error_text error "error_code" "code",
   if succeeded then None else error_text error "error_message" "message",
   if succeeded then false else py_bool (default (JBool false) (dict_get "retryable" error))).

(** The identity check that precedes a promotion; an absent column of the invocation is not
    compared. *)
Definition result_identity (i : CapabilityInvocation) (execution_id call : string) (r : ToolResultRow)
    : bool :=
  bool_decide (rs_invocation_id r = iv_id i) && bool_decide (rs_capability_id r = iv_capability_id i) &&
  match iv_execution_id i with Some x => bool_decide (x = execution_id) | None => true end &&
  match iv_tool_call_id i with Some c => bool_decide (c = call) | None => true end.

Definition load_committed_tool_result (execution_id call : string) (db : ResumeDB)
    : ResumeDB * result PlanError (option ToolResultRow) :=
  match rd_tool_results db !! (execution_id, call) with
  | None => (db, Ok None)
  | Some r =>
      if bool_decide (rs_commit_state r = COMMITTED_RESULT) then (db, Ok (Some r))
      else
        match rd_invocations db !! rs_invocation_id r with
        | None => (db, Ok None)
        | Some i =>
            if negb (result_identity i execution_id call r) then (db, Err (PlanFailed "ExecutionConflictError"))
            else if negb (bool_decide (iv_remote_outcome i = Some TERMINAL_COMMITTED)) then (db, Ok None)
            else
              let '(success, output, code, message, retryable) := terminal_projection i in
              let r' := {| rs_invocation_id := rs_invocation_id r; rs_capability_id := rs_capability_id r;
                           rs_success := success; rs_output := output; rs_error_code := code;
                           rs_error_message := message; rs_retryable := retryable;
                           rs_commit_state := COMMITTED_RESULT |} in
              (with_tool_results db (<[(execution_id, call) := r']> (rd_tool_results db)), Ok (Some r'))
        end
  end.

Definition load_current_checkpoint (execution_id : string) (db : ResumeDB)
    : result PlanError (option DurableExecutionCheckpoint) :=
  match get_execution (rd_agents db) execution_id with
  | None => Ok None
  | Some e =>
      if negb (is_text (e_current_checkpoint_id e)) then Ok None
      else
        match rd_checkpoints db !! default "" (e_current_checkpoint_id e) with
        | Some k => if bool_decide (ck_execution_id k = e_id e) && (ck_execution_revision k =? e_revision e)
                    then Ok (Some k) else Err (PlanFailed "ExecutionConflictError")
        | None => Err (PlanFailed "ExecutionConflictError")
        end
  end.

Definition load_checkpoint_pending_invocations (checkpoint_id : string) (db : ResumeDB)
    : list CheckpointPendingInvocation :=
  match rd_checkpoints db !! checkpoint_id with
  | None => []
  | Some _ => default [] (rd_pending db !! checkpoint_id)
  end.

(** The message that stands for a committed tool result. *)
Definition tool_message (call : string) (r : ToolResultRow) : json :=
  JObj [("role", JStr "tool");
        ("content", if rs_success r then rs_output r
                    else JObj [("error_code", text_or_null (rs_error_code r));
                               ("error_message", text_or_null (rs_error_message r))]);
        ("tool_calls", JArr []); ("name", JStr (rs_capability_id r)); ("tool_call_id", JStr call);
        ("metadata", JObj [("success", JBool (rs_success r)); ("retryable", JBool (rs_retryable r))])].

(** The safe prefix: tool messages only of calls that are settled and not part of the active
    batch, and with the committed result. *)
Definition safe_message (db : ResumeDB) (execution_id : string) (active : list string)
    (m : TranscriptMessage) : option json :=
  if negb (bool_decide (ms_role m = "tool")) then Some (ms_outward m)
  else
    match ms_tool_call_id m with
    | Some call =>
        if negb (truthy call) || bool_decide (call ∈ active) then None
        else
          match rd_tool_results db !! (execution_id, call) with
          | Some r => if bool_decide (rs_commit_state r = COMMITTED_RESULT)
                      then Some (tool_message call r) else None
          | None => None
          end
    | None => None
    end.

Definition load_committed_checkpoint_transcript (execution_id checkpoint_id : string)
    (active : list string) (db : ResumeDB) : result PlanError (list json) :=
  match rd_checkpoints db !! checkpoint_id with
  | Some k =>
      if bool_decide (ck_execution_id k = execution_id)
      then Ok (omap (safe_message db execution_id active) (ck_transcript k))
      else Err (PlanFailed "ExecutionConflictError")
  | None => Err (PlanFailed "ExecutionConflictError")
  end.

(** ** Checks of AgentResumePlanningService *)

Definition validate_target_connection (user : string) (client : option string) (conn : string)
    (sr : Surroundings) : result PlanError unit :=
  _ ← guard_err (is_text client) (PlanRejected "RESUME_CLIENT_ID_REQUIRED");
  match sr_connections sr with
  | None => Err (PlanRejected "CONNECTION_REGISTRY_UNAVAILABLE")
  | Some registry =>
      match lookup_connection registry conn with
      | Err _ => Err (PlanDeferred "RESUME_CONNECTION_UNAVAILABLE")
      | Ok c =>
          _ ← guard_err (bool_decide (cs_state c = ACTIVE)) (PlanDeferred "RESUME_CONNECTION_UNAVAILABLE");
          _ ← guard_err (bool_decide (cs_user_id c = user)) (PlanRejected "FOREIGN_PRINCIPAL");
          _ ← guard_err (truthy (connection_client c)) (PlanRejected "RESUME_CLIENT_ID_REQUIRED");
          guard_err (bool_decide (Some (connection_client c) = client)) (PlanRejected "FOREIGN_CLIENT")
      end
  end.

(** Ordinals grow and name the pending tool call of the batch. *)
Fixpoint validate_pending_order (previous : Z) (pending : list CheckpointPendingInvocation)
    (ordered : list string) : bool :=
  match pending with
  | [] => true
  | x :: rest =>
      (previous <? pd_ordinal x) && (pd_ordinal x <? Z.of_nat (length ordered)) &&
      bool_decide (ordered !! Z.to_nat (pd_ordinal x) = Some (pd_tool_call_id x)) &&
      validate_pending_order (pd_ordinal x) rest ordered
  end.

(** The calls of the batch with neither a pending row nor a committed result. *)
Fixpoint missing_calls (execution_id : string) (pending_ids ordered : list string) : Plan (list string) :=
  match ordered with
  | [] => mret []
  | call :: rest =>
      if bool_decide (call ∈ pending_ids) then missing_calls execution_id pending_ids rest
      else
        committed ← access (fun _ db => load_committed_tool_result execution_id call db);
        missing ← missing_calls execution_id pending_ids rest;
        mret (if bool_decide (committed = None) then call :: missing else missing)
  end.

Definition validate_active_batch_coverage (execution_id : string) (ordered : list string)
    (pending : list CheckpointPendingInvocation) : Plan unit :=
  missing ← missing_calls execution_id (map pd_tool_call_id pending) ordered;
  reject_unless (bool_decide (missing = [])) "CHECKPOINT_ACTIVE_BATCH_INCOMPLETE".

Definition load_invocation (invocation_id : string) : Plan CapabilityInvocation :=
  access (fun sr db =>
    (db, if negb (sr_has_store sr) then Err (PlanRejected "R6_INVOCATION_STORE_UNAVAILABLE")
         else match rd_invocations db !! invocation_id with
              | Some i => Ok i
              | None => Err (PlanRejected "R6_INVOCATION_MISSING")
              end)).

(** [_OUTCOME_PROGRESS]. *)
Definition outcome_progress (observed now : option RemoteOutcomeState) : bool :=
  match observed, now with
  | None, _ => true
  | Some _, None => false
  | Some NOT_DISPATCHED, Some _ | Some IN_FLIGHT, Some _ => true
  | Some OUTCOME_UNKNOWN, Some s => bool_decide (s = OUTCOME_UNKNOWN) || bool_decide (s = TERMINAL_COMMITTED)
  | Some TERMINAL_COMMITTED, Some s => bool_decide (s = TERMINAL_COMMITTED)
  end.

Definition validate_semantic_identity (execution_id : string) (x : CheckpointPendingInvocation)
    (i : CapabilityInvocation) (user : string) (client : option string) : result PlanError unit :=
  let d := iv_details i in
  _ ← guard_err (negb (iv_revision i <? pd_invocation_revision x)) (PlanRejected "INVOCATION_REVISION_REGRESSION");
  _ ← guard_err (outcome_progress (pd_observed x) (iv_remote_outcome i)) (PlanRejected "REMOTE_OUTCOME_REGRESSION");
  _ ← guard_err (bool_decide (iv_execution_id i = Some execution_id) &&
                 bool_decide (iv_tool_call_id i = Some (pd_tool_call_id x)) &&
                 bool_decide (iv_capability_id i = pd_capability_id x) &&
                 bool_decide (d_capability_version d = pd_capability_version x) &&
                 bool_decide (d_request_fingerprint d = pd_request_fingerprint x) &&
                 bool_decide (d_idempotency d = pd_idempotency x)) (PlanRejected "INVOCATION_SEMANTIC_CONFLICT");
  _ ← guard_err (bool_decide (d_owner_user_id d = Some user)) (PlanRejected "FOREIGN_PRINCIPAL");
  _ ← guard_err (is_text (d_origin_client_id d) && is_text (pd_origin_client_id x))
        (PlanRejected "RESUME_ORIGIN_CLIENT_MISSING");
  guard_err (bool_decide (d_origin_client_id d = client) && bool_decide (pd_origin_client_id x = client))
    (PlanRejected "FOREIGN_CLIENT").

(** The committed result is that of the invocation and projects its outcome. *)
Definition projection_matches (i : CapabilityInvocation) (r : ToolResultRow) : bool :=
  let '(success, output, code, message, retryable) := terminal_projection i in
  Bool.eqb (rs_success r) success && same_json (rs_output r) output &&
  bool_decide (rs_error_code r = code) && bool_decide (rs_error_message r = message) &&
  Bool.eqb (rs_retryable r) retryable.

Definition require_committed_projection (execution_id : string) (x : CheckpointPendingInvocation)
    (i : CapabilityInvocation) : Plan unit :=
  _ ← reject_unless (bool_decide (iv_remote_outcome i = Some TERMINAL_COMMITTED) &&
                     terminal_invocation (iv_state i)) "TERMINAL_INVOCATION_AUTHORITY_INVALID";
  found ← access (fun _ db => load_committed_tool_result execution_id (pd_tool_call_id x) db);
  r ← require_some found "COMMITTED_TOOL_RESULT_MISSING";
  _ ← reject_unless (bool_decide (rs_invocation_id r = iv_id i) &&
                     bool_decide (rs_capability_id r = iv_capability_id i)) "COMMITTED_TOOL_RESULT_CONFLICT";
  reject_unless (projection_matches i r) "COMMITTED_TOOL_RESULT_CONFLICT".

(** [_action]. *)
Definition build_action (x : CheckpointPendingInvocation) (i : CapabilityInvocation)
    (kind : ResumeInvocationActionKind) : result PlanError ResumeInvocationAction :=
  match d_capability_version (iv_details i), d_request_fingerprint (iv_details i) with
  | Some version, Some fingerprint =>
      if truthy version && truthy fingerprint then
        Ok {| ac_invocation_id := iv_id i; ac_tool_call_id := pd_tool_call_id x; ac_ordinal := pd_ordinal x;
              ac_capability_id := iv_capability_id i; ac_capability_version := version;
              ac_request_fingerprint := fingerprint; ac_idempotency := d_idempotency (iv_details i);
              ac_expected_revision := iv_revision i; ac_expected_state := iv_state i;
              ac_expected_outcome := iv_remote_outcome i; ac_action := kind |}
      else Err (PlanRejected "INVOCATION_RECONCILIATION_SNAPSHOT_MISSING")
  | _, _ => Err (PlanRejected "INVOCATION_RECONCILIATION_SNAPSHOT_MISSING")
  end.

(** [reconcile_remote_invocation] with the exceptions [_classify] translates. *)
Definition rejected_code (code : string) : bool :=
  bool_decide (code ∈ ["REMOTE_INVOCATION_CONFLICT"; "REMOTE_RESULT_RECONCILIATION_REQUIRED";
                       "CAPABILITY_UNAUTHORIZED"]).

Definition ask_client (invocation_id conn : string) : Plan RemoteReconciliationResult :=
  access (fun sr db =>
    match sr_connections sr with
    | None => (db, Err (PlanFailed "Remote invocation reconciliation is unavailable."))
    | Some connections =>
        let (db', o) := reconcile db (sr_later sr) connections invocation_id conn (sr_answer sr) (sr_now sr) in
        (db', match o with
              | Reconciled r => Ok r
              | CapabilityErr code =>
                  Err (if rejected_code code then PlanRejected code else PlanFailed code)
              | Unreachable => Err (PlanDeferred "RECONCILIATION_UNAVAILABLE")
              | Failed what => Err (PlanFailed what)
              end)
    end).

(** The outcome is not known to the server: ask the client. *)
Definition reconcile_action (execution_id : string) (x : CheckpointPendingInvocation)
    (i : CapabilityInvocation) (user : string) (client : option string) (conn : string)
    : Plan ResumeInvocationAction :=
  r ← ask_client (iv_id i) conn;
  current ← load_invocation (iv_id i);
  _ ← pure_plan (validate_semantic_identity execution_id x current user client);
  match rr_status r with
  | REC_TERMINAL =>
      _ ← reject_unless (bool_decide (iv_remote_outcome current = Some TERMINAL_COMMITTED))
            "RECONCILIATION_TERMINAL_NOT_COMMITTED";
      _ ← require_committed_projection execution_id x current;
      pure_plan (build_action x current REUSE_COMMITTED)
  | REC_RUNNING => defer_plan "REMOTE_INVOCATION_RUNNING"
  | REC_CONFLICT => reject_plan "REMOTE_INVOCATION_CONFLICT"
  | REC_UNKNOWN | REC_NOT_FOUND =>
      if safe_replay (d_idempotency (iv_details current))
      then pure_plan (build_action x current REPLAY_SAFE)
      else defer_plan "REMOTE_OUTCOME_UNSAFE_TO_REPLAY"
  end.

Definition classify (execution_id : string) (x : CheckpointPendingInvocation) (i : CapabilityInvocation)
    (user : string) (client : option string) (conn : string) : Plan ResumeInvocationAction :=
  match iv_remote_outcome i with
  | Some TERMINAL_COMMITTED =>
      _ ← require_committed_projection execution_id x i;
      pure_plan (build_action x i REUSE_COMMITTED)
  | Some NOT_DISPATCHED => pure_plan (build_action x i DISPATCH_NOT_DISPATCHED)
  | None => reject_plan "REMOTE_OUTCOME_INVALID"
  | Some IN_FLIGHT | Some OUTCOME_UNKNOWN => reconcile_action execution_id x i user client conn
  end.

Definition require_target_capability (a : ResumeInvocationAction) (conn : string) (sr : Surroundings)
    : result PlanError unit :=
  match sr_catalog sr with
  | None => Err (PlanDeferred "PENDING_CAPABILITY_NOT_READY")
  | Some catalog =>
      guard_err (existsb (fun m => bool_decide (ci_capability_id m = ac_capability_id a) &&
                                   bool_decide (ci_version m = ac_capability_version a) &&
                                   routable (ci_state m))
                   (list_implementations_for_connection catalog conn))
        (PlanDeferred "PENDING_CAPABILITY_NOT_READY")
  end.

(** ** build_resume_plan *)

(** The waiting execution and its current checkpoint. *)
Definition locate_wait (execution_id checkpoint_id : string) (client : option string) (conn : string)
    : Plan (ExecutionRow * DurableExecutionCheckpoint) :=
  found ← load (fun db => get_execution (rd_agents db) execution_id);
  e ← require_some found "RESUME_EXECUTION_NOT_FOUND";
  _ ← reject_unless (bool_decide (e_state e = "WAITING")) "RESUME_NOT_WAITING";
  _ ← reject_unless (bool_decide (e_current_checkpoint_id e = Some checkpoint_id)) "STALE_CHECKPOINT";
  current ← access (fun _ db => (db, load_current_checkpoint execution_id db));
  k ← require_some current "STALE_CHECKPOINT";
  _ ← reject_unless (bool_decide (ck_id k = checkpoint_id)) "STALE_CHECKPOINT";
  _ ← reject_unless (ck_execution_revision k =? e_revision e) "STALE_CHECKPOINT";
  _ ← reject_unless (bool_decide (e_wait_reason e = Some (ck_wait_reason k))) "WAIT_REASON_CONFLICT";
  _ ← reject_unless (bool_decide (ck_wait_reason k = "CONNECTION")) "UNSUPPORTED_RESUME_TRIGGER";
  _ ← reject_unless (negb (is_text (ck_origin_connection_id k) &&
                           bool_decide (ck_origin_connection_id k = Some conn))) "RESUME_CONNECTION_NOT_NEW";
  _ ← reject_unless (is_text (ck_origin_client_id k)) "RESUME_ORIGIN_CLIENT_MISSING";
  _ ← reject_unless (bool_decide (ck_origin_client_id k = client)) "FOREIGN_CLIENT";
  mret (e, k).

(** The task and the branch of a task-scoped execution. *)
Definition validate_task (e : ExecutionRow) (user : string) : Plan unit :=
  match e_task_id e with
  | None => mret tt
  | Some task_id =>
      if negb (truthy task_id) then mret tt
      else
        found ← load (fun db => get_task (rd_agents db) task_id);
        t ← require_some found "RESUME_TASK_NOT_FOUND";
        _ ← reject_unless (bool_decide (t_session_id t = e_session_id e)) "TASK_SEMANTIC_CONFLICT";
        _ ← reject_unless (bool_decide (t_created_by t = user)) "FOREIGN_PRINCIPAL";
        _ ← reject_unless (negb (task_terminal (t_status t))) "TASK_TERMINAL";
        match e_branch_id e with
        | None => mret tt
        | Some b =>
            current ← load (fun db => branch_current (rd_agents db) (e_task_id e) b (e_id e));
            reject_unless current "BRANCH_NOT_OPEN"
        end
  end.

(** The remaining budget; the wait has not expired. *)
Definition validate_budget (k : DurableExecutionCheckpoint) : Plan Z :=
  match ck_remaining k with
  | Some (Finite remaining) =>
      _ ← defer_unless (negb (remaining <=? 0)) "AGENT_EXECUTION_TIMEOUT";
      _ ← observe (fun sr => guard_err match ck_wait_expires_at k with
                                       | Some t => negb (t <=? sr_now sr)
                                       | None => true
                                       end (PlanDeferred "WAIT_TTL_EXPIRED"));
      mret remaining
  | _ => reject_plan "UNKNOWN_ACTIVE_BUDGET"
  end.

(** The tool batch of the iteration and its pending invocations. *)
Definition load_batch (execution_id : string) (k : DurableExecutionCheckpoint)
    : Plan (list string * list CheckpointPendingInvocation) :=
  iteration ← load (fun db => rd_iterations db !! (execution_id, ck_iteration k));
  ordered ← require_some iteration "CHECKPOINT_ITERATION_MISSING";
  _ ← reject_unless (negb (bool_decide (ordered = []))) "CHECKPOINT_TOOL_ORDER_MISSING";
  pending ← load (load_checkpoint_pending_invocations (ck_id k));
  _ ← reject_unless (negb (bool_decide (map pd_invocation_id pending = [])))
        "CHECKPOINT_PENDING_INVOCATIONS_MISSING";
  _ ← reject_unless (validate_pending_order (-1) pending ordered) "CHECKPOINT_PENDING_ORDER_INVALID";
  _ ← validate_active_batch_coverage execution_id ordered pending;
  mret (ordered, pending).

(** One action per pending invocation. *)
Definition plan_action (execution_id : string) (x : CheckpointPendingInvocation) (user : string)
    (client : option string) (conn : string) : Plan ResumeInvocationAction :=
  i ← load_invocation (pd_invocation_id x);
  _ ← pure_plan (validate_semantic_identity execution_id x i user client);
  a ← classify execution_id x i user client conn;
  _ ← (if bool_decide (ac_action a = REUSE_COMMITTED) then mret tt
       else observe (require_target_capability a conn));
  mret a.

Fixpoint plan_actions (execution_id : string) (pending : list CheckpointPendingInvocation)
    (user : string) (client : option string) (conn : string) : Plan (list ResumeInvocationAction) :=
  match pending with
  | [] => mret []
  | x :: rest =>
      a ← plan_action execution_id x user client conn;
      actions ← plan_actions execution_id rest user client conn;
      mret (a :: actions)
  end.

(** [metadata.get(key) or state.get(key)]. *)
Definition context_state (e : ExecutionRow) : json :=
  default JNull (dict_get "context_state" (json_fields (e_payload e))).

Definition first_text (o : option string) (e : ExecutionRow) (key : string) : option string :=
  if is_text o then o else opt_column (context_state e) key.

(** The plan without, and then with, its fingerprint. *)
Definition plan_values (e : ExecutionRow) (k : DurableExecutionCheckpoint) (ordered : list string)
    (transcript : list json) (remaining : Z) (actions : list ResumeInvocationAction)
    (user : string) (client : option string) (conn fingerprint : string) : ResumePlan :=
  {| pl_execution_id := e_id e; pl_checkpoint_id := ck_id k;
     pl_expected_execution_revision := e_revision e; pl_plan_fingerprint := fingerprint;
     pl_agent_id := e_agent_id e; pl_session_id := e_session_id e; pl_task_id := e_task_id e;
     pl_branch_id := e_branch_id e; pl_parent_execution_id := e_parent_execution_id e;
     pl_retry_of_execution_id := e_column e "retry_of_execution_id";
     pl_base_execution_id := e_column e "base_execution_id";
     pl_base_checkpoint_id := e_column e "base_checkpoint_id";
     pl_correlation_id := e_column e "correlation_id";
     pl_trace_id := first_text (ck_trace_id k) e "trace_id";
     pl_request_id := first_text (ck_request_id k) e "request_id";
     pl_iteration := ck_iteration k; pl_ordered_tool_call_ids := ordered;
     pl_transcript_snapshot := transcript; pl_remaining := remaining;
     pl_wait_expires_at := ck_wait_expires_at k; pl_target_user_id := user;
     pl_target_client_id := client; pl_target_connection_id := Some conn; pl_actions := actions |}.

Definition build_resume_plan (execution_id checkpoint_id user : string) (client : option string)
    (conn : string) : Plan ResumePlan :=
  _ ← observe (validate_target_connection user client conn);
  '(e, k) ← locate_wait execution_id checkpoint_id client conn;
  _ ← validate_task e user;
  remaining ← validate_budget k;
  '(ordered, pending) ← load_batch execution_id k;
  transcript ← access (fun _ db =>
    (db, load_committed_checkpoint_transcript execution_id checkpoint_id ordered db));
  actions ← plan_actions execution_id pending user client conn;
  let values := plan_values e k ordered transcript remaining actions user client conn in
  mret (values (resume_plan_fingerprint (values "")))%string.
