(* ===== verification/ResumePlanningProperties.v ===== *)
(** * Properties of resume planning
    (src/se/src/runtimes/agent/resume_planning.py against _consume_resume_claim_once of
    src/se/src/runtimes/agent/persistence.py)

    What a plan promises about its actions, what planning leaves untouched whatever runs
    beside it, and that consumption accepts a plan of which nothing changed since. *)

From S2P Require Import Prelude Canonical ResumeTicket TaskBudgetSchema AgentStore.
From S2P Require Import TaskBudgetService TaskActivity ConnectionRegistry Invocation CapabilityCatalog InvocationStores.
From S2P Require Import InvocationProperties ResumeClaimStore ResumeClaimConsume ResumeClaimProperties.
From S2P Require Import Reconciliation ResumePlanning.

(** ** The database as an invocation store *)

Lemma with_store_same db : with_store db (rd_store db) = db.
Proof. by destruct db. Qed.

Lemma lift_op_law db (f : Sql.SqlStore -> Sql.SqlStore * bool) (P : Sql.SqlStore -> Prop) :
  (let (s', b) := f (rd_store db) in if b then P s' else s' = rd_store db) ->
  let (db', b) := lift_store_op f db in if b then P (rd_store db') else db' = db.
Proof.
  unfold lift_store_op. destruct (f (rd_store db)) as [s' []]; simpl; [done|].
  intros ->. apply with_store_same.
Qed.

Lemma lift_opt_law db f db' : lift_store_opt f db = Some db' -> f (rd_store db) = Some (rd_store db').
Proof. unfold lift_store_opt. destruct (f _); [|done]. by intros [= <-]. Qed.

#[export] Instance resume_db_laws : InvocationStoreLaws ResumeDB.
Proof.
  split.
  - intros db i db' Hc. exact (create_law (rd_store db) i _ (lift_opt_law _ _ _ Hc)).
  - intros db i r. exact (lift_op_law db _ _ (cas_law (rd_store db) i r)).
  - intros db i r a. exact (lift_op_law db _ _ (begin_initial_law (rd_store db) i r a)).
  - intros db i r a Ha. exact (lift_op_law db _ _ (begin_continuation_law (rd_store db) i r a Ha)).
  - intros db i r a. exact (lift_op_law db _ _ (start_initial_law (rd_store db) i r a)).
  - intros db i r a. exact (lift_op_law db _ _ (start_continuation_law (rd_store db) i r a)).
  - intros db a db' Hc. exact (save_attempt_law (rd_store db) a _ (lift_opt_law _ _ _ Hc)).
  - intros db a db' Hc. exact (update_attempt_law (rd_store db) a _ (lift_opt_law _ _ _ Hc)).
Qed.

(** ** Effects *)

(** What the planner itself may write: the promotion of a provisional result whose invocation
    has committed its outcome, and the client's report of such an outcome. *)
Definition promoted (r : ToolResultRow) (i : CapabilityInvocation) : ToolResultRow :=
  let '(success, output, code, message, retryable) := terminal_projection i in
  {| rs_invocation_id := rs_invocation_id r; rs_capability_id := rs_capability_id r;
     rs_success := success; rs_output := output; rs_error_code := code;
     rs_error_message := message; rs_retryable := retryable; rs_commit_state := COMMITTED_RESULT |}.

Inductive own_write (db : ResumeDB) : ResumeDB -> Prop :=
  | OwnPromotion key r i :
      rd_tool_results db !! key = Some r -> rs_commit_state r = PROVISIONAL ->
      rd_invocations db !! rs_invocation_id r = Some i -> iv_remote_outcome i = Some TERMINAL_COMMITTED ->
      own_write db (with_tool_results db (<[key := promoted r i]> (rd_tool_results db)))
  | OwnReport s cur i :
      Sql.get (rd_store db) (iv_id i) = Some cur -> iv_revision i = iv_revision cur + 1 ->
      wrote (rd_store db) s i -> iv_remote_outcome i = Some TERMINAL_COMMITTED ->
      terminal_invocation (iv_state i) = true -> own_write db (with_store db s).

(** A write of the planner or of another transaction. *)
Definition any_write (env : nat -> Surroundings) (a b : ResumeDB) : Prop :=
  own_write a b \/ exists n, b = sr_db (env n) a \/ b = sr_later (env n) a.

(** Every run of the program, failed ones too, consists of such writes. *)
Definition writes_only {A} (m : Plan A) : Prop :=
  forall env n db, rtc (any_write env) db (m env n db).1.2.

Lemma writes_ret {A} (a : A) : writes_only (mret a).
Proof. intros env n db. apply rtc_refl. Qed.

Lemma writes_pure {A} (r : result PlanError A) : writes_only (pure_plan r).
Proof. intros env n db. apply rtc_refl. Qed.

Lemma writes_bind {A B} (m : Plan A) (k : A -> Plan B) :
  writes_only m -> (forall a, writes_only (k a)) -> writes_only (m ≫= k).
Proof.
  intros Hm Hk env n db. unfold mbind, plan_bind. specialize (Hm env n db).
  destruct (m env n db) as [[n' db'] [a|e]]; simpl in *; [|done].
  etransitivity; [exact Hm|apply Hk].
Qed.

Lemma writes_access {A} (f : Surroundings -> ResumeDB -> ResumeDB * result PlanError A) :
  (forall env n db, rtc (any_write env) db (f (env n) db).1) -> writes_only (access f).
Proof.
  intros Hf env n db. unfold access. specialize (Hf env n (sr_db (env n) db)).
  destruct (f _ _) as [db' r]; simpl in *.
  eapply rtc_l; [|exact Hf]. right. eauto.
Qed.

Lemma writes_load {A} (f : ResumeDB -> A) : writes_only (load f).
Proof. apply writes_access. intros. apply rtc_refl. Qed.

Lemma writes_observe {A} (f : Surroundings -> result PlanError A) : writes_only (observe f).
Proof. apply writes_access. intros. apply rtc_refl. Qed.

Lemma writes_require {A} (o : option A) code : writes_only (require_some o code).
Proof. destruct o; [apply writes_ret|apply writes_pure]. Qed.

#[export] Hint Resolve writes_ret writes_pure writes_bind writes_load writes_observe writes_require : assistant.

Lemma load_result_writes env execution_id call db :
  rtc (any_write env) db (load_committed_tool_result execution_id call db).1.
Proof.
  unfold load_committed_tool_result.
  destruct (rd_tool_results db !! _) as [r|] eqn:Er; [|apply rtc_refl].
  destruct (bool_decide _) eqn:Ec; [apply rtc_refl|].
  destruct (rd_invocations db !! _) as [i|] eqn:Ei; [|apply rtc_refl].
  destruct (negb _); [apply rtc_refl|].
  destruct (negb (bool_decide _)) eqn:Eo; [apply rtc_refl|]. breflect.
  apply rtc_once. left. assert (rs_commit_state r = PROVISIONAL) as Hp by by destruct (rs_commit_state r).
  pose proof (OwnPromotion db (execution_id, call) r i Er Hp Ei Eo) as H. unfold promoted in H.
  by destruct (terminal_projection i) as [[[[? ?] ?] ?] ?].
Qed.

Lemma report_written (db db' : ResumeDB) i s :
  db' = with_store db s -> current_at db i (iv_revision i - 1) -> wrote db db' i ->
  iv_remote_outcome i = Some TERMINAL_COMMITTED -> terminal_invocation (iv_state i) = true ->
  own_write db db'.
Proof.
  intros -> (cur & Hc & Hr) Hw Ho Ht. eapply OwnReport; [exact Hc|lia|exact Hw|done|done].
Qed.

(** Only the capability tables change. *)
Lemma commit_store db db' i r now o :
  commit_terminal db i r now = (db', o) -> exists s, db' = with_store db s.
Proof.
  unfold commit_terminal. intros H.
  repeat (crush_step_in H; try discriminate H); injection H as <- <-;
    try (eexists; symmetry; apply with_store_same);
    rename select (compare_and_set _ _ _ = _) into Hc; unfold compare_and_set in Hc; simpl in Hc;
    unfold lift_store_op in Hc; destruct (Sql.compare_and_set _ _ _); injection Hc as <- ?; eauto.
Qed.

Lemma reconcile_commit (db db' : ResumeDB) later connections id conn answer now o :
  reconcile db later connections id conn answer now = (db', o) ->
  db' = db \/ db' = later db \/
  exists i r, rr_status r = REC_TERMINAL /\ commit_terminal (later db) i r now = (db', o).
Proof.
  unfold reconcile. intros H.
  repeat (crush_step_in H; try discriminate H); try (injection H as <- <-; by auto); eauto 7.
Qed.

Lemma ask_client_writes id conn : writes_only (ask_client id conn).
Proof.
  apply writes_access. intros env n db. destruct (sr_connections _) as [c|]; [|apply rtc_refl].
  destruct (reconcile _ _ _ _ _ _ _) as [db' o] eqn:E. simpl.
  assert (Hl : any_write env db (sr_later (env n) db)) by (right; eauto).
  destruct (reconcile_commit _ _ _ _ _ _ _ _ _ E) as [->|[->|(i & r & Hs & Hc)]];
    [apply rtc_refl|by apply rtc_once|].
  destruct (commit_store _ _ _ _ _ _ Hc) as [s Hst].
  destruct (commit_terminal_cases db _ _ _ _ _ _ _ _ eq_refl eq_refl Hs Hc)
    as [r' i' Hi Hl' Heq|r' i' _ _ Hcur Hw Hrep|r' _ Heq|o Hn [Heq|Heq]];
    try (rw Heq; first [apply rtc_refl|by apply rtc_once]).
  eapply rtc_l; [exact Hl|]. apply rtc_once. left.
  eapply report_written; [exact Hst|done|done|by destruct Hrep|by eapply reports_terminal].
Qed.
#[export] Hint Resolve ask_client_writes : assistant.

Ltac writes := repeat first
  [ apply writes_bind; [|intros ?] | progress eauto with assistant nocore
  | case_match | apply writes_access; intros; first [apply rtc_refl|apply load_result_writes] ].

Lemma projection_writes execution_id x i : writes_only (require_committed_projection execution_id x i).
Proof. unfold require_committed_projection. writes. Qed.

Lemma load_invocation_writes id : writes_only (load_invocation id).
Proof. apply writes_access. intros. apply rtc_refl. Qed.
#[export] Hint Resolve projection_writes load_invocation_writes : assistant.

Lemma classify_writes execution_id x i user client conn :
  writes_only (classify execution_id x i user client conn).
Proof. unfold classify, reconcile_action. writes. Qed.

Lemma missing_writes execution_id ids ordered : writes_only (missing_calls execution_id ids ordered).
Proof. induction ordered; simpl; writes. Qed.
#[export] Hint Resolve classify_writes missing_writes : assistant.

Lemma plan_actions_writes execution_id pending user client conn :
  writes_only (plan_actions execution_id pending user client conn).
Proof. induction pending; simpl; unfold plan_action; writes. Qed.
#[export] Hint Resolve plan_actions_writes : assistant.

Lemma build_plan_writes execution_id checkpoint_id user client conn :
  writes_only (build_resume_plan execution_id checkpoint_id user client conn).
Proof.
  unfold build_resume_plan, locate_wait, validate_task, validate_budget, load_batch,
    validate_active_batch_coverage. writes.
Qed.

(** [planning_writes]: whatever other transactions run beside it and however it ends, planning a
    resume writes nothing but the promotion of provisional tool results whose invocation has
    committed a terminal outcome, with the success, output and error of the invocation, and the
    client's report of such an outcome, each one revision after the record it replaces: no
    claim, execution, task or budget. *)
Theorem planning_writes execution_id checkpoint_id user client conn env n db :
  rtc (any_write env) db (build_resume_plan execution_id checkpoint_id user client conn env n db).1.2.
Proof. apply build_plan_writes. Qed.

(** ** Inversion of a plan *)

Lemma plan_bind_ok {A B} (m : Plan A) (k : A -> Plan B) env n db n' db' b :
  (m ≫= k) env n db = (n', db', Ok b) ->
  exists n1 db1 a, m env n db = (n1, db1, Ok a) /\ k a env n1 db1 = (n', db', Ok b).
Proof.
  unfold mbind, plan_bind. destruct (m env n db) as [[n1 db1] [a|e]]; [|done]. eauto.
Qed.

Lemma ret_ok {A} (a : A) env n db n' db' b :
  (mret a : Plan A) env n db = (n', db', Ok b) -> a = b /\ db' = db.
Proof. by intros [= _ <- <-]. Qed.

Lemma pure_ok {A} (r : result PlanError A) env n db n' db' a :
  pure_plan r env n db = (n', db', Ok a) -> r = Ok a /\ db' = db.
Proof. by intros [= _ <- ->]. Qed.

Lemma reject_unless_ok b code env n db n' db' u :
  reject_unless b code env n db = (n', db', Ok u) -> b = true /\ db' = db.
Proof. intros [= _ <- H]. by destruct b. Qed.

Lemma defer_unless_ok b code env n db n' db' u :
  defer_unless b code env n db = (n', db', Ok u) -> b = true /\ db' = db.
Proof. intros [= _ <- H]. by destruct b. Qed.

Lemma require_some_ok {A} (o : option A) code env n db n' db' a :
  require_some o code env n db = (n', db', Ok a) -> o = Some a /\ db' = db.
Proof. destruct o; [|done]. by intros [= _ <- ->]. Qed.

Lemma access_ok {A} (f : Surroundings -> ResumeDB -> ResumeDB * result PlanError A) env n db n' db' a :
  access f env n db = (n', db', Ok a) -> f (env n) (sr_db (env n) db) = (db', Ok a).
Proof. unfold access. destruct (f _ _) as [d r]. by intros [= _ <- ->]. Qed.

Lemma load_ok {A} (f : ResumeDB -> A) env n db n' db' a :
  load f env n db = (n', db', Ok a) -> db' = sr_db (env n) db /\ a = f (sr_db (env n) db).
Proof. by intros [= _ <- <-]. Qed.

Lemma observe_ok {A} (f : Surroundings -> result PlanError A) env n db n' db' a :
  observe f env n db = (n', db', Ok a) -> db' = sr_db (env n) db /\ f (env n) = Ok a.
Proof. by intros [= _ <- <-]. Qed.

(** Take apart the binds of a program that returned. *)
Ltac plan_inv_step :=
  match goal with
  | H : (_ ≫= _) _ _ _ = (_, _, Ok _) |- _ =>
      apply plan_bind_ok in H;
      let n := fresh "n" in let d := fresh "d" in let a := fresh "a" in
      let H1 := fresh "Hm" in destruct H as (n & d & a & H1 & H)
  | H : mret _ _ _ _ = (_, _, Ok _) |- _ => apply ret_ok in H as [? ?]
  | H : pure_plan _ _ _ _ = (_, _, Ok _) |- _ => apply pure_ok in H as [? ?]
  | H : reject_unless _ _ _ _ _ = (_, _, Ok _) |- _ => apply reject_unless_ok in H as [? ?]
  | H : defer_unless _ _ _ _ _ = (_, _, Ok _) |- _ => apply defer_unless_ok in H as [? ?]
  | H : require_some _ _ _ _ _ = (_, _, Ok _) |- _ => apply require_some_ok in H as [? ?]
  | H : load _ _ _ _ = (_, _, Ok _) |- _ => apply load_ok in H as [? ?]
  | H : observe _ _ _ _ = (_, _, Ok _) |- _ => apply observe_ok in H as [? ?]
  | H : access _ _ _ _ = (_, _, Ok _) |- _ => apply access_ok in H
  | H : (let (_, _) := ?a in _) _ _ _ = (_, _, Ok _) |- _ => destruct a
  end.
Ltac plan_inv := repeat (plan_inv_step; simplify_eq/=).

(** ** What a plan promises *)

(** An action has a reason of its own kind. *)
Definition justified (a : ResumeInvocationAction) : Prop :=
  match ac_action a with
  | REUSE_COMMITTED => terminal_invocation (ac_expected_state a) = true /\
                       ac_expected_outcome a = Some TERMINAL_COMMITTED
  | DISPATCH_NOT_DISPATCHED => ac_expected_outcome a = Some NOT_DISPATCHED
  | REPLAY_SAFE => safe_replay (ac_idempotency a) = true
  end.

Lemma build_action_ok x i kind a : build_action x i kind = Ok a ->
  ac_invocation_id a = iv_id i /\ ac_tool_call_id a = pd_tool_call_id x /\ ac_ordinal a = pd_ordinal x /\
  ac_capability_id a = iv_capability_id i /\
  d_capability_version (iv_details i) = Some (ac_capability_version a) /\
  d_request_fingerprint (iv_details i) = Some (ac_request_fingerprint a) /\
  ac_idempotency a = d_idempotency (iv_details i) /\ ac_expected_revision a = iv_revision i /\
  ac_expected_state a = iv_state i /\ ac_expected_outcome a = iv_remote_outcome i /\ ac_action a = kind.
Proof.
  unfold build_action. destruct (d_capability_version _), (d_request_fingerprint _); try done.
  destruct (_ && _); [|done]. by intros [= <-].
Qed.

Lemma projection_ok execution_id x i env n db n' db' u :
  require_committed_projection execution_id x i env n db = (n', db', Ok u) ->
  iv_remote_outcome i = Some TERMINAL_COMMITTED /\ terminal_invocation (iv_state i) = true /\
  exists m r,
    load_committed_tool_result execution_id (pd_tool_call_id x) (sr_db (env m) db) = (db', Ok (Some r)) /\
    rs_invocation_id r = iv_id i /\ rs_capability_id r = iv_capability_id i /\
    projection_matches i r = true.
Proof. unfold require_committed_projection. intros H. plan_inv. breflect.
  split_and!; [done..|]. eexists _, _. split_and!; [eassumption|done..].
Qed.

Lemma classify_ok execution_id x i user client conn env n db n' db' a :
  classify execution_id x i user client conn env n db = (n', db', Ok a) ->
  ac_tool_call_id a = pd_tool_call_id x /\ ac_ordinal a = pd_ordinal x /\ justified a.
Proof.
  unfold classify, reconcile_action. intros H. destruct (iv_remote_outcome i) as [[]|] eqn:Eo; try done; plan_inv.
  all: repeat (case_match; plan_inv; try done).
  all: repeat match goal with H : require_committed_projection _ _ _ _ _ _ = _ |- _ =>
         apply projection_ok in H as (? & ? & _) end.
  all: match goal with H : build_action _ _ _ = _ |- _ =>
         apply build_action_ok in H as (? & ? & ? & ? & ? & ? & ? & ? & ? & ? & Hk) end.
  all: split_and!; [done..|]; unfold justified; rw Hk; repeat split; congruence.
Qed.

(** Committed results stay. *)
Definition results_kept (a b : ResumeDB) : Prop :=
  forall key r, rd_tool_results a !! key = Some r -> rs_commit_state r = COMMITTED_RESULT ->
    rd_tool_results b !! key = Some r.

Definition keeps_results (env : nat -> Surroundings) : Prop :=
  forall n db, results_kept db (sr_db (env n) db) /\ results_kept db (sr_later (env n) db).

#[export] Instance results_kept_preorder : PreOrder results_kept.
Proof. split; [by intros a key r|]. intros a b c Hab Hbc key r Hr Hc. by apply Hbc; [apply Hab|]. Qed.

Lemma own_write_results a b : own_write a b -> results_kept a b.
Proof.
  intros [key r i Hr Hp _ _|s cur i _ _ _ _ _] key' r' Hr' Hc; simpl; [|done].
  rw lookup_insert_ne; [|done]. intros ->. congruence.
Qed.

Lemma rtc_preorder {A} (R Q : relation A) `{!PreOrder Q} x y :
  (forall a b, R a b -> Q a b) -> rtc R x y -> Q x y.
Proof. intros HRQ. induction 1; [done|]. etransitivity; [by apply HRQ|done]. Qed.

Lemma plan_results {A} (m : Plan A) env n db n' db' r :
  writes_only m -> keeps_results env -> m env n db = (n', db', r) -> results_kept db db'.
Proof.
  intros Hm He H. replace db' with ((m env n db).1.2) by by rw H. apply (rtc_preorder (any_write env) results_kept); [|apply Hm].
  intros a b [Ho|(k & [->| ->])]; [by apply own_write_results|apply He..].
Qed.

Definition has_result (db : ResumeDB) (execution_id call : string) : Prop :=
  exists r, rd_tool_results db !! (execution_id, call) = Some r /\ rs_commit_state r = COMMITTED_RESULT.

Lemma has_result_kept a b execution_id call :
  results_kept a b -> has_result a execution_id call -> has_result b execution_id call.
Proof. intros Hk (r & Hr & Hc). exists r. split; [by apply Hk|done]. Qed.

Lemma load_result_some execution_id call db db' r :
  load_committed_tool_result execution_id call db = (db', Ok (Some r)) ->
  rd_tool_results db' !! (execution_id, call) = Some r /\ rs_commit_state r = COMMITTED_RESULT.
Proof.
  unfold load_committed_tool_result. intros H.
  repeat (crush_step_in H; try discriminate H); injection H as <- <-; breflect; [done|].
  simpl. by rw lookup_insert_eq.
Qed.

Lemma missing_calls_ok execution_id ids ordered env n db n' db' missing :
  keeps_results env -> missing_calls execution_id ids ordered env n db = (n', db', Ok missing) ->
  Forall (fun call => call ∈ ids \/ call ∈ missing \/ has_result db' execution_id call) ordered.
Proof.
  intros He. revert n db n' missing. induction ordered as [|call rest IH]; intros n db n' missing H; [done|].
  simpl in H. destruct (bool_decide (call ∈ ids)) eqn:Ei; breflect.
  { constructor; [by left|by eapply IH]. }
  plan_inv. rename select (missing_calls _ _ _ _ _ _ = _) into Hmc.
  constructor.
  - case_bool_decide; [by right; left; left|]. right. right.
    destruct a as [r|]; [|done].
    rename select (load_committed_tool_result _ _ _ = _) into Hl. apply load_result_some in Hl.
    eapply has_result_kept; [|by exists r].
    by apply (plan_results _ _ _ _ _ _ _ (missing_writes execution_id ids rest) He Hmc).
  - eapply Forall_impl; [exact (IH _ _ _ _ Hmc)|]. intros c [?|[?|?]]; auto. right. left. case_bool_decide; [by right|done].
Qed.

Lemma pending_order_sublist previous pending ordered :
  -1 <= previous -> validate_pending_order previous pending ordered = true ->
  map pd_tool_call_id pending `sublist_of` drop (Z.to_nat (previous + 1)) ordered.
Proof.
  revert previous. induction pending as [|x rest IH]; intros previous Hp H; simpl in *;
    [apply sublist_nil_l|].
  breflect. rename select (_ !! _ = _) into Hl.
  assert (Hs : map pd_tool_call_id rest `sublist_of` drop (Z.to_nat (pd_ordinal x + 1)) ordered)
    by (apply IH; [lia|done]).
  replace (Z.to_nat (pd_ordinal x + 1)) with (S (Z.to_nat (pd_ordinal x))) in Hs by lia.
  apply (sublist_skip (pd_tool_call_id x)) in Hs. rw -(drop_S _ _ _ Hl) in Hs.
  etransitivity; [exact Hs|].
  replace (Z.to_nat (pd_ordinal x)) with
    (Z.to_nat (previous + 1) + (Z.to_nat (pd_ordinal x) - Z.to_nat (previous + 1)))%nat by lia.
  rw -drop_drop. apply sublist_drop.
Qed.

Lemma plan_actions_ok execution_id pending user client conn env n db n' db' actions :
  plan_actions execution_id pending user client conn env n db = (n', db', Ok actions) ->
  map ac_tool_call_id actions = map pd_tool_call_id pending /\ Forall justified actions.
Proof.
  revert n db n' actions.
  induction pending as [|x rest IH]; intros n db n' actions H; simpl in H; plan_inv; [done|].
  rename select (plan_action _ _ _ _ _ _ _ _ = _) into Ha. unfold plan_action in Ha. plan_inv.
  rename select (classify _ _ _ _ _ _ _ _ _ = _) into Hc. apply classify_ok in Hc as (Hc & _ & Hj).
  rename select (plan_actions _ _ _ _ _ _ _ _ = _) into Hr. apply IH in Hr as [Hr Hf].
  split; [simpl; congruence|by constructor].
Qed.

Lemma load_batch_ok execution_id k env n db n' db' ordered pending :
  keeps_results env -> load_batch execution_id k env n db = (n', db', Ok (ordered, pending)) ->
  map pd_tool_call_id pending `sublist_of` ordered /\
  Forall (fun call => call ∈ map pd_tool_call_id pending \/ has_result db' execution_id call) ordered.
Proof.
  intros He. unfold load_batch, validate_active_batch_coverage. intros H. plan_inv. breflect. split.
  - rename select (validate_pending_order _ _ _ = _) into Ho. by apply pending_order_sublist in Ho.
  - rename select (missing_calls _ _ _ _ _ _ = _) into Hc. subst.
    apply missing_calls_ok in Hc; [|done]. eapply Forall_impl; [exact Hc|].
    intros call [?|[Hin|?]]; auto. by apply not_elem_of_nil in Hin.
Qed.

Lemma validate_budget_ok k env n db n' db' remaining :
  validate_budget k env n db = (n', db', Ok remaining) ->
  0 < remaining /\ ck_remaining k = Some (Finite remaining) /\ exists m, db' = sr_db (env m) db.
Proof.
  unfold validate_budget. intros H. destruct (ck_remaining k) as [[us|]|]; try done.
  plan_inv. breflect. split_and!; [lia|done|by eexists].
Qed.

(** [plan_sound]: while other transactions keep committed results, a plan that is returned has
    the fingerprint of its own content and budget left, its actions are calls of the tool batch
    in the order of the batch, every other call of the batch has a committed result, and every
    action has its reason: a reused result belongs to an invocation that ended with a committed
    outcome, a dispatched one was never dispatched, a replayed one is idempotent or
    deduplicated. *)
Theorem plan_sound execution_id checkpoint_id user client conn env n db n' db' p :
  keeps_results env ->
  build_resume_plan execution_id checkpoint_id user client conn env n db = (n', db', Ok p) ->
  pl_plan_fingerprint p = resume_plan_fingerprint p /\ 0 < pl_remaining p /\
  map ac_tool_call_id (pl_actions p) `sublist_of` pl_ordered_tool_call_ids p /\
  Forall (fun call => call ∈ map ac_tool_call_id (pl_actions p) \/ has_result db' execution_id call)
    (pl_ordered_tool_call_ids p) /\
  Forall justified (pl_actions p).
Proof.
  intros He. unfold build_resume_plan. intros H. plan_inv.
  rename select (load_batch _ _ _ _ _ = _) into Hb. rename select (plan_actions _ _ _ _ _ _ _ _ = _) into Ha.
  pose proof (load_batch_ok _ _ _ _ _ _ _ _ _ He Hb) as [Hs Hc].
  pose proof (plan_actions_ok _ _ _ _ _ _ _ _ _ _ _ Ha) as [Hcalls Hj]. rw Hcalls. split_and!; [done| |done| |done].
  - rename select (validate_budget _ _ _ _ = _) into Hr. by apply validate_budget_ok in Hr as [? _].
  - eapply Forall_impl; [exact Hc|]. intros call [?|Hr]; [by left|]. right. eapply has_result_kept; [|exact Hr].
    pose proof (plan_results _ _ _ _ _ _ _ (plan_actions_writes _ _ _ _ _) He Ha) as Hk.
    etransitivity; [|exact Hk]. apply He.
Qed.

(** ** Planning undisturbed *)

(** No other transaction runs. *)
Definition quiet (env : nat -> Surroundings) : Prop :=
  forall n db, sr_db (env n) db = db /\ sr_later (env n) db = db.

Lemma quiet_keeps env : quiet env -> keeps_results env.
Proof. intros Hq n db. by destruct (Hq n db) as [-> ->]. Qed.

Lemma quiet_writes {A} (m : Plan A) env n db n' db' r :
  writes_only m -> quiet env -> m env n db = (n', db', r) -> rtc own_write db db'.
Proof.
  intros Hm Hq H. replace db' with ((m env n db).1.2) by by rw H.
  apply (rtc_preorder (any_write env) (rtc own_write)); [|apply Hm].
  intros a b [Ho|(k & Hb)]; [by apply rtc_once|].
  destruct (Hq k a) as [E1 E2]. rw E1 E2 in Hb. by destruct Hb as [->| ->].
Qed.

(** The tables planning does not write. *)
Definition same_rest (a b : ResumeDB) : Prop :=
  rd_agents b = rd_agents a /\ rd_claims b = rd_claims a /\ rd_checkpoints b = rd_checkpoints a /\
  rd_pending b = rd_pending a /\ rd_iterations b = rd_iterations a /\ rd_tool_calls b = rd_tool_calls a.

#[export] Instance same_rest_preorder : PreOrder same_rest.
Proof. unfold same_rest. split; [done|]. intros a b c. naive_solver congruence. Qed.

Lemma own_writes_rest a b : rtc own_write a b -> same_rest a b.
Proof. apply rtc_preorder; [apply _|]. by intros ? ? []. Qed.

(** Invocations are stored under their id, those that may be resumed are parked or have a
    committed outcome, and results belong to their tool call. *)
Record rows_wf (ids : list string) (db : ResumeDB) : Prop := {
  rows_keyed : keyed db;
  rows_parked id i : id ∈ ids -> rd_invocations db !! id = Some i ->
    iv_remote_outcome i = Some TERMINAL_COMMITTED \/
    iv_state i = WAITING /\ iv_wait_reason i = Some WAIT_CONNECTION;
  rows_results key r : rd_tool_results db !! key = Some r ->
    exists c, rd_tool_calls db !! key = Some c /\ rs_invocation_id r = tc_invocation_id c /\
              rs_capability_id r = tc_capability_id c
}.

Lemma own_write_rows ids a b : rows_wf ids a -> own_write a b -> rows_wf ids b.
Proof.
  intros [Hk Hp Hr] [key r i Hl _ _ _|s cur i Hcur _ Hw Ho Ht].
  - split; [done|done|]. simpl. intros key' r'. rw lookup_insert_Some. intros [[<- <-]|[_ H]]; [|by apply Hr].
    apply Hr in Hl. unfold promoted. by destruct (terminal_projection i) as [[[[? ?] ?] ?] ?].
  - split; [|intros id j Hid|done].
    + intros id j. pose proof (Hw id) as E. unfold get_invocation in *. simpl in *. rw E.
      case_bool_decide; [by intros [= <-]|]. apply Hk.
    + pose proof (Hw id) as E. unfold get_invocation, rd_invocations in *. simpl in *. unfold Sql.get in E. rw E.
      case_bool_decide; [intros [= <-]; by left|]. by apply Hp.
Qed.

Lemma own_writes_rows ids a b : rtc own_write a b -> rows_wf ids a -> rows_wf ids b.
Proof. intros H Ha. by apply (rtc_invariant own_write (rows_wf ids) a b (own_write_rows ids)). Qed.

(** The stored records justify an action. *)
Definition backed (db : ResumeDB) (execution_id : string) (x : CheckpointPendingInvocation)
    (i : CapabilityInvocation) (kind : ResumeInvocationActionKind) : Prop :=
  match kind with
  | REUSE_COMMITTED =>
      terminal_invocation (iv_state i) = true /\ iv_remote_outcome i = Some TERMINAL_COMMITTED /\
      exists r, rd_tool_results db !! (execution_id, pd_tool_call_id x) = Some r /\
        rs_commit_state r = COMMITTED_RESULT /\ rs_invocation_id r = iv_id i /\
        rs_capability_id r = iv_capability_id i
  | DISPATCH_NOT_DISPATCHED => iv_remote_outcome i = Some NOT_DISPATCHED
  | REPLAY_SAFE =>
      (iv_remote_outcome i = Some IN_FLIGHT \/ iv_remote_outcome i = Some OUTCOME_UNKNOWN) /\
      safe_replay (d_idempotency (iv_details i)) = true
  end.

Definition backed_action (db : ResumeDB) (execution_id user : string) (client : option string)
    (x : CheckpointPendingInvocation) (a : ResumeInvocationAction) : Prop :=
  exists i, rd_invocations db !! pd_invocation_id x = Some i /\
    validate_semantic_identity execution_id x i user client = Ok tt /\
    build_action x i (ac_action a) = Ok a /\ backed db execution_id x i (ac_action a).

Lemma load_result_store execution_id call db db' r :
  load_committed_tool_result execution_id call db = (db', r) -> rd_invocations db' = rd_invocations db.
Proof.
  unfold load_committed_tool_result. intros H.
  by repeat (crush_step_in H; try discriminate H); injection H as <- <-.
Qed.

Lemma projection_quiet execution_id x i env n db n' db' u :
  quiet env -> require_committed_projection execution_id x i env n db = (n', db', Ok u) ->
  rd_invocations db' = rd_invocations db /\ backed db' execution_id x i REUSE_COMMITTED.
Proof.
  intros Hq (Ho & Ht & m & r & Hl & Hi & Hc & _)%projection_ok. split.
  - apply load_result_store in Hl. rw Hl. by destruct (Hq m db) as [-> _].
  - apply load_result_some in Hl as [? ?]. simpl. eauto 10.
Qed.

Lemma load_invocation_quiet id env n db n' db' i :
  quiet env -> load_invocation id env n db = (n', db', Ok i) ->
  db' = db /\ rd_invocations db !! id = Some i.
Proof.
  intros Hq. unfold load_invocation. intros H. plan_inv. destruct (Hq n db) as [E _]. rw E in H0.
  rw E. split; [done|]. by repeat (crush_step_in H0; simplify_eq/=).
Qed.

(** Asking the client writes the asked invocation only, and nothing when it knows of no end. *)
Lemma ask_client_quiet id conn env n db n' db' r :
  quiet env -> keyed db -> ask_client id conn env n db = (n', db', Ok r) ->
  (forall j, j <> id -> rd_invocations db' !! j = rd_invocations db !! j) /\
  (rr_status r <> REC_TERMINAL -> db' = db).
Proof.
  intros Hq Hk. unfold ask_client. intros H. plan_inv. destruct (Hq n db) as [E1 E2]. rw E1 in H.
  destruct (sr_connections (env n)) as [c|]; [|done].
  destruct (reconcile _ _ _ _ _ _ _) as [d o] eqn:Er.
  destruct (reconcile_cases _ _ _ _ _ _ _ _ _ Hk Er) as [r' i Hi Hl Hd|r' i' Hs Hid _ Hw _|r' Hs Hd|o Hn _];
    simplify_eq/=.
  - done.
  - split; [|done]. intros j Hj. rw E2 in Hw. pose proof (Hw j) as W. by rw bool_decide_false in W.
  - by rw E2.
  - destruct o; simplify_eq/=. by destruct (Hn r).
Qed.

Lemma backed_built db execution_id user client x i kind a :
  rd_invocations db !! pd_invocation_id x = Some i ->
  validate_semantic_identity execution_id x i user client = Ok tt ->
  build_action x i kind = Ok a -> backed db execution_id x i kind ->
  backed_action db execution_id user client x a.
Proof.
  intros Hi Hv Hb Hk. exists i.
  by destruct (build_action_ok _ _ _ _ Hb) as (_ & _ & _ & _ & _ & _ & _ & _ & _ & _ & ->).
Qed.

Lemma reconcile_action_quiet execution_id x i user client conn env n db n' db' a :
  quiet env -> keyed db -> rd_invocations db !! pd_invocation_id x = Some i ->
  iv_remote_outcome i = Some IN_FLIGHT \/ iv_remote_outcome i = Some OUTCOME_UNKNOWN ->
  reconcile_action execution_id x i user client conn env n db = (n', db', Ok a) ->
  (forall j, j <> pd_invocation_id x -> rd_invocations db' !! j = rd_invocations db !! j) /\
  backed_action db' execution_id user client x a.
Proof.
  intros Hq Hk Hi Ho H. unfold reconcile_action in H. rw (Hk _ _ Hi) in H. plan_inv.
  rename select (ask_client _ _ _ _ _ = _) into Ha. apply ask_client_quiet in Ha as [Hf Hopen]; [|done..].
  rename select (load_invocation _ _ _ _ = _) into Hl. apply load_invocation_quiet in Hl as [-> Hc]; [|done].
  destruct a2, (rr_status a0); plan_inv; try done.
  - rename select (require_committed_projection _ _ _ _ _ _ = _) into Hp.
    apply projection_quiet in Hp as [Hs Hb]; [|done].
    split; [intros j Hj; rw Hs; by apply Hf|]. eapply backed_built; try done. by rw Hs.
  - destruct (safe_replay _) eqn:Er; [|done]. plan_inv. specialize (Hopen ltac:(done)). subst.
    split; [done|]. eapply backed_built; try done. split; [congruence|done].
  - destruct (safe_replay _) eqn:Er; [|done]. plan_inv. specialize (Hopen ltac:(done)). subst.
    split; [done|]. eapply backed_built; try done. split; [congruence|done].
Qed.

Lemma classify_quiet execution_id x i user client conn env n db n' db' a :
  quiet env -> keyed db -> rd_invocations db !! pd_invocation_id x = Some i ->
  validate_semantic_identity execution_id x i user client = Ok tt ->
  classify execution_id x i user client conn env n db = (n', db', Ok a) ->
  (forall j, j <> pd_invocation_id x -> rd_invocations db' !! j = rd_invocations db !! j) /\
  backed_action db' execution_id user client x a.
Proof.
  intros Hq Hk Hi Hv H. unfold classify in H.
  destruct (iv_remote_outcome i) as [[]|] eqn:Eo; try done; plan_inv; eauto using reconcile_action_quiet.
  - split; [done|]. by eapply backed_built.
  - rename select (require_committed_projection _ _ _ _ _ _ = _) into Hp.
    apply projection_quiet in Hp as [Hs Hb]; [|done]. rw Hs. split; [done|].
    eapply backed_built; try done. by rw Hs.
Qed.

Lemma backed_action_kept a b execution_id user client x ac :
  rd_invocations b !! pd_invocation_id x = rd_invocations a !! pd_invocation_id x -> results_kept a b ->
  backed_action a execution_id user client x ac -> backed_action b execution_id user client x ac.
Proof.
  intros Hi Hr (i & Hs & Hv & Hb & Hk). exists i. rw Hi. split_and!; [done..|].
  destruct (ac_action ac); simpl in *; [|done..]. naive_solver.
Qed.

Lemma plan_action_writes execution_id x user client conn :
  writes_only (plan_action execution_id x user client conn).
Proof. unfold plan_action. writes. Qed.

Lemma plan_action_quiet execution_id x user client conn env n db n' db' a :
  quiet env -> keyed db -> plan_action execution_id x user client conn env n db = (n', db', Ok a) ->
  (forall j, j <> pd_invocation_id x -> rd_invocations db' !! j = rd_invocations db !! j) /\
  backed_action db' execution_id user client x a.
Proof.
  intros Hq Hk H. unfold plan_action in H. plan_inv.
  rename select (load_invocation _ _ _ _ = _) into Hl. apply load_invocation_quiet in Hl as [-> Hi]; [|done].
  rename select (classify _ _ _ _ _ _ _ _ _ = _) into Hc.
  assert (d2 = d1) as ->.
  { destruct (bool_decide _); plan_inv; [done|]. apply Hq. }
  destruct a1. by eapply classify_quiet.
Qed.

Lemma plan_actions_quiet execution_id pending user client conn env n db n' db' actions :
  quiet env -> rows_wf [] db -> NoDup (map pd_invocation_id pending) ->
  plan_actions execution_id pending user client conn env n db = (n', db', Ok actions) ->
  (forall j, j ∉ map pd_invocation_id pending -> rd_invocations db' !! j = rd_invocations db !! j) /\
  Forall2 (backed_action db' execution_id user client) pending actions.
Proof.
  intros Hq. revert n db n' actions.
  induction pending as [|x rest IH]; intros n db n' actions Hk Hd H; simpl in H; plan_inv; [done|].
  apply NoDup_cons in Hd as [Hx Hd].
  rename select (plan_action _ _ _ _ _ _ _ _ = _) into Ha.
  rename select (plan_actions _ _ _ _ _ _ _ _ = _) into Hr.
  pose proof (quiet_writes _ _ _ _ _ _ _ (plan_action_writes _ _ _ _ _) Hq Ha) as Hw.
  pose proof (plan_results _ _ _ _ _ _ _ (plan_actions_writes _ _ _ _ _) (quiet_keeps _ Hq) Hr) as Hkept.
  apply plan_action_quiet in Ha as [Hf Hb]; [|done|by apply rows_keyed in Hk].
  destruct (IH _ _ _ _ (own_writes_rows _ _ _ Hw Hk) Hd Hr) as [Hf' Hall]. split.
  - intros j Hj. apply not_elem_of_cons in Hj as [? ?]. rw Hf'; [done|]. by apply Hf.
  - constructor; [|done]. eapply backed_action_kept; [|exact Hkept|exact Hb]. by apply Hf'.
Qed.

(** ** Consumption accepts the plan *)

Lemma semantic_identity_ok execution_id x i user client :
  validate_semantic_identity execution_id x i user client = Ok tt ->
  iv_execution_id i = Some execution_id /\ iv_tool_call_id i = Some (pd_tool_call_id x) /\
  iv_capability_id i = pd_capability_id x /\ d_capability_version (iv_details i) = pd_capability_version x /\
  d_request_fingerprint (iv_details i) = pd_request_fingerprint x /\
  d_idempotency (iv_details i) = pd_idempotency x /\ d_owner_user_id (iv_details i) = Some user /\
  d_origin_client_id (iv_details i) = client /\ pd_origin_client_id x = client.
Proof.
  unfold validate_semantic_identity. intros H.
  do 5 (apply guard_bind_ok in H as [? H]). unfold guard_err in H. crush_step_in H; [|done]. by breflect.
Qed.

Lemma filter_unique pending x :
  NoDup (map pd_invocation_id pending) -> x ∈ pending ->
  List.filter (fun y => bool_decide (pd_invocation_id y = pd_invocation_id x)) pending = [x].
Proof.
  induction pending as [|y rest IH]; simpl; intros Hd Hin; [by apply not_elem_of_nil in Hin|].
  apply NoDup_cons in Hd as [Hy Hd]. apply elem_of_cons in Hin as [->|Hin].
  - rw bool_decide_true; [done|]. f_equal. apply elem_of_nil_inv. intros z Hz.
    apply list_elem_of_In, filter_In in Hz as [Hz E]. breflect. apply Hy. rw -E.
    by apply list_elem_of_In, in_map.
  - rw bool_decide_false; [|by apply IH].
    intros E. apply Hy. rw E. by apply list_elem_of_In, in_map, list_elem_of_In.
Qed.

Lemma backed_permitted db p x a :
  rows_wf [pd_invocation_id x] db ->
  backed_action db (pl_execution_id p) (pl_target_user_id p) (pl_target_client_id p) x a ->
  ac_invocation_id a = pd_invocation_id x /\ snapshot_matches x a p = true /\
  exists i, rd_invocations db !! ac_invocation_id a = Some i /\
    invocation_matches i a p && action_permitted db p a i = true.
Proof.
  intros Hwf (i & Hi & Hv & Hb & Hk). apply semantic_identity_ok in Hv as (? & ? & ? & ? & ? & ? & ? & ? & ?).
  pose proof (rows_keyed _ _ Hwf _ _ Hi) as Hid.
  destruct (build_action_ok _ _ _ _ Hb) as (Ei & Ec & Eo & Ecap & Ever & Efp & Eid & Erev & Est & Eout & _).
  rw Ei Hid. split_and!; [done| |exists i; split; [done|]].
  - unfold snapshot_matches. repeat (apply andb_true_intro; split); try apply bool_decide_eq_true;
      try apply Z.eqb_eq; congruence.
  - apply andb_true_intro; split.
    + unfold invocation_matches. repeat (apply andb_true_intro; split); try apply bool_decide_eq_true;
        try apply Z.eqb_eq; congruence.
    + unfold action_permitted. pose proof (rows_parked _ _ Hwf (pd_invocation_id x) i) as Hp.
      specialize (Hp ltac:(by left) Hi). destruct (ac_action a); simpl in Hk.
      * destruct Hk as (-> & -> & r & Hr & E0 & E1 & E2). rw Ec Hr E0 Ei Ecap E1 E2. by rw !bool_decide_true.
      * rw Hk. destruct Hp as [Hp|[-> ->]]; [congruence|done].
      * destruct Hk as [Ho ->]. destruct Hp as [Hp|[-> ->]]; [destruct Ho; congruence|].
        by destruct Ho as [->| ->].
Qed.

Lemma rows_wf_fewer ids ids' db : (forall x, x ∈ ids' -> x ∈ ids) -> rows_wf ids db -> rows_wf ids' db.
Proof. intros Hs [Hk Hp Hr]. split; [done| |done]. intros id i Hid. apply Hp. by apply Hs. Qed.

Lemma check_actions_accept db p pending sub actions :
  NoDup (map pd_invocation_id pending) -> (forall x, x ∈ sub -> x ∈ pending) ->
  rows_wf (map pd_invocation_id pending) db ->
  Forall2 (backed_action db (pl_execution_id p) (pl_target_user_id p) (pl_target_client_id p)) sub actions ->
  check_actions db p pending actions = Ok tt.
Proof.
  intros Hd Hsub Hwf H. induction H as [|x a sub actions Hb _ IH]; [done|]. simpl.
  assert (Hx : x ∈ pending) by (apply Hsub; by left).
  assert (Hw : rows_wf [pd_invocation_id x] db).
  { eapply rows_wf_fewer; [|exact Hwf]. intros y Hy. apply list_elem_of_singleton in Hy as ->.
    by apply list_elem_of_In, in_map, list_elem_of_In. }
  destruct (backed_permitted _ _ _ _ Hw Hb) as (Hid & Hs & i & Hi & Hm).
  unfold pending_by_invocation. rw Hid filter_unique; [done..|]. simpl. rw Hs -Hid Hi Hm. simpl.
  apply IH. intros y Hy. apply Hsub. by right.
Qed.

Lemma same_set_refl l : same_set l l = true.
Proof.
  unfold same_set. rw andb_diag. apply forallb_forall. intros x Hx.
  apply bool_decide_eq_true. by apply list_elem_of_In.
Qed.

Lemma backed_ids db execution_id user client pending actions :
  keyed db -> Forall2 (backed_action db execution_id user client) pending actions ->
  map ac_invocation_id actions = map pd_invocation_id pending /\
  map ac_tool_call_id actions = map pd_tool_call_id pending /\ length pending = length actions.
Proof.
  intros Hk. induction 1 as [|x a pending actions (i & Hi & _ & Hb & _) _ (E1 & E2 & E3)]; [done|].
  destruct (build_action_ok _ _ _ _ Hb) as (Ei & Ec & _). simpl. rw E1 E2 E3 Ei Ec. by rw (Hk _ _ Hi).
Qed.

Lemma covered_accept ids db p call :
  rows_wf ids db ->
  call ∈ map ac_tool_call_id (pl_actions p) \/ has_result db (pl_execution_id p) call ->
  covered db p call = true.
Proof.
  intros Hwf H. unfold covered. apply orb_true_iff. destruct H as [H|(r & Hr & Hc)].
  - left. by apply bool_decide_eq_true.
  - right. destruct (rows_results _ _ Hwf _ _ Hr) as (c & Hl & E1 & E2). rw Hl Hr Hc E1 E2.
    by rw !bool_decide_true.
Qed.

Lemma check_invocations_accept db p k pending :
  rd_pending db !! pl_checkpoint_id p = Some pending ->
  ck_origin_client_id k = pl_target_client_id p ->
  is_text (ck_origin_connection_id k) &&
    bool_decide (ck_origin_connection_id k = pl_target_connection_id p) = false ->
  NoDup (map pd_invocation_id pending) -> NoDup (map pd_tool_call_id pending) ->
  rows_wf (map pd_invocation_id pending) db ->
  Forall2 (backed_action db (pl_execution_id p) (pl_target_user_id p) (pl_target_client_id p))
    pending (pl_actions p) ->
  Forall (fun call => call ∈ map ac_tool_call_id (pl_actions p) \/ has_result db (pl_execution_id p) call)
    (pl_ordered_tool_call_ids p) ->
  check_invocations db p k = Ok tt.
Proof.
  intros Hp Hcl Hco Hd Hd' Hwf Hb Hc. unfold check_invocations. rw Hp Hcl.
  rw (bool_decide_true (pl_target_client_id p = pl_target_client_id p)); [done|].
  rw Hco. simpl.
  destruct (backed_ids _ _ _ _ _ _ (rows_keyed _ _ Hwf) Hb) as (E1 & E2 & E3).
  unfold pending_matches. rw E1 E2 !same_set_refl E3 Nat.eqb_refl !bool_decide_true; [done..|]. simpl.
  replace (forallb _ _) with true.
  - simpl. by eapply check_actions_accept.
  - symmetry. apply forallb_forall. intros call Hin. eapply covered_accept; [exact Hwf|].
    rw Forall_forall in Hc. by apply Hc, list_elem_of_In.
Qed.

Ltac quiet_reads Hq :=
  repeat match goal with
  | H : context [sr_db (?env ?n) ?db] |- _ => rw (proj1 (Hq n db)) in H
  | |- context [sr_db (?env ?n) ?db] => rw (proj1 (Hq n db))
  end.

Lemma locate_wait_quiet execution_id checkpoint_id client conn env n db n' db' e k :
  quiet env -> locate_wait execution_id checkpoint_id client conn env n db = (n', db', Ok (e, k)) ->
  db' = db /\ get_execution (rd_agents db) execution_id = Some e /\ e_state e = "WAITING" /\
  e_current_checkpoint_id e = Some checkpoint_id /\ rd_checkpoints db !! checkpoint_id = Some k /\
  ck_execution_id k = e_id e /\ ck_execution_revision k = e_revision e /\ ck_id k = checkpoint_id /\
  e_wait_reason e = Some (ck_wait_reason k) /\ ck_wait_reason k = "CONNECTION" /\
  is_text (ck_origin_connection_id k) && bool_decide (ck_origin_connection_id k = Some conn) = false /\
  ck_origin_client_id k = client.
Proof.
  intros Hq. unfold locate_wait. intros H. plan_inv. quiet_reads Hq. breflect.
  rename select (load_current_checkpoint _ _ = _) into Hk.
  rename select (Some e = _) into He. symmetry in He.
  rename select (e_current_checkpoint_id e = _) into Hc. rename select (_ \/ _) into Hconn.
  unfold load_current_checkpoint in Hk. rw He Hc in Hk. simpl in Hk.
  destruct (truthy checkpoint_id); [|done].
  destruct (rd_checkpoints db !! checkpoint_id) as [k'|] eqn:Ek; [|done].
  simpl in Hk. destruct (_ && _) eqn:Ei in Hk; [|done]. injection Hk as ->.
  breflect. split_and!; try done. by apply andb_false_iff.
Qed.

Lemma validate_task_quiet e user env n db n' db' u :
  quiet env -> validate_task e user env n db = (n', db', Ok u) ->
  db' = db /\ forall task_id, e_task_id e = Some task_id -> truthy task_id = true ->
    exists t, get_task (rd_agents db) task_id = Some t /\ t_session_id t = e_session_id e /\
      t_created_by t = user /\ task_terminal (t_status t) = false /\
      forall b, e_branch_id e = Some b -> branch_current (rd_agents db) (e_task_id e) b (e_id e) = true.
Proof.
  intros Hq. unfold validate_task. intros H. destruct (e_task_id e) as [task_id|] eqn:Et; plan_inv; [|done].
  destruct (truthy task_id) eqn:Ett; simpl in H; plan_inv; [|split; [done|]; intros; congruence].
  quiet_reads Hq. breflect. rename select (Some _ = get_task _ _) into Hg. symmetry in Hg.
  destruct (e_branch_id e) as [b|] eqn:Eb; plan_inv; quiet_reads Hq;
    (split; [done|]; intros ? [= <-] _; eexists; split_and!; [exact Hg|done..|]); [|done].
  by intros ? [= <-].
Qed.

(** What the writers of a waiting checkpoint leave in the tables. *)
Record resumable (db : ResumeDB) (execution_id checkpoint_id : string) : Prop := {
  ru_rows : rows_wf (map pd_invocation_id (default [] (rd_pending db !! checkpoint_id))) db;
  ru_invocations : NoDup (map pd_invocation_id (default [] (rd_pending db !! checkpoint_id)));
  ru_calls : NoDup (map pd_tool_call_id (default [] (rd_pending db !! checkpoint_id)));
  ru_execution e : get_execution (rd_agents db) execution_id = Some e ->
    e_id e = execution_id /\ e_task_id e <> Some "";
  ru_checkpoint e k : get_execution (rd_agents db) execution_id = Some e ->
    rd_checkpoints db !! checkpoint_id = Some k ->
    ck_session_id k = e_session_id e /\ ck_task_id k = e_task_id e /\ ck_branch_id k = e_branch_id e /\
    e_wait_expires_at e = ck_wait_expires_at k;
  ru_budget e t : get_execution (rd_agents db) execution_id = Some e -> e_task_id e = Some t ->
    exists b, get_task_budget (rd_agents db) t = Some b /\ tb_state (row_budget b) = OPEN
}.

Lemma lock_task_accept db e k ordered transcript remaining actions user client conn fp execution_id checkpoint_id :
  resumable db execution_id checkpoint_id -> get_execution (rd_agents db) execution_id = Some e ->
  (forall task_id, e_task_id e = Some task_id -> truthy task_id = true ->
    exists t, get_task (rd_agents db) task_id = Some t /\ t_session_id t = e_session_id e /\
      t_created_by t = user /\ task_terminal (t_status t) = false /\
      forall b, e_branch_id e = Some b -> branch_current (rd_agents db) (e_task_id e) b (e_id e) = true) ->
  exists t, lock_task db (plan_values e k ordered transcript remaining actions user client conn fp) = Ok t.
Proof.
  intros Hru He Ht. unfold lock_task; simpl. destruct (e_task_id e) as [task_id|] eqn:Et; [|by exists None].
  destruct (ru_execution _ _ _ Hru _ He) as [_ Hne].
  destruct (Ht task_id eq_refl) as (t & Hg & Hs & Hc & Hnt & Hb); [by destruct task_id|].
  destruct (ru_budget _ _ _ Hru _ _ He Et) as (b & Hbud & Hopen).
  exists (Some t). rw Hg Hs Hc Hnt Hbud Hopen. rw !bool_decide_true; [done..|]. simpl.
  destruct (e_branch_id e) as [br|]; [|done]. by rw (Hb br eq_refl).
Qed.

Lemma check_authority_accept db e k ordered transcript remaining actions user client conn fp execution_id
    checkpoint_id :
  resumable db execution_id checkpoint_id -> get_execution (rd_agents db) execution_id = Some e ->
  e_state e = "WAITING" -> e_current_checkpoint_id e = Some checkpoint_id ->
  rd_checkpoints db !! checkpoint_id = Some k -> ck_execution_id k = e_id e ->
  ck_execution_revision k = e_revision e -> ck_id k = checkpoint_id ->
  e_wait_reason e = Some (ck_wait_reason k) -> ck_wait_reason k = "CONNECTION" ->
  0 < remaining -> ck_remaining k = Some (Finite remaining) ->
  let p := plan_values e k ordered transcript remaining actions user client conn fp in
  (exists t, lock_task db p = Ok t) ->
  exists t, check_authority db db p = Ok (e, k, t).
Proof.
  intros Hru He Hs Hcur Hk Hke Hrev Hid Hw Hc Hpos Hrem p [t Hl]. exists t.
  destruct (ru_execution _ _ _ Hru _ He) as [Hei _].
  destruct (ru_checkpoint _ _ _ Hru _ _ He Hk) as (Ks & Kt & Kb & Kw).
  unfold check_authority. subst p. cbn [plan_values pl_execution_id pl_checkpoint_id
    pl_expected_execution_revision pl_remaining pl_wait_expires_at] in *.
  rw Hei He Hs Z.eqb_refl Hcur Hid Hk Hrem Kw Z.eqb_refl Hw Hc. 
  unfold same_lineage, checkpoint_current; cbn [plan_values pl_session_id pl_agent_id pl_task_id pl_branch_id
    pl_parent_execution_id pl_retry_of_execution_id pl_base_execution_id pl_base_checkpoint_id
    pl_correlation_id pl_iteration pl_execution_id].
  rw Hke Hei Hrev Ks Kt Kb Hw Hc !Z.eqb_refl !bool_decide_true; [done..|].
  rw (proj2 (Z.ltb_lt 0 remaining) Hpos). simpl. by rw Hl.
Qed.

Lemma resumable_kept a b execution_id checkpoint_id :
  rtc own_write a b -> resumable a execution_id checkpoint_id -> resumable b execution_id checkpoint_id.
Proof.
  intros Hw [Hr Hi Hc He Hk Hb]. destruct (own_writes_rest _ _ Hw) as (Ea & _ & Ek & Ep & _ & _).
  split; rw ?Ea ?Ek ?Ep; try done. by eapply own_writes_rows.
Qed.

Lemma consume_reaches_grant db sp c e k t :
  plan_args (sp_plan sp) = None -> get_resume_claim db (sp_claim_id sp) = Some c ->
  claim_matches_plan c sp = true -> resume_plan_fingerprint (sp_plan sp) = pl_plan_fingerprint (sp_plan sp) ->
  cl_state c = CLAIM_CREATED -> cl_revision c = sp_expected_claim_revision sp ->
  sp_now sp < cl_expires_at c -> check_authority db db (sp_plan sp) = Ok (e, k, t) ->
  wait_expired e (sp_now sp) = false -> check_invocations db (sp_plan sp) k = Ok tt ->
  consume_resume_claim_once db db sp =
    match grant db c (sp_plan sp) t (sp_now sp) with
    | Ok db' => (db', Done (granted c (sp_plan sp)))
    | Err o => (db, o)
    end.
Proof.
  intros Ha Hg Hm Hf Hs Hr Hx Hau Hwt Hi. unfold consume_resume_claim_once. rw Ha.
  unfold consume_entry. rw Hg Hm Hf Hs Hr Z.eqb_refl (proj2 (Z.leb_gt _ _) Hx).
  rw bool_decide_true; [done|]. simpl. by rw Hau Hwt Hi.
Qed.

Lemma load_batch_quiet execution_id k env n db n' db' ordered pending :
  quiet env -> rd_checkpoints db !! ck_id k = Some k ->
  load_batch execution_id k env n db = (n', db', Ok (ordered, pending)) ->
  rd_pending db !! ck_id k = Some pending.
Proof.
  intros Hq Hk. unfold load_batch. intros H. plan_inv. quiet_reads Hq. breflect.
  rename select (map _ _ <> []) into Hne.
  unfold load_checkpoint_pending_invocations in Hne |- *. rw Hk in Hne |- *. simpl in *.
  by destruct (rd_pending db !! ck_id k).
Qed.

Lemma load_batch_writes execution_id k : writes_only (load_batch execution_id k).
Proof. unfold load_batch, validate_active_batch_coverage. writes. Qed.

Lemma target_client_text user client conn sr :
  validate_target_connection user client conn sr = Ok tt -> is_text client = true.
Proof. intros H. by apply guard_bind_ok in H as [H _]. Qed.

Lemma plan_checks_pass execution_id checkpoint_id user client conn env n db n' db' p :
  quiet env -> resumable db execution_id checkpoint_id ->
  build_resume_plan execution_id checkpoint_id user client conn env n db = (n', db', Ok p) ->
  exists e k t, check_authority db' db' p = Ok (e, k, t) /\ check_invocations db' p k = Ok tt /\
    e_wait_expires_at e = pl_wait_expires_at p.
Proof.
  intros Hq Hru H.
  pose proof (quiet_writes _ _ _ _ _ _ _ (build_plan_writes _ _ _ _ _) Hq H) as Hall.
  destruct (own_writes_rest _ _ Hall) as (Ea & _ & Ek & Ep & _).
  pose proof (resumable_kept _ _ _ _ Hall Hru) as Hru'.
  unfold build_resume_plan in H. plan_inv. quiet_reads Hq.
  rename select (locate_wait _ _ _ _ _ _ _ = _) into Hl. rename select (validate_task _ _ _ _ _ = _) into Ht.
  rename select (validate_budget _ _ _ _ = _) into Hb. rename select (load_batch _ _ _ _ _ = _) into Hba.
  rename select (plan_actions _ _ _ _ _ _ _ _ = _) into Hac.
  apply locate_wait_quiet in Hl as (-> & He & Hs & Hc & Hk & Hke & Hrev & Hid & Hwr & Hco & Hnew & Hcl); [|done].
  apply validate_task_quiet in Ht as [-> Ht]; [|done].
  apply validate_budget_ok in Hb as (Hpos & Hrem & m & ->). quiet_reads Hq.
  rw -Hid in Hk. pose proof (load_batch_quiet _ _ _ _ _ _ _ _ _ Hq Hk Hba) as Hp.
  pose proof (quiet_writes _ _ _ _ _ _ _ (load_batch_writes _ _) Hq Hba) as Hwb.
  apply load_batch_ok in Hba as [_ Hcov]; [|by apply quiet_keeps].
  pose proof (ru_rows _ _ _ Hru) as Hrows. pose proof (ru_rows _ _ _ Hru') as Hrows'.
  pose proof (ru_invocations _ _ _ Hru) as Hni. pose proof (ru_calls _ _ _ Hru) as Hnc.
  rw -Hid Ep Hp in Hrows Hrows' Hni Hnc. simpl in Hrows, Hrows', Hni, Hnc.
  pose proof (plan_results _ _ _ _ _ _ _ (plan_actions_writes _ _ _ _ _) (quiet_keeps _ Hq) Hac) as Hkept.
  pose proof (own_writes_rows _ _ _ Hwb Hrows) as Hrows3.
  apply plan_actions_quiet in Hac as [_ Hback]; [|done| |done];
    [|by apply (rows_wf_fewer (map pd_invocation_id l0)); [intros ? Hx; apply not_elem_of_nil in Hx|]].
  set (fp := resume_plan_fingerprint _). rw -Ea in He Ht. rw -Ek in Hk. rw -Ep in Hp.
  destruct (check_authority_accept d5 e d l a2 a1 a3 user client conn fp execution_id checkpoint_id)
    as [t Hau]; try done; [by rw -Hid|by eapply lock_task_accept|].
  exists e, d, t. split; [exact Hau|].
  destruct (ru_execution _ _ _ Hru' _ He) as [Heid _].
  rw Hid in Hk. destruct (ru_checkpoint _ _ _ Hru' _ _ He Hk) as (_ & _ & _ & Hexp). split; [|done].
  apply (check_invocations_accept d5 _ d l0); simpl; rw ?Heid; try done.
  eapply Forall_impl; [exact Hcov|]. intros call [Hin|Hr]; [left|right; by eapply has_result_kept].
  by rw (proj1 (proj2 (backed_ids _ _ _ _ _ _ (rows_keyed _ _ Hrows') Hback))).

Qed.

Lemma plan_target_ok execution_id checkpoint_id user client conn env n db n' db' p :
  build_resume_plan execution_id checkpoint_id user client conn env n db = (n', db', Ok p) ->
  is_text client = true /\ pl_target_user_id p = user /\ pl_target_client_id p = client /\
  pl_target_connection_id p = Some conn /\ resume_plan_fingerprint p = pl_plan_fingerprint p.
Proof.
  unfold build_resume_plan. intros H. plan_inv. split_and!; [|done..]. destruct a. by eapply target_client_text.
Qed.

(** C24 plan_consumable: when no other transaction runs, on the tables that a waiting checkpoint
    leaves, a plan that planning returned passes every check of the consumption of a matching
    claim: while neither the claim nor the wait has expired, consumption goes on to acquire the
    capacity and to start the execution. *)
Theorem plan_consumable execution_id checkpoint_id user client conn env n db n' db' p sp c :
  quiet env -> resumable db execution_id checkpoint_id -> truthy user = true -> truthy conn = true ->
  build_resume_plan execution_id checkpoint_id user client conn env n db = (n', db', Ok p) ->
  sp_plan sp = p -> get_resume_claim db' (sp_claim_id sp) = Some c -> claim_matches_plan c sp = true ->
  cl_state c = CLAIM_CREATED -> cl_revision c = sp_expected_claim_revision sp ->
  sp_now sp < cl_expires_at c -> (forall t, pl_wait_expires_at p = Some t -> sp_now sp < t) ->
  exists task,
    consume_resume_claim_once db' db' sp =
      match grant db' c p task (sp_now sp) with
      | Ok d => (d, Done (granted c p))
      | Err o => (db', o)
      end.
Proof.
  intros Hq Hru Hu Hcn H Hp Hg Hm Hs Hr Hx Hw.
  destruct (plan_checks_pass _ _ _ _ _ _ _ _ _ _ _ Hq Hru H) as (e & k & t & Hau & Hi & He).
  exists t. rw -Hp in Hau Hi He Hw H |- *. apply (consume_reaches_grant db' sp c e k t); try done.
  - destruct (plan_target_ok _ _ _ _ _ _ _ _ _ _ _ H) as (Hcl & E1 & E2 & E3 & _).
    unfold plan_args. rw E1 E2 E3 Hu Hcl. simpl. by rw Hcn.
  - by apply plan_target_ok in H as (_ & _ & _ & _ & ?).
  - unfold wait_expired. rw He. destruct (pl_wait_expires_at _) as [x|]; [|done].
    apply Z.leb_gt. by apply Hw.
Qed.

(** ** A run: a client comes back on a new connection and knows nothing of the call *)

Definition back_on_K2 : Lifecycle :=
  {| lc_stale_after := 30;
     lc_connections := {[ "K2" := {| cs_connection_id := "K2"; cs_session_id := "s"; cs_user_id := "user";
                                     cs_state := ACTIVE; cs_connected_at := 5; cs_last_heartbeat_at := 5;
                                     cs_stale_after := 30; cs_metadata := [("client_id", JStr "client")] |} ]} |}.

Definition cap_on_K2 : CapabilityCatalog :=
  {| cc_definitions := ∅; cc_by_capability := ∅;
     cc_implementations := {[ "impl" := {| ci_implementation_id := "impl"; ci_capability_id := "cap";
       ci_version := "1"; ci_location := LOC_CLIENT; ci_driver_kind := "REMOTE_CLIENT"; ci_owner_id := Some "user";
       ci_connection_id := Some "K2"; ci_owner_type := OWN_CLIENT; ci_state := IMPL_ENABLED; ci_metadata := [] |} ]} |}.

Definition calm (_ : nat) : Surroundings := {|
  sr_db := id; sr_connections := Some back_on_K2; sr_has_store := true;
  sr_catalog := Some cap_on_K2;
  sr_answer := Answered {| rr_invocation_id := "inv"; rr_status := REC_NOT_FOUND; rr_capability_id := "cap";
                           rr_capability_version := "1"; rr_request_fingerprint := "fp";
                           rr_terminal_type := None; rr_terminal_payload := None |};
  sr_later := id; sr_now := 9 |}.

Lemma calm_quiet : quiet calm.
Proof. done. Qed.

Lemma demo_planned :
  exists n', build_resume_plan "e1" "k" "user" (Some "client") "K2" calm 0%nat claimed_db =
             (n', claimed_db, Ok demo_plan).
Proof. eexists. vm_compute. reflexivity. Qed.

Lemma plan_sound_witness :
  pl_plan_fingerprint demo_plan = resume_plan_fingerprint demo_plan /\ Forall justified (pl_actions demo_plan).
Proof.
  destruct demo_planned as [n' Hp].
  destruct (plan_sound _ _ _ _ _ _ _ _ _ _ _ (quiet_keeps _ calm_quiet) Hp) as (Hf & _ & _ & _ & Hj).
  split; [exact Hf|exact Hj].
Defined.

Lemma like_demo_resumable db :
  rd_agents db = rd_agents resume_db -> rd_checkpoints db = rd_checkpoints resume_db ->
  rd_pending db = rd_pending resume_db -> rd_store db = rd_store resume_db ->
  rd_tool_results db = rd_tool_results resume_db -> resumable db "e1" "k".
Proof.
  intros Ea Ek Ep Es Et. split.
  - split.
    + intros id c. unfold get_invocation; simpl. rw Es. unfold Sql.get; simpl.
      rw lookup_insert_Some lookup_empty. by intros [[<- <-]|[_ [=]]].
    + intros id i _. unfold rd_invocations. rw Es. simpl. rw lookup_insert_Some lookup_empty.
      intros [[_ <-]|[_ [=]]]. by right.
    + intros key r. by rw Et.
  - rw Ep. vm_compute. apply NoDup_singleton.
  - rw Ep. vm_compute. apply NoDup_singleton.
  - intros e. rw Ea. vm_compute. by intros [= <-].
  - intros e k. rw Ea Ek. vm_compute. by intros [= <-] [= <-].
  - intros e t. rw Ea. vm_compute. intros [= <-] [= <-]. by eexists.
Qed.

Lemma claimed_resumable : resumable claimed_db "e1" "k".
Proof. apply like_demo_resumable; vm_compute; reflexivity. Qed.

Lemma plan_consumable_witness :
  exists task,
    consume_resume_claim_once claimed_db claimed_db demo_spec =
      match grant claimed_db (new_claim "claim" demo_intent) demo_plan task 10 with
      | Ok d => (d, Done (granted (new_claim "claim" demo_intent) demo_plan))
      | Err o => (claimed_db, o)
      end.
Proof.
  destruct demo_planned as [n' Hp].
  apply (plan_consumable "e1" "k" "user" (Some "client") "K2" calm 0%nat claimed_db n' claimed_db demo_plan
           demo_spec (new_claim "claim" demo_intent) calm_quiet claimed_resumable eq_refl eq_refl Hp eq_refl);
    try (vm_compute; reflexivity).
  intros t [= <-]. reflexivity.
Defined.
