(* ===== verification/Transcript.v ===== *)
(** * Transcript representations
    (src/se/src/infrastructure/storage/transcript_representation.py, the transcript methods of
    AgentRepository, src/se/src/runtimes/agent/checkpoint_transcript_writer.py and
    checkpoint_transcript.py, InferenceMessage of contracts/inference.py)

    The transcript of a checkpoint is kept as immutable, content-addressed rows: chunks of
    messages, payload nodes that append a chunk to a parent node, and representations, FULL or
    DELTA to a parent representation.  Every identity is a digest of the content, and reading
    verifies it.  The digest is an argument of the definitions; the program's is SHA-256
    (file Canonical).  Stored payloads are the validated messages: dumping and validating
    again gives the same message ([model_roundtrip]), so canonicalising them is the identity.
    Messages are compared with Python's [==] of the dumped values, which is coarser than the
    text the digests are taken of ([1 == True]).  A transaction that raises is rolled back.
    Strings are ASCII. *)

From S2P Require Import Prelude Canonical PythonValues.

(** ** InferenceMessage *)

Record InferenceToolCall := { tcl_id : string; tcl_name : string; tcl_arguments : list (string * json) }.

Record InferenceMessage := {
  im_role : string;
  im_content : json;
  im_tool_calls : list InferenceToolCall;
  im_name : option string;
  im_tool_call_id : option string;
  im_metadata : list (string * json)
}.

Definition opt_str (o : option string) : json := match o with Some s => JStr s | None => JNull end.

Definition dump_tool_call (c : InferenceToolCall) : json :=
  JObj [("id", JStr (tcl_id c)); ("name", JStr (tcl_name c)); ("arguments", JObj (tcl_arguments c))].

Definition model_dump (m : InferenceMessage) : json :=
  JObj [("role", JStr (im_role m)); ("content", im_content m);
        ("tool_calls", JArr (map dump_tool_call (im_tool_calls m)));
        ("name", opt_str (im_name m)); ("tool_call_id", opt_str (im_tool_call_id m));
        ("metadata", JObj (im_metadata m))].

(** [extra="forbid"]. *)
Definition only_keys (allowed : list string) (fields : list (string * json)) : bool :=
  forallb (fun kv => bool_decide (kv.1 ∈ allowed)) fields.

Definition text_field (fields : list (string * json)) (key : string) : option string :=
  match dict_get key fields with Some (JStr s) => Some s | _ => None end.

(** A field [str | None = None]: the value, or a validation error. *)
Definition optional_text (fields : list (string * json)) (key : string) : option (option string) :=
  match dict_get key fields with
  | None | Some JNull => Some None
  | Some (JStr s) => Some (Some s)
  | Some _ => None
  end.

Definition dict_field (fields : list (string * json)) (key : string) : option (list (string * json)) :=
  match dict_get key fields with
  | None => Some []
  | Some (JObj f) => Some f
  | Some _ => None
  end.

Definition validate_tool_call (j : json) : option InferenceToolCall :=
  match j with
  | JObj f =>
      if only_keys ["id"; "name"; "arguments"] f then
        i ← text_field f "id"; n ← text_field f "name"; a ← dict_field f "arguments";
        Some {| tcl_id := i; tcl_name := n; tcl_arguments := a |}
      else None
  | _ => None
  end%string.

Definition validate_tool_calls (f : list (string * json)) : option (list InferenceToolCall) :=
  match dict_get "tool_calls" f with
  | None => Some []
  | Some (JArr l) => mapM validate_tool_call l
  | Some _ => None
  end.

Definition model_validate (j : json) : option InferenceMessage :=
  match j with
  | JObj f =>
      if only_keys ["role"; "content"; "tool_calls"; "name"; "tool_call_id"; "metadata"] f then
        r ← text_field f "role"; t ← validate_tool_calls f; n ← optional_text f "name";
        c ← optional_text f "tool_call_id"; m ← dict_field f "metadata";
        Some {| im_role := r; im_content := default JNull (dict_get "content" f); im_tool_calls := t;
                im_name := n; im_tool_call_id := c; im_metadata := m |}
      else None
  | _ => None
  end%string.

(** [canonical_transcript_messages] of values that are not validated yet. *)
Definition canonical_transcript_messages (l : list json) : option (list InferenceMessage) :=
  mapM model_validate l.

(** The canonical text of a message and of a list. *)
Definition message_text (m : InferenceMessage) : string := json_dumps_utf8 (model_dump m).
Definition messages_text (l : list InferenceMessage) : string := json_dumps_utf8 (JArr (map model_dump l)).
Definition canonical_bytes (l : list InferenceMessage) : Z := Z.of_nat (String.length (messages_text l)).

(** [==] of the dumped messages, and of lists of them. *)
Definition same_message (a b : InferenceMessage) : bool := py_eq (model_dump a) (model_dump b).
Definition same_messages (l r : list InferenceMessage) : bool :=
  py_eq (JArr (map model_dump l)) (JArr (map model_dump r)).

(** ** Tables *)

Record Chunk := { ch_payload : list InferenceMessage; ch_message_count : Z; ch_bytes : Z }.

Record PayloadNode := { nd_parent : option string; nd_chunk : string; nd_count : Z }.

Inductive ReprKind := FULL | DELTA.

#[global] Instance ReprKind_eq_dec : EqDecision ReprKind.
Proof. solve_decision. Defined.

Record Representation := {
  tr_kind : ReprKind;
  tr_parent_ref : option string;
  tr_parent_version : option Z;
  tr_depth : Z;
  tr_count : Z;
  tr_fingerprint : string;
  tr_root : string
}.

#[global] Instance PayloadNode_eq_dec : EqDecision PayloadNode.
Proof. solve_decision. Defined.
#[global] Instance Representation_eq_dec : EqDecision Representation.
Proof. solve_decision. Defined.

(** The transcript columns of a checkpoint, with its parent and its place in time. *)
Record CheckpointTranscript := {
  kt_snapshot : option (list json);
  kt_ref : option string;
  kt_version : option Z;
  kt_parent : option string;
  kt_created_at : Z
}.

Record TranscriptDB := {
  td_chunks : gmap string Chunk;
  td_nodes : gmap string PayloadNode;
  td_reprs : gmap (string * Z) Representation;
  td_checkpoints : gmap string CheckpointTranscript
}.

Definition put_chunk (db : TranscriptDB) id c : TranscriptDB :=
  {| td_chunks := <[id := c]> (td_chunks db); td_nodes := td_nodes db; td_reprs := td_reprs db;
     td_checkpoints := td_checkpoints db |}.
Definition put_node (db : TranscriptDB) ref n : TranscriptDB :=
  {| td_chunks := td_chunks db; td_nodes := <[ref := n]> (td_nodes db); td_reprs := td_reprs db;
     td_checkpoints := td_checkpoints db |}.
Definition put_repr (db : TranscriptDB) key r : TranscriptDB :=
  {| td_chunks := td_chunks db; td_nodes := td_nodes db; td_reprs := <[key := r]> (td_reprs db);
     td_checkpoints := td_checkpoints db |}.

Definition put_checkpoint (db : TranscriptDB) id k : TranscriptDB :=
  {| td_chunks := td_chunks db; td_nodes := td_nodes db; td_reprs := td_reprs db;
     td_checkpoints := <[id := k]> (td_checkpoints db) |}.

(** ** Transactions: the new rows and a value, or the message of the ValueError *)

Definition Tx (A : Type) : Type := TranscriptDB -> result string (TranscriptDB * A).

#[export] Instance tx_ret : MRet Tx := fun A a db => Ok (db, a).
#[export] Instance tx_bind : MBind Tx := fun A B k m db =>
  match m db with Ok (db', a) => k a db' | Err e => Err e end.

Definition tx_read {A} (f : TranscriptDB -> result string A) : Tx A :=
  fun db => match f db with Ok a => Ok (db, a) | Err e => Err e end.
Definition tx_get {A} (f : TranscriptDB -> A) : Tx A := fun db => Ok (db, f db).
Definition tx_fail {A} (message : string) : Tx A := fun db => Err message.
Definition tx_check (b : bool) (message : string) : Tx unit := tx_read (fun _ => guard_err b message).
Definition tx_some {A} (o : option A) (message : string) : Tx A :=
  match o with Some a => mret a | None => tx_fail message end.

(** [ON CONFLICT DO NOTHING]. *)
Definition tx_insert (present : TranscriptDB -> bool) (put : TranscriptDB -> TranscriptDB) : Tx unit :=
  fun db => Ok (if present db then db else put db, tt).

Definition HARD_MAX_DELTA_DEPTH : Z := 9.

Section Transcripts.
Context (digest : string -> string).

(** ** Identities *)

Definition sha256_domain (domain : string) (payload : json) : string :=
  digest (String.append domain (String Ascii.zero (json_dumps_utf8 payload))).

Definition transcript_chunk_id (l : list InferenceMessage) : string :=
  digest (String.append "agent-transcript-chunk-v1" (String Ascii.zero (messages_text l))).

Definition logical_transcript_fingerprint (l : list InferenceMessage) : string := digest (messages_text l).

Definition transcript_payload_root_ref (parent : option string) (chunk_id : string) (count : Z) : string :=
  sha256_domain "agent-transcript-payload-root-v1"
    (JObj [("parent_payload_root_ref", opt_str parent); ("chunk_id", JStr chunk_id);
           ("logical_message_count", JInt count)]).

Definition kind_text (k : ReprKind) : string := match k with FULL => "FULL" | DELTA => "DELTA" end.

Definition repr_payload (version : Z) (r : Representation) : json :=
  JObj [("transcript_version", JInt version); ("kind", JStr (kind_text (tr_kind r)));
        ("parent_transcript_ref", opt_str (tr_parent_ref r));
        ("parent_transcript_version", match tr_parent_version r with Some v => JInt v | None => JNull end);
        ("delta_depth", JInt (tr_depth r)); ("logical_message_count", JInt (tr_count r));
        ("logical_transcript_fingerprint", JStr (tr_fingerprint r)); ("payload_root_ref", JStr (tr_root r))].

Definition transcript_representation_ref (version : Z) (r : Representation) : result string string :=
  _ ← guard_err (0 <=? version) "transcript_version must be non-negative";
  _ ← guard_err ((0 <=? tr_depth r) && (tr_depth r <=? HARD_MAX_DELTA_DEPTH))
        "delta_depth outside R11-B safety envelope";
  _ ← guard_err (0 <=? tr_count r) "logical_message_count must be non-negative";
  mret (sha256_domain "agent-transcript-representation-v1" (repr_payload version r)).

(** ** Reading *)

Definition get_chunk (db : TranscriptDB) (id : string) : option Chunk := td_chunks db !! id.
Definition get_node (db : TranscriptDB) (ref : string) : option PayloadNode := td_nodes db !! ref.
Definition get_representation (db : TranscriptDB) (ref : string) (version : Z) : option Representation :=
  td_reprs db !! (ref, version).

(** A stored chunk against its identity. *)
Definition verified_chunk (db : TranscriptDB) (id : string) : result string (list InferenceMessage) :=
  match get_chunk db id with
  | None => Err "Transcript payload-root references missing chunk."
  | Some c =>
      let payload := ch_payload c in
      _ ← guard_err (bool_decide (transcript_chunk_id payload = id)) "Transcript chunk content is corrupt.";
      _ ← guard_err (ch_message_count c =? Z.of_nat (length payload))
            "Transcript chunk message_count is corrupt.";
      _ ← guard_err (ch_bytes c =? canonical_bytes payload) "Transcript chunk canonical_bytes is corrupt.";
      mret payload
  end.

(** The chain of nodes from [ref] to its root, newest first. *)
Fixpoint payload_chain (fuel : nat) (db : TranscriptDB) (seen : list string) (ref : string)
    : result string (list (PayloadNode * list InferenceMessage)) :=
  match fuel with
  | O => Err "out of fuel"
  | S fuel' =>
      if bool_decide (ref ∈ seen) then Err "Transcript payload-root ancestry cycle detected."
      else
        match get_node db ref with
        | None => Err "Missing transcript payload-root node."
        | Some n =>
            payload ← verified_chunk db (nd_chunk n);
            _ ← guard_err (bool_decide (transcript_payload_root_ref (nd_parent n) (nd_chunk n) (nd_count n) = ref))
                  "Transcript payload-root identity is corrupt."%string;
            rest ← match nd_parent n with
                   | None => Ok []
                   | Some p => payload_chain fuel' db (ref :: seen) p
                   end;
            mret ((n, payload) :: rest)
        end
  end.

(** The messages, oldest first, with the count of every node. *)
Fixpoint accumulate (chain : list (PayloadNode * list InferenceMessage))
    : result string (list InferenceMessage) :=
  match chain with
  | [] => Ok []
  | (n, payload) :: rest =>
      older ← accumulate rest;
      _ ← guard_err (nd_count n =? Z.of_nat (length (older ++ payload)))
            "Transcript payload-root logical_message_count is corrupt."%string;
      mret (older ++ payload)
  end.

(** A chain longer than the table would repeat a node. *)
Definition materialize_payload_root (db : TranscriptDB) (ref : string)
    : result string (list InferenceMessage) :=
  payload_chain (S (size (td_nodes db))) db [] ref ≫= accumulate.

Fixpoint materialize_repr (fuel : nat) (db : TranscriptDB) (active : list (string * Z))
    (ref : string) (version : Z) : result string (list InferenceMessage) :=
  match fuel with
  | O => Err "out of fuel"
  | S fuel' =>
      if bool_decide ((ref, version) ∈ active) then Err "Transcript representation ancestry cycle detected."
      else
        match get_representation db ref version with
        | None => Err "Missing transcript representation."
        | Some r =>
            _ ← guard_err (negb (bool_decide (tr_kind r = DELTA) && (HARD_MAX_DELTA_DEPTH <? tr_depth r)))
                  "Stored DELTA representation depth exceeds R11-B safety envelope.";
            expected ← transcript_representation_ref version r;
            _ ← guard_err (bool_decide (expected = ref)) "Transcript representation identity is corrupt.";
            payload ← materialize_payload_root db (tr_root r);
            messages ←
              match tr_kind r with
              | FULL =>
                  _ ← guard_err ((version =? 0) && (tr_depth r =? 0) && bool_decide (tr_parent_ref r = None) &&
                                 bool_decide (tr_parent_version r = None))
                        "Stored FULL representation shape is invalid.";
                  mret payload
              | DELTA =>
                  match tr_parent_ref r, tr_parent_version r with
                  | Some pr, Some pv =>
                      _ ← guard_err ((1 <=? tr_depth r) && (tr_depth r <=? HARD_MAX_DELTA_DEPTH))
                            "Stored DELTA representation shape is invalid.";
                      match get_representation db pr pv with
                      | None => Err "Stored DELTA representation parent is missing."
                      | Some parent =>
                          _ ← guard_err (version =? pv + 1)
                                "Stored DELTA representation version ancestry is invalid.";
                          _ ← guard_err (tr_depth r =? tr_depth parent + 1)
                                "Stored DELTA representation depth ancestry is invalid.";
                          _ ← guard_err (negb (bool_decide (length payload = 0%nat)))
                                "Stored DELTA representation suffix is empty.";
                          older ← materialize_repr fuel' db ((ref, version) :: active) pr pv;
                          mret (older ++ payload)
                      end
                  | _, _ => Err "Stored DELTA representation shape is invalid."
                  end
              end;
            _ ← guard_err (tr_count r =? Z.of_nat (length messages))
                  "Transcript representation logical_message_count is corrupt.";
            _ ← guard_err (bool_decide (logical_transcript_fingerprint messages = tr_fingerprint r))
                  "Transcript representation logical fingerprint is corrupt.";
            mret messages
        end
  end.

(** A delta has depth at most nine and its parent one less: ten levels. *)
Definition materialize_transcript_representation (db : TranscriptDB) (ref : string) (version : Z)
    : result string (list InferenceMessage) := materialize_repr 11 db [] ref version.

(** ** Saving: validate, insert unless present, and compare the row that is there *)

Definition save_transcript_chunk (id : string) (payload : list InferenceMessage) (count bytes : Z) : Tx string :=
  _ ← tx_check (bool_decide (id = transcript_chunk_id payload))
        "Transcript chunk identity does not match payload.";
  _ ← tx_check (count =? Z.of_nat (length payload)) "Transcript chunk message_count mismatch.";
  _ ← tx_check (bytes =? canonical_bytes payload) "Transcript chunk canonical_bytes mismatch.";
  _ ← tx_insert (fun db => bool_decide (is_Some (get_chunk db id)))
        (fun db => put_chunk db id {| ch_payload := payload; ch_message_count := count; ch_bytes := bytes |});
  found ← tx_get (fun db => get_chunk db id);
  existing ← tx_some found "Transcript chunk insert did not produce a readable row.";
  _ ← tx_check (same_messages (ch_payload existing) payload && (ch_message_count existing =? count) &&
                (ch_bytes existing =? bytes))
        "Transcript chunk identity is already bound to different immutable content.";
  mret id.

Definition save_transcript_payload_node (ref : string) (n : PayloadNode) : Tx string :=
  found ← tx_get (fun db => get_chunk db (nd_chunk n));
  chunk ← tx_some found "Transcript payload node references missing chunk.";
  parent_count ← match nd_parent n with
                 | None => mret 0
                 | Some p =>
                     found ← tx_get (fun db => get_node db p);
                     parent ← tx_some found "Transcript payload node references missing parent root.";
                     mret (nd_count parent)
                 end;
  _ ← tx_check (nd_count n =? parent_count + ch_message_count chunk)
        "Transcript payload root logical_message_count mismatch.";
  _ ← tx_check (bool_decide (ref = transcript_payload_root_ref (nd_parent n) (nd_chunk n) (nd_count n)))
        "Transcript payload root identity mismatch.";
  _ ← tx_insert (fun db => bool_decide (is_Some (get_node db ref))) (fun db => put_node db ref n);
  found ← tx_get (fun db => get_node db ref);
  existing ← tx_some found "Transcript payload-root insert did not produce a readable row.";
  _ ← tx_check (bool_decide (existing = n))
        "Transcript payload root is already bound to different immutable content.";
  mret ref.

(** A digit of [int(s, 16)]; its other notations (sign, prefix, underscores) are left out. *)
Definition hex_char (a : Ascii.ascii) : bool :=
  is_hex a || ((65 <=? byte_of a) && (byte_of a <=? 70)).

Definition sha256_hex (s : string) : bool :=
  (String.length s =? 64)%nat && string_forallb is_hex s.

(** What a FULL or DELTA row must materialise to. *)
Definition planned_messages (r : Representation) (version : Z) (root : PayloadNode)
    : Tx (list InferenceMessage) :=
  match tr_kind r with
  | FULL =>
      _ ← tx_check ((version =? 0) && (tr_depth r =? 0) && bool_decide (tr_parent_ref r = None) &&
                    bool_decide (tr_parent_version r = None))
            "Invalid FULL transcript representation shape.";
      _ ← tx_check (nd_count root =? tr_count r)
            "FULL payload root must materialize the full logical count.";
      tx_read (fun db => materialize_payload_root db (tr_root r))
  | DELTA =>
      match tr_parent_ref r, tr_parent_version r with
      | Some pr, Some pv =>
          found ← tx_get (fun db => get_representation db pr pv);
          parent ← tx_some found "DELTA transcript representation references missing parent.";
          _ ← tx_check (version =? pv + 1) "DELTA transcript_version must be parent + 1.";
          _ ← tx_check (tr_depth r =? tr_depth parent + 1) "DELTA depth must be parent depth + 1.";
          _ ← tx_check ((1 <=? tr_depth r) && (tr_depth r <=? HARD_MAX_DELTA_DEPTH))
                "DELTA depth exceeds R11-B safety envelope.";
          _ ← tx_check (0 <? tr_count r - tr_count parent) "DELTA must append at least one message.";
          _ ← tx_check (nd_count root =? tr_count r - tr_count parent)
                "DELTA payload root must contain only the append suffix.";
          older ← tx_read (fun db => materialize_transcript_representation db pr pv);
          suffix ← tx_read (fun db => materialize_payload_root db (tr_root r));
          mret (older ++ suffix)
      | _, _ => tx_fail "DELTA transcript representation requires exact parent pair."
      end
  end.

Definition save_transcript_representation (ref : string) (version : Z) (r : Representation) : Tx (string * Z) :=
  _ ← tx_check (String.length (tr_fingerprint r) =? 64)%nat
        "Transcript logical fingerprint must be a SHA-256 hex digest.";
  _ ← tx_check (string_forallb hex_char (tr_fingerprint r))
        "Transcript logical fingerprint must be hexadecimal.";
  found ← tx_get (fun db => get_node db (tr_root r));
  root ← tx_some found "Transcript representation references missing payload root.";
  messages ← planned_messages r version root;
  _ ← tx_check (Z.of_nat (length messages) =? tr_count r)
        "Transcript representation materialized message count mismatch.";
  _ ← tx_check (bool_decide (logical_transcript_fingerprint messages = tr_fingerprint r))
        "Transcript representation logical fingerprint mismatch.";
  expected ← tx_read (fun _ => transcript_representation_ref version r);
  _ ← tx_check (bool_decide (ref = expected)) "Transcript representation identity mismatch.";
  _ ← tx_insert (fun db => bool_decide (is_Some (get_representation db ref version)))
        (fun db => put_repr db (ref, version) r);
  found ← tx_get (fun db => get_representation db ref version);
  existing ← tx_some found "Transcript representation insert did not produce a readable row.";
  _ ← tx_check (bool_decide (existing = r))
        "Transcript representation identity is already bound to different immutable content.";
  _ ← tx_read (fun db => materialize_transcript_representation db ref version);
  mret (ref, version).

(** ** checkpoint_transcript.py *)

Fixpoint lower (s : string) : string :=
  match s with
  | EmptyString => EmptyString
  | String a s' =>
      let n := byte_of a in
      String (if (65 <=? n) && (n <=? 90) then Ascii.ascii_of_nat (Z.to_nat (n + 32)) else a) (lower s')
  end.

Fixpoint contains (sub s : string) : bool :=
  String.prefix sub s || match s with EmptyString => false | String _ s' => contains sub s' end.

Definition representation_error_code (message : string) : string :=
  let m := lower message in
  if contains "ancestry" m || contains "cycle" m || contains "parent" m
  then "TRANSCRIPT_REPRESENTATION_ANCESTRY_INVALID"
  else if contains "depth" m then "TRANSCRIPT_REPRESENTATION_DEPTH_EXCEEDED"
  else "TRANSCRIPT_REPRESENTATION_CORRUPT".

(** The rows with this reference at another version. *)
Definition other_version (db : TranscriptDB) (ref : string) : bool :=
  existsb (fun kv => bool_decide (kv.1.1 = ref)) (map_to_list (td_reprs db)).

Definition referenced_messages (db : TranscriptDB) (ref : string) (version : Z)
    : result string (list InferenceMessage) :=
  match get_representation db ref version with
  | None => Err (if other_version db ref then "TRANSCRIPT_REPRESENTATION_VERSION_MISMATCH"
                 else "MISSING_TRANSCRIPT_REPRESENTATION")
  | Some _ =>
      match materialize_transcript_representation db ref version with
      | Ok l => Ok l
      | Err e => Err (representation_error_code e)
      end
  end.

Definition inline_messages (snapshot : list json) : result string (list InferenceMessage) :=
  match canonical_transcript_messages snapshot with
  | Some l => Ok l
  | None => Err "TRANSCRIPT_REPRESENTATION_CORRUPT"
  end.

Definition materialize_checkpoint_transcript (db : TranscriptDB) (k : CheckpointTranscript)
    : result string (list InferenceMessage) :=
  match kt_snapshot k, kt_ref k, kt_version k with
  | Some s, Some ref, Some v =>
      inline ← inline_messages s;
      stored ← referenced_messages db ref v;
      _ ← guard_err (same_messages inline stored) "DUAL_TRANSCRIPT_MISMATCH";
      mret inline
  | Some s, None, None => inline_messages s
  | None, Some ref, Some v => referenced_messages db ref v
  | _, _, _ => Err "INVALID_CHECKPOINT_REPRESENTATION_STATE"
  end.
End Transcripts.

(** ** checkpoint_transcript_writer.py *)

Section Writer.
Context (digest : string -> string).

Definition save_chunk (messages : list InferenceMessage) : Tx string :=
  save_transcript_chunk digest (transcript_chunk_id digest messages) messages
    (Z.of_nat (length messages)) (canonical_bytes messages).

Definition save_payload_root (messages : list InferenceMessage) (parent : option string) : Tx string :=
  chunk_id ← save_chunk messages;
  parent_count ← match parent with
                 | None => mret 0
                 | Some p =>
                     found ← tx_get (fun db => get_node db p);
                     n ← tx_some found "Missing structural-share payload parent.";
                     mret (nd_count n)
                 end;
  let count := parent_count + Z.of_nat (length messages) in
  save_transcript_payload_node digest (transcript_payload_root_ref digest parent chunk_id count)
    {| nd_parent := parent; nd_chunk := chunk_id; nd_count := count |}.

(** One node per message. *)
Fixpoint append_messages (messages : list InferenceMessage) (parent : option string) : Tx (option string) :=
  match messages with
  | [] => mret parent
  | m :: rest => ref ← save_payload_root [m] parent; append_messages rest (Some ref)
  end.

(** [None] when the parent of an empty chain is missing. *)
Definition save_payload_chain (messages : list InferenceMessage) (parent : option string)
    : Tx (option string) :=
  match messages, parent with
  | [], Some p => found ← tx_get (fun db => get_node db p); mret (match found with Some _ => Some p | None => None end)
  | [], None => ref ← save_payload_root [] None; mret (Some ref)
  | _, _ => append_messages messages parent
  end.

(** One payload root for the whole content of a representation. *)
Fixpoint ensure_cumulative (fuel : nat) (r : Representation) : Tx string :=
  match fuel with
  | O => tx_fail "RecursionError"
  | S fuel' =>
      match tr_kind r with
      | FULL => mret (tr_root r)
      | DELTA =>
          match tr_parent_ref r, tr_parent_version r with
          | Some pr, Some pv =>
              found ← tx_get (fun db => get_representation db pr pv);
              parent ← tx_some found "DELTA transcript representation parent is missing.";
              cumulative ← ensure_cumulative fuel' parent;
              suffix ← tx_read (fun db => materialize_payload_root digest db (tr_root r));
              root ← save_payload_chain suffix (Some cumulative);
              tx_some root "DELTA cumulative payload root could not be created."
          | _, _ => tx_fail "DELTA transcript representation has no exact parent."
          end
      end
  end.

Definition ensure_cumulative_payload_root (r : Representation) : Tx string := ensure_cumulative 11 r.

(** The node of a chain at which [count] messages end. *)
Fixpoint root_at_count (fuel : nat) (db : TranscriptDB) (ref : string) (count : Z) : result string string :=
  match fuel with
  | O => Err "out of fuel"
  | S fuel' =>
      match get_node db ref with
      | None => Err "Missing structural-share payload node."
      | Some n =>
          if nd_count n =? count then Ok ref
          else if nd_count n <? count then Err "No exact payload-root boundary for proven prefix."
          else
            match nd_parent n with
            | Some p => root_at_count fuel' db p count
            | None => Err "No payload-root boundary for proven prefix."
            end
      end
  end.

Definition payload_root_at_count (db : TranscriptDB) (ref : string) (count : Z)
    : result string (option string) :=
  _ ← guard_err (0 <=? count) "logical_message_count must be non-negative";
  if count =? 0 then mret None
  else r ← root_at_count (S (size (td_nodes db))) db ref count; mret (Some r).

Definition save_representation (version : Z) (r : Representation) : Tx (string * Z) :=
  ref ← tx_read (fun _ => transcript_representation_ref digest version r);
  save_transcript_representation digest ref version r.

Definition save_full (messages : list InferenceMessage) (root : string) : Tx (string * Z) :=
  save_representation 0
    {| tr_kind := FULL; tr_parent_ref := None; tr_parent_version := None; tr_depth := 0;
       tr_count := Z.of_nat (length messages);
       tr_fingerprint := logical_transcript_fingerprint digest messages; tr_root := root |}.

Definition save_delta (parent_ref : string) (parent_version : Z) (parent : Representation)
    (messages suffix : list InferenceMessage) : Tx (string * Z) :=
  found ← save_payload_chain suffix None;
  root ← tx_some found "DELTA suffix must be non-empty.";
  save_representation (parent_version + 1)
    {| tr_kind := DELTA; tr_parent_ref := Some parent_ref; tr_parent_version := Some parent_version;
       tr_depth := tr_depth parent + 1; tr_count := Z.of_nat (length messages);
       tr_fingerprint := logical_transcript_fingerprint digest messages; tr_root := root |}.

Fixpoint common_prefix_length (l r : list InferenceMessage) : nat :=
  match l, r with
  | x :: l', y :: r' => if same_message x y then S (common_prefix_length l' r') else 0%nat
  | _, _ => 0%nat
  end.

(** The root that holds the first [common] messages of the parent. *)
Definition shared_root (parent : Representation) (parent_messages : list InferenceMessage) (common : nat)
    : Tx (option string) :=
  cumulative ← ensure_cumulative_payload_root parent;
  found ← tx_get (fun db => payload_root_at_count db cumulative (Z.of_nat common));
  match found with
  | Ok r => mret r
  | Err e =>
      if contains "payload-root boundary" e then
        normalized ← save_payload_chain (take common parent_messages) None;
        root ← tx_some normalized "Proven common prefix could not be normalized.";
        mret (Some root)
      else tx_fail e
  end.

Definition save_logical_full (messages : list InferenceMessage)
    (parent : option (Representation * list InferenceMessage)) : Tx (string * Z) :=
  let common := match parent with Some (_, pm) => common_prefix_length pm messages | None => 0%nat end in
  shared ← match parent with
           | Some (r, pm) => if (0 <? common)%nat then shared_root r pm common else mret None
           | None => mret None
           end;
  let suffix := drop common messages in
  root ← match suffix, shared with
         | [], Some r => mret r
         | [], None => found ← save_payload_chain messages None;
                       tx_some found "FULL payload root could not be created."
         | _, _ => found ← save_payload_chain suffix shared;
                   tx_some found "FULL payload root could not be created."
         end;
  save_full messages root.

(** The candidate parent: its messages, and its representation when it has one. *)
Definition load_parent (candidate : option string)
    : Tx (option (string * Z * Representation) * option (list InferenceMessage)) :=
  match candidate with
  | None => mret (None, None)
  | Some id =>
      found ← tx_get (fun db => td_checkpoints db !! id);
      match found with
      | None => mret (None, None)
      | Some k =>
          messages ← tx_read (fun db => materialize_checkpoint_transcript digest db k);
          match kt_ref k, kt_version k with
          | Some ref, Some v =>
              found ← tx_get (fun db => get_representation db ref v);
              r ← tx_some found "Candidate checkpoint references missing representation.";
              mret (Some (ref, v, r), Some messages)
          | _, _ => mret (None, Some messages)
          end
      end
  end.

Definition extends (parent messages : list InferenceMessage) : bool :=
  (length parent <? length messages)%nat && same_messages (take (length parent) messages) parent.

Definition append_to (ref : string) (v : Z) (r : Representation) (parent messages : list InferenceMessage)
    : Tx (string * Z) :=
  let suffix := drop (length parent) messages in
  if tr_depth r + 1 <=? HARD_MAX_DELTA_DEPTH then save_delta ref v r messages suffix
  else
    cumulative ← ensure_cumulative_payload_root r;
    found ← save_payload_chain suffix (Some cumulative);
    root ← tx_some found "FULL re-anchor payload root could not be created.";
    save_full messages root.

Definition write_messages (messages : list InferenceMessage)
    (parent : option (string * Z * Representation) * option (list InferenceMessage)) : Tx (string * Z) :=
  match parent with
  | (Some (ref, v, r), Some pm) =>
      if extends pm messages then append_to ref v r pm messages else save_logical_full messages (Some (r, pm))
  | _ => save_logical_full messages None
  end.

(** The written rows are read back before they count. *)
Definition write_verified (messages : list InferenceMessage)
    (parent : option (string * Z * Representation) * option (list InferenceMessage)) : Tx (string * Z) :=
  record ← write_messages messages parent;
  written ← tx_read (fun db => materialize_transcript_representation digest db record.1 record.2);
  _ ← tx_check (same_messages written messages)
        "Written transcript representation does not round-trip canonically.";
  mret record.

Definition write_transcript_representation (messages : list json) (candidate : option string)
    : Tx (string * Z) :=
  canonical ← tx_some (canonical_transcript_messages messages) "validation error";
  parent ← load_parent candidate;
  match parent with
  | (Some (ref, v, _), Some pm) =>
      if same_messages pm canonical then mret (ref, v) else write_verified canonical parent
  | _ => write_verified canonical parent
  end.
End Writer.
