(* ===== verification/TranscriptProperties.v ===== *)
(** * Properties of transcript representations
    (file Transcript)

    Reading is characterised by two relations, [payload_of] and [repr_of]; a well-formed store
    is one in which every row has its derivation.

    The code compares messages with Python's [==], while identities are digests of their text.
    [MessageEquality] is what the proofs about the writer need of a comparison: Python's
    equality itself, under which the fingerprint check of a new representation may fail, or
    the equality of texts on messages that Python does not confuse, under which it cannot. *)

From S2P Require Import Prelude Canonical PythonValues Transcript.

(** ** Messages *)

Lemma validate_dump_tool_call c : validate_tool_call (dump_tool_call c) = Some c.
Proof. by destruct c. Qed.

Lemma validate_dump_tool_calls l : mapM validate_tool_call (map dump_tool_call l) = Some l.
Proof. apply (mapM_fmap_Some validate_tool_call dump_tool_call). exact validate_dump_tool_call. Qed.

(** [model_roundtrip]: validating what a message dumps gives the message back. *)
Lemma model_roundtrip m : model_validate (model_dump m) = Some m.
Proof.
  destruct m as [role content calls name call metadata]. unfold model_validate, model_dump; simpl.
  unfold validate_tool_calls, optional_text; simpl. rw validate_dump_tool_calls. simpl.
  by destruct name, call.
Qed.

Lemma canonical_dumped l : canonical_transcript_messages (map model_dump l) = Some l.
Proof. apply (mapM_fmap_Some model_validate model_dump). exact model_roundtrip. Qed.

Lemma dumps_array l :
  json_dumps_utf8 (JArr l) = String "["%char (String.append (join_comma (map json_dumps_utf8 l)) (String "]"%char EmptyString)).
Proof. done. Qed.

Lemma same_text l r : map message_text l = map message_text r -> messages_text l = messages_text r.
Proof.
  intros H. unfold messages_text, message_text in *.
  assert (E : forall k, map json_dumps_utf8 (map model_dump k) = map (fun m => json_dumps_utf8 (model_dump m)) k)
    by (intros; apply map_map).
  by rw !dumps_array !E H.
Qed.

(** ** Equalities of messages *)

(** [==] of the dumped messages. *)
Definition py_same (a b : InferenceMessage) : Prop := py_norm (model_dump a) = py_norm (model_dump b).

#[export] Instance py_same_equiv : Equivalence py_same.
Proof. unfold py_same. split; [by intros a|by intros a b|]. intros a b c. congruence. Qed.

Lemma same_message_true a b : same_message a b = true <-> py_same a b.
Proof. apply py_eq_true. Qed.

Lemma map_eq_Forall2 {A B} (f : A -> B) l r : map f l = map f r <-> Forall2 (fun a b => f a = f b) l r.
Proof.
  split.
  - revert r. induction l as [|a l IH]; intros [|b r] H; try done. injection H as H1 H2. constructor; [done|by apply IH].
  - induction 1 as [|a b l r E _ IH]; [done|]. cbn [map]. by rw E IH.
Qed.

Lemma same_messages_true l r : same_messages l r = true <-> Forall2 py_same l r.
Proof.
  assert (forall x, map py_norm (map model_dump x) = map (fun m => py_norm (model_dump m)) x) as E
    by (intros; apply map_map).
  unfold same_messages. rw py_eq_true. change (py_norm (JArr ?x)) with (JArr (map py_norm x)). rw !E.
  unfold py_same. rw -(map_eq_Forall2 (fun m => py_norm (model_dump m))). split; [by intros [= ?]|congruence].
Qed.

(** The failures of a write whose digests are taken by different content. *)
Definition bound_errors : list string :=
  ["Transcript chunk identity is already bound to different immutable content.";
   "Transcript payload root is already bound to different immutable content.";
   "Transcript representation identity is already bound to different immutable content."]%string.

Definition FINGERPRINT_MISMATCH : string := "Transcript representation logical fingerprint mismatch.".

Class MessageEquality := {
  me_universe : InferenceMessage -> Prop;
  me_same : relation InferenceMessage;
  me_equiv :: Equivalence me_same;
  me_python a b : me_same a b -> py_same a b;
  me_checked a b : me_universe a -> me_universe b -> py_same a b -> me_same a b;
  me_errors : list string;
  me_bound e : e ∈ bound_errors -> e ∈ me_errors;
  me_text : FINGERPRINT_MISMATCH ∈ me_errors \/ forall a b, me_same a b -> message_text a = message_text b
}.

(** Python's equality, on all messages. *)
#[export] Instance python_equality : MessageEquality.
Proof.
  refine {| me_universe := fun _ => True; me_same := py_same; me_errors := FINGERPRINT_MISMATCH :: bound_errors |}.
  - done.
  - done.
  - intros e He. by right.
  - left. by left.
Defined.

(** Messages that [==] does not confuse: equal for Python is equal in text. *)
Definition exact_on (U : InferenceMessage -> Prop) : Prop :=
  forall a b, U a -> U b -> py_same a b -> message_text a = message_text b.

Definition exact_equality (U : InferenceMessage -> Prop) (H : exact_on U) : MessageEquality.
Proof.
  refine {| me_universe := U; me_same := fun a b => py_same a b /\ message_text a = message_text b;
            me_errors := bound_errors |}.
  - split; [by intros a|intros a b [E1 E2]; by split|]. intros a b c [E1 E2] [E3 E4]. split; [by etrans|congruence].
  - by intros a b [? _].
  - intros a b Ha Hb E. split; [done|by apply H].
  - done.
  - right. by intros a b [_ ?].
Defined.

Section Content.
Context {M : MessageEquality}.

(** The same messages, as they are told apart. *)
Definition same_content (l r : list InferenceMessage) : Prop := Forall2 me_same l r.

#[export] Instance same_content_equiv : Equivalence same_content.
Proof. change (Equivalence (Forall2 me_same)). split; apply _. Qed.

#[export] Instance length_proper : Proper (same_content ==> eq) (@length InferenceMessage).
Proof. intros l r H. by apply Forall2_length in H. Qed.

#[export] Instance app_proper : Proper (same_content ==> same_content ==> same_content) (@app InferenceMessage).
Proof. intros a a' Ha b b' Hb. by apply Forall2_app. Qed.

Lemma same_content_take n l r : same_content l r -> same_content (take n l) (take n r).
Proof. by apply Forall2_take. Qed.

Lemma same_content_drop n l r : same_content l r -> same_content (drop n l) (drop n r).
Proof. by apply Forall2_drop. Qed.

Lemma same_content_python l r : same_content l r -> same_messages l r = true.
Proof. intros H. apply same_messages_true. eapply Forall2_impl; [exact H|apply me_python]. Qed.

(** What the code finds equal is equal, among the messages of the universe. *)
Lemma same_content_checked l r : Forall me_universe l -> Forall me_universe r ->
  same_messages l r = true -> same_content l r.
Proof.
  rw same_messages_true. intros Hl Hr H. induction H as [|a b l r E _ IH]; [constructor|].
  apply Forall_cons in Hl as [Ha Hl], Hr as [Hb Hr]. constructor; [by apply me_checked|by apply IH].
Qed.

Lemma same_content_text l r : (forall a b, me_same a b -> message_text a = message_text b) ->
  same_content l r -> map message_text l = map message_text r.
Proof. intros H E. induction E as [|a b l r Eab _ IH]; [done|]. cbn [map]. by rw (H _ _ Eab) IH. Qed.
End Content.

(** ** Rows and what they stand for *)

Section Store.
Context (digest : string -> string).

(** The messages of a payload node, with the number of nodes below it. *)
Inductive payload_of (db : TranscriptDB) : nat -> string -> list InferenceMessage -> Prop :=
  | PayloadRoot ref n payload :
      get_node db ref = Some n -> nd_parent n = None ->
      verified_chunk digest db (nd_chunk n) = Ok payload ->
      transcript_payload_root_ref digest (nd_parent n) (nd_chunk n) (nd_count n) = ref ->
      nd_count n = Z.of_nat (length payload) -> payload_of db 0 ref payload
  | PayloadNext h ref n p older payload :
      get_node db ref = Some n -> nd_parent n = Some p ->
      verified_chunk digest db (nd_chunk n) = Ok payload ->
      transcript_payload_root_ref digest (nd_parent n) (nd_chunk n) (nd_count n) = ref ->
      payload_of db h p older -> nd_count n = Z.of_nat (length (older ++ payload)) ->
      payload_of db (S h) ref (older ++ payload).

(** The messages of a representation. *)
Inductive repr_of (db : TranscriptDB) : string -> Z -> list InferenceMessage -> Prop :=
  | ReprFull ref r h l :
      get_representation db ref 0 = Some r -> tr_kind r = FULL -> tr_parent_ref r = None ->
      tr_parent_version r = None -> tr_depth r = 0 -> payload_of db h (tr_root r) l ->
      tr_count r = Z.of_nat (length l) -> logical_transcript_fingerprint digest l = tr_fingerprint r ->
      transcript_representation_ref digest 0 r = Ok ref -> repr_of db ref 0 l
  | ReprDelta ref r pr pv parent h older payload :
      get_representation db ref (pv + 1) = Some r -> tr_kind r = DELTA -> tr_parent_ref r = Some pr ->
      tr_parent_version r = Some pv -> 1 <= tr_depth r <= HARD_MAX_DELTA_DEPTH ->
      get_representation db pr pv = Some parent -> tr_depth r = tr_depth parent + 1 ->
      repr_of db pr pv older -> payload_of db h (tr_root r) payload -> payload <> [] ->
      tr_count r = Z.of_nat (length (older ++ payload)) ->
      logical_transcript_fingerprint digest (older ++ payload) = tr_fingerprint r ->
      transcript_representation_ref digest (pv + 1) r = Ok ref -> repr_of db ref (pv + 1) (older ++ payload).

Lemma payload_node db h ref l : payload_of db h ref l ->
  exists n, get_node db ref = Some n /\ nd_count n = Z.of_nat (length l).
Proof. destruct 1; eauto. Qed.

Lemma payload_of_det db h ref l h' l' :
  payload_of db h ref l -> payload_of db h' ref l' -> h = h' /\ l = l'.
Proof.
  intros H. revert h' l'.
  induction H as [ref n payload Hn Hp Hc _ _|h ref n p older payload Hn Hp Hc _ Ho IH _]; intros h' l' H';
    destruct H' as [ref n' payload' Hn' Hp' Hc' _ _|h' ref n' p' older' payload' Hn' Hp' Hc' _ Ho' _];
    rw Hn in Hn'; injection Hn' as <-; rw Hp in Hp'; try discriminate Hp'; rw Hc in Hc'; injection Hc' as <-; [done|].
  injection Hp' as <-. by destruct (IH _ _ Ho') as [-> ->].
Qed.

(** A chain has no more nodes than the table. *)
Lemma payload_ancestors db h ref l : payload_of db h ref l ->
  exists refs, NoDup refs /\ length refs = S h /\
    Forall (fun x => exists h' l', (h' <= h)%nat /\ payload_of db h' x l') refs.
Proof.
  induction 1 as [ref n payload Hn Hp Hc Hr Hl|h ref n p older payload Hn Hp Hc Hr Ho IH Hl].
  - exists [ref]. split_and!; [apply NoDup_singleton|done|].
    constructor; [|done]. exists 0%nat, payload. split; [lia|by econstructor].
  - destruct IH as (refs & Hd & Hlen & Hall).
    assert (Hself : payload_of db (S h) ref (older ++ payload)) by by econstructor.
    exists (ref :: refs). split_and!.
    + constructor; [|done]. intros Hin. rw Forall_forall in Hall.
      destruct (Hall _ Hin) as (h' & l' & Hh & Hx). destruct (payload_of_det _ _ _ _ _ _ Hself Hx). lia.
    + simpl. by rw Hlen.
    + constructor; [by exists (S h), (older ++ payload)|].
      eapply Forall_impl; [exact Hall|]. intros x (h' & l' & Hh & Hx). exists h', l'. split; [lia|done].
Qed.

Lemma payload_height db h ref l : payload_of db h ref l -> (h < size (td_nodes db))%nat.
Proof.
  intros (refs & Hd & Hlen & Hall)%payload_ancestors.
  assert (Hs : (list_to_set refs : gset string) ⊆ dom (td_nodes db)).
  { intros x Hx. apply elem_of_list_to_set in Hx. rw Forall_forall in Hall.
    destruct (Hall _ Hx) as (h' & l' & _ & Hp). apply payload_node in Hp as (n & Hn & _).
    eapply elem_of_dom_2. exact Hn. }
  apply subseteq_size in Hs. rw size_list_to_set in Hs; [done|]. rw size_dom in Hs. lia.
Qed.

Lemma payload_chain_ok db h ref l : payload_of db h ref l -> forall fuel seen,
  (h < fuel)%nat -> (forall x, x ∈ seen -> forall h' l', payload_of db h' x l' -> (h < h')%nat) ->
  exists chain, payload_chain digest fuel db seen ref = Ok chain /\ accumulate chain = Ok l.
Proof.
  induction 1 as [ref n payload Hn Hp Hc Hr Hl|h ref n p older payload Hn Hp Hc Hr Ho IH Hl];
    intros fuel seen Hf Hseen; (destruct fuel as [|fuel]; [lia|]); simpl.
  - rw bool_decide_false.
    { intros Hin. assert (0 < 0)%nat; [|lia]. eapply Hseen; [exact Hin|by econstructor]. }
    rw Hn Hc. simpl. rw bool_decide_true; [done|]. rw Hp. simpl. eexists. split; [done|]. simpl.
    by rw Hl Z.eqb_refl.
  - assert (Hself : payload_of db (S h) ref (older ++ payload)) by by econstructor.
    rw bool_decide_false.
    { intros Hin. specialize (Hseen _ Hin _ _ Hself). lia. }
    rw Hn Hc. simpl. rw bool_decide_true; [done|]. rw Hp.
    destruct (IH fuel (ref :: seen)) as (chain & E & Hacc); [lia| |].
    { intros x Hx h' l' Hx'. apply elem_of_cons in Hx as [->|Hx].
      - destruct (payload_of_det _ _ _ _ _ _ Hself Hx'). lia.
      - specialize (Hseen _ Hx _ _ Hx'). lia. }
    rw E. simpl. eexists. split; [done|]. simpl. rw Hacc. simpl. by rw Hl Z.eqb_refl.
Qed.

Lemma payload_materialize db h ref l :
  payload_of db h ref l -> materialize_payload_root digest db ref = Ok l.
Proof.
  intros H. pose proof (payload_height _ _ _ _ H) as Hh.
  destruct (payload_chain_ok _ _ _ _ H (S (size (td_nodes db))) []) as (chain & E & Ha); [lia| |].
  - intros x Hx. by apply not_elem_of_nil in Hx.
  - unfold materialize_payload_root. by rw E.
Qed.

Lemma payload_chain_sound fuel db seen ref chain l :
  payload_chain digest fuel db seen ref = Ok chain -> accumulate chain = Ok l -> exists h, payload_of db h ref l.
Proof.
  revert seen ref chain l. induction fuel as [|fuel IH]; intros seen ref chain l H Ha; [done|]. simpl in H.
  destruct (bool_decide _); [done|]. destruct (get_node db ref) as [n|] eqn:En; [|done].
  apply bind_ok in H as (payload & Hc & H). apply guard_bind_ok in H as [Hr H]. breflect.
  apply bind_ok in H as (rest & Hrest & H). injection H as <-. simpl in Ha.
  apply bind_ok in Ha as (older & Hold & Ha). apply guard_bind_ok in Ha as [Hl Ha]. breflect.
  injection Ha as <-. destruct (nd_parent n) as [p|] eqn:Ep.
  - destruct (IH _ _ _ _ Hrest Hold) as [h Hp]. exists (S h). econstructor; eauto. by rw Ep.
  - injection Hrest as <-. injection Hold as <-. exists 0%nat. econstructor; eauto. by rw Ep.
Qed.

(** Reading a payload root is exactly [payload_of]. *)
Lemma materialize_payload_iff db ref l :
  materialize_payload_root digest db ref = Ok l <-> exists h, payload_of db h ref l.
Proof.
  split; [|intros [h H]; by eapply payload_materialize].
  intros H. apply bind_ok in H as (chain & Hc & Ha). by eapply payload_chain_sound.
Qed.

Lemma repr_row db ref v l : repr_of db ref v l -> exists r,
  get_representation db ref v = Some r /\ 0 <= v /\ 0 <= tr_depth r <= HARD_MAX_DELTA_DEPTH /\
  tr_count r = Z.of_nat (length l).
Proof.
  induction 1 as [ref r h l Hg _ _ _ Hd _ Hc _ _|ref r pr pv parent h older payload Hg _ _ _ Hd _ _ _ IH _ _ Hc _ _].
  - exists r. split_and!; [done|lia|rw Hd; done|rw Hd; done|done].
  - destruct IH as (_ & _ & Hv & _). exists r. split_and!; try done; lia.
Qed.

Lemma depth_delta d : 1 <= d <= HARD_MAX_DELTA_DEPTH ->
  (HARD_MAX_DELTA_DEPTH <? d) = false /\ (1 <=? d) && (d <=? HARD_MAX_DELTA_DEPTH) = true.
Proof. intros H. split; [lia|]. apply andb_true_intro. split; lia. Qed.

Lemma repr_materialize_fuel db ref v l : repr_of db ref v l -> forall fuel active r,
  get_representation db ref v = Some r -> tr_depth r < Z.of_nat fuel -> (forall x, x ∈ active -> v < x.2) ->
  materialize_repr digest fuel db active ref v = Ok l.
Proof.
  induction 1 as [ref r h l Hg Hk Hp1 Hp2 Hd Hpay Hc Hf Hr|
    ref r pr pv parent h older payload Hg Hk Hp1 Hp2 Hd Hpar Hdp Hold IH Hpay Hne Hc Hf Hr];
    intros fuel active r' Hg' Hfuel Ha; rw Hg in Hg'; injection Hg' as <-;
    (destruct fuel as [|fuel]; [lia|]); simpl;
    (rw bool_decide_false; [intros Hin; specialize (Ha _ Hin); simpl in Ha; lia|]); rw Hg Hr;
    rw (payload_materialize _ _ _ _ Hpay) Hk; simpl; rw (bool_decide_true (ref = ref)) //; simpl.
  - rw Hp1 Hp2 Hd. simpl. rw Hc Z.eqb_refl. simpl. by rw bool_decide_true.
  - destruct (depth_delta _ Hd) as [E1 E2]. rw E1 Hp1 Hp2 E2. simpl. rw Hpar Z.eqb_refl. simpl.
    rw Hdp Z.eqb_refl. simpl. rw bool_decide_false; [by destruct payload|]. simpl.
    rw (IH fuel ((ref, pv + 1) :: active) parent Hpar).
    + rw Hdp in Hfuel. lia.
    + intros x Hx. apply elem_of_cons in Hx as [->|Hx]; [simpl; lia|]. specialize (Ha _ Hx). lia.
    + simpl. rw Hc Z.eqb_refl. simpl. by rw bool_decide_true.
Qed.

Lemma repr_materialize db ref v l :
  repr_of db ref v l -> materialize_transcript_representation digest db ref v = Ok l.
Proof.
  intros H. destruct (repr_row _ _ _ _ H) as (r & Hg & _ & Hd & _). unfold HARD_MAX_DELTA_DEPTH in Hd.
  eapply repr_materialize_fuel; [done|exact Hg|lia|]. intros x Hx. by apply not_elem_of_nil in Hx.
Qed.

Lemma repr_sound fuel db active ref v l :
  materialize_repr digest fuel db active ref v = Ok l -> repr_of db ref v l.
Proof.
  revert active ref v l. induction fuel as [|fuel IH]; intros active ref v l H; [done|]. simpl in H.
  destruct (bool_decide _); [done|]. destruct (get_representation db ref v) as [r|] eqn:Er; [|done].
  apply guard_bind_ok in H as [_ H]. apply bind_ok in H as (expected & Hexp & H).
  apply guard_bind_ok in H as [Hid H]. breflect. subst expected.
  apply bind_ok in H as (payload & Hpay & H). apply bind_ok in H as (messages & Hm & H).
  apply guard_bind_ok in H as [Hc H]. apply guard_bind_ok in H as [Hf H]. breflect. injection H as <-.
  apply materialize_payload_iff in Hpay as [h Hpay]. destruct (tr_kind r) eqn:Ek.
  - apply guard_bind_ok in Hm as [Hs Hm]. breflect. injection Hm as <-. subst v. by econstructor.
  - destruct (tr_parent_ref r) as [pr|] eqn:E1; [|done]. destruct (tr_parent_version r) as [pv|] eqn:E2; [|done].
    apply guard_bind_ok in Hm as [Hd Hm]. destruct (get_representation db pr pv) as [parent|] eqn:Ep; [|done].
    apply guard_bind_ok in Hm as [Hv Hm]. apply guard_bind_ok in Hm as [Hdp Hm].
    apply guard_bind_ok in Hm as [Hne Hm]. apply bind_ok in Hm as (older & Hold & Hm). breflect.
    injection Hm as <-. subst v. econstructor; eauto. intros ->. done.
Qed.

(** Reading a representation is exactly [repr_of]. *)
Lemma materialize_repr_iff db ref v l :
  materialize_transcript_representation digest db ref v = Ok l <-> repr_of db ref v l.
Proof. split; [apply repr_sound|apply repr_materialize]. Qed.

(** ** Reading always ends *)

(** [r] did not stop because the bound of the recursion was reached. *)
Definition ended {A} (r : result string A) : Prop := r <> Err "out of fuel"%string.

Lemma ended_bind {A B} (r : result string A) (k : A -> result string B) :
  ended r -> (forall a, r = Ok a -> ended (k a)) -> ended (r ≫= k).
Proof. unfold ended. destruct r; simpl; [by eauto|]. intros H _ E. by injection E as ->. Qed.

Lemma ended_guard b e : e <> "out of fuel"%string -> ended (guard_err b e).
Proof. unfold ended, guard_err. intros H. destruct b; [done|]. intros E. by injection E. Qed.

Lemma guard_ok {E} b (e : E) u : guard_err b e = Ok u -> b = true.
Proof. by destruct b. Qed.

Lemma verified_chunk_ended db id : ended (verified_chunk digest db id).
Proof.
  unfold verified_chunk. destruct (get_chunk db id) as [c|]; [|done].
  repeat (apply ended_bind; [by apply ended_guard|]; intros _ _). done.
Qed.

Lemma payload_chain_ended fuel db seen ref :
  NoDup seen -> (forall x, x ∈ seen -> x ∈ dom (td_nodes db)) ->
  (size (td_nodes db) < fuel + length seen)%nat -> ended (payload_chain digest fuel db seen ref).
Proof.
  revert seen ref. induction fuel as [|fuel IH]; intros seen ref Hnd Hsub Hsz.
  - assert (Hs : (list_to_set seen : gset string) ⊆ dom (td_nodes db)).
    { intros x Hx. apply elem_of_list_to_set in Hx. by apply Hsub. }
    apply subseteq_size in Hs. rw size_list_to_set in Hs; [done|]. rw size_dom in Hs. simpl in Hsz. lia.
  - simpl. destruct (bool_decide (ref ∈ seen)) eqn:Es; [done|]. breflect.
    destruct (get_node db ref) as [n|] eqn:En; [|done].
    apply ended_bind; [apply verified_chunk_ended|]. intros payload _.
    apply ended_bind; [by apply ended_guard|]. intros _ _.
    apply ended_bind; [|done]. destruct (nd_parent n) as [p|]; [|done].
    apply IH; [by constructor| |simpl; lia].
    intros x Hx. apply elem_of_cons in Hx as [->|Hx]; [|by apply Hsub]. eapply elem_of_dom_2. exact En.
Qed.

Lemma accumulate_ended chain : ended (accumulate chain).
Proof.
  induction chain as [|[n payload] rest IH]; simpl; [done|].
  apply ended_bind; [done|]. intros older _. apply ended_bind; [by apply ended_guard|done].
Qed.

Lemma payload_root_ended db ref : ended (materialize_payload_root digest db ref).
Proof.
  unfold materialize_payload_root. apply ended_bind; [|intros; apply accumulate_ended].
  apply payload_chain_ended; [constructor| |simpl; lia]. intros x Hx. by apply not_elem_of_nil in Hx.
Qed.

Lemma representation_ref_ended v r : ended (transcript_representation_ref digest v r).
Proof. repeat (apply ended_bind; [by apply ended_guard|]; intros _ _). done. Qed.

Lemma repr_ended fuel db active ref v : (0 < fuel)%nat ->
  (forall r, get_representation db ref v = Some r -> tr_kind r = DELTA ->
     tr_depth r <= HARD_MAX_DELTA_DEPTH -> tr_depth r < Z.of_nat fuel) ->
  ended (materialize_repr digest fuel db active ref v).
Proof.
  revert active ref v. induction fuel as [|fuel IH]; intros active ref v Hf Hd; [lia|]. simpl.
  destruct (bool_decide _); [done|]. destruct (get_representation db ref v) as [r|] eqn:Er; [|done].
  apply ended_bind; [by apply ended_guard|]. intros _ _.
  apply ended_bind; [apply representation_ref_ended|]. intros expected _.
  apply ended_bind; [by apply ended_guard|]. intros _ _.
  apply ended_bind; [apply payload_root_ended|]. intros payload _.
  apply ended_bind; [|intros; do 2 (apply ended_bind; [by apply ended_guard|]; intros); done].
  destruct (tr_kind r) eqn:Ek; [apply ended_bind; [by apply ended_guard|done]|].
  destruct (tr_parent_ref r) as [pr|], (tr_parent_version r) as [pv|]; try done.
  apply ended_bind; [by apply ended_guard|]. intros ? Hg. apply guard_ok in Hg. breflect.
  destruct (get_representation db pr pv) as [parent|] eqn:Ep; [|done].
  apply ended_bind; [by apply ended_guard|]. intros _ _.
  apply ended_bind; [by apply ended_guard|]. intros ? Hdp. apply guard_ok in Hdp. breflect.
  apply ended_bind; [by apply ended_guard|]. intros _ _. apply ended_bind; [|done].
  specialize (Hd r eq_refl Ek). apply IH; [lia|]. intros r' Hr' _ _. rw Ep in Hr'. injection Hr' as <-. lia.
Qed.

(** [reading_ends]: on any store, also one with cycles or corrupt rows, reading a
    representation comes to an end: it returns the messages or one of its errors, and never
    reaches the bound of the recursion over nodes or over parent representations. *)
Theorem reading_ends db ref v :
  materialize_transcript_representation digest db ref v <> Err "out of fuel"%string.
Proof.
  apply repr_ended; [lia|]. intros r _ _ H. unfold HARD_MAX_DELTA_DEPTH in H. lia.
Qed.
End Store.
