(* ===== verification/TranscriptWriterProperties.v ===== *)
(** * Properties of the transcript writer
    (file Transcript, Section Writer)

    A store is well formed when each of its rows has a derivation ([payload_of], [repr_of]) and
    each checkpoint can be read.  [safely m db Q]: from the store [db] the transaction [m]
    either fails with one of the errors that the [MessageEquality] at hand admits, or leaves a
    well-formed store with the rows of [db] and possibly more, and [Q] of its result. *)

From S2P Require Import Prelude Canonical PythonValues Transcript TranscriptProperties.

#[local] Arguments canonical_bytes _ : simpl never.
#[local] Arguments transcript_chunk_id _ _ : simpl never.
#[local] Arguments transcript_payload_root_ref _ _ _ _ : simpl never.
#[local] Arguments logical_transcript_fingerprint _ _ : simpl never.

Section WriterLaws.
Context (digest : string -> string).
Context (digest_hex : forall s, sha256_hex (digest s) = true).
Context {M : MessageEquality}.

(** ** Stores that only grow *)

Record rows_grow (db db' : TranscriptDB) : Prop := {
  gr_chunks : td_chunks db ⊆ td_chunks db';
  gr_nodes : td_nodes db ⊆ td_nodes db';
  gr_reprs : td_reprs db ⊆ td_reprs db'
}.

Record grows (db db' : TranscriptDB) : Prop := {
  gr_rows :> rows_grow db db';
  gr_checkpoints : td_checkpoints db' = td_checkpoints db
}.

#[export] Instance rows_grow_preorder : PreOrder rows_grow.
Proof.
  split; [by split|]. intros a b c H1 H2. destruct H1 as [A1 A2 A3], H2 as [B1 B2 B3]. by split; etrans.
Qed.

#[export] Instance grows_preorder : PreOrder grows.
Proof.
  split; [by split|]. intros a b c H1 H2. destruct H1 as [A1 A2], H2 as [B1 B2].
  split; [by etrans|congruence].
Qed.

#[local] Hint Resolve gr_rows : core.

Lemma chunk_grows db db' id l :
  rows_grow db db' -> verified_chunk digest db id = Ok l -> verified_chunk digest db' id = Ok l.
Proof.
  intros Hg. unfold verified_chunk, get_chunk. destruct (td_chunks db !! id) as [c|] eqn:E; [|done].
  by rw (lookup_weaken _ _ _ _ E (gr_chunks _ _ Hg)).
Qed.

Lemma node_grows db db' ref n : rows_grow db db' -> get_node db ref = Some n -> get_node db' ref = Some n.
Proof. intros Hg E. exact (lookup_weaken _ _ _ _ E (gr_nodes _ _ Hg)). Qed.

Lemma row_grows db db' ref v r :
  rows_grow db db' -> get_representation db ref v = Some r -> get_representation db' ref v = Some r.
Proof. intros Hg E. exact (lookup_weaken _ _ _ _ E (gr_reprs _ _ Hg)). Qed.

Lemma payload_grows db db' h ref l :
  rows_grow db db' -> payload_of digest db h ref l -> payload_of digest db' h ref l.
Proof.
  intros Hg. induction 1 as [ref n payload Hn Hp Hc Hr Hl|h ref n p older payload Hn Hp Hc Hr Ho IH Hl];
    econstructor; eauto using node_grows, chunk_grows.
Qed.

Lemma repr_grows db db' ref v l : rows_grow db db' -> repr_of digest db ref v l -> repr_of digest db' ref v l.
Proof. intros Hg. induction 1; econstructor; eauto using row_grows, payload_grows. Qed.

Lemma referenced_messages_iff db ref v l :
  referenced_messages digest db ref v = Ok l <-> repr_of digest db ref v l.
Proof.
  unfold referenced_messages. rw -materialize_repr_iff. split.
  - destruct (get_representation db ref v); [|done].
    by destruct (materialize_transcript_representation digest db ref v).
  - intros H. pose proof H as H'. apply materialize_repr_iff, repr_row in H' as (r & Hr & _). by rw Hr H.
Qed.

Lemma checkpoint_grows db db' k l : rows_grow db db' ->
  materialize_checkpoint_transcript digest db k = Ok l -> materialize_checkpoint_transcript digest db' k = Ok l.
Proof.
  intros Hg. unfold materialize_checkpoint_transcript.
  destruct (kt_snapshot k) as [s|], (kt_ref k) as [ref|], (kt_version k) as [v|]; try done.
  - intros H. apply bind_ok in H as (inline & E1 & H). apply bind_ok in H as (stored & E2 & H).
    rw E1. simpl. apply referenced_messages_iff, (repr_grows _ _ _ _ _ Hg), referenced_messages_iff in E2.
    by rw E2.
  - intros H. apply referenced_messages_iff, (repr_grows _ _ _ _ _ Hg) in H. by apply referenced_messages_iff.
Qed.

(** ** Well-formed stores *)

Record store_wf (db : TranscriptDB) : Prop := {
  wf_chunks id c : get_chunk db id = Some c -> verified_chunk digest db id = Ok (ch_payload c);
  wf_nodes ref n : get_node db ref = Some n -> exists h l, payload_of digest db h ref l;
  wf_reprs ref v r : get_representation db ref v = Some r -> exists l, repr_of digest db ref v l;
  wf_checkpoints id k : td_checkpoints db !! id = Some k ->
    exists l, materialize_checkpoint_transcript digest db k = Ok l
}.

(** ** Transactions *)

(** The messages of the store, in its chunks and in the inline snapshots of checkpoints, are
    of the universe of the equality. *)
Record in_universe (db : TranscriptDB) : Prop := {
  iu_chunks id c : get_chunk db id = Some c -> Forall me_universe (ch_payload c);
  iu_snapshots id k s l : td_checkpoints db !! id = Some k -> kt_snapshot k = Some s ->
    canonical_transcript_messages s = Some l -> Forall me_universe l
}.

Record store_in (db : TranscriptDB) : Prop := {
  si_wf :> store_wf db;
  si_universe : in_universe db
}.

Definition safe_by {A} (R : relation TranscriptDB) (m : Tx A) (db : TranscriptDB)
    (Q : TranscriptDB -> A -> Prop) : Prop :=
  match m db with
  | Ok (db', a) => store_in db' /\ R db db' /\ Q db' a
  | Err e => e ∈ me_errors
  end.

Section Transactions.
Context (R : relation TranscriptDB) `{!PreOrder R}.
#[local] Abbreviation safely := (safe_by R).

Lemma safe_ret {A} (a : A) db (Q : TranscriptDB -> A -> Prop) :
  store_in db -> Q db a -> safely (mret a) db Q.
Proof. intros W HQ. unfold safe_by. simpl. by split_and!. Qed.

Lemma safe_bind {A B} (m : Tx A) (k : A -> Tx B) db Q :
  safely m db (fun db' a => safely (k a) db' Q) -> safely (m ≫= k) db Q.
Proof.
  unfold safe_by. unfold mbind, tx_bind. destruct (m db) as [[db1 a]|e]; [|done].
  intros (_ & G1 & H). destruct (k a db1) as [[db2 b]|e]; [|done].
  destruct H as (W & G2 & HQ). split_and!; [done|by etrans|done].
Qed.

Lemma safely_mono {A} (m : Tx A) db (P Q : TranscriptDB -> A -> Prop) : safely m db P ->
  (forall db' a, store_in db' -> R db db' -> P db' a -> Q db' a) -> safely m db Q.
Proof. unfold safe_by. destruct (m db) as [[db1 a]|e]; [|done]. intros (W & G & H) HPQ. auto. Qed.

(** Run [m], then the rest from the store it leaves. *)
Lemma safe_then {A B} (m : Tx A) (k : A -> Tx B) db P Q : safely m db P ->
  (forall db' a, store_in db' -> R db db' -> P db' a -> safely (k a) db' Q) -> safely (m ≫= k) db Q.
Proof. intros H HK. apply safe_bind. eapply safely_mono; eauto. Qed.

Lemma safely_get {A B} (f : TranscriptDB -> A) (k : A -> Tx B) db Q :
  safely (k (f db)) db Q -> safely (tx_get f ≫= k) db Q.
Proof. done. Qed.

Lemma safely_read {A B} (f : TranscriptDB -> result string A) a (k : A -> Tx B) db Q :
  f db = Ok a -> safely (k a) db Q -> safely (tx_read f ≫= k) db Q.
Proof. intros E. unfold safe_by, mbind, tx_bind, tx_read. by rw E. Qed.

Lemma safely_check {B} b e (k : unit -> Tx B) db Q :
  b = true -> safely (k tt) db Q -> safely (tx_check b e ≫= k) db Q.
Proof. by intros ->. Qed.

(** A check whose failure is that the identity is taken. *)
Lemma safely_bound {B} b e (k : unit -> Tx B) db Q :
  e ∈ me_errors -> (b = true -> safely (k tt) db Q) -> safely (tx_check b e ≫= k) db Q.
Proof. destruct b; [auto|done]. Qed.

Lemma safely_some {A B} (a : A) e (k : A -> Tx B) db Q :
  safely (k a) db Q -> safely (tx_some (Some a) e ≫= k) db Q.
Proof. done. Qed.

Lemma safe_insert {B} present put (k : unit -> Tx B) db Q : store_in db ->
  (present db = true -> safely (k tt) db Q) ->
  (present db = false -> store_in (put db) /\ R db (put db) /\ safely (k tt) (put db) Q) ->
  safely (tx_insert present put ≫= k) db Q.
Proof.
  intros W H1 H2. apply safe_bind. unfold safe_by at 1, tx_insert.
  destruct (present db); [by split_and!; auto|]. destruct (H2 eq_refl) as (? & ? & ?). by split_and!.
Qed.
Lemma safely_pure {A B} (m : Tx A) a (k : A -> Tx B) db Q :
  m db = Ok (db, a) -> safely (k a) db Q -> safely (m ≫= k) db Q.
Proof. intros E. unfold safe_by, mbind, tx_bind. by rw E. Qed.
End Transactions.

Abbreviation safely := (safe_by grows).
Abbreviation safely_ret := (safe_ret grows).
Abbreviation safely_then := (safe_then grows).
Abbreviation safely_insert := (safe_insert grows).

(** A larger store is well formed when its new rows are. *)
Lemma store_wf_grows db db' : store_wf db -> rows_grow db db' ->
  (forall id c, get_chunk db id = None -> get_chunk db' id = Some c ->
     verified_chunk digest db' id = Ok (ch_payload c)) ->
  (forall ref n, get_node db ref = None -> get_node db' ref = Some n ->
     exists h l, payload_of digest db' h ref l) ->
  (forall ref v r, get_representation db ref v = None -> get_representation db' ref v = Some r ->
     exists l, repr_of digest db' ref v l) ->
  (forall id k, td_checkpoints db' !! id = Some k -> td_checkpoints db !! id = Some k \/
     exists l, materialize_checkpoint_transcript digest db' k = Ok l) -> store_wf db'.
Proof.
  intros W G Hc Hn Hr Hk. split.
  - intros id c E'. destruct (get_chunk db id) as [c0|] eqn:E; [|by apply Hc].
    pose proof (lookup_weaken _ _ _ _ E (gr_chunks _ _ G)) as E2. unfold get_chunk in E'. rw E2 in E'.
    injection E' as <-. eapply chunk_grows; [done|by apply W].
  - intros ref n E'. destruct (get_node db ref) as [n0|] eqn:E; [|by eapply Hn].
    destruct (wf_nodes _ W _ _ E) as (h & l & Hp). eauto using payload_grows.
  - intros ref v r E'. destruct (get_representation db ref v) as [r0|] eqn:E; [|by eapply Hr].
    destruct (wf_reprs _ W _ _ _ E) as (l & Hp). eauto using repr_grows.
  - intros id k E'. destruct (Hk _ _ E') as [E|?]; [|done].
    destruct (wf_checkpoints _ W _ _ E) as (l & Hl). eauto using checkpoint_grows.
Qed.

Ltac new_row := let E := fresh in intros E; apply bool_decide_eq_false in E; apply eq_None_not_Some in E.

Lemma put_chunk_grows db id c : get_chunk db id = None -> grows db (put_chunk db id c).
Proof. intros E. split; [|done]. split; try done. by apply insert_subseteq. Qed.

Lemma put_node_grows db ref n : get_node db ref = None -> grows db (put_node db ref n).
Proof. intros E. split; [|done]. split; try done. by apply insert_subseteq. Qed.

Lemma put_repr_grows db ref v r : get_representation db ref v = None -> grows db (put_repr db (ref, v) r).
Proof. intros E. split; [|done]. split; try done. by apply insert_subseteq. Qed.

Lemma no_row {A} {o : option A} {a} {P : Prop} : o = None -> o = Some a -> P.
Proof. by intros ->. Qed.

Lemma verified_row db id c : get_chunk db id = Some c -> transcript_chunk_id digest (ch_payload c) = id ->
  ch_message_count c = Z.of_nat (length (ch_payload c)) -> ch_bytes c = canonical_bytes (ch_payload c) ->
  verified_chunk digest db id = Ok (ch_payload c).
Proof. intros E H1 H2 H3. unfold verified_chunk. by rw E bool_decide_true // H2 H3 !Z.eqb_refl. Qed.

Lemma put_chunk_wf db l : store_wf db -> get_chunk db (transcript_chunk_id digest l) = None ->
  let db' := put_chunk db (transcript_chunk_id digest l)
    {| ch_payload := l; ch_message_count := Z.of_nat (length l); ch_bytes := canonical_bytes l |} in
  verified_chunk digest db' (transcript_chunk_id digest l) = Ok l /\ store_wf db'.
Proof.
  intros W E db'. assert (V : verified_chunk digest db' (transcript_chunk_id digest l) = Ok l).
  { by apply (verified_row db' _ _ (lookup_insert_eq _ _ _)). }
  split; [done|]. apply (store_wf_grows db); [done|by apply put_chunk_grows| | | |].
  - intros id c En Ey. unfold get_chunk, db', put_chunk in Ey. simpl in Ey.
    apply lookup_insert_Some in Ey as [[<- <-]|[_ Ey]]; [done|]. unfold get_chunk in En. by rw Ey in En.
  - intros ref n En Ey. exact (no_row En Ey).
  - intros ref v r En Ey. exact (no_row En Ey).
  - by left.
Qed.

(** A checkpoint whose transcript can be read, new or in place of the row it had. *)
Lemma put_checkpoint_wf db id k l : store_wf db ->
  materialize_checkpoint_transcript digest db k = Ok l -> store_wf (put_checkpoint db id k).
Proof.
  intros W H. assert (G : rows_grow db (put_checkpoint db id k)) by by split.
  apply (store_wf_grows db); [done|done| | | |].
  - intros id' c En Ey. exact (no_row En Ey).
  - intros ref n En Ey. exact (no_row En Ey).
  - intros ref v r En Ey. exact (no_row En Ey).
  - intros id' k' Ey. simpl in Ey. apply lookup_insert_Some in Ey as [[<- <-]|[_ Ey]]; [|by left].
    right. exists l. by eapply checkpoint_grows.
Qed.

(** *** The universe of the messages *)

Lemma in_universe_same db db' : in_universe db -> td_chunks db' = td_chunks db ->
  td_checkpoints db' = td_checkpoints db -> in_universe db'.
Proof. intros [U1 U2] E1 E2. split; unfold get_chunk in *; rw ?E1 ?E2; eauto. Qed.

Lemma put_chunk_universe db id c : in_universe db -> Forall me_universe (ch_payload c) -> in_universe (put_chunk db id c).
Proof.
  intros [U1 U2] Hc. split; [|exact U2]. intros id' c'. unfold get_chunk, put_chunk. simpl.
  rw lookup_insert_Some. intros [[_ <-]|[_ E]]; [done|by eapply U1].
Qed.

Lemma payload_universe db h ref l : in_universe db -> payload_of digest db h ref l -> Forall me_universe l.
Proof.
  intros U. assert (forall id payload, verified_chunk digest db id = Ok payload -> Forall me_universe payload) as Hc.
  { intros id payload. unfold verified_chunk. destruct (get_chunk db id) as [c|] eqn:E; [|done]. intros H.
    apply guard_bind_ok in H as [_ H]. apply guard_bind_ok in H as [_ H]. apply guard_bind_ok in H as [_ H].
    injection H as <-. by eapply iu_chunks. }
  induction 1 as [ref n payload _ _ Hv|h ref n p older payload _ _ Hv _ _ IH _]; [by eapply Hc|].
  apply Forall_app. split; [done|by eapply Hc].
Qed.

Lemma repr_universe db ref v l : in_universe db -> repr_of digest db ref v l -> Forall me_universe l.
Proof.
  intros U. induction 1; [by eapply payload_universe|]. apply Forall_app. split; [done|by eapply payload_universe].
Qed.

Lemma checkpoint_universe db id k l : in_universe db -> td_checkpoints db !! id = Some k ->
  materialize_checkpoint_transcript digest db k = Ok l -> Forall me_universe l.
Proof.
  intros U Hk H. unfold materialize_checkpoint_transcript, inline_messages in H.
  destruct (kt_snapshot k) as [s|] eqn:Es, (kt_ref k) as [ref|], (kt_version k) as [v|]; try done.
  - apply bind_ok in H as (inline & Hi & H). apply bind_ok in H as (st & _ & H). apply guard_bind_ok in H as [_ H].
    injection H as <-. destruct (canonical_transcript_messages s) eqn:Ec; [|done]. injection Hi as <-. by eapply iu_snapshots.
  - destruct (canonical_transcript_messages s) eqn:Ec; [|done]. injection H as <-. by eapply iu_snapshots.
  - apply referenced_messages_iff in H. by eapply repr_universe.
Qed.

(** ** Chunks and payload roots *)

Lemma save_chunk_safe db l : store_in db -> Forall me_universe l ->
  safely (save_chunk digest l) db (fun db' id => id = transcript_chunk_id digest l /\
    exists c, get_chunk db' id = Some c /\ ch_message_count c = Z.of_nat (length l) /\
      verified_chunk digest db' id = Ok (ch_payload c) /\ same_content (ch_payload c) l).
Proof.
  intros W Hl. unfold save_chunk, save_transcript_chunk.
  apply safely_check; [by apply bool_decide_eq_true|]. apply safely_check; [by apply Z.eqb_eq|].
  apply safely_check; [by apply Z.eqb_eq|]. apply safely_insert; [done| |].
  - intros [c E]%bool_decide_eq_true. apply safely_get. rw E. apply safely_some.
    apply safely_bound; [apply me_bound; unfold bound_errors; set_solver|]. intros H. breflect. apply safely_ret; [done|].
    split; [done|]. exists c. split_and!; try done; [by apply W|].
    apply same_content_checked; [by eapply iu_chunks; [apply W|]|done|done].
  - new_row. destruct (put_chunk_wf db l (si_wf _ W)) as [V W']; [done|].
    split_and!; [split; [done|apply put_chunk_universe; [apply W|done]]|by apply put_chunk_grows|].
    apply safely_get. unfold get_chunk, put_chunk. simpl. rw lookup_insert_eq. apply safely_some. simpl.
    apply safely_bound; [apply me_bound; unfold bound_errors; set_solver|]. intros _.
    apply safely_ret; [split; [done|apply put_chunk_universe; [apply W|done]]|].
    split; [done|]. eexists. split; [apply lookup_insert_eq|]. by split_and!.
Qed.

(** The root [ref] holds messages with the content of [l]. *)
Definition stored (db : TranscriptDB) (ref : string) (l : list InferenceMessage) : Prop :=
  exists h l', payload_of digest db h ref l' /\ same_content l' l.

Definition stored_below (db : TranscriptDB) (parent : option string) (l : list InferenceMessage) : Prop :=
  match parent with None => l = [] | Some p => stored db p l end.

Lemma stored_grows db db' ref l : rows_grow db db' -> stored db ref l -> stored db' ref l.
Proof. intros G (h & l' & Hp & Hs). exists h, l'. eauto using payload_grows. Qed.

Lemma below_grows db db' parent l : rows_grow db db' -> stored_below db parent l -> stored_below db' parent l.
Proof. destruct parent; simpl; [apply stored_grows|done]. Qed.

Lemma stored_same db ref l r : stored db ref l -> same_content l r -> stored db ref r.
Proof. intros (h & l' & Hp & Hs) E. exists h, l'. split; [done|by etrans]. Qed.

Lemma stored_node db ref l : stored db ref l ->
  exists n, get_node db ref = Some n /\ nd_count n = Z.of_nat (length l).
Proof.
  intros (h & l' & (n & Hn & Hc)%payload_node & Hs). exists n. split; [done|]. by rw Hc Hs.
Qed.

(** A node over a stored parent and a verified chunk. *)
Lemma node_stored db ref n older payload :
  get_node db ref = Some n -> stored_below db (nd_parent n) older ->
  verified_chunk digest db (nd_chunk n) = Ok payload ->
  transcript_payload_root_ref digest (nd_parent n) (nd_chunk n) (nd_count n) = ref ->
  nd_count n = Z.of_nat (length (older ++ payload)) -> stored db ref (older ++ payload).
Proof.
  intros Hn Hb Hc Hr Hl. destruct (nd_parent n) as [p|] eqn:Ep.
  - destruct Hb as (h & l' & Hp & Hs). exists (S h), (l' ++ payload). split.
    + eapply PayloadNext; eauto; [by rw Ep|]. by rw Hs.
    + by rw Hs.
  - simpl in Hb. subst older. exists 0%nat, payload. split; [|done]. eapply PayloadRoot; eauto. by rw Ep.
Qed.

Lemma put_node_wf db ref n older payload : store_in db -> get_node db ref = None ->
  stored_below db (nd_parent n) older -> verified_chunk digest db (nd_chunk n) = Ok payload ->
  transcript_payload_root_ref digest (nd_parent n) (nd_chunk n) (nd_count n) = ref ->
  nd_count n = Z.of_nat (length (older ++ payload)) ->
  store_in (put_node db ref n) /\ stored (put_node db ref n) ref (older ++ payload).
Proof.
  intros [W U] E Hb Hc Hr Hl. pose proof (put_node_grows db ref n E) as G.
  assert (S : stored (put_node db ref n) ref (older ++ payload)).
  { eapply node_stored; eauto using below_grows, chunk_grows. apply lookup_insert_eq. }
  split; [|done]. split; [|by eapply in_universe_same]. apply (store_wf_grows db); [done|exact G| | | |].
  - intros id c En Ey. exact (no_row En Ey).
  - intros ref' n' En Ey. unfold get_node, put_node in Ey. simpl in Ey. apply lookup_insert_Some in Ey as [[<- _]|[_ Ey]]; [|exact (no_row En Ey)].
    destruct S as (h & l' & Hp & _). eauto.
  - intros ref' v r En Ey. exact (no_row En Ey).
  - by left.
Qed.

Lemma parent_count_safe db parent older e : store_in db -> stored_below db parent older ->
  safely (match parent with
          | None => mret 0
          | Some p => found ← tx_get (fun db => get_node db p); n ← tx_some found e; mret (nd_count n)
          end) db (fun db' count => db' = db /\ count = Z.of_nat (length older)).
Proof.
  intros W Hb. destruct parent as [p|]; [|simpl in Hb; subst older; by apply safely_ret].
  destruct (stored_node _ _ _ Hb) as (m & Em & Hc). apply safely_get. rw Em. apply safely_some.
  by apply safely_ret.
Qed.

Lemma save_node_safe db ref n older payload c : store_in db ->
  stored_below db (nd_parent n) older -> get_chunk db (nd_chunk n) = Some c ->
  ch_message_count c = Z.of_nat (length payload) -> verified_chunk digest db (nd_chunk n) = Ok payload ->
  ref = transcript_payload_root_ref digest (nd_parent n) (nd_chunk n) (nd_count n) ->
  nd_count n = Z.of_nat (length (older ++ payload)) ->
  safely (save_transcript_payload_node digest ref n) db (fun db' ref' => stored db' ref' (older ++ payload)).
Proof.
  intros W Hb Ec Hm Hv Hr Hl. unfold save_transcript_payload_node.
  apply safely_get. rw Ec. apply safely_some.
  eapply safely_then; [by eapply parent_count_safe|].
  intros _ count _ _ [-> ->]. rw length_app in Hl. apply safely_check; [lia|].
  apply safely_check; [by apply bool_decide_eq_true|]. apply safely_insert; [done| |].
  - intros [n' E]%bool_decide_eq_true. apply safely_get. rw E. apply safely_some.
    apply safely_bound; [apply me_bound; unfold bound_errors; set_solver|]. intros ->%bool_decide_eq_true.
    apply safely_ret; [done|]. eapply node_stored; eauto. by rw length_app Hl.
  - new_row. destruct (put_node_wf db ref n older payload) as [W' S]; try done; [by rw length_app|].
    split_and!; [done|by apply put_node_grows|]. apply safely_get. unfold get_node, put_node. simpl.
    rw lookup_insert_eq. apply safely_some. apply safely_bound; [apply me_bound; unfold bound_errors; set_solver|].
    intros _. by apply safely_ret.
Qed.

Lemma save_payload_root_safe db parent older l : store_in db -> Forall me_universe l -> stored_below db parent older ->
  safely (save_payload_root digest l parent) db (fun db' ref => stored db' ref (older ++ l)).
Proof.
  intros W Hl Hb. unfold save_payload_root. eapply safely_then; [by apply save_chunk_safe|].
  intros db1 id W1 G1 [-> (c & Ec & Hm & Hv & Hs)]. apply (below_grows _ _ _ _ G1) in Hb.
  eapply safely_then; [by eapply parent_count_safe|].
  intros _ count _ _ [-> ->]. eapply safely_mono.
  - eapply (save_node_safe _ _ _ older (ch_payload c)); eauto; simpl; [by rw Hs|]. rw length_app Hs. lia.
  - intros db2 ref _ _ S. eapply stored_same; [exact S|]. by rw Hs.
Qed.

Lemma append_messages_safe l : Forall me_universe l -> forall db parent older, store_in db -> stored_below db parent older ->
  safely (append_messages digest l parent) db (fun db' o => stored_below db' o (older ++ l) /\
    (l <> [] -> is_Some o)).
Proof.
  induction 1 as [|m l Hm _ IH]; intros db parent older W Hb; simpl.
  - apply safely_ret; [done|]. by rw app_nil_r.
  - eapply safely_then; [apply save_payload_root_safe; [done|by constructor|done]|]. intros db1 ref W1 _ S.
    eapply safely_mono; [by apply (IH db1 (Some ref) (older ++ [m]))|]. intros db2 o _ _ [Ho Hs].
    rw -app_assoc in Ho. simpl in Ho. split; [done|]. intros _.
    destruct o; [done|]. simpl in Ho. by destruct older.
Qed.

Lemma save_payload_chain_safe l db parent older : Forall me_universe l -> store_in db -> stored_below db parent older ->
  safely (save_payload_chain digest l parent) db
    (fun db' o => exists ref, o = Some ref /\ stored db' ref (older ++ l)).
Proof.
  intros Hl W Hb. destruct l as [|m l]; simpl.
  - destruct parent as [p|].
    + destruct (stored_node _ _ _ Hb) as (n & En & _). apply safely_get. rw En.
      apply safely_ret; [done|]. exists p. by rw app_nil_r.
    + eapply safely_then; [by apply save_payload_root_safe|]. intros db1 ref W1 _ S.
      apply safely_ret; [done|]. eauto.
  - eapply safely_mono; [by apply (append_messages_safe (m :: l) Hl)|].
    intros db1 o _ _ [Ho Hs]. destruct (Hs ltac:(done)) as [ref ->]. eauto.
Qed.

(** A chain of which the root is needed. *)
Lemma save_payload_chain_some l db parent older e : Forall me_universe l -> store_in db -> stored_below db parent older ->
  safely (found ← save_payload_chain digest l parent; tx_some found e) db
    (fun db' ref => stored db' ref (older ++ l)).
Proof.
  intros Hl W Hb. eapply safely_then; [by eapply save_payload_chain_safe|].
  intros db1 o W1 _ (ref & -> & S). by apply safely_ret.
Qed.

Lemma ensure_cumulative_safe db0 ref v l : repr_of digest db0 ref v l -> forall fuel r db,
  grows db0 db -> store_in db -> get_representation db0 ref v = Some r -> tr_depth r < Z.of_nat fuel ->
  safely (ensure_cumulative digest fuel r) db (fun db' root => stored db' root l).
Proof.
  induction 1 as [ref r h l Hg Hk Hp1 Hp2 Hd Hpay Hc Hf Hr|
    ref r pr pv parent h older payload Hg Hk Hp1 Hp2 Hd Hpar Hdp Hold IH Hpay Hne Hc Hf Hr];
    intros fuel r' db G W Hg' Hfuel; rw Hg in Hg'; injection Hg' as <-;
    (destruct fuel as [|fuel]; [lia|]); simpl; rw Hk.
  - apply safely_ret; [done|]. exists h, l. split; [eauto using payload_grows|done].
  - rw Hp1 Hp2. apply safely_get. rw (row_grows _ _ _ _ _ G Hpar). apply safely_some.
    eapply safely_then; [apply (IH fuel parent db); [done|done|done|lia]|].
    intros db1 cumulative W1 G1 S1. assert (G2 : grows db0 db1) by by etrans.
    assert (payload_of digest db1 h (tr_root r) payload) as Hpay1 by eauto using payload_grows.
    eapply safely_read; [by eapply payload_materialize|].
    apply (save_payload_chain_some payload db1 (Some cumulative) older); [eapply payload_universe; [apply W1|done]|done|done].
Qed.

Lemma ensure_cumulative_root_safe db ref v l r : store_in db -> repr_of digest db ref v l ->
  get_representation db ref v = Some r ->
  safely (ensure_cumulative_payload_root digest r) db (fun db' root => stored db' root l).
Proof.
  intros W H Hr. destruct (repr_row _ _ _ _ _ H) as (r' & Hr' & _ & Hd & _). rw Hr in Hr'. injection Hr' as <-.
  unfold HARD_MAX_DELTA_DEPTH in Hd. eapply ensure_cumulative_safe; eauto; [done|lia].
Qed.

(** The chain of a root, cut after [count] messages, or no node ends there. *)
Lemma root_at_count_spec db h ref l : payload_of digest db h ref l -> forall fuel count,
  (h < fuel)%nat -> 0 < count ->
  match root_at_count fuel db ref count with
  | Ok r => exists h', payload_of digest db h' r (take (Z.to_nat count) l) /\ count <= Z.of_nat (length l)
  | Err e => contains "payload-root boundary" e = true
  end.
Proof.
  induction 1 as [ref n payload Hn Hp Hc Hr Hl|h ref n p older payload Hn Hp Hc Hr Ho IH Hl];
    intros fuel count Hf Hpos; (destruct fuel as [|fuel]; [lia|]); simpl; rw Hn;
    (destruct (nd_count n =? count) eqn:E1; [|destruct (nd_count n <? count) eqn:E2; [done|]; rw Hp]);
    breflect; try done.
  - exists 0%nat. rw take_ge; [lia|]. split; [by econstructor|lia].
  - exists (S h). rw take_ge; [lia|]. split; [by econstructor|lia].
  - specialize (IH fuel count ltac:(lia) Hpos). destruct (root_at_count fuel db p count) as [r|e]; [|done].
    destruct IH as (h' & Hp' & Hle). exists h'. rw take_app_le; [lia|]. split; [done|]. rw length_app. lia.
Qed.

(** ** Representations *)

(** The record's representation holds messages with the content of [l]. *)
Definition kept (db : TranscriptDB) (record : string * Z) (l : list InferenceMessage) : Prop :=
  exists l', repr_of digest db record.1 record.2 l' /\ same_content l' l.

Lemma kept_grows db db' record l : rows_grow db db' -> kept db record l -> kept db' record l.
Proof. intros G (l' & Hr & Hs). exists l'. eauto using repr_grows. Qed.

Lemma representation_ref_ok v r : 0 <= v -> 0 <= tr_depth r <= HARD_MAX_DELTA_DEPTH -> 0 <= tr_count r ->
  exists ref, transcript_representation_ref digest v r = Ok ref.
Proof.
  intros H1 H2 H3. unfold transcript_representation_ref.
  assert (E : (0 <=? tr_depth r) && (tr_depth r <=? HARD_MAX_DELTA_DEPTH) = true)
    by (apply andb_true_intro; split; lia).
  apply Z.leb_le in H1, H3. rw H1 E H3. eexists. done.
Qed.

Lemma hex_checks l : let s := logical_transcript_fingerprint digest l in
  (String.length s =? 64)%nat = true /\ string_forallb hex_char s = true.
Proof.
  intros s. pose proof (digest_hex (messages_text l)) as H. unfold sha256_hex in H.
  change (digest (messages_text l)) with s in H. breflect. split; [done|]. revert H0. generalize s.
  clear. induction s as [|a s IH]; [done|]. simpl. intros H. breflect.
  unfold hex_char at 1. rw H. simpl. by apply IH.
Qed.

Lemma put_repr_wf db ref v r l : store_in db -> get_representation db ref v = None ->
  repr_of digest (put_repr db (ref, v) r) ref v l -> store_in (put_repr db (ref, v) r).
Proof.
  intros [W U] E H. split; [|by eapply in_universe_same]. apply (store_wf_grows db); [done|by apply put_repr_grows| | | |].
  - intros id c En Ey. exact (no_row En Ey).
  - intros ref' n' En Ey. exact (no_row En Ey).
  - intros ref' v' r' En Ey. unfold get_representation, put_repr in Ey. simpl in Ey.
    apply lookup_insert_Some in Ey as [[Hk _]|[_ Ey]]; [|exact (no_row En Ey)]. injection Hk as <- <-. eauto.
  - by left.
Qed.

(** A text that is known to be the same has the fingerprint; otherwise the check may fail. *)
Lemma safely_fingerprint {B} l' l (k : unit -> Tx B) db Q : same_content l' l ->
  (logical_transcript_fingerprint digest l' = logical_transcript_fingerprint digest l -> safely (k tt) db Q) ->
  safely (tx_check (bool_decide (logical_transcript_fingerprint digest l' = logical_transcript_fingerprint digest l))
            FINGERPRINT_MISMATCH ≫= k) db Q.
Proof.
  intros Hs Hk. destruct me_text as [He|Ht].
  - apply safely_bound; [done|]. intros H%bool_decide_eq_true. by apply Hk.
  - assert (logical_transcript_fingerprint digest l' = logical_transcript_fingerprint digest l) as E
      by (unfold logical_transcript_fingerprint; f_equal; by apply same_text, same_content_text).
    apply safely_check; [by apply bool_decide_eq_true|by apply Hk].
Qed.

Lemma save_representation_safe db v r ref n l' l : store_in db ->
  transcript_representation_ref digest v r = Ok ref -> get_node db (tr_root r) = Some n ->
  planned_messages digest r v n db = Ok (db, l') -> same_content l' l ->
  tr_count r = Z.of_nat (length l) -> tr_fingerprint r = logical_transcript_fingerprint digest l ->
  (forall db', grows db db' -> get_representation db' ref v = Some r ->
     logical_transcript_fingerprint digest l' = tr_fingerprint r -> repr_of digest db' ref v l') ->
  safely (save_representation digest v r) db (fun db' record => kept db' record l).
Proof.
  intros W Href Hn Hplan Hs Hc Hf Hrow. unfold save_representation, save_transcript_representation.
  eapply safely_read; [exact Href|]. destruct (hex_checks l) as [Hlen Hhex].
  apply safely_check; [by rw Hf|]. apply safely_check; [by rw Hf|].
  apply safely_get. rw Hn. apply safely_some. eapply safely_pure; [exact Hplan|].
  apply safely_check; [rw Hc Hs; apply Z.eqb_refl|]. rw Hf in Hrow.
  rw Hf. apply safely_fingerprint; [done|]. intros Hfp.
  eapply safely_read; [exact Href|]. apply safely_check; [by apply bool_decide_eq_true|].
  apply safely_insert; [done| |].
  - intros [r' E]%bool_decide_eq_true. apply safely_get. rw E. apply safely_some.
    apply safely_bound; [apply me_bound; unfold bound_errors; set_solver|]. intros ->%bool_decide_eq_true.
    pose proof (Hrow db ltac:(done) E Hfp) as Hr.
    eapply safely_read; [by apply repr_materialize|]. apply safely_ret; [done|]. by exists l'.
  - new_row. assert (Hr : repr_of digest (put_repr db (ref, v) r) ref v l').
    { apply Hrow; [by apply put_repr_grows| |done]. apply lookup_insert_eq. }
    pose proof (put_repr_wf _ _ _ _ _ W H Hr) as W'. split_and!; [done|by apply put_repr_grows|].
    apply safely_get. unfold get_representation, put_repr at 1. simpl. rw lookup_insert_eq. apply safely_some.
    apply safely_bound; [apply me_bound; unfold bound_errors; set_solver|]. intros _.
    eapply safely_read; [by apply repr_materialize|]. apply safely_ret; [done|]. by exists l'.
Qed.

Lemma save_full_safe db l root : store_in db -> stored db root l ->
  safely (save_full digest l root) db (fun db' record => kept db' record l).
Proof.
  intros W S. destruct (stored_node _ _ _ S) as (n & Hn & Hc). destruct S as (h & l' & Hp & Hs).
  unfold save_full. set (r := {| tr_kind := FULL |}).
  destruct (representation_ref_ok 0 r) as [ref Href]; [lia|simpl; unfold HARD_MAX_DELTA_DEPTH; lia|simpl; lia|].
  eapply (save_representation_safe _ _ _ ref n l'); try done.
  - unfold planned_messages. simpl. unfold tx_check, tx_read, mbind, tx_bind. simpl. rw Hc Z.eqb_refl. simpl.
    by rw (payload_materialize _ _ _ _ _ Hp).
  - intros db' G Hr Hfp. eapply ReprFull; try done; [eauto using payload_grows|simpl; by rw Hs].
Qed.

Lemma save_delta_safe db pr pv parent older l suffix : store_in db -> Forall me_universe suffix -> repr_of digest db pr pv older ->
  get_representation db pr pv = Some parent -> tr_depth parent + 1 <= HARD_MAX_DELTA_DEPTH ->
  suffix <> [] -> same_content (older ++ suffix) l ->
  safely (save_delta digest pr pv parent l suffix) db (fun db' record => kept db' record l).
Proof.
  intros W Hu Hold Hpar Hd Hne Hl. unfold save_delta.
  destruct (repr_row _ _ _ _ _ Hold) as (parent' & Hpar' & Hv & Hd0 & Hc0). rw Hpar in Hpar'. injection Hpar' as <-.
  eapply safely_then; [by apply (save_payload_chain_safe _ _ None [])|].
  intros db1 o W1 G1 (root & -> & S). apply safely_some. simpl in S.
  destruct (stored_node _ _ _ S) as (n & Hn & Hc). destruct S as (h & payload & Hp & Hs).
  apply (repr_grows _ _ _ _ _ G1) in Hold. apply (row_grows _ _ _ _ _ G1) in Hpar.
  set (r := {| tr_kind := DELTA |}).
  assert (Hlen : Z.of_nat (length l) = tr_count parent + Z.of_nat (length suffix))
    by (rw -Hl length_app Hc0; lia).
  assert (Hpos : 0 < Z.of_nat (length suffix)) by (destruct suffix; simpl; [done|lia]).
  destruct (representation_ref_ok (pv + 1) r) as [ref Href]; [lia|simpl; lia|simpl; lia|].
  eapply (save_representation_safe _ _ _ ref n (older ++ payload)); try done.
  - unfold planned_messages. simpl. unfold tx_check, tx_read, tx_get, mbind, tx_bind. simpl. rw Hpar. simpl.
    rw !Z.eqb_refl. simpl. destruct (depth_delta (tr_depth parent + 1)) as [_ E]; [lia|]. rw E. simpl.
    assert (E1 : (0 <? Z.of_nat (length l) - tr_count parent) = true) by lia. rw E1. simpl.
    assert (E2 : (nd_count n =? Z.of_nat (length l) - tr_count parent) = true) by lia. rw E2. simpl.
    by rw (repr_materialize _ _ _ _ _ Hold) (payload_materialize _ _ _ _ _ Hp).
  - by rw Hs.
  - intros db' G Hr Hfp. eapply (ReprDelta _ _ _ r); try done.
    + simpl. lia.
    + eauto using row_grows.
    + eauto using repr_grows.
    + eauto using payload_grows.
    + intros ->. by rw -Hs in Hpos.
    + simpl. by rw Hs Hl.
Qed.

(** ** The writer *)

Lemma common_prefix_spec l r : Forall me_universe l -> Forall me_universe r ->
  let c := common_prefix_length l r in
  (c <= length l)%nat /\ same_content (take c l) (take c r).
Proof.
  intros Hl. revert r. induction Hl as [|x l Hx _ IH]; intros r Hr; cbn -[model_dump same_message];
    [by split; [lia|]|]. destruct Hr as [|y r Hy Hr]; [by split; [lia|]|].
  destruct (same_message x y) eqn:E; [|by split; [lia|]].
  apply same_message_true in E. destruct (IH r Hr) as [H1 H2]. split; [lia|]. simpl. constructor; [by apply me_checked|done].
Qed.

Lemma root_at_safe db root l pm common : stored db root l -> same_content l pm ->
  (0 < common <= length pm)%nat ->
  match payload_root_at_count db root (Z.of_nat common) with
  | Ok o => exists r, o = Some r /\ stored db r (take common pm)
  | Err e => contains "payload-root boundary" e = true
  end.
Proof.
  intros (h & l' & Hp & Hs) Hl Hc. unfold payload_root_at_count.
  assert (E1 : (0 <=? Z.of_nat common) = true) by lia. assert (E2 : (Z.of_nat common =? 0) = false) by lia.
  rw E1 E2. pose proof (payload_height _ _ _ _ _ Hp) as Hh.
  pose proof (root_at_count_spec _ _ _ _ Hp (S (size (td_nodes db))) (Z.of_nat common)) as H.
  destruct (root_at_count _ db root _) as [r|e]; simpl; [|by apply H; lia].
  destruct H as (h' & Hp' & _); [lia|lia|]. exists r. split; [done|]. rw Nat2Z.id in Hp'.
  exists h', (take common l'). split; [done|]. apply same_content_take. by etrans.
Qed.

Lemma shared_root_safe db ref v r l pm common : store_in db -> Forall me_universe pm -> repr_of digest db ref v l ->
  get_representation db ref v = Some r -> same_content l pm -> (0 < common <= length pm)%nat ->
  safely (shared_root digest r pm common) db
    (fun db' o => exists root, o = Some root /\ stored db' root (take common pm)).
Proof.
  intros W Hu Hr Er Hs Hc. unfold shared_root.
  eapply safely_then; [by eapply ensure_cumulative_root_safe|]. intros db1 root W1 G1 S1. apply safely_get.
  pose proof (root_at_safe _ _ _ _ _ S1 Hs Hc) as H.
  destruct (payload_root_at_count db1 root (Z.of_nat common)) as [o|e].
  - by apply safely_ret.
  - rw H. eapply safely_then; [apply (save_payload_chain_safe _ _ None []); [by apply Forall_take|done|done]|].
    intros db2 o W2 _ (root' & -> & S2). apply safely_some. apply safely_ret; [done|]. by exists root'.
Qed.

(** What the writer knows of the candidate parent. *)
Definition parent_ok (db : TranscriptDB)
    (parent : option (string * Z * Representation) * option (list InferenceMessage)) : Prop :=
  match parent with
  | (Some (ref, v, r), Some pm) => get_representation db ref v = Some r /\ kept db (ref, v) pm /\ Forall me_universe pm
  | (Some _, None) => False
  | (None, _) => True
  end.

Lemma full_root_safe db shared prefix suffix l : store_in db -> Forall me_universe l ->
  Forall me_universe suffix -> stored_below db shared prefix ->
  same_content (prefix ++ suffix) l ->
  safely (match suffix, shared with
          | [], Some r => mret r
          | [], None => found ← save_payload_chain digest l None;
                        tx_some found "FULL payload root could not be created."
          | _, _ => found ← save_payload_chain digest suffix shared;
                    tx_some found "FULL payload root could not be created."
          end) db (fun db' root => stored db' root l).
Proof.
  intros W Hu Hus Hb Hl. destruct suffix as [|m suffix]; [destruct shared as [r|]|].
  - apply safely_ret; [done|]. rw app_nil_r in Hl. exact (stored_same _ _ _ _ Hb Hl).
  - by apply (save_payload_chain_some l db None []).
  - eapply safely_mono; [by apply (save_payload_chain_some (m :: suffix) db shared prefix)|].
    intros db' root _ _ S. exact (stored_same _ _ _ _ S Hl).
Qed.

Lemma save_logical_full_safe db l parent : store_in db -> Forall me_universe l ->
  match parent with
  | Some (r, pm) => exists ref v, get_representation db ref v = Some r /\ kept db (ref, v) pm /\ Forall me_universe pm
  | None => True
  end -> safely (save_logical_full digest l parent) db (fun db' record => kept db' record l).
Proof.
  intros W Hu Hp. unfold save_logical_full.
  set (common := match parent with Some (_, pm) => common_prefix_length pm l | None => 0%nat end).
  apply (safely_then _ _ _ (fun db' shared => exists prefix,
    stored_below db' shared prefix /\ same_content (prefix ++ drop common l) l)).
  - destruct parent as [[r pm]|]; [|apply safely_ret; [done|by exists []]].
    destruct (Nat.ltb_spec 0 common) as [Hc|Hc].
    + destruct Hp as (ref & v & Er & (l' & Hr & Hs) & Hpm). destruct (common_prefix_spec pm l Hpm Hu) as [Hle Hpre].
      fold common in Hle, Hpre. eapply safely_mono; [by eapply (shared_root_safe db ref v r l' pm common)|].
      intros db1 o _ _ (root & -> & S). exists (take common l). split.
      * exact (stored_same _ _ _ _ S Hpre).
      * by rw take_drop.
    + apply safely_ret; [done|]. exists []. split; [done|]. assert (E : common = 0%nat) by lia. by rw E.
  - intros db1 shared W1 G1 (prefix & Hb & Hl). eapply safely_then; [apply (full_root_safe _ _ prefix); try done; by apply Forall_drop|].
    intros db2 root W2 _ S. by apply save_full_safe.
Qed.

Lemma extends_spec pm l : Forall me_universe pm -> Forall me_universe l -> extends pm l = true ->
  drop (length pm) l <> [] /\ same_content (pm ++ drop (length pm) l) l.
Proof.
  intros Hp Hl H. unfold extends in H. breflect. apply same_content_checked in H0; [|by apply Forall_take|done].
  apply Nat.ltb_lt in H. split.
  - intros E. apply (f_equal length) in E. rw length_drop in E. simpl in E. lia.
  - by rw -{1}H0 take_drop.
Qed.

Lemma append_to_safe db ref v r pm l : store_in db -> Forall me_universe pm -> Forall me_universe l ->
  get_representation db ref v = Some r ->
  kept db (ref, v) pm -> extends pm l = true ->
  safely (append_to digest ref v r pm l) db (fun db' record => kept db' record l).
Proof.
  intros W Hup Hul Er (l' & Hr & Hs) He. apply extends_spec in He as [Hne He]; [|done|done]. simpl in Hr. unfold append_to.
  destruct (Z.leb_spec (tr_depth r + 1) HARD_MAX_DELTA_DEPTH) as [Hd|Hd].
  - eapply save_delta_safe; eauto using Forall_drop. by rw Hs.
  - eapply safely_then; [by eapply ensure_cumulative_root_safe|]. intros db1 root W1 G1 S1.
    eapply safely_then; [apply (save_payload_chain_safe _ _ (Some root) l'); [by apply Forall_drop|done|done]|].
    intros db2 o W2 _ (root' & -> & S2). apply safely_some. apply save_full_safe; [done|].
    eapply stored_same; [exact S2|]. by rw Hs.
Qed.

Lemma write_messages_safe db l parent : store_in db -> Forall me_universe l -> parent_ok db parent ->
  safely (write_messages digest l parent) db (fun db' record => kept db' record l).
Proof.
  intros W Hu Hp. destruct parent as [[[[ref v] r]|] [pm|]]; simpl in *.
  - destruct Hp as (Er & Hk & Hup). destruct (extends pm l) eqn:E; [by eapply append_to_safe|].
    apply save_logical_full_safe; [done|done|]. eauto.
  - done.
  - by apply save_logical_full_safe.
  - by apply save_logical_full_safe.
Qed.

Lemma write_verified_safe db l parent : store_in db -> Forall me_universe l -> parent_ok db parent ->
  safely (write_verified digest l parent) db (fun db' record => kept db' record l).
Proof.
  intros W Hu Hp. eapply safely_then; [by apply write_messages_safe|].
  intros db1 record W1 _ (l' & Hr & Hs). eapply safely_read; [by apply repr_materialize|].
  apply safely_check; [by apply same_content_python|]. apply safely_ret; [done|]. by exists l'.
Qed.

Lemma checkpoint_kept db id k l ref v : in_universe db -> td_checkpoints db !! id = Some k ->
  materialize_checkpoint_transcript digest db k = Ok l ->
  kt_ref k = Some ref -> kt_version k = Some v -> kept db (ref, v) l.
Proof.
  intros U Hk H E1 E2. pose proof (checkpoint_universe _ _ _ _ U Hk H) as Hl.
  unfold materialize_checkpoint_transcript in H. rw E1 E2 in H.
  destruct (kt_snapshot k) as [s|].
  - apply bind_ok in H as (inline & _ & H). apply bind_ok in H as (l' & Hr & H).
    apply guard_bind_ok in H as [Hs H]. injection H as <-. apply referenced_messages_iff in Hr.
    exists l'. split; [done|]. symmetry. apply same_content_checked; [done|by eapply repr_universe|done].
  - exists l. split; [by apply referenced_messages_iff|done].
Qed.

Lemma load_parent_safe db candidate : store_in db ->
  safely (load_parent digest candidate) db (fun db' parent => db' = db /\ parent_ok db' parent).
Proof.
  intros W. destruct candidate as [id|]; [|by apply safely_ret]. simpl. apply safely_get.
  destruct (td_checkpoints db !! id) as [k|] eqn:Ek; [|by apply safely_ret].
  destruct (wf_checkpoints _ (si_wf _ W) _ _ Ek) as [l Hl]. eapply safely_read; [exact Hl|].
  destruct (kt_ref k) as [ref|] eqn:E1; [|by apply safely_ret].
  destruct (kt_version k) as [v|] eqn:E2; [|by apply safely_ret].
  pose proof (checkpoint_kept _ _ _ _ _ _ (si_universe _ W) Ek Hl E1 E2) as Hk. pose proof Hk as (l' & Hr & _).
  apply repr_row in Hr as (r & Er & _). simpl in Er. apply safely_get. rw Er. apply safely_some.
  apply safely_ret; [done|]. split; [done|]. cbn [parent_ok]. split_and!; [done|done|]. eapply checkpoint_universe; [apply W|done|done].
Qed.

Lemma write_safe db messages candidate l : store_in db -> canonical_transcript_messages messages = Some l ->
  Forall me_universe l ->
  safely (write_transcript_representation digest messages candidate) db
    (fun db' record => kept db' record l).
Proof.
  intros W Hl Hu. unfold write_transcript_representation. rw Hl. apply safely_some.
  eapply safely_then; [by apply load_parent_safe|]. intros _ parent W1 _ [-> Hp].
  destruct parent as [[[[ref v] r]|] [pm|]]; try by apply write_verified_safe.
  destruct (same_messages pm l) eqn:E; [|by apply write_verified_safe].
  apply safely_ret; [done|]. destruct Hp as (_ & (l' & Hr & Hs) & Hpm). exists l'. split; [done|].
  etrans; [exact Hs|]. by apply same_content_checked.
Qed.
End WriterLaws.

(** ** Theorems *)

Section Writer.
Context (digest : string -> string).
Context (digest_hex : forall s, sha256_hex (digest s) = true).

#[local] Hint Resolve gr_rows : core.

(** Every store is one of Python's equality. *)
Lemma python_universe db : in_universe db.
Proof. split; intros; by apply Forall_true. Qed.

Lemma python_store db : store_wf digest db -> store_in digest db.
Proof. intros W. split; [done|apply python_universe]. Qed.

(** The messages a store holds, in chunks and in inline snapshots. *)
Definition held (db : TranscriptDB) (m : InferenceMessage) : Prop :=
  (exists id c, get_chunk db id = Some c /\ m ∈ ch_payload c) \/
  (exists id k s l, td_checkpoints db !! id = Some k /\ kt_snapshot k = Some s /\
     canonical_transcript_messages s = Some l /\ m ∈ l).

(** No two messages of the store and of [l] are equal for Python and differ in text. *)
Definition exact_with (db : TranscriptDB) (l : list InferenceMessage) : Prop :=
  exact_on (fun m => m ∈ l \/ held db m).

Lemma exact_store db l (H : exact_with db l) : store_wf digest db -> store_in digest (M := exact_equality _ H) db.
Proof.
  intros W. split; [done|]. split.
  - intros id c Hc. apply Forall_forall. intros m Hm. right. left. eauto.
  - intros id k s l' Hk Hs Hl. apply Forall_forall. intros m Hm. right. right. eauto 10.
Qed.

(** C34 transcript_roundtrip: on a well-formed store, with any candidate parent, writing the
    transcript of a checkpoint either leaves a well-formed store in which the reference it
    returns reads back as messages that are equal to the written ones for Python, with the same
    text when the messages of the store and of the write are exact (none is equal to another
    for Python and differs in text, as [1] and [True] do); or it fails because a digest it uses
    is taken by different content, or, only when the messages are not exact, because the
    fingerprint of what it shares with the parent is not the one of what is written.  None of
    its other checks can fail, and it never gives up on the missing boundary of a shared
    prefix. *)
Theorem transcript_roundtrip db messages candidate l :
  store_wf digest db -> canonical_transcript_messages messages = Some l ->
  match write_transcript_representation digest messages candidate db with
  | Ok (db', (ref, v)) => store_wf digest db' /\
      exists l', materialize_transcript_representation digest db' ref v = Ok l' /\ same_messages l' l = true /\
        (exact_with db l -> map message_text l' = map message_text l)
  | Err e => e ∈ bound_errors \/ (e = FINGERPRINT_MISMATCH /\ ~ exact_with db l)
  end.
Proof.
  intros W Hl.
  pose proof (write_safe digest digest_hex db messages candidate l (python_store _ W) Hl (Forall_true _ _ (fun _ => I))) as H.
  assert (forall X : exact_with db l, safe_by digest (M := exact_equality _ X) grows
    (write_transcript_representation digest messages candidate) db
    (fun db' record => kept digest (M := exact_equality _ X) db' record l)) as Hx.
  { intros X. apply write_safe; [done|by apply exact_store|done|]. apply Forall_forall. intros m Hm. by left. }
  unfold safe_by in H, Hx.
  destruct (write_transcript_representation digest messages candidate db) as [[db' [ref v]]|e].
  - destruct H as ([W' _] & _ & l' & Hr & Hs). split; [done|]. exists l'. split; [by apply repr_materialize|].
    split; [by apply same_content_python|]. intros X. destruct (Hx X) as (_ & _ & l2 & Hr2 & Hs2).
    apply repr_materialize in Hr, Hr2. simpl in Hr, Hr2. rw Hr in Hr2. injection Hr2 as <-.
    eapply (same_content_text (M := exact_equality _ X)); [|exact Hs2]. by intros a b [_ ?].
  - apply elem_of_cons in H as [->|H]; [|by left]. right. split; [done|]. intros X. specialize (Hx X).
    simpl in Hx. unfold bound_errors, FINGERPRINT_MISMATCH in Hx. set_solver.
Qed.

(** One write: a transaction that raises leaves the store as it was. *)
Definition write_step (db : TranscriptDB) (request : list json * option string) : TranscriptDB :=
  match write_transcript_representation digest request.1 request.2 db with
  | Ok (db', _) => db'
  | Err _ => db
  end.

Lemma write_step_grows db request : store_wf digest db -> store_wf digest (write_step db request) /\ grows db (write_step db request).
Proof.
  intros W. destruct request as [messages candidate]. unfold write_step. simpl.
  destruct (canonical_transcript_messages messages) as [l|] eqn:El.
  - pose proof (write_safe digest digest_hex db messages candidate l (python_store _ W) El
      (Forall_true _ _ (fun _ => I))) as H. unfold safe_by in H.
    destruct (write_transcript_representation digest messages candidate db) as [[db' record]|e]; [|done].
    by destruct H as ([? _] & ? & _).
  - unfold write_transcript_representation. by rw El.
Qed.

Lemma writes_grow requests db : store_wf digest db ->
  store_wf digest (runs write_step db requests) /\ grows db (runs write_step db requests).
Proof.
  intros W. apply (runs_invariant (fun s => store_wf digest s /\ grows db s)); [|done].
  intros s request [Ws Gs]. destruct (write_step_grows s request Ws). split; [done|by etrans].
Qed.

(** C35 transcript_durable: whatever is written afterwards, a representation that can be read
    reads as exactly the same messages, so does the transcript of every checkpoint, and every
    representation of the store can be read. *)
Theorem transcript_durable db requests :
  store_wf digest db -> let db' := runs write_step db requests in
  (forall ref v l, materialize_transcript_representation digest db ref v = Ok l ->
     materialize_transcript_representation digest db' ref v = Ok l) /\
  (forall id k, td_checkpoints db !! id = Some k -> td_checkpoints db' !! id = Some k /\
     exists l, materialize_checkpoint_transcript digest db k = Ok l /\
       materialize_checkpoint_transcript digest db' k = Ok l) /\
  (forall ref v r, get_representation db' ref v = Some r -> exists l,
     materialize_transcript_representation digest db' ref v = Ok l /\ tr_depth r <= HARD_MAX_DELTA_DEPTH).
Proof.
  intros W db'. destruct (writes_grow requests db W) as [W' G]. fold db' in W', G. split_and!.
  - intros ref v l H. apply materialize_repr_iff in H. apply repr_materialize. eauto using repr_grows.
  - intros id k Hk. split; [by rw (gr_checkpoints _ _ G)|]. destruct (wf_checkpoints _ _ W _ _ Hk) as [l Hl].
    exists l. eauto using checkpoint_grows.
  - intros ref v r Er. destruct (wf_reprs _ _ W' _ _ _ Er) as [l Hr]. exists l. split; [by apply repr_materialize|].
    apply repr_row in Hr as (r' & Er' & _ & Hd & _). rw Er in Er'. injection Er' as <-. lia.
Qed.

(** [rewrite_reuses]: writing again the messages that were read from a checkpoint, with that
    checkpoint as candidate, returns the checkpoint's own reference and writes nothing. *)
Theorem rewrite_reuses db id k ref v l :
  td_checkpoints db !! id = Some k -> kt_ref k = Some ref -> kt_version k = Some v ->
  materialize_checkpoint_transcript digest db k = Ok l ->
  write_transcript_representation digest (map model_dump l) (Some id) db = Ok (db, (ref, v)).
Proof.
  intros Ek E1 E2 Hl. unfold write_transcript_representation. rw canonical_dumped. simpl.
  unfold mbind, tx_bind, tx_get, tx_read. simpl. rw Ek Hl E1 E2. simpl.
  destruct (checkpoint_kept digest _ _ _ _ _ _ (python_universe _) Ek Hl E1 E2) as (l' & Hr & _). apply repr_row in Hr as (r & Er & _).
  simpl in Er. rw Er. assert (same_messages l l = true) as E by apply py_eq_refl. cbn -[same_messages]. by rw E.
Qed.
End Writer.

(** ** A store with a checkpoint, and a longer transcript *)

Lemma sha256_is_hex s : sha256_hex (sha256_hexdigest s) = true.
Proof. unfold sha256_hex. by destruct (sha256_hexdigest_format s) as [-> ->]. Qed.

(** A digest that is cheap to evaluate. *)
Definition demo_digest (s : string) : string :=
  hex_of_bytes (be_bytes 32 (fold_left (fun h a => Z.land (h * 33 + byte_of a) 2147483647)
    (String.list_ascii_of_string s) 7)).

Lemma demo_is_hex s : sha256_hex (demo_digest s) = true.
Proof.
  unfold sha256_hex, demo_digest.
  destruct (hex_of_bytes_spec (be_bytes 32 (fold_left (fun h a => Z.land (h * 33 + byte_of a) 2147483647)
    (String.list_ascii_of_string s) 7))) as [H1 H2].
  - intros b. apply be_bytes_range.
  - by rw H1 H2 be_bytes_length.
Qed.

Definition demo_message (content : string) : InferenceMessage :=
  {| im_role := "user"; im_content := JStr content; im_tool_calls := []; im_name := None;
     im_tool_call_id := None; im_metadata := [] |}.

Definition empty_store : TranscriptDB :=
  {| td_chunks := ∅; td_nodes := ∅; td_reprs := ∅; td_checkpoints := ∅ |}.

Lemma empty_store_wf digest : store_wf digest empty_store.
Proof. split; by intros. Qed.

Definition demo_transcript : list json := map model_dump [demo_message "a"; demo_message "b"].
Definition demo_longer : list json := map model_dump [demo_message "a"; demo_message "b"; demo_message "c"].

(** The first transcript, and the checkpoint that refers to it. *)
Definition written_store : TranscriptDB := write_step demo_digest empty_store (demo_transcript, None).

Definition demo_ref : string := Eval vm_compute in
  match write_transcript_representation demo_digest demo_transcript None empty_store with
  | Ok (_, (ref, _)) => ref
  | Err e => e
  end.

Definition demo_checkpoint : CheckpointTranscript :=
  {| kt_snapshot := None; kt_ref := Some demo_ref; kt_version := Some 0; kt_parent := None; kt_created_at := 10 |}.

Definition demo_store : TranscriptDB := put_checkpoint written_store "k1" demo_checkpoint.

Lemma demo_checkpoint_reads :
  materialize_checkpoint_transcript demo_digest written_store demo_checkpoint = Ok [demo_message "a"; demo_message "b"].
Proof. vm_compute. reflexivity. Qed.

Lemma demo_store_wf : store_wf demo_digest demo_store.
Proof.
  eapply put_checkpoint_wf; [|exact demo_checkpoint_reads].
  apply (write_step_grows demo_digest demo_is_hex), empty_store_wf.
Qed.

Definition wrote_delta (r : result string (TranscriptDB * (string * Z))) : bool :=
  match r with
  | Ok (db, (ref, v)) =>
      match get_representation db ref v with Some row => bool_decide (tr_kind row = DELTA) | None => false end
  | Err _ => false
  end.

Lemma demo_delta :
  wrote_delta (write_transcript_representation demo_digest demo_longer (Some "k1"%string) demo_store) = true.
Proof. vm_compute. reflexivity. Qed.

(** Texts are never equal to other values, so stores of such messages are exact. *)
Lemma demo_exact : exact_with empty_store [demo_message "a"; demo_message "b"].
Proof.
  assert (forall m, m ∈ [demo_message "a"; demo_message "b"] \/ held empty_store m ->
    m = demo_message "a" \/ m = demo_message "b") as Hm.
  { intros m [H|[(id & c & H & _)|(id & k & s & l & H & _)]]; [|by rw /get_chunk lookup_empty in H|by rw lookup_empty in H].
    repeat (apply elem_of_cons in H as [->|H]; [by auto|]). by apply not_elem_of_nil in H. }
  intros a b Ha Hb E. destruct (Hm a Ha) as [->| ->], (Hm b Hb) as [->| ->]; try done; discriminate E.
Qed.

(** With the checkpoint as candidate the longer transcript is written, as a delta, and read. *)
Lemma transcript_roundtrip_witness :
  store_wf demo_digest demo_store /\
  exists db' ref v l',
    write_transcript_representation demo_digest demo_longer (Some "k1"%string) demo_store = Ok (db', (ref, v)) /\
    store_wf demo_digest db' /\ materialize_transcript_representation demo_digest db' ref v = Ok l' /\
    same_messages l' [demo_message "a"; demo_message "b"; demo_message "c"] = true.
Proof.
  pose proof (transcript_roundtrip demo_digest demo_is_hex demo_store demo_longer (Some "k1"%string) _
    demo_store_wf eq_refl) as H.
  pose proof demo_delta as Hd. split; [exact demo_store_wf|]. revert H Hd.
  generalize (write_transcript_representation demo_digest demo_longer (Some "k1"%string) demo_store).
  intros [[db' [ref v]]|e] H Hd; [|discriminate Hd]. destruct H as (W & l' & Hm & Hs & _).
  exists db', ref, v, l'. by split_and!.
Defined.

(** A number and a truth value that Python finds equal: the candidate counts as the beginning
    of the new transcript, and the write raises on the fingerprint of the delta. *)
Definition counted (n : json) : InferenceMessage :=
  {| im_role := "user"; im_content := JNull; im_tool_calls := []; im_name := None;
     im_tool_call_id := None; im_metadata := [("n", n)] |}%string.

Definition counted_store : TranscriptDB :=
  put_checkpoint (write_step demo_digest empty_store (map model_dump [counted (JInt 1)], None)) "k1"
    {| kt_snapshot := None; kt_version := Some 0; kt_parent := None; kt_created_at := 10;
       kt_ref := match write_transcript_representation demo_digest (map model_dump [counted (JInt 1)]) None empty_store with
                 | Ok (_, (ref, _)) => Some ref
                 | Err _ => None
                 end |}.

Example equal_for_python_raises :
  write_transcript_representation demo_digest (map model_dump [counted (JBool true); demo_message "b"])
    (Some "k1"%string) counted_store = Err FINGERPRINT_MISMATCH.
Proof. vm_compute. reflexivity. Qed.

Lemma transcript_durable_witness : store_wf demo_digest demo_store /\
  let db' := runs (write_step demo_digest) demo_store [(demo_longer, Some "k1"%string); (demo_longer, None)] in
  (forall ref v l, materialize_transcript_representation demo_digest demo_store ref v = Ok l ->
     materialize_transcript_representation demo_digest db' ref v = Ok l) /\
  (forall id k, td_checkpoints demo_store !! id = Some k -> td_checkpoints db' !! id = Some k /\
     exists l, materialize_checkpoint_transcript demo_digest demo_store k = Ok l /\
       materialize_checkpoint_transcript demo_digest db' k = Ok l) /\
  (forall ref v r, get_representation db' ref v = Some r -> exists l,
     materialize_transcript_representation demo_digest db' ref v = Ok l /\ tr_depth r <= HARD_MAX_DELTA_DEPTH).
Proof.
  split; [exact demo_store_wf|]. apply (transcript_durable demo_digest demo_is_hex). exact demo_store_wf.
Defined.

Lemma rewrite_reuses_witness :
  write_transcript_representation demo_digest (map model_dump [demo_message "a"; demo_message "b"])
    (Some "k1"%string) demo_store = Ok (demo_store, (demo_ref, 0)).
Proof.
  apply (rewrite_reuses demo_digest demo_store "k1" demo_checkpoint); [apply lookup_insert_eq|done|done|].
  vm_compute. reflexivity.
Defined.
