(* ===== verification/CheckpointBackfill.v ===== *)
(** * Backfill of checkpoint transcripts
    (src/se/src/runtimes/agent/checkpoint_backfill.py and the checkpoint queries of
    AgentRepository)

    Checkpoints from before the representations hold their transcript inline.  The backfill
    converts a page of them to DUAL: it writes a representation of the inline transcript and
    binds it to the checkpoint, parents first; when nothing is left to convert it verifies the
    checkpoints that have a reference.  The rows of a page are read at its start, and a row is
    only changed at its own turn.  Errors are the message (for a transcript that cannot be
    read, the code). *)

From S2P Require Import Prelude Canonical PythonValues Transcript.

(** ** Queries of the repository *)

(** [transcript_snapshot] without a reference. *)
Definition legacy_inline (k : CheckpointTranscript) : bool :=
  bool_decide (is_Some (kt_snapshot k)) && bool_decide (kt_ref k = None) && bool_decide (kt_version k = None).

Definition ref_bearing (k : CheckpointTranscript) : bool :=
  bool_decide (is_Some (kt_ref k)) && bool_decide (is_Some (kt_version k)).

Definition row_key (x : string * CheckpointTranscript) : Z * string := (kt_created_at x.2, x.1).

(** Rows after the cursor in the order of creation time and id. *)
Definition after_cursor (cursor : option (Z * string)) (x : string * CheckpointTranscript) : bool :=
  match cursor with Some c => key_ltb c (row_key x) | None => true end.

Definition limited {A} (limit : option Z) (l : list A) : list A :=
  match limit with Some n => take (Z.to_nat n) l | None => l end.

Definition list_candidates (keep : CheckpointTranscript -> bool) (limit : option Z)
    (cursor : option (Z * string)) (db : TranscriptDB) : list (string * CheckpointTranscript) :=
  limited limit (sort_by row_key key_ltb
    (List.filter (fun x => keep x.2 && after_cursor cursor x) (map_to_list (td_checkpoints db)))).

Definition list_legacy_inline_checkpoint_backfill_candidates := list_candidates legacy_inline.
Definition list_ref_backed_checkpoint_validation_candidates := list_candidates ref_bearing.

Definition has_legacy_inline_checkpoints (db : TranscriptDB) : bool :=
  existsb (fun x => legacy_inline x.2) (map_to_list (td_checkpoints db)).

Definition with_reference (k : CheckpointTranscript) (ref : string) (v : Z) : CheckpointTranscript :=
  {| kt_snapshot := kt_snapshot k; kt_ref := Some ref; kt_version := Some v; kt_parent := kt_parent k;
     kt_created_at := kt_created_at k |}.

Definition bind_checkpoint_transcript_representation_if_legacy (id ref : string) (v : Z)
    : Tx (option CheckpointTranscript) := fun db =>
  match td_checkpoints db !! id with
  | Some k => if legacy_inline k
              then Ok (put_checkpoint db id (with_reference k ref v), Some (with_reference k ref v))
              else Ok (db, None)
  | None => Ok (db, None)
  end.

(** ** checkpoint_backfill.py *)

Record BackfillProgress := {
  bp_scanned : Z;
  bp_converted : Z;
  bp_converged : Z;
  bp_deferred : Z;
  bp_next : option (Z * string)
}.

Record CheckpointBackfillResult := {
  br_scanned : Z;
  br_converted : Z;
  br_converged : Z;
  br_deferred : Z;
  br_next_conversion_after : option (Z * string);
  br_next_validation_after : option (Z * string)
}.

Section Backfill.
Context (digest : string -> string).

Definition canonical_checkpoint_messages (k : CheckpointTranscript) : Tx (list InferenceMessage) :=
  tx_read (fun db => materialize_checkpoint_transcript digest db k).

(** [true]: the parent is still to be converted. *)
Definition parent_pending (k : CheckpointTranscript) : Tx bool :=
  match kt_parent k with
  | None => mret false
  | Some parent_id =>
      found ← tx_get (fun db => td_checkpoints db !! parent_id);
      match found with
      | None => mret false
      | Some parent =>
          match kt_ref parent, kt_version parent with
          | None, None =>
              match kt_snapshot parent with
              | None => tx_fail "Parent checkpoint transcript is not reconstructable."
              | Some _ => mret true
              end
          | Some _, Some _ => _ ← canonical_checkpoint_messages parent; mret false
          | _, _ => tx_fail "Parent checkpoint has a partial transcript pair."
          end
      end
  end.

(** [true] when this call bound the reference, [false] when another had. *)
Definition convert (id : string) (k : CheckpointTranscript) : Tx bool :=
  expected ← canonical_checkpoint_messages k;
  proven ← write_transcript_representation digest (map model_dump expected) (kt_parent k);
  bound ← bind_checkpoint_transcript_representation_if_legacy id proven.1 proven.2;
  match bound with
  | None =>
      found ← tx_get (fun db => td_checkpoints db !! id);
      winner ← tx_some found "Checkpoint disappeared during backfill.";
      messages ← canonical_checkpoint_messages winner;
      _ ← tx_check (same_messages messages expected)
            "Concurrent checkpoint backfill converged to different logical transcript authority.";
      mret false
  | Some row =>
      messages ← canonical_checkpoint_messages row;
      _ ← tx_check (same_messages messages expected)
            "Backfilled DUAL checkpoint does not match historical inline transcript.";
      mret true
  end.

Definition seen (p : BackfillProgress) (x : string * CheckpointTranscript) : BackfillProgress :=
  {| bp_scanned := bp_scanned p + 1; bp_converted := bp_converted p; bp_converged := bp_converged p;
     bp_deferred := bp_deferred p; bp_next := Some (row_key x) |}.

Definition convert_row (limit : option Z) (p : BackfillProgress) (x : string * CheckpointTranscript)
    : Tx BackfillProgress :=
  let p1 := seen p x in
  pending ← parent_pending x.2;
  if pending : bool then
    mret {| bp_scanned := bp_scanned p1; bp_converted := bp_converted p1; bp_converged := bp_converged p1;
            bp_deferred := bp_deferred p1 + 1; bp_next := bp_next p1 |}
  else if match limit with Some n => n <=? bp_converted p1 | None => false end then mret p1
  else
    fresh ← convert x.1 x.2;
    mret {| bp_scanned := bp_scanned p1;
            bp_converted := (if fresh : bool then bp_converted p1 + 1 else bp_converted p1);
            bp_converged := (if fresh then bp_converged p1 else bp_converged p1 + 1);
            bp_deferred := bp_deferred p1; bp_next := bp_next p1 |}.

Fixpoint convert_page (limit : option Z) (p : BackfillProgress) (page : list (string * CheckpointTranscript))
    : Tx BackfillProgress :=
  match page with
  | [] => mret p
  | x :: rest => p1 ← convert_row limit p x; convert_page limit p1 rest
  end.

Definition validate_row (p : BackfillProgress) (x : string * CheckpointTranscript) : Tx BackfillProgress :=
  _ ← canonical_checkpoint_messages x.2;
  mret {| bp_scanned := bp_scanned p + 1; bp_converted := bp_converted p; bp_converged := bp_converged p + 1;
          bp_deferred := bp_deferred p; bp_next := Some (row_key x) |}.

Fixpoint validate_page (p : BackfillProgress) (page : list (string * CheckpointTranscript))
    : Tx BackfillProgress :=
  match page with
  | [] => mret p
  | x :: rest => p1 ← validate_row p x; validate_page p1 rest
  end.

(** A page that is not full is the last one. *)
Definition next_cursor (scan_limit : option Z) {A} (page : list A) (reached : option (Z * string))
    : option (Z * string) :=
  match scan_limit with
  | Some n => if Z.of_nat (length page) <? n then None else reached
  | None => None
  end.

Definition conversion_result (has_legacy : bool) (next : option (Z * string)) (p : BackfillProgress)
    (validation_after : option (Z * string)) : CheckpointBackfillResult :=
  {| br_scanned := bp_scanned p; br_converted := bp_converted p; br_converged := bp_converged p;
     br_deferred := bp_deferred p;
     br_next_conversion_after := (if has_legacy then next else None);
     br_next_validation_after := validation_after |}.

Definition validation_phase (scan_limit : option Z) (next : option (Z * string)) (p : BackfillProgress)
    (validation_after : option (Z * string)) : Tx CheckpointBackfillResult :=
  rows ← tx_get (list_ref_backed_checkpoint_validation_candidates scan_limit validation_after);
  p1 ← validate_page {| bp_scanned := bp_scanned p; bp_converted := bp_converted p;
                        bp_converged := bp_converged p; bp_deferred := bp_deferred p;
                        bp_next := validation_after |} rows;
  mret {| br_scanned := bp_scanned p1; br_converted := bp_converted p1; br_converged := bp_converged p1;
          br_deferred := bp_deferred p1; br_next_conversion_after := next;
          br_next_validation_after := next_cursor scan_limit rows (bp_next p1) |}.

Definition positive (limit : option Z) : bool := match limit with Some n => 0 <? n | None => true end.

Definition backfill_legacy_inline_checkpoints (limit scan_limit : option Z)
    (conversion_after validation_after : option (Z * string)) : Tx CheckpointBackfillResult :=
  let scan_limit := match scan_limit with Some n => Some n | None => limit end in
  _ ← tx_check (positive scan_limit) "scan_limit must be positive";
  _ ← tx_check (positive limit) "limit must be positive";
  page ← tx_get (list_legacy_inline_checkpoint_backfill_candidates scan_limit conversion_after);
  p ← convert_page limit {| bp_scanned := 0; bp_converted := 0; bp_converged := 0; bp_deferred := 0;
                            bp_next := conversion_after |} page;
  let next := next_cursor scan_limit page (bp_next p) in
  has_legacy ← tx_get has_legacy_inline_checkpoints;
  match page, has_legacy with
  | [], false => validation_phase scan_limit next p validation_after
  | _, _ => mret (conversion_result has_legacy next p validation_after)
  end.
End Backfill.
