(* ===== verification/CheckpointBackfillProperties.v ===== *)
(** * Properties of the transcript backfill
    (file CheckpointBackfill)

    On a well-formed store the backfill changes no transcript, and it only fails when a digest is
    taken or when the store holds messages that Python finds equal and that differ in text; a
    call without limits converts every checkpoint whose parents are older. *)

From S2P Require Import Prelude Canonical PythonValues Transcript TranscriptProperties TranscriptWriterProperties.
From S2P Require Import CheckpointBackfill.

Section Backfilling.
Context (digest : string -> string).
Context (digest_hex : forall s, sha256_hex (digest s) = true).
Context {M : MessageEquality}.

(** What may happen to a checkpoint: a legacy row is bound, and it reads as before. *)
Definition row_kept (db db' : TranscriptDB) (k k' : CheckpointTranscript) : Prop :=
  (k' = k \/ legacy_inline k = true /\ exists ref v, k' = with_reference k ref v) /\
  forall l, materialize_checkpoint_transcript digest db k = Ok l ->
    materialize_checkpoint_transcript digest db' k' = Ok l.

Record keeps (db db' : TranscriptDB) : Prop := {
  kp_rows : rows_grow db db';
  kp_checkpoints id : match td_checkpoints db !! id, td_checkpoints db' !! id with
                      | Some k, Some k' => row_kept db db' k k'
                      | None, None => True
                      | _, _ => False
                      end
}.

Lemma bound_not_legacy k ref v : legacy_inline (with_reference k ref v) = false.
Proof. unfold legacy_inline. simpl. by rw andb_false_r. Qed.

Lemma row_kept_trans a b c k1 k2 k3 : row_kept a b k1 k2 -> row_kept b c k2 k3 -> row_kept a c k1 k3.
Proof.
  intros [H1 R1] [H2 R2]. split; [|by eauto]. destruct H1 as [->|[L (ref & v & ->)]]; [done|].
  right. split; [done|]. destruct H2 as [->|[L2 _]]; [by eauto|]. by rw bound_not_legacy in L2.
Qed.

#[local] Instance keeps_preorder : PreOrder keeps.
Proof.
  split.
  - intros db. split; [done|]. intros id. destruct (td_checkpoints db !! id); [|done]. split; auto.
  - intros a b c [G1 K1] [G2 K2]. split; [by etrans|]. intros id. specialize (K1 id). specialize (K2 id).
    destruct (td_checkpoints a !! id), (td_checkpoints b !! id), (td_checkpoints c !! id); try done.
    by eapply row_kept_trans.
Qed.

Lemma grows_keeps db db' : grows db db' -> keeps db db'.
Proof.
  intros [G E]. split; [done|]. intros id. rw E. destruct (td_checkpoints db !! id); [|done].
  split; [by left|]. intros l. by apply checkpoint_grows.
Qed.

Lemma safe_keeps {A} (m : Tx A) db Q : safe_by digest grows m db Q ->
  safe_by digest keeps m db (fun db' a => grows db db' /\ Q db' a).
Proof.
  unfold safe_by. destruct (m db) as [[db' a]|e]; [|done]. intros (W & G & H).
  split_and!; [done|by apply grows_keeps|done|done].
Qed.


Abbreviation converging := (safe_by digest keeps).
Abbreviation converging_ret := (safe_ret digest keeps).
Abbreviation converging_then := (safe_then digest keeps).

(** ** One row *)

Lemma legacy_spec k : legacy_inline k = true <->
  is_Some (kt_snapshot k) /\ kt_ref k = None /\ kt_version k = None.
Proof. unfold legacy_inline. rw !andb_true_iff !bool_decide_eq_true. tauto. Qed.

(** Whether the parent of [k] is still to be converted. *)
Definition parent_legacy (db : TranscriptDB) (k : CheckpointTranscript) : Prop :=
  exists pid p, kt_parent k = Some pid /\ td_checkpoints db !! pid = Some p /\ legacy_inline p = true.

Lemma parent_pending_safe db k : store_in digest db ->
  converging (parent_pending digest k) db (fun db' b => db' = db /\ (b = true -> parent_legacy db k)).
Proof.
  intros W. unfold parent_pending. destruct (kt_parent k) as [pid|] eqn:Ep; [|by apply converging_ret].
  apply safely_get. destruct (td_checkpoints db !! pid) as [p|] eqn:E; [|by apply converging_ret].
  destruct (wf_checkpoints _ _ (si_wf _ _ W) _ _ E) as [l Hl]. pose proof Hl as Hl'.
  unfold materialize_checkpoint_transcript in Hl'.
  destruct (kt_ref p) as [ref|] eqn:E1, (kt_version p) as [v|] eqn:E2, (kt_snapshot p) as [s|] eqn:E3;
    try discriminate Hl'.
  1,2: eapply safely_read; [exact Hl|]; by apply converging_ret.
  apply converging_ret; [done|]. split; [done|]. intros _. exists pid, p. split_and!; [done|done|].
  by apply legacy_spec; rw E1 E2 E3.
Qed.

Lemma dual_reads db k l ref v : legacy_inline k = true -> materialize_checkpoint_transcript digest db k = Ok l ->
  kept digest db (ref, v) l -> materialize_checkpoint_transcript digest db (with_reference k ref v) = Ok l.
Proof.
  intros (Hs & E1 & E2)%legacy_spec H (l' & Hr & Hc). unfold materialize_checkpoint_transcript in *.
  rw E1 E2 in H. destruct (kt_snapshot k) as [s|] eqn:Es; [|by destruct Hs]. simpl. rw Es H. simpl.
  apply referenced_messages_iff in Hr. simpl in Hr. rw Hr. simpl.
  assert (E : same_messages l l' = true) by (apply same_content_python; by symmetry). by rw E.
Qed.

(** Binding a legacy row keeps what it reads as. *)
Lemma bind_keeps db id k l ref v : store_in digest db -> td_checkpoints db !! id = Some k ->
  legacy_inline k = true -> materialize_checkpoint_transcript digest db k = Ok l -> kept digest db (ref, v) l ->
  let db' := put_checkpoint db id (with_reference k ref v) in
  store_in digest db' /\ keeps db db' /\ materialize_checkpoint_transcript digest db' (with_reference k ref v) = Ok l.
Proof.
  intros W E L Hl Hk db'. pose proof (dual_reads _ _ _ _ _ L Hl Hk) as Hd.
  assert (G : rows_grow db db') by by split. split_and!.
  - split; [eapply put_checkpoint_wf; [apply W|done]|]. destruct W as [_ [U1 U2]]. split; [exact U1|].
    intros id' k' s' l' E'. simpl in E'. apply lookup_insert_Some in E' as [[<- <-]|[_ E']]; [|by eapply U2].
    exact (U2 _ _ s' l' E).
  - split; [done|]. intros id'. simpl. destruct (decide (id' = id)) as [->|Hne].
    + rw E lookup_insert_eq. split; [right; eauto|]. intros l2 H2. rw Hl in H2. injection H2 as <-.
      by eapply checkpoint_grows.
    + rw lookup_insert_ne; [done|]. destruct (td_checkpoints db !! id'); [|done].
      split; [by left|]. intros l2. by apply checkpoint_grows.
  - by eapply checkpoint_grows.
Qed.

Lemma convert_safe db id k : store_in digest db -> td_checkpoints db !! id = Some k -> legacy_inline k = true ->
  converging (convert digest id k) db (fun db' fresh => fresh = true /\
    exists ref v, td_checkpoints db' = <[id := with_reference k ref v]> (td_checkpoints db)).
Proof.
  intros W E L. unfold convert. destruct (wf_checkpoints _ _ (si_wf _ _ W) _ _ E) as [l Hl].
  eapply safely_read; [exact Hl|].
  eapply converging_then; [exact (safe_keeps _ _ _ (write_safe digest digest_hex db _ (kt_parent k) l W (canonical_dumped l)
    (checkpoint_universe _ _ _ _ _ (si_universe _ _ W) E Hl)))|].
  intros db1 [ref v] W1 _ [[G1 Ek] K]. simpl. rw -Ek in E. apply (checkpoint_grows _ _ _ _ _ G1) in Hl.
  destruct (bind_keeps db1 id k l ref v W1 E L Hl K) as (W2 & K2 & Hd).
  apply (converging_then _ _ _ (fun db' o => o = Some (with_reference k ref v) /\
    db' = put_checkpoint db1 id (with_reference k ref v))).
  { unfold safe_by, bind_checkpoint_transcript_representation_if_legacy. by rw E L. }
  intros _ o _ _ [-> ->]. eapply safely_read; [exact Hd|].
  apply safely_check; [by apply py_eq_refl|]. apply converging_ret; [done|]. split; [done|].
  exists ref, v. simpl. by rw Ek.
Qed.

(** ** Pages *)

(** A row of the page that is still to be converted. *)
Definition pending_row (db : TranscriptDB) (x : string * CheckpointTranscript) : Prop :=
  td_checkpoints db !! x.1 = Some x.2 /\ legacy_inline x.2 = true.

(** What a conversion of the row [x] does to the table and to the counters. *)
Record row_done (limit : option Z) (x : string * CheckpointTranscript) (db : TranscriptDB) (p : BackfillProgress)
    (db' : TranscriptDB) (p' : BackfillProgress) : Prop := {
  rd_others id : id <> x.1 -> td_checkpoints db' !! id = td_checkpoints db !! id;
  rd_scanned : bp_scanned p' = bp_scanned p + 1;
  rd_limit n : limit = Some n -> bp_converted p <= n -> bp_converted p' <= n;
  rd_all : limit = None -> ~ parent_legacy db x.2 ->
    bp_converted p' = bp_converted p + 1 /\ exists ref v, td_checkpoints db' !! x.1 = Some (with_reference x.2 ref v)
}.

Lemma convert_row_safe db limit p x : store_in digest db -> pending_row db x ->
  converging (convert_row digest limit p x) db (row_done limit x db p).
Proof.
  intros W [E L]. unfold convert_row. eapply converging_then; [by apply parent_pending_safe|].
  intros _ b _ _ [-> Hb]. destruct b.
  { apply converging_ret; [done|]. split; try done. intros _ []. by apply Hb. }
  destruct (match limit with Some n => n <=? bp_converted (seen p x) | None => false end) eqn:El.
  { apply converging_ret; [done|]. split; try done. by intros ->. }
  eapply converging_then; [by apply convert_safe|]. intros db1 fresh W1 _ [-> (ref & v & Ek)].
  apply converging_ret; [done|]. split; simpl; try done.
  - intros id Hne. by rw Ek lookup_insert_ne.
  - intros n -> Hn. simpl in El. lia.
  - intros _ _. split; [done|]. exists ref, v. by rw Ek lookup_insert_eq.
Qed.

Lemma pending_others limit x db p db' p' rest : row_done limit x db p db' p' ->
  NoDup (map fst (x :: rest)) -> Forall (pending_row db) rest -> Forall (pending_row db') rest.
Proof.
  intros D Hn H. apply NoDup_cons in Hn as [Hx _].
  apply Forall_forall. rw Forall_forall in H. intros y Hy.
  destruct (H y Hy) as [E L]. split; [|done]. rw (rd_others _ _ _ _ _ _ D); [|done].
  intros Ex. apply Hx. rw -Ex. by apply list_elem_of_fmap_2.
Qed.


(** ** The queries *)

Definition candidate_rows (keep : CheckpointTranscript -> bool) (cursor : option (Z * string)) (db : TranscriptDB) :=
  List.filter (fun x : string * CheckpointTranscript => keep x.2 && after_cursor cursor x)
    (map_to_list (td_checkpoints db)).

Lemma candidate_rows_keys keep cursor db : NoDup (map fst (candidate_rows keep cursor db)).
Proof. apply NoDup_map_filter, NoDup_fst_map_to_list. Qed.

Lemma candidates_incl keep limit cursor db x : x ∈ list_candidates keep limit cursor db ->
  td_checkpoints db !! x.1 = Some x.2 /\ keep x.2 = true.
Proof.
  intros H. assert (Hin : x ∈ sort_by row_key key_ltb (candidate_rows keep cursor db)).
  { unfold list_candidates, limited in H. destruct limit; [|done].
    by apply (subseteq_take (Z.to_nat z)) in H. }
  rw sort_by_perm in Hin. apply list_elem_of_In, filter_In in Hin as [Hm Hk]. breflect.
  split; [|done]. apply list_elem_of_In in Hm. destruct x. by apply elem_of_map_to_list in Hm.
Qed.

Lemma candidates_nodup keep limit cursor db : NoDup (map fst (list_candidates keep limit cursor db)).
Proof.
  assert (H : NoDup (map fst (sort_by row_key key_ltb (candidate_rows keep cursor db)))).
  { rw sort_by_perm. apply candidate_rows_keys. }
  unfold list_candidates, limited. destruct limit as [n|]; [|done]. rw -firstn_map.
  by eapply sublist_NoDup; [|apply sublist_take].
Qed.

Lemma candidates_limit keep limit cursor db n : limit = Some n -> 0 <= n ->
  Z.of_nat (length (list_candidates keep limit cursor db)) <= n.
Proof. intros -> Hn. simpl. rw length_take. lia. Qed.

Lemma candidates_all keep db id k : td_checkpoints db !! id = Some k -> keep k = true ->
  (id, k) ∈ list_candidates keep None None db.
Proof.
  intros E Hk. unfold list_candidates. simpl. rw sort_by_perm. apply list_elem_of_In, filter_In.
  split; [|simpl; by rw Hk]. by apply list_elem_of_In, elem_of_map_to_list.
Qed.

Lemma candidates_sorted keep cursor db : strictly_sorted row_key key_ltb (list_candidates keep None cursor db).
Proof. apply sort_by_sorted; [apply _|]. apply sort_key_nodup, candidate_rows_keys. Qed.

Lemma has_legacy_false db : (forall id k, td_checkpoints db !! id = Some k -> legacy_inline k = false) ->
  has_legacy_inline_checkpoints db = false.
Proof.
  intros H. apply not_true_iff_false. intros ([id k] & Hin & L)%existsb_exists. simpl in L.
  apply list_elem_of_In, elem_of_map_to_list in Hin. by rw (H _ _ Hin) in L.
Qed.

(** ** Completion *)

(** Parents come before their children in the order of the pages. *)
Definition parents_older (db : TranscriptDB) : Prop := forall id k pid p,
  td_checkpoints db !! id = Some k -> kt_parent k = Some pid -> td_checkpoints db !! pid = Some p ->
  key_ltb (row_key (pid, p)) (row_key (id, k)) = true.

Lemma row_kept_key db db' id k k' : row_kept db db' k k' ->
  row_key (id, k') = row_key (id, k) /\ kt_parent k' = kt_parent k.
Proof. by intros [[->|[_ (ref & v & ->)]] _]. Qed.

Lemma keeps_back db db' id k' : keeps db db' -> td_checkpoints db' !! id = Some k' ->
  exists k, td_checkpoints db !! id = Some k /\ row_kept db db' k k'.
Proof.
  intros [_ K] E. specialize (K id). rw E in K. destruct (td_checkpoints db !! id) as [k|]; [|done]. eauto.
Qed.

Lemma parents_older_kept db db' : keeps db db' -> parents_older db -> parents_older db'.
Proof.
  intros K H id k pid p Ek Ep Epp.
  destruct (keeps_back _ _ _ _ K Ek) as (k0 & Ek0 & R1), (keeps_back _ _ _ _ K Epp) as (p0 & Ep0 & R2).
  destruct (row_kept_key _ _ id _ _ R1) as [-> E1], (row_kept_key _ _ pid _ _ R2) as [-> _].
  apply H; [done|congruence|done].
Qed.

(** Every legacy row is in the page. *)
Definition covers (db : TranscriptDB) (page : list (string * CheckpointTranscript)) : Prop :=
  forall id k, td_checkpoints db !! id = Some k -> legacy_inline k = true -> (id, k) ∈ page.

(** The parent of the first row is not to be converted: it would be an earlier row. *)
Lemma oldest_ready db x rest : parents_older db -> covers db (x :: rest) -> pending_row db x ->
  strictly_sorted row_key key_ltb (x :: rest) -> ~ parent_legacy db x.2.
Proof.
  intros Ho Hc [E _] Hs (pid & p & Ep & Epp & L). apply StronglySorted_inv in Hs as [_ Hf].
  destruct x as [id k]. simpl in *. specialize (Ho _ _ _ _ E Ep Epp).
  specialize (Hc _ _ Epp L). apply elem_of_cons in Hc as [Heq|Hc].
  - injection Heq as -> ->. by rw ltb_irrefl in Ho.
  - rw Forall_forall in Hf. specialize (Hf _ Hc). pose proof (ltb_trans _ _ _ Hf Ho) as F. by rw ltb_irrefl in F.
Qed.

Lemma covers_rest db p db' p' x rest : row_done None x db p db' p' -> covers db (x :: rest) ->
  ~ parent_legacy db x.2 -> covers db' rest.
Proof.
  intros D Hc Hn id k E L. destruct (decide (id = x.1)) as [->|Hne].
  - destruct (rd_all _ _ _ _ _ _ D eq_refl Hn) as [_ (ref & v & E')]. rw E in E'. injection E' as ->.
    by rw bound_not_legacy in L.
  - rw (rd_others _ _ _ _ _ _ D _ Hne) in E. specialize (Hc _ _ E L). apply elem_of_cons in Hc as [<-|Hc]; [|done].
    by destruct Hne.
Qed.

Lemma convert_page_all page : forall db p, store_in digest db -> NoDup (map fst page) ->
  Forall (pending_row db) page -> strictly_sorted row_key key_ltb page -> parents_older db -> covers db page ->
  converging (convert_page digest None p page) db (fun db' p' => covers db' [] /\
    bp_converted p' = bp_converted p + Z.of_nat (length page)).
Proof.
  induction page as [|x rest IH]; intros db p W Hn H Hs Ho Hc; simpl.
  { apply converging_ret; [done|]. split; [done|lia]. }
  apply Forall_cons in H as [Hx Hr]. pose proof (oldest_ready _ _ _ Ho Hc Hx Hs) as Hready.
  eapply converging_then; [by apply convert_row_safe|]. intros db1 p1 W1 K1 D.
  pose proof (pending_others _ _ _ _ _ _ _ D Hn Hr) as Hr1. apply NoDup_cons in Hn as [_ Hn].
  apply StronglySorted_inv in Hs as [Hs _]. destruct (rd_all _ _ _ _ _ _ D eq_refl Hready) as [Hconv _].
  eapply safely_mono; [apply (IH db1 p1); eauto using parents_older_kept, covers_rest|].
  intros db2 p2 _ _ [Hcov Hcount]. split; [done|]. lia.
Qed.

(** ** Verification of the rows with a reference *)

Lemma validate_page_safe page : forall db p, store_in digest db ->
  Forall (fun x => td_checkpoints db !! x.1 = Some x.2) page ->
  converging (validate_page digest p page) db (fun db' p' => db' = db /\
    bp_scanned p' = bp_scanned p + Z.of_nat (length page) /\ bp_converted p' = bp_converted p).
Proof.
  induction page as [|x rest IH]; intros db p W H; simpl.
  { apply converging_ret; [done|]. split_and!; [done|lia|done]. }
  apply Forall_cons in H as [Hx Hr]. destruct (wf_checkpoints _ _ (si_wf _ _ W) _ _ Hx) as [l Hl].
  eapply converging_then.
  { unfold validate_row. eapply safely_read; [exact Hl|].
    apply (converging_ret _ db (fun db' p' => db' = db /\ bp_scanned p' = bp_scanned p + 1 /\
      bp_converted p' = bp_converted p)); done. }
  intros _ p1 _ _ (-> & Hs & Hc). eapply safely_mono; [by apply IH|].
  intros db2 p2 _ _ (-> & Hs2 & Hc2). split_and!; [done|lia|congruence].
Qed.

Lemma validation_safe db scan_limit next p validation_after : store_in digest db ->
  positive scan_limit = true ->
  converging (validation_phase digest scan_limit next p validation_after) db (fun db' r => db' = db /\
    br_converted r = bp_converted p /\
    (forall n, scan_limit = Some n -> br_scanned r <= bp_scanned p + n)).
Proof.
  intros W Hpos. unfold validation_phase. apply safely_get.
  eapply converging_then; [apply validate_page_safe; [done|]|].
  { apply Forall_forall. intros x Hx. by apply candidates_incl in Hx as [? _]. }
  intros _ p1 _ _ (-> & Hs & Hc). apply converging_ret; [done|]. simpl in *. split_and!; [done|done|].
  intros n ->. simpl in Hpos. rw Hs.
  pose proof (candidates_limit ref_bearing (Some n) validation_after db n eq_refl ltac:(lia)).
  unfold list_ref_backed_checkpoint_validation_candidates. lia.
Qed.

(** ** The whole call *)


Lemma page_pending limit cursor db :
  Forall (pending_row db) (list_legacy_inline_checkpoint_backfill_candidates limit cursor db).
Proof. apply Forall_forall. intros x Hx. by apply candidates_incl in Hx. Qed.


Lemma completes_safe db validation_after : store_in digest db -> parents_older db ->
  converging (backfill_legacy_inline_checkpoints digest None None None validation_after) db
    (fun db' r => has_legacy_inline_checkpoints db' = false /\
      br_converted r = Z.of_nat (length (list_legacy_inline_checkpoint_backfill_candidates None None db))).
Proof.
  intros W Ho. unfold backfill_legacy_inline_checkpoints. apply safely_check; [done|]. apply safely_check; [done|].
  apply safely_get. eapply converging_then; [apply convert_page_all; [done|apply candidates_nodup|apply page_pending|
    apply candidates_sorted|done|intros id k E L; by apply candidates_all]|].
  intros db1 p W1 _ [Hcov Hcount]. cbn [bp_converted] in Hcount. apply safely_get.
  assert (Hno : has_legacy_inline_checkpoints db1 = false).
  { apply has_legacy_false. intros id k E. destruct (legacy_inline k) eqn:L; [|done].
    by apply Hcov, not_elem_of_nil in E. }
  rw Hno. destruct (list_legacy_inline_checkpoint_backfill_candidates None None db) as [|x rest].
  2: apply converging_ret; [done|]; split; [done|]; exact Hcount.
  eapply safely_mono; [by apply validation_safe|]. intros db2 r _ _ (-> & -> & _). by rw Hcount.
Qed.
End Backfilling.

(** ** Theorems *)

Section Theorems.
Context (digest : string -> string).
Context (digest_hex : forall s, sha256_hex (digest s) = true).

(** No two messages of the store are equal for Python and differ in text. *)
Definition store_exact (db : TranscriptDB) : Prop := exact_with db [].

(** What a transaction does under Python's equality, and that it does not fail on a
    fingerprint when the store is exact. *)
Lemma failures {A} (R : relation TranscriptDB) (m : Tx A) db (Q : TranscriptDB -> A -> Prop) : store_wf digest db ->
  (forall M : MessageEquality, store_in digest db -> safe_by digest R m db Q) ->
  match m db with
  | Ok (db', a) => store_wf digest db' /\ R db db' /\ Q db' a
  | Err e => e ∈ bound_errors \/ (e = FINGERPRINT_MISMATCH /\ ~ store_exact db)
  end.
Proof.
  intros W Hs. pose proof (Hs python_equality (python_store _ _ W)) as H.
  assert (forall X : store_exact db, safe_by digest (M := exact_equality _ X) R m db Q) as Hx
    by (intros X; apply Hs; by apply exact_store).
  unfold safe_by in H, Hx. destruct (m db) as [[db' a]|e]; [by destruct H as ([? _] & ? & ?)|].
  apply elem_of_cons in H as [->|H]; [|by left]. right. split; [done|]. intros X. specialize (Hx X).
  simpl in Hx. unfold bound_errors, FINGERPRINT_MISMATCH in Hx. set_solver.
Qed.


(** C37 backfill_completes: when parents were created before their children, one call without
    limits and cursor converts everything: no checkpoint is left with only an inline
    transcript.  It fails only when a digest is taken, or on a fingerprint when the store holds
    two messages that Python finds equal and that differ in text. *)
Theorem backfill_completes db validation_after :
  store_wf digest db -> parents_older db ->
  match backfill_legacy_inline_checkpoints digest None None None validation_after db with
  | Ok (db', r) => has_legacy_inline_checkpoints db' = false /\
      br_converted r = Z.of_nat (length (list_legacy_inline_checkpoint_backfill_candidates None None db))
  | Err e => e ∈ bound_errors \/ (e = FINGERPRINT_MISMATCH /\ ~ store_exact db)
  end.
Proof.
  intros W Ho. epose proof (failures (keeps digest) _ db _ W (fun M W => completes_safe digest digest_hex db validation_after W Ho)) as H.
  destruct (backfill_legacy_inline_checkpoints _ _ _ _ _ db) as [[db' r]|e]; [|done].
  by destruct H as (_ & _ & H).
Qed.
End Theorems.


(** ** Two checkpoints from before the representations *)

Definition old_checkpoint (content : list InferenceMessage) (parent : option string) (at_time : Z) :
    CheckpointTranscript :=
  {| kt_snapshot := Some (map model_dump content); kt_ref := None; kt_version := None; kt_parent := parent;
     kt_created_at := at_time |}.

Definition old_store : TranscriptDB :=
  put_checkpoint (put_checkpoint empty_store "k1" (old_checkpoint [demo_message "a"] None 1)) "k2"
    (old_checkpoint [demo_message "a"; demo_message "b"] (Some "k1"%string) 2).

Lemma old_reads db content parent at_time :
  materialize_checkpoint_transcript demo_digest db (old_checkpoint content parent at_time) = Ok content.
Proof.
  unfold materialize_checkpoint_transcript, inline_messages. simpl. by rw canonical_dumped.
Qed.

Lemma old_store_wf : store_wf demo_digest old_store.
Proof.
  eapply put_checkpoint_wf; [|apply old_reads]. eapply put_checkpoint_wf; [|apply old_reads]. apply empty_store_wf.
Qed.

Lemma old_parents : parents_older old_store.
Proof.
  assert (Hall : map_Forall (fun id k => match kt_parent k with
    | Some pid => match td_checkpoints old_store !! pid with
                  | Some p => key_ltb (row_key (pid, p)) (row_key (id, k)) = true
                  | None => True
                  end
    | None => True
    end) (td_checkpoints old_store)).
  { by repeat apply map_Forall_insert_2. }
  intros id k pid p Ek Ep Epp. specialize (Hall id k Ek). simpl in Hall. by rw Ep Epp in Hall.
Qed.

Definition ran {A} (r : result string (TranscriptDB * A)) : bool :=
  match r with Ok _ => true | Err _ => false end.

Lemma old_backfilled limit : limit = None \/ limit = Some 1 ->
  ran (backfill_legacy_inline_checkpoints demo_digest limit None None None old_store) = true.
Proof. intros [->| ->]; vm_compute; reflexivity. Qed.


Lemma backfill_completes_witness :
  store_wf demo_digest old_store /\ parents_older old_store /\
  exists db' r, backfill_legacy_inline_checkpoints demo_digest None None None None old_store = Ok (db', r) /\
    has_legacy_inline_checkpoints db' = false /\ br_converted r = 2.
Proof.
  split; [exact old_store_wf|]. split; [exact old_parents|].
  pose proof (backfill_completes demo_digest demo_is_hex old_store None old_store_wf old_parents) as H.
  pose proof (old_backfilled None (or_introl eq_refl)) as Hr. revert H Hr.
  generalize (backfill_legacy_inline_checkpoints demo_digest None None None None old_store).
  intros [[db' r]|e] H Hr; [|discriminate Hr]. destruct H as (Hno & Hc). exists db', r.
  split; [reflexivity|]. split; [exact Hno|]. rw Hc. vm_compute. reflexivity.
Defined.

(** The child begins with a message that Python finds equal to its parent's: the conversion of
    the child raises, and with it the call. *)
Definition confused_store : TranscriptDB :=
  put_checkpoint (put_checkpoint empty_store "k1" (old_checkpoint [counted (JInt 1)] None 1)) "k2"
    (old_checkpoint [counted (JBool true); demo_message "b"] (Some "k1"%string) 2).

Example equal_for_python_stops_backfill :
  backfill_legacy_inline_checkpoints demo_digest None None None None confused_store = Err FINGERPRINT_MISMATCH.
Proof. vm_compute. reflexivity. Qed.
