(* ===== verification/WaitingCheckpoint.v ===== *)
(** * Waiting checkpoints
    (src/se/src/runtimes/agent/waiting_checkpoint.py and
    DurableAgentStore.commit_waiting_checkpoint of persistence.py)

    An execution that starts to wait commits, in one transaction, a checkpoint (with its
    transcript as a representation and the pending invocations frozen as they are) and the
    compare-and-set of its own row.  A caller that lost the answer calls again, and the
    committed checkpoint is verified instead.

    A checkpoint row is split over two tables of the model: its transcript columns, parent and
    creation time are in TranscriptDB, the others in ResumeDB, where [ck_transcript] is what the
    transcript reads as.  Metadata is left out; JSON conversion of values that are JSON is the
    identity.  A transaction that raises is rolled back. *)

From S2P Require Import Prelude Canonical PythonValues TaskBudgetSchema AgentStore TaskBudgetService.
From S2P Require Import TaskActivity Invocation InvocationStores ResumeClaimStore Transcript.

Record WaitDB := { wd_resume : ResumeDB; wd_transcripts : TranscriptDB }.

Definition wd_agents (db : WaitDB) : AgentDB := rd_agents (wd_resume db).

Inductive WaitError :=
  | WaitConflict (message : string)      (* WaitingCheckpointConflictError, ExecutionConflictError *)
  | WaitRaised (message : string)        (* any other exception *)
  | WaitIntegrity.                       (* IntegrityError *)

Definition Wait (A : Type) : Type := WaitDB -> result WaitError (WaitDB * A).

#[export] Instance wait_ret : MRet Wait := fun A a db => Ok (db, a).
#[export] Instance wait_bind : MBind Wait := fun A B k m db =>
  match m db with Ok (db', a) => k a db' | Err e => Err e end.

Definition wait_get {A} (f : WaitDB -> A) : Wait A := fun db => Ok (db, f db).
Definition wait_check (b : bool) (e : WaitError) : Wait unit :=
  fun db => if b then Ok (db, tt) else Err e.
Definition conflict_unless (b : bool) (message : string) : Wait unit := wait_check b (WaitConflict message).
Definition wait_some {A} (o : option A) (message : string) : Wait A :=
  match o with Some a => mret a | None => fun _ => Err (WaitConflict message) end.

(** Run a transaction of the transcript writer. *)
Definition wait_tx {A} (m : Tx A) : Wait A := fun db =>
  match m (wd_transcripts db) with
  | Ok (t, a) => Ok ({| wd_resume := wd_resume db; wd_transcripts := t |}, a)
  | Err e => Err (WaitRaised e)
  end.

(** ** Arguments *)

(** [checkpoint_values]; [None] is a missing key, and a missing parent is [None] of the outer
    option. *)
Record CheckpointValues := {
  cv_checkpoint_id : string;
  cv_execution_id : option string;
  cv_execution_revision : option Z;
  cv_session_id : option string;
  cv_task_id : option string;
  cv_branch_id : option string;
  cv_wait_reason : option string;
  cv_parent_checkpoint_id : option (option string);
  cv_iteration : Z;
  cv_remaining : option Seconds;
  cv_wait_expires_at : option Z;
  cv_origin_client_id : option string;
  cv_origin_connection_id : option string;
  cv_snapshot : option (list json);
  cv_transcript_ref : option string;
  cv_transcript_version : option Z;
  cv_trace_id : option string;
  cv_request_id : option string
}.

Record PendingRef := {
  rf_ordinal : Z;
  rf_invocation_id : string;
  rf_tool_call_id : string;
  rf_capability_id : string
}.

(** [transition_values.get("wait_reason") or ""]. *)
Definition values_wait_reason (values : ExecValues) : string :=
  fold_left (fun acc f => match f with SetWaitReason o => default "" o | _ => acc end) values ""%string.

Definition by_ordinal (refs : list PendingRef) : list PendingRef := sort_by rf_ordinal Z.leb refs.

(** ** Lineage *)

Definition validate_checkpoint_parent_lineage (e : ExecutionRow) (parent : option string)
    (child : option string) (child_revision : option Z) : Wait unit :=
  match parent with
  | None => mret tt
  | Some parent_id =>
      _ ← conflict_unless (negb (bool_decide (child = Some parent_id)))
            "Checkpoint parent_checkpoint_id may not self-reference.";
      found ← wait_get (fun db => rd_checkpoints (wd_resume db) !! parent_id);
      p ← wait_some found "Unknown parent checkpoint";
      _ ← conflict_unless (bool_decide (ck_execution_id p = e_id e) &&
                           bool_decide (ck_session_id p = e_session_id e) &&
                           bool_decide (ck_task_id p = e_task_id e) &&
                           bool_decide (ck_branch_id p = e_branch_id e))
            "Checkpoint parent belongs to another execution/task/branch lineage.";
      conflict_unless (match child_revision with Some r => ck_execution_revision p <? r | None => true end)
        "Checkpoint parent revision must precede the child checkpoint."
  end.

(** ** Tables *)

Definition with_checkpoint (db : ResumeDB) (k : DurableExecutionCheckpoint) : ResumeDB :=
  {| rd_agents := rd_agents db; rd_claims := rd_claims db;
     rd_checkpoints := <[ck_id k := k]> (rd_checkpoints db);
     rd_pending := rd_pending db; rd_iterations := rd_iterations db; rd_tool_calls := rd_tool_calls db;
     rd_tool_results := rd_tool_results db; rd_store := rd_store db |}.

Definition with_pending (db : ResumeDB) (id : string) (rows : list CheckpointPendingInvocation) : ResumeDB :=
  {| rd_agents := rd_agents db; rd_claims := rd_claims db; rd_checkpoints := rd_checkpoints db;
     rd_pending := <[id := rows]> (rd_pending db); rd_iterations := rd_iterations db;
     rd_tool_calls := rd_tool_calls db; rd_tool_results := rd_tool_results db; rd_store := rd_store db |}.

(** The CHECK constraints of [agent_execution_checkpoints]. *)
Definition checkpoint_checks (k : DurableExecutionCheckpoint) (t : CheckpointTranscript) : bool :=
  (0 <=? ck_execution_revision k) && (0 <=? ck_iteration k) &&
  match ck_remaining k with Some (Finite us) => 0 <=? us | _ => true end &&
  nonneg_opt (kt_version t) &&
  (bool_decide (is_Some (kt_snapshot t)) || bool_decide (is_Some (kt_ref t))) &&
  Bool.eqb (bool_decide (is_Some (kt_ref t))) (bool_decide (is_Some (kt_version t))).

Definition save_execution_checkpoint (k : DurableExecutionCheckpoint) (t : CheckpointTranscript) : Wait unit :=
  fun db =>
  if bool_decide (rd_checkpoints (wd_resume db) !! ck_id k = None) &&
     bool_decide (td_checkpoints (wd_transcripts db) !! ck_id k = None) && checkpoint_checks k t &&
     (negb (rd_foreign_keys (wd_resume db)) ||
      bool_decide (is_Some (get_execution (wd_agents db) (ck_execution_id k))))
  then Ok ({| wd_resume := with_checkpoint (wd_resume db) k;
              wd_transcripts := put_checkpoint (wd_transcripts db) (ck_id k) t |}, tt)
  else Err WaitIntegrity.

(** The constraints of [agent_checkpoint_pending_invocations] for the rows of a checkpoint. *)
Definition pending_checks (rows : list CheckpointPendingInvocation) : bool :=
  forallb (fun x => (0 <=? pd_ordinal x) && (0 <=? pd_invocation_revision x)) rows &&
  bool_decide (NoDup (map pd_ordinal rows)) && bool_decide (NoDup (map pd_invocation_id rows)) &&
  bool_decide (NoDup (map pd_tool_call_id rows)).

(** Rows are kept by ordinal. *)
Definition save_checkpoint_pending_invocations (id : string) (rows : list CheckpointPendingInvocation)
    : Wait unit := fun db =>
  match rows with
  | [] => Ok (db, tt)
  | _ =>
      let all := default [] (rd_pending (wd_resume db) !! id) ++ rows in
      if pending_checks all
      then Ok ({| wd_resume := with_pending (wd_resume db) id (sort_by pd_ordinal Z.leb all);
                  wd_transcripts := wd_transcripts db |}, tt)
      else Err WaitIntegrity
  end.

(** ** Pending invocations, frozen as they are *)

Definition frozen_row (ref : PendingRef) (i : CapabilityInvocation) : CheckpointPendingInvocation :=
  {| pd_ordinal := rf_ordinal ref; pd_invocation_id := iv_id i; pd_invocation_revision := iv_revision i;
     pd_tool_call_id := default "" (iv_tool_call_id i); pd_capability_id := iv_capability_id i;
     pd_capability_version := d_capability_version (iv_details i);
     pd_request_fingerprint := d_request_fingerprint (iv_details i);
     pd_idempotency := d_idempotency (iv_details i); pd_observed := iv_remote_outcome i;
     pd_origin_client_id := d_origin_client_id (iv_details i); pd_origin_connection_id := iv_connection_id i |}.

(** The references that were looked at come first. *)
Definition freeze_ref (execution_id : string) (before : list PendingRef) (ref : PendingRef)
    : Wait CheckpointPendingInvocation :=
  _ ← conflict_unless ((0 <=? rf_ordinal ref) && negb (bool_decide (rf_ordinal ref ∈ map rf_ordinal before)))
        "Pending invocation ordinals must be unique and non-negative.";
  _ ← conflict_unless (negb (bool_decide (rf_invocation_id ref ∈ map rf_invocation_id before)) &&
                       negb (bool_decide (rf_tool_call_id ref ∈ map rf_tool_call_id before)))
        "Pending invocation/tool-call identity must be unique.";
  found ← wait_get (fun db => rd_invocations (wd_resume db) !! rf_invocation_id ref);
  i ← wait_some found "Unknown CapabilityInvocation";
  _ ← conflict_unless (bool_decide (iv_execution_id i = Some execution_id))
        "CapabilityInvocation belongs to another execution.";
  _ ← conflict_unless (bool_decide (iv_tool_call_id i = Some (rf_tool_call_id ref)))
        "CapabilityInvocation tool_call_id changed before checkpoint.";
  _ ← conflict_unless (bool_decide (iv_capability_id i = rf_capability_id ref))
        "CapabilityInvocation capability_id changed before checkpoint.";
  mret (frozen_row ref i).

Fixpoint freeze_refs (execution_id : string) (before refs : list PendingRef)
    : Wait (list CheckpointPendingInvocation) :=
  match refs with
  | [] => mret []
  | ref :: rest =>
      row ← freeze_ref execution_id before ref;
      rows ← freeze_refs execution_id (ref :: before) rest;
      mret (row :: rows)
  end.

Definition origin_clients (rows : list CheckpointPendingInvocation) : list string :=
  remove_dups (omap (fun x => match pd_origin_client_id x with
                              | Some c => if truthy c then Some c else None
                              | None => None
                              end) rows).

Definition as_message (m : InferenceMessage) : TranscriptMessage :=
  {| ms_role := im_role m; ms_tool_call_id := im_tool_call_id m; ms_outward := model_dump m |}.

(** ** waiting_checkpoint.py *)

Section Staging.
Context (digest : string -> string).

(** What the reference reads as. *)
Definition read_messages (ref : string) (v : Z) (db : WaitDB) : list TranscriptMessage :=
  match materialize_transcript_representation digest (wd_transcripts db) ref v with
  | Ok l => map as_message l
  | Err _ => []
  end.

Definition checkpoint_row (id : string) (revision : Z) (reason : string) (e : ExecutionRow) (v : CheckpointValues)
    (messages : list TranscriptMessage) : DurableExecutionCheckpoint :=
  {| ck_id := id; ck_execution_id := e_id e; ck_execution_revision := revision; ck_session_id := e_session_id e;
     ck_iteration := cv_iteration v; ck_wait_reason := reason; ck_task_id := e_task_id e;
     ck_branch_id := e_branch_id e; ck_remaining := cv_remaining v; ck_wait_expires_at := cv_wait_expires_at v;
     ck_origin_client_id := cv_origin_client_id v; ck_origin_connection_id := cv_origin_connection_id v;
     ck_transcript := messages; ck_trace_id := cv_trace_id v; ck_request_id := cv_request_id v |}.

Definition reference_row (ref : string) (v : Z) (parent : option string) (now : Z) : CheckpointTranscript :=
  {| kt_snapshot := None; kt_ref := Some ref; kt_version := Some v; kt_parent := parent; kt_created_at := now |}.

(** The checks before anything is written; the id, the wait reason and the parent. *)
Definition check_checkpoint (e : ExecutionRow) (source_revision : Z) (values : ExecValues) (v : CheckpointValues)
    : Wait (string * string * option string) :=
  let target := source_revision + 1 in
  _ ← conflict_unless ((e_revision e =? source_revision) && bool_decide (e_state e = "RUNNING"))
        "Execution is not RUNNING at the revision.";
  let id := cv_checkpoint_id v in
  _ ← wait_check (truthy id) (WaitRaised "checkpoint_id must be non-empty");
  _ ← conflict_unless (bool_decide (cv_execution_id v = Some (e_id e)))
        "Checkpoint execution_id does not match AgentExecution.";
  _ ← conflict_unless (default (-1) (cv_execution_revision v) =? target)
        "Checkpoint revision must equal target AgentExecution revision.";
  _ ← conflict_unless (bool_decide (cv_session_id v = Some (e_session_id e)))
        "Checkpoint session_id does not match AgentExecution.";
  _ ← conflict_unless (bool_decide (cv_task_id v = e_task_id e)) "Checkpoint task_id does not match AgentExecution.";
  _ ← conflict_unless (bool_decide (cv_branch_id v = e_branch_id e))
        "Checkpoint branch_id does not match AgentExecution.";
  _ ← conflict_unless (negb (bool_decide (is_Some (e_task_id e)) && bool_decide (e_branch_id e = None)))
        "Task-scoped AgentExecution requires normalized branch_id before WAITING checkpoint creation.";
  let reason := values_wait_reason values in
  _ ← conflict_unless (truthy reason && bool_decide (cv_wait_reason v = Some reason))
        "Checkpoint wait_reason must match WAITING transition.";
  let parent := default (e_current_checkpoint_id e) (cv_parent_checkpoint_id v) in
  _ ← conflict_unless (bool_decide (parent = e_current_checkpoint_id e))
        "Checkpoint parent_checkpoint_id must match the execution current checkpoint.";
  _ ← validate_checkpoint_parent_lineage e parent (Some id) (Some target);
  mret (id, reason, parent).

(** The transcript, as a representation. *)
Definition stage_transcript (v : CheckpointValues) (parent : option string) : Wait (string * Z) :=
  _ ← conflict_unless (bool_decide (cv_transcript_ref v = None) && bool_decide (cv_transcript_version v = None))
        "Checkpoint ref-bearing authority is owned by the R11-D representation writer and may not be caller supplied.";
  snapshot ← wait_some (cv_snapshot v) "R11-D REF_BACKED cutover requires an inline transcript proof snapshot.";
  wait_tx (write_transcript_representation digest snapshot parent).

Definition stage_pending (e : ExecutionRow) (v : CheckpointValues) (refs : list PendingRef)
    : Wait (list CheckpointPendingInvocation) :=
  rows ← freeze_refs (e_id e) [] (by_ordinal refs);
  _ ← conflict_unless (length (origin_clients rows) <=? 1)%nat
        "R7 initial continuation does not support multi-client fan-in.";
  _ ← conflict_unless (negb (is_text (cv_origin_client_id v) && (0 <? length (origin_clients rows))%nat &&
                             negb (bool_decide (default "" (cv_origin_client_id v) ∈ origin_clients rows))))
        "Checkpoint origin_client_id differs from pending invocation owner.";
  mret rows.

Definition staged_values (values : ExecValues) (id reason : string) (v : CheckpointValues) : ExecValues :=
  values ++ [SetCheckpoint (Some id)] ++
  (if bool_decide (reason = "CONNECTION")
   then SetColumns [("bound_connection_id", JNull)]
        :: (if is_text (cv_origin_client_id v)
            then [SetColumns [("bound_client_id", JStr (default "" (cv_origin_client_id v)))]] else [])
   else [])%string.

Definition stage_waiting_checkpoint (now : Z) (e : ExecutionRow) (source_revision : Z) (values : ExecValues)
    (v : CheckpointValues) (refs : list PendingRef) : Wait ExecValues :=
  checked ← check_checkpoint e source_revision values v;
  let '(id, reason, parent) := checked in
  proven ← stage_transcript v parent;
  rows ← stage_pending e v refs;
  messages ← wait_get (read_messages proven.1 proven.2);
  _ ← save_execution_checkpoint (checkpoint_row id (source_revision + 1) reason e v messages)
        (reference_row proven.1 proven.2 parent now);
  _ ← save_checkpoint_pending_invocations id rows;
  mret (staged_values values id reason v).

(** ** Verification of a checkpoint that was committed before *)

Definition row_identity (x : CheckpointPendingInvocation) : Z * string * string * string :=
  (pd_ordinal x, pd_invocation_id x, pd_tool_call_id x, pd_capability_id x).
Definition ref_identity (r : PendingRef) : Z * string * string * string :=
  (rf_ordinal r, rf_invocation_id r, rf_tool_call_id r, rf_capability_id r).

Definition wait_read {A} (f : TranscriptDB -> result string A) : Wait A := fun db =>
  match f (wd_transcripts db) with Ok a => Ok (db, a) | Err e => Err (WaitConflict e) end.

Definition verify_committed_waiting_checkpoint (e : ExecutionRow) (source_revision : Z) (v : CheckpointValues)
    (refs : list PendingRef) : Wait unit :=
  let id := cv_checkpoint_id v in
  let expected := source_revision + 1 in
  found ← wait_get (fun db => rd_checkpoints (wd_resume db) !! id);
  k ← wait_some found "Missing committed checkpoint";
  transcript ← wait_get (fun db => td_checkpoints (wd_transcripts db) !! id);
  t ← wait_some transcript "Missing committed checkpoint";
  _ ← conflict_unless (bool_decide (ck_execution_id k = e_id e) && (ck_execution_revision k =? expected) &&
                       bool_decide (ck_session_id k = e_session_id e) && bool_decide (ck_task_id k = e_task_id e) &&
                       bool_decide (ck_branch_id k = e_branch_id e))
        "Committed checkpoint does not match execution task/branch/session transition lineage.";
  snapshot ← wait_some (cv_snapshot v) "Idempotent WAITING replay requires the expected transcript snapshot.";
  committed ← wait_read (fun db => materialize_checkpoint_transcript digest db t);
  messages ← wait_some (canonical_transcript_messages snapshot)
               "Idempotent WAITING replay transcript is not canonicalizable.";
  _ ← conflict_unless (same_messages committed messages)
        "Committed checkpoint transcript differs from idempotent replay.";
  rows ← wait_get (fun db => default [] (rd_pending (wd_resume db) !! id));
  _ ← conflict_unless (bool_decide (map row_identity rows = map ref_identity (by_ordinal refs)))
        "Committed checkpoint pending invocation identity differs.";
  if e_revision e =? expected then
    _ ← conflict_unless (bool_decide (e_state e = "WAITING"))
          "Checkpoint target revision exists but execution is not WAITING.";
    conflict_unless (bool_decide (e_current_checkpoint_id e = Some id))
      "WAITING execution does not point at committed checkpoint."
  else mret tt.

(** ** DurableAgentStore.commit_waiting_checkpoint *)

Definition wait_cas (execution_id : string) (expected_revision : Z) (values : ExecValues)
    : Wait (option ExecutionRow) := fun db =>
  match compare_and_set_execution (wd_agents db) execution_id expected_revision values with
  | Ok (a, o) => Ok ({| wd_resume := with_agents (wd_resume db) a; wd_transcripts := wd_transcripts db |}, o)
  | Err _ => Err WaitIntegrity
  end.

Definition commit_waiting_checkpoint (now : Z) (execution_id : string) (expected_revision : Z)
    (values : ExecValues) (v : CheckpointValues) (refs : list PendingRef) : Wait ExecutionRow :=
  found ← wait_get (fun db => get_execution (wd_agents db) execution_id);
  e ← wait_some found "Unknown AgentExecution";
  if e_revision e =? expected_revision + 1 then
    _ ← verify_committed_waiting_checkpoint e expected_revision v refs;
    mret e
  else
    _ ← conflict_unless ((e_revision e =? expected_revision) && bool_decide (e_state e = "RUNNING"))
          "Stale AgentExecution revision/state";
    staged ← stage_waiting_checkpoint now e expected_revision values v refs;
    updated ← wait_cas execution_id expected_revision staged;
    record ← wait_some updated "Stale AgentExecution revision";
    _ ← conflict_unless (bool_decide (e_current_checkpoint_id record = Some (cv_checkpoint_id v)))
          "WAITING CAS did not retain normalized checkpoint pointer.";
    mret record.
End Staging.
