(* ===== verification/WaitingCheckpointProperties.v ===== *)
(** * Properties of waiting checkpoints
    (file WaitingCheckpoint)

    A commit that returns leaves a complete safe point: the execution points at a checkpoint of
    its own lineage and revision whose transcript reads as what was given and whose pending
    rows are the invocations as they are.  Repeating it changes nothing, and a connection wait
    it commits is one that the resume protocol accepts. *)

From S2P Require Import Prelude Canonical PythonValues TaskBudgetSchema AgentStore TaskBudgetService.
From S2P Require Import ExecutionLease TaskActivity Invocation InvocationStores InvocationProperties ResumeClaimStore.
From S2P Require Import ResumeClaimConsume ResumeClaimProperties Reconciliation ResumePlanning ResumePlanningProperties.
From S2P Require Import Transcript TranscriptProperties TranscriptWriterProperties WaitingCheckpoint.

(** ** Inversion of transactions *)

Lemma wait_bind_ok {A B} (m : Wait A) (k : A -> Wait B) db r : (m ≫= k) db = Ok r ->
  exists db1 a, m db = Ok (db1, a) /\ k a db1 = Ok r.
Proof. unfold mbind, wait_bind. destruct (m db) as [[db1 a]|e]; [|done]. eauto. Qed.

Lemma wait_check_ok {B} b e (k : unit -> Wait B) db r : (wait_check b e ≫= k) db = Ok r ->
  b = true /\ k tt db = Ok r.
Proof. unfold mbind, wait_bind, wait_check. by destruct b. Qed.

Lemma conflict_bind_ok {B} b e (k : unit -> Wait B) db r : (conflict_unless b e ≫= k) db = Ok r ->
  b = true /\ k tt db = Ok r.
Proof. apply wait_check_ok. Qed.

Lemma wait_get_ok {A B} (f : WaitDB -> A) (k : A -> Wait B) db r :
  (wait_get f ≫= k) db = Ok r -> k (f db) db = Ok r.
Proof. done. Qed.

Lemma wait_some_ok {A B} (o : option A) e (k : A -> Wait B) db r : (wait_some o e ≫= k) db = Ok r ->
  exists a, o = Some a /\ k a db = Ok r.
Proof. unfold mbind, wait_bind. destruct o; [|done]. simpl. eauto. Qed.

Ltac wait_inv H :=
  repeat first
    [ apply conflict_bind_ok in H as [? H]
    | apply wait_check_ok in H as [? H]
    | apply wait_get_ok in H
    | let E := fresh "E" in apply wait_some_ok in H as (? & E & H) ];
  breflect.

(** ** Checks *)

Lemma lineage_reads e parent child revision db db' u :
  validate_checkpoint_parent_lineage e parent child revision db = Ok (db', u) -> db' = db.
Proof.
  unfold validate_checkpoint_parent_lineage. destruct parent as [p|]; [|intros H; by injection H].
  intros H. wait_inv H. unfold conflict_unless, wait_check in H.
  destruct (match revision with Some _ => _ | None => _ end); [|done]. by injection H.
Qed.

Record checked_values (e : ExecutionRow) (source_revision : Z) (values : ExecValues) (v : CheckpointValues) : Prop := {
  cc_running : e_state e = "RUNNING";
  cc_revision : e_revision e = source_revision;
  cc_id : truthy (cv_checkpoint_id v) = true;
  cc_branch : is_Some (e_task_id e) -> is_Some (e_branch_id e);
  cc_reason : truthy (values_wait_reason values) = true /\ cv_wait_reason v = Some (values_wait_reason values)
}.

Lemma check_checkpoint_ok e source_revision values v db db' id reason parent :
  check_checkpoint e source_revision values v db = Ok (db', (id, reason, parent)) ->
  db' = db /\ id = cv_checkpoint_id v /\ reason = values_wait_reason values /\
  parent = e_current_checkpoint_id e /\ checked_values e source_revision values v.
Proof.
  intros H. unfold check_checkpoint in H. wait_inv H. apply wait_bind_ok in H as (db1 & u & Hl & H).
  apply lineage_reads in Hl as ->. injection H as <- <- <- <-. split_and!; try done.
  split; try done. intros Ht. destruct (e_branch_id e) as [b|]; [done|].
  match goal with H : _ \/ _ |- _ => by destruct H as [F|F]; apply bool_decide_eq_false in F end.
Qed.

Lemma stage_transcript_ok digest v parent db db' ref version :
  stage_transcript digest v parent db = Ok (db', (ref, version)) ->
  wd_resume db' = wd_resume db /\ exists snapshot, cv_snapshot v = Some snapshot /\
    write_transcript_representation digest snapshot parent (wd_transcripts db) =
      Ok (wd_transcripts db', (ref, version)).
Proof.
  intros H. unfold stage_transcript in H. wait_inv H. unfold wait_tx in H.
  destruct (write_transcript_representation _ _ _ _) as [[t record]|e] eqn:Ew; [|done].
  injection H as <- <-. eauto.
Qed.

(** ** Frozen rows *)

Lemma freeze_ref_ok execution_id before ref db db' row :
  freeze_ref execution_id before ref db = Ok (db', row) -> db' = db /\
  0 <= rf_ordinal ref /\ (rf_ordinal ref ∉ map rf_ordinal before) /\
  (rf_invocation_id ref ∉ map rf_invocation_id before) /\ (rf_tool_call_id ref ∉ map rf_tool_call_id before) /\
  exists i, rd_invocations (wd_resume db) !! rf_invocation_id ref = Some i /\
    iv_execution_id i = Some execution_id /\ iv_tool_call_id i = Some (rf_tool_call_id ref) /\
    iv_capability_id i = rf_capability_id ref /\ row = frozen_row ref i.
Proof.
  intros H. unfold freeze_ref in H. wait_inv H. injection H as <- <-. split_and!; try done. eauto 10.
Qed.

(** The row of a reference: its invocation, as it is. *)
Definition freezes (db : ResumeDB) (execution_id : string) (ref : PendingRef) (row : CheckpointPendingInvocation) : Prop :=
  exists i, rd_invocations db !! rf_invocation_id ref = Some i /\ iv_execution_id i = Some execution_id /\
    iv_tool_call_id i = Some (rf_tool_call_id ref) /\ iv_capability_id i = rf_capability_id ref /\
    row = frozen_row ref i.

Lemma freeze_refs_ok execution_id refs : forall before db db' rows,
  freeze_refs execution_id before refs db = Ok (db', rows) -> db' = db /\
  Forall2 (freezes (wd_resume db) execution_id) refs rows /\
  Forall (fun r => 0 <= rf_ordinal r) refs /\
  (NoDup (map rf_ordinal before) -> NoDup (map rf_ordinal (rev refs ++ before))) /\
  (NoDup (map rf_invocation_id before) -> NoDup (map rf_invocation_id (rev refs ++ before))) /\
  (NoDup (map rf_tool_call_id before) -> NoDup (map rf_tool_call_id (rev refs ++ before))).
Proof.
  induction refs as [|ref rest IH]; intros before db db' rows H; simpl in H.
  { injection H as <- <-. by split_and!. }
  apply wait_bind_ok in H as (db1 & row & Hr & H).
  apply freeze_ref_ok in Hr as (-> & Ho & Hno & Hni & Hnt & Hf).
  apply wait_bind_ok in H as (db2 & rest_rows & Hrest & H). injection H as <- <-.
  destruct (IH _ _ _ _ Hrest) as (-> & F & Hall & N1 & N2 & N3). simpl. rw -!app_assoc.
  split_and!; [done|by constructor|by constructor|..]; intros N; [apply N1|apply N2|apply N3]; by constructor.
Qed.

Lemma frozen_identity db execution_id refs rows : keyed db ->
  Forall2 (freezes db execution_id) refs rows -> map row_identity rows = map ref_identity refs.
Proof.
  intros Hk. induction 1 as [|ref row refs rows (i & Hi & _ & Ht & Hc & ->) _ IH]; simpl; [done|].
  rw IH. f_equal. unfold row_identity, ref_identity, frozen_row. simpl. rw Ht Hc. simpl.
  pose proof (Hk _ _ Hi) as E. unfold get_invocation in E. by rw E.
Qed.

Lemma identity_keys rows refs : map row_identity rows = map ref_identity refs ->
  map pd_ordinal rows = map rf_ordinal refs /\ map pd_invocation_id rows = map rf_invocation_id refs /\
  map pd_tool_call_id rows = map rf_tool_call_id refs.
Proof.
  revert refs. induction rows as [|x rows IH]; intros [|r refs] H; try done. simpl in H.
  injection H as H1 H2 H3 _ H. destruct (IH _ H) as (E1 & E2 & E3). simpl. by rw H1 H2 H3 E1 E2 E3.
Qed.

Record frozen_batch (db : ResumeDB) (execution_id : string) (refs : list PendingRef)
    (rows : list CheckpointPendingInvocation) : Prop := {
  fb_rows : Forall2 (freezes db execution_id) (by_ordinal refs) rows;
  fb_ordinals : NoDup (map rf_ordinal (by_ordinal refs));
  fb_invocations : NoDup (map rf_invocation_id (by_ordinal refs));
  fb_calls : NoDup (map rf_tool_call_id (by_ordinal refs))
}.

Lemma NoDup_map_rev {A B} (f : A -> B) l : NoDup (map f (rev l)) -> NoDup (map f l).
Proof. by rw map_rev -Permutation_rev. Qed.

Lemma stage_pending_ok e v refs db db' rows : stage_pending e v refs db = Ok (db', rows) ->
  db' = db /\ frozen_batch (wd_resume db) (e_id e) refs rows.
Proof.
  intros H. unfold stage_pending in H. apply wait_bind_ok in H as (db1 & rows1 & Hf & H). wait_inv H.
  injection H as <- <-. apply freeze_refs_ok in Hf as (-> & F & _ & N1 & N2 & N3). split; [done|].
  rw !app_nil_r in N1, N2, N3. by split; [done|apply NoDup_map_rev..]; [apply N1|apply N2|apply N3]; apply NoDup_nil.
Qed.

(** ** The staged rows *)

Lemma save_checkpoint_ok k t db db' u : save_execution_checkpoint k t db = Ok (db', u) ->
  rd_checkpoints (wd_resume db) !! ck_id k = None /\ td_checkpoints (wd_transcripts db) !! ck_id k = None /\
  db' = {| wd_resume := with_checkpoint (wd_resume db) k;
           wd_transcripts := put_checkpoint (wd_transcripts db) (ck_id k) t |}.
Proof.
  unfold save_execution_checkpoint. destruct (_ && _) eqn:E; [|done]. intros H. injection H as <- <-.
  by breflect.
Qed.

(** The tables that staging does not write. *)
Record other_tables (a b : ResumeDB) : Prop := {
  ot_claims : rd_claims b = rd_claims a;
  ot_iterations : rd_iterations b = rd_iterations a;
  ot_tool_calls : rd_tool_calls b = rd_tool_calls a;
  ot_tool_results : rd_tool_results b = rd_tool_results a;
  ot_store : rd_store b = rd_store a
}.

Lemma save_pending_ok id rows db db' u : save_checkpoint_pending_invocations id rows db = Ok (db', u) ->
  default [] (rd_pending (wd_resume db) !! id) = [] -> StronglySorted Z.le (map pd_ordinal rows) ->
  wd_transcripts db' = wd_transcripts db /\ other_tables (wd_resume db) (wd_resume db') /\
  rd_agents (wd_resume db') = rd_agents (wd_resume db) /\
  rd_checkpoints (wd_resume db') = rd_checkpoints (wd_resume db) /\
  default [] (rd_pending (wd_resume db') !! id) = rows /\
  (forall id', id' <> id -> rd_pending (wd_resume db') !! id' = rd_pending (wd_resume db) !! id').
Proof.
  intros H Hn Hs. destruct rows as [|x rows]; cbn [save_checkpoint_pending_invocations] in H.
  { injection H as <- <-. by split_and!. }
  rw Hn in H. simpl in H. destruct (pending_checks _); [|done]. injection H as <- <-. simpl.
  split_and!; try done; [|intros id' Hne; by apply lookup_insert_ne].
  rw lookup_insert_eq. exact (sort_leb_id pd_ordinal (x :: rows) Hs).
Qed.

Lemma frozen_sorted db execution_id refs rows : keyed db -> frozen_batch db execution_id refs rows ->
  StronglySorted Z.le (map pd_ordinal rows).
Proof.
  intros Hk [F _ _ _]. apply (frozen_identity _ _ _ _ Hk) in F. destruct (identity_keys _ _ F) as (-> & _).
  apply sort_leb_sorted.
Qed.

Section Commits.
Context (digest : string -> string).
Context (digest_hex : forall s, sha256_hex (digest s) = true).

(** What staging leaves for the execution [e]. *)
Record staged_wait (now : Z) (e : ExecutionRow) (source_revision : Z) (values : ExecValues) (v : CheckpointValues)
    (refs : list PendingRef) (db db' : WaitDB) : Prop := {
  sw_checked : checked_values e source_revision values v;
  sw_written : exists ref version snapshot t1, cv_snapshot v = Some snapshot /\
    write_transcript_representation digest snapshot (e_current_checkpoint_id e) (wd_transcripts db) =
      Ok (t1, (ref, version)) /\
    td_checkpoints t1 !! cv_checkpoint_id v = None /\
    wd_transcripts db' = put_checkpoint t1 (cv_checkpoint_id v)
      (reference_row ref version (e_current_checkpoint_id e) now) /\
    rd_checkpoints (wd_resume db') = <[cv_checkpoint_id v := checkpoint_row (cv_checkpoint_id v)
      (source_revision + 1) (values_wait_reason values) e v
      (match materialize_transcript_representation digest t1 ref version with
       | Ok l => map as_message l
       | Err _ => []
       end)]> (rd_checkpoints (wd_resume db));
  sw_new : rd_checkpoints (wd_resume db) !! cv_checkpoint_id v = None;
  sw_rows : frozen_batch (wd_resume db) (e_id e) refs
    (default [] (rd_pending (wd_resume db') !! cv_checkpoint_id v));
  sw_others id : id <> cv_checkpoint_id v -> rd_pending (wd_resume db') !! id = rd_pending (wd_resume db) !! id;
  sw_tables : other_tables (wd_resume db) (wd_resume db');
  sw_agents : rd_agents (wd_resume db') = rd_agents (wd_resume db)
}.

Lemma stage_ok now e source_revision values v refs db db' out :
  keyed (wd_resume db) ->
  (rd_checkpoints (wd_resume db) !! cv_checkpoint_id v = None ->
     default [] (rd_pending (wd_resume db) !! cv_checkpoint_id v) = []) ->
  stage_waiting_checkpoint digest now e source_revision values v refs db = Ok (db', out) ->
  out = staged_values values (cv_checkpoint_id v) (values_wait_reason values) v /\
  staged_wait now e source_revision values v refs db db'.
Proof.
  intros Hk Hp H. unfold stage_waiting_checkpoint in H.
  apply wait_bind_ok in H as (db0 & [[id reason] parent] & Hc & H).
  apply check_checkpoint_ok in Hc as (-> & -> & -> & -> & Hck).
  apply wait_bind_ok in H as (db1 & [ref version] & Ht & H).
  apply stage_transcript_ok in Ht as (Hr & snapshot & Hs & Hw).
  apply wait_bind_ok in H as (db2 & rows & Hf & H). apply stage_pending_ok in Hf as (-> & Hb).
  apply wait_get_ok in H. apply wait_bind_ok in H as (db3 & u & Hsave & H).
  apply save_checkpoint_ok in Hsave as (Hn1 & Hn2 & ->). rw Hr in Hn1, Hb, H.
  apply wait_bind_ok in H as (db4 & u' & Hpend & H). injection H as <- <-. split; [done|].
  pose proof (frozen_sorted _ _ _ _ Hk Hb) as Hsorted.
  apply save_pending_ok in Hpend as (E1 & [O1 O2 O3 O4 O5] & E2 & E3 & E4 & E5); [|by apply Hp|done].
  simpl in *. split; try done.
  - exists ref, version, snapshot, (wd_transcripts db1). by split_and!.
  - by rw E4.
Qed.

(** ** The execution row *)

Lemma session_kept j l : (forall kv, kv ∈ l -> kv.1 <> "session_id"%string) ->
  text_column (set_columns j l) "session_id" = text_column j "session_id".
Proof.
  intros H. unfold text_column, opt_column, set_columns. simpl. do 2 f_equal.
  revert H. generalize (json_fields j). induction l as [|[k x] l IH]; intros f H; [done|]. simpl.
  rw (IH (dict_set k x f)); [intros kv Hkv; apply H; by right|].
  rw dict_get_set bool_decide_false; [|done]. intros E. by apply (H (k, x)); [left|].
Qed.

Lemma values_identity values e : let e' := apply_exec_values e values in
  e_id e' = e_id e /\ e_task_id e' = e_task_id e /\ e_branch_id e' = e_branch_id e /\ e_revision e' = e_revision e.
Proof.
  revert e. induction values as [|f values IH]; intros e; [done|]. simpl.
  destruct (IH (apply_exec_field e f)) as (-> & -> & -> & ->). by destruct f, e.
Qed.

Lemma values_reason_last values e acc : let r := fold_left
    (fun acc f => match f with SetWaitReason o => default "" o | _ => acc end) values acc in
  r = acc /\ e_wait_reason (apply_exec_values e values) = e_wait_reason e \/
  r = default ""%string (e_wait_reason (apply_exec_values e values)).
Proof.
  revert e acc. induction values as [|f values IH]; intros e acc; [by left|]. simpl.
  destruct (IH (apply_exec_field e f) (match f with SetWaitReason o => default "" o | _ => acc end)) as [[-> ->]|H];
    [|by right]. destruct f, e; simpl; auto.
Qed.

Lemma values_reason e values : truthy (values_wait_reason values) = true ->
  e_wait_reason (apply_exec_values e values) = Some (values_wait_reason values).
Proof.
  intros H. unfold values_wait_reason in *. destruct (values_reason_last values e "") as [[E _]|E]; rw E in H |- *; [done|].
  by destruct (e_wait_reason (apply_exec_values e values)).
Qed.

(** The row after the compare-and-set. *)
Record waiting_row (e e' : ExecutionRow) (revision : Z) (values : ExecValues) (id : string) : Prop := {
  wr_id : e_id e' = e_id e;
  wr_task : e_task_id e' = e_task_id e;
  wr_branch : e_branch_id e' = e_branch_id e;
  wr_revision : e_revision e' = revision;
  wr_checkpoint : e_current_checkpoint_id e' = Some id;
  wr_state : e_state e' = e_state (apply_exec_values e values);
  wr_reason : e_wait_reason e' = e_wait_reason (apply_exec_values e values);
  wr_expires : e_wait_expires_at e' = e_wait_expires_at (apply_exec_values e values);
  wr_session : e_session_id e' = e_session_id (apply_exec_values e values)
}.

(** Columns that only say where the execution is bound. *)
Record keeps_wait (a b : ExecutionRow) : Prop := {
  kw_id : e_id b = e_id a;
  kw_task : e_task_id b = e_task_id a;
  kw_branch : e_branch_id b = e_branch_id a;
  kw_checkpoint : e_current_checkpoint_id b = e_current_checkpoint_id a;
  kw_state : e_state b = e_state a;
  kw_reason : e_wait_reason b = e_wait_reason a;
  kw_expires : e_wait_expires_at b = e_wait_expires_at a;
  kw_session : e_session_id b = e_session_id a
}.

Lemma bound_columns e key x : key <> "session_id"%string -> keeps_wait e (apply_exec_field e (SetColumns [(key, x)])).
Proof.
  intros Hk. destruct e. split; try done. apply session_kept. intros kv Hkv. by apply list_elem_of_singleton in Hkv as ->.
Qed.

Lemma bound_kept e reason v : keeps_wait e (apply_exec_values e
  (if bool_decide (reason = "CONNECTION")
   then SetColumns [("bound_connection_id", JNull)]
        :: (if is_text (cv_origin_client_id v)
            then [SetColumns [("bound_client_id", JStr (default "" (cv_origin_client_id v)))]] else [])
   else [])%string).
Proof.
  destruct (bool_decide _); [|by split]. pose proof (bound_columns e "bound_connection_id" JNull) as [] ; [done|].
  destruct (is_text _); simpl; [|by split].
  destruct (bound_columns (apply_exec_field e (SetColumns [("bound_connection_id"%string, JNull)])) "bound_client_id"
    (JStr (default ""%string (cv_origin_client_id v)))); [done|]. split; congruence.
Qed.

Lemma staged_row e values id reason v revision :
  waiting_row e (set_exec_revision (apply_exec_values e (staged_values values id reason v)) revision)
    revision values id.
Proof.
  unfold staged_values. rw !apply_exec_values_app. destruct (values_identity values e) as (E1 & E2 & E3 & _).
  set (a := apply_exec_values e values) in *. set (b := apply_exec_values a [SetCheckpoint (Some id)]).
  destruct (bound_kept b reason v) as [K1 K2 K3 K4 K5 K6 K7 K8]. unfold b in K1, K2, K3, K4, K5, K6, K7, K8 |- *.
  set (c := apply_exec_values _ _) in K1, K2, K3, K4, K5, K6, K7, K8 |- *. 
  assert (Hs : waiting_row e c (e_revision c) values id).
  { fold a in E1, E2, E3. split; fold a; rw ?K1 ?K2 ?K3 ?K4 ?K5 ?K6 ?K7 ?K8; by destruct a. }
  destruct Hs. by destruct c.
Qed.

Lemma wait_cas_ok execution_id revision values db db' e' :
  wait_cas execution_id revision values db = Ok (db', Some e') ->
  exists e, get_execution (wd_agents db) execution_id = Some e /\ e_revision e = revision /\
    e' = set_exec_revision (apply_exec_values e values) (revision + 1) /\
    db' = {| wd_resume := with_agents (wd_resume db)
               (with_executions (wd_agents db) (<[execution_id := e']> (db_executions (wd_agents db))));
             wd_transcripts := wd_transcripts db |}.
Proof.
  unfold wait_cas, compare_and_set_execution, update_execution_where, get_execution.
  destruct (db_executions (wd_agents db) !! execution_id) as [e|]; [|done].
  destruct (e_revision e =? revision) eqn:Er; [|done]. destruct (exec_checks _); [|done].
  intros H. injection H as <- <-. breflect. eauto.
Qed.

(** ** Well-formed databases *)

Record wait_wf (db : WaitDB) : Prop := {
  ww_store : store_wf digest (wd_transcripts db);
  ww_tables id : rd_checkpoints (wd_resume db) !! id = None <-> td_checkpoints (wd_transcripts db) !! id = None;
  ww_rows id k t : rd_checkpoints (wd_resume db) !! id = Some k -> td_checkpoints (wd_transcripts db) !! id = Some t ->
    ck_id k = id /\ exists l, materialize_checkpoint_transcript digest (wd_transcripts db) t = Ok l /\
      ck_transcript k = map as_message l;
  ww_pending id : rd_checkpoints (wd_resume db) !! id = None -> default [] (rd_pending (wd_resume db) !! id) = [];
  ww_keyed : keyed (wd_resume db);
  ww_executions id e : get_execution (wd_agents db) id = Some e -> e_id e = id
}.

(** The execution waits at a checkpoint that can be resumed from. *)
Record safe_point (db : WaitDB) (e : ExecutionRow) (id : string) (parent : option string)
    (l : list InferenceMessage) (rows : list CheckpointPendingInvocation) : Prop := {
  sp_execution : get_execution (wd_agents db) (e_id e) = Some e;
  sp_current : e_current_checkpoint_id e = Some id;
  sp_checkpoint : exists k t, rd_checkpoints (wd_resume db) !! id = Some k /\
    td_checkpoints (wd_transcripts db) !! id = Some t /\
    ck_execution_id k = e_id e /\ ck_execution_revision k = e_revision e /\ ck_task_id k = e_task_id e /\
    ck_branch_id k = e_branch_id e /\ e_wait_reason e = Some (ck_wait_reason k) /\ kt_parent t = parent /\
    exists l', materialize_checkpoint_transcript digest (wd_transcripts db) t = Ok l' /\
      same_messages l' l = true /\ ck_transcript k = map as_message l';
  sp_pending : default [] (rd_pending (wd_resume db) !! id) = rows
}.

(** A commit that was not a replay: the row, and what was staged for it. *)
Lemma commit_new now execution_id revision values v refs db db' e e' : wait_wf db ->
  get_execution (wd_agents db) execution_id = Some e -> e_revision e = revision ->
  commit_waiting_checkpoint digest now execution_id revision values v refs db = Ok (db', e') ->
  exists db1, staged_wait now e revision values v refs db db1 /\
    waiting_row e e' (revision + 1) values (cv_checkpoint_id v) /\
    db' = {| wd_resume := with_agents (wd_resume db1)
               (with_executions (wd_agents db) (<[execution_id := e']> (db_executions (wd_agents db))));
             wd_transcripts := wd_transcripts db1 |}.
Proof.
  intros W He Hrev H. unfold commit_waiting_checkpoint in H. apply wait_get_ok in H.
  apply wait_some_ok in H as (e0 & E0 & H). rw He in E0. injection E0 as <-.
  assert (En : (e_revision e =? revision + 1) = false) by lia. rw En in H. clear En.
  apply conflict_bind_ok in H as [_ H]. apply wait_bind_ok in H as (db1 & out & Hs & H).
  apply stage_ok in Hs as [-> Hs]; [|by apply W|by apply W].
  apply wait_bind_ok in H as (db2 & o & Hcas & H). apply wait_some_ok in H as (e2 & -> & H).
  apply conflict_bind_ok in H as [_ H]. injection H as <- <-.
  apply wait_cas_ok in Hcas as (e1 & He1 & _ & -> & ->). exists db1. split; [done|].
  unfold wd_agents in He1 |- *. rw (sw_agents _ _ _ _ _ _ _ _ Hs) in He1 |- *.
  unfold wd_agents in He. rw He in He1. injection He1 as <-. split; [|done]. apply staged_row.
Qed.

Lemma written_ok db snapshot parent t1 record : store_wf digest db ->
  write_transcript_representation digest snapshot parent db = Ok (t1, record) ->
  exists l, canonical_transcript_messages snapshot = Some l /\ store_wf digest t1 /\ grows db t1 /\
    kept digest t1 record l.
Proof.
  intros W H. destruct (canonical_transcript_messages snapshot) as [l|] eqn:El.
  - pose proof (write_safe digest digest_hex db snapshot parent l (python_store _ _ W) El (Forall_true _ _ (fun _ => I))) as S.
    unfold safe_by in S. rw H in S. exists l. by destruct S as ([? _] & ? & ?).
  - unfold write_transcript_representation in H. by rw El in H.
Qed.

Lemma reference_reads db ref v parent now l : repr_of digest db ref v l ->
  materialize_checkpoint_transcript digest db (reference_row ref v parent now) = Ok l.
Proof. intros H. by apply referenced_messages_iff. Qed.

Lemma keyed_store a b : rd_store b = rd_store a -> keyed a -> keyed b.
Proof. intros E H id i. unfold get_invocation. simpl. unfold rd_invocations. rw E. apply H. Qed.

(** The new rows, and the old ones as they were. *)
Record committed (db db' : WaitDB) (e e' : ExecutionRow) (v : CheckpointValues) (refs : list PendingRef)
    (l : list InferenceMessage) : Prop := {
  cm_wf : wait_wf db';
  cm_point : safe_point db' e' (cv_checkpoint_id v) (e_current_checkpoint_id e) l
    (default [] (rd_pending (wd_resume db') !! cv_checkpoint_id v));
  cm_frozen : frozen_batch (wd_resume db) (e_id e) refs
    (default [] (rd_pending (wd_resume db') !! cv_checkpoint_id v));
  cm_new : rd_checkpoints (wd_resume db) !! cv_checkpoint_id v = None;
  cm_kept id : id <> cv_checkpoint_id v ->
    rd_checkpoints (wd_resume db') !! id = rd_checkpoints (wd_resume db) !! id /\
    rd_pending (wd_resume db') !! id = rd_pending (wd_resume db) !! id;
  cm_row k : rd_checkpoints (wd_resume db') !! cv_checkpoint_id v = Some k ->
    ck_session_id k = e_session_id e /\ ck_wait_expires_at k = cv_wait_expires_at v;
  cm_tables : other_tables (wd_resume db) (wd_resume db')
}.

(** The checkpoint that was added reads as [l'], the others as before. *)
Lemma added_wf db db' t1 id k row l' : wait_wf db -> store_wf digest t1 -> grows (wd_transcripts db) t1 ->
  materialize_checkpoint_transcript digest t1 row = Ok l' -> ck_id k = id -> ck_transcript k = map as_message l' ->
  wd_transcripts db' = put_checkpoint t1 id row ->
  rd_checkpoints (wd_resume db') = <[id := k]> (rd_checkpoints (wd_resume db)) ->
  (forall id', id' <> id -> rd_pending (wd_resume db') !! id' = rd_pending (wd_resume db) !! id') ->
  rd_store (wd_resume db') = rd_store (wd_resume db) ->
  (forall x e, get_execution (wd_agents db') x = Some e -> e_id e = x) -> wait_wf db'.
Proof.
  intros W W1 G1 Hread Hck Htr Et Erd Ho Hst He.
  assert (G2 : rows_grow t1 (put_checkpoint t1 id row)) by by split. split.
  - rw Et. by eapply put_checkpoint_wf.
  - intros x. rw Erd Et. simpl. rw (gr_checkpoints _ _ G1) !lookup_insert_None. by rw (ww_tables _ W x).
  - intros x k' t'. rw Erd Et. simpl. rw (gr_checkpoints _ _ G1). destruct (decide (x = id)) as [->|Hne].
    + rw !lookup_insert_eq. intros E1 E2. injection E1 as <-. injection E2 as <-. split; [done|].
      exists l'. split; [by eapply checkpoint_grows|done].
    + rw !lookup_insert_ne; [done..|]. intros E1 E2. destruct (ww_rows _ W _ _ _ E1 E2) as (? & l2 & Hl2 & ?).
      split; [done|]. exists l2. split; [|done]. eapply checkpoint_grows; [exact G2|].
      eapply checkpoint_grows; [exact (gr_rows _ _ G1)|done].
  - intros x Hx. rw Erd in Hx. apply lookup_insert_None in Hx as [Hx Hne]. rw Ho; [done|]. by apply W.
  - by eapply keyed_store; [|apply W].
  - done.
Qed.

(** What was staged, with the row that was published for it. *)
Lemma staged_committed now execution_id revision values v refs db db1 db' e e' : wait_wf db ->
  get_execution (wd_agents db) execution_id = Some e ->
  staged_wait now e revision values v refs db db1 ->
  waiting_row e e' (revision + 1) values (cv_checkpoint_id v) ->
  db' = {| wd_resume := with_agents (wd_resume db1)
             (with_executions (wd_agents db) (<[execution_id := e']> (db_executions (wd_agents db))));
           wd_transcripts := wd_transcripts db1 |} ->
  exists snapshot l, cv_snapshot v = Some snapshot /\ canonical_transcript_messages snapshot = Some l /\
    committed db db' e e' v refs l.
Proof.
  intros W He [Hc Hw Hn Hb Ho Ht Ha] R E.
  destruct Hw as (ref & version & snapshot & t1 & Hs & Hw & Hnt & Et & Erd).
  destruct (written_ok _ _ _ _ _ (ww_store _ W) Hw) as (l & Hl & W1 & G1 & l' & Hr & Hsame). simpl in Hr.
  exists snapshot, l. split; [done|]. split; [done|]. rw (repr_materialize _ _ _ _ _ Hr) in Erd.
  pose proof (reference_reads _ _ _ (e_current_checkpoint_id e) now _ Hr) as Hread.
  pose proof (ww_executions _ W _ _ He) as Hid. destruct R as [R1 R2 R3 R4 R5 R6 R7 R8 R9].
  assert (Hex : get_execution (wd_agents db') (e_id e') = Some e')
    by (rw E R1 Hid; unfold get_execution; simpl; apply lookup_insert_eq).
  split; [|split; [done|done| |done]|..]; try (rw E; simpl; done).
  - lazymatch type of Erd with _ = <[_ := ?k]> _ => apply (added_wf db db' t1 (cv_checkpoint_id v) k
      (reference_row ref version (e_current_checkpoint_id e) now) l') end; try done; try (rw E; simpl; done).
    + rw E. apply (ot_store _ _ Ht).
    + intros x ex. rw E. unfold get_execution. simpl. destruct (decide (x = execution_id)) as [->|Hne].
      * rw lookup_insert_eq. intros Heq. injection Heq as <-. by rw R1.
      * rw lookup_insert_ne; [done|]. apply W.
  - eexists _, _. rw E. simpl. rw Erd Et. simpl. rw !lookup_insert_eq.
    split; [done|]. split; [done|]. simpl. rw R1 R2 R3 R4 R7.
    rw (values_reason e values); [by apply (cc_reason _ _ _ _ Hc)|]. split_and!; try done.
    exists l'. split_and!; [|by apply same_content_python|done].
    eapply checkpoint_grows; [|exact Hread]. by split.
  - done.
  - intros x Hne. rw E. simpl. rw Erd. split; [by apply lookup_insert_ne|by apply Ho].
  - intros k. rw E. simpl. rw Erd lookup_insert_eq. intros Ek. by injection Ek as <-.
  - destruct Ht. rw E. by split.
Qed.

Lemma commit_committed now execution_id revision values v refs db db' e e' : wait_wf db ->
  get_execution (wd_agents db) execution_id = Some e -> e_revision e = revision ->
  commit_waiting_checkpoint digest now execution_id revision values v refs db = Ok (db', e') ->
  exists snapshot l, cv_snapshot v = Some snapshot /\ canonical_transcript_messages snapshot = Some l /\
    committed db db' e e' v refs l.
Proof.
  intros W He Hrev H. destruct (commit_new _ _ _ _ _ _ _ _ _ _ W He Hrev H) as (db1 & Hs & R & E).
  by eapply staged_committed.
Qed.

(** ** Theorems *)

(** [waiting_commit]: a commit for an execution at the expected revision, when it returns,
    leaves a safe point: the execution, one revision later, points at a new checkpoint of its
    own lineage with the wait reason of its row and its previous checkpoint as parent, whose
    transcript reads as the messages that were given, and whose pending rows are the named
    invocations exactly as they are stored, by ordinal; other checkpoints are unchanged and the
    database is well formed again. *)
Theorem waiting_commit now execution_id revision values v refs db db' e e' : wait_wf db ->
  get_execution (wd_agents db) execution_id = Some e -> e_revision e = revision ->
  commit_waiting_checkpoint digest now execution_id revision values v refs db = Ok (db', e') ->
  wait_wf db' /\ e_revision e' = revision + 1 /\
  exists snapshot l rows, cv_snapshot v = Some snapshot /\ canonical_transcript_messages snapshot = Some l /\
    safe_point db' e' (cv_checkpoint_id v) (e_current_checkpoint_id e) l rows /\
    frozen_batch (wd_resume db) execution_id refs rows /\
    (forall id, id <> cv_checkpoint_id v ->
       rd_checkpoints (wd_resume db') !! id = rd_checkpoints (wd_resume db) !! id /\
       rd_pending (wd_resume db') !! id = rd_pending (wd_resume db) !! id).
Proof.
  intros W He Hrev H. destruct (commit_new _ _ _ _ _ _ _ _ _ _ W He Hrev H) as (db1 & _ & R & _).
  destruct (commit_committed _ _ _ _ _ _ _ _ _ _ W He Hrev H) as (snapshot & l & Hs & Hl & [C1 C2 C3 _ C5 _ _]).
  split; [done|]. split; [apply R|]. exists snapshot, l, (default [] (rd_pending (wd_resume db') !! cv_checkpoint_id v)).
  rw (ww_executions _ W _ _ He) in C3. by split_and!.
Qed.

(** The committed rows pass the verification of a replay. *)
Lemma verify_accepts db db' e e' v refs snapshot l revision : committed db db' e e' v refs l -> wait_wf db ->
  cv_snapshot v = Some snapshot -> canonical_transcript_messages snapshot = Some l ->
  e_revision e' = revision + 1 -> e_state e' = "WAITING" -> e_session_id e' = e_session_id e ->
  verify_committed_waiting_checkpoint digest e' revision v refs db' = Ok (db', tt).
Proof.
  intros [_ P [F _ _ _] _ _ Hrow _] W Hs Hl Hrev Hst Hses.
  destruct P as [_ Pc (k & t & Ek & Et & K1 & K2 & K3 & K4 & _ & _ & l' & Hr & Hm & _) _].
  apply frozen_identity in F; [|by apply W]. destruct (Hrow _ Ek) as [Hsk _].
  unfold verify_committed_waiting_checkpoint, mbind, wait_bind, wait_get, conflict_unless, wait_check, wait_read.
  rw Ek. simpl. rw Et. simpl. rw K1 K2 K3 K4 Hrev Hsk Hses !bool_decide_true // Z.eqb_refl. simpl.
  rw Hs. simpl. rw Hr Hl. simpl. rw Hm. simpl. by rw bool_decide_true.
Qed.

(** [commit_replayed]: a caller that lost the answer and calls again with the same arguments,
    at any later time, gets the committed row and changes nothing. *)
Theorem commit_replayed now now' execution_id revision values v refs db db' e e' : wait_wf db ->
  get_execution (wd_agents db) execution_id = Some e -> e_revision e = revision ->
  commit_waiting_checkpoint digest now execution_id revision values v refs db = Ok (db', e') ->
  e_state e' = "WAITING" -> e_session_id e' = e_session_id e ->
  commit_waiting_checkpoint digest now' execution_id revision values v refs db' = Ok (db', e').
Proof.
  intros W He Hrev H Hst Hses. destruct (commit_new _ _ _ _ _ _ _ _ _ _ W He Hrev H) as (db1 & _ & R & _).
  destruct (commit_committed _ _ _ _ _ _ _ _ _ _ W He Hrev H) as (snapshot & l & Hs & Hl & C).
  pose proof (verify_accepts _ _ _ _ _ _ _ _ _ C W Hs Hl (wr_revision _ _ _ _ _ R) Hst Hses) as V.
  pose proof (sp_execution _ _ _ _ _ _ (cm_point _ _ _ _ _ _ _ C)) as Hex.
  rw (wr_id _ _ _ _ _ R) (ww_executions _ W _ _ He) in Hex.
  unfold commit_waiting_checkpoint, wait_get. unfold mbind at 1, wait_bind at 1. rw Hex.
  unfold mbind at 1, wait_bind at 1. simpl. rw (wr_revision _ _ _ _ _ R) Z.eqb_refl.
  unfold mbind, wait_bind. by rw V.
Qed.

Lemma rows_wf_moved ids ids' a b : rows_wf ids a -> (forall x, x ∈ ids' -> x ∈ ids) ->
  rd_store b = rd_store a -> rd_tool_results b = rd_tool_results a -> rd_tool_calls b = rd_tool_calls a ->
  rows_wf ids' b.
Proof.
  intros [Hk Hp Hr] Hi E1 E2 E3. split.
  - by eapply keyed_store.
  - intros id i Hin. unfold rd_invocations. rw E1. apply Hp, Hi, Hin.
  - intros key r. rw E2 E3. apply Hr.
Qed.

(** C25 committed_wait_resumable: when the execution's wait deadline is the checkpoint's, its
    task has an open budget, and the pending invocations are parked or settled with results of
    their own calls, the commit leaves an execution that the resume protocol accepts: it loads
    the new checkpoint as the current one and it is [resumable], the condition under which a
    plan built for it can be consumed. *)
Theorem committed_wait_resumable now execution_id revision values v refs db db' e e' : wait_wf db ->
  get_execution (wd_agents db) execution_id = Some e -> e_revision e = revision ->
  commit_waiting_checkpoint digest now execution_id revision values v refs db = Ok (db', e') ->
  e_session_id e' = e_session_id e -> e_wait_expires_at e' = cv_wait_expires_at v ->
  rows_wf (map rf_invocation_id refs) (wd_resume db) -> e_task_id e <> Some ""%string ->
  (forall t, e_task_id e = Some t ->
     exists b, get_task_budget (wd_agents db) t = Some b /\ tb_state (row_budget b) = OPEN) ->
  resumable (wd_resume db') execution_id (cv_checkpoint_id v) /\
  exists k, load_current_checkpoint execution_id (wd_resume db') = Ok (Some k) /\ ck_id k = cv_checkpoint_id v.
Proof.
  intros W He Hrev H Hses Hexp Hrows Htask Hbud.
  destruct (commit_new _ _ _ _ _ _ _ _ _ _ W He Hrev H) as (db1 & Hst & R & E).
  destruct (commit_committed _ _ _ _ _ _ _ _ _ _ W He Hrev H) as (snapshot & l & Hs & Hl & C). clear H.
  destruct C as [W' P [F N1 N2 N3] _ _ Hrow [T1 T2 T3 T4 T5]].
  pose proof (ww_executions _ W _ _ He) as Hid.
  destruct P as [Hex Pc (k & t & Ek & Et & K1 & K2 & K3 & K4 & K5 & _) _].
  rw (wr_id _ _ _ _ _ R) Hid in Hex. apply frozen_identity in F; [|by apply W].
  destruct (identity_keys _ _ F) as (_ & I2 & I3). destruct (Hrow _ Ek) as [Hsk Hek].
  assert (Hck : ck_id k = cv_checkpoint_id v) by by apply (ww_rows _ W' _ _ _ Ek Et). split; [split|].
  - rw I2. apply (rows_wf_moved (map rf_invocation_id refs) _ (wd_resume db)); try done.
    intros x. unfold by_ordinal. by rw sort_by_perm.
  - by rw I2.
  - by rw I3.
  - intros e0 He0. rw Hex in He0. injection He0 as <-. by rw (wr_id _ _ _ _ _ R) (wr_task _ _ _ _ _ R).
  - intros e0 k0 He0 Hk0. rw Hex in He0. injection He0 as <-. rw Ek in Hk0. injection Hk0 as <-.
    split_and!; [congruence|done|done|congruence].
  - intros e0 t0 He0 Ht0. rw Hex in He0. injection He0 as <-. rw (wr_task _ _ _ _ _ R) in Ht0.
    destruct (Hbud _ Ht0) as (b & Hb & Hopen). exists b. split; [|done]. rw E. exact Hb.
  - exists k. split; [|done]. unfold load_current_checkpoint. rw Hex Pc. simpl.
    rw (cc_id _ _ _ _ (sw_checked _ _ _ _ _ _ _ _ Hst)). simpl. rw Ek K1 K2 bool_decide_true // Z.eqb_refl. done.
Qed.
End Commits.

(** ** An execution that starts to wait for its client *)

Definition running_execution : ExecutionRow := {|
  e_id := "e1"; e_agent_id := "agent"; e_task_id := None; e_branch_id := None;
  e_parent_execution_id := None; e_state := "RUNNING"; e_wait_reason := None;
  e_revision := 3; e_owner_instance_id := None; e_lease_expires_at := None;
  e_lease_generation := 0; e_current_checkpoint_id := None; e_wait_expires_at := None;
  e_completed_at := None; e_error := None; e_payload := JObj [("session_id", JStr "s")] |}.

Definition wait_start : WaitDB := {|
  wd_resume := {|
    rd_agents := {| db_tasks := ∅; db_budgets := ∅; db_reservations := ∅;
                    db_executions := {["e1" := running_execution]};
                    db_branches := ∅; db_allocator := None; db_bindings := ∅ |};
    rd_claims := ∅; rd_checkpoints := ∅; rd_pending := ∅; rd_iterations := ∅;
    rd_tool_calls := ∅; rd_tool_results := ∅; rd_store := Sql.put (Sql.empty true) parked_invocation |};
  wd_transcripts := empty_store |}.

Definition wait_values : ExecValues :=
  [SetExecState "WAITING"; SetWaitReason (Some "CONNECTION"%string); SetWaitExpiresAt (Some 100)].

Definition wait_checkpoint : CheckpointValues := {|
  cv_checkpoint_id := "k1"; cv_execution_id := Some "e1"%string; cv_execution_revision := Some 4;
  cv_session_id := Some "s"%string; cv_task_id := None; cv_branch_id := None;
  cv_wait_reason := Some "CONNECTION"%string; cv_parent_checkpoint_id := None; cv_iteration := 0;
  cv_remaining := Some (Finite 50); cv_wait_expires_at := Some 100; cv_origin_client_id := Some "client"%string;
  cv_origin_connection_id := Some "K1"%string; cv_snapshot := Some demo_transcript; cv_transcript_ref := None;
  cv_transcript_version := None; cv_trace_id := None; cv_request_id := None |}.

Definition wait_refs : list PendingRef :=
  [{| rf_ordinal := 0; rf_invocation_id := "inv"; rf_tool_call_id := "call"; rf_capability_id := "cap" |}].

Definition wait_commit := commit_waiting_checkpoint demo_digest 5 "e1" 3 wait_values wait_checkpoint wait_refs.

Lemma parked_keyed db : rd_store db = Sql.put (Sql.empty true) parked_invocation -> keyed db.
Proof.
  intros E id c. unfold get_invocation; simpl. rw E. unfold Sql.get; simpl.
  rw lookup_insert_Some lookup_empty. by intros [[<- <-]|[_ [=]]].
Qed.

Lemma wait_start_wf : wait_wf demo_digest wait_start.
Proof.
  split; [apply empty_store_wf|done|done|done|by apply parked_keyed|].
  intros id e. unfold get_execution. simpl. rw lookup_insert_Some lookup_empty. by intros [[<- <-]|[_ [=]]].
Qed.

Lemma wait_start_rows : rows_wf (map rf_invocation_id wait_refs) (wd_resume wait_start).
Proof.
  split; [by apply parked_keyed| |done].
  intros id i _. unfold rd_invocations. simpl. rw lookup_insert_Some lookup_empty.
  intros [[_ <-]|[_ [=]]]. by right.
Qed.

(** The commit returns a row that waits, in the same session, until the checkpoint's deadline. *)
Definition waits (r : result WaitError (WaitDB * ExecutionRow)) : bool :=
  match r with
  | Ok (_, e) => bool_decide (e_state e = "WAITING") && bool_decide (e_session_id e = "s") &&
                 bool_decide (e_wait_expires_at e = Some 100)
  | Err _ => false
  end%string.

Lemma wait_commits : waits (wait_commit wait_start) = true.
Proof. vm_compute. reflexivity. Qed.

Lemma waiting_commit_witness : wait_wf demo_digest wait_start /\
  exists db' e' l rows, wait_commit wait_start = Ok (db', e') /\ e_revision e' = 4 /\
    safe_point demo_digest db' e' "k1" None l rows /\ frozen_batch (wd_resume wait_start) "e1" wait_refs rows.
Proof.
  split; [exact wait_start_wf|].
  pose proof (fun db' e' => waiting_commit demo_digest demo_is_hex 5 "e1" 3 wait_values wait_checkpoint wait_refs
    wait_start db' running_execution e' wait_start_wf eq_refl eq_refl) as T.
  pose proof wait_commits as Hc. fold wait_commit in T. revert T Hc. generalize (wait_commit wait_start).
  intros [[db' e']|x] T Hc; [|discriminate Hc].
  destruct (T db' e' eq_refl) as (_ & Hr & snapshot & l & rows & _ & _ & Hs & Hf & _).
  exists db', e', l, rows. by split_and!.
Defined.

Lemma commit_replayed_witness : exists db' e', wait_commit wait_start = Ok (db', e') /\
  commit_waiting_checkpoint demo_digest 9 "e1" 3 wait_values wait_checkpoint wait_refs db' = Ok (db', e').
Proof.
  pose proof (fun db' e' => commit_replayed demo_digest demo_is_hex 5 9 "e1" 3 wait_values wait_checkpoint wait_refs
    wait_start db' running_execution e' wait_start_wf eq_refl eq_refl) as T.
  pose proof wait_commits as Hc. fold wait_commit in T. revert T Hc. generalize (wait_commit wait_start).
  intros [[db' e']|x] T Hc; [|discriminate Hc]. unfold waits in Hc. breflect. exists db', e'. split; [done|].
  by apply T.
Defined.

Lemma committed_wait_resumable_witness : exists db' e', wait_commit wait_start = Ok (db', e') /\
  resumable (wd_resume db') "e1" "k1".
Proof.
  pose proof (fun db' e' => committed_wait_resumable demo_digest demo_is_hex 5 "e1" 3 wait_values wait_checkpoint
    wait_refs wait_start db' running_execution e' wait_start_wf eq_refl eq_refl) as T.
  pose proof wait_commits as Hc. fold wait_commit in T. revert T Hc. generalize (wait_commit wait_start).
  intros [[db' e']|x] T Hc; [|discriminate Hc]. unfold waits in Hc. breflect. exists db', e'. split; [done|].
  apply (T db' e' eq_refl); [done|done|exact wait_start_rows|done|done].
Defined.
