(* ===== verification/GcDryRun.v ===== *)
(** * The garbage collector's dry run
    (src/se/src/runtimes/agent/gc_dry_run.py)

    Before the history of a task is deleted, a read-only pass collects every row of the task's
    graph, the references between the rows and the references into it from outside, and
    classifies each row: to retain, a candidate, or (when anything is inconsistent) failed
    closed.  The tables hold the columns the pass reads, and those through which other rows
    refer to the graph and that it does not read (the branch of a checkpoint, the projections
    of tool media); the order in which a SELECT returns rows does not matter, since problems
    are reported as a sorted set and the references are followed in sorted order. *)

From S2P Require Import Prelude Canonical PythonValues.

(** ** The tables *)

Record GcTask := { gt_status : string; gt_parent_task_id : option string }.
Record GcBranch := {
  gb_task_id : string;
  gb_parent_branch_id : option string;
  gb_base_execution_id : option string;
  gb_base_checkpoint_id : option string;
  gb_current_execution_id : option string
}.
Record GcExecution := {
  ge_task_id : option string;
  ge_branch_id : option string;
  ge_parent_execution_id : option string;
  ge_retry_of_execution_id : option string;
  ge_base_execution_id : option string;
  ge_base_checkpoint_id : option string;
  ge_current_checkpoint_id : option string;
  ge_state : string
}.
Record GcCheckpoint := {
  gk_task_id : option string;
  gk_execution_id : string;
  gk_branch_id : option string;
  gk_parent_checkpoint_id : option string;
  gk_transcript_ref : option string;
  gk_transcript_version : option Z
}.
Record GcPending := { gp_invocation_id : string; gp_tool_call_id : string; gp_capability_id : string }.
Record GcClaim := { gl_execution_id : string; gl_checkpoint_id : string; gl_state : string }.
Record GcToolRow := {
  gw_execution_id : string;
  gw_iteration_id : string;
  gw_invocation_id : string;
  gw_tool_call_id : string;
  gw_capability_id : string;
  gw_commit_state : string
}.
Record GcInvocation := {
  gi_execution_id : option string;
  gi_tool_call_id : option string;
  gi_capability_id : string;
  gi_state : string;
  gi_remote_outcome_state : option string
}.
Record GcAttempt := { ga_invocation_id : string; ga_state : string }.
Record GcFork := {
  gf_source_branch_id : string;
  gf_branch_id : string;
  gf_source_execution_id : string;
  gf_execution_id : string;
  gf_source_checkpoint_id : string
}.
Record GcRetry := {
  gr_branch_id : string;
  gr_source_execution_id : string;
  gr_execution_id : string;
  gr_source_checkpoint_id : option string
}.
Record GcAggregate := {
  gg_target_branch_id : string;
  gg_execution_id : string;
  gg_source_branch_snapshots : json;
  gg_source_execution_snapshots : json
}.
Record GcRepresentation := {
  gn_payload_root_ref : string;
  gn_parent_transcript_ref : option string;
  gn_parent_transcript_version : option Z
}.
Record GcPayload := { gy_chunk_id : string; gy_parent_payload_root_ref : option string }.

(** A tool medium that was copied into the asset store; the dry run does not read this table. *)
Record GcProjection := {
  gj_source_result_id : string;
  gj_execution_id : string;
  gj_invocation_id : string
}.

(** Budgets by state, iterations by execution; tool results share the columns of tool calls. *)
Record GcDB := {
  g_tasks : gmap string GcTask;
  g_budgets : gmap string string;
  g_reservations : gset (string * string * string);
  g_branches : gmap string GcBranch;
  g_contexts : gset string;
  g_executions : gmap string GcExecution;
  g_checkpoints : gmap string GcCheckpoint;
  g_pending : gmap (string * Z) GcPending;
  g_claims : gmap string GcClaim;
  g_iterations : gmap string string;
  g_tool_calls : gmap string GcToolRow;
  g_tool_results : gmap string GcToolRow;
  g_invocations : gmap string GcInvocation;
  g_attempts : gmap string GcAttempt;
  g_forks : gmap (string * string) GcFork;
  g_retries : gmap (string * string) GcRetry;
  g_aggregates : gmap (string * string) GcAggregate;
  g_representations : gmap (string * Z) GcRepresentation;
  g_payloads : gmap string GcPayload;
  g_chunks : gset string;
  g_projections : gmap string GcProjection
}.

(** ** The report *)

Inductive GcDryRunClassification := RETAIN | CANDIDATE | FAIL_CLOSED.
#[global] Instance GcDryRunClassification_eq_dec : EqDecision GcDryRunClassification.
Proof. solve_decision. Defined.

Definition classification_value (c : GcDryRunClassification) : string :=
  match c with RETAIN => "RETAIN" | CANDIDATE => "CANDIDATE" | FAIL_CLOSED => "FAIL_CLOSED" end.

(** [GcRowKey]: a kind and an identity, in that order. *)
Abbreviation GcRowKey := (string * string)%type.

Definition row_ltb (a b : GcRowKey) : bool :=
  String.ltb a.1 b.1 || (bool_decide (a.1 = b.1) && String.ltb a.2 b.2).

Record GcDryRunItem := {
  it_key : GcRowKey;
  it_classification : GcDryRunClassification;
  it_reason_code : string;
  it_source : string
}.

Record GcDryRunReport := { gc_task_id : string; gc_items : list GcDryRunItem; gc_fingerprint : string }.

Definition is_candidate (i : GcDryRunItem) : bool := bool_decide (it_classification i = CANDIDATE).
Definition has_candidates (r : GcDryRunReport) : bool := existsb is_candidate (gc_items r).
Definition failed_closed (r : GcDryRunReport) : bool :=
  existsb (fun i => bool_decide (it_classification i = FAIL_CLOSED)) (gc_items r).

Definition fingerprint (items : list GcDryRunItem) : string :=
  json_fingerprint (JArr (map (fun i =>
    JObj [("row_kind", JStr (it_key i).1); ("row_identity", JStr (it_key i).2);
          ("classification", JStr (classification_value (it_classification i)));
          ("reason_code", JStr (it_reason_code i)); ("root_or_edge_source", JStr (it_source i))]%string) items)).

Definition make_report (task_id : string) (items : list GcDryRunItem) : GcDryRunReport :=
  {| gc_task_id := task_id; gc_items := items; gc_fingerprint := fingerprint items |}.

Definition reason_for_retained (kind : string) (active_task : bool) : string :=
  if bool_decide (kind = "task") then (if active_task then "ACTIVE_EXECUTION" else "POLICY_RETAINED_HISTORY")
  else if bool_decide (kind ∈ ["task_budget"; "task_budget_reservation"]) then "REPLAY_IDEMPOTENCY_AUTHORITY"
  else if bool_decide (kind ∈ ["branch"; "branch_context"; "resume_claim"; "fork_admission"; "retry_admission"; "aggregate_admission"])
  then "CLAIM_OR_ADMISSION_PROVENANCE"
  else if bool_decide (kind ∈ ["iteration"; "tool_call"; "tool_result"; "checkpoint"]) then "EXECUTION_REPLAY_EVIDENCE"
  else if bool_decide (kind = "checkpoint_pending_invocation") then "CHECKPOINT_PENDING_INVOCATION_AUTHORITY"
  else if bool_decide (kind ∈ ["capability_invocation"; "capability_invocation_attempt"]) then "CAPABILITY_SIDE_EFFECT_AUTHORITY"
  else if bool_decide (kind ∈ ["transcript_representation"; "transcript_payload"; "transcript_chunk"]) then "TRANSCRIPT_REACHABILITY"
  else if bool_decide (kind = "execution") then "EXECUTION_LINEAGE"
  else "POLICY_RETAINED_HISTORY"%string.

(** ** The rows of the task's graph *)

(** SELECT ... WHERE. *)
Definition rows_where {K A} `{Countable K} (p : K -> A -> bool) (m : gmap K A) : list (K * A) :=
  List.filter (fun kv => p kv.1 kv.2) (map_to_list m).

Definition is_in (l : list string) (x : string) : bool := bool_decide (x ∈ l).
Definition opt_in (l : list string) (o : option string) : bool := match o with Some x => is_in l x | None => false end.

(** [str(value)] of an optional column. *)
Definition text (o : option string) : string := default "None"%string o.

Definition join_bar (parts : list string) : string := String.concat "|" parts.

Section Graph.
Context (db : GcDB) (task_id : string).

Definition in_task {A} (k : string * string) (_ : A) : bool := bool_decide (k.1 = task_id).

Definition reservation_rows : list (string * string * string) :=
  List.filter (fun k => bool_decide (k.1.1 = task_id)) (elements (g_reservations db)).
Definition branch_rows := rows_where (fun _ b => bool_decide (gb_task_id b = task_id)) (g_branches db).
Definition execution_rows := rows_where (fun _ e => bool_decide (ge_task_id e = Some task_id)) (g_executions db).
Definition fork_rows := rows_where in_task (g_forks db).
Definition retry_rows := rows_where in_task (g_retries db).
Definition aggregate_rows := rows_where in_task (g_aggregates db).

Definition branch_ids := map fst branch_rows.
Definition execution_ids := map fst execution_rows.

Definition context_rows : list string := List.filter (is_in branch_ids) (elements (g_contexts db)).
Definition checkpoint_rows :=
  rows_where (fun _ c => bool_decide (gk_task_id c = Some task_id) || is_in execution_ids (gk_execution_id c)) (g_checkpoints db).
Definition checkpoint_ids := map fst checkpoint_rows.
Definition pending_rows := rows_where (fun k _ => is_in checkpoint_ids k.1) (g_pending db).
Definition claim_rows := rows_where (fun _ c => is_in execution_ids (gl_execution_id c)) (g_claims db).
Definition iteration_rows := rows_where (fun _ e => is_in execution_ids e) (g_iterations db).
Definition tool_call_rows := rows_where (fun _ r => is_in execution_ids (gw_execution_id r)) (g_tool_calls db).
Definition tool_result_rows := rows_where (fun _ r => is_in execution_ids (gw_execution_id r)) (g_tool_results db).

Definition referenced_invocation_ids : list string :=
  map (fun r => gw_invocation_id r.2) tool_call_rows ++ map (fun r => gw_invocation_id r.2) tool_result_rows ++
  map (fun r => gp_invocation_id r.2) pending_rows.
Definition invocation_rows :=
  rows_where (fun id i => opt_in execution_ids (gi_execution_id i) || is_in referenced_invocation_ids id) (g_invocations db).
Definition invocation_ids := map fst invocation_rows.
Definition attempt_rows := rows_where (fun _ a => is_in invocation_ids (ga_invocation_id a)) (g_attempts db).

(** ** Keys and references *)

Definition task_key : GcRowKey := ("task"%string, task_id).
Definition key_of (kind : string) (ids : list string) (id : string) : option GcRowKey :=
  if is_in ids id then Some (kind, id) else None.
Definition branch_key := key_of "branch" branch_ids.
Definition execution_key := key_of "execution" execution_ids.
Definition checkpoint_key := key_of "checkpoint" checkpoint_ids.
Definition invocation_key := key_of "capability_invocation" invocation_ids.

Definition reservation_identity (k : string * string * string) : string := join_bar [k.1.1; k.1.2; k.2].
Definition pair_identity (k : string * string) : string := join_bar [k.1; k.2].
Definition pending_identity (k : string * Z) : string := join_bar [k.1; pretty k.2].

(** The rows that [add] collects, the transcripts apart. *)
Definition owned_keys : list GcRowKey :=
  task_key ::
  (if bool_decide (is_Some (g_budgets db !! task_id)) then [("task_budget", task_id)] else []) ++
  map (fun k => ("task_budget_reservation", reservation_identity k)) reservation_rows ++
  map (fun r => ("branch", r.1)) branch_rows ++
  map (fun r => ("execution", r.1)) execution_rows ++
  map (fun r => ("fork_admission", pair_identity r.1)) fork_rows ++
  map (fun r => ("retry_admission", pair_identity r.1)) retry_rows ++
  map (fun r => ("aggregate_admission", pair_identity r.1)) aggregate_rows ++
  map (fun b => ("branch_context", b)) context_rows ++
  map (fun r => ("checkpoint", r.1)) checkpoint_rows ++
  map (fun r => ("checkpoint_pending_invocation", pending_identity r.1)) pending_rows ++
  map (fun r => ("resume_claim", r.1)) claim_rows ++
  map (fun r => ("iteration", r.1)) iteration_rows ++
  map (fun r => ("tool_call", r.1)) tool_call_rows ++
  map (fun r => ("tool_result", r.1)) tool_result_rows ++
  map (fun r => ("capability_invocation", r.1)) invocation_rows ++
  map (fun r => ("capability_invocation_attempt", r.1)) attempt_rows.

(** [add_edge]: a source, a label and a target that may be missing. *)
Abbreviation Link := (GcRowKey * string * option GcRowKey)%type.

Definition to_task (kind : string) (identity : string) : Link := (task_key, kind, Some (kind, identity)).

Definition task_links : list Link :=
  (if bool_decide (is_Some (g_budgets db !! task_id)) then [to_task "task_budget" task_id] else []) ++
  map (fun k => to_task "task_budget_reservation" (reservation_identity k)) reservation_rows ++
  map (fun r => to_task "branch" r.1) branch_rows ++
  map (fun r => to_task "execution" r.1) execution_rows ++
  map (fun r => to_task "fork_admission" (pair_identity r.1)) fork_rows ++
  map (fun r => to_task "retry_admission" (pair_identity r.1)) retry_rows ++
  map (fun r => to_task "aggregate_admission" (pair_identity r.1)) aggregate_rows ++
  map (fun b => (default task_key (branch_key b), "branch_context", Some ("branch_context", b))) context_rows ++
  map (fun r => (default task_key (checkpoint_key r.1.1), "checkpoint_pending_invocation",
                 Some ("checkpoint_pending_invocation", pending_identity r.1))) pending_rows.

(** A reference that is only followed when the column is set. *)
Definition link_opt (source : GcRowKey) (label : string) (find : string -> option GcRowKey) (o : option string) : list Link :=
  match o with Some x => [(source, label, find x)] | None => [] end.

Definition branch_links (r : string * GcBranch) : list Link :=
  let s := ("branch", r.1) in
  link_opt s "parent_branch" branch_key (gb_parent_branch_id r.2) ++
  link_opt s "base_execution" execution_key (gb_base_execution_id r.2) ++
  link_opt s "base_checkpoint" checkpoint_key (gb_base_checkpoint_id r.2) ++
  link_opt s "current_execution" execution_key (gb_current_execution_id r.2).

Definition execution_links (r : string * GcExecution) : list Link :=
  let s := ("execution", r.1) in
  link_opt s "parent_execution" execution_key (ge_parent_execution_id r.2) ++
  link_opt s "retry_of_execution" execution_key (ge_retry_of_execution_id r.2) ++
  link_opt s "base_execution" execution_key (ge_base_execution_id r.2) ++
  link_opt s "base_checkpoint" checkpoint_key (ge_base_checkpoint_id r.2) ++
  link_opt s "current_checkpoint" checkpoint_key (ge_current_checkpoint_id r.2) ++
  map (fun c => (s, "checkpoint", Some ("checkpoint", c.1)))
    (List.filter (fun c => bool_decide (gk_execution_id c.2 = r.1)) checkpoint_rows) ++
  map (fun i => (s, "iteration", Some ("iteration", i.1)))
    (List.filter (fun i => bool_decide (i.2 = r.1)) iteration_rows) ++
  map (fun c => (s, "resume_claim", Some ("resume_claim", c.1)))
    (List.filter (fun c => bool_decide (gl_execution_id c.2 = r.1)) claim_rows) ++
  map (fun i => (s, "capability_invocation", Some ("capability_invocation", i.1)))
    (List.filter (fun i => bool_decide (gi_execution_id i.2 = Some r.1)) invocation_rows).

Definition checkpoint_links (r : string * GcCheckpoint) : list Link :=
  let s := ("checkpoint", r.1) in
  match execution_key (gk_execution_id r.2) with Some e => [(e, "checkpoint"%string, Some s)] | None => [] end ++
  link_opt s "parent_checkpoint" checkpoint_key (gk_parent_checkpoint_id r.2).

Definition claim_links (r : string * GcClaim) : list Link :=
  let s := ("resume_claim", r.1) in
  [(s, "claim_execution", execution_key (gl_execution_id r.2)); (s, "claim_checkpoint", checkpoint_key (gl_checkpoint_id r.2))].

Definition iteration_links (r : string * string) : list Link :=
  let s := ("iteration", r.1) in
  (default task_key (execution_key r.2), "iteration"%string, Some s) ::
  map (fun c => (s, "tool_call", Some ("tool_call", c.1)))
    (List.filter (fun c => bool_decide (gw_iteration_id c.2 = r.1)) tool_call_rows) ++
  map (fun c => (s, "tool_result", Some ("tool_result", c.1)))
    (List.filter (fun c => bool_decide (gw_iteration_id c.2 = r.1)) tool_result_rows).

Definition invocation_links : list Link :=
  map (fun r => (("tool_call", r.1), "tool_call_invocation", invocation_key (gw_invocation_id r.2))) tool_call_rows ++
  map (fun r => (("tool_result", r.1), "tool_result_invocation", invocation_key (gw_invocation_id r.2))) tool_result_rows ++
  map (fun r => (("checkpoint_pending_invocation", pending_identity r.1), "pending_invocation",
                 invocation_key (gp_invocation_id r.2))) pending_rows ++
  map (fun a => (("capability_invocation", ga_invocation_id a.2), "invocation_attempt",
                 Some ("capability_invocation_attempt", a.1))) attempt_rows.

Definition fork_links (r : (string * string) * GcFork) : list Link :=
  let s := ("fork_admission", pair_identity r.1) in
  [(s, "source_branch", branch_key (gf_source_branch_id r.2)); (s, "branch", branch_key (gf_branch_id r.2));
   (s, "source_execution", execution_key (gf_source_execution_id r.2)); (s, "execution", execution_key (gf_execution_id r.2));
   (s, "source_checkpoint", checkpoint_key (gf_source_checkpoint_id r.2))].

Definition retry_links (r : (string * string) * GcRetry) : list Link :=
  let s := ("retry_admission", pair_identity r.1) in
  [(s, "branch", branch_key (gr_branch_id r.2)); (s, "source_execution", execution_key (gr_source_execution_id r.2));
   (s, "execution", execution_key (gr_execution_id r.2))] ++
  link_opt s "source_checkpoint" checkpoint_key (gr_source_checkpoint_id r.2).
(** *** Aggregates: their sources are JSON snapshots *)

Definition snapshot_get (key : string) (j : json) : option json :=
  match j with JObj f => dict_get key f | _ => None end.

Definition aggregate_source (r : (string * string) * GcAggregate) : GcRowKey :=
  ("aggregate_admission"%string, pair_identity r.1).

Definition branch_snapshot_link (source : GcRowKey) (snapshot : json) : list Link :=
  match snapshot_get "branch_id" snapshot with
  | Some id => [(source, "aggregate_source_branch"%string, branch_key (py_str id))]
  | None => []
  end.

Definition execution_snapshot_links (source : GcRowKey) (snapshot : json) : list Link :=
  match snapshot_get "execution_id" snapshot with
  | Some id =>
      (source, "aggregate_source_execution"%string, execution_key (py_str id)) ::
      match snapshot_get "checkpoint_id" snapshot with
      | None | Some JNull => []
      | Some c => [(source, "aggregate_source_checkpoint"%string, checkpoint_key (py_str c))]
      end
  | None => []
  end.

Definition aggregate_links (r : (string * string) * GcAggregate) : list Link :=
  let s := aggregate_source r in
  [(s, "target_branch"%string, branch_key (gg_target_branch_id r.2)); (s, "execution"%string, execution_key (gg_execution_id r.2))] ++
  match gg_source_branch_snapshots r.2, gg_source_execution_snapshots r.2 with
  | JArr bs, JArr es => flat_map (branch_snapshot_link s) bs ++ flat_map (execution_snapshot_links s) es
  | _, _ => []
  end.

Definition aggregate_problems (r : (string * string) * GcAggregate) : list string :=
  let name := "aggregate_admission:" +:+ r.1.2 +:+ ":" in
  match gg_source_branch_snapshots r.2, gg_source_execution_snapshots r.2 with
  | JArr bs, JArr es =>
      flat_map (fun s => match snapshot_get "branch_id" s with Some _ => [] | None => [name +:+ "malformed_branch_snapshot"] end) bs ++
      flat_map (fun s => match snapshot_get "execution_id" s with Some _ => [] | None => [name +:+ "malformed_execution_snapshot"] end) es
  | _, _ => [name +:+ "malformed_snapshots"]
  end.

(** Every reference that [add_edge] sees, the transcripts apart. *)
Definition owned_links : list Link :=
  task_links ++ flat_map branch_links branch_rows ++ flat_map execution_links execution_rows ++
  flat_map checkpoint_links checkpoint_rows ++ flat_map claim_links claim_rows ++
  flat_map iteration_links iteration_rows ++ invocation_links ++ flat_map fork_links fork_rows ++
  flat_map retry_links retry_rows ++ flat_map aggregate_links aggregate_rows.

(** ** Problems *)

Definition found (b : bool) (problem : string) : list string := if b then [problem] else [].

(** A reference whose target is missing. *)
Definition link_problems (links : list Link) : list string :=
  flat_map (fun l => match l.2 with
                     | Some _ => []
                     | None => [l.1.1.1 +:+ ":" +:+ l.1.1.2 +:+ ":" +:+ l.1.2 +:+ ":missing"]
                     end) links.

(** [validate_invocation_identity]. *)
Definition identity_problems (invocation_id execution tool_call capability source : string) : list string :=
  match (if is_in invocation_ids invocation_id then g_invocations db !! invocation_id else None) with
  | None => []
  | Some i =>
      found (negb (bool_decide (text (gi_execution_id i) = execution))) (source +:+ ":invocation_execution_mismatch") ++
      found (negb (bool_decide (text (gi_tool_call_id i) = tool_call))) (source +:+ ":invocation_tool_call_mismatch") ++
      found (negb (bool_decide (gi_capability_id i = capability))) (source +:+ ":invocation_capability_mismatch")
  end.

Definition tool_row_identity (kind : string) (r : string * GcToolRow) : list string :=
  identity_problems (gw_invocation_id r.2) (gw_execution_id r.2) (gw_tool_call_id r.2) (gw_capability_id r.2)
    (kind +:+ ":" +:+ r.1).

Definition pending_row_identity (r : (string * Z) * GcPending) : list string :=
  match g_checkpoints db !! r.1.1 with
  | None => []
  | Some c => identity_problems (gp_invocation_id r.2) (gk_execution_id c) (gp_tool_call_id r.2) (gp_capability_id r.2)
                ("checkpoint_pending_invocation:" +:+ pending_identity r.1)
  end.

Definition invocation_identity_problems : list string :=
  flat_map (tool_row_identity "tool_call") tool_call_rows ++
  flat_map (tool_row_identity "tool_result") tool_result_rows ++
  flat_map pending_row_identity pending_rows.

(** Some row outside satisfies the predicate. *)
Definition some_row {K A} `{Countable K} (p : K -> A -> bool) (m : gmap K A) : bool :=
  negb (bool_decide (rows_where p m = [])).

Definition external_invocation_problems : list string :=
  let foreign _ (r : GcToolRow) := is_in invocation_ids (gw_invocation_id r) && negb (is_in execution_ids (gw_execution_id r)) in
  found (some_row foreign (g_tool_calls db)) "external_agent_tool_call_invocation_reference" ++
  found (some_row foreign (g_tool_results db)) "external_agent_tool_result_invocation_reference" ++
  found (some_row (fun k p => is_in invocation_ids (gp_invocation_id p) && negb (is_in checkpoint_ids k.1)) (g_pending db))
    "external_checkpoint_pending_invocation_reference".

Definition checkpoint_problems : list string :=
  flat_map (fun r => found (negb (is_in execution_ids (gk_execution_id r.2)))
                       ("checkpoint:" +:+ r.1 +:+ ":foreign_or_missing_execution")) checkpoint_rows.

(** *** References into the task from outside *)

Definition foreign_execution (e : GcExecution) : bool := negb (bool_decide (ge_task_id e = Some task_id)).
Definition foreign_branch (b : GcBranch) : bool := negb (bool_decide (gb_task_id b = task_id)).
Definition foreign_admission (k : string * string) : bool := negb (bool_decide (k.1 = task_id)).

Definition external_execution_problems : list string :=
  found (some_row (fun _ e => foreign_execution e &&
           (opt_in execution_ids (ge_parent_execution_id e) || opt_in execution_ids (ge_retry_of_execution_id e) ||
            opt_in execution_ids (ge_base_execution_id e))) (g_executions db)) "external_execution_semantic_reference" ++
  found (some_row (fun _ b => foreign_branch b &&
           (opt_in execution_ids (gb_base_execution_id b) || opt_in execution_ids (gb_current_execution_id b))) (g_branches db))
    "external_branch_execution_reference" ++
  found (some_row (fun k f => foreign_admission k &&
           (is_in execution_ids (gf_source_execution_id f) || is_in execution_ids (gf_execution_id f))) (g_forks db))
    "external_fork_execution_reference" ++
  found (some_row (fun k r => foreign_admission k &&
           (is_in execution_ids (gr_source_execution_id r) || is_in execution_ids (gr_execution_id r))) (g_retries db))
    "external_retry_execution_reference".

Definition external_branch_problems : list string :=
  found (some_row (fun _ e => foreign_execution e && opt_in branch_ids (ge_branch_id e)) (g_executions db))
    "external_execution_branch_reference" ++
  found (some_row (fun _ b => foreign_branch b && opt_in branch_ids (gb_parent_branch_id b)) (g_branches db))
    "external_branch_lineage_reference" ++
  found (some_row (fun k f => foreign_admission k &&
           (is_in branch_ids (gf_source_branch_id f) || is_in branch_ids (gf_branch_id f))) (g_forks db))
    "external_fork_branch_reference" ++
  found (some_row (fun k r => foreign_admission k && is_in branch_ids (gr_branch_id r)) (g_retries db))
    "external_retry_branch_reference".

Definition external_checkpoint_problems : list string :=
  found (some_row (fun _ e => foreign_execution e && opt_in checkpoint_ids (ge_base_checkpoint_id e)) (g_executions db))
    "external_checkpoint_semantic_reference" ++
  found (some_row (fun _ e => foreign_execution e && opt_in checkpoint_ids (ge_current_checkpoint_id e)) (g_executions db))
    "external_execution_current_checkpoint_reference" ++
  found (some_row (fun id c => negb (is_in checkpoint_ids id) && opt_in checkpoint_ids (gk_parent_checkpoint_id c)) (g_checkpoints db))
    "external_checkpoint_parent_reference" ++
  found (some_row (fun _ b => foreign_branch b && opt_in checkpoint_ids (gb_base_checkpoint_id b)) (g_branches db))
    "external_branch_checkpoint_reference" ++
  found (some_row (fun k f => foreign_admission k && is_in checkpoint_ids (gf_source_checkpoint_id f)) (g_forks db))
    "external_fork_checkpoint_reference" ++
  found (some_row (fun k r => foreign_admission k && opt_in checkpoint_ids (gr_source_checkpoint_id r)) (g_retries db))
    "external_retry_checkpoint_reference".

(** The items of [value or []]; a number or [True] cannot be iterated. *)
Definition iterate (j : json) : option (list json) :=
  match j with
  | JArr l => Some l
  | JObj f => Some (map (fun kv => JStr kv.1) f)
  | JStr _ | JNull | JBool false => Some []
  | JBool true => None
  | JInt z => if z =? 0 then Some [] else None
  end.

Definition snapshot_text (key : string) (j : json) : option string :=
  match j with JObj f => Some (py_str (default JNull (dict_get key f))) | _ => None end.

(** The first problem of an execution snapshot. *)
Fixpoint execution_snapshot_problem (l : list json) : option string :=
  match l with
  | [] => None
  | s :: l' =>
      if opt_in execution_ids (snapshot_text "execution_id" s) then Some "external_aggregate_execution_reference"%string
      else
        match snapshot_get "checkpoint_id" s with
        | None | Some JNull => execution_snapshot_problem l'
        | Some c => if is_in checkpoint_ids (py_str c) then Some "external_aggregate_checkpoint_reference"%string
                    else execution_snapshot_problem l'
        end
  end.

(** Why an aggregate of another task refers to this one, or [None] when its snapshots cannot be read. *)
Definition external_aggregate (a : GcAggregate) : option (option string) :=
  if is_in execution_ids (gg_execution_id a) || is_in branch_ids (gg_target_branch_id a)
  then Some (Some "external_aggregate_direct_reference"%string)
  else
    match iterate (gg_source_branch_snapshots a) with
    | None => None
    | Some bs =>
        if existsb (fun s => opt_in branch_ids (snapshot_text "branch_id" s)) bs
        then Some (Some "external_aggregate_branch_reference"%string)
        else
          match iterate (gg_source_execution_snapshots a) with
          | None => None
          | Some es => Some (execution_snapshot_problem es)
          end
    end.

(** The scan stops at the first reference. *)
Fixpoint scan_aggregates (l : list ((string * string) * GcAggregate)) : option (list string) :=
  match l with
  | [] => Some []
  | a :: l' =>
      match external_aggregate a.2 with
      | None => None
      | Some (Some problem) => Some [problem]
      | Some None => scan_aggregates l'
      end
  end.

Definition external_aggregate_problems : option (list string) :=
  if bool_decide (execution_ids = []) && bool_decide (branch_ids = []) && bool_decide (checkpoint_ids = []) then Some []
  else scan_aggregates (rows_where (fun k _ => foreign_admission k) (g_aggregates db)).

(** *** Cycles of the lineage *)

Abbreviation Lineage := (list (string * list string)).

Definition targets_of (graph : Lineage) (node : string) : list string := default [] (dict_get node graph).

(** [visit]: whether a cycle was found, with the nodes that are done.  [visiting] is the path
    from the root, so a path never grows past the number of nodes. *)
Fixpoint visit (fuel : nat) (graph : Lineage) (visiting visited : list string) (node : string) : bool * list string :=
  match fuel with
  | 0%nat => (true, visited)
  | S fuel' =>
      if bool_decide (node ∈ visiting) then (true, visited)
      else if bool_decide (node ∈ visited) then (false, visited)
      else
        let go := fix go (targets : list string) (visited : list string) : bool * list string :=
          match targets with
          | [] => (false, visited)
          | x :: rest =>
              if bool_decide (x ∈ map fst graph) then
                match visit fuel' graph (node :: visiting) visited x with
                | (true, v) => (true, v)
                | (false, v) => go rest v
                end
              else go rest visited
          end in
        match go (sort_by (fun x => x) String.ltb (targets_of graph node)) visited with
        | (true, v) => (true, v)
        | (false, v) => (false, node :: v)
        end
  end.

Fixpoint visit_all (graph : Lineage) (nodes : list string) (visited : list string) : bool :=
  match nodes with
  | [] => false
  | n :: rest =>
      match visit (S (S (length graph))) graph [] visited n with
      | (true, _) => true
      | (false, v) => visit_all graph rest v
      end
  end.

Definition detect_cycle (graph : Lineage) (family : string) : list string :=
  found (visit_all graph (sort_by (fun x => x) String.ltb (map fst graph)) []) (family +:+ ":cycle").

Definition execution_lineage : Lineage :=
  map (fun r => (r.1, omap (fun o : option string => o) [ge_parent_execution_id r.2; ge_retry_of_execution_id r.2; ge_base_execution_id r.2]))
    execution_rows.
Definition checkpoint_lineage : Lineage :=
  map (fun r => (r.1, match gk_parent_checkpoint_id r.2 with Some p => [p] | None => [] end)) checkpoint_rows.

(** *** Transcripts: always retained *)

Record TrState := {
  ts_representations : list (string * Z);
  ts_payloads : list string;
  ts_chunks : list string;
  ts_links : list Link;
  ts_problems : list string
}.

Definition no_transcripts : TrState :=
  {| ts_representations := []; ts_payloads := []; ts_chunks := []; ts_links := []; ts_problems := [] |}.

Definition tr_problem (st : TrState) (p : string) : TrState :=
  {| ts_representations := ts_representations st; ts_payloads := ts_payloads st; ts_chunks := ts_chunks st;
     ts_links := ts_links st; ts_problems := p :: ts_problems st |}.
Definition tr_link (st : TrState) (source : GcRowKey) (label : string) (target : option GcRowKey) : TrState :=
  {| ts_representations := ts_representations st; ts_payloads := ts_payloads st; ts_chunks := ts_chunks st;
     ts_links := (source, label, target) :: ts_links st; ts_problems := ts_problems st |}.
Definition tr_payload (st : TrState) (ref : string) : TrState :=
  {| ts_representations := ts_representations st; ts_payloads := ref :: ts_payloads st; ts_chunks := ts_chunks st;
     ts_links := ts_links st; ts_problems := ts_problems st |}.
Definition tr_chunk (st : TrState) (id : string) : TrState :=
  {| ts_representations := ts_representations st; ts_payloads := ts_payloads st; ts_chunks := id :: ts_chunks st;
     ts_links := ts_links st; ts_problems := ts_problems st |}.
Definition tr_representation (st : TrState) (k : string * Z) : TrState :=
  {| ts_representations := k :: ts_representations st; ts_payloads := ts_payloads st; ts_chunks := ts_chunks st;
     ts_links := ts_links st; ts_problems := ts_problems st |}.

Definition payload_key (ref : string) : GcRowKey := ("transcript_payload"%string, ref).
Definition chunk_key (id : string) : GcRowKey := ("transcript_chunk"%string, id).
Definition representation_key (k : string * Z) : GcRowKey := ("transcript_representation"%string, pending_identity k).

(** Every nested call has one more payload loaded, so the size of the table is fuel enough. *)
Fixpoint load_payload (fuel : nat) (visiting : list string) (ref : string) (st : TrState) : TrState * option GcRowKey :=
  if bool_decide (ref ∈ ts_payloads st) then (st, Some (payload_key ref))
  else if bool_decide (ref ∈ visiting) then (tr_problem st "transcript_payload:cycle", None)
  else
    match g_payloads db !! ref with
    | None => (tr_problem st ("transcript_payload:" +:+ ref +:+ ":missing_or_duplicated"), None)
    | Some row =>
        let st1 := tr_payload st ref in
        let st2 :=
          if bool_decide (gy_chunk_id row ∈ g_chunks db)
          then tr_link (tr_chunk st1 (gy_chunk_id row)) (payload_key ref) "payload_chunk" (Some (chunk_key (gy_chunk_id row)))
          else tr_problem st1 ("transcript_chunk:" +:+ gy_chunk_id row +:+ ":missing_or_duplicated") in
        match gy_parent_payload_root_ref row, fuel with
        | None, _ => (st2, Some (payload_key ref))
        | Some _, 0%nat => (st2, Some (payload_key ref))
        | Some parent, S fuel' =>
            let (st3, target) := load_payload fuel' (ref :: visiting) parent st2 in
            (tr_link st3 (payload_key ref) "parent_payload" target, Some (payload_key ref))
        end
    end.

Fixpoint load_representation (fuel : nat) (visiting : list (string * Z)) (k : string * Z) (st : TrState)
    : TrState * option GcRowKey :=
  let name := "transcript_representation:" +:+ k.1 +:+ "@" +:+ pretty k.2 +:+ ":" in
  if bool_decide (k ∈ ts_representations st) then (st, Some (representation_key k))
  else if bool_decide (k ∈ visiting) then (tr_problem st "transcript_representation:cycle", None)
  else
    match g_representations db !! k with
    | None => (tr_problem st (name +:+ "missing_or_duplicated"), None)
    | Some row =>
        let (st2, payload) := load_payload (size (g_payloads db)) [] (gn_payload_root_ref row) (tr_representation st k) in
        let st3 := tr_link st2 (representation_key k) "representation_payload" payload in
        match gn_parent_transcript_ref row, gn_parent_transcript_version row, fuel with
        | None, _, _ => (st3, Some (representation_key k))
        | Some _, None, _ => (tr_problem st3 (name +:+ "missing_parent_version"), Some (representation_key k))
        | Some _, Some _, 0%nat => (st3, Some (representation_key k))
        | Some ref, Some version, S fuel' =>
            let (st4, target) := load_representation fuel' (k :: visiting) (ref, version) st3 in
            (tr_link st4 (representation_key k) "parent_representation" target, Some (representation_key k))
        end
    end.

(** One checkpoint, with the roots so far. *)
Definition load_checkpoint_transcript (acc : TrState * list GcRowKey) (r : string * GcCheckpoint) : TrState * list GcRowKey :=
  let (st, roots) := acc in
  match gk_transcript_ref r.2, gk_transcript_version r.2 with
  | None, None => acc
  | None, Some _ => (tr_problem st ("checkpoint:" +:+ r.1 +:+ ":transcript_version_without_ref"), roots)
  | Some _, None => (tr_problem st ("checkpoint:" +:+ r.1 +:+ ":transcript_ref_without_version"), roots)
  | Some ref, Some version =>
      let (st1, key) := load_representation (size (g_representations db)) [] (ref, version) st in
      (tr_link st1 ("checkpoint"%string, r.1) "checkpoint_transcript" key,
       match key with Some k => k :: roots | None => roots end)
  end.

Definition transcripts : TrState * list GcRowKey :=
  fold_left load_checkpoint_transcript (sort_by fst String.ltb checkpoint_rows) (no_transcripts, []).

Definition transcript_keys : list GcRowKey :=
  map representation_key (ts_representations transcripts.1) ++ map payload_key (ts_payloads transcripts.1) ++
  map chunk_key (ts_chunks transcripts.1).

(** ** Eligibility *)

Definition task_status : string := match g_tasks db !! task_id with Some t => gt_status t | None => "" end.
Definition active_task : bool := negb (bool_decide (task_status ∈ ["COMPLETED"; "FAILED"; "CANCELLED"]%string)).
Definition terminal_invocation_value (s : string) : bool := bool_decide (s ∈ ["COMPLETED"; "FAILED"; "CANCELLED"; "TIMED_OUT"]%string).

Definition policy_problems : list string :=
  found active_task "policy_eligible_nonterminal_task" ++
  found (negb (bool_decide (g_budgets db !! task_id = Some "CLOSED"%string))) "policy_eligible_task_budget_not_closed" ++
  found (existsb (fun r => bool_decide (ge_state r.2 ∈ ["CREATED"; "RUNNING"; "WAITING"; "WAITING_FOR_CONNECTION"]%string)) execution_rows)
    "policy_eligible_active_execution" ++
  found (existsb (fun r => bool_decide (gl_state r.2 = "CREATED"%string)) claim_rows) "policy_eligible_active_resume_claim" ++
  flat_map (fun r => found (negb (bool_decide (gw_commit_state r.2 = "COMMITTED"%string)))
                       ("tool_result:" +:+ r.1 +:+ ":non_committed_authority")) tool_result_rows ++
  flat_map (fun r =>
    found (negb (terminal_invocation_value (gi_state r.2))) ("capability_invocation:" +:+ r.1 +:+ ":nonterminal") ++
    match gi_remote_outcome_state r.2 with
    | Some o => found (bool_decide (o ∈ ["IN_FLIGHT"; "OUTCOME_UNKNOWN"]%string))
                  ("capability_invocation:" +:+ r.1 +:+ ":unsafe_remote_outcome:" +:+ o)
    | None => []
    end) invocation_rows ++
  flat_map (fun r => found (negb (terminal_invocation_value (ga_state r.2)))
                       ("capability_invocation_attempt:" +:+ r.1 +:+ ":nonterminal")) attempt_rows.

Definition missing_invocation_problems : list string :=
  flat_map (fun id => found (negb (is_in invocation_ids id))
                        ("capability_invocation:" +:+ id +:+ ":missing_referenced_authority")) referenced_invocation_ids.

(** Every problem; [None] when the scan of the aggregates raised. *)
Definition problems (policy_eligible_terminal : bool) : option (list string) :=
  aggregates ← external_aggregate_problems;
  mret (found (some_row (fun id t => negb (bool_decide (id = task_id)) && bool_decide (gt_parent_task_id t = Some task_id)) (g_tasks db))
          "external_child_task_reference" ++
        found (negb (bool_decide (is_Some (g_budgets db !! task_id)))) "task_budget:missing_or_duplicated" ++
        invocation_identity_problems ++ external_invocation_problems ++ checkpoint_problems ++
        flat_map aggregate_problems aggregate_rows ++
        detect_cycle execution_lineage "execution_lineage" ++ detect_cycle checkpoint_lineage "checkpoint_lineage" ++
        external_execution_problems ++ external_branch_problems ++ external_checkpoint_problems ++ aggregates ++
        ts_problems transcripts.1 ++ link_problems (owned_links ++ ts_links transcripts.1) ++
        (if policy_eligible_terminal then policy_problems else []) ++ missing_invocation_problems).

(** ** Reachability *)

Definition all_keys : gset GcRowKey := list_to_set (owned_keys ++ transcript_keys).

Definition all_edges : list (GcRowKey * string * GcRowKey) :=
  omap (fun l : Link => match l.2 with Some t => Some (l.1, t) | None => None end) (owned_links ++ ts_links transcripts.1).

Definition roots (policy_eligible_terminal : bool) : list (GcRowKey * string) :=
  (if policy_eligible_terminal then []
   else [(task_key, if active_task then "ACTIVE_TASK"%string else "POLICY_RETAINED_HISTORY"%string)]) ++
  map (fun k => (k, "SHARED_TRANSCRIPT_REACHABILITY"%string)) (elements (list_to_set transcripts.2 : gset GcRowKey)).
End Graph.

(** Three texts in order: a label and a target. *)
Definition edge_ltb (a b : string * GcRowKey) : bool :=
  String.ltb a.1 b.1 || (bool_decide (a.1 = b.1) && row_ltb a.2 b.2).

Section Search.
Context (edges : list (GcRowKey * string * GcRowKey)).

Definition edges_from (source : GcRowKey) : list (string * GcRowKey) :=
  sort_by (fun x => x) edge_ltb
    (omap (fun e => if bool_decide (e.1.1 = source) then Some (e.1.2, e.2) else None) edges).

Definition edge_text (source : GcRowKey) (label : string) (target : GcRowKey) : string :=
  source.1 +:+ ":" +:+ source.2 +:+ "--" +:+ label +:+ "-->" +:+ target.1 +:+ ":" +:+ target.2.

(** One node is expanded: the new map of reached rows and the rows to queue. *)
Fixpoint expand (source : GcRowKey) (targets : list (string * GcRowKey)) (reached : gmap GcRowKey string)
    : gmap GcRowKey string * list GcRowKey :=
  match targets with
  | [] => (reached, [])
  | (label, target) :: rest =>
      if bool_decide (is_Some (reached !! target)) then expand source rest reached
      else
        let (r, q) := expand source rest (<[target := edge_text source label target]> reached) in (r, target :: q)
  end.

(** A row is queued once, when it is reached. *)
Fixpoint bfs (fuel : nat) (queue : list GcRowKey) (reached : gmap GcRowKey string) : gmap GcRowKey string :=
  match fuel, queue with
  | 0%nat, _ | _, [] => reached
  | S fuel', source :: queue' =>
      let (r, q) := expand source (edges_from source) reached in bfs fuel' (queue' ++ q) r
  end.

Fixpoint start (roots : list (GcRowKey * string)) (reached : gmap GcRowKey string)
    : gmap GcRowKey string * list GcRowKey :=
  match roots with
  | [] => (reached, [])
  | (key, source) :: rest =>
      if bool_decide (is_Some (reached !! key)) then start rest reached
      else let (r, q) := start rest (<[key := source]> reached) in (r, key :: q)
  end.

Definition search (roots : list (GcRowKey * string)) : gmap GcRowKey string :=
  let (reached, queue) := start (sort_by fst row_ltb roots) ∅ in
  bfs (S (length roots + length edges)) queue reached.
End Search.

(** ** The dry run *)

Definition sorted_rows (db : GcDB) (task_id : string) : list GcRowKey :=
  sort_by (fun x => x) row_ltb (elements (all_keys db task_id)).

Definition fail_item (source : string) (key : GcRowKey) : GcDryRunItem :=
  {| it_key := key; it_classification := FAIL_CLOSED; it_reason_code := "INCOMPLETE_OR_INCONSISTENT_GRAPH"; it_source := source |}.

Definition classify_item (active : bool) (reached : gmap GcRowKey string) (key : GcRowKey) : GcDryRunItem :=
  match reached !! key with
  | Some source => {| it_key := key; it_classification := RETAIN; it_reason_code := reason_for_retained key.1 active; it_source := source |}
  | None => {| it_key := key; it_classification := CANDIDATE; it_reason_code := "UNREACHABLE_POLICY_ELIGIBLE";
               it_source := "EXPLICIT_TERMINAL_POLICY_ELIGIBILITY" |}
  end.

(** [None] stands for the exception of the aggregate scan. *)
Definition build_task_gc_dry_run (db : GcDB) (task_id : string) (policy_eligible_terminal : bool) : option GcDryRunReport :=
  match g_tasks db !! task_id with
  | None => mret (make_report task_id [fail_item "TASK_NOT_FOUND" (task_key task_id)])
  | Some _ =>
      found_problems ← problems db task_id policy_eligible_terminal;
      mret (make_report task_id
        (if bool_decide (found_problems = []) then
           map (classify_item (active_task db task_id) (search (all_edges db task_id) (roots db task_id policy_eligible_terminal)))
             (sorted_rows db task_id)
         else
           let source := String.concat ";" (sort_by (fun x => x) String.ltb (elements (list_to_set found_problems : gset string))) in
           map (fail_item source) (sorted_rows db task_id)))
  end.
