(* ===== verification/GcExecutor.v ===== *)
(** * The garbage collector's executor
    (src/se/src/runtimes/agent/gc_executor.py)

    In one transaction the executor fences the task, runs the dry run, fences the invocations
    it found, runs the dry run again, and deletes exactly what the second report names, table
    by table; a row count that differs from the report aborts the transaction.  Other
    transactions may commit until the second report; from then on the writers of these rows
    wait for the fences.  [foreign_keys] tells whether the database enforces foreign keys
    (PostgreSQL does, SQLite does not unless it is told to); the keys modelled are those among
    the tables of the graph and the one of the tool media projections on the tool results. *)

From S2P Require Import Prelude Canonical GcDryRun.

Inductive GcError :=
  | AgentGcCollectionError (message : string)
  | GcTypeError
  | GcIntegrityError.

Record AgentGcCollectionResult := {
  gx_task_id : string;
  gx_fingerprint : option string;
  gx_deleted_rows : list (string * nat);
  gx_already_collected : bool
}.

Definition CANDIDATE_KINDS : list string :=
  ["task"; "task_budget"; "task_budget_reservation"; "branch"; "branch_context"; "execution"; "checkpoint";
   "checkpoint_pending_invocation"; "resume_claim"; "iteration"; "tool_call"; "tool_result"; "capability_invocation";
   "capability_invocation_attempt"; "fork_admission"; "retry_admission"; "aggregate_admission"]%string.

(** The candidates of a kind. *)
Definition candidates_of (r : GcDryRunReport) (kind : string) : list string :=
  map (fun i => (it_key i).2) (List.filter (fun i => is_candidate i && bool_decide ((it_key i).1 = kind)) (gc_items r)).
Definition candidate_counts (r : GcDryRunReport) (kind : string) : nat := length (candidates_of r kind).
Definition candidate_ids (r : GcDryRunReport) (kind : string) : list string :=
  sort_by (fun x => x) String.ltb (candidates_of r kind).

Definition validate_candidate_report (r : GcDryRunReport) : result GcError unit :=
  _ ← guard_err (negb (failed_closed r)) (AgentGcCollectionError "Fresh in-transaction R11-F1-B revalidation failed closed.");
  _ ← guard_err (has_candidates r) (AgentGcCollectionError "Fresh in-transaction R11-F1-B revalidation produced no candidates.");
  _ ← guard_err (forallb (fun i => negb (is_candidate i) || bool_decide ((it_key i).1 ∈ CANDIDATE_KINDS)) (gc_items r))
        (AgentGcCollectionError "R11-F1-C candidate scope contains unopened row kinds");
  guard_err (Nat.eqb (candidate_counts r "task") 1) (AgentGcCollectionError "R11-F1-C requires exactly one candidate Task owner.").

(** ** Statements *)

(** The rows of a table that stay. *)
Definition drop_rows {K A} `{Countable K} (p : K -> A -> bool) (m : gmap K A) : gmap K A :=
  base.filter (fun kv => p kv.1 kv.2 = false) m.
Definition count_rows {K A} `{Countable K} (p : K -> A -> bool) (m : gmap K A) : nat :=
  length (rows_where p m).

Definition upd_tasks f (db : GcDB) := let '(Build_GcDB t b r br cx e k p c i tc tr iv at_ fo re ag rp py ch pj) := db in
  Build_GcDB (f t) b r br cx e k p c i tc tr iv at_ fo re ag rp py ch pj.
Definition upd_budgets f (db : GcDB) := let '(Build_GcDB t b r br cx e k p c i tc tr iv at_ fo re ag rp py ch pj) := db in
  Build_GcDB t (f b) r br cx e k p c i tc tr iv at_ fo re ag rp py ch pj.
Definition upd_reservations f (db : GcDB) := let '(Build_GcDB t b r br cx e k p c i tc tr iv at_ fo re ag rp py ch pj) := db in
  Build_GcDB t b (f r) br cx e k p c i tc tr iv at_ fo re ag rp py ch pj.
Definition upd_branches f (db : GcDB) := let '(Build_GcDB t b r br cx e k p c i tc tr iv at_ fo re ag rp py ch pj) := db in
  Build_GcDB t b r (f br) cx e k p c i tc tr iv at_ fo re ag rp py ch pj.
Definition upd_contexts f (db : GcDB) := let '(Build_GcDB t b r br cx e k p c i tc tr iv at_ fo re ag rp py ch pj) := db in
  Build_GcDB t b r br (f cx) e k p c i tc tr iv at_ fo re ag rp py ch pj.
Definition upd_executions f (db : GcDB) := let '(Build_GcDB t b r br cx e k p c i tc tr iv at_ fo re ag rp py ch pj) := db in
  Build_GcDB t b r br cx (f e) k p c i tc tr iv at_ fo re ag rp py ch pj.
Definition upd_checkpoints f (db : GcDB) := let '(Build_GcDB t b r br cx e k p c i tc tr iv at_ fo re ag rp py ch pj) := db in
  Build_GcDB t b r br cx e (f k) p c i tc tr iv at_ fo re ag rp py ch pj.
Definition upd_pending f (db : GcDB) := let '(Build_GcDB t b r br cx e k p c i tc tr iv at_ fo re ag rp py ch pj) := db in
  Build_GcDB t b r br cx e k (f p) c i tc tr iv at_ fo re ag rp py ch pj.
Definition upd_claims f (db : GcDB) := let '(Build_GcDB t b r br cx e k p c i tc tr iv at_ fo re ag rp py ch pj) := db in
  Build_GcDB t b r br cx e k p (f c) i tc tr iv at_ fo re ag rp py ch pj.
Definition upd_iterations f (db : GcDB) := let '(Build_GcDB t b r br cx e k p c i tc tr iv at_ fo re ag rp py ch pj) := db in
  Build_GcDB t b r br cx e k p c (f i) tc tr iv at_ fo re ag rp py ch pj.
Definition upd_tool_calls f (db : GcDB) := let '(Build_GcDB t b r br cx e k p c i tc tr iv at_ fo re ag rp py ch pj) := db in
  Build_GcDB t b r br cx e k p c i (f tc) tr iv at_ fo re ag rp py ch pj.
Definition upd_tool_results f (db : GcDB) := let '(Build_GcDB t b r br cx e k p c i tc tr iv at_ fo re ag rp py ch pj) := db in
  Build_GcDB t b r br cx e k p c i tc (f tr) iv at_ fo re ag rp py ch pj.
Definition upd_invocations f (db : GcDB) := let '(Build_GcDB t b r br cx e k p c i tc tr iv at_ fo re ag rp py ch pj) := db in
  Build_GcDB t b r br cx e k p c i tc tr (f iv) at_ fo re ag rp py ch pj.
Definition upd_attempts f (db : GcDB) := let '(Build_GcDB t b r br cx e k p c i tc tr iv at_ fo re ag rp py ch pj) := db in
  Build_GcDB t b r br cx e k p c i tc tr iv (f at_) fo re ag rp py ch pj.
Definition upd_forks f (db : GcDB) := let '(Build_GcDB t b r br cx e k p c i tc tr iv at_ fo re ag rp py ch pj) := db in
  Build_GcDB t b r br cx e k p c i tc tr iv at_ (f fo) re ag rp py ch pj.
Definition upd_retries f (db : GcDB) := let '(Build_GcDB t b r br cx e k p c i tc tr iv at_ fo re ag rp py ch pj) := db in
  Build_GcDB t b r br cx e k p c i tc tr iv at_ fo (f re) ag rp py ch pj.
Definition upd_aggregates f (db : GcDB) := let '(Build_GcDB t b r br cx e k p c i tc tr iv at_ fo re ag rp py ch pj) := db in
  Build_GcDB t b r br cx e k p c i tc tr iv at_ fo re (f ag) rp py ch pj.

Section Statements.
Context (foreign_keys : bool).

(** ON DELETE CASCADE and SET NULL; the ids of the deleted parents. *)
Definition cascade (f : GcDB -> GcDB) (db : GcDB) : GcDB := if foreign_keys then f db else db.

Definition tool_rows_of_iterations (ids : list string) (_ : string) (r : GcToolRow) : bool := is_in ids (gw_iteration_id r).

Definition after_iterations (ids : list string) : GcDB -> GcDB :=
  cascade (fun db => upd_tool_results (drop_rows (tool_rows_of_iterations ids)) (upd_tool_calls (drop_rows (tool_rows_of_iterations ids)) db)).
Definition after_checkpoints (ids : list string) : GcDB -> GcDB :=
  cascade (fun db => upd_claims (drop_rows (fun _ c => is_in ids (gl_checkpoint_id c)))
                       (upd_pending (drop_rows (fun k _ => is_in ids k.1)) db)).
Definition after_executions (ids : list string) : GcDB -> GcDB :=
  cascade (fun db =>
    let checkpoints := rows_where (fun _ c => is_in ids (gk_execution_id c)) (g_checkpoints db) in
    let iterations := rows_where (fun _ e => is_in ids e) (g_iterations db) in
    let db := upd_claims (drop_rows (fun _ c => is_in ids (gl_execution_id c))) db in
    let db := upd_tool_calls (drop_rows (fun _ r => is_in ids (gw_execution_id r))) db in
    let db := upd_tool_results (drop_rows (fun _ r => is_in ids (gw_execution_id r))) db in
    let db := after_checkpoints (map fst checkpoints) (upd_checkpoints (drop_rows (fun _ c => is_in ids (gk_execution_id c))) db) in
    let db := after_iterations (map fst iterations) (upd_iterations (drop_rows (fun _ e => is_in ids e)) db) in
    upd_branches (fmap (fun b => if opt_in ids (gb_current_execution_id b)
                                 then {| gb_task_id := gb_task_id b; gb_parent_branch_id := gb_parent_branch_id b;
                                         gb_base_execution_id := gb_base_execution_id b;
                                         gb_base_checkpoint_id := gb_base_checkpoint_id b; gb_current_execution_id := None |}
                                 else b)) db).
Definition after_branches (ids : list string) : GcDB -> GcDB :=
  cascade (upd_contexts (base.filter (fun b => is_in ids b = false))).
Definition after_invocations (ids : list string) : GcDB -> GcDB :=
  cascade (upd_attempts (drop_rows (fun _ a => is_in ids (ga_invocation_id a)))).
Definition after_task (task_id : string) : GcDB -> GcDB :=
  cascade (fun db =>
    let branches := rows_where (fun _ b => bool_decide (gb_task_id b = task_id)) (g_branches db) in
    let db := upd_budgets (delete task_id) db in
    let db := upd_reservations (base.filter (fun k => bool_decide (k.1.1 = task_id) = false)) db in
    let db := upd_forks (drop_rows (fun k _ => bool_decide (k.1 = task_id))) db in
    let db := upd_retries (drop_rows (fun k _ => bool_decide (k.1 = task_id))) db in
    let db := upd_aggregates (drop_rows (fun k _ => bool_decide (k.1 = task_id))) db in
    after_branches (map fst branches) (upd_branches (drop_rows (fun _ b => bool_decide (gb_task_id b = task_id))) db)).

(** ON DELETE RESTRICT: no row that stays refers to a deleted one. *)
Definition restrict (referred : bool) : result GcError unit := guard_err (negb (foreign_keys && referred)) GcIntegrityError.

Definition branches_referred (ids : list string) (db : GcDB) : bool :=
  some_row (fun id b => negb (is_in ids id) && opt_in ids (gb_parent_branch_id b)) (g_branches db) ||
  some_row (fun _ f => is_in ids (gf_source_branch_id f) || is_in ids (gf_branch_id f)) (g_forks db) ||
  some_row (fun _ r => is_in ids (gr_branch_id r)) (g_retries db) ||
  some_row (fun _ a => is_in ids (gg_target_branch_id a)) (g_aggregates db).
Definition checkpoints_referred (ids : list string) (db : GcDB) : bool :=
  some_row (fun _ b => opt_in ids (gb_base_checkpoint_id b)) (g_branches db) ||
  some_row (fun _ f => is_in ids (gf_source_checkpoint_id f)) (g_forks db) ||
  some_row (fun _ r => opt_in ids (gr_source_checkpoint_id r)) (g_retries db).
Definition executions_referred (ids : list string) (db : GcDB) : bool :=
  some_row (fun _ b => opt_in ids (gb_base_execution_id b)) (g_branches db) ||
  some_row (fun _ f => is_in ids (gf_source_execution_id f) || is_in ids (gf_execution_id f)) (g_forks db) ||
  some_row (fun _ r => is_in ids (gr_source_execution_id r) || is_in ids (gr_execution_id r)) (g_retries db) ||
  some_row (fun _ a => is_in ids (gg_execution_id a)) (g_aggregates db).

(** A projection of a tool medium keeps its source: some projection comes from such a result. *)
Definition results_referred (p : string -> GcToolRow -> bool) (db : GcDB) : bool :=
  some_row (fun _ j => match g_tool_results db !! gj_source_result_id j with
                       | Some r => p (gj_source_result_id j) r
                       | None => false
                       end) (g_projections db).

Abbreviation Statement := (GcDB -> result GcError (GcDB * nat)).

(** DELETE of rows that no foreign key refers to. *)
Definition delete_leaf {K A} `{Countable K} (table : GcDB -> gmap K A) (upd : (gmap K A -> gmap K A) -> GcDB -> GcDB)
    (p : K -> A -> bool) : Statement :=
  fun db => Ok (upd (drop_rows p) db, count_rows p (table db)).

Definition delete_reservations (task_id : string) : Statement :=
  fun db => Ok (upd_reservations (base.filter (fun k => bool_decide (k.1.1 = task_id) = false)) db,
                length (reservation_rows db task_id)).
Definition delete_contexts (ids : list string) : Statement :=
  fun db => Ok (upd_contexts (base.filter (fun b => is_in ids b = false)) db,
                length (List.filter (is_in ids) (elements (g_contexts db)))).
Definition delete_tool_results (ids : list string) : Statement :=
  let of_execution (_ : string) (r : GcToolRow) := is_in ids (gw_execution_id r) in
  fun db => _ ← restrict (results_referred of_execution db);
            Ok (upd_tool_results (drop_rows of_execution) db, count_rows of_execution (g_tool_results db)).
Definition delete_iterations (ids : list string) : Statement :=
  fun db => let iterations := map fst (rows_where (fun _ e => is_in ids e) (g_iterations db)) in
            _ ← restrict (results_referred (tool_rows_of_iterations iterations) db);
            Ok (after_iterations iterations (upd_iterations (drop_rows (fun _ e => is_in ids e)) db),
                count_rows (fun _ e => is_in ids e) (g_iterations db)).
Definition delete_branches (ids : list string) : Statement :=
  fun db => _ ← restrict (branches_referred ids db);
            Ok (after_branches ids (upd_branches (drop_rows (fun id _ => is_in ids id)) db),
                count_rows (fun id _ => is_in ids id) (g_branches db)).
Definition delete_checkpoints (ids : list string) : Statement :=
  fun db => _ ← restrict (checkpoints_referred ids db);
            Ok (after_checkpoints ids (upd_checkpoints (drop_rows (fun id _ => is_in ids id)) db),
                count_rows (fun id _ => is_in ids id) (g_checkpoints db)).
Definition delete_invocations (ids : list string) : Statement :=
  fun db => Ok (after_invocations ids (upd_invocations (drop_rows (fun id _ => is_in ids id)) db),
                count_rows (fun id _ => is_in ids id) (g_invocations db)).
Definition delete_executions (ids : list string) : Statement :=
  fun db => let checkpoints := map fst (rows_where (fun _ c => is_in ids (gk_execution_id c)) (g_checkpoints db)) in
            let iterations := map fst (rows_where (fun _ e => is_in ids e) (g_iterations db)) in
            _ ← restrict (executions_referred ids db || checkpoints_referred checkpoints db ||
                          results_referred (fun k r => is_in ids (gw_execution_id r) || tool_rows_of_iterations iterations k r) db);
            Ok (after_executions ids (upd_executions (drop_rows (fun id _ => is_in ids id)) db),
                count_rows (fun id _ => is_in ids id) (g_executions db)).
Definition delete_budget (task_id : string) : Statement :=
  fun db => _ ← restrict (negb (bool_decide (reservation_rows db task_id = [])));
            Ok (upd_budgets (delete task_id) db, if bool_decide (is_Some (g_budgets db !! task_id)) then 1%nat else 0%nat).
(** The branches and admissions of the task are gone by then: no RESTRICT key is met. *)
Definition delete_task (task_id : string) : Statement :=
  fun db => Ok (after_task task_id (upd_tasks (delete task_id) db), if bool_decide (is_Some (g_tasks db !! task_id)) then 1%nat else 0%nat).

(** [_delete_exact]: the statement is not even sent when nothing is expected. *)
Definition delete_exact (expected : nat) (label : string) (st : Statement) : Statement :=
  fun db => if Nat.eqb expected 0 then Ok (db, 0%nat)
            else x ← st db;
                 _ ← guard_err (Nat.eqb x.2 expected) (AgentGcCollectionError ("R11-F1-C rowcount drift for " +:+ label));
                 Ok x.

(** ** Branches: children first *)

(** The depth of a branch; a parent that is not deleted does not count.  The code's table of
    known depths is a cache of this function. *)
Fixpoint branch_depth (fuel : nat) (rows : list (string * GcBranch)) (visiting : list string) (id : string) : result GcError nat :=
  match fuel with
  | 0%nat => Err (AgentGcCollectionError "R11-F1-C branch lineage cycle detected during deletion.")
  | S fuel' =>
      if is_in visiting id then Err (AgentGcCollectionError "R11-F1-C branch lineage cycle detected during deletion.")
      else
        match dict_get id rows with
        | Some {| gb_parent_branch_id := Some parent |} =>
            if is_in (map fst rows) parent
            then d ← branch_depth fuel' rows (id :: visiting) parent; mret (S d)
            else mret 0%nat
        | _ => mret 0%nat
        end
  end.

Fixpoint branch_depths (rows : list (string * GcBranch)) (ids : list string) : result GcError (list (nat * string)) :=
  match ids with
  | [] => mret []
  | id :: rest =>
      d ← branch_depth (S (S (length rows))) rows [] id;
      l ← branch_depths rows rest;
      mret ((d, id) :: l)
  end.

(** Deepest first, then by id. *)
Definition depth_ltb (a b : nat * string) : bool :=
  Nat.ltb b.1 a.1 || (Nat.eqb a.1 b.1 && String.ltb a.2 b.2).

Definition branch_delete_order (rows : list (string * GcBranch)) : result GcError (list string) :=
  l ← branch_depths rows (map fst rows);
  mret (map snd (sort_by (fun x => x) depth_ltb l)).

(** ** The transaction *)

(** The tables and what was deleted so far. *)
Abbreviation Progress := (GcDB * list (string * nat))%type.

Definition remove (counts : string -> nat) (kind : string) (st : Statement) (p : Progress) : result GcError Progress :=
  x ← delete_exact (counts kind) kind st p.1;
  mret (x.1, if Nat.eqb x.2 0 then p.2 else p.2 ++ [(kind, x.2)]).

Definition unless_empty (ids : list string) (f : Progress -> result GcError Progress) (p : Progress) : result GcError Progress :=
  if bool_decide (ids = []) then mret p else f p.

Fixpoint remove_branches (ids : list string) (p : Progress) : result GcError Progress :=
  match ids with
  | [] => mret p
  | id :: rest =>
      x ← delete_exact 1 ("branch:" +:+ id) (delete_branches [id]) p.1;
      remove_branches rest (x.1, p.2 ++ [("branch"%string, x.2)])
  end.

Definition deleted_of (l : list (string * nat)) (kind : string) : nat :=
  foldr (fun kn acc => (if bool_decide (kn.1 = kind) then kn.2 else 0) + acc)%nat 0%nat l.

Definition collect (task_id : string) (fresh : GcDryRunReport) (db : GcDB) : result GcError Progress :=
  let counts := candidate_counts fresh in
  let execution_ids := candidate_ids fresh "execution" in
  let checkpoint_ids := candidate_ids fresh "checkpoint" in
  let branch_ids := candidate_ids fresh "branch" in
  let invocation_ids := candidate_ids fresh "capability_invocation" in
  let of_task {A} (k : string * string) (_ : A) := bool_decide (k.1 = task_id) in
  let of_execution (_ : string) (r : GcToolRow) := is_in execution_ids (gw_execution_id r) in
  p ← remove counts "aggregate_admission" (delete_leaf g_aggregates upd_aggregates of_task) (db, []);
  p ← remove counts "fork_admission" (delete_leaf g_forks upd_forks of_task) p;
  p ← remove counts "retry_admission" (delete_leaf g_retries upd_retries of_task) p;
  p ← unless_empty (checkpoint_ids ++ execution_ids)
        (remove counts "resume_claim" (delete_leaf g_claims upd_claims
           (fun _ c => is_in checkpoint_ids (gl_checkpoint_id c) || is_in execution_ids (gl_execution_id c)))) p;
  p ← unless_empty checkpoint_ids
        (remove counts "checkpoint_pending_invocation" (delete_leaf g_pending upd_pending (fun k _ => is_in checkpoint_ids k.1))) p;
  p ← unless_empty execution_ids (remove counts "tool_result" (delete_tool_results execution_ids)) p;
  p ← unless_empty execution_ids (remove counts "tool_call" (delete_leaf g_tool_calls upd_tool_calls of_execution)) p;
  p ← unless_empty execution_ids (remove counts "iteration" (delete_iterations execution_ids)) p;
  p ← unless_empty invocation_ids
        (remove counts "capability_invocation_attempt" (delete_leaf g_attempts upd_attempts
           (fun _ a => is_in invocation_ids (ga_invocation_id a)))) p;
  p ← unless_empty branch_ids (fun p =>
        p ← remove counts "branch_context" (delete_contexts branch_ids) p;
        let rows := rows_where (fun id _ => is_in branch_ids id) (g_branches p.1) in
        _ ← guard_err (Nat.eqb (length rows) (counts "branch"))
              (AgentGcCollectionError "R11-F1-C branch rowset drifted before child-first deletion.");
        order ← branch_delete_order rows;
        remove_branches order p) p;
  p ← unless_empty checkpoint_ids (remove counts "checkpoint" (delete_checkpoints checkpoint_ids)) p;
  p ← unless_empty invocation_ids (remove counts "capability_invocation" (delete_invocations invocation_ids)) p;
  p ← unless_empty execution_ids (remove counts "execution" (delete_executions execution_ids)) p;
  p ← remove counts "task_budget_reservation" (delete_reservations task_id) p;
  p ← remove counts "task_budget" (delete_budget task_id) p;
  p ← remove counts "task" (delete_task task_id) p;
  _ ← guard_err (forallb (fun kind => Nat.eqb (deleted_of p.2 kind) (counts kind)) (map (fun i => (it_key i).1) (List.filter is_candidate (gc_items fresh))))
        (AgentGcCollectionError "R11-F1-C final rowcount mismatch");
  mret p.

Definition lift_report (o : option GcDryRunReport) : result GcError GcDryRunReport :=
  match o with Some r => Ok r | None => Err GcTypeError end.

(** [others]: what other transactions commit between the two reports. *)
Definition execute_task_gc (others : GcDB -> GcDB) (task_id : string) (expected_fingerprint : option string) (db : GcDB)
    : result GcError (GcDB * AgentGcCollectionResult) :=
  match g_tasks db !! task_id with
  | None => Ok (db, {| gx_task_id := task_id; gx_fingerprint := None; gx_deleted_rows := []; gx_already_collected := true |})
  | Some _ =>
      probe ← lift_report (build_task_gc_dry_run db task_id true);
      _ ← validate_candidate_report probe;
      let db := others db in
      fresh ← lift_report (build_task_gc_dry_run db task_id true);
      _ ← validate_candidate_report fresh;
      _ ← guard_err (bool_decide (gc_fingerprint fresh = gc_fingerprint probe))
            (AgentGcCollectionError "R11-F1-C graph/classification drifted while serialization fences were being acquired.");
      _ ← guard_err (match expected_fingerprint with Some f => bool_decide (gc_fingerprint fresh = f) | None => true end)
            (AgentGcCollectionError "Caller dry-run fingerprint is stale; fresh in-transaction revalidation does not match.");
      p ← collect task_id fresh db;
      Ok (p.1, {| gx_task_id := task_id; gx_fingerprint := Some (gc_fingerprint fresh);
                  gx_deleted_rows := map (fun kind => (kind, deleted_of p.2 kind))
                    (sort_by (fun x => x) String.ltb (elements (list_to_set (map fst p.2) : gset string)));
                  gx_already_collected := false |})
  end.

(** [collect_task]: committed, or rolled back. *)
Definition collect_task (others : GcDB -> GcDB) (task_id : string) (expected_fingerprint : option string) (db : GcDB)
    : GcDB * result GcError AgentGcCollectionResult :=
  match execute_task_gc others task_id expected_fingerprint db with
  | Ok (db', r) => (db', Ok r)
  | Err e => (if bool_decide (is_Some (g_tasks db !! task_id)) then others db else db, Err e)
  end.
End Statements.
