(* ===== verification/GcProperties.v ===== *)
(** * Properties of the garbage collector (files GcDryRun and GcExecutor)

    A collection that succeeds removes exactly the graph of a terminal task (and, where foreign
    keys are enforced, the few rows of other tasks that hang on it), and leaves no reference to
    a removed row in the columns that the dry run checks or a foreign key protects. *)

From S2P Require Import Prelude Canonical PythonValues GcDryRun GcExecutor.

(** ** Rows and problems *)

Lemma rows_where_elem {K A} `{Countable K} (p : K -> A -> bool) (m : gmap K A) k v :
  (k, v) ∈ rows_where p m <-> m !! k = Some v /\ p k v = true.
Proof. unfold rows_where. rw list_elem_of_In filter_In -list_elem_of_In elem_of_map_to_list. done. Qed.

Lemma rows_where_ids {K A} `{Countable K} (p : K -> A -> bool) (m : gmap K A) k :
  k ∈ map fst (rows_where p m) <-> exists v, m !! k = Some v /\ p k v = true.
Proof.
  rw list_elem_of_fmap. split.
  - intros ([k' v] & -> & E). exists v. by apply rows_where_elem.
  - intros (v & E). exists (k, v). split; [done|]. by apply rows_where_elem.
Qed.

Lemma some_row_false {K A} `{Countable K} (p : K -> A -> bool) (m : gmap K A) k v :
  some_row p m = false -> m !! k = Some v -> p k v = false.
Proof.
  unfold some_row. intros E Em. apply negb_false_iff in E. apply bool_decide_eq_true in E.
  destruct (p k v) eqn:P; [|done]. assert (I : (k, v) ∈ rows_where p m) by by apply rows_where_elem.
  rw E in I. by apply elem_of_nil in I.
Qed.

Lemma found_nil b p : found b p = [] -> b = false.
Proof. by destruct b. Qed.

Lemma flat_map_nil {A B} (f : A -> list B) l x : flat_map f l = [] -> x ∈ l -> f x = [].
Proof.
  induction l as [|y l IH]; simpl; [by intros _ ?%elem_of_nil|]. intros [E1 E2]%app_eq_nil [->|Hx]%elem_of_cons; [done|by apply IH].
Qed.

Lemma is_in_true l x : is_in l x = true <-> x ∈ l.
Proof. apply bool_decide_eq_true. Qed.
Lemma is_in_false l x : is_in l x = false <-> x ∉ l.
Proof. apply bool_decide_eq_false. Qed.
Lemma is_in_ext l l' x : (x ∈ l <-> x ∈ l') -> is_in l x = is_in l' x.
Proof. intros E. by apply bool_decide_ext. Qed.
Lemma opt_in_true l o : opt_in l o = true <-> exists x, o = Some x /\ x ∈ l.
Proof. destruct o as [y|]; simpl; [rw is_in_true; naive_solver|naive_solver]. Qed.

(** ** Reachability stays among the transcripts *)

Definition is_transcript (k : GcRowKey) : bool :=
  bool_decide (k.1 ∈ ["transcript_representation"; "transcript_payload"; "transcript_chunk"]%string).

Section Search.
Context (edges : list (GcRowKey * string * GcRowKey)) (P : GcRowKey -> Prop).
Context (closed : forall s l t, (s, l, t) ∈ edges -> P s -> P t).

Definition inside (reached : gmap GcRowKey string) : Prop := forall k, is_Some (reached !! k) -> P k.

Lemma edges_from_elem s l t : (l, t) ∈ edges_from edges s -> (s, l, t) ∈ edges.
Proof.
  unfold edges_from. rw sort_by_perm list_elem_of_omap. intros ([[s' l'] t'] & He & E). simpl in E.
  destruct (bool_decide (s' = s)) eqn:B; [|done]. breflect. by injection E as <- <-; subst.
Qed.

Lemma expand_inside s targets reached r q : P s -> (forall l t, (l, t) ∈ targets -> P t) -> inside reached ->
  expand s targets reached = (r, q) -> inside r /\ Forall P q.
Proof.
  intros Hs. revert reached r q. induction targets as [|[l t] targets IH]; simpl; intros reached r q Ht Hi E.
  { by injection E as <- <-. }
  assert (Ht' : forall l t, (l, t) ∈ targets -> P t) by (intros l' t' H'; eapply Ht; by right).
  destruct (bool_decide (is_Some (reached !! t))); [by eapply IH|].
  destruct (expand s targets _) as [r' q'] eqn:E'. injection E as <- <-.
  assert (Pt : P t) by (eapply Ht; by left). apply IH in E' as [Hr Hq]; [by split; [|constructor]|done|].
  intros k [v Hk]. apply lookup_insert_Some in Hk as [[<- _]|[_ Hk]]; [done|]. apply Hi. by eexists.
Qed.

Lemma bfs_inside fuel queue reached : Forall P queue -> inside reached -> inside (bfs edges fuel queue reached).
Proof using closed.
  revert queue reached. induction fuel as [|fuel IH]; simpl; intros queue reached Hq Hi; [done|].
  destruct queue as [|s queue]; [done|]. apply Forall_cons in Hq as [Hs Hq].
  destruct (expand s (edges_from edges s) reached) as [r q] eqn:E. apply expand_inside in E as [Hr Hq']; [|done| |done].
  - apply IH; [by apply Forall_app|done].
  - intros l t Hl. eapply closed; [by apply edges_from_elem|done].
Qed.

Lemma start_inside roots reached r q : (forall k s, (k, s) ∈ roots -> P k) -> inside reached ->
  start roots reached = (r, q) -> inside r /\ Forall P q.
Proof.
  revert reached r q. induction roots as [|[k s] roots IH]; simpl; intros reached r q Hr Hi E.
  { by injection E as <- <-. }
  assert (Hr' : forall k s, (k, s) ∈ roots -> P k) by (intros k' s' H'; eapply Hr; by right).
  destruct (bool_decide (is_Some (reached !! k))); [by eapply IH|].
  destruct (start roots _) as [r' q'] eqn:E'. injection E as <- <-.
  assert (Pk : P k) by (eapply Hr; by left). apply IH in E' as [H1 H2]; [by split; [|constructor]|done|].
  intros k' [v Hk]. apply lookup_insert_Some in Hk as [[<- _]|[_ Hk]]; [done|]. apply Hi. by eexists.
Qed.

Lemma search_inside roots : (forall k s, (k, s) ∈ roots -> P k) -> inside (search edges roots).
Proof using closed.
  intros Hr. unfold search. destruct (start _ ∅) as [r q] eqn:E. apply start_inside in E as [Hi Hq].
  - by apply bfs_inside.
  - intros k s. rw sort_by_perm. apply Hr.
  - intros k [v Hk]. by rw lookup_empty in Hk.
Qed.
End Search.

Section Transcripts.
Context (db : GcDB) (task_id : string).

Abbreviation Link := (GcRowKey * string * option GcRowKey)%type.

Definition link_closed (l : Link) : Prop := is_transcript l.1.1 = true -> forall t, l.2 = Some t -> is_transcript t = true.
Definition tr_closed (st : TrState) : Prop := Forall link_closed (ts_links st).
Definition transcript_target (o : option GcRowKey) : Prop := forall t, o = Some t -> is_transcript t = true.

Lemma tr_link_closed st s l t : tr_closed st -> transcript_target t -> tr_closed (tr_link st s l t).
Proof. intros H Ht. constructor; [|done]. intros _. exact Ht. Qed.

Lemma load_payload_closed fuel : forall visiting ref st st' o, tr_closed st -> load_payload db fuel visiting ref st = (st', o) ->
  tr_closed st' /\ transcript_target o.
Proof.
  assert (T : forall ref, transcript_target (Some (payload_key ref))) by (intros ref t [= <-]; done).
  induction fuel as [|fuel IH]; intros visiting ref st st' o H E; simpl in E.
  all: destruct (bool_decide (ref ∈ ts_payloads st)); [by injection E as <- <-|].
  all: destruct (bool_decide (ref ∈ visiting)); [by injection E as <- <-|].
  all: destruct (g_payloads db !! ref) as [row|]; [|by injection E as <- <-].
  all: set (st2 := if bool_decide (gy_chunk_id row ∈ g_chunks db) then _ else _) in E.
  all: assert (H2 : tr_closed st2) by (subst st2; destruct (bool_decide _); [apply tr_link_closed; [done|by intros t [= <-]]|done]).
  all: destruct (gy_parent_payload_root_ref row) as [parent|]; [|by injection E as <- <-].
  - by injection E as <- <-.
  - destruct (load_payload db fuel (ref :: visiting) parent st2) as [st3 target] eqn:L.
    destruct (IH _ _ _ _ _ H2 L) as [H3 Ht]. injection E as <- <-. split; [by apply tr_link_closed|done].
Qed.

Lemma load_representation_closed fuel : forall visiting k st st' o, tr_closed st -> load_representation db fuel visiting k st = (st', o) ->
  tr_closed st' /\ transcript_target o.
Proof.
  assert (T : forall k, transcript_target (Some (representation_key k))) by (intros k t [= <-]; done).
  induction fuel as [|fuel IH]; intros visiting k st st' o H E; cbn -[load_payload] in E.
  all: destruct (bool_decide (k ∈ ts_representations st)); [by injection E as <- <-|].
  all: destruct (bool_decide (k ∈ visiting)); [by injection E as <- <-|].
  all: destruct (g_representations db !! k) as [row|]; [|by injection E as <- <-].
  all: destruct (load_payload db _ [] (gn_payload_root_ref row) _) as [st2 payload] eqn:L.
  all: destruct (load_payload_closed _ _ _ (tr_representation st k) _ _ H L) as [H2 Hp].
  all: assert (H3 : tr_closed (tr_link st2 (representation_key k) "representation_payload" payload)) by by apply tr_link_closed.
  all: destruct (gn_parent_transcript_ref row) as [ref|]; [|by injection E as <- <-].
  all: destruct (gn_parent_transcript_version row) as [v|]; [|by injection E as <- <-].
  - by injection E as <- <-.
  - destruct (load_representation db fuel _ _ _) as [st4 target] eqn:L4. destruct (IH _ _ _ _ _ H3 L4) as [H4 Ht].
    injection E as <- <-. split; [by apply tr_link_closed|done].
Qed.

Lemma transcripts_closed : tr_closed (transcripts db task_id).1 /\ Forall (fun k => is_transcript k = true) (transcripts db task_id).2.
Proof.
  unfold transcripts. generalize (sort_by fst String.ltb (checkpoint_rows db task_id)). intros l.
  assert (I : tr_closed no_transcripts /\ Forall (fun k => is_transcript k = true) ([] : list GcRowKey)) by (split; constructor).
  revert I. generalize no_transcripts, ([] : list GcRowKey). induction l as [|r l IH]; intros st rs [H1 H2]; [done|].
  cbn -[load_checkpoint_transcript]. destruct (load_checkpoint_transcript db (st, rs) r) as [st' rs'] eqn:E. apply IH.
  unfold load_checkpoint_transcript in E.
  destruct (gk_transcript_ref r.2) as [ref|], (gk_transcript_version r.2) as [v|]; try by injection E as <- <-.
  destruct (load_representation db _ _ _ _) as [st1 key] eqn:L. destruct (load_representation_closed _ _ _ _ _ _ H1 L) as [H3 Ht].
  injection E as <- <-. split; [by apply tr_link_closed|]. destruct key as [k|]; [|done]. constructor; [by apply Ht|done].
Qed.

Definition not_transcript (k : GcRowKey) : Prop := is_transcript k = false.
Definition from_owned (l : Link) : Prop := not_transcript l.1.1.

Lemma key_of_kind kind ids id : not_transcript (kind, "")%string -> not_transcript (default (task_key task_id) (key_of kind ids id)).
Proof. intros H. unfold key_of. by destruct (is_in ids id). Qed.

Lemma link_opt_owned s label find o : not_transcript s -> Forall from_owned (link_opt s label find o).
Proof. intros H. destruct o; repeat constructor; done. Qed.

Lemma map_owned {A} (f : A -> Link) l : (forall x, from_owned (f x)) -> Forall from_owned (map f l).
Proof. intros H. apply Forall_forall. intros y (x & -> & _)%list_elem_of_fmap. apply H. Qed.

Lemma flat_map_owned {A} (f : A -> list Link) l : (forall x, Forall from_owned (f x)) -> Forall from_owned (flat_map f l).
Proof. intros H. induction l as [|x l IH]; simpl; [constructor|]. by apply Forall_app. Qed.

Lemma aggregate_links_owned r : Forall from_owned (aggregate_links db task_id r).
Proof.
  unfold aggregate_links. apply Forall_app. split; [by repeat constructor|].
  destruct (gg_source_branch_snapshots r.2); try by constructor. destruct (gg_source_execution_snapshots r.2); try by constructor.
  apply Forall_app. split; apply flat_map_owned; intros s.
  - unfold branch_snapshot_link. destruct (snapshot_get _ s); by repeat constructor.
  - unfold execution_snapshot_links. destruct (snapshot_get "execution_id" s); [|constructor].
    constructor; [done|]. destruct (snapshot_get "checkpoint_id" s) as [[]|]; by repeat constructor.
Qed.

Lemma task_links_owned : Forall from_owned (task_links db task_id).
Proof.
  unfold task_links. rw !Forall_app. repeat split.
  { destruct (bool_decide _); by repeat constructor. }
  all: apply map_owned; intros x; try done; by apply key_of_kind.
Qed.

Lemma invocation_links_owned : Forall from_owned (invocation_links db task_id).
Proof. unfold invocation_links. rw !Forall_app. split_and!; by apply map_owned. Qed.

Lemma owned_links_owned : Forall from_owned (owned_links db task_id).
Proof.
  pose proof task_links_owned as T. pose proof invocation_links_owned as V. unfold owned_links. revert T V.
  generalize (task_links db task_id), (invocation_links db task_id). intros tl vl T V.
  rw !Forall_app. split_and!; try done.
  - apply flat_map_owned. intros r. unfold branch_links. rw !Forall_app. split_and!; by apply link_opt_owned.
  - apply flat_map_owned. intros r. unfold execution_links. rw !Forall_app. split_and!; try by apply link_opt_owned. all: by apply map_owned.
  - apply flat_map_owned. intros r. unfold checkpoint_links. apply Forall_app. split; [|by apply link_opt_owned].
    unfold execution_key, key_of. destruct (is_in _ _); by repeat constructor.
  - apply flat_map_owned. intros r. by repeat constructor.
  - apply flat_map_owned. intros r. unfold iteration_links. constructor; [by apply key_of_kind|]. apply Forall_app. split; by apply map_owned.
  - apply flat_map_owned. intros r. by repeat constructor.
  - apply flat_map_owned. intros r. unfold retry_links. apply Forall_app. split; [by repeat constructor|by apply link_opt_owned].
  - apply flat_map_owned. apply aggregate_links_owned.
Qed.

(** With the policy on, only transcripts are reached. *)
Lemma reached_transcripts k : is_Some (search (all_edges db task_id) (roots db task_id true) !! k) -> is_transcript k = true.
Proof.
  revert k. apply (search_inside _ (fun k => is_transcript k = true)).
  - intros s l t He Hs. unfold all_edges in He. apply list_elem_of_omap in He as ([[s' l'] o] & Hl & E). simpl in E.
    destruct o as [t'|]; [|done]. injection E as -> -> ->. apply elem_of_app in Hl as [Hl|Hl].
    + pose proof owned_links_owned as F. rw Forall_forall in F. specialize (F _ Hl). unfold from_owned, not_transcript in F. simpl in F. congruence.
    + destruct transcripts_closed as [F _]. unfold tr_closed in F. rw Forall_forall in F. by apply (F _ Hl).
  - intros k s Hk. unfold roots in Hk. simpl in Hk. apply list_elem_of_fmap in Hk as (k' & E & Hk'). injection E as -> _.
    rw elem_of_elements elem_of_list_to_set in Hk'. destruct transcripts_closed as [_ F]. rw Forall_forall in F. by apply F.
Qed.
End Transcripts.

(** ** What a valid report says *)

Lemma sorted_rows_elem db task_id k : k ∈ sorted_rows db task_id <-> k ∈ owned_keys db task_id \/ k ∈ transcript_keys db task_id.
Proof. unfold sorted_rows, all_keys. by rw sort_by_perm elem_of_elements elem_of_list_to_set elem_of_app. Qed.

Lemma transcript_keys_kind db task_id k : k ∈ transcript_keys db task_id -> is_transcript k = true.
Proof. unfold transcript_keys. rw !elem_of_app !list_elem_of_fmap. intros [(x & -> & _)|[(x & -> & _)|(x & -> & _)]]; done. Qed.

Lemma task_key_owned db task_id : task_key task_id ∈ sorted_rows db task_id.
Proof. apply sorted_rows_elem. left. by left. Qed.

Lemma valid_report db task_id r : build_task_gc_dry_run db task_id true = Some r -> validate_candidate_report r = Ok tt ->
  is_Some (g_tasks db !! task_id) /\ problems db task_id true = Some [] /\
  forall kind x, not_transcript (kind, x) -> x ∈ candidates_of r kind <-> (kind, x) ∈ owned_keys db task_id.
Proof.
  intros B V. unfold validate_candidate_report in V. apply guard_bind_ok in V as [Hf _]. apply negb_true_iff in Hf.
  unfold build_task_gc_dry_run in B. destruct (g_tasks db !! task_id) as [t|]; [|by injection B as <-; vm_compute in Hf].
  destruct (problems db task_id true) as [ps|]; [|done]. injection B as <-. destruct (bool_decide (ps = [])) eqn:E.
  2: { exfalso. unfold failed_closed in Hf. simpl in Hf. apply not_true_iff_false in Hf. apply Hf, existsb_exists.
       eexists. split; [apply in_map, list_elem_of_In, task_key_owned|done]. }
  breflect. subst ps. split_and!; [by eexists|done|]. intros kind x Hk. unfold candidates_of. simpl.
  rw list_elem_of_fmap. split.
  - intros (i & -> & Hi). apply list_elem_of_In, filter_In in Hi as [Hi Hc]. apply in_map_iff in Hi as (k & <- & Hk').
    breflect. apply list_elem_of_In, sorted_rows_elem in Hk'.
    assert (Ek : it_key (classify_item (active_task db task_id) (search (all_edges db task_id) (roots db task_id true)) k) = k)
      by (unfold classify_item; by destruct (_ !! k)).
    rw Ek in H0. rw Ek. subst kind. destruct k as [k1 k2]. simpl in *. destruct Hk' as [Hk'|Hk']; [done|].
    apply transcript_keys_kind in Hk'. unfold not_transcript in Hk. rw Ek /= in Hk. congruence.
  - intros Ho. exists (classify_item (active_task db task_id) (search (all_edges db task_id) (roots db task_id true)) (kind, x)).
    unfold classify_item. destruct (search _ _ !! (kind, x)) as [v|] eqn:Es.
    { exfalso. unfold not_transcript in Hk. assert (R : is_transcript (kind, x) = true) by (eapply reached_transcripts; by eexists). congruence. }
    split; [done|]. apply list_elem_of_In, filter_In. split.
    + apply in_map_iff. exists (kind, x). split; [by rw Es|]. apply list_elem_of_In, sorted_rows_elem. by left.
    + simpl. by rw bool_decide_true.
Qed.

(** A row is classified once. *)
Lemma report_keys_nodup db task_id eligible r : build_task_gc_dry_run db task_id eligible = Some r -> NoDup (map it_key (gc_items r)).
Proof.
  unfold build_task_gc_dry_run. destruct (g_tasks db !! task_id); [|intros [= <-]; simpl; apply NoDup_singleton].
  destruct (problems db task_id eligible) as [ps|]; [|done]. intros [= <-]. simpl.
  assert (N : NoDup (sorted_rows db task_id)) by (unfold sorted_rows; rw sort_by_perm; apply NoDup_elements).
  assert (M : forall f, (forall k, it_key (f k) = k) -> NoDup (map it_key (map f (sorted_rows db task_id)))).
  { intros f Hf. rw map_map (map_ext _ id) ?map_id; [by intros k; apply Hf|done]. }
  destruct (bool_decide (ps = [])); apply M; [|done]. intros k. unfold classify_item. by destruct (_ !! k).
Qed.

Lemma gc_candidates_nodup r kind : NoDup (map it_key (gc_items r)) -> NoDup (candidates_of r kind).
Proof.
  intros N. unfold candidates_of. apply (NoDup_fmap_1 (pair kind)). rw -list_fmap_compose.
  apply (NoDup_map_filter it_key (fun i => is_candidate i && bool_decide ((it_key i).1 = kind))) in N. revert N.
  match goal with |- NoDup ?l -> NoDup ?l' => assert (l = l') as ->; [|done] end.
  apply map_ext_in. intros i [_ H]%filter_In. breflect. simpl. by destruct (it_key i); simpl in *; subst.
Qed.

Lemma in_map_kind {A} (kind kind' x : string) (f : A -> string) l :
  (kind, x) ∈ map (fun r => (kind', f r)) l <-> (if String.eqb kind kind' then x ∈ map f l else False).
Proof.
  rw list_elem_of_fmap. destruct (String.eqb_spec kind kind') as [->|Hne].
  - rw list_elem_of_fmap. split; intros (r & E & Hr); exists r; (split; [|done]); [by injection E as ->|by rw E].
  - split; [|done]. intros (r & E & _). by injection E.
Qed.

(** Which rows a kind stands for. *)
Definition kind_rows (db : GcDB) (task_id kind : string) : list string :=
  if String.eqb kind "task_budget_reservation" then map reservation_identity (reservation_rows db task_id)
  else if String.eqb kind "branch" then branch_ids db task_id
  else if String.eqb kind "execution" then execution_ids db task_id
  else if String.eqb kind "fork_admission" then map (fun r => pair_identity r.1) (fork_rows db task_id)
  else if String.eqb kind "retry_admission" then map (fun r => pair_identity r.1) (retry_rows db task_id)
  else if String.eqb kind "aggregate_admission" then map (fun r => pair_identity r.1) (aggregate_rows db task_id)
  else if String.eqb kind "branch_context" then context_rows db task_id
  else if String.eqb kind "checkpoint" then checkpoint_ids db task_id
  else if String.eqb kind "checkpoint_pending_invocation" then map (fun r => pending_identity r.1) (pending_rows db task_id)
  else if String.eqb kind "resume_claim" then map fst (claim_rows db task_id)
  else if String.eqb kind "iteration" then map fst (iteration_rows db task_id)
  else if String.eqb kind "tool_call" then map fst (tool_call_rows db task_id)
  else if String.eqb kind "tool_result" then map fst (tool_result_rows db task_id)
  else if String.eqb kind "capability_invocation" then invocation_ids db task_id
  else if String.eqb kind "capability_invocation_attempt" then map fst (attempt_rows db task_id)
  else [].

Lemma owned_kind db task_id kind x : kind ∈ CANDIDATE_KINDS -> kind <> "task"%string -> kind <> "task_budget"%string ->
  (kind, x) ∈ owned_keys db task_id <-> x ∈ kind_rows db task_id kind.
Proof.
  intros Hk H1 H2. unfold owned_keys.
  assert (B : (kind, x) ∉ (if bool_decide (is_Some (g_budgets db !! task_id)) then [("task_budget"%string, task_id)] else [])).
  { destruct (bool_decide _); [|by apply not_elem_of_nil]. intros E%list_elem_of_singleton. congruence. }
  assert (T : (kind, x) <> task_key task_id) by (intros [= E _]; done).
  assert (C : map (fun b : string => b) (context_rows db task_id) = context_rows db task_id) by apply map_id.
  rw elem_of_cons !elem_of_app !in_map_kind C. clear C.
  unfold CANDIDATE_KINDS in Hk. rw !elem_of_cons elem_of_nil in Hk.
  unfold kind_rows, branch_ids, execution_ids, checkpoint_ids, invocation_ids.
  repeat match type of Hk with
  | _ \/ _ => destruct Hk as [->|Hk];
      [first [done|cbn [String.eqb Ascii.eqb Bool.eqb]; tauto]|]
  end. done.
Qed.

(** ** Statements *)

Lemma drop_rows_id {K A} `{Countable K} (p : K -> A -> bool) (m : gmap K A) :
  (forall k v, m !! k = Some v -> p k v = false) -> drop_rows p m = m.
Proof. intros E. unfold drop_rows. apply map_filter_id. simpl. done. Qed.

Lemma drop_rows_lookup {K A} `{Countable K} (p : K -> A -> bool) (m : gmap K A) k v :
  drop_rows p m !! k = Some v <-> m !! k = Some v /\ p k v = false.
Proof. unfold drop_rows. by rw map_lookup_filter_Some. Qed.

Lemma remove_counted counts kind st (p p' : GcDB * list (string * nat)) : remove counts kind st p = Ok p' ->
  (counts kind = 0%nat /\ p'.1 = p.1) \/ st p.1 = Ok (p'.1, counts kind).
Proof.
  unfold remove, delete_exact. intros H. apply bind_ok in H as (x & Hx & H). injection H as <-.
  destruct (Nat.eqb_spec (counts kind) 0) as [E|E]; [injection Hx as <-; by left|].
  apply bind_ok in Hx as (y & Hy & Hx). apply guard_bind_ok in Hx as [N%Nat.eqb_eq Hx]. injection Hx as <-. right.
  rw Hy -N. by destruct y.
Qed.

Lemma remove_cases counts kind st (p p' : GcDB * list (string * nat)) : remove counts kind st p = Ok p' ->
  (counts kind = 0%nat /\ p'.1 = p.1) \/ exists n, st p.1 = Ok (p'.1, n).
Proof. intros [H|H]%remove_counted; [by left|right; by eexists]. Qed.

Lemma unless_cases counts kind st ids (p p' : GcDB * list (string * nat)) : unless_empty ids (remove counts kind st) p = Ok p' ->
  ((ids = [] \/ counts kind = 0%nat) /\ p'.1 = p.1) \/ exists n, st p.1 = Ok (p'.1, n).
Proof.
  unfold unless_empty. destruct (bool_decide (ids = [])) eqn:B; breflect.
  - intros H. injection H as <-. left. split; [by left|done].
  - intros [[E H]|H]%remove_cases; [left; split; [by right|done]|by right].
Qed.

Lemma filter_same_length {A} (p q : A -> bool) (l : list A) : (forall x, q x = true -> p x = true) ->
  length (List.filter p l) = length (List.filter q l) -> forall x, x ∈ l -> p x = q x.
Proof.
  intros I. assert (L : forall l, (length (List.filter q l) <= length (List.filter p l))%nat).
  { induction l0 as [|x l0 IH]; simpl; [lia|]. destruct (q x) eqn:Q; [rw (I _ Q) /=; lia|destruct (p x); simpl; lia]. }
  induction l as [|y l IH]; simpl; intros E x; [by intros ?%elem_of_nil|]. specialize (L l).
  destruct (q y) eqn:Q; [rw (I _ Q) /= in E|destruct (p y) eqn:P; simpl in E; [lia|]];
    (intros [->|Hx]%elem_of_cons; [rw Q; auto|apply IH; [lia|done]]).
Qed.

(** As many rows satisfy the weaker predicate as the stronger one: the same rows. *)
Lemma count_rows_same {K A} `{Countable K} (p q : K -> A -> bool) (m : gmap K A) : (forall k v, q k v = true -> p k v = true) ->
  count_rows p m = count_rows q m -> forall k v, m !! k = Some v -> p k v = q k v.
Proof.
  intros I E k v Ek. apply (filter_same_length (fun kv => p kv.1 kv.2) (fun kv => q kv.1 kv.2) (map_to_list m)) with (x := (k, v));
    [by intros [??]; apply I|exact E|by apply elem_of_map_to_list].
Qed.

(** An update that keeps its table is the identity. *)
Definition lens {T} (table : GcDB -> T) (upd : (T -> T) -> GcDB -> GcDB) : Prop :=
  forall f db, f (table db) = table db -> upd f db = db.

Lemma remove_leaf {K A} `{Countable K} counts kind (table : GcDB -> gmap K A) upd pred p p' : lens table upd ->
  (counts kind = 0%nat -> forall k v, table p.1 !! k = Some v -> pred k v = false) ->
  remove counts kind (delete_leaf table upd pred) p = Ok p' -> p'.1 = upd (drop_rows pred) p.1.
Proof.
  intros L Z [[E ->]|(n & E)]%remove_cases; [|by injection E as <- _].
  symmetry. apply L, drop_rows_id. by apply Z.
Qed.

Lemma unless_leaf {K A} `{Countable K} counts kind ids (table : GcDB -> gmap K A) upd pred p p' : lens table upd ->
  (ids = [] \/ counts kind = 0%nat -> forall k v, table p.1 !! k = Some v -> pred k v = false) ->
  unless_empty ids (remove counts kind (delete_leaf table upd pred)) p = Ok p' -> p'.1 = upd (drop_rows pred) p.1.
Proof.
  intros L Z [[E ->]|(n & E)]%unless_cases; [|by injection E as <- _].
  symmetry. apply L, drop_rows_id. by apply Z.
Qed.

Section Cascades.
Context (fk : bool).

Lemma after_iterations_id ids db :
  (forall id w, g_tool_calls db !! id = Some w -> gw_iteration_id w ∉ ids) ->
  (forall id w, g_tool_results db !! id = Some w -> gw_iteration_id w ∉ ids) -> after_iterations fk ids db = db.
Proof.
  intros H1 H2. unfold after_iterations, cascade. destruct fk; [|done]. destruct db; simpl in *.
  f_equal; apply drop_rows_id; intros; apply is_in_false; naive_solver.
Qed.

(** The tool rows of other executions that hang on an iteration of these executions. *)
Definition hangs (iterations : gmap string string) (E : list string) (w : GcToolRow) : bool :=
  fk && match iterations !! gw_iteration_id w with Some e => is_in E e | None => false end.

Lemma hangs_rows E iterations w :
  fk && is_in (map fst (rows_where (fun _ e => is_in E e) iterations)) (gw_iteration_id w) = hangs iterations E w.
Proof.
  unfold hangs. f_equal. apply bool_eq_iff. rw is_in_true rows_where_ids. split; [by intros (e & -> & ?)|].
  destruct (iterations !! _) as [e|]; [|done]. intros ?. by exists e.
Qed.

Lemma after_checkpoints_id ids db :
  (forall id c, g_claims db !! id = Some c -> gl_checkpoint_id c ∉ ids) ->
  (forall k v, g_pending db !! k = Some v -> k.1 ∉ ids) -> after_checkpoints fk ids db = db.
Proof.
  intros H1 H2. unfold after_checkpoints, cascade. destruct fk; [|done]. destruct db; simpl in *.
  f_equal; apply drop_rows_id; intros; apply is_in_false; naive_solver.
Qed.

Lemma after_branches_id ids db : (forall b, b ∈ g_contexts db -> b ∉ ids) -> after_branches fk ids db = db.
Proof.
  intros H1. unfold after_branches, cascade. destruct fk; [|done]. destruct db; simpl in *.
  f_equal. apply set_eq. intros b. rw elem_of_filter is_in_false. naive_solver.
Qed.

Lemma after_invocations_id ids db :
  (forall id a, g_attempts db !! id = Some a -> ga_invocation_id a ∉ ids) -> after_invocations fk ids db = db.
Proof.
  intros H1. unfold after_invocations, cascade. destruct fk; [|done]. destruct db; simpl in *.
  f_equal; apply drop_rows_id; intros; apply is_in_false; naive_solver.
Qed.

Lemma no_rows {K A} `{Countable K} (p : K -> A -> bool) (m : gmap K A) :
  (forall k v, m !! k = Some v -> p k v = false) -> rows_where p m = [].
Proof.
  intros E. destruct (rows_where p m) as [|[k v] l] eqn:R; [done|]. assert (I : (k, v) ∈ rows_where p m) by (rw R; by left).
  apply rows_where_elem in I as [Ek Hp]. by rw E in Hp.
Qed.

Lemma after_executions_id ids db :
  (forall id c, g_claims db !! id = Some c -> gl_execution_id c ∉ ids) ->
  (forall id w, g_tool_calls db !! id = Some w -> gw_execution_id w ∉ ids) ->
  (forall id w, g_tool_results db !! id = Some w -> gw_execution_id w ∉ ids) ->
  (forall id c, g_checkpoints db !! id = Some c -> gk_execution_id c ∉ ids) ->
  (forall id e, g_iterations db !! id = Some e -> e ∉ ids) ->
  (forall id b, g_branches db !! id = Some b -> opt_in ids (gb_current_execution_id b) = false) ->
  after_executions fk ids db = db.
Proof.
  intros H1 H2 H3 H4 H5 H6. unfold after_executions, cascade. destruct fk eqn:F; [|done].
  assert (R1 : rows_where (fun _ c => is_in ids (gk_execution_id c)) (g_checkpoints db) = [])
    by (apply no_rows; intros; apply is_in_false; naive_solver).
  assert (R2 : rows_where (fun _ e => is_in ids e) (g_iterations db) = []) by (apply no_rows; intros; apply is_in_false; naive_solver).
  rw R1 R2. cbn [map]. rw -F after_checkpoints_id; [by intros; apply not_elem_of_nil|by intros; apply not_elem_of_nil|].
  rw after_iterations_id; [by intros; apply not_elem_of_nil|by intros; apply not_elem_of_nil|].
  destruct db; simpl in *. f_equal; try (apply drop_rows_id; intros; apply is_in_false; naive_solver).
  apply map_eq. intros id. rw lookup_fmap. destruct (_ !! id) as [b|] eqn:E; simpl; [|done]. by rw (H6 _ _ E).
Qed.

Lemma after_task_id task_id db : g_budgets db !! task_id = None -> (forall k, k ∈ g_reservations db -> k.1.1 <> task_id) ->
  (forall k v, g_forks db !! k = Some v -> k.1 <> task_id) -> (forall k v, g_retries db !! k = Some v -> k.1 <> task_id) ->
  (forall k v, g_aggregates db !! k = Some v -> k.1 <> task_id) ->
  (forall id b, g_branches db !! id = Some b -> gb_task_id b <> task_id) -> after_task fk task_id db = db.
Proof.
  intros H1 H2 H3 H4 H5 H6. unfold after_task, cascade. destruct fk eqn:F; [|done].
  assert (R : rows_where (fun _ b => bool_decide (gb_task_id b = task_id)) (g_branches db) = [])
    by (apply no_rows; intros; apply bool_decide_false; naive_solver).
  rw R. cbn [map]. rw -F after_branches_id; [by intros; apply not_elem_of_nil|].
  destruct db; simpl in *. f_equal; try (apply drop_rows_id; intros; apply bool_decide_false; naive_solver).
  - by apply delete_id.
  - apply set_eq. intros k. rw elem_of_filter bool_decide_eq_false. naive_solver.
Qed.
End Cascades.

(** ** Branches *)

Lemma branch_depths_ids rows ids l : branch_depths rows ids = Ok l -> map snd l = ids.
Proof.
  revert l. induction ids as [|id ids IH]; simpl; intros l H; [by injection H as <-|].
  apply bind_ok in H as (d & _ & H). apply bind_ok in H as (l' & Hl & H). injection H as <-. simpl. by rw (IH _ Hl).
Qed.

Lemma branch_order_perm rows order : branch_delete_order rows = Ok order -> order ≡ₚ map fst rows.
Proof.
  unfold branch_delete_order. intros H. apply bind_ok in H as (l & Hl & H). injection H as <-.
  rw -(branch_depths_ids _ _ _ Hl). apply (fmap_Permutation snd). apply sort_by_perm.
Qed.

Lemma drop_rows_twice {K A} `{Countable K} (p q : K -> A -> bool) (m : gmap K A) :
  drop_rows p (drop_rows q m) = drop_rows (fun k v => q k v || p k v) m.
Proof.
  apply map_eq. intros k. apply option_eq. intros v. rw !drop_rows_lookup orb_false_iff. naive_solver.
Qed.

Lemma drop_rows_ext {K A} `{Countable K} (p q : K -> A -> bool) (m : gmap K A) :
  (forall k v, m !! k = Some v -> p k v = q k v) -> drop_rows p m = drop_rows q m.
Proof. intros E. apply map_eq. intros k. apply option_eq. intros v. rw !drop_rows_lookup. naive_solver. Qed.

Lemma remove_branches_ok fk ids p p' : (forall b, b ∈ g_contexts p.1 -> b ∉ ids) -> remove_branches fk ids p = Ok p' ->
  p'.1 = upd_branches (drop_rows (fun id _ => is_in ids id)) p.1.
Proof.
  revert p. induction ids as [|id ids IH]; simpl; intros p Hc H.
  { injection H as <-. destruct p as [[] d]; simpl. f_equal. symmetry. by apply drop_rows_id. }
  apply bind_ok in H as (x & Hx & H). unfold delete_exact in Hx. simpl in Hx.
  apply bind_ok in Hx as (y & Hy & Hx). apply guard_bind_ok in Hx as [_ Hx]. injection Hx as ->.
  unfold delete_branches in Hy. apply bind_ok in Hy as ([] & _ & Hy). injection Hy as Hy.
  rw after_branches_id in Hy.
  { destruct p as [[] d]; simpl in *. intros b Hb. rw list_elem_of_singleton. intros ->. apply (Hc id Hb). by left. }
  apply IH in H.
  - rw H -Hy /=. destruct p as [[] d]; simpl. f_equal. rw drop_rows_twice. apply drop_rows_ext. intros k v _.
    unfold is_in. apply bool_eq_iff. rw orb_true_iff !bool_decide_eq_true. by rw list_elem_of_singleton elem_of_cons.
  - rw -Hy /=. destruct p as [[] d]; simpl in *. intros b Hb Hin. apply (Hc b Hb). by right.
Qed.

(** ** The whole deletion *)

(** The rows of the task leave.  When foreign keys are enforced so do the tool rows of its
    iterations and the claims of its checkpoints that name another execution. *)
Definition collected (fk : bool) (task_id : string) (E B K I : list string) (db : GcDB) : GcDB :=
  let of_task {A} (k : string * string) (_ : A) := bool_decide (k.1 = task_id) in
  let of_execution (_ : string) (r : GcToolRow) := is_in E (gw_execution_id r) || hangs fk (g_iterations db) E r in
  upd_tasks (delete task_id) (upd_budgets (delete task_id)
    (upd_reservations (base.filter (fun k => bool_decide (k.1.1 = task_id) = false))
    (upd_executions (drop_rows (fun id _ => is_in E id)) (upd_invocations (drop_rows (fun id _ => is_in I id))
    (upd_checkpoints (drop_rows (fun id _ => is_in K id)) (upd_branches (drop_rows (fun id _ => is_in B id))
    (upd_contexts (base.filter (fun b => is_in B b = false))
    (upd_attempts (drop_rows (fun _ a => is_in I (ga_invocation_id a))) (upd_iterations (drop_rows (fun _ e => is_in E e))
    (upd_tool_calls (drop_rows of_execution) (upd_tool_results (drop_rows of_execution)
    (upd_pending (drop_rows (fun k _ => is_in K k.1))
    (upd_claims (drop_rows (fun _ c => is_in E (gl_execution_id c) || (fk && is_in K (gl_checkpoint_id c))))
    (upd_retries (drop_rows of_task) (upd_forks (drop_rows of_task) (upd_aggregates (drop_rows of_task) db)))))))))))))))).

(** What the deletion relies on. *)
Record sealed (db : GcDB) (task_id : string) (E B K I : list string) : Prop := {
  se_branches id b : g_branches db !! id = Some b -> id ∈ B <-> gb_task_id b = task_id;
  se_checkpoints id k : g_checkpoints db !! id = Some k -> gk_execution_id k ∈ E -> id ∈ K;
  se_current id b : g_branches db !! id = Some b -> id ∉ B -> opt_in E (gb_current_execution_id b) = false
}.

(** Nothing is skipped that should be deleted. *)
Record complete (db : GcDB) (task_id : string) (counts : string -> nat) (E B K I : list string) : Prop := {
  co_aggregates k v : counts "aggregate_admission"%string = 0%nat -> g_aggregates db !! k = Some v -> k.1 <> task_id;
  co_forks k v : counts "fork_admission"%string = 0%nat -> g_forks db !! k = Some v -> k.1 <> task_id;
  co_retries k v : counts "retry_admission"%string = 0%nat -> g_retries db !! k = Some v -> k.1 <> task_id;
  co_claims id c : counts "resume_claim"%string = 0%nat -> g_claims db !! id = Some c -> gl_execution_id c ∉ E;
  co_claims_counted : counts "resume_claim"%string = count_rows (fun _ c => is_in E (gl_execution_id c)) (g_claims db);
  co_pending k v : counts "checkpoint_pending_invocation"%string = 0%nat -> g_pending db !! k = Some v -> k.1 ∉ K;
  co_results id w : counts "tool_result"%string = 0%nat -> g_tool_results db !! id = Some w -> gw_execution_id w ∉ E;
  co_calls id w : counts "tool_call"%string = 0%nat -> g_tool_calls db !! id = Some w -> gw_execution_id w ∉ E;
  co_iterations id e : counts "iteration"%string = 0%nat -> g_iterations db !! id = Some e -> e ∉ E;
  co_attempts id a : counts "capability_invocation_attempt"%string = 0%nat -> g_attempts db !! id = Some a -> ga_invocation_id a ∉ I;
  co_contexts b : counts "branch_context"%string = 0%nat -> b ∈ g_contexts db -> b ∉ B;
  co_checkpoints : counts "checkpoint"%string = 0%nat -> K = [];
  co_invocations : counts "capability_invocation"%string = 0%nat -> I = [];
  co_executions : counts "execution"%string = 0%nat -> E = [];
  co_reservations k : counts "task_budget_reservation"%string = 0%nat -> k ∈ g_reservations db -> k.1.1 <> task_id;
  co_budget : counts "task_budget"%string = 0%nat -> g_budgets db !! task_id = None;
  co_task : counts "task"%string <> 0%nat
}.

Ltac solve_lens := intros ? [] ?; simpl in *; by f_equal.
Lemma lens_aggregates : lens g_aggregates upd_aggregates. Proof. solve_lens. Qed.
Lemma lens_forks : lens g_forks upd_forks. Proof. solve_lens. Qed.
Lemma lens_retries : lens g_retries upd_retries. Proof. solve_lens. Qed.
Lemma lens_claims : lens g_claims upd_claims. Proof. solve_lens. Qed.
Lemma lens_pending : lens g_pending upd_pending. Proof. solve_lens. Qed.
Lemma lens_tool_results : lens g_tool_results upd_tool_results. Proof. solve_lens. Qed.
Lemma lens_tool_calls : lens g_tool_calls upd_tool_calls. Proof. solve_lens. Qed.
Lemma lens_attempts : lens g_attempts upd_attempts. Proof. solve_lens. Qed.
Lemma lens_iterations : lens g_iterations upd_iterations. Proof. solve_lens. Qed.
Lemma lens_checkpoints : lens g_checkpoints upd_checkpoints. Proof. solve_lens. Qed.
Lemma lens_invocations : lens g_invocations upd_invocations. Proof. solve_lens. Qed.
Lemma lens_executions : lens g_executions upd_executions. Proof. solve_lens. Qed.
Lemma lens_contexts : lens g_contexts upd_contexts. Proof. solve_lens. Qed.
Lemma lens_reservations : lens g_reservations upd_reservations. Proof. solve_lens. Qed.
Lemma lens_budgets : lens g_budgets upd_budgets. Proof. solve_lens. Qed.

Lemma not_in_nil (ids : list string) x : ids = [] -> is_in ids x = false.
Proof. intros ->. apply is_in_false, not_elem_of_nil. Qed.

(** No projection comes from such a tool result, when foreign keys are enforced. *)
Definition no_source (fk : bool) (db : GcDB) (p : GcToolRow -> bool) : Prop :=
  fk = true -> forall id j w, g_projections db !! id = Some j -> g_tool_results db !! gj_source_result_id j = Some w -> p w = false.

Lemma restricted_sources fk p db : restrict fk (results_referred (fun _ => p) db) = Ok tt -> no_source fk db p.
Proof.
  intros H -> id j w Ej Ew. unfold restrict, guard_err in H. simpl in H. destruct (results_referred _ db) eqn:R; [done|].
  unfold results_referred in R. eapply some_row_false in R; [|exact Ej]. simpl in R. by rw Ew in R.
Qed.

Section Collect.
Context (fk : bool) (counts : string -> nat) (db : GcDB) (task_id : string) (E B K I : list string).
Context (S : sealed db task_id E B K I) (C : complete db task_id counts E B K I).

(** As many claims are deleted as the report names, so none of another execution. *)
Lemma step_claims p p' :
  unless_empty (K ++ E) (remove counts "resume_claim" (delete_leaf g_claims upd_claims
    (fun _ c => is_in K (gl_checkpoint_id c) || is_in E (gl_execution_id c)))) p = Ok p' ->
  g_claims p.1 = g_claims db -> p'.1 = upd_claims (drop_rows (fun _ c => is_in E (gl_execution_id c))) p.1.
Proof using C.
  unfold unless_empty. intros H G. destruct (bool_decide (K ++ E = [])) eqn:Z; breflect.
  { injection H as <-. apply app_eq_nil in Z as [_ Z]. symmetry. apply lens_claims, drop_rows_id. intros. by apply not_in_nil. }
  apply remove_counted in H as [[N ->]|H].
  { symmetry. apply lens_claims, drop_rows_id. rw G. intros id c Ec. apply is_in_false. by eapply (co_claims _ _ _ _ _ _ _ C). }
  unfold delete_leaf in H. injection H as <- N. rw (co_claims_counted _ _ _ _ _ _ _ C) -G in N.
  destruct p as [[] ?]; simpl in *. f_equal. apply drop_rows_ext. eapply count_rows_same, N. intros _ c ->. apply orb_true_r.
Qed.

Lemma step_results p p' : unless_empty E (remove counts "tool_result" (delete_tool_results fk E)) p = Ok p' ->
  (E = [] \/ counts "tool_result"%string = 0%nat -> forall id w, g_tool_results p.1 !! id = Some w -> is_in E (gw_execution_id w) = false) ->
  p'.1 = upd_tool_results (drop_rows (fun _ w => is_in E (gw_execution_id w))) p.1 /\
  no_source fk p.1 (fun w => is_in E (gw_execution_id w)).
Proof.
  intros [[Z ->]|(n & H)]%unless_cases N.
  - split; [symmetry; apply lens_tool_results, drop_rows_id; by apply N|]. intros _ id j w _ Ew. by eapply N.
  - unfold delete_tool_results in H. apply bind_ok in H as ([] & R & H). injection H as <- _. split; [done|by apply restricted_sources].
Qed.

(** The leaves: admissions, claims, pending rows, tool results and tool calls. *)
Lemma collect_leaves p1 p2 p3 p4 p5 p6 p7 :
  remove counts "aggregate_admission" (delete_leaf g_aggregates upd_aggregates (fun k _ => bool_decide (k.1 = task_id))) (db, []) = Ok p1 ->
  remove counts "fork_admission" (delete_leaf g_forks upd_forks (fun k _ => bool_decide (k.1 = task_id))) p1 = Ok p2 ->
  remove counts "retry_admission" (delete_leaf g_retries upd_retries (fun k _ => bool_decide (k.1 = task_id))) p2 = Ok p3 ->
  unless_empty (K ++ E) (remove counts "resume_claim" (delete_leaf g_claims upd_claims
    (fun _ c => is_in K (gl_checkpoint_id c) || is_in E (gl_execution_id c)))) p3 = Ok p4 ->
  unless_empty K (remove counts "checkpoint_pending_invocation" (delete_leaf g_pending upd_pending (fun k _ => is_in K k.1))) p4 = Ok p5 ->
  unless_empty E (remove counts "tool_result" (delete_tool_results fk E)) p5 = Ok p6 ->
  unless_empty E (remove counts "tool_call" (delete_leaf g_tool_calls upd_tool_calls (fun _ r => is_in E (gw_execution_id r)))) p6 = Ok p7 ->
  p7.1 = upd_tool_calls (drop_rows (fun _ r => is_in E (gw_execution_id r)))
    (upd_tool_results (drop_rows (fun _ r => is_in E (gw_execution_id r)))
    (upd_pending (drop_rows (fun k _ => is_in K k.1))
    (upd_claims (drop_rows (fun _ c => is_in E (gl_execution_id c)))
    (upd_retries (drop_rows (fun k _ => bool_decide (k.1 = task_id)))
    (upd_forks (drop_rows (fun k _ => bool_decide (k.1 = task_id)))
    (upd_aggregates (drop_rows (fun k _ => bool_decide (k.1 = task_id))) db)))))) /\
  no_source fk db (fun w => is_in E (gw_execution_id w)).
Proof using S C.
  intros H1 H2 H3 H4 H5 H6 H7.
  apply (remove_leaf _ _ _ _ _ _ _ lens_aggregates) in H1; [|intros Z k v Ek; apply bool_decide_false; by eapply (co_aggregates _ _ _ _ _ _ _ C)].
  apply (remove_leaf _ _ _ _ _ _ _ lens_forks) in H2;
    [|intros Z k v; rw H1; intros Ek; apply bool_decide_false; eapply (co_forks _ _ _ _ _ _ _ C); [done|]; by destruct db].
  apply (remove_leaf _ _ _ _ _ _ _ lens_retries) in H3;
    [|intros Z k v; rw H2 H1; intros Ek; apply bool_decide_false; eapply (co_retries _ _ _ _ _ _ _ C); [done|]; by destruct db].
  apply step_claims in H4; [|by rw H3 H2 H1; destruct db].
  apply (unless_leaf _ _ _ _ _ _ _ _ lens_pending) in H5.
  2: { intros Z k v Ek. assert (Ek' : g_pending db !! k = Some v) by (rw H4 H3 H2 H1 in Ek; by destruct db).
       destruct Z as [Z|Z]; [by apply not_in_nil|]. apply is_in_false. by eapply (co_pending _ _ _ _ _ _ _ C). }
  apply step_results in H6 as [H6 N6].
  2: { intros Z k v Ek. assert (Ek' : g_tool_results db !! k = Some v) by (rw H5 H4 H3 H2 H1 in Ek; by destruct db).
       destruct Z as [Z|Z]; [by apply not_in_nil|]. apply is_in_false. by eapply (co_results _ _ _ _ _ _ _ C). }
  apply (unless_leaf _ _ _ _ _ _ _ _ lens_tool_calls) in H7.
  2: { intros Z k v Ek. assert (Ek' : g_tool_calls db !! k = Some v) by (rw H6 H5 H4 H3 H2 H1 in Ek; by destruct db).
       destruct Z as [Z|Z]; [by apply not_in_nil|]. apply is_in_false. by eapply (co_calls _ _ _ _ _ _ _ C). }
  split; [by rw H7 H6 H5 H4 H3 H2 H1|]. rw H5 H4 H3 H2 H1 in N6. by destruct db.
Qed.

(** The iterations take the tool rows that hang on them along; nothing is left to the other
    cascades but the claims of another execution. *)
Lemma step_iterations p p' : unless_empty E (remove counts "iteration" (delete_iterations fk E)) p = Ok p' ->
  (counts "iteration"%string = 0%nat -> forall id e, g_iterations p.1 !! id = Some e -> e ∉ E) ->
  let hanging := fun (_ : string) w => hangs fk (g_iterations p.1) E w in
  p'.1 = upd_iterations (drop_rows (fun _ e => is_in E e)) (upd_tool_results (drop_rows hanging) (upd_tool_calls (drop_rows hanging) p.1)) /\
  no_source fk p.1 (hangs fk (g_iterations p.1) E).
Proof.
  intros [[Z ->]|(n & H)]%unless_cases H0 hanging.
  - assert (N : forall id e, g_iterations p.1 !! id = Some e -> is_in E e = false).
    { intros id e He. destruct Z as [Z|Z]; [by apply not_in_nil|]. apply is_in_false. by eapply H0. }
    assert (N' : forall id w, hanging id w = false).
    { intros id w. unfold hanging, hangs. destruct (_ !! _) as [e|] eqn:Ee; [by rw (N _ _ Ee) andb_false_r|apply andb_false_r]. }
    split; [|intros _ id j w _ _; exact (N' id w)]. destruct p as [[] ?]; simpl in *. f_equal; symmetry; apply drop_rows_id; eauto.
  - unfold delete_iterations in H. apply bind_ok in H as ([] & R & H). injection H as <- _. split.
    2: { apply restricted_sources in R. intros F id j w Ej Ew. rw -hangs_rows (R F id j w Ej Ew). apply andb_false_r. }
    clear R. unfold after_iterations, cascade, hanging.
    destruct p as [[] ?]; simpl in *. destruct fk; simpl; f_equal.
    1, 2: apply drop_rows_ext; intros id w _; exact (hangs_rows true E _ w).
    all: symmetry; apply drop_rows_id; reflexivity.
Qed.

Lemma step_checkpoints p p' : unless_empty K (remove counts "checkpoint" (delete_checkpoints fk K)) p = Ok p' ->
  (counts "checkpoint"%string = 0%nat -> K = []) ->
  (forall k v, g_pending p.1 !! k = Some v -> k.1 ∉ K) ->
  p'.1 = upd_checkpoints (drop_rows (fun id _ => is_in K id)) (upd_claims (drop_rows (fun _ c => fk && is_in K (gl_checkpoint_id c))) p.1).
Proof.
  intros [[Z ->]|(n & H)]%unless_cases H0 H2.
  - assert (Z' : K = []) by (destruct Z as [Z|Z]; [exact Z|exact (H0 Z)]). destruct p as [[] ?]; simpl. f_equal; symmetry; apply drop_rows_id; intros; rw not_in_nil //.
    apply andb_false_r.
  - unfold delete_checkpoints in H. apply bind_ok in H as ([] & _ & H). injection H as <- _. unfold after_checkpoints, cascade.
    destruct p as [[] ?]; simpl in *. destruct fk; simpl; f_equal; try (apply drop_rows_id; intros; apply is_in_false; by eauto).
    symmetry. by apply drop_rows_id.
Qed.

Lemma step_invocations p p' : unless_empty I (remove counts "capability_invocation" (delete_invocations fk I)) p = Ok p' ->
  (counts "capability_invocation"%string = 0%nat -> I = []) -> (forall id a, g_attempts p.1 !! id = Some a -> ga_invocation_id a ∉ I) ->
  p'.1 = upd_invocations (drop_rows (fun id _ => is_in I id)) p.1.
Proof.
  intros [[Z ->]|(n & H)]%unless_cases H0 H1.
  - symmetry. apply lens_invocations, drop_rows_id. intros id c _. apply not_in_nil. destruct Z; auto.
  - unfold delete_invocations in H. injection H as <- _. apply after_invocations_id. destruct p as [[] ?]; simpl in *; eauto.
Qed.

Lemma step_executions p p' : unless_empty E (remove counts "execution" (delete_executions fk E)) p = Ok p' ->
  (counts "execution"%string = 0%nat -> E = []) ->
  (forall id c, g_claims p.1 !! id = Some c -> gl_execution_id c ∉ E) ->
  (forall id w, g_tool_calls p.1 !! id = Some w -> gw_execution_id w ∉ E) ->
  (forall id w, g_tool_results p.1 !! id = Some w -> gw_execution_id w ∉ E) ->
  (forall id c, g_checkpoints p.1 !! id = Some c -> gk_execution_id c ∉ E) ->
  (forall id e, g_iterations p.1 !! id = Some e -> e ∉ E) ->
  (forall id b, g_branches p.1 !! id = Some b -> opt_in E (gb_current_execution_id b) = false) ->
  p'.1 = upd_executions (drop_rows (fun id _ => is_in E id)) p.1.
Proof.
  intros [[Z ->]|(n & H)]%unless_cases H0 H1 H2 H3 H4 H5 H6.
  - symmetry. apply lens_executions, drop_rows_id. intros id c _. apply not_in_nil. destruct Z; auto.
  - unfold delete_executions in H. apply bind_ok in H as ([] & _ & H). injection H as <- _.
    apply after_executions_id; destruct p as [[] ?]; simpl in *; eauto.
Qed.

Definition branch_block (p : GcDB * list (string * nat)) : result GcError (GcDB * list (string * nat)) :=
  p ← remove counts "branch_context" (delete_contexts B) p;
  let rows := rows_where (fun id _ => is_in B id) (g_branches p.1) in
  _ ← guard_err (Nat.eqb (length rows) (counts "branch"%string))
        (AgentGcCollectionError "R11-F1-C branch rowset drifted before child-first deletion.");
  order ← branch_delete_order rows;
  remove_branches fk order p.

Lemma step_branches p p' : unless_empty B branch_block p = Ok p' ->
  (counts "branch_context"%string = 0%nat -> forall b, b ∈ g_contexts p.1 -> b ∉ B) ->
  p'.1 = upd_branches (drop_rows (fun id _ => is_in B id)) (upd_contexts (base.filter (fun b => is_in B b = false)) p.1).
Proof.
  intros H H0. unfold unless_empty in H. destruct (bool_decide (B = [])) eqn:Z; breflect.
  { injection H as <-. rw Z. destruct p as [[] d]; simpl. f_equal.
    - symmetry. apply drop_rows_id. intros. by apply not_in_nil.
    - apply set_eq. intros b. rw elem_of_filter. split; [|by intros [_ ?]]. split; [by apply not_in_nil|done]. }
  unfold branch_block in H. apply bind_ok in H as (q & Hq & H). apply guard_bind_ok in H as [_ H]. apply bind_ok in H as (order & Ho & H).
  assert (Q : q.1 = upd_contexts (base.filter (fun b => is_in B b = false)) p.1).
  { apply remove_cases in Hq as [[Zc ->]|(n & Hq)]; [|by injection Hq as <- _]. symmetry. apply lens_contexts. apply set_eq. intros b.
    rw elem_of_filter is_in_false. split; [by intros [_ ?]|]. intros Hb. split; [by apply H0|done]. }
  assert (O : forall id, id ∈ order <-> (id ∈ B /\ is_Some (g_branches q.1 !! id))).
  { intros id. apply branch_order_perm in Ho. rw Ho rows_where_ids. split.
    - intros (v & Ev & Hv%is_in_true). split; [done|by eexists].
    - intros [Hv%is_in_true [v Ev]]. by exists v. }
  apply remove_branches_ok in H; [rw H Q|].
  - destruct p as [[] d]; simpl in *. rw Q /= in O. f_equal. apply drop_rows_ext. intros id b Eb. apply is_in_ext. rw O. split; [by intros [? _]|].
    intros Hb. split; [done|]. by eexists.
  - intros b Hb Hin. apply O in Hin as [Hin _]. rw Q in Hb. destruct p as [[] d]; simpl in *. apply elem_of_filter in Hb as [Hb _].
    by apply is_in_false in Hb.
Qed.

Lemma step_reservations p p' : remove counts "task_budget_reservation" (delete_reservations task_id) p = Ok p' ->
  (counts "task_budget_reservation"%string = 0%nat -> forall k, k ∈ g_reservations p.1 -> k.1.1 <> task_id) ->
  p'.1 = upd_reservations (base.filter (fun k => bool_decide (k.1.1 = task_id) = false)) p.1.
Proof.
  intros [[Z ->]|(n & H)]%remove_cases H0; [|by injection H as <- _].
  symmetry. apply lens_reservations, set_eq. intros k. rw elem_of_filter bool_decide_eq_false. split; [by intros [_ ?]|]. intros Hk.
  split; [by apply H0|done].
Qed.

Lemma step_budget p p' : remove counts "task_budget" (delete_budget fk task_id) p = Ok p' ->
  (counts "task_budget"%string = 0%nat -> g_budgets p.1 !! task_id = None) -> p'.1 = upd_budgets (delete task_id) p.1.
Proof.
  intros [[Z ->]|(n & H)]%remove_cases H0.
  - symmetry. apply lens_budgets. by apply delete_id, H0.
  - unfold delete_budget in H. apply bind_ok in H as ([] & _ & H). by injection H as <- _.
Qed.

Lemma step_task p p' : remove counts "task" (delete_task fk task_id) p = Ok p' -> counts "task"%string <> 0%nat ->
  g_budgets p.1 !! task_id = None -> (forall k, k ∈ g_reservations p.1 -> k.1.1 <> task_id) ->
  (forall k v, g_forks p.1 !! k = Some v -> k.1 <> task_id) -> (forall k v, g_retries p.1 !! k = Some v -> k.1 <> task_id) ->
  (forall k v, g_aggregates p.1 !! k = Some v -> k.1 <> task_id) ->
  (forall id b, g_branches p.1 !! id = Some b -> gb_task_id b <> task_id) -> p'.1 = upd_tasks (delete task_id) p.1.
Proof.
  intros [[Z ->]|(n & H)]%remove_cases Hz H0 H1 H2 H3 H4 H5; [done|].
  unfold delete_task in H. injection H as <- _. apply after_task_id; destruct p as [[] ?]; simpl in *; eauto.
Qed.
End Collect.

Lemma dropped_task {K A} `{Countable K} (f : K -> string) (m : gmap K A) task_id k v :
  drop_rows (fun k _ => bool_decide (f k = task_id)) m !! k = Some v -> f k <> task_id.
Proof. intros [_ E]%drop_rows_lookup. by apply bool_decide_eq_false in E. Qed.

Ltac after_drop := intros; match goal with H : drop_rows _ _ !! _ = Some _ |- _ => apply drop_rows_lookup in H as [? ?] end.

Lemma collect_exact fk task_id r db p :
  let E := candidate_ids r "execution" in let B := candidate_ids r "branch" in
  let K := candidate_ids r "checkpoint" in let I := candidate_ids r "capability_invocation" in
  sealed db task_id E B K I -> complete db task_id (candidate_counts r) E B K I ->
  collect fk task_id r db = Ok p -> p.1 = collected fk task_id E B K I db /\
  no_source fk db (fun w => is_in E (gw_execution_id w) || hangs fk (g_iterations db) E w).
Proof.
  intros E B K I S C H. unfold collect in H. cbv zeta in H. fold E B K I in H.
  apply bind_ok in H as (p1 & H1 & H). apply bind_ok in H as (p2 & H2 & H). apply bind_ok in H as (p3 & H3 & H).
  apply bind_ok in H as (p4 & H4 & H). apply bind_ok in H as (p5 & H5 & H). apply bind_ok in H as (p6 & H6 & H). apply bind_ok in H as (p7 & H7 & H).
  apply bind_ok in H as (p8 & H8 & H). apply bind_ok in H as (p9 & H9 & H). apply bind_ok in H as (p10 & H10 & H).
  apply bind_ok in H as (p11 & H11 & H). apply bind_ok in H as (p12 & H12 & H). apply bind_ok in H as (p13 & H13 & H).
  apply bind_ok in H as (p14 & H14 & H). apply bind_ok in H as (p15 & H15 & H). apply bind_ok in H as (p16 & H16 & H).
  apply guard_bind_ok in H as [_ H]. injection H as <-.
  pose proof (collect_leaves fk _ db task_id E B K I S C _ _ _ _ _ _ _ H1 H2 H3 H4 H5 H6 H7) as [L N]. clear H1 H2 H3 H4 H5 H6 H7.
  clearbody E B K I. destruct S as [S1 S5 S6], C as [C1 C2 C3 C4 C4' C5 C6 C7 C8 C9 C10 C11 C12 C13 C14 C15 C16].
  destruct db as [ta bu rs br cx ex ck pe cl it tc tr iv at_ fo re ag rp py ch pj]. simpl in *.
  apply step_iterations in H8 as [H8 N']; [|by rw L; eauto]. rw L /= in H8, N'. clear L.
  apply (unless_leaf _ _ _ _ _ _ _ _ lens_attempts) in H9.
  2: { rw H8 /=. intros Z k v Ek. destruct Z as [Z|Z]; [by apply not_in_nil|]. apply is_in_false. by eapply C9. }
  rw H8 /= in H9. apply (step_branches fk _ B) in H10; [|rw H9 /=; by eauto]. rw H9 /= in H10.
  apply step_checkpoints in H11; rw ?H10 /=; [|done|by intros k v [_ F]%drop_rows_lookup; apply is_in_false]. rw H10 /= in H11.
  apply step_invocations in H12; rw ?H11 /=; [|done|by intros id a [_ F]%drop_rows_lookup; apply is_in_false]. rw H11 /= in H12.
  apply step_executions in H13; rw ?H12 /=; [|done| | | | | |].
  2: { intros id c [[_ F]%drop_rows_lookup _]%drop_rows_lookup. by apply is_in_false. }
  2, 3: intros id w [[_ F]%drop_rows_lookup _]%drop_rows_lookup; by apply is_in_false.
  2: { intros id c [Hc F]%drop_rows_lookup Hin. apply is_in_false in F. eauto. }
  2: { intros id e [_ F]%drop_rows_lookup. by apply is_in_false. }
  2: { intros id b [Hb F]%drop_rows_lookup. apply is_in_false in F. by eapply S6. }
  rw H12 /= in H13. apply step_reservations in H14; [|rw H13 /=; by eauto].
  rw H13 /= in H14. apply step_budget in H15; [|rw H14 /=; by eauto].
  rw H14 /= in H15. apply step_task in H16; rw ?H15 /=; [|done|by apply lookup_delete_eq| | | | |].
  2: { intros k [F _]%elem_of_filter. by apply bool_decide_eq_false in F. }
  2, 3, 4: intros k v; apply dropped_task.
  2: { intros id b [Hb F]%drop_rows_lookup. apply is_in_false in F. intros Eb. apply F. by eapply S1. }
  rw H15 /= in H16. rw H16. split; [unfold collected; simpl; f_equal; apply drop_rows_twice|].
  intros F id j w Ej Ew. simpl in *. pose proof (N F id j w Ej Ew) as X. apply orb_false_iff. split; [exact X|].
  apply (N' F id j w Ej). simpl. by apply drop_rows_lookup.
Qed.

(** ** From the report to the deletion *)

(** No problem was found. *)
Record clean (db : GcDB) (task_id : string) : Prop := {
  cl_children id t : g_tasks db !! id = Some t -> id <> task_id -> gt_parent_task_id t <> Some task_id;
  cl_budget : is_Some (g_budgets db !! task_id);
  cl_external_invocations : external_invocation_problems db task_id = [];
  cl_checkpoints : checkpoint_problems db task_id = [];
  cl_executions : external_execution_problems db task_id = [];
  cl_branches : external_branch_problems db task_id = [];
  cl_external_checkpoints : external_checkpoint_problems db task_id = [];
  cl_aggregates : external_aggregate_problems db task_id = Some [];
  cl_policy : policy_problems db task_id = []
}.

Lemma problems_clean db task_id : problems db task_id true = Some [] -> clean db task_id.
Proof.
  unfold problems. destruct (external_aggregate_problems db task_id) as [ag|] eqn:A; [|done]. simpl. intros H. injection H as H.
  do 2 apply app_eq_nil in H as [? H]. repeat (apply app_eq_nil in H as [? H]).
  repeat match goal with F : found _ _ = [] |- _ => apply found_nil in F end.
  split; try done.
  - intros id t Et Hne Hp. eapply some_row_false in Et; [|done]. simpl in Et. rw bool_decide_false // bool_decide_true // in Et.
  - destruct (g_budgets db !! task_id) as [s|]; [by eexists|done].
  - by subst.
Qed.

Section FromReport.
Context (db : GcDB) (task_id : string) (r : GcDryRunReport).
Context (Hb : build_task_gc_dry_run db task_id true = Some r) (Hv : validate_candidate_report r = Ok tt).

Lemma report_kind kind x : kind ∈ CANDIDATE_KINDS -> kind <> "task"%string -> kind <> "task_budget"%string ->
  not_transcript (kind, x) -> x ∈ candidate_ids r kind <-> x ∈ kind_rows db task_id kind.
Proof using Hb Hv.
  intros H1 H2 H3 H4. unfold candidate_ids. rw sort_by_perm -owned_kind //. by apply (proj2 (proj2 (valid_report _ _ _ Hb Hv))).
Qed.

Ltac report_ids := apply report_kind; [by repeat constructor|done|done|done].

Lemma report_executions x : x ∈ candidate_ids r "execution" <-> x ∈ execution_ids db task_id.
Proof using Hb Hv. report_ids. Qed.
Lemma report_branches x : x ∈ candidate_ids r "branch" <-> x ∈ branch_ids db task_id.
Proof using Hb Hv. report_ids. Qed.
Lemma report_checkpoints x : x ∈ candidate_ids r "checkpoint" <-> x ∈ checkpoint_ids db task_id.
Proof using Hb Hv. report_ids. Qed.
Lemma report_invocations x : x ∈ candidate_ids r "capability_invocation" <-> x ∈ invocation_ids db task_id.
Proof using Hb Hv. report_ids. Qed.

(** A kind without candidates has no rows. *)
Lemma report_none kind x : candidate_counts r kind = 0%nat -> kind ∈ CANDIDATE_KINDS -> kind <> "task"%string -> kind <> "task_budget"%string ->
  not_transcript (kind, x) -> x ∉ kind_rows db task_id kind.
Proof using Hb Hv.
  intros Z H1 H2 H3 H4 Hx. apply report_kind in Hx; try done. unfold candidate_ids, candidate_counts in *. rw sort_by_perm in Hx.
  apply length_zero_iff_nil in Z. rw Z in Hx. by apply elem_of_nil in Hx.
Qed.

Lemma report_clean : clean db task_id.
Proof using Hb Hv. apply problems_clean. by apply (valid_report _ _ _ Hb Hv). Qed.

Lemma checkpoint_execution id k : g_checkpoints db !! id = Some k -> id ∈ checkpoint_ids db task_id -> gk_execution_id k ∈ execution_ids db task_id.
Proof using Hb Hv.
  intros Ek Hid. pose proof (cl_checkpoints _ _ report_clean) as P. unfold checkpoint_problems in P.
  apply (flat_map_nil _ _ (id, k)) in P; [apply found_nil, negb_false_iff, is_in_true in P; exact P|].
  apply rows_where_ids in Hid as (k' & Ek' & Hp). rw Ek in Ek'. injection Ek' as <-. by apply rows_where_elem.
Qed.

Lemma report_claims : candidate_counts r "resume_claim" = count_rows (fun _ c => is_in (candidate_ids r "execution") (gl_execution_id c)) (g_claims db).
Proof using Hb Hv.
  assert (P : candidates_of r "resume_claim" ≡ₚ map fst (claim_rows db task_id)).
  { apply NoDup_Permutation.
    - by eapply gc_candidates_nodup, report_keys_nodup.
    - apply NoDup_map_filter, NoDup_fst_map_to_list.
    - intros x. rw -(sort_by_perm (fun x => x) String.ltb (candidates_of r "resume_claim")). report_ids. }
  unfold candidate_counts, count_rows. rw P length_map. f_equal. unfold claim_rows, rows_where. apply filter_ext. intros c.
  apply is_in_ext. by rw report_executions.
Qed.

Lemma report_sealed :
  sealed db task_id (candidate_ids r "execution") (candidate_ids r "branch") (candidate_ids r "checkpoint") (candidate_ids r "capability_invocation").
Proof using Hb Hv.
  split.
  - intros id b Eb. rw report_branches rows_where_ids. split.
    + intros (b' & Eb' & Hp%bool_decide_eq_true). congruence.
    + intros Hp. exists b. split; [done|by apply bool_decide_eq_true].
  - intros id k Ek. rw report_executions. intros He. apply report_checkpoints, rows_where_ids. exists k. split; [done|].
    apply orb_true_iff. right. by apply is_in_true.
  - intros id b Eb. rw report_branches. intros Hid. pose proof (cl_executions _ _ report_clean) as P. unfold external_execution_problems in P.
    apply app_eq_nil in P as [_ P]. apply app_eq_nil in P as [P _]. apply found_nil in P. eapply some_row_false in P; [|exact Eb]. simpl in P.
    apply andb_false_iff in P as [P|P].
    { exfalso. apply Hid, rows_where_ids. exists b. split; [done|]. by apply negb_false_iff in P. }
    apply orb_false_iff in P as [_ P]. destruct (gb_current_execution_id b) as [e|]; [|done]. simpl in *. apply is_in_false in P. apply is_in_false. by rw report_executions.
Qed.

Lemma no_candidates_rows {K A} `{Countable K} (p : K -> A -> bool) (m : gmap K A) (f : K -> string) l k v :
  l = map (fun r => f r.1) (rows_where p m) -> (forall x, x ∉ l) -> m !! k = Some v -> p k v = false.
Proof.
  intros -> N Ek. destruct (p k v) eqn:P; [|done]. exfalso. apply (N (f k)). apply list_elem_of_fmap. exists (k, v).
  split; [done|]. by apply rows_where_elem.
Qed.

Ltac no_rows_of kind p f E :=
  apply (no_candidates_rows p _ f _ _ _ eq_refl) in E;
  [|intros ?; apply (report_none kind); [done|by repeat constructor|done|done|done]].

Lemma report_complete :
  complete db task_id (candidate_counts r) (candidate_ids r "execution") (candidate_ids r "branch") (candidate_ids r "checkpoint")
    (candidate_ids r "capability_invocation").
Proof using Hb Hv.
  assert (N : forall kind, candidate_counts r kind = 0%nat -> candidate_ids r kind = []).
  { intros kind Z. unfold candidate_ids. apply length_zero_iff_nil in Z. by rw Z. }
  split; try by apply N.
  - intros k v Z Ek. no_rows_of "aggregate_admission"%string (in_task task_id (A:=GcAggregate)) pair_identity Ek. by apply bool_decide_eq_false in Ek.
  - intros k v Z Ek. no_rows_of "fork_admission"%string (in_task task_id (A:=GcFork)) pair_identity Ek. by apply bool_decide_eq_false in Ek.
  - intros k v Z Ek. no_rows_of "retry_admission"%string (in_task task_id (A:=GcRetry)) pair_identity Ek. by apply bool_decide_eq_false in Ek.
  - intros id c Z Ec. rw report_executions -is_in_false. by no_rows_of "resume_claim"%string (fun (_ : string) c => is_in (execution_ids db task_id) (gl_execution_id c)) (fun x : string => x) Ec.
  - exact report_claims.
  - intros k v Z Ek. rw report_checkpoints -is_in_false.
    by no_rows_of "checkpoint_pending_invocation"%string (fun (k : string * BinNums.Z) (_ : GcPending) => is_in (checkpoint_ids db task_id) k.1) pending_identity Ek.
  - intros id w Z Ew. rw report_executions -is_in_false. by no_rows_of "tool_result"%string (fun (_ : string) w => is_in (execution_ids db task_id) (gw_execution_id w)) (fun x : string => x) Ew.
  - intros id w Z Ew. rw report_executions -is_in_false. by no_rows_of "tool_call"%string (fun (_ : string) w => is_in (execution_ids db task_id) (gw_execution_id w)) (fun x : string => x) Ew.
  - intros id e Z Ee. rw report_executions -is_in_false. by no_rows_of "iteration"%string (fun (_ : string) e => is_in (execution_ids db task_id) e) (fun x : string => x) Ee.
  - intros id a Z Ea. rw report_invocations -is_in_false.
    by no_rows_of "capability_invocation_attempt"%string (fun (_ : string) a => is_in (invocation_ids db task_id) (ga_invocation_id a)) (fun x : string => x) Ea.
  - intros b Z Hb'. rw report_branches. intros Hin. eapply (report_none "branch_context" b); [done|by repeat constructor|done|done|done|].
    apply list_elem_of_In, filter_In. split; [apply list_elem_of_In; by rw elem_of_elements|by apply is_in_true].
  - intros k Z Hk Ht. eapply (report_none "task_budget_reservation" (reservation_identity k)); [done|by repeat constructor|done|done|done|].
    apply list_elem_of_fmap_2, list_elem_of_In, filter_In. split; [apply list_elem_of_In; by rw elem_of_elements|by apply bool_decide_eq_true].
  - intros Z. exfalso. destruct (cl_budget _ _ report_clean) as [s Es].
    assert (X : task_id ∈ candidates_of r "task_budget").
    { apply (proj2 (proj2 (valid_report _ _ _ Hb Hv))); [done|]. right. apply elem_of_app. left. rw bool_decide_true; [by rw Es|by left]. }
    apply length_zero_iff_nil in Z. rw Z in X. by apply elem_of_nil in X.
  - intros Z. pose proof Hv as V. unfold validate_candidate_report in V. do 3 apply guard_bind_ok in V as [_ V]. by rw Z in V.
Qed.
End FromReport.

(** ** The theorems *)

Definition collected_graph (fk : bool) (db : GcDB) (task_id : string) : GcDB :=
  collected fk task_id (execution_ids db task_id) (branch_ids db task_id) (checkpoint_ids db task_id) (invocation_ids db task_id) db.

Lemma hangs_ext fk iterations E E' w : (forall x, x ∈ E <-> x ∈ E') -> hangs fk iterations E w = hangs fk iterations E' w.
Proof. intros H. unfold hangs. f_equal. destruct (_ !! _); [|done]. by apply is_in_ext. Qed.

Lemma collected_ext fk task_id E E' B B' K K' I I' db : (forall x, x ∈ E <-> x ∈ E') -> (forall x, x ∈ B <-> x ∈ B') ->
  (forall x, x ∈ K <-> x ∈ K') -> (forall x, x ∈ I <-> x ∈ I') -> collected fk task_id E B K I db = collected fk task_id E' B' K' I' db.
Proof.
  intros HE HB HK HI. destruct db. unfold collected. simpl.
  f_equal; try (apply drop_rows_ext; intros; by apply is_in_ext).
  - apply set_eq. intros b. rw !elem_of_filter. by rw (is_in_ext B B' b).
  - apply drop_rows_ext. intros k c _. f_equal; [by apply is_in_ext|]. f_equal. by apply is_in_ext.
  - apply drop_rows_ext. intros k w _. f_equal; [by apply is_in_ext|by apply hangs_ext].
  - apply drop_rows_ext. intros k w _. f_equal; [by apply is_in_ext|by apply hangs_ext].
Qed.

(** A terminal task whose work is over. *)
Record collectable (db : GcDB) (task_id : string) : Prop := {
  ca_task : exists t, g_tasks db !! task_id = Some t /\ gt_status t ∈ ["COMPLETED"; "FAILED"; "CANCELLED"]%string;
  ca_children id t : g_tasks db !! id = Some t -> id <> task_id -> gt_parent_task_id t <> Some task_id;
  ca_budget : g_budgets db !! task_id = Some "CLOSED"%string;
  ca_executions id e : g_executions db !! id = Some e -> ge_task_id e = Some task_id ->
    ge_state e ∉ ["CREATED"; "RUNNING"; "WAITING"; "WAITING_FOR_CONNECTION"]%string;
  ca_claims id c : g_claims db !! id = Some c -> gl_execution_id c ∈ execution_ids db task_id -> gl_state c <> "CREATED"%string;
  ca_results id w : g_tool_results db !! id = Some w -> gw_execution_id w ∈ execution_ids db task_id ->
    gw_commit_state w = "COMMITTED"%string;
  ca_invocations id i : g_invocations db !! id = Some i -> id ∈ invocation_ids db task_id ->
    terminal_invocation_value (gi_state i) = true /\
    gi_remote_outcome_state i <> Some "IN_FLIGHT"%string /\ gi_remote_outcome_state i <> Some "OUTCOME_UNKNOWN"%string;
  ca_attempts id a : g_attempts db !! id = Some a -> ga_invocation_id a ∈ invocation_ids db task_id ->
    terminal_invocation_value (ga_state a) = true
}.

Lemma clean_collectable db task_id : is_Some (g_tasks db !! task_id) -> clean db task_id -> collectable db task_id.
Proof.
  intros [t Et] [C1 _ _ _ _ _ _ _ P]. unfold policy_problems in P. repeat (apply app_eq_nil in P as [? P]).
  repeat match goal with F : found _ _ = [] |- _ => apply found_nil in F end.
  split; [|done| | | | | |].
  - exists t. split; [done|]. unfold active_task, task_status in *. rw Et in H. by breflect.
  - by breflect.
  - intros id e Ee Ht. apply not_true_iff_false in H1. intros F. apply H1, existsb_exists. exists (id, e). split; [|by apply bool_decide_eq_true].
    apply list_elem_of_In, rows_where_elem. split; [done|by apply bool_decide_eq_true].
  - intros id c Ec He F. apply not_true_iff_false in H2. apply H2, existsb_exists. exists (id, c). split; [|by apply bool_decide_eq_true].
    apply list_elem_of_In, rows_where_elem. split; [done|by apply is_in_true].
  - intros id w Ew He. apply (flat_map_nil _ _ (id, w)) in H3; [apply found_nil in H3; by breflect|].
    apply rows_where_elem. split; [done|by apply is_in_true].
  - intros id i Ei Hi. apply (flat_map_nil _ _ (id, i)) in H4.
    + apply app_eq_nil in H4 as [F1 F2]. apply found_nil, negb_false_iff in F1. split; [done|]. simpl in F2.
      destruct (gi_remote_outcome_state i) as [o|]; [|done]. apply found_nil, bool_decide_eq_false in F2. split; intros [= ->]; apply F2; by repeat constructor.
    + apply rows_where_ids in Hi as (i' & Ei' & Hp). rw Ei in Ei'. injection Ei' as <-. by apply rows_where_elem.
  - intros id a Ea Ha. apply (flat_map_nil _ _ (id, a)) in P; [apply found_nil, negb_false_iff in P; done|].
    apply rows_where_elem. split; [done|by apply is_in_true].
Qed.

(** The last steps of a successful run. *)
Lemma execute_inv fk others task_id expected db db' r : execute_task_gc fk others task_id expected db = Ok (db', r) ->
  (g_tasks db !! task_id = None /\ db' = db) \/
  exists fresh, build_task_gc_dry_run (others db) task_id true = Some fresh /\ validate_candidate_report fresh = Ok tt /\
    exists p, collect fk task_id fresh (others db) = Ok p /\ p.1 = db'.
Proof.
  unfold execute_task_gc. intros H. destruct (g_tasks db !! task_id); [right|injection H as <- _; by left].
  apply bind_ok in H as (probe & _ & H). apply bind_ok in H as ([] & _ & H). cbv zeta in H. apply bind_ok in H as (fresh & Hf & H).
  apply bind_ok in H as ([] & Hv & H). do 2 apply guard_bind_ok in H as [_ H]. apply bind_ok in H as (p & Hp & H). injection H as <- _.
  exists fresh. split_and!; [|done|by exists p]. by destruct (build_task_gc_dry_run (others db) task_id true) as [x|]; [injection Hf as ->|].
Qed.

Lemma collection_lemma fk others task_id expected db db' r : is_Some (g_tasks db !! task_id) ->
  execute_task_gc fk others task_id expected db = Ok (db', r) ->
  is_Some (g_tasks (others db) !! task_id) /\ clean (others db) task_id /\
  (forall id k, g_checkpoints (others db) !! id = Some k -> id ∈ checkpoint_ids (others db) task_id ->
     gk_execution_id k ∈ execution_ids (others db) task_id) /\
  db' = collected_graph fk (others db) task_id /\
  no_source fk (others db) (fun w => is_in (execution_ids (others db) task_id) (gw_execution_id w) ||
                                     hangs fk (g_iterations (others db)) (execution_ids (others db) task_id) w).
Proof.
  intros T [[E _]|(fresh & Hf & Hv & p & Hp & <-)]%execute_inv; [by rw E in T; destruct T|].
  split_and!; [by apply (valid_report _ _ _ Hf Hv)|by eapply report_clean|by eapply checkpoint_execution| |].
  - apply collect_exact in Hp as [Hp _]; [rw Hp|by apply report_sealed|by apply report_complete].
    apply collected_ext; intros x; [by apply report_executions|by apply report_branches|by apply report_checkpoints|by apply report_invocations].
  - apply collect_exact in Hp as [_ N]; [|by apply report_sealed|by apply report_complete]. intros F id j w Ej Ew.
    rw -(N F id j w Ej Ew). f_equal; [apply is_in_ext; symmetry; by apply report_executions|].
    apply hangs_ext. intros x. symmetry. by apply report_executions.
Qed.

(** C29 collection_exact: a collection that succeeds, of a task that exists, is one of a
    terminal task with a closed budget and nothing in flight in the tables of the second
    report, and turns these tables into exactly the ones without the graph of the task: its
    branches, executions, checkpoints, invocations and all their rows.  No other row is
    touched, with one exception that the dry run does not exclude: where foreign keys are
    enforced, a tool row of one of its iterations or a claim of one of its checkpoints that
    names an execution of another task leaves too (a deleted parent takes it along); where they
    are not, such a row stays.  A task that is gone is left alone. *)
Theorem collection_exact fk others task_id expected db db' r :
  execute_task_gc fk others task_id expected db = Ok (db', r) ->
  (g_tasks db !! task_id = None /\ db' = db) \/
  (collectable (others db) task_id /\ db' = collected_graph fk (others db) task_id).
Proof.
  intros H. destruct (g_tasks db !! task_id) as [t|] eqn:E; [right|left; unfold execute_task_gc in H; rw E in H; by injection H as <- _].
  assert (T0 : is_Some (g_tasks db !! task_id)) by (rw E; by eexists).
  destruct (collection_lemma _ _ _ _ _ _ _ T0 H) as (T & C & _ & -> & _). split; [by apply clean_collectable|done].
Qed.

(** The references of the rows that are left, by table: none of these columns names a row of
    the tables [w] that is removed.  Where foreign keys are not enforced, the checkpoint of a
    claim and the iteration of a tool row are not covered. *)
Record detached (fk : bool) (w : GcDB) (task_id : string) (E B K I : list string) (db : GcDB) : Prop := {
  de_tasks id t : g_tasks db !! id = Some t -> gt_parent_task_id t <> Some task_id;
  de_executions id e : g_executions db !! id = Some e ->
    opt_in E (ge_parent_execution_id e) = false /\ opt_in E (ge_retry_of_execution_id e) = false /\
    opt_in E (ge_base_execution_id e) = false /\ opt_in B (ge_branch_id e) = false /\
    opt_in K (ge_base_checkpoint_id e) = false /\ opt_in K (ge_current_checkpoint_id e) = false;
  de_branches id b : g_branches db !! id = Some b ->
    opt_in B (gb_parent_branch_id b) = false /\ opt_in E (gb_base_execution_id b) = false /\
    opt_in E (gb_current_execution_id b) = false /\ opt_in K (gb_base_checkpoint_id b) = false;
  de_checkpoints id k : g_checkpoints db !! id = Some k ->
    (gk_execution_id k ∉ E) /\ opt_in K (gk_parent_checkpoint_id k) = false;
  de_claims id c : g_claims db !! id = Some c -> (gl_execution_id c ∉ E) /\ (fk = true -> gl_checkpoint_id c ∉ K);
  de_pending k v : g_pending db !! k = Some v -> (k.1 ∉ K) /\ (gp_invocation_id v ∉ I);
  de_iterations id e : g_iterations db !! id = Some e -> e ∉ E;
  de_calls id c : g_tool_calls db !! id = Some c -> (gw_execution_id c ∉ E) /\ (gw_invocation_id c ∉ I) /\
    (fk = true -> forall e, g_iterations w !! gw_iteration_id c = Some e -> e ∉ E);
  de_results id c : g_tool_results db !! id = Some c -> (gw_execution_id c ∉ E) /\ (gw_invocation_id c ∉ I) /\
    (fk = true -> forall e, g_iterations w !! gw_iteration_id c = Some e -> e ∉ E);
  de_projections id j : fk = true -> g_projections db !! id = Some j ->
    g_tool_results db !! gj_source_result_id j = g_tool_results w !! gj_source_result_id j;
  de_invocations id i : g_invocations db !! id = Some i -> opt_in E (gi_execution_id i) = false;
  de_attempts id a : g_attempts db !! id = Some a -> ga_invocation_id a ∉ I;
  de_contexts b : b ∈ g_contexts db -> b ∉ B;
  de_forks k f : g_forks db !! k = Some f ->
    (gf_source_branch_id f ∉ B) /\ (gf_branch_id f ∉ B) /\ (gf_source_execution_id f ∉ E) /\ (gf_execution_id f ∉ E) /\
    (gf_source_checkpoint_id f ∉ K);
  de_retries k x : g_retries db !! k = Some x ->
    (gr_branch_id x ∉ B) /\ (gr_source_execution_id x ∉ E) /\ (gr_execution_id x ∉ E) /\ opt_in K (gr_source_checkpoint_id x) = false;
  de_aggregates k a : g_aggregates db !! k = Some a -> (gg_target_branch_id a ∉ B) /\ (gg_execution_id a ∉ E);
  de_branch_snapshots k a bs s : g_aggregates db !! k = Some a -> gg_source_branch_snapshots a = JArr bs -> s ∈ bs ->
    opt_in B (snapshot_text "branch_id" s) = false;
  de_execution_snapshots k a bs es s : g_aggregates db !! k = Some a -> gg_source_branch_snapshots a = JArr bs ->
    gg_source_execution_snapshots a = JArr es -> s ∈ es ->
    opt_in E (snapshot_text "execution_id" s) = false /\
    forall c, snapshot_get "checkpoint_id" s = Some c -> c <> JNull -> is_in K (py_str c) = false
}.

Lemma opt_in_ext_false l o : (forall x, o = Some x -> x ∉ l) -> opt_in l o = false.
Proof. destruct o as [x|]; simpl; [|done]. intros H. apply is_in_false. by apply H. Qed.

Lemma scan_aggregates_none db task_id l a : scan_aggregates db task_id l = Some [] -> a ∈ l -> external_aggregate db task_id a.2 = Some None.
Proof.
  induction l as [|x l IH]; simpl; [by intros _ ?%elem_of_nil|]. destruct (external_aggregate db task_id x.2) as [[p|]|] eqn:X; [done| |done].
  intros H [->|Ha]%elem_of_cons; [done|by apply IH].
Qed.

Lemma execution_snapshots_none db task_id l s : execution_snapshot_problem db task_id l = None -> s ∈ l ->
  opt_in (execution_ids db task_id) (snapshot_text "execution_id" s) = false /\
  forall c, snapshot_get "checkpoint_id" s = Some c -> c <> JNull -> is_in (checkpoint_ids db task_id) (py_str c) = false.
Proof.
  induction l as [|x l IH]; simpl; [by intros _ ?%elem_of_nil|]. destruct (opt_in _ (snapshot_text "execution_id" x)) eqn:X; [done|].
  intros H Hs. assert (R : execution_snapshot_problem db task_id l = None /\
    forall c, snapshot_get "checkpoint_id" x = Some c -> c <> JNull -> is_in (checkpoint_ids db task_id) (py_str c) = false).
  { destruct (snapshot_get "checkpoint_id" x) as [c|]; [|done]. destruct c; try by (split; [|intros c' [= <-]]).
    all: destruct (is_in _ _) eqn:Y in H; [done|]; split; [done|]; intros c' [= <-] _; exact Y. }
  destruct R as [R1 R2]. apply elem_of_cons in Hs as [->|Hs]; [done|by apply IH].
Qed.

Section Detached.
Context (db : GcDB) (task_id : string) (C : clean db task_id).
Abbreviation E := (execution_ids db task_id).
Abbreviation B := (branch_ids db task_id).
Abbreviation K := (checkpoint_ids db task_id).
Abbreviation I := (invocation_ids db task_id).

Lemma foreign_execution_left id e : g_executions db !! id = Some e -> id ∉ E -> foreign_execution task_id e = true.
Proof.
  intros Ee Hid. apply negb_true_iff, bool_decide_eq_false. intros Ht. apply Hid, rows_where_ids. exists e. split; [done|by apply bool_decide_eq_true].
Qed.

Lemma foreign_branch_left id b : g_branches db !! id = Some b -> id ∉ B -> foreign_branch task_id b = true.
Proof.
  intros Eb Hid. apply negb_true_iff, bool_decide_eq_false. intros Ht. apply Hid, rows_where_ids. exists b. split; [done|by apply bool_decide_eq_true].
Qed.

Lemma foreign_admission_left (k : string * string) : k.1 <> task_id -> foreign_admission task_id k = true.
Proof. intros H. by apply negb_true_iff, bool_decide_eq_false. Qed.

Lemma executions_left id e : g_executions db !! id = Some e -> id ∉ E ->
  opt_in E (ge_parent_execution_id e) = false /\ opt_in E (ge_retry_of_execution_id e) = false /\
  opt_in E (ge_base_execution_id e) = false /\ opt_in B (ge_branch_id e) = false /\
  opt_in K (ge_base_checkpoint_id e) = false /\ opt_in K (ge_current_checkpoint_id e) = false.
Proof using C.
  intros Ee Hid. pose proof (foreign_execution_left _ _ Ee Hid) as F. destruct C as [_ _ _ _ P1 P2 P3 _ _].
  unfold external_execution_problems in P1. apply app_eq_nil in P1 as [P1 _]. apply found_nil in P1. eapply some_row_false in P1; [|exact Ee].
  unfold external_branch_problems in P2. apply app_eq_nil in P2 as [P2 _]. apply found_nil in P2. eapply some_row_false in P2; [|exact Ee].
  unfold external_checkpoint_problems in P3. apply app_eq_nil in P3 as [P3 P4]. apply app_eq_nil in P4 as [P4 _].
  apply found_nil in P3. eapply some_row_false in P3; [|exact Ee]. apply found_nil in P4. eapply some_row_false in P4; [|exact Ee].
  simpl in *. rw F /= in P1 P2 P3 P4. apply orb_false_iff in P1 as [[? ?]%orb_false_iff ?]. done.
Qed.

Lemma branches_left id b : g_branches db !! id = Some b -> id ∉ B ->
  opt_in B (gb_parent_branch_id b) = false /\ opt_in E (gb_base_execution_id b) = false /\
  opt_in E (gb_current_execution_id b) = false /\ opt_in K (gb_base_checkpoint_id b) = false.
Proof using C.
  intros Eb Hid. pose proof (foreign_branch_left _ _ Eb Hid) as F. destruct C as [_ _ _ _ P1 P2 P3 _ _].
  unfold external_execution_problems in P1. apply app_eq_nil in P1 as [_ P1]. apply app_eq_nil in P1 as [P1 _]. apply found_nil in P1. eapply some_row_false in P1; [|exact Eb].
  unfold external_branch_problems in P2. apply app_eq_nil in P2 as [_ P2]. apply app_eq_nil in P2 as [P2 _]. apply found_nil in P2. eapply some_row_false in P2; [|exact Eb].
  unfold external_checkpoint_problems in P3. do 3 apply app_eq_nil in P3 as [_ P3]. apply app_eq_nil in P3 as [P3 _]. apply found_nil in P3. eapply some_row_false in P3; [|exact Eb].
  simpl in *. rw F /= in P1 P2 P3. by apply orb_false_iff in P1 as [? ?].
Qed.

Lemma forks_left k f : g_forks db !! k = Some f -> k.1 <> task_id ->
  (gf_source_branch_id f ∉ B) /\ (gf_branch_id f ∉ B) /\ (gf_source_execution_id f ∉ E) /\ (gf_execution_id f ∉ E) /\
  (gf_source_checkpoint_id f ∉ K).
Proof using C.
  intros Ef Hk. pose proof (foreign_admission_left _ Hk) as F. destruct C as [_ _ _ _ P1 P2 P3 _ _].
  unfold external_execution_problems in P1. do 2 apply app_eq_nil in P1 as [_ P1]. apply app_eq_nil in P1 as [P1 _]. apply found_nil in P1. eapply some_row_false in P1; [|exact Ef].
  unfold external_branch_problems in P2. do 2 apply app_eq_nil in P2 as [_ P2]. apply app_eq_nil in P2 as [P2 _]. apply found_nil in P2. eapply some_row_false in P2; [|exact Ef].
  unfold external_checkpoint_problems in P3. do 4 apply app_eq_nil in P3 as [_ P3]. apply app_eq_nil in P3 as [P3 _]. apply found_nil in P3. eapply some_row_false in P3; [|exact Ef].
  simpl in *. rw F /= in P1 P2 P3. apply orb_false_iff in P1 as [? ?], P2 as [? ?]. split_and!; by apply is_in_false.
Qed.

Lemma retries_left k x : g_retries db !! k = Some x -> k.1 <> task_id ->
  (gr_branch_id x ∉ B) /\ (gr_source_execution_id x ∉ E) /\ (gr_execution_id x ∉ E) /\ opt_in K (gr_source_checkpoint_id x) = false.
Proof using C.
  intros Ex Hk. pose proof (foreign_admission_left _ Hk) as F. destruct C as [_ _ _ _ P1 P2 P3 _ _].
  unfold external_execution_problems in P1. do 3 apply app_eq_nil in P1 as [_ P1]. apply found_nil in P1. eapply some_row_false in P1; [|exact Ex].
  unfold external_branch_problems in P2. do 3 apply app_eq_nil in P2 as [_ P2]. apply found_nil in P2. eapply some_row_false in P2; [|exact Ex].
  unfold external_checkpoint_problems in P3. do 5 apply app_eq_nil in P3 as [_ P3]. apply found_nil in P3. eapply some_row_false in P3; [|exact Ex].
  simpl in *. rw F /= in P1 P2 P3. apply orb_false_iff in P1 as [? ?]. split_and!; [by apply is_in_false|by apply is_in_false|by apply is_in_false|done].
Qed.

Lemma aggregates_left k a : g_aggregates db !! k = Some a -> k.1 <> task_id ->
  (E = [] /\ B = [] /\ K = []) \/ external_aggregate db task_id a = Some None.
Proof using C.
  intros Ea Hk. pose proof (cl_aggregates _ _ C) as P. unfold external_aggregate_problems in P.
  destruct (bool_decide (E = []) && _ && _) eqn:Z; [left; by breflect|right].
  apply (scan_aggregates_none _ _ _ (k, a)) in P; [done|]. apply rows_where_elem. split; [done|by apply foreign_admission_left].
Qed.

Lemma opt_in_nil o : opt_in [] o = false.
Proof. destruct o; [|done]. apply is_in_false, not_elem_of_nil. Qed.

Lemma aggregate_left k a : g_aggregates db !! k = Some a -> k.1 <> task_id ->
  ((gg_target_branch_id a ∉ B) /\ (gg_execution_id a ∉ E)) /\
  (forall bs s, gg_source_branch_snapshots a = JArr bs -> s ∈ bs -> opt_in B (snapshot_text "branch_id" s) = false) /\
  (forall bs es s, gg_source_branch_snapshots a = JArr bs -> gg_source_execution_snapshots a = JArr es -> s ∈ es ->
     opt_in E (snapshot_text "execution_id" s) = false /\
     forall c, snapshot_get "checkpoint_id" s = Some c -> c <> JNull -> is_in K (py_str c) = false).
Proof using C.
  intros Ea Hk. destruct (aggregates_left _ _ Ea Hk) as [(-> & -> & ->)|P].
  { split_and!; try apply not_elem_of_nil; [intros; apply opt_in_nil|]. intros bs es s _ _ _. split; [apply opt_in_nil|].
    intros c _ _. apply is_in_false, not_elem_of_nil. }
  unfold external_aggregate in P. destruct (is_in E (gg_execution_id a)) eqn:F1; [done|]. destruct (is_in B (gg_target_branch_id a)) eqn:F2; [done|].
  simpl in P. split_and!; [by apply is_in_false|by apply is_in_false| |].
  - intros bs s Eb Hs. rw Eb /= in P. destruct (existsb _ bs) eqn:X; [done|]. apply not_true_iff_false. intros F.
    apply not_true_iff_false in X. apply X, existsb_exists. exists s. split; [by apply list_elem_of_In|done].
  - intros bs es s Eb Ee Hs. rw Eb Ee /= in P. destruct (existsb _ bs); [done|]. injection P as P. by eapply execution_snapshots_none.
Qed.
End Detached.

Lemma not_hanging iterations E w : hangs true iterations E w = false -> forall e, iterations !! gw_iteration_id w = Some e -> e ∉ E.
Proof. unfold hangs. intros H e Ee. rw Ee /= in H. by apply is_in_false. Qed.

Lemma clean_detached fk db task_id : clean db task_id ->
  no_source fk db (fun w => is_in (execution_ids db task_id) (gw_execution_id w) ||
                            hangs fk (g_iterations db) (execution_ids db task_id) w) ->
  (forall id k, g_checkpoints db !! id = Some k -> id ∈ checkpoint_ids db task_id -> gk_execution_id k ∈ execution_ids db task_id) ->
  detached fk db task_id (execution_ids db task_id) (branch_ids db task_id) (checkpoint_ids db task_id) (invocation_ids db task_id)
    (collected_graph fk db task_id).
Proof.
  intros C N HK. pose proof (executions_left db task_id C) as XE. pose proof (branches_left db task_id C) as XB.
  pose proof (forks_left db task_id C) as XF. pose proof (retries_left db task_id C) as XR. pose proof (aggregate_left db task_id C) as XA.
  destruct C as [C1 _ C3 _ _ _ C7 _ _]. unfold external_invocation_problems in C3. apply app_eq_nil in C3 as [I1 C3]. apply app_eq_nil in C3 as [I2 I3].
  apply found_nil in I1, I2, I3. unfold external_checkpoint_problems in C7. do 2 apply app_eq_nil in C7 as [_ C7]. apply app_eq_nil in C7 as [C7 _]. apply found_nil in C7.
  assert (KE : forall id k, g_checkpoints db !! id = Some k -> id ∉ checkpoint_ids db task_id -> gk_execution_id k ∉ execution_ids db task_id).
  { intros id k Ek Hid He. apply Hid, rows_where_ids. exists k. split; [done|]. apply orb_true_iff. right. by apply is_in_true. }
  assert (IE : forall id i, g_invocations db !! id = Some i -> id ∉ invocation_ids db task_id -> opt_in (execution_ids db task_id) (gi_execution_id i) = false).
  { intros id i Ei Hid. apply not_true_iff_false. intros F. apply Hid, rows_where_ids. exists i. split; [done|]. apply orb_true_iff. by left. }
  unfold collected_graph. revert N XE XB XF XR XA KE IE C1 I1 I2 I3 C7.
  generalize (execution_ids db task_id), (branch_ids db task_id), (checkpoint_ids db task_id), (invocation_ids db task_id). intros E B K I.
  destruct db. unfold collected. simpl. intros N XE XB XF XR XA KE IE C1 I1 I2 I3 C7.
  split; simpl.
  - intros id t [Hne Et]%lookup_delete_Some. by eapply C1.
  - intros id e [Ee F%is_in_false]%drop_rows_lookup. by eapply XE.
  - intros id b [Eb F%is_in_false]%drop_rows_lookup. by eapply XB.
  - intros id k [Ek F]%drop_rows_lookup. pose proof F as F'%is_in_false. split; [by eapply KE|]. eapply some_row_false in C7; [|exact Ek]. simpl in C7.
    by rw F /= in C7.
  - intros id c [Ec [F1%is_in_false F2]%orb_false_iff]%drop_rows_lookup. split; [done|]. intros ->. by apply is_in_false.
  - intros k v [Ek F]%drop_rows_lookup. pose proof F as F'%is_in_false. split; [done|]. eapply some_row_false in I3; [|exact Ek]. simpl in I3.
    rw F andb_true_r in I3. by apply is_in_false.
  - intros id e [_ F%is_in_false]%drop_rows_lookup. done.
  - intros id w [Ew [F H]%orb_false_iff]%drop_rows_lookup. split; [by apply is_in_false|].
    split; [|intros ->; by apply not_hanging]. eapply some_row_false in I1; [|exact Ew]. simpl in I1.
    rw F andb_true_r in I1. by apply is_in_false.
  - intros id w [Ew [F H]%orb_false_iff]%drop_rows_lookup. split; [by apply is_in_false|].
    split; [|intros ->; by apply not_hanging]. eapply some_row_false in I2; [|exact Ew]. simpl in I2.
    rw F andb_true_r in I2. by apply is_in_false.
  - intros id j F Ej. destruct (g_tool_results !! gj_source_result_id j) as [w|] eqn:Ew.
    + apply drop_rows_lookup. split; [done|]. by apply (N F id j w).
    + apply eq_None_not_Some. intros [w [Hw _]%drop_rows_lookup]. congruence.
  - intros id i [Ei F%is_in_false]%drop_rows_lookup. by eapply IE.
  - intros id a [_ F%is_in_false]%drop_rows_lookup. done.
  - intros b [F%is_in_false _]%elem_of_filter. done.
  - intros k f Hf. pose proof (dropped_task fst _ _ _ _ Hf) as Hk. apply drop_rows_lookup in Hf as [Hf _]. by eapply XF.
  - intros k x Hx. pose proof (dropped_task fst _ _ _ _ Hx) as Hk. apply drop_rows_lookup in Hx as [Hx _]. by eapply XR.
  - intros k a Ha. pose proof (dropped_task fst _ _ _ _ Ha) as Hk. apply drop_rows_lookup in Ha as [Ha _]. by apply (XA k a).
  - intros k a bs s Ha. pose proof (dropped_task fst _ _ _ _ Ha) as Hk. apply drop_rows_lookup in Ha as [Ha _]. by apply (XA k a).
  - intros k a bs es s Ha. pose proof (dropped_task fst _ _ _ _ Ha) as Hk. apply drop_rows_lookup in Ha as [Ha _]. by apply (XA k a).
Qed.

(** C30 collection_leaves_no_dangling_reference: after a successful collection of a task that
    exists, no remaining row of the tables of the graph refers to a removed row in any of
    these columns, whatever its task: the parent of a task; the branch, execution and checkpoint
    columns of executions and branches (parents, bases, retries, current ones); the execution
    and parent of a checkpoint; the execution of a claim, an iteration and an invocation; the
    execution and invocation of a tool call and a tool result; the checkpoint and invocation of a
    pending row; the invocation of an attempt; the branch of a context; the branch, execution and
    checkpoint columns of the fork, retry and aggregate admissions and the source snapshots of
    aggregates.  Where
    foreign keys are enforced this also holds of the checkpoint of a claim and the iteration of
    a tool row, and the source of every tool media projection is still there.  Not covered,
    because the collector does not look there: the branch column of a checkpoint, the other
    columns of the projections and the rows of the quotas of users. *)
Theorem collection_leaves_no_dangling_reference fk others task_id expected db db' r :
  let w := others db in
  is_Some (g_tasks db !! task_id) ->
  execute_task_gc fk others task_id expected db = Ok (db', r) ->
  detached fk w task_id (execution_ids w task_id) (branch_ids w task_id) (checkpoint_ids w task_id) (invocation_ids w task_id) db'.
Proof.
  intros w T H. destruct (collection_lemma _ _ _ _ _ _ _ T H) as (_ & C & HK & -> & N). by apply clean_detached.
Qed.
