(* ===== verification/GcReachability.v ===== *)
(** * The dry run classifies exactly (file GcDryRun), and branches go children first
    (file GcExecutor) *)

From S2P Require Import Prelude Canonical GcDryRun GcExecutor GcProperties.

Lemma size_list_to_set_le {A} `{Countable A} (l : list A) : (size (list_to_set l : gset A) <= length l)%nat.
Proof.
  induction l as [|x l IH]; [done|]. rw list_to_set_cons size_union_alt size_singleton. simpl.
  assert (size ((list_to_set l : gset A) ∖ {[x]}) <= size (list_to_set l : gset A))%nat by (apply subseteq_size; set_solver). lia.
Qed.

(** ** The search reaches exactly what the references reach *)

Section Search.
Context (edges : list (GcRowKey * string * GcRowKey)).

Definition refers (a b : GcRowKey) : Prop := exists label, (a, label, b) ∈ edges.
Definition targets : gset GcRowKey := list_to_set (map snd edges).

Lemma edges_from_iff s l t : (l, t) ∈ edges_from edges s <-> (s, l, t) ∈ edges.
Proof.
  split; [apply edges_from_elem|]. intros He. unfold edges_from. rw sort_by_perm list_elem_of_omap. exists (s, l, t).
  split; [done|]. simpl. by rw bool_decide_true.
Qed.

Lemma expand_spec s l reached r q : expand s l reached = (r, q) ->
  dom r = dom reached ∪ list_to_set (map snd l) /\ (forall k, k ∈ q -> (k ∉ dom reached) /\ k ∈ dom r) /\
  (forall k, k ∈ dom r -> k ∈ dom reached \/ k ∈ q) /\ NoDup q.
Proof.
  revert reached r q. induction l as [|[label t] l IH]; simpl; intros reached r q H.
  { injection H as <- <-. split_and!; [set_solver|by intros k ?%elem_of_nil|by left|constructor]. }
  destruct (bool_decide (is_Some (reached !! t))) eqn:B; breflect.
  - apply elem_of_dom in B. destruct (IH _ _ _ H) as (D & Q & R & N). split_and!; [rw D; clear -B; set_solver|done|done|done].
  - rw -elem_of_dom in B. destruct (expand s l _) as [r' q'] eqn:X. injection H as <- <-.
    destruct (IH _ _ _ X) as (D & Q & R & N). rw dom_insert_L in D Q R. split_and!.
    + rw D. clear. set_solver.
    + intros k [->|Hk]%elem_of_cons; [split; [done|set_solver]|]. destruct (Q k Hk). set_solver.
    + intros k Hk. destruct (R k Hk) as [Hd|Hd]; clear -Hd; set_solver.
    + constructor; [|done]. intros Hk. destruct (Q t Hk) as [Hd _]. clear -Hd. set_solver.
Qed.

Lemma start_spec roots reached r q : start roots reached = (r, q) ->
  dom r = dom reached ∪ list_to_set (map fst roots) /\ (forall k, k ∈ dom r -> k ∈ dom reached \/ k ∈ q) /\
  (length q <= length roots)%nat.
Proof.
  revert reached r q. induction roots as [|[k s] roots IH]; simpl; intros reached r q H.
  { injection H as <- <-. split_and!; [set_solver|by left|done]. }
  destruct (bool_decide (is_Some (reached !! k))) eqn:B; breflect.
  - apply elem_of_dom in B. destruct (IH _ _ _ H) as (D & R & N). split_and!; [rw D; clear -B; set_solver|done|lia].
  - destruct (start roots _) as [r' q'] eqn:X. injection H as <- <-. destruct (IH _ _ _ X) as (D & R & N).
    rw dom_insert_L in D R. split_and!; [rw D; clear; set_solver| |simpl; lia]. intros x Hx.
    destruct (R x Hx) as [Hd|Hd]; clear -Hd; set_solver.
Qed.

(** Every reached row is queued or has all its references reached. *)
Definition expanded (queue : list GcRowKey) (reached : gmap GcRowKey string) : Prop :=
  forall a b, a ∈ dom reached -> a ∉ queue -> refers a b -> b ∈ dom reached.

Lemma bfs_closed fuel queue reached : expanded queue reached ->
  (length queue + size (targets ∖ dom reached) < fuel)%nat -> dom reached ⊆ dom (bfs edges fuel queue reached) /\ expanded [] (bfs edges fuel queue reached).
Proof.
  revert queue reached. induction fuel as [|fuel IH]; intros queue reached X M; [lia|]. simpl.
  destruct queue as [|s queue]; [done|]. destruct (expand s (edges_from edges s) reached) as [r q] eqn:E.
  destruct (expand_spec _ _ _ _ _ E) as (D & Q & R & N).
  assert (T : forall k, k ∈ q -> k ∈ targets).
  { intros k Hk. destruct (Q k Hk) as [Hn Hr]. rw D in Hr. apply elem_of_union in Hr as [Hr|Hr]; [done|].
    apply elem_of_list_to_set, list_elem_of_fmap in Hr as ([l t] & -> & Hl). apply edges_from_iff in Hl.
    apply elem_of_list_to_set, list_elem_of_fmap. by exists (s, l, t). }
  assert (S : (length q + size (targets ∖ dom r) <= size (targets ∖ dom reached))%nat).
  { rw -(size_list_to_set (C:=gset GcRowKey) q N) -size_union; [set_solver|]. apply subseteq_size. set_solver. }
  destruct (IH (queue ++ q) r) as [I1 I2].
  - intros a b Ha Hn [l Hl]. destruct (decide (a = s)) as [->|Hne].
    + rw D. apply elem_of_union_r, elem_of_list_to_set, list_elem_of_fmap. exists (l, b). split; [done|by apply edges_from_iff].
    + assert (Hr : a ∈ dom reached) by (destruct (R a Ha); set_solver). rw D. apply elem_of_union_l.
      apply (X a b Hr); [set_solver|by exists l].
  - rw length_app. simpl in M. lia.
  - split; [set_solver|done].
Qed.

Lemma search_exact roots k : is_Some (search edges roots !! k) <-> exists root s, (root, s) ∈ roots /\ rtc refers root k.
Proof.
  split.
  - apply (search_inside edges (fun k => exists root s, (root, s) ∈ roots /\ rtc refers root k)).
    + intros a l b He (root & s & Hr & P). exists root, s. split; [done|]. eapply rtc_r; [exact P|by exists l].
    + intros root s Hr. by exists root, s.
  - intros (root & s & Hr & P). unfold search. destruct (start (sort_by fst row_ltb roots) ∅) as [reached queue] eqn:E.
    destruct (start_spec _ _ _ _ E) as (D & R & N). rw dom_empty_L in D R.
    destruct (bfs_closed (S (length roots + length edges)) queue reached) as [B1 B2].
    + intros a b Ha Hn. exfalso. destruct (R a Ha); set_solver.
    + assert (L : (size (targets ∖ dom reached) <= length edges)%nat).
      { etrans; [apply (subseteq_size _ targets); set_solver|]. unfold targets. etrans; [apply size_list_to_set_le|]. by rw length_map. }
      assert (L2 : length (sort_by fst row_ltb roots) = length roots) by by rw sort_by_perm. lia.
    + apply elem_of_dom. assert (I : root ∈ dom (bfs edges (S (length roots + length edges)) queue reached)).
      { apply B1. rw D. apply elem_of_union_r, elem_of_list_to_set. rw sort_by_perm. by apply (list_elem_of_fmap_2 fst _ (root, s)). }
      clear Hr. induction P as [x|x y z Hxy _ IH]; [done|]. apply IH. apply (B2 x y I); [by apply not_elem_of_nil|done].
Qed.
End Search.

(** ** The report *)

(** C31 dry_run_exact: when the graph of a task has no problem, the report lists exactly its
    rows and transcripts, and retains exactly those that references reach from a root (the
    task itself unless its policy makes it eligible, and every transcript in use). *)
Theorem dry_run_exact db task_id policy r :
  is_Some (g_tasks db !! task_id) ->
  build_task_gc_dry_run db task_id policy = Some r -> failed_closed r = false ->
  (forall k, (exists i, i ∈ gc_items r /\ it_key i = k) <-> k ∈ owned_keys db task_id \/ k ∈ transcript_keys db task_id) /\
  (forall i, i ∈ gc_items r ->
     it_classification i = RETAIN <->
     exists root s, (root, s) ∈ roots db task_id policy /\ rtc (refers (all_edges db task_id)) root (it_key i)).
Proof.
  intros [t Et] Hb Hf. unfold build_task_gc_dry_run in Hb. rw Et in Hb.
  destruct (problems db task_id policy) as [ps|]; [|done]. injection Hb as <-. simpl in *. destruct (bool_decide (ps = [])).
  2: { exfalso. unfold failed_closed in Hf. simpl in Hf. apply not_true_iff_false in Hf. apply Hf, existsb_exists.
       eexists. split; [apply in_map, list_elem_of_In, task_key_owned|done]. }
  set (reached := search (all_edges db task_id) (roots db task_id policy)).
  assert (Kk : forall k, it_key (classify_item (active_task db task_id) reached k) = k) by (intros k; unfold classify_item; by destruct (reached !! k)).
  split.
  - intros k. rw -sorted_rows_elem. split.
    + intros (i & (x & -> & Hx)%list_elem_of_fmap & <-). by rw Kk.
    + intros Hk. eexists. split; [by apply list_elem_of_fmap_2|done].
  - intros i (x & -> & Hx)%list_elem_of_fmap. rw Kk -search_exact. fold reached. unfold classify_item.
    destruct (reached !! x) as [v|]; simpl; split.
    + intros _. by exists v.
    + done.
    + done.
    + by intros [].
Qed.

(** ** Branches are deleted children first *)

#[global] Instance depth_ltb_order : StrictTotalOrderB depth_ltb.
Proof.
  split; unfold depth_ltb.
  - intros [d s]; simpl. by rw Nat.ltb_irrefl Nat.eqb_refl ltb_irrefl.
  - intros [d1 s1] [d2 s2] [d3 s3]; simpl. rw !orb_true_iff !andb_true_iff !Nat.ltb_lt !Nat.eqb_eq.
    intros [?|[-> ?]] [?|[-> ?]]; [left; lia|left; lia|left; lia|right]. split; [done|]. by eapply ltb_trans.
  - intros [d1 s1] [d2 s2] Hne; simpl. rw !orb_true_iff !andb_true_iff !Nat.ltb_lt !Nat.eqb_eq.
    destruct (Nat.lt_trichotomy d1 d2) as [?|[->|?]]; [by auto| |by auto].
    assert (s1 <> s2) as Hs by congruence. destruct (ltb_total _ _ Hs); auto.
Qed.

Lemma branch_depth_stable rows f f' v v' id d d' :
  branch_depth f rows v id = Ok d -> branch_depth f' rows v' id = Ok d' -> d = d'.
Proof.
  revert f' v v' id d d'. induction f as [|f IH]; intros f' v v' id d d' H H'; [done|]. destruct f' as [|f']; [done|]. simpl in *.
  destruct (is_in v id); [done|]. destruct (is_in v' id); [done|]. destruct (dict_get id rows) as [[t [p|] a b c]|]; [|congruence|congruence].
  destruct (is_in (map fst rows) p); [|congruence].
  apply bind_ok in H as (x & Hx & H). apply bind_ok in H' as (x' & Hx' & H'). injection H as <-. injection H' as <-. f_equal. by eapply IH.
Qed.

Lemma branch_depths_elem rows ids l d id : branch_depths rows ids = Ok l -> (d, id) ∈ l ->
  branch_depth (S (S (length rows))) rows [] id = Ok d.
Proof.
  revert l. induction ids as [|x ids IH]; simpl; intros l H Hin; [injection H as <-; by apply elem_of_nil in Hin|].
  apply bind_ok in H as (dx & Hx & H). apply bind_ok in H as (l' & Hl & H). injection H as <-.
  apply elem_of_cons in Hin as [E|Hin]; [by injection E as -> ->|by eapply IH].
Qed.

Lemma strictly_sorted_before {A K} (key : A -> K) ltb `{!StrictTotalOrderB ltb} l i j a b :
  strictly_sorted key ltb l -> l !! i = Some a -> l !! j = Some b -> ltb (key a) (key b) = true -> (i < j)%nat.
Proof.
  intros S. revert i j. induction S as [|x l S IH Hx]; intros i j Hi Hj Hab; [done|]. rw Forall_forall in Hx.
  destruct i as [|i], j as [|j]; simpl in *.
  - injection Hi as ->. injection Hj as ->. by rw ltb_irrefl in Hab.
  - lia.
  - injection Hj as ->. specialize (Hx _ (list_elem_of_lookup_2 _ _ _ Hi)). pose proof (ltb_trans _ _ _ Hx Hab) as F. by rw ltb_irrefl in F.
  - specialize (IH i j Hi Hj Hab). lia.
Qed.

(** [branches_deleted_children_first]: when the branches of a task have an order of deletion,
    it lists each branch once and every branch before its parent. *)
Theorem branches_deleted_children_first rows order :
  NoDup (map fst rows) -> branch_delete_order rows = Ok order ->
  order ≡ₚ map fst rows /\
  forall i j child parent b, order !! i = Some child -> order !! j = Some parent -> dict_get child rows = Some b ->
    gb_parent_branch_id b = Some parent -> (i < j)%nat.
Proof.
  intros Hn Ho. split; [by apply branch_order_perm|]. intros i j child parent b Hi Hj Eb Hp.
  unfold branch_delete_order in Ho. apply bind_ok in Ho as (l & Hl & Ho). injection Ho as <-.
  apply list_lookup_fmap_Some in Hi as ([dc c] & -> & Hi). apply list_lookup_fmap_Some in Hj as ([dp p] & -> & Hj). simpl in *.
  assert (E : forall d id, (d, id) ∈ sort_by (fun x => x) depth_ltb l -> branch_depth (S (S (length rows))) rows [] id = Ok d).
  { intros d id. rw sort_by_perm. by apply (branch_depths_elem _ _ _ _ _ Hl). }
  pose proof (E _ _ (list_elem_of_lookup_2 _ _ _ Hi)) as Dc. pose proof (E _ _ (list_elem_of_lookup_2 _ _ _ Hj)) as Dp.
  assert (Ip : p ∈ map fst rows).
  { rw -(branch_depths_ids _ _ _ Hl). apply list_elem_of_fmap. exists (dp, p). split; [done|]. apply list_elem_of_lookup_2 in Hj. by rw sort_by_perm in Hj. }
  eapply (strictly_sorted_before (fun x => x) depth_ltb); [|exact Hi|exact Hj|].
  - apply sort_by_sorted; [apply _|]. rw map_id. assert (N : NoDup (map snd l)) by (by rw (branch_depths_ids _ _ _ Hl)). exact (NoDup_fmap_1 snd l N).
  - unfold depth_ltb. simpl. apply orb_true_iff. left. apply Nat.ltb_lt. remember (S (length rows)) as f. simpl in Dc.
    destruct b as [t pb x y z]. rw Eb in Dc. simpl in Hp. subst pb. rw (proj2 (is_in_true _ _) Ip) in Dc.
    apply bind_ok in Dc as (d & Hd & Dc). injection Dc as <-.
    rw (branch_depth_stable _ _ _ _ _ _ _ _ Dp Hd). lia.
Qed.

(** ** Witnesses *)

(** A completed task with a fork, next to another task. *)
Definition demo_branch (task : string) (parent exec ck : option string) : GcBranch :=
  {| gb_task_id := task; gb_parent_branch_id := parent; gb_base_execution_id := exec; gb_base_checkpoint_id := ck;
     gb_current_execution_id := None |}.

Definition demo_execution (task branch state : string) (ck : option string) : GcExecution :=
  {| ge_task_id := Some task; ge_branch_id := Some branch; ge_parent_execution_id := None; ge_retry_of_execution_id := None;
     ge_base_execution_id := None; ge_base_checkpoint_id := None; ge_current_checkpoint_id := ck; ge_state := state |}.

Definition demo_db : GcDB :=
  {| g_tasks := {[ "T1" := {| gt_status := "COMPLETED"; gt_parent_task_id := None |};
                   "T2" := {| gt_status := "RUNNING"; gt_parent_task_id := None |} ]};
     g_budgets := {[ "T1" := "CLOSED"; "T2" := "OPEN" ]};
     g_reservations := {[ ("T1", "TOOL_CALL", "k") ]};
     g_branches := {[ "B1" := demo_branch "T1" None None None; "B2" := demo_branch "T1" (Some "B1") (Some "E1") (Some "C1");
                      "B3" := demo_branch "T2" None None None ]};
     g_contexts := {[ "B1" ]};
     g_executions := {[ "E1" := demo_execution "T1" "B1" "COMPLETED" (Some "C1"); "E2" := demo_execution "T2" "B3" "RUNNING" None ]};
     g_checkpoints := {[ "C1" := {| gk_task_id := Some "T1"; gk_execution_id := "E1"; gk_branch_id := Some "B1";
                                    gk_parent_checkpoint_id := None;
                                    gk_transcript_ref := Some "R1"; gk_transcript_version := Some 1%Z |} ]};
     g_pending := {[ ("C1", 0%Z) := {| gp_invocation_id := "I1"; gp_tool_call_id := "tc"; gp_capability_id := "cap" |} ]};
     g_claims := {[ "L1" := {| gl_execution_id := "E1"; gl_checkpoint_id := "C1"; gl_state := "CONSUMED" |} ]};
     g_iterations := {[ "N1" := "E1" ]};
     g_tool_calls := {[ "W1" := {| gw_execution_id := "E1"; gw_iteration_id := "N1"; gw_invocation_id := "I1"; gw_tool_call_id := "tc";
                                   gw_capability_id := "cap"; gw_commit_state := "" |} ]};
     g_tool_results := {[ "W2" := {| gw_execution_id := "E1"; gw_iteration_id := "N1"; gw_invocation_id := "I1"; gw_tool_call_id := "tc";
                                     gw_capability_id := "cap"; gw_commit_state := "COMMITTED" |} ]};
     g_invocations := {[ "I1" := {| gi_execution_id := Some "E1"; gi_tool_call_id := Some "tc"; gi_capability_id := "cap";
                                    gi_state := "COMPLETED"; gi_remote_outcome_state := None |} ]};
     g_attempts := {[ "A1" := {| ga_invocation_id := "I1"; ga_state := "COMPLETED" |} ]};
     g_forks := {[ ("T1", "fork") := {| gf_source_branch_id := "B1"; gf_branch_id := "B2"; gf_source_execution_id := "E1";
                                        gf_execution_id := "E1"; gf_source_checkpoint_id := "C1" |} ]};
     g_retries := ∅; g_aggregates := ∅;
     g_representations := {[ ("R1", 1%Z) := {| gn_payload_root_ref := "P1"; gn_parent_transcript_ref := None; gn_parent_transcript_version := None |} ]};
     g_payloads := {[ "P1" := {| gy_chunk_id := "H1"; gy_parent_payload_root_ref := None |} ]};
     g_chunks := {[ "H1" ]}; g_projections := ∅ |}%string.

(** When nobody interferes, the first report is confirmed by the second. *)
Lemma execute_alone fk task_id db report p : is_Some (g_tasks db !! task_id) -> build_task_gc_dry_run db task_id true = Some report ->
  validate_candidate_report report = Ok tt -> collect fk task_id report db = Ok p ->
  exists r, execute_task_gc fk id task_id None db = Ok (p.1, r).
Proof.
  intros [t Et] Hb Hv Hc. unfold execute_task_gc. rw Et Hb /= Hv /= ?Hv /= bool_decide_true // /= Hc /=. by eexists.
Qed.

Definition demo_items : list GcDryRunItem :=
  map (classify_item (active_task demo_db "T1") (search (all_edges demo_db "T1") (roots demo_db "T1" true))) (sorted_rows demo_db "T1").

Definition collects (items : list GcDryRunItem) : bool :=
  match collect true "T1" {| gc_task_id := "T1"; gc_items := items; gc_fingerprint := "" |} demo_db with Ok _ => true | Err _ => false end.

Definition validates (items : list GcDryRunItem) : bool :=
  match validate_candidate_report {| gc_task_id := "T1"; gc_items := items; gc_fingerprint := "" |} with Ok _ => true | Err _ => false end.

Lemma demo_task : is_Some (g_tasks demo_db !! "T1"%string).
Proof. vm_compute. by eexists. Qed.

Lemma demo_report : build_task_gc_dry_run demo_db "T1" true = Some (make_report "T1" demo_items).
Proof.
  assert (P : problems demo_db "T1" true = Some []) by (vm_compute; reflexivity).
  unfold build_task_gc_dry_run. destruct demo_task as [t ->]. rw P. reflexivity.
Qed.

(** Only the items of a report matter to the deletion. *)
Lemma same_collect fk task_id db r items : gc_items r = items ->
  collect fk task_id r db = collect fk task_id {| gc_task_id := task_id; gc_items := items; gc_fingerprint := "" |} db.
Proof. by intros <-. Qed.
Lemma same_validation task_id r items : gc_items r = items ->
  validate_candidate_report r = validate_candidate_report {| gc_task_id := task_id; gc_items := items; gc_fingerprint := "" |}.
Proof. by intros <-. Qed.

Lemma demo_collected : exists p r, execute_task_gc true id "T1" None demo_db = Ok (p, r).
Proof.
  assert (V : validates demo_items = true) by (vm_compute; reflexivity).
  assert (C : collects demo_items = true) by (vm_compute; reflexivity).
  pose proof demo_report as R. pose proof demo_task as T. unfold collects in C. unfold validates in V.
  assert (I : gc_items (make_report "T1" demo_items) = demo_items) by reflexivity.
  rw -(same_collect true "T1" demo_db _ _ I) in C. rw -(same_validation "T1" _ _ I) in V. clear I.
  revert R C V T. generalize (make_report "T1" demo_items), demo_db. intros report db R C V T.
  destruct (collect true "T1" report db) as [p|] eqn:E; [|done].
  assert (V' : validate_candidate_report report = Ok tt) by by destruct (validate_candidate_report report) as [[]|].
  destruct (execute_alone true "T1" db report p T R V' E) as [r Hr]. by exists p.1, r.
Qed.

Lemma collection_exact_witness :
  exists db' r, execute_task_gc true id "T1" None demo_db = Ok (db', r) /\ db' = collected_graph true demo_db "T1" /\ collectable demo_db "T1".
Proof.
  destruct demo_collected as (p & r & E). exists p, r. split; [exact E|].
  destruct (collection_exact true id "T1" None demo_db p r E) as [[N _]|[C D]]; [discriminate N|]. split; [exact D|exact C].
Defined.

Lemma collection_leaves_no_dangling_reference_witness :
  exists db' r, execute_task_gc true id "T1" None demo_db = Ok (db', r) /\ detached true demo_db "T1" ["E1"] ["B1"; "B2"] ["C1"] ["I1"] db'.
Proof.
  destruct demo_collected as (p & r & E). exists p, r. split; [exact E|].
  exact (collection_leaves_no_dangling_reference true id "T1" None demo_db p r demo_task E).
Defined.

Lemma dry_run_exact_witness :
  (exists i, i ∈ gc_items (make_report "T1" demo_items) /\ it_key i = ("transcript_chunk", "H1")) /\
  forall i, i ∈ demo_items -> it_classification i = RETAIN <->
    exists root s, (root, s) ∈ roots demo_db "T1" true /\ rtc (refers (all_edges demo_db "T1")) root (it_key i).
Proof.
  assert (F : existsb (fun i => bool_decide (it_classification i = FAIL_CLOSED)) demo_items = false) by (vm_compute; reflexivity).
  assert (K : ("transcript_chunk", "H1")%string ∈ transcript_keys demo_db "T1") by (apply (bool_decide_unpack _); vm_compute; exact Logic.I).
  destruct (dry_run_exact demo_db "T1" true (make_report "T1" demo_items) demo_task demo_report F) as [H1 H2].
  split; [|exact H2]. apply H1. right. exact K.
Defined.

Lemma branches_deleted_children_first_witness :
  exists order, branch_delete_order [("B1", demo_branch "T1" None None None); ("B2", demo_branch "T1" (Some "B1") None None)]%string = Ok order /\
    order ≡ₚ ["B1"; "B2"]%string.
Proof.
  exists ["B2"; "B1"]%string. split; [vm_compute; reflexivity|].
  refine (proj1 (branches_deleted_children_first [("B1", demo_branch "T1" None None None); ("B2", demo_branch "T1" (Some "B1") None None)]%string _ _ _)).
  - apply (bool_decide_unpack _). vm_compute. exact Logic.I.
  - vm_compute. reflexivity.
Defined.

(** ** Two gaps *)

(** A payload that is its own parent: the row is recorded before its parent is followed, so the
    check for cycles never fires. *)
Definition with_payloads (payloads : gmap string GcPayload) (projections : gmap string GcProjection) (db : GcDB) : GcDB :=
  let '(Build_GcDB t b r br cx e k p c i tc tr iv at_ fo re ag rp _ ch _) := db in
  Build_GcDB t b r br cx e k p c i tc tr iv at_ fo re ag rp payloads ch projections.

Definition cyclic_db : GcDB :=
  with_payloads {[ "P1" := {| gy_chunk_id := "H1"; gy_parent_payload_root_ref := Some "P1" |} ]}%string ∅ demo_db.

Example transcript_cycle_unnoticed : problems cyclic_db "T1" true = Some [].
Proof. vm_compute. reflexivity. Qed.

(** What the deletion does with the rows that a clean dry run found. *)
Definition clean_collect (fk : bool) (db : GcDB) : result GcError GcDB :=
  x ← collect fk "T1" {| gc_task_id := "T1";
                         gc_items := map (classify_item (active_task db "T1") (search (all_edges db "T1") (roots db "T1" true)))
                                       (sorted_rows db "T1");
                         gc_fingerprint := "" |} db;
  mret x.1.

(** A claim of another task's execution that names a checkpoint of this task: the dry run only
    looks at the claims of its own executions.  The claim is deleted with the checkpoint where
    foreign keys are enforced, and dangles where they are not. *)
Definition foreign_claim_db : GcDB :=
  upd_claims (fun _ => {[ "L9" := {| gl_execution_id := "E2"; gl_checkpoint_id := "C1"; gl_state := "CREATED" |} ]})%string demo_db.

Example foreign_claim_unnoticed :
  problems foreign_claim_db "T1" true = Some [] /\
  (g_claims <$> clean_collect true foreign_claim_db) = Ok ∅ /\
  (g_claims <$> clean_collect false foreign_claim_db) = Ok (g_claims foreign_claim_db).
Proof. split_and!; vm_compute; reflexivity. Qed.

(** A tool medium of the task was copied into the asset store: the dry run names the task a
    candidate, and the deletion raises where foreign keys are enforced. *)
Definition projected_db : GcDB :=
  with_payloads (g_payloads demo_db)
    {[ "J1" := {| gj_source_result_id := "W2"; gj_execution_id := "E1"; gj_invocation_id := "I1" |} ]}%string demo_db.

Example projected_media_unnoticed :
  problems projected_db "T1" true = Some [] /\ clean_collect true projected_db = Err GcIntegrityError /\
  (g_projections <$> clean_collect false projected_db) = Ok (g_projections projected_db).
Proof. split_and!; vm_compute; reflexivity. Qed.
