(* ===== verification/UserBudget.v ===== *)
(** * Renewable user budgets: schema, tables and repository
    (src/se/src/domain/schemas/user_budget.py,
    src/se/src/infrastructure/storage/models/sql/user_budget.py and
    src/se/src/infrastructure/storage/repositories/user_budget.py)

    A user owns an account with a selected policy; usage is counted in windows of the policy's
    duration, one of them ACTIVE; a reservation holds an amount of one resource in one window
    until it is settled or released.  The repository works inside the caller's transaction: a
    method is a function on the tables, and an exception rolls the transaction back.  SQLite
    serialises the writers (BEGIN IMMEDIATE), so a method sees the rows it writes.  Instants
    are microseconds since 1970, amounts are in atomic units.  The columns created_at and
    updated_at are left out, and foreign keys are not checked: the invariant of the file
    UserBudgetInvariant shows that they hold.  Strings are printable ASCII, where
    [ensure_ascii] makes no difference; the digest is an argument (the program's is
    SHA-256). *)

From S2P Require Import Prelude Canonical TaskBudgetSchema.

(** ** The schema *)

Definition USER_BUDGET_INT64_MAX : Z := 9223372036854775807.

Inductive UserBudgetWindowState := W_ACTIVE | W_CLOSED.

Inductive UserBudgetResourceKind :=
  | K_INFERENCE_CALL | K_INPUT_TOKEN | K_OUTPUT_TOKEN | K_TOTAL_TOKEN
  | K_TOOL_CALL | K_COMPUTE_UNIT | K_COST_USD.

Inductive UserBudgetReservationState := S_RESERVED | S_SETTLED | S_RELEASED | S_OUTCOME_UNKNOWN.

#[global] Instance UserBudgetWindowState_eq_dec : EqDecision UserBudgetWindowState.
Proof. solve_decision. Defined.
#[global] Instance UserBudgetResourceKind_eq_dec : EqDecision UserBudgetResourceKind.
Proof. solve_decision. Defined.
#[global] Instance UserBudgetReservationState_eq_dec : EqDecision UserBudgetReservationState.
Proof. solve_decision. Defined.

Definition resource_value (k : UserBudgetResourceKind) : string :=
  match k with
  | K_INFERENCE_CALL => "INFERENCE_CALL"
  | K_INPUT_TOKEN => "INPUT_TOKEN"
  | K_OUTPUT_TOKEN => "OUTPUT_TOKEN"
  | K_TOTAL_TOKEN => "TOTAL_TOKEN"
  | K_TOOL_CALL => "TOOL_CALL"
  | K_COMPUTE_UNIT => "COMPUTE_UNIT"
  | K_COST_USD => "COST_USD"
  end.

(** [UserBudgetResourceKind(value)] *)
Definition resource_of_value (s : string) : option UserBudgetResourceKind :=
  find (fun k => bool_decide (resource_value k = s))
    [K_INFERENCE_CALL; K_INPUT_TOKEN; K_OUTPUT_TOKEN; K_TOTAL_TOKEN; K_TOOL_CALL;
     K_COMPUTE_UNIT; K_COST_USD].

(** The exceptions of the budget, of its owner authority and of the quotas. *)
Inductive UBError :=
  | UserBudgetConflict (what : string)
  | UserBudgetIntegrity (what : string)
  | UserBudgetSerialization
  | UBIntegrityError                     (* sqlalchemy.exc.IntegrityError *)
  | UBValueError (what : string)         (* ValueError and pydantic's ValidationError *)
  | UBKeyError (what : string)
  | UBOverflowError
  | UBInvalidOperation                   (* decimal.InvalidOperation *)
  | UBAssertionError
  | UserBudgetOwnerUnresolved (what : string)
  | UserBudgetParentOwnerMismatch
  | UserBudgetParentUnbound
  | UserBudgetPolicyAuthorityConflict (what : string)
  | UserBudgetBindingDrift
  | UserToolQuotaConflict (what : string)
  | UserToolQuotaExceeded
  | UserToolCapabilityQuotaExceeded
  | UserInferenceQuotaContext (what : string)
  | UserInferenceQuotaConflict (what : string)
  | UserInferenceQuotaExceeded
  | UserTokenQuotaExceeded (what : string)
  | UserComputeQuotaExceeded
  | UserCostQuotaExceeded
  | UserInferenceEstimateUnavailable (what : string)
  | UserBudgetUnsupportedGovernedOperation.

(** The two errors after which a service tries again. *)
Definition is_retryable_error (e : UBError) : bool :=
  match e with UserBudgetConflict _ | UserBudgetSerialization => true | _ => false end.

Definition require_atomic_int (value : Z) (positive : bool) : result UBError Z :=
  _ ← guard_err (((if positive then 1 else 0) <=? value) && (value <=? USER_BUDGET_INT64_MAX))
        (UBValueError "user budget atomic value out of range");
  mret value.

(** A Decimal normalised to the quantum of 10^-8 is its number of quanta; multiplying it by
    the atomic scale is exact. *)
Definition normalize_decimal_value (value : Decimal) (positive : bool) : result UBError Z :=
  match value with
  | DFinite coef exp =>
      match quantize coef exp with
      | Err _ => Err UBInvalidOperation
      | Ok q =>
          _ ← guard_err (negb (positive && (q <=? 0)))
                (UBValueError "user budget policy decimal limits must be positive");
          _ ← guard_err (negb (negb positive && (q <? 0)))
                (UBValueError "user budget decimal counters must be non-negative");
          require_atomic_int q positive
      end
  | _ => Err (UBValueError "user budget decimal values must be finite")
  end.

Definition decimal_to_atomic (value : Decimal) (positive : bool) : result UBError Z :=
  normalize_decimal_value value positive.

Definition decimal_from_atomic (value : Z) : result UBError Decimal :=
  atomic ← require_atomic_int value false; mret (of_quanta atomic).

(** [format(normalized, ".8f")] *)
Definition canonical_decimal_string (q : Z) : string :=
  String.append (pretty (q / 10 ^ 8)) (String "."%char (pad_left 8 (pretty (q mod 10 ^ 8)))).

Definition opt_str_json (o : option string) : json := from_option JStr JNull o.
Definition opt_int_json (o : option Z) : json := from_option JInt JNull o.

(** A policy; decimal limits are in quanta. *)
Record UserBudgetPolicy := {
  up_policy_id : string;
  up_owner_user_id : string;
  up_policy_version : string;
  up_window_duration_seconds : Z;
  up_max_compute_units : option Z;
  up_max_inference_calls : option Z;
  up_max_input_tokens : option Z;
  up_max_output_tokens : option Z;
  up_max_total_tokens : option Z;
  up_max_tool_calls_total : option Z;
  up_default_per_tool_limit : option Z;
  up_tool_limits : gmap string Z;
  up_max_cost_usd : option Z
}.

Definition name_valid (max : nat) (s : string) : bool :=
  truthy s && (String.length s <=? max)%nat.

Definition limit_valid (o : option Z) : bool :=
  match o with Some z => (0 <? z) && (z <=? USER_BUDGET_INT64_MAX) | None => true end.

(** The validators of the model. *)
Definition policy_valid (p : UserBudgetPolicy) : bool :=
  name_valid 255 (up_policy_id p) && name_valid 255 (up_owner_user_id p) &&
  name_valid 64 (up_policy_version p) && limit_valid (Some (up_window_duration_seconds p)) &&
  forallb limit_valid
    [up_max_compute_units p; up_max_inference_calls p; up_max_input_tokens p;
     up_max_output_tokens p; up_max_total_tokens p; up_max_tool_calls_total p;
     up_default_per_tool_limit p; up_max_cost_usd p] &&
  forallb (fun kv : string * Z => name_valid 255 kv.1 && limit_valid (Some kv.2))
    (map_to_list (up_tool_limits p)).

Definition opt_decimal_json (o : option Z) : json :=
  from_option (fun q => JStr (canonical_decimal_string q)) JNull o.

Definition canonical_semantics (p : UserBudgetPolicy) : json := JObj [
  ("policy_id", JStr (up_policy_id p));
  ("owner_user_id", JStr (up_owner_user_id p));
  ("policy_version", JStr (up_policy_version p));
  ("window_duration_seconds", JInt (up_window_duration_seconds p));
  ("max_compute_units", opt_decimal_json (up_max_compute_units p));
  ("max_inference_calls", opt_int_json (up_max_inference_calls p));
  ("max_input_tokens", opt_int_json (up_max_input_tokens p));
  ("max_output_tokens", opt_int_json (up_max_output_tokens p));
  ("max_total_tokens", opt_int_json (up_max_total_tokens p));
  ("max_tool_calls_total", opt_int_json (up_max_tool_calls_total p));
  ("default_per_tool_limit", opt_int_json (up_default_per_tool_limit p));
  ("tool_limits", JObj (map (fun kv : string * Z => (kv.1, JInt kv.2))
                         (map_to_list (up_tool_limits p))));
  ("max_cost_usd", opt_decimal_json (up_max_cost_usd p))].

(** [_canonicalize_json]: objects with their keys in order. *)
Fixpoint canonicalize_json (j : json) : json :=
  match j with
  | JArr l => JArr (map canonicalize_json l)
  | JObj fields => JObj (sort_fields (map (fun '(k, v) => (k, canonicalize_json v)) fields))
  | _ => j
  end.

Record UserBudgetReservationIntent := {
  ui_reservation_id : string;
  ui_owner_user_id : string;
  ui_window_epoch : Z;
  ui_idempotency_key : string;
  ui_resource_kind : UserBudgetResourceKind;
  ui_capability_id : option string;
  ui_reserved_amount_atomic : Z;
  ui_attribution : json
}.

Definition is_object (j : json) : bool := match j with JObj _ => true | _ => false end.

(** The validators of the intent. *)
Definition intent_valid (i : UserBudgetReservationIntent) : bool :=
  name_valid 255 (ui_reservation_id i) && name_valid 255 (ui_owner_user_id i) &&
  limit_valid (Some (ui_window_epoch i)) && name_valid 255 (ui_idempotency_key i) &&
  limit_valid (Some (ui_reserved_amount_atomic i)) && is_object (ui_attribution i) &&
  match ui_capability_id i with
  | Some c => bool_decide (ui_resource_kind i = K_TOOL_CALL) && name_valid 255 c
  | None => negb (bool_decide (ui_resource_kind i = K_TOOL_CALL))
  end.

Definition canonical_attribution (i : UserBudgetReservationIntent) : json :=
  canonicalize_json (ui_attribution i).

(** ** The tables *)

Record UserBudgetPolicyRecord := {
  pr_policy_id : string;
  pr_owner_user_id : string;
  pr_policy_version : string;
  pr_policy_fingerprint : string;
  pr_window_duration_seconds : Z;
  pr_max_compute_atomic : option Z;
  pr_max_inference_calls : option Z;
  pr_max_input_tokens : option Z;
  pr_max_output_tokens : option Z;
  pr_max_total_tokens : option Z;
  pr_max_tool_calls_total : option Z;
  pr_default_per_tool_limit : option Z;
  pr_tool_limits_json : gmap string Z;
  pr_max_cost_usd_atomic : option Z
}.

(** The counters of a window. *)
Record WindowUsage := {
  compute_used_atomic : Z;
  compute_reserved_atomic : Z;
  inference_used : Z;
  inference_reserved : Z;
  input_tokens_used : Z;
  output_tokens_used : Z;
  total_tokens_used : Z;
  tokens_reserved : Z;
  tool_calls_used : Z;
  tool_calls_reserved : Z;
  cost_used_atomic : Z;
  cost_reserved_atomic : Z
}.

Inductive UsageField :=
  | F_compute_used_atomic | F_compute_reserved_atomic | F_inference_used | F_inference_reserved
  | F_input_tokens_used | F_output_tokens_used | F_total_tokens_used | F_tokens_reserved
  | F_tool_calls_used | F_tool_calls_reserved | F_cost_used_atomic | F_cost_reserved_atomic.

#[global] Instance UsageField_eq_dec : EqDecision UsageField.
Proof. solve_decision. Defined.

(** [getattr(window, field)] *)
Definition usage_get (f : UsageField) (u : WindowUsage) : Z :=
  match f with
  | F_compute_used_atomic => compute_used_atomic u
  | F_compute_reserved_atomic => compute_reserved_atomic u
  | F_inference_used => inference_used u
  | F_inference_reserved => inference_reserved u
  | F_input_tokens_used => input_tokens_used u
  | F_output_tokens_used => output_tokens_used u
  | F_total_tokens_used => total_tokens_used u
  | F_tokens_reserved => tokens_reserved u
  | F_tool_calls_used => tool_calls_used u
  | F_tool_calls_reserved => tool_calls_reserved u
  | F_cost_used_atomic => cost_used_atomic u
  | F_cost_reserved_atomic => cost_reserved_atomic u
  end.

Definition usage_of (g : UsageField -> Z) : WindowUsage := {|
  compute_used_atomic := g F_compute_used_atomic;
  compute_reserved_atomic := g F_compute_reserved_atomic;
  inference_used := g F_inference_used;
  inference_reserved := g F_inference_reserved;
  input_tokens_used := g F_input_tokens_used;
  output_tokens_used := g F_output_tokens_used;
  total_tokens_used := g F_total_tokens_used;
  tokens_reserved := g F_tokens_reserved;
  tool_calls_used := g F_tool_calls_used;
  tool_calls_reserved := g F_tool_calls_reserved;
  cost_used_atomic := g F_cost_used_atomic;
  cost_reserved_atomic := g F_cost_reserved_atomic |}.

(** The target a caller supplies for a column. *)
Fixpoint target_of (f : UsageField) (targets : list (UsageField * Z)) : option Z :=
  match targets with
  | [] => None
  | (f', z) :: l => if bool_decide (f = f') then Some z else target_of f l
  end.

(** UPDATE of the supplied columns. *)
Definition usage_set (targets : list (UsageField * Z)) (u : WindowUsage) : WindowUsage :=
  usage_of (fun f => default (usage_get f u) (target_of f targets)).

Definition no_usage : WindowUsage := usage_of (fun _ => 0).

Record UserBudgetWindowRecord := {
  wr_owner_user_id : string;
  wr_epoch : Z;
  wr_state : UserBudgetWindowState;
  wr_governing_policy_id : string;
  wr_governing_policy_version : string;
  wr_governing_policy_fingerprint : string;
  wr_started_at : Z;
  wr_expires_at : Z;
  wr_usage : WindowUsage;
  wr_revision : Z;
  wr_closed_at : option Z
}.

Record UserBudgetAccountRecord := {
  ar_owner_user_id : string;
  ar_revision : Z;
  ar_next_policy_id : option string;
  ar_active_window_epoch : option Z;
  ar_next_window_epoch : Z
}.

Record UserToolBudgetUsageRecord := { tu_used_calls : Z; tu_reserved_calls : Z; tu_revision : Z }.

Record UserBudgetReservationRecord := {
  rv_reservation_id : string;
  rv_owner_user_id : string;
  rv_window_epoch : Z;
  rv_idempotency_key : string;
  rv_resource_kind : UserBudgetResourceKind;
  rv_capability_id : option string;
  rv_reserved_amount_atomic : Z;
  rv_settled_amount_atomic : option Z;
  rv_state : UserBudgetReservationState;
  rv_attribution_json : json;
  rv_payload_fingerprint : string;
  rv_revision : Z;
  rv_settled_at : option Z
}.

Record UserBudgetTaskBindingRecord := {
  bd_task_id : string;
  bd_owner_user_id : string;
  bd_enrollment_version : string;
  bd_source_auth_type : string;
  bd_source_api_key_id : option string;
  bd_source_application_id : option string;
  bd_source_organization_id : option string;
  bd_resolution_fingerprint : string
}.

(** A mirror dimension is a resource, or NO_CHARGE. *)
Definition dimension_value (d : option UserBudgetResourceKind) : string :=
  from_option resource_value "NO_CHARGE" d.

Record UserBudgetDualAccountingReceiptRecord := {
  dr_bridge_receipt_id : string;
  dr_owner_user_id : string;
  dr_task_id : string;
  dr_task_budget_kind : string;
  dr_task_budget_reservation_key : string;
  dr_mirror_dimension : string;
  dr_source_payload_fingerprint : string;
  dr_window_epoch : option Z;
  dr_ubq_reservation_id : option string;
  dr_ubq_idempotency_key : option string;
  dr_ubq_payload_fingerprint : option string;
  dr_amount_atomic : Z;
  dr_capability_id : option string
}.

Definition ReceiptKey : Type := string * string * string * string.

Definition receipt_key (r : UserBudgetDualAccountingReceiptRecord) : ReceiptKey :=
  (dr_task_id r, dr_task_budget_kind r, dr_task_budget_reservation_key r, dr_mirror_dimension r).

(** The tables by their keys; reservations by owner and idempotency key, receipts by their
    source and dimension. *)
Record UserBudgetDB := {
  ub_policies : gmap string UserBudgetPolicyRecord;
  ub_windows : gmap (string * Z) UserBudgetWindowRecord;
  ub_accounts : gmap string UserBudgetAccountRecord;
  ub_tool_usage : gmap (string * Z * string) UserToolBudgetUsageRecord;
  ub_reservations : gmap (string * string) UserBudgetReservationRecord;
  ub_bindings : gmap string UserBudgetTaskBindingRecord;
  ub_receipts : gmap ReceiptKey UserBudgetDualAccountingReceiptRecord
}.

Definition empty_budget_db : UserBudgetDB := {|
  ub_policies := ∅; ub_windows := ∅; ub_accounts := ∅; ub_tool_usage := ∅;
  ub_reservations := ∅; ub_bindings := ∅; ub_receipts := ∅ |}.

Definition with_policies (db : UserBudgetDB) m : UserBudgetDB := {|
  ub_policies := m; ub_windows := ub_windows db; ub_accounts := ub_accounts db;
  ub_tool_usage := ub_tool_usage db; ub_reservations := ub_reservations db;
  ub_bindings := ub_bindings db; ub_receipts := ub_receipts db |}.
Definition with_windows (db : UserBudgetDB) m : UserBudgetDB := {|
  ub_policies := ub_policies db; ub_windows := m; ub_accounts := ub_accounts db;
  ub_tool_usage := ub_tool_usage db; ub_reservations := ub_reservations db;
  ub_bindings := ub_bindings db; ub_receipts := ub_receipts db |}.
Definition with_accounts (db : UserBudgetDB) m : UserBudgetDB := {|
  ub_policies := ub_policies db; ub_windows := ub_windows db; ub_accounts := m;
  ub_tool_usage := ub_tool_usage db; ub_reservations := ub_reservations db;
  ub_bindings := ub_bindings db; ub_receipts := ub_receipts db |}.
Definition with_tool_usage (db : UserBudgetDB) m : UserBudgetDB := {|
  ub_policies := ub_policies db; ub_windows := ub_windows db; ub_accounts := ub_accounts db;
  ub_tool_usage := m; ub_reservations := ub_reservations db;
  ub_bindings := ub_bindings db; ub_receipts := ub_receipts db |}.
Definition with_reservations (db : UserBudgetDB) m : UserBudgetDB := {|
  ub_policies := ub_policies db; ub_windows := ub_windows db; ub_accounts := ub_accounts db;
  ub_tool_usage := ub_tool_usage db; ub_reservations := m;
  ub_bindings := ub_bindings db; ub_receipts := ub_receipts db |}.
Definition with_bindings (db : UserBudgetDB) m : UserBudgetDB := {|
  ub_policies := ub_policies db; ub_windows := ub_windows db; ub_accounts := ub_accounts db;
  ub_tool_usage := ub_tool_usage db; ub_reservations := ub_reservations db;
  ub_bindings := m; ub_receipts := ub_receipts db |}.
Definition with_receipts (db : UserBudgetDB) m : UserBudgetDB := {|
  ub_policies := ub_policies db; ub_windows := ub_windows db; ub_accounts := ub_accounts db;
  ub_tool_usage := ub_tool_usage db; ub_reservations := ub_reservations db;
  ub_bindings := ub_bindings db; ub_receipts := m |}.

(** The CHECK constraints of a receipt. *)
Definition receipt_checks (r : UserBudgetDualAccountingReceiptRecord) : bool :=
  let kind := dr_task_budget_kind r in
  let dim := dr_mirror_dimension r in
  let amount := dr_amount_atomic r in
  (0 <=? amount) && (amount <=? USER_BUDGET_INT64_MAX) &&
  (if bool_decide (dim = "NO_CHARGE") then
     (amount =? 0) && bool_decide (dr_window_epoch r = None) &&
     bool_decide (dr_ubq_reservation_id r = None) && bool_decide (dr_ubq_idempotency_key r = None) &&
     bool_decide (dr_ubq_payload_fingerprint r = None) && bool_decide (dr_capability_id r = None)
   else
     (0 <? amount) && bool_decide (is_Some (dr_window_epoch r)) &&
     bool_decide (is_Some (dr_ubq_reservation_id r)) && bool_decide (is_Some (dr_ubq_idempotency_key r)) &&
     bool_decide (is_Some (dr_ubq_payload_fingerprint r))) &&
  ((bool_decide (kind = "INFERENCE") && bool_decide (dim = "INFERENCE_CALL") &&
    (amount =? 1) && bool_decide (dr_capability_id r = None)) ||
   (bool_decide (kind = "USAGE") && bool_decide (dim ∈ ["TOTAL_TOKEN"; "COST_USD"; "NO_CHARGE"]) &&
    bool_decide (dr_capability_id r = None)) ||
   (bool_decide (kind = "TOOL_CALL") && bool_decide (dim = "TOOL_CALL") && (amount =? 1) &&
    bool_decide (is_Some (dr_capability_id r)))).

(** ** The repository *)

(** [_require_atomic_counter] *)
Definition require_atomic_counter (value : Z) : result UBError Z :=
  _ ← guard_err ((0 <=? value) && (value <=? USER_BUDGET_INT64_MAX))
        (UBValueError "user budget counter exceeds signed BIGINT domain");
  mret value.

(** The last instant of a datetime. *)
Definition datetime_max : Z := 253402300799999999.

Section Repository.
Context (digest : string -> string).

(** [hashlib.sha256(json.dumps(payload, sort_keys=True, ...).encode()).hexdigest()] *)
Definition canonical_sha256 (payload : json) : string := digest (json_dumps_utf8 payload).

Definition policy_fingerprint (p : UserBudgetPolicy) : string :=
  canonical_sha256 (canonical_semantics p).

Definition durable_values (p : UserBudgetPolicy) : UserBudgetPolicyRecord := {|
  pr_policy_id := up_policy_id p;
  pr_owner_user_id := up_owner_user_id p;
  pr_policy_version := up_policy_version p;
  pr_policy_fingerprint := policy_fingerprint p;
  pr_window_duration_seconds := up_window_duration_seconds p;
  pr_max_compute_atomic := up_max_compute_units p;
  pr_max_inference_calls := up_max_inference_calls p;
  pr_max_input_tokens := up_max_input_tokens p;
  pr_max_output_tokens := up_max_output_tokens p;
  pr_max_total_tokens := up_max_total_tokens p;
  pr_max_tool_calls_total := up_max_tool_calls_total p;
  pr_default_per_tool_limit := up_default_per_tool_limit p;
  pr_tool_limits_json := up_tool_limits p;
  pr_max_cost_usd_atomic := up_max_cost_usd p |}.

Definition payload_fingerprint (i : UserBudgetReservationIntent) : string :=
  canonical_sha256 (JObj [
    ("resource_kind", JStr (resource_value (ui_resource_kind i)));
    ("reserved_amount_atomic", JInt (ui_reserved_amount_atomic i));
    ("capability_id", opt_str_json (ui_capability_id i));
    ("attribution", canonical_attribution i)]).

Implicit Types (db : UserBudgetDB) (owner : string) (epoch : Z).

Definition get_task_binding db (task_id : string) : option UserBudgetTaskBindingRecord :=
  ub_bindings db !! task_id.

(** The insert cannot lose after the read: the winner's branch repeats the same test. *)
Definition create_task_binding db (row : UserBudgetTaskBindingRecord)
    : result UBError (UserBudgetDB * UserBudgetTaskBindingRecord) :=
  match get_task_binding db (bd_task_id row) with
  | Some existing =>
      if bool_decide (bd_owner_user_id existing = bd_owner_user_id row) &&
         bool_decide (bd_resolution_fingerprint existing = bd_resolution_fingerprint row) &&
         bool_decide (bd_enrollment_version existing = bd_enrollment_version row)
      then Ok (db, existing)
      else Err (UserBudgetConflict "Task is already bound to a different UBQ owner/provenance")
  | None => Ok (with_bindings db (<[bd_task_id row := row]> (ub_bindings db)), row)
  end.

Definition get_dual_accounting_receipt db (task_id kind key dimension : string)
    : option UserBudgetDualAccountingReceiptRecord :=
  ub_receipts db !! (task_id, kind, key, dimension).

Definition receipt_order (r : UserBudgetDualAccountingReceiptRecord) : string * string * string :=
  (dr_task_budget_kind r, dr_task_budget_reservation_key r, dr_mirror_dimension r).

Definition triple_ltb (a b : string * string * string) : bool :=
  let '(a1, a2, a3) := a in
  let '(b1, b2, b3) := b in
  String.ltb a1 b1 ||
  (String.eqb a1 b1 && (String.ltb a2 b2 || (String.eqb a2 b2 && String.ltb a3 b3))).

Definition list_dual_accounting_receipts db (task_id : string)
    : list UserBudgetDualAccountingReceiptRecord :=
  sort_by receipt_order triple_ltb
    (List.filter (fun r => bool_decide (dr_task_id r = task_id)) (map snd (map_to_list (ub_receipts db)))).

(** The columns of an existing receipt that must agree. *)
Definition same_receipt (a b : UserBudgetDualAccountingReceiptRecord) : bool :=
  bool_decide (dr_bridge_receipt_id a = dr_bridge_receipt_id b) &&
  bool_decide (dr_owner_user_id a = dr_owner_user_id b) &&
  bool_decide (dr_source_payload_fingerprint a = dr_source_payload_fingerprint b) &&
  bool_decide (dr_window_epoch a = dr_window_epoch b) &&
  bool_decide (dr_ubq_reservation_id a = dr_ubq_reservation_id b) &&
  bool_decide (dr_ubq_idempotency_key a = dr_ubq_idempotency_key b) &&
  bool_decide (dr_ubq_payload_fingerprint a = dr_ubq_payload_fingerprint b) &&
  (dr_amount_atomic a =? dr_amount_atomic b) &&
  bool_decide (dr_capability_id a = dr_capability_id b).

(** The primary key, the unique reservation, and the CHECKs. *)
Definition receipt_insertable db (row : UserBudgetDualAccountingReceiptRecord) : bool :=
  receipt_checks row &&
  forallb (fun kr => negb (bool_decide (dr_bridge_receipt_id kr.2 = dr_bridge_receipt_id row)) &&
                     negb (bool_decide (is_Some (dr_ubq_reservation_id row)) &&
                           bool_decide (dr_ubq_reservation_id kr.2 = dr_ubq_reservation_id row)))
    (map_to_list (ub_receipts db)).

Definition create_or_get_dual_accounting_receipt db (row : UserBudgetDualAccountingReceiptRecord)
    : result UBError (UserBudgetDB * UserBudgetDualAccountingReceiptRecord) :=
  match ub_receipts db !! receipt_key row with
  | Some existing =>
      if same_receipt existing row then Ok (db, existing)
      else Err (UserBudgetConflict "Dual-accounting bridge identity conflicts with durable receipt")
  | None =>
      if receipt_insertable db row
      then Ok (with_receipts db (<[receipt_key row := row]> (ub_receipts db)), row)
      else Err UBIntegrityError
  end.

Definition get_policy db owner (policy_id : string) : option UserBudgetPolicyRecord :=
  match ub_policies db !! policy_id with
  | Some p => if bool_decide (pr_owner_user_id p = owner) then Some p else None
  | None => None
  end.

(** [_get_policy_by_version] *)
Definition get_policy_by_version db owner (version : string) : option UserBudgetPolicyRecord :=
  find (fun p => bool_decide (pr_owner_user_id p = owner) && bool_decide (pr_policy_version p = version))
    (map snd (map_to_list (ub_policies db))).

(** A policy id that another owner holds breaks the primary key, and no winner is found. *)
Definition create_or_get_immutable_policy db (policy : UserBudgetPolicy)
    : result UBError (UserBudgetDB * UserBudgetPolicyRecord) :=
  let values := durable_values policy in
  let owner := up_owner_user_id policy in
  let existing :=
    match get_policy db owner (up_policy_id policy) with
    | Some p => Some p
    | None => get_policy_by_version db owner (up_policy_version policy)
    end in
  match existing with
  | Some p =>
      if bool_decide (pr_policy_id p = up_policy_id policy) &&
         bool_decide (pr_policy_version p = up_policy_version policy) &&
         bool_decide (pr_policy_fingerprint p = policy_fingerprint policy)
      then Ok (db, p)
      else Err (UserBudgetConflict "user budget policy owner/version identity conflicts with immutable policy")
  | None =>
      match ub_policies db !! up_policy_id policy with
      | Some _ => Err UBIntegrityError
      | None => Ok (with_policies db (<[up_policy_id policy := values]> (ub_policies db)), values)
      end
  end.

Definition get_account db owner : option UserBudgetAccountRecord := ub_accounts db !! owner.

Definition put_account db (a : UserBudgetAccountRecord) : UserBudgetDB :=
  with_accounts db (<[ar_owner_user_id a := a]> (ub_accounts db)).

Definition create_or_get_account db owner : UserBudgetDB * UserBudgetAccountRecord :=
  match get_account db owner with
  | Some a => (db, a)
  | None =>
      let row := {| ar_owner_user_id := owner; ar_revision := 0; ar_next_policy_id := None;
                    ar_active_window_epoch := None; ar_next_window_epoch := 1 |} in
      (put_account db row, row)
  end.

Definition select_next_policy db owner (expected_revision : Z) (next_policy_id : string)
    : result UBError (UserBudgetDB * UserBudgetAccountRecord) :=
  match get_policy db owner next_policy_id with
  | None => Err (UserBudgetIntegrity "next policy must exist and belong to the same budget owner")
  | Some _ =>
      match get_account db owner with
      | Some a =>
          if ar_revision a =? expected_revision then
            let row := {| ar_owner_user_id := ar_owner_user_id a; ar_revision := expected_revision + 1;
                          ar_next_policy_id := Some next_policy_id;
                          ar_active_window_epoch := ar_active_window_epoch a;
                          ar_next_window_epoch := ar_next_window_epoch a |} in
            Ok (put_account db row, row)
          else Err (UserBudgetConflict "user budget account policy CAS lost")
      | None => Err (UserBudgetConflict "user budget account policy CAS lost")
      end
  end.

(** [_active_windows], by epoch *)
Definition active_windows db owner : list UserBudgetWindowRecord :=
  sort_by wr_epoch Z.ltb
    (List.filter (fun w => bool_decide (wr_owner_user_id w = owner) && bool_decide (wr_state w = W_ACTIVE))
       (map snd (map_to_list (ub_windows db)))).

Definition get_window db owner epoch : option UserBudgetWindowRecord := ub_windows db !! (owner, epoch).

Definition get_active_window db owner : result UBError (option UserBudgetWindowRecord) :=
  let windows := active_windows db owner in
  if (1 <? length windows)%nat then
    Err (UserBudgetIntegrity "multiple ACTIVE user budget windows exist for one owner")
  else
    match get_account db owner, head windows with
    | None, Some _ => Err (UserBudgetIntegrity "ACTIVE user budget window exists without owner account")
    | None, None => Ok None
    | Some account, active =>
        match ar_active_window_epoch account, active with
        | None, Some _ => Err (UserBudgetIntegrity "account pointer is NULL while an ACTIVE window exists")
        | None, None => Ok None
        | Some e, Some w =>
            _ ← guard_err (wr_epoch w =? e)
                  (UserBudgetIntegrity "account active_window_epoch does not match the ACTIVE window");
            _ ← guard_err (negb (ar_next_window_epoch account <=? wr_epoch w))
                  (UserBudgetIntegrity "account next_window_epoch is not strictly monotonic");
            mret (Some w)
        | Some _, None =>
            Err (UserBudgetIntegrity "account active_window_epoch does not match the ACTIVE window")
        end
    end.

Definition put_window db (w : UserBudgetWindowRecord) : UserBudgetDB :=
  with_windows db (<[(wr_owner_user_id w, wr_epoch w) := w]> (ub_windows db)).

(** The UPDATE that closes the active window. *)
Definition close_window db (active : UserBudgetWindowRecord) (now : Z) : UserBudgetDB :=
  put_window db {|
    wr_owner_user_id := wr_owner_user_id active; wr_epoch := wr_epoch active; wr_state := W_CLOSED;
    wr_governing_policy_id := wr_governing_policy_id active;
    wr_governing_policy_version := wr_governing_policy_version active;
    wr_governing_policy_fingerprint := wr_governing_policy_fingerprint active;
    wr_started_at := wr_started_at active; wr_expires_at := wr_expires_at active;
    wr_usage := wr_usage active; wr_revision := wr_revision active + 1; wr_closed_at := Some now |}.

Definition new_window owner epoch (policy : UserBudgetPolicyRecord) (now : Z) : UserBudgetWindowRecord := {|
  wr_owner_user_id := owner; wr_epoch := epoch; wr_state := W_ACTIVE;
  wr_governing_policy_id := pr_policy_id policy;
  wr_governing_policy_version := pr_policy_version policy;
  wr_governing_policy_fingerprint := pr_policy_fingerprint policy;
  wr_started_at := now; wr_expires_at := now + pr_window_duration_seconds policy * 1000000;
  wr_usage := no_usage; wr_revision := 0; wr_closed_at := None |}.

(** The part of [rollover_window] that opens the next window. *)
Definition open_next_window db owner (account : UserBudgetAccountRecord)
    (active : option UserBudgetWindowRecord) (expected_account_revision now : Z)
    : result UBError (UserBudgetDB * UserBudgetWindowRecord) :=
  _ ← guard_err (ar_revision account =? expected_account_revision)
        (UserBudgetConflict "user budget account rollover CAS is stale");
  match ar_next_policy_id account with
  | None => Err (UserBudgetIntegrity "user budget account has no selected policy for the next window")
  | Some next_policy_id =>
      match get_policy db owner next_policy_id with
      | None => Err (UserBudgetIntegrity "selected user budget policy is missing or belongs to another owner")
      | Some policy =>
          let epoch := ar_next_window_epoch account in
          _ ← guard_err (negb ((epoch <=? 0) || (USER_BUDGET_INT64_MAX <? epoch)))
                (UserBudgetIntegrity "next user budget window epoch is invalid");
          _ ← guard_err (match active with Some w => negb (epoch <=? wr_epoch w) | None => true end)
                (UserBudgetIntegrity "user budget window epoch would be reused");
          let db1 := match active with Some w => close_window db w now | None => db end in
          let window := new_window owner epoch policy now in
          _ ← guard_err (wr_expires_at window <=? datetime_max) UBOverflowError;
          _ ← guard_err (bool_decide (ub_windows db1 !! (owner, epoch) = None) &&
                         (wr_started_at window <? wr_expires_at window)) UBIntegrityError;
          let db2 := put_window db1 window in
          _ ← guard_err (negb (USER_BUDGET_INT64_MAX <=? epoch))
                (UserBudgetIntegrity "user budget next window epoch would overflow signed BIGINT");
          let db3 := put_account db2 {|
            ar_owner_user_id := ar_owner_user_id account; ar_revision := expected_account_revision + 1;
            ar_next_policy_id := ar_next_policy_id account; ar_active_window_epoch := Some epoch;
            ar_next_window_epoch := epoch + 1 |} in
          refreshed ← get_active_window db3 owner;
          match refreshed with
          | Some w =>
              _ ← guard_err (wr_epoch w =? epoch)
                    (UserBudgetIntegrity "user budget rollover did not establish the canonical active pointer");
              mret (db3, w)
          | None => Err (UserBudgetIntegrity "user budget rollover did not establish the canonical active pointer")
          end
      end
  end.

Definition rollover_window db owner (expected_account_revision now : Z)
    : result UBError (UserBudgetDB * UserBudgetWindowRecord) :=
  match get_account db owner with
  | None => Err (UserBudgetIntegrity "user budget account must exist before rollover")
  | Some account =>
      active ← get_active_window db owner;
      match active with
      | Some w =>
          if now <? wr_expires_at w then Ok (db, w)
          else open_next_window db owner account active expected_account_revision now
      | None => open_next_window db owner account active expected_account_revision now
      end
  end.

Definition monotonic_used_fields : list UsageField :=
  [F_compute_used_atomic; F_inference_used; F_input_tokens_used; F_output_tokens_used;
   F_total_tokens_used; F_tool_calls_used; F_cost_used_atomic].

Definition mutate_window_usage db owner epoch (expected_revision : Z) (targets : list (UsageField * Z))
    : result UBError (UserBudgetDB * UserBudgetWindowRecord) :=
  match get_window db owner epoch with
  | None => Err (UBKeyError "unknown user budget window")
  | Some current =>
      _ ← guard_err (wr_revision current =? expected_revision)
            (UserBudgetConflict "user budget window usage CAS is stale");
      _ ← guard_err (forallb (fun t : UsageField * Z => is_ok (require_atomic_counter t.2)) targets)
            (UBValueError "user budget counter exceeds signed BIGINT domain");
      _ ← guard_err (negb (bool_decide (targets = [])))
            (UBValueError "window usage mutation requires at least one target value");
      _ ← guard_err (forallb (fun f => match target_of f targets with
                                       | Some z => negb (z <? usage_get f (wr_usage current))
                                       | None => true
                                       end) monotonic_used_fields)
            (UserBudgetIntegrity "committed user budget usage cannot decrease");
      let row := {|
        wr_owner_user_id := wr_owner_user_id current; wr_epoch := wr_epoch current;
        wr_state := wr_state current; wr_governing_policy_id := wr_governing_policy_id current;
        wr_governing_policy_version := wr_governing_policy_version current;
        wr_governing_policy_fingerprint := wr_governing_policy_fingerprint current;
        wr_started_at := wr_started_at current; wr_expires_at := wr_expires_at current;
        wr_usage := usage_set targets (wr_usage current);
        wr_revision := expected_revision + 1; wr_closed_at := wr_closed_at current |} in
      Ok (put_window db row, row)
  end.

Definition get_tool_usage db owner epoch (capability_id : string) : option UserToolBudgetUsageRecord :=
  ub_tool_usage db !! (owner, epoch, capability_id).

Definition put_tool_usage db owner epoch (capability_id : string) (u : UserToolBudgetUsageRecord) : UserBudgetDB :=
  with_tool_usage db (<[(owner, epoch, capability_id) := u]> (ub_tool_usage db)).

Definition create_or_get_tool_usage db owner epoch (capability_id : string)
    : result UBError (UserBudgetDB * UserToolBudgetUsageRecord) :=
  _ ← guard_err (truthy capability_id) (UBValueError "canonical capability_id is required");
  match get_tool_usage db owner epoch capability_id with
  | Some u => Ok (db, u)
  | None =>
      let row := {| tu_used_calls := 0; tu_reserved_calls := 0; tu_revision := 0 |} in
      Ok (put_tool_usage db owner epoch capability_id row, row)
  end.

Definition mutate_tool_usage db owner epoch (capability_id : string)
    (expected_revision used_calls reserved_calls : Z)
    : result UBError (UserBudgetDB * UserToolBudgetUsageRecord) :=
  match get_tool_usage db owner epoch capability_id with
  | None => Err (UBKeyError "unknown per-capability user budget usage")
  | Some current =>
      _ ← guard_err (tu_revision current =? expected_revision)
            (UserBudgetConflict "per-capability user budget CAS is stale");
      used ← require_atomic_counter used_calls;
      reserved ← require_atomic_counter reserved_calls;
      _ ← guard_err (negb (used <? tu_used_calls current))
            (UserBudgetIntegrity "committed per-capability tool usage cannot decrease");
      let row := {| tu_used_calls := used; tu_reserved_calls := reserved;
                    tu_revision := expected_revision + 1 |} in
      Ok (put_tool_usage db owner epoch capability_id row, row)
  end.

(** The reservations, in some order. *)
Definition reservation_rows db : list UserBudgetReservationRecord :=
  map snd (map_to_list (ub_reservations db)).

Definition sum_pending_reservation_amount db owner epoch (kind : UserBudgetResourceKind)
    : result UBError Z :=
  require_atomic_counter
    (foldr (fun r acc =>
       (if bool_decide (rv_owner_user_id r = owner) && (rv_window_epoch r =? epoch) &&
           bool_decide (rv_resource_kind r = kind) && bool_decide (rv_state r = S_RESERVED)
        then rv_reserved_amount_atomic r else 0) + acc) 0 (reservation_rows db)).

Definition get_reservation db owner (key : string) : option UserBudgetReservationRecord :=
  ub_reservations db !! (owner, key).

Definition put_reservation db (r : UserBudgetReservationRecord) : UserBudgetDB :=
  with_reservations db (<[(rv_owner_user_id r, rv_idempotency_key r) := r]> (ub_reservations db)).

Definition new_reservation (i : UserBudgetReservationIntent) : UserBudgetReservationRecord := {|
  rv_reservation_id := ui_reservation_id i; rv_owner_user_id := ui_owner_user_id i;
  rv_window_epoch := ui_window_epoch i; rv_idempotency_key := ui_idempotency_key i;
  rv_resource_kind := ui_resource_kind i; rv_capability_id := ui_capability_id i;
  rv_reserved_amount_atomic := ui_reserved_amount_atomic i; rv_settled_amount_atomic := None;
  rv_state := S_RESERVED; rv_attribution_json := canonical_attribution i;
  rv_payload_fingerprint := payload_fingerprint i; rv_revision := 0; rv_settled_at := None |}.

(** Constructing the intent validates it; a reservation id that is taken breaks the primary
    key. *)
Definition create_or_get_reservation db (i : UserBudgetReservationIntent)
    : result UBError (UserBudgetDB * UserBudgetReservationRecord) :=
  match get_reservation db (ui_owner_user_id i) (ui_idempotency_key i) with
  | Some existing =>
      if bool_decide (rv_payload_fingerprint existing = payload_fingerprint i) then Ok (db, existing)
      else Err (UserBudgetConflict "user budget idempotency key conflicts with canonical payload")
  | None =>
      if existsb (fun r => bool_decide (rv_reservation_id r = ui_reservation_id i)) (reservation_rows db)
      then Err UBIntegrityError
      else Ok (put_reservation db (new_reservation i), new_reservation i)
  end.

Definition transition_reservation db owner (key : string) (expected_revision : Z)
    (target : UserBudgetReservationState) (settled_amount settled_at : option Z)
    : result UBError (UserBudgetDB * UserBudgetReservationRecord) :=
  _ ← guard_err (negb (bool_decide (target = S_RESERVED)))
        (UBValueError "reservation transition cannot reopen RESERVED state");
  match get_reservation db owner key with
  | None => Err (UBKeyError "unknown user budget reservation")
  | Some current =>
      if negb (bool_decide (rv_state current = S_RESERVED)) then
        let refused := UserBudgetConflict "terminal or OUTCOME_UNKNOWN reservation state cannot be reopened" in
        if bool_decide (rv_state current = target) then
          _ ← match settled_amount with Some z => require_atomic_counter z | None => mret 0 end;
          _ ← guard_err (bool_decide (rv_settled_amount_atomic current = settled_amount)) refused;
          mret (db, current)
        else Err refused
      else
        _ ← guard_err (rv_revision current =? expected_revision)
              (UserBudgetConflict "user budget reservation CAS is stale");
        _ ← match target, settled_amount, settled_at with
            | S_SETTLED, Some z, Some _ => require_atomic_counter z
            | S_SETTLED, _, _ => Err (UBValueError "SETTLED reservation requires amount and timestamp")
            | _, None, None => mret 0
            | _, _, _ => Err (UBValueError "non-SETTLED reservation transition cannot set settlement fields")
            end;
        let row := {|
          rv_reservation_id := rv_reservation_id current; rv_owner_user_id := rv_owner_user_id current;
          rv_window_epoch := rv_window_epoch current; rv_idempotency_key := rv_idempotency_key current;
          rv_resource_kind := rv_resource_kind current; rv_capability_id := rv_capability_id current;
          rv_reserved_amount_atomic := rv_reserved_amount_atomic current;
          rv_settled_amount_atomic := settled_amount; rv_state := target;
          rv_attribution_json := rv_attribution_json current;
          rv_payload_fingerprint := rv_payload_fingerprint current;
          rv_revision := expected_revision + 1; rv_settled_at := settled_at |} in
        Ok (put_reservation db row, row)
  end.
End Repository.
