(* ===== verification/UserBudgetAuthority.v ===== *)
(** * The owner authority and dual accounting of user budgets
    (src/se/src/application/user_budget.py)

    The authority resolves who owns the budget of a request, enrols a task under its owner,
    provisions the unbounded shadow policy of an owner, and mirrors the charges of an
    enrolled task's budget into the owner's window, with a receipt for each.  Every method
    works inside the caller's transaction.  [QuotaDB] is the database with the tables these
    services read.  A [datetime] is an instant; a missing [now] is the clock, so it is always
    given. *)

From S2P Require Import Prelude Canonical TaskBudgetSchema AgentStore UserBudget.

Definition UBQ2_ENROLLMENT_VERSION : string := "ubq2-v1".
Definition UBQ2_IDEMPOTENCY_VERSION : string := "ubq2-v1".

Record DualAccountingSettings := {
  da_enabled : bool;
  da_policy_version : string;
  da_window_duration_seconds : Z
}.

Record Identity := {
  id_auth_type : string;
  id_user_id : option string;
  id_api_key_id : option string;
  id_application_id : option string;
  id_organization_id : option string
}.

Record BudgetOwnerResolution := {
  bo_owner_user_id : string;
  bo_source_auth_type : string;
  bo_source_api_key_id : option string;
  bo_source_application_id : option string;
  bo_source_organization_id : option string;
  bo_resolution_fingerprint : string
}.

Record TaskBindingSnapshot := {
  ts_task_id : string;
  ts_owner_user_id : string;
  ts_enrollment_version : string;
  ts_resolution_fingerprint : string
}.

(** [md_resource_kind] is the text of a resource kind, or NO_CHARGE. *)
Record MirrorDimension := {
  md_resource_kind : string;
  md_amount_atomic : Z;
  md_capability_id : option string
}.

Inductive ReconciliationStatus :=
  | LEGACY_UNBOUND | SOURCE_ABSENT_UNPROVEN | SOURCE_RESERVATION_MISSING
  | REC_OK | PAYLOAD_MISMATCH | MISSING_UBQ.

Record DualAccountingReconciliationItem := {
  ri_status : ReconciliationStatus;
  ri_task_id : string;
  ri_bridge_receipt_id : option string;
  ri_mirror_dimension : option string
}.

(** ** The database *)

Record ApiKeyRow := { ak_status : string; ak_application_id : string }.

Record ToolCallRecord := {
  tl_invocation_id : string;
  tl_tool_call_id : string;
  tl_capability_id : string;
  tl_arguments : json
}.

Record IterationRecord := { it_execution_id : string; it_inference_request_id : string }.

Record QuotaDB := {
  qd_budgets : UserBudgetDB;
  qd_agents : AgentDB;
  qd_tool_calls : gmap (string * string) ToolCallRecord;   (* execution, tool call *)
  qd_iterations : gmap string IterationRecord;
  qd_users : gset string;
  qd_api_keys : gmap string ApiKeyRow;
  qd_applications : gmap string string;                    (* their organization *)
  qd_organizations : gmap string string                    (* their owner *)
}.

Definition set_budgets (db : QuotaDB) (b : UserBudgetDB) : QuotaDB := {|
  qd_budgets := b; qd_agents := qd_agents db; qd_tool_calls := qd_tool_calls db;
  qd_iterations := qd_iterations db; qd_users := qd_users db; qd_api_keys := qd_api_keys db;
  qd_applications := qd_applications db; qd_organizations := qd_organizations db |}.

Definition set_agents (db : QuotaDB) (a : AgentDB) : QuotaDB := {|
  qd_budgets := qd_budgets db; qd_agents := a; qd_tool_calls := qd_tool_calls db;
  qd_iterations := qd_iterations db; qd_users := qd_users db; qd_api_keys := qd_api_keys db;
  qd_applications := qd_applications db; qd_organizations := qd_organizations db |}.

Section Authority.
Context (digest : string -> string).

(** ** Owners *)

Definition make_resolution (owner : string) (identity : Identity)
    (api_key application organization : option string) : BudgetOwnerResolution := {|
  bo_owner_user_id := owner;
  bo_source_auth_type := id_auth_type identity;
  bo_source_api_key_id := api_key;
  bo_source_application_id := application;
  bo_source_organization_id := organization;
  bo_resolution_fingerprint := canonical_sha256 digest (JObj [
    ("version", JStr UBQ2_ENROLLMENT_VERSION);
    ("owner_user_id", JStr owner);
    ("source_auth_type", JStr (id_auth_type identity));
    ("source_api_key_id", opt_str_json api_key);
    ("source_application_id", opt_str_json application);
    ("source_organization_id", opt_str_json organization)]) |}.

Definition truthy_opt (o : option string) : option string :=
  match o with Some s => if truthy s then Some s else None | None => None end.

(** The owner through an API key: key, application, organization, its owner. *)
Definition resolve_api_key_owner (db : QuotaDB) (identity : Identity) (key_id : string)
    : result UBError BudgetOwnerResolution :=
  match qd_api_keys db !! key_id with
  | None => Err (UserBudgetOwnerUnresolved "API key identity is missing or inactive")
  | Some key =>
      _ ← guard_err (bool_decide (ak_status key = "active"))
            (UserBudgetOwnerUnresolved "API key identity is missing or inactive");
      match qd_applications db !! ak_application_id key with
      | None => Err (UserBudgetOwnerUnresolved "API key application is missing")
      | Some organization_id =>
          match qd_organizations db !! organization_id with
          | None => Err (UserBudgetOwnerUnresolved "API key organization is missing")
          | Some owner =>
              _ ← guard_err (bool_decide (default "" (id_application_id identity) = ak_application_id key) &&
                             bool_decide (default "" (id_organization_id identity) = organization_id))
                    (UserBudgetOwnerUnresolved "authenticated API key lineage disagrees with durable lineage");
              _ ← guard_err (bool_decide (owner ∈ qd_users db))
                    (UserBudgetOwnerUnresolved "organization owner has no durable User");
              mret (make_resolution owner identity (Some key_id) (Some (ak_application_id key))
                      (Some organization_id))
          end
      end
  end.

Definition resolve_budget_owner (db : QuotaDB) (identity : Identity)
    : result UBError BudgetOwnerResolution :=
  _ ← guard_err (negb (bool_decide (id_auth_type identity ∈ ["admin_key"; "guest"])))
        (UserBudgetOwnerUnresolved "principal type cannot own renewable user budget");
  match truthy_opt (id_user_id identity) with
  | Some user_id =>
      _ ← guard_err (bool_decide (user_id ∈ qd_users db))
            (UserBudgetOwnerUnresolved "identity user_id has no durable User");
      mret (make_resolution user_id identity (id_api_key_id identity) (id_application_id identity)
              (id_organization_id identity))
  | None =>
      match truthy_opt (id_api_key_id identity) with
      | Some key_id =>
          _ ← guard_err (bool_decide (id_auth_type identity = "api_key"))
                (UserBudgetOwnerUnresolved "principal has no canonical renewable budget owner");
          resolve_api_key_owner db identity key_id
      | None => Err (UserBudgetOwnerUnresolved "principal has no canonical renewable budget owner")
      end
  end.

(** ** The shadow policy *)

Definition shadow_identity (owner version : string) (duration : Z) : json := JObj [
  ("authority", JStr "UBQ2_SHADOW_ACCOUNTING");
  ("owner_user_id", JStr owner);
  ("policy_version", JStr version);
  ("window_duration_seconds", JInt duration);
  ("unbounded", JBool true)].

Definition shadow_policy_id (owner version : string) (duration : Z) : string :=
  String.append "ubq2-shadow-" (String.substring 0 48 (canonical_sha256 digest (shadow_identity owner version duration))).

(** The policy without limits. *)
Definition unbounded_policy (policy_id owner version : string) (duration : Z) : UserBudgetPolicy := {|
  up_policy_id := policy_id; up_owner_user_id := owner; up_policy_version := version;
  up_window_duration_seconds := duration; up_max_compute_units := None; up_max_inference_calls := None;
  up_max_input_tokens := None; up_max_output_tokens := None; up_max_total_tokens := None;
  up_max_tool_calls_total := None; up_default_per_tool_limit := None; up_tool_limits := ∅;
  up_max_cost_usd := None |}.

(** Constructing the policy validates it. *)
Definition shadow_policy (settings : DualAccountingSettings) (owner : string)
    : result UBError UserBudgetPolicy :=
  let version := da_policy_version settings in
  let duration := da_window_duration_seconds settings in
  let p := unbounded_policy (shadow_policy_id owner version duration) owner version duration in
  _ ← guard_err (policy_valid p) (UBValueError "UserBudgetPolicy");
  mret p.

Definition is_recognized_shadow_policy (row : UserBudgetPolicyRecord) : bool :=
  let owner := pr_owner_user_id row in
  let version := pr_policy_version row in
  let duration := pr_window_duration_seconds row in
  String.prefix "ubq2-shadow-" version &&
  forallb (fun o => bool_decide (o = None))
    [pr_max_compute_atomic row; pr_max_inference_calls row; pr_max_input_tokens row;
     pr_max_output_tokens row; pr_max_total_tokens row; pr_max_tool_calls_total row;
     pr_default_per_tool_limit row; pr_max_cost_usd_atomic row] &&
  bool_decide (pr_tool_limits_json row = ∅) &&
  bool_decide (pr_policy_id row = shadow_policy_id owner version duration) &&
  bool_decide (pr_policy_fingerprint row =
               policy_fingerprint digest (unbounded_policy (pr_policy_id row) owner version duration)).

Definition ensure_shadow_account (settings : DualAccountingSettings) (db : UserBudgetDB) (owner : string)
    : result UBError (UserBudgetDB * UserBudgetAccountRecord) :=
  expected ← shadow_policy settings owner;
  created ← create_or_get_immutable_policy digest db expected;
  let '(db1, policy) := created in
  let '(db2, account) := create_or_get_account db1 owner in
  selected ← match ar_next_policy_id account with
             | None => select_next_policy db2 owner (ar_revision account) (pr_policy_id policy)
             | Some id =>
                 _ ← guard_err (match get_policy db2 owner id with
                                | Some p => is_recognized_shadow_policy p
                                | None => false
                                end)
                       (UserBudgetPolicyAuthorityConflict
                          "mirror-only accounting cannot overwrite finite/external policy authority");
                 mret (db2, account)
             end;
  let '(db3, account') := selected in
  active ← get_active_window db3 owner;
  _ ← guard_err (match active with
                 | None => true
                 | Some w =>
                     match get_policy db3 owner (wr_governing_policy_id w) with
                     | Some p => is_recognized_shadow_policy p &&
                                 bool_decide (wr_governing_policy_fingerprint w = pr_policy_fingerprint p)
                     | None => false
                     end
                 end)
        (UserBudgetPolicyAuthorityConflict
           "ACTIVE mirror-only window is not governed by a recognized shadow policy");
  mret (db3, account').

(** ** Enrollment *)

Definition prepare_enrollment (settings : DualAccountingSettings) (db : QuotaDB)
    (parent_task_id : option string) (identity : Identity)
    : result UBError (QuotaDB * BudgetOwnerResolution) :=
  resolution ← resolve_budget_owner db identity;
  ensured ← ensure_shadow_account settings (qd_budgets db) (bo_owner_user_id resolution);
  let b := fst ensured in
  _ ← match parent_task_id with
      | None => mret tt
      | Some parent =>
          match get_task_binding b parent with
          | None => Err UserBudgetParentUnbound
          | Some p => guard_err (bool_decide (bd_owner_user_id p = bo_owner_user_id resolution))
                        UserBudgetParentOwnerMismatch
          end
      end;
  mret (set_budgets db b, resolution).

Definition binding_snapshot (row : UserBudgetTaskBindingRecord) : TaskBindingSnapshot := {|
  ts_task_id := bd_task_id row; ts_owner_user_id := bd_owner_user_id row;
  ts_enrollment_version := bd_enrollment_version row;
  ts_resolution_fingerprint := bd_resolution_fingerprint row |}.

Definition bind_prepared_task (db : UserBudgetDB) (task_id : string) (r : BudgetOwnerResolution)
    : result UBError (UserBudgetDB * TaskBindingSnapshot) :=
  created ← create_task_binding db {|
    bd_task_id := task_id; bd_owner_user_id := bo_owner_user_id r;
    bd_enrollment_version := UBQ2_ENROLLMENT_VERSION; bd_source_auth_type := bo_source_auth_type r;
    bd_source_api_key_id := bo_source_api_key_id r;
    bd_source_application_id := bo_source_application_id r;
    bd_source_organization_id := bo_source_organization_id r;
    bd_resolution_fingerprint := bo_resolution_fingerprint r |};
  mret (fst created, binding_snapshot (snd created)).

Definition preflight_binding (db : UserBudgetDB) (task_id : string) : option TaskBindingSnapshot :=
  binding_snapshot <$> get_task_binding db task_id.

Definition require_same_binding (expected : TaskBindingSnapshot) (row : UserBudgetTaskBindingRecord)
    : result UBError unit :=
  guard_err (bool_decide (bd_task_id row = ts_task_id expected) &&
             bool_decide (bd_owner_user_id row = ts_owner_user_id expected) &&
             bool_decide (bd_enrollment_version row = ts_enrollment_version expected) &&
             bool_decide (bd_resolution_fingerprint row = ts_resolution_fingerprint expected))
    UserBudgetBindingDrift.

(** ** Mirroring *)

Definition mirror_identity (owner task_id kind key resource : string) : json := JObj [
  ("version", JStr UBQ2_IDEMPOTENCY_VERSION);
  ("owner_user_id", JStr owner);
  ("task_id", JStr task_id);
  ("task_budget_kind", JStr kind);
  ("task_budget_reservation_key", JStr key);
  ("resource_kind", JStr resource)].

Definition mirror_digest (owner task_id kind key resource : string) : string :=
  canonical_sha256 digest (mirror_identity owner task_id kind key resource).

Definition ensure_active_shadow_window (settings : DualAccountingSettings) (db : UserBudgetDB)
    (owner : string) (now : Z) : result UBError (UserBudgetDB * UserBudgetWindowRecord) :=
  ensured ← ensure_shadow_account settings db owner;
  let '(db1, account) := ensured in
  active ← get_active_window db1 owner;
  match active with
  | Some w =>
      if now <? wr_expires_at w then mret (db1, w)
      else rollover_window db1 owner (ar_revision account) now
  | None => rollover_window db1 owner (ar_revision account) now
  end.

Definition same_capability (a b : option string) : bool := bool_decide (truthy_opt a = truthy_opt b).

(** A receipt that answers a dimension of a replay. *)
Definition receipt_matches (existing : UserBudgetDualAccountingReceiptRecord)
    (binding : TaskBindingSnapshot) (fingerprint : string) (d : MirrorDimension) : bool :=
  bool_decide (dr_owner_user_id existing = ts_owner_user_id binding) &&
  bool_decide (dr_source_payload_fingerprint existing = fingerprint) &&
  (dr_amount_atomic existing =? md_amount_atomic d) &&
  same_capability (dr_capability_id existing) (md_capability_id d).

Definition replay_conflict : UBError :=
  UserBudgetConflict "dual-accounting replay conflicts with immutable bridge receipt".

Fixpoint require_mirror_replay (db : UserBudgetDB) (binding : TaskBindingSnapshot)
    (kind key fingerprint : string) (dimensions : list MirrorDimension)
    : result UBError (list UserBudgetDualAccountingReceiptRecord) :=
  match dimensions with
  | [] => Ok []
  | d :: l =>
      match get_dual_accounting_receipt db (ts_task_id binding) kind key (md_resource_kind d) with
      | None => Err (UserBudgetIntegrity "committed TaskBudget resource reservation is missing its UBQ bridge")
      | Some existing =>
          _ ← guard_err (receipt_matches existing binding fingerprint d) replay_conflict;
          rows ← require_mirror_replay db binding kind key fingerprint l;
          mret (existing :: rows)
      end
  end.

Definition inference_dimensions : list MirrorDimension :=
  [{| md_resource_kind := "INFERENCE_CALL"; md_amount_atomic := 1; md_capability_id := None |}].

Definition tool_call_dimensions (capability_id : string) : result UBError (list MirrorDimension) :=
  _ ← guard_err (truthy capability_id) (UBValueError "canonical capability_id is required");
  mret [{| md_resource_kind := "TOOL_CALL"; md_amount_atomic := 1;
           md_capability_id := Some capability_id |}].

Definition usage_dimensions (tokens : Z) (cost_usd : Decimal) : result UBError (list MirrorDimension) :=
  cost_atomic ← decimal_to_atomic cost_usd false;
  let dimensions :=
    (if 0 <? tokens then [{| md_resource_kind := "TOTAL_TOKEN"; md_amount_atomic := tokens;
                             md_capability_id := None |}] else []) ++
    (if 0 <? cost_atomic then [{| md_resource_kind := "COST_USD"; md_amount_atomic := cost_atomic;
                                  md_capability_id := None |}] else []) in
  mret (match dimensions with
        | [] => [{| md_resource_kind := "NO_CHARGE"; md_amount_atomic := 0; md_capability_id := None |}]
        | _ => dimensions
        end).

(** The first loop of [mirror_resource_in_uow]: the receipts that exist, and the dimensions
    that have none. *)
Fixpoint existing_receipts (db : UserBudgetDB) (binding : TaskBindingSnapshot)
    (kind key fingerprint : string) (dimensions : list MirrorDimension)
    : result UBError (list UserBudgetDualAccountingReceiptRecord * list MirrorDimension) :=
  match dimensions with
  | [] => Ok ([], [])
  | d :: l =>
      match get_dual_accounting_receipt db (ts_task_id binding) kind key (md_resource_kind d) with
      | None =>
          rest ← existing_receipts db binding kind key fingerprint l;
          mret (fst rest, d :: snd rest)
      | Some existing =>
          _ ← guard_err (receipt_matches existing binding fingerprint d) replay_conflict;
          rest ← existing_receipts db binding kind key fingerprint l;
          mret (existing :: fst rest, snd rest)
      end
  end.

(** The column a mirrored resource is charged to. *)
Definition mirrored_field (kind : UserBudgetResourceKind) : option UsageField :=
  match kind with
  | K_INFERENCE_CALL => Some F_inference_used
  | K_TOTAL_TOKEN => Some F_total_tokens_used
  | K_COST_USD => Some F_cost_used_atomic
  | K_TOOL_CALL => Some F_tool_calls_used
  | _ => None
  end.

Definition mirror_attribution (task_id kind key resource : string) (capability : option string) : json :=
  JObj ([("version", JStr UBQ2_IDEMPOTENCY_VERSION); ("task_id", JStr task_id);
         ("task_budget_kind", JStr kind); ("task_budget_reservation_key", JStr key);
         ("resource_kind", JStr resource)] ++
        match capability with Some c => [("capability_id", JStr c)] | None => [] end).

(** The intent of one mirrored dimension. *)
Definition mirror_intent (binding : TaskBindingSnapshot) (kind key : string)
    (resource : UserBudgetResourceKind) (d : MirrorDimension) (epoch : Z) : UserBudgetReservationIntent :=
  let digested := mirror_digest (ts_owner_user_id binding) (ts_task_id binding) kind key
                    (resource_value resource) in
  {| ui_reservation_id := String.append "ubq2r:" digested;
     ui_owner_user_id := ts_owner_user_id binding; ui_window_epoch := epoch;
     ui_idempotency_key := String.append "ubq2:v1:" digested;
     ui_resource_kind := resource; ui_capability_id := md_capability_id d;
     ui_reserved_amount_atomic := md_amount_atomic d;
     ui_attribution := mirror_attribution (ts_task_id binding) kind key (resource_value resource)
                         (md_capability_id d) |}.

(** The usage of the capability of a mirrored tool call. *)
Definition mirror_tool_usage (db : UserBudgetDB) (owner : string) (epoch : Z)
    (resource : UserBudgetResourceKind) (capability : option string) (amount : Z)
    : result UBError UserBudgetDB :=
  if bool_decide (resource = K_TOOL_CALL) then
    usage ← create_or_get_tool_usage db owner epoch (default "None" capability);
    let '(db1, u) := usage in
    mutated ← mutate_tool_usage db1 owner epoch (default "None" capability) (tu_revision u)
                (tu_used_calls u + amount) (tu_reserved_calls u);
    mret (fst mutated)
  else mret db.

(** One dimension of the second loop: the reservation, the charge, the settlement and the
    receipt. *)
Definition mirror_dimension (db : UserBudgetDB) (binding : TaskBindingSnapshot)
    (kind key fingerprint : string) (window : UserBudgetWindowRecord) (now : Z) (d : MirrorDimension)
    : result UBError (UserBudgetDB * UserBudgetWindowRecord * UserBudgetDualAccountingReceiptRecord) :=
  match resource_of_value (md_resource_kind d) with
  | None => Err (UBValueError "UserBudgetResourceKind")
  | Some resource =>
      let owner := ts_owner_user_id binding in
      let amount := md_amount_atomic d in
      _ ← guard_err (0 <? amount) (UBValueError "charged UBQ mirror amount must be positive");
      _ ← guard_err (negb (bool_decide (resource = K_TOOL_CALL) &&
                           bool_decide (truthy_opt (md_capability_id d) = None)))
            (UBValueError "TOOL_CALL mirror requires capability_id");
      _ ← guard_err (negb (negb (bool_decide (resource = K_TOOL_CALL)) &&
                           bool_decide (is_Some (truthy_opt (md_capability_id d)))))
            (UBValueError "non-tool mirror cannot carry capability_id");
      let intent := mirror_intent binding kind key resource d (wr_epoch window) in
      _ ← guard_err (intent_valid intent) (UBValueError "UserBudgetReservationIntent");
      reserved ← create_or_get_reservation digest db intent;
      let '(db1, reservation) := reserved in
      match mirrored_field resource with
      | None => Err (UBValueError "UBQ-2 does not mirror resource kind")
      | Some field =>
          charged ← mutate_window_usage db1 owner (wr_epoch window) (wr_revision window)
                      [(field, usage_get field (wr_usage window) + amount)];
          let '(db2, window') := charged in
          db3 ← mirror_tool_usage db2 owner (wr_epoch window') resource (md_capability_id d) amount;
          settled ← transition_reservation db3 owner (ui_idempotency_key intent)
                      (rv_revision reservation) S_SETTLED (Some amount) (Some now);
          let '(db4, s) := settled in
          bridge ← create_or_get_dual_accounting_receipt db4 {|
            dr_bridge_receipt_id := String.append "ubq2b:"
              (mirror_digest owner (ts_task_id binding) kind key (resource_value resource));
            dr_owner_user_id := owner; dr_task_id := ts_task_id binding;
            dr_task_budget_kind := kind; dr_task_budget_reservation_key := key;
            dr_mirror_dimension := resource_value resource;
            dr_source_payload_fingerprint := fingerprint;
            dr_window_epoch := Some (wr_epoch window');
            dr_ubq_reservation_id := Some (rv_reservation_id s);
            dr_ubq_idempotency_key := Some (rv_idempotency_key s);
            dr_ubq_payload_fingerprint := Some (rv_payload_fingerprint s);
            dr_amount_atomic := amount; dr_capability_id := md_capability_id d |};
          mret (fst bridge, window', snd bridge)
      end
  end.

Fixpoint mirror_dimensions (db : UserBudgetDB) (binding : TaskBindingSnapshot)
    (kind key fingerprint : string) (window : UserBudgetWindowRecord) (now : Z) (dimensions : list MirrorDimension)
    : result UBError (UserBudgetDB * list UserBudgetDualAccountingReceiptRecord) :=
  match dimensions with
  | [] => Ok (db, [])
  | d :: l =>
      one ← mirror_dimension db binding kind key fingerprint window now d;
      let '(db1, window', row) := one in
      rest ← mirror_dimensions db1 binding kind key fingerprint window' now l;
      mret (fst rest, row :: snd rest)
  end.

(** The receipt of an operation that costs nothing. *)
Definition no_charge_receipt (binding : TaskBindingSnapshot) (kind key fingerprint : string)
    : UserBudgetDualAccountingReceiptRecord := {|
  dr_bridge_receipt_id := String.append "ubq2b:"
    (mirror_digest (ts_owner_user_id binding) (ts_task_id binding) kind key "NO_CHARGE");
  dr_owner_user_id := ts_owner_user_id binding; dr_task_id := ts_task_id binding;
  dr_task_budget_kind := kind; dr_task_budget_reservation_key := key;
  dr_mirror_dimension := "NO_CHARGE"; dr_source_payload_fingerprint := fingerprint;
  dr_window_epoch := None; dr_ubq_reservation_id := None; dr_ubq_idempotency_key := None;
  dr_ubq_payload_fingerprint := None; dr_amount_atomic := 0; dr_capability_id := None |}.

Definition is_no_charge (dimensions : list MirrorDimension) : bool :=
  match dimensions with
  | [d] => bool_decide (md_resource_kind d = "NO_CHARGE")
  | _ => false
  end.

Definition mirror_resource (settings : DualAccountingSettings) (db : UserBudgetDB)
    (binding : TaskBindingSnapshot) (kind key fingerprint : string) (dimensions : list MirrorDimension)
    (now : Z) : result UBError (UserBudgetDB * list UserBudgetDualAccountingReceiptRecord) :=
  _ ← guard_err (negb (bool_decide (dimensions = [])))
        (UBValueError "dual accounting mirror requires at least one dimension");
  found ← existing_receipts db binding kind key fingerprint dimensions;
  match found with
  | (rows, []) => mret (db, rows)
  | (_ :: _, _ :: _) => Err (UserBudgetConflict "dual-accounting logical operation is only partially mirrored")
  | ([], _ :: _) =>
      if is_no_charge dimensions then
        created ← create_or_get_dual_accounting_receipt db (no_charge_receipt binding kind key fingerprint);
        mret (fst created, [snd created])
      else
        ensured ← ensure_active_shadow_window settings db (ts_owner_user_id binding) now;
        let '(db1, window) := ensured in
        mirror_dimensions db1 binding kind key fingerprint window now dimensions
  end.

(** ** Reconciliation *)

Definition reconciliation_item (status : ReconciliationStatus) (task_id : string)
    (bridge : option UserBudgetDualAccountingReceiptRecord) : DualAccountingReconciliationItem := {|
  ri_status := status; ri_task_id := task_id;
  ri_bridge_receipt_id := dr_bridge_receipt_id <$> bridge;
  ri_mirror_dimension := dr_mirror_dimension <$> bridge |}.

(** [get_task_budget_reservation] by the text of the kind. *)
Definition source_reservation (agents : AgentDB) (task_id kind key : string) (generation : Z)
    : option ReservationRow :=
  k ← kind_of_value kind; get_task_budget_reservation agents task_id k key (Some generation).

Definition reconcile_bridge (db : QuotaDB) (task_id : string) (generation : Z)
    (bridge : UserBudgetDualAccountingReceiptRecord) : ReconciliationStatus :=
  match source_reservation (qd_agents db) task_id (dr_task_budget_kind bridge)
          (dr_task_budget_reservation_key bridge) generation with
  | None => SOURCE_RESERVATION_MISSING
  | Some source =>
      if negb (bool_decide (res_fingerprint source = dr_source_payload_fingerprint bridge)) then PAYLOAD_MISMATCH
      else if bool_decide (dr_mirror_dimension bridge = "NO_CHARGE") then REC_OK
      else
        match get_reservation (qd_budgets db) (dr_owner_user_id bridge)
                (default "None" (dr_ubq_idempotency_key bridge)) with
        | None => MISSING_UBQ
        | Some ubq =>
            if bool_decide (Some (rv_reservation_id ubq) = dr_ubq_reservation_id bridge) &&
               bool_decide (Some (rv_window_epoch ubq) = dr_window_epoch bridge) &&
               bool_decide (resource_value (rv_resource_kind ubq) = dr_mirror_dimension bridge) &&
               bool_decide (Some (rv_payload_fingerprint ubq) = dr_ubq_payload_fingerprint bridge) &&
               bool_decide (rv_state ubq = S_SETTLED) &&
               (default 0 (rv_settled_amount_atomic ubq) =? dr_amount_atomic bridge) &&
               same_capability (rv_capability_id ubq) (dr_capability_id bridge)
            then REC_OK else PAYLOAD_MISMATCH
        end
  end.

Definition reconcile_task (db : QuotaDB) (task_id : string) : list DualAccountingReconciliationItem :=
  match get_task_binding (qd_budgets db) task_id with
  | None => [reconciliation_item LEGACY_UNBOUND task_id None]
  | Some _ =>
      let bridges := list_dual_accounting_receipts (qd_budgets db) task_id in
      match get_task (qd_agents db) task_id with
      | None =>
          match bridges with
          | [] => [reconciliation_item SOURCE_ABSENT_UNPROVEN task_id None]
          | _ => map (fun r => reconciliation_item SOURCE_ABSENT_UNPROVEN task_id (Some r)) bridges
          end
      | Some _ =>
          match get_task_budget (qd_agents db) task_id with
          | None => [reconciliation_item SOURCE_RESERVATION_MISSING task_id None]
          | Some budget =>
              match bridges with
              | [] => [reconciliation_item REC_OK task_id None]
              | _ => map (fun r => reconciliation_item (reconcile_bridge db task_id (row_generation budget) r)
                                     task_id (Some r)) bridges
              end
          end
      end
  end.
End Authority.
