(* ===== verification/UserToolQuota.v ===== *)
(** * Tool-call quotas of users
    (src/se/src/application/user_tool_quota.py)

    A logical tool call reserves one unit of the owner's tool-call counter and one of its
    capability's, in the active window, under the limits of the window's policy; when the call
    ends the reservation is settled or released in the window it was made in.  An attempt is
    one transaction.  It reads the owner, a replay and the historical bridge first, and then
    waits for the lock of the account, while others may commit: the first reads see
    [snapshot], the rest works on [db] (with SQLite, which holds the write lock from the
    start, both are the same).  An attempt that raises leaves the database as it was.
    Arguments of tools are compared by their canonical text. *)

From S2P Require Import Prelude Canonical TaskBudgetSchema AgentStore TaskBudgetService UserBudget.
From S2P Require Import UserBudgetAuthority.

Definition UBQ3_IDEMPOTENCY_VERSION : string := "ubq3-v1".

Record ToolQuotaSettings := { tq_enabled : bool; tq_max_conflict_retries : Z }.

Record ToolQuotaAdmission := {
  ta_owner_user_id : string;
  ta_invocation_id : string;
  ta_capability_id : string;
  ta_request_fingerprint : string;
  ta_idempotency_key : option string;
  ta_reservation_id : option string;
  ta_window_epoch : option Z;
  ta_reservation_state : UserBudgetReservationState;
  ta_historical_bridge : bool
}.

(** The logical call: the arguments the methods share. *)
Record ToolCallRequest := {
  tr_invocation_id : string;
  tr_capability_id : string;
  tr_request_fingerprint : string;
  tr_arguments : json;
  tr_execution_id : option string;
  tr_tool_call_id : option string;
  tr_task_id : option string;
  tr_workflow_id : option string;
  tr_session_id : option string
}.

(** What happens around an attempt: the transactions of others before it and during its wait
    for a lock, and a failure of its own transaction. *)
Record Weather := {
  wt_before : QuotaDB -> QuotaDB;
  wt_waiting : QuotaDB -> QuotaDB;
  wt_fault : option UBError
}.

(** The retry loop of the quota services, [for attempt in range(retries)].  An attempt that
    answers [None] rolled back and continues the loop; the statement after the loop is an
    assertion. *)
Fixpoint retry_loop {A : Type} (attempt : QuotaDB -> QuotaDB -> result UBError (QuotaDB * option A))
    (weather : nat -> Weather) (left number : nat) (db : QuotaDB) : QuotaDB * result UBError A :=
  match left with
  | O => (db, Err UBAssertionError)
  | S left' =>
      let snapshot := wt_before (weather number) db in
      let current := wt_waiting (weather number) snapshot in
      let outcome := match wt_fault (weather number) with
                     | Some e => Err e
                     | None => attempt snapshot current
                     end in
      match outcome with
      | Ok (db', Some a) => (db', Ok a)
      | Ok (_, None) => retry_loop attempt weather left' (S number) current
      | Err e =>
          if is_retryable_error e && negb (bool_decide (left' = O))
          then retry_loop attempt weather left' (S number) current
          else (current, Err e)
      end
  end.

(** An attempt that never continues the loop. *)
Definition always {A : Type} (attempt : QuotaDB -> QuotaDB -> result UBError (QuotaDB * A))
    (snapshot db : QuotaDB) : result UBError (QuotaDB * option A) :=
  r ← attempt snapshot db; mret (fst r, Some (snd r)).

(** [max(1, int(settings.max_conflict_retries))] *)
Definition retries_of (z : Z) : nat := Z.to_nat (Z.max 1 z).

Section ToolQuota.
Context (digest : string -> string).

(** [_identity]: the idempotency key and the reservation id. *)
Definition invocation_digest (invocation_id : string) : string :=
  canonical_sha256 digest (JObj [("version", JStr UBQ3_IDEMPOTENCY_VERSION);
                                 ("invocation_id", JStr invocation_id)]).

Definition tool_key (invocation_id : string) : string :=
  String.append "ubq3:v1:" (invocation_digest invocation_id).

Definition tool_reservation_id (invocation_id : string) : string :=
  String.append "ubq3r:" (invocation_digest invocation_id).

Definition tool_attribution (q : ToolCallRequest) : json := JObj [
  ("version", JStr UBQ3_IDEMPOTENCY_VERSION);
  ("invocation_id", JStr (tr_invocation_id q));
  ("request_fingerprint", JStr (tr_request_fingerprint q));
  ("capability_id", JStr (tr_capability_id q));
  ("execution_id", opt_str_json (tr_execution_id q));
  ("tool_call_id", opt_str_json (tr_tool_call_id q));
  ("task_id", opt_str_json (tr_task_id q));
  ("workflow_id", opt_str_json (tr_workflow_id q));
  ("session_id", opt_str_json (tr_session_id q))].

Definition tool_intent (owner : string) (epoch : Z) (q : ToolCallRequest) : UserBudgetReservationIntent := {|
  ui_reservation_id := tool_reservation_id (tr_invocation_id q);
  ui_owner_user_id := owner; ui_window_epoch := epoch;
  ui_idempotency_key := tool_key (tr_invocation_id q);
  ui_resource_kind := K_TOOL_CALL; ui_capability_id := Some (tr_capability_id q);
  ui_reserved_amount_atomic := 1; ui_attribution := tool_attribution q |}.

(** The fingerprint the task budget gives to the call. *)
Definition task_budget_tool_fingerprint (execution_id tool_call_id capability_id : string) (arguments : json)
    : string :=
  reservation_fingerprint TOOL_CALL tool_call_id (JObj [
    ("execution_id", JStr execution_id); ("tool_call_id", JStr tool_call_id);
    ("capability_id", JStr capability_id); ("arguments", arguments)]).

(** [_resolve_owner_in_uow] *)
Definition resolve_tool_owner (db : QuotaDB) (identity : Identity) (task_id : option string)
    : result UBError BudgetOwnerResolution :=
  resolution ← resolve_budget_owner digest db identity;
  _ ← guard_err (match task_id with
                 | Some t =>
                     match get_task_binding (qd_budgets db) t with
                     | Some b => bool_decide (bd_owner_user_id b = bo_owner_user_id resolution)
                     | None => true
                     end
                 | None => true
                 end) UserBudgetBindingDrift;
  mret resolution.

(** Constructing the intent validates it. *)
Definition verify_direct_reservation (row : UserBudgetReservationRecord) (owner : string) (q : ToolCallRequest)
    : result UBError unit :=
  let intent := tool_intent owner (rv_window_epoch row) q in
  _ ← guard_err (intent_valid intent) (UBValueError "UserBudgetReservationIntent");
  guard_err
    (bool_decide (rv_reservation_id row = ui_reservation_id intent) &&
     bool_decide (rv_owner_user_id row = owner) &&
     bool_decide (rv_idempotency_key row = ui_idempotency_key intent) &&
     bool_decide (rv_resource_kind row = K_TOOL_CALL) &&
     bool_decide (default "" (rv_capability_id row) = tr_capability_id q) &&
     (rv_reserved_amount_atomic row =? 1) &&
     bool_decide (rv_payload_fingerprint row = payload_fingerprint digest intent))
    (UserToolQuotaConflict "logical invocation conflicts with existing UBQ-3 reservation").

(** [_historical_bridge_admission_in_uow] after the bridge was found. *)
Definition historical_admission (db : QuotaDB) (owner task_id execution_id tool_call_id : string)
    (q : ToolCallRequest) (bridge : UserBudgetDualAccountingReceiptRecord)
    : result UBError ToolQuotaAdmission :=
  let capability := tr_capability_id q in
  match get_task_binding (qd_budgets db) task_id, get_execution (qd_agents db) execution_id,
        qd_tool_calls db !! (execution_id, tool_call_id), get_task_budget (qd_agents db) task_id with
  | Some binding, Some execution, Some tool_call, Some budget =>
      _ ← guard_err
            (bool_decide (bd_owner_user_id binding = owner) &&
             bool_decide (default "" (e_task_id execution) = task_id) &&
             bool_decide (tl_invocation_id tool_call = tr_invocation_id q) &&
             bool_decide (tl_tool_call_id tool_call = tool_call_id) &&
             bool_decide (tl_capability_id tool_call = capability) &&
             bool_decide (json_dumps (tl_arguments tool_call) = json_dumps (tr_arguments q)))
            (UserToolQuotaConflict "historical UBQ-2 bridge lineage conflicts with logical invocation");
      let expected := task_budget_tool_fingerprint execution_id tool_call_id capability (tr_arguments q) in
      _ ← guard_err
            (match get_task_budget_reservation (qd_agents db) task_id TOOL_CALL tool_call_id
                     (Some (row_generation budget)) with
             | Some source => bool_decide (res_fingerprint source = expected)
             | None => false
             end &&
             bool_decide (dr_source_payload_fingerprint bridge = expected) &&
             bool_decide (dr_owner_user_id bridge = owner) &&
             bool_decide (default "" (dr_capability_id bridge) = capability) &&
             (dr_amount_atomic bridge =? 1) && bool_decide (is_Some (dr_ubq_idempotency_key bridge)))
            (UserToolQuotaConflict "historical UBQ-2 bridge does not prove exact charged lineage");
      match get_reservation (qd_budgets db) owner (default "None" (dr_ubq_idempotency_key bridge)) with
      | Some mirrored =>
          _ ← guard_err
                (bool_decide (Some (rv_reservation_id mirrored) = dr_ubq_reservation_id bridge) &&
                 bool_decide (Some (rv_window_epoch mirrored) = dr_window_epoch bridge) &&
                 bool_decide (rv_resource_kind mirrored = K_TOOL_CALL) &&
                 bool_decide (default "" (rv_capability_id mirrored) = capability) &&
                 bool_decide (Some (rv_payload_fingerprint mirrored) = dr_ubq_payload_fingerprint bridge) &&
                 bool_decide (rv_state mirrored = S_SETTLED) &&
                 (default 0 (rv_settled_amount_atomic mirrored) =? 1))
                (UserToolQuotaConflict "historical UBQ-2 bridge references invalid settled reservation");
          mret {| ta_owner_user_id := owner; ta_invocation_id := tr_invocation_id q;
                  ta_capability_id := capability; ta_request_fingerprint := tr_request_fingerprint q;
                  ta_idempotency_key := None; ta_reservation_id := Some (rv_reservation_id mirrored);
                  ta_window_epoch := Some (rv_window_epoch mirrored);
                  ta_reservation_state := S_SETTLED; ta_historical_bridge := true |}
      | None => Err (UserToolQuotaConflict "historical UBQ-2 bridge references invalid settled reservation")
      end
  | _, _, _, _ =>
      Err (UserToolQuotaConflict "historical UBQ-2 bridge has incomplete Agent/TaskBudget lineage")
  end.

Definition historical_bridge_admission (db : QuotaDB) (owner : string) (task_id : option string)
    (q : ToolCallRequest) : result UBError (option ToolQuotaAdmission) :=
  match truthy_opt task_id, truthy_opt (tr_execution_id q), truthy_opt (tr_tool_call_id q) with
  | Some task_id, Some execution_id, Some tool_call_id =>
      match get_dual_accounting_receipt (qd_budgets db) task_id "TOOL_CALL" tool_call_id "TOOL_CALL" with
      | None => mret None
      | Some bridge =>
          admission ← historical_admission db owner task_id execution_id tool_call_id q bridge;
          mret (Some admission)
      end
  | _, _, _ => mret None
  end.

(** The admission of a direct reservation. *)
Definition direct_admission (owner : string) (q : ToolCallRequest) (row : UserBudgetReservationRecord)
    : ToolQuotaAdmission := {|
  ta_owner_user_id := owner; ta_invocation_id := tr_invocation_id q;
  ta_capability_id := tr_capability_id q; ta_request_fingerprint := tr_request_fingerprint q;
  ta_idempotency_key := Some (tool_key (tr_invocation_id q));
  ta_reservation_id := Some (rv_reservation_id row); ta_window_epoch := Some (rv_window_epoch row);
  ta_reservation_state := rv_state row; ta_historical_bridge := false |}.

Definition resolve_owner (settings : ToolQuotaSettings) (db : QuotaDB) (identity : Identity)
    (task_id : option string) : result UBError (option BudgetOwnerResolution) :=
  if negb (tq_enabled settings) then mret None
  else resolution ← resolve_tool_owner db identity task_id; mret (Some resolution).

(** With the task of a request taken from its execution. *)
Definition with_task (q : ToolCallRequest) (task_id : option string) : ToolCallRequest := {|
  tr_invocation_id := tr_invocation_id q; tr_capability_id := tr_capability_id q;
  tr_request_fingerprint := tr_request_fingerprint q; tr_arguments := tr_arguments q;
  tr_execution_id := tr_execution_id q; tr_tool_call_id := tr_tool_call_id q; tr_task_id := task_id;
  tr_workflow_id := tr_workflow_id q; tr_session_id := tr_session_id q |}.

(** The execution of a request, and its task. *)
Definition execution_lineage (db : QuotaDB) (execution_id : option string)
    : result UBError (option ExecutionRow * option string) :=
  match execution_id with
  | None => mret (None, None)
  | Some id =>
      match get_execution (qd_agents db) id with
      | None => Err (UserToolQuotaConflict "quota authority execution lineage is missing")
      | Some e => mret (Some e, e_task_id e)
      end
  end.

Definition find_tool_call_authority (settings : ToolQuotaSettings) (db : QuotaDB) (owner : string)
    (q : ToolCallRequest) : result UBError (option ToolQuotaAdmission) :=
  if negb (tq_enabled settings) then mret None
  else
    _ ← guard_err (truthy owner && truthy (tr_invocation_id q) && truthy (tr_capability_id q) &&
                   truthy (tr_request_fingerprint q))
          (UserToolQuotaConflict "quota authority lookup lacks durable logical identity");
    lineage ← execution_lineage db (tr_execution_id q);
    let '(execution, task_id) := lineage in
    match get_reservation (qd_budgets db) owner (tool_key (tr_invocation_id q)) with
    | Some direct =>
        _ ← verify_direct_reservation direct owner (with_task q task_id);
        mret (Some (direct_admission owner q direct))
    | None =>
        match execution, task_id, tr_tool_call_id q with
        | Some _, Some _, Some _ => historical_bridge_admission db owner task_id q
        | _, _, _ => mret None
        end
    end.

Definition recover_tool_call (settings : ToolQuotaSettings) (db : QuotaDB) (owner : string)
    (q : ToolCallRequest) : result UBError ToolQuotaAdmission :=
  authority ← find_tool_call_authority settings db owner q;
  match authority with
  | None => Err (UserToolQuotaConflict "continuation has no exact UBQ charge authority")
  | Some a =>
      _ ← guard_err (ta_historical_bridge a || bool_decide (ta_reservation_state a = S_RESERVED))
            (UserToolQuotaConflict "continuation requires an unresolved RESERVED direct UBQ-3 reservation");
      mret a
  end.

(** ** Admission *)

Definition over_limit (limit : option Z) (amount : Z) : bool :=
  match limit with Some l => l <? amount | None => false end.

(** The limit of a capability: its own, or the default. *)
Definition per_tool_limit (policy : UserBudgetPolicyRecord) (capability_id : string) : option Z :=
  match pr_tool_limits_json policy !! capability_id with
  | Some l => Some l
  | None => pr_default_per_tool_limit policy
  end.

(** The policy that governs the active window. *)
Definition governing_policy (db : UserBudgetDB) (owner : string) (window : UserBudgetWindowRecord)
    (message : string) : result UBError UserBudgetPolicyRecord :=
  match get_policy db owner (wr_governing_policy_id window) with
  | Some policy =>
      _ ← guard_err (bool_decide (pr_policy_fingerprint policy = wr_governing_policy_fingerprint window))
            (UserBudgetPolicyAuthorityConflict message);
      mret policy
  | None => Err (UserBudgetPolicyAuthorityConflict message)
  end.

(** The active window, rolled over when it has expired. *)
Definition current_window (db : UserBudgetDB) (owner : string) (account : UserBudgetAccountRecord) (now : Z)
    : result UBError (UserBudgetDB * UserBudgetWindowRecord) :=
  active ← get_active_window db owner;
  match active with
  | Some w => if wr_expires_at w <=? now then rollover_window db owner (ar_revision account) now
              else mret (db, w)
  | None => rollover_window db owner (ar_revision account) now
  end.

(** The new reservation in the current window. *)
Definition admit_tool_call (db : UserBudgetDB) (owner : string) (account : UserBudgetAccountRecord)
    (q : ToolCallRequest) (now : Z) : result UBError (UserBudgetDB * ToolQuotaAdmission) :=
  let capability := tr_capability_id q in
  opened ← current_window db owner account now;
  let '(db1, window) := opened in
  policy ← governing_policy db1 owner window "active tool quota window has invalid policy authority";
  _ ← guard_err (negb (is_recognized_shadow_policy digest policy))
        (UserBudgetPolicyAuthorityConflict
           "automatic UBQ-2 shadow policy cannot authorize canonical tool quota admission");
  usage ← create_or_get_tool_usage db1 owner (wr_epoch window) capability;
  let '(db2, tool_usage) := usage in
  _ ← guard_err (negb (over_limit (per_tool_limit policy capability)
                         (tu_used_calls tool_usage + tu_reserved_calls tool_usage + 1)))
        UserToolCapabilityQuotaExceeded;
  _ ← guard_err (negb (over_limit (pr_max_tool_calls_total policy)
                         (tool_calls_used (wr_usage window) + tool_calls_reserved (wr_usage window) + 1)))
        UserToolQuotaExceeded;
  let intent := tool_intent owner (wr_epoch window) q in
  _ ← guard_err (intent_valid intent) (UBValueError "UserBudgetReservationIntent");
  reserved ← create_or_get_reservation digest db2 intent;
  let '(db3, reservation) := reserved in
  _ ← verify_direct_reservation reservation owner q;
  charged ← mutate_window_usage db3 owner (wr_epoch window) (wr_revision window)
              [(F_tool_calls_reserved, tool_calls_reserved (wr_usage window) + 1)];
  let '(db4, window') := charged in
  counted ← mutate_tool_usage db4 owner (wr_epoch window') capability (tu_revision tool_usage)
              (tu_used_calls tool_usage) (tu_reserved_calls tool_usage + 1);
  mret (fst counted,
        {| ta_owner_user_id := owner; ta_invocation_id := tr_invocation_id q; ta_capability_id := capability;
           ta_request_fingerprint := tr_request_fingerprint q;
           ta_idempotency_key := Some (tool_key (tr_invocation_id q));
           ta_reservation_id := Some (rv_reservation_id reservation);
           ta_window_epoch := Some (wr_epoch window'); ta_reservation_state := S_RESERVED;
           ta_historical_bridge := false |}).

(** One attempt: the reads before the lock, and the work under it. *)
Definition reserve_tool_call_attempt (identity : Identity) (q : ToolCallRequest) (now : Z)
    (snapshot db : QuotaDB) : result UBError (QuotaDB * ToolQuotaAdmission) :=
  resolution ← resolve_tool_owner snapshot identity (tr_task_id q);
  let owner := bo_owner_user_id resolution in
  match get_reservation (qd_budgets snapshot) owner (tool_key (tr_invocation_id q)) with
  | Some existing =>
      _ ← verify_direct_reservation existing owner q;
      mret (db, direct_admission owner q existing)
  | None =>
      historical ← historical_bridge_admission snapshot owner (tr_task_id q) q;
      match historical with
      | Some admission => mret (db, admission)
      | None =>
          match get_account (qd_budgets db) owner with
          | None => Err (UserBudgetPolicyAuthorityConflict "tool quota owner has no selected UBQ policy")
          | Some account =>
              _ ← guard_err (bool_decide (is_Some (ar_next_policy_id account)))
                    (UserBudgetPolicyAuthorityConflict "tool quota owner has no selected UBQ policy");
              match get_reservation (qd_budgets db) owner (tool_key (tr_invocation_id q)) with
              | Some replay =>
                  _ ← verify_direct_reservation replay owner q;
                  mret (db, direct_admission owner q replay)
              | None =>
                  admitted ← admit_tool_call (qd_budgets db) owner account q now;
                  mret (set_budgets db (fst admitted), snd admitted)
              end
          end
      end
  end.

Definition reserve_tool_call (settings : ToolQuotaSettings) (identity : Identity) (q : ToolCallRequest)
    (now : Z) (weather : nat -> Weather) (db : QuotaDB) : QuotaDB * result UBError (option ToolQuotaAdmission) :=
  if negb (tq_enabled settings) then (db, Ok None)
  else if negb (truthy (tr_invocation_id q) && truthy (tr_capability_id q) && truthy (tr_request_fingerprint q))
  then (db, Err (UBValueError "UBQ-3 tool admission requires invocation_id, capability_id and request_fingerprint"))
  else
    let '(db', r) := retry_loop (always (reserve_tool_call_attempt identity q now)) weather
                       (retries_of (tq_max_conflict_retries settings)) 0 db in
    (db', Some <$> r).

(** ** Settlement and release *)

(** The request a reservation was made for, read back from its attribution. *)
Definition attributed_request (a : ToolQuotaAdmission) (attribution : json) : ToolCallRequest := {|
  tr_invocation_id := ta_invocation_id a; tr_capability_id := ta_capability_id a;
  tr_request_fingerprint := ta_request_fingerprint a; tr_arguments := JObj [];
  tr_execution_id := opt_column attribution "execution_id";
  tr_tool_call_id := opt_column attribution "tool_call_id";
  tr_task_id := opt_column attribution "task_id";
  tr_workflow_id := opt_column attribution "workflow_id";
  tr_session_id := opt_column attribution "session_id" |}.

Definition with_reservation_state (a : ToolQuotaAdmission) (s : UserBudgetReservationState)
    : ToolQuotaAdmission := {|
  ta_owner_user_id := ta_owner_user_id a; ta_invocation_id := ta_invocation_id a;
  ta_capability_id := ta_capability_id a; ta_request_fingerprint := ta_request_fingerprint a;
  ta_idempotency_key := ta_idempotency_key a; ta_reservation_id := ta_reservation_id a;
  ta_window_epoch := ta_window_epoch a; ta_reservation_state := s; ta_historical_bridge := false |}.

(** The counters and the reservation; [settle] tells SETTLED from RELEASED. *)
Definition end_tool_call (db : UserBudgetDB) (a : ToolQuotaAdmission) (key : string)
    (reservation : UserBudgetReservationRecord) (settle : bool) (now : Z)
    : result UBError (UserBudgetDB * UserBudgetReservationRecord) :=
  let owner := ta_owner_user_id a in
  let epoch := rv_window_epoch reservation in
  let inconsistent := UserToolQuotaConflict "UBQ-3 reserved counters are inconsistent" in
  match get_window db owner epoch, get_tool_usage db owner epoch (ta_capability_id a) with
  | Some window, Some usage =>
      _ ← guard_err (negb ((tool_calls_reserved (wr_usage window) <=? 0) || (tu_reserved_calls usage <=? 0)))
            inconsistent;
      charged ← mutate_window_usage db owner (wr_epoch window) (wr_revision window)
                  ((if settle then [(F_tool_calls_used, tool_calls_used (wr_usage window) + 1)] else []) ++
                   [(F_tool_calls_reserved, tool_calls_reserved (wr_usage window) - 1)]);
      counted ← mutate_tool_usage (fst charged) owner (wr_epoch window) (ta_capability_id a) (tu_revision usage)
                  (if settle then tu_used_calls usage + 1 else tu_used_calls usage)
                  (tu_reserved_calls usage - 1);
      transition_reservation (fst counted) owner key (rv_revision reservation)
        (if settle then S_SETTLED else S_RELEASED)
        (if settle then Some 1 else None) (if settle then Some now else None)
  | _, _ => Err inconsistent
  end.

(** One attempt of [_terminal_transition]. *)
Definition terminal_attempt (a : ToolQuotaAdmission) (key : string) (settle : bool) (now : Z)
    (_ db : QuotaDB) : result UBError (QuotaDB * ToolQuotaAdmission) :=
  let target := if settle then S_SETTLED else S_RELEASED in
  match get_reservation (qd_budgets db) (ta_owner_user_id a) key with
  | None => Err (UserToolQuotaConflict "UBQ-3 reservation disappeared before terminal transition")
  | Some reservation =>
      _ ← verify_direct_reservation reservation (ta_owner_user_id a)
            (attributed_request a (rv_attribution_json reservation));
      if bool_decide (rv_state reservation = target) then mret (db, with_reservation_state a target)
      else
        _ ← guard_err (bool_decide (rv_state reservation = S_RESERVED))
              (UserToolQuotaConflict "UBQ-3 reservation is already terminal/incompatible");
        ended ← end_tool_call (qd_budgets db) a key reservation settle now;
        mret (set_budgets db (fst ended), with_reservation_state a (rv_state (snd ended)))
  end.

Definition terminal_transition (settings : ToolQuotaSettings) (admission : option ToolQuotaAdmission)
    (settle : bool) (now : Z) (weather : nat -> Weather) (db : QuotaDB)
    : QuotaDB * result UBError (option ToolQuotaAdmission) :=
  match admission with
  | None => (db, Ok None)
  | Some a =>
      if ta_historical_bridge a then (db, Ok (Some a))
      else
        match ta_idempotency_key a with
        | None => (db, Err (UserToolQuotaConflict "direct UBQ-3 admission has no idempotency key"))
        | Some key =>
            let '(db', r) := retry_loop (always (terminal_attempt a key settle now)) weather
                               (retries_of (tq_max_conflict_retries settings)) 0 db in
            (db', Some <$> r)
        end
  end.

Definition settle_tool_call (settings : ToolQuotaSettings) (admission : option ToolQuotaAdmission) (now : Z)
    (weather : nat -> Weather) (db : QuotaDB) : QuotaDB * result UBError (option ToolQuotaAdmission) :=
  terminal_transition settings admission true now weather db.

Definition release_tool_call (settings : ToolQuotaSettings) (admission : option ToolQuotaAdmission) (now : Z)
    (weather : nat -> Weather) (db : QuotaDB) : QuotaDB * result UBError (option ToolQuotaAdmission) :=
  terminal_transition settings admission false now weather db.
End ToolQuota.
