(* ===== verification/UserInferenceQuota.v ===== *)
(** * Inference quotas of users
    (src/se/src/application/user_inference_quota.py)

    A logical inference request reserves a call and upper bounds of its input, output and
    total tokens in the owner's active window; success settles what the provider reported, and
    what it did not report stays reserved.  Attempts are transactions as in the file
    UserToolQuota.  The body of a request is a Python value, with the floats and Decimals that
    canonicalisation treats; a pydantic object is the mapping it dumps to. *)

From S2P Require Import Prelude Canonical TaskBudgetSchema AgentStore TaskBudgetService UserBudget.
From S2P Require Import UserBudgetAuthority UserToolQuota.

Definition UBQ4_RESERVATION_VERSION : string := "ubq4-v1".
Definition UBQ4_FINGERPRINT_VERSION : string := "ubq4-logical-fingerprint-v1".
Definition UBQ4_SKILL_ID_VERSION : string := "ubq4-skill-inf-v1".

Record InferenceQuotaSettings := {
  iq_enabled : bool;
  iq_max_conflict_retries : Z;
  iq_estimator_policy_version : string;
  iq_usage_normalization_version : string;
  iq_default_output_token_reservation : option Z
}.

Record InferenceQuotaContext := {
  ic_budget_identity : Identity;
  ic_logical_request_id : string;
  ic_logical_request_fingerprint : option string;
  ic_source_surface : string;
  ic_owner_user_id : option string;
  ic_session_id : option string;
  ic_task_id : option string;
  ic_execution_id : option string;
  ic_workflow_id : option string;
  ic_iteration : option Z;
  ic_agent_iteration_id : option string;
  ic_outer_request_id : option string;
  ic_capability_invocation_id : option string;
  ic_estimator_policy_identity : string;
  ic_usage_normalization_identity : string
}.

Record InferenceQuotaEstimate := {
  es_input_tokens : Z;
  es_output_tokens : Z;
  es_total_tokens : Z;
  es_compute_units : option Decimal;
  es_cost_usd : option Decimal
}.

Record NormalizedInferenceUsage := {
  nu_input_tokens : option Z;
  nu_output_tokens : option Z;
  nu_total_tokens : option Z;
  nu_compute_units : option Decimal;
  nu_cost_usd : option Decimal;
  nu_normalization_identity : string;
  nu_provider : option string;
  nu_model : option string
}.

Record InferenceQuotaAdmission := {
  ia_owner_user_id : string;
  ia_logical_request_id : string;
  ia_logical_request_fingerprint : string;
  ia_window_epoch : Z;
  ia_reservation_keys : list (UserBudgetResourceKind * string);
  ia_replayed : bool;
  ia_inference_reservation_state : UserBudgetReservationState
}.

(** ** Bodies and fingerprints *)

Inductive PyValue :=
  | VNone
  | VBool (b : bool)
  | VInt (z : Z)
  | VStr (s : string)
  | VFloat
  | VDecimal (d : Decimal)
  | VList (l : list PyValue)
  | VDict (fields : list (string * PyValue)).

(** [_canonicalize] *)
Fixpoint canonicalize (v : PyValue) : result UBError json :=
  match v with
  | VNone => Ok JNull
  | VBool b => Ok (JBool b)
  | VInt z => Ok (JInt z)
  | VStr s => Ok (JStr s)
  | VFloat => Err (UserInferenceQuotaContext "binary float is not canonical UBQ-4 fingerprint authority")
  | VDecimal d =>
      match normalize_decimal_value d false with
      | Ok q => Ok (JStr (canonical_decimal_string q))
      | Err e => Err e
      end
  | VList l =>
      let fix items l :=
        match l with
        | [] => Ok []
        | x :: l' => j ← canonicalize x; js ← items l'; mret (j :: js)
        end in
      js ← items l; mret (JArr js)
  | VDict fields =>
      let fix items l :=
        match l with
        | [] => Ok []
        | (k, x) :: l' => j ← canonicalize x; js ← items l'; mret ((k, j) :: js)
        end in
      js ← items fields; mret (JObj (sort_fields js))
  end.

(** [body.get(key)] of a mapping. *)
Definition body_get (body : list (string * PyValue)) (key : string) : PyValue :=
  default VNone (dict_get key body).

(** [value or fallback] *)
Definition or_else (v fallback : PyValue) : PyValue :=
  match v with
  | VNone | VBool false | VInt 0 | VStr EmptyString | VList [] | VDict [] => fallback
  | VDecimal (DFinite 0 _) => fallback
  | _ => v
  end.

Definition SEMANTIC_CONFIG_KEYS : list string :=
  ["frequency_penalty"; "max_tokens"; "presence_penalty"; "response_format"; "seed"; "stop";
   "temperature"; "top_p"].
Definition TRANSPORT_CONFIG_KEYS : list string := ["stream"; "agent_activity_stream"].

Definition as_mapping (v : PyValue) : result UBError (list (string * PyValue)) :=
  match v with
  | VNone => Ok []
  | VDict fields => Ok fields
  | _ => Err (UserInferenceQuotaContext "semantic config must be a canonical mapping")
  end.

(** [_semantic_config]: the semantic keys that are present, in order. *)
Definition semantic_config (body : list (string * PyValue)) : result UBError (list (string * PyValue)) :=
  config ← as_mapping (body_get body "config");
  _ ← guard_err (forallb (fun kv : string * PyValue =>
                   bool_decide (kv.1 ∈ SEMANTIC_CONFIG_KEYS ++ TRANSPORT_CONFIG_KEYS)) config)
        (UserInferenceQuotaContext "unfrozen semantic/transport config keys");
  mret (omap (fun key => v ← dict_get key config; Some (key, v)) SEMANTIC_CONFIG_KEYS).

Definition opt_str_value (o : option string) : PyValue := from_option VStr VNone o.
Definition opt_int_value (o : option Z) : PyValue := from_option VInt VNone o.

(** The outer request of a Skill is attribution only. *)
Definition stable_outer_request (c : InferenceQuotaContext) : option string :=
  if bool_decide (ic_source_surface c = "SKILL") && bool_decide (is_Some (ic_capability_invocation_id c))
  then None else ic_outer_request_id c.

Section InferenceQuota.
Context (digest : string -> string).

(** [_fingerprint] *)
Definition value_fingerprint (payload : PyValue) : result UBError string :=
  j ← canonicalize payload; mret (canonical_sha256 digest j).

Definition derive_skill_inference_request_id (invocation_id : string) (ordinal : Z) : result UBError string :=
  _ ← guard_err (truthy invocation_id) (UBValueError "Skill inference requires a non-empty invocation_id");
  _ ← guard_err (0 <? ordinal) (UBValueError "Skill inference ordinal must be positive");
  d ← value_fingerprint (VDict [("capability_invocation_id", VStr invocation_id);
                                ("inference_ordinal", VInt ordinal);
                                ("contract_version", VStr UBQ4_SKILL_ID_VERSION)]);
  mret (String.append "skillinf:v1:" d).

(** The payloads of both identities hold no float. *)
Definition estimator_identity (settings : InferenceQuotaSettings) : string :=
  String.append "ubq4-estimator:" (String.append (iq_estimator_policy_version settings)
    (String ":"%char (canonical_sha256 digest (JObj [
      ("version", JStr (iq_estimator_policy_version settings));
      ("default_output_token_reservation", opt_int_json (iq_default_output_token_reservation settings));
      ("compute_cost_estimator_authority", JStr "provider-model-normalizer-required")])))).

Definition normalization_identity (settings : InferenceQuotaSettings) : string :=
  String.append "ubq4-usage:" (String.append (iq_usage_normalization_version settings)
    (String ":"%char (canonical_sha256 digest (JObj [
      ("version", JStr (iq_usage_normalization_version settings));
      ("compute_cost_normalization_authority", JStr "provider-model-normalizer-required")])))).

(** [build_context]; the caller's fields are those of [c]. *)
Definition build_context (settings : InferenceQuotaSettings) (c : InferenceQuotaContext)
    : result UBError (option InferenceQuotaContext) :=
  if negb (iq_enabled settings) then mret None
  else
    _ ← guard_err (truthy (ic_logical_request_id c) && truthy (ic_source_surface c))
          (UserInferenceQuotaContext "logical_request_id and source_surface are required");
    mret (Some {|
      ic_budget_identity := ic_budget_identity c; ic_logical_request_id := ic_logical_request_id c;
      ic_logical_request_fingerprint := ic_logical_request_fingerprint c;
      ic_source_surface := ic_source_surface c; ic_owner_user_id := ic_owner_user_id c;
      ic_session_id := ic_session_id c; ic_task_id := ic_task_id c; ic_execution_id := ic_execution_id c;
      ic_workflow_id := ic_workflow_id c; ic_iteration := ic_iteration c;
      ic_agent_iteration_id := ic_agent_iteration_id c; ic_outer_request_id := ic_outer_request_id c;
      ic_capability_invocation_id := ic_capability_invocation_id c;
      ic_estimator_policy_identity := estimator_identity settings;
      ic_usage_normalization_identity := normalization_identity settings |}).

Definition logical_payload (body : list (string * PyValue)) (c : InferenceQuotaContext)
    (config : list (string * PyValue)) (streaming_mode : bool) : PyValue := VDict [
  ("fingerprint_version", VStr UBQ4_FINGERPRINT_VERSION);
  ("semantic_model_id", or_else (body_get body "model") (VStr ""));
  ("normalized_messages", or_else (body_get body "messages") (VList []));
  ("normalized_tool_definitions", or_else (body_get body "tools") (VList []));
  ("normalized_semantic_config", VDict config);
  ("source_surface", VStr (ic_source_surface c));
  ("stable_lineage", VDict [
    ("session_id", opt_str_value (ic_session_id c));
    ("task_id", opt_str_value (ic_task_id c));
    ("execution_id", opt_str_value (ic_execution_id c));
    ("workflow_id", opt_str_value (ic_workflow_id c));
    ("iteration", opt_int_value (ic_iteration c));
    ("agent_iteration_id", opt_str_value (ic_agent_iteration_id c));
    ("outer_request_id", opt_str_value (stable_outer_request c));
    ("capability_invocation_id", opt_str_value (ic_capability_invocation_id c))]);
  ("estimator_policy_identity", VStr (ic_estimator_policy_identity c));
  ("usage_normalization_identity", VStr (ic_usage_normalization_identity c));
  ("streaming_mode", VBool streaming_mode)].

Definition logical_fingerprint (settings : InferenceQuotaSettings) (body : list (string * PyValue))
    (c : InferenceQuotaContext) (streaming_mode : bool) : result UBError string :=
  _ ← guard_err (bool_decide (ic_estimator_policy_identity c = estimator_identity settings) &&
                 bool_decide (ic_usage_normalization_identity c = normalization_identity settings))
        (UserInferenceQuotaContext "quota policy/normalization identity drifted");
  config ← semantic_config body;
  value ← value_fingerprint (logical_payload body c config streaming_mode);
  _ ← guard_err (match ic_logical_request_fingerprint c with
                 | Some supplied => bool_decide (supplied = value)
                 | None => true
                 end)
        (UserInferenceQuotaConflict "supplied logical request fingerprint disagrees with canonical recomputation");
  mret value.

(** [_estimate]: a token per byte of the canonical input. *)
Definition estimate (settings : InferenceQuotaSettings) (body : list (string * PyValue))
    : result UBError InferenceQuotaEstimate :=
  input ← canonicalize (VDict [("messages", or_else (body_get body "messages") (VList []));
                               ("tools", or_else (body_get body "tools") (VList []))]);
  let input_tokens := Z.max 1 (Z.of_nat (String.length (json_dumps_utf8 input))) in
  config ← semantic_config body;
  output_tokens ← match body_get config "max_tokens" with
                  | VNone =>
                      match iq_default_output_token_reservation settings with
                      | Some bound => mret bound
                      | None => Err (UserInferenceEstimateUnavailable "output-token upper bound is unavailable")
                      end
                  | VInt z =>
                      _ ← guard_err (0 <? z)
                            (UserInferenceEstimateUnavailable "max_tokens must be a positive integer");
                      mret z
                  | _ => Err (UserInferenceEstimateUnavailable "max_tokens must be a positive integer")
                  end;
  mret {| es_input_tokens := input_tokens; es_output_tokens := output_tokens;
          es_total_tokens := input_tokens + output_tokens; es_compute_units := None; es_cost_usd := None |}.

(** ** Reservations of a request *)

Definition request_digest (logical_request_id : string) (kind : UserBudgetResourceKind) : string :=
  canonical_sha256 digest (JObj [
    ("version", JStr UBQ4_RESERVATION_VERSION);
    ("logical_request_id", JStr logical_request_id);
    ("resource_kind", JStr (resource_value kind))]).

(** [_reservation_identity]: the key, and the reservation id. *)
Definition inference_key (logical_request_id : string) (kind : UserBudgetResourceKind) : string :=
  String.append "ubq4:v1:" (request_digest logical_request_id kind).

Definition inference_reservation_id (logical_request_id : string) (kind : UserBudgetResourceKind) : string :=
  String.append "ubq4r:" (request_digest logical_request_id kind).

(** The amount of a resource that only some policies limit. *)
Definition limited_amount (include : bool) (kind : UserBudgetResourceKind) (units : option Decimal)
    (message : string) : result UBError (list (UserBudgetResourceKind * Z)) :=
  if include then
    match units with
    | None => Err (UserInferenceEstimateUnavailable message)
    | Some d => q ← decimal_to_atomic d true; mret [(kind, q)]
    end
  else mret [].

(** [_amounts] *)
Definition amounts_of (e : InferenceQuotaEstimate) (include_compute include_cost : bool)
    : result UBError (list (UserBudgetResourceKind * Z)) :=
  compute ← limited_amount include_compute K_COMPUTE_UNIT (es_compute_units e)
              "finite/recorded compute quota has no server-owned estimator";
  cost ← limited_amount include_cost K_COST_USD (es_cost_usd e)
           "finite/recorded cost quota has no server-owned estimator";
  mret ([(K_INFERENCE_CALL, 1); (K_INPUT_TOKEN, es_input_tokens e);
         (K_OUTPUT_TOKEN, es_output_tokens e); (K_TOTAL_TOKEN, es_total_tokens e)] ++ compute ++ cost).

Definition amount_of (kind : UserBudgetResourceKind) (l : list (UserBudgetResourceKind * Z)) : Z :=
  match find (fun ka => bool_decide (ka.1 = kind)) l with Some (_, z) => z | None => 0 end.

Definition inference_attribution (c : InferenceQuotaContext) (fingerprint : string)
    (kind : UserBudgetResourceKind) : json := JObj [
  ("version", JStr UBQ4_RESERVATION_VERSION);
  ("logical_request_id", JStr (ic_logical_request_id c));
  ("logical_request_fingerprint", JStr fingerprint);
  ("resource_kind", JStr (resource_value kind));
  ("source_surface", JStr (ic_source_surface c));
  ("session_id", opt_str_json (ic_session_id c));
  ("task_id", opt_str_json (ic_task_id c));
  ("execution_id", opt_str_json (ic_execution_id c));
  ("workflow_id", opt_str_json (ic_workflow_id c));
  ("iteration", opt_int_json (ic_iteration c));
  ("agent_iteration_id", opt_str_json (ic_agent_iteration_id c));
  ("outer_request_id", opt_str_json (stable_outer_request c));
  ("capability_invocation_id", opt_str_json (ic_capability_invocation_id c));
  ("estimator_policy_identity", JStr (ic_estimator_policy_identity c));
  ("usage_normalization_identity", JStr (ic_usage_normalization_identity c))].

Definition inference_intent (owner : string) (epoch : Z) (c : InferenceQuotaContext) (fingerprint : string)
    (kind : UserBudgetResourceKind) (amount : Z) : UserBudgetReservationIntent := {|
  ui_reservation_id := inference_reservation_id (ic_logical_request_id c) kind;
  ui_owner_user_id := owner; ui_window_epoch := epoch;
  ui_idempotency_key := inference_key (ic_logical_request_id c) kind;
  ui_resource_kind := kind; ui_capability_id := None; ui_reserved_amount_atomic := amount;
  ui_attribution := inference_attribution c fingerprint kind |}.

(** [_verify_row] *)
Definition verify_row (row : UserBudgetReservationRecord) (i : UserBudgetReservationIntent) : result UBError unit :=
  guard_err (bool_decide (rv_reservation_id row = ui_reservation_id i) &&
             bool_decide (rv_owner_user_id row = ui_owner_user_id i) &&
             (rv_window_epoch row =? ui_window_epoch i) &&
             bool_decide (rv_idempotency_key row = ui_idempotency_key i) &&
             bool_decide (rv_resource_kind row = ui_resource_kind i) &&
             (rv_reserved_amount_atomic row =? ui_reserved_amount_atomic i) &&
             bool_decide (rv_payload_fingerprint row = payload_fingerprint digest i))
    (UserInferenceQuotaConflict "logical inference reservation replay conflicts with canonical payload").

(** The fingerprint the task budget gives to an inference. *)
Definition task_budget_inference_fingerprint (request_id : string) : string :=
  reservation_fingerprint INFERENCE request_id (JObj []).

(** The durable lineage of a historical bridge. *)
Definition exact_inference_lineage (db : QuotaDB) (owner task_id : string) (c : InferenceQuotaContext)
    (bridge : UserBudgetDualAccountingReceiptRecord) : bool :=
  let request := ic_logical_request_id c in
  let expected := task_budget_inference_fingerprint request in
  match get_task_binding (qd_budgets db) task_id with
  | Some binding => bool_decide (bd_owner_user_id binding = owner)
  | None => false
  end &&
  match (budget ← get_task_budget (qd_agents db) task_id;
         get_task_budget_reservation (qd_agents db) task_id INFERENCE request (Some (row_generation budget))) with
  | Some source => bool_decide (res_fingerprint source = expected)
  | None => false
  end &&
  bool_decide (dr_source_payload_fingerprint bridge = expected) &&
  bool_decide (dr_owner_user_id bridge = owner) && (dr_amount_atomic bridge =? 1) &&
  match (key ← dr_ubq_idempotency_key bridge; get_reservation (qd_budgets db) owner key) with
  | Some mirrored =>
      bool_decide (Some (rv_reservation_id mirrored) = dr_ubq_reservation_id bridge) &&
      bool_decide (Some (rv_window_epoch mirrored) = dr_window_epoch bridge) &&
      bool_decide (rv_resource_kind mirrored = K_INFERENCE_CALL) &&
      bool_decide (Some (rv_payload_fingerprint mirrored) = dr_ubq_payload_fingerprint bridge) &&
      bool_decide (rv_state mirrored = S_SETTLED) && (default 0 (rv_settled_amount_atomic mirrored) =? 1)
  | None => false
  end &&
  match ic_execution_id c, (id ← ic_agent_iteration_id c; qd_iterations db !! id) with
  | Some execution_id, Some iteration =>
      bool_decide (it_execution_id iteration = execution_id) &&
      bool_decide (it_inference_request_id iteration = request)
  | _, _ => false
  end.

(** A historical charge is refused, whether its lineage is exact or not. *)
Definition require_no_unmigrated_historical_inference (db : QuotaDB) (owner : string)
    (c : InferenceQuotaContext) : result UBError unit :=
  match ic_task_id c with
  | None => mret tt
  | Some task_id =>
      match get_dual_accounting_receipt (qd_budgets db) task_id "INFERENCE" (ic_logical_request_id c)
              "INFERENCE_CALL" with
      | None => mret tt
      | Some bridge =>
          _ ← guard_err (exact_inference_lineage db owner task_id c bridge)
                (UserInferenceQuotaConflict
                   "historical UBQ-2 inference bridge has incomplete or conflicting durable lineage");
          Err (UserInferenceQuotaConflict "historical UBQ-2 inference charge is proven but suppression is not enabled")
      end
  end.

(** [_resolve_owner_in_uow] *)
Definition resolve_inference_owner (db : QuotaDB) (c : InferenceQuotaContext) : result UBError string :=
  resolution ← resolve_budget_owner digest db (ic_budget_identity c);
  let owner := bo_owner_user_id resolution in
  _ ← guard_err (match ic_owner_user_id c with Some o => bool_decide (o = owner) | None => true end)
        (UserInferenceQuotaContext "compatibility owner_user_id disagrees with resolved budget owner");
  _ ← guard_err (match ic_task_id c with
                 | Some t => match get_task_binding (qd_budgets db) t with
                             | Some b => bool_decide (bd_owner_user_id b = owner)
                             | None => true
                             end
                 | None => true
                 end) UserBudgetBindingDrift;
  mret owner.

(** The policy an embedding runs under: of the active window, or the selected one. *)
Definition embedding_policy (b : UserBudgetDB) (owner : string) (now : Z) : result UBError UserBudgetPolicyRecord :=
  active ← get_active_window b owner;
  let selected :=
    match get_account b owner with
    | Some account =>
        match ar_next_policy_id account with
        | Some id =>
            match get_policy b owner id with
            | Some p => mret p
            | None => Err (UserBudgetPolicyAuthorityConflict "embedding owner selected policy is missing")
            end
        | None => Err (UserBudgetPolicyAuthorityConflict "embedding owner has no selected UBQ policy")
        end
    | None => Err (UserBudgetPolicyAuthorityConflict "embedding owner has no selected UBQ policy")
    end in
  match active with
  | Some w =>
      if now <? wr_expires_at w
      then governing_policy b owner w "active embedding owner window has invalid policy authority"
      else selected
  | None => selected
  end.

Definition require_embedding_allowed (settings : InferenceQuotaSettings) (db : QuotaDB) (identity : Identity)
    (now : Z) : result UBError unit :=
  if negb (iq_enabled settings) then mret tt
  else
    resolution ← resolve_budget_owner digest db identity;
    policy ← embedding_policy (qd_budgets db) (bo_owner_user_id resolution) now;
    guard_err (forallb (fun o => bool_decide (o = None))
                 [pr_max_compute_atomic policy; pr_max_inference_calls policy; pr_max_input_tokens policy;
                  pr_max_output_tokens policy; pr_max_total_tokens policy; pr_max_cost_usd_atomic policy])
      UserBudgetUnsupportedGovernedOperation.

(** ** Admission *)

(** The keys of a replayed request, each verified. *)
Fixpoint replay_keys (b : UserBudgetDB) (owner : string) (epoch : Z) (c : InferenceQuotaContext)
    (fingerprint : string) (amounts : list (UserBudgetResourceKind * Z))
    : result UBError (list (UserBudgetResourceKind * string)) :=
  match amounts with
  | [] => Ok []
  | (kind, amount) :: l =>
      let key := inference_key (ic_logical_request_id c) kind in
      match get_reservation b owner key with
      | None => Err (UserInferenceQuotaConflict "logical inference replay has a partial reservation set")
      | Some row =>
          let intent := inference_intent owner epoch c fingerprint kind amount in
          _ ← guard_err (intent_valid intent) (UBValueError "UserBudgetReservationIntent");
          _ ← verify_row row intent;
          keys ← replay_keys b owner epoch c fingerprint l;
          mret ((kind, key) :: keys)
      end
  end.

(** A request id that is already reserved. *)
Definition replay_inference (b : UserBudgetDB) (owner : string) (c : InferenceQuotaContext)
    (fingerprint : string) (e : InferenceQuotaEstimate) (existing : UserBudgetReservationRecord)
    : result UBError InferenceQuotaAdmission :=
  let attr := rv_attribution_json existing in
  _ ← guard_err (bool_decide (opt_column attr "logical_request_fingerprint" = Some fingerprint) &&
                 bool_decide (opt_column attr "logical_request_id" = Some (ic_logical_request_id c)))
        (UserInferenceQuotaConflict "request id replay has different logical semantics");
  match get_window b owner (rv_window_epoch existing) with
  | None => Err (UserInferenceQuotaConflict "replayed inference reservation lost its window")
  | Some window =>
      match get_policy b owner (wr_governing_policy_id window) with
      | None => Err (UserBudgetPolicyAuthorityConflict "replayed inference window lost policy authority")
      | Some policy =>
          amounts ← amounts_of e (bool_decide (is_Some (pr_max_compute_atomic policy)))
                      (bool_decide (is_Some (pr_max_cost_usd_atomic policy)));
          keys ← replay_keys b owner (rv_window_epoch existing) c fingerprint amounts;
          mret {| ia_owner_user_id := owner; ia_logical_request_id := ic_logical_request_id c;
                  ia_logical_request_fingerprint := fingerprint; ia_window_epoch := rv_window_epoch existing;
                  ia_reservation_keys := keys; ia_replayed := true;
                  ia_inference_reservation_state := rv_state existing |}
      end
  end.

(** The limits of the policy, with what is used, what is pending and what is asked for. *)
Definition check_inference_limits (policy : UserBudgetPolicyRecord) (u : WindowUsage)
    (pending_input pending_output : Z) (e : InferenceQuotaEstimate) (compute_atomic cost_atomic : Z)
    : result UBError unit :=
  _ ← guard_err (negb (over_limit (pr_max_inference_calls policy) (inference_used u + inference_reserved u + 1)))
        UserInferenceQuotaExceeded;
  _ ← guard_err (negb (over_limit (pr_max_input_tokens policy)
                         (input_tokens_used u + pending_input + es_input_tokens e)))
        (UserTokenQuotaExceeded "input-token quota exhausted");
  _ ← guard_err (negb (over_limit (pr_max_output_tokens policy)
                         (output_tokens_used u + pending_output + es_output_tokens e)))
        (UserTokenQuotaExceeded "output-token quota exhausted");
  _ ← guard_err (negb (over_limit (pr_max_total_tokens policy)
                         (total_tokens_used u + tokens_reserved u + es_total_tokens e)))
        (UserTokenQuotaExceeded "total-token quota exhausted");
  _ ← guard_err (negb (over_limit (pr_max_compute_atomic policy)
                         (compute_used_atomic u + compute_reserved_atomic u + compute_atomic)))
        UserComputeQuotaExceeded;
  guard_err (negb (over_limit (pr_max_cost_usd_atomic policy)
                     (cost_used_atomic u + cost_reserved_atomic u + cost_atomic)))
    UserCostQuotaExceeded.

(** The reservations of a request, in the order of its amounts. *)
Fixpoint reserve_amounts (b : UserBudgetDB) (owner : string) (epoch : Z) (c : InferenceQuotaContext)
    (fingerprint : string) (amounts : list (UserBudgetResourceKind * Z))
    : result UBError (UserBudgetDB * list (UserBudgetResourceKind * string)) :=
  match amounts with
  | [] => Ok (b, [])
  | (kind, amount) :: l =>
      let intent := inference_intent owner epoch c fingerprint kind amount in
      _ ← guard_err (intent_valid intent) (UBValueError "UserBudgetReservationIntent");
      reserved ← create_or_get_reservation digest b intent;
      _ ← verify_row (snd reserved) intent;
      rest ← reserve_amounts (fst reserved) owner epoch c fingerprint l;
      mret (fst rest, (kind, ui_idempotency_key intent) :: snd rest)
  end.

(** The reserved counters of the window after the admission. *)
Definition reserve_targets (u : WindowUsage) (e : InferenceQuotaEstimate) (compute_atomic cost_atomic : Z)
    : list (UsageField * Z) :=
  [(F_inference_reserved, inference_reserved u + 1); (F_tokens_reserved, tokens_reserved u + es_total_tokens e)] ++
  (if compute_atomic =? 0 then [] else [(F_compute_reserved_atomic, compute_reserved_atomic u + compute_atomic)]) ++
  (if cost_atomic =? 0 then [] else [(F_cost_reserved_atomic, cost_reserved_atomic u + cost_atomic)]).

(** The new reservations in the current window. *)
Definition admit_inference (b : UserBudgetDB) (owner : string) (account : UserBudgetAccountRecord)
    (c : InferenceQuotaContext) (fingerprint : string) (e : InferenceQuotaEstimate) (now : Z)
    : result UBError (UserBudgetDB * InferenceQuotaAdmission) :=
  opened ← current_window b owner account now;
  let '(b1, window) := opened in
  policy ← governing_policy b1 owner window "active inference window has invalid policy authority";
  _ ← guard_err (negb (is_recognized_shadow_policy digest policy))
        (UserBudgetPolicyAuthorityConflict
           "automatic UBQ-2 shadow policy cannot authorize canonical inference quota admission");
  amounts ← amounts_of e (bool_decide (is_Some (pr_max_compute_atomic policy)))
              (bool_decide (is_Some (pr_max_cost_usd_atomic policy)));
  pending_input ← sum_pending_reservation_amount b1 owner (wr_epoch window) K_INPUT_TOKEN;
  pending_output ← sum_pending_reservation_amount b1 owner (wr_epoch window) K_OUTPUT_TOKEN;
  let compute_atomic := amount_of K_COMPUTE_UNIT amounts in
  let cost_atomic := amount_of K_COST_USD amounts in
  _ ← check_inference_limits policy (wr_usage window) pending_input pending_output e compute_atomic cost_atomic;
  reserved ← reserve_amounts b1 owner (wr_epoch window) c fingerprint amounts;
  charged ← mutate_window_usage (fst reserved) owner (wr_epoch window) (wr_revision window)
              (reserve_targets (wr_usage window) e compute_atomic cost_atomic);
  mret (fst charged,
        {| ia_owner_user_id := owner; ia_logical_request_id := ic_logical_request_id c;
           ia_logical_request_fingerprint := fingerprint; ia_window_epoch := wr_epoch window;
           ia_reservation_keys := snd reserved; ia_replayed := false;
           ia_inference_reservation_state := S_RESERVED |}).

(** One attempt of [reserve]; a winner that is found under the lock rolls it back. *)
Definition reserve_inference_attempt (c : InferenceQuotaContext) (fingerprint : string)
    (e : InferenceQuotaEstimate) (now : Z) (snapshot db : QuotaDB)
    : result UBError (QuotaDB * option InferenceQuotaAdmission) :=
  owner ← resolve_inference_owner snapshot c;
  let key := inference_key (ic_logical_request_id c) K_INFERENCE_CALL in
  match get_reservation (qd_budgets snapshot) owner key with
  | Some existing =>
      admission ← replay_inference (qd_budgets snapshot) owner c fingerprint e existing;
      mret (db, Some admission)
  | None =>
      _ ← require_no_unmigrated_historical_inference snapshot owner c;
      match get_account (qd_budgets db) owner with
      | None => Err (UserBudgetPolicyAuthorityConflict "inference quota owner has no selected UBQ policy")
      | Some account =>
          _ ← guard_err (bool_decide (is_Some (ar_next_policy_id account)))
                (UserBudgetPolicyAuthorityConflict "inference quota owner has no selected UBQ policy");
          match get_reservation (qd_budgets db) owner key with
          | Some _ => mret (db, None)
          | None =>
              admitted ← admit_inference (qd_budgets db) owner account c fingerprint e now;
              mret (set_budgets db (fst admitted), Some (snd admitted))
          end
      end
  end.

(** [UserInferenceQuotaService.reserve] *)
Definition reserve (settings : InferenceQuotaSettings) (context : option InferenceQuotaContext)
    (body : list (string * PyValue)) (streaming_mode : bool) (now : Z) (weather : nat -> Weather) (db : QuotaDB)
    : QuotaDB * result UBError (option InferenceQuotaAdmission) :=
  if negb (iq_enabled settings) then (db, Ok None)
  else
    match context with
    | None => (db, Err (UserInferenceQuotaContext "governed inference is missing trusted quota context"))
    | Some c =>
        match (fingerprint ← logical_fingerprint settings body c streaming_mode;
               e ← estimate settings body; mret (fingerprint, e)) with
        | Err err => (db, Err err)
        | Ok (fingerprint, e) =>
            let '(db', r) := retry_loop (reserve_inference_attempt c fingerprint e now) weather
                               (retries_of (iq_max_conflict_retries settings)) 0 db in
            (db', Some <$> r)
        end
    end.

(** ** Usage and settlement *)

(** The usage of a provider's response, with the fields it set. *)
Record GatewayUsage := {
  gu_prompt_tokens : Z;
  gu_completion_tokens : Z;
  gu_total_tokens : Z;
  gu_fields_set : list string
}.

(** The dimensions of a usage whose set fields are [fields]. *)
Definition normalize_usage (settings : InferenceQuotaSettings) (usage : option GatewayUsage)
    (fields : list string) (provider model : option string) : NormalizedInferenceUsage :=
  let pick (name : string) (get : GatewayUsage -> Z) :=
    u ← usage; if bool_decide (name ∈ fields) then Some (get u) else None in
  let input := pick "prompt_tokens" gu_prompt_tokens in
  let output := pick "completion_tokens" gu_completion_tokens in
  let total := pick "total_tokens" gu_total_tokens in
  {| nu_input_tokens := input; nu_output_tokens := output;
     nu_total_tokens := match total, input, output with
                        | None, Some i, Some o => Some (i + o)
                        | _, _, _ => total
                        end;
     nu_compute_units := None; nu_cost_usd := None;
     nu_normalization_identity := normalization_identity settings;
     nu_provider := provider; nu_model := model |}.

Definition fields_set (usage : option GatewayUsage) : list string :=
  match usage with Some u => gu_fields_set u | None => [] end.

Definition normalize_gateway_usage (settings : InferenceQuotaSettings) (usage : option GatewayUsage)
    (provider model : option string) : NormalizedInferenceUsage :=
  let fields := if bool_decide (provider = Some "mock")
                then fields_set usage ++ ["prompt_tokens"; "completion_tokens"; "total_tokens"]
                else fields_set usage in
  normalize_usage settings usage fields provider model.

Definition normalize_stream_usage (settings : InferenceQuotaSettings) (usage : option GatewayUsage)
    (provider model : option string) : NormalizedInferenceUsage :=
  normalize_usage settings usage (fields_set usage) provider model.

(** The actual usage of each resource. *)
Record Actuals := { ac_of : UserBudgetResourceKind -> option Z }.

Definition actuals_of (u : NormalizedInferenceUsage) : result UBError Actuals :=
  let atomic (o : option Decimal) : result UBError (option Z) :=
    match o with Some d => q ← decimal_to_atomic d false; mret (Some q) | None => mret None end in
  compute ← atomic (nu_compute_units u);
  cost ← atomic (nu_cost_usd u);
  mret {| ac_of := fun kind =>
    match kind with
    | K_INFERENCE_CALL => Some 1
    | K_INPUT_TOKEN => nu_input_tokens u
    | K_OUTPUT_TOKEN => nu_output_tokens u
    | K_TOTAL_TOKEN => nu_total_tokens u
    | K_COMPUTE_UNIT => compute
    | K_COST_USD => cost
    | K_TOOL_CALL => None
    end |}.

(** The counter a settled amount is added to, and the one a reserved amount is taken from. *)
Definition used_field (kind : UserBudgetResourceKind) : UsageField :=
  match kind with
  | K_INFERENCE_CALL => F_inference_used
  | K_INPUT_TOKEN => F_input_tokens_used
  | K_OUTPUT_TOKEN => F_output_tokens_used
  | K_TOTAL_TOKEN => F_total_tokens_used
  | K_TOOL_CALL => F_tool_calls_used
  | K_COMPUTE_UNIT => F_compute_used_atomic
  | K_COST_USD => F_cost_used_atomic
  end.

Definition reserved_field (kind : UserBudgetResourceKind) : option UsageField :=
  match kind with
  | K_INFERENCE_CALL => Some F_inference_reserved
  | K_TOTAL_TOKEN => Some F_tokens_reserved
  | K_TOOL_CALL => Some F_tool_calls_reserved
  | K_COMPUTE_UNIT => Some F_compute_reserved_atomic
  | K_COST_USD => Some F_cost_reserved_atomic
  | K_INPUT_TOKEN | K_OUTPUT_TOKEN => None
  end.

(** The loop over the keys: the reservations to settle, with their actual usage.  An unknown
    usage stays reserved, and what is settled already must agree. *)
Fixpoint settle_rows (b : UserBudgetDB) (a : InferenceQuotaAdmission) (actuals : Actuals)
    (keys : list (UserBudgetResourceKind * string))
    : result UBError (list (UserBudgetResourceKind * UserBudgetReservationRecord * Z)) :=
  match keys with
  | [] => Ok []
  | (kind, key) :: l =>
      match get_reservation b (ia_owner_user_id a) key with
      | None => Err (UserInferenceQuotaConflict "missing reservation")
      | Some row =>
          let attr := rv_attribution_json row in
          _ ← guard_err (bool_decide (opt_column attr "logical_request_fingerprint" =
                                      Some (ia_logical_request_fingerprint a)) &&
                         bool_decide (opt_column attr "logical_request_id" = Some (ia_logical_request_id a)))
                (UserInferenceQuotaConflict "settlement reservation lineage mismatch");
          match ac_of actuals kind with
          | None => settle_rows b a actuals l
          | Some actual =>
              _ ← guard_err (negb (actual <? 0)) (UserInferenceQuotaConflict "normalized usage cannot be negative");
              if bool_decide (rv_state row = S_SETTLED) then
                _ ← guard_err (default 0 (rv_settled_amount_atomic row) =? actual)
                      (UserInferenceQuotaConflict "settled replay has different actual usage");
                settle_rows b a actuals l
              else
                _ ← guard_err (bool_decide (rv_state row = S_RESERVED))
                      (UserInferenceQuotaConflict "quota reservation is terminal/incompatible");
                rest ← settle_rows b a actuals l;
                mret ((kind, row, actual) :: rest)
          end
      end
  end.

Definition Settlement : Type := UserBudgetResourceKind * UserBudgetReservationRecord * Z.

(** [deltas] and [reserved_decrements] *)
Definition used_delta (f : UsageField) (l : list Settlement) : Z :=
  foldr (fun t acc => (if bool_decide (used_field t.1.1 = f) then t.2 else 0) + acc) 0 l.

Definition reserved_decrement (f : UsageField) (l : list Settlement) : Z :=
  foldr (fun t acc => (if bool_decide (reserved_field t.1.1 = Some f)
                       then rv_reserved_amount_atomic t.1.2 else 0) + acc) 0 l.

Definition used_targets (u : WindowUsage) (l : list Settlement) : list (UsageField * Z) :=
  omap (fun f => if used_delta f l =? 0 then None else Some (f, usage_get f u + used_delta f l))
    [F_inference_used; F_input_tokens_used; F_output_tokens_used; F_total_tokens_used;
     F_compute_used_atomic; F_cost_used_atomic].

Definition decremented_fields : list UsageField :=
  [F_inference_reserved; F_tokens_reserved; F_compute_reserved_atomic; F_cost_reserved_atomic].

Definition reserved_targets (u : WindowUsage) (l : list Settlement) : result UBError (list (UsageField * Z)) :=
  _ ← guard_err (forallb (fun f => reserved_decrement f l <=? usage_get f u)
                   (List.filter (fun f => negb (reserved_decrement f l =? 0)) decremented_fields))
        (UserInferenceQuotaConflict "reserved counter underflow");
  mret (omap (fun f => if reserved_decrement f l =? 0 then None
                       else Some (f, usage_get f u - reserved_decrement f l)) decremented_fields).

Fixpoint settle_transitions (b : UserBudgetDB) (owner : string) (now : Z) (l : list Settlement)
    : result UBError UserBudgetDB :=
  match l with
  | [] => Ok b
  | (_, row, actual) :: l' =>
      moved ← transition_reservation b owner (rv_idempotency_key row) (rv_revision row) S_SETTLED
                (Some actual) (Some now);
      settle_transitions (fst moved) owner now l'
  end.

(** One attempt of [settle_success]. *)
Definition settle_attempt (a : InferenceQuotaAdmission) (actuals : Actuals) (now : Z) (_ db : QuotaDB)
    : result UBError (QuotaDB * unit) :=
  let b := qd_budgets db in
  match get_window b (ia_owner_user_id a) (ia_window_epoch a) with
  | None => Err (UserInferenceQuotaConflict "inference settlement window is missing")
  | Some window =>
      settlements ← settle_rows b a actuals (ia_reservation_keys a);
      decrements ← reserved_targets (wr_usage window) settlements;
      let targets := used_targets (wr_usage window) settlements ++ decrements in
      b1 ← (if bool_decide (targets = []) then mret b
            else
              charged ← mutate_window_usage b (ia_owner_user_id a) (ia_window_epoch a) (wr_revision window) targets;
              mret (fst charged));
      b2 ← settle_transitions b1 (ia_owner_user_id a) now settlements;
      mret (set_budgets db b2, tt)
  end.

Definition settle_success (settings : InferenceQuotaSettings) (admission : option InferenceQuotaAdmission)
    (usage : NormalizedInferenceUsage) (now : Z) (weather : nat -> Weather) (db : QuotaDB)
    : QuotaDB * result UBError unit :=
  match admission with
  | None => (db, Ok tt)
  | Some a =>
      match (_ ← guard_err (bool_decide (nu_normalization_identity usage = normalization_identity settings))
                   (UserInferenceQuotaConflict "usage normalization identity mismatch");
             actuals_of usage) with
      | Err err => (db, Err err)
      | Ok actuals =>
          retry_loop (always (settle_attempt a actuals now)) weather
            (retries_of (iq_max_conflict_retries settings)) 0 db
      end
  end.
End InferenceQuota.
