(* ===== verification/CanonicalInjectivity.v ===== *)
(** * Canonical JSON texts are injective

    A JSON string can be read back from its text, and so can the values of an object whose
    values are strings: two such objects with the same keys and the same text are equal.
    Together with a digest without collisions this makes the identities that the program
    derives from such objects unique. *)

From S2P Require Import Prelude Canonical.

(** ** Reading a string back *)

Definition hex_value (a : Ascii.ascii) : nat :=
  let n := Ascii.nat_of_ascii a in if (n <? 58)%nat then (n - 48)%nat else (n - 87)%nat.

(** The character a short escape stands for. *)
Definition short_escape (d : Ascii.ascii) : Ascii.ascii :=
  Ascii.ascii_of_nat
    (if (Ascii.eqb d "b") then 8 else if (Ascii.eqb d "t") then 9 else if (Ascii.eqb d "n") then 10
     else if (Ascii.eqb d "f") then 12 else if (Ascii.eqb d "r") then 13 else Ascii.nat_of_ascii d)%nat.

(** The next character of the text inside a JSON string. *)
Definition unescape (s : string) : option (Ascii.ascii * string) :=
  match s with
  | String c r =>
      if Ascii.eqb c quote_char then None
      else if Ascii.eqb c backslash then
        match r with
        | String d r' =>
            if Ascii.eqb d "u" then
              match r' with
              | String _ (String _ (String h (String l r''))) =>
                  Some (Ascii.ascii_of_nat (16 * hex_value h + hex_value l), r'')
              | _ => None
              end
            else Some (short_escape d, r')
        | EmptyString => None
        end
      else Some (c, r)
  | EmptyString => None
  end.

Lemma unescape_escape ascii a s : unescape (String.append (escape_char ascii a) s) = Some (a, s).
Proof. destruct ascii, a as [[] [] [] [] [] [] [] []]; reflexivity. Qed.

Lemma append_assoc_r (a b c : string) : String.append (String.append a b) c = String.append a (String.append b c).
Proof. induction a as [|x a IH]; [done|]. exact (f_equal (String x) IH). Qed.

Lemma escape_string_inj ascii s s' r r' :
  String.append (escape_string ascii s) (String quote_char r) = String.append (escape_string ascii s') (String quote_char r') ->
  s = s' /\ r = r'.
Proof.
  revert s'. induction s as [|a s IH]; intros [|b s'] H; simpl in H.
  - by simplify_eq.
  - apply (f_equal unescape) in H. by rw append_assoc_r unescape_escape in H.
  - apply (f_equal unescape) in H. by rw append_assoc_r unescape_escape in H.
  - apply (f_equal unescape) in H. rw !append_assoc_r !unescape_escape in H.
    injection H as -> H. by destruct (IH _ H) as [-> ->].
Qed.

(** A string literal is the first thing in its text. *)
Lemma dumps_string_inj ascii s s' r r' :
  String.append (dumps_string ascii s) r = String.append (dumps_string ascii s') r' -> s = s' /\ r = r'.
Proof.
  unfold dumps_string. simpl. intros H. injection H as H.
  rw !append_assoc_r in H. by apply escape_string_inj in H.
Qed.

(** ** Objects of strings *)

(** Lists of fields with the same keys. *)
Definition aligned {A} (l l' : list (string * A)) : Prop := Forall2 (fun x y => x.1 = y.1) l l'.

Lemma insert_aligned {A} k (v v' : A) l l' :
  aligned l l' -> aligned (insert_field k v l) (insert_field k v' l').
Proof.
  induction 1 as [|[a x] [b y] l l' Hk H IH]; simpl in *; [by repeat constructor|].
  subst b. destruct (string_leb k a); constructor; try done. by constructor.
Qed.

Lemma sort_aligned {A} (l l' : list (string * A)) : aligned l l' -> aligned (sort_fields l) (sort_fields l').
Proof.
  induction 1 as [|[a x] [b y] l l' Hk H IH]; simpl in *; [constructor|].
  subst b. by apply insert_aligned.
Qed.

Lemma insert_inj {A} k (v v' : A) l l' :
  aligned l l' -> insert_field k v l = insert_field k v' l' -> v = v' /\ l = l'.
Proof.
  induction 1 as [|[a x] [b y] l l' Hk H IH]; simpl in *; intros E; [by simplify_eq|].
  subst b. destruct (string_leb k a); [by simplify_eq|].
  injection E as -> E. by destruct (IH E) as [-> ->].
Qed.

Lemma sort_inj {A} (l l' : list (string * A)) : aligned l l' -> sort_fields l = sort_fields l' -> l = l'.
Proof.
  induction 1 as [|[a x] [b y] l l' Hk H IH]; simpl in *; intros E; [done|]. subst b.
  apply insert_inj in E as [-> E]; [|by apply sort_aligned]. by rw (IH E).
Qed.

(** One member of an object. *)
Definition member (ascii : bool) (kv : string * string) : string :=
  String.append (dumps_string ascii kv.1) (String ":"%char (dumps_string ascii kv.2)).

Lemma member_inj ascii a x y r r' :
  String.append (member ascii (a, x)) r = String.append (member ascii (a, y)) r' -> x = y /\ r = r'.
Proof.
  unfold member. simpl. intros E. rw !append_assoc_r in E.
  apply dumps_string_inj in E as [_ E]. simpl in E. injection E as E.
  rw !append_assoc_r in E. by apply escape_string_inj in E.
Qed.

#[local] Opaque member.

Lemma members_inj ascii l l' :
  aligned l l' ->
  String.append (join_comma (map (member ascii) l)) "}" = String.append (join_comma (map (member ascii) l')) "}" -> l = l'.
Proof.
  induction 1 as [|[a x] [b y] l l' Hk H IH]; intros E; [done|]. simpl in Hk. subst b.
  destruct H as [|p q l2 l2' Hk2 H2].
  - by apply member_inj in E as [-> _].
  - cbn [map join_comma] in E. rw (append_assoc_r (member ascii (a, x))) (append_assoc_r (member ascii (a, y))) in E.
    apply member_inj in E as [-> E]. injection E as E. f_equal. by apply IH.
Qed.

(** An object with the keys [ks] and string values. *)
Definition string_object (ks vs : list string) : json := JObj (zip ks (map JStr vs)).

Lemma dumps_string_object ascii ks vs :
  dumps ascii (string_object ks vs) =
  String "{"%char (String.append (join_comma (map (fun kv : string * string =>
    String.append (dumps_string ascii kv.1) (String ":"%char kv.2)) (sort_fields (zip ks (map (dumps_string ascii) vs))))) "}").
Proof.
  assert (E : map (fun '(k, v) => (k, dumps ascii v)) (zip ks (map JStr vs)) = zip ks (map (dumps_string ascii) vs)).
  { revert vs. induction ks as [|k ks IH]; intros [|v vs]; simpl; [done..|]. f_equal. apply IH. }
  rw -E. transitivity (String "{"%char (String.append (join_comma (map (fun '(k, v) =>
    String.append (dumps_string ascii k) (String ":"%char v)) (sort_fields
      (map (fun '(k, v) => (k, dumps ascii v)) (zip ks (map JStr vs)))))) "}")); [reflexivity|].
  do 3 f_equal. apply map_ext. by intros [k v].
Qed.

Lemma sort_map {A B} (f : A -> B) l :
  sort_fields (map (fun kv : string * A => (kv.1, f kv.2)) l) = map (fun kv : string * A => (kv.1, f kv.2)) (sort_fields l).
Proof.
  induction l as [|[k v] l IH]; simpl; [done|]. rw IH. generalize (sort_fields l) as m. clear.
  intros m. induction m as [|[k' v'] m IH]; simpl; [done|]. by destruct (string_leb k k'); simpl; [|rw IH].
Qed.

Lemma zip_map_snd {A B} (f : A -> B) (ks : list string) (vs : list A) :
  zip ks (map f vs) = map (fun kv : string * A => (kv.1, f kv.2)) (zip ks vs).
Proof. revert vs. induction ks as [|k ks IH]; intros [|v vs]; simpl; [done..|]. f_equal. apply IH. Qed.

Lemma zip_aligned {A} (ks : list string) (vs vs' : list A) :
  length vs = length vs' -> aligned (zip ks vs) (zip ks vs').
Proof.
  revert vs vs'. induction ks as [|k ks IH]; intros [|v vs] [|v' vs'] H; simpl in *;
    [constructor|constructor|constructor|constructor|constructor|done|done|].
  constructor; [done|]. apply IH. lia.
Qed.

Lemma dumps_members ascii ks vs :
  dumps ascii (string_object ks vs) =
  String "{"%char (String.append (join_comma (map (member ascii) (sort_fields (zip ks vs)))) "}").
Proof. rw dumps_string_object zip_map_snd sort_map map_map. done. Qed.

(** Objects of strings with the same keys have the same text only when they are equal. *)
Lemma string_object_inj ascii ks vs vs' :
  length vs = length ks -> length vs' = length ks ->
  dumps ascii (string_object ks vs) = dumps ascii (string_object ks vs') -> vs = vs'.
Proof.
  intros H H' E. rw !dumps_members in E. injection E as E.
  assert (Ha : aligned (zip ks vs) (zip ks vs')) by (apply zip_aligned; lia).
  apply members_inj in E; [|by apply sort_aligned]. apply sort_inj in E; [|done].
  rw -(snd_zip ks vs); [lia|]. rw -(snd_zip ks vs'); [lia|]. by rw E.
Qed.
