(* ===== verification/UserBudgetLedger.v ===== *)
(** * The ledger of user budgets

    A window's counters, and the calls counted per capability, are a summary of the
    reservations made in the window.  [gap] is the difference between a counter and that
    summary; this file computes how every operation of the repository changes it, and that no
    operation rewrites history ([extends]). *)

From S2P Require Import Prelude Canonical TaskBudgetSchema AgentStore UserBudget UserBudgetAuthority.
From S2P Require Import UserToolQuota UserInferenceQuota.

(** ** Sums over a table *)

Section MapSum.
Context {K V : Type} `{Countable K} (g : V -> Z).

Definition map_sum (m : gmap K V) : Z := map_fold (fun _ v acc => g v + acc) 0 m.

Lemma map_sum_empty : map_sum ∅ = 0.
Proof. apply map_fold_empty. Qed.

Lemma map_sum_insert m k v : m !! k = None -> map_sum (<[k := v]> m) = g v + map_sum m.
Proof. intros Hk. unfold map_sum. apply (map_fold_insert_L (fun _ v acc => g v + acc)); [intros; lia|done]. Qed.

Lemma map_sum_update m k v0 v : m !! k = Some v0 -> map_sum (<[k := v]> m) = map_sum m + g v - g v0.
Proof.
  intros Hk. rw -(insert_delete_id m k v0) // insert_insert_eq.
  rw !map_sum_insert; [apply lookup_delete_eq..|]. lia.
Qed.

Lemma map_sum_rows m : foldr (fun v acc => g v + acc) 0 (map snd (map_to_list m)) = map_sum m.
Proof.
  unfold map_sum. rw map_fold_foldr. induction (map_to_list m) as [|[k v] l IH]; simpl; [done|]. by rw IH.
Qed.

Lemma map_sum_nonneg m : map_Forall (fun _ v => 0 <= g v) m -> 0 <= map_sum m.
Proof.
  induction m as [|k v m Hk IH] using map_ind; intros Hm; [by rw map_sum_empty|].
  rw map_sum_insert //. apply map_Forall_insert in Hm as [? ?]; [|done]. specialize (IH ltac:(done)). lia.
Qed.

Lemma map_sum_member m k v : map_Forall (fun _ v => 0 <= g v) m -> m !! k = Some v -> g v <= map_sum m.
Proof.
  intros Hm Hk. rw -(insert_delete_id m k v) // map_sum_insert; [apply lookup_delete_eq|].
  assert (0 <= map_sum (delete k m)); [|lia]. apply map_sum_nonneg. by apply map_Forall_delete.
Qed.
End MapSum.

(** ** Counters and gaps *)

(** The counters of an owner's window: its columns, and the calls of a capability. *)
Inductive Counter :=
  | CField (f : UsageField)
  | CToolUsed (capability_id : string)
  | CToolReserved (capability_id : string).

Definition counter_at (db : UserBudgetDB) (owner : string) (epoch : Z) (c : Counter) : Z :=
  match c with
  | CField f => from_option (fun w => usage_get f (wr_usage w)) 0 (get_window db owner epoch)
  | CToolUsed cap => from_option tu_used_calls 0 (get_tool_usage db owner epoch cap)
  | CToolReserved cap => from_option tu_reserved_calls 0 (get_tool_usage db owner epoch cap)
  end.

(** The counters to which a reservation of this kind is charged. *)
Definition charges_used (kind : UserBudgetResourceKind) (cap : option string) (c : Counter) : bool :=
  match c with
  | CField f => bool_decide (used_field kind = f)
  | CToolUsed cap' => bool_decide (kind = K_TOOL_CALL) && bool_decide (cap = Some cap')
  | CToolReserved _ => false
  end.

Definition charges_reserved (kind : UserBudgetResourceKind) (cap : option string) (c : Counter) : bool :=
  match c with
  | CField f => bool_decide (reserved_field kind = Some f)
  | CToolReserved cap' => bool_decide (kind = K_TOOL_CALL) && bool_decide (cap = Some cap')
  | CToolUsed _ => false
  end.

(** What a reservation contributes to a counter of its window. *)
Definition contribution (c : Counter) (r : UserBudgetReservationRecord) : Z :=
  match rv_state r with
  | S_SETTLED => if charges_used (rv_resource_kind r) (rv_capability_id r) c
                 then default 0 (rv_settled_amount_atomic r) else 0
  | S_RESERVED => if charges_reserved (rv_resource_kind r) (rv_capability_id r) c
                  then rv_reserved_amount_atomic r else 0
  | _ => 0
  end.

Definition in_window (owner : string) (epoch : Z) (r : UserBudgetReservationRecord) : bool :=
  bool_decide (rv_owner_user_id r = owner) && (rv_window_epoch r =? epoch).

Definition contribution_at (owner : string) (epoch : Z) (c : Counter) (r : UserBudgetReservationRecord) : Z :=
  if in_window owner epoch r then contribution c r else 0.

(** The counter as the reservations determine it. *)
Definition ledger_total (db : UserBudgetDB) (owner : string) (epoch : Z) (c : Counter) : Z :=
  map_sum (contribution_at owner epoch c) (ub_reservations db).

Definition gap (db : UserBudgetDB) (owner : string) (epoch : Z) (c : Counter) : Z :=
  counter_at db owner epoch c - ledger_total db owner epoch c.

Definition ind (b : bool) (z : Z) : Z := if b then z else 0.

(** ** Reading results *)

Ltac ub_inv :=
  repeat match goal with
  | H : (guard_err _ _ ≫= _) = Ok _ |- _ => apply guard_bind_ok in H as [? H]
  | H : (_ ≫= _) = Ok _ |- _ =>
      let x := fresh "x" in let Hx := fresh "Hx" in apply bind_ok in H as (x & Hx & H)
  | H : guard_err _ _ = Ok _ |- _ => unfold guard_err in H
  | H : mret _ = Ok _ |- _ => unfold mret, result_ret in H
  | H : Ok _ = Ok _ |- _ => injection H as H
  | H : Err _ = Ok _ |- _ => discriminate H
  | H : (if _ then _ else _) = Ok _ |- _ => crush_step_in H
  | H : match _ with _ => _ end = Ok _ |- _ => crush_step_in H
  end; simplify_eq/=.

(** ** Keys *)

(** Every row is stored under its own key. *)
Record keyed (db : UserBudgetDB) : Prop := {
  keyed_windows o e w : ub_windows db !! (o, e) = Some w -> wr_owner_user_id w = o /\ wr_epoch w = e;
  keyed_accounts o a : ub_accounts db !! o = Some a -> ar_owner_user_id a = o;
  keyed_policies i p : ub_policies db !! i = Some p -> pr_policy_id p = i;
  keyed_reservations o k r :
    ub_reservations db !! (o, k) = Some r -> rv_owner_user_id r = o /\ rv_idempotency_key r = k;
  keyed_receipts k r : ub_receipts db !! k = Some r -> receipt_key r = k;
  keyed_bindings t b : ub_bindings db !! t = Some b -> bd_task_id b = t
}.

(** ** History *)

(** The columns of a reservation that never change; once it is settled or released, none
    does. *)
Definition same_reservation (r r' : UserBudgetReservationRecord) : Prop :=
  rv_reservation_id r' = rv_reservation_id r /\ rv_owner_user_id r' = rv_owner_user_id r /\
  rv_window_epoch r' = rv_window_epoch r /\ rv_idempotency_key r' = rv_idempotency_key r /\
  rv_resource_kind r' = rv_resource_kind r /\ rv_capability_id r' = rv_capability_id r /\
  rv_reserved_amount_atomic r' = rv_reserved_amount_atomic r /\
  rv_attribution_json r' = rv_attribution_json r /\ rv_payload_fingerprint r' = rv_payload_fingerprint r /\
  (rv_state r <> S_RESERVED -> r' = r).

(** A window keeps its policy and its times, and a closed window stays closed. *)
Definition same_window (w w' : UserBudgetWindowRecord) : Prop :=
  wr_owner_user_id w' = wr_owner_user_id w /\ wr_epoch w' = wr_epoch w /\
  wr_governing_policy_id w' = wr_governing_policy_id w /\
  wr_governing_policy_fingerprint w' = wr_governing_policy_fingerprint w /\
  wr_started_at w' = wr_started_at w /\ wr_expires_at w' = wr_expires_at w /\
  (wr_state w = W_CLOSED -> wr_state w' = W_CLOSED /\ wr_closed_at w' = wr_closed_at w).

Definition kept {K V : Type} `{Countable K} (R : V -> V -> Prop) (m m' : gmap K V) : Prop :=
  forall k v, m !! k = Some v -> exists v', m' !! k = Some v' /\ R v v'.

Record extends (db db' : UserBudgetDB) : Prop := {
  ex_policies : kept eq (ub_policies db) (ub_policies db');
  ex_windows : kept same_window (ub_windows db) (ub_windows db');
  ex_accounts : kept (fun a a' => ar_next_window_epoch a <= ar_next_window_epoch a')
                  (ub_accounts db) (ub_accounts db');
  ex_reservations : kept same_reservation (ub_reservations db) (ub_reservations db');
  ex_bindings : kept eq (ub_bindings db) (ub_bindings db');
  ex_receipts : kept eq (ub_receipts db) (ub_receipts db')
}.

Section Kept.
Context {K V : Type} `{Countable K} (R : V -> V -> Prop).
Implicit Types (m : gmap K V).

Lemma kept_refl m : (forall v, R v v) -> kept R m m.
Proof. intros HR k v Hk. by exists v. Qed.

Lemma kept_trans m1 m2 m3 :
  (forall a b c, R a b -> R b c -> R a c) -> kept R m1 m2 -> kept R m2 m3 -> kept R m1 m3.
Proof. intros HR H1 H2 k v Hk. destruct (H1 _ _ Hk) as (v2 & Hk2 & ?), (H2 _ _ Hk2) as (v3 & ? & ?). eauto. Qed.

Lemma kept_insert m k v :
  (forall v, R v v) -> (forall v0, m !! k = Some v0 -> R v0 v) -> kept R m (<[k := v]> m).
Proof.
  intros HR Hv k' v' Hk'. destruct (decide (k = k')) as [<-|Hne].
  - exists v. rw lookup_insert_eq. auto.
  - exists v'. rw lookup_insert_ne //.
Qed.
End Kept.

Lemma same_reservation_refl r : same_reservation r r.
Proof. by repeat split. Qed.

Lemma same_reservation_trans a b c : same_reservation a b -> same_reservation b c -> same_reservation a c.
Proof.
  unfold same_reservation. intros H1 H2. decompose [and] H1. decompose [and] H2. repeat split; try congruence.
  intros Ha. match goal with H : rv_state a <> _ -> _ |- _ => pose proof (H Ha) end. subst b. auto.
Qed.

Lemma same_window_refl w : same_window w w.
Proof. by repeat split. Qed.

Lemma same_window_trans a b c : same_window a b -> same_window b c -> same_window a c.
Proof.
  unfold same_window. intros H1 H2. decompose [and] H1. decompose [and] H2.
  repeat (split; [congruence|]). intros Ha.
  match goal with H : wr_state a = _ -> _ |- _ => destruct (H Ha) as [Hb Hc] end.
  match goal with H : wr_state b = _ -> _ |- _ => destruct (H Hb) as [? ?] end. split; congruence.
Qed.

#[global] Instance extends_refl : Reflexive extends.
Proof.
  intros db. split; apply kept_refl; auto using same_window_refl, same_reservation_refl. intros; lia.
Qed.

#[global] Instance extends_trans : Transitive extends.
Proof.
  intros a b c H1 H2. destruct H1, H2. split; eapply kept_trans; eauto;
    [congruence|apply same_window_trans|simpl; lia|apply same_reservation_trans|congruence|congruence].
Qed.

(** ** Effects of the repository *)

(** [db'] comes from [db], keeps its history, and its gaps differ by [delta]. *)
Record effect (db db' : UserBudgetDB) (delta : string -> Z -> Counter -> Z) : Prop := {
  ef_keyed : keyed db';
  ef_extends : extends db db';
  ef_gap o e c : gap db' o e c = gap db o e c + delta o e c
}.

Definition no_delta (_ : string) (_ : Z) (_ : Counter) : Z := 0.

Lemma effect_refl db : keyed db -> effect db db no_delta.
Proof. split; [done|done|]. unfold no_delta. intros; lia. Qed.

Lemma effect_trans a b c d1 d2 :
  effect a b d1 -> effect b c d2 -> effect a c (fun o e k => d1 o e k + d2 o e k).
Proof.
  intros [? ? G1] [? ? G2]. split; [done|by etrans|]. intros. rw G2 G1. lia.
Qed.

Lemma effect_eq a b d1 d2 : effect a b d1 -> (forall o e c, d1 o e c = d2 o e c) -> effect a b d2.
Proof. intros [? ? G] Hd. split; [done|done|]. intros. by rw G Hd. Qed.

(** An update that touches neither counters nor reservations. *)
Lemma gap_same db db' o e c :
  ub_windows db' = ub_windows db -> ub_tool_usage db' = ub_tool_usage db ->
  ub_reservations db' = ub_reservations db -> gap db' o e c = gap db o e c.
Proof.
  intros H1 H2 H3. unfold gap, ledger_total, counter_at, get_window, get_tool_usage. by rw H1 H2 H3.
Qed.

(** A row put under its own key, and the tables an update leaves alone. *)
Ltac keyed_put Hk :=
  destruct Hk; split; simpl; try done; intros;
  match goal with H : <[_ := _]> _ !! _ = Some _ |- _ =>
    apply lookup_insert_Some in H as [[? ?]|[? ?]]; [by simplify_eq|eauto] end.

Ltac kept_frame :=
  split; simpl; try (apply kept_refl; auto using same_window_refl, same_reservation_refl; simpl; lia).

Lemma put_policy_effect db i p :
  keyed db -> ub_policies db !! i = None -> pr_policy_id p = i ->
  effect db (with_policies db (<[i := p]> (ub_policies db))) no_delta.
Proof.
  intros Hk Hn Hi. split.
  - keyed_put Hk.
  - kept_frame.
    apply kept_insert; [done|]. intros v0 Hv. congruence.
  - intros. unfold no_delta. rw Z.add_0_r. by apply gap_same.
Qed.

Lemma put_account_effect db a :
  keyed db ->
  (forall a0, ub_accounts db !! ar_owner_user_id a = Some a0 ->
     ar_next_window_epoch a0 <= ar_next_window_epoch a) ->
  effect db (put_account db a) no_delta.
Proof.
  intros Hk Ha. split.
  - keyed_put Hk.
  - kept_frame.
    apply kept_insert; [intros; lia|done].
  - intros. unfold no_delta. rw Z.add_0_r. by apply gap_same.
Qed.

Lemma put_binding_effect db b :
  keyed db -> ub_bindings db !! bd_task_id b = None ->
  effect db (with_bindings db (<[bd_task_id b := b]> (ub_bindings db))) no_delta.
Proof.
  intros Hk Hn. split.
  - keyed_put Hk.
  - kept_frame.
    apply kept_insert; [done|]. intros v0 Hv. congruence.
  - intros. unfold no_delta. rw Z.add_0_r. by apply gap_same.
Qed.

Lemma put_receipt_effect db r :
  keyed db -> ub_receipts db !! receipt_key r = None ->
  effect db (with_receipts db (<[receipt_key r := r]> (ub_receipts db))) no_delta.
Proof.
  intros Hk Hn. split.
  - keyed_put Hk.
  - kept_frame.
    apply kept_insert; [done|]. intros v0 Hv. congruence.
  - intros. unfold no_delta. rw Z.add_0_r. by apply gap_same.
Qed.

Definition at_window (owner : string) (epoch : Z) (o : string) (e : Z) : bool :=
  bool_decide (o = owner) && (e =? epoch).

Lemma at_window_key owner epoch o e : at_window owner epoch o e = bool_decide ((owner, epoch) = (o, e)).
Proof.
  unfold at_window. apply bool_eq_iff. rw andb_true_iff bool_decide_eq_true Z.eqb_eq bool_decide_eq_true.
  naive_solver.
Qed.

(** The change of a window's columns. *)
Definition usage_delta (owner : string) (epoch : Z) (f : UsageField -> Z) (o : string) (e : Z) (c : Counter) : Z :=
  match c with CField g => ind (at_window owner epoch o e) (f g) | _ => 0 end.

Lemma put_window_effect db w u0 :
  keyed db ->
  from_option wr_usage no_usage (ub_windows db !! (wr_owner_user_id w, wr_epoch w)) = u0 ->
  (forall w0, ub_windows db !! (wr_owner_user_id w, wr_epoch w) = Some w0 -> same_window w0 w) ->
  effect db (put_window db w)
    (usage_delta (wr_owner_user_id w) (wr_epoch w) (fun g => usage_get g (wr_usage w) - usage_get g u0)).
Proof.
  intros Hk Hu Hw. split.
  - keyed_put Hk.
  - kept_frame.
    apply kept_insert; auto using same_window_refl.
  - intros o e c. unfold gap, ledger_total, usage_delta. simpl.
    destruct c as [g| |]; simpl; [|unfold get_tool_usage; simpl; lia..].
    rw at_window_key. unfold get_window, ind. simpl. case_bool_decide as E.
    + injection E as <- <-. rw lookup_insert_eq. simpl. subst u0.
      destruct (ub_windows db !! _); simpl; [lia|]. unfold no_usage. destruct g; simpl; lia.
    + rw lookup_insert_ne //. lia.
Qed.

(** The change of a capability's calls. *)
Definition tool_delta (owner : string) (epoch : Z) (cap : string) (used reserved : Z)
    (o : string) (e : Z) (c : Counter) : Z :=
  match c with
  | CField _ => 0
  | CToolUsed cap' => ind (at_window owner epoch o e && bool_decide (cap = cap')) used
  | CToolReserved cap' => ind (at_window owner epoch o e && bool_decide (cap = cap')) reserved
  end.

Definition no_tool_usage : UserToolBudgetUsageRecord :=
  {| tu_used_calls := 0; tu_reserved_calls := 0; tu_revision := 0 |}.

Lemma put_tool_usage_effect db owner epoch cap u u0 :
  keyed db -> default no_tool_usage (get_tool_usage db owner epoch cap) = u0 ->
  effect db (put_tool_usage db owner epoch cap u)
    (tool_delta owner epoch cap (tu_used_calls u - tu_used_calls u0) (tu_reserved_calls u - tu_reserved_calls u0)).
Proof.
  intros Hk Hu. split.
  - destruct Hk. by split.
  - kept_frame.
  - intros o e c. unfold gap, ledger_total, tool_delta. simpl.
    assert (Hc : forall cap', bool_decide ((owner, epoch, cap) = (o, e, cap')) =
                  at_window owner epoch o e && bool_decide (cap = cap')).
    { intros cap'. rw at_window_key. apply bool_eq_iff. rw andb_true_iff !bool_decide_eq_true. naive_solver. }
    destruct c as [g|cap'|cap']; simpl; [unfold get_window; simpl; lia|..];
      rw -Hc; unfold get_tool_usage in *; simpl; unfold ind; case_bool_decide as E;
      [injection E as <- <- <-; rw lookup_insert_eq; simpl; subst u0;
       destruct (ub_tool_usage db !! _); simpl; lia
      |rw lookup_insert_ne //; lia
      |injection E as <- <- <-; rw lookup_insert_eq; simpl; subst u0;
       destruct (ub_tool_usage db !! _); simpl; lia
      |rw lookup_insert_ne //; lia].
Qed.

(** The change of the reservations. *)
Definition reservation_delta (old : option UserBudgetReservationRecord) (r : UserBudgetReservationRecord)
    (o : string) (e : Z) (c : Counter) : Z :=
  ind (in_window o e r) (from_option (contribution c) 0 old - contribution c r).

Lemma put_reservation_effect db r old :
  keyed db -> ub_reservations db !! (rv_owner_user_id r, rv_idempotency_key r) = old ->
  (forall r0, old = Some r0 -> same_reservation r0 r) ->
  effect db (put_reservation db r) (reservation_delta old r).
Proof.
  intros Hk Ho Hr. split.
  - keyed_put Hk.
  - kept_frame.
    apply kept_insert; [apply same_reservation_refl|]. intros r0 H0. apply Hr. congruence.
  - intros o e c. unfold gap, ledger_total, reservation_delta, put_reservation. simpl.
    assert (Hcnt : counter_at (put_reservation db r) o e c = counter_at db o e c) by by destruct c.
    unfold put_reservation in Hcnt. rw Hcnt. destruct old as [r0|].
    + rw (map_sum_update _ _ _ r0) //. unfold contribution_at.
      destruct (Hr _ eq_refl) as (_ & Eo & Ee & _). unfold in_window. rw Eo Ee. unfold ind. simpl.
      destruct (_ && _); lia.
    + rw map_sum_insert //. unfold contribution_at, ind. simpl. destruct (in_window o e r); lia.
Qed.

Lemma create_task_binding_effect db row db' r :
  keyed db -> create_task_binding db row = Ok (db', r) ->
  effect db db' no_delta /\ ub_bindings db' !! bd_task_id row = Some r.
Proof.
  unfold create_task_binding, get_task_binding. intros Hk H. ub_inv.
  - split; [by apply effect_refl|done].
  - split; [by apply put_binding_effect|]. simpl. by rw lookup_insert_eq.
Qed.

Lemma create_receipt_effect db row db' r :
  keyed db -> create_or_get_dual_accounting_receipt db row = Ok (db', r) ->
  effect db db' no_delta /\ ub_receipts db' !! receipt_key row = Some r /\
  ub_receipts db' = <[receipt_key row := r]> (ub_receipts db) /\ ub_reservations db' = ub_reservations db.
Proof.
  unfold create_or_get_dual_accounting_receipt. intros Hk H. ub_inv.
  - split; [by apply effect_refl|]. by rw insert_id.
  - split; [by apply put_receipt_effect|]. simpl. by rw lookup_insert_eq.
Qed.

Lemma get_policy_spec db owner i p :
  get_policy db owner i = Some p <-> ub_policies db !! i = Some p /\ pr_owner_user_id p = owner.
Proof.
  unfold get_policy. destruct (ub_policies db !! i) as [q|]; [|naive_solver].
  case_bool_decide; naive_solver.
Qed.

Lemma get_policy_extends db db' owner i p :
  extends db db' -> get_policy db owner i = Some p -> get_policy db' owner i = Some p.
Proof.
  rw !get_policy_spec. intros [Hp _ _ _ _ _] [Hi Ho]. destruct (Hp _ _ Hi) as (? & ? & <-). done.
Qed.

Lemma create_policy_effect digest db p db' r :
  keyed db -> create_or_get_immutable_policy digest db p = Ok (db', r) ->
  effect db db' no_delta /\ pr_policy_id r = up_policy_id p.
Proof.
  unfold create_or_get_immutable_policy. cbv zeta. intros Hk H. ub_inv; breflect.
  all: first [split; [by apply effect_refl|done] | split; [by apply put_policy_effect|done]].
Qed.

Lemma create_account_effect db owner db' a :
  keyed db -> create_or_get_account db owner = (db', a) ->
  effect db db' no_delta /\ get_account db' owner = Some a.
Proof.
  unfold create_or_get_account, get_account. intros Hk H.
  destruct (ub_accounts db !! owner) as [a0|] eqn:Ea; injection H as <- <-.
  - split; [by apply effect_refl|done].
  - split; [|simpl; by rw lookup_insert_eq]. apply put_account_effect; [done|]. simpl. congruence.
Qed.

Lemma select_policy_effect db owner rev i db' a :
  keyed db -> select_next_policy db owner rev i = Ok (db', a) ->
  effect db db' no_delta /\ get_account db' owner = Some a /\ ar_next_policy_id a = Some i /\
  exists p, get_policy db' owner i = Some p.
Proof.
  unfold select_next_policy, get_account. intros Hk H. ub_inv.
  assert (Ho := keyed_accounts db Hk _ _ E0). split.
  - apply put_account_effect; [done|]. simpl. intros a0 Ha. rw Ho E0 in Ha. by simplify_eq.
  - rw Ho. simpl. rw lookup_insert_eq. eauto.
Qed.

(** The active windows are the ACTIVE rows of the owner. *)
Lemma active_windows_spec db owner w :
  keyed db ->
  w ∈ active_windows db owner <-> ub_windows db !! (owner, wr_epoch w) = Some w /\ wr_state w = W_ACTIVE.
Proof.
  intros Hk. unfold active_windows. rw sort_by_perm. rw list_elem_of_In filter_In -list_elem_of_In.
  rw andb_true_iff !bool_decide_eq_true. split.
  - intros [Hin [Ho Hs]]. apply list_elem_of_fmap in Hin as ([[o e] w'] & -> & Hin).
    apply elem_of_map_to_list in Hin. destruct (keyed_windows db Hk _ _ _ Hin) as [Ho' He]. simpl in *.
    split; [|done]. congruence.
  - intros [Hw Hs]. split; [|by destruct (keyed_windows db Hk _ _ _ Hw)].
    apply list_elem_of_fmap. exists ((owner, wr_epoch w), w). split; [done|]. by apply elem_of_map_to_list.
Qed.

Lemma get_active_window_spec db owner w :
  keyed db -> get_active_window db owner = Ok (Some w) ->
  ub_windows db !! (owner, wr_epoch w) = Some w /\ wr_state w = W_ACTIVE /\
  exists a, get_account db owner = Some a /\ ar_active_window_epoch a = Some (wr_epoch w) /\
            wr_epoch w < ar_next_window_epoch a.
Proof.
  unfold get_active_window. intros Hk H.
  destruct (active_windows db owner) as [|w' l] eqn:Ew; simpl in H; [ub_inv|].
  assert (Hw : w' ∈ active_windows db owner) by (rw Ew; left).
  apply active_windows_spec in Hw as [? ?]; [|done]. ub_inv; breflect.
  split; [done|split; [done|]]. eexists. split; [done|]. split; [congruence|lia].
Qed.

Lemma close_window_effect db w now :
  keyed db -> ub_windows db !! (wr_owner_user_id w, wr_epoch w) = Some w -> wr_state w = W_ACTIVE ->
  effect db (close_window db w now) no_delta.
Proof.
  intros Hk Hw Hs. eapply effect_eq.
  - apply (put_window_effect _ _ (wr_usage w)); [done|simpl; by rw Hw|].
    simpl. intros w0 H0. rw Hw in H0. injection H0 as <-. repeat split; simpl; congruence.
  - intros o e c. unfold usage_delta, no_delta. destruct c; [|done..]. unfold ind. simpl. destruct (at_window _ _ _ _); lia.
Qed.

Lemma new_window_effect db owner epoch p now :
  keyed db -> ub_windows db !! (owner, epoch) = None ->
  effect db (put_window db (new_window owner epoch p now)) no_delta.
Proof.
  intros Hk Hw. eapply effect_eq.
  - apply (put_window_effect _ _ no_usage); [done|simpl; by rw Hw|]. simpl. congruence.
  - intros o e c. unfold usage_delta, no_delta. destruct c as [f| |]; [|done..].
    unfold ind. destruct (at_window _ _ _ _); destruct f; done.
Qed.

(** A row of [windows] comes from [windows0] with the same usage, or is new, unused and
    governed by a policy of its owner. *)
Definition windows_from (db db' : UserBudgetDB) : Prop :=
  forall o e w', ub_windows db' !! (o, e) = Some w' ->
    (exists w, ub_windows db !! (o, e) = Some w /\ wr_usage w' = wr_usage w /\ same_window w w') \/
    (wr_usage w' = no_usage /\ ub_windows db !! (o, e) = None /\
     exists p, get_policy db' o (wr_governing_policy_id w') = Some p /\
               wr_governing_policy_fingerprint w' = pr_policy_fingerprint p).

(** Opening a window leaves everything but policies, accounts and windows alone. *)
Record opens (db db' : UserBudgetDB) : Prop := {
  os_effect : effect db db' no_delta;
  os_windows : windows_from db db';
  os_tools : ub_tool_usage db' = ub_tool_usage db;
  os_reservations : ub_reservations db' = ub_reservations db;
  os_receipts : ub_receipts db' = ub_receipts db;
  os_bindings : ub_bindings db' = ub_bindings db
}.

Lemma windows_from_same db db' : ub_windows db' = ub_windows db -> windows_from db db'.
Proof. intros E o e w. rw E. intros Hw. left. exists w. auto using same_window_refl. Qed.

Lemma opens_refl db : keyed db -> opens db db.
Proof. intros Hk. split; try done; [by apply effect_refl|by apply windows_from_same]. Qed.

Lemma effect_none_trans a b c : effect a b no_delta -> effect b c no_delta -> effect a c no_delta.
Proof. intros H1 H2. eapply effect_eq; [by eapply effect_trans|done]. Qed.

Lemma opens_trans a b c : opens a b -> opens b c -> opens a c.
Proof.
  intros H1 H2. split.
  - eapply effect_none_trans; [apply H1|apply H2].
  - intros o e w Hw. destruct (os_windows _ _ H2 _ _ _ Hw) as [(w1 & Hw1 & Hu & Hs)|(Hu & Hn & Hp)].
    + destruct (os_windows _ _ H1 _ _ _ Hw1) as [(w0 & Hw0 & Hu0 & Hs0)|(Hu0 & Hn0 & p & Hp & Hf)].
      * left. exists w0. split; [done|]. split; [congruence|by eapply same_window_trans].
      * right. split; [congruence|split; [done|]]. exists p.
        destruct Hs as (_ & _ & Ei & Ef & _). rw Ei Ef. split; [|done].
        eapply get_policy_extends; [eapply ef_extends, os_effect, H2|done].
    + right. split; [done|split; [|done]]. destruct (ub_windows a !! (o, e)) as [w0|] eqn:E; [|done].
      destruct (ex_windows _ _ (ef_extends _ _ _ (os_effect _ _ H1)) _ _ E) as (? & ? & _). congruence.
  - by rw (os_tools _ _ H2) (os_tools _ _ H1).
  - by rw (os_reservations _ _ H2) (os_reservations _ _ H1).
  - by rw (os_receipts _ _ H2) (os_receipts _ _ H1).
  - by rw (os_bindings _ _ H2) (os_bindings _ _ H1).
Qed.

(** Closing the active window, when there is one. *)
Definition close_active (db : UserBudgetDB) (active : option UserBudgetWindowRecord) (now : Z) : UserBudgetDB :=
  match active with Some w => close_window db w now | None => db end.

Lemma close_active_opens db owner active now :
  keyed db -> get_active_window db owner = Ok active -> opens db (close_active db active now).
Proof.
  intros Hk Hact. destruct active as [w|]; [|by apply opens_refl].
  destruct (get_active_window_spec _ _ _ Hk Hact) as (Hw & Hs & _).
  destruct (keyed_windows db Hk _ _ _ Hw) as [Ho _].
  split; simpl; try done; [by apply close_window_effect; [|rw Ho|]|].
  intros o e w'. simpl. intros H. apply lookup_insert_Some in H as [[E <-]|[_ H]]; left.
  - rw Ho in E. injection E as <- <-. exists w. split; [done|]. split; [done|].
    repeat split; simpl; congruence.
  - exists w'. auto using same_window_refl.
Qed.

Lemma new_window_opens db owner epoch p now :
  keyed db -> ub_windows db !! (owner, epoch) = None -> get_policy db owner (pr_policy_id p) = Some p ->
  opens db (put_window db (new_window owner epoch p now)).
Proof.
  intros Hk Hn Hp. split; simpl; try done; [by apply new_window_effect|].
  intros o e w'. simpl. intros H. apply lookup_insert_Some in H as [[E <-]|[_ H]].
  - injection E as <- <-. right. simpl. eauto.
  - left. exists w'. auto using same_window_refl.
Qed.

Lemma put_account_opens db a a0 :
  keyed db -> ub_accounts db !! ar_owner_user_id a = Some a0 ->
  ar_next_window_epoch a0 <= ar_next_window_epoch a -> opens db (put_account db a).
Proof.
  intros Hk Ha He. split; simpl; try done; [|by apply windows_from_same].
  apply put_account_effect; [done|]. intros a1 H1. rw Ha in H1. by injection H1 as <-.
Qed.

Lemma close_active_accounts db active now : ub_accounts (close_active db active now) = ub_accounts db.
Proof. by destruct active. Qed.

Lemma open_next_window_spec db owner a active rev now db' w :
  keyed db -> get_account db owner = Some a -> get_active_window db owner = Ok active ->
  open_next_window db owner a active rev now = Ok (db', w) ->
  opens db db' /\ get_active_window db' owner = Ok (Some w) /\ now < wr_expires_at w /\
  ar_next_policy_id a = Some (wr_governing_policy_id w) /\ wr_usage w = no_usage.
Proof.
  unfold open_next_window. intros Hk Ha Hact H. ub_inv; breflect. fold (close_active db active now) in *.
  match goal with H : get_policy db owner _ = Some ?q |- _ => rename H into Hp; rename q into p end.
  match goal with H : _ !! (owner, _) = None |- _ => rename H into Hnone end.
  pose proof (close_active_opens _ _ _ now Hk Hact) as O1.
  pose proof (ef_keyed _ _ _ (os_effect _ _ O1)) as Hk1.
  assert (Hid : pr_policy_id p = s) by (apply get_policy_spec in Hp as [Hp _]; by apply (keyed_policies db Hk)).
  assert (O2 : opens (close_active db active now)
    (put_window (close_active db active now) (new_window owner (ar_next_window_epoch a) p now))).
  { apply new_window_opens; [done|done|]. rw Hid.
    eapply get_policy_extends; [eapply ef_extends, os_effect, O1|done]. }
  pose proof (ef_keyed _ _ _ (os_effect _ _ O2)) as Hk2.
  match goal with |- opens db (put_account ?d ?row) /\ _ => assert (O3 : opens d (put_account d row)) end.
  { apply (put_account_opens _ _ a); [done| |simpl; lia].
    simpl. by rw close_active_accounts (keyed_accounts db Hk _ _ Ha). }
  pose proof (opens_trans _ _ _ O1 (opens_trans _ _ _ O2 O3)) as O4. split; [done|].
  split; [done|]. pose proof (ef_keyed _ _ _ (os_effect _ _ O4)) as Hk4.
  destruct (get_active_window_spec _ _ _ Hk4 Hx) as (Hw & _). simpl in Hw.
  match goal with H : wr_epoch w = _ |- _ => rw H lookup_insert_eq in Hw end. injection Hw as <-. simpl. split; [lia|]. by rw Hid.
Qed.

Lemma rollover_spec db owner a rev now db' w :
  keyed db -> get_account db owner = Some a -> rollover_window db owner rev now = Ok (db', w) ->
  opens db db' /\ get_active_window db' owner = Ok (Some w) /\ now < wr_expires_at w /\
  (db' = db \/ ar_next_policy_id a = Some (wr_governing_policy_id w)).
Proof.
  unfold rollover_window. intros Hk Ha H. rw Ha in H. apply bind_ok in H as (active & Hact & H).
  destruct active as [w0|].
  - destruct (now <? wr_expires_at w0) eqn:E.
    + injection H as <- <-. breflect. auto using opens_refl.
    + apply open_next_window_spec in H; [|done..]. naive_solver.
  - apply open_next_window_spec in H; [|done..]. naive_solver.
Qed.

Lemma usage_get_set f targets u : usage_get f (usage_set targets u) = default (usage_get f u) (target_of f targets).
Proof. by destruct f. Qed.

(** By how much an UPDATE moves a column. *)
Definition moved (targets : list (UsageField * Z)) (u : WindowUsage) (f : UsageField) : Z :=
  match target_of f targets with Some z => z - usage_get f u | None => 0 end.

Lemma mutate_window_spec db o e rev targets db' w' :
  keyed db -> mutate_window_usage db o e rev targets = Ok (db', w') ->
  exists w, get_window db o e = Some w /\ wr_revision w = rev /\ same_window w w' /\
    wr_owner_user_id w' = o /\ wr_epoch w' = e /\ wr_state w' = wr_state w /\
    wr_usage w' = usage_set targets (wr_usage w) /\ db' = put_window db w' /\
    effect db db' (usage_delta o e (moved targets (wr_usage w))).
Proof.
  unfold mutate_window_usage. intros Hk H. ub_inv; breflect.
  destruct (keyed_windows db Hk _ _ _ E) as [<- <-].
  eexists. do 2 (split; [done|]). assert (Hs : forall w0, ub_windows db !! (wr_owner_user_id u, wr_epoch u) = Some w0 ->
    w0 = u) by (unfold get_window in E; congruence).
  split; [by repeat split|]. do 5 (split; [done|]). eapply effect_eq.
  - apply (put_window_effect _ _ (wr_usage u)); [done|simpl; unfold get_window in E; by rw E|].
    intros w0 Hw0. rw (Hs w0 Hw0). by repeat split.
  - intros o' e' c. unfold usage_delta. destruct c as [f| |]; [|done..]. simpl. rw usage_get_set. unfold moved.
    destruct (target_of f targets); simpl; [done|]. unfold ind. destruct (at_window _ _ _ _); lia.
Qed.

Lemma create_tool_usage_spec db o e cap db' u :
  keyed db -> create_or_get_tool_usage db o e cap = Ok (db', u) ->
  effect db db' no_delta /\ get_tool_usage db' o e cap = Some u /\
  u = default no_tool_usage (get_tool_usage db o e cap) /\
  (db' = db \/ db' = put_tool_usage db o e cap u).
Proof.
  unfold create_or_get_tool_usage. intros Hk H. ub_inv.
  - split; [by apply effect_refl|]. rw E. auto.
  - split; [|split; [|by auto]].
    + eapply effect_eq; [by apply (put_tool_usage_effect _ _ _ _ _ no_tool_usage); [|rw E]|].
      intros o' e' c. unfold tool_delta, no_delta, ind. simpl. destruct c; repeat case_match; lia.
    + unfold get_tool_usage. simpl. by rw lookup_insert_eq.
Qed.

Lemma mutate_tool_spec db o e cap rev used reserved db' u' :
  keyed db -> mutate_tool_usage db o e cap rev used reserved = Ok (db', u') ->
  exists u, get_tool_usage db o e cap = Some u /\ tu_used_calls u' = used /\ tu_reserved_calls u' = reserved /\
    db' = put_tool_usage db o e cap u' /\
    effect db db' (tool_delta o e cap (used - tu_used_calls u) (reserved - tu_reserved_calls u)).
Proof.
  unfold mutate_tool_usage, require_atomic_counter. intros Hk H. ub_inv; breflect.
  eexists. do 4 (split; [done|]).
  apply (put_tool_usage_effect _ _ _ _ {| tu_used_calls := x; tu_reserved_calls := x0; tu_revision := rev + 1 |} u);
    [done|by rw E].
Qed.

Lemma create_reservation_spec digest db i db' r :
  keyed db -> create_or_get_reservation digest db i = Ok (db', r) ->
  (db' = db /\ get_reservation db (ui_owner_user_id i) (ui_idempotency_key i) = Some r /\
   rv_payload_fingerprint r = payload_fingerprint digest i) \/
  (get_reservation db (ui_owner_user_id i) (ui_idempotency_key i) = None /\ r = new_reservation digest i /\
   db' = put_reservation db r /\ effect db db' (reservation_delta None r)).
Proof.
  unfold create_or_get_reservation. intros Hk H. ub_inv; breflect; [by left|right].
  do 3 (split; [done|]). by apply put_reservation_effect.
Qed.

(** A reservation that leaves RESERVED. *)
Lemma transition_spec db o k rev target amount at_ db' r' :
  keyed db -> transition_reservation db o k rev target amount at_ = Ok (db', r') ->
  target <> S_RESERVED /\
  exists r, get_reservation db o k = Some r /\
    ((db' = db /\ r' = r /\ rv_state r = target /\ rv_settled_amount_atomic r = amount) \/
     (rv_state r = S_RESERVED /\ rv_revision r = rev /\ rv_state r' = target /\ rv_settled_amount_atomic r' = amount /\
      same_reservation r r' /\ db' = put_reservation db r' /\ effect db db' (reservation_delta (Some r) r') /\
      match target with S_SETTLED => exists z, amount = Some z /\ 0 <= z | _ => amount = None end)).
Proof.
  unfold transition_reservation. intros Hk H. apply guard_bind_ok in H as [Ht H]. breflect. split; [done|].
  destruct (get_reservation db o k) as [r|] eqn:E; [|done]. exists r. split; [done|].
  destruct (negb (bool_decide (rv_state r = S_RESERVED))) eqn:Es.
  - left. ub_inv; breflect; done.
  - right. apply guard_bind_ok in H as [Hrev H]. apply bind_ok in H as (z & Hz & H). injection H as <- <-. breflect.
    destruct (keyed_reservations db Hk _ _ _ E) as [<- <-]. do 4 (split; [done|]).
    split; [|split; [done|split]].
    + repeat split; try done.
    + eapply put_reservation_effect; [done|done|]. intros r0 Hr0. injection Hr0 as <-. by repeat split.
    + destruct target; try done; destruct amount as [a|], at_; try done; ub_inv.
      unfold require_atomic_counter in Hz. ub_inv; breflect. eauto.
Qed.
