(* ===== verification/UserBudgetInvariant.v ===== *)
(** * The invariant of user budgets

    [sound] holds of the tables of a user budget: every counter of a window, and of a
    capability in it, is what the reservations of the window add up to; no window exceeds
    the call limits of the policy that governs it; and the reservations of a mirrored charge
    and of an inference come in full sets.  This file shows that opening a window, admitting,
    settling and releasing a tool call, admitting and settling an inference, and mirroring a
    charge keep it.  The digest is any function without collisions. *)

From S2P Require Import Prelude Canonical CanonicalInjectivity TaskBudgetSchema AgentStore UserBudget.
From S2P Require Import UserBudgetAuthority UserToolQuota UserInferenceQuota UserBudgetLedger.

(** ** The invariant *)

(** The limits of a policy row are positive. *)
Definition positive_limits (p : UserBudgetPolicyRecord) : Prop :=
  (forall l, pr_max_tool_calls_total p = Some l -> 0 < l) /\
  (forall cap l, per_tool_limit p cap = Some l -> 0 < l) /\
  (forall l, pr_max_inference_calls p = Some l -> 0 < l).

(** A policy without call limits. *)
Definition unlimited (p : UserBudgetPolicyRecord) : Prop :=
  pr_max_tool_calls_total p = None /\ pr_max_inference_calls p = None /\ (forall cap, per_tool_limit p cap = None).

(** The ids of the automatic shadow policies are reserved for policies without limits. *)
Definition policy_ok (p : UserBudgetPolicyRecord) : Prop :=
  positive_limits p /\ (String.prefix "ubq2-shadow-" (pr_policy_id p) = true -> unlimited p).

(** The calls of an owner's window are within the limits of a policy. *)
Definition calls_within (db : UserBudgetDB) (o : string) (e : Z) (u : WindowUsage)
    (p : UserBudgetPolicyRecord) : Prop :=
  (forall l, pr_max_tool_calls_total p = Some l -> tool_calls_used u + tool_calls_reserved u <= l) /\
  (forall cap l, per_tool_limit p cap = Some l ->
     counter_at db o e (CToolUsed cap) + counter_at db o e (CToolReserved cap) <= l) /\
  (forall l, pr_max_inference_calls p = Some l -> inference_used u + inference_reserved u <= l).

Definition within_limits (db : UserBudgetDB) : Prop :=
  forall o e w p, get_window db o e = Some w -> get_policy db o (wr_governing_policy_id w) = Some p ->
    calls_within db o e (wr_usage w) p.

(** Every window is governed by a policy of its owner. *)
Definition governed (db : UserBudgetDB) : Prop :=
  forall o e w, get_window db o e = Some w ->
    exists p, get_policy db o (wr_governing_policy_id w) = Some p /\
              wr_governing_policy_fingerprint w = pr_policy_fingerprint p.

Definition reservation_ok (r : UserBudgetReservationRecord) : Prop :=
  0 < rv_reserved_amount_atomic r /\
  (rv_state r = S_SETTLED <-> is_Some (rv_settled_amount_atomic r)) /\
  (forall z, rv_settled_amount_atomic r = Some z -> 0 <= z) /\
  (rv_resource_kind r = K_TOOL_CALL <-> is_Some (rv_capability_id r)).

Definition mirror_key (digest : string -> string) (owner task_id kind key resource : string) : string :=
  String.append "ubq2:v1:" (mirror_digest digest owner task_id kind key resource).

(** A mirrored reservation has its receipt, and an inference its call. *)
Definition mirror_covered (digest : string -> string) (db : UserBudgetDB) : Prop :=
  forall o t k key res, is_Some (get_reservation db o (mirror_key digest o t k key res)) ->
    is_Some (get_dual_accounting_receipt db t k key res).

Definition inference_complete (digest : string -> string) (db : UserBudgetDB) : Prop :=
  forall o request kind, is_Some (get_reservation db o (inference_key digest request kind)) ->
    is_Some (get_reservation db o (inference_key digest request K_INFERENCE_CALL)).

(** A receipt of a charge names its settled reservation. *)
Definition backed (db : UserBudgetDB) (row : UserBudgetDualAccountingReceiptRecord) : Prop :=
  dr_mirror_dimension row = "NO_CHARGE" \/
  exists r, get_reservation db (dr_owner_user_id row) (default "None" (dr_ubq_idempotency_key row)) = Some r /\
    Some (rv_reservation_id r) = dr_ubq_reservation_id row /\ Some (rv_window_epoch r) = dr_window_epoch row /\
    resource_value (rv_resource_kind r) = dr_mirror_dimension row /\
    Some (rv_payload_fingerprint r) = dr_ubq_payload_fingerprint row /\ rv_state r = S_SETTLED /\
    rv_settled_amount_atomic r = Some (dr_amount_atomic row) /\ rv_capability_id r = dr_capability_id row.

Lemma backed_extends db db' row : extends db db' -> backed db row -> backed db' row.
Proof.
  intros Hx [?|(r & Hr & Hb)]; [by left|right]. destruct (ex_reservations _ _ Hx _ _ Hr) as (r' & Hr' & Hs).
  destruct Hs as (_ & _ & _ & _ & _ & _ & _ & _ & _ & Hset). exists r.
  rw Hset in Hr'; [by destruct Hb as (_ & _ & _ & _ & -> & _)|]. done.
Qed.

(** The receipts of [db'] are those of [db], or backed. *)
Definition receipts_from (db db' : UserBudgetDB) : Prop :=
  forall k row, ub_receipts db' !! k = Some row -> ub_receipts db !! k = Some row \/ backed db' row.

Lemma receipts_from_same db db' : ub_receipts db' = ub_receipts db -> receipts_from db db'.
Proof. intros E k row. rw E. by left. Qed.

Record sound (digest : string -> string) (db : UserBudgetDB) : Prop := {
  sd_keyed : keyed db;
  sd_ledger o e c : gap db o e c = 0;
  sd_policies i p : ub_policies db !! i = Some p -> policy_ok p;
  sd_governed : governed db;
  sd_limits : within_limits db;
  sd_tools o e cap u : get_tool_usage db o e cap = Some u -> is_Some (get_window db o e);
  sd_reservations k r : ub_reservations db !! k = Some r ->
    reservation_ok r /\ is_Some (get_window db k.1 (rv_window_epoch r));
  sd_mirror : mirror_covered digest db;
  sd_receipts k row : ub_receipts db !! k = Some row -> backed db row;
  sd_inference : inference_complete digest db
}.

Lemma sound_empty digest : sound digest empty_budget_db.
Proof.
  split; unfold governed, within_limits, mirror_covered, inference_complete, get_window, get_tool_usage,
    get_reservation; simpl; intros; try (by rw lookup_empty in H).
  - split; simpl; intros; by rw lookup_empty in H.
  - unfold gap, ledger_total, counter_at. simpl. unfold get_window, get_tool_usage. simpl.
    rw map_sum_empty. by destruct c; rw lookup_empty.
Qed.

(** ** Keeping parts of the invariant *)

(** The windows an operation leaves alone keep their limits. *)
Lemma limits_frame db db' O E :
  governed db -> within_limits db -> extends db db' ->
  (forall o e w', (o, e) <> (O, E) -> get_window db' o e = Some w' ->
     exists w, get_window db o e = Some w /\ wr_usage w' = wr_usage w) ->
  (forall o e cap, (o, e) <> (O, E) -> get_tool_usage db' o e cap = get_tool_usage db o e cap) ->
  (forall w p, get_window db' O E = Some w -> get_policy db' O (wr_governing_policy_id w) = Some p ->
     calls_within db' O E (wr_usage w) p) ->
  within_limits db'.
Proof.
  intros Hg Hl Hx Hw Ht Hc o e w' p Hw' Hp.
  destruct (decide ((o, e) = (O, E))) as [[= -> ->]|Hne]; [by apply Hc|].
  destruct (Hw _ _ _ Hne Hw') as (w & Hw0 & Hu). destruct (Hg _ _ _ Hw0) as (q & Hq & _).
  destruct (ex_windows _ _ Hx _ _ Hw0) as (w2 & Hw2 & (_ & _ & Ei & _)). unfold get_window in Hw'.
  rw Hw' in Hw2. injection Hw2 as <-. rw Ei in Hp.
  pose proof (get_policy_extends _ _ _ _ _ Hx Hq) as Hq'. rw Hp in Hq'. injection Hq' as ->.
  destruct (Hl _ _ _ _ Hw0 Hq) as (H1 & H2 & H3). rw -Hu in H1, H3. split; [done|]. split; [|done].
  intros cap l Hcap. specialize (H2 cap l Hcap). unfold counter_at in *. by rw Ht.
Qed.

Lemma governed_extends db db' O E :
  governed db -> extends db db' ->
  (forall o e w', (o, e) <> (O, E) -> get_window db' o e = Some w' -> is_Some (get_window db o e)) ->
  (forall w', get_window db' O E = Some w' -> is_Some (get_window db O E)) ->
  governed db'.
Proof.
  intros Hg Hx Hw HwE o e w' Hw'.
  assert (Hs : is_Some (get_window db o e)).
  { destruct (decide ((o, e) = (O, E))) as [[= -> ->]|Hne]; eauto. }
  destruct Hs as [w Hw0]. destruct (Hg _ _ _ Hw0) as (p & Hp & Hf).
  destruct (ex_windows _ _ Hx _ _ Hw0) as (w2 & Hw2 & (_ & _ & Ei & Ef & _)). unfold get_window in Hw'.
  rw Hw' in Hw2. injection Hw2 as <-. rw Ei Ef. eauto using get_policy_extends.
Qed.

Lemma rollover_policies db owner rev now db' w :
  rollover_window db owner rev now = Ok (db', w) -> ub_policies db' = ub_policies db.
Proof.
  unfold rollover_window, open_next_window. intros H. ub_inv; try done. all: by destruct u0.
Qed.

Lemma in_window_at O E o e (r : UserBudgetReservationRecord) :
  rv_owner_user_id r = O -> rv_window_epoch r = E -> in_window o e r = at_window O E o e.
Proof.
  intros <- <-. unfold in_window, at_window. apply bool_eq_iff.
  rw !andb_true_iff !bool_decide_eq_true !Z.eqb_eq. naive_solver.
Qed.

Section Invariant.
Context (digest : string -> string).
Implicit Types (db : UserBudgetDB).

Lemma opens_sound db db' :
  sound digest db -> opens db db' ->
  (forall i p, ub_policies db' !! i = Some p -> policy_ok p) -> sound digest db'.
Proof.
  intros Hs Ho Hp. destruct Ho as [[Hk Hx Hg] Hw Ht Hr Hc Hb]. destruct Hs as [? Hl ? Hgov Hlim ? Hres Hm Hbk Hi].
  assert (Hgov' : governed db').
  { intros o e w' Hw'. destruct (Hw _ _ _ Hw') as [(w & Hw0 & Hu & Hs)|(Hu & Hn & p & Hgp & Hf)]; [|eauto].
    destruct (Hgov _ _ _ Hw0) as (p & Hgp & Hf). destruct Hs as (_ & _ & Ei & Ef & _). rw Ei Ef.
    eauto using get_policy_extends. }
  assert (Hsome : forall o e, is_Some (get_window db o e) -> is_Some (get_window db' o e)).
  { intros o e [w Hw0]. destruct (ex_windows _ _ Hx _ _ Hw0) as (w' & Hw' & _). unfold get_window. eauto. }
  split; try done.
  - intros. rw Hg Hl. done.
  - intros o e w' p Hw' Hgp. destruct (Hw _ _ _ Hw') as [(w & Hw0 & Hu & Hs)|(Hu & Hn & q & Hgq & Hf)].
    + destruct (Hgov _ _ _ Hw0) as (q & Hq & _). destruct Hs as (_ & _ & Ei & _). rw Ei in Hgp.
      pose proof (get_policy_extends _ _ _ _ _ Hx Hq) as Hq'. rw Hgp in Hq'. injection Hq' as ->.
      destruct (Hlim _ _ _ _ Hw0 Hq) as (H1 & H2 & H3). rw -Hu in H1, H3.
      split; [done|]. split; [|done]. intros cap l Hcap. specialize (H2 cap l Hcap).
      unfold counter_at, get_tool_usage in *. by rw Ht.
    + rw Hgp in Hgq. injection Hgq as <-. apply get_policy_spec in Hgp as [Hgp _].
      destruct (Hp _ _ Hgp) as [(P1 & P2 & P3) _]. rw Hu. unfold no_usage. split; [|split]; simpl.
      * intros l Hl1. specialize (P1 l Hl1). lia.
      * intros cap l Hl1. specialize (P2 cap l Hl1). unfold counter_at, get_tool_usage. rw Ht.
        destruct (ub_tool_usage db !! (o, e, cap)) as [u|] eqn:Eu; simpl; [|lia].
        destruct (sd_tools0 _ _ _ _ Eu) as [? Hc2]. unfold get_window in Hc2. congruence.
      * intros l Hl1. specialize (P3 l Hl1). lia.
  - intros o e cap u Hu. apply Hsome. unfold get_tool_usage in Hu. rw Ht in Hu. eauto.
  - intros k r Hkr. rw Hr in Hkr. destruct (Hres _ _ Hkr). auto.
  - intros o t k key res Hsm. unfold get_dual_accounting_receipt, get_reservation in *. rw Hc.
    apply (Hm o). unfold get_reservation. by rw -Hr.
  - intros k row Hk'. rw Hc in Hk'. by eapply backed_extends; [|eapply Hbk].
  - intros o req kind Hsm. unfold get_reservation in *. rw Hr. rw Hr in Hsm. by apply (Hi o req kind).
Qed.

(** More receipts, or bindings, change nothing the invariant speaks of. *)
Lemma sound_same_tables db db' :
  sound digest db -> effect db db' no_delta -> ub_windows db' = ub_windows db ->
  ub_tool_usage db' = ub_tool_usage db -> ub_reservations db' = ub_reservations db ->
  ub_policies db' = ub_policies db ->
  (forall k, is_Some (ub_receipts db !! k) -> is_Some (ub_receipts db' !! k)) -> receipts_from db db' ->
  sound digest db'.
Proof.
  intros Hs [Hk Hx Hgap] Hw Ht Hres Hp Hrc Hfrom. destruct Hs as [? Hl ? Hg Hlim Htu Hr Hm Hb Hi]. split; try done.
  - intros. by rw Hgap Hl.
  - by rw Hp.
  - intros o e w. unfold get_window, get_policy. rw Hw Hp. apply Hg.
  - intros o e w p. unfold get_window, get_policy. rw Hw Hp. intros Hw0 Hp0.
    destruct (Hlim _ _ _ _ Hw0 Hp0) as (? & L & ?). split; [done|]. split; [|done].
    intros cap l' Hl'. specialize (L cap l' Hl'). unfold counter_at, get_tool_usage in *. by rw Ht.
  - intros o e cap u. unfold get_tool_usage, get_window. rw Ht Hw. apply Htu.
  - intros k r. rw Hres. unfold get_window. rw Hw. apply Hr.
  - intros o t k ky rs Hsm. apply Hrc. apply (Hm o). unfold get_reservation in *. by rw -Hres.
  - intros k row Hk'. destruct (Hfrom _ _ Hk') as [Hold|?]; [|done]. by eapply backed_extends; [|eapply Hb].
  - intros o req kd. unfold get_reservation. rw Hres. apply Hi.
Qed.

(** The window an admission is made in. *)
Lemma current_window_spec db owner a now db' w :
  sound digest db -> get_account db owner = Some a -> current_window db owner a now = Ok (db', w) ->
  sound digest db' /\ opens db db' /\ get_window db' owner (wr_epoch w) = Some w /\
  wr_state w = W_ACTIVE /\ now < wr_expires_at w.
Proof.
  intros Hs Ha H. pose proof (sd_keyed _ _ Hs) as Hk.
  assert (Hroll : rollover_window db owner (ar_revision a) now = Ok (db', w) ->
    sound digest db' /\ opens db db' /\ get_window db' owner (wr_epoch w) = Some w /\
    wr_state w = W_ACTIVE /\ now < wr_expires_at w).
  { intros Hr. pose proof (rollover_policies _ _ _ _ _ _ Hr) as Hp.
    destruct (rollover_spec _ _ _ _ _ _ _ Hk Ha Hr) as (Ho & Hact & Hn & _).
    assert (Hs' : sound digest db') by (apply (opens_sound db); [done|done|]; rw Hp; apply Hs).
    destruct (get_active_window_spec _ _ _ (sd_keyed _ _ Hs') Hact) as (? & ? & _). done. }
  unfold current_window in H. apply bind_ok in H as ([w0|] & Hact & H); [|by apply Hroll].
  destruct (wr_expires_at w0 <=? now) eqn:E; [by apply Hroll|]. injection H as <- <-. breflect.
  destruct (get_active_window_spec _ _ _ Hk Hact) as (? & ? & _). auto using opens_refl.
Qed.

Lemma governing_policy_spec db owner w message p :
  governing_policy db owner w message = Ok p -> get_policy db owner (wr_governing_policy_id w) = Some p.
Proof. unfold governing_policy. intros H. by ub_inv. Qed.

(** The limits of the charged window, when only one window and its capabilities change. *)
Definition touches (db db' : UserBudgetDB) (O : string) (E : Z) : Prop :=
  extends db db' /\ ub_policies db' = ub_policies db /\
  (forall o e, (o, e) <> (O, E) -> get_window db' o e = get_window db o e) /\
  (forall o e cap, (o, e) <> (O, E) -> get_tool_usage db' o e cap = get_tool_usage db o e cap) /\
  is_Some (get_window db O E).

(** An operation on one window keeps the invariant when its effects cancel out. *)
Lemma touches_sound db db' O E :
  sound digest db -> touches db db' O E -> effect db db' no_delta ->
  (forall w p, get_window db' O E = Some w -> get_policy db' O (wr_governing_policy_id w) = Some p ->
     calls_within db' O E (wr_usage w) p) ->
  (forall k r, ub_reservations db' !! k = Some r ->
     ub_reservations db !! k = Some r \/ (reservation_ok r /\ k.1 = O /\ rv_window_epoch r = E)) ->
  mirror_covered digest db' -> receipts_from db db' -> inference_complete digest db' -> sound digest db'.
Proof.
  intros Hs (Hx & Hp & Hw & Ht & HE) [Hk _ Hg] Hc Hr Hm Hfrom Hi.
  assert (Hsome : forall o e, is_Some (get_window db o e) -> is_Some (get_window db' o e)).
  { intros o e [w Hw0]. destruct (ex_windows _ _ Hx _ _ Hw0) as (w' & Hw' & _). unfold get_window. eauto. }
  split; try done.
  - intros. rw Hg. by rw (sd_ledger _ _ Hs).
  - rw Hp. apply Hs.
  - apply (governed_extends db _ O E); [apply Hs|done| |by intros].
    intros o e w' Hne. by rw Hw.
  - apply (limits_frame db _ O E); [apply Hs|apply Hs|done| |done|done].
    intros o e w' Hne. rw Hw //. eauto.
  - intros o e cap u Hu. destruct (decide ((o, e) = (O, E))) as [[= -> ->]|Hne]; [by apply Hsome|].
    apply Hsome. rw Ht // in Hu. by eapply Hs.
  - intros [o key] r Hkr. destruct (Hr _ _ Hkr) as [Hold|(Hok & Ho & He)]; simpl in *.
    + destruct (sd_reservations _ _ Hs _ _ Hold) as [? ?]. split; [done|]. by apply Hsome.
    + subst o. split; [done|]. rw He. by apply Hsome.
  - intros k row Hk'. destruct (Hfrom _ _ Hk') as [Hold|?]; [|done]. by eapply backed_extends; [|eapply Hs].
Qed.

(** Keys of the three services never meet. *)
Lemma tool_not_mirror i o t k key res : tool_key digest i <> mirror_key digest o t k key res.
Proof. unfold tool_key, mirror_key. intros H. cbn in H. discriminate H. Qed.

Lemma tool_not_inference i req kind : tool_key digest i <> inference_key digest req kind.
Proof. unfold tool_key, inference_key. intros H. cbn in H. discriminate H. Qed.

Lemma mirror_not_inference o t k key res req kind :
  mirror_key digest o t k key res <> inference_key digest req kind.
Proof. unfold mirror_key, inference_key. intros H. cbn in H. discriminate H. Qed.

(** A new reservation under a key of another service. *)
Lemma mirror_covered_insert db db' O K r :
  mirror_covered digest db -> ub_receipts db' = ub_receipts db ->
  ub_reservations db' = <[(O, K) := r]> (ub_reservations db) ->
  (forall o t k key res, K <> mirror_key digest o t k key res) -> mirror_covered digest db'.
Proof.
  intros Hm Hc Hr HK o t k key res H. unfold get_dual_accounting_receipt, get_reservation in *. rw Hc.
  apply (Hm o). unfold get_reservation. rw Hr lookup_insert_ne in H; [|done]. intros [= <- E]. by eapply HK.
Qed.

Lemma inference_complete_insert db db' O K r :
  inference_complete digest db -> ub_reservations db' = <[(O, K) := r]> (ub_reservations db) ->
  (forall req kind, K <> inference_key digest req kind) -> inference_complete digest db'.
Proof.
  intros Hm Hr HK o req kind H. unfold get_reservation in *. rw Hr !lookup_insert_ne in H |- *.
  - intros [= <- E]. by eapply HK.
  - by intros [= <- E]; eapply HK.
  - by eapply Hm.
Qed.

(** The same keys as before. *)
Lemma mirror_covered_same db db' :
  mirror_covered digest db -> ub_receipts db' = ub_receipts db ->
  (forall k, is_Some (ub_reservations db' !! k) -> is_Some (ub_reservations db !! k)) -> mirror_covered digest db'.
Proof.
  intros Hm Hc Hr o t k key res H. unfold get_dual_accounting_receipt in *. rw Hc. by apply (Hm o), Hr.
Qed.

Lemma inference_complete_same db db' :
  inference_complete digest db ->
  (forall k, is_Some (ub_reservations db' !! k) <-> is_Some (ub_reservations db !! k)) ->
  inference_complete digest db'.
Proof. intros Hm Hr o req kind H. apply Hr. apply (Hm o req kind). by apply Hr. Qed.

(** Open the counters of a sum of effects on one window. *)
Ltac by_counters :=
  intros o' e' c; unfold usage_delta, tool_delta, reservation_delta, no_delta, moved;
  repeat match goal with
  | |- context [in_window o' e' ?r] => rw (in_window_at _ _ o' e' r eq_refl eq_refl)
  end;
  unfold contribution, ind; simpl;
  destruct c as [f|cap'|cap']; simpl; repeat case_bool_decide; simplify_eq/=;
  repeat match goal with |- context [at_window ?a ?b ?x ?y] => destruct (at_window a b x y) end; simpl; try lia.

Lemma intent_ok i :
  intent_valid i = true -> reservation_ok (new_reservation digest i).
Proof.
  unfold intent_valid, reservation_ok. simpl. intros H. breflect.
  split; [lia|]. split; [split; [done|by intros [? ?]]|]. split; [done|].
  destruct (ui_capability_id i); breflect; split; eauto; [done|by intros [? ?]].
Qed.

Lemma over_limit_le limit amount l : over_limit limit amount = false -> limit = Some l -> amount <= l.
Proof. unfold over_limit. intros H ->. breflect. lia. Qed.

(** The tables after a charge: the window, the calls of a capability and a reservation. *)
Definition charged (db : UserBudgetDB) (w : UserBudgetWindowRecord) (cap : string)
    (u : UserToolBudgetUsageRecord) (r : UserBudgetReservationRecord) : UserBudgetDB :=
  put_reservation (put_tool_usage (put_window db w) (wr_owner_user_id w) (wr_epoch w) cap u) r.

(** The key of a reservation is in use, or belongs to a tool call. *)
Definition plain_key (db : UserBudgetDB) (r : UserBudgetReservationRecord) : Prop :=
  is_Some (ub_reservations db !! (rv_owner_user_id r, rv_idempotency_key r)) \/
  exists i, rv_idempotency_key r = tool_key digest i.

Lemma plain_key_mirror db db' r :
  plain_key db r -> mirror_covered digest db -> ub_receipts db' = ub_receipts db ->
  ub_reservations db' = <[(rv_owner_user_id r, rv_idempotency_key r) := r]> (ub_reservations db) ->
  mirror_covered digest db'.
Proof.
  intros [Hs|[i Hi]] Hm Hc Hr.
  - apply (mirror_covered_same db); [done|done|]. intros k. rw Hr lookup_insert_is_Some. by intros [<-|[_ ?]].
  - eapply mirror_covered_insert; [done|done|exact Hr|]. intros. rw Hi. apply tool_not_mirror.
Qed.

Lemma plain_key_inference db db' r :
  plain_key db r -> inference_complete digest db ->
  ub_reservations db' = <[(rv_owner_user_id r, rv_idempotency_key r) := r]> (ub_reservations db) ->
  inference_complete digest db'.
Proof.
  intros [Hs|[i Hi]] Hm Hr.
  - apply (inference_complete_same db); [done|]. intros k. rw Hr lookup_insert_is_Some.
    split; [by intros [<-|[_ ?]]|]. intros ?. destruct (decide ((rv_owner_user_id r, rv_idempotency_key r) = k)); auto.
  - eapply inference_complete_insert; [done|exact Hr|]. intros. rw Hi. apply tool_not_inference.
Qed.

(** A charge whose effects cancel out and that stays within the limits keeps the invariant. *)
Lemma charge_sound db w w' cap u' r' :
  sound digest db -> get_window db (wr_owner_user_id w') (wr_epoch w') = Some w -> same_window w w' ->
  rv_owner_user_id r' = wr_owner_user_id w' -> rv_window_epoch r' = wr_epoch w' ->
  reservation_ok r' -> plain_key db r' -> effect db (charged db w' cap u' r') no_delta ->
  (forall p, get_policy db (wr_owner_user_id w') (wr_governing_policy_id w) = Some p ->
     (forall l, pr_max_tool_calls_total p = Some l ->
        tool_calls_used (wr_usage w') + tool_calls_reserved (wr_usage w') <= l) /\
     (forall l, per_tool_limit p cap = Some l -> tu_used_calls u' + tu_reserved_calls u' <= l) /\
     (forall l, pr_max_inference_calls p = Some l ->
        inference_used (wr_usage w') + inference_reserved (wr_usage w') <= l)) ->
  sound digest (charged db w' cap u' r').
Proof.
  intros Hs Hw Hsw Ho He Hok Hkey Hz Hlim.
  apply (touches_sound db _ (wr_owner_user_id w') (wr_epoch w')); [done| |done| | | |by apply receipts_from_same|].
  - split; [eapply ef_extends, Hz|]. split; [done|]. split; [|split; [|by rw Hw]].
    + intros o e Hne. unfold get_window. simpl. rw lookup_insert_ne //.
    + intros o e c Hne. unfold get_tool_usage. simpl. rw lookup_insert_ne //. congruence.
  - intros w5 p Hw5 Hp. unfold get_window in Hw5. simpl in Hw5. rw lookup_insert_eq in Hw5. injection Hw5 as <-.
    destruct Hsw as (_ & _ & Ei & _). rw Ei in Hp. destruct (Hlim p Hp) as (T & P & I).
    destruct (sd_limits _ _ Hs _ _ _ _ Hw Hp) as (_ & L & _). split; [done|]. split; [|done].
    intros c l Hl. specialize (L c l Hl). unfold counter_at, get_tool_usage in *. simpl.
    destruct (decide (c = cap)) as [->|Hne]; [by rw lookup_insert_eq; apply P|].
    rw lookup_insert_ne //. congruence.
  - simpl. intros k r Hk. apply lookup_insert_Some in Hk as [[<- <-]|[_ Hk]]; [by right|by left].
  - eapply plain_key_mirror; [done|apply Hs|done|done].
  - eapply plain_key_inference; [done|apply Hs|done].
Qed.

(** What a successful admission did. *)
Lemma admit_tool_call_shape db o a q now db' adm :
  sound digest db -> get_account db o = Some a -> get_reservation db o (tool_key digest (tr_invocation_id q)) = None ->
  admit_tool_call digest db o a q now = Ok (db', adm) ->
  exists db1 w p w' u u', sound digest db1 /\ opens db db1 /\
    get_window db1 o (wr_epoch w) = Some w /\ wr_state w = W_ACTIVE /\ now < wr_expires_at w /\
    get_policy db1 o (wr_governing_policy_id w) = Some p /\ is_recognized_shadow_policy digest p = false /\
    u = default no_tool_usage (get_tool_usage db1 o (wr_epoch w) (tr_capability_id q)) /\
    over_limit (per_tool_limit p (tr_capability_id q)) (tu_used_calls u + tu_reserved_calls u + 1) = false /\
    over_limit (pr_max_tool_calls_total p)
      (tool_calls_used (wr_usage w) + tool_calls_reserved (wr_usage w) + 1) = false /\
    intent_valid (tool_intent digest o (wr_epoch w) q) = true /\
    same_window w w' /\ wr_owner_user_id w' = o /\ wr_epoch w' = wr_epoch w /\
    wr_usage w' = usage_set [(F_tool_calls_reserved, tool_calls_reserved (wr_usage w) + 1)] (wr_usage w) /\
    tu_used_calls u' = tu_used_calls u /\ tu_reserved_calls u' = tu_reserved_calls u + 1 /\
    db' = charged db1 w' (tr_capability_id q) u' (new_reservation digest (tool_intent digest o (wr_epoch w) q)) /\
    effect db1 db' no_delta /\
    adm = direct_admission digest o q (new_reservation digest (tool_intent digest o (wr_epoch w) q)).
Proof.
  intros Hs Ha Hnone H. unfold admit_tool_call in H.
  apply bind_ok in H as ([db1 w] & Hw & H).
  destruct (current_window_spec _ _ _ _ _ _ Hs Ha Hw) as (Hs1 & Ho1 & Hw1 & Hact & Hnow). clear Hw.
  apply bind_ok in H as (p & Hp & H). apply governing_policy_spec in Hp.
  apply guard_bind_ok in H as [Hsh H]. apply bind_ok in H as ([db2 u] & Hu & H).
  destruct (create_tool_usage_spec _ _ _ _ _ _ (sd_keyed _ _ Hs1) Hu) as (E2 & Hu2 & Hu0 & Hdb2).
  apply guard_bind_ok in H as [Hper H]. apply guard_bind_ok in H as [Htot H]. apply guard_bind_ok in H as [Hv H].
  apply bind_ok in H as ([db3 r] & Hr & H).
  destruct (create_reservation_spec _ _ _ _ _ (ef_keyed _ _ _ E2) Hr) as [(-> & Hex & _)|(_ & -> & -> & E3)].
  { assert (Hr2 : ub_reservations db2 = ub_reservations db1) by by destruct Hdb2 as [->| ->].
    simpl in Hex. unfold get_reservation in *. rw Hr2 (os_reservations _ _ Ho1) in Hex. congruence. }
  apply bind_ok in H as (? & _ & H). apply bind_ok in H as ([db4 w4] & Hm & H).
  destruct (mutate_window_spec _ _ _ _ _ _ _ (ef_keyed _ _ _ E3) Hm) as
    (w3 & Hw3 & _ & Hsw & Eo & Ee & _ & Hus & -> & E4).
  assert (w3 = w) as ->. { unfold get_window in *. simpl in Hw3. by destruct Hdb2 as [->| ->]; simplify_eq/=. }
  apply bind_ok in H as ([db5 u5] & Ht & H).
  destruct (mutate_tool_spec _ _ _ _ _ _ _ _ _ (ef_keyed _ _ _ E4) Ht) as (u4 & Hu4 & Eu & Er & -> & E5).
  assert (u4 = u) as ->. { unfold get_tool_usage in *. simpl in *. rw Ee in Hu4. congruence. }
  unfold mret, result_ret in H. injection H as <- <-. breflect.
  pose proof (effect_trans _ _ _ _ _ (effect_trans _ _ _ _ _ E2 E3) (effect_trans _ _ _ _ _ E4 E5)) as Eff.
  match type of Eff with effect _ ?d _ => assert (Hdb : d = charged db1 w4 (tr_capability_id q) u5
    (new_reservation digest (tool_intent digest o (wr_epoch w) q))) end.
  { unfold charged. rw Eo Ee. destruct Hdb2 as [->| ->]; [done|].
    unfold put_reservation, put_window, put_tool_usage, with_windows, with_reservations, with_tool_usage. simpl.
    by rw insert_insert_eq. }
  rw Hdb in Eff |- *. exists db1, w, p, w4, u, u5. do 18 (split; [done|]).
  split; [eapply effect_eq; [exact Eff|]; rw Ee; by_counters|]. unfold direct_admission. simpl. by rw Ee.
Qed.

Lemma admit_tool_call_sound db o a q now db' adm :
  sound digest db -> get_account db o = Some a -> get_reservation db o (tool_key digest (tr_invocation_id q)) = None ->
  admit_tool_call digest db o a q now = Ok (db', adm) -> sound digest db' /\ extends db db'.
Proof.
  intros Hs Ha Hn H. destruct (admit_tool_call_shape _ _ _ _ _ _ _ Hs Ha Hn H) as
    (db1 & w & p & w' & u & u' & Hs1 & Ho & Hw & _ & _ & Hp & _ & _ & Hper & Htot & Hv & Hsw & Eo & Ee & Hus &
     Eu & Er & -> & Hz & _).
  split; [|etrans; [eapply ef_extends, os_effect, Ho|eapply ef_extends, Hz]].
  apply (charge_sound _ w); [done|by rw Eo Ee|done|by rw Eo|by rw Ee|by apply intent_ok|right; by eexists|done|].
  intros p' Hp'. rw Eo Hp in Hp'. injection Hp' as <-. rw Hus Eu Er. simpl.
  destruct (sd_limits _ _ Hs1 _ _ _ _ Hw Hp) as (_ & _ & L). split; [|split; [|done]].
  - intros l Hl. apply (over_limit_le _ _ _ Htot) in Hl. lia.
  - intros l Hl. apply (over_limit_le _ _ _ Hper) in Hl. lia.
Qed.

Lemma verify_direct_spec r o q :
  verify_direct_reservation digest r o q = Ok tt -> reservation_ok r ->
  rv_owner_user_id r = o /\ rv_idempotency_key r = tool_key digest (tr_invocation_id q) /\
  rv_resource_kind r = K_TOOL_CALL /\ rv_capability_id r = Some (tr_capability_id q) /\
  rv_reserved_amount_atomic r = 1.
Proof.
  unfold verify_direct_reservation. intros H (_ & _ & _ & Hc).
  apply guard_bind_ok in H as [_ H]. ub_inv; breflect. repeat split; try done.
  destruct (proj1 Hc) as [c Hcap]; [done|]. rw Hcap.
  match goal with H : default "" _ = _ |- _ => rw Hcap in H; by rw -H end.
Qed.

(** What the end of a call did. *)
Lemma end_tool_call_shape db a key r settle now db' r' :
  sound digest db -> get_reservation db (ta_owner_user_id a) key = Some r -> rv_state r = S_RESERVED ->
  end_tool_call db a key r settle now = Ok (db', r') ->
  exists w w' u u', get_window db (ta_owner_user_id a) (rv_window_epoch r) = Some w /\
    get_tool_usage db (ta_owner_user_id a) (rv_window_epoch r) (ta_capability_id a) = Some u /\
    same_window w w' /\ wr_owner_user_id w' = ta_owner_user_id a /\ wr_epoch w' = rv_window_epoch r /\
    wr_usage w' = usage_set ((if settle then [(F_tool_calls_used, tool_calls_used (wr_usage w) + 1)] else []) ++
                   [(F_tool_calls_reserved, tool_calls_reserved (wr_usage w) - 1)]) (wr_usage w) /\
    tu_used_calls u' = (if settle then tu_used_calls u + 1 else tu_used_calls u) /\
    tu_reserved_calls u' = tu_reserved_calls u - 1 /\
    rv_state r' = (if settle then S_SETTLED else S_RELEASED) /\
    rv_settled_amount_atomic r' = (if settle then Some 1 else None) /\ same_reservation r r' /\
    db' = charged db w' (ta_capability_id a) u' r' /\
    effect db db' (fun o e c =>
      usage_delta (ta_owner_user_id a) (rv_window_epoch r)
        (moved ((if settle then [(F_tool_calls_used, tool_calls_used (wr_usage w) + 1)] else []) ++
                [(F_tool_calls_reserved, tool_calls_reserved (wr_usage w) - 1)]) (wr_usage w)) o e c +
      tool_delta (ta_owner_user_id a) (rv_window_epoch r) (ta_capability_id a)
        (tu_used_calls u' - tu_used_calls u) (tu_reserved_calls u' - tu_reserved_calls u) o e c +
      reservation_delta (Some r) r' o e c).
Proof.
  intros Hs Hr Hst H. unfold end_tool_call in H. cbv zeta in H.
  destruct (get_window db _ _) as [w|] eqn:Hw; [|done].
  destruct (get_tool_usage db _ _ _) as [u|] eqn:Hu; [|done].
  destruct (keyed_windows db (sd_keyed _ _ Hs) _ _ _ Hw) as [Hwo Hwe]. rw Hwe in H.
  apply guard_bind_ok in H as [Hpos H]. apply bind_ok in H as ([db1 w1] & Hm & H).
  destruct (mutate_window_spec _ _ _ _ _ _ _ (sd_keyed _ _ Hs) Hm) as
    (w0 & Hw0 & _ & Hsw & Eo & Ee & _ & Hus & -> & E1).
  rw Hw in Hw0. injection Hw0 as <-.
  apply bind_ok in H as ([db2 u2] & Ht & H). simpl in Ht, H.
  destruct (mutate_tool_spec _ _ _ _ _ _ _ _ _ (ef_keyed _ _ _ E1) Ht) as (u1 & Hu1 & Eu & Er & -> & E2).
  assert (u1 = u) as -> by (unfold get_tool_usage in *; simpl in Hu1; congruence).
  destruct (transition_spec _ _ _ _ _ _ _ _ _ (ef_keyed _ _ _ E2) H) as (_ & r0 & Hr0 & Hcase).
  assert (r0 = r) as -> by (unfold get_reservation in *; simpl in Hr0; congruence).
  destruct Hcase as [(_ & _ & Hbad & _)|(_ & _ & Est & Eamt & Hsr & -> & E3 & _)].
  { rw Hst in Hbad. by destruct settle. }
  exists w, w1, u, u2. do 11 (split; [done|]). unfold charged. rw Eo Ee Eu Er. split; [done|].
  exact (effect_trans _ _ _ _ _ (effect_trans _ _ _ _ _ E1 E2) E3).
Qed.

(** Settling moves a call from reserved to used, releasing gives it back. *)
Lemma end_tool_call_sound db a key r settle now db' r' :
  sound digest db -> get_reservation db (ta_owner_user_id a) key = Some r -> rv_state r = S_RESERVED ->
  rv_resource_kind r = K_TOOL_CALL -> rv_capability_id r = Some (ta_capability_id a) ->
  rv_reserved_amount_atomic r = 1 -> end_tool_call db a key r settle now = Ok (db', r') ->
  sound digest db' /\ extends db db'.
Proof.
  intros Hs Hr Hst Hkind Hcap Hamt H. destruct (end_tool_call_shape _ _ _ _ _ _ _ _ Hs Hr Hst H) as
    (w & w' & u & u' & Hw & Hu & Hsw & Eo & Ee & Hus & Eu & Er & Est & Eamt & Hsr & -> & Eff).
  destruct Hsr as (_ & Ero & Ere & Erk & Erkind & Ercap & Erres & _).
  destruct (keyed_reservations db (sd_keyed _ _ Hs) _ _ _ Hr) as [Hro Hrk].
  assert (Hz : effect db (charged db w' (ta_capability_id a) u' r') no_delta).
  { eapply effect_eq; [exact Eff|].
    intros o' e' c. unfold reservation_delta. rw (in_window_at (ta_owner_user_id a) (rv_window_epoch r)) //; [congruence|].
    unfold contribution. simpl. rw Hst Est Erkind Ercap Hkind Hcap Hamt Eamt Eu Er.
    destruct settle; simpl; destruct c as [f|c|c]; unfold usage_delta, tool_delta, moved, no_delta, ind; simpl;
      repeat case_bool_decide; simplify_eq/=; destruct (at_window _ _ o' e'); simpl; lia. }
  split; [|eapply ef_extends, Hz].
  destruct (sd_reservations _ _ Hs _ _ Hr) as [(A1 & A2 & A3 & A4) _].
  apply (charge_sound _ w); [done|by rw Eo Ee|done|by rw Eo Ero|by rw Ee Ere| |left; rw Ero Erk Hro Hrk; by eexists|done|].
  - unfold reservation_ok. rw Est Eamt Erres Erkind Ercap. split; [done|]. split; [|split; [|done]].
    + destruct settle; split; try done; by intros [? ?].
    + destruct settle; naive_solver lia.
  - intros p Hp. rw Eo in Hp. destruct (sd_limits _ _ Hs _ _ _ _ Hw Hp) as (L1 & L2 & L3).
    rw Hus Eu Er. split; [|split].
    + intros l Hl. specialize (L1 l Hl). destruct settle; simpl; lia.
    + intros l Hl. specialize (L2 _ l Hl). unfold counter_at in L2. rw Hu in L2. simpl in L2. destruct settle; lia.
    + intros l Hl. specialize (L3 l Hl). by destruct settle.
Qed.

(** ** Mirroring *)

Context (digest_inj : forall a b, digest a = digest b -> a = b).

Definition mirror_fields : list string :=
  ["version"; "owner_user_id"; "task_id"; "task_budget_kind"; "task_budget_reservation_key"; "resource_kind"].

Lemma append_inj (a b c : string) : String.append a b = String.append a c -> b = c.
Proof. induction a as [|x a IH]; [done|]. intros H. injection H as H. auto. Qed.

Lemma mirror_key_inj o t k key res o' t' k' key' res' :
  mirror_key digest o t k key res = mirror_key digest o' t' k' key' res' ->
  o = o' /\ t = t' /\ k = k' /\ key = key' /\ res = res'.
Proof.
  unfold mirror_key. intros H. apply append_inj, digest_inj in H.
  apply (string_object_inj false mirror_fields [UBQ2_IDEMPOTENCY_VERSION; o; t; k; key; res]
    [UBQ2_IDEMPOTENCY_VERSION; o'; t'; k'; key'; res']) in H; [|done..]. by simplify_eq.
Qed.

Lemma mirror_tool_usage_spec db o e res cap amount db' :
  keyed db -> mirror_tool_usage db o e res cap amount = Ok db' ->
  effect db db' (fun o' e' c => if bool_decide (res = K_TOOL_CALL)
                                then tool_delta o e (default "None" cap) amount 0 o' e' c else 0) /\
  ub_windows db' = ub_windows db /\ ub_reservations db' = ub_reservations db /\
  ub_receipts db' = ub_receipts db /\ ub_policies db' = ub_policies db /\
  (forall o' e' c, (o', e') <> (o, e) -> get_tool_usage db' o' e' c = get_tool_usage db o' e' c).
Proof.
  intros Hk H. unfold mirror_tool_usage in H. case_bool_decide as Hres.
  2:{ unfold mret, result_ret in H. injection H as <-. by split; [apply effect_refl|]. }
  apply bind_ok in H as ([db1 u] & Hu & H). apply bind_ok in H as ([db2 u2] & Ht & H).
  unfold mret, result_ret in H. injection H as <-.
  destruct (create_tool_usage_spec _ _ _ _ _ _ Hk Hu) as (E1 & Hu1 & _ & Hdb1).
  destruct (mutate_tool_spec _ _ _ _ _ _ _ _ _ (ef_keyed _ _ _ E1) Ht) as (u1 & Hu1' & _ & _ & -> & E2).
  rw Hu1 in Hu1'. injection Hu1' as <-. split.
  - eapply effect_eq; [exact (effect_trans _ _ _ _ _ E1 E2)|]. intros o' e' c. unfold no_delta, tool_delta, ind.
    destruct c; repeat case_match; simpl; lia.
  - assert (Hsame : ub_windows db1 = ub_windows db /\ ub_reservations db1 = ub_reservations db /\
      ub_receipts db1 = ub_receipts db /\ ub_policies db1 = ub_policies db) by by destruct Hdb1 as [->| ->].
    destruct Hsame as (? & ? & ? & ?). do 4 (split; [done|]). intros o' e' c Hne. unfold get_tool_usage. simpl.
    rw lookup_insert_ne; [congruence|]. destruct Hdb1 as [->| ->]; [done|]. simpl. rw lookup_insert_ne //. congruence.
Qed.

Lemma shadow_unlimited p : is_recognized_shadow_policy digest p = true -> unlimited p.
Proof.
  unfold is_recognized_shadow_policy. cbv zeta. intros H.
  do 3 (apply andb_true_iff in H as [H ?]). apply andb_true_iff in H as [_ H]. simpl in H. breflect.
  split; [done|]. split; [done|]. intros cap. unfold per_tool_limit.
  match goal with H : pr_tool_limits_json p = _ |- _ => rw H lookup_empty end. done.
Qed.

Lemma unlimited_calls db o e u p : unlimited p -> calls_within db o e u p.
Proof.
  intros (H1 & H2 & H3). split; [|split].
  - intros l. by rw H1.
  - intros cap l. by rw H3.
  - intros l. by rw H2.
Qed.

Lemma resource_of_value_inv s r : resource_of_value s = Some r -> resource_value r = s.
Proof. unfold resource_of_value. intros H. apply find_some in H as [_ H]. by apply bool_decide_eq_true in H. Qed.

(** The reservation, the charge, the calls and the settlement of a mirrored amount cancel
    out. *)
Lemma mirror_cancels o e res field cap amount r0 r u o' e' c :
  mirrored_field res = Some field -> rv_owner_user_id r0 = o -> rv_window_epoch r0 = e ->
  rv_state r0 = S_RESERVED -> rv_resource_kind r0 = res -> rv_capability_id r0 = cap ->
  rv_reserved_amount_atomic r0 = amount -> (res = K_TOOL_CALL -> is_Some cap) -> same_reservation r0 r ->
  rv_state r = S_SETTLED -> rv_settled_amount_atomic r = Some amount ->
  reservation_delta None r0 o' e' c + usage_delta o e (moved [(field, usage_get field u + amount)] u) o' e' c +
  ((if bool_decide (res = K_TOOL_CALL) then tool_delta o e (default "None" cap) amount 0 o' e' c else 0) +
   reservation_delta (Some r0) r o' e' c) = 0.
Proof.
  intros Hf Ho He Hst Hk Hcap Hamt Htool Hsr Hst' Hamt'. destruct Hsr as (_ & Ero & Ere & _ & Erk & Erc & Era & _).
  unfold reservation_delta. rw (in_window_at o e o' e' r0) // (in_window_at o e o' e' r); [congruence|congruence|].
  unfold contribution. simpl. rw Hst Hst' Erk Erc Hk Hcap Hamt Hamt'. simpl.
  destruct (at_window o e o' e') eqn:Ea.
  - destruct res; simplify_eq/=; try (destruct Htool as [c0 ->]; [done|]);
      destruct c as [f|c|c]; unfold usage_delta, tool_delta, moved, ind; simpl; rw ?Ea; simpl;
      repeat case_bool_decide; simplify_eq/=; lia.
  - unfold usage_delta, tool_delta, ind. rw Ea. destruct c; simpl; repeat case_match; lia.
Qed.

(** What mirroring one dimension did. *)
Lemma mirror_dimension_shape db b kind key fp w now d db' w' row :
  sound digest db -> get_window db (ts_owner_user_id b) (wr_epoch w) = Some w ->
  get_dual_accounting_receipt db (ts_task_id b) kind key (md_resource_kind d) = None ->
  mirror_dimension digest db b kind key fp w now d = Ok (db', w', row) ->
  exists res field r, resource_of_value (md_resource_kind d) = Some res /\ mirrored_field res = Some field /\
    0 < md_amount_atomic d /\ same_window w w' /\ get_window db' (ts_owner_user_id b) (wr_epoch w) = Some w' /\
    wr_usage w' = usage_set [(field, usage_get field (wr_usage w) + md_amount_atomic d)] (wr_usage w) /\
    effect db db' no_delta /\ touches db db' (ts_owner_user_id b) (wr_epoch w) /\
    same_reservation (new_reservation digest (mirror_intent digest b kind key res d (wr_epoch w))) r /\
    rv_state r = S_SETTLED /\ rv_settled_amount_atomic r = Some (md_amount_atomic d) /\
    intent_valid (mirror_intent digest b kind key res d (wr_epoch w)) = true /\
    ub_reservations db' = <[(ts_owner_user_id b, mirror_key digest (ts_owner_user_id b) (ts_task_id b) kind key
                               (resource_value res)) := r]> (ub_reservations db) /\
    ub_receipts db' = <[(ts_task_id b, kind, key, resource_value res) := row]> (ub_receipts db) /\
    dr_owner_user_id row = ts_owner_user_id b /\ dr_source_payload_fingerprint row = fp /\
    dr_amount_atomic row = md_amount_atomic d /\ dr_capability_id row = md_capability_id d /\
    dr_window_epoch row = Some (wr_epoch w) /\ dr_ubq_reservation_id row = Some (rv_reservation_id r) /\
    dr_ubq_idempotency_key row = Some (rv_idempotency_key r) /\
    dr_ubq_payload_fingerprint row = Some (rv_payload_fingerprint r).
Proof.
  intros Hs Hw Hc H. unfold mirror_dimension in H.
  destruct (resource_of_value (md_resource_kind d)) as [res|] eqn:Eres; [|done].
  pose proof (resource_of_value_inv _ _ Eres) as Hval. cbv zeta in H.
  apply guard_bind_ok in H as [Hamt H]. apply guard_bind_ok in H as [_ H]. apply guard_bind_ok in H as [_ H].
  apply guard_bind_ok in H as [Hv H]. apply bind_ok in H as ([db1 r0] & Hr & H).
  destruct (create_reservation_spec _ _ _ _ _ (sd_keyed _ _ Hs) Hr) as [(-> & Hex & _)|(_ & -> & -> & E1)].
  { destruct (sd_mirror _ _ Hs (ts_owner_user_id b) (ts_task_id b) kind key (resource_value res)) as [? Hbad];
      [by eexists|]. rw Hval Hc in Hbad. done. }
  destruct (mirrored_field res) as [field|] eqn:Ef; [|done].
  apply bind_ok in H as ([db2 w2] & Hm & H).
  destruct (mutate_window_spec _ _ _ _ _ _ _ (ef_keyed _ _ _ E1) Hm) as
    (w1 & Hw1 & _ & Hsw & Eo & Ee & _ & Hus & -> & E2).
  assert (w1 = w) as -> by (unfold get_window in *; simpl in Hw1; congruence).
  apply bind_ok in H as (db3 & Ht & H).
  destruct (mirror_tool_usage_spec _ _ _ _ _ _ _ (ef_keyed _ _ _ E2) Ht) as (E3 & Hw3 & Hr3 & Hc3 & Hp3 & Ht3).
  apply bind_ok in H as ([db4 r4] & Htr & H).
  destruct (transition_spec _ _ _ _ _ _ _ _ _ (ef_keyed _ _ _ E3) Htr) as (_ & r1 & Hr1 & Hcase).
  unfold get_reservation in Hr1. rw Hr3 in Hr1. simpl in Hr1. rw lookup_insert_eq in Hr1. injection Hr1 as <-.
  destruct Hcase as [(_ & _ & Hbad & _)|(_ & _ & Est & Eamt & Hsr & -> & E4 & _)]; [done|].
  apply bind_ok in H as ([db5 row5] & Hb & H). unfold mret, result_ret in H. injection H as <- <- <-.
  destruct (create_receipt_effect _ _ _ _ (ef_keyed _ _ _ E4) Hb) as (E5 & _).
  unfold create_or_get_dual_accounting_receipt in Hb.
  match type of Hb with context [receipt_key ?x] => set (row := x) in * end.
  assert (Hnone : ub_receipts (put_reservation db3 r4) !! receipt_key row = None).
  { simpl. rw Hc3. unfold get_dual_accounting_receipt in Hc. simpl. by rw -Hval in Hc. }
  rw Hnone in Hb. crush_step_in Hb; [|done]. injection Hb as <- <-.
  pose proof Hsr as (_ & Ero & Ere & Erk & _). simpl in Ero, Ere, Erk.
  match type of E5 with effect _ ?x _ => assert (Hz : effect db x no_delta) end.
  { eapply effect_eq; [exact (effect_trans _ _ _ _ _
      (effect_trans _ _ _ _ _ (effect_trans _ _ _ _ _ E1 E2) (effect_trans _ _ _ _ _ E3 E4)) E5)|].
    intros o' e' c. unfold no_delta. rw Z.add_0_r Ee. eapply mirror_cancels; try done.
    intros Hres. destruct (intent_ok _ Hv) as (_ & _ & _ & Hcap). by apply Hcap. }
  breflect. exists res, field, r4. do 4 (split; [done|]).
  assert (Hwin : get_window (with_receipts (put_reservation db3 r4)
    (<[receipt_key row := row]> (ub_receipts (put_reservation db3 r4)))) (ts_owner_user_id b) (wr_epoch w) = Some w2).
  { unfold get_window. simpl. rw Hw3. simpl. by rw Eo Ee lookup_insert_eq. }
  do 3 (split; [done|]). split; [|do 4 (split; [done|]); split; [|split; [|do 4 (split; [done|]); split; [by simpl; rw Ee|done]]]].
  - split; [eapply ef_extends, Hz|]. split; [by simpl; rw Hp3|]. split; [|split; [|by rw Hw]].
    + intros o' e' Hne. unfold get_window. simpl. rw Hw3. simpl. rw Eo Ee lookup_insert_ne //.
    + intros o' e' cap Hne. rw -Ee in Hne. exact (Ht3 o' e' cap Hne).
  - simpl. rw Hr3. simpl. rw Ero Erk. by rw insert_insert_eq.
  - simpl. by rw Hc3.
Qed.

Lemma mirror_dimension_sound db b kind key fp w now d db' w' row :
  sound digest db -> get_window db (ts_owner_user_id b) (wr_epoch w) = Some w ->
  (forall p, get_policy db (ts_owner_user_id b) (wr_governing_policy_id w) = Some p -> unlimited p) ->
  get_dual_accounting_receipt db (ts_task_id b) kind key (md_resource_kind d) = None ->
  mirror_dimension digest db b kind key fp w now d = Ok (db', w', row) ->
  sound digest db' /\ extends db db'.
Proof.
  intros Hs Hw Hun Hc H. destruct (mirror_dimension_shape _ _ _ _ _ _ _ _ _ _ _ Hs Hw Hc H) as
    (res & field & r & _ & _ & _ & Hsw & Hw' & _ & Hz & Ht & Hsr & Est & Eamt & Hv & Hr & Hrc & Do & _ & Da & Dc & De &
     Di & Dk & Dp).
  split; [|eapply ef_extends, Hz].
  pose proof Ht as (_ & Hp & _). pose proof Hsr as (_ & Ero & Ere & Erk & Erkind & Ercap & Erres & _).
  apply (touches_sound db _ (ts_owner_user_id b) (wr_epoch w)); [done|done|done| | | | |].
  - intros w1 p Hw1 Hgp. rw Hw' in Hw1. injection Hw1 as <-. apply unlimited_calls, Hun.
    destruct Hsw as (_ & _ & Ei & _). rw Ei in Hgp. unfold get_policy in *. by rw Hp in Hgp.
  - intros k r1 Hk. rw Hr in Hk. apply lookup_insert_Some in Hk as [[<- <-]|[_ Hk]]; [right|by left].
    split; [|done]. destruct (intent_ok _ Hv) as (A1 & _ & _ & A4).
    unfold reservation_ok. rw Est Eamt Erres Erkind Ercap. split; [done|]. split; [done|]. split; [|done].
    intros z [= <-]. simpl in A1. lia.
  - intros o t k ky rs Hsm. unfold get_dual_accounting_receipt, get_reservation in *. rw Hrc. rw Hr in Hsm.
    apply lookup_insert_is_Some in Hsm as [E|[_ Hsm]].
    + apply (f_equal snd), mirror_key_inj in E as (_ & -> & -> & -> & ->). by rw lookup_insert_eq.
    + apply lookup_insert_is_Some'. right. by apply (sd_mirror _ _ Hs o).
  - intros k rw1 Hk. pose proof (keyed_receipts _ (ef_keyed _ _ _ Hz) _ _ Hk) as Ekey. rw Hrc in Hk.
    apply lookup_insert_Some in Hk as [[<- <-]|[_ Hk]]; [right; right|by left].
    injection Ekey as _ _ _ Edim. exists r. rw Do Dk De Di Dp Erk Eamt Est Da Dc Ercap Edim Erkind. simpl.
    split; [unfold get_reservation; rw Hr; by rw lookup_insert_eq|]. by rw Ere.
  - eapply inference_complete_insert; [apply Hs|exact Hr|]. intros. apply mirror_not_inference.
Qed.

(** The dimensions of a charge name different resources. *)
Definition distinct_resources (l : list MirrorDimension) : Prop := NoDup (map md_resource_kind l).

(** The state in which the next dimension is mirrored. *)
Lemma mirror_rest d l db b kind key fp w now db1 w1 row :
  sound digest db -> get_window db (ts_owner_user_id b) (wr_epoch w) = Some w ->
  (forall p, get_policy db (ts_owner_user_id b) (wr_governing_policy_id w) = Some p -> unlimited p) ->
  distinct_resources (d :: l) ->
  (forall d', d' ∈ d :: l -> get_dual_accounting_receipt db (ts_task_id b) kind key (md_resource_kind d') = None) ->
  mirror_dimension digest db b kind key fp w now d = Ok (db1, w1, row) ->
  sound digest db1 /\ get_window db1 (ts_owner_user_id b) (wr_epoch w1) = Some w1 /\
  (forall p, get_policy db1 (ts_owner_user_id b) (wr_governing_policy_id w1) = Some p -> unlimited p) /\
  distinct_resources l /\
  (forall d', d' ∈ l -> get_dual_accounting_receipt db1 (ts_task_id b) kind key (md_resource_kind d') = None) /\
  get_dual_accounting_receipt db1 (ts_task_id b) kind key (md_resource_kind d) = Some row /\
  receipt_matches row b fp d = true.
Proof.
  intros Hs Hw Hun Hd Hc H1. apply NoDup_cons in Hd as [Hnin Hd].
  assert (Hc1 : get_dual_accounting_receipt db (ts_task_id b) kind key (md_resource_kind d) = None)
    by (apply Hc; left).
  destruct (mirror_dimension_sound _ _ _ _ _ _ _ _ _ _ _ Hs Hw Hun Hc1 H1) as [Hs1 _].
  destruct (mirror_dimension_shape _ _ _ _ _ _ _ _ _ _ _ Hs Hw Hc1 H1) as
    (res & field & r & Eres & _ & _ & Hsw & Hw1 & _ & _ & Ht & _ & _ & _ & _ & _ & Hrc & Do & Df & Da & Dc & _).
  pose proof Hsw as (_ & Ee & Ei & _). apply resource_of_value_inv in Eres.
  split; [done|]. split; [by rw Ee|]. split; [|split; [done|split; [|split]]].
  - rw Ei. destruct Ht as (_ & Hp & _). unfold get_policy. by rw Hp.
  - intros d' Hd'. unfold get_dual_accounting_receipt. rw Hrc lookup_insert_ne; [|by apply Hc; right].
    intros [= E]. apply Hnin. rw -Eres E. apply list_elem_of_fmap. eauto.
  - unfold get_dual_accounting_receipt. rw Hrc -Eres. by rw lookup_insert_eq.
  - unfold receipt_matches, same_capability. rw Do Df Da Dc Z.eqb_refl !bool_decide_eq_true_2 //.
Qed.

Lemma mirror_dimensions_sound l db b kind key fp w now db' rows :
  sound digest db -> get_window db (ts_owner_user_id b) (wr_epoch w) = Some w ->
  (forall p, get_policy db (ts_owner_user_id b) (wr_governing_policy_id w) = Some p -> unlimited p) ->
  distinct_resources l ->
  (forall d, d ∈ l -> get_dual_accounting_receipt db (ts_task_id b) kind key (md_resource_kind d) = None) ->
  mirror_dimensions digest db b kind key fp w now l = Ok (db', rows) ->
  sound digest db' /\ extends db db'.
Proof.
  revert db w rows. induction l as [|d l IH]; intros db w rows Hs Hw Hun Hd Hc H; simpl in H.
  { by injection H as <- <-. }
  apply bind_ok in H as ([[db1 w1] row] & H1 & H). apply bind_ok in H as ([db2 rest] & H2 & H).
  unfold mret, result_ret in H. injection H as <- <-.
  destruct (mirror_rest _ _ _ _ _ _ _ _ _ _ _ _ Hs Hw Hun Hd Hc H1) as (Hs1 & Hw1 & Hun1 & Hd1 & Hc1 & _).
  destruct (IH _ _ _ Hs1 Hw1 Hun1 Hd1 Hc1 H2) as [Hs2 Hx2]. split; [done|]. etrans; [|done].
  eapply mirror_dimension_sound; [exact Hs|exact Hw|exact Hun|by apply Hc; left|done].
Qed.

(** ** Opening shadow windows *)

Lemma policy_ok_opens db db' :
  sound digest db -> opens db db' -> ub_policies db' = ub_policies db -> sound digest db'.
Proof. intros Hs Ho Hp. apply (opens_sound db); [done|done|]. rw Hp. apply Hs. Qed.

(** An update of policies and accounts. *)
Lemma opens_frame db db' :
  effect db db' no_delta -> ub_windows db' = ub_windows db -> ub_tool_usage db' = ub_tool_usage db ->
  ub_reservations db' = ub_reservations db -> ub_receipts db' = ub_receipts db ->
  ub_bindings db' = ub_bindings db -> opens db db'.
Proof. intros. split; try done. by apply windows_from_same. Qed.

Lemma unbounded_ok i o v d : policy_ok (durable_values digest (unbounded_policy i o v d)).
Proof.
  assert (Hun : unlimited (durable_values digest (unbounded_policy i o v d))).
  { split; [done|]. split; [done|]. intros cap. unfold per_tool_limit. simpl. by rw lookup_empty. }
  split; [|done]. destruct Hun as (H1 & H2 & H3).
  split; [|split]; [intros l; by rw H1|intros cap l; by rw H3|intros l; by rw H2].
Qed.

Lemma create_shadow_policy_opens db p db' r :
  sound digest db -> create_or_get_immutable_policy digest db p = Ok (db', r) ->
  policy_ok (durable_values digest p) -> opens db db' /\ sound digest db'.
Proof.
  intros Hs H Hp. destruct (create_policy_effect _ _ _ _ _ (sd_keyed _ _ Hs) H) as [He _].
  unfold create_or_get_immutable_policy in H. cbv zeta in H.
  assert (Hcase : db' = db \/ db' = with_policies db (<[up_policy_id p := durable_values digest p]> (ub_policies db))).
  { ub_inv; auto. }
  destruct Hcase as [->| ->]; [split; [by apply opens_refl, Hs|done]|].
  assert (Ho : opens db (with_policies db (<[up_policy_id p := durable_values digest p]> (ub_policies db))))
    by by apply opens_frame.
  split; [done|]. apply (opens_sound db); [done|done|]. simpl. intros i q Hq.
  apply lookup_insert_Some in Hq as [[_ <-]|[_ Hq]]; [done|]. by eapply Hs.
Qed.

Lemma create_account_opens db o db' a :
  sound digest db -> create_or_get_account db o = (db', a) ->
  opens db db' /\ sound digest db' /\ get_account db' o = Some a.
Proof.
  intros Hs H. destruct (create_account_effect _ _ _ _ (sd_keyed _ _ Hs) H) as [He Ha].
  assert (Hsame : ub_windows db' = ub_windows db /\ ub_tool_usage db' = ub_tool_usage db /\
    ub_reservations db' = ub_reservations db /\ ub_receipts db' = ub_receipts db /\
    ub_bindings db' = ub_bindings db /\ ub_policies db' = ub_policies db).
  { unfold create_or_get_account in H. by destruct (get_account db o); injection H as <- _. }
  destruct Hsame as (? & ? & ? & ? & ? & ?). assert (Ho : opens db db') by by apply opens_frame.
  split; [done|]. split; [by apply (policy_ok_opens db)|done].
Qed.

Lemma select_policy_opens db o rev i db' a :
  sound digest db -> select_next_policy db o rev i = Ok (db', a) ->
  opens db db' /\ sound digest db' /\ get_account db' o = Some a /\ ar_next_policy_id a = Some i.
Proof.
  intros Hs H. destruct (select_policy_effect _ _ _ _ _ _ (sd_keyed _ _ Hs) H) as (He & Ha & Hi & _).
  assert (Hsame : ub_windows db' = ub_windows db /\ ub_tool_usage db' = ub_tool_usage db /\
    ub_reservations db' = ub_reservations db /\ ub_receipts db' = ub_receipts db /\
    ub_bindings db' = ub_bindings db /\ ub_policies db' = ub_policies db).
  { unfold select_next_policy in H. by ub_inv. }
  destruct Hsame as (? & ? & ? & ? & ? & ?). assert (Ho : opens db db') by by apply opens_frame.
  split; [done|]. split; [by apply (policy_ok_opens db)|done].
Qed.

Definition shadow_governed (db : UserBudgetDB) (o i : string) : Prop :=
  forall p, get_policy db o i = Some p -> unlimited p.

Lemma prefix_append (a b : string) : String.prefix a (String.append a b) = true.
Proof. induction a as [|x a IH]; simpl; [by destruct b|]. by destruct (Ascii.ascii_dec x x). Qed.

Lemma ensure_shadow_spec settings db o db' a :
  sound digest db -> ensure_shadow_account digest settings db o = Ok (db', a) ->
  opens db db' /\ sound digest db' /\ get_account db' o = Some a /\
  (forall i, ar_next_policy_id a = Some i -> shadow_governed db' o i) /\
  (forall w, get_active_window db' o = Ok (Some w) -> shadow_governed db' o (wr_governing_policy_id w)).
Proof.
  intros Hs H. unfold ensure_shadow_account in H. apply bind_ok in H as (p & Hp & H).
  unfold shadow_policy in Hp. cbv zeta in Hp. apply guard_bind_ok in Hp as [_ Hp].
  unfold mret, result_ret in Hp. injection Hp as <-.
  apply bind_ok in H as ([db1 row] & H1 & H).
  destruct (create_shadow_policy_opens _ _ _ _ Hs H1 (unbounded_ok _ _ _ _)) as [O1 S1].
  destruct (create_policy_effect _ _ _ _ _ (sd_keyed _ _ Hs) H1) as [_ Hid]. simpl in Hid.
  destruct (create_or_get_account db1 o) as [db2 acc] eqn:H2.
  destruct (create_account_opens _ _ _ _ S1 H2) as (O2 & S2 & A2).
  apply bind_ok in H as ([db3 acc'] & H3 & H). apply bind_ok in H as (active & Hact & H).
  apply guard_bind_ok in H as [Hg H]. unfold mret, result_ret in H. injection H as <- <-.
  assert (Hsel : opens db2 db3 /\ sound digest db3 /\ get_account db3 o = Some acc' /\
    (forall i, ar_next_policy_id acc' = Some i -> shadow_governed db3 o i)).
  { destruct (ar_next_policy_id acc) as [i|] eqn:Ei.
    - apply guard_bind_ok in H3 as [Hr H3]. unfold mret, result_ret in H3. injection H3 as <- <-.
      split; [by apply opens_refl, S2|]. split; [done|]. split; [done|]. intros j Hj q Hq.
      rw Ei in Hj. injection Hj as <-. rw Hq in Hr. by apply shadow_unlimited.
    - destruct (select_policy_opens _ _ _ _ _ _ S2 H3) as (O3 & S3 & A3 & Hi).
      split; [done|]. split; [done|]. split; [done|]. intros j Hj q Hq. rw Hi in Hj. injection Hj as <-.
      apply get_policy_spec in Hq as [Hq _]. destruct (sd_policies _ _ S3 _ _ Hq) as [_ Hun]. apply Hun.
      rw (keyed_policies _ (sd_keyed _ _ S3) _ _ Hq) Hid. apply prefix_append. }
  destruct Hsel as (O3 & S3 & A3 & Hi). split; [exact (opens_trans _ _ _ O1 (opens_trans _ _ _ O2 O3))|].
  do 3 (split; [done|]). intros w Hw q Hq. rw Hact in Hw. injection Hw as ->. rw Hq in Hg.
  apply andb_true_iff in Hg as [Hg _]. by apply shadow_unlimited.
Qed.

Lemma ensure_window_spec settings db o now db' w :
  sound digest db -> ensure_active_shadow_window digest settings db o now = Ok (db', w) ->
  opens db db' /\ sound digest db' /\ get_window db' o (wr_epoch w) = Some w /\
  shadow_governed db' o (wr_governing_policy_id w).
Proof.
  intros Hs H. unfold ensure_active_shadow_window in H. apply bind_ok in H as ([db1 a] & H1 & H).
  destruct (ensure_shadow_spec _ _ _ _ _ Hs H1) as (O1 & S1 & A1 & Hnext & Hactive).
  apply bind_ok in H as (active & Hact & H).
  assert (Hroll : rollover_window db1 o (ar_revision a) now = Ok (db', w) ->
    opens db db' /\ sound digest db' /\ get_window db' o (wr_epoch w) = Some w /\
    shadow_governed db' o (wr_governing_policy_id w)).
  { intros Hr. pose proof (rollover_policies _ _ _ _ _ _ Hr) as Hp.
    destruct (rollover_spec _ _ _ _ _ _ _ (sd_keyed _ _ S1) A1 Hr) as (O2 & Hw & _ & Hpol).
    assert (S2 : sound digest db') by by apply (policy_ok_opens db1).
    destruct (get_active_window_spec _ _ _ (sd_keyed _ _ S2) Hw) as (Hg & _).
    split; [by eapply opens_trans|]. split; [done|]. split; [done|].
    unfold shadow_governed, get_policy. rw Hp. destruct Hpol as [->|Hi]; [by apply Hactive|by apply Hnext]. }
  destruct active as [w0|]; [|by apply Hroll].
  destruct (now <? wr_expires_at w0); [|by apply Hroll]. unfold mret, result_ret in H. injection H as <- <-.
  destruct (get_active_window_spec _ _ _ (sd_keyed _ _ S1) Hact) as (Hg & _). auto.
Qed.

Lemma existing_receipts_missing db b kind key fp l missing :
  existing_receipts db b kind key fp l = Ok ([], missing) ->
  missing = l /\ forall d, d ∈ l -> get_dual_accounting_receipt db (ts_task_id b) kind key (md_resource_kind d) = None.
Proof.
  revert missing. induction l as [|d l IH]; intros missing H; simpl in H.
  { injection H as <-. split; [done|]. intros d Hd. by apply elem_of_nil in Hd. }
  destruct (get_dual_accounting_receipt _ _ _ _ _) eqn:E.
  - apply guard_bind_ok in H as [_ H]. apply bind_ok in H as ([a m] & _ & H). discriminate H.
  - apply bind_ok in H as ([a m] & Hr & H). unfold mret, result_ret in H. simpl in H. injection H as -> <-.
    destruct (IH m Hr) as [-> Hd]. split; [done|]. intros d' [->|?]%elem_of_cons; [done|by apply Hd].
Qed.

(** Mirroring a charge keeps the invariant. *)
Lemma mirror_resource_sound settings db b kind key fp l now db' rows :
  sound digest db -> distinct_resources l ->
  mirror_resource digest settings db b kind key fp l now = Ok (db', rows) ->
  sound digest db' /\ extends db db'.
Proof.
  intros Hs Hd H. unfold mirror_resource in H. apply guard_bind_ok in H as [_ H].
  apply bind_ok in H as ([found missing] & Hf & H).
  destruct found as [|f found], missing as [|m missing]; try discriminate H;
    try (unfold mret, result_ret in H; by injection H as <- _).
  apply existing_receipts_missing in Hf as [Hmiss Hc]. destruct (is_no_charge l) eqn:En.
  - apply bind_ok in H as ([db1 row] & H1 & H). unfold mret, result_ret in H. injection H as <- <-. simpl.
    destruct (create_receipt_effect _ _ _ _ (sd_keyed _ _ Hs) H1) as (He & _ & Hrc & Hres).
    split; [|eapply ef_extends, He].
    assert (Hsame : ub_windows db1 = ub_windows db /\ ub_tool_usage db1 = ub_tool_usage db /\
      ub_policies db1 = ub_policies db).
    { unfold create_or_get_dual_accounting_receipt in H1. by ub_inv. }
    destruct Hsame as (Hw & Ht & Hp). apply (sound_same_tables db); try done.
    + intros k Hsm. rw Hrc. apply lookup_insert_is_Some'. by right.
    + intros k row1 Hk. pose proof (keyed_receipts _ (ef_keyed _ _ _ He) _ _ Hk) as Ekey. rw Hrc in Hk.
      apply lookup_insert_Some in Hk as [[<- <-]|[_ Hk]]; [right; left|by left]. by injection Ekey.
  - apply bind_ok in H as ([db1 w] & H1 & H).
    destruct (ensure_window_spec _ _ _ _ _ _ Hs H1) as (O1 & S1 & Hw & Hsh).
    destruct (fun Hn => mirror_dimensions_sound _ _ _ _ _ _ _ _ _ _ S1 Hw Hsh Hd Hn H) as [? ?].
    { intros d Hin. unfold get_dual_accounting_receipt. rw (os_receipts _ _ O1). by apply Hc. }
    split; [done|]. etrans; [eapply ef_extends, os_effect, O1|done].
Qed.

(** The dimensions the task budget passes name different resources. *)
Lemma inference_distinct : distinct_resources inference_dimensions.
Proof. apply NoDup_singleton. Qed.

Lemma tool_call_distinct cap l : tool_call_dimensions cap = Ok l -> distinct_resources l.
Proof. unfold tool_call_dimensions. intros H. ub_inv. apply NoDup_singleton. Qed.

Lemma usage_distinct tokens cost l : usage_dimensions tokens cost = Ok l -> distinct_resources l.
Proof.
  unfold usage_dimensions. intros H. apply bind_ok in H as (c & _ & H). unfold mret, result_ret in H.
  injection H as <-. unfold distinct_resources.
  destruct (0 <? tokens), (0 <? c); simpl; by repeat constructor; set_solver.
Qed.
End Invariant.
