(* ===== verification/UserInferenceInvariant.v ===== *)
(** * Inference quotas keep the invariant of user budgets

    The admission of an inference reserves several resources in one window, and its
    settlement settles those whose usage is known; both keep [sound].  An admission is
    [genuine] when its keys name reservations of its own window. *)

From S2P Require Import Prelude Canonical CanonicalInjectivity TaskBudgetSchema AgentStore UserBudget.
From S2P Require Import UserBudgetAuthority UserToolQuota UserInferenceQuota UserBudgetLedger UserBudgetInvariant.

(** Every key of the admission is a reservation of its kind, in its window. *)
Definition genuine (db : UserBudgetDB) (a : InferenceQuotaAdmission) : Prop :=
  NoDup (map fst (ia_reservation_keys a)) /\
  forall kind key, (kind, key) ∈ ia_reservation_keys a -> kind <> K_TOOL_CALL /\
    exists r, get_reservation db (ia_owner_user_id a) key = Some r /\
      rv_resource_kind r = kind /\ rv_window_epoch r = ia_window_epoch a.

Lemma genuine_extends db db' a : extends db db' -> genuine db a -> genuine db' a.
Proof.
  intros Hx [Hd Hg]. split; [done|]. intros kind key Hin. destruct (Hg _ _ Hin) as (Hk & r & Hr & Ek & Ee).
  split; [done|]. destruct (ex_reservations _ _ Hx _ _ Hr) as (r' & Hr' & (_ & _ & Ee' & _ & Ek' & _)).
  exists r'. split; [done|]. split; congruence.
Qed.

Section Inference.
Context (digest : string -> string) (digest_inj : forall a b, digest a = digest b -> a = b).
Implicit Types (db : UserBudgetDB).

Lemma resource_value_inj k k' : resource_value k = resource_value k' -> k = k'.
Proof. by destruct k, k'. Qed.

Lemma inference_key_inj req kind req' kind' :
  inference_key digest req kind = inference_key digest req' kind' -> req = req' /\ kind = kind'.
Proof.
  unfold inference_key. intros H. apply append_inj, digest_inj in H.
  apply (string_object_inj false ["version"; "logical_request_id"; "resource_kind"]
    [UBQ4_RESERVATION_VERSION; req; resource_value kind]
    [UBQ4_RESERVATION_VERSION; req'; resource_value kind']) in H; [|done..].
  injection H as -> H. by apply resource_value_inj in H.
Qed.

(** The deltas of the reservations of a request. *)
Definition intents_delta (o : string) (epoch : Z) (c : InferenceQuotaContext) (fp : string)
    (amounts : list (UserBudgetResourceKind * Z)) (o' : string) (e' : Z) (k : Counter) : Z :=
  foldr (fun ka acc => reservation_delta None
    (new_reservation digest (inference_intent digest o epoch c fp ka.1 ka.2)) o' e' k + acc) 0 amounts.

Definition request_key (c : InferenceQuotaContext) (kind : UserBudgetResourceKind) : string :=
  inference_key digest (ic_logical_request_id c) kind.

Lemma reserve_amounts_spec amounts db o epoch c fp db' keys :
  keyed db -> NoDup (map fst amounts) ->
  (forall kind, kind ∈ map fst amounts -> get_reservation db o (request_key c kind) = None) ->
  reserve_amounts digest db o epoch c fp amounts = Ok (db', keys) ->
  effect db db' (intents_delta o epoch c fp amounts) /\
  keys = map (fun ka : UserBudgetResourceKind * Z => (ka.1, request_key c ka.1)) amounts /\
  (forall k r, ub_reservations db' !! k = Some r -> ub_reservations db !! k = Some r \/
     exists kind amount, (kind, amount) ∈ amounts /\ k = (o, request_key c kind) /\
       r = new_reservation digest (inference_intent digest o epoch c fp kind amount) /\
       intent_valid (inference_intent digest o epoch c fp kind amount) = true) /\
  (forall kind amount, (kind, amount) ∈ amounts ->
     get_reservation db' o (request_key c kind) =
       Some (new_reservation digest (inference_intent digest o epoch c fp kind amount))) /\
  ub_windows db' = ub_windows db /\ ub_tool_usage db' = ub_tool_usage db /\
  ub_receipts db' = ub_receipts db /\ ub_policies db' = ub_policies db.
Proof.
  revert db keys. induction amounts as [|[kind amount] l IH]; intros db keys Hk Hd Hn H; simpl in H.
  { injection H as <- <-. split; [by apply effect_refl|]. split; [done|]. split; [auto|]. split; [|done].
    intros k a Hin. by apply elem_of_nil in Hin. }
  cbv zeta in H. apply guard_bind_ok in H as [Hv H]. apply bind_ok in H as ([db1 r] & Hr & H).
  apply NoDup_cons in Hd as [Hnin Hd].
  destruct (create_reservation_spec _ _ _ _ _ Hk Hr) as [(-> & Hex & _)|(_ & -> & -> & E1)].
  { specialize (Hn kind ltac:(by left)). unfold request_key in Hn. simpl in Hex. congruence. }
  apply bind_ok in H as (? & _ & H). apply bind_ok in H as ([db2 rest] & H2 & H). simpl in H2.
  unfold mret, result_ret in H. injection H as <- <-.
  assert (Hother : forall kind', kind' <> kind ->
    get_reservation (put_reservation db (new_reservation digest (inference_intent digest o epoch c fp kind amount)))
      o (request_key c kind') = get_reservation db o (request_key c kind')).
  { intros kind' Hne. unfold get_reservation. simpl. rw lookup_insert_ne //. intros E.
    apply (f_equal snd), inference_key_inj in E as [_ E]. done. }
  destruct (fun Hf => IH _ _ (ef_keyed _ _ _ E1) Hd Hf H2) as (E2 & -> & Hlook & Hnew & Hw & Ht & Hc & Hp).
  { intros kind' Hin. rw Hother; [by intros ->|]. apply Hn. by right. }
  split; [exact (effect_trans _ _ _ _ _ E1 E2)|]. split; [done|]. split; [|split; [|done]].
  - intros k r Hkr. destruct (Hlook _ _ Hkr) as [Hkr1|(k1 & a1 & Hin & ? & ? & ?)].
    + simpl in Hkr1. apply lookup_insert_Some in Hkr1 as [[<- <-]|[_ Hkr1]]; [right|by left].
      exists kind, amount. by split; [left|].
    + right. exists k1, a1. by split; [right|].
  - intros k1 a1 [[= -> ->]|Hin]%elem_of_cons; [|by apply Hnew].
    destruct (ex_reservations _ _ (ef_extends _ _ _ E2) (o, request_key c kind)
      (new_reservation digest (inference_intent digest o epoch c fp kind amount))) as (r' & Hr' & _);
      [simpl; by rw lookup_insert_eq|].
    destruct (Hlook _ _ Hr') as [Hkr1|(k1 & a1 & Hin & E & _)].
    + simpl in Hkr1. rw lookup_insert_eq in Hkr1. injection Hkr1 as <-. done.
    + apply (f_equal snd), inference_key_inj in E as [_ <-]. exfalso. apply Hnin.
      apply list_elem_of_fmap. by exists (kind, a1).
Qed.

Definition base_amounts (e : InferenceQuotaEstimate) : list (UserBudgetResourceKind * Z) :=
  [(K_INFERENCE_CALL, 1); (K_INPUT_TOKEN, es_input_tokens e); (K_OUTPUT_TOKEN, es_output_tokens e);
   (K_TOTAL_TOKEN, es_total_tokens e)].

Lemma limited_amount_shape include kind units message l :
  limited_amount include kind units message = Ok l -> l = [] \/ exists q, l = [(kind, q)].
Proof. unfold limited_amount. intros H. ub_inv; eauto. Qed.

Lemma amounts_of_shape e include_compute include_cost l :
  amounts_of e include_compute include_cost = Ok l ->
  exists compute cost, l = base_amounts e ++ compute ++ cost /\
    (compute = [] \/ exists q, compute = [(K_COMPUTE_UNIT, q)]) /\ (cost = [] \/ exists q, cost = [(K_COST_USD, q)]).
Proof.
  unfold amounts_of. intros H. apply bind_ok in H as (compute & H1 & H). apply bind_ok in H as (cost & H2 & H).
  unfold mret, result_ret in H. injection H as <-. exists compute, cost. split; [done|].
  split; by eapply limited_amount_shape.
Qed.

(** The kinds of a request are distinct, start with the call, and hold no tool call. *)
Lemma amounts_kinds e ic ik l :
  amounts_of e ic ik = Ok l ->
  NoDup (map fst l) /\ K_INFERENCE_CALL ∈ map fst l /\ K_TOOL_CALL ∉ map fst l.
Proof.
  intros H. apply amounts_of_shape in H as (compute & cost & -> & [->|[q ->]] & [->|[q' ->]]); simpl;
    (split; [by repeat constructor; set_solver|split; set_solver]).
Qed.

(** The reserved counters move by what is reserved. *)
Lemma admission_cancels o epoch c fp e ic ik l u o' e' k :
  amounts_of e ic ik = Ok l ->
  intents_delta o epoch c fp l o' e' k +
  usage_delta o epoch (moved (reserve_targets u e (amount_of K_COMPUTE_UNIT l) (amount_of K_COST_USD l)) u) o' e' k = 0.
Proof.
  intros H. apply amounts_of_shape in H as (compute & cost & -> & Hcomp & Hcost).
  unfold intents_delta, reserve_targets.
  assert (Hd : forall kind amount, reservation_delta None (new_reservation digest (inference_intent digest o epoch c fp kind amount))
    o' e' k = ind (at_window o epoch o' e') (- (if charges_reserved kind None k then amount else 0))).
  { intros. unfold reservation_delta. rw (in_window_at o epoch) //. }
  rw !foldr_app. simpl. rw !Hd. unfold usage_delta, ind. destruct (at_window o epoch o' e') eqn:Ea.
  2:{ destruct Hcomp as [->|[q ->]], Hcost as [->|[q' ->]]; simpl; rw ?Hd ?Ea; destruct k; simpl; lia. }
  destruct k as [f|cap|cap]; [|by destruct Hcomp as [->|[q ->]], Hcost as [->|[q' ->]]; simpl; rw ?Hd ?Ea..].
  destruct Hcomp as [->|[q ->]], Hcost as [->|[q' ->]]; simpl; rw ?Hd ?Ea. all: unfold amount_of, moved, ind; simpl.
  all: destruct f; simpl. all: repeat (case_match; simplify_eq/=); breflect; lia.
Qed.

Lemma check_limits_calls p u pin pout e compute cost l :
  check_inference_limits p u pin pout e compute cost = Ok tt -> pr_max_inference_calls p = Some l ->
  inference_used u + inference_reserved u + 1 <= l.
Proof.
  unfold check_inference_limits. intros H. apply guard_bind_ok in H as [H _]. apply negb_true_iff in H.
  by apply over_limit_le.
Qed.

Lemma sound_fresh db o c kind :
  sound digest db -> get_reservation db o (request_key c K_INFERENCE_CALL) = None ->
  get_reservation db o (request_key c kind) = None.
Proof.
  intros Hs Hn. destruct (get_reservation db o (request_key c kind)) eqn:E; [|done].
  destruct (sd_inference _ _ Hs o (ic_logical_request_id c) kind) as [r Hr]; [by eexists|].
  unfold request_key in Hn. congruence.
Qed.

(** The reservations of one window, charged to it. *)
Definition charges_window (db db' : UserBudgetDB) (o : string) (w w' : UserBudgetWindowRecord) : Prop :=
  get_window db o (wr_epoch w) = Some w /\ same_window w w' /\ wr_owner_user_id w' = o /\
  effect db db' no_delta /\ ub_windows db' = <[(o, wr_epoch w) := w']> (ub_windows db) /\
  ub_tool_usage db' = ub_tool_usage db /\ ub_receipts db' = ub_receipts db /\ ub_policies db' = ub_policies db.

Lemma charges_window_sound db db' o w w' :
  sound digest db -> charges_window db db' o w w' ->
  tool_calls_used (wr_usage w') + tool_calls_reserved (wr_usage w') =
    tool_calls_used (wr_usage w) + tool_calls_reserved (wr_usage w) ->
  (forall p l, get_policy db o (wr_governing_policy_id w) = Some p -> pr_max_inference_calls p = Some l ->
     inference_used (wr_usage w') + inference_reserved (wr_usage w') <= l) ->
  (forall k r, ub_reservations db' !! k = Some r ->
     ub_reservations db !! k = Some r \/ (reservation_ok r /\ k.1 = o /\ rv_window_epoch r = wr_epoch w)) ->
  mirror_covered digest db' -> inference_complete digest db' -> sound digest db'.
Proof.
  intros Hs (Hw & Hsw & Eo & Hz & Ew & Et & Ec & Ep) Htool Hinf Hr Hm Hi.
  apply (touches_sound digest db _ o (wr_epoch w)); try done; [| |by apply receipts_from_same].
  - split; [eapply ef_extends, Hz|]. split; [done|]. split; [|split; [|by rw Hw]].
    + intros o' e' Hne. unfold get_window. rw Ew lookup_insert_ne //.
    + intros o' e' cap _. unfold get_tool_usage. by rw Et.
  - intros w1 p Hw1 Hp. unfold get_window in Hw1. rw Ew lookup_insert_eq in Hw1. injection Hw1 as <-.
    destruct Hsw as (_ & _ & Ei & _). rw Ei in Hp. unfold get_policy in *. rw Ep in Hp.
    destruct (sd_limits _ _ Hs _ _ _ _ Hw Hp) as (L1 & L2 & _). split; [by intros l; rw Htool; apply L1|].
    split; [|by intros l; apply Hinf]. intros cap l Hl. specialize (L2 cap l Hl).
    unfold counter_at, get_tool_usage in *. by rw Et.
Qed.

Lemma reserve_targets_calls u e compute cost :
  let u' := usage_set (reserve_targets u e compute cost) u in
  inference_used u' = inference_used u /\ inference_reserved u' = inference_reserved u + 1 /\
  tool_calls_used u' = tool_calls_used u /\ tool_calls_reserved u' = tool_calls_reserved u.
Proof. unfold reserve_targets. simpl. destruct (compute =? 0), (cost =? 0); done. Qed.

(** What a successful admission did. *)
Lemma admit_inference_shape db o a c fp e now db' adm :
  sound digest db -> get_account db o = Some a -> get_reservation db o (request_key c K_INFERENCE_CALL) = None ->
  admit_inference digest db o a c fp e now = Ok (db', adm) ->
  exists db1 w w' p amounts, sound digest db1 /\ opens db db1 /\ charges_window db1 db' o w w' /\
    get_policy db1 o (wr_governing_policy_id w) = Some p /\
    (forall l, pr_max_inference_calls p = Some l ->
       inference_used (wr_usage w) + inference_reserved (wr_usage w) + 1 <= l) /\
    NoDup (map fst amounts) /\ K_INFERENCE_CALL ∈ map fst amounts /\ ~ (K_TOOL_CALL ∈ map fst amounts) /\
    inference_used (wr_usage w') = inference_used (wr_usage w) /\
    inference_reserved (wr_usage w') = inference_reserved (wr_usage w) + 1 /\
    tool_calls_used (wr_usage w') = tool_calls_used (wr_usage w) /\
    tool_calls_reserved (wr_usage w') = tool_calls_reserved (wr_usage w) /\
    (forall k r, ub_reservations db' !! k = Some r -> ub_reservations db1 !! k = Some r \/
       exists kind amount, (kind, amount) ∈ amounts /\ k = (o, request_key c kind) /\
         r = new_reservation digest (inference_intent digest o (wr_epoch w) c fp kind amount) /\
         intent_valid (inference_intent digest o (wr_epoch w) c fp kind amount) = true) /\
    (forall kind amount, (kind, amount) ∈ amounts ->
       get_reservation db' o (request_key c kind) =
         Some (new_reservation digest (inference_intent digest o (wr_epoch w) c fp kind amount))) /\
    ia_owner_user_id adm = o /\ ia_window_epoch adm = wr_epoch w /\
    ia_reservation_keys adm = map (fun ka : UserBudgetResourceKind * Z => (ka.1, request_key c ka.1)) amounts.
Proof.
  intros Hs Ha Hn H. unfold admit_inference in H. apply bind_ok in H as ([db1 w] & Hw & H).
  destruct (current_window_spec digest _ _ _ _ _ _ Hs Ha Hw) as (Hs1 & Ho1 & Hw1 & _). clear Hw.
  apply bind_ok in H as (p & Hp & H). apply governing_policy_spec in Hp. apply guard_bind_ok in H as [_ H].
  apply bind_ok in H as (amounts & Hamt & H). destruct (amounts_kinds _ _ _ _ Hamt) as (Hd & Hcall & Htool).
  apply bind_ok in H as (pin & _ & H). apply bind_ok in H as (pout & _ & H). cbv zeta in H.
  apply bind_ok in H as ([] & Hlim & H). apply bind_ok in H as ([db2 keys] & Hr & H).
  assert (Hfresh : forall kind, kind ∈ map fst amounts -> get_reservation db1 o (request_key c kind) = None).
  { intros kind _. apply sound_fresh; [done|]. unfold get_reservation. by rw (os_reservations _ _ Ho1). }
  destruct (reserve_amounts_spec _ _ _ _ _ _ _ _ (sd_keyed _ _ Hs1) Hd Hfresh Hr) as
    (E2 & -> & Hlook & Hnew & Ew & Et & Ec & Ep).
  apply bind_ok in H as ([db3 w3] & Hm & H). simpl in Hm, H. unfold mret, result_ret in H. injection H as <- <-.
  destruct (mutate_window_spec _ _ _ _ _ _ _ (ef_keyed _ _ _ E2) Hm) as
    (w2 & Hw2 & _ & Hsw & Eo & Ee & _ & Hus & -> & E3).
  assert (w2 = w) as -> by (unfold get_window in *; rw Ew in Hw2; congruence).
  exists db1, w, w3, p, amounts. do 2 (split; [done|]). split.
  { split; [done|]. split; [done|]. split; [done|]. split; [|by simpl; rw Eo Ee Ew].
    eapply effect_eq; [exact (effect_trans _ _ _ _ _ E2 E3)|]. intros. by eapply admission_cancels. }
  split; [done|]. split; [intros l; by eapply check_limits_calls|]. do 3 (split; [done|]).
  rw Hus. destruct (reserve_targets_calls (wr_usage w) e (amount_of K_COMPUTE_UNIT amounts)
    (amount_of K_COST_USD amounts)) as (? & ? & ? & ?). done.
Qed.

Lemma admit_inference_sound db o a c fp e now db' adm :
  sound digest db -> get_account db o = Some a -> get_reservation db o (request_key c K_INFERENCE_CALL) = None ->
  admit_inference digest db o a c fp e now = Ok (db', adm) ->
  sound digest db' /\ extends db db' /\ genuine db' adm.
Proof.
  intros Hs Ha Hn H. destruct (admit_inference_shape _ _ _ _ _ _ _ _ _ Hs Ha Hn H) as
    (db1 & w & w' & p & amounts & Hs1 & Ho & Hch & Hp & Hlim & Hd & Hcall & Htool & U1 & U2 & U3 & U4 &
     Hlook & Hnew & Eo & Ee & Ek).
  pose proof Hch as (_ & _ & _ & Hz & _ & _ & Hrc & _). pose proof (ef_extends _ _ _ Hz) as Hx.
  split; [|split; [etrans; [eapply ef_extends, os_effect, Ho|done]|]].
  - apply (charges_window_sound db1 _ o w w'); [done|done|lia| | | |].
    + intros p' l Hp'. rw Hp in Hp'. injection Hp' as <-. intros Hl. specialize (Hlim l Hl). lia.
    + intros k r Hk. destruct (Hlook _ _ Hk) as [?|(kind & amount & Hin & -> & -> & Hv)]; [by left|right].
      split; [by apply intent_ok|done].
    + intros o' t k ky rs [r Hr]. unfold get_dual_accounting_receipt. rw Hrc.
      destruct (Hlook _ _ Hr) as [Hr1|(kind & amount & _ & E & _)].
      * apply (sd_mirror _ _ Hs1 o'). by eexists.
      * apply (f_equal snd) in E. exfalso. by eapply mirror_not_inference.
    + intros o' req kind [r Hr]. destruct (Hlook _ _ Hr) as [Hr1|(kind' & amount & _ & E & _)].
      * destruct (sd_inference _ _ Hs1 o' req kind) as [r1 Hr2]; [by eexists|].
        destruct (ex_reservations _ _ Hx _ _ Hr2) as (r3 & Hr3 & _). by exists r3.
      * pose proof (f_equal fst E) as E1. simpl in E1. subst o'.
        apply (f_equal snd), inference_key_inj in E as [-> _].
        apply list_elem_of_fmap in Hcall as ([kd amt] & Ekd & Hin). simpl in Ekd. subst kd. exists (new_reservation digest (inference_intent digest o (wr_epoch w) c fp K_INFERENCE_CALL amt)).
        by apply Hnew.
  - unfold genuine. rw Eo Ee Ek. split.
    + by rw map_map.
    + intros kind key Hin. apply list_elem_of_fmap in Hin as ([kd amt] & [= -> ->] & Hin).
      split; [intros ->; apply Htool; apply list_elem_of_fmap; by exists (K_TOOL_CALL, amt)|].
      exists (new_reservation digest (inference_intent digest o (wr_epoch w) c fp kd amt)). by rw (Hnew _ _ Hin).
Qed.

(** ** Replays *)

Lemma verify_row_spec r i :
  verify_row digest r i = Ok tt -> rv_resource_kind r = ui_resource_kind i /\ rv_window_epoch r = ui_window_epoch i.
Proof. unfold verify_row. intros H. ub_inv; by breflect. Qed.

Lemma replay_keys_spec amounts db o epoch c fp keys :
  replay_keys digest db o epoch c fp amounts = Ok keys ->
  map fst keys = map fst amounts /\
  forall kind key, (kind, key) ∈ keys ->
    exists r, get_reservation db o key = Some r /\ rv_resource_kind r = kind /\ rv_window_epoch r = epoch.
Proof.
  revert keys. induction amounts as [|[kind amount] l IH]; intros keys H; simpl in H.
  { injection H as <-. split; [done|]. intros kind key Hin. by apply elem_of_nil in Hin. }
  destruct (get_reservation db o _) as [r|] eqn:Er; [|done]. cbv zeta in H. apply guard_bind_ok in H as [_ H].
  apply bind_ok in H as ([] & Hv & H). apply verify_row_spec in Hv as [Hk He]. apply bind_ok in H as (rest & Hr & H).
  unfold mret, result_ret in H. injection H as <-. destruct (IH _ Hr) as [Hm Hin].
  split; [by simpl; rw Hm|]. intros kd key [[= -> ->]|Hin']%elem_of_cons; [by exists r|by apply Hin].
Qed.

Lemma replay_genuine db o c fp e r adm :
  replay_inference digest db o c fp e r = Ok adm -> genuine db adm.
Proof.
  unfold replay_inference. cbv zeta. intros H. apply guard_bind_ok in H as [_ H].
  destruct (get_window db o _) as [w|]; [|done]. destruct (get_policy db o _) as [p|]; [|done].
  apply bind_ok in H as (amounts & Hamt & H). apply bind_ok in H as (keys & Hk & H).
  unfold mret, result_ret in H. injection H as <-. apply amounts_kinds in Hamt as (Hd & _ & Htool).
  destruct (replay_keys_spec _ _ _ _ _ _ _ Hk) as [Hm Hr]. split; simpl; [by rw Hm|].
  intros kind key Hin. split; [|by apply Hr]. intros ->. apply Htool. rw -Hm. apply list_elem_of_fmap.
  by exists (K_TOOL_CALL, key).
Qed.

(** ** Settlement *)

Lemma target_of_app f l1 l2 :
  target_of f (l1 ++ l2) = match target_of f l1 with Some z => Some z | None => target_of f l2 end.
Proof. induction l1 as [|[g z] l IH]; simpl; [done|]. by case_bool_decide. Qed.

(** The targets of the columns that change. *)
Lemma target_of_changes f fields (h v : UsageField -> Z) :
  target_of f (omap (fun g => if h g =? 0 then None else Some (g, v g)) fields) =
    if bool_decide (f ∈ fields) && negb (h f =? 0) then Some (v f) else None.
Proof.
  induction fields as [|g l IH]; simpl; [done|].
  destruct (decide (f = g)) as [->|Hne].
  - rw (bool_decide_eq_true_2 (g ∈ g :: l)); [by left|]. destruct (h g =? 0) eqn:E; simpl.
    + rw IH. by rw andb_false_r.
    + by rw bool_decide_eq_true_2.
  - assert (Hb : bool_decide (f ∈ g :: l) = bool_decide (f ∈ l)).
    { apply bool_decide_ext. rw elem_of_cons. naive_solver. }
    rw Hb -IH. destruct (h g =? 0); simpl; [done|]. by rw bool_decide_eq_false_2.
Qed.

(** A settlement of a reservation of the admission. *)
Definition settlement_ok (db : UserBudgetDB) (o : string) (epoch : Z) (t : Settlement) : Prop :=
  let '(kind, row, actual) := t in
  get_reservation db o (rv_idempotency_key row) = Some row /\ rv_state row = S_RESERVED /\
  rv_owner_user_id row = o /\ rv_window_epoch row = epoch /\ rv_resource_kind row = kind /\
  kind <> K_TOOL_CALL /\ rv_capability_id row = None /\ 0 < rv_reserved_amount_atomic row /\ 0 <= actual /\
  (kind = K_INFERENCE_CALL -> actual = 1).

Lemma settle_rows_spec keys db a actuals l :
  sound digest db -> ac_of actuals K_INFERENCE_CALL = Some 1 -> NoDup (map fst keys) ->
  (forall kind key, (kind, key) ∈ keys -> kind <> K_TOOL_CALL /\
     exists r, get_reservation db (ia_owner_user_id a) key = Some r /\
       rv_resource_kind r = kind /\ rv_window_epoch r = ia_window_epoch a) ->
  settle_rows db a actuals keys = Ok l ->
  NoDup (map (fun t : Settlement => t.1.1) l) /\
  (forall t, t ∈ l -> settlement_ok db (ia_owner_user_id a) (ia_window_epoch a) t /\ t.1.1 ∈ map fst keys).
Proof.
  intros Hs Hone. revert l. induction keys as [|[kind key] keys IH]; intros l Hd Hg H; simpl in H.
  { injection H as <-. split; [constructor|]. intros t Hin. by apply elem_of_nil in Hin. }
  apply NoDup_cons in Hd as [Hnin Hd].
  assert (Hrec : forall l', settle_rows db a actuals keys = Ok l' ->
    NoDup (map (fun t : Settlement => t.1.1) l') /\
    (forall t, t ∈ l' -> settlement_ok db (ia_owner_user_id a) (ia_window_epoch a) t /\ t.1.1 ∈ map fst keys)).
  { intros l'. apply IH; [done|]. intros. by apply Hg; right. }
  assert (Hskip : settle_rows db a actuals keys = Ok l ->
    NoDup (map (fun t : Settlement => t.1.1) l) /\
    (forall t, t ∈ l -> settlement_ok db (ia_owner_user_id a) (ia_window_epoch a) t /\ t.1.1 ∈ kind :: map fst keys)).
  { intros Hr. destruct (Hrec _ Hr) as [? Ht]. split; [done|]. intros t Hin. destruct (Ht _ Hin). by split; [|right]. }
  destruct (Hg kind key) as (Hnt & r & Hr & Hk & He); [by left|]. rw Hr in H.
  apply guard_bind_ok in H as [_ H]. destruct (ac_of actuals kind) as [actual|] eqn:Eac; [|by apply Hskip].
  apply guard_bind_ok in H as [Hpos H]. case_bool_decide as Hset.
  { apply guard_bind_ok in H as [_ H]. by apply Hskip. }
  apply guard_bind_ok in H as [Hres H]. apply bind_ok in H as (rest & Hrest & H).
  unfold mret, result_ret in H. injection H as <-. destruct (Hrec _ Hrest) as [Hd' Ht].
  destruct (keyed_reservations _ (sd_keyed _ _ Hs) _ _ _ Hr) as [Ho Hkey].
  destruct (sd_reservations _ _ Hs _ _ Hr) as [(A1 & _ & _ & A4) _]. breflect. split.
  - simpl. apply NoDup_cons. split; [|done]. intros Hin. apply list_elem_of_fmap in Hin as (t & E & Hin).
    destruct (Ht _ Hin) as [_ Hin']. apply Hnin. by rw E.
  - intros t [->|Hin]%elem_of_cons; [|by destruct (Ht _ Hin); split; [|right]]. split; [|by left].
    simpl. rw Hkey. repeat split; try done; [|].
    + destruct (rv_capability_id r) eqn:Ec; [|done]. rw Hk in A4. exfalso. apply Hnt, A4. by eexists.
    + intros ->. congruence.
Qed.

(** The change of the reservations of a settlement. *)
Definition settle_delta (o : string) (epoch : Z) (l : list Settlement) (o' : string) (e' : Z) (k : Counter) : Z :=
  foldr (fun t acc => ind (at_window o epoch o' e')
    ((if charges_reserved t.1.1 None k then rv_reserved_amount_atomic t.1.2 else 0) -
     (if charges_used t.1.1 None k then t.2 else 0)) + acc) 0 l.

(** The row after the settlement. *)
Definition settled_row (r r' : UserBudgetReservationRecord) (actual : Z) : Prop :=
  same_reservation r r' /\ rv_state r' = S_SETTLED /\ rv_settled_amount_atomic r' = Some actual.

Lemma settlement_kind_key db o epoch t t' :
  settlement_ok db o epoch t -> settlement_ok db o epoch t' ->
  rv_idempotency_key t.1.2 = rv_idempotency_key t'.1.2 -> t.1.1 = t'.1.1.
Proof.
  destruct t as [[k r] z], t' as [[k' r'] z']. simpl. intros (H1 & _ & _ & _ & <- & _) (H2 & _ & _ & _ & <- & _) E.
  rw E in H1. congruence.
Qed.

Lemma settle_transitions_spec l db o epoch now db' :
  keyed db -> NoDup (map (fun t : Settlement => t.1.1) l) -> (forall t, t ∈ l -> settlement_ok db o epoch t) ->
  settle_transitions db o now l = Ok db' ->
  effect db db' (settle_delta o epoch l) /\
  (forall k r, ub_reservations db' !! k = Some r -> ub_reservations db !! k = Some r \/
     exists kind r0 actual, (kind, r0, actual) ∈ l /\ k = (o, rv_idempotency_key r0) /\ settled_row r0 r actual) /\
  ub_windows db' = ub_windows db /\ ub_tool_usage db' = ub_tool_usage db /\
  ub_receipts db' = ub_receipts db /\ ub_policies db' = ub_policies db.
Proof.
  revert db. induction l as [|[[kind row] actual] l IH]; intros db Hk Hd Hok H; simpl in H.
  { injection H as <-. split; [by apply effect_refl|]. split; [by left|done]. }
  apply NoDup_cons in Hd as [Hnin Hd]. apply bind_ok in H as ([db1 r'] & Ht & H). simpl in H.
  pose proof (Hok _ ltac:(by left)) as Hrow. pose proof Hrow as (Hr & Hst & Ho & He & Hkd & Hnt & Hcap & _).
  destruct (transition_spec _ _ _ _ _ _ _ _ _ Hk Ht) as (_ & r0 & Hr0 & Hcase). rw Hr in Hr0. injection Hr0 as <-.
  destruct Hcase as [(_ & _ & Hbad & _)|(_ & _ & Est & Eamt & Hsr & -> & E1 & _)]; [congruence|].
  pose proof Hsr as (_ & Ero & Ere & Erk & Erkd & Erc & _).
  destruct (fun Hf => IH _ (ef_keyed _ _ _ E1) Hd Hf H) as (E2 & Hlook & Ew & Et & Ec & Ep).
  { intros t Hin. pose proof (Hok t ltac:(by right)) as Htok. destruct t as [[kind2 row2] actual2].
    pose proof Htok as (Hr2 & Hrest). split; [|done]. unfold get_reservation. simpl. rw lookup_insert_ne; [|done].
    rw Ero Erk. intros [= _ E]. apply Hnin. apply list_elem_of_fmap. eexists. split; [|exact Hin].
    exact (settlement_kind_key _ _ _ _ _ Hrow Htok E). }
  split; [|split; [|done]].
  - eapply effect_eq; [exact (effect_trans _ _ _ _ _ E1 E2)|]. intros o' e' k. simpl. f_equal.
    unfold reservation_delta. rw (in_window_at o epoch); [congruence|congruence|].
    simpl. unfold contribution. rw Hst Est Erkd Erc Hkd Hcap Eamt. done.
  - intros k r Hkr. destruct (Hlook _ _ Hkr) as [Hkr1|(k2 & r2 & a2 & Hin & ? & ?)].
    + simpl in Hkr1. apply lookup_insert_Some in Hkr1 as [[<- <-]|[_ Hkr1]]; [right|by left].
      exists kind, row, actual. rw Ero Erk Ho. split; [by left|done].
    + right. exists k2, r2, a2. by split; [right|].
Qed.

Lemma used_delta_zero f (l : list Settlement) :
  (forall t, t ∈ l -> used_field t.1.1 <> f) -> used_delta f l = 0.
Proof.
  induction l as [|t l IH]; intros Hf; simpl; [done|]. rw bool_decide_eq_false_2; [by apply Hf; left|].
  rw IH; [|done]. intros t' Ht. by apply Hf; right.
Qed.

Lemma reserved_decrement_zero f (l : list Settlement) :
  (forall t, t ∈ l -> reserved_field t.1.1 <> Some f) -> reserved_decrement f l = 0.
Proof.
  induction l as [|t l IH]; intros Hf; simpl; [done|]. rw bool_decide_eq_false_2; [by apply Hf; left|].
  rw IH; [|done]. intros t' Ht. by apply Hf; right.
Qed.

Lemma reserved_targets_ok u (l : list Settlement) decrements :
  reserved_targets u l = Ok decrements ->
  decrements = omap (fun f => if reserved_decrement f l =? 0 then None
                              else Some (f, usage_get f u - reserved_decrement f l)) decremented_fields.
Proof.
  unfold reserved_targets. intros H. apply guard_bind_ok in H as [_ H]. unfold mret, result_ret in H.
  by injection H as <-.
Qed.

(** The columns move by what is settled and what is taken back. *)
Lemma settle_moved u (l : list Settlement) decrements f :
  (forall t, t ∈ l -> t.1.1 <> K_TOOL_CALL) -> reserved_targets u l = Ok decrements ->
  moved (used_targets u l ++ decrements) u f = used_delta f l - reserved_decrement f l.
Proof.
  intros Hnt H. rw (reserved_targets_ok _ _ _ H). unfold moved, used_targets.
  rw target_of_app (target_of_changes _ _ (fun f => used_delta f l) (fun f => usage_get f u + used_delta f l)).
  rw (target_of_changes _ _ (fun f => reserved_decrement f l) (fun f => usage_get f u - reserved_decrement f l)).
  destruct (used_delta f l =? 0) eqn:Eu, (reserved_decrement f l =? 0) eqn:Er; breflect; simpl;
    rw ?andb_false_r ?andb_true_r.
  - lia.
  - rw bool_decide_eq_true_2; [|lia]. apply dec_stable. intros Hf. apply Er, reserved_decrement_zero.
    intros t Ht E. specialize (Hnt t Ht). destruct t.1.1; simplify_eq/=; set_solver.
  - rw bool_decide_eq_true_2; [|lia]. apply dec_stable. intros Hf. apply Eu, used_delta_zero.
    intros t Ht E. specialize (Hnt t Ht). destruct t.1.1; simplify_eq/=; set_solver.
  - exfalso. apply Er, reserved_decrement_zero. intros t Ht E. apply Eu, used_delta_zero.
    intros t' Ht' E'. destruct t.1.1, t'.1.1; simplify_eq/=.
Qed.

Lemma settle_delta_field o epoch l o' e' f :
  settle_delta o epoch l o' e' (CField f) = ind (at_window o epoch o' e') (reserved_decrement f l - used_delta f l).
Proof.
  induction l as [|t l IH]; simpl; [by unfold ind; destruct (at_window _ _ _ _)|]. rw IH. unfold ind.
  destruct (at_window _ _ _ _); lia.
Qed.

Lemma settle_delta_tool o epoch (l : list Settlement) o' e' k :
  (forall t, t ∈ l -> t.1.1 <> K_TOOL_CALL) -> (forall f, k <> CField f) -> settle_delta o epoch l o' e' k = 0.
Proof.
  induction l as [|t l IH]; intros Hnt Hk; simpl; [done|]. rw IH; [|done|].
  - intros t' Ht. by apply Hnt; right.
  - specialize (Hnt t ltac:(by left)). destruct k; simpl; [by destruct (Hk f)|..]; rw bool_decide_eq_false_2 //;
      unfold ind; simpl; by destruct (at_window _ _ _ _).
Qed.

(** The settlement of the counters and of the reservations cancel out. *)
Lemma settle_cancels o epoch u (l : list Settlement) decrements o' e' k :
  (forall t, t ∈ l -> t.1.1 <> K_TOOL_CALL) -> reserved_targets u l = Ok decrements ->
  usage_delta o epoch (moved (used_targets u l ++ decrements) u) o' e' k + settle_delta o epoch l o' e' k = 0.
Proof.
  intros Hnt H. destruct k as [f|cap|cap]; [|by rw settle_delta_tool..].
  simpl. rw settle_delta_field (settle_moved _ _ _ _ Hnt H). unfold ind. destruct (at_window _ _ _ _); lia.
Qed.

(** A settled call was reserved. *)
Lemma settled_calls db o epoch (l : list Settlement) :
  (forall t, t ∈ l -> settlement_ok db o epoch t) ->
  used_delta F_inference_used l <= reserved_decrement F_inference_reserved l.
Proof.
  induction l as [|[[kind row] actual] l IH]; intros Hok; simpl; [lia|].
  specialize (IH ltac:(intros t Ht; apply Hok; by right)).
  destruct (Hok _ ltac:(by left)) as (_ & _ & _ & _ & _ & _ & _ & Hpos & Hact & Hone).
  destruct kind; simpl; try lia. rw Hone //. lia.
Qed.

Lemma settlement_not_tool db o epoch (l : list Settlement) :
  (forall t, t ∈ l -> settlement_ok db o epoch t) -> forall t, t ∈ l -> t.1.1 <> K_TOOL_CALL.
Proof. intros Hok [[k r] z] Ht. by destruct (Hok _ Ht) as (_ & _ & _ & _ & _ & ? & _). Qed.

(** It leaves the tool calls alone, and never adds a call. *)
Lemma settle_tool_columns u (l : list Settlement) decrements :
  (forall t, t ∈ l -> t.1.1 <> K_TOOL_CALL) -> reserved_targets u l = Ok decrements ->
  moved (used_targets u l ++ decrements) u F_tool_calls_used = 0 /\
  moved (used_targets u l ++ decrements) u F_tool_calls_reserved = 0.
Proof.
  intros Hnt H. rw !(settle_moved _ _ _ _ Hnt H).
  rw !used_delta_zero; [by intros t Ht E; destruct (Hnt t Ht); destruct t.1.1..|].
  by rw !reserved_decrement_zero; [intros t Ht E; destruct (Hnt t Ht); destruct t.1.1..|].
Qed.

Lemma settle_call_columns db o epoch u (l : list Settlement) decrements :
  (forall t, t ∈ l -> settlement_ok db o epoch t) -> reserved_targets u l = Ok decrements ->
  moved (used_targets u l ++ decrements) u F_inference_used +
  moved (used_targets u l ++ decrements) u F_inference_reserved <= 0.
Proof.
  intros Hok H. pose proof (settlement_not_tool _ _ _ _ Hok) as Hnt. rw !(settle_moved _ _ _ _ Hnt H).
  rw (reserved_decrement_zero F_inference_used); [intros t _; by destruct t.1.1|].
  rw (used_delta_zero F_inference_reserved); [intros t _; by destruct t.1.1|].
  pose proof (settled_calls _ _ _ _ Hok). lia.
Qed.

Lemma settled_row_ok r r' actual :
  reservation_ok r -> 0 <= actual -> settled_row r r' actual -> reservation_ok r'.
Proof.
  intros (A1 & _ & _ & A4) Ha ((_ & _ & _ & _ & Ek & Ec & Er & _) & Est & Eamt).
  unfold reservation_ok. rw Est Eamt Ek Ec Er. split; [done|]. split; [done|]. split; [|done]. by intros z [= <-].
Qed.

(** The columns a settlement writes, when it writes any. *)
Lemma settle_window_spec db o e w targets b1 :
  keyed db -> get_window db o e = Some w ->
  (if bool_decide (targets = []) then mret db
   else charged ← mutate_window_usage db o e (wr_revision w) targets; mret (fst charged)) = Ok b1 ->
  exists w', same_window w w' /\ wr_owner_user_id w' = o /\ wr_epoch w' = e /\
    (forall f, usage_get f (wr_usage w') = usage_get f (wr_usage w) + moved targets (wr_usage w) f) /\
    effect db b1 (usage_delta o e (moved targets (wr_usage w))) /\
    ub_windows b1 = <[(o, e) := w']> (ub_windows db) /\ ub_reservations b1 = ub_reservations db /\
    ub_tool_usage b1 = ub_tool_usage db /\ ub_receipts b1 = ub_receipts db /\ ub_policies b1 = ub_policies db.
Proof.
  intros Hk Hw H. destruct (keyed_windows _ Hk _ _ _ Hw) as [Ho He]. case_bool_decide as Ht.
  - unfold mret, result_ret in H. injection H as <-. subst targets. exists w. split; [apply same_window_refl|].
    do 2 (split; [done|]). split; [intros; unfold moved; simpl; lia|]. split.
    + eapply effect_eq; [by apply effect_refl|]. intros o' e' k. unfold no_delta, usage_delta, moved, ind. simpl.
      destruct k; repeat case_match; done.
    + by rw insert_id.
  - apply bind_ok in H as ([b w'] & Hm & H). unfold mret, result_ret in H. injection H as <-.
    destruct (mutate_window_spec _ _ _ _ _ _ _ Hk Hm) as (w0 & Hw0 & _ & Hsw & Eo & Ee & _ & Hus & -> & E1).
    rw Hw in Hw0. injection Hw0 as <-. exists w'. do 3 (split; [done|]). split; [|by simpl; rw Eo Ee].
    intros f. rw Hus usage_get_set. unfold moved. destruct (target_of f targets); simpl; lia.
Qed.

Lemma settle_attempt_sound a actuals now (snapshot db db' : QuotaDB) r :
  sound digest (qd_budgets db) -> genuine (qd_budgets db) a -> ac_of actuals K_INFERENCE_CALL = Some 1 ->
  settle_attempt a actuals now snapshot db = Ok (db', r) ->
  sound digest (qd_budgets db') /\ extends (qd_budgets db) (qd_budgets db').
Proof.
  intros Hs [Hd Hg] Hone H. unfold settle_attempt in H. cbv zeta in H.
  set (b := qd_budgets db) in *. set (o := ia_owner_user_id a) in *. set (e := ia_window_epoch a) in *.
  destruct (get_window b o e) as [w|] eqn:Hw; [|done].
  apply bind_ok in H as (l & Hl & H). apply bind_ok in H as (decs & Hdec & H). apply bind_ok in H as (b1 & H1 & H).
  apply bind_ok in H as (b2 & H2 & H). unfold mret, result_ret in H. injection H as <- <-. simpl.
  destruct (settle_rows_spec _ _ _ _ _ Hs Hone Hd Hg Hl) as [Hdl Hall].
  assert (Hok : forall t, t ∈ l -> settlement_ok b o e t) by (intros t Ht; by apply Hall).
  pose proof (settlement_not_tool _ _ _ _ Hok) as Hnt.
  destruct (settle_window_spec _ _ _ _ _ _ (sd_keyed _ _ Hs) Hw H1) as
    (w' & Hsw & Eo & Ee & Hus & E1 & Ew & Er & Et & Ec & Ep).
  destruct (fun Hf => settle_transitions_spec _ _ _ e _ _ (ef_keyed _ _ _ E1) Hdl Hf H2) as
    (E2 & Hlook & Ew2 & Et2 & Ec2 & Ep2).
  { intros t Ht. specialize (Hok t Ht). destruct t as [[k r] z]. unfold settlement_ok, get_reservation in *. by rw Er. }
  assert (Hz : effect b b2 no_delta).
  { eapply effect_eq; [exact (effect_trans _ _ _ _ _ E1 E2)|]. intros. by apply settle_cancels. }
  pose proof (ef_extends _ _ _ Hz) as Hx. split; [|done].
  destruct (keyed_windows _ (sd_keyed _ _ Hs) _ _ _ Hw) as [_ Hwe].
  assert (Hdom : forall k, is_Some (ub_reservations b2 !! k) <-> is_Some (ub_reservations b !! k)).
  { intros k. split; [|intros [r Hr]; destruct (ex_reservations _ _ Hx _ _ Hr) as (r' & ? & _); eauto].
    intros [r Hr]. destruct (Hlook _ _ Hr) as [Hr1|(k0 & r0 & z & Hin & -> & _)]; [rw -Er; eauto|].
    destruct (Hok _ Hin) as (Hr0 & _). by exists r0. }
  apply (charges_window_sound b _ o w w'); [done| | | | | |].
  - rw /charges_window Hwe. split; [done|]. do 3 (split; [done|]). by rw Ew2 Et2 Ec2 Ep2 Ew Et Ec Ep.
  - pose proof (Hus F_tool_calls_used) as T1. pose proof (Hus F_tool_calls_reserved) as T2. simpl in T1, T2.
    destruct (settle_tool_columns _ _ _ Hnt Hdec). lia.
  - intros p lim Hp Hlim. pose proof (Hus F_inference_used) as T1. pose proof (Hus F_inference_reserved) as T2.
    pose proof (settle_call_columns _ _ _ _ _ _ Hok Hdec). simpl in T1, T2.
    destruct (sd_limits _ _ Hs _ _ _ _ Hw Hp) as (_ & _ & L). specialize (L lim Hlim). lia.
  - intros k r Hr. destruct (Hlook _ _ Hr) as [Hr1|(k0 & r0 & z & Hin & -> & Hset)]; [left; by rw -Er|right].
    destruct (Hok _ Hin) as (Hr0 & _ & _ & He & _ & _ & _ & _ & Hz0 & _).
    destruct (sd_reservations _ _ Hs _ _ Hr0) as [Hrok _].
    split; [by eapply settled_row_ok|]. split; [done|]. destruct Hset as ((_ & _ & -> & _) & _). by rw He Hwe.
  - apply (mirror_covered_same digest b); [apply Hs|by rw Ec2 Ec|]. intros k. by apply Hdom.
  - by apply (inference_complete_same digest b); [apply Hs|].
Qed.
End Inference.
