(* ===== verification/UserBudgetTrace.v ===== *)
(** * Traces of user budgets

    The transactions of the three services, as events over one database.  An attempt reads
    from a state the database had at some time before ([qs_seen]) and works on the current
    one; an attempt that raises changes nothing; the other tables change at any time.  An
    inference is settled with an admission the service issued.  Every trace keeps [sound],
    and every state extends those before it. *)

From S2P Require Import Prelude Canonical CanonicalInjectivity TaskBudgetSchema AgentStore UserBudget.
From S2P Require Import UserBudgetAuthority UserToolQuota UserInferenceQuota UserBudgetLedger UserBudgetInvariant.
From S2P Require Import UserInferenceInvariant.

(** What the budget of a task charges. *)
Inductive MirrorSource :=
  | MInference
  | MToolCall (capability_id : string)
  | MUsage (tokens : Z) (cost_usd : Decimal).

Definition source_dimensions (source : MirrorSource) : result UBError (list MirrorDimension) :=
  match source with
  | MInference => mret inference_dimensions
  | MToolCall cap => tool_call_dimensions cap
  | MUsage tokens cost => usage_dimensions tokens cost
  end.

Inductive QuotaEvent :=
  | EvHost (other : QuotaDB)
  | EvPolicy (p : UserBudgetPolicy)
  | EvAccount (owner : string)
  | EvSelect (owner : string) (revision : Z) (policy_id : string)
  | EvRollover (owner : string) (revision now : Z)
  | EvEnroll (settings : DualAccountingSettings) (task_id : string) (parent : option string) (identity : Identity)
  | EvMirror (settings : DualAccountingSettings) (binding : TaskBindingSnapshot) (kind key fingerprint : string)
      (source : MirrorSource) (now : Z)
  | EvReserveTool (identity : Identity) (q : ToolCallRequest) (now : Z) (seen : nat)
  | EvEndTool (a : ToolQuotaAdmission) (key : string) (settle : bool) (now : Z)
  | EvReserveInference (c : InferenceQuotaContext) (fingerprint : string) (e : InferenceQuotaEstimate)
      (now : Z) (seen : nat)
  | EvSettleInference (issued : nat) (usage : NormalizedInferenceUsage) (now : Z).

Record QuotaState := {
  qs_db : QuotaDB;
  qs_seen : list QuotaDB;
  qs_issued : list InferenceQuotaAdmission
}.

(** A state to start from: no budgets yet. *)
Definition initial_state (host : QuotaDB) : QuotaState :=
  {| qs_db := set_budgets host empty_budget_db; qs_seen := []; qs_issued := [] |}.

(** A commit. *)
Definition commit_db (s : QuotaState) (r : result UBError QuotaDB) : QuotaState :=
  match r with
  | Ok db => {| qs_db := db; qs_seen := qs_db s :: qs_seen s; qs_issued := qs_issued s |}
  | Err _ => s
  end.

Definition issue (s : QuotaState) (a : option InferenceQuotaAdmission) : QuotaState :=
  {| qs_db := qs_db s; qs_seen := qs_seen s;
     qs_issued := match a with Some a => a :: qs_issued s | None => qs_issued s end |}.

(** The state an attempt read from. *)
Definition snapshot_of (s : QuotaState) (n : nat) : QuotaDB := nth n (qs_seen s) (qs_db s).

Section Trace.
Context (digest : string -> string).

(** The budget tables after an event that changes nothing else. *)
Definition budget_event (b : UserBudgetDB) (ev : QuotaEvent) : result UBError UserBudgetDB :=
  match ev with
  | EvPolicy p =>
      _ ← guard_err (policy_valid p) (UBValueError "UserBudgetPolicy");
      r ← create_or_get_immutable_policy digest b p; mret (fst r)
  | EvAccount owner => mret (fst (create_or_get_account b owner))
  | EvSelect owner revision id => r ← select_next_policy b owner revision id; mret (fst r)
  | EvRollover owner revision now => r ← rollover_window b owner revision now; mret (fst r)
  | EvMirror settings binding kind key fingerprint source now =>
      dimensions ← source_dimensions source;
      r ← mirror_resource digest settings b binding kind key fingerprint dimensions now; mret (fst r)
  | _ => mret b
  end.

Definition enroll (settings : DualAccountingSettings) (db : QuotaDB) (task_id : string) (parent : option string)
    (identity : Identity) : result UBError QuotaDB :=
  prepared ← prepare_enrollment digest settings db parent identity;
  bound ← bind_prepared_task (qd_budgets (fst prepared)) task_id (snd prepared);
  mret (set_budgets (fst prepared) (fst bound)).

Definition quota_step (s : QuotaState) (ev : QuotaEvent) : QuotaState :=
  let db := qs_db s in
  match ev with
  | EvHost other => commit_db s (Ok (set_budgets other (qd_budgets db)))
  | EvEnroll settings task_id parent identity => commit_db s (enroll settings db task_id parent identity)
  | EvReserveTool identity q now n =>
      commit_db s (r ← reserve_tool_call_attempt digest identity q now (snapshot_of s n) db; mret (fst r))
  | EvEndTool a key settle now =>
      commit_db s (r ← terminal_attempt digest a key settle now db db; mret (fst r))
  | EvReserveInference c fingerprint e now n =>
      match reserve_inference_attempt digest c fingerprint e now (snapshot_of s n) db with
      | Ok (db', a) => issue (commit_db s (Ok db')) a
      | Err _ => s
      end
  | EvSettleInference n usage now =>
      match nth_error (qs_issued s) n with
      | None => s
      | Some a =>
          commit_db s (actuals ← actuals_of usage; r ← settle_attempt a actuals now db db; mret (fst r))
      end
  | _ => commit_db s (b ← budget_event (qd_budgets db) ev; mret (set_budgets db b))
  end.

(** The ids of shadow policies are left to the service. *)
Definition admissible (ev : QuotaEvent) : Prop :=
  match ev with
  | EvPolicy p => String.prefix "ubq2-shadow-" (up_policy_id p) = false
  | _ => True
  end.

Definition state_sound (s : QuotaState) : Prop :=
  sound digest (qd_budgets (qs_db s)) /\
  Forall (fun db => extends (qd_budgets db) (qd_budgets (qs_db s))) (qs_seen s) /\
  Forall (genuine (qd_budgets (qs_db s))) (qs_issued s).

Lemma initial_sound host : state_sound (initial_state host).
Proof. split; [apply sound_empty|]. by split. Qed.

Lemma commit_db_sound s r :
  state_sound s ->
  (forall db, r = Ok db -> sound digest (qd_budgets db) /\ extends (qd_budgets (qs_db s)) (qd_budgets db)) ->
  state_sound (commit_db s r).
Proof.
  intros (Hs & Hseen & Hiss) Hr. destruct r as [db|e]; [|done]. destruct (Hr db eq_refl) as [Hs' Hx].
  split; [done|]. split; simpl.
  - constructor; [done|]. eapply Forall_impl; [exact Hseen|]. simpl. intros d Hd. by etrans.
  - eapply Forall_impl; [exact Hiss|]. simpl. intros a. by apply genuine_extends.
Qed.

Lemma snapshot_extends s n : state_sound s -> extends (qd_budgets (snapshot_of s n)) (qd_budgets (qs_db s)).
Proof.
  intros (_ & Hseen & _). unfold snapshot_of. destruct (nth_in_or_default n (qs_seen s) (qs_db s)) as [Hin| ->]; [|done].
  rw Forall_forall in Hseen. apply Hseen. by apply list_elem_of_In.
Qed.

(** Limits of a valid policy are positive. *)
Lemma limit_valid_pos o l : limit_valid o = true -> o = Some l -> 0 < l.
Proof. intros H ->. simpl in H. breflect. lia. Qed.

Lemma valid_policy_ok p :
  policy_valid p = true -> String.prefix "ubq2-shadow-" (up_policy_id p) = false -> policy_ok (durable_values digest p).
Proof.
  unfold policy_valid. intros H Hpre. apply andb_true_iff in H as [H Htools]. apply andb_true_iff in H as [_ H].
  simpl in H. repeat (apply andb_true_iff in H as [? H]). split; [|simpl; by rw Hpre].
  split; [|split]; simpl; intros; [by eapply limit_valid_pos; [|eassumption]| |by eapply limit_valid_pos; [|eassumption]].
  unfold per_tool_limit in *. simpl in *. destruct (up_tool_limits p !! cap) as [z|] eqn:E; [|by eapply limit_valid_pos; [|eassumption]].
  rw forallb_forall in Htools. specialize (Htools (cap, z)). rw andb_true_iff in Htools.
  destruct Htools as [_ Hz]; [by apply list_elem_of_In, elem_of_map_to_list|]. by eapply limit_valid_pos; [|eassumption].
Qed.

(** ** The events keep the invariant *)

Context (digest_inj : forall a b, digest a = digest b -> a = b).

Definition keeps (b b' : UserBudgetDB) : Prop := sound digest b' /\ extends b b'.

Lemma keeps_same b : sound digest b -> keeps b b.
Proof. by split. Qed.

Lemma opens_keeps b b' : opens b b' -> sound digest b' -> keeps b b'.
Proof. intros Ho Hs. split; [done|]. eapply ef_extends, os_effect, Ho. Qed.

Lemma source_distinct source l : source_dimensions source = Ok l -> distinct_resources l.
Proof.
  destruct source; simpl; intros H.
  - unfold mret, result_ret in H. injection H as <-. apply inference_distinct.
  - by eapply tool_call_distinct.
  - by eapply usage_distinct.
Qed.

Lemma rollover_keeps b o rev now b' w :
  sound digest b -> rollover_window b o rev now = Ok (b', w) -> keeps b b'.
Proof.
  intros Hs H. destruct (get_account b o) as [a|] eqn:Ha; [|by unfold rollover_window in H; rw Ha in H].
  destruct (rollover_spec _ _ _ _ _ _ _ (sd_keyed _ _ Hs) Ha H) as (Ho & _).
  apply opens_keeps; [done|]. apply (policy_ok_opens digest b); [done|done|]. by eapply rollover_policies.
Qed.

Lemma budget_event_keeps b ev b' :
  admissible ev -> sound digest b -> budget_event b ev = Ok b' -> keeps b b'.
Proof.
  intros Hadm Hs H. destruct ev; simpl in H; try (unfold mret, result_ret in H; injection H as <-; by apply keeps_same).
  - apply guard_bind_ok in H as [Hv H]. apply bind_ok in H as ([b1 r] & Hr & H). injection H as <-.
    destruct (create_shadow_policy_opens digest _ _ _ _ Hs Hr (valid_policy_ok _ Hv Hadm)). by apply opens_keeps.
  - unfold mret, result_ret in H. injection H as <-. destruct (create_or_get_account b owner) as [b1 a] eqn:E.
    destruct (create_account_opens digest _ _ _ _ Hs E) as (? & ? & _). by apply opens_keeps.
  - apply bind_ok in H as ([b1 a] & Hr & H). injection H as <-.
    destruct (select_policy_opens digest _ _ _ _ _ _ Hs Hr) as (? & ? & _). by apply opens_keeps.
  - apply bind_ok in H as ([b1 w] & Hr & H). injection H as <-. by eapply rollover_keeps.
  - apply bind_ok in H as (l & Hl & H). apply bind_ok in H as ([b1 rows] & Hr & H). injection H as <-.
    exact (mirror_resource_sound digest digest_inj _ _ _ _ _ _ _ _ _ _ Hs (source_distinct _ _ Hl) Hr).
Qed.

Lemma bind_task_keeps b t r b' x : sound digest b -> bind_prepared_task b t r = Ok (b', x) -> keeps b b'.
Proof.
  intros Hs H. unfold bind_prepared_task in H. apply bind_ok in H as ([b1 row] & Hr & H).
  unfold mret, result_ret in H. injection H as <- _. simpl.
  destruct (create_task_binding_effect _ _ _ _ (sd_keyed _ _ Hs) Hr) as [He _].
  split; [|eapply ef_extends, He].
  assert (Hsame : ub_windows b1 = ub_windows b /\ ub_tool_usage b1 = ub_tool_usage b /\
    ub_reservations b1 = ub_reservations b /\ ub_receipts b1 = ub_receipts b /\ ub_policies b1 = ub_policies b).
  { unfold create_task_binding in Hr. by ub_inv. }
  destruct Hsame as (? & ? & ? & Hrc & ?). apply (sound_same_tables digest b); try done; [by rw Hrc|by apply receipts_from_same].
Qed.

Lemma enroll_keeps settings db t parent identity db' :
  sound digest (qd_budgets db) -> enroll settings db t parent identity = Ok db' ->
  keeps (qd_budgets db) (qd_budgets db').
Proof.
  intros Hs H. unfold enroll in H. apply bind_ok in H as ([db1 r] & Hp & H).
  unfold prepare_enrollment in Hp. apply bind_ok in Hp as (res & _ & Hp). apply bind_ok in Hp as ([b1 a] & He & Hp).
  cbv zeta in Hp. apply bind_ok in Hp as (? & _ & Hp). unfold mret, result_ret in Hp. injection Hp as <- <-.
  destruct (ensure_shadow_spec digest _ _ _ _ _ Hs He) as (Ho & Hs1 & _).
  apply bind_ok in H as ([b2 bound] & Hb & H). unfold mret, result_ret in H. injection H as <-. simpl in *.
  destruct (bind_task_keeps _ _ _ _ _ Hs1 Hb) as [Hs2 Hx]. split; [done|].
  etrans; [eapply ef_extends, os_effect, Ho|done].
Qed.

Lemma historical_flag db o t q a :
  historical_bridge_admission db o t q = Ok (Some a) -> ta_historical_bridge a = true.
Proof.
  unfold historical_bridge_admission. intros H.
  destruct (truthy_opt t); [|done]. destruct (truthy_opt (tr_execution_id q)); [|done].
  destruct (truthy_opt (tr_tool_call_id q)); [|done]. destruct (get_dual_accounting_receipt _ _ _ _ _); [|done].
  apply bind_ok in H as (x & Hx & H). unfold mret, result_ret in H. injection H as ->.
  unfold historical_admission in Hx. ub_inv; done.
Qed.

Definition the_tool_key (q : ToolCallRequest) : string := tool_key digest (tr_invocation_id q).

(** The ways an attempt to reserve a tool call can succeed: a replay seen before the lock or
    under it, a historical charge, or an admission. *)
Inductive attempt_outcome (q : ToolCallRequest) (now : Z) (snapshot db : QuotaDB) (a : ToolQuotaAdmission)
    : QuotaDB -> Prop :=
  | replay_before r :
      get_reservation (qd_budgets snapshot) (ta_owner_user_id a) (the_tool_key q) = Some r ->
      a = direct_admission digest (ta_owner_user_id a) q r -> attempt_outcome q now snapshot db a db
  | replay_historical : ta_historical_bridge a = true -> attempt_outcome q now snapshot db a db
  | replay_locked r :
      get_reservation (qd_budgets db) (ta_owner_user_id a) (the_tool_key q) = Some r ->
      a = direct_admission digest (ta_owner_user_id a) q r -> attempt_outcome q now snapshot db a db
  | admitted acc b :
      get_account (qd_budgets db) (ta_owner_user_id a) = Some acc ->
      get_reservation (qd_budgets db) (ta_owner_user_id a) (the_tool_key q) = None ->
      admit_tool_call digest (qd_budgets db) (ta_owner_user_id a) acc q now = Ok (b, a) ->
      attempt_outcome q now snapshot db a (set_budgets db b).

Lemma admit_owner b o acc q now b' a : admit_tool_call digest b o acc q now = Ok (b', a) -> ta_owner_user_id a = o.
Proof. unfold admit_tool_call. intros H. ub_inv. done. Qed.

Lemma attempt_cases identity q now snapshot db db' a :
  reserve_tool_call_attempt digest identity q now snapshot db = Ok (db', a) -> attempt_outcome q now snapshot db a db'.
Proof.
  intros H. unfold reserve_tool_call_attempt in H. cbv zeta in H. apply bind_ok in H as (res & _ & H).
  destruct (get_reservation (qd_budgets snapshot) _ _) as [r|] eqn:Es.
  { apply bind_ok in H as (? & _ & H). unfold mret, result_ret in H. injection H as <- <-. by eapply replay_before. }
  apply bind_ok in H as ([h|] & Hh & H).
  { unfold mret, result_ret in H. injection H as <- <-. apply replay_historical. by eapply historical_flag. }
  destruct (get_account (qd_budgets db) _) as [acc|] eqn:Ha; [|done]. apply guard_bind_ok in H as [_ H].
  destruct (get_reservation (qd_budgets db) _ _) as [r|] eqn:Hn.
  { apply bind_ok in H as (? & _ & H). unfold mret, result_ret in H. injection H as <- <-. by eapply replay_locked. }
  apply bind_ok in H as ([b adm] & Hadm & H). unfold mret, result_ret in H. injection H as <- <-. simpl in *.
  pose proof (admit_owner _ _ _ _ _ _ _ Hadm) as Eo. rw -Eo in Ha, Hn, Hadm. by eapply admitted.
Qed.

Lemma reserve_tool_keeps identity q now snapshot db db' a :
  sound digest (qd_budgets db) -> reserve_tool_call_attempt digest identity q now snapshot db = Ok (db', a) ->
  keeps (qd_budgets db) (qd_budgets db').
Proof.
  intros Hs H. destruct (attempt_cases _ _ _ _ _ _ _ H); try by apply keeps_same. simpl.
  by eapply admit_tool_call_sound.
Qed.

Lemma end_tool_keeps a key settle now snapshot db db' adm :
  sound digest (qd_budgets db) -> terminal_attempt digest a key settle now snapshot db = Ok (db', adm) ->
  keeps (qd_budgets db) (qd_budgets db').
Proof.
  intros Hs H. unfold terminal_attempt in H. cbv zeta in H.
  destruct (get_reservation (qd_budgets db) _ key) as [r|] eqn:Hr; [|done]. apply bind_ok in H as ([] & Hv & H).
  case_bool_decide; [unfold mret, result_ret in H; injection H as <- _; by apply keeps_same|].
  apply guard_bind_ok in H as [Hst H]. apply bind_ok in H as ([b r'] & He & H).
  unfold mret, result_ret in H. injection H as <- _. simpl. breflect.
  destruct (sd_reservations _ _ Hs _ _ Hr) as [Hok _].
  destruct (verify_direct_spec digest _ _ _ Hv Hok) as (_ & _ & ? & ? & ?). by eapply end_tool_call_sound.
Qed.

Lemma reserve_inference_keeps c fp e now snapshot db db' a :
  sound digest (qd_budgets db) -> extends (qd_budgets snapshot) (qd_budgets db) ->
  reserve_inference_attempt digest c fp e now snapshot db = Ok (db', a) ->
  keeps (qd_budgets db) (qd_budgets db') /\ forall adm, a = Some adm -> genuine (qd_budgets db') adm.
Proof.
  intros Hs Hx H. unfold reserve_inference_attempt in H. cbv zeta in H. apply bind_ok in H as (o & _ & H).
  destruct (get_reservation (qd_budgets snapshot) _ _) as [r|].
  { apply bind_ok in H as (adm & Hr & H). unfold mret, result_ret in H. injection H as <- <-.
    split; [by apply keeps_same|]. intros ? [= <-]. eapply genuine_extends; [done|]. by eapply replay_genuine. }
  apply bind_ok in H as (? & _ & H).
  destruct (get_account (qd_budgets db) _) as [acc|] eqn:Ha; [|done]. apply guard_bind_ok in H as [_ H].
  destruct (get_reservation (qd_budgets db) _ _) as [r|] eqn:Hn.
  { unfold mret, result_ret in H. injection H as <- <-. split; [by apply keeps_same|done]. }
  apply bind_ok in H as ([b adm] & Hadm & H). unfold mret, result_ret in H. injection H as <- <-. simpl.
  destruct (admit_inference_sound digest digest_inj _ _ _ _ _ _ _ _ _ Hs Ha Hn Hadm) as (? & ? & ?).
  split; [done|]. by intros ? [= <-].
Qed.

Lemma actuals_one usage actuals : actuals_of usage = Ok actuals -> ac_of actuals K_INFERENCE_CALL = Some 1.
Proof.
  unfold actuals_of. intros H. apply bind_ok in H as (? & _ & H). apply bind_ok in H as (? & _ & H).
  unfold mret, result_ret in H. by injection H as <-.
Qed.

Lemma issue_sound s a :
  state_sound s -> (forall adm, a = Some adm -> genuine (qd_budgets (qs_db s)) adm) ->
  state_sound (issue s a).
Proof.
  intros (Hs & Hseen & Hiss) Ha. split; [done|]. split; [done|]. destruct a as [adm|]; simpl; [|done].
  constructor; [by apply Ha|done].
Qed.

Lemma quota_step_sound s ev : admissible ev -> state_sound s -> state_sound (quota_step s ev).
Proof.
  intros Hadm Hst. pose proof Hst as (Hs & _ & Hiss).
  assert (Hbudget : state_sound (commit_db s (b ← budget_event (qd_budgets (qs_db s)) ev;
    mret (set_budgets (qs_db s) b)))).
  { apply commit_db_sound; [done|]. intros db' H. apply bind_ok in H as (b & Hb & H).
    unfold mret, result_ret in H. injection H as <-. by apply (budget_event_keeps _ ev). }
  destruct ev; cbv beta iota zeta delta [quota_step]; try exact Hbudget; try (apply commit_db_sound; [done|]; intros db' H).
  - by eapply enroll_keeps.
  - apply bind_ok in H as ([d adm] & Hr & H). unfold mret, result_ret in H. injection H as <-. by eapply reserve_tool_keeps.
  - apply bind_ok in H as ([d adm] & Hr & H). unfold mret, result_ret in H. injection H as <-. by eapply end_tool_keeps.
  - destruct (reserve_inference_attempt _ _ _ _ _ _ _) as [[d adm]|err] eqn:Hr; [|done].
    destruct (reserve_inference_keeps _ _ _ _ _ _ _ _ Hs (snapshot_extends _ _ Hst) Hr) as [Hk Hg].
    apply issue_sound; [|done]. apply commit_db_sound; [done|]. by intros ? [= <-].
  - destruct (nth_error (qs_issued s) issued) as [a|] eqn:Ha; [|done]. apply commit_db_sound; [done|]. intros db' H.
    apply bind_ok in H as (ac & Hac & H). apply bind_ok in H as ([d x] & Hr & H).
    unfold mret, result_ret in H. injection H as <-. rw Forall_forall in Hiss.
    apply (settle_attempt_sound digest digest_inj _ _ _ _ _ _ _ Hs) in Hr; [done| |by eapply actuals_one].
    apply Hiss. apply list_elem_of_In. by eapply nth_error_In.
Qed.

(** Every trace keeps the invariant. *)
Lemma trace_sound s evs :
  Forall admissible evs -> state_sound s -> state_sound (runs quota_step s evs).
Proof. apply runs_invariant_if. intros s' ev. apply quota_step_sound. Qed.

Lemma commit_db_cases s r : qs_db (commit_db s r) = qs_db s \/ qs_db s ∈ qs_seen (commit_db s r).
Proof. destruct r; [right; left|by left]. Qed.

Lemma quota_step_extends s ev :
  admissible ev -> state_sound s ->
  extends (qd_budgets (qs_db s)) (qd_budgets (qs_db (quota_step s ev))).
Proof.
  intros Hadm Hst. pose proof (quota_step_sound _ _ Hadm Hst) as (_ & Hseen & _).
  assert (Hcase : qs_db (quota_step s ev) = qs_db s \/ qs_db s ∈ qs_seen (quota_step s ev)).
  { destruct ev; cbv beta iota zeta delta [quota_step]; try apply commit_db_cases.
    - destruct (reserve_inference_attempt _ _ _ _ _ _ _) as [[d adm]|err]; [right; left|by left].
    - destruct (nth_error _ _); [apply commit_db_cases|by left]. }
  destruct Hcase as [->|Hin]; [done|]. rw Forall_forall in Hseen. by apply Hseen.
Qed.

Lemma trace_extends s evs :
  Forall admissible evs -> state_sound s ->
  extends (qd_budgets (qs_db s)) (qd_budgets (qs_db (runs quota_step s evs))).
Proof.
  intros Hadm. revert s. induction Hadm as [|ev evs Hev _ IH]; intros s Hs; [done|]. rw runs_cons.
  etrans; [by apply quota_step_extends|]. apply IH. by apply quota_step_sound.
Qed.
End Trace.
