(* ===== verification/UserBudgetProperties.v ===== *)
(** * Properties of user budgets

    Over every trace of the quota services: counters are the ledger, limits hold, history is
    kept, a call is charged once and can be ended, and a mirrored charge is replayed and
    reconciles.  The digest is any function without collisions. *)

From S2P Require Import Prelude Canonical CanonicalInjectivity TaskBudgetSchema AgentStore UserBudget.
From S2P Require Import UserBudgetAuthority UserToolQuota UserInferenceQuota UserBudgetLedger UserBudgetInvariant.
From S2P Require Import UserInferenceInvariant UserBudgetTrace.

Section Properties.
Context (digest : string -> string) (digest_inj : forall a b, digest a = digest b -> a = b).

(** ** Reservations stand for calls *)

Lemma contribution_nonneg o e c r : reservation_ok r -> 0 <= contribution_at o e c r.
Proof.
  intros (H1 & _ & H3 & _). unfold contribution_at, contribution.
  destruct (rv_settled_amount_atomic r) as [z|]; [specialize (H3 z eq_refl)|]; simpl;
    repeat case_match; lia.
Qed.

Lemma counter_bound b o e c k r :
  sound digest b -> ub_reservations b !! k = Some r -> contribution_at o e c r <= counter_at b o e c.
Proof.
  intros Hs Hr. pose proof (sd_ledger _ _ Hs o e c) as Hg. unfold gap, ledger_total in Hg.
  assert (contribution_at o e c r <= map_sum (contribution_at o e c) (ub_reservations b)); [|lia].
  apply (map_sum_member _ _ k); [|done]. intros k' r' Hr'. apply contribution_nonneg. by eapply Hs.
Qed.

Lemma counter_nonneg b o e c : sound digest b -> 0 <= counter_at b o e c.
Proof.
  intros Hs. pose proof (sd_ledger _ _ Hs o e c) as Hg. unfold gap, ledger_total in Hg.
  assert (0 <= map_sum (contribution_at o e c) (ub_reservations b)); [|lia].
  apply map_sum_nonneg. intros k' r' Hr'. apply contribution_nonneg. by eapply Hs.
Qed.

(** ** Ending a call *)

Lemma atomic_counter_ok z : 0 <= z < USER_BUDGET_INT64_MAX + 1 -> require_atomic_counter z = Ok z.
Proof.
  intros Hz. unfold require_atomic_counter.
  assert (E : (0 <=? z) && (z <=? USER_BUDGET_INT64_MAX) = true) by (apply andb_true_iff; lia).
  by rw E.
Qed.

Lemma mutate_window_succeeds b o e w targets :
  get_window b o e = Some w -> targets <> [] ->
  (forall f z, (f, z) ∈ targets -> 0 <= z < USER_BUDGET_INT64_MAX + 1) ->
  (forall f z, target_of f targets = Some z -> f ∈ monotonic_used_fields -> usage_get f (wr_usage w) <= z) ->
  exists b' w', mutate_window_usage b o e (wr_revision w) targets = Ok (b', w').
Proof.
  intros Hw Hne Hr Hm. unfold mutate_window_usage. rw Hw Z.eqb_refl.
  assert (E1 : forallb (fun t : UsageField * Z => is_ok (require_atomic_counter t.2)) targets = true).
  { apply forallb_forall. intros [f z] Hin. apply list_elem_of_In in Hin. simpl.
    by rw (atomic_counter_ok z (Hr _ _ Hin)). }
  assert (E2 : forallb (fun f => match target_of f targets with
    | Some z => negb (z <? usage_get f (wr_usage w)) | None => true end) monotonic_used_fields = true).
  { apply forallb_forall. intros f Hin. apply list_elem_of_In in Hin.
    destruct (target_of f targets) as [z|] eqn:E; [|done]. specialize (Hm _ _ E Hin). apply negb_true_iff. lia. }
  rw E1 E2 bool_decide_eq_false_2 //. eauto.
Qed.

(** The counters of a capability, read from its row. *)
Lemma tool_usage_counters b o e cap u :
  get_tool_usage b o e cap = Some u ->
  tu_used_calls u = counter_at b o e (CToolUsed cap) /\ tu_reserved_calls u = counter_at b o e (CToolReserved cap).
Proof. intros Hu. unfold counter_at. by rw Hu. Qed.

Lemma mutate_tool_succeeds b o e cap u used reserved :
  get_tool_usage b o e cap = Some u -> tu_used_calls u <= used ->
  0 <= used < USER_BUDGET_INT64_MAX + 1 -> 0 <= reserved < USER_BUDGET_INT64_MAX + 1 ->
  exists b' u', mutate_tool_usage b o e cap (tu_revision u) used reserved = Ok (b', u').
Proof.
  intros Hu Hle H1 H2. unfold mutate_tool_usage. rw Hu Z.eqb_refl (atomic_counter_ok _ H1) (atomic_counter_ok _ H2).
  simpl. assert (E : (used <? tu_used_calls u) = false) by lia. rw E. eauto.
Qed.

Lemma transition_succeeds b o key r (settle : bool) now :
  get_reservation b o key = Some r -> rv_state r = S_RESERVED ->
  exists b' r', transition_reservation b o key (rv_revision r) (if settle then S_SETTLED else S_RELEASED)
    (if settle then Some 1 else None) (if settle then Some now else None) = Ok (b', r').
Proof.
  intros Hr Hst. unfold transition_reservation. rw Hr Hst Z.eqb_refl. destruct settle; simpl; eauto.
Qed.

(** The counters of a reserved call stand at one at least. *)
Lemma reserved_call_counters b o key r cap :
  sound digest b -> get_reservation b o key = Some r -> rv_state r = S_RESERVED ->
  rv_resource_kind r = K_TOOL_CALL -> rv_capability_id r = Some cap -> rv_reserved_amount_atomic r = 1 ->
  exists w u, get_window b o (rv_window_epoch r) = Some w /\ get_tool_usage b o (rv_window_epoch r) cap = Some u /\
    1 <= tool_calls_reserved (wr_usage w) /\ 1 <= tu_reserved_calls u /\
    0 <= tool_calls_used (wr_usage w) /\ 0 <= tu_used_calls u.
Proof.
  intros Hs Hr Hst Hkind Hcap Hamt. set (e := rv_window_epoch r) in *.
  destruct (keyed_reservations _ (sd_keyed _ _ Hs) _ _ _ Hr) as [Ho _].
  assert (Hin : in_window o e r = true) by (unfold in_window; rw Ho Z.eqb_refl bool_decide_eq_true_2 //).
  assert (Hone : forall c, charges_reserved K_TOOL_CALL (Some cap) c = true -> 1 <= counter_at b o e c).
  { intros c Hc. pose proof (counter_bound _ o e c _ _ Hs Hr) as Hb. unfold contribution_at, contribution in Hb.
    rw Hin Hst Hkind Hcap Hc Hamt in Hb. done. }
  pose proof (Hone (CField F_tool_calls_reserved) ltac:(done)) as R1.
  assert (R2 : 1 <= counter_at b o e (CToolReserved cap)) by (apply Hone; simpl; by rw bool_decide_eq_true_2).
  pose proof (counter_nonneg b o e (CField F_tool_calls_used) Hs) as N1.
  pose proof (counter_nonneg b o e (CToolUsed cap) Hs) as N2.
  destruct (sd_reservations _ _ Hs _ _ Hr) as [_ [w Hw]]. simpl in Hw. fold e in Hw.
  unfold counter_at in *. rw Hw in R1, N1. destruct (get_tool_usage b o e cap) as [u|]; [|done]. by exists w, u.
Qed.

(** A reserved call can be settled, or released. *)
Lemma end_tool_call_succeeds b a key r (settle : bool) now :
  sound digest b -> get_reservation b (ta_owner_user_id a) key = Some r -> rv_state r = S_RESERVED ->
  rv_resource_kind r = K_TOOL_CALL -> rv_capability_id r = Some (ta_capability_id a) ->
  rv_reserved_amount_atomic r = 1 ->
  (forall c, counter_at b (ta_owner_user_id a) (rv_window_epoch r) c < USER_BUDGET_INT64_MAX) ->
  exists b' r', end_tool_call b a key r settle now = Ok (b', r').
Proof.
  intros Hs Hr Hst Hkind Hcap Hamt Hmax.
  destruct (reserved_call_counters _ _ _ _ _ Hs Hr Hst Hkind Hcap Hamt) as (w & u & Hw & Hu & R1 & R2 & N1 & N2).
  pose proof (Hmax (CField F_tool_calls_used)) as M1. pose proof (Hmax (CField F_tool_calls_reserved)) as M2.
  pose proof (Hmax (CToolUsed (ta_capability_id a))) as M3.
  pose proof (Hmax (CToolReserved (ta_capability_id a))) as M4. unfold counter_at in M1, M2, M3, M4.
  rw Hw in M1, M2. rw Hu in M3, M4. simpl in M1, M2, M3, M4.
  unfold end_tool_call. cbv zeta. rw Hw Hu.
  destruct (keyed_windows _ (sd_keyed _ _ Hs) _ _ _ Hw) as [_ We]. rw We.
  assert (G : (tool_calls_reserved (wr_usage w) <=? 0) || (tu_reserved_calls u <=? 0) = false) by lia. rw G.
  match goal with |- context [mutate_window_usage b ?o ?e ?rev ?t] =>
    destruct (mutate_window_succeeds b o e w t Hw) as (b1 & w1 & H1) end; [by destruct settle| | |].
  { intros f z Hin. destruct settle; simpl in Hin; set_unfold in Hin; naive_solver lia. }
  { intros f z Hf Hm. unfold monotonic_used_fields in Hm. destruct settle; simpl in Hf;
      repeat case_bool_decide; simplify_eq/=; try lia; exfalso; set_solver. }
  destruct (mutate_window_spec _ _ _ _ _ _ _ (sd_keyed _ _ Hs) H1) as (w0 & _ & _ & _ & _ & _ & _ & _ & -> & E1).
  match goal with |- context [mutate_tool_usage _ ?o ?e ?cap _ ?used ?res] =>
    destruct (mutate_tool_succeeds (put_window b w1) o e cap u used res) as (b2 & u2 & H2) end;
    [done|destruct settle; lia|destruct settle; lia|lia|].
  destruct (mutate_tool_spec _ _ _ _ _ _ _ _ _ (ef_keyed _ _ _ E1) H2) as (u0 & _ & _ & _ & -> & _).
  rw H1. simpl. rw H2. simpl. by apply transition_succeeds.
Qed.

(** ** Replays of a call *)

Lemma verify_stable r r' o q :
  same_reservation r r' -> verify_direct_reservation digest r o q = Ok tt ->
  verify_direct_reservation digest r' o q = Ok tt.
Proof.
  intros (E1 & E2 & E3 & E4 & E5 & E6 & E7 & _ & E9 & _). unfold verify_direct_reservation.
  by rw E1 E2 E3 E4 E5 E6 E7 E9.
Qed.

Lemma verify_new o e q :
  intent_valid (tool_intent digest o e q) = true ->
  verify_direct_reservation digest (new_reservation digest (tool_intent digest o e q)) o q = Ok tt.
Proof.
  intros Hv. unfold verify_direct_reservation. cbv zeta. cbn [new_reservation rv_window_epoch tool_intent ui_window_epoch].
  rw Hv. cbn -[payload_fingerprint tool_key tool_reservation_id]. by rw !bool_decide_eq_true_2.
Qed.

(** The request read back from the attribution has the same intent. *)
Lemma attributed_intent o e q a :
  ta_invocation_id a = tr_invocation_id q -> ta_capability_id a = tr_capability_id q ->
  ta_request_fingerprint a = tr_request_fingerprint q ->
  tool_intent digest o e (attributed_request a (canonical_attribution (tool_intent digest o e q))) =
    tool_intent digest o e q.
Proof.
  intros H1 H2 H3. unfold tool_intent, attributed_request. cbn [tr_invocation_id tr_capability_id].
  rw H1 H2. f_equal. unfold tool_attribution. cbn [tr_invocation_id tr_capability_id tr_request_fingerprint
    tr_execution_id tr_tool_call_id tr_task_id tr_workflow_id tr_session_id]. rw ?H1 ?H2 ?H3.
  unfold canonical_attribution. cbn [ui_attribution]. unfold tool_attribution.
  by destruct (tr_execution_id q), (tr_tool_call_id q), (tr_task_id q), (tr_workflow_id q), (tr_session_id q).
Qed.

Lemma verify_intent r o q q' :
  tool_intent digest o (rv_window_epoch r) q = tool_intent digest o (rv_window_epoch r) q' ->
  verify_direct_reservation digest r o q = Ok tt -> verify_direct_reservation digest r o q' = Ok tt.
Proof.
  intros E. assert (Hc : tr_capability_id q = tr_capability_id q').
  { apply (f_equal ui_capability_id) in E. by injection E. }
  unfold verify_direct_reservation. by rw E Hc.
Qed.

(** The reservation behind an admission. *)
Lemma attempt_reserves identity q now snapshot db db' a :
  sound digest (qd_budgets db) -> extends (qd_budgets snapshot) (qd_budgets db) ->
  reserve_tool_call_attempt digest identity q now snapshot db = Ok (db', a) -> ta_historical_bridge a = false ->
  exists r, get_reservation (qd_budgets db') (ta_owner_user_id a) (the_tool_key digest q) = Some r /\
    ta_reservation_id a = Some (rv_reservation_id r) /\ ta_window_epoch a = Some (rv_window_epoch r) /\
    (get_reservation (qd_budgets db) (ta_owner_user_id a) (the_tool_key digest q) = None ->
     exists epoch, intent_valid (tool_intent digest (ta_owner_user_id a) epoch q) = true /\
       r = new_reservation digest (tool_intent digest (ta_owner_user_id a) epoch q) /\
       a = direct_admission digest (ta_owner_user_id a) q r).
Proof.
  intros Hs Hx H Hh. destruct (attempt_cases _ _ _ _ _ _ _ _ H) as [r Hr ->|Hf|r Hr ->|acc b Ha Hn Hadm].
  - destruct (ex_reservations _ _ Hx _ _ Hr) as (r' & Hr' & (Ei & _ & Ee & _)). exists r'. split; [done|]. simpl.
    rw Ei Ee. do 2 (split; [done|]). unfold get_reservation in *. simpl in *. congruence.
  - congruence.
  - exists r. do 3 (split; [done|]). unfold get_reservation in *. simpl in *. congruence.
  - destruct (admit_tool_call_shape digest _ _ _ _ _ _ _ Hs Ha Hn Hadm) as
      (db1 & w & p & w' & u & u' & _ & _ & _ & _ & _ & _ & _ & _ & _ & _ & Hv & _ & _ & _ & _ & _ & _ & -> & _ & Eadm).
    exists (new_reservation digest (tool_intent digest (ta_owner_user_id a) (wr_epoch w) q)).
    split; [unfold get_reservation; simpl; by rw lookup_insert_eq|].
    split; [by rw {1}Eadm|]. split; [by rw {1}Eadm|]. intros _. by exists (wr_epoch w).
Qed.

(** An attempt for an invocation that is reserved leaves the database alone. *)
Lemma replayed_attempt identity q now snapshot db db' a r :
  extends (qd_budgets snapshot) (qd_budgets db) ->
  reserve_tool_call_attempt digest identity q now snapshot db = Ok (db', a) ->
  get_reservation (qd_budgets db) (ta_owner_user_id a) (the_tool_key digest q) = Some r ->
  db' = db /\ (ta_historical_bridge a = true \/
    (ta_reservation_id a = Some (rv_reservation_id r) /\ ta_window_epoch a = Some (rv_window_epoch r))).
Proof.
  intros Hx H Hd. destruct (attempt_cases _ _ _ _ _ _ _ _ H) as [r0 Hr Ea|Hf|r0 Hr Ea|acc b Ha Hn Hadm].
  - split; [done|right]. destruct (ex_reservations _ _ Hx _ _ Hr) as (r' & Hr' & (Ei & _ & Ee & _)).
    unfold get_reservation in Hd. rw Hd in Hr'. injection Hr' as <-. by rw Ei Ee Ea.
  - auto.
  - split; [done|right]. rw Hd in Hr. injection Hr as <-. by rw Ea.
  - congruence.
Qed.

(** ** Replays of a mirrored charge *)

Lemma existing_extends b b' t kind key fp l rows :
  extends b b' -> existing_receipts b t kind key fp l = Ok (rows, []) ->
  existing_receipts b' t kind key fp l = Ok (rows, []).
Proof.
  intros Hx. revert rows. induction l as [|d l IH]; intros rows H; simpl in *; [done|].
  destruct (get_dual_accounting_receipt b _ _ _ _) as [row|] eqn:E.
  - apply guard_bind_ok in H as [Hm H]. apply bind_ok in H as ([found missing] & Hf & H).
    unfold mret, result_ret in H. injection H as <- ->. destruct (ex_receipts _ _ Hx _ _ E) as (? & Hr & <-).
    unfold get_dual_accounting_receipt. rw Hr Hm (IH _ Hf). done.
  - apply bind_ok in H as ([found missing] & _ & H). done.
Qed.

(** After the dimensions are mirrored, their receipts are found. *)
Lemma mirror_dimensions_found l b t kind key fp w now b' rows :
  sound digest b -> get_window b (ts_owner_user_id t) (wr_epoch w) = Some w ->
  (forall p, get_policy b (ts_owner_user_id t) (wr_governing_policy_id w) = Some p -> unlimited p) ->
  distinct_resources l ->
  (forall d, d ∈ l -> get_dual_accounting_receipt b (ts_task_id t) kind key (md_resource_kind d) = None) ->
  mirror_dimensions digest b t kind key fp w now l = Ok (b', rows) ->
  existing_receipts b' t kind key fp l = Ok (rows, []).
Proof.
  revert b w rows. induction l as [|d l IH]; intros b w rows Hs Hw Hun Hd Hc H; [by injection H as <- <-|].
  cbn [mirror_dimensions] in H. apply bind_ok in H as ([[b1 w1] row] & H1 & H).
  apply bind_ok in H as ([b2 rest] & H2 & H). unfold mret, result_ret in H. injection H as <- <-. simpl.
  destruct (mirror_rest digest digest_inj _ _ _ _ _ _ _ _ _ _ _ _ Hs Hw Hun Hd Hc H1) as
    (Hs1 & Hw1 & Hun1 & Hd1 & Hc1 & Hrow & Hm).
  destruct (mirror_dimensions_sound digest digest_inj _ _ _ _ _ _ _ _ _ _ Hs1 Hw1 Hun1 Hd1 Hc1 H2) as [_ Hx].
  destruct (ex_receipts _ _ Hx _ _ Hrow) as (? & Hr & <-). unfold get_dual_accounting_receipt. rw Hr Hm.
  by rw (IH _ _ _ Hs1 Hw1 Hun1 Hd1 Hc1 H2).
Qed.

Definition no_charge_dimension : MirrorDimension :=
  {| md_resource_kind := "NO_CHARGE"; md_amount_atomic := 0; md_capability_id := None |}.

Lemma source_no_charge source l :
  source_dimensions source = Ok l -> is_no_charge l = true -> l = [no_charge_dimension].
Proof.
  destruct source; simpl; intros H Hn.
  - unfold mret, result_ret in H. by injection H as <-.
  - unfold tool_call_dimensions in H. by ub_inv.
  - unfold usage_dimensions in H. apply bind_ok in H as (c & _ & H). unfold mret, result_ret in H. injection H as <-.
    by destruct (0 <? tokens), (0 <? c).
Qed.

Lemma mirror_resource_found settings b t kind key fp source l now b' rows :
  sound digest b -> source_dimensions source = Ok l ->
  mirror_resource digest settings b t kind key fp l now = Ok (b', rows) ->
  existing_receipts b' t kind key fp l = Ok (rows, []).
Proof.
  intros Hs Hsrc H. unfold mirror_resource in H. apply guard_bind_ok in H as [_ H].
  apply bind_ok in H as ([found missing] & Hf & H).
  destruct found as [|f found], missing as [|m missing]; try discriminate H;
    try (unfold mret, result_ret in H; by injection H as <- <-).
  apply existing_receipts_missing in Hf as [_ Hc]. destruct (is_no_charge l) eqn:En.
  - apply bind_ok in H as ([b1 row] & H1 & H). unfold mret, result_ret in H. injection H as <- <-.
    rw (source_no_charge _ _ Hsrc En) in Hc |- *.
    pose proof (Hc no_charge_dimension ltac:(by left)) as Hn. unfold get_dual_accounting_receipt in Hn.
    unfold create_or_get_dual_accounting_receipt in H1. cbn [receipt_key no_charge_receipt dr_task_id
      dr_task_budget_kind dr_task_budget_reservation_key dr_mirror_dimension] in H1. simpl in Hn.
    unfold receipt_key in H1. simpl in H1. rw Hn in H1. crush_step_in H1; [|done]. injection H1 as <- <-.
    simpl. unfold get_dual_accounting_receipt. simpl. rw lookup_insert_eq. unfold receipt_matches. simpl.
    by rw !bool_decide_eq_true_2.
  - apply bind_ok in H as ([b1 w] & H1 & H).
    destruct (ensure_window_spec digest _ _ _ _ _ _ Hs H1) as (O1 & S1 & Hw & Hsh).
    eapply mirror_dimensions_found; [exact S1|exact Hw|exact Hsh|by eapply source_distinct| |exact H].
    intros d Hin. unfold get_dual_accounting_receipt. rw (os_receipts _ _ O1). by apply Hc.
Qed.

(** A backed receipt reconciles when its source does. *)
Lemma backed_status db row t generation :
  backed (qd_budgets db) row ->
  reconcile_bridge db t generation row = REC_OK \/
  reconcile_bridge db t generation row = SOURCE_RESERVATION_MISSING \/
  (reconcile_bridge db t generation row = PAYLOAD_MISMATCH /\ exists source,
     source_reservation (qd_agents db) t (dr_task_budget_kind row) (dr_task_budget_reservation_key row) generation =
       Some source /\ res_fingerprint source <> dr_source_payload_fingerprint row).
Proof.
  intros Hb. unfold reconcile_bridge. destruct (source_reservation _ _ _ _ _) as [source|]; [|by right; left].
  case_bool_decide as Hfp; simpl; [|right; right; eauto]. left. case_bool_decide as Hn; [done|].
  destruct Hb as [?|(r & Hr & E1 & E2 & E3 & E4 & E5 & E6 & E7)]; [done|]. rw Hr. unfold same_capability.
  rw E1 E2 E3 E4 E5 E6 E7. simpl. by rw !bool_decide_eq_true_2 // Z.eqb_refl.
Qed.

Lemma list_receipts_member b t row :
  row ∈ list_dual_accounting_receipts b t -> exists k, ub_receipts b !! k = Some row.
Proof.
  unfold list_dual_accounting_receipts. rw sort_by_perm. rw list_elem_of_In filter_In -list_elem_of_In.
  intros [Hin _]. apply list_elem_of_fmap in Hin as ([k r] & -> & Hin). apply elem_of_map_to_list in Hin. eauto.
Qed.

(** Only the comparison of a receipt can say that its reservation is missing. *)
Lemma reconcile_missing db t item :
  item ∈ reconcile_task db t -> ri_status item = MISSING_UBQ ->
  exists k row generation, ub_receipts (qd_budgets db) !! k = Some row /\
    reconcile_bridge db t generation row = MISSING_UBQ.
Proof.
  intros Hin E. unfold reconcile_task in Hin.
  assert (Hsingle : forall s, item ∈ [reconciliation_item s t None] -> s = MISSING_UBQ).
  { intros s Hs. apply list_elem_of_singleton in Hs. by subst item. }
  destruct (get_task_binding _ _); [|by apply Hsingle in Hin].
  set (rows := list_dual_accounting_receipts (qd_budgets db) t) in *.
  assert (Hmap : forall f, item ∈ map (fun r => reconciliation_item (f r) t (Some r)) rows ->
    exists row, row ∈ rows /\ f row = MISSING_UBQ).
  { intros f Hm. apply list_elem_of_fmap in Hm as (row & -> & Hr). eauto. }
  destruct (get_task _ _).
  - destruct (get_task_budget _ _) as [budget|]; [|by apply Hsingle in Hin].
    assert (Hcase : exists row, row ∈ rows /\ reconcile_bridge db t (row_generation budget) row = MISSING_UBQ).
    { destruct rows; [by apply Hsingle in Hin|by apply Hmap]. }
    destruct Hcase as (row & Hr & Hm). destruct (list_receipts_member _ _ _ Hr) as [k Hk]. eauto.
  - assert (Hcase : exists row, row ∈ rows /\ SOURCE_ABSENT_UNPROVEN = MISSING_UBQ).
    { destruct rows; [by apply Hsingle in Hin|by apply (Hmap (fun _ => SOURCE_ABSENT_UNPROVEN))]. }
    by destruct Hcase as (? & _ & ?).
Qed.

(** ** Traces *)

(** The state after a trace from empty budgets, and its budgets. *)
Definition reached (host : QuotaDB) (evs : list QuotaEvent) : QuotaState :=
  runs (quota_step digest) (initial_state host) evs.

Definition budgets_of (s : QuotaState) : UserBudgetDB := qd_budgets (qs_db s).

Lemma reached_sound host evs : Forall admissible evs -> state_sound digest (reached host evs).
Proof. intros Hadm. apply trace_sound; [done|done|apply initial_sound]. Qed.

Lemma reached_budgets host evs : Forall admissible evs -> sound digest (budgets_of (reached host evs)).
Proof. intros Hadm. by destruct (reached_sound host evs Hadm). Qed.

Lemma reached_app host evs evs' :
  Forall admissible evs -> Forall admissible evs' ->
  extends (budgets_of (reached host evs)) (budgets_of (reached host (evs ++ evs'))).
Proof.
  intros H1 H2. unfold reached. rw runs_app. apply trace_extends; [done|done|]. by apply reached_sound.
Qed.

(** The state after a reservation and a further trace. *)
Lemma reached_after host evs identity q now n evs' db1 a :
  Forall admissible evs -> Forall admissible evs' ->
  let s := reached host evs in
  reserve_tool_call_attempt digest identity q now (snapshot_of s n) (qs_db s) = Ok (db1, a) ->
  let s' := reached host (evs ++ EvReserveTool identity q now n :: evs') in
  state_sound digest s' /\ extends (qd_budgets db1) (budgets_of s').
Proof.
  intros H1 H2 s H s'.
  assert (Hadm : Forall admissible [EvReserveTool identity q now n]) by (constructor; [done|constructor]).
  assert (Hs' : s' = reached host ((evs ++ [EvReserveTool identity q now n]) ++ evs')) by by rw -app_assoc.
  rw Hs'. split; [apply reached_sound; by rw !Forall_app|].
  assert (E : qd_budgets db1 = budgets_of (reached host (evs ++ [EvReserveTool identity q now n]))).
  { unfold reached. rw runs_app. fold (reached host evs). fold s. unfold runs. simpl. unfold budgets_of. by rw H. }
  rw E. apply reached_app; [|done]. by rw Forall_app.
Qed.

(** What the end of a call does to the counters of its window. *)
Definition end_deltas (cap : string) (settle : bool) : list (Counter * Z) :=
  [(CField F_tool_calls_reserved, -1); (CToolReserved cap, -1);
   (CField F_tool_calls_used, if settle then 1 else 0); (CToolUsed cap, if settle then 1 else 0)].

Lemma end_tool_call_counters b a key r (settle : bool) now b' r' :
  sound digest b -> get_reservation b (ta_owner_user_id a) key = Some r -> rv_state r = S_RESERVED ->
  end_tool_call b a key r settle now = Ok (b', r') ->
  rv_state r' = (if settle then S_SETTLED else S_RELEASED) /\
  forall c delta, (c, delta) ∈ end_deltas (ta_capability_id a) settle ->
    counter_at b' (ta_owner_user_id a) (rv_window_epoch r) c =
    counter_at b (ta_owner_user_id a) (rv_window_epoch r) c + delta.
Proof.
  intros Hs Hr Hst H. destruct (end_tool_call_shape digest _ _ _ _ _ _ _ _ Hs Hr Hst H) as
    (w & w' & u & u' & Hw & Hu & _ & Eo & Ee & Hus & Eu & Er & Est & _ & _ & -> & _).
  split; [done|]. intros c delta Hc. unfold counter_at, get_window, get_tool_usage, charged. simpl. rw Eo Ee.
  unfold get_window in Hw. unfold get_tool_usage in Hu.
  unfold end_deltas in Hc. rw !elem_of_cons in Hc.
  destruct Hc as [[= -> ->]|[[= -> ->]|[[= -> ->]|[[= -> ->]|Hc]]]]; [..|by apply elem_of_nil in Hc];
    rw lookup_insert_eq ?Hw ?Hu; simpl; rw ?Hus ?Eu ?Er; destruct settle; simpl; lia.
Qed.

(** An open reservation, given the admission it was made for, can be ended. *)
Lemma open_call_ends db a key r (settle : bool) now snapshot :
  sound digest (qd_budgets db) -> get_reservation (qd_budgets db) (ta_owner_user_id a) key = Some r ->
  rv_state r = S_RESERVED ->
  verify_direct_reservation digest r (ta_owner_user_id a) (attributed_request a (rv_attribution_json r)) = Ok tt ->
  (forall c, counter_at (qd_budgets db) (ta_owner_user_id a) (rv_window_epoch r) c < USER_BUDGET_INT64_MAX) ->
  exists db', terminal_attempt digest a key settle now snapshot db =
      Ok (db', with_reservation_state a (if settle then S_SETTLED else S_RELEASED)) /\
    forall c delta, (c, delta) ∈ end_deltas (ta_capability_id a) settle ->
      counter_at (qd_budgets db') (ta_owner_user_id a) (rv_window_epoch r) c =
      counter_at (qd_budgets db) (ta_owner_user_id a) (rv_window_epoch r) c + delta.
Proof.
  intros Hs Hr Hst Hver Hmax. destruct (sd_reservations _ _ Hs _ _ Hr) as [Hok _].
  destruct (verify_direct_spec digest _ _ _ Hver Hok) as (_ & _ & Hkind & Hrc & Hamt).
  destruct (end_tool_call_succeeds _ a _ _ settle now Hs Hr Hst Hkind Hrc Hamt Hmax) as (b' & r2 & Hend).
  destruct (end_tool_call_counters _ _ _ _ _ _ _ _ Hs Hr Hst Hend) as [Est Hc].
  exists (set_budgets db b'). split; [|done]. unfold terminal_attempt. cbv zeta. rw Hr Hver Hst.
  destruct settle; simpl; rw Hend; simpl; by rw Est.
Qed.

(** C4 quota_counters_are_ledger: after any trace of transactions of the quota services, every
    counter of a window, and of a capability in it, is the sum of the amounts of the
    window's reservations: the settled ones for the used counters and the open ones for the
    reserved counters. *)
Theorem quota_counters_are_ledger host evs o e c :
  Forall admissible evs ->
  counter_at (budgets_of (reached host evs)) o e c = ledger_total (budgets_of (reached host evs)) o e c.
Proof.
  intros Hadm. pose proof (sd_ledger _ _ (reached_budgets host evs Hadm) o e c) as H. unfold gap in H. lia.
Qed.

(** C3 quota_limits_hold: no trace, whatever the interleaving of reservations, settlements,
    rollovers and mirrored charges, takes a window over the call limits of the policy that
    governs it: its tool calls in all, the calls of each capability, and its inferences,
    used and reserved together. *)
Theorem quota_limits_hold host evs o e w p :
  Forall admissible evs ->
  let b := budgets_of (reached host evs) in
  get_window b o e = Some w -> get_policy b o (wr_governing_policy_id w) = Some p ->
  (forall l, pr_max_tool_calls_total p = Some l ->
     tool_calls_used (wr_usage w) + tool_calls_reserved (wr_usage w) <= l) /\
  (forall cap l u, per_tool_limit p cap = Some l -> get_tool_usage b o e cap = Some u ->
     tu_used_calls u + tu_reserved_calls u <= l) /\
  (forall l, pr_max_inference_calls p = Some l ->
     inference_used (wr_usage w) + inference_reserved (wr_usage w) <= l).
Proof.
  intros Hadm b Hw Hp. destruct (sd_limits _ _ (reached_budgets host evs Hadm) _ _ _ _ Hw Hp) as (L1 & L2 & L3).
  split; [done|]. split; [|done]. intros cap l u Hl Hu. specialize (L2 cap l Hl). unfold counter_at in L2.
  fold b in L2. by rw Hu in L2.
Qed.

(** [quota_history_kept]: later transactions never rewrite history: policies, task bindings
    and receipts stay as they are, a reservation that is settled or released stays so with its
    amount, an open one keeps its identity, window and amount, and a window keeps its policy
    and its times and is never reopened. *)
Theorem quota_history_kept host evs evs' :
  Forall admissible evs -> Forall admissible evs' ->
  let b := budgets_of (reached host evs) in
  let b' := budgets_of (reached host (evs ++ evs')) in
  (forall i p, ub_policies b !! i = Some p -> ub_policies b' !! i = Some p) /\
  (forall t x, ub_bindings b !! t = Some x -> ub_bindings b' !! t = Some x) /\
  (forall k x, ub_receipts b !! k = Some x -> ub_receipts b' !! k = Some x) /\
  (forall k r, ub_reservations b !! k = Some r ->
     exists r', ub_reservations b' !! k = Some r' /\ same_reservation r r') /\
  (forall k w, ub_windows b !! k = Some w -> exists w', ub_windows b' !! k = Some w' /\ same_window w w').
Proof.
  intros H1 H2 b b'. destruct (reached_app host evs evs' H1 H2) as [Hp Hw _ Hr Hb Hc]. fold b b' in Hp, Hw, Hr, Hb, Hc.
  split; [|split; [|split; [|by split]]].
  - intros i p Hi. destruct (Hp _ _ Hi) as (? & ? & <-). done.
  - intros t x Ht. destruct (Hb _ _ Ht) as (? & ? & <-). done.
  - intros k x Hk. destruct (Hc _ _ Hk) as (? & ? & <-). done.
Qed.

(** C26 call_charged_once: once a tool call is reserved, no later attempt for the same
    invocation and owner charges it again, whatever it asks for, whatever else happened in
    between and whichever state its first reads saw: it leaves the database as it is, and
    answers with the same reservation in the same window (or with a historical charge of the
    task budget). *)
Theorem call_charged_once host evs evs' identity q now n db1 a identity' q' now' m db' a' :
  Forall admissible evs -> Forall admissible evs' ->
  let s := reached host evs in
  let s' := reached host (evs ++ EvReserveTool identity q now n :: evs') in
  reserve_tool_call_attempt digest identity q now (snapshot_of s n) (qs_db s) = Ok (db1, a) ->
  ta_historical_bridge a = false ->
  reserve_tool_call_attempt digest identity' q' now' (snapshot_of s' m) (qs_db s') = Ok (db', a') ->
  tr_invocation_id q' = tr_invocation_id q -> ta_owner_user_id a' = ta_owner_user_id a ->
  db' = qs_db s' /\ (ta_historical_bridge a' = true \/
    (ta_reservation_id a' = ta_reservation_id a /\ ta_window_epoch a' = ta_window_epoch a)).
Proof.
  intros H1 H2 s s' Ha Hh Hb Hq Ho.
  pose proof (reached_sound host evs H1) as Hst. pose proof Hst as (Hs & _).
  destruct (attempt_reserves _ _ _ _ _ _ _ Hs (snapshot_extends digest _ _ Hst) Ha Hh) as (r & Hr & -> & -> & _).
  destruct (reached_after _ _ _ _ _ _ _ _ _ H1 H2 Ha) as [Hst' Hx]. fold s' in Hst', Hx.
  destruct (ex_reservations _ _ Hx _ _ Hr) as (r' & Hr' & (Ei & _ & Ee & _)). rw -Ei -Ee.
  eapply replayed_attempt; [by eapply snapshot_extends|done|]. unfold the_tool_key. by rw Ho Hq.
Qed.

(** C27 admitted_call_can_end: a call that was admitted can always be ended: as long as its
    reservation is open and the counters of its window are below the largest BIGINT, both
    settlement and release succeed, in the window the call was made in, active or closed;
    they take one call off the reserved counters of the window and of the capability, and a
    settlement adds it to the used ones. *)
Theorem admitted_call_can_end host evs evs' identity q now n db1 a r (settle : bool) now' :
  Forall admissible evs -> Forall admissible evs' ->
  let s := reached host evs in
  let s' := reached host (evs ++ EvReserveTool identity q now n :: evs') in
  let o := ta_owner_user_id a in
  reserve_tool_call_attempt digest identity q now (snapshot_of s n) (qs_db s) = Ok (db1, a) ->
  ta_historical_bridge a = false -> get_reservation (budgets_of s) o (the_tool_key digest q) = None ->
  get_reservation (budgets_of s') o (the_tool_key digest q) = Some r -> rv_state r = S_RESERVED ->
  (forall c, counter_at (budgets_of s') o (rv_window_epoch r) c < USER_BUDGET_INT64_MAX) ->
  exists db', terminal_attempt digest a (the_tool_key digest q) settle now' (qs_db s') (qs_db s') =
      Ok (db', with_reservation_state a (if settle then S_SETTLED else S_RELEASED)) /\
    Some (rv_window_epoch r) = ta_window_epoch a /\
    forall c delta, (c, delta) ∈ end_deltas (tr_capability_id q) settle ->
      counter_at (qd_budgets db') o (rv_window_epoch r) c = counter_at (budgets_of s') o (rv_window_epoch r) c + delta.
Proof.
  intros H1 H2 s s' o Ha Hh Hn Hr Hst Hmax.
  pose proof (reached_sound host evs H1) as Hss. pose proof Hss as (Hs & _).
  destruct (attempt_reserves _ _ _ _ _ _ _ Hs (snapshot_extends digest _ _ Hss) Ha Hh) as (r0 & Hr0 & _ & Ew & Hnew).
  destruct (Hnew Hn) as (epoch & Hv & Er0 & Ea). fold o in Hr0, Hv, Er0, Ea.
  destruct (reached_after _ _ _ _ _ _ _ _ _ H1 H2 Ha) as [[Hs' _] Hx]. fold s' in Hs', Hx.
  destruct (ex_reservations _ _ Hx _ _ Hr0) as (r' & Hr' & Hsame).
  assert (r' = r) as -> by (unfold get_reservation in Hr; congruence).
  pose proof (verify_new _ _ _ Hv) as Hver. rw -Er0 in Hver. apply (verify_stable _ _ _ _ Hsame) in Hver.
  pose proof Hsame as (_ & _ & Ee & _ & _ & _ & _ & Eattr & _).
  assert (Hcap : ta_capability_id a = tr_capability_id q) by by rw Ea.
  assert (Hver' : verify_direct_reservation digest r o (attributed_request a (rv_attribution_json r)) = Ok tt).
  { eapply verify_intent; [|exact Hver]. rw Eattr Ee Er0. symmetry. apply attributed_intent; by rw Ea. }
  destruct (open_call_ends _ a _ _ settle now' (qs_db s') Hs' Hr Hst Hver' Hmax) as (db' & Hend & Hc).
  exists db'. split; [done|]. split; [by rw Ew Ee|]. by rw -Hcap.
Qed.

(** [mirrored_charge_replayed]: a charge of a task budget is mirrored once.  When mirroring it
    succeeded, every later replay of the same charge, at any time and under any settings,
    changes nothing and answers the same receipts. *)
Theorem mirrored_charge_replayed host evs evs' settings t kind key fp source l now b1 rows settings' now' :
  Forall admissible evs -> Forall admissible evs' ->
  source_dimensions source = Ok l ->
  mirror_resource digest settings (budgets_of (reached host evs)) t kind key fp l now = Ok (b1, rows) ->
  let b' := budgets_of (reached host (evs ++ EvMirror settings t kind key fp source now :: evs')) in
  mirror_resource digest settings' b' t kind key fp l now' = Ok (b', rows).
Proof.
  intros H1 H2 Hl H b'. pose proof (mirror_resource_found _ _ _ _ _ _ _ _ _ _ _ (reached_budgets host evs H1) Hl H) as Hf.
  set (ev := EvMirror settings t kind key fp source now) in *.
  assert (Hadm : Forall admissible (evs ++ [ev])) by (rw Forall_app; split; [done|by repeat constructor]).
  assert (E : b1 = budgets_of (reached host (evs ++ [ev]))).
  { unfold reached. rw runs_app. fold (reached host evs). unfold runs, budgets_of. simpl. rw Hl.
    unfold budgets_of in H. simpl. by rw H. }
  assert (Hb : b' = budgets_of (reached host ((evs ++ [ev]) ++ evs'))) by by rw -app_assoc.
  pose proof (reached_app host _ _ Hadm H2) as Hx. rw -E -Hb in Hx.
  apply (existing_extends _ _ _ _ _ _ _ _ Hx) in Hf. unfold mirror_resource in *. apply guard_bind_ok in H as [Hne _].
  rw Hne. simpl. rw Hf. by destruct rows.
Qed.

(** C28 receipts_reconcile: the two ledgers never drift apart on the side of the user budget:
    in every state that is reached, the reconciliation of a task never finds that the mirrored
    reservation of a receipt is missing, and a receipt whose source reservation is still there
    with the fingerprint it was charged with reconciles. *)
Theorem receipts_reconcile host evs :
  Forall admissible evs ->
  let db := qs_db (reached host evs) in
  (forall t item, item ∈ reconcile_task db t -> ri_status item <> MISSING_UBQ) /\
  (forall k row t generation source, ub_receipts (qd_budgets db) !! k = Some row ->
     source_reservation (qd_agents db) t (dr_task_budget_kind row) (dr_task_budget_reservation_key row) generation =
       Some source ->
     res_fingerprint source = dr_source_payload_fingerprint row -> reconcile_bridge db t generation row = REC_OK).
Proof.
  intros Hadm db. pose proof (reached_budgets host evs Hadm) as Hs. change (sound digest (qd_budgets db)) in Hs.
  assert (Hstatus : forall k row t generation, ub_receipts (qd_budgets db) !! k = Some row ->
    reconcile_bridge db t generation row = REC_OK \/
    reconcile_bridge db t generation row = SOURCE_RESERVATION_MISSING \/
    (reconcile_bridge db t generation row = PAYLOAD_MISMATCH /\ exists source,
       source_reservation (qd_agents db) t (dr_task_budget_kind row) (dr_task_budget_reservation_key row) generation =
         Some source /\ res_fingerprint source <> dr_source_payload_fingerprint row)).
  { intros k row t g Hk. by eapply backed_status, (sd_receipts _ _ Hs). }
  split.
  - intros t item Hin E. destruct (reconcile_missing _ _ _ Hin E) as (k & row & g & Hk & Hm).
    destruct (Hstatus k row t g Hk) as [?|[?|[? _]]]; congruence.
  - intros k row t g source Hk Hsrc Hfp. destruct (Hstatus k row t g Hk) as [?|[Hm|(_ & s & Hs' & Hne)]]; [done| |congruence].
    unfold reconcile_bridge in Hm. rw Hsrc in Hm. repeat case_match; done.
Qed.
End Properties.

(** ** Witnesses *)

(** The identity has no collisions. *)
Definition same_text (s : string) : string := s.

Lemma same_text_inj a b : same_text a = same_text b -> a = b.
Proof. done. Qed.

Definition quota_agents : AgentDB := {|
  db_tasks := ∅; db_budgets := ∅; db_reservations := ∅; db_executions := ∅; db_branches := ∅;
  db_allocator := None; db_bindings := ∅ |}.

Definition quota_host : QuotaDB := {|
  qd_budgets := empty_budget_db; qd_agents := quota_agents; qd_tool_calls := ∅; qd_iterations := ∅;
  qd_users := {["u"; "m"]}; qd_api_keys := ∅; qd_applications := ∅; qd_organizations := ∅ |}.

Definition quota_identity : Identity := {|
  id_auth_type := "jwt"; id_user_id := Some "u"; id_api_key_id := None; id_application_id := None;
  id_organization_id := None |}.

(** Two tool calls in all, one per capability, one inference. *)
Definition quota_policy : UserBudgetPolicy := {|
  up_policy_id := "p1"; up_owner_user_id := "u"; up_policy_version := "v1"; up_window_duration_seconds := 3600;
  up_max_compute_units := None; up_max_inference_calls := Some 1; up_max_input_tokens := None;
  up_max_output_tokens := None; up_max_total_tokens := None; up_max_tool_calls_total := Some 2;
  up_default_per_tool_limit := Some 1; up_tool_limits := ∅; up_max_cost_usd := None |}.

Definition quota_call : ToolCallRequest := {|
  tr_invocation_id := "i1"; tr_capability_id := "search"; tr_request_fingerprint := "f1"; tr_arguments := JObj [];
  tr_execution_id := None; tr_tool_call_id := None; tr_task_id := None; tr_workflow_id := None;
  tr_session_id := Some "s" |}.

Definition quota_context : InferenceQuotaContext := {|
  ic_budget_identity := quota_identity; ic_logical_request_id := "q1"; ic_logical_request_fingerprint := None;
  ic_source_surface := "CHAT"; ic_owner_user_id := None; ic_session_id := Some "s"; ic_task_id := None;
  ic_execution_id := None; ic_workflow_id := None; ic_iteration := None; ic_agent_iteration_id := None;
  ic_outer_request_id := None; ic_capability_invocation_id := None; ic_estimator_policy_identity := "e";
  ic_usage_normalization_identity := "n" |}.

Definition quota_estimate : InferenceQuotaEstimate := {|
  es_input_tokens := 10; es_output_tokens := 20; es_total_tokens := 30; es_compute_units := None;
  es_cost_usd := None |}.

Definition quota_usage : NormalizedInferenceUsage := {|
  nu_input_tokens := Some 8; nu_output_tokens := Some 5; nu_total_tokens := Some 13; nu_compute_units := None;
  nu_cost_usd := None; nu_normalization_identity := "n"; nu_provider := None; nu_model := None |}.

Definition quota_setup : list QuotaEvent := [EvPolicy quota_policy; EvAccount "u"; EvSelect "u" 0 "p1"].

(** A call and an inference reserved, the inference settled, and another refused. *)
Definition quota_trace : list QuotaEvent := quota_setup ++ [
  EvReserveTool quota_identity quota_call 100 0; EvReserveInference quota_context "fp" quota_estimate 101 0;
  EvSettleInference 0 quota_usage 102; EvReserveTool quota_identity quota_call 103 0].

Lemma quota_trace_admissible : Forall admissible quota_trace.
Proof. unfold quota_trace, quota_setup. by repeat constructor. Qed.

#[local] Abbreviation quota_budgets := (budgets_of (reached same_text quota_host quota_trace)).

Lemma quota_counters_are_ledger_witness :
  Forall admissible quota_trace /\ counter_at quota_budgets "u" 1 (CField F_total_tokens_used) = 13 /\
  counter_at quota_budgets "u" 1 (CField F_total_tokens_used) =
    ledger_total quota_budgets "u" 1 (CField F_total_tokens_used).
Proof.
  split; [exact quota_trace_admissible|]. split; [vm_compute; reflexivity|].
  exact (quota_counters_are_ledger same_text same_text_inj quota_host quota_trace "u" 1 _ quota_trace_admissible).
Defined.

(** Reading a computed result. *)
Definition result_holds {A : Type} (P : A -> bool) (r : result UBError A) : bool :=
  match r with Ok x => P x | Err _ => false end.

Lemma result_holds_ok {A : Type} (P : A -> bool) r : result_holds P r = true -> exists x, r = Ok x /\ P x = true.
Proof. destruct r; [eauto|done]. Qed.

Lemma quota_limits_hold_witness :
  exists w p, get_window quota_budgets "u" 1 = Some w /\
    get_policy quota_budgets "u" (wr_governing_policy_id w) = Some p /\ pr_max_tool_calls_total p = Some 2 /\
    tool_calls_used (wr_usage w) + tool_calls_reserved (wr_usage w) <= 2.
Proof.
  assert (F1 : wr_governing_policy_id <$> get_window quota_budgets "u" 1 = Some "p1") by (vm_compute; reflexivity).
  assert (F2 : pr_max_tool_calls_total <$> get_policy quota_budgets "u" "p1" = Some (Some 2))
    by (vm_compute; reflexivity).
  apply fmap_Some in F1 as (w & Hw & Hid). apply fmap_Some in F2 as (p & Hp & Hl). rw Hid in Hp.
  exists w, p. do 3 (split; [done|]).
  exact (proj1 (quota_limits_hold same_text same_text_inj quota_host quota_trace "u" 1 w p quota_trace_admissible Hw Hp)
           2 (eq_sym Hl)).
Defined.

Lemma quota_setup_admissible : Forall admissible quota_setup.
Proof. unfold quota_setup. by repeat constructor. Qed.

Lemma quota_rest_admissible : Forall admissible (drop 3 quota_trace).
Proof. unfold quota_trace, quota_setup. by repeat constructor. Qed.

Lemma quota_history_kept_witness :
  exists p, ub_policies (budgets_of (reached same_text quota_host quota_setup)) !! "p1" = Some p /\
    ub_policies (budgets_of (reached same_text quota_host (quota_setup ++ drop 3 quota_trace))) !! "p1" = Some p.
Proof.
  assert (F : pr_max_tool_calls_total <$> ub_policies (budgets_of (reached same_text quota_host quota_setup)) !! "p1" =
    Some (Some 2)) by (vm_compute; reflexivity).
  apply fmap_Some in F as (p & Hp & _). exists p. split; [done|].
  exact (proj1 (quota_history_kept same_text same_text_inj quota_host quota_setup (drop 3 quota_trace)
    quota_setup_admissible quota_rest_admissible) _ _ Hp).
Defined.

#[local] Abbreviation quota_before := (reached same_text quota_host quota_setup).
#[local] Abbreviation quota_after :=
  (reached same_text quota_host (quota_setup ++ EvReserveTool quota_identity quota_call 100 0 :: [])).
#[local] Abbreviation quota_first := (reserve_tool_call_attempt same_text quota_identity quota_call 100
  (snapshot_of quota_before 0) (qs_db quota_before)).

(** A second attempt, which read before the first one committed. *)
#[local] Abbreviation quota_second := (reserve_tool_call_attempt same_text quota_identity quota_call 105
  (snapshot_of quota_after 0) (qs_db quota_after)).

Definition is_direct_of_u (x : QuotaDB * ToolQuotaAdmission) : bool :=
  negb (ta_historical_bridge x.2) && bool_decide (ta_owner_user_id x.2 = "u") &&
  bool_decide (ta_window_epoch x.2 = Some 1).

Lemma is_direct_of_u_spec x :
  is_direct_of_u x = true ->
  ta_historical_bridge x.2 = false /\ ta_owner_user_id x.2 = "u" /\ ta_window_epoch x.2 = Some 1.
Proof. unfold is_direct_of_u. intros H. by breflect. Qed.

Lemma call_charged_once_witness :
  exists db1 a db' a', quota_first = Ok (db1, a) /\ quota_second = Ok (db', a') /\ db' = qs_db quota_after /\
    (ta_historical_bridge a' = true \/
     (ta_reservation_id a' = ta_reservation_id a /\ ta_window_epoch a' = ta_window_epoch a)).
Proof.
  assert (F1 : result_holds is_direct_of_u quota_first = true) by (vm_compute; reflexivity).
  assert (F2 : result_holds is_direct_of_u quota_second = true) by (vm_compute; reflexivity).
  apply result_holds_ok in F1 as ([db1 a] & H1 & C1). apply result_holds_ok in F2 as ([db' a'] & H2 & C2).
  apply is_direct_of_u_spec in C1 as (Hh & Ho & _). apply is_direct_of_u_spec in C2 as (_ & Ho' & _). cbn [snd] in Hh, Ho, Ho'.
  exists db1, a, db', a'. split; [done|]. split; [done|].
  exact (call_charged_once same_text same_text_inj quota_host quota_setup [] quota_identity quota_call 100 0 db1 a
    quota_identity quota_call 105 0 db' a' quota_setup_admissible (Forall_nil_2 _) H1 Hh H2 eq_refl
    (eq_trans Ho' (eq_sym Ho))).
Defined.

Lemma quota_after_small c : counter_at (budgets_of quota_after) "u" 1 c < USER_BUDGET_INT64_MAX.
Proof.
  assert (E : ub_tool_usage (budgets_of quota_after) =
    {[ ("u", 1, "search") := {| tu_used_calls := 0; tu_reserved_calls := 1; tu_revision := 1 |} ]})
    by (vm_compute; reflexivity).
  unfold counter_at, get_tool_usage. destruct c as [f|cap|cap]; [destruct f; vm_compute; reflexivity|..]; rw E;
    (destruct (decide (("u", 1, "search") = ("u", 1, cap))) as [<-|Hne];
      [rw lookup_singleton_eq|rw lookup_singleton_ne //]); vm_compute; reflexivity.
Qed.

Definition reserved_in (epoch : Z) (r : UserBudgetReservationRecord) : bool :=
  bool_decide (rv_state r = S_RESERVED) && (rv_window_epoch r =? epoch).

Lemma admitted_call_can_end_witness :
  exists db1 a db', quota_first = Ok (db1, a) /\
    terminal_attempt same_text a (the_tool_key same_text quota_call) true 200 (qs_db quota_after) (qs_db quota_after) =
      Ok (db', with_reservation_state a S_SETTLED).
Proof.
  assert (F1 : result_holds is_direct_of_u quota_first = true) by (vm_compute; reflexivity).
  assert (F2 : get_reservation (budgets_of quota_before) "u" (the_tool_key same_text quota_call) = None)
    by (vm_compute; reflexivity).
  assert (F3 : reserved_in 1 <$> get_reservation (budgets_of quota_after) "u" (the_tool_key same_text quota_call) = Some true)
    by (vm_compute; reflexivity).
  apply result_holds_ok in F1 as ([db1 a] & H1 & C1). apply is_direct_of_u_spec in C1 as (Hh & Ho & _).
  cbn [snd] in Hh, Ho. apply fmap_Some in F3 as (r & Hr & Er). unfold reserved_in in Er. symmetry in Er. breflect.
  rw -Ho in F2, Hr.
  destruct (admitted_call_can_end same_text same_text_inj quota_host quota_setup [] quota_identity quota_call 100 0
    db1 a r true 200 quota_setup_admissible (Forall_nil_2 _) H1 Hh F2 Hr) as (db' & Hend & _).
  - done.
  - intros c. match goal with E : rv_window_epoch r = 1 |- _ => rw E Ho end. apply quota_after_small.
  - exists db1, a, db'. exact (conj H1 Hend).
Defined.

(** A charge of an enrolled task. *)
Definition shadow_settings : DualAccountingSettings :=
  {| da_enabled := true; da_policy_version := "ubq2-shadow-v1"; da_window_duration_seconds := 3600 |}.

Definition member_identity : Identity := {|
  id_auth_type := "jwt"; id_user_id := Some "m"; id_api_key_id := None; id_application_id := None;
  id_organization_id := None |}.

Definition mirror_setup : list QuotaEvent := [EvEnroll shadow_settings "t" None member_identity].

Definition mirror_binding : TaskBindingSnapshot := {|
  ts_task_id := "t"; ts_owner_user_id := "m"; ts_enrollment_version := UBQ2_ENROLLMENT_VERSION;
  ts_resolution_fingerprint := "r" |}.

Lemma mirror_setup_admissible : Forall admissible mirror_setup.
Proof. unfold mirror_setup. by repeat constructor. Qed.

#[local] Abbreviation mirror_budgets := (budgets_of (reached same_text quota_host mirror_setup)).

Lemma mirrored_charge_replayed_witness :
  exists b1 rows, length rows = 1%nat /\
    mirror_resource same_text shadow_settings mirror_budgets mirror_binding "INFERENCE" "k" "fp" inference_dimensions 100 =
      Ok (b1, rows) /\
    let b' := budgets_of (reached same_text quota_host
      (mirror_setup ++ EvMirror shadow_settings mirror_binding "INFERENCE" "k" "fp" MInference 100 :: quota_setup)) in
    mirror_resource same_text shadow_settings b' mirror_binding "INFERENCE" "k" "fp" inference_dimensions 9000 = Ok (b', rows).
Proof.
  assert (F : result_holds (fun x => bool_decide (length x.2 = 1%nat))
    (mirror_resource same_text shadow_settings mirror_budgets mirror_binding "INFERENCE" "k" "fp" inference_dimensions 100)
    = true) by (vm_compute; reflexivity).
  apply result_holds_ok in F as ([b1 rows] & H1 & C1). apply bool_decide_eq_true in C1. cbn [snd] in C1.
  exists b1, rows. split; [exact C1|]. split; [exact H1|].
  exact (mirrored_charge_replayed same_text same_text_inj quota_host mirror_setup quota_setup shadow_settings
    mirror_binding "INFERENCE" "k" "fp" MInference inference_dimensions 100 b1 rows shadow_settings 9000
    mirror_setup_admissible quota_setup_admissible eq_refl H1).
Defined.

Definition mirror_trace : list QuotaEvent :=
  mirror_setup ++ [EvMirror shadow_settings mirror_binding "INFERENCE" "k" "fp" MInference 100].

Lemma mirror_trace_admissible : Forall admissible mirror_trace.
Proof. unfold mirror_trace, mirror_setup. by repeat constructor. Qed.

Lemma receipts_reconcile_witness :
  length (list_dual_accounting_receipts (budgets_of (reached same_text quota_host mirror_trace)) "t") = 1%nat /\
  forall item, item ∈ reconcile_task (qs_db (reached same_text quota_host mirror_trace)) "t" ->
    ri_status item <> MISSING_UBQ.
Proof.
  split; [vm_compute; reflexivity|].
  exact (proj1 (receipts_reconcile same_text same_text_inj quota_host mirror_trace mirror_trace_admissible) "t").
Defined.

(** ** Limits of the services *)

(** The body of a request, and its context under the settings. *)
Definition inference_settings (retries : Z) : InferenceQuotaSettings := {|
  iq_enabled := true; iq_max_conflict_retries := retries; iq_estimator_policy_version := "v1";
  iq_usage_normalization_version := "v1"; iq_default_output_token_reservation := Some 16 |}.

Definition request_context : InferenceQuotaContext := {|
  ic_budget_identity := quota_identity; ic_logical_request_id := "q1"; ic_logical_request_fingerprint := None;
  ic_source_surface := "CHAT"; ic_owner_user_id := None; ic_session_id := Some "s"; ic_task_id := None;
  ic_execution_id := None; ic_workflow_id := None; ic_iteration := None; ic_agent_iteration_id := None;
  ic_outer_request_id := None; ic_capability_invocation_id := None;
  ic_estimator_policy_identity := estimator_identity same_text (inference_settings 1);
  ic_usage_normalization_identity := normalization_identity same_text (inference_settings 1) |}.

(** Nothing happens around the attempts, or another request with the same id commits while
    the first attempt waits for the lock. *)
Definition calm (_ : nat) : Weather :=
  {| wt_before := fun db => db; wt_waiting := fun db => db; wt_fault := None |}.

Definition inference_rival (number : nat) : Weather := {|
  wt_before := fun db => db;
  wt_waiting := fun db => if (number =? 0)%nat
    then fst (reserve same_text (inference_settings 1) (Some request_context) [] false 100 calm db) else db;
  wt_fault := None |}.

Definition outcome_of {A : Type} (x : QuotaDB * result UBError A) : option UBError :=
  match snd x with Ok _ => None | Err e => Some e end.

(** [reserve_assertion_reached]: the assertion at the end of [reserve], marked unreachable, is
    reached: with one attempt allowed, a rival that commits the same request while the attempt
    waits for the lock makes it roll back and leave the loop.  With a second attempt the
    request is replayed. *)
Theorem reserve_assertion_reached :
  let run retries := reserve same_text (inference_settings retries) (Some request_context) [] false 100 inference_rival
    (qs_db (reached same_text quota_host quota_setup)) in
  outcome_of (run 1) = Some UBAssertionError /\ outcome_of (run 2) = None.
Proof. split; vm_compute; reflexivity. Qed.

(** Provisioning an owner of empty budgets, twice. *)
Definition provision_twice (version : string) : result UBError unit * result UBError unit :=
  let settings := {| da_enabled := true; da_policy_version := version; da_window_duration_seconds := 3600 |} in
  let first := ensure_shadow_account same_text settings empty_budget_db "m" in
  (_ ← first; mret tt, r ← first; _ ← ensure_shadow_account same_text settings (fst r) "m"; mret tt).

(** [unprefixed_version_locks_out]: a shadow policy whose configured version lacks the prefix
    ubq2-shadow- is created and selected, and then not recognised: provisioning the same
    owner a second time is refused. *)
Theorem unprefixed_version_locks_out :
  provision_twice "ubq2-shadow-v1" = (Ok tt, Ok tt) /\
  provision_twice "v1" = (Ok tt, Err (UserBudgetPolicyAuthorityConflict
    "mirror-only accounting cannot overwrite finite/external policy authority")).
Proof. split; vm_compute; reflexivity. Qed.
