(* ===== verification/StaleLeaseScanner.v ===== *)
(** * The stale lease scanner
    (src/se/src/runtimes/agent/stale_lease_scanner.py)

    The coordinator walks the expired leases in pages, in the order of (expiry, id), and
    keeps a cursor between its sweeps.  A sweep is bounded in pages, rows and time; the
    lock lets one sweep run at a time, so [scan_once] is one function of what each turn of
    its loop meets: the readings of the clock, and the database the page is read from,
    which other transactions may have changed since the page before.

    The theorems are about passes, the sweeps from one wrap of the cursor to the next. *)

From S2P Require Import Prelude Canonical TaskBudgetSchema AgentStore ExecutionLease.

(** ** Argument checks *)

Inductive ScanError :=
  | ScanValueError (what : string)
  | ScanTypeError (what : string)
  | ScanStoreError (e : LeaseError)      (** the arguments of the query were refused *)
  | ScanRaised (what : string).          (** the database raised *)

Definition scan_error_name (e : ScanError) : string :=
  match e with
  | ScanTypeError _ => "TypeError"
  | ScanRaised _ => "Exception"
  | _ => "ValueError"
  end.

Definition scan_error_text (e : ScanError) : string :=
  match e with
  | ScanValueError s | ScanTypeError s | ScanRaised s => s
  | ScanStoreError (LeaseValueError s) => s
  | ScanStoreError (LeaseStoreFailure _) => ""
  end.

Definition MAX_STALE_LEASE_SCAN_PAGE_SIZE : Z := 100.

Definition positive_int (value : Z) (field : string) (maximum : option Z)
    : result ScanError Z :=
  _ ← guard_err (0 <? value)
        (ScanValueError (String.append field " must be a positive integer"));
  _ ← guard_err match maximum with Some m => value <=? m | None => true end
        (ScanValueError (String.append field (String.append " must be <= "
           (pretty (default 0 maximum)))));
  mret value.

(** A duration: microseconds, or a float that is not finite. *)
Inductive Duration :=
  | Micros (us : Z)
  | NotFinite.

Definition positive_finite (value : Duration) (field : string) : result ScanError Z :=
  match value with
  | Micros us =>
      if 0 <? us then Ok us
      else Err (ScanValueError (String.append field " must be a positive finite number"))
  | NotFinite =>
      Err (ScanValueError (String.append field " must be a positive finite number"))
  end.

(** What a clock or a column may hold where a UTC datetime is expected. *)
Inductive ScanInstant :=
  | NotADatetime
  | Naive
  | OffsetNotZero
  | UtcAt (t : Z).

Definition aware_utc (value : ScanInstant) (field : string) : result ScanError Z :=
  match value with
  | NotADatetime => Err (ScanTypeError (String.append field " must be a datetime"))
  | Naive => Err (ScanValueError (String.append field " must be timezone-aware UTC"))
  | OffsetNotZero => Err (ScanValueError (String.append field " must have UTC offset zero"))
  | UtcAt t => Ok t
  end.

Record StaleLeaseScanPolicy := {
  page_size : Z;
  max_pages : Z;
  max_rows : Z;
  max_duration_seconds : Z   (** in microseconds *)
}.

(** [__post_init__]. *)
Definition make_scan_policy (page pages rows : Z) (duration : Duration)
    : result ScanError StaleLeaseScanPolicy :=
  page ← positive_int page "page_size" (Some MAX_STALE_LEASE_SCAN_PAGE_SIZE);
  pages ← positive_int pages "max_pages" None;
  rows ← positive_int rows "max_rows" None;
  duration ← positive_finite duration "max_duration_seconds";
  mret {| page_size := page; max_pages := pages; max_rows := rows;
          max_duration_seconds := duration |}.

(** ** Observations *)

Record StaleLeaseObservation := {
  ob_execution_id : string;
  ob_owner_instance_id : string;
  ob_lease_generation : Z;
  ob_lease_expires_at : Z;
  ob_state : string;
  ob_revision : Z
}.

(** The column of a row: SQL NULL is not a datetime, what is stored is UTC. *)
Definition stored_instant (t : option Z) : ScanInstant :=
  match t with Some t => UtcAt t | None => NotADatetime end.

Definition from_record (ie : string * ExecutionRow) : result ScanError StaleLeaseObservation :=
  let (execution_id, e) := ie in
  _ ← guard_err (truthy execution_id)
        (ScanValueError "expired lease observation must have an execution id");
  owner ← match e_owner_instance_id e with
          | Some owner =>
              if truthy owner then mret owner
              else Err (ScanValueError "expired lease observation must have an owner")
          | None => Err (ScanValueError "expired lease observation must have an owner")
          end;
  _ ← guard_err (0 <? e_lease_generation e)
        (ScanValueError "expired lease observation must have positive lease generation");
  expiry ← aware_utc (stored_instant (e_lease_expires_at e)) "lease_expires_at";
  mret {| ob_execution_id := execution_id; ob_owner_instance_id := owner;
          ob_lease_generation := e_lease_generation e; ob_lease_expires_at := expiry;
          ob_state := e_state e; ob_revision := e_revision e |}.

(** ** One sweep *)

Inductive StaleLeaseSweepStopReason :=
  | EXHAUSTED
  | MAX_PAGES
  | MAX_ROWS
  | MAX_DURATION.

#[global] Instance stop_reason_eq_dec : EqDecision StaleLeaseSweepStopReason.
Proof. solve_decision. Defined.

Record StaleLeaseSweepResult := {
  scan_cutoff_utc : Z;
  started_monotonic : Z;
  finished_monotonic : Z;
  sr_pages_fetched : Z;
  observations : list StaleLeaseObservation;
  stop_reason : StaleLeaseSweepStopReason;
  observation_errors : list string
}.

Definition rows_observed (r : StaleLeaseSweepResult) : Z := Z.of_nat (length (observations r)).

Definition elapsed_seconds (r : StaleLeaseSweepResult) : Z :=
  Z.max 0 (finished_monotonic r - started_monotonic r).

(** The local variables of [_scan_locked]. *)
Record Sweep := {
  sw_observations : list StaleLeaseObservation;
  sw_errors : list string;
  sw_pages : Z;
  sw_rows : Z;
  sw_after_expiry : option Z;
  sw_after_id : option string;
  sw_last_expiry : option Z;
  sw_last_id : option string
}.

(** The body of [for record in raw_page]. *)
Definition scan_row (sw : Sweep) (ie : string * ExecutionRow) : result ScanError Sweep :=
  let execution_id := fst ie in
  raw_expiry ← aware_utc (stored_instant (e_lease_expires_at (snd ie))) "lease_expires_at";
  _ ← guard_err (truthy execution_id)
        (ScanValueError "expired lease scan row must have an execution id");
  let (obs, errs) :=
    match from_record ie with
    | Ok o => (sw_observations sw ++ [o], sw_errors sw)
    | Err exc => (sw_observations sw, sw_errors sw ++
        [String.append execution_id (String.append ":" (String.append (scan_error_name exc)
          (String.append ":" (scan_error_text exc))))])
    end in
  mret {| sw_observations := obs; sw_errors := errs;
          sw_pages := sw_pages sw; sw_rows := sw_rows sw;
          sw_after_expiry := Some raw_expiry; sw_after_id := Some execution_id;
          sw_last_expiry := Some raw_expiry; sw_last_id := Some execution_id |}.

Fixpoint scan_rows (sw : Sweep) (page : list (string * ExecutionRow)) : result ScanError Sweep :=
  match page with
  | [] => Ok sw
  | ie :: page' => sw' ← scan_row sw ie; scan_rows sw' page'
  end.

(** What awaiting one page meets. *)
Inductive Fetch :=
  | Fetched (db : AgentDB)        (** the query ran on this database *)
  | TimedOut                      (** [wait_for] gave up *)
  | Raised (what : string).       (** the query raised *)

(** A turn of the loop: the clock before the request, the request, the clock after it. *)
Record Turn := {
  tn_before : Z;
  tn_fetch : Fetch;
  tn_after : Z
}.

Definition page_fetched (sw : Sweep) : Sweep :=
  {| sw_observations := sw_observations sw; sw_errors := sw_errors sw;
     sw_pages := sw_pages sw + 1; sw_rows := sw_rows sw;
     sw_after_expiry := sw_after_expiry sw; sw_after_id := sw_after_id sw;
     sw_last_expiry := sw_last_expiry sw; sw_last_id := sw_last_id sw |}.

Definition add_rows (sw : Sweep) (n : nat) : Sweep :=
  {| sw_observations := sw_observations sw; sw_errors := sw_errors sw;
     sw_pages := sw_pages sw; sw_rows := sw_rows sw + Z.of_nat n;
     sw_after_expiry := sw_after_expiry sw; sw_after_id := sw_after_id sw;
     sw_last_expiry := sw_last_expiry sw; sw_last_id := sw_last_id sw |}.

Definition query_page (db : AgentDB) (cutoff limit : Z) (after_expiry : option Z)
    (after_id : option string) : result ScanError (list (string * ExecutionRow)) :=
  match list_expired_execution_leases db (Utc cutoff) limit
          (Utc <$> after_expiry) after_id with
  | Ok rows => Ok rows
  | Err e => Err (ScanStoreError e)
  end.

(** One turn of [while True]: the sweep, and the reason when it breaks. *)
Definition scan_turn (p : StaleLeaseScanPolicy) (cutoff started : Z) (turn : Turn) (sw : Sweep)
    : result ScanError (Sweep * option StaleLeaseSweepStopReason) :=
  if max_duration_seconds p <=? tn_before turn - started then mret (sw, Some MAX_DURATION) else
  if max_pages p <=? sw_pages sw then mret (sw, Some MAX_PAGES) else
  let remaining_rows := max_rows p - sw_rows sw in
  if remaining_rows <=? 0 then mret (sw, Some MAX_ROWS) else
  let request_limit := Z.min (page_size p) remaining_rows in
  match tn_fetch turn with
  | TimedOut => mret (sw, Some MAX_DURATION)
  | Raised what => Err (ScanRaised what)
  | Fetched db =>
      raw_page ← query_page db cutoff request_limit (sw_after_expiry sw) (sw_after_id sw);
      let sw := page_fetched sw in
      if max_duration_seconds p <=? tn_after turn - started
      then mret (sw, Some MAX_DURATION) else
      sw ← scan_rows (add_rows sw (length raw_page)) raw_page;
      if Z.of_nat (length raw_page) <? request_limit then mret (sw, Some EXHAUSTED) else
      if max_rows p <=? sw_rows sw then mret (sw, Some MAX_ROWS) else
      if max_pages p <=? sw_pages sw then mret (sw, Some MAX_PAGES) else
      mret (sw, None)
  end.

(** The loop; [turns] says what its turns meet.  [None]: out of fuel. *)
Fixpoint scan_loop (fuel : nat) (p : StaleLeaseScanPolicy) (cutoff started : Z)
    (turns : nat -> Turn) (sw : Sweep)
    : result ScanError (option (Sweep * StaleLeaseSweepStopReason)) :=
  match fuel with
  | O => mret None
  | S fuel' =>
      r ← scan_turn p cutoff started (turns O) sw;
      match r with
      | (sw', Some reason) => mret (Some (sw', reason))
      | (sw', None) => scan_loop fuel' p cutoff started (fun n => turns (S n)) sw'
      end
  end.

Record StaleLeaseScanCoordinator := {
  sc_policy : StaleLeaseScanPolicy;
  sc_after_expiry : option Z;
  sc_after_execution_id : option string
}.

Definition init_scanner (p : StaleLeaseScanPolicy) : StaleLeaseScanCoordinator :=
  {| sc_policy := p; sc_after_expiry := None; sc_after_execution_id := None |}.

Definition start_sweep (c : StaleLeaseScanCoordinator) : Sweep :=
  {| sw_observations := []; sw_errors := []; sw_pages := 0; sw_rows := 0;
     sw_after_expiry := sc_after_expiry c; sw_after_id := sc_after_execution_id c;
     sw_last_expiry := None; sw_last_id := None |}.

(** The cursor after a sweep: wrapped when the sweep exhausted the rows. *)
Definition move_cursor (c : StaleLeaseScanCoordinator) (sw : Sweep)
    (reason : StaleLeaseSweepStopReason) : StaleLeaseScanCoordinator :=
  if bool_decide (reason = EXHAUSTED) then init_scanner (sc_policy c)
  else match sw_last_expiry sw, sw_last_id sw with
       | Some t, Some id =>
           {| sc_policy := sc_policy c; sc_after_expiry := Some t;
              sc_after_execution_id := Some id |}
       | _, _ => c
       end.

(** What a sweep meets: the wall clock, and the monotonic clock and database of each turn. *)
Record SweepEnv := {
  se_now : ScanInstant;
  se_started : Z;
  se_turns : nat -> Turn;
  se_finished : Z
}.

Definition scan_fuel (p : StaleLeaseScanPolicy) : nat := S (Z.to_nat (max_pages p)).

(** [scan_once] under the lock.  A sweep that raises leaves the cursor where it was. *)
Definition scan_once (c : StaleLeaseScanCoordinator) (env : SweepEnv)
    : result ScanError (StaleLeaseScanCoordinator * option StaleLeaseSweepResult) :=
  cutoff ← aware_utc (se_now env) "scan_cutoff_utc";
  r ← scan_loop (scan_fuel (sc_policy c)) (sc_policy c) cutoff (se_started env)
        (se_turns env) (start_sweep c);
  match r with
  | None => mret (c, None)
  | Some (sw, reason) =>
      mret (move_cursor c sw reason,
            Some {| scan_cutoff_utc := cutoff; started_monotonic := se_started env;
                    finished_monotonic := se_finished env; sr_pages_fetched := sw_pages sw;
                    observations := sw_observations sw; stop_reason := reason;
                    observation_errors := sw_errors sw |})
  end.

(** ** Sweeps in sequence *)

(** The sweeps of a coordinator, one after the other, and the results of those that did
    not raise. *)
Fixpoint sweeps (c : StaleLeaseScanCoordinator) (envs : list SweepEnv)
    : StaleLeaseScanCoordinator * list StaleLeaseSweepResult :=
  match envs with
  | [] => (c, [])
  | env :: envs' =>
      match scan_once c env with
      | Ok (c1, Some r) => let (c2, rs) := sweeps c1 envs' in (c2, r :: rs)
      | Ok (c1, None) => sweeps c1 envs'
      | Err _ => sweeps c envs'
      end
  end.

Definition all_observations (rs : list StaleLeaseSweepResult) : list StaleLeaseObservation :=
  rs ≫= observations.

Definition observation_key (o : StaleLeaseObservation) : LeaseKey :=
  (ob_lease_expires_at o, ob_execution_id o).

(** The row is in every database a page of this sweep is read from, and expired by its
    cutoff. *)
Definition stale_throughout (ie : string * ExecutionRow) (env : SweepEnv) : Prop :=
  (forall n db, tn_fetch (se_turns env n) = Fetched db ->
     db_executions db !! fst ie = Some (snd ie)) /\
  (forall cutoff, se_now env = UtcAt cutoff -> expired_lease cutoff ie = true).

(** A sweep that nothing disturbs: the database answers, always the same, and in time. *)
Definition quiet (p : StaleLeaseScanPolicy) (db : AgentDB) (env : SweepEnv) : Prop :=
  (exists cutoff, se_now env = UtcAt cutoff) /\
  forall n, tn_fetch (se_turns env n) = Fetched db /\
    tn_before (se_turns env n) - se_started env < max_duration_seconds p /\
    tn_after (se_turns env n) - se_started env < max_duration_seconds p.

Definition scan_policy_valid (p : StaleLeaseScanPolicy) : Prop :=
  0 < page_size p <= MAX_STALE_LEASE_SCAN_PAGE_SIZE /\ 0 < max_pages p /\ 0 < max_rows p /\
  0 < max_duration_seconds p.

(** ** Cursors *)

Definition cursor_of (t : option Z) (id : option string) : option LeaseKey :=
  match t, id with Some t, Some id => Some (t, id) | _, _ => None end.

Definition cursor_ok (t : option Z) (id : option string) : Prop :=
  match t, id with
  | None, None => True
  | Some _, Some id => truthy id = true
  | _, _ => False
  end.

(** The key comes after the cursor. *)
Definition after (cur : option LeaseKey) (k : LeaseKey) : bool :=
  match cur with Some c => key_ltb c k | None => true end.

Definition sw_cursor (sw : Sweep) : option LeaseKey := cursor_of (sw_after_expiry sw) (sw_after_id sw).
Definition sc_cursor (c : StaleLeaseScanCoordinator) : option LeaseKey :=
  cursor_of (sc_after_expiry c) (sc_after_execution_id c).

Definition page_end (cur : option LeaseKey) (page : list (string * ExecutionRow)) : option LeaseKey :=
  match last page with Some ie => Some (lease_key ie) | None => cur end.

(** The observations of a page. *)
Definition observed (page : list (string * ExecutionRow)) : list StaleLeaseObservation :=
  omap (fun ie => match from_record ie with Ok o => Some o | Err _ => None end) page.

(** What a sweep's variables keep of each other. *)
Record sweep_wf (c : StaleLeaseScanCoordinator) (sw : Sweep) : Prop := {
  wf_cursor : cursor_ok (sw_after_expiry sw) (sw_after_id sw);
  wf_last : match sw_last_expiry sw, sw_last_id sw with
            | Some t, Some id => sw_after_expiry sw = Some t /\ sw_after_id sw = Some id
            | _, _ => sw_after_expiry sw = sc_after_expiry c /\
                      sw_after_id sw = sc_after_execution_id c
            end
}.

Lemma make_scan_policy_valid page pages rows duration p :
  make_scan_policy page pages rows duration = Ok p -> scan_policy_valid p.
Proof.
  unfold make_scan_policy, positive_int, positive_finite. intros H.
  repeat (apply bind_ok in H as (? & ? & H)). injection H as <-. destruct duration; [|done].
  unfold scan_policy_valid. simpl.
  repeat match goal with
  | Hb : _ ≫= _ = Ok _ |- _ => apply bind_ok in Hb as (? & ? & Hb)
  | Hg : guard_err ?b _ = Ok _ |- _ => destruct b eqn:?; [clear Hg|discriminate Hg]
  | Hr : mret _ = Ok _ |- _ => injection Hr as <-
  | Hi : (if ?b then Ok _ else Err _) = Ok _ |- _ => destruct b eqn:?; [injection Hi as <-|done]
  end. lia.
Qed.

(** ** Pages *)

Lemma query_page_spec db cutoff limit t id page :
  query_page db cutoff limit t id = Ok page ->
  page = take (Z.to_nat limit)
           (List.filter (fun ie => after (cursor_of t id) (lease_key ie)) (expired_leases db cutoff)) /\
  0 < limit.
Proof.
  unfold query_page, list_expired_execution_leases. simpl.
  destruct ((0 <? limit) && _) eqn:El; simpl; [|done]. intros H. split; [|lia].
  destruct t as [t|], id as [id|]; simpl in *; try done.
  - destruct (truthy id); simpl in H; [|done]. by injection H as <-.
  - injection H as <-. f_equal. symmetry. by apply List.filter_true.
Qed.

Lemma query_page_ok db cutoff limit t id :
  0 < limit <= MAX_EXPIRED_EXECUTION_LEASE_SCAN_LIMIT -> cursor_ok t id ->
  exists page, query_page db cutoff limit t id = Ok page.
Proof.
  intros Hl Hc. unfold query_page, list_expired_execution_leases. simpl.
  replace ((0 <? limit) && _) with true by (unfold MAX_EXPIRED_EXECUTION_LEASE_SCAN_LIMIT in *; lia).
  destruct t as [t|], id as [id|]; simpl in *; try done; [rw Hc /=|]; by eexists.
Qed.

Lemma elem_of_expired_leases db cutoff ie :
  ie ∈ expired_leases db cutoff <->
  db_executions db !! fst ie = Some (snd ie) /\ expired_lease cutoff ie = true.
Proof.
  unfold expired_leases. rw sort_by_perm. rw list_elem_of_In List.filter_In -list_elem_of_In.
  destruct ie as [i e]. by rw elem_of_map_to_list.
Qed.

Lemma expired_lease_expiry cutoff ie :
  expired_lease cutoff ie = true -> is_Some (e_lease_expires_at (snd ie)).
Proof.
  unfold expired_lease. destruct (e_lease_expires_at _); [eauto|]. by rw andb_false_r.
Qed.

Lemma sorted_filter {A K} (key : A -> K) ltb f l :
  strictly_sorted key ltb l -> strictly_sorted key ltb (List.filter f l).
Proof.
  unfold strictly_sorted. induction 1 as [|x l Hs IH Hx]; simpl; [constructor|].
  destruct (f x); [|done]. constructor; [done|]. rw Forall_forall in Hx. apply Forall_forall.
  intros y Hy. apply Hx. rw list_elem_of_In in Hy. apply List.filter_In in Hy as [Hy _].
  by apply list_elem_of_In.
Qed.

Lemma sorted_app {A K} (key : A -> K) ltb l1 l2 :
  strictly_sorted key ltb (l1 ++ l2) <->
  strictly_sorted key ltb l1 /\ strictly_sorted key ltb l2 /\
  (forall x y, x ∈ l1 -> y ∈ l2 -> ltb (key x) (key y) = true).
Proof.
  unfold strictly_sorted. induction l1 as [|a l1 IH]; simpl.
  - split; [|naive_solver]. intros H. split; [constructor|]. split; [done|]. set_solver.
  - split.
    + intros H. inversion H as [|? ? H1 H2]; subst. apply IH in H1 as (? & ? & Hb).
      apply Forall_app in H2 as [? H2]. rw Forall_forall in H2. split; [by constructor|].
      split; [done|]. intros x y [->|Hx]%elem_of_cons Hy; eauto.
    + intros (H1 & H2 & Hb). inversion H1 as [|? ? H3 H4]; subst. constructor.
      * apply IH. split; [done|]. split; [done|]. intros x y Hx Hy. apply Hb; [by right|done].
      * apply Forall_app. split; [done|]. apply Forall_forall. intros y Hy. apply Hb; [by left|done].
Qed.

(** What a page that was read is: rows after the cursor, in order; every expired row after
    the cursor is on it or after its end; and a short page holds all of them. *)
Record page_spec (db : AgentDB) (cutoff : Z) (cur : option LeaseKey) (short : bool)
    (page : list (string * ExecutionRow)) : Prop := {
  pg_rows : forall ie, ie ∈ page ->
    db_executions db !! fst ie = Some (snd ie) /\ expired_lease cutoff ie = true /\
    after cur (lease_key ie) = true;
  pg_sorted : strictly_sorted lease_key key_ltb page;
  pg_covers : forall ie, ie ∈ expired_leases db cutoff -> after cur (lease_key ie) = true ->
    ie ∈ page \/ short = false /\ after (page_end cur page) (lease_key ie) = true;
  pg_full : short = false -> page <> []
}.

Lemma query_page_page db cutoff limit t id page :
  query_page db cutoff limit t id = Ok page ->
  page_spec db cutoff (cursor_of t id) (Z.of_nat (length page) <? limit) page.
Proof.
  intros (Hp & Hl)%query_page_spec.
  set (all := List.filter _ _) in Hp.
  assert (strictly_sorted lease_key key_ltb all) as Hs by apply sorted_filter, expired_leases_sorted.
  assert (forall ie, ie ∈ all <-> ie ∈ expired_leases db cutoff /\
    after (cursor_of t id) (lease_key ie) = true) as Hall
    by (intros ie; by rw !list_elem_of_In List.filter_In).
  rw -(take_drop (Z.to_nat limit) all) in Hs. apply sorted_app in Hs as (Hs1 & _ & Hs3).
  rw -Hp in Hs1, Hs3. split; [|done| |].
  - intros ie Hie. assert (ie ∈ all) as Ha.
    { rw -(take_drop (Z.to_nat limit) all). apply elem_of_app. left. by rw -Hp. }
    apply Hall in Ha as [Ha ?]. by apply elem_of_expired_leases in Ha as [? ?].
  - intros ie He Ha. assert (ie ∈ all) as Hin by (by apply Hall).
    rw -(take_drop (Z.to_nat limit) all) -Hp in Hin. apply elem_of_app in Hin as [Hin|Hin]; [by left|].
    right. assert (length page = Z.to_nat limit) as Hlen.
    { rw Hp length_take. apply list_elem_of_In, List.in_split in Hin as (a & b & Hd).
      apply (f_equal length) in Hd. rw length_drop length_app /= in Hd. lia. }
    split; [lia|]. unfold page_end. destruct (last page) as [l|] eqn:E.
    + simpl. apply Hs3; [|done]. apply last_Some in E as (l' & ->). set_solver.
    + apply last_None in E. rw E /= in Hlen. lia.
  - intros Hsh%Z.ltb_ge ->. simpl in Hsh. lia.
Qed.

(** ** The rows of a page *)

Lemma scan_row_spec sw ie sw' : scan_row sw ie = Ok sw' ->
  sw_observations sw' = sw_observations sw ++ observed [ie] /\
  (length (sw_observations sw') + length (sw_errors sw') =
   S (length (sw_observations sw) + length (sw_errors sw)))%nat /\
  sw_pages sw' = sw_pages sw /\ sw_rows sw' = sw_rows sw /\
  cursor_ok (sw_after_expiry sw') (sw_after_id sw') /\ sw_cursor sw' = Some (lease_key ie) /\
  sw_last_expiry sw' = sw_after_expiry sw' /\ sw_last_id sw' = sw_after_id sw'.
Proof.
  unfold scan_row. intros H. apply bind_ok in H as (t & Ht & H).
  destruct (truthy (fst ie)) eqn:Ei; simpl in H; [|done].
  destruct (e_lease_expires_at (snd ie)) as [t'|] eqn:Et; simpl in Ht; [|done]. injection Ht as ->.
  unfold sw_cursor, lease_key, observed. rw Et.
  destruct (from_record ie) as [o|exc] eqn:Ef; injection H as <-; simpl; rw Ef /=;
    rw ?app_nil_r ?length_app /=; (split; [done|split; [lia|done]]).
Qed.

Lemma page_end_cons cur ie page : page_end cur (ie :: page) = page_end (Some (lease_key ie)) page.
Proof.
  unfold page_end. destruct page as [|x page]; [done|]. rw last_cons_cons.
  destruct (last (x :: page)) eqn:E; [done|]. by apply last_None in E.
Qed.

Lemma scan_rows_spec c sw page sw' : scan_rows sw page = Ok sw' -> sweep_wf c sw ->
  sw_observations sw' = sw_observations sw ++ observed page /\
  (length (sw_observations sw') + length (sw_errors sw') =
   length (sw_observations sw) + length (sw_errors sw) + length page)%nat /\
  sw_pages sw' = sw_pages sw /\ sw_rows sw' = sw_rows sw /\
  sweep_wf c sw' /\ sw_cursor sw' = page_end (sw_cursor sw) page.
Proof.
  revert sw. induction page as [|ie page IH]; intros sw H Hwf; simpl in H.
  - injection H as ->. rw app_nil_r. simpl. split_and!; try done; lia.
  - apply bind_ok in H as (sw1 & H1 & H). apply scan_row_spec in H1 as (Ho & Hl & Hp & Hr & Hc & Hk & L1 & L2).
    assert (sweep_wf c sw1) as Hwf1.
    { split; [done|]. rw L1 L2. unfold sw_cursor in Hk. by destruct (sw_after_expiry sw1), (sw_after_id sw1). }
    apply IH in H as (Ho2 & Hl2 & Hp2 & Hr2 & Hwf2 & Hk2); [|done].
    simpl. split_and!; [by rw Ho2 Ho -app_assoc -omap_app|lia|congruence|congruence|done|].
    by rw Hk2 Hk page_end_cons.
Qed.

(** ** Turns and sweeps *)

Definition counted (sw : Sweep) : Z :=
  Z.of_nat (length (sw_observations sw) + length (sw_errors sw)).

(** What a turn does: it stops the sweep before using a page, or uses one. *)
Inductive turn_effect (p : StaleLeaseScanPolicy) (cutoff : Z) (turn : Turn) (sw sw' : Sweep)
    : option StaleLeaseSweepStopReason -> Prop :=
  | TurnStops reason : reason <> EXHAUSTED ->
      sw_observations sw' = sw_observations sw -> counted sw' = counted sw ->
      sw_rows sw' = sw_rows sw -> sw_cursor sw' = sw_cursor sw ->
      sw_pages sw' = sw_pages sw \/ sw_pages sw' = sw_pages sw + 1 /\ sw_pages sw < max_pages p ->
      turn_effect p cutoff turn sw sw' (Some reason)
  | TurnReads db page short r : tn_fetch turn = Fetched db ->
      page_spec db cutoff (sw_cursor sw) short page ->
      sw_observations sw' = sw_observations sw ++ observed page ->
      sw_cursor sw' = page_end (sw_cursor sw) page ->
      counted sw' = counted sw + Z.of_nat (length page) ->
      sw_rows sw' = sw_rows sw + Z.of_nat (length page) -> sw_rows sw' <= max_rows p ->
      sw_pages sw' = sw_pages sw + 1 -> sw_pages sw < max_pages p ->
      short = bool_decide (r = Some EXHAUSTED) ->
      (r = None -> sw_pages sw' < max_pages p) ->
      turn_effect p cutoff turn sw sw' r.

Lemma scan_turn_spec c p cutoff started turn sw sw' r :
  scan_turn p cutoff started turn sw = Ok (sw', r) -> sweep_wf c sw ->
  sweep_wf c sw' /\ turn_effect p cutoff turn sw sw' r.
Proof.
  unfold scan_turn. intros H Hwf.
  destruct (max_duration_seconds p <=? tn_before turn - started);
    [injection H as <- <-; split; [done|constructor; by [|left]]|].
  destruct (max_pages p <=? sw_pages sw) eqn:Ep;
    [injection H as <- <-; split; [done|constructor; by [|left]]|].
  destruct (max_rows p - sw_rows sw <=? 0) eqn:Er;
    [injection H as <- <-; split; [done|constructor; by [|left]]|].
  destruct (tn_fetch turn) as [db| |what] eqn:Ef;
    [|injection H as <- <-; split; [done|constructor; by [|left]]|done].
  apply bind_ok in H as (page & Hq & H).
  destruct (max_duration_seconds p <=? tn_after turn - started).
  { injection H as <- <-. split; [by destruct Hwf|]. constructor; try done. right. simpl. lia. }
  apply bind_ok in H as (sw1 & Hs & H).
  apply (scan_rows_spec c) in Hs as (Ho & Hl & Hpg & Hr & Hwf1 & Hc); [|by destruct Hwf].
  simpl in Ho, Hl, Hpg, Hr.
  pose proof (query_page_page _ _ _ _ _ _ Hq) as Hpage.
  apply query_page_spec in Hq as [Hq _]. apply (f_equal length) in Hq. rw length_take in Hq.
  set (short := Z.of_nat (length page) <? Z.min (page_size p) (max_rows p - sw_rows sw)) in *.
  assert (sw' = sw1 /\ short = bool_decide (r = Some EXHAUSTED) /\
    (r = None -> sw_pages sw1 < max_pages p)) as (-> & Hsh & Hn).
  { destruct short; [by injection H as <- <-|].
    destruct (max_rows p <=? sw_rows sw1); [by injection H as <- <-|].
    destruct (max_pages p <=? sw_pages sw1) eqn:Ep2; injection H as <- <-; [done|].
    split_and!; try done. lia. }
  split; [done|]. eapply (TurnReads _ _ _ _ _ db page short); try done; unfold counted; try lia.
Qed.

(** Induction over the turns of a sweep. *)
Lemma scan_loop_ind (I : Sweep -> Prop) (Q : Sweep -> StaleLeaseSweepStopReason -> Prop)
    fuel p cutoff started turns sw sw' reason :
  (forall n s s' r, I s -> scan_turn p cutoff started (turns n) s = Ok (s', r) ->
     match r with None => I s' | Some reason => Q s' reason end) ->
  I sw -> scan_loop fuel p cutoff started turns sw = Ok (Some (sw', reason)) -> Q sw' reason.
Proof.
  revert turns sw. induction fuel as [|fuel IH]; intros turns sw Ht HI H; simpl in H; [done|].
  apply bind_ok in H as ([s1 r] & H1 & H). pose proof (Ht O _ _ _ HI H1) as Hr.
  destruct r as [reason'|]; [by injection H as <- <-|].
  apply (IH (fun n => turns (S n)) s1); [|done|done]. intros n. apply Ht.
Qed.

(** The sweep that a call of [scan_once] made. *)
Lemma scan_once_inv c env c' r : scan_once c env = Ok (c', Some r) ->
  exists cutoff sw, se_now env = UtcAt cutoff /\
    scan_loop (scan_fuel (sc_policy c)) (sc_policy c) cutoff (se_started env) (se_turns env)
      (start_sweep c) = Ok (Some (sw, stop_reason r)) /\
    c' = move_cursor c sw (stop_reason r) /\
    observations r = sw_observations sw /\ observation_errors r = sw_errors sw /\
    sr_pages_fetched r = sw_pages sw.
Proof.
  unfold scan_once. intros H. apply bind_ok in H as (cutoff & Hn & H).
  apply bind_ok in H as ([[sw reason]|] & Hl & H); [|done]. injection H as <- <-. simpl.
  destruct (se_now env); try done. injection Hn as ->. by exists cutoff, sw.
Qed.

Lemma start_sweep_wf c :
  cursor_ok (sc_after_expiry c) (sc_after_execution_id c) -> sweep_wf c (start_sweep c).
Proof. by split. Qed.

(** The coordinator's cursor follows the sweep's, unless it wraps. *)
Lemma move_cursor_spec c sw reason : sweep_wf c sw ->
  let c' := move_cursor c sw reason in
  sc_policy c' = sc_policy c /\ cursor_ok (sc_after_expiry c') (sc_after_execution_id c') /\
  sc_cursor c' = if bool_decide (reason = EXHAUSTED) then None else sw_cursor sw.
Proof.
  intros [Hc Hl]. unfold move_cursor, sc_cursor, sw_cursor. case_bool_decide; [done|]. simpl.
  destruct (sw_last_expiry sw), (sw_last_id sw), Hl as [E1 E2]; rw E1 E2 in Hc |- *; done.
Qed.

Lemma scan_once_cursor c env c' r :
  cursor_ok (sc_after_expiry c) (sc_after_execution_id c) -> scan_once c env = Ok (c', Some r) ->
  cursor_ok (sc_after_expiry c') (sc_after_execution_id c') /\ sc_policy c' = sc_policy c.
Proof.
  intros Hc (cutoff & sw & _ & Hl & -> & _)%scan_once_inv.
  destruct (move_cursor_spec c sw (stop_reason r)) as (? & ? & _); [|done].
  refine (scan_loop_ind (sweep_wf c) (fun sw _ => sweep_wf c sw) _ _ _ _ _ _ _ _ _ _ Hl);
    [|by apply start_sweep_wf].
  intros n s s' r' Hs Ht. eapply scan_turn_spec in Ht as [? _]; [|done]. by destruct r'.
Qed.

(** Induction over the sweeps of a call sequence: [I] holds between sweeps, of the
    observations made so far and the coordinator. *)
Lemma sweeps_ind (ok : SweepEnv -> Prop)
    (I : list StaleLeaseSweepResult -> StaleLeaseScanCoordinator -> Prop) envs :
  (forall rs c env c' r, ok env -> cursor_ok (sc_after_expiry c) (sc_after_execution_id c) ->
     I rs c -> scan_once c env = Ok (c', Some r) -> I (rs ++ [r]) c') ->
  forall rs c, Forall ok envs -> cursor_ok (sc_after_expiry c) (sc_after_execution_id c) -> I rs c ->
  I (rs ++ snd (sweeps c envs)) (fst (sweeps c envs)).
Proof.
  intros Hstep. induction envs as [|env envs IH]; intros rs c Hok Hc HI; simpl; [by rw app_nil_r|].
  apply Forall_cons in Hok as [He Hok].
  destruct (scan_once c env) as [[c1 [r|]]|] eqn:E.
  - destruct (sweeps c1 envs) as [c2 rs2] eqn:E2. simpl.
    destruct (scan_once_cursor _ _ _ _ Hc E) as [Hc1 _].
    specialize (IH (rs ++ [r]) c1 Hok Hc1 (Hstep _ _ _ _ _ He Hc HI E)).
    by rw E2 /= -app_assoc in IH.
  - assert (c1 = c) as ->; [|by apply IH]. unfold scan_once in E.
    apply bind_ok in E as (? & _ & E). apply bind_ok in E as ([[? ?]|] & _ & E); [done|].
    by injection E as <-.
  - by apply IH.
Qed.

(** A sweep by its turns. *)
Lemma sweep_effect (J : Sweep -> Prop) (Q : Sweep -> StaleLeaseSweepStopReason -> Prop)
    c env c' r :
  cursor_ok (sc_after_expiry c) (sc_after_execution_id c) ->
  scan_once c env = Ok (c', Some r) ->
  (forall cutoff n s s' q, se_now env = UtcAt cutoff -> J s ->
     turn_effect (sc_policy c) cutoff (se_turns env n) s s' q ->
     match q with None => J s' | Some reason => Q s' reason end) ->
  J (start_sweep c) ->
  exists sw, Q sw (stop_reason r) /\ observations r = sw_observations sw /\
    observation_errors r = sw_errors sw /\ sr_pages_fetched r = sw_pages sw /\
    sc_policy c' = sc_policy c /\
    sc_cursor c' = if bool_decide (stop_reason r = EXHAUSTED) then None else sw_cursor sw.
Proof.
  intros Hc H HJ H0. apply scan_once_inv in H as (cutoff & sw & Hn & Hl & -> & Ho & He & Hp).
  exists sw. assert (sweep_wf c sw /\ Q sw (stop_reason r)) as [Hwf HQ].
  { refine (scan_loop_ind (fun s => sweep_wf c s /\ J s) (fun s x => sweep_wf c s /\ Q s x)
      _ _ _ _ _ _ _ _ _ _ Hl); [|split; [by apply start_sweep_wf|done]].
    intros n s s' q [Hw Hj] Ht. eapply scan_turn_spec in Ht as [Hw' Ht]; [|done].
    specialize (HJ _ _ _ _ _ Hn Hj Ht). by destruct q. }
  destruct (move_cursor_spec c sw (stop_reason r) Hwf) as (? & _ & ?). by split_and!.
Qed.

(** *** Nothing is skipped *)

Lemma observed_elem page ie o : ie ∈ page -> from_record ie = Ok o -> o ∈ observed page.
Proof.
  intros Hi Ho. apply list_elem_of_omap. exists ie. by rw Ho.
Qed.

Lemma all_observations_snoc rs r :
  all_observations (rs ++ [r]) = all_observations rs ++ observations r.
Proof. unfold all_observations. by rw bind_app /= app_nil_r. Qed.

(** Either the row was observed, or the cursor has not reached it and no sweep wrapped. *)
Definition found_or_ahead (ie : string * ExecutionRow) (o : StaleLeaseObservation)
    (rs : list StaleLeaseSweepResult) (c : StaleLeaseScanCoordinator) : Prop :=
  o ∈ all_observations rs \/
  after (sc_cursor c) (lease_key ie) = true /\ Forall (fun r => stop_reason r <> EXHAUSTED) rs.

Lemma found_or_ahead_step ie o rs c env c' r :
  from_record ie = Ok o -> stale_throughout ie env ->
  cursor_ok (sc_after_expiry c) (sc_after_execution_id c) ->
  found_or_ahead ie o rs c -> scan_once c env = Ok (c', Some r) -> found_or_ahead ie o (rs ++ [r]) c'.
Proof.
  intros Ho [Hdb Hcut] Hc HI H. unfold found_or_ahead. rw all_observations_snoc.
  destruct HI as [HI|[Ha Hn]]; [left; set_solver|].
  pose (J s := o ∈ sw_observations s \/ after (sw_cursor s) (lease_key ie) = true).
  destruct (sweep_effect J (fun s x => o ∈ sw_observations s \/
    x <> EXHAUSTED /\ after (sw_cursor s) (lease_key ie) = true) c env c' r)
    as (sw & HQ & Eo & _ & _ & _ & Ec); [done|done| |by right|].
  - intros cutoff n s s' q Hnow HJ Ht.
    assert (expired_lease cutoff ie = true) as Hx by auto.
    destruct Ht as [reason ? E1 _ _ E2|db page short q Hf Hp E1 E2 _ _ _ _ _ Es _].
    + destruct HJ as [HJ|HJ]; [left; by rw E1|right; by rw E2].
    + assert (o ∈ sw_observations s' \/ short = false /\ after (sw_cursor s') (lease_key ie) = true)
        as [HJ'|[-> HJ']].
      { rw E1 E2. destruct HJ as [HJ|HJ]; [left; set_solver|].
        destruct (pg_covers _ _ _ _ _ Hp ie) as [Hi|Hi]; [|done| |by right].
        - apply elem_of_expired_leases. by eauto.
        - left. apply elem_of_app. right. by eapply observed_elem. }
      * destruct q; by left.
      * symmetry in Es. apply bool_decide_eq_false in Es. destruct q; right; [|done].
        split; [|done]. by intros ->.
  - rw Eo. destruct HQ as [HQ|[Hx HQ]]; [left; set_solver|]. right.
    rw Ec bool_decide_eq_false_2 //. split; [done|]. by apply Forall_app_2; [|constructor].
Qed.

(** *** Order *)

Lemma from_record_key ie o : from_record ie = Ok o -> observation_key o = lease_key ie.
Proof.
  destruct ie as [id e]. unfold from_record, lease_key. simpl. intros H.
  destruct (truthy id); simpl in H; [|done].
  apply bind_ok in H as (ow & _ & H). apply bind_ok in H as (? & _ & H).
  destruct (e_lease_expires_at e); simpl in H; [|done]. by injection H as <-.
Qed.

Lemma observed_key page o : o ∈ observed page -> exists ie, ie ∈ page /\ observation_key o = lease_key ie.
Proof.
  intros (ie & Hi & Ho)%list_elem_of_omap. exists ie. split; [done|].
  destruct (from_record ie) eqn:E; [|done]. injection Ho as <-. by apply from_record_key.
Qed.

Lemma observed_sorted page : strictly_sorted lease_key key_ltb page ->
  strictly_sorted observation_key key_ltb (observed page).
Proof.
  unfold strictly_sorted. induction 1 as [|ie page Hs IH Hf]; [constructor|].
  unfold observed in *. simpl. destruct (from_record ie) as [o|] eqn:E; [|done].
  constructor; [done|]. apply Forall_forall. intros o' (ie' & Hi & Hk)%observed_key.
  rw (from_record_key _ _ E) Hk. rw Forall_forall in Hf. by apply Hf.
Qed.

(** The key is not after the cursor. *)
Definition reached (cur : option LeaseKey) (k : LeaseKey) : Prop := after cur k = false.

Lemma reached_trans cur k k' : reached cur k -> after cur k' = true -> key_ltb k k' = true.
Proof.
  unfold reached. destruct cur as [c|]; simpl; [|done]. intros H1 H2.
  destruct (decide (k = c)) as [->|Hne]; [done|].
  destruct (ltb_total k c Hne) as [H|H]; [by eapply ltb_trans|congruence].
Qed.

Lemma page_end_reached db cutoff cur short page : page_spec db cutoff cur short page ->
  (forall k, reached cur k -> reached (page_end cur page) k) /\
  (forall ie, ie ∈ page -> reached (page_end cur page) (lease_key ie)).
Proof.
  intros Hp. unfold page_end. destruct (last page) as [l|] eqn:El.
  2: { apply last_None in El as ->. split; [done|]. set_solver. }
  apply last_Some in El as (page' & ->). unfold reached. simpl. split.
  - intros k Hk. destruct (key_ltb (lease_key l) k) eqn:E; [|done].
    destruct (pg_rows _ _ _ _ _ Hp l) as (_ & _ & Ha); [set_solver|].
    pose proof (reached_trans _ _ _ Hk Ha) as F. pose proof (ltb_trans _ _ _ E F) as G. by rw ltb_irrefl in G.
  - intros ie Hi. pose proof (pg_sorted _ _ _ _ _ Hp) as Hs. apply sorted_app in Hs as (_ & _ & Hs).
    apply elem_of_app in Hi as [Hi| ->%list_elem_of_singleton]; [|apply ltb_irrefl].
    specialize (Hs ie l Hi (list_elem_of_here _ _)).
    destruct (key_ltb (lease_key l) (lease_key ie)) eqn:E; [|done].
    pose proof (ltb_trans _ _ _ E Hs) as G. by rw ltb_irrefl in G.
Qed.

(** Observations in order, none of them after the cursor. *)
Definition kept_order (cur : option LeaseKey) (l : list StaleLeaseObservation) : Prop :=
  strictly_sorted observation_key key_ltb l /\
  forall o, o ∈ l -> reached cur (observation_key o).

Lemma in_order_page db cutoff cur short page l : page_spec db cutoff cur short page ->
  kept_order cur l -> kept_order (page_end cur page) (l ++ observed page).
Proof.
  intros Hp [Hs Hr]. destruct (page_end_reached _ _ _ _ _ Hp) as [H1 H2]. split.
  - apply sorted_app. split; [done|]. split; [by apply observed_sorted; eapply pg_sorted|].
    intros o o' Ho (ie & Hi & ->)%observed_key. eapply reached_trans; [by apply Hr|].
    by eapply pg_rows.
  - intros o [Ho|(ie & Hi & ->)%observed_key]%elem_of_app; auto.
Qed.

Lemma in_order_step rs c env c' r :
  cursor_ok (sc_after_expiry c) (sc_after_execution_id c) ->
  kept_order (sc_cursor c) (all_observations rs) -> scan_once c env = Ok (c', Some r) ->
  strictly_sorted observation_key key_ltb (all_observations (rs ++ [r])) /\
  (stop_reason r <> EXHAUSTED -> kept_order (sc_cursor c') (all_observations (rs ++ [r]))).
Proof.
  intros Hc HI H. rw all_observations_snoc.
  pose (J s := kept_order (sw_cursor s) (all_observations rs ++ sw_observations s)).
  destruct (sweep_effect J (fun s _ => J s) c env c' r)
    as (sw & HQ & -> & _ & _ & _ & Ec); [done|done| |by rw /J /= app_nil_r|].
  - intros cutoff n s s' q _ HJ Ht. assert (J s') as HJ'; [|by destruct q]. unfold J in *.
    destruct Ht as [reason ? -> _ _ -> _|db page short q _ Hp -> -> _]; [done|].
    rw app_assoc. by eapply in_order_page.
  - split; [by apply HQ|]. intros Hx. by rw Ec bool_decide_eq_false_2.
Qed.

(** *** Bounds *)

Lemma sweep_bounded c env c' r :
  cursor_ok (sc_after_expiry c) (sc_after_execution_id c) -> scan_policy_valid (sc_policy c) ->
  scan_once c env = Ok (c', Some r) ->
  0 <= sr_pages_fetched r <= max_pages (sc_policy c) /\
  Z.of_nat (length (observations r) + length (observation_errors r)) <= max_rows (sc_policy c).
Proof.
  intros Hc Hp H.
  pose (J s := 0 <= sw_pages s <= max_pages (sc_policy c) /\ counted s = sw_rows s /\
    sw_rows s <= max_rows (sc_policy c)).
  destruct (sweep_effect J (fun s _ => J s) c env c' r) as (sw & HJ & -> & -> & -> & _); [done|done| | |].
  - intros cutoff n s s' q _ HJ Ht. assert (J s') as HJ'; [|by destruct q]. unfold J in *.
    destruct Ht; lia.
  - unfold J, counted, scan_policy_valid in *. simpl. lia.
  - unfold J, counted in HJ. lia.
Qed.

(** The fuel is enough. *)
Lemma scan_loop_total c fuel p cutoff started turns sw :
  sweep_wf c sw -> (0 < fuel)%nat -> max_pages p - sw_pages sw <= Z.of_nat fuel ->
  scan_loop fuel p cutoff started turns sw <> Ok None.
Proof.
  revert turns sw. induction fuel as [|fuel IH]; intros turns sw Hwf H0 Hf; [lia|]. simpl.
  destruct (scan_turn p cutoff started (turns O) sw) as [[sw' q]|] eqn:E; [|done]. simpl.
  eapply scan_turn_spec in E as [Hwf' Ht]; [|done]. destruct q as [|]; [done|].
  inversion Ht as [|db page short r _ _ _ _ _ _ _ Hp _ _ Hn]; subst. specialize (Hn eq_refl).
  apply IH; [done|lia|lia].
Qed.

Lemma scan_once_answers c env :
  cursor_ok (sc_after_expiry c) (sc_after_execution_id c) -> scan_policy_valid (sc_policy c) ->
  match scan_once c env with Ok (_, None) => False | _ => True end.
Proof.
  intros Hc Hp. destruct (scan_once c env) as [[c' [r|]]|] eqn:E; try done. unfold scan_once in E.
  apply bind_ok in E as (cutoff & _ & E). apply bind_ok in E as ([[sw x]|] & E & H); [done|].
  apply (scan_loop_total c) in E; [done|by apply start_sweep_wf|unfold scan_fuel; lia|].
  unfold scan_fuel, scan_policy_valid in *. simpl. lia.
Qed.

(** *** Progress *)

Definition ids_nonempty (db : AgentDB) : Prop :=
  forall id e, db_executions db !! id = Some e -> truthy id = true.

(** Rows after the cursor. *)
Definition remaining (db : AgentDB) (cur : option LeaseKey) : nat :=
  length (List.filter (fun ie => after cur (lease_key ie)) (map_to_list (db_executions db))).

Lemma filter_length_lt {A} (f g : A -> bool) l x :
  (forall y, g y = true -> f y = true) -> x ∈ l -> f x = true -> g x = false ->
  (length (List.filter g l) < length (List.filter f l))%nat.
Proof.
  intros Hgf Hx Hf Hg. assert (forall l, length (List.filter g l) <= length (List.filter f l))%nat as Hle.
  { induction l0 as [|y l0 IH]; simpl; [lia|]. specialize (Hgf y).
    destruct (g y); [rw Hgf //=; lia|]. destruct (f y); simpl; lia. }
  induction Hx as [z l|z y l Hx IH]; simpl.
  - rw Hf Hg /=. specialize (Hle l). lia.
  - specialize (IH Hf Hg). specialize (Hgf y). destruct (g y); [rw Hgf //=; lia|]. destruct (f y); simpl; lia.
Qed.

Lemma remaining_page db cutoff cur page : page_spec db cutoff cur false page ->
  (remaining db (page_end cur page) < remaining db cur)%nat.
Proof.
  intros Hp. pose proof (pg_full _ _ _ _ _ Hp eq_refl) as Hne. unfold page_end.
  destruct (last page) as [l|] eqn:El; [|by apply last_None in El].
  apply last_Some in El as (page' & ->).
  destruct (pg_rows _ _ _ _ _ Hp l) as (Hl & _ & Ha); [set_solver|].
  apply (filter_length_lt _ _ _ l); [|by destruct l; apply elem_of_map_to_list|done|apply (ltb_irrefl (ltb := key_ltb))].
  intros y Hy. destruct cur as [k|]; [|done]. simpl in *. by eapply ltb_trans.
Qed.

Lemma scan_rows_ok sw page :
  (forall ie, ie ∈ page -> truthy (fst ie) = true /\ is_Some (e_lease_expires_at (snd ie))) ->
  exists sw', scan_rows sw page = Ok sw'.
Proof.
  revert sw. induction page as [|ie page IH]; intros sw H; simpl; [by eexists|].
  destruct (H ie) as [Hi [t Ht]]; [by left|]. unfold scan_row. rw Ht /= Hi /=.
  destruct (from_record ie); simpl; apply IH; intros x Hx; apply H; by right.
Qed.

(** A turn that may read a page and is not disturbed reads it, and exhausts the rows or
    moves the cursor. *)
Lemma quiet_turn c p db env cutoff n sw :
  scan_policy_valid p -> quiet p db env -> ids_nonempty db -> sweep_wf c sw ->
  sw_pages sw < max_pages p -> sw_rows sw < max_rows p ->
  exists sw' q, scan_turn p cutoff (se_started env) (se_turns env n) sw = Ok (sw', q) /\
    sweep_wf c sw' /\
    (q = Some EXHAUSTED \/ (remaining db (sw_cursor sw') < remaining db (sw_cursor sw))%nat) /\
    (q = None -> sw_pages sw' < max_pages p /\ sw_rows sw' < max_rows p).
Proof.
  intros Hp [_ Hq] Hids Hwf Hpg Hrw. destruct (Hq n) as (Hf & Hb & Ha). unfold scan_turn.
  rw (proj2 (Z.leb_gt _ _) Hb) (proj2 (Z.leb_gt _ _) Hpg).
  rw (proj2 (Z.leb_gt (max_rows p - sw_rows sw) 0)); [lia|]. rw Hf.
  set (limit := Z.min (page_size p) (max_rows p - sw_rows sw)).
  destruct (query_page_ok db cutoff limit (sw_after_expiry sw) (sw_after_id sw)) as [page Hpage];
    [unfold scan_policy_valid, MAX_STALE_LEASE_SCAN_PAGE_SIZE, MAX_EXPIRED_EXECUTION_LEASE_SCAN_LIMIT in *; lia
    |by destruct Hwf|].
  rw Hpage /= (proj2 (Z.leb_gt _ _) Ha). apply query_page_page in Hpage.
  destruct (scan_rows_ok (add_rows (page_fetched sw) (length page)) page) as [sw1 Hs].
  { intros [id e] Hi. destruct (pg_rows _ _ _ _ _ Hpage _ Hi) as (Hl & Hx & _).
    split; [by eapply Hids|by eapply expired_lease_expiry]. }
  rw Hs /=. apply (scan_rows_spec c) in Hs as (_ & _ & _ & _ & Hwf1 & Hc); [|by destruct Hwf].
  change (sw_cursor (add_rows _ _)) with (sw_cursor sw) in Hc.
  destruct (Z.of_nat (length page) <? limit); [exists sw1, (Some EXHAUSTED); naive_solver|].
  apply remaining_page in Hpage. rw -/(sw_cursor sw) -Hc in Hpage.
  destruct (max_rows p <=? sw_rows sw1) eqn:E1; [exists sw1, (Some MAX_ROWS); naive_solver|].
  destruct (max_pages p <=? sw_pages sw1) eqn:E2; [exists sw1, (Some MAX_PAGES); naive_solver|].
  exists sw1, None. split_and!; auto. lia.
Qed.

Lemma quiet_loop c p db env cutoff fuel turns sw :
  scan_policy_valid p -> quiet p db env -> ids_nonempty db -> sweep_wf c sw ->
  (forall n, exists m, turns n = se_turns env m) ->
  sw_pages sw < max_pages p -> sw_rows sw < max_rows p ->
  max_pages p - sw_pages sw <= Z.of_nat fuel ->
  exists sw' reason, scan_loop fuel p cutoff (se_started env) turns sw = Ok (Some (sw', reason)) /\
    sweep_wf c sw' /\
    (reason = EXHAUSTED \/ (remaining db (sw_cursor sw') < remaining db (sw_cursor sw))%nat).
Proof.
  intros Hp Hq Hids. revert turns sw.
  induction fuel as [|fuel IH]; intros turns sw Hwf Ht Hpg Hrw Hf; [lia|]. simpl.
  destruct (Ht O) as [m Hm]. rw Hm.
  destruct (quiet_turn c p db env cutoff m sw) as (sw1 & q & E & Hwf1 & Hr & Hn); try done. rw E /=.
  destruct q as [reason|].
  - exists sw1, reason. split_and!; [done|done|]. destruct Hr as [[= ->]|Hr]; auto.
  - destruct (Hn eq_refl) as [Hpg1 Hrw1].
    eapply scan_turn_spec in E as [_ E]; [|done].
    inversion E as [|db' page short r' _ _ _ _ _ _ _ Hp1 _ _ _]; subst.
    destruct (IH (fun n => turns (S n)) sw1) as (sw2 & reason & E2 & Hwf2 & Hr2); try done; [lia|].
    exists sw2, reason. split_and!; [done|done|]. destruct Hr as [[=]|Hr], Hr2; auto. right. lia.
Qed.

Lemma quiet_sweep c db env :
  cursor_ok (sc_after_expiry c) (sc_after_execution_id c) -> scan_policy_valid (sc_policy c) ->
  quiet (sc_policy c) db env -> ids_nonempty db ->
  exists c' r, scan_once c env = Ok (c', Some r) /\ sc_policy c' = sc_policy c /\
    cursor_ok (sc_after_expiry c') (sc_after_execution_id c') /\
    (stop_reason r = EXHAUSTED \/ (remaining db (sc_cursor c') < remaining db (sc_cursor c))%nat).
Proof.
  intros Hc Hp Hq Hids. destruct (Hq) as [[cutoff Hn] _].
  destruct (quiet_loop c (sc_policy c) db env cutoff (scan_fuel (sc_policy c)) (se_turns env)
    (start_sweep c)) as (sw & reason & E & Hwf & Hr); try done.
  - by eauto.
  - unfold scan_policy_valid in Hp. simpl. lia.
  - unfold scan_policy_valid in Hp. simpl. lia.
  - unfold scan_fuel. simpl. lia.
  - unfold scan_once. rw Hn. cbn [aware_utc mbind result_bind]. rw E. cbn [mbind result_bind].
    do 2 eexists. split; [done|].
    destruct (move_cursor_spec c sw reason Hwf) as (H1 & H2 & H3). split_and!; [done|done|].
    destruct Hr as [->|Hr]; [by left|]. destruct (decide (reason = EXHAUSTED)); [by left|].
    right. by rw H3 bool_decide_eq_false_2.
Qed.

Lemma sweeps_app c a b :
  sweeps c (a ++ b) =
  (fst (sweeps (fst (sweeps c a)) b), snd (sweeps c a) ++ snd (sweeps (fst (sweeps c a)) b)).
Proof.
  revert c. induction a as [|env a IH]; intros c; simpl; [by destruct (sweeps c b)|].
  destruct (scan_once c env) as [[c1 [r|]]|]; [|by apply IH|by apply IH].
  rw IH. by destruct (sweeps c1 a).
Qed.

(** Undisturbed sweeps exhaust the rows, and the cursor wraps. *)
Lemma quiet_sweeps_exhaust db envs c :
  cursor_ok (sc_after_expiry c) (sc_after_execution_id c) -> scan_policy_valid (sc_policy c) ->
  Forall (quiet (sc_policy c) db) envs -> ids_nonempty db ->
  (remaining db (sc_cursor c) < length envs)%nat ->
  exists a b, envs = a ++ b /\ (length a <= S (remaining db (sc_cursor c)))%nat /\
    fst (sweeps c a) = init_scanner (sc_policy c) /\
    exists r, r ∈ snd (sweeps c a) /\ stop_reason r = EXHAUSTED.
Proof.
  revert c. induction envs as [|env envs IH]; intros c Hc Hp Hq Hids Hl; simpl in *; [lia|].
  apply Forall_cons in Hq as [Hq Hqs].
  destruct (quiet_sweep c db env) as (c1 & r & E & Ep & Hc1 & Hr); try done.
  destruct (decide (stop_reason r = EXHAUSTED)) as [Hx|Hx].
  - exists [env], envs. simpl. rw E /=. split_and!; [done|lia| |exists r; set_solver].
    apply scan_once_inv in E as (_ & sw & _ & _ & -> & _). unfold move_cursor. by rw bool_decide_eq_true_2.
  - destruct Hr as [Hr|Hr]; [done|].
    destruct (IH c1) as (a & b & -> & Ha & Hi & r' & Hin & Hx'); [done|by rw Ep|by rw Ep|done|lia|].
    exists (env :: a), b. simpl. rw E. destruct (sweeps c1 a) as [c2 rs]. simpl in *.
    split_and!; [done|lia|by rw Hi Ep|]. exists r'. set_solver.
Qed.

Lemma remaining_le db cur : (remaining db cur <= size (db_executions db))%nat.
Proof.
  unfold remaining. etransitivity; [apply List.filter_length_le|]. by rw length_map_to_list.
Qed.

Lemma sweeps_cursor p envs :
  let c := fst (sweeps (init_scanner p) envs) in
  cursor_ok (sc_after_expiry c) (sc_after_execution_id c) /\ sc_policy c = p.
Proof.
  refine (sweeps_ind (fun _ => True) (fun _ c =>
    cursor_ok (sc_after_expiry c) (sc_after_execution_id c) /\ sc_policy c = p) envs
    _ [] (init_scanner p) _ _ _); [|by apply Forall_true|done|done].
  intros rs c env c' r _ Hc [_ Ep] H. rw -Ep. by apply scan_once_cursor with env r.
Qed.

Lemma Forall_removelast {A} (P : A -> Prop) l : Forall P l -> Forall P (removelast l).
Proof.
  induction 1 as [|x l Hx Hl IH]; [constructor|]. destruct l; [constructor|]. by constructor.
Qed.

Lemma pass_in_order p envs :
  let rs := snd (sweeps (init_scanner p) envs) in
  Forall (fun r => stop_reason r <> EXHAUSTED) (removelast rs) ->
  strictly_sorted observation_key key_ltb (all_observations rs).
Proof.
  pose (I l c := Forall (fun r => stop_reason r <> EXHAUSTED) (removelast l) ->
    strictly_sorted observation_key key_ltb (all_observations l) /\
    (Forall (fun r => stop_reason r <> EXHAUSTED) l -> kept_order (sc_cursor c) (all_observations l))).
  intros rs Hn.
  refine (proj1 (sweeps_ind (fun _ => True) I envs _ [] (init_scanner p) _ _ _ Hn)).
  - intros l c env c' r _ Hc HI H Hl. rw removelast_last in Hl.
    destruct (in_order_step l c env c' r) as [H1 H2]; [done| |done|].
    + apply HI; [by apply Forall_removelast|done].
    + split; [done|]. intros [_ Hr]%Forall_app. apply H2. by inversion Hr.
  - by apply Forall_true.
  - done.
  - intros _. split; [constructor|]. intros _. split; [constructor|]. set_solver.
Qed.

Lemma sweeps_bounded p envs : scan_policy_valid p ->
  Forall (fun r => sr_pages_fetched r <= max_pages p /\
    Z.of_nat (length (observations r) + length (observation_errors r)) <= max_rows p)
    (snd (sweeps (init_scanner p) envs)).
Proof.
  intros Hp.
  pose (I l c := sc_policy c = p /\ Forall (fun r => sr_pages_fetched r <= max_pages p /\
    Z.of_nat (length (observations r) + length (observation_errors r)) <= max_rows p) l).
  refine (proj2 (sweeps_ind (fun _ => True) I envs _ [] (init_scanner p) _ _ _));
    [|by apply Forall_true|done|done].
  intros l c env c' r _ Hc [Ep HI] H. subst p.
  destruct (scan_once_cursor c env c' r Hc H) as [_ Ep]. split; [done|]. apply Forall_app_2; [done|]. constructor; [|done].
  destruct (sweep_bounded c env c' r) as [? ?]; [done|done|done|]. split; [lia|done].
Qed.

Lemma exhausted_pass_found p envs ie o r :
  from_record ie = Ok o -> Forall (stale_throughout ie) envs ->
  r ∈ snd (sweeps (init_scanner p) envs) -> stop_reason r = EXHAUSTED ->
  o ∈ all_observations (snd (sweeps (init_scanner p) envs)).
Proof.
  intros Ho Hst Hr Hx.
  destruct (sweeps_ind (stale_throughout ie) (found_or_ahead ie o) envs
    (fun rs c env c' r He => found_or_ahead_step ie o rs c env c' r Ho He)
    [] (init_scanner p) Hst I) as [H|[_ H]]; [by right|done|].
  rw Forall_forall in H. by destruct (H r Hr).
Qed.

(** ** A concrete scan *)

(** One row per page, one page per sweep. *)
Definition small_policy : StaleLeaseScanPolicy :=
  {| page_size := 1; max_pages := 1; max_rows := 5; max_duration_seconds := 1000 |}.

Definition scan_at (cutoff : Z) (db : AgentDB) : SweepEnv := {|
  se_now := UtcAt cutoff; se_started := 0;
  se_turns := fun _ => {| tn_before := 10; tn_fetch := Fetched db; tn_after := 20 |};
  se_finished := 30 |}.

Definition two_stale : AgentDB :=
  with_executions held_db (<["w" := apply_exec_values held_execution
    [SetLeaseExpiresAt (Some 40)]]> (db_executions held_db)).

Definition held_observation : StaleLeaseObservation := {|
  ob_execution_id := "x"; ob_owner_instance_id := "a"; ob_lease_generation := 2;
  ob_lease_expires_at := 50; ob_state := "RUNNING"; ob_revision := 3 |}.

(** ** Theorems *)

(** C9 stale_lease_never_skipped: from a fresh coordinator, whatever other transactions do
    between the pages, whichever limit ends a sweep and whichever sweeps fail: once a sweep
    has exhausted the rows, every execution that was stale throughout and has a valid
    observation has been observed.  Within one pass the observations come in strictly
    increasing order of (expiry, id), so none is made twice, and no sweep exceeds the pages
    and rows of its policy. *)
Theorem stale_lease_never_skipped p envs :
  scan_policy_valid p ->
  let rs := snd (sweeps (init_scanner p) envs) in
  (forall ie o r, from_record ie = Ok o -> Forall (stale_throughout ie) envs ->
     r ∈ rs -> stop_reason r = EXHAUSTED -> o ∈ all_observations rs) /\
  (Forall (fun r => stop_reason r <> EXHAUSTED) (removelast rs) ->
     strictly_sorted observation_key key_ltb (all_observations rs)) /\
  Forall (fun r => sr_pages_fetched r <= max_pages p /\
    Z.of_nat (length (observations r) + length (observation_errors r)) <= max_rows p) rs.
Proof.
  intros Hp rs. split_and!; [|by apply pass_in_order|by apply sweeps_bounded].
  intros ie o r. apply exhausted_pass_found.
Qed.

(** Three sweeps of one row each, the first finding another lease that is gone afterwards. *)
Lemma stale_lease_never_skipped_witness :
  held_observation ∈ all_observations (snd (sweeps (init_scanner small_policy)
    [scan_at 60 two_stale; scan_at 61 held_db; scan_at 62 held_db])).
Proof.
  destruct (stale_lease_never_skipped small_policy
    [scan_at 60 two_stale; scan_at 61 held_db; scan_at 62 held_db]) as [H _];
    [repeat split; vm_compute; congruence|].
  assert (exists r, r ∈ snd (sweeps (init_scanner small_policy)
    [scan_at 60 two_stale; scan_at 61 held_db; scan_at 62 held_db]) /\ stop_reason r = EXHAUSTED)
    as (r & Hr & Hx).
  { eexists. split; [right; right; left|reflexivity]. }
  refine (H ("x"%string, held_execution) held_observation r eq_refl _ Hr Hx).
  repeat (apply Forall_cons; split; [split; [intros n db [= <-]; reflexivity|intros cutoff [= <-]; reflexivity]|]).
  constructor.
Defined.

(** C10 stale_leases_found: whatever a coordinator met before, wherever its cursor is: after
    twice as many undisturbed sweeps as there are executions, and two more, every execution
    of the database whose lease was stale at all their cutoffs and has a valid observation
    has been observed. *)
Theorem stale_leases_found p db earlier envs ie o :
  scan_policy_valid p -> ids_nonempty db -> Forall (quiet p db) envs ->
  (2 * S (size (db_executions db)) <= length envs)%nat ->
  db_executions db !! fst ie = Some (snd ie) ->
  (forall env cutoff, env ∈ envs -> se_now env = UtcAt cutoff -> expired_lease cutoff ie = true) ->
  from_record ie = Ok o ->
  o ∈ all_observations (snd (sweeps (fst (sweeps (init_scanner p) earlier)) envs)).
Proof.
  intros Hp Hids Hq Hl Hdb Hx Ho.
  destruct (sweeps_cursor p earlier) as [Hc Ep]. set (c := fst (sweeps _ earlier)) in *.
  pose proof (remaining_le db (sc_cursor c)) as Hr1. pose proof (remaining_le db None) as Hr2.
  destruct (quiet_sweeps_exhaust db envs c) as (a & b & -> & Ha & Hw & _); rw ?Ep; try done; [lia|].
  rw length_app in Hl. apply Forall_app in Hq as [_ Hq]. rw Ep in Hw.
  destruct (quiet_sweeps_exhaust db b (init_scanner p)) as (a' & b' & -> & _ & _ & r & Hr & Hex);
    try done; [change (sc_cursor (init_scanner p)) with (@None LeaseKey); lia|].
  rw sweeps_app Hw /= sweeps_app /=. unfold all_observations. rw !bind_app.
  apply elem_of_app. right. apply elem_of_app. left.
  apply (exhausted_pass_found p a' ie o r); try done.
  apply Forall_forall. intros env He. rw Forall_forall in Hq.
  split; [|intros cutoff Hn; apply (Hx env); [set_solver|done]].
  intros n db' Hf. destruct (Hq env) as [_ Hqn]; [set_solver|]. destruct (Hqn n) as [Hf' _]. congruence.
Qed.

Lemma stale_leases_found_witness :
  held_observation ∈ all_observations (snd (sweeps
    (fst (sweeps (init_scanner small_policy) [scan_at 60 two_stale])) (repeat (scan_at 61 held_db) 4))).
Proof.
  apply (stale_leases_found small_policy held_db [scan_at 60 two_stale] (repeat (scan_at 61 held_db) 4)
    ("x"%string, held_execution) held_observation).
  - repeat split; vm_compute; congruence.
  - intros id e H. destruct id; [|reflexivity]. vm_compute in H. discriminate.
  - apply Forall_forall. intros env He. apply list_elem_of_In, List.repeat_spec in He as ->.
    split; [by exists 61|]. intros n. split; [reflexivity|]. by split; simpl; lia.
  - vm_compute. lia.
  - reflexivity.
  - intros env cutoff He. apply list_elem_of_In, List.repeat_spec in He as ->. intros [= <-]. reflexivity.
  - reflexivity.
Defined.
