(* ===== verification/CanonicalPrefix.v ===== *)
(** * Where a JSON text ends
    (for file Canonical)

    The text of a JSON value is not the beginning of another one, when a comma or a closing
    bracket follows: so equal texts of arrays and objects have equal items, and values with
    the same text are equal for Python ([dumps_python]): the digests of the program never
    identify values that its comparisons tell apart. *)

From S2P Require Import Prelude Canonical PythonValues CanonicalInjectivity Transcript TranscriptProperties.

(** ** Induction over nested values *)

Section JsonInd.
Context (P : json -> Prop).
Context (H_null : P JNull) (H_bool : forall b, P (JBool b)) (H_int : forall z, P (JInt z)) (H_str : forall s, P (JStr s)).
Context (H_arr : forall l, Forall P l -> P (JArr l)) (H_obj : forall f, Forall (fun kv => P kv.2) f -> P (JObj f)).

Fixpoint json_nested (j : json) : P j :=
  match j with
  | JNull => H_null
  | JBool b => H_bool b
  | JInt z => H_int z
  | JStr s => H_str s
  | JArr l => H_arr l ((fix go l : Forall P l :=
      match l with [] => @List.Forall_nil _ P | j :: l => @List.Forall_cons _ P _ _ (json_nested j) (go l) end) l)
  | JObj f => H_obj f ((fix go f : Forall (fun kv => P kv.2) f :=
      match f with
      | [] => @List.Forall_nil _ (fun kv => P kv.2)
      | kv :: f => @List.Forall_cons _ (fun kv => P kv.2) _ _ (json_nested kv.2) (go f)
      end) f)
  end.
End JsonInd.

(** ** The first character *)

(** 0 for a comma or a closing bracket, else the kind of value that starts. *)
Definition start_of (s : string) : nat :=
  match s with
  | EmptyString => 0%nat
  | String c _ =>
      let n := byte_of c in
      if (n =? 44) || (n =? 93) || (n =? 125) then 0%nat
      else if n =? 34 then 1%nat else if n =? 91 then 2%nat else if n =? 123 then 3%nat
      else if n =? 110 then 4%nat else if n =? 116 then 5%nat else if n =? 102 then 6%nat else 7%nat
  end.

Definition start_kind (j : json) : nat :=
  match j with
  | JNull => 4 | JBool true => 5 | JBool false => 6 | JInt _ => 7 | JStr _ => 1 | JArr _ => 2 | JObj _ => 3
  end%nat.

Definition numeric (c : Ascii.ascii) : bool := (byte_of c =? 45) || ((48 <=? byte_of c) && (byte_of c <=? 57)).

Lemma pretty_char_numeric x : numeric (pretty_N_char x) = true.
Proof. unfold pretty_N_char. by repeat case_match. Qed.

Lemma pretty_go_numeric x : forall s, string_forallb numeric s = true ->
  string_forallb numeric (pretty_N_go x s) = true /\ (s <> "" \/ (0 < x)%N -> pretty_N_go x s <> "")%string.
Proof.
  induction (N.lt_wf_0 x) as [x _ IH]; intros s Hs. destruct (decide (x = 0)%N) as [->|Hx].
  { rw pretty_N_go_0. split; [done|]. intros [?|?]; [done|lia]. }
  rw pretty_N_go_step; [lia|].
  destruct (IH (x `div` 10)%N) with (s := String (pretty_N_char (x `mod` 10)) s) as [H1 H2].
  - apply N.div_lt; lia.
  - simpl. by rw pretty_char_numeric.
  - split; [done|]. intros _. apply H2. by left.
Qed.

Lemma pretty_N_numeric (x : N) : string_forallb numeric (pretty x) = true /\ pretty x <> ""%string.
Proof.
  unfold pretty, pretty_N. destruct (decide (x = 0)%N) as [->|Hx]; [done|].
  destruct (pretty_go_numeric x "" eq_refl) as [? H]. split; [done|]. apply H. right. lia.
Qed.

Lemma pretty_numeric (z : Z) : string_forallb numeric (pretty z) = true /\ pretty z <> ""%string.
Proof.
  unfold pretty, pretty_Z. destruct z as [|p|p]; [done|apply (pretty_N_numeric (N.pos p))|].
  split; [|done]. simpl. destruct (pretty_N_numeric (N.pos p)) as [H _]. by rw H.
Qed.

Lemma append_nil r : String.append "" r = r.
Proof. done. Qed.

Lemma str_append_cons c s r : String.append (String c s) r = String c (String.append s r).
Proof. done. Qed.

Lemma append_nil_r s : String.append s "" = s.
Proof. induction s as [|c s IH]; [done|]. by rw str_append_cons IH. Qed.

Lemma dumps_start ascii j r : start_of (String.append (dumps ascii j) r) = start_kind j.
Proof.
  destruct j as [|[]|z|s|l|f]; try done.
  change (dumps ascii (JInt z)) with (pretty z). destruct (pretty_numeric z) as [Hn Hne].
  destruct (pretty z) as [|c s]; [done|]. simpl in Hn. apply andb_true_iff in Hn as [Hn _].
  simpl. unfold numeric in Hn. repeat (case_match; [lia|]). done.
Qed.

(** A comma, a closing bracket or nothing follows. *)
Definition stops (r : string) : Prop := start_of r = 0%nat.

Lemma numeric_prefix s s' r r' : string_forallb numeric s = true -> string_forallb numeric s' = true ->
  stops r -> stops r' -> String.append s r = String.append s' r' -> s = s' /\ r = r'.
Proof.
  assert (forall c t, numeric c = true -> stops (String c t) -> False) as Hc.
  { intros c t Hn. unfold stops, numeric in *. simpl. repeat (case_match; [lia|]). done. }
  revert s'. induction s as [|c s IH]; intros [|c' s'] H H' Hr Hr' E;
    rw ?append_nil ?str_append_cons in E; simpl in H, H'; [done| | |].
  - apply andb_true_iff in H' as [Hn _]. rw E in Hr. by destruct (Hc _ _ Hn Hr).
  - apply andb_true_iff in H as [Hn _]. rw -E in Hr'. by destruct (Hc _ _ Hn Hr').
  - injection E as -> E. apply andb_true_iff in H as [_ H], H' as [_ H'].
    by destruct (IH _ H H' Hr Hr' E) as [-> ->].
Qed.

(** ** Items between commas *)

Fixpoint comma_tail (l : list string) : string :=
  match l with [] => EmptyString | s :: l' => String ","%char (String.append s (comma_tail l')) end.

Lemma join_comma_cons s l : join_comma (s :: l) = String.append s (comma_tail l).
Proof.
  revert s. induction l as [|t l IH]; intros s; [by rw append_nil_r|].
  change (join_comma (s :: t :: l)) with (String.append s (String ","%char (join_comma (t :: l)))).
  by rw IH.
Qed.

Definition prefix_free (t t' : string) : Prop := forall r r', stops r -> stops r' ->
  String.append t r = String.append t' r' -> t = t' /\ r = r'.

Lemma tail_prefix close l l' r r' : stops (String close EmptyString) -> close <> ","%char ->
  (forall t t', t ∈ l -> t' ∈ l' -> prefix_free t t') ->
  String.append (comma_tail l) (String close r) = String.append (comma_tail l') (String close r') ->
  l = l' /\ r = r'.
Proof.
  intros Hs Hc. assert (forall l r, stops (String.append (comma_tail l) (String close r))) as Ht
    by (intros [|]; done).
  revert l'. induction l as [|t l IH]; intros [|t' l'] Hf E; simpl comma_tail in E;
    rw ?append_nil ?str_append_cons in E.
  - by injection E as ->.
  - injection E as E _. by subst.
  - injection E as E _. by subst.
  - injection E as E. rw !append_assoc_r in E.
    apply (Hf t t') in E as [-> E]; [|by left|by left|apply Ht|apply Ht].
    apply IH in E as [-> ->]; [done|]. intros x y Hx Hy. apply Hf; by right.
Qed.

(** Equal texts of items up to the closing bracket. *)
Lemma items_prefix close l l' r r' : stops (String close EmptyString) -> close <> ","%char ->
  (forall t s, t ∈ l \/ t ∈ l' -> start_of (String.append t s) <> 0%nat) ->
  (forall t t', t ∈ l -> t' ∈ l' -> prefix_free t t') ->
  String.append (join_comma l) (String close r) = String.append (join_comma l') (String close r') ->
  l = l' /\ r = r'.
Proof.
  intros Hs Hc Hne Hf E. destruct l as [|t l], l' as [|t' l'].
  - by injection E as ->.
  - rw join_comma_cons append_assoc_r in E. destruct (Hne t' (String.append (comma_tail l') (String close r')));
      [right; by left|]. rw -E. done.
  - rw join_comma_cons append_assoc_r in E. destruct (Hne t (String.append (comma_tail l) (String close r)));
      [left; by left|]. rw E. done.
  - rw !join_comma_cons !append_assoc_r in E.
    assert (forall l r, stops (String.append (comma_tail l) (String close r))) as Ht by (intros [|]; done).
    apply (Hf t t') in E as [-> E]; [|by left|by left|apply Ht|apply Ht].
    apply tail_prefix in E as [-> ->]; try done. intros x y Hx Hy. apply Hf; by right.
Qed.

(** ** Values *)

(** The members of an object, sorted, as texts. *)
Definition object_members (ascii : bool) (f : list (string * json)) : list (string * string) :=
  sort_fields (map (fun '(k, v) => (k, dumps ascii v)) f).

Definition member_text (ascii : bool) (kv : string * string) : string :=
  String.append (dumps_string ascii kv.1) (String ":"%char kv.2).

Lemma dumps_obj ascii f : dumps ascii (JObj f) =
  String "{"%char (String.append (join_comma (map (member_text ascii) (object_members ascii f))) (String "}"%char EmptyString)).
Proof.
  change (dumps ascii (JObj f)) with (String "{"%char (String.append
    (join_comma (map (fun '(k, v) => String.append (dumps_string ascii k) (String ":"%char v)) (object_members ascii f)))
    (String "}"%char EmptyString))).
  do 3 f_equal. apply map_ext. by intros [].
Qed.

Lemma dumps_arr ascii l : dumps ascii (JArr l) =
  String "["%char (String.append (join_comma (map (dumps ascii) l)) (String "]"%char EmptyString)).
Proof. done. Qed.

Lemma insert_field_perm {A} k (v : A) l : insert_field k v l ≡ₚ (k, v) :: l.
Proof.
  induction l as [|[k' v'] l IH]; simpl; [done|]. destruct (string_leb k k'); [done|].
  rw IH. by apply perm_swap.
Qed.

Lemma sort_fields_perm {A} (l : list (string * A)) : sort_fields l ≡ₚ l.
Proof. induction l as [|[k v] l IH]; simpl; [done|]. by rw insert_field_perm IH. Qed.

Lemma object_members_elem ascii f kv : kv ∈ object_members ascii f ->
  exists j, (kv.1, j) ∈ f /\ kv.2 = dumps ascii j.
Proof.
  unfold object_members. rw sort_fields_perm. intros ([k v] & -> & H)%list_elem_of_fmap. by exists v.
Qed.

Lemma member_prefix ascii kv kv' : prefix_free kv.2 kv'.2 ->
  forall r r', stops r -> stops r' ->
  String.append (member_text ascii kv) r = String.append (member_text ascii kv') r' ->
  kv = kv' /\ r = r'.
Proof.
  destruct kv as [k v], kv' as [k' v']. unfold member_text. simpl. intros Hf r r' Hr Hr' E.
  rw !append_assoc_r in E. apply dumps_string_inj in E as [-> E]. rw !str_append_cons in E. injection E as E.
  apply Hf in E as [-> ->]; done.
Qed.

Lemma member_start ascii kv r : start_of (String.append (member_text ascii kv) r) <> 0%nat.
Proof. done. Qed.

Lemma member_text_inj ascii kv kv' : prefix_free kv.2 kv'.2 ->
  member_text ascii kv = member_text ascii kv' -> kv = kv'.
Proof.
  intros Hf E. apply (member_prefix ascii kv kv' Hf "" ""); [done|done|]. by rw E.
Qed.

Lemma members_text_inj ascii l l' : (forall x y, x ∈ l -> y ∈ l' -> prefix_free x.2 y.2) ->
  map (member_text ascii) l = map (member_text ascii) l' -> l = l'.
Proof.
  revert l'. induction l as [|x l IH]; intros [|y l'] Hf E; [done|done|done|].
  pose proof (f_equal (fun l => default ""%string (head l)) E) as E1. apply (f_equal tail) in E as E2.
  apply member_text_inj in E1 as ->; [|apply Hf; by left]. f_equal. apply IH; [|done].
  intros a b Ha Hb. apply Hf; by right.
Qed.

Lemma append_inj_l s r r' : String.append s r = String.append s r' -> r = r'.
Proof. induction s as [|c s IH]; [done|]. rw !str_append_cons. intros E. injection E as E. by apply IH. Qed.

(** [dumps_prefix]: the text of a value is not the beginning of the text of another. *)
Lemma dumps_prefix ascii j j' : prefix_free (dumps ascii j) (dumps ascii j').
Proof.
  revert j'. induction j as [|b|z|s|l IH|f IH] using json_nested; intros j' r r' Hr Hr' E;
    pose proof (f_equal start_of E) as K; rw !dumps_start in K.
  - destruct j' as [|[]|?|?|?|?]; try done. split; [done|]. by apply append_inj_l in E.
  - destruct b, j' as [|[]|?|?|?|?]; try done; (split; [done|]); by apply append_inj_l in E.
  - destruct j' as [|[]|z'|?|?|?]; try done.
    apply numeric_prefix in E as [E1 E2]; [done|apply pretty_numeric|apply pretty_numeric|done|done].
  - destruct j' as [|[]|?|s'|?|?]; try done. by apply dumps_string_inj in E as [-> ->].
  - destruct j' as [|[]|?|?|l'|?]; try done. rw !dumps_arr !str_append_cons !append_assoc_r in E |- *. injection E as E.
    apply items_prefix in E as [-> ->]; [done|done|done| |].
    + intros t s [(x & -> & _)%list_elem_of_fmap|(x & -> & _)%list_elem_of_fmap]; rw dumps_start; by destruct x as [|[]|?|?|?|?].
    + intros t t' (x & -> & Hx)%list_elem_of_fmap (y & -> & _)%list_elem_of_fmap. rw Forall_forall in IH. by apply IH.
  - destruct j' as [|[]|?|?|?|f']; try done. rw !dumps_obj !str_append_cons !append_assoc_r in E |- *. injection E as E.
    apply items_prefix in E as [-> ->]; [done|done|done| |].
    + intros t s [(x & -> & _)%list_elem_of_fmap|(x & -> & _)%list_elem_of_fmap]; apply member_start.
    + intros t t' (x & -> & Hx)%list_elem_of_fmap (y & -> & Hy)%list_elem_of_fmap.
      apply object_members_elem in Hx as (vx & Hx & Ex), Hy as (vy & Hy & Ey).
      intros r1 r2 H1 H2 E1. rw Forall_forall in IH.
      apply member_prefix in E1 as [-> ->]; [done| |done|done]. rw Ex Ey. by apply (IH _ Hx).
Qed.

Lemma dumps_arr_inj ascii l l' : dumps ascii (JArr l) = dumps ascii (JArr l') -> map (dumps ascii) l = map (dumps ascii) l'.
Proof.
  intros E. rw !dumps_arr in E. injection E as E. apply items_prefix in E as [? _]; try done.
  - intros t s [(x & -> & _)%list_elem_of_fmap|(x & -> & _)%list_elem_of_fmap]; rw dumps_start; by destruct x as [|[]|?|?|?|?].
  - intros t t' (x & -> & _)%list_elem_of_fmap (y & -> & _)%list_elem_of_fmap. apply dumps_prefix.
Qed.

Lemma dumps_obj_inj ascii f f' : dumps ascii (JObj f) = dumps ascii (JObj f') -> object_members ascii f = object_members ascii f'.
Proof.
  intros E. rw !dumps_obj in E. injection E as E.
  assert (forall x y, x ∈ object_members ascii f -> y ∈ object_members ascii f' -> prefix_free x.2 y.2) as Hf.
  { intros x y (vx & _ & ->)%object_members_elem (vy & _ & ->)%object_members_elem. apply dumps_prefix. }
  apply items_prefix in E as [E _]; [by apply members_text_inj in E|done|done| |].
  - intros t s [(x & -> & _)%list_elem_of_fmap|(x & -> & _)%list_elem_of_fmap]; apply member_start.
  - intros t t' (x & -> & Hx)%list_elem_of_fmap (y & -> & Hy)%list_elem_of_fmap r r' Hr Hr' E1.
    apply member_prefix in E1 as [-> ->]; [done|by apply Hf|done|done].
Qed.

(** ** Texts and Python's equality *)

Lemma dumps_str_inj ascii s s' : dumps ascii (JStr s) = dumps ascii (JStr s') -> s = s'.
Proof.
  intros E. apply (dumps_string_inj ascii s s' "" ""). by rw !append_nil_r.
Qed.

Lemma py_norm_obj f : py_norm (JObj f) = JObj (map (fun kv => (kv.1, py_norm kv.2)) (sort_fields f)).
Proof.
  rw -(sort_map py_norm). cbn [py_norm]. do 2 f_equal. apply map_ext. by intros [].
Qed.

Lemma object_members_map ascii f : object_members ascii f = map (fun kv => (kv.1, dumps ascii kv.2)) (sort_fields f).
Proof. rw -(sort_map (dumps ascii)). unfold object_members. f_equal. apply map_ext. by intros []. Qed.

(** [dumps_python]: values with the same text are equal for Python. *)
Lemma dumps_python ascii j j' : dumps ascii j = dumps ascii j' -> py_norm j = py_norm j'.
Proof.
  revert j'. induction j as [|b|z|s|l IH|f IH] using json_nested; intros j' E;
    pose proof (f_equal (fun t => start_of (String.append t "")) E) as K; rw !dumps_start in K.
  - by destruct j' as [|[]|?|?|?|?].
  - by destruct b, j' as [|[]|?|?|?|?].
  - destruct j' as [|[]|z'|?|?|?]; try done. apply (pretty_Z_inj z z') in E. by subst.
  - destruct j' as [|[]|?|s'|?|?]; try done. by apply dumps_str_inj in E as ->.
  - destruct j' as [|[]|?|?|l'|?]; try done. apply dumps_arr_inj in E. cbn [py_norm]. f_equal. clear K. revert l' E.
    induction IH as [|x l Hx _ IHl]; intros [|y l'] E; try done. injection E as E1 E2. cbn [map]. by rw (Hx y E1) (IHl l' E2).
  - destruct j' as [|[]|?|?|?|f']; try done. apply dumps_obj_inj in E. rw !py_norm_obj. f_equal.
    rw !object_members_map in E. assert (Forall (fun kv => forall j', dumps ascii kv.2 = dumps ascii j' ->
      py_norm kv.2 = py_norm j') (sort_fields f)) as IH' by (by rw sort_fields_perm).
    revert E. generalize (sort_fields f'). induction IH' as [|x l Hx _ IHl]; intros [|y l'] E; try done.
    injection E as E1 E2 E3. cbn [map]. by rw E1 (Hx _ E2) (IHl l' E3).
Qed.

Lemma message_text_python m m' : message_text m = message_text m' -> py_same m m'.
Proof. apply dumps_python. Qed.
