(* ===== verification/SafePoint.v ===== *)
(** * Reconstruction of a safe point
    (src/se/src/runtimes/agent/safe_point_reconstruction.py, with list_iterations,
    list_tool_calls and get_tool_result of AgentRepository)

    When the owner of a RUNNING execution is gone, what it had done is only known from the
    database.  The safe point is the transcript up to the active batch of tool calls, with the
    results that are committed and no others, the calls of that batch in their order, and the
    invocations of those calls that have no result yet.

    The tables are those of the waiting checkpoints with the columns they leave out:
    iterations, the iteration of a tool call, and the metadata of a checkpoint.  Tool calls and
    results are keyed by execution and call, as the tables' unique constraints have it, so a
    call is never found twice and a result that is found has the key it was asked for.  An error
    is the code in front of the colon of the message. *)

From S2P Require Import Prelude Canonical PythonValues ResumeTicket TaskBudgetSchema AgentStore TaskBudgetService.
From S2P Require Import TaskActivity Invocation InvocationStores ResumeClaimStore.
From S2P Require Import ResumeClaimConsume ResumePlanning Transcript WaitingCheckpoint.

(** ** Tables *)

Record IterationRow := {
  ir_id : string;
  ir_execution_id : string;
  ir_iteration : Z;
  ir_tool_call_ids : list string;
  ir_transcript : option (list json)
}.

Record RecoveryDB := {
  rv_wait : WaitDB;
  rv_iterations : gmap string IterationRow;
  rv_call_iteration : gmap (string * string) string;
  rv_metadata : gmap string (list (string * json))
}.

Definition rv_resume (db : RecoveryDB) : ResumeDB := wd_resume (rv_wait db).

(** ORDER BY iteration. *)
Definition list_iterations (db : RecoveryDB) (execution_id : string) : list IterationRow :=
  sort_by ir_iteration Z.ltb
    (List.filter (fun r => bool_decide (ir_execution_id r = execution_id))
       (map snd (map_to_list (rv_iterations db)))).

(** The tool call, when it belongs to the iteration. *)
Definition get_tool_call (db : RecoveryDB) (execution_id iteration_id call : string) : option ToolCallRow :=
  if bool_decide (rv_call_iteration db !! (execution_id, call) = Some iteration_id)
  then rd_tool_calls (rv_resume db) !! (execution_id, call) else None.

Definition get_tool_result (db : RecoveryDB) (execution_id call : string) : option ToolResultRow :=
  rd_tool_results (rv_resume db) !! (execution_id, call).

Definition e_transcript (e : ExecutionRow) : list json :=
  match dict_get "transcript" (json_fields (e_payload e)) with Some (JArr l) => l | _ => [] end.

(** ** Safe points *)

Record R7CSafePoint := {
  r7_transcript : list json;
  r7_iteration_number : Z;
  r7_iteration_id : option string;
  r7_tool_calls : list (string * ToolCallRow);
  r7_pending : list PendingRef;
  r7_checkpoint_id : option string;
  r7_checkpoint_revision : option Z
}.

Definition safe_some {A} (o : option A) (code : string) : result string A :=
  match o with Some a => Ok a | None => Err code end.

Definition as_message_dict (j : json) : result string (list (string * json)) :=
  match j with JObj f => Ok f | _ => Err "SAFE_POINT_TRANSCRIPT_CORRUPT" end.

(** ** The unresolved batch a transcript declares *)

Fixpoint declared_ids (declared : list string) (calls : list json) : result string (list string) :=
  match calls with
  | [] => Ok declared
  | j :: rest =>
      f ← as_message_dict j;
      let id := text_or_empty (dict_get "id" f) in
      _ ← guard_err (truthy id && negb (bool_decide (id ∈ declared))) "SAFE_POINT_ACTIVE_BATCH_AMBIGUOUS";
      declared_ids (declared ++ [id]) rest
  end%string.

Definition tool_calls_of (f : list (string * json)) : list json :=
  match dict_get "tool_calls" f with Some (JArr l) => l | _ => [] end.

(** [pending.remove(id)]: the first occurrence. *)
Fixpoint remove_first (id : string) (l : list string) : list string :=
  match l with
  | [] => []
  | x :: l' => if bool_decide (x = id) then l' else x :: remove_first id l'
  end.

Definition unresolved_step (pending : list string) (j : json) : result string (list string) :=
  f ← as_message_dict j;
  let role := text_or_empty (dict_get "role" f) in
  if bool_decide (role = "assistant") then
    match tool_calls_of f with
    | [] => Ok pending
    | calls =>
        _ ← guard_err (bool_decide (pending = [])) "SAFE_POINT_ACTIVE_BATCH_AMBIGUOUS";
        declared_ids [] calls
    end
  else if bool_decide (role = "tool") then
    let call := text_or_empty (dict_get "tool_call_id" f) in
    Ok (if bool_decide (call ∈ pending) then remove_first call pending else pending)
  else Ok pending.

Fixpoint unresolved_from (pending : list string) (messages : list json) : result string (list string) :=
  match messages with
  | [] => Ok pending
  | j :: rest => pending' ← unresolved_step pending j; unresolved_from pending' rest
  end.

Definition unresolved_declared_tool_call_ids (messages : list json) : result string (list string) :=
  unresolved_from [] messages.

(** ** The committed part of a transcript *)

(** A tool message is replaced by its committed result, or dropped. *)
Definition sanitize_message (db : RecoveryDB) (execution_id : string) (active : list string) (j : json)
    : result string (option json) :=
  f ← as_message_dict j;
  if negb (bool_decide (text_field f "role" = Some "tool"%string)) then Ok (Some j) else
  let call := text_or_empty (dict_get "tool_call_id" f) in
  if negb (truthy call) || bool_decide (call ∈ active) then Ok None else
  match get_tool_result db execution_id call with
  | Some r => Ok (if bool_decide (rs_commit_state r = COMMITTED_RESULT)
                  then Some (tool_message call r) else None)
  | None => Ok None
  end.

Fixpoint sanitize_messages (db : RecoveryDB) (execution_id : string) (active : list string) (l : list json)
    : result string (list json) :=
  match l with
  | [] => Ok []
  | j :: rest =>
      m ← sanitize_message db execution_id active j;
      kept ← sanitize_messages db execution_id active rest;
      Ok (match m with Some m => m :: kept | None => kept end)
  end.

Definition sanitize_transcript (db : RecoveryDB) (execution_id : string) (active : list string) (raw : list json)
    : result string (list json) :=
  sanitized ← sanitize_messages db execution_id active raw;
  _ ← safe_some (canonical_transcript_messages sanitized) "SAFE_POINT_TRANSCRIPT_CORRUPT";
  Ok sanitized.

(** ** The checkpoint the execution points at *)

(** What the current checkpoint says: its row, messages and metadata, whether it is the cut
    of this very revision, whether it freezes the batch of an earlier recovery, and the
    iteration it belongs to. *)
Record Cut := {
  cut_row : DurableExecutionCheckpoint;
  cut_messages : list json;
  cut_metadata : list (string * json);
  cut_current : bool;
  cut_authority : bool;
  cut_stale : bool;
  cut_initial : bool;
  cut_iteration : option IterationRow
}.

Definition cut_frozen (c : Cut) : bool := cut_authority c || cut_stale c.

Definition checkpoint_metadata (db : RecoveryDB) (id : string) : list (string * json) :=
  default [] (rv_metadata db !! id).

Definition FINGERPRINT_KEY : string := "r12_recovery_fingerprint".
Definition RECEIPT_KEY : string := "r12_recovery_receipt".
Definition ITERATION_KEY : string := "r12_recovery_iteration_id".
Definition BATCH_KEY : string := "r12_recovery_active_tool_call_ids".

Definition meta_truthy (m : list (string * json)) (key : string) : bool :=
  match dict_get key m with Some v => py_bool v | None => false end.

(** [dict.get]: an absent key and null are the same. *)
Definition meta_get (m : list (string * json)) (key : string) : option json :=
  match dict_get key m with Some JNull | None => None | Some v => Some v end.

Definition find_iteration (n : Z) (rows : list IterationRow) : option IterationRow :=
  List.find (fun r => ir_iteration r =? n) rows.

Section Reconstruction.
Context (digest : string -> string).

Definition read_cut (db : RecoveryDB) (e : ExecutionRow) (iterations : list IterationRow) (id : string)
    : result string Cut :=
  k ← safe_some (rd_checkpoints (rv_resume db) !! id) "SAFE_POINT_CHECKPOINT_MISSING";
  t ← safe_some (td_checkpoints (wd_transcripts (rv_wait db)) !! id) "SAFE_POINT_CHECKPOINT_MISSING";
  _ ← guard_err (bool_decide (ck_execution_id k = e_id e) && bool_decide (ck_session_id k = e_session_id e) &&
                 bool_decide (ck_task_id k = e_task_id e) && bool_decide (ck_branch_id k = e_branch_id e) &&
                 (ck_execution_revision k <=? e_revision e)) "SAFE_POINT_CHECKPOINT_LINEAGE_CONFLICT";
  let iteration := find_iteration (ck_iteration k) iterations in
  let metadata := checkpoint_metadata db id in
  let pointer := bool_decide (default "" (e_current_checkpoint_id e) = ck_id k) in
  let current := (ck_execution_revision k =? e_revision e) && pointer in
  let lineage := pointer && bool_decide (ck_wait_reason k = "RECOVERY") && meta_truthy metadata FINGERPRINT_KEY in
  let authority := current && lineage && bool_decide (e_state e = "WAITING") &&
                   bool_decide (default "" (e_wait_reason e) = "RECOVERY") in
  let stale := lineage && (ck_execution_revision k <? e_revision e) in
  let initial := bool_decide (iteration = None) && (ck_iteration k =? 0) && (authority || stale) in
  _ ← guard_err (bool_decide (is_Some iteration) || initial) "SAFE_POINT_CHECKPOINT_ITERATION_MISSING";
  materialized ← materialize_checkpoint_transcript digest (wd_transcripts (rv_wait db)) t;
  messages ← match kt_snapshot t with
             | Some snapshot =>
                 _ ← guard_err (bool_decide (length snapshot = length materialized))
                       "SAFE_POINT_TRANSCRIPT_CORRUPT";
                 Ok snapshot
             | None => Ok (map model_dump materialized)
             end;
  Ok {| cut_row := k; cut_messages := messages; cut_metadata := metadata; cut_current := current;
        cut_authority := authority; cut_stale := stale; cut_initial := initial; cut_iteration := iteration |}.

(** The iteration whose batch is active.  A frozen batch is the one the recovery named. *)
Definition active_iteration (cut : option Cut) (latest : option IterationRow)
    : result string (option IterationRow) :=
  match cut with
  | None => Ok latest
  | Some c =>
      _ ← guard_err (negb (cut_stale c && match latest with
                                          | Some r => ck_iteration (cut_row c) <? ir_iteration r
                                          | None => false
                                          end)) "SAFE_POINT_POST_RECOVERY_PROGRESS_UNPROVEN";
      if cut_frozen c then
        ids ← safe_some (match dict_get BATCH_KEY (cut_metadata c) with Some (JArr l) => Some l | _ => None end)
                "SAFE_POINT_RECOVERY_BATCH_SNAPSHOT_CORRUPT";
        match meta_get (cut_metadata c) ITERATION_KEY with
        | None =>
            _ ← guard_err ((ck_iteration (cut_row c) =? 0) && bool_decide (length ids = 0%nat))
                  "SAFE_POINT_RECOVERY_BATCH_SNAPSHOT_CORRUPT";
            Ok None
        | Some frozen =>
            match cut_iteration c with
            | Some r => if bool_decide (ir_id r = py_str frozen) then Ok (Some r)
                        else Err "SAFE_POINT_RECOVERY_BATCH_SNAPSHOT_CONFLICT"
            | None => Err "SAFE_POINT_RECOVERY_BATCH_SNAPSHOT_CONFLICT"
            end
        end
      else Ok (if cut_current c then cut_iteration c else latest)
  end.

(** The calls of the active batch, in order. *)
Definition active_batch (cut : option Cut) (active : option IterationRow) : result string (list string) :=
  match active with
  | None => Ok []
  | Some r =>
      ids ← match cut with
            | Some c =>
                if cut_frozen c then
                  match dict_get BATCH_KEY (cut_metadata c) with
                  | None => Err "SAFE_POINT_RECOVERY_BATCH_SNAPSHOT_MISSING"
                  | Some (JArr l) => Ok (map py_str l)
                  | Some _ => Err "SAFE_POINT_RECOVERY_BATCH_SNAPSHOT_CORRUPT"
                  end
                else Ok (ir_tool_call_ids r)
            | None => Ok (ir_tool_call_ids r)
            end;
      _ ← guard_err (forallb truthy ids && bool_decide (NoDup ids)) "SAFE_POINT_ACTIVE_BATCH_AMBIGUOUS";
      Ok ids
  end.

(** ** The slots of the active batch *)

(** The call of a slot, and its invocation when it has no committed result. *)
Definition batch_slot (db : RecoveryDB) (execution_id iteration_id : string) (require : bool) (ordinal : Z)
    (call : string) : result string ((string * ToolCallRow) * option PendingRef) :=
  row ← safe_some (get_tool_call db execution_id iteration_id call) "SAFE_POINT_TOOL_CALL_MISSING";
  _ ← guard_err (truthy (tc_invocation_id row) && truthy (tc_capability_id row)) "SAFE_POINT_TOOL_CALL_CONFLICT";
  let committed := match get_tool_result db execution_id call with
                   | Some r => if bool_decide (rs_commit_state r = COMMITTED_RESULT) then Some r else None
                   | None => None
                   end in
  match committed with
  | Some r =>
      _ ← guard_err (bool_decide (rs_invocation_id r = tc_invocation_id row) &&
                     bool_decide (rs_capability_id r = tc_capability_id row)) "SAFE_POINT_COMMITTED_RESULT_CONFLICT";
      Ok ((call, row), None)
  | None =>
      match rd_invocations (rv_resume db) !! tc_invocation_id row with
      | None => if require then Err "SAFE_POINT_INVOCATION_MISSING" else Ok ((call, row), None)
      | Some i =>
          _ ← guard_err (bool_decide (default "None" (iv_execution_id i) = execution_id) &&
                         bool_decide (default "None" (iv_tool_call_id i) = call) &&
                         bool_decide (iv_capability_id i = tc_capability_id row)) "SAFE_POINT_INVOCATION_CONFLICT";
          Ok ((call, row), Some {| rf_ordinal := ordinal; rf_invocation_id := iv_id i;
                                   rf_tool_call_id := call; rf_capability_id := iv_capability_id i |})
      end
  end%string.

Fixpoint batch_slots (db : RecoveryDB) (execution_id iteration_id : string) (require : bool) (ordinal : Z)
    (ids : list string) : result string (list (string * ToolCallRow) * list PendingRef) :=
  match ids with
  | [] => Ok ([], [])
  | call :: rest =>
      slot ← batch_slot db execution_id iteration_id require ordinal call;
      more ← batch_slots db execution_id iteration_id require (ordinal + 1) rest;
      Ok (slot.1 :: more.1, match slot.2 with Some ref => ref :: more.2 | None => more.2 end)
  end.

(** ** The transcript of the safe point *)

Definition is_current_cut (e : ExecutionRow) (c : Cut) : bool := ck_execution_revision (cut_row c) =? e_revision e.

Definition raw_source (e : ExecutionRow) (cut : option Cut) (latest : option IterationRow) : list json :=
  let messages := match cut with Some c => cut_messages c | None => [] end in
  if match cut with Some c => is_current_cut e c || cut_frozen c | None => false end then messages
  else match e_transcript e with
       | _ :: _ as l => l
       | [] => match latest ≫= ir_transcript with
               | Some (_ :: _ as l) => l
               | _ => messages
               end
       end.

(** The transcript of a RUNNING execution extends the one of its checkpoint. *)
Definition check_prefix (db : RecoveryDB) (e : ExecutionRow) (cut : option Cut) (active : list string)
    (safe : list json) : result string unit :=
  match cut with
  | Some c =>
      if ck_execution_revision (cut_row c) <? e_revision e then
        prefix ← sanitize_transcript db (e_id e) active (cut_messages c);
        canonical_safe ← safe_some (canonical_transcript_messages safe) "SAFE_POINT_TRANSCRIPT_CORRUPT";
        canonical_prefix ← safe_some (canonical_transcript_messages prefix) "SAFE_POINT_TRANSCRIPT_CORRUPT";
        guard_err ((length canonical_prefix <=? length canonical_safe)%nat &&
                   same_messages (take (length canonical_prefix) canonical_safe) canonical_prefix)
          "SAFE_POINT_TRANSCRIPT_DIVERGENCE"
      else Ok tt
  | None => Ok tt
  end.

(** What the transcript declares as unresolved is the active batch. *)
Definition check_membership (require : bool) (cut : option Cut) (active unresolved : list string)
    : result string unit :=
  let frozen := match cut with Some c => cut_frozen c | None => false end in
  let pinned := match cut with Some c => cut_current c || cut_initial c | None => false end in
  _ ← guard_err (negb (negb (bool_decide (active = [])) && (require || frozen)) ||
                 (forallb (fun x => bool_decide (x ∈ active)) unresolved &&
                  forallb (fun x => bool_decide (x ∈ unresolved)) active))
        "SAFE_POINT_ACTIVE_BATCH_MEMBERSHIP_MISMATCH";
  guard_err (negb ((require || frozen || pinned) && bool_decide (active = []) &&
                   negb (bool_decide (unresolved = [])))) "SAFE_POINT_ACTIVE_BATCH_AUTHORITY_MISSING".

Definition reconstruct_r7c_safe_point (db : RecoveryDB) (e : ExecutionRow) (require : bool)
    : result string R7CSafePoint :=
  _ ← guard_err (truthy (e_id e)) "SAFE_POINT_EXECUTION_INVALID";
  let iterations := list_iterations db (e_id e) in
  _ ← guard_err (bool_decide (NoDup (map ir_iteration iterations))) "SAFE_POINT_ITERATION_AMBIGUOUS";
  let latest := last iterations in
  cut ← (if is_text (e_current_checkpoint_id e)
         then c ← read_cut db e iterations (default "" (e_current_checkpoint_id e)); Ok (Some c)
         else Ok None);
  active ← active_iteration cut latest;
  ids ← active_batch cut active;
  slots ← match active with
          | Some r => batch_slots db (e_id e) (ir_id r) require 0 ids
          | None => Ok ([], [])
          end;
  safe ← sanitize_transcript db (e_id e) ids (raw_source e cut latest);
  unresolved ← unresolved_declared_tool_call_ids safe;
  _ ← check_membership require cut ids unresolved;
  _ ← check_prefix db e cut ids safe;
  Ok {| r7_transcript := safe;
        r7_iteration_number := match active with Some r => ir_iteration r | None => 0 end;
        r7_iteration_id := ir_id <$> active;
        r7_tool_calls := slots.1; r7_pending := slots.2;
        r7_checkpoint_id := (fun c => ck_id (cut_row c)) <$> cut;
        r7_checkpoint_revision := (fun c => ck_execution_revision (cut_row c)) <$> cut |}.
End Reconstruction.
