(* ===== verification/RecoveryCommit.v ===== *)
(** * Evacuation of an execution whose owner is gone
    (DurableAgentStore.commit_recovery_waiting_checkpoint and
    fail_expired_execution_unrecoverable of src/se/src/runtimes/agent/persistence.py, with the
    receipt and its fingerprint of safe_point_reconstruction.py)

    An execution that is RUNNING under an expired lease is moved, in one transaction, to
    WAITING(RECOVERY) at the reconstructed safe point, or to FAILED when there is none.  The
    lease that was observed is part of the request: the row must still be exactly that one.
    The receipt of the takeover is stored with the checkpoint (or in the context of the failed
    execution), so that a caller who lost the answer can be given it again.  Both methods are
    for executions outside of tasks.

    A transaction that raises is rolled back.  Datetimes inside a receipt are integers. *)

From S2P Require Import Prelude Canonical PythonValues ResumeTicket TaskBudgetSchema AgentStore TaskBudgetService.
From S2P Require Import TaskActivity ExecutionLease Invocation InvocationStores ResumeClaimStore.
From S2P Require Import ResumeClaimConsume ResumePlanning Transcript WaitingCheckpoint SafePoint.

Inductive RecoveryError :=
  | LeaseAuthorityConflict (code : string)
  | ExecutionConflict (safe_point : option string)  (** the code of the safe point error behind it *)
  | BudgetConflict (safe_point : option string)     (** a TaskBudgetConflictError, likewise *)
  | RecoveryValueError (message : string)
  | RecoveryRaised (what : string).

Definition with_wait (db : RecoveryDB) (w : WaitDB) : RecoveryDB :=
  {| rv_wait := w; rv_iterations := rv_iterations db; rv_call_iteration := rv_call_iteration db;
     rv_metadata := rv_metadata db |}.

Definition with_metadata (db : RecoveryDB) (id : string) (m : list (string * json)) : RecoveryDB :=
  {| rv_wait := rv_wait db; rv_iterations := rv_iterations db; rv_call_iteration := rv_call_iteration db;
     rv_metadata := <[id := m]> (rv_metadata db) |}.

Definition with_rows (db : RecoveryDB) (a : AgentDB) : RecoveryDB :=
  with_wait db {| wd_resume := with_agents (rv_resume db) a; wd_transcripts := wd_transcripts (rv_wait db) |}.

Definition rv_agents (db : RecoveryDB) : AgentDB := rd_agents (rv_resume db).

(** ** Receipts *)

Definition recovery_receipt_payload (execution_id : string) (source_revision : Z) (o : Observed)
    (expires_at takeover_now : Z) : json :=
  JObj [("execution_id", JStr execution_id); ("source_revision", JInt source_revision);
        ("target_revision", JInt (source_revision + 1)); ("target_state", JStr "WAITING");
        ("wait_reason", JStr "RECOVERY");
        ("checkpoint_id", JStr (checkpoint_identity execution_id (source_revision + 1)));
        ("observed_owner_instance_id", JStr (o_owner o));
        ("observed_lease_generation", JInt (o_generation o));
        ("observed_lease_expires_at", JInt expires_at); ("takeover_now_utc", JInt takeover_now)].

Definition recovery_safe_point_fingerprint (payload : json) : string := json_fingerprint payload.
#[global] Arguments recovery_safe_point_fingerprint : simpl never.

(** ** WAITING(RECOVERY) *)

Definition recovery_args (o : Observed) (observed_revision : option Z) : result RecoveryError (Z * Z) :=
  now ← match o_takeover_now o with
        | Utc t => Ok t
        | NotUtc => Err (RecoveryValueError "takeover_now_utc must be a timezone-aware UTC datetime")
        end;
  expiry ← match o_expires_at o with
           | Utc t => Ok t
           | NotUtc => Err (RecoveryValueError "observed_lease_expires_at must be a timezone-aware UTC datetime")
           end;
  _ ← guard_err (truthy (strip (o_owner o)))
        (RecoveryValueError "observed_owner_instance_id must be a non-empty string");
  _ ← guard_err (0 <? o_generation o) (RecoveryValueError "observed_lease_generation must be a positive integer");
  _ ← guard_err match observed_revision with Some r => 0 <=? r | None => true end
        (RecoveryValueError "observed_revision must be a non-negative integer");
  Ok (expiry, now).

(** The row is one that this takeover has left. *)
Definition taken_over (o : Observed) (observed_revision : option Z) (e : ExecutionRow) : bool :=
  bool_decide (e_state e = "WAITING") && bool_decide (e_wait_reason e = Some "RECOVERY"%string) &&
  bool_decide (e_owner_instance_id e = None) && bool_decide (e_lease_expires_at e = None) &&
  (e_lease_generation e =? o_generation o + 1) &&
  match observed_revision with Some r => e_revision e =? r + 1 | None => true end.

(** The stored checkpoint carries the receipt. *)
Definition receipt_stored (db : RecoveryDB) (execution_id : string) (target_revision : Z) (fingerprint : string)
    : bool :=
  let id := checkpoint_identity execution_id target_revision in
  match rd_checkpoints (rv_resume db) !! id with
  | Some k =>
      (ck_execution_revision k =? target_revision) && bool_decide (ck_execution_id k = execution_id) &&
      bool_decide (ck_wait_reason k = "RECOVERY") &&
      bool_decide (text_field (checkpoint_metadata db id) FINGERPRINT_KEY = Some fingerprint)
  | None => false
  end.

(** The row still is the lease that was observed, and it has expired. *)
Definition matches_observed (o : Observed) (expiry now : Z) (observed_revision : option Z) (e : ExecutionRow) : bool :=
  bool_decide (e_state e = "RUNNING") && bool_decide (e_owner_instance_id e = Some (o_owner o)) &&
  (e_lease_generation e =? o_generation o) && bool_decide (e_lease_expires_at e = Some expiry) &&
  (expiry <=? now) && match observed_revision with Some r => e_revision e =? r | None => true end.

Definition e_remaining (e : ExecutionRow) : option Seconds :=
  match dict_get "remaining_active_budget_seconds" (json_fields (e_payload e)) with
  | Some (JInt us) => Some (Finite us)
  | _ => None
  end.

Definition recovery_checkpoint (e : ExecutionRow) (source_revision : Z) (sp : R7CSafePoint) : CheckpointValues :=
  {| cv_checkpoint_id := checkpoint_identity (e_id e) (source_revision + 1);
     cv_execution_id := Some (e_id e); cv_execution_revision := Some (source_revision + 1);
     cv_session_id := Some (e_session_id e); cv_task_id := e_task_id e; cv_branch_id := e_branch_id e;
     cv_wait_reason := Some "RECOVERY"%string; cv_parent_checkpoint_id := None;
     cv_iteration := r7_iteration_number sp; cv_remaining := e_remaining e; cv_wait_expires_at := None;
     cv_origin_client_id := e_column e "bound_client_id";
     cv_origin_connection_id := e_column e "bound_connection_id";
     cv_snapshot := Some (r7_transcript sp); cv_transcript_ref := None; cv_transcript_version := None;
     cv_trace_id := None; cv_request_id := None |}.

Definition recovery_metadata (fingerprint : string) (payload : json) (sp : R7CSafePoint) : list (string * json) :=
  [(FINGERPRINT_KEY, JStr fingerprint); (RECEIPT_KEY, payload);
   (ITERATION_KEY, text_or_null (r7_iteration_id sp));
   (BATCH_KEY, JArr (map JStr (map fst (r7_tool_calls sp))))].

Definition recovery_transition (e : ExecutionRow) : ExecValues :=
  [SetExecState "WAITING"; SetWaitReason (Some "RECOVERY"%string); SetWaitExpiresAt None;
   SetColumns [("remaining_active_budget_seconds",
                default JNull (dict_get "remaining_active_budget_seconds" (json_fields (e_payload e))));
               ("bound_connection_id", JNull)]%string;
   SetCompletedAt None].

(** After a staged row collided and the transaction was rolled back: the answer of the
    takeover that won, if it had the same receipt. *)
Definition competing_recovery (db : RecoveryDB) (execution_id : string) (source_revision : Z) (o : Observed)
    (fingerprint : string) : result RecoveryError (RecoveryDB * ExecutionRow) :=
  match get_execution (rv_agents db) execution_id with
  | Some r =>
      if taken_over o (Some source_revision) r &&
         bool_decide (e_current_checkpoint_id r = Some (checkpoint_identity execution_id (source_revision + 1))) &&
         receipt_stored db execution_id (source_revision + 1) fingerprint
      then Ok (db, r)
      else Err (LeaseAuthorityConflict "RECOVERY_TAKEOVER_REJECTED")
  | None => Err (LeaseAuthorityConflict "RECOVERY_TAKEOVER_REJECTED")
  end.

Section Commit.
Context (digest : string -> string).

(** The row waits for this takeover already. *)
Definition replay_recovery (db : RecoveryDB) (execution_id : string) (e : ExecutionRow) (o : Observed)
    (expiry now : Z) : result RecoveryError (RecoveryDB * ExecutionRow) :=
  let source := e_revision e - 1 in
  let fingerprint := recovery_safe_point_fingerprint (recovery_receipt_payload execution_id source o expiry now) in
  _ ← guard_err (bool_decide (e_current_checkpoint_id e = Some (checkpoint_identity execution_id (e_revision e))))
        (LeaseAuthorityConflict "RECOVERY_REPLAY_MISMATCH");
  _ ← guard_err (receipt_stored db execution_id (e_revision e) fingerprint)
        (LeaseAuthorityConflict "RECOVERY_REPLAY_MISMATCH");
  Ok (db, e).

(** The fenced compare-and-set of the staged row. *)
Definition publish_recovery (db : RecoveryDB) (execution_id : string) (source : Z) (o : Observed) (staged : ExecValues)
    : result RecoveryError (RecoveryDB * ExecutionRow) :=
  match compare_and_set_recovery_waiting_execution (rv_agents db) execution_id source o staged with
  | Err (LeaseValueError m) => Err (RecoveryValueError m)
  | Err (LeaseStoreFailure _) => Err (RecoveryRaised "IntegrityError")
  | Ok (_, None) => Err (LeaseAuthorityConflict "RECOVERY_TAKEOVER_REJECTED")
  | Ok (a, Some record) =>
      _ ← guard_err (bool_decide (e_current_checkpoint_id record =
                                    Some (checkpoint_identity execution_id (source + 1))) &&
                     (e_revision record =? source + 1) && (e_lease_generation record =? o_generation o + 1))
            (ExecutionConflict None);
      Ok (with_rows db a, record)
  end.

(** A takeover of a row that matches: reconstruct, stage, publish. *)
Definition take_over (clock : Z) (others : RecoveryDB -> RecoveryDB) (db : RecoveryDB) (execution_id : string)
    (e : ExecutionRow) (o : Observed) (expiry now : Z) : result RecoveryError (RecoveryDB * ExecutionRow) :=
  let source := e_revision e in
  let payload := recovery_receipt_payload execution_id source o expiry now in
  let fingerprint := recovery_safe_point_fingerprint payload in
  sp ← match reconstruct_r7c_safe_point digest db e true with
       | Ok sp => Ok sp
       | Err code => Err (ExecutionConflict (Some code))
       end;
  let v := recovery_checkpoint e source sp in
  match stage_waiting_checkpoint digest clock e source (recovery_transition e) v (r7_pending sp) (rv_wait db) with
  | Err WaitIntegrity => competing_recovery (others db) execution_id source o fingerprint
  | Err (WaitConflict _) => Err (ExecutionConflict None)
  | Err (WaitRaised what) => Err (RecoveryRaised what)
  | Ok (w, staged) =>
      publish_recovery (with_metadata (with_wait db w) (cv_checkpoint_id v) (recovery_metadata fingerprint payload sp))
        execution_id source o staged
  end.

(** [clock] is the time of the writes; [others] what other transactions commit before a
    rolled back one reads again. *)
Definition commit_recovery_waiting_checkpoint (clock : Z) (others : RecoveryDB -> RecoveryDB) (db : RecoveryDB)
    (execution_id : string) (o : Observed) (observed_revision : option Z)
    : result RecoveryError (RecoveryDB * ExecutionRow) :=
  '(expiry, now) ← recovery_args o observed_revision;
  match get_execution (rv_agents db) execution_id with
  | None => Err (LeaseAuthorityConflict "RECOVERY_TAKEOVER_REJECTED")
  | Some e =>
      _ ← guard_err (bool_decide (e_task_id e = None)) (ExecutionConflict None);
      if taken_over o observed_revision e then replay_recovery db execution_id e o expiry now
      else
        _ ← guard_err (matches_observed o expiry now observed_revision e)
              (LeaseAuthorityConflict "RECOVERY_TAKEOVER_REJECTED");
        take_over clock others db execution_id e o expiry now
  end.
End Commit.

(** ** FAILED *)

Definition TERMINAL_RECEIPT_KEY : string := "r12_h1a_terminal_receipt_v1".

Definition terminal_receipt (execution_id : string) (source_revision : Z) (o : Observed) (expires_at takeover_now : Z)
    (reason_code : string) : json :=
  JObj [("execution_id", JStr execution_id); ("source_revision", JInt source_revision);
        ("target_revision", JInt (source_revision + 1)); ("target_state", JStr "FAILED");
        ("reason_code", JStr reason_code); ("observed_owner_instance_id", JStr (o_owner o));
        ("observed_lease_generation", JInt (o_generation o));
        ("observed_lease_expires_at", JInt expires_at); ("takeover_now_utc", JInt takeover_now)].

(** [dict(execution.context_state or {})]. *)
Definition e_context_state (e : ExecutionRow) : list (string * json) :=
  match dict_get "context_state" (json_fields (e_payload e)) with Some (JObj f) => f | _ => [] end.

(** Equality of JSON values is equality of their canonical texts. *)

Definition failed_before (e : ExecutionRow) (source_revision : Z) (o : Observed) (reason_code : string) (receipt : json)
    : bool :=
  bool_decide (e_state e = "FAILED") && (e_revision e =? source_revision + 1) &&
  bool_decide (default "" (e_error e) = String.append "R12_STALE_RECOVERY_UNRECOVERABLE:" reason_code) &&
  bool_decide (e_owner_instance_id e = None) && bool_decide (e_lease_expires_at e = None) &&
  (e_lease_generation e =? o_generation o + 1) &&
  match meta_get (e_context_state e) TERMINAL_RECEIPT_KEY with Some r => py_eq r receipt | None => false end.

(** Its callers pass UTC instants. *)
Definition fail_expired_execution_unrecoverable (db : RecoveryDB) (execution_id : string) (source_revision : Z)
    (owner : string) (generation expiry now : Z) (reason_code : string)
    : result RecoveryError (RecoveryDB * ExecutionRow) :=
  let o := {| o_owner := owner; o_generation := generation; o_expires_at := Utc expiry; o_takeover_now := Utc now |} in
  _ ← guard_err (0 <=? source_revision) (RecoveryValueError "source_revision must be a non-negative integer");
  _ ← guard_err (reason_token reason_code) (RecoveryValueError "reason_code must be a non-empty token");
  match get_execution (rv_agents db) execution_id with
  | None => Err (LeaseAuthorityConflict "RECOVERY_TERMINAL_REJECTED")
  | Some e =>
      _ ← guard_err (bool_decide (e_task_id e = None)) (ExecutionConflict None);
      let receipt := terminal_receipt execution_id source_revision o expiry now reason_code in
      if failed_before e source_revision o reason_code receipt then Ok (db, e)
      else
        _ ← guard_err (matches_observed o expiry now (Some source_revision) e)
              (LeaseAuthorityConflict "RECOVERY_TERMINAL_REJECTED");
        _ ← guard_err match meta_get (e_context_state e) TERMINAL_RECEIPT_KEY with
                      | Some r => py_eq r receipt
                      | None => true
                      end (ExecutionConflict None);
        match compare_and_set_expired_execution_terminal (rv_agents db) execution_id source_revision o reason_code
                (Some (JObj (dict_set TERMINAL_RECEIPT_KEY receipt (e_context_state e)))) with
        | Err (LeaseValueError m) => Err (RecoveryValueError m)
        | Err (LeaseStoreFailure _) => Err (RecoveryRaised "IntegrityError")
        | Ok (_, None) => Err (LeaseAuthorityConflict "RECOVERY_TERMINAL_REJECTED")
        | Ok (a, Some record) => Ok (with_rows db a, record)
        end
  end.
