(* ===== verification/TaskRecovery.v ===== *)
(** * Evacuation of an execution that belongs to a task
    (TaskBudgetService.recover_task_scoped_execution and
    fail_unrecoverable_task_scoped_execution of src/se/src/runtimes/agent/task_budget.py)

    The execution of a task occupies capacity of the task's budget.  Its takeover gives the
    capacity back in the transaction that moves it to WAITING(RECOVERY), or to FAILED: the
    budget, the checkpoint, the execution and a RELEASE_EXECUTION reservation, whose fingerprint
    is that of the receipt, are written together.

    An attempt is one transaction; a lost compare-and-set, a collision and a locked database make
    the loop try again, on what other transactions have left meanwhile.  A commit may take
    effect and still raise.  Instants in receipts are integers. *)

From S2P Require Import Prelude Canonical ResumeTicket TaskBudgetSchema AgentStore TaskBudgetService.
From S2P Require Import TaskActivity ExecutionLease Invocation InvocationStores ResumeClaimStore.
From S2P Require Import ResumeClaimConsume ResumePlanning Transcript WaitingCheckpoint SafePoint RecoveryCommit.

(** Why an attempt does not return: it raises, or the loop continues. *)
Inductive TaskFailure := Refuse (e : RecoveryError) | Again.

Definition conflict {A} : result TaskFailure A := Err (Refuse (BudgetConflict None)).
Definition require_task (b : bool) : result TaskFailure unit :=
  if b then Ok tt else conflict.

(** Errors of the budget functions as this service raises them. *)
Definition lift_budget {A} (r : result TBError A) : result TaskFailure A :=
  match r with
  | Ok a => Ok a
  | Err (StoreFailure IntegrityError) => Err Again
  | Err e => if is_conflict e then conflict else Err (Refuse (RecoveryRaised "TaskBudgetError"))
  end.

(** ** Arguments, receipts *)

Definition task_recovery_args (task_id execution_id : string) (o : Observed) (observed_revision : option Z)
    : result RecoveryError (Z * Z) :=
  _ ← guard_err (truthy task_id && truthy execution_id)
        (RecoveryValueError "task_id and execution_id must be non-empty");
  _ ← guard_err (truthy (strip (o_owner o)))
        (RecoveryValueError "observed_owner_instance_id must be a non-empty string");
  _ ← guard_err (0 <? o_generation o) (RecoveryValueError "observed_lease_generation must be a positive integer");
  expiry ← match o_expires_at o with
           | Utc t => Ok t
           | NotUtc => Err (RecoveryValueError "observed_lease_expires_at must be a timezone-aware UTC datetime")
           end;
  now ← match o_takeover_now o with
        | Utc t => Ok t
        | NotUtc => Err (RecoveryValueError "takeover_now_utc must be a timezone-aware UTC datetime")
        end;
  _ ← guard_err match observed_revision with Some r => 0 <=? r | None => true end
        (RecoveryValueError "observed_revision must be a non-negative integer");
  Ok (expiry, now).

(** [{**payload, "delegated": delegated}]. *)
Definition delegated_receipt (payload : json) (delegated : bool) : json :=
  JObj (json_fields payload ++ [("delegated"%string, JBool delegated)]).

Definition release_fingerprint (execution_id : string) (target_revision : Z) (payload : json) (delegated : bool)
    : string :=
  reservation_fingerprint RELEASE_EXECUTION (revision_key execution_id target_revision)
    (delegated_receipt payload delegated).

(** ** What both transactions do first and last *)

(** The execution, its budget row, and the incarnation that the loop is bound to. *)
Definition read_task_execution (db : RecoveryDB) (task_id execution_id : string) (expected : option Z)
    : result TaskFailure (ExecutionRow * BudgetRow) :=
  match get_execution (rv_agents db) execution_id with
  | Some e =>
      _ ← require_task (bool_decide (default "" (e_task_id e) = task_id));
      match get_task_budget (rv_agents db) task_id with
      | Some row => _ ← require_task (generation_matches expected (row_generation row)); Ok (e, row)
      | None => Err (Refuse (RecoveryRaised "TaskBudgetRequiredError"))
      end
  | None => conflict
  end.

Definition get_release (db : RecoveryDB) (task_id execution_id : string) (target_revision generation : Z)
    : option ReservationRow :=
  get_task_budget_reservation (rv_agents db) task_id RELEASE_EXECUTION (revision_key execution_id target_revision)
    (Some generation).

(** The reservation of a transaction that committed before carries the fingerprint. *)
Definition verify_release (db : RecoveryDB) (task_id execution_id : string) (target_revision generation : Z)
    (fingerprint : string) : result TaskFailure unit :=
  match get_release db task_id execution_id target_revision generation with
  | Some existing => lift_budget (verify_reservation existing fingerprint)
  | None => conflict
  end.

(** Capacity is given back; [Again] when the compare-and-set lost. *)
Definition release_capacity (db : RecoveryDB) (task_id : string) (row : BudgetRow) (delegated : bool)
    : result TaskFailure RecoveryDB :=
  budget ← lift_budget (budget_from_record row);
  values ← lift_budget (mutate_release delegated budget);
  cas ← lift_budget (lift_store (compare_and_set_task_budget (rv_agents db) task_id (tb_revision budget) values
          (Some (row_generation row))));
  match cas with
  | (a, Some _) => Ok (with_rows db a)
  | (_, None) => Err Again
  end.

Definition save_release (db : RecoveryDB) (task_id execution_id : string) (target_revision generation : Z)
    (fingerprint : string) : result TaskFailure RecoveryDB :=
  a ← lift_budget (lift_store (save_task_budget_reservation (rv_agents db) task_id RELEASE_EXECUTION
        (revision_key execution_id target_revision) fingerprint (Some generation)));
  Ok (with_rows db a).

(** A fenced compare-and-set of the execution. *)
Definition take_row (db : RecoveryDB) (r : LeaseResult) : result TaskFailure RecoveryDB :=
  match r with
  | Ok (a, Some _) => Ok (with_rows db a)
  | Ok (_, None) => Err Again
  | Err (LeaseValueError m) => Err (Refuse (RecoveryValueError m))
  | Err (LeaseStoreFailure IntegrityError) => Err Again
  | Err (LeaseStoreFailure _) => Err (Refuse (RecoveryRaised "RuntimeError"))
  end.

(** ** WAITING(RECOVERY) *)

Section Recover.
Context (digest : string -> string).

Definition stage_recovery (clock : Z) (db : RecoveryDB) (e : ExecutionRow) (fingerprint : string) (payload : json)
    (sp : R7CSafePoint) : result TaskFailure (RecoveryDB * ExecValues) :=
  let v := recovery_checkpoint e (e_revision e) sp in
  match stage_waiting_checkpoint digest clock e (e_revision e) (recovery_transition e) v (r7_pending sp) (rv_wait db) with
  | Ok (w, staged) =>
      Ok (with_metadata (with_wait db w) (cv_checkpoint_id v) (recovery_metadata fingerprint payload sp), staged)
  | Err WaitIntegrity => Err Again
  | Err (WaitConflict _) => conflict
  | Err (WaitRaised what) => Err (Refuse (RecoveryRaised what))
  end.

(** The transaction of one attempt: the database it commits and the revision it returns. *)
Definition recover_transaction (clock : Z) (db : RecoveryDB) (task_id execution_id : string) (e : ExecutionRow)
    (row : BudgetRow) (o : Observed) (expiry now : Z) (observed_revision : option Z)
    : result TaskFailure (RecoveryDB * Z) :=
  let g := row_generation row in
  let delegated := bool_decide (is_Some (e_parent_execution_id e)) in
  if taken_over o observed_revision e then
    let target := e_revision e in
    let payload := recovery_receipt_payload execution_id (target - 1) o expiry now in
    _ ← require_task (bool_decide (e_current_checkpoint_id e = Some (checkpoint_identity execution_id target)));
    _ ← verify_release db task_id execution_id target g (release_fingerprint execution_id target payload delegated);
    _ ← require_task (receipt_stored db execution_id target (recovery_safe_point_fingerprint payload));
    Ok (db, target)
  else
    _ ← require_task (matches_observed o expiry now observed_revision e);
    let target := e_revision e + 1 in
    let payload := recovery_receipt_payload execution_id (e_revision e) o expiry now in
    _ ← require_task (bool_decide (get_release db task_id execution_id target g = None));
    sp ← match reconstruct_r7c_safe_point digest db e true with
         | Ok sp => Ok sp
         | Err code => Err (Refuse (BudgetConflict (Some code)))
         end;
    db1 ← release_capacity db task_id row delegated;
    '(db2, staged) ← stage_recovery clock db1 e (recovery_safe_point_fingerprint payload) payload sp;
    db3 ← take_row db2 (compare_and_set_recovery_waiting_execution (rv_agents db2) execution_id (e_revision e) o staged);
    db4 ← save_release db3 task_id execution_id target g (release_fingerprint execution_id target payload delegated);
    Ok (db4, target).

(** ** FAILED *)

Definition failed_by (o : Observed) (source_revision : Z) (reason_code : string) (e : ExecutionRow) : bool :=
  bool_decide (e_state e = "FAILED") && (e_revision e =? source_revision + 1) &&
  bool_decide (default "" (e_error e) = String.append "R12_STALE_RECOVERY_UNRECOVERABLE:" reason_code) &&
  bool_decide (e_owner_instance_id e = None) && bool_decide (e_lease_expires_at e = None) &&
  (e_lease_generation e =? o_generation o + 1).

Definition fail_transaction (db : RecoveryDB) (task_id execution_id : string) (e : ExecutionRow) (row : BudgetRow)
    (o : Observed) (expiry now source_revision : Z) (reason_code : string) : result TaskFailure (RecoveryDB * Z) :=
  let g := row_generation row in
  let target := source_revision + 1 in
  let delegated := bool_decide (is_Some (e_parent_execution_id e)) in
  let fingerprint := release_fingerprint execution_id target
                       (terminal_receipt execution_id source_revision o expiry now reason_code) delegated in
  if failed_by o source_revision reason_code e then
    _ ← verify_release db task_id execution_id target g fingerprint;
    Ok (db, target)
  else
    _ ← require_task (matches_observed o expiry now (Some source_revision) e);
    _ ← require_task (bool_decide (get_release db task_id execution_id target g = None));
    db1 ← release_capacity db task_id row delegated;
    db2 ← take_row db1 (compare_and_set_expired_execution_terminal (rv_agents db1) execution_id source_revision o
                          reason_code None);
    db3 ← save_release db2 task_id execution_id target g fingerprint;
    Ok (db3, target).
End Recover.

(** ** The loops *)

(** What an attempt meets: the transactions of others before it, a fault on the way, one at
    the commit, and the clock of its writes. *)
Record TaskAttempt := {
  ta_before : RecoveryDB -> RecoveryDB;
  ta_fault : option DbFault;
  ta_commit_fault : option StepFault;
  ta_clock : Z
}.

(** The database after an attempt, with its answer, or the incarnation for the next one. *)
Abbreviation AttemptEnd := (RecoveryDB * (result RecoveryError Z + option Z))%type.

Definition operational (db : RecoveryDB) (f : DbFault) (generation : option Z) : AttemptEnd :=
  match f with
  | LockedOrBusy => (db, inr generation)
  | OtherOperational => (db, inl (Err (RecoveryRaised "OperationalError")))
  end.

Definition task_attempt (a : TaskAttempt) (db : RecoveryDB) (task_id execution_id : string) (expected : option Z)
    (transaction : ExecutionRow -> BudgetRow -> RecoveryDB -> result TaskFailure (RecoveryDB * Z)) : AttemptEnd :=
  let db := ta_before a db in
  match ta_fault a with
  | Some f => operational db f expected
  | None =>
      match read_task_execution db task_id execution_id expected with
      | Err (Refuse e) => (db, inl (Err e))
      | Err Again => (db, inr expected)
      | Ok (e, row) =>
          let generation := Some (row_generation row) in
          match transaction e row db with
          | Err (Refuse x) => (db, inl (Err x))
          | Err Again => (db, inr generation)
          | Ok (db', revision) =>
              match ta_commit_fault a with
              | None => (db', inl (Ok revision))
              | Some (RolledBack f) => operational db f generation
              | Some (Unacknowledged f) => operational db' f generation
              end
          end
      end
  end.

Fixpoint task_loop (fuel : nat) (envs : nat -> TaskAttempt) (db : RecoveryDB) (task_id execution_id : string)
    (expected : option Z) (transaction : Z -> ExecutionRow -> BudgetRow -> RecoveryDB -> result TaskFailure (RecoveryDB * Z))
    : RecoveryDB * result RecoveryError Z :=
  match fuel with
  | O => (db, Err (BudgetConflict None))
  | S fuel' =>
      match task_attempt (envs O) db task_id execution_id expected (transaction (ta_clock (envs O))) with
      | (db', inl answer) => (db', answer)
      | (db', inr generation) =>
          task_loop fuel' (fun n => envs (S n)) db' task_id execution_id generation transaction
      end
  end.

Definition recover_task_scoped_execution (digest : string -> string) (cfg : ServiceConfig) (envs : nat -> TaskAttempt)
    (db : RecoveryDB) (task_id execution_id : string) (o : Observed) (observed_revision : option Z)
    : RecoveryDB * result RecoveryError Z :=
  match task_recovery_args task_id execution_id o observed_revision with
  | Err e => (db, Err e)
  | Ok (expiry, now) =>
      task_loop (attempts cfg) envs db task_id execution_id None
        (fun clock e row db => recover_transaction digest clock db task_id execution_id e row o expiry now observed_revision)
  end.

Definition fail_unrecoverable_task_scoped_execution (cfg : ServiceConfig) (envs : nat -> TaskAttempt)
    (db : RecoveryDB) (task_id execution_id : string) (source_revision : Z) (o : Observed) (reason_code : string)
    : RecoveryDB * result RecoveryError Z :=
  match
    (_ ← guard_err (truthy task_id && truthy execution_id)
           (RecoveryValueError "task_id and execution_id must be non-empty");
     _ ← guard_err (0 <=? source_revision) (RecoveryValueError "source_revision must be a non-negative integer");
     _ ← guard_err (reason_token reason_code) (RecoveryValueError "reason_code must be a non-empty token");
     task_recovery_args task_id execution_id o None)
  with
  | Err e => (db, Err e)
  | Ok (expiry, now) =>
      task_loop (attempts cfg) envs db task_id execution_id None
        (fun _ e row db => fail_transaction db task_id execution_id e row o expiry now source_revision reason_code)
  end.
