(* ===== verification/SafePointProperties.v ===== *)
(** * Properties of safe points
    (files SafePoint and Transcript)

    What a safe point contains, and that it does not depend on how its transcript is written:
    messages with the same canonical texts declare the same unresolved calls, and the committed
    part of a committed transcript is that transcript again. *)

From S2P Require Import Prelude Canonical PythonValues CanonicalInjectivity ResumeTicket TaskBudgetSchema AgentStore TaskBudgetService.
From S2P Require Import TaskActivity Invocation InvocationStores ResumeClaimStore.
From S2P Require Import ResumeClaimConsume ResumePlanning Transcript TranscriptProperties.
From S2P Require Import WaitingCheckpoint SafePoint.

(** ** Unresolved calls, from the shape of the messages *)

Fixpoint declared_texts (declared calls : list string) : result string (list string) :=
  match calls with
  | [] => Ok declared
  | id :: rest =>
      _ ← guard_err (truthy id && negb (bool_decide (id ∈ declared))) "SAFE_POINT_ACTIVE_BATCH_AMBIGUOUS"%string;
      declared_texts (declared ++ [id]) rest
  end.

Definition shape_step (pending : list string) (role : string) (call : option string) (calls : list string)
    : result string (list string) :=
  if bool_decide (role = "assistant") then
    match calls with
    | [] => Ok pending
    | _ => _ ← guard_err (bool_decide (pending = [])) "SAFE_POINT_ACTIVE_BATCH_AMBIGUOUS"; declared_texts [] calls
    end
  else if bool_decide (role = "tool") then
    Ok (if bool_decide (default "" call ∈ pending) then remove_first (default "" call) pending else pending)
  else Ok pending.

Lemma text_or_empty_str s : text_or_empty (Some (JStr s)) = s.
Proof. by destruct s. Qed.

Lemma validate_tool_call_id j c : validate_tool_call j = Some c ->
  exists f, j = JObj f /\ text_or_empty (dict_get "id" f) = tcl_id c.
Proof.
  intros H. destruct j as [| | | | |f]; try done. exists f. split; [done|]. unfold validate_tool_call in H.
  destruct (only_keys _ _); [|done]. unfold text_field in H. destruct (dict_get "id" f) as [[| | |s| |]|]; try done.
  destruct (match dict_get "name" f with Some _ => _ | None => _ end); [|done].
  destruct (dict_field f "arguments"); [|done]. simpl in H. injection H as <-. by rw text_or_empty_str.
Qed.

Lemma declared_ids_texts l calls : mapM validate_tool_call l = Some calls ->
  forall declared, declared_ids declared l = declared_texts declared (map tcl_id calls).
Proof.
  revert calls. induction l as [|j l IH]; intros calls H declared; simpl in H; [by injection H as <-|].
  destruct (validate_tool_call j) as [c|] eqn:Ec; [|done]. simpl in H.
  destruct (mapM validate_tool_call l) as [cs|] eqn:El; [|done]. injection H as <-.
  apply validate_tool_call_id in Ec as (f & -> & Ei). simpl. rw Ei.
  destruct (guard_err _ _); [|done]. simpl. by apply IH.
Qed.

(** What validation keeps of a message. *)
Lemma model_validate_inv j m : model_validate j = Some m ->
  exists f, j = JObj f /\ text_field f "role" = Some (im_role m) /\
    text_or_empty (dict_get "role" f) = im_role m /\
    text_or_empty (dict_get "tool_call_id" f) = default ""%string (im_tool_call_id m) /\
    mapM validate_tool_call (tool_calls_of f) = Some (im_tool_calls m).
Proof.
  intros H. destruct j as [| | | | |f]; try done. exists f. split; [done|]. unfold model_validate in H.
  destruct (only_keys _ _); [|done]. unfold text_field in *.
  destruct (dict_get "role" f) as [[| | |s| |]|] eqn:Er; try done. simpl in H.
  destruct (validate_tool_calls f) as [calls|] eqn:Et; [|done]. simpl in H.
  destruct (optional_text f "name"); [|done]. simpl in H.
  destruct (optional_text f "tool_call_id") as [c|] eqn:Eo; [|done]. simpl in H.
  destruct (dict_field f "metadata"); [|done]. injection H as <-. simpl im_role. rw text_or_empty_str.
  split_and!; [done|done| |].
  - unfold optional_text in Eo. destruct (dict_get "tool_call_id" f) as [[| | |t| |]|]; try done;
      injection Eo as <-; [done|by rw text_or_empty_str|done].
  - unfold validate_tool_calls in Et. unfold tool_calls_of.
    destruct (dict_get "tool_calls" f) as [[| | | |lj|]|]; done.
Qed.

Lemma unresolved_step_shape pending j m : model_validate j = Some m ->
  unresolved_step pending j = shape_step pending (im_role m) (im_tool_call_id m) (map tcl_id (im_tool_calls m)).
Proof.
  intros (f & -> & _ & Er & Ec & Et)%model_validate_inv. unfold unresolved_step, shape_step. simpl. rw Er Ec.
  destruct (bool_decide (im_role m = "assistant")); [|done].
  destruct (tool_calls_of f) as [|c l] eqn:El; [by injection Et as <-|].
  pose proof (declared_ids_texts _ _ Et) as D.
  destruct (im_tool_calls m) as [|x xs] eqn:Ex.
  { simpl in Et. destruct (validate_tool_call c); [|done]. simpl in Et. by destruct (mapM validate_tool_call l). }
  destruct (guard_err (bool_decide (pending = [])) _); [|done]. exact (D []).
Qed.

Lemma mapM_nil_inv {A B} (f : A -> option B) l : mapM f l = Some [] -> l = [].
Proof. destruct l as [|a l]; [done|]. simpl. destruct (f a); [|done]. simpl. by destruct (mapM f l). Qed.

Lemma mapM_cons_inv {A B} (f : A -> option B) l y ys : mapM f l = Some (y :: ys) ->
  exists a l', l = a :: l' /\ f a = Some y /\ mapM f l' = Some ys.
Proof.
  destruct l as [|a l]; [done|]. simpl. destruct (f a) as [y'|] eqn:E; [|done]. simpl.
  destruct (mapM f l) as [ys'|] eqn:E2; [|done]. intros [= -> ->]. by exists a, l.
Qed.

(** What two messages that are equal for Python share. *)
Record same_shape (m m' : InferenceMessage) : Prop := {
  ss_role : im_role m = im_role m';
  ss_call : im_tool_call_id m = im_tool_call_id m';
  ss_calls : map tcl_id (im_tool_calls m) = map tcl_id (im_tool_calls m')
}.

Lemma python_shape m m' : py_same m m' -> same_shape m m'.
Proof.
  unfold py_same. simpl. intros H. injection H as _ _ _ Hr Hc Ht. split; [done| |].
  - destruct (im_tool_call_id m), (im_tool_call_id m'); simpl in Hc; congruence.
  - revert Ht. generalize (im_tool_calls m), (im_tool_calls m'). clear. intros l l'. rw !map_map. revert l'.
    induction l as [|c l IH]; intros [|c' l'] H; try done. simpl in H. injection H as _ Hi _ H. simpl. by rw Hi (IH l' H).
Qed.

(** Transcripts that are equal for Python declare the same unresolved calls. *)
Lemma unresolved_same l l' m m' : canonical_transcript_messages l = Some m -> canonical_transcript_messages l' = Some m' ->
  same_content m m' -> forall pending, unresolved_from pending l = unresolved_from pending l'.
Proof.
  unfold canonical_transcript_messages. intros Hm Hm' E. revert l l' Hm Hm'.
  induction E as [|x x' xs xs' Ex _ IH]; intros l l' Hm Hm' pending.
  - apply mapM_nil_inv in Hm, Hm'. by subst.
  - apply mapM_cons_inv in Hm as (j & l0 & -> & Ej & El), Hm' as (j' & l0' & -> & Ej' & El').
    apply python_shape in Ex as [R C S]. simpl.
    rw (unresolved_step_shape _ _ _ Ej) (unresolved_step_shape _ _ _ Ej') R C S.
    destruct (shape_step _ _ _ _); [|done]. by apply IH.
Qed.

(** ** The committed part of a transcript *)

Definition committed_result (db : RecoveryDB) (execution_id call : string) (r : ToolResultRow) : Prop :=
  get_tool_result db execution_id call = Some r /\ rs_commit_state r = COMMITTED_RESULT.

(** What sanitising keeps: messages that are not of tools, as they are, and the committed
    results of calls outside of the active batch. *)
Definition safe_item (db : RecoveryDB) (execution_id : string) (active : list string) (j : json) : Prop :=
  (exists f, j = JObj f /\ text_field f "role" <> Some "tool"%string) \/
  (exists call r, j = tool_message call r /\ truthy call = true /\ (call ∉ active) /\
     committed_result db execution_id call r).

Lemma sanitize_message_ok db execution_id active j m :
  sanitize_message db execution_id active j = Ok (Some m) ->
  safe_item db execution_id active m /\ (m = j \/ exists call r, m = tool_message call r).
Proof.
  unfold sanitize_message. destruct j as [| | | | |f]; try done. simpl.
  destruct (bool_decide _) eqn:Er; simpl.
  - destruct (truthy _) eqn:Et; simpl; [|done]. destruct (bool_decide (_ ∈ active)) eqn:Ea; [done|].
    destruct (get_tool_result _ _ _) as [r|] eqn:Eg; [|done].
    destruct (bool_decide (rs_commit_state r = _)) eqn:Ec; [|done]. intros H. injection H as <-.
    apply bool_decide_eq_true in Ec. apply bool_decide_eq_false in Ea.
    split; right; eexists _, r; [by split_and!|done].
  - intros H. injection H as <-. split; [|by left]. left. exists f. split; [done|]. by apply bool_decide_eq_false in Er.
Qed.

Lemma sanitize_messages_ok db execution_id active raw safe :
  sanitize_messages db execution_id active raw = Ok safe ->
  Forall (safe_item db execution_id active) safe /\
  Forall (fun m => m ∈ raw \/ exists call r, m = tool_message call r) safe.
Proof.
  revert safe. induction raw as [|j raw IH]; intros safe H; simpl in H; [by injection H as <-|].
  apply bind_ok in H as (m & Hm & H). apply bind_ok in H as (kept & Hk & H). injection H as <-.
  destruct (IH _ Hk) as [F1 F2].
  assert (Forall (fun m => m ∈ j :: raw \/ exists call r, m = tool_message call r) kept) as F3
    by (eapply Forall_impl; [exact F2|]; intros x [Hx|Hx]; [left; by right|by right]).
  destruct m as [m|]; [|done]. apply sanitize_message_ok in Hm as [Hs Hm]. split; constructor; try done.
  destruct Hm as [->|Hm]; [left; by left|by right].
Qed.

Lemma sanitize_transcript_ok db execution_id active raw safe :
  sanitize_transcript db execution_id active raw = Ok safe ->
  sanitize_messages db execution_id active raw = Ok safe /\
  exists l, canonical_transcript_messages safe = Some l.
Proof.
  unfold sanitize_transcript. intros H. apply bind_ok in H as (s & Hs & H). apply bind_ok in H as (l & Hl & H).
  injection H as <-. split; [done|]. destruct (canonical_transcript_messages s); [|done]. eauto.
Qed.

Lemma validate_tool_message call r m : model_validate (tool_message call r) = Some m ->
  im_role m = "tool"%string /\ im_tool_call_id m = Some call.
Proof.
  unfold tool_message, model_validate. cbn. destruct (rs_success r); intros H; injection H as <-; done.
Qed.

(** A canonical message that is equal to a safe item for Python is kept, as itself or as the
    committed result it stands for. *)
Lemma resanitize_message db db' execution_id active j m m' :
  (forall call, get_tool_result db' execution_id call = get_tool_result db execution_id call) ->
  safe_item db execution_id active j -> model_validate j = Some m -> py_same m' m ->
  exists j' m'', sanitize_message db' execution_id active (model_dump m') = Ok (Some j') /\
    model_validate j' = Some m'' /\ py_same m'' m.
Proof.
  intros Hres Hs Hm Htext. destruct (python_shape _ _ Htext) as [Hrole Hcall _].
  destruct Hs as [(f & -> & Hf)|(call & r & -> & Ht & Ha & Hr & Hc)].
  - apply model_validate_inv in Hm as (f' & [= <-] & Hr & _).
    exists (model_dump m'), m'. split_and!; [|apply model_roundtrip|done].
    unfold sanitize_message. simpl. rw bool_decide_eq_false_2; [|done]. unfold text_field. simpl. rw Hrole. congruence.
  - destruct (validate_tool_message _ _ _ Hm) as [E1 E2]. exists (tool_message call r), m.
    split_and!; [|done|done]. unfold sanitize_message. simpl. unfold text_field. simpl.
    rw Hrole E1 Hcall E2. simpl. rw -/(text_or_empty (Some (JStr call))) text_or_empty_str Ht bool_decide_eq_false_2 //=.
    by rw Hres Hr bool_decide_eq_true_2.
Qed.

Lemma resanitize db db' execution_id active safe l l' :
  (forall call, get_tool_result db' execution_id call = get_tool_result db execution_id call) ->
  Forall (safe_item db execution_id active) safe -> canonical_transcript_messages safe = Some l ->
  same_content l' l ->
  exists safe' l'', sanitize_transcript db' execution_id active (map model_dump l') = Ok safe' /\
    canonical_transcript_messages safe' = Some l'' /\ same_content l'' l.
Proof.
  intros Hres Hs Hl E.
  assert (exists safe' l'', sanitize_messages db' execution_id active (map model_dump l') = Ok safe' /\
    canonical_transcript_messages safe' = Some l'' /\ same_content l'' l) as (safe' & l'' & H1 & H2 & H3).
  { unfold canonical_transcript_messages in *. revert safe Hs Hl.
    induction E as [|m' m l' l Em _ IH]; intros safe Hs Hl.
    { apply mapM_nil_inv in Hl as ->. by exists [], []. }
    apply mapM_cons_inv in Hl as (j & safe0 & -> & Ej & Hl). apply Forall_cons in Hs as [Hj Hs].
    destruct (resanitize_message db db' execution_id active j m m' Hres Hj Ej Em) as (j' & m'' & S1 & S2 & S3).
    destruct (IH _ Hs Hl) as (safe' & l'' & S4 & S5 & S6).
    exists (j' :: safe'), (m'' :: l''). simpl. rw S1 /= S4 /= S2 /= S5. split_and!; [done|done|by constructor]. }
  exists safe', l''. split_and!; [|done|done]. unfold sanitize_transcript. by rw H1 /= H2.
Qed.

(** ** The slots of a batch *)

Record same_batch_tables (db db' : RecoveryDB) : Prop := {
  sb_calls : rd_tool_calls (rv_resume db') = rd_tool_calls (rv_resume db);
  sb_results : rd_tool_results (rv_resume db') = rd_tool_results (rv_resume db);
  sb_store : rd_store (rv_resume db') = rd_store (rv_resume db);
  sb_iterations : rv_iterations db' = rv_iterations db;
  sb_call_iteration : rv_call_iteration db' = rv_call_iteration db
}.

Lemma batch_slots_same db db' execution_id iteration_id require ids : same_batch_tables db db' ->
  forall ordinal, batch_slots db' execution_id iteration_id require ordinal ids =
    batch_slots db execution_id iteration_id require ordinal ids.
Proof.
  intros [E1 E2 E3 E4 E5]. induction ids as [|call ids IH]; intros ordinal; [done|]. simpl.
  unfold batch_slot, get_tool_call, get_tool_result, rd_invocations. rw E1 E2 E3 E5. by rw IH.
Qed.

(** A slot: the call of the iteration, with its own committed result or its own invocation. *)
Record slot_ok (db : RecoveryDB) (execution_id iteration_id : string) (call : string) (row : ToolCallRow)
    (ref : option PendingRef) (ordinal : Z) : Prop := {
  so_call : get_tool_call db execution_id iteration_id call = Some row;
  so_settled : ref = None -> exists r, committed_result db execution_id call r /\
    rs_invocation_id r = tc_invocation_id row /\ rs_capability_id r = tc_capability_id row;
  so_open : forall p, ref = Some p -> (forall r, ~ committed_result db execution_id call r) /\
    exists i, rd_invocations (rv_resume db) !! tc_invocation_id row = Some i /\
      default "None"%string (iv_execution_id i) = execution_id /\ default "None"%string (iv_tool_call_id i) = call /\
      iv_capability_id i = tc_capability_id row /\
      p = {| rf_ordinal := ordinal; rf_invocation_id := iv_id i; rf_tool_call_id := call;
             rf_capability_id := iv_capability_id i |}
}.

Lemma batch_slot_ok db execution_id iteration_id ordinal call out :
  batch_slot db execution_id iteration_id true ordinal call = Ok out ->
  out.1.1 = call /\ slot_ok db execution_id iteration_id call out.1.2 out.2 ordinal.
Proof.
  unfold batch_slot. intros H. apply bind_ok in H as (row & Hrow & H).
  destruct (get_tool_call _ _ _ _) as [row'|] eqn:Ec; [|done]. injection Hrow as ->.
  apply bind_ok in H as ([] & _ & H).
  destruct (get_tool_result db execution_id call) as [r|] eqn:Er.
  - destruct (bool_decide (rs_commit_state r = COMMITTED_RESULT)) eqn:Es.
    + apply bind_ok in H as ([] & Hg & H). injection H as <-. unfold guard_err in Hg.
      destruct (_ && _) eqn:Eg; [|done]. apply andb_true_iff in Eg as [G1%bool_decide_eq_true G2%bool_decide_eq_true].
      apply bool_decide_eq_true in Es. split; [done|]. split; [done| |done]. intros _. by exists r.
    + apply bool_decide_eq_false in Es.
      destruct (rd_invocations _ !! _) as [i|] eqn:Ei; [|done].
      apply bind_ok in H as ([] & Hg & H). injection H as <-. unfold guard_err in Hg.
      destruct (_ && _) eqn:Eg; [|done]. breflect. split; [done|]. split; [done|done|]. simpl.
      intros p [= <-]. split; [|by exists i]. intros r' [Hr' Hc']. rw Er in Hr'. by injection Hr' as <-.
  - destruct (rd_invocations _ !! _) as [i|] eqn:Ei; [|done].
    apply bind_ok in H as ([] & Hg & H). injection H as <-. unfold guard_err in Hg.
    destruct (_ && _) eqn:Eg; [|done]. breflect. split; [done|]. split; [done|done|]. simpl.
    intros p [= <-]. split; [|by exists i]. intros r' [Hr' Hc']. by rw Er in Hr'.
Qed.

(** The slots of a batch that starts at an ordinal. *)
Record slots_ok (db : RecoveryDB) (execution_id iteration_id : string) (ordinal : Z) (ids : list string)
    (calls : list (string * ToolCallRow)) (refs : list PendingRef) : Prop := {
  sl_ids : map fst calls = ids;
  sl_calls : forall call row, (call, row) ∈ calls ->
    exists ref k, slot_ok db execution_id iteration_id call row ref k /\ (forall p, ref = Some p -> p ∈ refs);
  sl_refs : forall p, p ∈ refs -> exists k row, ids !! k = Some (rf_tool_call_id p) /\
    rf_ordinal p = ordinal + Z.of_nat k /\
    slot_ok db execution_id iteration_id (rf_tool_call_id p) row (Some p) (rf_ordinal p);
  sl_sorted : StronglySorted Z.lt (map rf_ordinal refs)
}.

Lemma batch_slots_ok db execution_id iteration_id ids : forall ordinal out,
  batch_slots db execution_id iteration_id true ordinal ids = Ok out ->
  slots_ok db execution_id iteration_id ordinal ids out.1 out.2.
Proof.
  induction ids as [|call ids IH]; intros ordinal out H; simpl in H.
  { injection H as <-. split; [done|intros c r Hc; by apply elem_of_nil in Hc|intros p Hp; by apply elem_of_nil in Hp|constructor]. }
  apply bind_ok in H as (slot & Hs & H). apply bind_ok in H as (more & Hm & H). injection H as <-.
  apply batch_slot_ok in Hs as [Ei Hs]. apply IH in Hm as [M1 M2 M3 M4]. destruct slot as [[c row] ref]. simpl in *. subst c.
  assert (forall p, p ∈ more.2 -> exists k row, (call :: ids) !! k = Some (rf_tool_call_id p) /\
    rf_ordinal p = ordinal + Z.of_nat k /\
    slot_ok db execution_id iteration_id (rf_tool_call_id p) row (Some p) (rf_ordinal p)) as M3'.
  { intros p (k & row' & H1 & H2 & H3)%M3. exists (S k), row'. split_and!; [done|lia|done]. }
  split.
  - simpl. by rw M1.
  - intros c r [[= -> ->]|Hc]%elem_of_cons.
    + exists ref, ordinal. split; [done|]. intros p ->. by left.
    + destruct (M2 _ _ Hc) as (ref' & k & H1 & H2). exists ref', k. split; [done|]. intros p Hp.
      destruct ref; [right|]; by apply H2.
  - intros p Hp. destruct ref as [q|]; [|by apply M3'].
    apply elem_of_cons in Hp as [->|Hp]; [|by apply M3'].
    destruct (so_open _ _ _ _ _ _ _ Hs _ eq_refl) as (_ & i & _ & _ & _ & _ & E).
    subst q. exists 0%nat, row. split_and!; [done|simpl; lia|done].
  - destruct ref as [q|]; [|done]. simpl. constructor; [done|].
    apply Forall_forall. intros z (p & -> & Hp)%list_elem_of_fmap.
    destruct (M3 p Hp) as (k & _ & _ & E1 & _).
    destruct (so_open _ _ _ _ _ _ _ Hs _ eq_refl) as (_ & i & _ & _ & _ & _ & E). rw E E1. simpl. lia.
Qed.

Section Reconstructed.
Context (digest : string -> string).

(** The steps of a reconstruction that succeeded. *)
Record reconstructed (db : RecoveryDB) (e : ExecutionRow) (require : bool) (cut : option Cut)
    (active : option IterationRow) (ids unresolved : list string) (sp : R7CSafePoint) : Prop := {
  rc_id : truthy (e_id e) = true;
  rc_iterations : NoDup (map ir_iteration (list_iterations db (e_id e)));
  rc_cut : (if is_text (e_current_checkpoint_id e)
            then c ← read_cut digest db e (list_iterations db (e_id e)) (default "" (e_current_checkpoint_id e));
                 Ok (Some c)
            else Ok None) = Ok cut;
  rc_active : active_iteration cut (last (list_iterations db (e_id e))) = Ok active;
  rc_ids : active_batch cut active = Ok ids;
  rc_slots : match active with
             | Some r => batch_slots db (e_id e) (ir_id r) require 0 ids
             | None => Ok ([], [])
             end = Ok (r7_tool_calls sp, r7_pending sp);
  rc_safe : sanitize_transcript db (e_id e) ids (raw_source e cut (last (list_iterations db (e_id e)))) =
            Ok (r7_transcript sp);
  rc_unresolved : unresolved_declared_tool_call_ids (r7_transcript sp) = Ok unresolved;
  rc_membership : check_membership require cut ids unresolved = Ok tt;
  rc_prefix : check_prefix db e cut ids (r7_transcript sp) = Ok tt;
  rc_number : r7_iteration_number sp = match active with Some r => ir_iteration r | None => 0 end;
  rc_iteration : r7_iteration_id sp = ir_id <$> active
}.

Lemma reconstruct_inv db e require sp : reconstruct_r7c_safe_point digest db e require = Ok sp ->
  exists cut active ids unresolved, reconstructed db e require cut active ids unresolved sp.
Proof.
  unfold reconstruct_r7c_safe_point. intros H.
  apply bind_ok in H as ([] & H1%guard_ok & H). apply bind_ok in H as ([] & H2%guard_ok%bool_decide_eq_true & H).
  apply bind_ok in H as (cut & H3 & H). apply bind_ok in H as (active & H4 & H).
  apply bind_ok in H as (ids & H5 & H). apply bind_ok in H as ([calls refs] & H6 & H).
  apply bind_ok in H as (safe & H7 & H). apply bind_ok in H as (unresolved & H8 & H).
  apply bind_ok in H as ([] & H9 & H). apply bind_ok in H as ([] & H10 & H). injection H as <-.
  exists cut, active, ids, unresolved. by split.
Qed.

Lemma reconstruct_intro db e require cut active ids unresolved sp :
  reconstructed db e require cut active ids unresolved sp ->
  r7_checkpoint_id sp = (fun c => ck_id (cut_row c)) <$> cut ->
  r7_checkpoint_revision sp = (fun c => ck_execution_revision (cut_row c)) <$> cut ->
  reconstruct_r7c_safe_point digest db e require = Ok sp.
Proof.
  intros [H1 H2 H3 H4 H5 H6 H7 H8 H9 H10 H11 H12] H13 H14. unfold reconstruct_r7c_safe_point.
  rw H1. cbn [guard_err mbind result_bind]. rw bool_decide_eq_true_2; [done|]. cbn [guard_err mbind result_bind].
  rw H3. cbn [mbind result_bind]. rw H4. cbn [mbind result_bind]. rw H5. cbn [mbind result_bind].
  rw H6. cbn [mbind result_bind]. rw H7. cbn [mbind result_bind]. rw H8. cbn [mbind result_bind].
  rw H9. cbn [mbind result_bind]. rw H10. cbn [mbind result_bind]. rw -H11 -H12 -H13 -H14. by destruct sp.
Qed.

Lemma active_batch_ok cut active ids : active_batch cut active = Ok ids -> forallb truthy ids = true /\ NoDup ids.
Proof.
  unfold active_batch. destruct active as [r|]; intros H; [|injection H as <-; split; [done|constructor]].
  apply bind_ok in H as (ids' & _ & H). apply bind_ok in H as ([] & Hg%guard_ok & H). injection H as <-.
  apply andb_true_iff in Hg as [? ?%bool_decide_eq_true]. done.
Qed.

Lemma active_batch_none cut ids : active_batch cut None = Ok ids -> ids = [].
Proof. intros H. by injection H as <-. Qed.

Lemma forallb_subset (l r : list string) : forallb (fun x => bool_decide (x ∈ r)) l = true <-> (forall x, x ∈ l -> x ∈ r).
Proof.
  rw forallb_forall. split; intros H x Hx; [apply list_elem_of_In, H in Hx; by apply bool_decide_eq_true in Hx|].
  apply bool_decide_eq_true. apply H. by apply list_elem_of_In.
Qed.

Lemma membership_ok cut ids unresolved : check_membership true cut ids unresolved = Ok tt ->
  forall x, x ∈ unresolved <-> x ∈ ids.
Proof.
  unfold check_membership. intros H. apply bind_ok in H as ([] & H1%guard_ok & H2%guard_ok).
  simpl in H1, H2. destruct (decide (ids = [])) as [->|Hne].
  - destruct unresolved; [done|]. done.
  - rw bool_decide_eq_false_2 in H1; [done|]. simpl in H1. apply andb_true_iff in H1 as [A B].
    rw forallb_subset in A. rw forallb_subset in B. intros x. split; auto.
Qed.

Lemma read_cut_iteration db e iterations id c : read_cut digest db e iterations id = Ok c ->
  cut_iteration c = find_iteration (ck_iteration (cut_row c)) iterations.
Proof.
  unfold read_cut. intros H. apply bind_ok in H as (k & _ & H). apply bind_ok in H as (t & _ & H).
  apply bind_ok in H as ([] & _ & H). apply bind_ok in H as ([] & _ & H). apply bind_ok in H as (l & _ & H).
  apply bind_ok in H as (m & _ & H). by injection H as <-.
Qed.

Lemma find_iteration_elem n rows r : find_iteration n rows = Some r -> r ∈ rows /\ ir_iteration r = n.
Proof. intros [H1 H2%Z.eqb_eq]%List.find_some. by rw list_elem_of_In. Qed.

Lemma find_iteration_unique rows r : NoDup (map ir_iteration rows) -> r ∈ rows ->
  find_iteration (ir_iteration r) rows = Some r.
Proof.
  unfold find_iteration. induction rows as [|x rows IH]; intros Hn Hr; [by apply elem_of_nil in Hr|]. simpl in *.
  apply NoDup_cons in Hn as [Hx Hn]. apply elem_of_cons in Hr as [->|Hr]; [by rw Z.eqb_refl|].
  destruct (Z.eqb_spec (ir_iteration x) (ir_iteration r)) as [E|_]; [|by apply IH].
  destruct Hx. rw E. apply list_elem_of_fmap. eauto.
Qed.

(** The active iteration is one of the execution. *)
Lemma active_elem db e require cut active ids unresolved sp r :
  reconstructed db e require cut active ids unresolved sp -> active = Some r -> r ∈ list_iterations db (e_id e).
Proof.
  intros [_ _ Hc Ha _ _ _ _ _ _ _ _] ->. set (iterations := list_iterations db (e_id e)) in *.
  assert (forall x, last iterations = Some x -> x ∈ iterations) as Hl.
  { intros x (l & ->)%last_Some. apply elem_of_app. right. by left. }
  unfold active_iteration in Ha. destruct cut as [c|]; [|injection Ha as Ha; by apply Hl].
  assert (forall x, cut_iteration c = Some x -> x ∈ iterations) as Hi.
  { intros x Hx. destruct (is_text _); [|done]. apply bind_ok in Hc as (c' & Hc & E). injection E as ->.
    rw (read_cut_iteration _ _ _ _ _ Hc) in Hx. by apply find_iteration_elem in Hx as [? _]. }
  apply bind_ok in Ha as ([] & _ & Ha). destruct (cut_frozen c).
  - apply bind_ok in Ha as (l & _ & Ha). destruct (meta_get _ _) as [v|].
    + destruct (cut_iteration c) as [x|]; [|done]. destruct (bool_decide _); [|done]. injection Ha as <-. by apply Hi.
    + by apply bind_ok in Ha as ([] & _ & Ha).
  - injection Ha as Ha. destruct (cut_current c); auto.
Qed.

(** The execution points at a checkpoint that an earlier recovery has stored. *)
Definition recovery_cut (db : RecoveryDB) (e : ExecutionRow) (k : DurableExecutionCheckpoint) : Prop :=
  exists id, e_current_checkpoint_id e = Some id /\ truthy id = true /\
    rd_checkpoints (rv_resume db) !! id = Some k /\ ck_id k = id /\
    ck_wait_reason k = "RECOVERY"%string /\ meta_truthy (checkpoint_metadata db id) FINGERPRINT_KEY = true.

Lemma read_cut_lineage db e iterations id c :
  e_current_checkpoint_id e = Some id -> truthy id = true -> read_cut digest db e iterations id = Ok c ->
  cut_metadata c = checkpoint_metadata db id /\ rd_checkpoints (rv_resume db) !! id = Some (cut_row c) /\
  (cut_frozen c = true -> recovery_cut db e (cut_row c)) /\
  (recovery_cut db e (cut_row c) -> ck_execution_revision (cut_row c) < e_revision e -> cut_frozen c = true).
Proof.
  intros He Ht. unfold read_cut. intros H. apply bind_ok in H as (k & Hk & H). apply bind_ok in H as (t & _ & H).
  apply bind_ok in H as ([] & _ & H). apply bind_ok in H as ([] & _ & H). apply bind_ok in H as (l & _ & H).
  apply bind_ok in H as (m & _ & H). injection H as <-. unfold safe_some in Hk.
  destruct (rd_checkpoints (rv_resume db) !! id) as [k'|] eqn:Ek; [|done]. injection Hk as ->.
  unfold cut_frozen. rw He. simpl. split; [done|]. split; [done|]. split.
  - intros [Hf|Hf]%orb_true_iff; breflect; by exists id.
  - intros (id' & He' & _ & _ & Hi & Hw & Hm) Hlt. rw He' in He. injection He as ->.
    apply orb_true_iff. right. rw Hi Hw Hm. rw !bool_decide_eq_true_2 //=. lia.
Qed.

(** The order of the batch: that of the iteration, or the one a recovery has frozen. *)
Definition batch_authority (db : RecoveryDB) (e : ExecutionRow) (sp : R7CSafePoint) (ids : list string) : Prop :=
  match r7_iteration_id sp with
  | None => ids = []
  | Some it => exists row, row ∈ list_iterations db (e_id e) /\ ir_id row = it /\
      r7_iteration_number sp = ir_iteration row /\
      ((ids = ir_tool_call_ids row /\
        forall k, recovery_cut db e k -> e_revision e <= ck_execution_revision k) \/
       exists k l, recovery_cut db e k /\
         dict_get BATCH_KEY (checkpoint_metadata db (ck_id k)) = Some (JArr l) /\ ids = map py_str l)
  end.

Lemma reconstructed_authority db e require cut active ids unresolved sp :
  reconstructed db e require cut active ids unresolved sp -> batch_authority db e sp ids.
Proof.
  intros R. unfold batch_authority. rw (rc_iteration _ _ _ _ _ _ _ _ R).
  destruct active as [row|]; simpl; [|pose proof (rc_ids _ _ _ _ _ _ _ _ R) as H; by apply active_batch_none in H].
  exists row. split; [by eapply active_elem|]. split; [done|].
  split; [by apply (rc_number _ _ _ _ _ _ _ _ R)|].
  pose proof (rc_ids _ _ _ _ _ _ _ _ R) as Hids. pose proof (rc_cut _ _ _ _ _ _ _ _ R) as Hc.
  unfold active_batch in Hids. apply bind_ok in Hids as (ids' & Hi & H). apply bind_ok in H as ([] & _ & H).
  injection H as ->. destruct (is_text (e_current_checkpoint_id e)) eqn:Et.
  - destruct (e_current_checkpoint_id e) as [id|] eqn:He; [|done]. simpl in Et, Hc.
    apply bind_ok in Hc as (c & Hc & E). injection E as <-.
    destruct (read_cut_lineage _ _ _ _ _ He Et Hc) as (Hm & Hk & Hf & Hf').
    destruct (cut_frozen c) eqn:Efz.
    + right. destruct (Hf eq_refl) as (id' & He' & Hr). rw He in He'. injection He' as <-.
      rw Hm in Hi. destruct (dict_get BATCH_KEY _) as [[| | | |l|]|] eqn:Eb; try done. injection Hi as <-.
      exists (cut_row c), l. split; [by exists id|]. destruct Hr as (_ & _ & -> & _). done.
    + left. injection Hi as <-. split; [done|]. intros k (id' & He' & ? & Hk' & Hr). rw He in He'. injection He' as <-.
      rw Hk in Hk'. injection Hk' as <-. apply Z.le_ngt. intros Hlt.
      discriminate (Hf' (ex_intro _ id (conj He (conj Et (conj Hk Hr)))) Hlt).
  - left. injection Hc as <-. injection Hi as <-. split; [done|].
    intros k (id & He & Ht & _). rw He in Et. simpl in Et. congruence.
Qed.

(** The same safe point, its transcript with the same canonical messages. *)
Record same_safe_point (sp sp' : R7CSafePoint) : Prop := {
  sa_number : r7_iteration_number sp' = r7_iteration_number sp;
  sa_iteration : r7_iteration_id sp' = r7_iteration_id sp;
  sa_calls : r7_tool_calls sp' = r7_tool_calls sp;
  sa_pending : r7_pending sp' = r7_pending sp;
  sa_transcript : exists l l', canonical_transcript_messages (r7_transcript sp) = Some l /\
    canonical_transcript_messages (r7_transcript sp') = Some l' /\ same_content l' l
}.

(** The rows that a recovery leaves for the safe point [sp] of [e]: the execution [r] waits
    for recovery at the checkpoint [k], whose transcript reads as [l]. *)
Record frozen_at (db : RecoveryDB) (e r : ExecutionRow) (sp : R7CSafePoint) (k : DurableExecutionCheckpoint)
    (t : CheckpointTranscript) (l : list InferenceMessage) : Prop := {
  fz_id : e_id r = e_id e /\ e_session_id r = e_session_id e /\ e_task_id r = e_task_id e /\ e_branch_id r = e_branch_id e;
  fz_state : e_state r = "WAITING"%string /\ e_wait_reason r = Some "RECOVERY"%string;
  fz_pointer : e_current_checkpoint_id r = Some (ck_id k) /\ truthy (ck_id k) = true;
  fz_row : rd_checkpoints (rv_resume db) !! ck_id k = Some k;
  fz_lineage : ck_execution_id k = e_id e /\ ck_session_id k = e_session_id e /\ ck_task_id k = e_task_id e /\
    ck_branch_id k = e_branch_id e /\ ck_execution_revision k = e_revision r /\ ck_wait_reason k = "RECOVERY"%string /\
    ck_iteration k = r7_iteration_number sp;
  fz_transcript : td_checkpoints (wd_transcripts (rv_wait db)) !! ck_id k = Some t /\ kt_snapshot t = None /\
    materialize_checkpoint_transcript digest (wd_transcripts (rv_wait db)) t = Ok l;
  fz_metadata : exists fp receipt, truthy fp = true /\ rv_metadata db !! ck_id k = Some
    [(FINGERPRINT_KEY, JStr fp); (RECEIPT_KEY, receipt); (ITERATION_KEY, text_or_null (r7_iteration_id sp));
     (BATCH_KEY, JArr (map JStr (map fst (r7_tool_calls sp))))]
}.

Lemma bool_decide_refl {A} (x : A) `{!Decision (x = x)} : bool_decide (x = x) = true.
Proof. by apply bool_decide_true. Qed.

Definition frozen_cut (db : RecoveryDB) (k : DurableExecutionCheckpoint) (l : list InferenceMessage)
    (iterations : list IterationRow) : Cut :=
  let iteration := find_iteration (ck_iteration k) iterations in
  {| cut_row := k; cut_messages := map model_dump l; cut_metadata := checkpoint_metadata db (ck_id k);
     cut_current := true; cut_authority := true; cut_stale := false;
     cut_initial := bool_decide (iteration = None) && (ck_iteration k =? 0) && true; cut_iteration := iteration |}.

Lemma frozen_read_cut db e r sp k t l iterations : frozen_at db e r sp k t l ->
  (find_iteration (ck_iteration k) iterations = None -> ck_iteration k = 0) ->
  read_cut digest db r iterations (ck_id k) = Ok (frozen_cut db k l iterations).
Proof.
  intros [(F1 & F2 & F3 & F4) (F5 & F6) (F7 & F8) F9 (L1 & L2 & L3 & L4 & L5 & L6 & L7) (T1 & T2 & T3) (fp & rc & M1 & M2)] Hi.
  unfold read_cut. rw F9 T1. cbn [safe_some mbind result_bind]. rw F1 F2 F3 F4 L1 L2 L3 L4 L5 Z.leb_refl !bool_decide_refl.
  cbn [guard_err mbind result_bind andb].
  rw F7. cbn [default option_rect]. change (default ""%string (Some (ck_id k))) with (ck_id k).
  assert (meta_truthy (checkpoint_metadata db (ck_id k)) FINGERPRINT_KEY = true) as Hm
    by (unfold checkpoint_metadata; rw M2; done).
  rw Z.eqb_refl Z.ltb_irrefl L6 F5 F6 Hm. change (default ""%string (Some "RECOVERY"%string)) with "RECOVERY"%string.
  rw !bool_decide_refl. cbn [andb orb].
  destruct (find_iteration (ck_iteration k) iterations) as [it|] eqn:Ef.
  - rw (bool_decide_true (is_Some (Some it))); [by eexists|]. cbn [orb guard_err mbind result_bind]. rw T3. cbn [mbind result_bind]. rw T2.
    cbn [mbind result_bind]. unfold frozen_cut. by rw Ef.
  - rw (Hi eq_refl). cbn. rw T3 /= T2 /=. unfold frozen_cut. by rw (Hi eq_refl) in Ef |- *; rw Ef.
Qed.

(** The batch a frozen cut names is the one of the safe point. *)
Lemma frozen_active db e r sp k t l cut active ids unresolved db0 : frozen_at db e r sp k t l ->
  reconstructed db0 e true cut active ids unresolved sp -> list_iterations db (e_id e) = list_iterations db0 (e_id e) ->
  let c := frozen_cut db k l (list_iterations db (e_id e)) in
  active_iteration (Some c) (last (list_iterations db (e_id e))) = Ok active /\ active_batch (Some c) active = Ok ids /\
  (find_iteration (ck_iteration k) (list_iterations db (e_id e)) = None -> ck_iteration k = 0).
Proof.
  intros [_ _ _ _ (_ & _ & _ & _ & _ & _ & L7) _ (fp & rc & _ & M)] R Hit c.
  assert (cut_metadata c = checkpoint_metadata db (ck_id k)) as Ec by done.
  unfold checkpoint_metadata in Ec. rw M in Ec. cbn [default id] in Ec.
  pose proof (fun x => active_elem _ _ _ _ _ _ _ _ x R) as Hel.
  destruct R as [_ Hn _ _ Hids Hslots _ _ _ _ Hnum Hiter]. rw -Hit in Hn, Hel.
  assert (map fst (r7_tool_calls sp) = ids) as Hcalls.
  { destruct active as [row|]; [by apply batch_slots_ok in Hslots as [E _ _ _]|].
    apply active_batch_none in Hids as ->. injection Hslots as E _. by rw -E. }
  destruct (active_batch_ok _ _ _ Hids) as [Ht Hnd].
  assert (dict_get BATCH_KEY (cut_metadata c) = Some (JArr (map JStr ids))) as HB by (rw Ec Hcalls; done).
  assert (meta_get (cut_metadata c) ITERATION_KEY = JStr <$> (ir_id <$> active)) as HI
    by (rw Ec -Hiter; by destruct (r7_iteration_id sp)).
  unfold active_iteration, active_batch. change (cut_stale c) with false. change (cut_frozen c) with true.
  change (cut_iteration c) with (find_iteration (ck_iteration k) (list_iterations db (e_id e))).
  change (ck_iteration (cut_row c)) with (ck_iteration k).
  cbn [andb negb guard_err mbind result_bind]. rw HB HI L7 Hnum. cbn [safe_some mbind result_bind].
  destruct active as [row|].
  - specialize (Hel row eq_refl). rw (find_iteration_unique _ _ Hn Hel). cbn [fmap option_fmap option_map py_str].
    rw bool_decide_refl map_map. cbn [py_str]. rw map_id Ht bool_decide_eq_true_2; [done|]. done.
  - apply active_batch_none in Hids as ->. by split_and!.
Qed.

Lemma frozen_stable db db' e r sp k t l l0 :
  reconstruct_r7c_safe_point digest db e true = Ok sp -> same_batch_tables db db' -> frozen_at db' e r sp k t l ->
  canonical_transcript_messages (r7_transcript sp) = Some l0 -> same_content l l0 ->
  exists sp', reconstruct_r7c_safe_point digest db' r true = Ok sp' /\ same_safe_point sp sp'.
Proof.
  intros (cut & active & ids & unresolved & R)%reconstruct_inv T F Hl0 Hl.
  assert (list_iterations db' (e_id e) = list_iterations db (e_id e)) as Hit
    by (unfold list_iterations; by rw (sb_iterations _ _ T)).
  destruct (frozen_active _ _ _ _ _ _ _ _ _ _ _ _ F R Hit) as (Ha & Hb & Hz).
  pose proof (frozen_read_cut _ _ _ _ _ _ _ _ F Hz) as Hcut.
  set (c := frozen_cut db' k l (list_iterations db' (e_id e))) in *.
  destruct F as [(F1 & _) _ (F7 & F8) _ (_ & _ & _ & _ & L5 & _) _ _].
  destruct R as [R1 R2 _ _ _ R6 R7 R8 R9 _ R11 R12].
  apply sanitize_transcript_ok in R7 as [Hsan _]. apply sanitize_messages_ok in Hsan as [Hsafe _].
  destruct (resanitize db db' (e_id e) ids (r7_transcript sp) l0 l) as (safe' & l'' & S1 & S2 & S3); try done.
  { intros call. unfold get_tool_result. by rw (sb_results _ _ T). }
  exists {| r7_transcript := safe'; r7_iteration_number := r7_iteration_number sp; r7_iteration_id := r7_iteration_id sp;
            r7_tool_calls := r7_tool_calls sp; r7_pending := r7_pending sp; r7_checkpoint_id := Some (ck_id k);
            r7_checkpoint_revision := Some (ck_execution_revision k) |}.
  split; [|split; try done; by exists l0, l''].
  apply (reconstruct_intro db' r true (Some c) active ids unresolved); [|done|done].
  split; rw ?F1 ?Hit; simpl; try done.
  - rw F7. cbn [is_text default]. change (default ""%string (Some (ck_id k))) with (ck_id k). rw F8 -Hit Hcut. done.
  - destruct active as [row|]; [|done]. by rw (batch_slots_same _ _ _ _ _ _ T).
  - unfold raw_source, is_current_cut, c. cbn [cut_row frozen_cut cut_messages]. rw L5 Z.eqb_refl. exact S1.
  - unfold unresolved_declared_tool_call_ids in *. rw -R8. symmetry. by eapply unresolved_same; [done|exact S2|].
  - by rw L5 Z.ltb_irrefl.
Qed.

(** ** Theorems *)

(** A frozen checkpoint without a batch is reported as corrupt: the check that would report
    it as missing comes later and is not reached. *)
Lemma missing_batch_reported_corrupt c latest active : cut_frozen c = true ->
  dict_get BATCH_KEY (cut_metadata c) = None -> active_iteration (Some c) latest <> Ok active.
Proof.
  intros Hf Hn H. unfold active_iteration in H. rw Hf Hn in H. apply bind_ok in H as ([] & _ & H).
  done.
Qed.

(** C7 safe_point_sound: a safe point that is reconstructed for recovery is backed by the
    database.  Its calls are distinct calls of one iteration of the execution, in exactly the
    order of the tool_call_ids of that iteration, or, when the execution points at a checkpoint
    of an earlier recovery, in the order that recovery has frozen; each
    has its own committed result, or is pending with its own invocation, at its place in the
    batch, and has no committed result.  Its transcript is valid, consists of messages that are
    not of tools and of committed results of calls outside the batch, and leaves exactly the
    calls of the batch unresolved. *)
Theorem safe_point_sound db e sp : reconstruct_r7c_safe_point digest db e true = Ok sp ->
  let ids := map fst (r7_tool_calls sp) in
  NoDup ids /\ forallb truthy ids = true /\ batch_authority db e sp ids /\
  (forall call row, (call, row) ∈ r7_tool_calls sp -> exists it,
     r7_iteration_id sp = Some it /\ get_tool_call db (e_id e) it call = Some row /\
     ((exists r, committed_result db (e_id e) call r /\ rs_invocation_id r = tc_invocation_id row) \/
      (exists p, p ∈ r7_pending sp /\ rf_tool_call_id p = call))) /\
  (forall p, p ∈ r7_pending sp ->
     ids !! Z.to_nat (rf_ordinal p) = Some (rf_tool_call_id p) /\
     (forall r, ~ committed_result db (e_id e) (rf_tool_call_id p) r) /\
     exists row i, (rf_tool_call_id p, row) ∈ r7_tool_calls sp /\
       rd_invocations (rv_resume db) !! tc_invocation_id row = Some i /\ rf_invocation_id p = iv_id i) /\
  StronglySorted Z.lt (map rf_ordinal (r7_pending sp)) /\
  Forall (safe_item db (e_id e) ids) (r7_transcript sp) /\
  (exists l, canonical_transcript_messages (r7_transcript sp) = Some l) /\
  exists unresolved, unresolved_declared_tool_call_ids (r7_transcript sp) = Ok unresolved /\
    forall x, x ∈ unresolved <-> x ∈ ids.
Proof.
  intros (cut & active & ids & unresolved & R)%reconstruct_inv. pose proof (reconstructed_authority _ _ _ _ _ _ _ _ R) as Hau.
  destruct R as [_ _ _ _ Hids Hslots Hsafe Hun Hmem _ _ Hit].
  destruct (active_batch_ok _ _ _ Hids) as [Ht Hn]. pose proof (membership_ok _ _ _ Hmem) as Hm.
  apply sanitize_transcript_ok in Hsafe as [[Hs _]%sanitize_messages_ok Hl].
  assert (exists it, slots_ok db (e_id e) it 0 ids (r7_tool_calls sp) (r7_pending sp) /\
    (r7_iteration_id sp = Some it \/ r7_tool_calls sp = [])) as (it & [S1 S2 S3 S4] & Hi).
  { destruct active as [row|].
    - exists (ir_id row). split; [by apply batch_slots_ok in Hslots|]. by left.
    - apply active_batch_none in Hids as ->. exists ""%string. injection Hslots as E1 E2. rw -E1 -E2.
      split; [|by right]. by apply (batch_slots_ok db (e_id e) "" [] 0 ([], [])). }
  simpl. rw S1. split_and!; try done; [| |by exists unresolved].
  - intros call row Hc. destruct Hi as [Hi|Hi]; [|rw Hi in Hc; by apply elem_of_nil in Hc].
    destruct (S2 _ _ Hc) as (ref & k & [O1 O2 O3] & Hr). exists it. split_and!; [done|done|].
    destruct ref as [p|].
    + right. destruct (O3 p eq_refl) as (_ & i & _ & _ & _ & _ & ->). eexists. split; [by apply Hr|done].
    + left. destruct (O2 eq_refl) as (r & ? & ? & _). eauto.
  - intros p Hp. destruct (S3 _ Hp) as (k & row & H1 & H2 & [O1 _ O3]).
    destruct (O3 p eq_refl) as (Hno & i & H4 & _ & _ & _ & H5).
    split_and!; [by rw H2 Nat2Z.id|done|]. rw -S1 in H1.
    rw (list_lookup_fmap fst) in H1. apply fmap_Some in H1 as ([c row'] & Hk & Hc).
    assert (row' = row) as ->.
    { destruct (S2 c row') as (ref & k' & [O1' _ _] & _); [by apply (list_elem_of_lookup_2 _ k)|]. simpl in Hc. congruence. }
    exists row, i. split_and!; [|done|by rw {1}H5]. rw Hc. by apply (list_elem_of_lookup_2 _ k).
Qed.
End Reconstructed.
