(* ===== verification/RecoveryControlPlane.v ===== *)
(** * The recovery control plane
    (src/se/src/runtimes/agent/recovery_control_plane.py)

    A sweep scans for stale leases and evacuates each observation: the row is loaded again and
    must still be the observed lease; it is moved to WAITING(RECOVERY), or to FAILED when its
    safe point cannot be reconstructed for a reason that will not go away.  A conflict is a
    no-op when the lease has moved on meanwhile, and otherwise deferred to a later sweep.

    An execution that belongs to a task is moved by the budget service (file TaskRecovery).
    Other transactions run between the calls of an evacuation: the environment says what they
    do, what the clock reads and which faults the attempts of the budget service meet.  Texts
    of errors are kept as what they report. *)

From S2P Require Import Prelude Canonical ResumeTicket TaskBudgetSchema AgentStore TaskBudgetService.
From S2P Require Import TaskActivity ExecutionLease StaleLeaseScanner Invocation InvocationStores ResumeClaimStore.
From S2P Require Import ResumeClaimConsume ResumePlanning Transcript WaitingCheckpoint SafePoint RecoveryCommit.
From S2P Require Import TaskRecovery.

Definition H1A_TERMINAL_SAFE_POINT_REASONS : list string :=
  ["SAFE_POINT_TRANSCRIPT_CORRUPT"; "SAFE_POINT_ACTIVE_BATCH_AMBIGUOUS"; "SAFE_POINT_TOOL_RESULT_CONFLICT";
   "SAFE_POINT_EXECUTION_INVALID"; "SAFE_POINT_ITERATION_LINEAGE_CONFLICT"; "SAFE_POINT_ITERATION_AMBIGUOUS";
   "SAFE_POINT_CHECKPOINT_MISSING"; "SAFE_POINT_CHECKPOINT_LINEAGE_CONFLICT";
   "SAFE_POINT_CHECKPOINT_ITERATION_MISSING"; "SAFE_POINT_POST_RECOVERY_PROGRESS_UNPROVEN";
   "SAFE_POINT_RECOVERY_BATCH_SNAPSHOT_CORRUPT"; "SAFE_POINT_RECOVERY_BATCH_SNAPSHOT_CONFLICT";
   "SAFE_POINT_RECOVERY_BATCH_SNAPSHOT_MISSING"; "SAFE_POINT_TOOL_CALL_AMBIGUOUS";
   "SAFE_POINT_TOOL_CALL_MISSING"; "SAFE_POINT_TOOL_CALL_CONFLICT"; "SAFE_POINT_COMMITTED_RESULT_CONFLICT";
   "SAFE_POINT_INVOCATION_MISSING"; "SAFE_POINT_INVOCATION_CONFLICT";
   "SAFE_POINT_ACTIVE_BATCH_MEMBERSHIP_MISMATCH"; "SAFE_POINT_ACTIVE_BATCH_AUTHORITY_MISSING";
   "SAFE_POINT_TRANSCRIPT_DIVERGENCE"; "INVALID_CHECKPOINT_REPRESENTATION_STATE";
   "MISSING_TRANSCRIPT_REPRESENTATION"; "TRANSCRIPT_REPRESENTATION_VERSION_MISMATCH";
   "TRANSCRIPT_REPRESENTATION_ANCESTRY_INVALID"; "TRANSCRIPT_REPRESENTATION_DEPTH_EXCEEDED";
   "TRANSCRIPT_REPRESENTATION_CORRUPT"; "DUAL_TRANSCRIPT_MISMATCH"]%string.

Inductive Evacuation := EV_WAITING | EV_FAILED | EV_NOOP | EV_DEFERRED.

#[global] Instance Evacuation_eq_dec : EqDecision Evacuation.
Proof. solve_decision. Defined.

(** What an error line of a report says. *)
Inductive EvacuationError :=
  | NonTerminalSafePoint (code : string)
  | Conflict (e : RecoveryError)
  | TerminalRace (e : RecoveryError)
  | Unexpected (e : RecoveryError)
  | ScanObservation (line : string)
  | ScanFailed (e : ScanError).

Record H1ASweepReport := {
  rp_observed : Z;
  rp_waiting : Z;
  rp_failed : Z;
  rp_noops : Z;
  rp_deferred : Z;
  rp_errors : list (string * EvacuationError);
  rp_scan_error : option ScanError
}.

Definition healthy (r : H1ASweepReport) : bool :=
  match rp_scan_error r with None => rp_deferred r =? 0 | Some _ => false end.

(** The errors that [except (ExecutionConflictError, LeaseAuthorityConflictError,
    TaskBudgetConflictError)] catches. *)
Definition is_recovery_conflict (e : RecoveryError) : bool :=
  match e with LeaseAuthorityConflict _ | ExecutionConflict _ | BudgetConflict _ => true | _ => false end.

Definition safe_point_reason (e : RecoveryError) : option string :=
  match e with ExecutionConflict (Some code) | BudgetConflict (Some code) => Some code | _ => None end.

Definition matches_receipt (current : option ExecutionRow) (ob : StaleLeaseObservation) (takeover_now : Z) : bool :=
  match current with
  | None => false
  | Some e =>
      bool_decide (e_state e = "RUNNING") && (e_revision e =? ob_revision ob) &&
      bool_decide (e_owner_instance_id e = Some (ob_owner_instance_id ob)) &&
      (e_lease_generation e =? ob_lease_generation ob) &&
      match e_lease_expires_at e with
      | Some expiry => (expiry =? ob_lease_expires_at ob) && (expiry <=? takeover_now)
      | None => false
      end
  end.

Definition observed_lease (ob : StaleLeaseObservation) (takeover_now : Z) : Observed :=
  {| o_owner := ob_owner_instance_id ob; o_generation := ob_lease_generation ob;
     o_expires_at := Utc (ob_lease_expires_at ob); o_takeover_now := Utc takeover_now |}.

(** What one evacuation meets: the transactions of others before each of its calls, the clock
    of the writes, and what the attempts of the budget service meet. *)
Record EvacuationEnv := {
  ee_before_load : RecoveryDB -> RecoveryDB;
  ee_before_commit : RecoveryDB -> RecoveryDB;
  ee_after_rollback : RecoveryDB -> RecoveryDB;
  ee_clock : Z;
  ee_before_fail : RecoveryDB -> RecoveryDB;
  ee_before_check : RecoveryDB -> RecoveryDB;
  ee_task_recover : nat -> TaskAttempt;
  ee_task_fail : nat -> TaskAttempt
}.

Section ControlPlane.
Context (digest : string -> string) (cfg : ServiceConfig).

Abbreviation Evacuated := (RecoveryDB * result RecoveryError (Evacuation * option EvacuationError))%type.

(** [_receipt_is_still_current] after a conflict: moved on, or to be tried again. *)
Definition settle_conflict (env : EvacuationEnv) (db : RecoveryDB) (ob : StaleLeaseObservation) (takeover_now : Z)
    (error : EvacuationError) : Evacuated :=
  let db := ee_before_check env db in
  if matches_receipt (get_execution (rv_agents db) (ob_execution_id ob)) ob takeover_now
  then (db, Ok (EV_DEFERRED, Some error)) else (db, Ok (EV_NOOP, None)).

Definition terminalize (env : EvacuationEnv) (db : RecoveryDB) (ob : StaleLeaseObservation) (task_id : option string)
    (takeover_now : Z) (reason_code : string) : Evacuated :=
  let db := ee_before_fail env db in
  let (db, answer) :=
    match task_id with
    | None =>
        match fail_expired_execution_unrecoverable db (ob_execution_id ob) (ob_revision ob)
                (ob_owner_instance_id ob) (ob_lease_generation ob) (ob_lease_expires_at ob) takeover_now reason_code with
        | Ok (db', _) => (db', Ok tt)
        | Err e => (db, Err e)
        end
    | Some t =>
        let (db', r) := fail_unrecoverable_task_scoped_execution cfg (ee_task_fail env) db t (ob_execution_id ob)
                          (ob_revision ob) (observed_lease ob takeover_now) reason_code in
        (db', (fun _ => tt) <$> r)
    end in
  match answer with
  | Ok _ => (db, Ok (EV_FAILED, None))
  | Err e => if is_recovery_conflict e then settle_conflict env db ob takeover_now (TerminalRace e) else (db, Err e)
  end.

Definition evacuate_observation (env : EvacuationEnv) (db : RecoveryDB) (ob : StaleLeaseObservation) (takeover_now : Z)
    : Evacuated :=
  let db := ee_before_load env db in
  match get_execution (rv_agents db) (ob_execution_id ob) with
  | Some e =>
      if negb (matches_receipt (Some e) ob takeover_now) then (db, Ok (EV_NOOP, None)) else
      let db := ee_before_commit env db in
      let (db, answer) :=
        match e_task_id e with
        | None =>
            match commit_recovery_waiting_checkpoint digest (ee_clock env) (ee_after_rollback env) db
                    (ob_execution_id ob) (observed_lease ob takeover_now) (Some (ob_revision ob)) with
            | Ok (db', _) => (db', Ok tt)
            | Err x => (db, Err x)
            end
        | Some t =>
            let (db', r) := recover_task_scoped_execution digest cfg (ee_task_recover env) db t (ob_execution_id ob)
                              (observed_lease ob takeover_now) (Some (ob_revision ob)) in
            (db', (fun _ => tt) <$> r)
        end in
      match answer with
      | Ok _ => (db, Ok (EV_WAITING, None))
      | Err x =>
          if negb (is_recovery_conflict x) then (db, Err x) else
          match safe_point_reason x with
          | Some code =>
              if bool_decide (code ∈ H1A_TERMINAL_SAFE_POINT_REASONS)
              then terminalize env db ob (e_task_id e) takeover_now code
              else (db, Ok (EV_DEFERRED, Some (NonTerminalSafePoint code)))
          | None => settle_conflict env db ob takeover_now (Conflict x)
          end
      end
  | None => (db, Ok (EV_NOOP, None))
  end.

(** ** One sweep *)

Definition count_evacuation (r : H1ASweepReport) (ob : StaleLeaseObservation)
    (answer : result RecoveryError (Evacuation * option EvacuationError)) : H1ASweepReport :=
  let '(outcome, error) := match answer with
                           | Ok o => o
                           | Err e => (EV_DEFERRED, Some (Unexpected e))
                           end in
  let '(Build_H1ASweepReport ob_ w f n d errors scan) := r in
  match outcome with
  | EV_WAITING => Build_H1ASweepReport ob_ (w + 1) f n d errors scan
  | EV_FAILED => Build_H1ASweepReport ob_ w (f + 1) n d errors scan
  | EV_NOOP => Build_H1ASweepReport ob_ w f (n + 1) d errors scan
  | EV_DEFERRED => Build_H1ASweepReport ob_ w f n (d + 1)
      (errors ++ match error with Some x => [(ob_execution_id ob, x)] | None => [] end) scan
  end.

Fixpoint evacuate_all (envs : nat -> EvacuationEnv) (db : RecoveryDB) (takeover_now : Z)
    (obs : list StaleLeaseObservation) (r : H1ASweepReport) : RecoveryDB * H1ASweepReport :=
  match obs with
  | [] => (db, r)
  | ob :: rest =>
      let (db', answer) := evacuate_observation (envs O) db ob takeover_now in
      evacuate_all (fun n => envs (S n)) db' takeover_now rest (count_evacuation r ob answer)
  end.

Definition scan_failed_report (e : ScanError) : H1ASweepReport :=
  {| rp_observed := 0; rp_waiting := 0; rp_failed := 0; rp_noops := 0; rp_deferred := 1;
     rp_errors := [("scan"%string, ScanFailed e)]; rp_scan_error := Some e |}.

Definition scanned_report (s : StaleLeaseSweepResult) : H1ASweepReport :=
  {| rp_observed := Z.of_nat (length (observations s) + length (observation_errors s));
     rp_waiting := 0; rp_failed := 0; rp_noops := 0;
     rp_deferred := Z.of_nat (length (observation_errors s));
     rp_errors := map (fun line => ("scan-observation"%string, ScanObservation line)) (observation_errors s);
     rp_scan_error := None |}.

(** ** The service *)

Record H1ARecoveryControlPlane := {
  cp_scanner : StaleLeaseScanCoordinator;
  cp_started : bool;
  cp_stop : bool;
  cp_worker : bool;
  cp_last_report : option H1ASweepReport
}.

Definition with_scan (cp : H1ARecoveryControlPlane) (c : StaleLeaseScanCoordinator) (r : H1ASweepReport)
    : H1ARecoveryControlPlane :=
  {| cp_scanner := c; cp_started := cp_started cp; cp_stop := cp_stop cp; cp_worker := cp_worker cp;
     cp_last_report := Some r |}.

(** [scan] is what the scan meets; [None] in its answer cannot occur. *)
Definition sweep_once (scan : SweepEnv) (envs : nat -> EvacuationEnv) (db : RecoveryDB) (cp : H1ARecoveryControlPlane)
    : RecoveryDB * H1ARecoveryControlPlane * option H1ASweepReport :=
  match scan_once (cp_scanner cp) scan with
  | Err e => (db, with_scan cp (cp_scanner cp) (scan_failed_report e), Some (scan_failed_report e))
  | Ok (_, None) => (db, cp, None)
  | Ok (c, Some s) =>
      let (db', r) := evacuate_all envs db (scan_cutoff_utc s) (observations s) (scanned_report s) in
      (db', with_scan cp c r, Some r)
  end.

(** [start]: one sweep at once, then the periodic worker; starting again answers with the
    last report, and raises ([None]) when there is none. *)
Definition start (scan : SweepEnv) (envs : nat -> EvacuationEnv) (db : RecoveryDB) (cp : H1ARecoveryControlPlane)
    : RecoveryDB * H1ARecoveryControlPlane * option H1ASweepReport :=
  if cp_started cp then (db, cp, cp_last_report cp)
  else
    let '(db', cp', r) := sweep_once scan envs db
      {| cp_scanner := cp_scanner cp; cp_started := true; cp_stop := cp_stop cp; cp_worker := cp_worker cp;
         cp_last_report := cp_last_report cp |} in
    (db', {| cp_scanner := cp_scanner cp'; cp_started := true; cp_stop := cp_stop cp';
             cp_worker := cp_worker cp' || negb (cp_stop cp'); cp_last_report := cp_last_report cp' |}, r).

Definition quiesce (cp : H1ARecoveryControlPlane) : H1ARecoveryControlPlane :=
  {| cp_scanner := cp_scanner cp; cp_started := cp_started cp; cp_stop := true; cp_worker := false;
     cp_last_report := cp_last_report cp |}.

(** A turn of [_run_loop] when the interval has passed. *)
Definition periodic (scan : SweepEnv) (envs : nat -> EvacuationEnv) (db : RecoveryDB) (cp : H1ARecoveryControlPlane)
    : RecoveryDB * H1ARecoveryControlPlane * option H1ASweepReport :=
  if cp_worker cp && negb (cp_stop cp) then sweep_once scan envs db cp else (db, cp, None).
End ControlPlane.
