(* ===== verification/RecoveryProperties.v ===== *)
(** * Properties of the evacuation of executions
    (file RecoveryCommit, over SafePoint, WaitingCheckpoint and ExecutionLease)

    A takeover that returns has moved the execution to WAITING(RECOVERY) at the safe point that
    was reconstructed, has fenced the lost owner out for good, and what it stored is the same
    safe point again.  A caller who asks again gets the same answer. *)

From S2P Require Import Prelude Canonical PythonValues CanonicalInjectivity ResumeTicket TaskBudgetSchema AgentStore TaskBudgetService.
From S2P Require Import TaskActivity ExecutionLease Invocation InvocationStores ResumeClaimStore.
From S2P Require Import ResumeClaimConsume ResumeClaimProperties ResumePlanning ResumePlanningProperties.
From S2P Require Import Transcript TranscriptProperties.
From S2P Require Import TranscriptWriterProperties WaitingCheckpoint WaitingCheckpointProperties.
From S2P Require Import SafePoint SafePointProperties RecoveryCommit.

(** ** The published row *)

Definition published (e : ExecutionRow) (staged : ExecValues) (source generation : Z) : ExecutionRow :=
  set_exec_revision (apply_exec_values e (fenced_values
    (List.filter (fun f => negb (is_state_field f)) staged ++
     [SetExecState "WAITING"; SetWaitReason (Some "RECOVERY"%string)]) generation)) (source + 1).

Lemma recovery_cas_ok a execution_id source o staged a' r :
  compare_and_set_recovery_waiting_execution a execution_id source o staged = Ok (a', Some r) ->
  exists e, get_execution a execution_id = Some e /\ r = published e staged source (o_generation o) /\
    a' = with_executions a (<[execution_id := r]> (db_executions a)).
Proof.
  intros E. unfold compare_and_set_recovery_waiting_execution in E. inv_lease. destruct x as [expiry now]. inv_lease.
  apply update_execution_where_some in E as (e & He & _ & -> & _ & ->). by exists e.
Qed.

Lemma publish_ok db execution_id source o staged db' r :
  publish_recovery db execution_id source o staged = Ok (db', r) ->
  exists e, get_execution (rv_agents db) execution_id = Some e /\ r = published e staged source (o_generation o) /\
    db' = with_rows db (with_executions (rv_agents db) (<[execution_id := r]> (db_executions (rv_agents db)))).
Proof.
  unfold publish_recovery. destruct (compare_and_set_recovery_waiting_execution _ _ _ _ _) as [[a [row|]]|[m|f]] eqn:E;
    [|done|done|done].
  intros H. apply bind_ok in H as ([] & _ & H). injection H as <- <-.
  apply recovery_cas_ok in E as (e & He & Hr & ->). by exists e.
Qed.

Lemma recovery_row e id v source generation :
  let r := published e (staged_values (recovery_transition e) id "RECOVERY" v) source generation in
  waiting_row e r (source + 1) (recovery_transition e) id /\ e_session_id r = e_session_id e /\
  e_state r = "WAITING"%string /\ e_wait_reason r = Some "RECOVERY"%string /\ e_owner_instance_id r = None /\
  e_lease_expires_at r = None /\ e_lease_generation r = generation + 1.
Proof.
  destruct e as [? ? ? ? ? ? ? ? ? ? ? ? ? ? ? payload].
  set (remaining := default JNull (dict_get "remaining_active_budget_seconds" (json_fields payload))).
  assert (text_column (set_columns payload [("remaining_active_budget_seconds", remaining); ("bound_connection_id", JNull)])%string
            "session_id" = text_column payload "session_id") as Hs.
  { apply session_kept. intros kv Hkv. by repeat (apply elem_of_cons in Hkv as [->|Hkv]; [done|]); apply elem_of_nil in Hkv. }
  by split_and!.
Qed.

(** ** A takeover step by step *)

Lemma recovery_args_ok o rev expiry now : recovery_args o rev = Ok (expiry, now) ->
  o_takeover_now o = Utc now /\ o_expires_at o = Utc expiry.
Proof.
  unfold recovery_args. intros H. apply bind_ok in H as (n & Hn & H). apply bind_ok in H as (x & Hx & H).
  apply bind_ok in H as ([] & _ & H). apply bind_ok in H as ([] & _ & H). apply bind_ok in H as ([] & _ & H).
  injection H as <- <-. destruct (o_takeover_now o), (o_expires_at o); try done. by injection Hn as ->; injection Hx as ->.
Qed.

Lemma matches_not_taken o expiry now rev rev' e : matches_observed o expiry now rev e = true -> taken_over o rev' e = false.
Proof.
  unfold matches_observed, taken_over. intros H. breflect. by rw (bool_decide_eq_false_2 (e_state e = "WAITING")); [congruence|].
Qed.

Section Recovery.
Context (digest : string -> string).
Context (digest_hex : forall s, sha256_hex (digest s) = true).

Definition receipt_of (execution_id : string) (source : Z) (o : Observed) (expiry now : Z) : string :=
  recovery_safe_point_fingerprint (recovery_receipt_payload execution_id source o expiry now).

(** What a takeover that was not a replay has done. *)
Record evacuated (clock : Z) (db db' : RecoveryDB) (execution_id : string) (e r : ExecutionRow) (o : Observed)
    (expiry now : Z) (sp : R7CSafePoint) : Prop := {
  ev_point : reconstruct_r7c_safe_point digest db e true = Ok sp;
  ev_staged : exists w, staged_wait digest clock e (e_revision e) (recovery_transition e)
      (recovery_checkpoint e (e_revision e) sp) (r7_pending sp) (rv_wait db) w /\
    rv_wait db' = {| wd_resume := with_agents (wd_resume w)
        (with_executions (rv_agents db) (<[execution_id := r]> (db_executions (rv_agents db))));
      wd_transcripts := wd_transcripts w |};
  ev_row : r = published e (staged_values (recovery_transition e) (cv_checkpoint_id (recovery_checkpoint e (e_revision e) sp))
      "RECOVERY" (recovery_checkpoint e (e_revision e) sp)) (e_revision e) (o_generation o);
  ev_metadata : rv_metadata db' = <[checkpoint_identity (e_id e) (e_revision e + 1) :=
      recovery_metadata (receipt_of execution_id (e_revision e) o expiry now)
        (recovery_receipt_payload execution_id (e_revision e) o expiry now) sp]> (rv_metadata db);
  ev_iterations : rv_iterations db' = rv_iterations db /\ rv_call_iteration db' = rv_call_iteration db
}.

(** The answers of a takeover: a replay, the answer of a competing one, or a new one. *)
Lemma take_over_cases clock others db execution_id e o expiry now db' r :
  wait_wf digest (rv_wait db) -> get_execution (rv_agents db) execution_id = Some e ->
  take_over digest clock others db execution_id e o expiry now = Ok (db', r) ->
  competing_recovery (others db) execution_id (e_revision e) o (receipt_of execution_id (e_revision e) o expiry now) =
    Ok (db', r) \/
  exists sp, evacuated clock db db' execution_id e r o expiry now sp.
Proof.
  intros W He H. unfold take_over in H. apply bind_ok in H as (sp & Hsp & H).
  destruct (reconstruct_r7c_safe_point digest db e true) as [sp'|] eqn:Er; [|done]. injection Hsp as ->.
  destruct (stage_waiting_checkpoint _ _ _ _ _ _ _ _) as [[w staged]|[m|what|]] eqn:Es; [|done|done|by left].
  right. exists sp. apply stage_ok in Es as [-> Hs]; [|by apply W|apply W].
  apply publish_ok in H as (e0 & He0 & -> & ->).
  assert (rv_agents (with_metadata (with_wait db w) (cv_checkpoint_id (recovery_checkpoint e (e_revision e) sp))
    (recovery_metadata (receipt_of execution_id (e_revision e) o expiry now)
       (recovery_receipt_payload execution_id (e_revision e) o expiry now) sp)) = rv_agents db) as Ea
    by exact (sw_agents _ _ _ _ _ _ _ _ _ Hs).
  unfold receipt_of in Ea. rw Ea in He0. rw He in He0. injection He0 as <-.
  split; try done. exists w. split; [done|]. unfold with_rows. rw Ea. done.
Qed.

Lemma commit_cases clock others db execution_id o rev db' r e :
  wait_wf digest (rv_wait db) -> get_execution (rv_agents db) execution_id = Some e -> e_state e = "RUNNING"%string ->
  commit_recovery_waiting_checkpoint digest clock others db execution_id o rev = Ok (db', r) ->
  exists expiry now, recovery_args o rev = Ok (expiry, now) /\ e_task_id e = None /\
    matches_observed o expiry now rev e = true /\
    (competing_recovery (others db) execution_id (e_revision e) o (receipt_of execution_id (e_revision e) o expiry now) =
       Ok (db', r) \/
     exists sp, evacuated clock db db' execution_id e r o expiry now sp).
Proof.
  intros W He Hrun H. unfold commit_recovery_waiting_checkpoint in H. apply bind_ok in H as ([expiry now] & Ha & H).
  rw He in H. apply bind_ok in H as ([] & Ht%guard_ok%bool_decide_eq_true & H).
  unfold taken_over in H. rw (bool_decide_eq_false_2 (e_state e = "WAITING")) in H; [congruence|].
  cbn [andb] in H. apply bind_ok in H as ([] & Hm%guard_ok & H).
  exists expiry, now. split_and!; try done. by eapply take_over_cases.
Qed.

(** The rows that an evacuation leaves. *)
Lemma evacuated_committed clock db db' execution_id e r o expiry now sp :
  wait_wf digest (rv_wait db) -> get_execution (rv_agents db) execution_id = Some e ->
  evacuated clock db db' execution_id e r o expiry now sp ->
  exists l, canonical_transcript_messages (r7_transcript sp) = Some l /\
    committed digest (rv_wait db) (rv_wait db') e r (recovery_checkpoint e (e_revision e) sp) (r7_pending sp) l.
Proof.
  intros W He [_ (w & Hs & Ew) Er _ _].
  destruct (recovery_row e (cv_checkpoint_id (recovery_checkpoint e (e_revision e) sp))
    (recovery_checkpoint e (e_revision e) sp) (e_revision e) (o_generation o)) as (Hrow & _).
  rw -Er in Hrow.
  destruct (staged_committed digest digest_hex clock execution_id (e_revision e) (recovery_transition e)
    (recovery_checkpoint e (e_revision e) sp) (r7_pending sp) (rv_wait db) w (rv_wait db') e r W He Hs Hrow Ew)
    as (snapshot & l & Hsn & Hl & C).
  injection Hsn as <-. by exists l.
Qed.

Lemma fingerprint_truthy payload : truthy (recovery_safe_point_fingerprint payload) = true.
Proof.
  unfold recovery_safe_point_fingerprint, json_fingerprint.
  destruct (sha256_hexdigest_format (json_dumps payload)) as [H _].
  by destruct (sha256_hexdigest (json_dumps payload)).
Qed.

Lemma identity_truthy execution_id revision : truthy execution_id = true ->
  truthy (checkpoint_identity execution_id revision) = true.
Proof. by destruct execution_id. Qed.

Lemma evacuated_tables clock db db' execution_id e r o expiry now sp :
  evacuated clock db db' execution_id e r o expiry now sp -> same_batch_tables db db'.
Proof.
  intros [_ (w & Hs & Ew) _ _ [E1 E2]]. destruct (sw_tables _ _ _ _ _ _ _ _ _ Hs) as [_ _ T3 T4 T5].
  split; unfold rv_resume; rw ?Ew; done.
Qed.

Lemma evacuated_frozen clock db db' execution_id e r o expiry now sp :
  wait_wf digest (rv_wait db) -> get_execution (rv_agents db) execution_id = Some e ->
  evacuated clock db db' execution_id e r o expiry now sp ->
  exists k t l l0, frozen_at digest db' e r sp k t l /\ canonical_transcript_messages (r7_transcript sp) = Some l0 /\
    same_content l l0.
Proof.
  intros W He Hev. destruct (evacuated_committed _ _ _ _ _ _ _ _ _ _ W He Hev) as (l0 & Hl0 & C).
  destruct Hev as [Hsp (w & Hs & Ew) Er Em _].
  destruct (reconstruct_inv _ _ _ _ _ Hsp) as (cut & active & ids & un & R). pose proof (rc_id _ _ _ _ _ _ _ _ _ R) as Hid.
  destruct (recovery_row e (cv_checkpoint_id (recovery_checkpoint e (e_revision e) sp))
    (recovery_checkpoint e (e_revision e) sp) (e_revision e) (o_generation o)) as (Hrow & Hses & Hst & Hrs & _).
  rw -Er in Hrow, Hses, Hst, Hrs. destruct Hrow as [R1 R2 R3 R4 R5 _ _ _ _].
  destruct (sw_written _ _ _ _ _ _ _ _ _ Hs) as (ref & version & snapshot & t1 & _ & _ & _ & Et & Erd).
  destruct (sp_checkpoint _ _ _ _ _ _ _ (cm_point _ _ _ _ _ _ _ _ C)) as
    (k & t & Hk & Ht & _ & _ & _ & _ & _ & _ & l & Hread & Hsame & _).
  rw Ew in Hk, Ht. cbn [wd_resume wd_transcripts rd_checkpoints with_agents] in Hk, Ht.
  rw Erd lookup_insert_eq in Hk. injection Hk as Hk. rw Et in Ht. cbn [td_checkpoints put_checkpoint] in Ht.
  rw lookup_insert_eq in Ht. injection Ht as Ht.
  exists k, t, l, l0. split; [|split; [done|by apply same_messages_true]]. subst k t. split; simpl.
  - done.
  - done.
  - split; [done|by apply identity_truthy].
  - unfold rv_resume. rw Ew. cbn [wd_resume rd_checkpoints with_agents]. rw Erd. apply lookup_insert_eq.
  - by split_and!.
  - split; [|done]. rw Ew. cbn [wd_transcripts]. rw Et. cbn [td_checkpoints put_checkpoint]. apply lookup_insert_eq.
  - eexists _, _. split; [apply fingerprint_truthy|]. rw Em. apply lookup_insert_eq.
Qed.

Lemma evacuated_agents clock db db' execution_id e r o expiry now sp :
  evacuated clock db db' execution_id e r o expiry now sp ->
  rv_agents db' = with_executions (rv_agents db) (<[execution_id := r]> (db_executions (rv_agents db))).
Proof. intros [_ (w & _ & Ew) _ _ _]. unfold rv_agents at 1, rv_resume. by rw Ew. Qed.

(** The row that is returned is the stored one. *)
Lemma commit_stored clock others db execution_id o rev db' r e :
  wait_wf digest (rv_wait db) -> get_execution (rv_agents db) execution_id = Some e -> e_state e = "RUNNING"%string ->
  commit_recovery_waiting_checkpoint digest clock others db execution_id o rev = Ok (db', r) ->
  get_execution (rv_agents db') execution_id = Some r.
Proof.
  intros W He Hrun H.
  destruct (commit_cases _ _ _ _ _ _ _ _ _ W He Hrun H) as (expiry & now & _ & _ & _ & [Hc|(sp & Hev)]).
  - unfold competing_recovery in Hc. destruct (get_execution (rv_agents (others db)) execution_id) as [r'|] eqn:E; [|done].
    destruct (_ && _); [|done]. by injection Hc as <- <-.
  - rw (evacuated_agents _ _ _ _ _ _ _ _ _ _ Hev). unfold get_execution. simpl. apply lookup_insert_eq.
Qed.

(** What a takeover that is not a replay leaves. *)
Lemma evacuated_outcome clock db db' execution_id e r o expiry now sp :
  wait_wf digest (rv_wait db) -> get_execution (rv_agents db) execution_id = Some e ->
  evacuated clock db db' execution_id e r o expiry now sp ->
  taken_over o (Some (e_revision e)) r = true /\
  e_current_checkpoint_id r = Some (checkpoint_identity execution_id (e_revision e + 1)) /\
  wait_wf digest (rv_wait db') /\ get_execution (rv_agents db') execution_id = Some r /\
  (forall a ops, db_executions a = db_executions (rv_agents db') ->
     fenced_out (runs lease_apply a ops) execution_id (o_generation o)) /\
  frozen_batch (rv_resume db) execution_id (r7_pending sp)
    (default [] (rd_pending (rv_resume db') !! checkpoint_identity execution_id (e_revision e + 1))) /\
  (exists sp', reconstruct_r7c_safe_point digest db' r true = Ok sp' /\ same_safe_point sp sp') /\
  (forall x, x <> execution_id -> get_execution (rv_agents db') x = get_execution (rv_agents db) x) /\
  (forall k, k <> checkpoint_identity execution_id (e_revision e + 1) ->
     rd_checkpoints (rv_resume db') !! k = rd_checkpoints (rv_resume db) !! k).
Proof.
  intros W He Hev. pose proof (ww_executions digest _ W _ _ He) as Hid.
  destruct (evacuated_committed _ _ _ _ _ _ _ _ _ _ W He Hev) as (l0 & Hl0 & C).
  destruct (evacuated_frozen _ _ _ _ _ _ _ _ _ _ W He Hev) as (k & t & l & l0' & F & Hl0' & Hl).
  destruct (frozen_stable digest _ _ _ _ _ _ _ _ _ (ev_point _ _ _ _ _ _ _ _ _ _ Hev)
    (evacuated_tables _ _ _ _ _ _ _ _ _ _ Hev) F Hl0' Hl) as (sp' & Hsp' & Hsame).
  pose proof (evacuated_agents _ _ _ _ _ _ _ _ _ _ Hev) as Ea.
  destruct Hev as [Hsp _ Er Em _].
  destruct (recovery_row e (cv_checkpoint_id (recovery_checkpoint e (e_revision e) sp))
    (recovery_checkpoint e (e_revision e) sp) (e_revision e) (o_generation o)) as (Hrow & _ & Hst & Hrs & Hown & Hle & Hg).
  rw -Er in Hrow, Hst, Hrs, Hown, Hle, Hg. destruct Hrow as [R1 R2 R3 R4 R5 _ _ _ _].
  change (cv_checkpoint_id (recovery_checkpoint e (e_revision e) sp)) with (checkpoint_identity (e_id e) (e_revision e + 1)) in R5.
  rw Hid in R5.
  assert (get_execution (rv_agents db') execution_id = Some r) as Hr
    by (rw Ea; unfold get_execution; simpl; apply lookup_insert_eq).
  split_and!; try done.
  - unfold taken_over. rw Hst Hrs Hown Hle Hg R4 !Z.eqb_refl !bool_decide_refl. done.
  - apply (cm_wf _ _ _ _ _ _ _ _ C).
  - intros a ops Ex. unfold get_execution in Hr. rw -Ex in Hr. destruct (runs_evolves _ ops _ _ Hr) as (e2 & H2 & Hv).
    eapply stale_fenced_out; [exact H2|]. destruct Hv as [?|[? _]]; lia.
  - pose proof (cm_frozen _ _ _ _ _ _ _ _ C) as Hf.
    change (cv_checkpoint_id (recovery_checkpoint e (e_revision e) sp)) with (checkpoint_identity (e_id e) (e_revision e + 1)) in Hf.
    by rw Hid in Hf.
  - by exists sp'.
  - intros x Hx. rw Ea. unfold get_execution. simpl. by apply lookup_insert_ne.
  - intros k' Hk'. apply (cm_kept _ _ _ _ _ _ _ _ C). simpl. by rw Hid.
Qed.

(** ** Theorems *)

(** C6 recovery_takes_over: when a takeover of a RUNNING execution returns, either another
    takeover had won whose stored checkpoint carries the fingerprint of this very receipt (the
    same owner, lease, expiry and time of takeover), and its row is returned, or the execution was moved,
    from exactly the expired lease that was observed, to WAITING(RECOVERY): the tables are well
    formed again; the lost owner is fenced out whatever lease operations follow; the pending
    invocations of the safe point are frozen as they are stored; reconstructing from the new
    row gives the same safe point again (its transcript equal for Python); other executions
    and checkpoints are as before. *)
Theorem recovery_takes_over clock others db execution_id o rev db' r e :
  wait_wf digest (rv_wait db) -> get_execution (rv_agents db) execution_id = Some e -> e_state e = "RUNNING"%string ->
  commit_recovery_waiting_checkpoint digest clock others db execution_id o rev = Ok (db', r) ->
  exists expiry now, recovery_args o rev = Ok (expiry, now) /\ matches_observed o expiry now rev e = true /\
  taken_over o (Some (e_revision e)) r = true /\
  e_current_checkpoint_id r = Some (checkpoint_identity execution_id (e_revision e + 1)) /\
  ((db' = others db /\ get_execution (rv_agents db') execution_id = Some r /\
    receipt_stored db' execution_id (e_revision e + 1) (receipt_of execution_id (e_revision e) o expiry now) = true) \/
   exists sp sp', reconstruct_r7c_safe_point digest db e true = Ok sp /\
     wait_wf digest (rv_wait db') /\ get_execution (rv_agents db') execution_id = Some r /\
     (forall ops, fenced_out (runs lease_apply (rv_agents db') ops) execution_id (o_generation o)) /\
     frozen_batch (rv_resume db) execution_id (r7_pending sp)
       (default [] (rd_pending (rv_resume db') !! checkpoint_identity execution_id (e_revision e + 1))) /\
     reconstruct_r7c_safe_point digest db' r true = Ok sp' /\ same_safe_point sp sp' /\
     (forall x, x <> execution_id -> get_execution (rv_agents db') x = get_execution (rv_agents db) x) /\
     (forall k, k <> checkpoint_identity execution_id (e_revision e + 1) ->
        rd_checkpoints (rv_resume db') !! k = rd_checkpoints (rv_resume db) !! k)).
Proof.
  intros W He Hrun H.
  destruct (commit_cases _ _ _ _ _ _ _ _ _ W He Hrun H) as (expiry & now & Ha & _ & Hm & Hc).
  exists expiry, now. split; [done|]. split; [done|].
  destruct Hc as [Hc|(sp & Hev)].
  { unfold competing_recovery in Hc. destruct (get_execution (rv_agents (others db)) execution_id) as [r'|] eqn:Ew; [|done].
    destruct (_ && _) eqn:Eg; [|done]. injection Hc as <- <-. breflect. split_and!; [done|done|]. by left. }
  destruct (evacuated_outcome _ _ _ _ _ _ _ _ _ _ W He Hev) as (O1 & O2 & O3 & O4 & O5 & O6 & (sp' & O7 & O7') & O8 & O9).
  split_and!; [done|done|right]. exists sp, sp'. split_and!; try done; [by apply Hev|]. intros ops. by apply O5.
Qed.

(** C11 recovery_replayed: a caller who lost the answer asks again, at any later time while the
    execution still waits at that checkpoint, and gets the same row; nothing changes. *)
Theorem recovery_replayed clock clock' others others' db execution_id o rev db' r e db2 :
  wait_wf digest (rv_wait db) -> get_execution (rv_agents db) execution_id = Some e -> e_state e = "RUNNING"%string ->
  others db = db ->
  commit_recovery_waiting_checkpoint digest clock others db execution_id o rev = Ok (db', r) ->
  get_execution (rv_agents db2) execution_id = Some r ->
  (let id := checkpoint_identity execution_id (e_revision e + 1) in
   rd_checkpoints (rv_resume db2) !! id = rd_checkpoints (rv_resume db') !! id /\
   rv_metadata db2 !! id = rv_metadata db' !! id) ->
  commit_recovery_waiting_checkpoint digest clock' others' db2 execution_id o rev = Ok (db2, r).
Proof.
  intros W He Hrun Hoth H Hr [Hk2 Hm2]. pose proof (ww_executions _ _ W _ _ He) as Hid.
  destruct (commit_cases _ _ _ _ _ _ _ _ _ W He Hrun H) as (expiry & now & Ha & Htask & Hm & [Hc|(sp & Hev)]).
  { rw Hoth in Hc. unfold competing_recovery in Hc. rw He (matches_not_taken _ _ _ _ _ _ Hm) in Hc. done. }
  destruct (evacuated_frozen _ _ _ _ _ _ _ _ _ _ W He Hev) as (k & t & l & l0' & F & _).
  destruct Hev as [Hsp (w & Hs & Ew) Er Em _].
  destruct (recovery_row e (cv_checkpoint_id (recovery_checkpoint e (e_revision e) sp))
    (recovery_checkpoint e (e_revision e) sp) (e_revision e) (o_generation o)) as (Hrow & _ & Hst & Hrs & Hown & Hle & Hg).
  rw -Er in Hrow, Hst, Hrs, Hown, Hle, Hg. destruct Hrow as [R1 R2 _ R4 R5 _ _ _ _].
  change (cv_checkpoint_id (recovery_checkpoint e (e_revision e) sp)) with (checkpoint_identity (e_id e) (e_revision e + 1)) in R5.
  rw Hid in R5. rw Hid in Em.
  destruct F as [_ _ (F7 & _) F9 (L1 & _ & _ & _ & L5 & L6 & _) _ _].
  rw R5 in F7. injection F7 as F7. rw -F7 -Hk2 in F9.
  unfold commit_recovery_waiting_checkpoint. rw Ha. cbn [mbind result_bind]. rw Hr R2 Htask bool_decide_refl.
  cbn [guard_err mbind result_bind].
  assert (taken_over o rev r = true) as ->.
  { unfold taken_over. rw Hst Hrs Hown Hle Hg R4 !Z.eqb_refl !bool_decide_refl. cbn [andb].
    unfold matches_observed in Hm. destruct rev as [x|]; [|done]. breflect. lia. }
  unfold replay_recovery. rw R4 R5 bool_decide_refl. replace (e_revision e + 1 - 1) with (e_revision e) by lia.
  cbn [guard_err mbind result_bind]. unfold receipt_stored. rw F9 L5 R4 L1 Hid L6 Z.eqb_refl !bool_decide_refl.
  unfold checkpoint_metadata. rw Hm2 Em lookup_insert_eq. cbn [default id andb].
  change (text_field (recovery_metadata (receipt_of execution_id (e_revision e) o expiry now)
    (recovery_receipt_payload execution_id (e_revision e) o expiry now) sp) FINGERPRINT_KEY)
    with (Some (receipt_of execution_id (e_revision e) o expiry now)).
  unfold receipt_of. by rw bool_decide_refl.
Qed.
End Recovery.

(** ** Failing an execution that has no safe point *)

Lemma context_set r j f : e_payload r = set_columns j [("context_state"%string, JObj f)] -> e_context_state r = f.
Proof.
  intros E. unfold e_context_state. rw E. unfold set_columns. cbn [json_fields foldl fst snd].
  by rw dict_get_set bool_decide_refl.
Qed.

(** [failure_fences_and_replays]: an execution that is failed from the expired lease that was
    observed is FAILED with the reason, its owner fenced out for good, and a caller who asks
    again gets the same row. *)
Theorem failure_fences_and_replays db execution_id source owner generation expiry now reason db' r e :
  get_execution (rv_agents db) execution_id = Some e -> e_state e = "RUNNING"%string ->
  fail_expired_execution_unrecoverable db execution_id source owner generation expiry now reason = Ok (db', r) ->
  e_state r = "FAILED"%string /\
  e_error r = Some (String.append "R12_STALE_RECOVERY_UNRECOVERABLE:" reason) /\
  (forall ops, fenced_out (runs lease_apply (rv_agents db') ops) execution_id generation) /\
  fail_expired_execution_unrecoverable db' execution_id source owner generation expiry now reason = Ok (db', r).
Proof.
  intros He Hrun H. unfold fail_expired_execution_unrecoverable in H |- *.
  set (o := {| o_owner := owner; o_generation := generation; o_expires_at := Utc expiry; o_takeover_now := Utc now |}) in *.
  apply bind_ok in H as ([] & H1%guard_ok & H). apply bind_ok in H as ([] & H2%guard_ok & H).
  rw He in H. apply bind_ok in H as ([] & H3%guard_ok%bool_decide_eq_true & H).
  set (receipt := terminal_receipt execution_id source o expiry now reason) in *.
  unfold failed_before at 1 in H. rw (bool_decide_eq_false_2 (e_state e = "FAILED")) in H; [congruence|]. cbn [andb] in H.
  apply bind_ok in H as ([] & _ & H). apply bind_ok in H as ([] & _ & H).
  destruct (compare_and_set_expired_execution_terminal _ _ _ _ _ _) as [[a [row|]]|[m|f]] eqn:E; [|done|done|done].
  injection H as <- <-. unfold compare_and_set_expired_execution_terminal in E. inv_lease.
  destruct x as [x1 x2]. inv_lease. pose proof (takeover_row _ _ _ _ _ _ _ _ _ E) as (Hr & Hg & Ho & Hrev).
  apply update_execution_where_some in E as (e0 & He0 & _ & -> & _ & ->). unfold get_execution in He. rw He0 in He. injection He as ->.
  set (r := set_exec_revision _ _) in *.
  assert (e_state r = "FAILED"%string /\ e_error r = Some (String.append "R12_STALE_RECOVERY_UNRECOVERABLE:" reason) /\
    e_task_id r = e_task_id e /\ e_lease_expires_at r = None /\
    e_payload r = set_columns (e_payload e)
      [("context_state"%string, JObj (dict_set TERMINAL_RECEIPT_KEY receipt (e_context_state e)))]) as (S1 & S2 & S3 & S4 & S5)
    by (unfold r; by destruct e).
  apply context_set in S5.
  split_and!; [done|done| |].
  - intros ops. change (rv_agents (with_rows _ ?a)) with a.
    destruct (runs_evolves _ ops _ _ Hr) as (e2 & Hx2 & Hv). eapply stale_fenced_out; [exact Hx2|].
    simpl in Hg. destruct Hv as [?|[? _]]; lia.
  - rw H1 H2. cbn [guard_err mbind result_bind]. unfold get_execution. change (rv_agents (with_rows _ ?a)) with a.
    rw Hr S3 H3 bool_decide_refl. cbn [guard_err mbind result_bind].
    assert (failed_before r source o reason receipt = true) as ->; [|done].
    unfold failed_before, meta_get, py_eq. rw S1 S2 S4 S5 Hrev Ho Hg !Z.eqb_refl dict_get_set !bool_decide_refl.
    unfold receipt, terminal_receipt. cbn [andb]. by rw bool_decide_refl.
Qed.

(** ** An execution whose owner is lost in the middle of a batch *)

Definition text_message (role text : string) (calls : list json) : json :=
  JObj [("role", JStr role); ("content", JStr text); ("tool_calls", JArr calls)].

Definition call_json (id : string) : json :=
  JObj [("id", JStr id); ("name", JStr "cap"); ("arguments", JObj [])].

(** One call of the batch has its result, the other one is parked. *)
Definition lost_transcript : list json :=
  [text_message "user" "hello" []; text_message "assistant" "" [call_json "done"; call_json "call"];
   JObj [("role", JStr "tool"); ("tool_call_id", JStr "done"); ("content", JStr "not committed yet")]].

Definition lost_execution : ExecutionRow := {|
  e_id := "e1"; e_agent_id := "agent"; e_task_id := None; e_branch_id := None;
  e_parent_execution_id := None; e_state := "RUNNING"; e_wait_reason := None;
  e_revision := 3; e_owner_instance_id := Some "a"; e_lease_expires_at := Some 50;
  e_lease_generation := 2; e_current_checkpoint_id := None; e_wait_expires_at := None;
  e_completed_at := None; e_error := None;
  e_payload := JObj [("session_id", JStr "s"); ("transcript", JArr lost_transcript)] |}.

Definition done_result : ToolResultRow := {|
  rs_invocation_id := "inv0"; rs_capability_id := "cap"; rs_success := true; rs_output := JStr "ok";
  rs_error_code := None; rs_error_message := None; rs_retryable := false; rs_commit_state := COMMITTED_RESULT |}.

Definition lost_db : RecoveryDB := {|
  rv_wait := {|
    wd_resume := {|
      rd_agents := {| db_tasks := ∅; db_budgets := ∅; db_reservations := ∅;
                      db_executions := {["e1" := lost_execution]};
                      db_branches := ∅; db_allocator := None; db_bindings := ∅ |};
      rd_claims := ∅; rd_checkpoints := ∅; rd_pending := ∅; rd_iterations := ∅;
      rd_tool_calls := <[("e1", "call") := {| tc_invocation_id := "inv"; tc_capability_id := "cap" |}]>
        {[("e1", "done") := {| tc_invocation_id := "inv0"; tc_capability_id := "cap" |}]};
      rd_tool_results := {[("e1", "done") := done_result]};
      rd_store := Sql.put (Sql.empty true) parked_invocation |};
    wd_transcripts := empty_store |};
  rv_iterations := {["it1" := {| ir_id := "it1"; ir_execution_id := "e1"; ir_iteration := 1;
                                  ir_tool_call_ids := ["done"; "call"]; ir_transcript := None |}]};
  rv_call_iteration := <[("e1", "call") := "it1"]> {[("e1", "done") := "it1"]};
  rv_metadata := ∅ |}%string.

Lemma lost_db_wf : wait_wf demo_digest (rv_wait lost_db).
Proof.
  split; [apply empty_store_wf|done|done|done|by apply parked_keyed|].
  intros id e. unfold get_execution. simpl. rw lookup_insert_Some lookup_empty. by intros [[<- <-]|[_ [=]]].
Qed.

Definition point_calls (r : result string R7CSafePoint) : bool :=
  match r with
  | Ok sp => bool_decide (map fst (r7_tool_calls sp) = ["done"; "call"]%string) &&
             bool_decide (map rf_ordinal (r7_pending sp) = [1])
  | Err _ => false
  end.

Lemma lost_point : point_calls (reconstruct_r7c_safe_point demo_digest lost_db lost_execution true) = true.
Proof. vm_compute. reflexivity. Qed.

Lemma safe_point_sound_witness : exists sp,
  reconstruct_r7c_safe_point demo_digest lost_db lost_execution true = Ok sp /\
  StronglySorted Z.lt (map rf_ordinal (r7_pending sp)) /\
  Forall (safe_item lost_db "e1" ["done"; "call"]%string) (r7_transcript sp).
Proof.
  pose proof (safe_point_sound demo_digest lost_db lost_execution) as T. pose proof lost_point as Hc. revert T Hc.
  generalize (reconstruct_r7c_safe_point demo_digest lost_db lost_execution true).
  intros [sp|x] T Hc; [|discriminate Hc]. exists sp. unfold point_calls in Hc. breflect.
  destruct (T sp eq_refl) as (_ & _ & _ & _ & _ & Hs & Hf & _).
  match goal with H : map fst _ = _ |- _ => rw H in Hf end. by split_and!.
Defined.

Definition lost_commit : RecoveryDB -> result RecoveryError (RecoveryDB * ExecutionRow) :=
  fun db => commit_recovery_waiting_checkpoint demo_digest 5 (fun d => d) db "e1" observed_a (Some 3).

Definition recovered (r : result RecoveryError (RecoveryDB * ExecutionRow)) : bool :=
  match r with Ok (_, e) => bool_decide (e_state e = "WAITING"%string) | Err _ => false end.

Lemma lost_recovers : recovered (lost_commit lost_db) = true.
Proof. vm_compute. reflexivity. Qed.

Lemma recovery_takes_over_witness : exists db' r, lost_commit lost_db = Ok (db', r) /\
  taken_over observed_a (Some 3) r = true /\
  e_current_checkpoint_id r = Some (checkpoint_identity "e1" 4).
Proof.
  pose proof (fun db' r => recovery_takes_over demo_digest demo_is_hex 5 (fun d => d) lost_db "e1" observed_a (Some 3)
    db' r lost_execution lost_db_wf eq_refl eq_refl) as T.
  pose proof lost_recovers as Hc. change (commit_recovery_waiting_checkpoint _ _ _ lost_db _ _ _) with (lost_commit lost_db) in T.
  revert T Hc. generalize (lost_commit lost_db). intros [[db' r]|x] T Hc; [|discriminate Hc].
  destruct (T db' r eq_refl) as (expiry & now & _ & _ & H1 & H2 & _). exists db', r. by split_and!.
Defined.

Lemma recovery_replayed_witness : exists db' r, lost_commit lost_db = Ok (db', r) /\
  lost_commit db' = Ok (db', r).
Proof.
  pose proof (fun db' r => recovery_replayed demo_digest demo_is_hex 5 5 (fun d => d) (fun d => d) lost_db "e1" observed_a
    (Some 3) db' r lost_execution db' lost_db_wf eq_refl eq_refl eq_refl) as T.
  pose proof (fun db' r => commit_stored demo_digest 5 (fun d => d) lost_db "e1" observed_a (Some 3) db' r
    lost_execution lost_db_wf eq_refl eq_refl) as S.
  pose proof lost_recovers as Hc.
  change (commit_recovery_waiting_checkpoint _ _ _ lost_db _ _ _) with (lost_commit lost_db) in T, S.
  revert T S Hc. generalize (lost_commit lost_db). intros [[db' r]|x] T S Hc; [|discriminate Hc].
  exists db', r. split; [done|]. apply (T db' r eq_refl); [by apply S|done].
Defined.

Lemma failure_fences_and_replays_witness : exists db' r,
  fail_expired_execution_unrecoverable lost_db "e1" 3 "a" 2 50 60 "SAFE_POINT_TRANSCRIPT_CORRUPT" = Ok (db', r) /\
  e_state r = "FAILED"%string.
Proof.
  pose proof (fun db' r => failure_fences_and_replays lost_db "e1" 3 "a" 2 50 60 "SAFE_POINT_TRANSCRIPT_CORRUPT" db' r
    lost_execution eq_refl eq_refl) as T.
  assert (is_ok (fail_expired_execution_unrecoverable lost_db "e1" 3 "a" 2 50 60 "SAFE_POINT_TRANSCRIPT_CORRUPT") = true)
    as Hc by (vm_compute; reflexivity).
  revert T Hc. generalize (fail_expired_execution_unrecoverable lost_db "e1" 3 "a" 2 50 60 "SAFE_POINT_TRANSCRIPT_CORRUPT").
  intros [[db' r]|x] T Hc; [|discriminate Hc]. exists db', r. split; [done|]. by apply (T db' r eq_refl).
Defined.
