(* ===== verification/TaskRecoveryProperties.v ===== *)
(** * Properties of the evacuation of executions of tasks
    (file TaskRecovery, over RecoveryCommit, TaskBudgetConcurrency and ExecutionLease)

    A transaction that commits has moved the execution and given back one unit of capacity of
    the budget with its reservation, or it found all of that done before by a transaction with
    the same receipt.  An attempt that does not commit changes nothing. *)

From S2P Require Import Prelude Canonical CanonicalInjectivity ResumeTicket TaskBudgetSchema AgentStore TaskBudgetService.
From S2P Require Import TaskBudgetLaws TaskBudgetConcurrency TaskActivity ExecutionLease Invocation InvocationStores.
From S2P Require Import ResumeClaimStore ResumeClaimConsume ResumeClaimProperties ResumePlanning ResumePlanningProperties.
From S2P Require Import Transcript TranscriptProperties TranscriptWriterProperties.
From S2P Require Import WaitingCheckpoint WaitingCheckpointProperties SafePoint SafePointProperties RecoveryCommit.
From S2P Require Import TaskRecovery RecoveryProperties.

(** ** The parts of a transaction *)

Lemma require_task_ok b u : require_task b = Ok u -> b = true.
Proof. unfold require_task, conflict. by destruct b. Qed.

Lemma lift_budget_ok {A} (r : result TBError A) a : lift_budget r = Ok a -> r = Ok a.
Proof. unfold lift_budget, conflict. destruct r as [x|[]]; simpl; repeat case_match; try done. by intros [= ->]. Qed.

Lemma lift_store_inv {A} (r : result StoreError A) a : lift_store r = Ok a -> r = Ok a.
Proof. unfold lift_store. destruct r; [by intros [= ->]|done]. Qed.

(** The budget row after one execution was released. *)
Definition released_row (row : BudgetRow) (delegated : bool) : BudgetRow :=
  apply_values row
    [SetActiveExecutions (active_executions (row_counters row) - 1);
     SetActiveParallelAgents (drop_if delegated (active_parallel_agents (row_counters row)))] (row_revision row + 1).

Lemma release_capacity_ok db task_id row delegated db' :
  get_task_budget (rv_agents db) task_id = Some row -> release_capacity db task_id row delegated = Ok db' ->
  0 < active_executions (row_counters row) /\ row_checks (released_row row delegated) = true /\
  db' = with_rows db (with_budgets (rv_agents db) (<[task_id := released_row row delegated]> (db_budgets (rv_agents db)))).
Proof.
  intros Hr H. unfold release_capacity in H. apply bind_ok in H as (b & Hb%lift_budget_ok%budget_from_record_ok & H).
  subst b. apply bind_ok in H as (vals & Hv%lift_budget_ok & H).
  apply bind_ok in H as ([a c] & Hc%lift_budget_ok%lift_store_inv & H). destruct c as [r'|]; [|done]. injection H as <-.
  apply cas_budget_some in Hc as (r & Hr' & _ & _ & -> & Hck & ->). unfold get_task_budget in Hr. rw Hr in Hr'.
  injection Hr' as <-. unfold mutate_release in Hv. apply bind_ok in Hv as ([] & Ha & Hv).
  apply bind_ok in Hv as ([] & _ & Hv). injection Hv as <-. apply guard_ok in Ha. unfold row_counters. breflect.
  split; [lia|]. by split.
Qed.

Lemma take_row_ok db r db' : take_row db r = Ok db' -> exists a e, r = Ok (a, Some e) /\ db' = with_rows db a.
Proof.
  unfold take_row. destruct r as [[a [e|]]|[m|[]]]; try done. intros H. injection H as <-. by exists a, e.
Qed.

Lemma save_release_ok db task_id x target g fp db' : save_release db task_id x target g fp = Ok db' ->
  exists row, db_budgets (rv_agents db) !! task_id = Some row /\
    db_reservations (rv_agents db) !! (task_id, RELEASE_EXECUTION, revision_key x target) = None /\
    db' = with_rows db (with_reservations (rv_agents db)
      (<[(task_id, RELEASE_EXECUTION, revision_key x target) :=
         {| res_generation := row_generation row; res_fingerprint := fp |}]> (db_reservations (rv_agents db)))).
Proof.
  intros H. unfold save_release in H. apply bind_ok in H as (a & Ha%lift_budget_ok%lift_store_inv & H). injection H as <-.
  apply save_reservation_ok in Ha as (row & Hr & Hn & ->). by exists row.
Qed.

Lemma read_task_ok db task_id x expected e row : read_task_execution db task_id x expected = Ok (e, row) ->
  get_execution (rv_agents db) x = Some e /\ default ""%string (e_task_id e) = task_id /\
  get_task_budget (rv_agents db) task_id = Some row /\ generation_matches expected (row_generation row) = true.
Proof.
  unfold read_task_execution. destruct (get_execution (rv_agents db) x) as [e'|]; [|done]. intros H.
  apply bind_ok in H as ([] & Ht%require_task_ok%bool_decide_eq_true & H).
  destruct (get_task_budget _ _) as [row'|]; [|done]. apply bind_ok in H as ([] & Hg%require_task_ok & H).
  by injection H as <- <-.
Qed.

(** ** Safe points do not depend on the budget tables *)

Lemma sanitize_rows db a x active raw :
  sanitize_transcript (with_rows db a) x active raw = sanitize_transcript db x active raw.
Proof.
  unfold sanitize_transcript.
  assert (forall l, sanitize_messages (with_rows db a) x active l = sanitize_messages db x active l) as ->; [|done].
  induction l as [|j l IH]; [done|]. simpl. by rw IH.
Qed.

Lemma same_batch_rows db a : same_batch_tables db (with_rows db a).
Proof. by split. Qed.

Lemma reconstruct_rows digest db a e require sp :
  reconstruct_r7c_safe_point digest db e require = Ok sp ->
  reconstruct_r7c_safe_point digest (with_rows db a) e require = Ok sp.
Proof.
  intros H. unfold reconstruct_r7c_safe_point in *. apply bind_ok in H as ([] & -> & H). cbn [mbind result_bind].
  apply bind_ok in H as ([] & H1 & H). change (list_iterations (with_rows db a) (e_id e)) with (list_iterations db (e_id e)).
  rw H1. cbn [mbind result_bind]. apply bind_ok in H as (cut & H2 & H).
  change (read_cut digest (with_rows db a) e) with (read_cut digest db e). rw H2. cbn [mbind result_bind].
  apply bind_ok in H as (active & H3 & H). rw H3. cbn [mbind result_bind].
  apply bind_ok in H as (ids & H4 & H). rw H4. cbn [mbind result_bind]. apply bind_ok in H as (slots & H5 & H).
  assert (match active with
          | Some r => batch_slots (with_rows db a) (e_id e) (ir_id r) require 0 ids
          | None => Ok ([], [])
          end = Ok slots) as ->.
  { destruct active as [r|]; [|done]. by rw (batch_slots_same db _ _ _ _ _ (same_batch_rows db a)). }
  cbn [mbind result_bind]. apply bind_ok in H as (safe & H6 & H). rw sanitize_rows H6. cbn [mbind result_bind].
  apply bind_ok in H as (unresolved & H7 & H). rw H7. cbn [mbind result_bind].
  apply bind_ok in H as ([] & H8 & H). rw H8. cbn [mbind result_bind]. apply bind_ok in H as ([] & H9 & H).
  assert (check_prefix (with_rows db a) e cut ids safe = Ok tt) as ->; [|done].
  rw -H9. unfold check_prefix. destruct cut as [c|]; [|done]. destruct (_ <? _); [|done]. by rw sanitize_rows.
Qed.

(** ** A takeover step by step *)

Section TaskRecovery.
Context (digest : string -> string).
Context (digest_hex : forall s, sha256_hex (digest s) = true).

Lemma wait_wf_rows db a : wait_wf digest (rv_wait db) -> db_executions a = db_executions (rv_agents db) ->
  wait_wf digest (rv_wait (with_rows db a)).
Proof.
  intros [W1 W2 W3 W4 W5 W6] E. split; try done. intros x e. unfold get_execution.
  change (wd_agents (rv_wait (with_rows db a))) with a. rw E. apply W6.
Qed.

(** The capacity given back, and the reservation that says so. *)
Definition released_in (db : RecoveryDB) (task_id : string) (row : BudgetRow) (delegated : bool) : RecoveryDB :=
  with_rows db (with_budgets (rv_agents db) (<[task_id := released_row row delegated]> (db_budgets (rv_agents db)))).

Definition reserved_in (db : RecoveryDB) (task_id execution_id : string) (target generation : Z) (fingerprint : string)
    : RecoveryDB :=
  with_rows db (with_reservations (rv_agents db)
    (<[(task_id, RELEASE_EXECUTION, revision_key execution_id target) :=
       {| res_generation := generation; res_fingerprint := fingerprint |}]> (db_reservations (rv_agents db)))).

(** The transaction found its work done before. *)
Record recovered_before (db : RecoveryDB) (task_id execution_id : string) (e : ExecutionRow) (row : BudgetRow)
    (o : Observed) (expiry now : Z) : Prop := {
  rb_pointer : e_current_checkpoint_id e = Some (checkpoint_identity execution_id (e_revision e));
  rb_receipt : receipt_stored db execution_id (e_revision e)
    (receipt_of execution_id (e_revision e - 1) o expiry now) = true;
  rb_release : exists res,
    db_reservations (rv_agents db) !! (task_id, RELEASE_EXECUTION, revision_key execution_id (e_revision e)) = Some res /\
    res_fingerprint res = release_fingerprint execution_id (e_revision e)
      (recovery_receipt_payload execution_id (e_revision e - 1) o expiry now)
      (bool_decide (is_Some (e_parent_execution_id e)))
}.

Lemma verify_release_ok db task_id x target g fp u : verify_release db task_id x target g fp = Ok u ->
  exists res, db_reservations (rv_agents db) !! (task_id, RELEASE_EXECUTION, revision_key x target) = Some res /\
    res_fingerprint res = fp.
Proof.
  unfold verify_release, get_release, get_task_budget_reservation. intros H.
  destruct (db_reservations _ !! _) as [res|]; [|done]. destruct (generation_matches _ _); [|done].
  apply lift_budget_ok in H. unfold verify_reservation in H. apply guard_ok, bool_decide_eq_true in H. by exists res.
Qed.

Lemma recover_cases clock db task_id x e row o expiry now orev db' rev :
  wait_wf digest (rv_wait db) -> get_execution (rv_agents db) x = Some e ->
  get_task_budget (rv_agents db) task_id = Some row ->
  recover_transaction digest clock db task_id x e row o expiry now orev = Ok (db', rev) ->
  (taken_over o orev e = true /\ db' = db /\ rev = e_revision e /\
   recovered_before db task_id x e row o expiry now) \/
  (matches_observed o expiry now orev e = true /\ rev = e_revision e + 1 /\
   let delegated := bool_decide (is_Some (e_parent_execution_id e)) in
   0 < active_executions (row_counters row) /\ row_checks (released_row row delegated) = true /\
   db_reservations (rv_agents db) !! (task_id, RELEASE_EXECUTION, revision_key x rev) = None /\
   exists sp db3 r, reconstruct_r7c_safe_point digest db e true = Ok sp /\
     evacuated digest clock (released_in db task_id row delegated) db3 x e r o expiry now sp /\
     db' = reserved_in db3 task_id x rev (row_generation row)
             (release_fingerprint x rev (recovery_receipt_payload x (e_revision e) o expiry now) delegated)).
Proof.
  intros W He Hrow H. unfold recover_transaction in H. destruct (taken_over o orev e) eqn:Et.
  { left. apply bind_ok in H as ([] & H1%require_task_ok%bool_decide_eq_true & H).
    apply bind_ok in H as ([] & H2%verify_release_ok & H). apply bind_ok in H as ([] & H3%require_task_ok & H).
    injection H as <- <-. by split_and!. }
  right. apply bind_ok in H as ([] & Hm%require_task_ok & H). apply bind_ok in H as ([] & _ & H).
  apply bind_ok in H as (sp & Hsp & H).
  destruct (reconstruct_r7c_safe_point digest db e true) as [sp'|] eqn:Er; [|done]. injection Hsp as ->.
  apply bind_ok in H as (db1 & Hc & H). apply (release_capacity_ok _ _ _ _ _ Hrow) in Hc as (Hact & Hck & ->).
  fold (released_in db task_id row (bool_decide (is_Some (e_parent_execution_id e)))) in H.
  set (db1 := released_in db task_id row _) in *.
  apply bind_ok in H as ([db2 staged] & Hs & H). unfold stage_recovery in Hs.
  assert (wait_wf digest (rv_wait db1)) as W1 by (by apply wait_wf_rows).
  destruct (stage_waiting_checkpoint _ _ _ _ _ _ _ _) as [[w staged']|[m|what|]] eqn:Es; try done.
  injection Hs as <- ->. apply stage_ok in Es as [-> Hs]; [|by apply W1|apply W1].
  apply bind_ok in H as (db3 & Hp & H). apply take_row_ok in Hp as (a & r & Hcas & ->).
  apply recovery_cas_ok in Hcas as (e0 & He0 & Hr & ->).
  match type of He0 with get_execution (rv_agents ?d) _ = _ =>
    assert (rv_agents d = rv_agents db1) as Ea by exact (sw_agents _ _ _ _ _ _ _ _ _ Hs) end.
  rw Ea in He0. change (get_execution (rv_agents db1) x) with (get_execution (rv_agents db) x) in He0.
  rw He in He0. injection He0 as <-. apply bind_ok in H as (db4 & Hsv & H). injection H as <- <-.
  apply save_release_ok in Hsv as (row' & Hrow' & Hn & ->).
  rw Ea in Hn, Hrow'. change (db_reservations (with_executions (rv_agents db1) _)) with (db_reservations (rv_agents db)) in Hn.
  change (db_budgets (rv_agents (with_rows _ (with_executions (rv_agents db1) _))))
    with (<[task_id := released_row row (bool_decide (is_Some (e_parent_execution_id e)))]> (db_budgets (rv_agents db))) in Hrow'.
  rw lookup_insert_eq in Hrow'. injection Hrow' as <-.
  cbv zeta. split_and!; [done|done|done|done|done|]. exists sp. eexists _, r. split; [done|].
  split; [|rw Ea; reflexivity]. split; try done.
  - by apply reconstruct_rows.
  - by exists w.
Qed.
End TaskRecovery.

(** ** The loop *)

(** [attempted envs tr db g n d g']: attempt number [n] of a loop that starts on [db] finds the
    database [d] (before the transactions of others), bound to the incarnation [g']. *)
Inductive attempted (task_id execution_id : string)
    (tr : Z -> ExecutionRow -> BudgetRow -> RecoveryDB -> result TaskFailure (RecoveryDB * Z))
    : (nat -> TaskAttempt) -> RecoveryDB -> option Z -> nat -> RecoveryDB -> option Z -> Prop :=
  | attempted_first envs db g : attempted task_id execution_id tr envs db g O db g
  | attempted_later envs db g db1 g1 n d g' :
      task_attempt (envs O) db task_id execution_id g (tr (ta_clock (envs O))) = (db1, inr g1) ->
      attempted task_id execution_id tr (fun i => envs (S i)) db1 g1 n d g' ->
      attempted task_id execution_id tr envs db g (S n) d g'.

Section Loop.
Context (task_id x : string).
Context (tr : Z -> ExecutionRow -> BudgetRow -> RecoveryDB -> result TaskFailure (RecoveryDB * Z)).

Lemma attempt_answers (a : TaskAttempt) d g d' m : task_attempt a d task_id x g (tr (ta_clock a)) = (d', inl (Ok m)) ->
  exists e row, get_execution (rv_agents (ta_before a d)) x = Some e /\ default ""%string (e_task_id e) = task_id /\
    get_task_budget (rv_agents (ta_before a d)) task_id = Some row /\
    tr (ta_clock a) e row (ta_before a d) = Ok (d', m).
Proof.
  unfold task_attempt, operational. destruct (ta_fault a) as [[]|]; [done..|].
  destruct (read_task_execution _ _ _ _) as [[e row]|[]] eqn:E; [|done..].
  apply read_task_ok in E as (He & Ht & Hr & _).
  destruct (tr _ e row _) as [[d2 m2]|[]] eqn:Et; [|done..].
  destruct (ta_commit_fault a) as [[[]|[]]|]; try done. intros [= -> ->]. by exists e, row.
Qed.

Lemma loop_answers fuel : forall envs db g db' m,
  task_loop fuel envs db task_id x g tr = (db', Ok m) ->
  exists n d g', (n < fuel)%nat /\ attempted task_id x tr envs db g n d g' /\
    task_attempt (envs n) d task_id x g' (tr (ta_clock (envs n))) = (db', inl (Ok m)).
Proof.
  induction fuel as [|fuel IH]; intros envs db g db' m H; simpl in H; [done|].
  destruct (task_attempt _ _ _ _ _ _) as [d1 [answer|g1]] eqn:E.
  - injection H as <- ->. exists O, db, g. split_and!; [lia|constructor|done].
  - apply IH in H as (n & d & g' & Hn & Hr & Ha). exists (S n), d, g'. split_and!; [lia|by econstructor|done].
Qed.

(** What the transactions of others and the ones of the loop keep. *)
Section Kept.
Context (P : RecoveryDB -> Prop).
Context (tr_keeps : forall clock e row d d' m, P d -> get_execution (rv_agents d) x = Some e ->
  get_task_budget (rv_agents d) task_id = Some row -> tr clock e row d = Ok (d', m) -> P d').

Lemma attempt_keeps (a : TaskAttempt) d g : (forall d, P d -> P (ta_before a d)) -> P d ->
  P (task_attempt a d task_id x g (tr (ta_clock a))).1.
Proof.
  intros Hb Hd%Hb. unfold task_attempt, operational. destruct (ta_fault a) as [[]|]; [done..|].
  destruct (read_task_execution _ _ _ _) as [[e row]|[]] eqn:E; [|done..].
  apply read_task_ok in E as (He & _ & Hr & _).
  destruct (tr _ e row _) as [[d' m]|[]] eqn:Et; [|done..].
  pose proof (tr_keeps _ _ _ _ _ _ Hd He Hr Et). by destruct (ta_commit_fault a) as [[[]|[]]|].
Qed.

Lemma loop_keeps fuel : forall envs db g, (forall n d, P d -> P (ta_before (envs n) d)) -> P db ->
  P (task_loop fuel envs db task_id x g tr).1.
Proof.
  induction fuel as [|fuel IH]; intros envs db g Hb Hd; simpl; [done|].
  pose proof (attempt_keeps (envs O) db g (Hb O) Hd) as H1.
  destruct (task_attempt _ _ _ _ _ _) as [d1 [answer|g1]]; [done|]. apply IH; [|done]. intros n. apply Hb.
Qed.

Lemma attempted_keeps envs db g n d g' : attempted task_id x tr envs db g n d g' ->
  (forall n d, P d -> P (ta_before (envs n) d)) -> P db -> P d.
Proof.
  induction 1 as [|envs db g db1 g1 n d g' E _ IH]; intros Hb Hd; [done|]. apply IH; [intros i; apply Hb|].
  pose proof (attempt_keeps (envs O) db g (Hb O) Hd) as H1. by rw E in H1.
Qed.
End Kept.
End Loop.

(** ** Theorems *)

Section Takeover.
Context (digest : string -> string).
Context (digest_hex : forall s, sha256_hex (digest s) = true).

(** A transaction that moved the execution, on every table it writes. *)
Record task_taken_over (db db' : RecoveryDB) (task_id x : string) (e r : ExecutionRow) (row : BudgetRow)
    (o : Observed) (expiry now : Z) (sp sp' : R7CSafePoint) : Prop := {
  to_waiting : get_execution (rv_agents db') x = Some r /\ taken_over o (Some (e_revision e)) r = true /\
    e_current_checkpoint_id r = Some (checkpoint_identity x (e_revision e + 1));
  to_fenced ops : fenced_out (runs lease_apply (rv_agents db') ops) x (o_generation o);
  to_point : reconstruct_r7c_safe_point digest db e true = Ok sp;
  to_frozen : frozen_batch (rv_resume db) x (r7_pending sp)
    (default [] (rd_pending (rv_resume db') !! checkpoint_identity x (e_revision e + 1)));
  to_same : reconstruct_r7c_safe_point digest db' r true = Ok sp' /\ same_safe_point sp sp';
  to_budget : 0 < active_executions (row_counters row) /\
    let delegated := bool_decide (is_Some (e_parent_execution_id e)) in
    row_checks (released_row row delegated) = true /\
    db_budgets (rv_agents db') = <[task_id := released_row row delegated]> (db_budgets (rv_agents db)) /\
    db_reservations (rv_agents db) !! (task_id, RELEASE_EXECUTION, revision_key x (e_revision e + 1)) = None /\
    db_reservations (rv_agents db') = <[(task_id, RELEASE_EXECUTION, revision_key x (e_revision e + 1)) :=
      {| res_generation := row_generation row;
         res_fingerprint := release_fingerprint x (e_revision e + 1)
           (recovery_receipt_payload x (e_revision e) o expiry now) delegated |}]> (db_reservations (rv_agents db));
  to_others y : y <> x -> get_execution (rv_agents db') y = get_execution (rv_agents db) y;
  to_checkpoints k : k <> checkpoint_identity x (e_revision e + 1) ->
    rd_checkpoints (rv_resume db') !! k = rd_checkpoints (rv_resume db) !! k
}.

Lemma transaction_takes_over clock db task_id x e row o expiry now orev db' rev :
  wait_wf digest (rv_wait db) -> get_execution (rv_agents db) x = Some e ->
  get_task_budget (rv_agents db) task_id = Some row ->
  recover_transaction digest clock db task_id x e row o expiry now orev = Ok (db', rev) ->
  wait_wf digest (rv_wait db') /\
  ((db' = db /\ taken_over o orev e = true /\ rev = e_revision e /\
    recovered_before db task_id x e row o expiry now) \/
   (matches_observed o expiry now orev e = true /\ rev = e_revision e + 1 /\
    exists r sp sp', task_taken_over db db' task_id x e r row o expiry now sp sp')).
Proof.
  intros W He Hrow H. destruct (recover_cases digest _ _ _ _ _ _ _ _ _ _ _ _ W He Hrow H)
    as [(H1 & -> & -> & H2)|(Hm & -> & Hact & Hck & Hn & sp & db3 & r & Hsp & Hev & ->)]; [split; [done|by left]|].
  set (delegated := bool_decide (is_Some (e_parent_execution_id e))) in *.
  assert (wait_wf digest (rv_wait (released_in db task_id row delegated))) as W1 by (by apply wait_wf_rows).
  destruct (evacuated_outcome digest digest_hex _ _ _ _ _ _ _ _ _ _ W1 He Hev)
    as (O1 & O2 & O3 & O4 & O5 & O6 & (sp' & O7 & O7') & O8 & O9).
  pose proof (evacuated_agents digest _ _ _ _ _ _ _ _ _ _ Hev) as Ea.
  split; [by apply wait_wf_rows|]. right. split; [done|]. split; [done|]. exists r, sp, sp'. split; try done.
  - intros ops. by apply O5.
  - destruct O6 as [F1 F2 F3 F4]. by split.
  - split; [by apply reconstruct_rows|done].
  - split_and!; try done; unfold reserved_in; change (rv_agents (with_rows _ ?a)) with a; simpl; by rw Ea.
Qed.

(** C13 task_recovery_takes_over: when the takeover of an execution that belongs to a task
    returns, whatever other transactions, lost races, locks and uncertain commits its attempts
    met, its last attempt found one of two databases.  Either the execution waited for recovery
    already, at the checkpoint with this very receipt and with the release reservation of this
    receipt (an earlier attempt whose commit was not acknowledged, or the same call before), and
    nothing changed; or it ran under exactly the expired lease that was observed, and one
    transaction moved it to WAITING(RECOVERY) at its safe point, fenced its owner out for good,
    and gave exactly one active execution (and one agent slot, if it was delegated) of the
    task's budget back with one fresh release reservation; reconstructing from the new row
    gives the same safe point again (its transcript equal for Python), and the other
    executions and checkpoints are as before. *)
Theorem task_recovery_takes_over cfg envs db task_id x o orev db' rev :
  wait_wf digest (rv_wait db) -> (forall n d, wait_wf digest (rv_wait d) -> wait_wf digest (rv_wait (ta_before (envs n) d))) ->
  recover_task_scoped_execution digest cfg envs db task_id x o orev = (db', Ok rev) ->
  wait_wf digest (rv_wait db') /\
  exists expiry now n d g, task_recovery_args task_id x o orev = Ok (expiry, now) /\ (n < attempts cfg)%nat /\
    attempted task_id x (fun clock e row db => recover_transaction digest clock db task_id x e row o expiry now orev)
      envs db None n d g /\
    let db1 := ta_before (envs n) d in
    exists e row, get_execution (rv_agents db1) x = Some e /\ default ""%string (e_task_id e) = task_id /\
      get_task_budget (rv_agents db1) task_id = Some row /\
      ((db' = db1 /\ taken_over o orev e = true /\ rev = e_revision e /\
        recovered_before db1 task_id x e row o expiry now) \/
       (matches_observed o expiry now orev e = true /\ rev = e_revision e + 1 /\
        exists r sp sp', task_taken_over db1 db' task_id x e r row o expiry now sp sp')).
Proof.
  intros W Hb H. unfold recover_task_scoped_execution in H.
  destruct (task_recovery_args _ _ _ _) as [[expiry now]|] eqn:Ea; [|done].
  set (tr := fun clock e row db => recover_transaction digest clock db task_id x e row o expiry now orev) in *.
  assert (forall clock e row d d' m, wait_wf digest (rv_wait d) -> get_execution (rv_agents d) x = Some e ->
    get_task_budget (rv_agents d) task_id = Some row -> tr clock e row d = Ok (d', m) -> wait_wf digest (rv_wait d')) as Hk
    by (intros; by eapply transaction_takes_over).
  apply loop_answers in H as (n & d & g & Hn & Hd & Ha).
  pose proof (attempted_keeps task_id x tr (fun d => wait_wf digest (rv_wait d)) Hk _ _ _ _ _ _ Hd Hb W) as Wd.
  apply attempt_answers in Ha as (e & row & He & Ht & Hrow & Ha).
  destruct (transaction_takes_over _ _ _ _ _ _ _ _ _ _ _ _ (Hb n d Wd) He Hrow Ha) as [W' Hc].
  split; [done|]. exists expiry, now, n, d, g. split_and!; try done. by exists e, row.
Qed.
End Takeover.

(** For the accounting of the budget a takeover is one charge of the reservation loop. *)
Lemma taken_over_charges digest cfg db db' task_id x e r row o expiry now sp sp' :
  get_task_budget (rv_agents db) task_id = Some row -> db_allocator (rv_agents db') = db_allocator (rv_agents db) ->
  task_taken_over digest db db' task_id x e r row o expiry now sp sp' ->
  budget_txn cfg (rv_agents db) (rv_agents db').
Proof.
  intros Hrow Hal [_ _ _ _ _ (Hact & Hck & Hb & Hn & Hrs) _ _].
  refine (txn_charge cfg _ _ task_id RELEASE_EXECUTION _ row
    (released_row row (bool_decide (is_Some (e_parent_execution_id e)))) _ Hrow Hn eq_refl eq_refl _ _ Hck Hb Hrs Hal); [done|].
  destruct row as [g [? ? ? [] ? ? ? [] ?]]. split; simpl; intros; lia.
Qed.

(** ** An execution of a task whose owner is lost *)

Definition lost_task_execution : ExecutionRow := {|
  e_id := "e1"; e_agent_id := "agent"; e_task_id := Some "t"; e_branch_id := Some "b";
  e_parent_execution_id := None; e_state := "RUNNING"; e_wait_reason := None;
  e_revision := 3; e_owner_instance_id := Some "a"; e_lease_expires_at := Some 50;
  e_lease_generation := 2; e_current_checkpoint_id := None; e_wait_expires_at := None;
  e_completed_at := None; e_error := None;
  e_payload := JObj [("session_id", JStr "s"); ("transcript", JArr lost_transcript)] |}%string.

Definition lost_task_row : BudgetRow := apply_values small_row [SetUsedExecutions 1; SetActiveExecutions 1] 1.

Definition lost_task_db : RecoveryDB :=
  with_rows lost_db {| db_tasks := ∅; db_budgets := {["t" := lost_task_row]}; db_reservations := ∅;
    db_executions := {["e1" := lost_task_execution]}; db_branches := ∅; db_allocator := None; db_bindings := ∅ |}%string.

Lemma lost_task_wf : wait_wf demo_digest (rv_wait lost_task_db).
Proof.
  destruct lost_db_wf as [W1 W2 W3 W4 W5 _]. split; try done.
  intros id e. unfold get_execution. simpl. rw lookup_insert_Some lookup_empty. by intros [[<- <-]|[_ [=]]].
Qed.

Definition quiet (fault : option StepFault) : TaskAttempt :=
  {| ta_before := fun d => d; ta_fault := None; ta_commit_fault := fault; ta_clock := 5 |}.

(** The commit of the first attempt takes effect and raises. *)
Definition unacknowledged_first (n : nat) : TaskAttempt :=
  match n with O => quiet (Some (Unacknowledged LockedOrBusy)) | S _ => quiet None end.

Definition lost_task_recovery : RecoveryDB * result RecoveryError Z :=
  recover_task_scoped_execution demo_digest one_retry unacknowledged_first lost_task_db "t" "e1" observed_a (Some 3).

Definition answers_revision (out : RecoveryDB * result RecoveryError Z) (n : Z) : bool :=
  match out.2 with Ok m => m =? n | Err _ => false end.

Lemma lost_task_recovers : answers_revision lost_task_recovery 4 = true.
Proof. vm_compute. reflexivity. Qed.

Lemma task_recovery_takes_over_witness : exists db', lost_task_recovery = (db', Ok 4) /\
  wait_wf demo_digest (rv_wait db').
Proof.
  pose proof (fun db' rev => task_recovery_takes_over demo_digest demo_is_hex one_retry unacknowledged_first lost_task_db
    "t" "e1" observed_a (Some 3) db' rev lost_task_wf) as T. pose proof lost_task_recovers as Hc.
  change (recover_task_scoped_execution _ _ _ _ _ _ _ _) with lost_task_recovery in T.
  revert T Hc. generalize lost_task_recovery. intros [db' [m|x]] T Hc; [|discriminate Hc].
  assert (m = 4) as -> by (cbn in Hc; lia). exists db'. split; [done|]. apply (T db' 4); [|done]. by intros [].
Defined.
