(* ===== verification/RecoveryControlPlaneProperties.v ===== *)
(** * Properties of the recovery control plane
    (file RecoveryControlPlane, over RecoveryCommit and StaleLeaseScanner)

    Every observation of a sweep is accounted for in its report, and the lease that was observed
    has ended afterwards, unless the report names the execution as deferred. *)

From S2P Require Import Prelude Canonical CanonicalInjectivity ResumeTicket TaskBudgetSchema AgentStore TaskBudgetService.
From S2P Require Import TaskBudgetConcurrency TaskActivity ExecutionLease StaleLeaseScanner Invocation InvocationStores ResumeClaimStore.
From S2P Require Import ResumeClaimConsume ResumeClaimProperties ResumePlanning ResumePlanningProperties.
From S2P Require Import Transcript TranscriptProperties TranscriptWriterProperties.
From S2P Require Import WaitingCheckpoint WaitingCheckpointProperties SafePoint SafePointProperties RecoveryCommit.
From S2P Require Import TaskRecovery RecoveryControlPlane RecoveryProperties TaskRecoveryProperties.

(** ** What the commits leave of the executions *)

(** The rows of the executions are those of [db], but for the one given. *)
Definition one_row_changed (db db' : RecoveryDB) (execution_id : string) (r : ExecutionRow) : Prop :=
  get_execution (rv_agents db') execution_id = Some r /\
  forall x, x <> execution_id -> get_execution (rv_agents db') x = get_execution (rv_agents db) x.

Lemma same_row db execution_id r : get_execution (rv_agents db) execution_id = Some r -> one_row_changed db db execution_id r.
Proof. by split. Qed.

Lemma rows_changed db a execution_id r db0 : rv_agents db = rv_agents db0 ->
  a = with_executions (rv_agents db) (<[execution_id := r]> (db_executions (rv_agents db))) ->
  one_row_changed db0 (with_rows db a) execution_id r.
Proof.
  intros E ->. split; [apply lookup_insert_eq|]. intros x Hx. unfold get_execution.
  change (rv_agents (with_rows db ?a)) with a. simpl. rw lookup_insert_ne; [done|]. by rw E.
Qed.

Lemma stage_agents digest now e source values v refs db db' out :
  stage_waiting_checkpoint digest now e source values v refs db = Ok (db', out) -> wd_agents db' = wd_agents db.
Proof.
  intros H. unfold stage_waiting_checkpoint in H.
  apply wait_bind_ok in H as (db0 & [[id reason] parent] & Hc & H).
  apply check_checkpoint_ok in Hc as (-> & _). apply wait_bind_ok in H as (db1 & [ref version] & Ht & H).
  apply stage_transcript_ok in Ht as (Hr & _). apply wait_bind_ok in H as (db2 & rows & Hf & H).
  apply stage_pending_ok in Hf as (-> & _). apply wait_get_ok in H. apply wait_bind_ok in H as (db3 & u & Hs & H).
  apply save_checkpoint_ok in Hs as (_ & _ & ->). apply wait_bind_ok in H as (db4 & u' & Hp & H). injection H as <- _.
  unfold wd_agents. rw -Hr. destruct rows as [|x rows]; cbn [save_checkpoint_pending_invocations] in Hp; [by injection Hp as <- _|].
  destruct (pending_checks _); [|done]. by injection Hp as <- _.
Qed.

Lemma published_state e staged source generation : e_state (published e staged source generation) = "WAITING"%string.
Proof.
  unfold published, fenced_values. rw !apply_exec_values_app. by destruct (apply_exec_values e _).
Qed.

(** A recovery that returns leaves one row changed, and it waits. *)
Lemma commit_recovery_row digest clock others db execution_id o rev db' r :
  commit_recovery_waiting_checkpoint digest clock others db execution_id o rev = Ok (db', r) ->
  e_state r = "WAITING"%string /\
  (one_row_changed db db' execution_id r \/ one_row_changed (others db) db' execution_id r).
Proof.
  intros H. unfold commit_recovery_waiting_checkpoint in H. apply bind_ok in H as ([expiry now] & _ & H).
  destruct (get_execution (rv_agents db) execution_id) as [e|] eqn:He; [|done].
  apply bind_ok in H as ([] & _ & H). destruct (taken_over o rev e) eqn:Et.
  - apply bind_ok in H as ([] & _ & H). apply bind_ok in H as ([] & _ & H). injection H as <- <-.
    unfold taken_over in Et. breflect. split; [done|left; by apply same_row].
  - apply bind_ok in H as ([] & _ & H). unfold take_over in H. apply bind_ok in H as (sp & _ & H).
    destruct (stage_waiting_checkpoint _ _ _ _ _ _ _ _) as [[w staged]|[m|what|]] eqn:Es; [|done|done|].
    + apply publish_ok in H as (e0 & _ & -> & ->). split; [apply published_state|left]. apply rows_changed; [|done].
      apply (stage_agents _ _ _ _ _ _ _ _ _ _ Es).
    + unfold competing_recovery in H. destruct (get_execution (rv_agents (others db)) execution_id) as [r'|] eqn:Er; [|done].
      destruct (_ && _) eqn:Eg; [|done]. injection H as <- <-. unfold taken_over in Eg. breflect.
      split; [done|right; by apply same_row].
Qed.

Lemma fail_expired_row db execution_id source owner generation expiry now reason db' r :
  fail_expired_execution_unrecoverable db execution_id source owner generation expiry now reason = Ok (db', r) ->
  e_state r = "FAILED"%string /\ one_row_changed db db' execution_id r.
Proof.
  intros H. unfold fail_expired_execution_unrecoverable in H.
  apply bind_ok in H as ([] & _ & H). apply bind_ok in H as ([] & _ & H).
  destruct (get_execution (rv_agents db) execution_id) as [e|] eqn:He; [|done]. apply bind_ok in H as ([] & _ & H).
  destruct (failed_before _ _ _ _ _) eqn:Ef.
  - injection H as <- <-. unfold failed_before in Ef. breflect. split; [done|by apply same_row].
  - apply bind_ok in H as ([] & _ & H). apply bind_ok in H as ([] & _ & H).
    destruct (compare_and_set_expired_execution_terminal _ _ _ _ _ _) as [[a [row|]]|[m|f]] eqn:E; [|done|done|done].
    injection H as <- <-. unfold compare_and_set_expired_execution_terminal in E. inv_lease. destruct x as [x1 x2]. inv_lease.
    apply update_execution_where_some in E as (e0 & _ & _ & -> & _ & ->). split; [|by apply rows_changed].
    by destruct e0.
Qed.

Lemma executions_changed db db' execution_id r :
  db_executions (rv_agents db') = <[execution_id := r]> (db_executions (rv_agents db)) ->
  one_row_changed db db' execution_id r.
Proof.
  unfold one_row_changed, get_execution. intros ->. split; [apply lookup_insert_eq|]. intros x Hx. by apply lookup_insert_ne.
Qed.

Lemma recover_transaction_row digest clock db task_id x e row o expiry now orev db' m :
  get_execution (rv_agents db) x = Some e -> get_task_budget (rv_agents db) task_id = Some row ->
  recover_transaction digest clock db task_id x e row o expiry now orev = Ok (db', m) ->
  exists r, e_state r <> "RUNNING"%string /\ one_row_changed db db' x r.
Proof.
  intros He Hrow H. unfold recover_transaction in H. destruct (taken_over o orev e) eqn:Et.
  { apply bind_ok in H as ([] & _ & H). apply bind_ok in H as ([] & _ & H). apply bind_ok in H as ([] & _ & H).
    injection H as <- <-. unfold taken_over in Et. breflect. exists e. split; [congruence|by apply same_row]. }
  apply bind_ok in H as ([] & _ & H). apply bind_ok in H as ([] & _ & H). apply bind_ok in H as (sp & _ & H).
  apply bind_ok in H as (db1 & Hc & H). apply (release_capacity_ok _ _ _ _ _ Hrow) in Hc as (_ & _ & ->).
  apply bind_ok in H as ([db2 staged] & Hs & H). unfold stage_recovery in Hs.
  destruct (stage_waiting_checkpoint _ _ _ _ _ _ _ _) as [[w staged']|[| |]] eqn:Es; try done.
  injection Hs as <- <-. apply stage_agents in Es.
  apply bind_ok in H as (db3 & Hp & H). apply take_row_ok in Hp as (a & r & Hcas & ->).
  apply recovery_cas_ok in Hcas as (e0 & _ & -> & ->). apply bind_ok in H as (db4 & Hsv & H). injection H as <- <-.
  apply save_release_ok in Hsv as (row' & _ & _ & ->). eexists.
  split; [|apply executions_changed; cbn; unfold rv_agents, rv_resume; cbn; unfold wd_agents in Es; rw Es; reflexivity].
  by rw published_state.
Qed.

Lemma fail_transaction_row db task_id x e row o expiry now source reason db' m :
  get_execution (rv_agents db) x = Some e -> get_task_budget (rv_agents db) task_id = Some row ->
  fail_transaction db task_id x e row o expiry now source reason = Ok (db', m) ->
  exists r, e_state r <> "RUNNING"%string /\ one_row_changed db db' x r.
Proof.
  intros He Hrow H. unfold fail_transaction in H. destruct (failed_by o source reason e) eqn:Ef.
  { apply bind_ok in H as ([] & _ & H). injection H as <- <-. unfold failed_by in Ef. breflect.
    exists e. split; [congruence|by apply same_row]. }
  apply bind_ok in H as ([] & _ & H). apply bind_ok in H as ([] & _ & H).
  apply bind_ok in H as (db1 & Hc & H). apply (release_capacity_ok _ _ _ _ _ Hrow) in Hc as (_ & _ & ->).
  apply bind_ok in H as (db3 & Hp & H). apply take_row_ok in Hp as (a & r & E & ->).
  unfold compare_and_set_expired_execution_terminal in E. inv_lease. destruct x0 as [x1 x2]. inv_lease.
  apply update_execution_where_some in E as (e0 & _ & _ & -> & _ & ->).
  apply bind_ok in H as (db4 & Hsv & H). injection H as <- <-. apply save_release_ok in Hsv as (row' & _ & _ & ->).
  eexists. split; [|apply executions_changed; reflexivity]. by destruct e0.
Qed.

(** ** The observed lease has ended *)

(** The row is not the observed lease any more. *)
Definition moved_on (now : Z) (ob : StaleLeaseObservation) (db : RecoveryDB) : Prop :=
  matches_receipt (get_execution (rv_agents db) (ob_execution_id ob)) ob now = false.

Lemma not_running_moved now ob e : e_state e <> "RUNNING"%string -> matches_receipt (Some e) ob now = false.
Proof. intros H. unfold matches_receipt. by rw bool_decide_eq_false_2. Qed.

Lemma changed_moved now ob db db' execution_id r : one_row_changed db db' execution_id r -> e_state r <> "RUNNING"%string ->
  ob_execution_id ob = execution_id \/ moved_on now ob db -> moved_on now ob db'.
Proof.
  intros [H1 H2] Hr Hor. unfold moved_on in *. destruct (decide (ob_execution_id ob = execution_id)) as [E|E].
  - rw E H1. by apply not_running_moved.
  - destruct Hor as [?|Hm]; [done|]. by rw H2.
Qed.

(** What is relied on of the rest of the system during the evacuation of one of the
    observations: no transaction of others gives an ended lease back. *)
Record evacuation_env_ok (now : Z) (obs : list StaleLeaseObservation) (env : EvacuationEnv) : Prop := {
  eo_keeps : forall x db, x ∈ obs -> moved_on now x db ->
    moved_on now x (ee_before_load env db) /\ moved_on now x (ee_before_commit env db) /\
    moved_on now x (ee_after_rollback env db) /\ moved_on now x (ee_before_fail env db) /\
    moved_on now x (ee_before_check env db);
  eo_attempts : forall x n db, x ∈ obs -> moved_on now x db ->
    moved_on now x (ta_before (ee_task_recover env n) db) /\ moved_on now x (ta_before (ee_task_fail env n) db)
}.

Lemma is_ok_fmap {E A B} (f : A -> B) (r : result E A) : is_ok (f <$> r) = is_ok r.
Proof. by destruct r. Qed.

(** A loop of the budget service whose transactions end the lease of the execution. *)
Lemma task_loop_moved now (obs : list StaleLeaseObservation) task_id ob tr fuel envs db db' answer : ob ∈ obs ->
  (forall clock e row d d' m, get_execution (rv_agents d) (ob_execution_id ob) = Some e ->
     get_task_budget (rv_agents d) task_id = Some row -> tr clock e row d = Ok (d', m) ->
     exists r, e_state r <> "RUNNING"%string /\ one_row_changed d d' (ob_execution_id ob) r) ->
  (forall x n d, x ∈ obs -> moved_on now x d -> moved_on now x (ta_before (envs n) d)) ->
  task_loop fuel envs db task_id (ob_execution_id ob) None tr = (db', answer) ->
  (forall x, x ∈ obs -> moved_on now x db -> moved_on now x db') /\ (is_ok answer = true -> moved_on now ob db').
Proof.
  intros Hob Htr Hb H. split.
  - intros x Hx Hm. replace db' with (task_loop fuel envs db task_id (ob_execution_id ob) None tr).1 by (by rw H).
    apply (loop_keeps task_id (ob_execution_id ob) tr (moved_on now x)); [|by intros n d; apply Hb|done].
    intros clock e row d d' m Hd He Hrow Ht. destruct (Htr _ _ _ _ _ _ He Hrow Ht) as (r & Hr & Hc).
    eapply changed_moved; eauto.
  - destruct answer as [m|]; [|done]. intros _.
    apply loop_answers in H as (n & d & g & _ & _ & Ha). apply attempt_answers in Ha as (e & row & He & _ & Hrow & Ha).
    destruct (Htr _ _ _ _ _ _ He Hrow Ha) as (r & Hr & Hc). eapply changed_moved; eauto.
Qed.

Section Sweeps.
Context (digest : string -> string) (cfg : ServiceConfig) (now : Z).

(** What an evacuation of [ob] promises: an ended lease stays ended, and the lease of [ob]
    has ended unless it is deferred, which comes with an error. *)
Definition evacuation_ok (obs : list StaleLeaseObservation) (ob : StaleLeaseObservation) (db : RecoveryDB)
    (out : RecoveryDB * result RecoveryError (Evacuation * option EvacuationError)) : Prop :=
  (forall x, x ∈ obs -> moved_on now x db -> moved_on now x out.1) /\
  match out.2 with
  | Ok (EV_DEFERRED, error) => is_Some error
  | Ok (_, error) => error = None /\ moved_on now ob out.1
  | Err _ => True
  end.

Lemma settle_conflict_ok obs ob env db error : evacuation_env_ok now obs env ->
  evacuation_ok obs ob db (settle_conflict env db ob now error).
Proof.
  intros Henv. unfold settle_conflict. destruct (matches_receipt _ _ _) eqn:E; split; simpl; try done;
    intros x Hx Hm; by apply (eo_keeps _ _ _ Henv x).
Qed.

Lemma evacuation_ok_from obs ob db db1 out : (forall x, x ∈ obs -> moved_on now x db -> moved_on now x db1) ->
  evacuation_ok obs ob db1 out -> evacuation_ok obs ob db out.
Proof. intros H [H1 H2]. split; [|done]. auto. Qed.

Lemma terminalize_ok obs ob env db task reason : evacuation_env_ok now obs env -> ob ∈ obs ->
  evacuation_ok obs ob db (terminalize cfg env db ob task now reason).
Proof.
  intros Henv Hob. unfold terminalize. set (db1 := ee_before_fail env db).
  apply (evacuation_ok_from _ _ _ db1); [intros x Hx Hm; by apply (eo_keeps _ _ _ Henv x)|].
  set (out := match task with None => _ | Some _ => _ end). destruct out as [db2 answer] eqn:E.
  assert ((forall x, x ∈ obs -> moved_on now x db1 -> moved_on now x db2) /\ (is_ok answer = true -> moved_on now ob db2))
    as [K1 K2].
  { unfold out in E. destruct task as [t|].
    - destruct (fail_unrecoverable_task_scoped_execution _ _ _ _ _ _ _ _) as [db3 r] eqn:Ef. injection E as -> <-.
      rw is_ok_fmap. unfold fail_unrecoverable_task_scoped_execution in Ef.
      destruct (guard_err _ _ ≫= _) as [[expiry now']|]; [|by injection Ef as <- <-].
      eapply task_loop_moved; [done| |by intros x n d Hx Hd; apply (eo_attempts _ _ _ Henv x n d)|exact Ef].
      intros clock e row d d' m. apply fail_transaction_row.
    - destruct (fail_expired_execution_unrecoverable _ _ _ _ _ _ _ _) as [[db3 r]|e] eqn:Ef; injection E as -> <-; [|done].
      apply fail_expired_row in Ef as [Hs Hr].
      split; [intros x Hx Hm|intros _]; eapply changed_moved; eauto; by rw Hs. }
  destruct answer as [u|e]; [split; simpl; auto|].
  destruct (is_recovery_conflict e); [|by split].
  by eapply evacuation_ok_from, settle_conflict_ok.
Qed.

Lemma evacuate_ok obs ob env db : evacuation_env_ok now obs env -> ob ∈ obs ->
  evacuation_ok obs ob db (evacuate_observation digest cfg env db ob now).
Proof.
  intros Henv Hob. unfold evacuate_observation. set (db1 := ee_before_load env db).
  apply (evacuation_ok_from _ _ _ db1); [intros x Hx Hm; by apply (eo_keeps _ _ _ Henv x)|].
  destruct (get_execution (rv_agents db1) (ob_execution_id ob)) as [e|] eqn:He; [|split; [done|]; simpl; split; [done|]; unfold moved_on; by rw He].
  destruct (matches_receipt (Some e) ob now) eqn:Em; simpl; [|split; [done|]; simpl; split; [done|]; unfold moved_on; by rw He].
  set (db2 := ee_before_commit env db1).
  apply (evacuation_ok_from _ _ _ db2); [intros x Hx Hm; by apply (eo_keeps _ _ _ Henv x)|].
  set (out := match e_task_id e with None => _ | Some _ => _ end). destruct out as [db3 answer] eqn:E.
  assert ((forall x, x ∈ obs -> moved_on now x db2 -> moved_on now x db3) /\ (is_ok answer = true -> moved_on now ob db3))
    as [K1 K2].
  { unfold out in E. destruct (e_task_id e) as [t|].
    - destruct (recover_task_scoped_execution _ _ _ _ _ _ _ _) as [db4 r] eqn:Ef. injection E as -> <-.
      rw is_ok_fmap. unfold recover_task_scoped_execution in Ef.
      destruct (task_recovery_args _ _ _ _) as [[expiry now']|]; [|by injection Ef as <- <-].
      eapply (task_loop_moved _ _ _ _ _ _ (ee_task_recover env)); [done| |by intros x n d Hx Hd; apply (eo_attempts _ _ _ Henv x n d)|exact Ef].
      intros clock e' row d d' m. apply recover_transaction_row.
    - destruct (commit_recovery_waiting_checkpoint _ _ _ _ _ _ _) as [[d r]|] eqn:Ec; injection E as -> <-; [|done].
      apply commit_recovery_row in Ec as [Hs Hr].
      assert (forall x, x ∈ obs -> ob_execution_id x = ob_execution_id ob \/ moved_on now x db2 -> moved_on now x db3) as Hd.
      { intros x Hx Hor. destruct Hr as [Hr|Hr]; (eapply changed_moved; [exact Hr|by rw Hs|]); [done|].
        destruct Hor as [?|Hm]; [by left|right; by apply (eo_keeps _ _ _ Henv x)]. }
      split; [intros x Hx Hm|intros _]; apply Hd; auto. }
  apply (evacuation_ok_from _ _ _ db3); [done|].
  destruct answer as [u|x]; [by split; simpl; auto|].
  destruct (is_recovery_conflict x); simpl; [|by split]. destruct (safe_point_reason x) as [code|]; [|by apply settle_conflict_ok].
  destruct (bool_decide _); [by apply terminalize_ok|split; [done|by eexists]].
Qed.

(** ** Reports *)

Definition report_total (r : H1ASweepReport) : Z := rp_waiting r + rp_failed r + rp_noops r + rp_deferred r.

Lemma count_total r ob answer : match answer with Ok (EV_DEFERRED, error) => is_Some error | _ => True end ->
  let r' := count_evacuation r ob answer in
  report_total r' = report_total r + 1 /\ rp_observed r' = rp_observed r /\ rp_scan_error r' = rp_scan_error r /\
  Z.of_nat (length (rp_errors r')) - rp_deferred r' = Z.of_nat (length (rp_errors r)) - rp_deferred r /\
  (forall y, y ∈ rp_errors r -> y ∈ rp_errors r').
Proof.
  intros He. unfold report_total, count_evacuation. destruct r as [o w f n d errors scan].
  destruct answer as [[[] error]|e]; simpl; split_and!; rw ?length_app /=; try lia; try done.
  - destruct He as [x ->]. simpl. lia.
  - intros y Hy. apply elem_of_app. by left.
  - intros y Hy. apply elem_of_app. by left.
Qed.

(** A deferred observation is named in the report. *)
Lemma count_deferred r ob answer : match answer with
    | Ok (EV_DEFERRED, error) => is_Some error
    | Ok _ => False
    | Err _ => True
    end -> exists x, (ob_execution_id ob, x) ∈ rp_errors (count_evacuation r ob answer).
Proof.
  intros He. unfold count_evacuation. destruct r as [o w f n d errors scan].
  destruct answer as [[[] error]|e]; try done; simpl; [destruct He as [x ->]; exists x|exists (Unexpected e)];
    apply elem_of_app; right; by left.
Qed.

Lemma evacuate_all_ok obs rest : forall envs db r db' r',
  (forall n ob, rest !! n = Some ob -> evacuation_env_ok now obs (envs n)) -> (forall ob, ob ∈ rest -> ob ∈ obs) ->
  evacuate_all digest cfg envs db now rest r = (db', r') ->
  report_total r' = report_total r + Z.of_nat (length rest) /\ rp_observed r' = rp_observed r /\
  rp_scan_error r' = rp_scan_error r /\
  Z.of_nat (length (rp_errors r')) - rp_deferred r' = Z.of_nat (length (rp_errors r)) - rp_deferred r /\
  (forall y, y ∈ rp_errors r -> y ∈ rp_errors r') /\
  (forall ob, ob ∈ obs -> moved_on now ob db -> moved_on now ob db') /\
  (forall ob, ob ∈ rest -> moved_on now ob db' \/ exists x, (ob_execution_id ob, x) ∈ rp_errors r').
Proof.
  induction rest as [|ob rest IH]; intros envs db r db' r' Henv Hin H; simpl in H.
  { injection H as <- <-. split_and!; try done; [simpl; lia|]. intros ob Hob. by apply elem_of_nil in Hob. }
  destruct (evacuate_observation digest cfg (envs O) db ob now) as [db1 answer] eqn:E.
  pose proof (evacuate_ok obs ob (envs O) db (Henv O ob eq_refl) (Hin ob (list_elem_of_here _ _))) as [K1 K2].
  rw E in K1, K2. simpl in K1, K2.
  destruct (count_total r ob answer) as (T1 & T2 & T3 & T4 & T5); [by destruct answer as [[[] ?]|]|].
  destruct (IH (fun n => envs (S n)) db1 (count_evacuation r ob answer) db' r') as (I1 & I2 & I3 & I4 & I5 & I6 & I7); try done.
  { intros n x Hx. by apply (Henv (S n) x). }
  { intros x Hx. apply Hin. by right. }
  split_and!; [simpl; lia|congruence|congruence|lia|auto|auto|].
  intros x [->|Hx]%elem_of_cons; [|by apply I7].
  assert (moved_on now ob db1 \/ exists y, (ob_execution_id ob, y) ∈ rp_errors (count_evacuation r ob answer)) as [Hm|[y Hy]].
  { destruct answer as [[[] error]|e]; [left; by apply K2..|right; by apply count_deferred|right; by apply count_deferred]. }
  - left. apply I6; [apply Hin; by left|done].
  - right. exists y. by apply I5.
Qed.
End Sweeps.

(** ** Theorems *)

(** C8 sweep_settles: when the scan of a sweep succeeds, every observation is counted once in
    the report, the deferred ones are exactly as many as its errors, and the lease of every
    observation has ended when the sweep is over (taken over, failed, or moved on by itself),
    unless the report names the execution, for executions of tasks and others alike; provided
    that no transaction of others gives an ended lease back. *)
Theorem sweep_settles digest cfg scan envs db cp db' cp' r c s :
  scan_once (cp_scanner cp) scan = Ok (c, Some s) ->
  (forall n ob, observations s !! n = Some ob ->
     evacuation_env_ok (scan_cutoff_utc s) (observations s) (envs n)) ->
  sweep_once digest cfg scan envs db cp = (db', cp', Some r) ->
  cp_scanner cp' = c /\ cp_last_report cp' = Some r /\ rp_scan_error r = None /\
  rp_observed r = report_total r /\ rp_deferred r = Z.of_nat (length (rp_errors r)) /\
  forall ob, ob ∈ observations s ->
    moved_on (scan_cutoff_utc s) ob db' \/ exists x, (ob_execution_id ob, x) ∈ rp_errors r.
Proof.
  intros Hs Henv H. unfold sweep_once in H. rw Hs in H.
  destruct (evacuate_all _ _ _ _ _ _) as [db1 r1] eqn:E. injection H as <- <- <-.
  destruct (evacuate_all_ok digest cfg (scan_cutoff_utc s) (observations s) (observations s) envs db (scanned_report s) db1 r1
    Henv (fun _ H => H) E) as (T1 & T2 & T3 & T4 & _ & _ & T7).
  unfold report_total in *. simpl in *. rw length_map in T4. split_and!; try done; lia.
Qed.

(** The first commit of the budget service is not acknowledged; nobody else writes. *)
Definition undisturbed : EvacuationEnv := {|
  ee_before_load := fun d => d; ee_before_commit := fun d => d; ee_after_rollback := fun d => d; ee_clock := 5;
  ee_before_fail := fun d => d; ee_before_check := fun d => d;
  ee_task_recover := unacknowledged_first; ee_task_fail := unacknowledged_first |}.

Lemma undisturbed_ok now obs : evacuation_env_ok now obs undisturbed.
Proof. split; [done|]. by intros x [|n]. Qed.

Definition new_plane : H1ARecoveryControlPlane := {|
  cp_scanner := init_scanner small_policy; cp_started := false; cp_stop := false; cp_worker := false;
  cp_last_report := None |}.

(** The lost execution of a task is found and taken over by the budget service. *)
Lemma sweep_settles_witness : exists db' cp' r,
  sweep_once demo_digest one_retry (scan_at 60 (rv_agents lost_task_db)) (fun _ => undisturbed) lost_task_db new_plane =
    (db', cp', Some r) /\
  rp_observed r = report_total r /\ rp_waiting r = 1.
Proof.
  destruct (scan_once (cp_scanner new_plane) (scan_at 60 (rv_agents lost_task_db))) as [[c [s|]]|] eqn:Es;
    [|exfalso; revert Es; vm_compute; discriminate..].
  pose proof (fun db' cp' r => sweep_settles demo_digest one_retry (scan_at 60 (rv_agents lost_task_db))
    (fun _ => undisturbed) lost_task_db new_plane db' cp' r c s Es) as T.
  assert (match (sweep_once demo_digest one_retry (scan_at 60 (rv_agents lost_task_db)) (fun _ => undisturbed)
                   lost_task_db new_plane).2 with
          | Some r => rp_waiting r =? 1 | None => false end = true) as Hw by (vm_compute; reflexivity).
  revert T Hw. generalize (sweep_once demo_digest one_retry (scan_at 60 (rv_agents lost_task_db)) (fun _ => undisturbed)
    lost_task_db new_plane).
  intros [[db' cp'] [r|]] T Hw; [|discriminate Hw]. exists db', cp', r. split; [done|]. simpl in Hw.
  destruct (T db' cp' r) as (_ & _ & _ & Ho & _); [|done|split; [exact Ho|lia]].
  intros n ob _. apply undisturbed_ok.
Defined.
